(* ===== verification/_CoqProject ===== *)
-Q . S2P
Prelude.v
FpTypes.v
Rng.v
Links.v
Qman.v
QmanProofs.v
QmanPoll.v
QmanThms.v
TcpCommon.v
FlowTx.v
FlowRx.v
FlowOps.v
Sender.v
FlowProofs.v
FlowHandlers.v
FlowLive.v
FastPath.v
Examples.v
TcpThms.v
FlowThms.v
Timeout.v
TimeoutThms.v
ShmRing.v
ShmRingThms.v
PacketMem.v
PacketMemThms.v
NbQueue.v
SpTypes.v
Cc.v
CcThms.v
NicFlow.v
NicFlowThms.v
SpState.v
TcpConn.v
TcpConnProofs.v
AppNotify.v
Arp.v
Tcp.v
Listen.v
ArpThms.v
HandshakeThms.v
Release.v
ConnThms.v
ListenThms.v
Status.v
AppCtx.v
AppCtxThms.v
LibTypes.v
LibConn.v
LibPoll.v
LibProofs.v
AppLink.v
LibThms.v
Blocking.v
BufCache.v
FastKernel.v
NicQueue.v
NicThms.v
Registry.v
AppQ.v
AppQProofs.v
FastEmu.v
AppQThms.v
SockTypes.v
Epoll.v
EpollProofs.v
SockCtx.v
SockCtl.v
SockXfer.v
EpollThms.v
XferThms.v
SockPoll.v
SlowLoop.v
Connect.v
AppIf.v
AppIfThms.v
