(* ===== verification/Prelude.v ===== *)
(** * TAS (vTAS): a verification library

    TAS runs TCP in a process of its own on dedicated cores, for the
    applications of a host and, in this version (vTAS), of several virtual
    machines.  The fast path (src/tas/fast) handles the packets of established
    connections, the transmit events of its queue manager and the updates the
    applications put into shared queues.  The slow path (src/tas/slow) opens and
    closes connections, and does congestion control, address resolution and
    memory management.  Applications reach both through the library in src/lib;
    virtual machines through the proxy in src/proxy, which hands on messages over
    rings in shared memory.

    ** Conventions

    C integers are [Z] with the wrap-around of their type written out ([u8],
    [u16], [u32], [u64], [s32], [s64] below); memory is a function from addresses
    to bytes ([mem]) with ranges written by [mem_write]; arrays are [gmap Z] read
    with [!!!].  A failed [assert] or [abort], and a loop that has not ended
    within its fuel, are [None]; every theorem about a loop states that enough
    fuel gives [Some].  Struct fields keep their names; [r <| f := v |>] is an
    assignment to a field.  The clock, the content of uninitialised memory and
    the state of other threads are arguments.

    ** Files

    - [Prelude]: integers, byte order, memory, record updates, automation
      ([cside], [clia], [zcase], hint databases [cint], [u32], [beui]).
    - [Links]: lists linked by indices ([path], [queue_rep]), doubly linked lists
      ([dseg]), circular lists, rings of entries in shared memory: the representations
      of the lists of all components.
    - [FpTypes]: structs and constants of the fast path (include/tas_memif.h,
      include/packet_defs.h, tas/include/fastpath.h, tas/fast/internal.h).
    - [TcpCommon]: tas/fast/tcp_common.h; [TcpThms]: its theorems.
    - [Rng]: lib/utils/rng.c, from which [Qman] draws its skip list levels.
    - [Qman]: tas/fast/qman.c, per-VM and per-flow scheduling; [QmanProofs]
      (representation and operations), [QmanPoll] (polling), [QmanThms]
      (theorems).  The flow handlers use the queue manager through the class
      [QmanOps] with its laws [QmanLaws] (FpTypes, Sender); Examples gives the
      instance for [Qman], so the theorems about handlers hold for it.
    - [FlowTx], [FlowRx], [FlowOps]: tas/fast/fast_flows.c.  [FlowTx] builds
      segments and acknowledgements, [FlowRx] is the packet handler as a sequence
      of stages, [FlowOps] the queue manager events, application updates,
      retransmissions, flow lookup and header checks.
    - [Sender]: the transmit side of a connection as an abstract state (positions
      in the stream of the application) and its steps.  [FlowProofs],
      [FlowHandlers], [FlowLive]: lemmas on the handlers; [FastPath]: all flows under any sequence of events; [Examples]: a
      concrete fast path; [FlowThms]: theorems.
    - [Timeout], [TimeoutThms]: lib/utils/timeout.c.
    - [ShmRing], [ShmRingThms]: proxy/shmring.c and proxy/channel.c.
    - [PacketMem], [PacketMemThms]: tas/slow/packetmem.c.
    - [SpTypes]: the structs of the slow path; [Cc], [CcThms]:
      tas/slow/cc.c, the congestion control of all connections.
    - [NicFlow], [NicFlowThms]: the flow table half of
      tas/slow/nicif.c, which installs connections for the fast path.
    - [NbQueue]: include/utils_nbqueue.h.
    - [SpState]: the state of the slow path ([spst]: connections, listeners,
      applications, timers, the ports, packets sent) and its messages.
    - [Arp], [ArpThms]: tas/slow/arp.c and tas/slow/routing.c.
    - [TcpConn] (connections, ports, the hash table, control packets), [Tcp]
      (opening, packets, timeouts, closing) and [Listen] (listeners and accepting):
      tas/slow/tcp.c.  [TcpConnProofs], [ConnThms], [ListenThms] are about one
      connection or listener, [HandshakeThms] about two hosts,
      [Release] about what closing gives back, [Status] about the state machine of
      a connection under all operations.
    - [AppNotify], [AppCtx]: tas/slow/appif_ctx.c, the messages to applications and
      their requests; [AppCtxThms].
    - [LibTypes] (data), [LibConn] (conn.c and the requests of kernel.c), [LibPoll]
      (the polling part of init.c): lib/tas, the library in the application.
      [LibProofs] relates a connection to the streams of the application, and is about
      the list of pending updates; [LibThms] has the theorems.
    - [AppLink]: the queues of a context between [LibConn]/[LibPoll] and [AppCtx]
      under every interleaving of both sides.
    - [Blocking]: tas/blocking.c, when a thread blocks and who wakes it.
    - [BufCache]: the packet buffers of a core (tas/fast/fastemu.c, network.h).
    - [FastKernel] and [NicQueue]: the two sides of the queues between a core and the
      slow path (tas/fast/fast_kernel.c, tas/slow/nicif.c); [NicThms] puts
      them together.  The core indexes the rings by byte offset,
      the slow path by entry.
    - [Registry]: tas/tas.c, the tables of registered VMs and contexts.
    - [AppQ]: tas/fast/fast_appctx.c, polling of the application contexts.
      [AppQProofs]: rings of active contexts and VMs, entries fetched in order, a round
      over the active and over all contexts.
    - [FastEmu]: tas/fast/fastemu.c, one round of a core.  [AppQThms] relates the
      fetched entries to the rings of the applications.
    - [SockTypes]: lib/sockets/internal.h and the descriptors of manage_fd.c; [Epoll]:
      lib/sockets/epoll.c; [SockCtx]: context.c, the events of the library, and the
      loops that wait; [SockCtl]: control.c, dup, tas_epoll_ctl and tas_epoll_wait;
      [SockXfer]: transfer.c; [SockPoll]: poll.c.  A call is atomic except for its waits, where the rest
      of the world makes an arbitrary step ([pollenv]).  [EpollProofs] relates the
      lists of bindings to Rocq lists, and has the invariant of epoll and its
      preservation by every operation; [EpollThms] and [XferThms] are the theorems.
    - [SlowLoop]: tas/slow/budget.c, the refill of the budgets of VMs, and what kernel.c
      decides itself: how long to block, and which timeout is whose.
    - [Connect]: tas/slow/appif_connect.c, and the part of lib/tas/kernel.c and
      kernel_pxy.c that connects: descriptors sent over a Unix socket, the request for a
      context and how its answer is read.
    - [AppIf]: tas/slow/appif.c and nicif_appctx_add, the registration of VMs, applications
      and contexts: one step for each event of the thread of the Unix sockets, and the
      polling by the slow path; [AppIfThms].

    ** What is shown

    - Fast path (FlowThms): a run of packets, events and updates does not abort when the
      events meet what their callers guarantee ([run_pre]: packets not shorter than their
      headers and not in the gap that trimming mishandles, room for a packet and a
      notification, a transmit buffer not larger than the receive buffer for the flows an
      application updates).  Then every flow moves by steps of its connection
      specification, the bytes of the peer's stream that these steps deliver are in the
      receive buffer in order, what is sent are the bytes the application wrote, nothing is
      taken as acknowledged that was not sent ([fast_path_run]).  For single handlers:
      data in order is copied and acknowledged, gaps are filled, acknowledgements release
      buffer space, retransmission rewinds the sender and arms the queue manager; an
      update of an application is taken exactly under the conditions of [bump_takes], and
      otherwise only its sequence number is noted.  A segment on the wire is parsed back to
      the values it was built from.
    - Queue manager (QmanThms): setting a queue and polling succeed in every well
      formed state and conserve bytes; flow lists refine a FIFO queue and a list
      ordered by time; a state in which a poll does not return is exhibited.
    - TCP arithmetic (TcpThms): window checks and trimming agree with the
      arithmetic of unbounded sequence numbers, with the exceptions exhibited;
      the option parser is total except on the characterised inputs.
    - Timeouts (TimeoutThms): the operations refine those of a list ordered by
      absolute time, across wrap-around of the 28-bit stamps.
    - Channels (ShmRingThms): a ring refines a bounded queue of bytes, a channel
      hands on messages unchanged; without its locks a ring can lose its content.
    - Packet memory (PacketMemThms): in every reachable state the blocks in use are
      disjoint and no byte of the region is lost; allocation is first fit; freed
      neighbours are not always joined.
    - Flow installation (NicFlowThms): an installed flow is found by the lookup of
      the fast path and starts in a state that satisfies its invariant, so that
      [fast_path_run] applies; a removed one is not found.  A counterexample shows
      that an entry moved twice is lost.
    - Congestion control (CcThms): polling never aborts, keeps every rate and window
      within its bounds, and visits the connections of a VM in turn.
    - Connections (HandshakeThms, ConnThms, ListenThms, Status): two hosts whose
      handshake completes agree on addresses and sequence numbers; the operations
      move a connection along its state machine; a packet is looked up as its connection; a
      backlog is a bounded queue; connections and SYN packets are paired in order, and the
      connection takes the addresses and numbers of its SYN; a handshake timeout is
      retried or reported; the close timeout releases what was allocated.  With a full
      queue to the application nothing is reported, and the theorems state what is left
      behind ([conn_stuck], [conn_dangles]).
    - ARP (ArpThms): a reply resolves the address for every waiting connection.
    - Requests (AppCtxThms, AppLink): a poll takes one request and uses at most one
      answer entry; in every interleaving the queues of a context deliver requests and
      messages completely and in order, and a poll of the library gives exactly their events.
    - Application library (LibThms): an update of the fast path gives exactly the events
      of its bytes, in order and inside the buffer, or is refused when there is no space
      for its events (one more than it needs after the acknowledged end of the stream);
      allocated bytes are disjoint from bytes in flight; pending updates are sent in order
      as long as entries are free; an application blocks only when its polls over the poll
      cycle found nothing, and after one more poll; the poll that looks at all queues first
      has the result of the plain one.
    - Queues of a core to the slow path (NicThms): both directions are FIFO queues under
      every interleaving of the two sides; a full queue refuses.  Buffers of a core are
      conserved by every use of the cache (BufCache).
    - Registration (Connect, AppIfThms): what a process reads from the greeting is what was
      sent; when a request for a context succeeds, the slow path, the registers of the fast
      path and the library agree on the rings, which lie in blocks of their own.
    - Polling of applications (AppQThms): a round takes the updates of all contexts off
      their rings in order, applies each once with [fast_flows_bump], and leaves none
      behind while there is room; a round over the active contexts stays within its
      arrays as long as at most 16 contexts are active, and overruns one of them with 17.
    - Blocking (Blocking): a thread blocks only after an idle period during which it
      looked at its work, and is woken by whoever gives it work.
    - Epoll (EpollThms): under every sequence of calls no ready socket is missing from
      the queue of an instance that waits for it, a wait reports ready sockets in order
      and each once, and no ready socket starves.  A failed removal hides all sockets.
    - Sockets (XferThms): received data is handed over in at most two pieces and in
      order; a read copies exactly the next bytes of the stream and frees their place;
      a write puts exactly the next bytes into the transmit buffer and overwrites none
      that is not acknowledged.

    ** Fuel

    The option parser takes at most 41 iterations on the 40 bytes of options,
    else it does not end at all.  [vm_poll_fuel] and [flow_poll_fuel] bound the
    rounds of the queue manager by the number of VMs, flows and bytes it can hand
    out; [tm_fuel] is the number of timeouts.  The theorems prove these enough.
    [pm_fuel] is the number of handles on the heap, [conn_fuel], [cc_fuel] and the
    searches of [AppCtx] that of the objects on the heap plus one: a list without
    cycle ends within it.  [port_loop] has 65536 steps, one for each port;
    [OPTS_FUEL] is 41, as in the fast path; [routing_hops] has the length of the
    routing table plus one; the loops over the flow hash table have its 2^17
    entries.  [kernel_poll] has as many steps as events are asked for, since every
    message gives one; [rxq_fuel] is the number of entries of a queue, [vec_fuel]
    that of all queues together, [vec_collect] the number of events, [conns_bump]
    the number of connections.
    [ctx_fuel] is FLEXNIC_PL_APPST_CTX_NUM and [vm_fuel] FLEXNIC_PL_VMST_NUM, the sizes of
    the arrays of contexts and VMs; [parse_fuel] is 64 as the options have 40 bytes; the loop
    over the queue of the slow path has the entries of the ring plus two; loops over
    bindings of epoll have the number of bindings, [enqueue_accept_loop] that of the free
    slots of the backlog.  A loop that waits takes its steps from a list and is
    [Blocked] when the list ends.

    ** Not modelled

    Operating system and DPDK calls (start-up, mappings, eventfd, mbuf pools,
    network ports, kni.c, the creation of Unix sockets and threads), tracing,
    statistics and debug output, prefetching; the true parallelism of cores
    (handlers are atomic, as the flow lock makes them; ring operations of the proxy
    are interleaved store by store where it matters).  Tunnels (VIRTUOSO_GRE) are a
    parameter of the slow path and of [FastKernel]; the main loop of the fast path is
    modelled without them.  Of fastemu.c the set-up of rings and eventfds, statistics
    and debug counters are left out; of nicif.c the queues of OvS and the allocation of
    memory; of appif.c uxsocket_init and its parts, which create the sockets; of the
    slow path the main loop, except for its waits, and the packets for
    the kernel of the host (kernel.c, kni.c).  Configuration, start-up, shared memory
    mappings and small utilities (config.c, shm.c, tas.c apart from its tables) have no
    state worth a model.  Of lib/tas the mappings (connect.c, init_pxy.c) are left out,
    and the part of init.c that connects and creates the eventfd of a context; of
    lib/sockets the locks (a call is taken as atomic between its waits), new contexts and
    fork, and the interposed symbols, which only forward.  Of the proxy only the channels
    and the greeting of applications are modelled: host and guest forward messages between
    channels, Unix sockets and the library.  Tests, tools and generated files are not
    part of the program. *)

From Stdlib Require Export ZArith Lia Bool.
From stdpp Require Export base tactics option list gmap fin_maps.

#[global] Open Scope Z_scope.

(** Cells of zeroed memory ([calloc], static storage) read as 0. *)
#[export] Instance Z_zero_inhabited : Inhabited Z := populate 0.

(** ** C integers *)

(** Reduction to the unsigned C types. *)
Definition u8 (z : Z) : Z := z mod 256.
Definition u16 (z : Z) : Z := z mod 65536.
Definition u32 (z : Z) : Z := z mod 4294967296.
Definition u64 (z : Z) : Z := z mod 18446744073709551616.

(** Reduction to the signed types of [w] bits (two's complement). *)
Definition s32 (z : Z) : Z := (z + 2147483648) mod 4294967296 - 2147483648.
Definition s64 (z : Z) : Z :=
  (z + 9223372036854775808) mod 18446744073709551616 - 9223372036854775808.

(** [is_u32 z]: [z] is the value of a [uint32_t]. *)
Definition is_u8 (z : Z) : Prop := 0 <= z < 256.
Definition is_u16 (z : Z) : Prop := 0 <= z < 65536.
Definition is_u32 (z : Z) : Prop := 0 <= z < 4294967296.
Definition is_u64 (z : Z) : Prop := 0 <= z < 18446744073709551616.

Create HintDb cint.
Create Rewrite HintDb u32.
Create Rewrite HintDb beui.

(** [cbounds] turns every wrap-around into linear equations, then [lia]. *)
Ltac cunfold :=
  unfold s32, s64, u8, u16, u32, u64, is_u8, is_u16, is_u32, is_u64 in *.
(** Linear side conditions on C values. *)
Ltac cside := unfold is_u8, is_u16, is_u32, is_u64 in *; lia.
Ltac clia := cunfold; Z.div_mod_to_equations; lia.

Lemma u8_id z : is_u8 z -> u8 z = z.
Proof. unfold is_u8, u8. intros. apply Z.mod_small. lia. Qed.

Lemma u16_id z : is_u16 z -> u16 z = z.
Proof. unfold is_u16, u16. intros. apply Z.mod_small. lia. Qed.

Lemma u32_id z : is_u32 z -> u32 z = z.
Proof. unfold is_u32, u32. intros. apply Z.mod_small. lia. Qed.

Lemma u64_id z : is_u64 z -> u64 z = z.
Proof. unfold is_u64, u64. intros. apply Z.mod_small. lia. Qed.

Lemma u8_range z : is_u8 (u8 z).
Proof. unfold is_u8, u8. apply Z.mod_pos_bound. lia. Qed.

Lemma u16_range z : is_u16 (u16 z).
Proof. unfold is_u16, u16. apply Z.mod_pos_bound. lia. Qed.

Lemma u32_range z : is_u32 (u32 z).
Proof. unfold is_u32, u32. apply Z.mod_pos_bound. lia. Qed.

Lemma u64_range z : is_u64 (u64 z).
Proof. unfold is_u64, u64. apply Z.mod_pos_bound. lia. Qed.

#[export] Hint Resolve u8_range u16_range u32_range u64_range : cint.

Lemma u32_u32 z : u32 (u32 z) = u32 z.
Proof. apply u32_id, u32_range. Qed.

Lemma u32_add_l a b : u32 (u32 a + b) = u32 (a + b).
Proof. unfold u32. apply Zplus_mod_idemp_l. Qed.

Lemma u32_add_r a b : u32 (a + u32 b) = u32 (a + b).
Proof. unfold u32. apply Zplus_mod_idemp_r. Qed.

Lemma u32_sub_l a b : u32 (u32 a - b) = u32 (a - b).
Proof. unfold u32. apply Zminus_mod_idemp_l. Qed.

Lemma u32_sub_r a b : u32 (a - u32 b) = u32 (a - b).
Proof. unfold u32. apply Zminus_mod_idemp_r. Qed.

#[export] Hint Rewrite u32_u32 u32_add_l u32_add_r u32_sub_l u32_sub_r : u32.

(** Facts about [u32] of a sum, avoiding division in the proofs below. *)
Lemma u32_add_cases a b :
  is_u32 a -> 0 <= b < 4294967296 ->
  (a + b < 4294967296 /\ u32 (a + b) = a + b)
  \/ (4294967296 <= a + b /\ u32 (a + b) = a + b - 4294967296).
Proof. clia. Qed.

Lemma u32_sub_cases a b :
  is_u32 a -> is_u32 b ->
  (b <= a /\ u32 (a - b) = a - b)
  \/ (a < b /\ u32 (a - b) = a - b + 4294967296).
Proof. clia. Qed.

Lemma s32_cases a b :
  is_u32 a -> is_u32 b ->
  (s32 (a - b) = a - b /\ - 2147483648 <= a - b < 2147483648)
  \/ (s32 (a - b) = a - b - 4294967296 /\ 2147483648 <= a - b)
  \/ (s32 (a - b) = a - b + 4294967296 /\ a - b < - 2147483648).
Proof. clia. Qed.

(** ** Circular buffer positions *)

Lemma wrap_add pos n len :
  0 <= pos < len -> 0 <= n <= len ->
  (if len <=? pos + n then pos + n - len else pos + n) = (pos + n) mod len.
Proof.
  intros. destruct (Z.leb_spec len (pos + n)).
  - apply (Z.mod_unique _ _ 1); lia.
  - rewrite Z.mod_small; lia.
Qed.

Lemma wrap_mod pos n len :
  0 <= pos < len -> 0 <= n < len ->
  (pos + n < len /\ (pos + n) mod len = pos + n)
  \/ (len <= pos + n /\ (pos + n) mod len = pos + n - len).
Proof.
  intros. rewrite <- wrap_add by lia.
  destruct (Z.leb_spec len (pos + n)); lia.
Qed.

Lemma u32_sub_pos a b : is_u32 a -> 0 <= b <= a -> u32 (a - b) = a - b.
Proof. clia. Qed.

Lemma u32_add_small a b : 0 <= a + b < 4294967296 -> u32 (a + b) = a + b.
Proof. clia. Qed.

(** ** Bit fields *)

(** Two fields of a word that do not overlap. *)
Lemma land_shiftl_low a f k : 0 <= k -> 0 <= f < 2 ^ k -> Z.land (Z.shiftl a k) f = 0.
Proof.
  intros Hk Hf. apply Z.bits_inj'. intros n Hn.
  rewrite Z.land_spec, Z.bits_0. destruct (Z.ltb_spec n k).
  - by rewrite Z.shiftl_spec_low.
  - destruct (Z.eqb_spec f 0) as [->|]; [by rewrite Z.bits_0, andb_false_r|].
    rewrite (Z.bits_above_log2 f); [apply andb_false_r|lia|].
    apply Z.log2_lt_pow2; [lia|]. apply Z.lt_le_trans with (2 ^ k); [lia|].
    apply Z.pow_le_mono_r; lia.
Qed.

Lemma lor_shiftl_low a f k :
  0 <= k -> 0 <= f < 2 ^ k -> Z.lor (Z.shiftl a k) f = a * 2 ^ k + f.
Proof.
  intros Hk Hf. pose proof (Z.add_lor_land (Z.shiftl a k) f) as Hl.
  rewrite land_shiftl_low in Hl by done. rewrite Z.shiftl_mul_pow2 in Hl |- * by done.
  lia.
Qed.

(** ** Byte order

    Byte swaps: the [beui16_t] and [beui32_t] wrappers of utils.h keep the raw
    (little endian) word [x]; [f_beui*] and [t_beui*] swap it. *)
Definition bswap16 (x : Z) : Z := (x mod 256) * 256 + x / 256.
Definition bswap32 (x : Z) : Z :=
  (x mod 256) * 16777216 + (x / 256 mod 256) * 65536
  + (x / 65536 mod 256) * 256 + x / 16777216.

Definition f_beui16 (x : Z) : Z := bswap16 x.
Definition f_beui32 (x : Z) : Z := bswap32 x.
Definition t_beui16 (x : Z) : Z := bswap16 (u16 x).
Definition t_beui32 (x : Z) : Z := bswap32 (u32 x).

Lemma bswap16_range x : is_u16 x -> is_u16 (bswap16 x).
Proof. unfold is_u16, bswap16. intros. Z.div_mod_to_equations. lia. Qed.

Lemma bswap16_invol x : is_u16 x -> bswap16 (bswap16 x) = x.
Proof. unfold is_u16, bswap16. intros. Z.div_mod_to_equations. lia. Qed.

(** The value of four bytes, and the bytes of that value. *)
Lemma bytes4_split (a b c d : Z) :
  is_u8 a -> is_u8 b -> is_u8 c -> is_u8 d ->
  (a * 16777216 + b * 65536 + c * 256 + d) mod 256 = d
  /\ (a * 16777216 + b * 65536 + c * 256 + d) / 256 mod 256 = c
  /\ (a * 16777216 + b * 65536 + c * 256 + d) / 65536 mod 256 = b
  /\ (a * 16777216 + b * 65536 + c * 256 + d) / 16777216 = a.
Proof.
  unfold is_u8. intros Ha Hb Hc Hd.
  repeat split; Z.div_mod_to_equations; lia.
Qed.

Lemma bytes4_join x :
  is_u32 x ->
  x = (x / 16777216) * 16777216 + (x / 65536 mod 256) * 65536
      + (x / 256 mod 256) * 256 + x mod 256.
Proof. unfold is_u32. intros. Z.div_mod_to_equations. lia. Qed.

Lemma bswap32_range x : is_u32 x -> is_u32 (bswap32 x).
Proof. unfold is_u32, bswap32. intros. Z.div_mod_to_equations. lia. Qed.

Lemma bswap32_invol x : is_u32 x -> bswap32 (bswap32 x) = x.
Proof.
  intros Hx. pose proof (bytes4_join x Hx) as J.
  destruct (bytes4_split (x mod 256) (x / 256 mod 256) (x / 65536 mod 256)
              (x / 16777216)) as (E1 & E2 & E3 & E4).
  1-4: unfold is_u8, is_u32 in *; Z.div_mod_to_equations; lia.
  unfold bswap32 at 1. fold (bswap32 x) in E1, E2, E3, E4.
  unfold bswap32 in *. rewrite E1, E2, E3, E4. lia.
Qed.

Lemma f_t_beui16 x : f_beui16 (t_beui16 x) = u16 x.
Proof. apply bswap16_invol, u16_range. Qed.

Lemma f_t_beui32 x : f_beui32 (t_beui32 x) = u32 x.
Proof. apply bswap32_invol, u32_range. Qed.

#[export] Hint Rewrite f_t_beui16 f_t_beui32 : beui.

(** ** Record update

    [r <| p := v |>] is [r] with field [p] set to [v].  A record type gives
    its eta expansion as an instance of [Eta]; the setter of a field is
    computed from it. *)
Class Eta (R : Type) := eta : R -> R.
Class Setter {R F : Type} (p : R -> F) := setf : (F -> F) -> R -> R.
Arguments setf {R F} p {_} f r /.

Ltac make_setter :=
  lazymatch goal with
  | |- @Setter ?R ?F ?p =>
      let f := fresh "f" in
      let r := fresh "r" in
      intros f r;
      let e := eval hnf in (@eta R _ r) in
      let e := eval pattern (p r) in e in
      lazymatch e with
      | ?g _ => let b := eval cbv beta in (g (f (p r))) in exact b
      end
  end.
#[export] Hint Extern 1 (Setter _) => make_setter : typeclass_instances.

Declare Scope tas_scope.
Delimit Scope tas_scope with tas.
Notation "r <| p := v |>" := (setf p (fun _ => v) r)
  (at level 12, left associativity, p at level 11, v at level 99,
   format "r  <| p  :=  v |>") : tas_scope.
Notation "r <| p ::= f |>" := (setf p f r)
  (at level 12, left associativity, p at level 11, f at level 99,
   format "r  <| p  ::=  f |>") : tas_scope.
#[global] Open Scope tas_scope.

(** ** Failing code

    [abort()], a failed [assert] and an access the model has no value for are
    [None]. *)
Definition cassert (b : bool) : option unit := if b then Some tt else None.

Lemma cassert_Some b x : cassert b = Some x -> b = true.
Proof. by destruct b. Qed.

(** [cstep H] decomposes a successful option computation in [H]. *)
Ltac cstep H :=
  repeat first
    [ progress simplify_eq
    | lazymatch type of H with
      | (cassert ?b ≫= _) = Some _ =>
          let E := fresh "Eassert" in destruct b eqn:E; cbn [cassert mbind option_bind] in H; [|discriminate H]
      | (?o ≫= _) = Some _ =>
          let E := fresh "Ebind" in destruct o eqn:E; cbn [mbind option_bind] in H; [|discriminate H]
      end ].

(** Boolean tests as propositions. *)
Ltac bprop :=
  repeat match goal with
  | H : (_ && _) = true |- _ => apply andb_true_iff in H; destruct H
  | H : (_ || _) = false |- _ => apply orb_false_iff in H; destruct H
  | H : negb _ = true |- _ => apply negb_true_iff in H
  | H : negb _ = false |- _ => apply negb_false_iff in H
  | H : (_ =? _) = true |- _ => apply Z.eqb_eq in H
  | H : (_ =? _) = false |- _ => apply Z.eqb_neq in H
  | H : (_ <=? _) = true |- _ => apply Z.leb_le in H
  | H : (_ <=? _) = false |- _ => apply Z.leb_gt in H
  | H : (_ <? _) = true |- _ => apply Z.ltb_lt in H
  | H : (_ <? _) = false |- _ => apply Z.ltb_ge in H
  | H : (_ >=? _) = _ |- _ => rewrite Z.geb_leb in H
  | H : (_ >? _) = _ |- _ => rewrite Z.gtb_ltb in H
  end.

(** Case analysis on the next comparison of the goal, with linear facts. *)
Ltac zcase :=
  match goal with
  | |- context [?a <? ?b] => destruct (Z.ltb_spec a b)
  | |- context [?a <=? ?b] => destruct (Z.leb_spec a b)
  | |- context [?a =? ?b] => destruct (Z.eqb_spec a b)
  end.

(** Decides every comparison of the goal that the context does not fix. *)
Ltac zdecide := repeat (zcase; cbn [andb orb]; try (exfalso; lia)).

(** ** Byte memory *)

(** A memory is a total function from addresses to bytes. *)
Definition mem : Type := Z -> Z.

(** [memcpy] of [len] bytes of [src] to [dst], starting at [addr]. *)
Definition mem_write (m : mem) (addr len : Z) (src : Z -> Z) : mem :=
  fun a => if (addr <=? a) && (a <? addr + len) then src (a - addr) else m a.

Lemma mem_write_in m addr len src a :
  addr <= a < addr + len -> mem_write m addr len src a = src (a - addr).
Proof.
  intros. unfold mem_write.
  destruct (Z.leb_spec addr a), (Z.ltb_spec a (addr + len)); lia || done.
Qed.

Lemma mem_write_out m addr len src a :
  ~ (addr <= a < addr + len) -> mem_write m addr len src a = m a.
Proof.
  intros. unfold mem_write.
  destruct (Z.leb_spec addr a), (Z.ltb_spec a (addr + len)); lia || done.
Qed.

(** Little-endian 32-bit load and store. *)
Definition load32 (m : mem) (a : Z) : Z :=
  m a + m (a + 1) * 256 + m (a + 2) * 65536 + m (a + 3) * 16777216.

Definition store32 (m : mem) (a v : Z) : mem :=
  mem_write m a 4 (fun i => v / 256 ^ i mod 256).

Lemma load32_store32 m a v : is_u32 v -> load32 (store32 m a v) a = v.
Proof.
  intros Hv. unfold load32, store32.
  rewrite !mem_write_in by lia.
  replace (a - a) with 0 by lia. replace (a + 1 - a) with 1 by lia.
  replace (a + 2 - a) with 2 by lia. replace (a + 3 - a) with 3 by lia.
  change (256 ^ 0) with 1. change (256 ^ 1) with 256.
  change (256 ^ 2) with 65536. change (256 ^ 3) with 16777216.
  pose proof (bytes4_join v Hv) as J. unfold is_u32 in Hv.
  rewrite (Z.mod_small (v / 16777216)) by (Z.div_mod_to_equations; lia).
  rewrite Z.div_1_r. lia.
Qed.

Lemma load32_store32_ne m a b v :
  a + 4 <= b \/ b + 4 <= a -> load32 (store32 m a v) b = load32 m b.
Proof.
  intros. unfold load32, store32. rewrite !mem_write_out by lia. done.
Qed.
