(* ===== verification/FpTypes.v ===== *)
(** * Data of the fast path

    The structs and constants of include/tas_memif.h, include/packet_defs.h,
    tas/include/fastpath.h and tas/fast/internal.h that the fast-path handlers
    read and write.  Fields of the [beui16_t]/[beui32_t] types hold the raw
    word [x], as in the C struct. *)

From S2P Require Import Prelude.

(** ** Constants *)

Definition FLEXNIC_PL_VMST_NUM : Z := 6.
Definition FLEXNIC_PL_APPST_CTX_NUM : Z := 62.
Definition FLEXNIC_PL_APPCTX_NUM : Z := 32.
Definition FLEXNIC_PL_FLOWST_NUM : Z := 131072.
Definition FLEXNIC_PL_FLOWHT_ENTRIES : Z := 262144.
Definition FLEXNIC_PL_FLOWHT_NBSZ : Z := 4.
Definition FLEXNIC_NUM_QMFLOWQUEUES : Z := 131072.

(** Flag bits stored in the low bits of [rx_base_sp]; each is [2 ^ bit]. *)
Definition FLOWST_SLOWPATH_BIT : Z := 0.
Definition FLOWST_ECN_BIT : Z := 3.
Definition FLOWST_TXFIN_BIT : Z := 4.
Definition FLOWST_RXFIN_BIT : Z := 5.
Definition FLEXNIC_PL_FLOWST_SLOWPATH : Z := 1.
Definition FLEXNIC_PL_FLOWST_ECN : Z := 8.
Definition FLEXNIC_PL_FLOWST_TXFIN : Z := 16.
Definition FLEXNIC_PL_FLOWST_RXFIN : Z := 32.
Definition FLEXNIC_PL_FLOWST_RX_MASK : Z := 18446744073709551552.

Definition FLEXNIC_PL_FLOWHTE_VALID : Z := 2147483648.
Definition FLEXNIC_PL_FLOWHTE_POSSHIFT : Z := 29.

Definition FLEXTCP_PL_ARX_CONNUPDATE : Z := 1.
Definition FLEXTCP_PL_ARX_FLRXDONE : Z := 1.
Definition FLEXTCP_PL_ATX_CONNUPDATE : Z := 1.
Definition FLEXTCP_PL_ATX_FLTXDONE : Z := 1.

Definition BATCH_SIZE : Z := 16.
Definition TXBUF_SIZE : Z := 32.
Definition IDXLIST_INVAL : Z := 4294967295.

Definition QMAN_SET_RATE : Z := 1.
Definition QMAN_SET_MAXCHUNK : Z := 2.
Definition QMAN_SET_AVAIL : Z := 8.
Definition QMAN_ADD_AVAIL : Z := 16.

Definition TAS_TCP_FIN : Z := 1.
Definition TAS_TCP_SYN : Z := 2.
Definition TAS_TCP_PSH : Z := 8.
Definition TAS_TCP_ACK : Z := 16.
Definition TAS_TCP_ECE : Z := 64.
Definition TAS_TCP_CWR : Z := 128.
Definition TAS_TCP_FLAGS : Z := 511.

Definition TCP_OPT_END_OF_OPTIONS : Z := 0.
Definition TCP_OPT_NO_OP : Z := 1.
Definition TCP_OPT_TIMESTAMP : Z := 8.

Definition ETH_TYPE_IP : Z := 2048.
Definition IP_PROTO_TCP : Z := 6.
Definition IP_PROTO_GRE : Z := 47.
Definition GRE_PROTO_IP : Z := 2048.
Definition TAS_IP_ECN_NONE : Z := 0.
Definition TAS_IP_ECN_ECT0 : Z := 2.
Definition TAS_IP_ECN_CE : Z := 3.

(** [sizeof] and [offsetof] of the packed packet structs. *)
Definition sizeof_eth : Z := 14.
Definition sizeof_ip : Z := 20.
Definition sizeof_gre : Z := 8.
Definition sizeof_tcp : Z := 20.
Definition sizeof_ts_opt : Z := 10.
Definition sizeof_pkt_tcp : Z := sizeof_eth + sizeof_ip + sizeof_tcp.
Definition offsetof_tcp_ip : Z := sizeof_eth.
Definition offsetof_tcp_tcp : Z := sizeof_eth + sizeof_ip.
Definition sizeof_pkt_gre : Z :=
  sizeof_eth + sizeof_ip + sizeof_gre + sizeof_ip + sizeof_tcp.
Definition offsetof_gre_out_ip : Z := sizeof_eth.
Definition offsetof_gre_in_ip : Z := sizeof_eth + sizeof_ip + sizeof_gre.
Definition offsetof_gre_tcp : Z :=
  sizeof_eth + sizeof_ip + sizeof_gre + sizeof_ip.

(** ** Packets *)

(** A MAC address is the 48-bit number of its six bytes. *)
Record eth_hdr : Type := mk_eth { eth_dest : Z; eth_src : Z; eth_type : Z }.

Record ip_hdr : Type := mk_ip {
  _v_hl : Z; _tos : Z; ip_len : Z; ip_id : Z; ip_offset : Z; ip_ttl : Z;
  ip_proto : Z; ip_chksum : Z; ip_src : Z; ip_dest : Z }.

Record gre_hdr : Type := mk_gre { _c_k_s_ver : Z; gre_proto : Z; gre_key : Z }.

Record tcp_hdr : Type := mk_tcp {
  tcp_src : Z; tcp_dest : Z; tcp_seqno : Z; tcp_ackno : Z;
  _hdrlen_rsvd_flags : Z; tcp_wnd : Z; tcp_chksum : Z; tcp_urgp : Z }.

#[export] Instance eta_eth : Eta eth_hdr := fun r =>
  mk_eth (eth_dest r) (eth_src r) (eth_type r).
#[export] Instance eta_ip : Eta ip_hdr := fun r =>
  mk_ip (_v_hl r) (_tos r) (ip_len r) (ip_id r) (ip_offset r) (ip_ttl r)
    (ip_proto r) (ip_chksum r) (ip_src r) (ip_dest r).
#[export] Instance eta_tcp : Eta tcp_hdr := fun r =>
  mk_tcp (tcp_src r) (tcp_dest r) (tcp_seqno r) (tcp_ackno r)
    (_hdrlen_rsvd_flags r) (tcp_wnd r) (tcp_chksum r) (tcp_urgp r).

(** A packet buffer seen as [struct pkt_tcp] or [struct pkt_gre]: the headers
    and the bytes after the struct ([p + 1]: options, then payload). *)
Record pkt_tcp : Type := mk_pkt_tcp {
  p_eth : eth_hdr; p_ip : ip_hdr; p_tcp : tcp_hdr; p_rest : mem }.

Record pkt_gre : Type := mk_pkt_gre {
  g_eth : eth_hdr; g_out_ip : ip_hdr; g_gre : gre_hdr; g_in_ip : ip_hdr;
  g_tcp : tcp_hdr; g_rest : mem }.

#[export] Instance eta_pkt_tcp : Eta pkt_tcp := fun r =>
  mk_pkt_tcp (p_eth r) (p_ip r) (p_tcp r) (p_rest r).
#[export] Instance eta_pkt_gre : Eta pkt_gre := fun r =>
  mk_pkt_gre (g_eth r) (g_out_ip r) (g_gre r) (g_in_ip r) (g_tcp r) (g_rest r).

Definition IPH_V (h : ip_hdr) : Z := Z.shiftr (_v_hl h) 4.
Definition IPH_HL (h : ip_hdr) : Z := Z.land (_v_hl h) 15.
Definition IPH_ECN (h : ip_hdr) : Z := Z.land (_tos h) 3.
Definition IPH_VHL_SET (v hl : Z) (h : ip_hdr) : ip_hdr :=
  h <| _v_hl := u8 (Z.lor (Z.shiftl v 4) hl) |>.
Definition IPH_ECN_SET (e : Z) (h : ip_hdr) : ip_hdr :=
  h <| _tos := u8 (Z.lor (Z.land (_tos h) 4092) e) |>.

(** [ntohs]/[htons] of the raw 16-bit word. *)
Definition TCPH_HDRLEN (h : tcp_hdr) : Z :=
  Z.shiftr (bswap16 (_hdrlen_rsvd_flags h)) 12.
Definition TCPH_FLAGS (h : tcp_hdr) : Z :=
  Z.land (bswap16 (_hdrlen_rsvd_flags h)) TAS_TCP_FLAGS.
Definition TCPH_HDRLEN_FLAGS_SET (len flags : Z) (h : tcp_hdr) : tcp_hdr :=
  h <| _hdrlen_rsvd_flags := bswap16 (u16 (Z.lor (Z.shiftl len 12) flags)) |>.

Definition GREH_CKSV (c k s v : Z) : Z :=
  t_beui16 (Z.lor (Z.lor (Z.shiftl c 15) (Z.shiftl k 13))
                  (Z.lor (Z.shiftl s 12) v)).

(** [(x & f) == f] for a flag constant [f]. *)
Definition has_flag (x f : Z) : bool := Z.land x f =? f.

(** ** Flow state registers *)

Record flowst : Type := mk_flowst {
  opaque : Z; rx_base_sp : Z; tx_base : Z; rx_len : Z; tx_len : Z;
  tunnel_id : Z; out_local_ip : Z; out_remote_ip : Z; in_local_ip : Z;
  in_remote_ip : Z; local_port : Z; remote_port : Z; remote_mac : Z;
  db_id : Z; app_id : Z; vm_id : Z; flow_group : Z; bump_seq : Z;
  lock : Z; rx_avail : Z; rx_next_pos : Z; rx_next_seq : Z;
  rx_remote_avail : Z; rx_dupack_cnt : Z; rx_ooo_start : Z; rx_ooo_len : Z;
  tx_avail : Z; tx_sent : Z; tx_next_pos : Z; tx_next_seq : Z;
  tx_next_ts : Z; tx_rate : Z; cnt_tx_drops : Z; cnt_rx_acks : Z;
  cnt_rx_ack_bytes : Z; cnt_rx_ecn_bytes : Z; rtt_est : Z }.

#[export] Instance eta_flowst : Eta flowst := fun r =>
  mk_flowst (opaque r) (rx_base_sp r) (tx_base r) (rx_len r) (tx_len r)
    (tunnel_id r) (out_local_ip r) (out_remote_ip r) (in_local_ip r)
    (in_remote_ip r) (local_port r) (remote_port r) (remote_mac r)
    (db_id r) (app_id r) (vm_id r) (flow_group r) (bump_seq r)
    (lock r) (rx_avail r) (rx_next_pos r) (rx_next_seq r)
    (rx_remote_avail r) (rx_dupack_cnt r) (rx_ooo_start r) (rx_ooo_len r)
    (tx_avail r) (tx_sent r) (tx_next_pos r) (tx_next_seq r)
    (tx_next_ts r) (tx_rate r) (cnt_tx_drops r) (cnt_rx_acks r)
    (cnt_rx_ack_bytes r) (cnt_rx_ecn_bytes r) (rtt_est r).

(** The zeroed struct of freshly mapped internal memory. *)
Definition flowst_zero : flowst :=
  mk_flowst 0 0 0 0 0 0 0 0 0 0 0 0 0 0 0 0 0 0 0 0 0 0 0 0 0 0 0 0 0 0 0 0 0 0 0 0 0.
#[export] Instance flowst_inhabited : Inhabited flowst := populate flowst_zero.

(** Flow lookup table entry. *)
Record flowhte : Type := mk_flowhte { flow_id : Z; flow_hash : Z }.
#[export] Instance flowhte_inhabited : Inhabited flowhte :=
  populate (mk_flowhte 0 0).

(** ** Application context queues *)

(** Application RX queue entry with a connection update. *)
Record arx : Type := mk_arx {
  arx_type : Z; arx_opaque : Z; arx_rx_bump : Z; arx_rx_pos : Z;
  arx_tx_bump : Z; arx_flags : Z }.
#[export] Instance arx_inhabited : Inhabited arx := populate (mk_arx 0 0 0 0 0 0).

(** ** Dataplane context

    [tx_handles] entries record the buffer, its contents and the offset and
    length set on it when it was queued; [te_xsum] is the checksum offload
    request left in the mbuf. *)
Inductive xsum_req : Type :=
| XsumNone
| XsumTcp (l2l l3l : Z)
| XsumGre (l2l in_l3l out_l3l : Z).

Inductive pktbuf : Type :=
| PktTcp (p : pkt_tcp)
| PktGre (p : pkt_gre).

Record tx_ent : Type := mk_tx_ent {
  te_nbh : Z; te_pkt : pktbuf; te_off : Z; te_len : Z; te_xsum : xsum_req }.

Record dataplane_context (Q : Type) : Type := mk_dpctx {
  ctx_id : Z;
  qman : Q;
  arx_cache : gmap Z arx; arx_ctx : gmap Z Z; arx_vm : gmap Z Z; arx_num : Z;
  tx_handles : gmap Z tx_ent; tx_num : Z;
  counters_total : Z; vm_counters : gmap Z Z; budgets : gmap Z Z }.
Arguments mk_dpctx {Q}.
Arguments ctx_id {Q}.
Arguments qman {Q}.
Arguments arx_cache {Q}.
Arguments arx_ctx {Q}.
Arguments arx_vm {Q}.
Arguments arx_num {Q}.
Arguments tx_handles {Q}.
Arguments tx_num {Q}.
Arguments counters_total {Q}.
Arguments vm_counters {Q}.
Arguments budgets {Q}.

#[export] Instance eta_dpctx {Q} : Eta (dataplane_context Q) := fun r =>
  mk_dpctx (ctx_id r) (qman r) (arx_cache r) (arx_ctx r) (arx_vm r) (arx_num r)
    (tx_handles r) (tx_num r) (counters_total r) (vm_counters r) (budgets r).

(** ** Interface of the queue manager

    What the flow handlers use of qman.c: [tas_qman_set]. *)
Class QmanOps (Q : Type) := {
  qman_set : Q -> Z -> Z -> Z -> Z -> Z -> Z -> option (Q * Z) }.

(** What the queue manager promises: with a queue that exists, the call
    returns 0 and the queue manager stays consistent. *)
Class QmanLaws (Q : Type) `{QmanOps Q} := {
  qman_inv : Q -> Prop;
  qman_set_ok : forall q vm flow rate avail chunk flags,
    qman_inv q -> 0 <= vm < FLEXNIC_PL_VMST_NUM ->
    0 <= flow < FLEXNIC_NUM_QMFLOWQUEUES -> is_u32 rate -> is_u32 avail ->
    0 <= chunk < 65536 ->
    exists q', qman_set q vm flow rate avail chunk flags = Some (q', 0)
               /\ qman_inv q' }.

(** ** Bit lemmas for the flag words *)

Lemma has_flag_pow2 x k : 0 <= k -> has_flag x (2 ^ k) = Z.testbit x k.
Proof.
  intros Hk. unfold has_flag. destruct (Z.testbit x k) eqn:E.
  - apply Z.eqb_eq. apply Z.bits_inj'. intros n Hn.
    rewrite Z.land_spec, Z.pow2_bits_eqb by lia.
    destruct (Z.eqb_spec k n) as [->|]; [by rewrite E|apply andb_false_r].
  - apply Z.eqb_neq. intros Heq.
    apply (f_equal (fun z => Z.testbit z k)) in Heq.
    rewrite Z.land_spec, Z.pow2_bits_true, E in Heq by lia. discriminate.
Qed.
