(* ===== verification/Rng.v ===== *)
(** * lib/utils/rng.c

    The linear congruential generator the queue manager draws skip list levels
    from. *)

From S2P Require Import Prelude.

Definition rng_a : Z := 25214903917.
Definition rng_c : Z := 11.
Definition rng_m : Z := 281474976710656.

Definition utils_rng_init (seed : Z) : Z := Z.lxor seed rng_a mod rng_m.

(** New seed and value. *)
Definition utils_rng_gen32 (seed : Z) : Z * Z :=
  let next := u64 (u64 (rng_a * seed) + rng_c) mod rng_m in
  (next, u32 (Z.shiftr next 16)).

(** [x] of [utils_rng_gend]: the 53-bit numerator. *)
Definition utils_rng_gend_num (seed : Z) : Z * Z :=
  let '(seed, hi) := utils_rng_gen32 seed in
  let '(seed, lo) := utils_rng_gen32 seed in
  (seed, u64 (u64 (Z.shiftl (Z.shiftr hi 6) 27) + Z.shiftr lo 5)).

(** The [while (size >= 4)] loop: [n] words, stored little endian at [buf]. *)
Fixpoint rng_words (n : nat) (seed : Z) (m : mem) (buf : Z) : Z * mem * Z :=
  match n with
  | O => (seed, m, buf)
  | S n =>
      let '(seed, x) := utils_rng_gen32 seed in
      rng_words n seed (store32 m buf x) (buf + 4)
  end.

(** The [while (size > 0)] loop: the high bytes of [x]. *)
Fixpoint rng_bytes (n : nat) (x : Z) (m : mem) (buf : Z) : mem :=
  match n with
  | O => m
  | S n =>
      rng_bytes n (u32 (Z.shiftl x 8))
        (mem_write m buf 1 (fun _ => Z.shiftr x 24)) (buf + 1)
  end.

Definition utils_rng_gen (seed : Z) (m : mem) (buf size : Z) : Z * mem :=
  let '(seed, m, buf) := rng_words (Z.to_nat (size / 4)) seed m buf in
  let '(seed, x) := utils_rng_gen32 seed in
  (seed, rng_bytes (Z.to_nat (size mod 4)) x m buf).

(** ** Properties *)

Lemma rng_next_lcg seed :
  0 <= seed < rng_m ->
  utils_rng_gen32 seed
  = ((rng_a * seed + rng_c) mod rng_m,
     (rng_a * seed + rng_c) mod rng_m / 65536).
Proof.
  intros Hs. unfold utils_rng_gen32, rng_a, rng_c, rng_m in *.
  assert (E : forall z, u64 (u64 z + 11) mod 281474976710656
                        = (z + 11) mod 281474976710656).
  { intros z. unfold u64. rewrite Zplus_mod_idemp_l.
    change 18446744073709551616 with (281474976710656 * 65536).
    rewrite Z.rem_mul_r by lia.
    rewrite Z.mul_comm, Z.mod_add, Z.mod_mod by lia. done. }
  rewrite E. rewrite Z.shiftr_div_pow2 by lia. change (2 ^ 16) with 65536.
  rewrite u32_id; [done|].
  pose proof (Z.mod_pos_bound (25214903917 * seed + 11) 281474976710656 ltac:(lia)).
  unfold is_u32. Z.div_mod_to_equations. lia.
Qed.

Lemma rng_gen32_range seed :
  0 <= (utils_rng_gen32 seed).1 < rng_m /\ is_u32 (utils_rng_gen32 seed).2.
Proof.
  unfold utils_rng_gen32. cbn. split; [|apply u32_range].
  apply Z.mod_pos_bound. unfold rng_m. lia.
Qed.
