(* ===== verification/Links.v ===== *)
(** * Lists linked by indices, circular lists, rings

    Several components link array cells by indices: the lists of the queue manager, the
    active VMs and contexts of the fast path, free lists.  [path] relates the links to the
    list of cells, [queue_rep] adds a tail pointer.  Then doubly linked lists ([dseg]),
    lists without a cell, circular lists with two ends, and rings of entries in shared
    memory as queues. *)

From S2P Require Import Prelude.

(** The links [nxt] lead from [h] through the cells [l] to [e]. *)
Fixpoint path (nxt : Z -> Z) (h : Z) (l : list Z) (e : Z) : Prop :=
  match l with
  | [] => h = e
  | x :: l => h = x /\ path nxt (nxt x) l e
  end.

Lemma path_ext nxt nxt' h l e :
  (forall x, x ∈ l -> nxt' x = nxt x) -> path nxt h l e -> path nxt' h l e.
Proof.
  revert h. induction l as [|x l IH]; [done|]. intros h Hn [-> Hp].
  split; [done|]. rewrite Hn by apply list_elem_of_here.
  apply IH; [|done]. intros y Hy. apply Hn. by apply list_elem_of_further.
Qed.

Lemma path_app nxt h l1 l2 e :
  path nxt h (l1 ++ l2) e <-> exists m, path nxt h l1 m /\ path nxt m l2 e.
Proof.
  revert h. induction l1 as [|x l1 IH]; intros h; cbn.
  - split; [by eauto|]. by intros (m & -> & ?).
  - split.
    + intros [-> Hp]. apply IH in Hp as (m & ? & ?). by exists m.
    + intros (m & [-> ?] & ?). split; [done|]. apply IH. eauto.
Qed.

Lemma path_nil_inv nxt h l e : e ∉ l -> path nxt h l e -> h = e -> l = [].
Proof.
  destruct l as [|x l]; [done|]. intros He [-> _] ->. exfalso. apply He.
  apply list_elem_of_here.
Qed.

Lemma path_head nxt h l e : path nxt h l e -> h = default e (head l).
Proof. destruct l; [done|]. by intros [-> _]. Qed.

(** A function changed at one point. *)
Definition fupd {A} (f : Z -> A) (x : Z) (y : A) : Z -> A :=
  fun z => if z =? x then y else f z.

Lemma fupd_eq {A} (f : Z -> A) x y : fupd f x y x = y.
Proof. unfold fupd. by rewrite Z.eqb_refl. Qed.

Lemma fupd_ne {A} (f : Z -> A) x y z : z <> x -> fupd f x y z = f z.
Proof. intros H. unfold fupd. by rewrite (proj2 (Z.eqb_neq z x)). Qed.

Lemma path_fupd nxt h l e x y : x ∉ l -> path nxt h l e -> path (fupd nxt x y) h l e.
Proof.
  intros Hx. apply path_ext. intros z Hz. apply fupd_ne. by intros ->.
Qed.

(** Redirecting the last cell. *)
Lemma path_redirect nxt h l x e y :
  x ∉ l -> path nxt h (l ++ [x]) e -> path (fupd nxt x y) h (l ++ [x]) y.
Proof.
  intros Hx Hp. apply path_app in Hp as (m & Hp & -> & _).
  apply path_app. exists x. split; [by apply path_fupd|].
  split; [done|]. by rewrite fupd_eq.
Qed.

(** Inserting [q] between [A] and [B]. *)
Lemma path_insert_front nxt h B e q :
  q ∉ B -> path nxt h B e -> path (fupd nxt q h) q (q :: B) e.
Proof.
  intros Hq Hp. split; [done|]. rewrite fupd_eq. by apply path_fupd.
Qed.

Lemma path_insert_after nxt h A p B e q :
  p ∉ A -> p ∉ B -> q ∉ A ++ p :: B -> p <> q ->
  path nxt h (A ++ p :: B) e ->
  path (fupd (fupd nxt q (nxt p)) p q) h (A ++ p :: q :: B) e.
Proof.
  intros HpA HpB Hq Hpq Hp. apply path_app in Hp as (m & HA & -> & HB).
  rewrite elem_of_app, elem_of_cons in Hq.
  apply path_app. exists p. split.
  - apply path_fupd; [done|]. apply path_fupd; [tauto|done].
  - split; [done|]. rewrite fupd_eq. split; [done|].
    rewrite fupd_ne, fupd_eq by congruence.
    apply path_fupd; [done|]. apply path_fupd; [tauto|done].
Qed.

(** A list of distinct cells is not longer than the memory. *)
Lemma length_le_size {A} (h : gmap Z A) (l : list Z) :
  NoDup l -> (forall x, x ∈ l -> is_Some (h !! x)) -> (length l <= size h)%nat.
Proof.
  intros Hnd Hd. rewrite <- size_dom, <- (size_list_to_set (C := gset Z) l Hnd).
  apply subseteq_size. intros x Hx. apply elem_of_list_to_set in Hx.
  by apply elem_of_dom, Hd.
Qed.

(** Removing the cell behind [A]. *)
Lemma path_remove nxt h A x B e :
  NoDup (A ++ x :: B) -> path nxt h (A ++ x :: B) e ->
  path (match last A with Some p => fupd nxt p (nxt x) | None => nxt end)
       (match last A with Some _ => h | None => nxt x end) (A ++ B) e.
Proof.
  intros Hnd Hp. destruct A as [|p A _] using rev_ind; [by destruct Hp as [-> Hp]|].
  rewrite last_snoc. rewrite <- app_assoc in Hnd. cbn in Hnd.
  apply NoDup_app in Hnd as (_ & Hd & Hnd). apply NoDup_cons in Hnd as [Hpx _].
  apply path_app in Hp as (m & H1 & -> & H2). apply path_app. exists (nxt x). split.
  - eapply path_redirect; [|exact H1]. intros Hin. apply (Hd p Hin), list_elem_of_here.
  - apply path_fupd; [|done]. intros Hin. apply Hpx. by apply list_elem_of_further.
Qed.

(** ** FIFO lists with a tail pointer *)

Record queue_rep (e : Z) (nxt : Z -> Z) (h t : Z) (l : list Z) : Prop := mk_queue_rep {
  qr_path : path nxt h l e;
  qr_nodup : NoDup l;
  qr_end : e ∉ l;
  qr_tail : t = default e (last l) }.

Lemma queue_rep_empty e nxt : queue_rep e nxt e e [].
Proof. constructor; [done|by constructor|apply not_elem_of_nil|done]. Qed.

Lemma queue_rep_tail_nil e nxt h t l : queue_rep e nxt h t l -> (t = e <-> l = []).
Proof.
  intros [_ _ He ->]. destruct (last l) as [x|] eqn:E; cbn.
  - split; [|by intros ->]. intros ->. exfalso. apply He. by apply last_Some_elem_of.
  - apply last_None in E. tauto.
Qed.

Lemma queue_rep_head_nil e nxt h t l : queue_rep e nxt h t l -> (h = e <-> l = []).
Proof.
  intros [Hp _ He _]. split; [by apply path_nil_inv with nxt|]. by intros ->.
Qed.

Lemma queue_rep_ext e nxt nxt' h t l :
  (forall x, x ∈ l -> nxt' x = nxt x) -> queue_rep e nxt h t l ->
  queue_rep e nxt' h t l.
Proof. intros Hn [? ? ? ?]. constructor; [by eapply path_ext|done..]. Qed.

(** Appending a cell, as the activate functions do. *)
Lemma queue_rep_push e nxt h t l q :
  queue_rep e nxt h t l -> q ∉ l -> q <> e ->
  if t =? e then queue_rep e (fupd nxt q e) q q (l ++ [q])
  else queue_rep e (fupd (fupd nxt q e) t q) h q (l ++ [q]).
Proof.
  intros Hr Hq Hqe. pose proof (queue_rep_tail_nil _ _ _ _ _ Hr) as Ht.
  destruct Hr as [Hp Hnd He Hl].
  destruct (Z.eqb_spec t e) as [Hte|Hte].
  - apply Ht in Hte. subst l. cbn. constructor; cbn; try done.
    + split; [done|]. by rewrite fupd_eq.
    + by repeat constructor.
    + intros Hin. apply list_elem_of_singleton in Hin. by subst.
  - destruct (last l) as [x|] eqn:E; [|by subst]. cbn in Hl. subst t.
    apply last_Some in E as [l' ->].
    assert (Hx : x ∉ l') by (apply NoDup_app in Hnd as (_ & Hd & _);
      intros Hin; apply (Hd x Hin); by apply list_elem_of_singleton).
    constructor.
    + apply path_app. exists q.
      rewrite elem_of_app in Hq. split.
      * eapply path_redirect; [done|]. apply path_fupd; [|exact Hp].
        rewrite elem_of_app. tauto.
      * split; [done|]. rewrite fupd_ne, fupd_eq; [done|].
        intros ->. apply Hq. right. by apply list_elem_of_singleton.
    + apply NoDup_app. split; [done|]. split; [|repeat constructor; apply not_elem_of_nil].
      intros z Hz Hzq. apply list_elem_of_singleton in Hzq. by subst.
    + rewrite elem_of_app, list_elem_of_singleton. by intros [|].
    + by rewrite last_snoc.
Qed.

(** Removing the head, as the poll loops do. *)
Lemma queue_rep_pop e nxt h t x l :
  queue_rep e nxt h t (x :: l) ->
  h = x /\ x ∉ l /\ x <> e
  /\ queue_rep e nxt (nxt x) (if nxt x =? e then e else t) l.
Proof.
  intros [[-> Hp] Hnd He Ht]. apply NoDup_cons in Hnd as [Hx Hnd].
  rewrite elem_of_cons in He.
  split; [done|]. split; [done|]. split; [intros ->; tauto|].
  constructor; [done|done|tauto|].
  destruct (Z.eqb_spec (nxt x) e) as [Heq|Hne].
  - rewrite Heq in Hp. by rewrite (path_nil_inv nxt e l e) by tauto.
  - destruct l as [|y l]; [by destruct Hne|]. by rewrite Ht.
Qed.

(** ** Sublists *)

Lemma sublist_cons_notin {A} (x : A) (l k : list A) :
  l `sublist_of` (x :: k) -> x ∉ l -> l `sublist_of` k.
Proof.
  intros Hs Hx. apply sublist_cons_r in Hs as [|(l' & -> & _)]; [done|].
  exfalso. apply Hx, list_elem_of_here.
Qed.

Lemma sublist_split_at {A} (p : A) (A1 B1 A2 B2 : list A) :
  (A1 ++ p :: B1) `sublist_of` (A2 ++ p :: B2) -> NoDup (A2 ++ p :: B2) ->
  A1 `sublist_of` A2 /\ B1 `sublist_of` B2.
Proof.
  revert A1. induction A2 as [|y A2 IH]; cbn; intros A1 Hs Hnd.
  - apply NoDup_cons in Hnd as [Hp Hnd].
    destruct A1 as [|x A1]; cbn in Hs.
    + split; [done|].
      apply sublist_cons_r in Hs as [Hs|(l' & [= <-] & Hs)]; [|done].
      exfalso. apply Hp. eapply elem_of_sublist; [|exact Hs].
      apply list_elem_of_here.
    + apply sublist_cons_r in Hs as [Hs|(l' & [= <- <-] & Hs)].
      * exfalso. apply Hp. eapply elem_of_sublist; [|exact Hs].
        apply list_elem_of_further. rewrite elem_of_app, elem_of_cons. tauto.
      * exfalso. apply Hp. eapply elem_of_sublist; [|exact Hs].
        rewrite elem_of_app, elem_of_cons. tauto.
  - apply NoDup_cons in Hnd as [Hy Hnd].
    apply sublist_cons_r in Hs as [Hs|(l' & E & Hs)].
    + destruct (IH A1 Hs Hnd). split; [by apply sublist_cons|done].
    + destruct A1 as [|x A1]; cbn in E; injection E as <- <-.
      * exfalso. apply Hy. rewrite elem_of_app, elem_of_cons. tauto.
      * destruct (IH A1 Hs Hnd). split; [by apply sublist_skip|done].
Qed.

Lemma sublist_insert {A} (q : A) (A1 B1 A2 B2 : list A) :
  A1 `sublist_of` A2 -> B1 `sublist_of` B2 ->
  (A1 ++ q :: B1) `sublist_of` (A2 ++ q :: B2).
Proof. intros. apply sublist_app; [done|]. by apply sublist_skip. Qed.

(** A sublist of [W ++ B] whose first element is not in [W]. *)
Lemma sublist_drop_prefix {A} (P : A -> Prop) (l W B : list A) :
  l `sublist_of` (W ++ B) -> Forall P W ->
  (forall x l', l = x :: l' -> ~ P x) -> l `sublist_of` B.
Proof.
  intros Hs HW Hl. apply sublist_app_r in Hs as (l1 & l2 & -> & H1 & H2).
  destruct l1 as [|x l1]; [done|]. exfalso. apply (Hl x (l1 ++ l2) eq_refl).
  rewrite Forall_forall in HW. apply HW. eapply elem_of_sublist; [|exact H1].
  apply list_elem_of_here.
Qed.

(** * Doubly linked lists

    Lists whose cells hold the pointers to the next and to the previous cell,
    as the timeout manager and the lists of active VMs and contexts use them.
    [dseg] relates the two link functions to the list of cells. *)

(** From [h], whose predecessor is [p], the links run through the cells [l] to
    [e], whose predecessor is [t]. *)
Fixpoint dseg (nx pv : Z -> Z) (p h : Z) (l : list Z) (t e : Z) : Prop :=
  match l with
  | [] => h = e /\ t = p
  | x :: l => h = x /\ pv x = p /\ dseg nx pv x (nx x) l t e
  end.

Section DList.
Implicit Types (nx pv : Z -> Z) (l : list Z).

Lemma dseg_ext nx nx' pv pv' p h l t e :
  (forall x, x ∈ l -> nx' x = nx x /\ pv' x = pv x) ->
  dseg nx pv p h l t e -> dseg nx' pv' p h l t e.
Proof.
  revert p h. induction l as [|x l IH]; [done|]. intros p h He (-> & <- & Hs).
  destruct (He x ltac:(apply list_elem_of_here)) as [E1 E2].
  split; [done|]. split; [done|]. rewrite E1. apply IH; [|done].
  intros y Hy. apply He. by apply list_elem_of_further.
Qed.

Lemma dseg_app nx pv p h l1 l2 t e :
  dseg nx pv p h (l1 ++ l2) t e
  <-> exists q m, dseg nx pv p h l1 q m /\ dseg nx pv q m l2 t e.
Proof.
  revert p h. induction l1 as [|x l1 IH]; intros p h; cbn.
  - split; [intros H; by exists p, h|]. by intros (q & m & [-> ->] & H).
  - split.
    + intros (-> & <- & (q & m & H1 & H2)%IH). by exists q, m.
    + intros (q & m & (-> & <- & H1) & H2). split; [done|]. split; [done|].
      apply IH. by exists q, m.
Qed.

Lemma dseg_last nx pv p h l t e : dseg nx pv p h l t e -> t = default p (last l).
Proof.
  revert p h. induction l as [|x l IH]; intros p h; [by intros [_ ->]|].
  intros (_ & _ & ->%IH). rewrite last_cons. by destruct (last l).
Qed.

Lemma dseg_head nx pv p h l t e : dseg nx pv p h l t e -> h = default e (head l).
Proof. destruct l; [by intros [-> _]|]. by intros [-> _]. Qed.

Lemma dseg_next nx pv p h A x B t e :
  dseg nx pv p h (A ++ x :: B) t e -> nx x = default e (head B).
Proof.
  intros (q & m & _ & (_ & _ & H))%dseg_app. by eapply dseg_head.
Qed.

Lemma dseg_prev nx pv p h A x B t e :
  dseg nx pv p h (A ++ x :: B) t e -> pv x = default p (last A).
Proof.
  intros (q & m & H & (-> & -> & _))%dseg_app. by eapply dseg_last.
Qed.

(** Redirecting the end of a segment that starts at the null pointer [0]:
    the store goes to the last cell or, without cells, to the head pointer. *)
Lemma dseg_set_end nx pv h l t e e' :
  NoDup l -> 0 ∉ l -> dseg nx pv 0 h l t e ->
  dseg (if t =? 0 then nx else fupd nx t e') pv 0 (if t =? 0 then e' else h) l t e'.
Proof.
  intros Hnd H0 Hs. pose proof (dseg_last _ _ _ _ _ _ _ Hs) as Ht.
  destruct l as [|x l _] using rev_ind; [by cbn in Ht; subst|].
  rewrite last_snoc in Ht. cbn in Ht. subst t.
  rewrite elem_of_app, list_elem_of_singleton in H0.
  rewrite (proj2 (Z.eqb_neq x 0)) by (intros ->; tauto).
  apply dseg_app in Hs as (q & m & H1 & (-> & H2 & H3)).
  apply NoDup_app in Hnd as (_ & Hd & _).
  apply dseg_app. exists q, x. split.
  - eapply dseg_ext; [|exact H1]. intros y Hy. split; [|done].
    apply fupd_ne. intros ->. apply (Hd x Hy), list_elem_of_here.
  - split; [done|]. split; [done|]. cbn. by rewrite fupd_eq.
Qed.

(** Redirecting the start of a segment that ends at the null pointer. *)
Lemma dseg_set_start nx pv p h l t p' :
  NoDup l -> 0 ∉ l -> dseg nx pv p h l t 0 ->
  dseg nx (if h =? 0 then pv else fupd pv h p') p' h l (if h =? 0 then p' else t) 0.
Proof.
  intros Hnd H0. destruct l as [|x l]; [by intros [-> ->]|].
  intros (-> & _ & Hs). rewrite elem_of_cons in H0.
  rewrite (proj2 (Z.eqb_neq x 0)) by (intros ->; tauto).
  apply NoDup_cons in Hnd as [Hx _]. split; [done|]. split; [apply fupd_eq|].
  eapply dseg_ext; [|exact Hs]. intros y Hy. split; [done|].
  apply fupd_ne. by intros ->.
Qed.

Lemma dseg_nil_iff nx pv h l t :
  0 ∉ l -> dseg nx pv 0 h l t 0 -> (h = 0 <-> l = []) /\ (t = 0 <-> l = []).
Proof.
  intros H0 Hs. pose proof (dseg_last _ _ _ _ _ _ _ Hs) as Ht.
  pose proof (dseg_head _ _ _ _ _ _ _ Hs) as Hh.
  destruct l as [|x l _] using rev_ind; [by cbn in *; subst|].
  rewrite last_snoc in Ht. cbn in Ht. subst t.
  rewrite elem_of_app, list_elem_of_singleton in H0. split.
  - split; [|by destruct l]. intros ->. exfalso. destruct l as [|y l]; cbn in Hh; subst.
    + tauto.
    + apply H0. left. apply list_elem_of_here.
  - split; [|by destruct l]. intros ->. tauto.
Qed.

(** Splitting at a cell is unique. *)
Lemma split_unique (A A' B B' : list Z) x :
  NoDup (A ++ x :: B) -> A ++ x :: B = A' ++ x :: B' -> A = A' /\ B = B'.
Proof.
  revert A'. induction A as [|a A IH]; intros [|a' A'] Hnd E; cbn in *.
  - by simplify_eq.
  - simplify_eq. apply NoDup_cons in Hnd as [Hx _]. exfalso. apply Hx.
    apply elem_of_app. right. apply list_elem_of_here.
  - simplify_eq. apply NoDup_cons in Hnd as [Hx _]. exfalso. apply Hx.
    apply elem_of_app. right. apply list_elem_of_here.
  - injection E as <- E. apply NoDup_cons in Hnd as [_ Hnd].
    by destruct (IH A' Hnd E) as [-> ->].
Qed.

(** Taking out a cell: its neighbours are linked with each other. *)
Lemma dseg_unlink nx pv h A x B t :
  NoDup (A ++ x :: B) -> 0 ∉ A ++ x :: B -> dseg nx pv 0 h (A ++ x :: B) t 0 ->
  dseg (if pv x =? 0 then nx else fupd nx (pv x) (nx x))
       (if nx x =? 0 then pv else fupd pv (nx x) (pv x))
       0 (if pv x =? 0 then nx x else h) (A ++ B) (if nx x =? 0 then pv x else t) 0.
Proof.
  intros Hnd H0 Hs. apply NoDup_app in Hnd as (HndA & HAB & HndB).
  apply NoDup_cons in HndB as [HxB HndB]. rewrite elem_of_app, elem_of_cons in H0.
  apply dseg_app in Hs as (q & y & HA & (-> & Hq & HB)). subst q.
  pose proof (dseg_last _ _ _ _ _ _ _ HA) as Ep. pose proof (dseg_head _ _ _ _ _ _ _ HB) as En.
  apply dseg_app. exists (pv x), (nx x). split.
  - eapply dseg_ext; [|apply (dseg_set_end nx pv h A (pv x) x (nx x)); [done|tauto|done]].
    intros z Hz. split; [done|]. destruct (Z.eqb_spec (nx x) 0); [done|]. apply fupd_ne.
    intros ->. apply (HAB _ Hz). rewrite En. destruct B; [done|]. right. apply list_elem_of_here.
  - eapply dseg_ext; [|apply (dseg_set_start nx pv x (nx x) B t (pv x)); [done|tauto|done]].
    intros z Hz. split; [|done]. destruct (Z.eqb_spec (pv x) 0); [done|]. apply fupd_ne.
    intros ->. apply (HAB (pv x)); [|by apply list_elem_of_further].
    rewrite Ep in Hz |- *. destruct (last A) eqn:El; [by apply last_Some_elem_of|done].
Qed.

(** A new cell at the front. *)
Lemma dseg_push nx pv nx' pv' h l t x :
  x ∉ l -> NoDup l -> 0 ∉ l -> dseg nx pv 0 h l t 0 ->
  nx' x = h -> pv' x = 0 -> (forall y, y ∈ l -> nx' y = nx y) ->
  (forall y, y ∈ l -> pv' y = if y =? h then x else pv y) ->
  exists t', dseg nx' pv' 0 x (x :: l) t' 0.
Proof.
  intros Hx Hnd H0 Hs En Ep Hn Hp.
  pose proof (dseg_set_start nx pv 0 h l t x Hnd H0 Hs) as Hs'.
  eexists. split; [done|]. split; [done|]. rewrite En. eapply dseg_ext; [|exact Hs'].
  intros y Hy. split; [by apply Hn|]. rewrite Hp by done. unfold fupd.
  destruct (Z.eqb_spec h 0) as [->|]; [|done].
  destruct (Z.eqb_spec y 0) as [->|]; [tauto|done].
Qed.

End DList.

(** * Lists without a cell *)

(** The list without [x]. *)
Definition without (x : Z) (l : list Z) : list Z := filter (.≠ x) l.

Lemma without_all {P : Z -> Prop} `{forall x, Decision (P x)} (l : list Z) : (forall x, x ∈ l -> P x) -> filter P l = l :> list Z.
Proof.
  induction l as [|y l IH]; [done|]. intros Hl. rewrite filter_cons_True by apply Hl, list_elem_of_here.
  rewrite IH; [done|]. intros x Hx. by apply Hl, list_elem_of_further.
Qed.

Lemma list_filter_iff' {P R : Z -> Prop} `{forall x, Decision (P x)} `{forall x, Decision (R x)} (l : list Z) :
  (forall x, x ∈ l -> P x <-> R x) -> filter P l = filter R l.
Proof.
  induction l as [|y l IH]; [done|]. intros Hl.
  assert (E : filter P l = filter R l) by (apply IH; intros x Hx; by apply Hl, list_elem_of_further).
  pose proof (Hl y (list_elem_of_here _ _)) as Hy. destruct (decide (P y)) as [Hp|Hp].
  - rewrite !filter_cons_True by tauto. by rewrite E.
  - rewrite !filter_cons_False by tauto. done.
Qed.

Lemma without_out x l : x ∉ l -> without x l = l.
Proof.
  unfold without. induction l as [|y l IH]; [done|]. intros [Hy Hx]%not_elem_of_cons.
  rewrite filter_cons_True by done. by rewrite IH.
Qed.

Lemma without_split A x B : NoDup (A ++ x :: B) -> without x (A ++ x :: B) = A ++ B.
Proof.
  intros Hnd. apply NoDup_app in Hnd as (_ & Hd & Hb). apply NoDup_cons in Hb as [Hb _].
  unfold without. rewrite filter_app, filter_cons_False by tauto. fold (without x A) (without x B).
  rewrite !without_out; [done|done|]. intros Hy. apply (Hd x Hy), list_elem_of_here.
Qed.

Lemma elem_of_without x y l : y ∈ without x l <-> y ∈ l /\ y <> x.
Proof. unfold without. rewrite list_elem_of_filter. tauto. Qed.

Lemma without_nodup x l : NoDup l -> NoDup (without x l).
Proof. apply NoDup_filter. Qed.

Lemma without_range x l P : Forall P l -> Forall P (without x l).
Proof. rewrite !Forall_forall. intros H y [Hy _]%elem_of_without. by apply H. Qed.

Lemma without_length x l : NoDup l -> x ∈ l -> length l = S (length (without x l)).
Proof.
  intros Hn (A & B & ->)%list_elem_of_split. rewrite without_split, !length_app by done. cbn. lia.
Qed.

(** The links without the cell [x]. *)
Definition nx_out (nx pv : Z -> Z) (x : Z) : Z -> Z := if pv x =? 0 then nx else fupd nx (pv x) (nx x).
Definition pv_out (nx pv : Z -> Z) (x : Z) : Z -> Z := if nx x =? 0 then pv else fupd pv (nx x) (pv x).

Lemma out_other nx pv x (m l : list Z) h t : (pv x = 0 \/ pv x ∈ m) -> (nx x = 0 \/ nx x ∈ m) ->
  (forall y, y ∈ l -> y ∉ m) -> dseg nx pv 0 h l t 0 -> dseg (nx_out nx pv x) (pv_out nx pv x) 0 h l t 0.
Proof.
  intros Hp Hn Hd. apply dseg_ext. intros y Hy. specialize (Hd y Hy). unfold nx_out, pv_out. split.
  - destruct (Z.eqb_spec (pv x) 0); [done|]. apply fupd_ne. intros ->. tauto.
  - destruct (Z.eqb_spec (nx x) 0); [done|]. apply fupd_ne. intros ->. tauto.
Qed.

Lemma dseg_pointwise nx nx' pv pv' h l t : (forall p, nx' p = nx p) -> (forall p, pv' p = pv p) ->
  dseg nx pv 0 h l t 0 -> dseg nx' pv' 0 h l t 0.
Proof. intros En Ep. by apply dseg_ext. Qed.

(** Taking a cell out of a doubly linked list. *)
Lemma dseg_without nx pv h l t x : NoDup l -> 0 ∉ l -> x ∈ l -> dseg nx pv 0 h l t 0 ->
  dseg (nx_out nx pv x) (pv_out nx pv x) 0 (if pv x =? 0 then nx x else h) (without x l) (if nx x =? 0 then pv x else t) 0.
Proof.
  intros Hn H0 (A & B & ->)%list_elem_of_split Hs. rewrite without_split by done. by apply dseg_unlink.
Qed.

(** The neighbours of a cell are cells. *)
Lemma dseg_neighbours nx pv h l t x : 0 ∉ l -> x ∈ l -> dseg nx pv 0 h l t 0 ->
  (pv x = 0 \/ pv x ∈ l) /\ (nx x = 0 \/ nx x ∈ l).
Proof.
  intros H0 (A & B & ->)%list_elem_of_split Hs. rewrite (dseg_next _ _ _ _ _ _ _ _ _ Hs), (dseg_prev _ _ _ _ _ _ _ _ _ Hs).
  split.
  - destruct (last A) eqn:E; [|by left]. right. apply elem_of_app. left. by apply last_Some_elem_of.
  - destruct B; [by left|]. right. apply elem_of_app. right. apply list_elem_of_further, list_elem_of_here.
Qed.

(** A new cell at the end. *)
Lemma dseg_push_back nx pv nx' pv' h l t x : x ∉ l -> x <> 0 -> NoDup l -> 0 ∉ l -> dseg nx pv 0 h l t 0 ->
  nx' x = 0 -> pv' x = t -> (forall y, y ∈ l -> nx' y = if y =? t then x else nx y) ->
  (forall y, y ∈ l -> pv' y = pv y) ->
  dseg nx' pv' 0 (if t =? 0 then x else h) (l ++ [x]) x 0.
Proof.
  intros Hx Hx0 Hnd H0 Hs E1 E2 Hnx Hpv. apply dseg_app. exists t, x.
  pose proof (dseg_set_end nx pv h l t 0 x Hnd H0 Hs) as H1. split; [|by repeat split].
  eapply dseg_ext; [|exact H1]. intros y Hy. split; [|by apply Hpv]. rewrite Hnx by done.
  destruct (Z.eqb_spec t 0) as [->|Ht].
  - destruct (Z.eqb_spec y 0) as [->|]; [tauto|done].
  - unfold fupd. done.
Qed.

(** The ends of a list are cells or null. *)
Lemma dseg_ends_in nx pv h l t : dseg nx pv 0 h l t 0 -> (h = 0 \/ h ∈ l) /\ (t = 0 \/ t ∈ l).
Proof.
  intros Hs. rewrite (dseg_head _ _ _ _ _ _ _ Hs), (dseg_last _ _ _ _ _ _ _ Hs). split.
  - destruct l; [by left|]. right. apply list_elem_of_here.
  - destruct (last l) eqn:E; [|by left]. right. by apply last_Some_elem_of.
Qed.

(** * Circular doubly linked lists

    The rings of active VMs and contexts of the fast path: the last cell is linked with
    the first one, and [e] stands for no cell. *)

Section Circ.
Context (e : Z).
Implicit Types (nx pv : Z -> Z) (l : list Z).

Definition hd_of l : Z := default e (head l).
Definition tl_of l : Z := default e (last l).

(** The cells [l] form a ring, with the head and the tail pointer at its ends. *)
Record circ nx pv (h t : Z) l : Prop := mk_circ {
  ci_head : h = hd_of l;
  ci_tail : t = tl_of l;
  ci_links : dseg nx pv (tl_of l) (hd_of l) l (tl_of l) (hd_of l) }.

Lemma circ_nil nx pv : circ nx pv e e [].
Proof. by constructor. Qed.

Lemma tl_of_app l1 l2 : l2 <> [] -> tl_of (l1 ++ l2) = tl_of l2.
Proof. intros H. unfold tl_of. rewrite last_app. destruct (last l2) eqn:El; [done|]. by apply last_None in El. Qed.

Lemma hd_of_app l1 l2 : l1 <> [] -> hd_of (l1 ++ l2) = hd_of l1.
Proof. by destruct l1. Qed.

Lemma tl_of_in l : l <> [] -> tl_of l ∈ l.
Proof.
  intros H. unfold tl_of. destruct (last l) eqn:El; [by apply last_Some_elem_of|]. by apply last_None in El.
Qed.

Lemma hd_of_in l : l <> [] -> hd_of l ∈ l.
Proof. destruct l; [done|]. intros _. apply list_elem_of_here. Qed.

Lemma circ_ext nx nx' pv pv' h t l :
  (forall x, x ∈ l -> nx' x = nx x /\ pv' x = pv x) -> circ nx pv h t l -> circ nx' pv' h t l.
Proof. intros He [Hh Ht Hl]. constructor; [done..|]. by eapply dseg_ext. Qed.

(** Without a cell both pointers are [e], with one neither is. *)
Lemma circ_head_nil nx pv h t l : e ∉ l -> circ nx pv h t l -> h = e <-> l = [].
Proof.
  intros He [-> _ _]. split; [|by intros ->]. intros Hh. destruct l as [|x l]; [done|].
  exfalso. apply He. rewrite <-Hh. apply list_elem_of_here.
Qed.

Lemma circ_tail_nil nx pv h t l : e ∉ l -> circ nx pv h t l -> t = e <-> l = [].
Proof.
  intros He [_ -> _]. split; [|by intros ->]. intros Hh. destruct l as [|x l]; [done|].
  exfalso. apply He. rewrite <-Hh. by apply tl_of_in.
Qed.

(** New neighbours at both ends. *)

Lemma dseg_ends nx nx' pv pv' p p' h x l t q q' : NoDup (x :: l) ->
  dseg nx pv p h (x :: l) t q ->
  (forall y, y ∈ x :: l -> y <> t -> nx' y = nx y) -> nx' t = q' ->
  (forall y, y ∈ x :: l -> y <> h -> pv' y = pv y) -> pv' h = p' ->
  dseg nx' pv' p' h (x :: l) t q'.
Proof.
  revert p p' h x. induction l as [|y l IH]; intros p p' h x Hnd (-> & Hpx & Hs) Hn Hq Hp Hp'.
  { cbn in Hs. destruct Hs as [Hs ->]. cbn. done. }
  split; [done|]. split; [done|]. apply NoDup_cons in Hnd as [Hx Hnd].
  assert (Hxt : x <> t).
  { intros ->. apply Hx. pose proof (dseg_last _ _ _ _ _ _ _ Hs) as Hl. rewrite last_cons in Hl.
    destruct (last l) as [z|] eqn:El; cbn in Hl; rewrite Hl; [|apply list_elem_of_here].
    apply list_elem_of_further. by apply last_Some_elem_of. }
  rewrite (Hn x) by (done || apply list_elem_of_here).
  apply (IH x); [done|done| |done| |].
  - intros z Hz. apply Hn. by apply list_elem_of_further.
  - intros z Hz Hzy. apply Hp; [by apply list_elem_of_further|]. by intros ->.
  - destruct Hs as (Hxy & Hpy & _). rewrite Hp; [by rewrite Hxy|rewrite Hxy|rewrite Hxy].
    + apply list_elem_of_further, list_elem_of_here.
    + intros ->. apply Hx, list_elem_of_here.
Qed.

(** The ring can be cut open anywhere. *)
Lemma circ_rot nx pv A B : A <> [] -> B <> [] ->
  circ nx pv (hd_of (A ++ B)) (tl_of (A ++ B)) (A ++ B) ->
  circ nx pv (hd_of B) (tl_of A) (B ++ A).
Proof.
  intros HA HB [_ _ Hl]. rewrite hd_of_app, tl_of_app in Hl by done.
  apply dseg_app in Hl as (q & m & H1 & H2).
  assert (q = tl_of A) as ->.
  { rewrite (dseg_last _ _ _ _ _ _ _ H1). unfold tl_of. destruct (last A) eqn:El; [done|]. by apply last_None in El. }
  assert (m = hd_of B) as ->.
  { rewrite (dseg_head _ _ _ _ _ _ _ H2). by destruct B. }
  constructor; rewrite ?hd_of_app, ?tl_of_app by done; [done..|].
  apply dseg_app. by exists (tl_of B), (hd_of A).
Qed.

Lemma dseg_wrap nx pv p h l t q : l <> [] -> dseg nx pv p h l t q -> nx (tl_of l) = q.
Proof.
  intros Hne. destruct (exists_last Hne) as (l0 & z & ->). intros Hs.
  rewrite tl_of_app by done. by apply dseg_next in Hs.
Qed.

(** The next round starts with the second cell. *)
Lemma circ_rotate nx pv h t x l : circ nx pv h t (x :: l) -> circ nx pv (nx h) (nx t) (l ++ [x]).
Proof.
  intros [-> -> Hl]. destruct l as [|y l].
  - cbn in *. destruct Hl as (_ & Hp & Hn & _). unfold tl_of, hd_of in *. cbn in *.
    constructor; cbn; unfold tl_of, hd_of; cbn; rewrite ?Hn; done.
  - assert (Hc : circ nx pv (hd_of (y :: l)) x ((y :: l) ++ [x])).
    { apply (circ_rot nx pv [x] (y :: l)); [done|done|]. by constructor. }
    assert (Hnh : nx (hd_of (x :: y :: l)) = y).
    { destruct Hl as (_ & _ & Hl). cbn [hd_of head]. unfold hd_of. cbn. by apply dseg_head in Hl. }
    assert (Hnt : nx (tl_of (x :: y :: l)) = x).
    { eapply (dseg_wrap nx pv); [done|exact Hl]. }
    rewrite Hnh, Hnt. exact Hc.
Qed.

(** A new cell goes between the last and the first one. *)
Lemma circ_push nx pv nx' pv' h t l x : l <> [] -> NoDup l -> x ∉ l -> circ nx pv h t l ->
  nx' x = h -> pv' x = t -> nx' t = x -> pv' h = x ->
  (forall y, y ∈ l -> y <> t -> nx' y = nx y) -> (forall y, y ∈ l -> y <> h -> pv' y = pv y) ->
  circ nx' pv' h x (l ++ [x]).
Proof.
  intros Hne Hnd Hx [-> -> Hl] Hnx Hpx Hnt Hph Hn Hp.
  constructor; [by rewrite hd_of_app|by rewrite tl_of_app|].
  rewrite hd_of_app, tl_of_app by done. change (tl_of [x]) with x. destruct l as [|z l]; [done|].
  apply dseg_app. exists (tl_of (z :: l)), x. split; [|by repeat split].
  eapply dseg_ends; [done|exact Hl|done..].
Qed.

Lemma circ_push_first nx pv x : nx x = x -> pv x = x -> circ nx pv x x ([] ++ [x]).
Proof. intros Hn Hp. constructor; [done..|]. cbn. unfold hd_of, tl_of. cbn. by rewrite Hn, Hp. Qed.

(** The ring from one of its cells on. *)
Lemma circ_from nx pv h t A x B : circ nx pv h t (A ++ x :: B) ->
  circ nx pv x (tl_of (x :: B ++ A)) (x :: B ++ A).
Proof.
  intros [_ _ Hl]. destruct A as [|a A]; [by rewrite app_nil_r; constructor|].
  change (x :: B ++ a :: A) with ((x :: B) ++ a :: A). rewrite tl_of_app by done.
  apply (circ_rot nx pv (a :: A) (x :: B)); [done|done|]. by constructor.
Qed.

Lemma circ_neighbours nx pv h t A x B : A ++ B <> [] -> circ nx pv h t (A ++ x :: B) ->
  nx x = hd_of (B ++ A) /\ pv x = tl_of (B ++ A)
  /\ dseg nx pv x (hd_of (B ++ A)) (B ++ A) (tl_of (B ++ A)) x.
Proof.
  intros Hne Hc. apply circ_from in Hc. assert (HneR : B ++ A <> []) by (intros E; apply Hne; by destruct A, B).
  assert (Et : tl_of (x :: B ++ A) = tl_of (B ++ A)) by by apply (tl_of_app [x]).
  destruct Hc as [_ _ (_ & Hpx & Hl)]. change (hd_of (x :: B ++ A)) with x in *. rewrite Et in *.
  assert (Hnx : nx x = hd_of (B ++ A)).
  { rewrite (dseg_head _ _ _ _ _ _ _ Hl). by destruct (B ++ A). }
  rewrite Hnx in Hl. done.
Qed.

Lemma circ_next nx pv h t A x B : circ nx pv h t (A ++ x :: B) -> nx x = hd_of (B ++ A ++ [x]).
Proof.
  intros Hc. destruct (decide (A ++ B = [])) as [E|Hne].
  - destruct A, B; try done. destruct Hc as [_ _ Hl]. by apply (dseg_wrap nx pv _ _ [x]) in Hl.
  - destruct (circ_neighbours nx pv h t A x B Hne Hc) as [-> _]. symmetry. rewrite app_assoc.
    apply hd_of_app. intros E. apply Hne. by destruct A, B.
Qed.

(** Taking a cell out links its neighbours. *)
Lemma circ_remove nx pv nx' pv' h t A x B : A ++ B <> [] -> NoDup (A ++ x :: B) ->
  circ nx pv h t (A ++ x :: B) ->
  nx' (pv x) = nx x -> pv' (nx x) = pv x ->
  (forall y, y ∈ A ++ B -> y <> pv x -> nx' y = nx y) -> (forall y, y ∈ A ++ B -> y <> nx x -> pv' y = pv y) ->
  circ nx' pv' (hd_of (A ++ B)) (tl_of (A ++ B)) (A ++ B).
Proof.
  intros Hne Hnd Hc Hn Hp Hns Hps. destruct (circ_neighbours _ _ _ _ _ _ _ Hne Hc) as (Hnx & Hpx & Hl).
  rewrite Hpx, Hnx in *.
  assert (Hnd' : NoDup (B ++ A)).
  { rewrite Permutation_app_comm. apply NoDup_app in Hnd as (Ha & Hd & Hb).
    apply NoDup_cons in Hb as [_ Hb]. apply NoDup_app. split_and!; try done.
    intros y Hy Hy'. apply (Hd y Hy). by apply list_elem_of_further. }
  assert (Hc' : circ nx' pv' (hd_of (B ++ A)) (tl_of (B ++ A)) (B ++ A)).
  { constructor; [done..|]. destruct (B ++ A) as [|y R] eqn:ER; [done|].
    eapply dseg_ends; [done|exact Hl| |done| |done]; intros z Hz; [apply Hns|apply Hps];
      rewrite Permutation_app_comm, ER; done. }
  destruct A as [|a A]; [by rewrite app_nil_r in Hc'|]. destruct B as [|b B]; [by rewrite app_nil_r|].
  rewrite tl_of_app, hd_of_app by done. apply (circ_rot nx' pv' (b :: B) (a :: A)); done.
Qed.

(** How the code updates the two pointers: a cell whose successor is the head is the
    last one, one whose predecessor is the tail the first one. *)
Lemma circ_remove_ends nx pv h t A x B : A ++ B <> [] -> NoDup (A ++ x :: B) ->
  circ nx pv h t (A ++ x :: B) ->
  hd_of (A ++ B) = (if nx x =? h then h else if pv x =? t then nx x else h)
  /\ tl_of (A ++ B) = (if nx x =? h then pv x else t).
Proof.
  intros Hne Hnd Hc. destruct (circ_neighbours _ _ _ _ _ _ _ Hne Hc) as (Hnx & Hpx & _).
  destruct Hc as [Eh Et _]. apply NoDup_app in Hnd as (_ & Hd & HB). apply NoDup_cons in HB as [HxB _].
  assert (Hab : forall y, y ∈ A -> y ∈ B -> False).
  { intros y Hy Hy'. apply (Hd y Hy). by apply list_elem_of_further. }
  destruct (decide (B = [])) as [->|HB].
  - rewrite app_nil_r in *. cbn in Hnx, Hpx. assert (A <> []) by done.
    rewrite hd_of_app in Eh by done. rewrite Hnx, Eh, Z.eqb_refl. done.
  - rewrite (tl_of_app A B) by done. rewrite (tl_of_app A (x :: B)) in Et by done. change (x :: B) with ([x] ++ B) in Et.
    rewrite (tl_of_app [x] B) in Et by done.
    rewrite (hd_of_app B A) in Hnx by done. destruct (Z.eqb_spec (nx x) h) as [E|_].
    + exfalso. assert (Hin : hd_of B ∈ B) by by apply hd_of_in. rewrite <-Hnx, E, Eh in Hin.
      destruct A as [|a A]; [done|]. apply (Hab a); [apply list_elem_of_here|done].
    + split; [|done]. destruct (Z.eqb_spec (pv x) t) as [E|E].
      * destruct A as [|a A]; [done|]. exfalso. rewrite Hpx, tl_of_app, Et in E by done.
        apply (Hab (tl_of B)); [rewrite <-E|]; by apply tl_of_in.
      * destruct A as [|a A]; [|by rewrite Eh]. exfalso. apply E. by rewrite Hpx, app_nil_r.
Qed.

End Circ.

(** * Rings of entries with a type field

    The queues between an application and the two halves of the stack are arrays of
    entries that both sides share.  An entry whose type is 0 is free.  The producer
    fills the entry at its position, the consumer frees the entry at its own one, and
    neither reads the other's position.  [ring_of] relates such an array to the list of
    entries it holds; positions count in units of [stride]. *)

Section Ring.
Context {A : Type} `{Inhabited A} (free : A -> bool) (stride n : Z).

Definition ring_adv (pos : Z) : Z :=
  let pos := pos + stride in if stride * n <=? pos then pos - stride * n else pos.

(** Slot [i] of a ring whose first slot is [t]. *)
Definition slot (t i : Z) : Z := stride * ((t + i) mod n).

(** The ring with the consumer at [tl] and the producer at [hd] holds [l]; [t] is the
    index of the first slot. *)
Record ring_of (ring : gmap Z A) (tl hd : Z) (l : list A) : Prop := mk_ring_of {
  ro_stride : 0 < stride;
  ro_len : Z.of_nat (length l) <= n;
  ro_pos : exists t, 0 <= t < n /\ tl = slot t 0 /\ hd = slot t (Z.of_nat (length l))
    /\ (forall i e, l !! i = Some e -> ring !!! slot t (Z.of_nat i) = e)
    /\ (forall i, Z.of_nat (length l) <= i < n -> free (ring !!! slot t i) = true);
  ro_used : Forall (fun e => free e = false) l }.

Lemma slot_adv t i : 0 < stride -> 0 < n -> 0 <= t -> 0 <= i -> ring_adv (slot t i) = slot t (i + 1).
Proof.
  intros Hs Hn Ht Hi. unfold ring_adv, slot.
  assert (Hm := Z.mod_pos_bound (t + i) n Hn).
  replace (t + (i + 1)) with (t + i + 1) by lia. rewrite <-(Z.add_mod_idemp_l (t + i) 1 n) by lia.
  set (r := (t + i) mod n) in *.
  destruct (Z.leb_spec (stride * n) (stride * r + stride)).
  - assert (r = n - 1) by nia. subst r. replace ((t + i) mod n + 1) with n by lia.
    rewrite Z_mod_same_full. nia.
  - assert (r + 1 < n) by nia. rewrite (Z.mod_small (r + 1)) by lia. lia.
Qed.

Lemma slot_shift t i : 0 < n -> slot ((t + 1) mod n) i = slot t (i + 1).
Proof.
  intros Hn. unfold slot. rewrite Z.add_mod_idemp_l by lia. do 2 f_equal. lia.
Qed.

Lemma slot_inj t i j : 0 < stride -> 0 <= i < n -> 0 <= j < n -> slot t i = slot t j -> i = j.
Proof.
  intros Hs Hi Hj Hij. unfold slot in Hij.
  assert (Hm : (t + i) mod n = (t + j) mod n) by nia.
  assert (Hd : (i - j) mod n = 0).
  { replace (i - j) with ((t + i) - (t + j)) by lia.
    rewrite Zminus_mod, Hm, Z.sub_diag. apply Z.mod_0_l. lia. }
  apply Z.mod_divide in Hd; [|lia]. destruct Hd as [k Hk]. assert (k = 0) by nia. lia.
Qed.

Lemma slot_wrap t : 0 < n -> slot t n = slot t 0.
Proof.
  intros Hn. unfold slot. f_equal. rewrite Z.add_0_r, <-Z.add_mod_idemp_r by lia.
  by rewrite Z_mod_same_full, Z.add_0_r.
Qed.

(** The entry of the consumer is free exactly when the ring is empty, that of the
    producer exactly when there is room. *)
Lemma ring_of_empty ring tl hd l : 0 < n -> ring_of ring tl hd l ->
  free (ring !!! tl) = true <-> l = [].
Proof.
  intros Hn [Hs Hl (t & Ht & -> & -> & He & Hf) Hu]. destruct l as [|e l].
  - split; [done|]. intros _. apply Hf. cbn [length]. lia.
  - split; [|done]. change 0 with (Z.of_nat 0). rewrite (He 0%nat e eq_refl).
    apply Forall_cons in Hu as [Hu _]. by rewrite Hu.
Qed.

Lemma ring_of_head ring tl hd e l : 0 < n -> ring_of ring tl hd (e :: l) -> ring !!! tl = e.
Proof.
  intros Hn [Hs Hl (t & Ht & -> & -> & He & Hf) Hu]. by apply (He 0%nat).
Qed.

Lemma ring_of_room ring tl hd l : 0 < n -> ring_of ring tl hd l ->
  free (ring !!! hd) = true <-> Z.of_nat (length l) < n.
Proof.
  intros Hn [Hs Hl (t & Ht & -> & -> & He & Hf) Hu]. split; intros Hc.
  - destruct (decide (Z.of_nat (length l) = n)) as [E|]; [|lia].
    rewrite E, slot_wrap in Hc by done. destruct l as [|e l]; [cbn in E; lia|].
    change 0 with (Z.of_nat 0) in Hc. rewrite (He 0%nat e eq_refl) in Hc.
    apply Forall_cons in Hu as [Hu _]. by rewrite Hu in Hc.
  - apply Hf. lia.
Qed.

Lemma ring_of_push ring tl hd l e : 0 < n -> ring_of ring tl hd l ->
  free (ring !!! hd) = true -> free e = false ->
  ring_of (<[hd := e]> ring) tl (ring_adv hd) (l ++ [e]).
Proof.
  intros Hn Hr Hc He0. pose proof (proj1 (ring_of_room _ _ _ _ Hn Hr) Hc) as Hlt.
  destruct Hr as [Hs Hl (t & Ht & -> & -> & He & Hf) Hu]. constructor.
  - done.
  - rewrite length_app. cbn [length]. lia.
  - exists t. split; [done|]. split; [done|]. rewrite length_app. cbn [length].
    split; [rewrite slot_adv by lia; f_equal; lia|]. split.
    + intros i e' [Hi|[Hi He']]%lookup_app_Some.
      * apply lookup_lt_Some in Hi as Hi'. rewrite lookup_total_insert_ne; [by apply He|].
        intros Hx%slot_inj; lia.
      * apply list_lookup_singleton_Some in He' as [Hi0 ->].
        replace i with (length l) by lia. by rewrite lookup_total_insert_eq.
    + intros i Hi. rewrite lookup_total_insert_ne; [apply Hf; lia|]. intros Hx%slot_inj; lia.
  - apply Forall_app. split; [done|]. by apply Forall_singleton.
Qed.

Lemma ring_of_pop ring tl hd e l e' : 0 < n -> ring_of ring tl hd (e :: l) -> free e' = true ->
  ring_of (<[tl := e']> ring) (ring_adv tl) hd l.
Proof.
  intros Hn [Hs Hl (t & Ht & -> & -> & He & Hf) Hu] Hfr. cbn [length] in *.
  apply Forall_cons in Hu as [_ Hu].
  assert (Ht' := Z.mod_pos_bound (t + 1) n Hn). constructor; [done|lia| |done].
  exists ((t + 1) mod n). split; [done|]. rewrite !slot_shift by done.
  split; [rewrite slot_adv by lia; f_equal; lia|]. split; [f_equal; lia|]. split.
  - intros i e0 Hi. apply lookup_lt_Some in Hi as Hi'. rewrite slot_shift by done.
    rewrite lookup_total_insert_ne; [|intros Hx%slot_inj; lia].
    replace (Z.of_nat i + 1) with (Z.of_nat (S i)) by lia. by apply He.
  - intros i Hi. rewrite slot_shift by done.
    destruct (decide (i = n - 1)) as [->|Hne].
    + replace (n - 1 + 1) with n by lia. rewrite slot_wrap by done.
      by rewrite lookup_total_insert_eq.
    + rewrite lookup_total_insert_ne; [apply Hf; lia|]. intros Hx%slot_inj; lia.
Qed.

Lemma ring_of_len_pos ring tl hd l : ring_of ring tl hd l -> 0 < n.
Proof. intros [_ _ (t & Ht & _) _]. lia. Qed.

(** A new ring is empty. *)
Lemma ring_of_new ring : 0 < stride -> 0 < n -> (forall k, free (ring !!! k) = true) ->
  ring_of ring 0 0 [].
Proof.
  intros Hs Hn Hf. constructor; [done|cbn; lia| |constructor].
  exists 0. assert (E : slot 0 0 = 0) by (unfold slot; rewrite Z.mod_0_l by lia; lia).
  cbn [length]. change (Z.of_nat 0) with 0. rewrite E.
  split; [lia|]. split; [done|]. split; [done|]. split; [|by intros].
  intros i e Hi. by rewrite lookup_nil in Hi.
Qed.

End Ring.

(** The positions are in the ring. *)
Lemma ring_of_hd {A} `{Inhabited A} free s n (ring : gmap Z A) tl hd l :
  ring_of free s n ring tl hd l -> 0 <= hd < s * n.
Proof.
  intros [Hs _ (t & Ht & _ & -> & _) _]. unfold slot.
  pose proof (Z.mod_pos_bound (t + Z.of_nat (length l)) n ltac:(lia)). nia.
Qed.

Lemma ring_of_tl {A} `{Inhabited A} free s n (ring : gmap Z A) tl hd l :
  ring_of free s n ring tl hd l -> 0 <= tl < s * n.
Proof.
  intros [Hs _ (t & Ht & -> & _) _]. unfold slot.
  pose proof (Z.mod_pos_bound (t + 0) n ltac:(lia)). nia.
Qed.
