(* ===== verification/Qman.v ===== *)
(** * Queue manager (tas/fast/qman.c)

    Flow queues are array cells linked by indices: a FIFO list for queues
    without rate limit and a skip list ordered by time stamp for the others,
    for each VM; the VMs with pending work form another FIFO list.  A failed
    assertion, and a loop that has not ended within its fuel, are [None]. *)

From S2P Require Import Prelude FpTypes Rng.

Definition FLAG_INSKIPLIST : Z := 1.
Definition FLAG_INNOLIMITL : Z := 2.
Definition SKIPLIST_BITS : Z := 3.
Definition QMAN_SKIPLIST_LEVELS : nat := 4.
Definition RNG_SEED : Z := 305419896.
Definition TIMESTAMP_MASK : Z := 4294967295.

(** ** State *)

Record flow_queue : Type := mk_flow_queue {
  next_idxs : gmap nat Z; next_ts : Z; rate : Z; fq_avail : Z;
  max_chunk : Z; fq_flags : Z }.
#[export] Instance eta_flow_queue : Eta flow_queue := fun r =>
  mk_flow_queue (next_idxs r) (next_ts r) (rate r) (fq_avail r) (max_chunk r)
    (fq_flags r).
(** [calloc]. *)
#[export] Instance flow_queue_inhabited : Inhabited flow_queue :=
  populate (mk_flow_queue ∅ 0 0 0 0 0).

Record flow_qman : Type := mk_flow_qman {
  fqueues : gmap Z flow_queue; head_idx : gmap nat Z;
  nolimit_head_idx : Z; nolimit_tail_idx : Z; nolimit_first : bool }.
#[export] Instance eta_flow_qman : Eta flow_qman := fun r =>
  mk_flow_qman (fqueues r) (head_idx r) (nolimit_head_idx r)
    (nolimit_tail_idx r) (nolimit_first r).
#[export] Instance flow_qman_inhabited : Inhabited flow_qman :=
  populate (mk_flow_qman ∅ ∅ 0 0 false).

Record vm_queue : Type := mk_vm_queue {
  vq_id : Z; vq_next_idx : Z; fqman : flow_qman; vq_avail : Z; vq_flags : Z;
  ts_real : Z; ts_virtual : Z }.
#[export] Instance eta_vm_queue : Eta vm_queue := fun r =>
  mk_vm_queue (vq_id r) (vq_next_idx r) (fqman r) (vq_avail r) (vq_flags r)
    (ts_real r) (ts_virtual r).
#[export] Instance vm_queue_inhabited : Inhabited vm_queue :=
  populate (mk_vm_queue 0 0 inhabitant 0 0 0 0).

Record vm_qman : Type := mk_vm_qman {
  vqueues : gmap Z vm_queue; vm_head_idx : Z; vm_tail_idx : Z }.
#[export] Instance eta_vm_qman : Eta vm_qman := fun r =>
  mk_vm_qman (vqueues r) (vm_head_idx r) (vm_tail_idx r).

Record qman_thread : Type := mk_qman_thread { vqman : vm_qman; rng : Z }.
#[export] Instance eta_qman_thread : Eta qman_thread := fun r =>
  mk_qman_thread (vqman r) (rng r).

Definition upd_fq (idx : Z) (g : flow_queue -> flow_queue) (fm : flow_qman)
    : flow_qman :=
  fm <| fqueues ::= fun m => <[idx := g (m !!! idx)]> m |>.

Definition upd_vq (idx : Z) (g : vm_queue -> vm_queue) (vm : vm_qman) : vm_qman :=
  vm <| vqueues ::= fun m => <[idx := g (m !!! idx)]> m |>.

(** ** Time stamps *)

(** [rel_time]: the arithmetic is on [uint64_t]; the result an [int64_t]. *)
Definition rel_time (cur_ts ts_in : Z) : Z :=
  let ts := ts_in in
  let middle := 2147483648 in
  if cur_ts <? middle then
    let start := Z.land (u64 (cur_ts - middle)) TIMESTAMP_MASK in
    let end_ := 4294967296 in
    if (start <=? ts) && (ts <? end_)
    then s64 (u64 (u64 (ts - start) - middle))
    else s64 (u64 (ts - cur_ts))
  else if cur_ts =? middle then s64 (u64 (ts - cur_ts))
  else
    let start := 0 in
    let end_ := u64 (Z.land (u64 (cur_ts + middle)) TIMESTAMP_MASK + 1) in
    if (start <=? cur_ts) && (ts <? end_)
    then s64 (u64 (ts + (4294967296 - cur_ts)))
    else s64 (u64 (ts - cur_ts)).

Definition timestamp_lessthaneq (tsv a b : Z) : bool :=
  rel_time tsv a <=? rel_time tsv b.

(** [freq] is [rte_get_tsc_hz()]. *)
Definition tas_qman_timestamp (freq cycles : Z) : Z :=
  u32 (u64 (cycles * 1000000) / freq).
Definition timestamp (freq cycles : Z) : Z :=
  u32 (u64 (cycles * 1000000000) / freq).

Definition flow_queue_new_ts (tsv : Z) (q : flow_queue) (bytes : Z) : Z :=
  u32 (tsv + u64 (u64 (bytes * 8) * 1000000) / rate q).

(** ** Initialisation *)

(** [first] is the content of the [malloc]ed [nolimit_first]. *)
Definition flowcont_init (first : bool) : flow_qman :=
  mk_flow_qman ∅ (list_to_map (map (fun i => (i, IDXLIST_INVAL)) (seq 0 QMAN_SKIPLIST_LEVELS)))
    IDXLIST_INVAL IDXLIST_INVAL first.

(** [now i] is the time at which queue [i] is initialised. *)
Definition vmcont_init (first : Z -> bool) (now : Z -> Z) : vm_qman :=
  mk_vm_qman
    (list_to_map (map (fun i => (i, mk_vm_queue i 0 (flowcont_init (first i)) 0 0 (now i) 0))
       (seqZ 0 FLEXNIC_PL_VMST_NUM)))
    IDXLIST_INVAL IDXLIST_INVAL.

Definition tas_qman_thread_init (first : Z -> bool) (now : Z -> Z) (id : Z)
    : qman_thread :=
  mk_qman_thread (vmcont_init first now)
    (utils_rng_init (u64 (s32 (RNG_SEED * id + id)))).

(** ** No limit list *)

Definition fq_in_list (q : flow_queue) : bool :=
  negb (Z.land (fq_flags q) (Z.lor FLAG_INSKIPLIST FLAG_INNOLIMITL) =? 0).

Definition flow_queue_activate_nolimit (fm : flow_qman) (idx : Z)
    : option flow_qman :=
  cassert (negb (fq_in_list (fqueues fm !!! idx)));;
  let fm := upd_fq idx (fun q =>
    q <| fq_flags := Z.lor (fq_flags q) FLAG_INNOLIMITL |>
      <| next_idxs ::= <[0%nat := IDXLIST_INVAL]> |>) fm in
  if nolimit_tail_idx fm =? IDXLIST_INVAL
  then Some (fm <| nolimit_head_idx := idx |> <| nolimit_tail_idx := idx |>)
  else
    let fm := upd_fq (nolimit_tail_idx fm)
                (fun q => q <| next_idxs ::= <[0%nat := idx]> |>) fm in
    Some (fm <| nolimit_tail_idx := idx |>).

(** ** Skip list *)

(** [__builtin_ffs] of a 32-bit word. *)
Fixpoint ffs_pos (p : positive) : Z :=
  match p with xO p => 1 + ffs_pos p | _ => 1 end.
Definition ffs (x : Z) : Z :=
  match x with Z0 => 0 | Zpos p => ffs_pos p | Zneg p => ffs_pos p end.

(** New random state and level. *)
Definition flow_queue_level (r : Z) : Z * nat :=
  let '(r, x) := utils_rng_gen32 r in
  let x := u8 (Z.quot (ffs x - 1) SKIPLIST_BITS) in
  (r, if x <? 4 then Z.to_nat x else 3%nat).

(** The [while] loop of the search at level [l]: last cell before [ts]. *)
Fixpoint skip_walk (fuel : nat) (fm : flow_qman) (tsv : Z) (l : nat)
    (ts pred idx : Z) : option Z :=
  match fuel with
  | O => None
  | S fuel =>
      if negb (idx =? IDXLIST_INVAL)
         && timestamp_lessthaneq tsv (next_ts (fqueues fm !!! idx)) ts
      then skip_walk fuel fm tsv l ts idx (next_idxs (fqueues fm !!! idx) !!! l)
      else Some pred
  end.

(** Predecessors at levels [n - 1] to 0, starting from [pred]. *)
Fixpoint skip_preds (n : nat) (fm : flow_qman) (tsv ts pred : Z)
    : option (gmap nat Z) :=
  match n with
  | O => Some ∅
  | S l =>
      let idx := if negb (pred =? IDXLIST_INVAL) then pred
                 else head_idx fm !!! l in
      pred ← skip_walk (S (S (size (fqueues fm)))) fm tsv l ts pred idx;
      preds ← skip_preds l fm tsv ts pred;
      Some (<[l := pred]> preds)
  end.

(** One iteration of the insertion loop. *)
Definition skip_link_level (l level : nat) (preds : gmap nat Z) (q_idx : Z)
    (fm : flow_qman) : flow_qman :=
  if (level <? l)%nat
  then upd_fq q_idx (fun q => q <| next_idxs ::= <[l := IDXLIST_INVAL]> |>) fm
  else
    let idx := preds !!! l in
    if negb (idx =? IDXLIST_INVAL) then
      let fm := upd_fq q_idx (fun q => q <| next_idxs ::=
                  <[l := next_idxs (fqueues fm !!! idx) !!! l]> |>) fm in
      upd_fq idx (fun q => q <| next_idxs ::= <[l := q_idx]> |>) fm
    else
      let fm := upd_fq q_idx (fun q => q <| next_idxs ::=
                  <[l := head_idx fm !!! l]> |>) fm in
      fm <| head_idx ::= <[l := q_idx]> |>.

(** Link queue [q_idx] at levels [n - 1] to 0. *)
Fixpoint skip_link (n : nat) (level : nat) (preds : gmap nat Z) (q_idx : Z)
    (fm : flow_qman) : flow_qman :=
  match n with
  | O => fm
  | S l => skip_link l level preds q_idx (skip_link_level l level preds q_idx fm)
  end.

Definition clamp_ts (tsv : Z) (q : flow_queue) : Z :=
  let ts := next_ts q in
  let max_ts := flow_queue_new_ts tsv q (max_chunk q) in
  if timestamp_lessthaneq tsv ts tsv then tsv
  else if negb (timestamp_lessthaneq tsv ts max_ts) then max_ts
  else ts.

Definition flow_queue_activate_skiplist (r tsv : Z) (fm : flow_qman) (q_idx : Z)
    : option (Z * flow_qman) :=
  cassert (negb (fq_in_list (fqueues fm !!! q_idx)));;
  let ts := clamp_ts tsv (fqueues fm !!! q_idx) in
  let fm := upd_fq q_idx (fun q => q <| next_ts := ts |>) fm in
  preds ← skip_preds QMAN_SKIPLIST_LEVELS fm tsv ts IDXLIST_INVAL;
  let '(r, level) := flow_queue_level r in
  let fm := skip_link QMAN_SKIPLIST_LEVELS level preds q_idx fm in
  Some (r, upd_fq q_idx (fun q =>
             q <| fq_flags := Z.lor (fq_flags q) FLAG_INSKIPLIST |>) fm).

Definition flow_queue_activate (r tsv : Z) (fm : flow_qman) (idx : Z)
    : option (Z * flow_qman) :=
  if rate (fqueues fm !!! idx) =? 0
  then fm ← flow_queue_activate_nolimit fm idx; Some (r, fm)
  else flow_queue_activate_skiplist r tsv fm idx.

(** ** Setting a flow queue *)

Definition flag_set (flags f : Z) : bool := negb (Z.land flags f =? 0).

Definition flow_set_impl (r : Z) (tsv : Z) (fm : flow_qman)
    (idx rt avail chunk flags : Z) : option (Z * flow_qman) :=
  let fm := upd_fq idx (fun q =>
    let q := if flag_set flags QMAN_SET_RATE then q <| rate := rt |> else q in
    let q := if flag_set flags QMAN_SET_MAXCHUNK
             then q <| max_chunk := chunk |> else q in
    if flag_set flags QMAN_SET_AVAIL then q <| fq_avail := avail |>
    else if flag_set flags QMAN_ADD_AVAIL
    then q <| fq_avail := u32 (fq_avail q + avail) |> else q) fm in
  let new_avail := flag_set flags QMAN_SET_AVAIL || flag_set flags QMAN_ADD_AVAIL in
  let q := fqueues fm !!! idx in
  if new_avail && (0 <? fq_avail q) && negb (fq_in_list q)
  then flow_queue_activate r tsv fm idx
  else Some (r, fm).

Definition flow_qman_set (r : Z) (tsv : Z) (fm : flow_qman)
    (id rt avail chunk flags : Z) : option (Z * flow_qman * Z) :=
  if FLEXNIC_NUM_QMFLOWQUEUES <=? id then Some (r, fm, -1)
  else
    '(r, fm) ← flow_set_impl r tsv fm id rt avail chunk flags;
    Some (r, fm, 0).

(** ** VM list *)

Definition vm_queue_activate (vm : vm_qman) (idx : Z) : option vm_qman :=
  cassert (Z.land (vq_flags (vqueues vm !!! idx)) FLAG_INNOLIMITL =? 0);;
  let vm := upd_vq idx (fun q =>
    q <| vq_flags := Z.lor (vq_flags q) FLAG_INNOLIMITL |>
      <| vq_next_idx := IDXLIST_INVAL |>) vm in
  if vm_tail_idx vm =? IDXLIST_INVAL
  then Some (vm <| vm_head_idx := idx |> <| vm_tail_idx := idx |>)
  else
    let vm := upd_vq (vm_tail_idx vm) (fun q => q <| vq_next_idx := idx |>) vm in
    Some (vm <| vm_tail_idx := idx |>).

Definition vm_set_impl (vm : vm_qman) (v_idx f_idx avail flags : Z)
    : option vm_qman :=
  let fq := fqueues (fqman (vqueues vm !!! v_idx)) !!! f_idx in
  let new_avail := flag_set flags QMAN_SET_AVAIL || flag_set flags QMAN_ADD_AVAIL in
  let vm := upd_vq v_idx (fun q =>
    if flag_set flags QMAN_SET_AVAIL
    then q <| vq_avail := u32 (u32 (vq_avail q - fq_avail fq) + avail) |>
    else if flag_set flags QMAN_ADD_AVAIL
    then q <| vq_avail := u32 (vq_avail q + avail) |> else q) vm in
  let q := vqueues vm !!! v_idx in
  if new_avail && (0 <? vq_avail q) && (Z.land (vq_flags q) FLAG_INNOLIMITL =? 0)
  then vm_queue_activate vm v_idx
  else Some vm.

Definition vm_qman_set (t : qman_thread) (vmid flow_id rt avail chunk flags : Z)
    : option (qman_thread * Z) :=
  if FLEXNIC_PL_VMST_NUM <=? vmid then Some (t, -1)
  else
    vm ← vm_set_impl (vqman t) vmid flow_id avail flags;
    let vq := vqueues vm !!! vmid in
    '(r, fm, ret) ← flow_qman_set (rng t) (ts_virtual vq) (fqman vq) flow_id rt
                      avail chunk flags;
    Some (mk_qman_thread (upd_vq vmid (fun q => q <| fqman := fm |>) vm) r, ret).

Definition tas_qman_set (t : qman_thread) (vmid flow_id rt avail chunk flags : Z)
    : option (qman_thread * Z) :=
  vm_qman_set t vmid flow_id rt avail (u16 chunk) (u8 flags).

(** ** Polling *)

(** One entry of [q_ids], [q_bytes] and [vm_ids]. *)
Record qm_ev : Type := mk_qm_ev { ev_flow : Z; ev_bytes : Z; ev_vm : Z }.

(** The parts of the state a flow poll changes. *)
Record fpoll : Type := mk_fpoll {
  fp_rng : Z; fp_vq : vm_queue; fp_limited : bool; fp_out : list qm_ev;
  fp_sum : Z }.
#[export] Instance eta_fpoll : Eta fpoll := fun r =>
  mk_fpoll (fp_rng r) (fp_vq r) (fp_limited r) (fp_out r) (fp_sum r).

Definition flow_queue_fire (s : fpoll) (idx : Z) : option fpoll :=
  let vq := fp_vq s in
  let q := fqueues (fqman vq) !!! idx in
  cassert (0 <? fq_avail q);;
  let bytes := if fq_avail q <=? max_chunk q then fq_avail q else max_chunk q in
  let fm := upd_fq idx (fun q =>
    let q := q <| fq_avail := u32 (fq_avail q - bytes) |> in
    if 0 <? rate q
    then q <| next_ts := flow_queue_new_ts (ts_virtual vq) q bytes |> else q)
    (fqman vq) in
  '(r, fm) ← (if 0 <? fq_avail (fqueues fm !!! idx)
              then flow_queue_activate (fp_rng s) (ts_virtual vq) fm idx
              else Some (fp_rng s, fm));
  Some (mk_fpoll r (vq <| fqman := fm |>) (fp_limited s)
          (fp_out s ++ [mk_qm_ev idx (u16 bytes) (vq_id vq)])
          (s32 (fp_sum s + bytes))).

Definition set_fqman (g : flow_qman -> flow_qman) (s : fpoll) : fpoll :=
  s <| fp_vq ::= fun vq => vq <| fqman ::= g |> |>.

(** [cnt] counts the entries of this loop. *)
Fixpoint flow_poll_nolimit (fuel : nat) (s : fpoll) (num cnt : Z)
    : option (fpoll * Z) :=
  match fuel with
  | O => None
  | S fuel =>
      let fm := fqman (fp_vq s) in
      if (cnt <? num) && negb (nolimit_head_idx fm =? IDXLIST_INVAL) then
        let idx := nolimit_head_idx fm in
        let nxt := next_idxs (fqueues fm !!! idx) !!! 0%nat in
        let s := set_fqman (fun fm => fm <| nolimit_head_idx := nxt |>) s in
        let s := if nxt =? IDXLIST_INVAL
                 then set_fqman (fun fm => fm <| nolimit_tail_idx := IDXLIST_INVAL |>) s
                 else s in
        let s := set_fqman (upd_fq idx (fun q =>
                   q <| fq_flags := Z.land (fq_flags q) (Z.lnot FLAG_INNOLIMITL) |>)) s in
        if 0 <? fq_avail (fqueues (fqman (fp_vq s)) !!! idx) then
          s ← flow_queue_fire s idx;
          flow_poll_nolimit fuel s num (cnt + 1)
        else flow_poll_nolimit fuel s num cnt
      else Some (s, cnt)
  end.

(** Remove the head [idx] from the levels it is the head of. *)
Fixpoint skip_unlink (n : nat) (l : nat) (idx : Z) (fm : flow_qman) : flow_qman :=
  match n with
  | O => fm
  | S n =>
      if head_idx fm !!! l =? idx
      then skip_unlink n (S l) idx
             (fm <| head_idx ::= <[l := next_idxs (fqueues fm !!! idx) !!! l]> |>)
      else fm
  end.

Fixpoint skip_loop (fuel : nat) (s : fpoll) (max_vts num cnt : Z)
    : option (fpoll * Z) :=
  match fuel with
  | O => None
  | S fuel =>
      if cnt <? num then
        let fm := fqman (fp_vq s) in
        let idx := head_idx fm !!! 0%nat in
        let q := fqueues fm !!! idx in
        if idx =? IDXLIST_INVAL
        then Some (s <| fp_vq ::= fun vq => vq <| ts_virtual := max_vts |> |>, cnt)
        else if negb (timestamp_lessthaneq (ts_virtual (fp_vq s)) (next_ts q) max_vts)
        then Some (s <| fp_vq ::= fun vq => vq <| ts_virtual := max_vts |> |>
                     <| fp_limited := true |>, cnt)
        else
          let s := set_fqman (skip_unlink QMAN_SKIPLIST_LEVELS 0 idx) s in
          cassert (negb (Z.land (fq_flags q) FLAG_INSKIPLIST =? 0));;
          let s := set_fqman (upd_fq idx (fun q =>
                     q <| fq_flags := Z.land (fq_flags q) (Z.lnot FLAG_INSKIPLIST) |>)) s in
          let s := s <| fp_vq ::= fun vq => vq <| ts_virtual := next_ts q |> |> in
          if 0 <? fq_avail q then
            s ← flow_queue_fire s idx;
            skip_loop fuel s max_vts num (cnt + 1)
          else skip_loop fuel s max_vts num cnt
      else Some (s, cnt)
  end.

Definition flow_poll_skiplist (fuel : nat) (s : fpoll) (cur_ts orig_num num : Z)
    : option (fpoll * Z) :=
  let vq := fp_vq s in
  let max_vts := u32 (ts_virtual vq + u32 (cur_ts - ts_real vq)) in
  '(s, cnt) ← skip_loop fuel s max_vts num 0;
  let vq := fp_vq s in
  let vq :=
    if cnt =? orig_num then
      let idx := head_idx (fqman vq) !!! 0%nat in
      let nts := next_ts (fqueues (fqman vq) !!! idx) in
      if negb (idx =? IDXLIST_INVAL) && timestamp_lessthaneq (ts_virtual vq) nts max_vts
      then vq <| ts_virtual := nts |>
      else vq <| ts_virtual := max_vts |>
    else vq in
  Some (s <| fp_vq := vq <| ts_real := cur_ts |> |>, cnt).

Definition flow_qman_poll (fuel : nat) (s : fpoll) (cur_ts orig_num num : Z)
    : option (fpoll * Z) :=
  '(s, x, y) ←
    (if nolimit_first (fqman (fp_vq s)) then
       '(s, x) ← flow_poll_nolimit fuel s num 0;
       '(s, y) ← flow_poll_skiplist fuel s cur_ts orig_num (num - x);
       Some (s, x, y)
     else
       '(s, x) ← flow_poll_skiplist fuel s cur_ts orig_num num;
       '(s, y) ← flow_poll_nolimit fuel s (num - x) 0;
       Some (s, x, y));
  Some (set_fqman (fun fm => fm <| nolimit_first := negb (nolimit_first fm) |>) s,
        x + y).

Definition vm_queue_fire (vm : vm_qman) (idx bytes_sum : Z) : option vm_qman :=
  cassert (0 <? vq_avail (vqueues vm !!! idx));;
  let vm := upd_vq idx (fun q => q <| vq_avail := u32 (vq_avail q - bytes_sum) |>) vm in
  if 0 <? vq_avail (vqueues vm !!! idx) then vm_queue_activate vm idx else Some vm.

(** State of [vm_qman_poll]: queue manager, entries, counters of the context,
    VMs out of budget, [skpl_state->orig_num]. *)
Record vpoll : Type := mk_vpoll {
  vp_t : qman_thread; vp_out : list qm_ev; vp_counters : gmap Z Z;
  vp_total : Z; vp_oob : list Z; vp_orig : Z }.
#[export] Instance eta_vpoll : Eta vpoll := fun r =>
  mk_vpoll (vp_t r) (vp_out r) (vp_counters r) (vp_total r) (vp_oob r) (vp_orig r).

Definition set_vqman (g : vm_qman -> vm_qman) (s : vpoll) : vpoll :=
  s <| vp_t ::= fun t => t <| vqman ::= g |> |>.

(** Poll the flows of VM [idx]: entries, bytes, whether it was rate limited. *)
Definition poll_flows (fuel : nat) (s : vpoll) (idx cur_ts num : Z)
    : option (vpoll * Z * Z * bool) :=
  '(f, x) ← flow_qman_poll fuel
              (mk_fpoll (rng (vp_t s)) (vqueues (vqman (vp_t s)) !!! idx) false
                 (vp_out s) 0) cur_ts (vp_orig s) num;
  let s := set_vqman (fun vm => vm <| vqueues ::= <[idx := fp_vq f]> |>) s in
  Some (s <| vp_t ::= fun t => t <| rng := fp_rng f |> |> <| vp_out := fp_out f |>,
        x, fp_sum f, fp_limited f).

(** First loop of [vm_qman_poll]; [rvq] is the first rate limited VM. *)
Definition vm_poll_iter (ffuel : nat) (budgets : gmap Z Z) (cur_ts num : Z)
    (s : vpoll) (cnt : Z) (rvq : option Z) : option (vpoll * Z * option Z * bool) :=
  let idx := vm_head_idx (vqman (vp_t s)) in
  if (cnt <? num) && negb (idx =? IDXLIST_INVAL) then
    if bool_decide (rvq = Some idx) then Some (s, cnt, rvq, false)
    else
      let nxt := vq_next_idx (vqueues (vqman (vp_t s)) !!! idx) in
      let s := set_vqman (fun vm =>
        let vm := upd_vq idx (fun q =>
          q <| vq_flags := Z.land (vq_flags q) (Z.lnot FLAG_INNOLIMITL) |>)
          (vm <| vm_head_idx := nxt |>) in
        if nxt =? IDXLIST_INVAL then vm <| vm_tail_idx := IDXLIST_INVAL |>
        else vm) s in
      if 0 <? budgets !!! idx then
        '(s, x, sum, limited) ← poll_flows ffuel (s <| vp_orig := num |>) idx
                                  cur_ts (num - cnt);
        let cnt := cnt + x in
        '(s, rvq) ←
          (if 0 <? vq_avail (vqueues (vqman (vp_t s)) !!! idx) then
             vm ← vm_queue_fire (vqman (vp_t s)) idx sum;
             Some (set_vqman (fun _ => vm) s,
                   match rvq with
                   | None => if (limited : bool) then Some idx else None
                   | Some _ => rvq
                   end)
           else Some (s, rvq));
        let s := s <| vp_counters ::= fun c => <[idx := s32 (c !!! idx + sum)]> c |>
                   <| vp_total := s32 (vp_total s + sum) |> in
        Some (s, cnt, rvq, true)
      else
        let s := if 0 <? vq_avail (vqueues (vqman (vp_t s)) !!! idx)
                 then s <| vp_oob ::= fun l => l ++ [idx] |> else s in
        Some (s, cnt, rvq, true)
  else Some (s, cnt, rvq, false).

Fixpoint vm_poll_loop (fuel ffuel : nat) (budgets : gmap Z Z) (cur_ts num : Z)
    (s : vpoll) (cnt : Z) (rvq : option Z) : option (vpoll * Z) :=
  match fuel with
  | O => None
  | S fuel =>
      '(s, cnt, rvq, more) ← vm_poll_iter ffuel budgets cur_ts num s cnt rvq;
      if (more : bool) then vm_poll_loop fuel ffuel budgets cur_ts num s cnt rvq
      else Some (s, cnt)
  end.

(** Second loop: VMs out of budget are served if nothing else was. *)
Fixpoint vm_poll_oob (ffuel : nat) (cur_ts num temp_cnt : Z)
    (oob : list Z) (s : vpoll) (cnt : Z) : option (vpoll * Z) :=
  match oob with
  | [] => Some (s, cnt)
  | idx :: oob =>
      let s := set_vqman (upd_vq idx (fun q =>
        q <| vq_flags := Z.land (vq_flags q) (Z.lnot FLAG_INNOLIMITL) |>)) s in
      if (cnt <? num) && (temp_cnt =? 0) then
        '(s, x, sum, _) ← poll_flows ffuel s idx cur_ts (num - cnt);
        vm ← (if 0 <? vq_avail (vqueues (vqman (vp_t s)) !!! idx)
              then vm_queue_fire (vqman (vp_t s)) idx sum
              else Some (vqman (vp_t s)));
        vm_poll_oob ffuel cur_ts num temp_cnt oob
          (set_vqman (fun _ => vm) s) (cnt + x)
      else
        vm ← vm_queue_activate (vqman (vp_t s)) idx;
        vm_poll_oob ffuel cur_ts num temp_cnt oob
          (set_vqman (fun _ => vm) s) cnt
  end.

(** [skpl_state->orig_num] keeps the content of the stack, [vp_orig s], when no
    VM with budget was polled. *)
Definition vm_qman_poll (fuel ffuel : nat) (budgets : gmap Z Z) (cur_ts num : Z)
    (s : vpoll) : option (vpoll * Z) :=
  '(s, cnt) ← vm_poll_loop fuel ffuel budgets cur_ts num
                (s <| vp_out := [] |> <| vp_oob := [] |>) 0 None;
  vm_poll_oob ffuel cur_ts num cnt (vp_oob s) s cnt.

(** [q_ids], [q_bytes] and [vm_ids] are the entries [vp_out] of the result. *)
Definition tas_qman_poll (fuel ffuel : nat) (budgets : gmap Z Z) (cur_ts num : Z)
    (s : vpoll) : option (vpoll * Z) :=
  '(s, ret) ← vm_qman_poll fuel ffuel budgets cur_ts num s;
  Some (s, ret).

(** [tas_qman_next_ts]; [ts] is [timestamp()]. *)
Definition tas_qman_next_ts (t : qman_thread) (ts : Z) : Z :=
  let vm := vqman t in
  if vm_head_idx vm =? IDXLIST_INVAL then u32 (-1)
  else
    let vq := vqueues vm !!! vm_head_idx vm in
    let fm := fqman vq in
    if negb (nolimit_head_idx fm =? IDXLIST_INVAL) then 0
    else
      let ret_ts := u32 (ts_virtual vq + u32 (ts - ts_real vq)) in
      let idx := head_idx fm !!! 0%nat in
      if negb (idx =? IDXLIST_INVAL) then
        let q := fqueues fm !!! idx in
        if timestamp_lessthaneq (ts_virtual vq) (next_ts q) ret_ts then 0
        else u32 (Z.quot (rel_time ret_ts (next_ts q)) 1000)
      else u32 (-1).

Definition qman_vm_get_avail (t : qman_thread) (vmid : Z) : Z :=
  vq_avail (vqueues (vqman t) !!! vmid).
