(* ===== verification/QmanProofs.v ===== *)
(** * Queue manager: proofs

    The links of a flow container represent a FIFO list and nested skip list
    levels; every operation keeps this representation, so that the loops end
    and the assertions hold, and setting a queue succeeds. *)

From S2P Require Import Prelude FpTypes Rng Links Qman.

Abbreviation INVAL := IDXLIST_INVAL.

(** ** Time stamps *)

(** Signed distance of [ts_in] from [cur_ts] modulo 2^32.  Only a stamp exactly
    half a period away is ambiguous: it counts as later if [cur_ts] is in the
    upper half, as earlier otherwise. *)
Definition rel_time_spec (cur_ts ts_in : Z) : Z :=
  if (2147483648 <? cur_ts) && (ts_in =? cur_ts - 2147483648)
  then 2147483648 else s32 (ts_in - cur_ts).

Lemma land_mask32 z : 0 <= z -> Z.land z TIMESTAMP_MASK = z mod 4294967296.
Proof.
  intros Hz. unfold TIMESTAMP_MASK. change 4294967295 with (Z.ones 32).
  by rewrite Z.land_ones by lia.
Qed.

Lemma rel_time_ok cur_ts ts_in :
  is_u32 cur_ts -> is_u32 ts_in -> rel_time cur_ts ts_in = rel_time_spec cur_ts ts_in.
Proof.
  intros Hc Ht. unfold rel_time, rel_time_spec.
  rewrite !land_mask32 by apply u64_range.
  unfold is_u32 in *.
  assert (E64 : forall z, - 4294967296 <= z <= 8589934592 -> s64 (u64 z) = z).
  { intros z Hz. unfold s64, u64. rewrite Zplus_mod_idemp_l, Z.mod_small; lia. }
  assert (E1 : forall z, cur_ts < 2147483648 -> z = cur_ts - 2147483648 ->
     u64 z mod 4294967296 = cur_ts + 2147483648).
  { intros z Hlt ->. unfold u64. rewrite <- (Z.mod_unique (cur_ts - 2147483648)
      18446744073709551616 (-1) (cur_ts - 2147483648 + 18446744073709551616))
      by lia.
    symmetry. apply (Z.mod_unique _ _ 4294967295); lia. }
  destruct (Z.ltb_spec cur_ts 2147483648).
  - rewrite E1 by lia.
    destruct (Z.ltb_spec 2147483648 cur_ts); [lia|]. cbn [andb].
    destruct (s32_cases ts_in cur_ts Ht Hc) as [[-> ?]|[[-> ?]|[-> ?]]];
      destruct (Z.leb_spec (cur_ts + 2147483648) ts_in),
        (Z.ltb_spec ts_in 4294967296); cbn [andb]; try lia;
      try (apply E64; lia).
    rewrite (u64_id (ts_in - _)) by cside. rewrite E64; lia.
  - destruct (Z.eqb_spec cur_ts 2147483648).
    + destruct (Z.ltb_spec 2147483648 cur_ts); [lia|]. cbn [andb].
      destruct (s32_cases ts_in cur_ts Ht Hc) as [[-> ?]|[[-> ?]|[-> ?]]];
        try lia; apply E64; lia.
    + rewrite (u64_id (cur_ts + _)) by cside.
      replace ((cur_ts + 2147483648) mod 4294967296) with (cur_ts - 2147483648)
        by (apply (Z.mod_unique _ _ 1); lia).
      rewrite (u64_id (cur_ts - 2147483648 + 1)) by cside.
      destruct (Z.ltb_spec 2147483648 cur_ts); [|lia].
      destruct (Z.leb_spec 0 cur_ts); [|lia]. cbn [andb].
      destruct (s32_cases ts_in cur_ts Ht Hc) as [[-> ?]|[[-> ?]|[-> ?]]];
        destruct (Z.ltb_spec ts_in (cur_ts - 2147483648 + 1)),
          (Z.eqb_spec ts_in (cur_ts - 2147483648)); try lia;
        rewrite E64; lia.
Qed.

(** ** Representation of a flow container *)

Definition fnext (fm : flow_qman) (l : nat) (i : Z) : Z :=
  next_idxs (fqueues fm !!! i) !!! l.

(** [N] is the no limit list, [L l] the list of level [l]. *)
Record flow_rep (fm : flow_qman) (N : list Z) (L : nat -> list Z) : Prop :=
  mk_flow_rep {
  fr_nolimit : queue_rep INVAL (fnext fm 0) (nolimit_head_idx fm)
                 (nolimit_tail_idx fm) N;
  fr_level : forall l, (l < 4)%nat -> path (fnext fm l) (head_idx fm !!! l) (L l) INVAL;
  fr_nodup : NoDup (L 0%nat);
  fr_inval : INVAL ∉ L 0%nat;
  fr_nest : forall l, (l < 3)%nat -> L (S l) `sublist_of` L l;
  fr_flags : forall i,
    fq_flags (fqueues fm !!! i)
    = if decide (i ∈ N) then FLAG_INNOLIMITL
      else if decide (i ∈ L 0%nat) then FLAG_INSKIPLIST else 0;
  fr_disj : forall i, i ∈ N -> i ∉ L 0%nat;
  fr_dom : forall i, i ∈ N \/ i ∈ L 0%nat -> is_Some (fqueues fm !! i) }.

(** Values of the cells: C ranges, and a queue with work is in a list. *)
Record fq_ok (q : flow_queue) : Prop := mk_fq_ok {
  fqk_ts : is_u32 (next_ts q);
  fqk_rate : is_u32 (rate q);
  fqk_avail : is_u32 (fq_avail q);
  fqk_chunk : is_u16 (max_chunk q) }.

Record flow_qman_ok (fm : flow_qman) (N : list Z) (L : nat -> list Z) : Prop :=
  mk_flow_qman_ok {
  fk_rep : flow_rep fm N L;
  fk_cells : forall i, fq_ok (fqueues fm !!! i);
  fk_active : forall i, 0 < fq_avail (fqueues fm !!! i) -> i ∈ N \/ i ∈ L 0%nat;
  fk_range : forall i, is_Some (fqueues fm !! i) ->
               0 <= i < FLEXNIC_NUM_QMFLOWQUEUES }.

Lemma fr_nest0 fm N L l :
  flow_rep fm N L -> (l < 4)%nat -> L l `sublist_of` L 0%nat.
Proof.
  intros Hr. induction l as [|l IH]; intros Hl; [done|].
  etransitivity; [apply (fr_nest _ _ _ Hr); lia|]. apply IH. lia.
Qed.

Lemma fq_in_list_iff fm N L i :
  flow_rep fm N L ->
  (fq_in_list (fqueues fm !!! i) = false <-> i ∉ N /\ i ∉ L 0%nat).
Proof.
  intros Hr. unfold fq_in_list. rewrite (fr_flags _ _ _ Hr).
  destruct (decide (i ∈ N)); [cbn; split; [done|tauto]|].
  destruct (decide (i ∈ L 0%nat)); [cbn; split; [done|tauto]|].
  cbn. tauto.
Qed.

(** Reading the container after a cell was updated. *)
Lemma upd_fq_eq i g fm : fqueues (upd_fq i g fm) !!! i = g (fqueues fm !!! i).
Proof. unfold upd_fq. cbn. by rewrite lookup_total_insert_eq. Qed.

Lemma upd_fq_ne i j g fm : i <> j -> fqueues (upd_fq i g fm) !!! j = fqueues fm !!! j.
Proof. intros. unfold upd_fq. cbn. by rewrite lookup_total_insert_ne. Qed.

Lemma upd_fq_dom i j g fm :
  is_Some (fqueues (upd_fq i g fm) !! j) <-> j = i \/ is_Some (fqueues fm !! j).
Proof.
  unfold upd_fq. cbn. rewrite lookup_insert_is_Some.
  destruct (decide (i = j)) as [->|]; intuition congruence.
Qed.

(** The links after redirecting cell [i] at level [l]. *)
Lemma fnext_upd_same fm i l y j :
  fnext (upd_fq i (fun q => q <| next_idxs ::= <[l := y]> |>) fm) l j
  = fupd (fnext fm l) i y j.
Proof.
  unfold fnext. destruct (decide (i = j)) as [->|Hij].
  - rewrite upd_fq_eq, fupd_eq. cbn. by rewrite lookup_total_insert_eq.
  - rewrite upd_fq_ne, fupd_ne by congruence. done.
Qed.

Lemma fnext_upd_other fm i l l' y j :
  l <> l' ->
  fnext (upd_fq i (fun q => q <| next_idxs ::= <[l := y]> |>) fm) l' j
  = fnext fm l' j.
Proof.
  intros Hl. unfold fnext. destruct (decide (i = j)) as [->|Hij].
  - rewrite upd_fq_eq. cbn. by rewrite lookup_total_insert_ne.
  - by rewrite upd_fq_ne.
Qed.

(** An update that keeps the links of the cell. *)
Lemma fnext_upd_keep fm i g l j :
  (forall q, next_idxs (g q) = next_idxs q) ->
  fnext (upd_fq i g fm) l j = fnext fm l j.
Proof.
  intros Hg. unfold fnext. destruct (decide (i = j)) as [->|Hij].
  - by rewrite upd_fq_eq, Hg.
  - by rewrite upd_fq_ne.
Qed.

(** ** Appending to the no limit list *)

Lemma flow_rep_ext fm fm' N L :
  (forall l i, fnext fm' l i = fnext fm l i) ->
  (forall i, fq_flags (fqueues fm' !!! i) = fq_flags (fqueues fm !!! i)) ->
  head_idx fm' = head_idx fm -> nolimit_head_idx fm' = nolimit_head_idx fm ->
  nolimit_tail_idx fm' = nolimit_tail_idx fm ->
  (forall i, is_Some (fqueues fm !! i) -> is_Some (fqueues fm' !! i)) ->
  flow_rep fm N L -> flow_rep fm' N L.
Proof.
  intros Hn Hf Hh Hnh Hnt Hd [R1 R2 R3 R4 R5 R6 R7 R8].
  constructor; rewrite ?Hh, ?Hnh, ?Hnt; try done.
  - eapply queue_rep_ext; [|exact R1]. intros x _. apply Hn.
  - intros l Hl. eapply path_ext; [|by apply R2]. intros x _. apply Hn.
  - intros i. rewrite Hf. apply R6.
  - intros i Hi. by apply Hd, R8.
Qed.

(** The values of a cell other than its links and flags. *)
Definition cell_data (q : flow_queue) := (next_ts q, rate q, fq_avail q, max_chunk q).
Definition same_data (fm fm' : flow_qman) : Prop :=
  forall i, cell_data (fqueues fm' !!! i) = cell_data (fqueues fm !!! i).

Lemma cell_data_avail q q' : cell_data q' = cell_data q -> fq_avail q' = fq_avail q.
Proof. intros E. exact (f_equal (fun t => t.1.2) E). Qed.

#[export] Instance same_data_preorder : PreOrder same_data.
Proof.
  split; [by intros fm i|]. intros f1 f2 f3 H1 H2 i. by rewrite H2.
Qed.

Lemma same_data_upd i g fm :
  (forall q, cell_data (g q) = cell_data q) -> same_data fm (upd_fq i g fm).
Proof.
  intros Hg j. destruct (decide (i = j)) as [->|].
  - by rewrite upd_fq_eq, Hg.
  - by rewrite upd_fq_ne.
Qed.

Lemma fq_ok_data q q' : cell_data q' = cell_data q -> fq_ok q -> fq_ok q'.
Proof. intros [= E1 E2 E3 E4] [? ? ? ?]. by constructor; rewrite ?E1, ?E2, ?E3, ?E4. Qed.

Lemma flow_rep_level_ne fm N L l j i :
  flow_rep fm N L -> (l < 4)%nat -> j ∈ L l -> i ∉ L 0%nat -> j <> i.
Proof.
  intros Hr Hl Hj Hi ->. apply Hi. eapply elem_of_sublist; [exact Hj|].
  by eapply fr_nest0.
Qed.

Lemma flow_rep_push fm fm' N L idx :
  flow_rep fm N L -> idx ∉ N -> idx ∉ L 0%nat ->
  queue_rep INVAL (fnext fm' 0) (nolimit_head_idx fm') (nolimit_tail_idx fm')
    (N ++ [idx]) ->
  head_idx fm' = head_idx fm ->
  (forall l j, l <> 0%nat \/ (j <> idx /\ j ∉ N) -> fnext fm' l j = fnext fm l j) ->
  (forall j, fq_flags (fqueues fm' !!! j)
     = if decide (j = idx) then FLAG_INNOLIMITL else fq_flags (fqueues fm !!! j)) ->
  (forall j, j = idx \/ is_Some (fqueues fm !! j) -> is_Some (fqueues fm' !! j)) ->
  flow_rep fm' (N ++ [idx]) L.
Proof.
  intros Hr HN HL Hq Hh Hn Hf Hd. pose proof Hr as [R1 R2 R3 R4 R5 R6 R7 R8].
  constructor; rewrite ?Hh; try done.
  - intros l Hl. eapply path_ext; [|by apply R2]. intros x Hx. apply Hn.
    destruct (decide (l = 0%nat)) as [->|]; [right|by left].
    split; [by eapply flow_rep_level_ne|]. intros HxN. by apply (R7 x).
  - intros i. rewrite Hf, R6. destruct (decide (i = idx)) as [->|Hne].
    + rewrite decide_True; [done|]. rewrite elem_of_app, list_elem_of_singleton. tauto.
    + destruct (decide (i ∈ N)), (decide (i ∈ N ++ [idx])) as [Hin|Hin];
        try done; rewrite elem_of_app, list_elem_of_singleton in Hin; tauto.
  - intros i. rewrite elem_of_app, list_elem_of_singleton. intros [?| ->]; auto.
  - intros i. rewrite elem_of_app, list_elem_of_singleton.
    intros [[?| ->]|?]; apply Hd; auto.
Qed.

(** The cell [idx] marked and terminated. *)
Definition mark_nolimit (idx : Z) (fm : flow_qman) : flow_qman :=
  upd_fq idx (fun q => q <| fq_flags := Z.lor (fq_flags q) FLAG_INNOLIMITL |>
                         <| next_idxs ::= <[0%nat := INVAL]> |>) fm.

Lemma mark_nolimit_spec fm idx :
  fq_flags (fqueues fm !!! idx) = 0 ->
  (forall j, fnext (mark_nolimit idx fm) 0 j = fupd (fnext fm 0) idx INVAL j)
  /\ (forall l j, l <> 0%nat -> fnext (mark_nolimit idx fm) l j = fnext fm l j)
  /\ (forall j, fq_flags (fqueues (mark_nolimit idx fm) !!! j)
       = if decide (j = idx) then FLAG_INNOLIMITL else fq_flags (fqueues fm !!! j)).
Proof.
  intros Hf. unfold mark_nolimit, fnext. split; [|split].
  - intros j. destruct (decide (idx = j)) as [->|].
    + rewrite upd_fq_eq, fupd_eq. cbn. by rewrite lookup_total_insert_eq.
    + by rewrite upd_fq_ne, fupd_ne by congruence.
  - intros l j Hl. destruct (decide (idx = j)) as [->|].
    + rewrite upd_fq_eq. cbn. by rewrite lookup_total_insert_ne.
    + by rewrite upd_fq_ne.
  - intros j. destruct (decide (j = idx)) as [->|].
    + rewrite upd_fq_eq. cbn. by rewrite Hf.
    + by rewrite upd_fq_ne.
Qed.

Lemma activate_nolimit_ok fm N L idx :
  flow_rep fm N L -> idx ∉ N -> idx ∉ L 0%nat -> idx <> INVAL ->
  exists fm', flow_queue_activate_nolimit fm idx = Some fm'
  /\ flow_rep fm' (N ++ [idx]) L /\ same_data fm fm'
  /\ (forall i, is_Some (fqueues fm' !! i) -> i = idx \/ is_Some (fqueues fm !! i)).
Proof.
  intros Hr HN HL Hi. unfold flow_queue_activate_nolimit.
  rewrite (proj2 (fq_in_list_iff fm N L idx Hr)) by done.
  cbn [negb cassert mbind option_bind]. fold (mark_nolimit idx fm).
  assert (Hf0 : fq_flags (fqueues fm !!! idx) = 0).
  { rewrite (fr_flags _ _ _ Hr). by rewrite !decide_False. }
  pose proof (mark_nolimit_spec fm idx Hf0) as (Hn0 & HnS & Hfl).
  set (fm1 := mark_nolimit idx fm) in *.
  assert (Hsd : same_data fm fm1) by by apply same_data_upd.
  assert (Hd1 : forall j, is_Some (fqueues fm1 !! j) <-> j = idx \/ is_Some (fqueues fm !! j))
    by (intros j; apply upd_fq_dom).
  pose proof (queue_rep_push INVAL (fnext fm 0) _ _ N idx (fr_nolimit _ _ _ Hr) HN Hi)
    as Hpush.
  change (nolimit_tail_idx fm1) with (nolimit_tail_idx fm).
  destruct (Z.eqb_spec (nolimit_tail_idx fm) INVAL) as [Ht|Ht].
  - eexists. split; [reflexivity|]. split; [|split; [done|intros i; apply Hd1]].
    apply (flow_rep_push fm); try done.
    + eapply queue_rep_ext; [|exact Hpush]. intros x _. apply Hn0.
    + intros l j Hlj. destruct (decide (l = 0%nat)) as [->|]; [|by apply HnS].
      destruct Hlj as [|[Hj _]]; [done|].
      change (fnext fm1 0 j = fnext fm 0 j). rewrite Hn0. by apply fupd_ne.
    + intros j. apply Hd1.
  - set (t := nolimit_tail_idx fm) in *.
    assert (Htin : t ∈ N).
    { pose proof (qr_tail _ _ _ _ _ (fr_nolimit _ _ _ Hr)) as Htl. fold t in Htl.
      destruct (last N) as [x|] eqn:E; [|done]. rewrite Htl.
      by apply last_Some_elem_of. }
    set (fm2 := upd_fq t _ fm1). eexists. split; [reflexivity|].
    assert (Hn2 : forall j, fnext fm2 0 j = fupd (fupd (fnext fm 0) idx INVAL) t idx j).
    { intros j. subst fm2. rewrite fnext_upd_same. unfold fupd at 1 2.
      by rewrite Hn0. }
    split; [|split].
    + apply (flow_rep_push fm); try done.
      * eapply queue_rep_ext; [|exact Hpush]. intros x _. apply Hn2.
      * intros l j Hlj. change (fnext fm2 l j = fnext fm l j).
        destruct (decide (l = 0%nat)) as [->|].
        -- destruct Hlj as [|[Hj HjN]]; [done|]. rewrite Hn2, !fupd_ne; [done|done|].
           by intros ->.
        -- subst fm2. rewrite fnext_upd_other by done. by apply HnS.
      * intros j. rewrite <- Hfl. change (fq_flags (fqueues fm2 !!! j)
          = fq_flags (fqueues fm1 !!! j)).
        subst fm2. destruct (decide (t = j)) as [->|];
          [by rewrite upd_fq_eq|by rewrite upd_fq_ne].
      * intros j Hj. apply upd_fq_dom. right. by apply Hd1.
    + etransitivity; [exact Hsd|]. by apply (same_data_upd t _ fm1).
    + intros i His. apply upd_fq_dom in His as [->|His]; [|by apply Hd1].
      right. apply (fr_dom _ _ _ Hr). by left.
Qed.

(** ** Searching the skip list *)

Section Search.
Context (fm : flow_qman) (tsv ts : Z) (L : nat -> list Z).

Definition ts_le (i : Z) : Prop :=
  timestamp_lessthaneq tsv (next_ts (fqueues fm !!! i)) ts = true.

(** [pred] is the last cell of [A], and the search stops there: the cell is
    due, the next one is not. *)
Record cut (l : list Z) (pred : Z) (A B : list Z) : Prop := mk_cut {
  cut_split : l = A ++ B;
  cut_pred : pred = default INVAL (last A);
  cut_le : forall x, last A = Some x -> ts_le x;
  cut_gt : forall x B', B = x :: B' -> ~ ts_le x }.

Lemma skip_walk_ok fuel l pred idx Y :
  path (fnext fm l) idx Y INVAL -> INVAL ∉ Y -> (length Y < fuel)%nat ->
  exists W B, Y = W ++ B
  /\ skip_walk fuel fm tsv l ts pred idx = Some (default pred (last W))
  /\ Forall ts_le W /\ (forall x B', B = x :: B' -> ~ ts_le x).
Proof.
  revert pred idx Y. induction fuel as [|fuel IH]; intros pred idx Y Hp Hin Hl; [lia|].
  cbn [skip_walk]. destruct Y as [|y Y]; cbn in Hp, Hl.
  - subst idx. rewrite Z.eqb_refl. cbn. exists [], []. by repeat constructor.
  - destruct Hp as [-> Hp]. rewrite elem_of_cons in Hin.
    rewrite (proj2 (Z.eqb_neq y INVAL)) by (intros ->; tauto). cbn [negb andb].
    destruct (timestamp_lessthaneq _ _ _) eqn:Ele.
    + destruct (IH y (fnext fm l y) Y) as (W & B & -> & Hw & HW & HB);
        [done|tauto|lia|].
      exists (y :: W), B. split; [done|]. split; [|by split; [constructor|]].
      unfold fnext in Hw. rewrite Hw. f_equal. rewrite last_cons. by destruct (last W).
    + exists [], (y :: Y). split; [done|]. split; [done|]. split; [done|].
      intros x B' [= <- <-]. unfold ts_le. by rewrite Ele.
Qed.

(** One level: continue from the cut of the level above. *)
Lemma skip_level_ok l pred U A B :
  path (fnext fm l) (head_idx fm !!! l) (L l) INVAL -> INVAL ∉ L l ->
  NoDup (L l) -> (length (L l) <= S (size (fqueues fm)))%nat ->
  U `sublist_of` L l -> cut U pred A B ->
  exists pred' A' B',
  skip_walk (S (S (size (fqueues fm)))) fm tsv l ts pred
    (if negb (pred =? INVAL) then pred else head_idx fm !!! l) = Some pred'
  /\ cut (L l) pred' A' B' /\ A `sublist_of` A' /\ B `sublist_of` B'.
Proof.
  intros Hp Hin Hnd Hsz Hsub [-> -> Hle Hgt].
  destruct (last A) as [p|] eqn:EA; cbn.
  - apply last_Some in EA as [A0 ->].
    assert (Hpin : p ∈ L l).
    { eapply elem_of_sublist; [|exact Hsub]. rewrite !elem_of_app, list_elem_of_singleton.
      tauto. }
    rewrite (proj2 (Z.eqb_neq p INVAL)) by (intros ->; done). cbn [negb].
    apply list_elem_of_split in Hpin as (X & Y & EL).
    rewrite EL in Hsub, Hp, Hnd, Hin, Hsz |- *.
    rewrite <- app_assoc in Hsub. cbn in Hsub.
    destruct (sublist_split_at p A0 B X Y Hsub Hnd) as [HA HB].
    apply path_app in Hp as (m & _ & Hp). pose proof Hp as [-> _].
    destruct (skip_walk_ok (S (S (size (fqueues fm)))) l p p (p :: Y))
      as (W & B' & EY & Hw & HW & HB'); [done| | |].
    { rewrite elem_of_app in Hin. tauto. }
    { rewrite length_app in Hsz. cbn in Hsz |- *. lia. }
    destruct W as [|w W]; cbn in EY.
    { exfalso. by apply (HB' p Y (eq_sym EY)), Hle. }
    injection EY as <- ->. exists (default p (last (p :: W))), (X ++ p :: W), B'.
    split; [done|]. apply Forall_cons in HW as [Hpw HW]. split; [|split].
    + constructor.
      * by rewrite <- app_assoc.
      * rewrite last_app_cons. by destruct (last W) eqn:E; rewrite last_cons, E.
      * intros x. rewrite last_app_cons, last_cons. rewrite Forall_forall in HW.
        destruct (last W) eqn:E; intros [= <-]; [|done].
        apply HW. by apply last_Some_elem_of.
      * done.
    + rewrite <- (app_nil_r (p :: W)). rewrite app_nil_r.
      apply (sublist_insert p A0 [] X W); [done|apply sublist_nil_l].
    + by eapply (sublist_drop_prefix ts_le _ W).
  - apply last_None in EA. subst A. cbn in Hsub.
    destruct (skip_walk_ok (S (S (size (fqueues fm)))) l INVAL (head_idx fm !!! l) (L l))
      as (W & B' & EY & Hw & HW & HB'); [done|done|lia|].
    exists (default INVAL (last W)), W, B'. split; [done|]. split; [|split].
    + constructor; try done. intros x Hx. rewrite Forall_forall in HW.
      apply HW. by apply last_Some_elem_of.
    + apply sublist_nil_l.
    + rewrite EY in Hsub. by eapply (sublist_drop_prefix ts_le _ W).
Qed.

Lemma skip_preds_ok n pred U A B :
  (forall l, (l < n)%nat -> path (fnext fm l) (head_idx fm !!! l) (L l) INVAL
     /\ INVAL ∉ L l /\ NoDup (L l) /\ (length (L l) <= S (size (fqueues fm)))%nat) ->
  (forall l, (S l < n)%nat -> L (S l) `sublist_of` L l) ->
  (forall l, n = S l -> U `sublist_of` L l) -> cut U pred A B ->
  exists preds AA BB, skip_preds n fm tsv ts pred = Some preds
  /\ (forall l, (l < n)%nat -> cut (L l) (preds !!! l) (AA l) (BB l))
  /\ (forall l, (S l < n)%nat ->
        AA (S l) `sublist_of` AA l /\ BB (S l) `sublist_of` BB l)
  /\ (forall l, n = S l -> A `sublist_of` AA l /\ B `sublist_of` BB l).
Proof.
  revert pred U A B. induction n as [|n IH]; intros pred U A B HL Hnest HU Hcut.
  - exists ∅, (fun _ => []), (fun _ => []). split; [done|]. split; [|split]; intros; lia.
  - cbn [skip_preds]. destruct (HL n ltac:(lia)) as (P1 & P2 & P3 & P4).
    destruct (skip_level_ok n pred U A B P1 P2 P3 P4 (HU n eq_refl) Hcut)
      as (pred' & A' & B' & Hw & Hcut' & HA' & HB').
    rewrite Hw. cbn [mbind option_bind].
    destruct (IH pred' (L n) A' B') as (preds & AA & BB & Hps & Hcuts & Hn & Htop);
      try done.
    { intros l Hl. apply HL. lia. }
    { intros l Hl. apply Hnest. lia. }
    { intros l ->. apply Hnest. lia. }
    rewrite Hps. cbn [mbind option_bind].
    exists (<[n := pred']> preds), (fun l => if decide (l = n) then A' else AA l),
      (fun l => if decide (l = n) then B' else BB l).
    split; [done|]. split; [|split].
    + intros l Hl. destruct (decide (l = n)) as [->|].
      * by rewrite lookup_total_insert_eq.
      * rewrite lookup_total_insert_ne by congruence. apply Hcuts. lia.
    + intros l Hl. rewrite !(decide_False (P := l = n)) by lia.
      destruct (decide (S l = n)) as [<-|]; [by apply Htop|apply Hn; lia].
    + intros l [= <-]. by rewrite !(decide_True (P := n = n)).
Qed.

End Search.

(** ** Linking a cell into the skip list *)

(** Operations that only redirect skip list links. *)
Record link_frame (fm fm' : flow_qman) : Prop := mk_link_frame {
  lf_data : same_data fm fm';
  lf_flags : forall i, fq_flags (fqueues fm' !!! i) = fq_flags (fqueues fm !!! i);
  lf_head : nolimit_head_idx fm' = nolimit_head_idx fm;
  lf_tail : nolimit_tail_idx fm' = nolimit_tail_idx fm;
  lf_dom : forall i, is_Some (fqueues fm !! i) -> is_Some (fqueues fm' !! i) }.

#[export] Instance link_frame_preorder : PreOrder link_frame.
Proof.
  split; [by intros fm; constructor|].
  intros f1 f2 f3 [D1 F1 H1 T1 I1] [D2 F2 H2 T2 I2]. constructor.
  - by transitivity f2.
  - intros i. by rewrite F2.
  - by rewrite H2.
  - by rewrite T2.
  - auto.
Qed.

Lemma link_frame_upd i l y fm :
  link_frame fm (upd_fq i (fun q => q <| next_idxs ::= <[l := y]> |>) fm).
Proof.
  constructor; try done.
  - by apply same_data_upd.
  - intros j. destruct (decide (i = j)) as [->|]; [by rewrite upd_fq_eq|by rewrite upd_fq_ne].
  - intros j Hj. apply upd_fq_dom. by right.
Qed.

Lemma skip_link_level_frame l level preds q fm :
  link_frame fm (skip_link_level l level preds q fm).
Proof.
  unfold skip_link_level. destruct (_ <? _)%nat; [apply link_frame_upd|].
  cbv zeta. destruct (negb _).
  - etransitivity; apply link_frame_upd.
  - etransitivity; [apply (link_frame_upd q l (head_idx fm !!! l))|]. by constructor.
Qed.

Lemma skip_link_level_other l level preds q fm l' :
  l' <> l ->
  (forall j, fnext (skip_link_level l level preds q fm) l' j = fnext fm l' j)
  /\ head_idx (skip_link_level l level preds q fm) !!! l' = head_idx fm !!! l'.
Proof.
  intros Hl. unfold skip_link_level. destruct (_ <? _)%nat; cbv zeta.
  { split; [intros j; by rewrite fnext_upd_other by congruence|done]. }
  destruct (negb _).
  { split; [intros j; by rewrite !fnext_upd_other by congruence|done]. }
  split.
  - intros j. apply (fnext_upd_other fm q l l' (head_idx fm !!! l) j). congruence.
  - cbn [head_idx setf]. by rewrite lookup_total_insert_ne by congruence.
Qed.

(** The list of level [l] with [q] inserted at the cut. *)
Lemma skip_link_level_path tsv ts l level preds q fm Ll A B :
  path (fnext fm l) (head_idx fm !!! l) Ll INVAL -> NoDup Ll -> q ∉ Ll ->
  INVAL ∉ Ll -> cut fm tsv ts Ll (preds !!! l) A B ->
  let fm' := skip_link_level l level preds q fm in
  path (fnext fm' l) (head_idx fm' !!! l)
    (if (level <? l)%nat then Ll else A ++ q :: B) INVAL.
Proof.
  intros Hp Hnd Hq Hin [-> Ep _ _]. cbv zeta. unfold skip_link_level.
  destruct (Nat.ltb_spec level l).
  { eapply path_ext; [|exact Hp]. intros x Hx. rewrite fnext_upd_same.
    apply fupd_ne. by intros ->. }
  cbv zeta. rewrite elem_of_app in Hq, Hin.
  destruct (last A) as [p|] eqn:EA; cbn in Ep; rewrite Ep.
  - apply last_Some in EA as [A0 ->].
    rewrite <- app_assoc in Hp, Hnd |- *. cbn [app] in Hp, Hnd |- *.
    rewrite elem_of_app, list_elem_of_singleton in Hq, Hin.
    assert (Hpi : p <> INVAL) by (intros ->; tauto).
    assert (Hpq : p <> q) by (intros ->; tauto).
    rewrite (proj2 (Z.eqb_neq p INVAL)) by done. cbn [negb].
    apply NoDup_app in Hnd as (HndA & Hd & HndB). apply NoDup_cons in HndB as [HpB _].
    eapply path_ext; [|apply (path_insert_after (fnext fm l) _ A0 p B INVAL q)].
    + intros x _. rewrite fnext_upd_same. unfold fupd at 1 2.
      by rewrite fnext_upd_same.
    + intros HpA. apply (Hd p HpA), list_elem_of_here.
    + done.
    + rewrite elem_of_app, elem_of_cons. intros [?|[?|?]]; [tauto|congruence|tauto].
    + done.
    + exact Hp.
  - apply last_None in EA. subst A. cbn [app] in *.
    rewrite Z.eqb_refl. cbn [negb head_idx setf]. rewrite lookup_total_insert_eq.
    eapply path_ext; [|apply (path_insert_front (fnext fm l)); [tauto|exact Hp]].
    intros x _. apply (fnext_upd_same fm q l (head_idx fm !!! l) x).
Qed.

Lemma skip_link_frame n level preds q fm : link_frame fm (skip_link n level preds q fm).
Proof.
  revert fm. induction n as [|n IH]; intros fm; [done|]. cbn [skip_link].
  etransitivity; [apply skip_link_level_frame|apply IH].
Qed.

Lemma skip_link_other n level preds q fm l' :
  (n <= l')%nat ->
  (forall j, fnext (skip_link n level preds q fm) l' j = fnext fm l' j)
  /\ head_idx (skip_link n level preds q fm) !!! l' = head_idx fm !!! l'.
Proof.
  revert fm. induction n as [|n IH]; intros fm Hn; [done|]. cbn [skip_link].
  destruct (IH (skip_link_level n level preds q fm) ltac:(lia)) as [H0 H1].
  destruct (skip_link_level_other n level preds q fm l' ltac:(lia)) as [H2 H3].
  split; [intros j; by rewrite H0, H2|by rewrite H1, H3].
Qed.

Lemma cut_data tsv ts fm fm' l p A B :
  same_data fm fm' -> cut fm tsv ts l p A B -> cut fm' tsv ts l p A B.
Proof.
  intros Hd [? ? Hle Hgt].
  assert (E : forall x, ts_le fm' tsv ts x <-> ts_le fm tsv ts x).
  { intros x. unfold ts_le. specialize (Hd x). injection Hd as -> _ _ _. done. }
  constructor; [done|done|..].
  - intros x Hx. apply E, Hle, Hx.
  - intros x B' Hx. rewrite E. by eapply Hgt.
Qed.

Lemma skip_link_path tsv ts n level preds q fm (L : nat -> list Z) AA BB :
  (forall l, (l < n)%nat -> path (fnext fm l) (head_idx fm !!! l) (L l) INVAL
     /\ NoDup (L l) /\ q ∉ L l /\ INVAL ∉ L l
     /\ cut fm tsv ts (L l) (preds !!! l) (AA l) (BB l)) ->
  let fm' := skip_link n level preds q fm in
  forall l, (l < n)%nat -> path (fnext fm' l) (head_idx fm' !!! l)
    (if (level <? l)%nat then L l else AA l ++ q :: BB l) INVAL.
Proof.
  cbv zeta. revert fm. induction n as [|n IH]; intros fm HL l Hl; [lia|].
  cbn [skip_link]. set (fm1 := skip_link_level n level preds q fm).
  destruct (decide (l = n)) as [->|].
  - destruct (skip_link_other n level preds q fm1 n ltac:(lia)) as [E1 E2].
    destruct (HL n Hl) as (H1 & H2 & H3 & H4 & H5). rewrite E2.
    eapply path_ext; [intros x _; apply E1|].
    by apply (skip_link_level_path tsv ts).
  - apply IH; [|lia]. intros l' Hl'. destruct (HL l' ltac:(lia)) as (H1 & H2 & H3 & H4 & H5).
    destruct (skip_link_level_other n level preds q fm l' ltac:(lia)) as [E1 E2].
    split; [|split; [done|split; [done|split; [done|]]]].
    + unfold fm1. rewrite E2. eapply path_ext; [intros x _; apply E1|done].
    + eapply cut_data; [|exact H5]. apply skip_link_level_frame.
Qed.

Lemma skip_link_level_keep l level preds q fm l' j :
  j <> q -> preds !!! l = INVAL \/ j <> preds !!! l ->
  fnext (skip_link_level l level preds q fm) l' j = fnext fm l' j
  /\ (is_Some (fqueues (skip_link_level l level preds q fm) !! j)
      -> is_Some (fqueues fm !! j)).
Proof.
  intros Hq Hp. unfold skip_link_level, fnext.
  assert (Hu : forall i g f, j <> i -> fqueues (upd_fq i g f) !!! j = fqueues f !!! j
    /\ (is_Some (fqueues (upd_fq i g f) !! j) -> is_Some (fqueues f !! j))).
  { intros i g f Hji. rewrite upd_fq_ne by congruence. split; [done|].
    intros Hs. apply upd_fq_dom in Hs as [->|]; done. }
  destruct (_ <? _)%nat; cbv zeta.
  { destruct (Hu q (fun c => c <| next_idxs ::= <[l := INVAL]> |>) fm Hq) as [-> ?].
    done. }
  destruct (Z.eqb_spec (preds !!! l) INVAL) as [|Hpi]; cbn [negb].
  2: { destruct Hp as [|Hp]; [done|].
    match goal with |- context [upd_fq (preds !!! l) ?g ?f] =>
      destruct (Hu (preds !!! l) g f Hp) as [-> H1] end.
    match goal with |- context [upd_fq q ?g ?f] =>
      destruct (Hu q g f Hq) as [-> H2] end. auto. }
  exact (let '(conj a b) := Hu q (fun c => c <| next_idxs ::=
             <[l := head_idx fm !!! l]> |>) fm Hq in
           conj (f_equal (fun c => next_idxs c !!! l') a) b).
Qed.

Lemma skip_link_keep n level preds q fm l' j :
  j <> q -> (forall l, (l < n)%nat -> preds !!! l = INVAL \/ j <> preds !!! l) ->
  fnext (skip_link n level preds q fm) l' j = fnext fm l' j
  /\ (is_Some (fqueues (skip_link n level preds q fm) !! j)
      -> is_Some (fqueues fm !! j)).
Proof.
  intros Hq. revert fm. induction n as [|n IH]; intros fm Hp; [done|].
  cbn [skip_link].
  destruct (IH (skip_link_level n level preds q fm)) as [-> H1].
  { intros l Hl. apply Hp. lia. }
  destruct (skip_link_level_keep n level preds q fm l' j Hq (Hp n ltac:(lia)))
    as [-> H2]. auto.
Qed.

(** ** Activating a queue *)

Lemma fr_level_facts fm N L l :
  flow_rep fm N L -> (l < 4)%nat ->
  NoDup (L l) /\ INVAL ∉ L l /\ (length (L l) <= S (size (fqueues fm)))%nat.
Proof.
  intros Hr Hl. pose proof (fr_nest0 _ _ _ _ Hr Hl) as Hs.
  pose proof (fr_nodup _ _ _ Hr) as Hnd.
  assert (Hnd' : NoDup (L l)) by by eapply sublist_NoDup.
  split; [done|]. split.
  { intros Hin. apply (fr_inval _ _ _ Hr). by eapply elem_of_sublist. }
  rewrite <- (size_dom (D := gset Z)).
  rewrite <- (size_list_to_set (C := gset Z) (L l)) by done.
  apply le_S, subseteq_size. intros x Hx. apply elem_of_list_to_set in Hx.
  apply elem_of_dom, (fr_dom _ _ _ Hr). right. by eapply elem_of_sublist.
Qed.

(** Lists of the levels with [q] inserted up to [level]. *)
Definition ins_levels (level : nat) (q : Z) (L AA BB : nat -> list Z) (l : nat)
    : list Z :=
  if (level <? l)%nat then L l else AA l ++ q :: BB l.

Lemma ins_levels_nest level q L AA BB l :
  L (S l) `sublist_of` L l -> L l = AA l ++ BB l ->
  AA (S l) `sublist_of` AA l -> BB (S l) `sublist_of` BB l ->
  ins_levels level q L AA BB (S l) `sublist_of` ins_levels level q L AA BB l.
Proof.
  intros HL E HA HB. unfold ins_levels.
  destruct (Nat.ltb_spec level (S l)), (Nat.ltb_spec level l); try lia; try done.
  - etransitivity; [exact HL|]. rewrite E. apply sublist_app; [done|].
    by apply sublist_cons.
  - by apply sublist_insert.
Qed.

Lemma flow_rep_insert fm fm' N L AA BB level q :
  flow_rep fm N L -> q ∉ N -> q ∉ L 0%nat -> q <> INVAL ->
  (forall l, (l < 4)%nat -> L l = AA l ++ BB l) ->
  (forall l, (l < 3)%nat -> AA (S l) `sublist_of` AA l /\ BB (S l) `sublist_of` BB l) ->
  (forall j, j ∈ N -> fnext fm' 0 j = fnext fm 0 j) ->
  nolimit_head_idx fm' = nolimit_head_idx fm ->
  nolimit_tail_idx fm' = nolimit_tail_idx fm ->
  (forall l, (l < 4)%nat ->
     path (fnext fm' l) (head_idx fm' !!! l) (ins_levels level q L AA BB l) INVAL) ->
  (forall j, fq_flags (fqueues fm' !!! j)
     = if decide (j = q) then FLAG_INSKIPLIST else fq_flags (fqueues fm !!! j)) ->
  (forall j, j = q \/ is_Some (fqueues fm !! j) -> is_Some (fqueues fm' !! j)) ->
  flow_rep fm' N (ins_levels level q L AA BB)
  /\ (forall j, j ∈ ins_levels level q L AA BB 0 <-> j = q \/ j ∈ L 0%nat).
Proof.
  intros Hr HN HL Hi Hcut Hnest Hn Hh Ht Hp Hf Hd.
  pose proof Hr as [R1 R2 R3 R4 R5 R6 R7 R8].
  assert (Hperm : ins_levels level q L AA BB 0 ≡ₚ q :: L 0%nat).
  { unfold ins_levels. cbn. rewrite (Hcut 0%nat) by lia. by rewrite Permutation_middle. }
  assert (Hin : forall j, j ∈ ins_levels level q L AA BB 0 <-> j = q \/ j ∈ L 0%nat).
  { intros j. by rewrite Hperm, elem_of_cons. }
  split; [|done]. constructor; rewrite ?Hh, ?Ht; try done.
  - by eapply queue_rep_ext; [|exact R1].
  - rewrite Hperm. by constructor.
  - rewrite Hin. by intros [|].
  - intros l Hl. destruct (Hnest l Hl). apply ins_levels_nest; try done.
    + by apply R5.
    + apply Hcut. lia.
  - intros i. rewrite Hf, R6. destruct (decide (i = q)) as [->|].
    + rewrite decide_False, decide_True by (rewrite ?Hin; auto). done.
    + destruct (decide (i ∈ N)); [done|].
      destruct (decide (i ∈ L 0%nat)), (decide (i ∈ ins_levels level q L AA BB 0))
        as [Hx|Hx]; try done; rewrite Hin in Hx; tauto.
  - intros i HiN. rewrite Hin. intros [->|]; [done|]. by apply (R7 i).
  - intros i. rewrite Hin. intros [?|[?|?]]; apply Hd; auto.
Qed.

(** Same values, except the time stamp of [q]. *)
Definition same_data_but (q : Z) (fm fm' : flow_qman) : Prop :=
  forall i, exists t, is_u32 t /\
    cell_data (fqueues fm' !!! i)
    = (if decide (i = q) then t else next_ts (fqueues fm !!! i),
       rate (fqueues fm !!! i), fq_avail (fqueues fm !!! i),
       max_chunk (fqueues fm !!! i)).

Lemma clamp_ts_range tsv q : is_u32 tsv -> is_u32 (next_ts q) -> is_u32 (clamp_ts tsv q).
Proof.
  intros Ht Hn. unfold clamp_ts.
  destruct (timestamp_lessthaneq _ _ _); [done|].
  destruct (negb _); [|done]. apply u32_range.
Qed.

(** The list at level 0 after an insertion: [q] is put behind a prefix whose
    last queue is due by [ts] and before a queue that is not. *)
Definition inserted (tsv ts : Z) (fm : flow_qman) (l l' : list Z) (q : Z) : Prop :=
  exists A B, l = A ++ B /\ l' = A ++ q :: B
  /\ (forall x, last A = Some x -> ts_le fm tsv ts x)
  /\ (forall x B', B = x :: B' -> ~ ts_le fm tsv ts x).

Lemma inserted_ext tsv ts fm fm' l l' q :
  inserted tsv ts fm l l' q ->
  (forall i, i ∈ l -> next_ts (fqueues fm' !!! i) = next_ts (fqueues fm !!! i)) ->
  inserted tsv ts fm' l l' q.
Proof.
  intros (A & B & -> & -> & HA & HB) He. exists A, B. split; [done|]. split; [done|].
  unfold ts_le in *. split.
  - intros x Hx. rewrite He; [by apply HA|].
    apply elem_of_app. left. by apply last_Some_elem_of.
  - intros x B' ->. rewrite He; [by eapply HB|].
    apply elem_of_app. right. apply list_elem_of_here.
Qed.

Lemma inserted_elem tsv ts fm l l' q i :
  inserted tsv ts fm l l' q -> i ∈ l' <-> i = q \/ i ∈ l.
Proof.
  intros (A & B & -> & -> & _). rewrite !elem_of_app, elem_of_cons. tauto.
Qed.

Lemma activate_skiplist_ok r tsv fm N L idx :
  flow_rep fm N L -> idx ∉ N -> idx ∉ L 0%nat -> idx <> INVAL ->
  is_u32 tsv -> is_u32 (next_ts (fqueues fm !!! idx)) ->
  exists r' fm' L', flow_queue_activate_skiplist r tsv fm idx = Some (r', fm')
  /\ flow_rep fm' N L'
  /\ inserted tsv (clamp_ts tsv (fqueues fm !!! idx)) fm (L 0%nat) (L' 0%nat) idx
  /\ same_data_but idx fm fm'
  /\ next_ts (fqueues fm' !!! idx) = clamp_ts tsv (fqueues fm !!! idx)
  /\ (forall i, is_Some (fqueues fm' !! i) -> i = idx \/ is_Some (fqueues fm !! i)).
Proof.
  intros Hr HN HL Hi Htsv Hnts. unfold flow_queue_activate_skiplist.
  rewrite (proj2 (fq_in_list_iff fm N L idx Hr)) by done.
  cbn [negb cassert mbind option_bind].
  set (ts := clamp_ts tsv (fqueues fm !!! idx)).
  set (fm1 := upd_fq idx (fun q => q <| next_ts := ts |>) fm).
  assert (Hr1 : flow_rep fm1 N L).
  { apply (flow_rep_ext fm); try done.
    - intros l i. by apply fnext_upd_keep.
    - intros i. subst fm1. destruct (decide (idx = i)) as [->|];
        [by rewrite upd_fq_eq|by rewrite upd_fq_ne].
    - intros i Hd. apply upd_fq_dom. by right. }
  destruct (skip_preds_ok fm1 tsv ts L QMAN_SKIPLIST_LEVELS INVAL [] [] [])
    as (preds & AA & BB & -> & Hcut & Hnest & _).
  { intros l Hl. destruct (fr_level_facts _ _ _ l Hr1 Hl) as (? & ? & ?).
    split; [by apply (fr_level _ _ _ Hr1)|done]. }
  { intros l Hl. apply (fr_nest _ _ _ Hr1). unfold QMAN_SKIPLIST_LEVELS in Hl. lia. }
  { intros l _. apply sublist_nil_l. }
  { by constructor. }
  cbn [mbind option_bind].
  destruct (flow_queue_level r) as [r' level].
  set (fm2 := skip_link _ _ _ _ fm1).
  pose proof (skip_link_frame QMAN_SKIPLIST_LEVELS level preds idx fm1) as [F1 F2 F3 F4 F5].
  fold fm2 in F1, F2, F3, F4, F5.
  set (fm3 := upd_fq idx _ fm2).
  assert (Hpred : forall l, (l < 4)%nat -> preds !!! l = INVAL \/ preds !!! l ∈ L 0%nat).
  { intros l Hl. destruct (Hcut l Hl) as [E -> _ _].
    destruct (last (AA l)) as [p|] eqn:EA; [right|by left].
    eapply elem_of_sublist; [|by apply (fr_nest0 _ _ _ _ Hr Hl)].
    rewrite E, elem_of_app. left. by apply last_Some_elem_of. }
  assert (Hkeep : forall l' j, j <> idx -> j ∉ L 0%nat ->
    fnext fm2 l' j = fnext fm1 l' j
    /\ (is_Some (fqueues fm2 !! j) -> is_Some (fqueues fm1 !! j))).
  { intros l' j H1 H2. apply skip_link_keep; [done|]. intros l Hl.
    destruct (Hpred l Hl); [by left|right]. by intros ->. }
  assert (Hn3 : forall l j, fnext fm3 l j = fnext fm2 l j)
    by (intros; by apply fnext_upd_keep).
  assert (Hidx : is_Some (fqueues fm1 !! idx)) by (apply upd_fq_dom; by left).
  destruct (flow_rep_insert fm1 fm3 N L AA BB level idx Hr1 HN HL Hi)
    as [Hr3 Hin3].
  { intros l Hl. by destruct (Hcut l Hl). }
  { intros l Hl. apply Hnest. unfold QMAN_SKIPLIST_LEVELS. lia. }
  { intros j Hj. rewrite Hn3. apply Hkeep.
    - by intros ->.
    - by apply (fr_disj _ _ _ Hr). }
  { exact F3. }
  { exact F4. }
  { intros l Hl. eapply path_ext; [intros x _; apply Hn3|].
    apply (skip_link_path tsv ts QMAN_SKIPLIST_LEVELS level preds idx fm1); [|done].
    intros l' Hl'. destruct (fr_level_facts _ _ _ l' Hr1 Hl') as (H1 & H2 & H3).
    split; [by apply (fr_level _ _ _ Hr1)|]. split; [done|].
    split; [|split; [done|by apply Hcut]].
    intros Hin. apply HL. eapply elem_of_sublist; [exact Hin|by eapply fr_nest0]. }
  { intros j. subst fm3. destruct (decide (j = idx)) as [->|].
    - rewrite upd_fq_eq. cbn. rewrite F2. rewrite (fr_flags _ _ _ Hr1).
      by rewrite !decide_False.
    - rewrite upd_fq_ne by congruence. apply F2. }
  { intros j Hj. apply upd_fq_dom. destruct Hj as [->|]; [by left|right]. by apply F5. }
  exists r', fm3, (ins_levels level idx L AA BB). split; [done|]. split; [done|].
  assert (Hts : forall i, next_ts (fqueues fm1 !!! i)
                = if decide (i = idx) then ts else next_ts (fqueues fm !!! i)).
  { intros i. subst fm1. destruct (decide (i = idx)) as [->|];
      [by rewrite upd_fq_eq|by rewrite upd_fq_ne by congruence]. }
  assert (E : forall i, cell_data (fqueues fm3 !!! i) = cell_data (fqueues fm1 !!! i)).
  { intros i. rewrite <- F1. subst fm3. destruct (decide (idx = i)) as [->|];
      [by rewrite upd_fq_eq|by rewrite upd_fq_ne]. }
  split; [|split; [|split]].
  - apply (inserted_ext _ _ fm1).
    + destruct (Hcut 0%nat ltac:(unfold QMAN_SKIPLIST_LEVELS; lia)) as [E0 _ H1 H2].
      by exists (AA 0%nat), (BB 0%nat).
    + intros i Hi0. rewrite Hts, decide_False; [done|]. by intros ->.
  - intros i. exists ts. split; [by apply clamp_ts_range|].
    rewrite E. subst fm1. destruct (decide (i = idx)) as [->|];
      [by rewrite upd_fq_eq|by rewrite upd_fq_ne by congruence].
  - transitivity (next_ts (fqueues fm1 !!! idx));
      [exact (f_equal (fun d => d.1.1.1) (E idx))|]. by rewrite Hts, decide_True.
  - intros i Hs. destruct (decide (i = idx)) as [|Hne]; [by left|right].
    apply upd_fq_dom in Hs as [|Hs]; [done|].
    destruct (decide (i ∈ L 0%nat)) as [HiL|HiL].
    { apply (fr_dom _ _ _ Hr). by right. }
    apply (Hkeep 0%nat) in Hs; try done. by apply upd_fq_dom in Hs as [|].
Qed.

(** ** Setting a flow queue *)

Definition listed (N : list Z) (L : nat -> list Z) (i : Z) : Prop :=
  i ∈ N \/ i ∈ L 0%nat.

Lemma same_data_but_of_same q fm fm' :
  same_data fm fm' -> is_u32 (next_ts (fqueues fm !!! q)) -> same_data_but q fm fm'.
Proof.
  intros Hd Ht i. exists (next_ts (fqueues fm !!! q)). split; [done|].
  rewrite Hd. unfold cell_data. by destruct (decide (i = q)) as [->|].
Qed.

(** Activating: whatever list the queue goes to, it is listed afterwards. *)
Lemma flow_queue_activate_ok r tsv fm N L idx :
  flow_rep fm N L -> ~ listed N L idx -> idx <> INVAL ->
  is_u32 tsv -> is_u32 (next_ts (fqueues fm !!! idx)) ->
  exists r' fm' N' L', flow_queue_activate r tsv fm idx = Some (r', fm')
  /\ flow_rep fm' N' L' /\ (forall i, listed N' L' i <-> i = idx \/ listed N L i)
  /\ (if rate (fqueues fm !!! idx) =? 0 then N' = N ++ [idx] /\ L' = L
      else N' = N /\ L' 0%nat ≡ₚ idx :: L 0%nat)
  /\ same_data_but idx fm fm'
  /\ (forall i, is_Some (fqueues fm' !! i) -> i = idx \/ is_Some (fqueues fm !! i)).
Proof.
  unfold listed. intros Hr HNL Hi Htsv Hts. unfold flow_queue_activate.
  destruct (rate _ =? 0).
  - destruct (activate_nolimit_ok fm N L idx) as (fm' & -> & Hr' & Hd & Hdom); [tauto..|].
    exists r, fm', (N ++ [idx]), L. split; [done|]. split; [done|]. split.
    + intros i. rewrite elem_of_app, list_elem_of_singleton. tauto.
    + split; [done|]. split; [by apply same_data_but_of_same|done].
  - destruct (activate_skiplist_ok r tsv fm N L idx)
      as (r' & fm' & L' & -> & Hr' & Hins & Hd & _ & Hdom); [tauto..|].
    assert (Hin : forall i, i ∈ L' 0%nat <-> i = idx \/ i ∈ L 0%nat)
      by (intros i; by eapply inserted_elem).
    exists r', fm', N, L'. split; [done|]. split; [done|].
    split; [intros i; rewrite Hin; tauto|]. split; [split; [done|]|done].
    apply NoDup_Permutation; [apply Hr'|constructor; [tauto|apply Hr]|].
    intros i. by rewrite Hin, elem_of_cons.
Qed.

(** Total of the available bytes of the cells. *)
Definition flow_sum (fm : flow_qman) : Z :=
  map_fold (fun _ q s => fq_avail q + s) 0 (fqueues fm).

Lemma map_sum_insert (m : gmap Z flow_queue) i q :
  map_fold (fun _ q s => fq_avail q + s) 0 (<[i := q]> m)
  = map_fold (fun _ q s => fq_avail q + s) 0 m - fq_avail (m !!! i) + fq_avail q.
Proof.
  assert (Hc : forall (m : gmap Z flow_queue) j x, m !! j = None ->
    map_fold (fun _ q s => fq_avail q + s) 0 (<[j := x]> m)
    = fq_avail x + map_fold (fun _ q s => fq_avail q + s) 0 m).
  { intros m' j x Hj. rewrite map_fold_insert_L; [done| |done].
    intros; lia. }
  destruct (m !! i) as [q0|] eqn:E.
  - rewrite <- (insert_delete_id m i q0) at 2 by done.
    rewrite <- insert_delete_eq. rewrite !Hc by apply lookup_delete_eq.
    rewrite (lookup_total_correct _ _ _ E). lia.
  - rewrite Hc by done. rewrite lookup_total_alt, E. cbn. lia.
Qed.

Lemma flow_sum_upd i g fm :
  flow_sum (upd_fq i g fm)
  = flow_sum fm - fq_avail (fqueues fm !!! i) + fq_avail (g (fqueues fm !!! i)).
Proof. unfold flow_sum, upd_fq. cbn. apply map_sum_insert. Qed.

(** The sum depends on the values only. *)
Lemma flow_sum_data fm fm' :
  (forall i, fq_avail (fqueues fm' !!! i) = fq_avail (fqueues fm !!! i)) ->
  flow_sum fm' = flow_sum fm.
Proof.
  intros Hd. unfold flow_sum. revert Hd.
  generalize (fqueues fm) (fqueues fm'). clear fm fm'.
  intros m. induction m as [|i q m Hi IH] using map_ind; intros m' Hd.
  - assert (Hz : forall (k : gmap Z flow_queue), (forall i, fq_avail (k !!! i) = 0) ->
      map_fold (fun _ q s => fq_avail q + s) 0 k = 0).
    { intros k. induction k as [|j q k Hj IHk] using map_ind; intros Hk; [done|].
      rewrite map_sum_insert. rewrite lookup_total_alt, Hj. cbn.
      specialize (Hk j) as Hkj. rewrite lookup_total_insert_eq in Hkj.
      rewrite IHk; [lia|]. intros i. destruct (decide (j = i)) as [->|].
      - by rewrite lookup_total_alt, Hj.
      - specialize (Hk i). by rewrite lookup_total_insert_ne in Hk. }
    rewrite map_fold_empty. apply Hz. intros i. rewrite Hd. done.
  - rewrite map_sum_insert. rewrite lookup_total_alt, Hi. cbn.
    rewrite <- (IH (<[i := inhabitant]> m')).
    + rewrite map_sum_insert. cbn. specialize (Hd i).
      rewrite lookup_total_insert_eq in Hd. rewrite Hd. lia.
    + intros j. destruct (decide (i = j)) as [->|].
      * rewrite lookup_total_insert_eq. by rewrite lookup_total_alt, Hi.
      * specialize (Hd j). by rewrite !lookup_total_insert_ne in Hd |- *.
Qed.

Lemma cell_data_eq q a b c d :
  cell_data q = (a, b, c, d) ->
  next_ts q = a /\ rate q = b /\ fq_avail q = c /\ max_chunk q = d.
Proof. by intros [= <- <- <- <-]. Qed.

(** Activation keeps the container consistent. *)
Lemma flow_queue_activate_qman_ok r tsv fm N L idx :
  flow_rep fm N L -> (forall i, fq_ok (fqueues fm !!! i)) ->
  (forall i, i <> idx -> 0 < fq_avail (fqueues fm !!! i) -> listed N L i) ->
  (forall i, is_Some (fqueues fm !! i) -> 0 <= i < FLEXNIC_NUM_QMFLOWQUEUES) ->
  ~ listed N L idx -> 0 <= idx < FLEXNIC_NUM_QMFLOWQUEUES -> is_u32 tsv ->
  exists r' fm' N' L', flow_queue_activate r tsv fm idx = Some (r', fm')
  /\ flow_qman_ok fm' N' L' /\ flow_sum fm' = flow_sum fm
  /\ (forall i, listed N' L' i <-> i = idx \/ listed N L i)
  /\ (if rate (fqueues fm !!! idx) =? 0 then N' = N ++ [idx] /\ L' = L
      else N' = N /\ L' 0%nat ≡ₚ idx :: L 0%nat)
  /\ same_data_but idx fm fm'.
Proof.
  intros Hr Hok Hact Hrng Hnl Hidx Htsv.
  destruct (flow_queue_activate_ok r tsv fm N L idx)
    as (r' & fm' & N' & L' & E & Hr' & Hl & Hsh & Hd & Hdom); try done.
  { unfold IDXLIST_INVAL, FLEXNIC_NUM_QMFLOWQUEUES in *. lia. }
  { apply Hok. }
  assert (Hav : forall i, fq_avail (fqueues fm' !!! i) = fq_avail (fqueues fm !!! i)).
  { intros i. destruct (Hd i) as (t & _ & Hc). by apply cell_data_eq in Hc as (_ & _ & ? & _). }
  exists r', fm', N', L'. split; [done|]. split; [|split; [by apply flow_sum_data|done]].
  constructor; try done.
  - intros i. destruct (Hd i) as (t & Ht & Hc).
    apply cell_data_eq in Hc as (E1 & E2 & E3 & E4). destruct (Hok i).
    constructor; rewrite ?E1, ?E2, ?E3, ?E4; try done. by destruct (decide (i = idx)).
  - intros i Hi. rewrite Hav in Hi. apply Hl.
    destruct (decide (i = idx)); [by left|right; auto].
  - intros i Hi. destruct (Hdom i Hi) as [->|]; auto.
Qed.

(** The cell after the assignments of [flow_set_impl]. *)
Definition set_cell (rt avail chunk flags : Z) (q : flow_queue) : flow_queue :=
  let q := if flag_set flags QMAN_SET_RATE then q <| rate := rt |> else q in
  let q := if flag_set flags QMAN_SET_MAXCHUNK
           then q <| max_chunk := chunk |> else q in
  if flag_set flags QMAN_SET_AVAIL then q <| fq_avail := avail |>
  else if flag_set flags QMAN_ADD_AVAIL
  then q <| fq_avail := u32 (fq_avail q + avail) |> else q.

Definition set_avail (avail flags old : Z) : Z :=
  if flag_set flags QMAN_SET_AVAIL then avail
  else if flag_set flags QMAN_ADD_AVAIL then u32 (old + avail) else old.

Lemma set_cell_spec rt avail chunk flags q :
  fq_ok q -> is_u32 rt -> is_u32 avail -> is_u16 chunk ->
  fq_ok (set_cell rt avail chunk flags q)
  /\ fq_avail (set_cell rt avail chunk flags q) = set_avail avail flags (fq_avail q)
  /\ next_idxs (set_cell rt avail chunk flags q) = next_idxs q
  /\ fq_flags (set_cell rt avail chunk flags q) = fq_flags q.
Proof.
  intros [H1 H2 H3 H4] Hr Ha Hc. unfold set_cell, set_avail.
  destruct (flag_set flags QMAN_SET_RATE), (flag_set flags QMAN_SET_MAXCHUNK),
    (flag_set flags QMAN_SET_AVAIL), (flag_set flags QMAN_ADD_AVAIL); cbn;
    (split; [constructor; cbn; auto using u32_range|done]).
Qed.

Lemma flow_set_impl_ok r tsv fm N L idx rt avail chunk flags :
  flow_qman_ok fm N L -> 0 <= idx < FLEXNIC_NUM_QMFLOWQUEUES -> is_u32 tsv ->
  is_u32 rt -> is_u32 avail -> is_u16 chunk ->
  exists r' fm' N' L', flow_set_impl r tsv fm idx rt avail chunk flags = Some (r', fm')
  /\ flow_qman_ok fm' N' L'
  /\ flow_sum fm' = flow_sum fm - fq_avail (fqueues fm !!! idx)
                    + set_avail avail flags (fq_avail (fqueues fm !!! idx))
  /\ (forall i, listed N L i -> listed N' L' i)
  /\ (forall i, fq_avail (fqueues fm' !!! i)
        = if decide (i = idx) then set_avail avail flags (fq_avail (fqueues fm !!! idx))
          else fq_avail (fqueues fm !!! i)).
Proof.
  intros [Hr Hok Hact Hrng] Hidx Htsv Hrt Hav Hch. unfold flow_set_impl.
  fold (set_cell rt avail chunk flags).
  set (fm1 := upd_fq idx (set_cell rt avail chunk flags) fm). cbv zeta.
  destruct (set_cell_spec rt avail chunk flags (fqueues fm !!! idx))
    as (C1 & C2 & C3 & C4); try done.
  assert (Hr1 : flow_rep fm1 N L).
  { apply (flow_rep_ext fm); try done.
    - intros l i. unfold fnext. subst fm1. destruct (decide (idx = i)) as [->|];
        [by rewrite upd_fq_eq, C3|by rewrite upd_fq_ne].
    - intros i. subst fm1. destruct (decide (idx = i)) as [->|];
        [by rewrite upd_fq_eq|by rewrite upd_fq_ne].
    - intros i Hd. apply upd_fq_dom. by right. }
  assert (Hok1 : forall i, fq_ok (fqueues fm1 !!! i)).
  { intros i. subst fm1. destruct (decide (idx = i)) as [->|];
      [by rewrite upd_fq_eq|by rewrite upd_fq_ne]. }
  assert (Hact1 : forall i, i <> idx -> 0 < fq_avail (fqueues fm1 !!! i) -> listed N L i).
  { intros i Hi. subst fm1. rewrite upd_fq_ne by congruence. apply Hact. }
  assert (Hrng1 : forall i, is_Some (fqueues fm1 !! i) -> 0 <= i < FLEXNIC_NUM_QMFLOWQUEUES).
  { intros i Hi. apply upd_fq_dom in Hi as [->|]; auto. }
  assert (Hsum1 : flow_sum fm1 = flow_sum fm - fq_avail (fqueues fm !!! idx)
                    + set_avail avail flags (fq_avail (fqueues fm !!! idx))).
  { subst fm1. by rewrite flow_sum_upd, C2. }
  assert (Hav1 : fq_avail (fqueues fm1 !!! idx)
                 = set_avail avail flags (fq_avail (fqueues fm !!! idx))).
  { subst fm1. by rewrite upd_fq_eq. }
  assert (Hall1 : forall i, fq_avail (fqueues fm1 !!! i)
    = if decide (i = idx) then set_avail avail flags (fq_avail (fqueues fm !!! idx))
      else fq_avail (fqueues fm !!! i)).
  { intros i. destruct (decide (i = idx)) as [->|]; [done|].
    subst fm1. by rewrite upd_fq_ne by congruence. }
  destruct (_ && _ && _) eqn:Ego.
  - bprop. destruct (flow_queue_activate_qman_ok r tsv fm1 N L idx)
      as (r' & fm' & N' & L' & E & Hk & Hs & Hl & _ & Hsd); try done.
    { unfold listed. match goal with H : fq_in_list _ = false |- _ =>
        apply (fq_in_list_iff _ _ _ _ Hr1) in H end. tauto. }
    exists r', fm', N', L'. split; [done|]. split; [done|]. split; [by rewrite Hs|].
    split; [intros i Hi; apply Hl; by right|].
    intros i. rewrite <- Hall1. destruct (Hsd i) as (t & _ & Hc).
    exact (f_equal (fun t => t.1.2) Hc).
  - exists r, fm1, N, L. split; [done|]. split; [|done].
    constructor; try done. intros i Hi.
    destruct (decide (i = idx)) as [->|]; [|by apply Hact1].
    destruct (fq_in_list (fqueues fm1 !!! idx)) eqn:El.
    + destruct (decide (idx ∈ N)); [by left|].
      destruct (decide (idx ∈ L 0%nat)); [by right|].
      rewrite (proj2 (fq_in_list_iff _ _ _ _ Hr1)) in El by done. done.
    + exfalso. cbn [negb] in Ego. rewrite andb_true_r in Ego.
      destruct (Z.ltb_spec 0 (fq_avail (fqueues fm1 !!! idx))); [|lia].
      rewrite andb_true_r in Ego. apply orb_false_iff in Ego as [E1 E2].
      rewrite Hav1 in Hi. unfold set_avail in Hi. rewrite E1, E2 in Hi.
      apply Hact in Hi. unfold listed in Hi.
      rewrite (fq_in_list_iff _ _ _ _ Hr1) in El. tauto.
Qed.

(** ** Virtual machines *)

Definition vnext (vm : vm_qman) (i : Z) : Z := vq_next_idx (vqueues vm !!! i).

(** One VM queue: its container, and its total (modulo 2^32). *)
Record vq_ok (vq : vm_queue) : Prop := mk_vq_ok {
  vk_flows : exists N L, flow_qman_ok (fqman vq) N L;
  vk_tsv : is_u32 (ts_virtual vq);
  vk_sum : vq_avail vq = u32 (flow_sum (fqman vq)) }.

(** The VM list [V]: VMs in it are marked; VMs with work are in it, except those
    in [O] (out of budget). *)
Record vm_ok (O : list Z) (vm : vm_qman) (V : list Z) : Prop := mk_vm_ok {
  vmk_list : queue_rep INVAL (vnext vm) (vm_head_idx vm) (vm_tail_idx vm) V;
  vmk_range : forall i, i ∈ V -> 0 <= i < FLEXNIC_PL_VMST_NUM;
  vmk_flags : forall i, 0 <= i < FLEXNIC_PL_VMST_NUM ->
    vq_flags (vqueues vm !!! i) = if decide (i ∈ V) then FLAG_INNOLIMITL else 0;
  vmk_active : forall i, 0 <= i < FLEXNIC_PL_VMST_NUM -> i ∉ O ->
    0 < vq_avail (vqueues vm !!! i) -> i ∈ V;
  vmk_ok : forall i, 0 <= i < FLEXNIC_PL_VMST_NUM -> vq_ok (vqueues vm !!! i) }.

(** The same while VM [x] is being updated. *)
Record vm_ok_but (O : list Z) (x : Z) (vm : vm_qman) (V : list Z) : Prop := mk_vm_ok_but {
  vb_list : queue_rep INVAL (vnext vm) (vm_head_idx vm) (vm_tail_idx vm) V;
  vb_range : forall i, i ∈ V -> 0 <= i < FLEXNIC_PL_VMST_NUM;
  vb_flags : forall i, 0 <= i < FLEXNIC_PL_VMST_NUM ->
    vq_flags (vqueues vm !!! i) = if decide (i ∈ V) then FLAG_INNOLIMITL else 0;
  vb_active : forall i, 0 <= i < FLEXNIC_PL_VMST_NUM -> i ∉ O -> i <> x ->
    0 < vq_avail (vqueues vm !!! i) -> i ∈ V;
  vb_ok : forall i, 0 <= i < FLEXNIC_PL_VMST_NUM -> i <> x -> vq_ok (vqueues vm !!! i) }.

Lemma upd_vq_eq i g vm : vqueues (upd_vq i g vm) !!! i = g (vqueues vm !!! i).
Proof. unfold upd_vq. cbn. by rewrite lookup_total_insert_eq. Qed.

Lemma upd_vq_ne i j g vm : i <> j -> vqueues (upd_vq i g vm) !!! j = vqueues vm !!! j.
Proof. intros. unfold upd_vq. cbn. by rewrite lookup_total_insert_ne. Qed.

Lemma vnext_upd i g vm j :
  vnext (upd_vq i g vm) j = if decide (j = i) then vq_next_idx (g (vqueues vm !!! i))
                            else vnext vm j.
Proof.
  unfold vnext. destruct (decide (j = i)) as [->|];
    [by rewrite upd_vq_eq|by rewrite upd_vq_ne].
Qed.

(** Updates that keep the links and the marks of a VM. *)
Lemma vm_ok_but_upd O x g vm V :
  (forall q, vq_next_idx (g q) = vq_next_idx q /\ vq_flags (g q) = vq_flags q) ->
  vm_ok_but O x vm V -> vm_ok_but O x (upd_vq x g vm) V.
Proof.
  intros Hg [B1 B2 B3 B4 B5]. constructor; try done.
  - eapply queue_rep_ext; [|exact B1]. intros y _. rewrite vnext_upd.
    destruct (decide (y = x)) as [->|]; [by apply Hg|done].
  - intros i Hi. destruct (decide (x = i)) as [->|].
    + rewrite upd_vq_eq. destruct (Hg (vqueues vm !!! i)) as [_ ->]. by apply B3.
    + rewrite upd_vq_ne by done. by apply B3.
  - intros i Hi HiO Hne. rewrite upd_vq_ne by congruence. by apply B4.
  - intros i Hi Hne. rewrite upd_vq_ne by congruence. by apply B5.
Qed.

Lemma vm_ok_to_but O x vm V : vm_ok O vm V -> vm_ok_but O x vm V.
Proof. intros [? ? ? ? ?]. constructor; auto. Qed.

Lemma vm_ok_of_but O x vm V :
  vm_ok_but O x vm V -> (x ∉ O -> 0 < vq_avail (vqueues vm !!! x) -> x ∈ V) ->
  vq_ok (vqueues vm !!! x) -> vm_ok O vm V.
Proof.
  intros [B1 B2 B3 B4 B5] Hx Hok. constructor; try done.
  - intros i Hi HiO Hp. destruct (decide (i = x)) as [->|]; auto.
  - intros i Hi. destruct (decide (i = x)) as [->|]; auto.
Qed.

(** The values of a VM queue that activating leaves alone. *)
Definition vq_data (q : vm_queue) :=
  (vq_id q, fqman q, vq_avail q, ts_real q, ts_virtual q).

Lemma vq_ok_data q q' : vq_data q' = vq_data q -> vq_ok q -> vq_ok q'.
Proof.
  intros Hd [V1 V2 V3].
  assert (E1 : fqman q' = fqman q) by exact (f_equal (fun t => t.1.1.1.2) Hd).
  assert (E2 : vq_avail q' = vq_avail q) by exact (f_equal (fun t => t.1.1.2) Hd).
  assert (E3 : ts_virtual q' = ts_virtual q) by exact (f_equal (fun t => t.2) Hd).
  constructor; by rewrite ?E1, ?E2, ?E3.
Qed.

Lemma vm_queue_activate_ok O x vm V :
  vm_ok_but O x vm V -> x ∉ V -> 0 <= x < FLEXNIC_PL_VMST_NUM ->
  exists vm', vm_queue_activate vm x = Some vm' /\ vm_ok_but O x vm' (V ++ [x])
  /\ (forall i, vq_data (vqueues vm' !!! i) = vq_data (vqueues vm !!! i)).
Proof.
  intros [B1 B2 B3 B4 B5] Hx Hr. unfold vm_queue_activate.
  assert (Hf : vq_flags (vqueues vm !!! x) = 0)
    by (rewrite B3 by done; by rewrite decide_False).
  rewrite Hf. cbn [cassert mbind option_bind Z.land Z.eqb].
  set (vm1 := upd_vq x _ vm).
  assert (Hxi : x <> INVAL) by (unfold IDXLIST_INVAL, FLEXNIC_PL_VMST_NUM in *; lia).
  pose proof (queue_rep_push INVAL (vnext vm) _ _ V x B1 Hx Hxi) as Hpush.
  assert (Hn1 : forall j, vnext vm1 j = fupd (vnext vm) x INVAL j).
  { intros j. subst vm1. rewrite vnext_upd. unfold fupd.
    destruct (decide (j = x)) as [->|Hne]; [by rewrite Z.eqb_refl|].
    by rewrite (proj2 (Z.eqb_neq j x)). }
  assert (Hd1 : forall j, vq_data (vqueues vm1 !!! j) = vq_data (vqueues vm !!! j)).
  { intros j. subst vm1. destruct (decide (x = j)) as [->|];
      [by rewrite upd_vq_eq|by rewrite upd_vq_ne]. }
  assert (Hf1 : forall j, vq_flags (vqueues vm1 !!! j)
    = if decide (j = x) then FLAG_INNOLIMITL else vq_flags (vqueues vm !!! j)).
  { intros j. subst vm1. destruct (decide (j = x)) as [->|];
      [rewrite upd_vq_eq; cbn; by rewrite Hf|by rewrite upd_vq_ne by congruence]. }
  assert (Hend : forall vm', (forall j, vq_data (vqueues vm' !!! j) = vq_data (vqueues vm !!! j)) ->
    (forall j, vq_flags (vqueues vm' !!! j) = vq_flags (vqueues vm1 !!! j)) ->
    queue_rep INVAL (vnext vm') (vm_head_idx vm') (vm_tail_idx vm') (V ++ [x]) ->
    vm_ok_but O x vm' (V ++ [x])).
  { intros vm' Hd Hfl Hq. constructor; try done.
    - intros i. rewrite elem_of_app, list_elem_of_singleton. intros [?| ->]; auto.
    - intros i Hi. rewrite Hfl, Hf1, B3 by done.
      destruct (decide (i = x)) as [->|].
      + rewrite decide_True; [done|]. rewrite elem_of_app, list_elem_of_singleton. tauto.
      + destruct (decide (i ∈ V)), (decide (i ∈ V ++ [x])) as [Hin|Hin]; try done;
          rewrite elem_of_app, list_elem_of_singleton in Hin; tauto.
    - intros i Hi HiO Hne. assert (vq_avail (vqueues vm' !!! i) = vq_avail (vqueues vm !!! i))
        as -> by exact (f_equal (fun t => t.1.1.2) (Hd i)).
      rewrite elem_of_app. left. by apply B4.
    - intros i Hi Hne. eapply vq_ok_data; [apply Hd|]. by apply B5. }
  change (vm_tail_idx vm1) with (vm_tail_idx vm).
  destruct (Z.eqb_spec (vm_tail_idx vm) INVAL) as [Ht|Ht].
  - eexists. split; [reflexivity|]. split; [|exact Hd1].
    apply Hend; [done|done|]. eapply queue_rep_ext; [|exact Hpush].
    intros y _. apply Hn1.
  - set (t := vm_tail_idx vm) in *. set (vm2 := upd_vq t _ vm1).
    assert (Hd2 : forall j, vq_data (vqueues vm2 !!! j) = vq_data (vqueues vm1 !!! j)
      /\ vq_flags (vqueues vm2 !!! j) = vq_flags (vqueues vm1 !!! j)).
    { intros j. subst vm2. destruct (decide (t = j)) as [->|];
        [by rewrite upd_vq_eq|by rewrite upd_vq_ne]. }
    eexists. split; [reflexivity|]. split.
    + apply Hend.
      * intros j. change (vq_data (vqueues vm2 !!! j) = vq_data (vqueues vm !!! j)).
        rewrite <- Hd1. apply Hd2.
      * intros j. apply Hd2.
      * eapply queue_rep_ext; [|exact Hpush]. intros y _.
        change (vnext vm2 y = fupd (fupd (vnext vm) x INVAL) t x y).
        subst vm2. rewrite vnext_upd. unfold fupd at 1.
        destruct (decide (y = t)) as [->|Hne]; [by rewrite Z.eqb_refl|].
        rewrite (proj2 (Z.eqb_neq y t)) by done. apply Hn1.
    + intros j. change (vq_data (vqueues vm2 !!! j) = vq_data (vqueues vm !!! j)).
      rewrite <- Hd1. apply Hd2.
Qed.

(** ** Setting a queue of a VM *)

Definition qman_wf (t : qman_thread) : Prop := exists V, vm_ok [] (vqman t) V.

(** The VM queue while its total is updated and its container is not yet. *)
Lemma vm_set_impl_ok vm V v f avail flags :
  vm_ok [] vm V -> 0 <= v < FLEXNIC_PL_VMST_NUM -> is_u32 avail ->
  exists vm' V', vm_set_impl vm v f avail flags = Some vm'
  /\ vm_ok_but [] v vm' V'
  /\ fqman (vqueues vm' !!! v) = fqman (vqueues vm !!! v)
  /\ ts_virtual (vqueues vm' !!! v) = ts_virtual (vqueues vm !!! v)
  /\ vq_avail (vqueues vm' !!! v)
     = u32 (vq_avail (vqueues vm !!! v)
            - fq_avail (fqueues (fqman (vqueues vm !!! v)) !!! f)
            + set_avail avail flags (fq_avail (fqueues (fqman (vqueues vm !!! v)) !!! f)))
  /\ (0 < vq_avail (vqueues vm' !!! v) -> v ∈ V')
  /\ (forall i, i <> v -> vq_data (vqueues vm' !!! i) = vq_data (vqueues vm !!! i)).
Proof.
  intros Hok Hv Ha. unfold vm_set_impl.
  set (prev := fq_avail _).
  set (va := vq_avail (vqueues vm !!! v)).
  set (vm1 := upd_vq v _ vm). cbv zeta.
  assert (H1 : vm_ok_but [] v vm1 V).
  { apply vm_ok_but_upd; [|by apply vm_ok_to_but]. intros q.
    by destruct (flag_set flags QMAN_SET_AVAIL), (flag_set flags QMAN_ADD_AVAIL). }
  assert (E1 : fqman (vqueues vm1 !!! v) = fqman (vqueues vm !!! v)
    /\ ts_virtual (vqueues vm1 !!! v) = ts_virtual (vqueues vm !!! v)
    /\ vq_flags (vqueues vm1 !!! v) = vq_flags (vqueues vm !!! v)
    /\ vq_avail (vqueues vm1 !!! v) = u32 (va - prev + set_avail avail flags prev)).
  { subst vm1. rewrite upd_vq_eq. unfold set_avail.
    assert (Hva : va = u32 va).
    { subst va. rewrite (vk_sum _ (vmk_ok _ _ _ Hok v Hv)). by rewrite u32_u32. }
    destruct (flag_set flags QMAN_SET_AVAIL), (flag_set flags QMAN_ADD_AVAIL); cbn;
      (split; [done|split; [done|split; [done|]]]);
      autorewrite with u32; try done; fold va; try (f_equal; lia).
    all: rewrite Hva at 1; f_equal; lia. }
  destruct E1 as (E1 & E2 & E3 & E4).
  assert (Hne : forall i, i <> v -> vq_data (vqueues vm1 !!! i) = vq_data (vqueues vm !!! i))
    by (intros i Hi; subst vm1; by rewrite upd_vq_ne by congruence).
  destruct (_ && _ && _) eqn:Ego.
  - bprop. assert (HvV : v ∉ V).
    { match goal with H : Z.land _ _ = 0 |- _ => rewrite E3 in H;
        rewrite (vmk_flags _ _ _ Hok v Hv) in H end. by destruct (decide (v ∈ V)). }
    destruct (vm_queue_activate_ok [] v vm1 V H1 HvV Hv) as (vm' & -> & Hk & Hd).
    exists vm', (V ++ [v]). split; [done|]. split; [done|].
    assert (F1 : fqman (vqueues vm' !!! v) = fqman (vqueues vm1 !!! v))
      by exact (f_equal (fun t => t.1.1.1.2) (Hd v)).
    assert (F2 : vq_avail (vqueues vm' !!! v) = vq_avail (vqueues vm1 !!! v))
      by exact (f_equal (fun t => t.1.1.2) (Hd v)).
    assert (F3 : ts_virtual (vqueues vm' !!! v) = ts_virtual (vqueues vm1 !!! v))
      by exact (f_equal (fun t => t.2) (Hd v)).
    rewrite F1, F2, F3. split; [done|]. split; [done|]. split; [done|]. split.
    { intros _. rewrite elem_of_app, list_elem_of_singleton. tauto. }
    intros i Hi. rewrite Hd. by apply Hne.
  - exists vm1, V. split; [done|]. split; [done|]. split; [done|]. split; [done|].
    split; [done|]. split; [|exact Hne].
    intros Hp. destruct (decide (v ∈ V)) as [|Hn]; [done|exfalso].
    rewrite E3, (vmk_flags _ _ _ Hok v Hv) in Ego. rewrite decide_False in Ego by done.
    destruct (Z.ltb_spec 0 (vq_avail (vqueues vm1 !!! v))); [|lia].
    cbn [Z.land Z.eqb] in Ego. rewrite !andb_true_r in Ego.
    apply orb_false_iff in Ego as [G1 G2]. rewrite E4 in Hp.
    unfold set_avail in Hp. rewrite G1, G2 in Hp.
    replace (va - prev + prev) with va in Hp by lia.
    assert (Hva : u32 va = va).
    { subst va. rewrite (vk_sum _ (vmk_ok _ _ _ Hok v Hv)). by rewrite u32_u32. }
    rewrite Hva in Hp. apply Hn, (vmk_active _ _ _ Hok); [done|apply not_elem_of_nil|done].
Qed.

(** Setting a queue succeeds, whatever the state. *)
Lemma vm_queue_activate_fqman vm idx vm' i :
  vm_queue_activate vm idx = Some vm' ->
  fqman (vqueues vm' !!! i) = fqman (vqueues vm !!! i).
Proof.
  unfold vm_queue_activate. intros (? & _ & E)%bind_Some.
  assert (Hu : forall j g (vm : vm_qman), (forall q, fqman (g q) = fqman q) ->
    fqman (vqueues (upd_vq j g vm) !!! i) = fqman (vqueues vm !!! i)).
  { intros j g vm0 Hg. destruct (decide (j = i)) as [->|];
      [by rewrite upd_vq_eq|by rewrite upd_vq_ne]. }
  set (vm1 := upd_vq idx _ vm) in E.
  assert (H1 : fqman (vqueues vm1 !!! i) = fqman (vqueues vm !!! i)) by (by apply Hu).
  destruct (vm_tail_idx _ =? _); injection E as <-; [exact H1|].
  rewrite <- H1.
  exact (Hu (vm_tail_idx vm1) (fun q => q <| vq_next_idx := idx |>) vm1 ltac:(done)).
Qed.

Lemma vm_set_impl_fqman vm v f avail flags vm' i :
  vm_set_impl vm v f avail flags = Some vm' ->
  fqman (vqueues vm' !!! i) = fqman (vqueues vm !!! i).
Proof.
  unfold vm_set_impl. set (vm1 := upd_vq v _ vm).
  assert (E1 : fqman (vqueues vm1 !!! i) = fqman (vqueues vm !!! i)).
  { subst vm1. destruct (decide (v = i)) as [->|]; [|by rewrite upd_vq_ne].
    rewrite upd_vq_eq. by repeat case_match. }
  case_match; [intros E%(vm_queue_activate_fqman _ _ _ i)|intros [= <-]]; congruence.
Qed.

(** Number of bytes queued for flow [f] of VM [v]. *)
Definition queued (t : qman_thread) (v f : Z) : Z :=
  fq_avail (fqueues (fqman (vqueues (vqman t) !!! v)) !!! f).

Lemma tas_qman_set_full t v f rt avail chunk flags :
  qman_wf t -> 0 <= v < FLEXNIC_PL_VMST_NUM -> 0 <= f < FLEXNIC_NUM_QMFLOWQUEUES ->
  is_u32 rt -> is_u32 avail -> 0 <= chunk < 65536 ->
  exists t', tas_qman_set t v f rt avail chunk flags = Some (t', 0) /\ qman_wf t'
  /\ forall i j, 0 <= i < FLEXNIC_PL_VMST_NUM -> queued t' i j
       = if decide (i = v /\ j = f) then set_avail avail (u8 flags) (queued t v f)
         else queued t i j.
Proof.
  intros [V Hok] Hv Hf Hr Ha Hc. unfold tas_qman_set, vm_qman_set.
  destruct (Z.leb_spec FLEXNIC_PL_VMST_NUM v); [lia|].
  rewrite (u16_id chunk) by cside. generalize (u8 flags). clear flags. intros flags.
  destruct (vm_set_impl_ok (vqman t) V v f avail flags Hok Hv Ha)
    as (vm & V' & -> & Hb & E1 & E2 & E3 & Hact & Hvne).
  cbn [mbind option_bind]. unfold flow_qman_set.
  destruct (Z.leb_spec FLEXNIC_NUM_QMFLOWQUEUES f); [lia|].
  destruct (vmk_ok _ _ _ Hok v Hv) as [(N & L & Hk) Htsv Hsum].
  rewrite E1, E2.
  destruct (flow_set_impl_ok (rng t) (ts_virtual (vqueues (vqman t) !!! v))
              (fqman (vqueues (vqman t) !!! v)) N L f rt avail chunk flags)
    as (r' & fm' & N' & L' & -> & Hk' & Hs' & _ & Havl); try done.
  cbn [mbind option_bind]. eexists. split; [reflexivity|]. split.
  2: { intros i j Hi. unfold queued. cbn [vqman]. destruct (decide (i = v)) as [->|Hne].
    - rewrite upd_vq_eq. cbn. rewrite Havl.
      destruct (decide (j = f)) as [->|];
        [by rewrite decide_True|by rewrite decide_False by tauto].
    - rewrite decide_False by tauto. rewrite upd_vq_ne by congruence.
      do 3 f_equal. exact (f_equal (fun t => t.1.1.1.2) (Hvne i Hne)). }
  exists V'. cbn [vqman]. apply (vm_ok_of_but [] v).
  - by apply vm_ok_but_upd.
  - rewrite upd_vq_eq. intros _. exact Hact.
  - rewrite upd_vq_eq. constructor; cbn.
    + by exists N', L'.
    + by rewrite E2.
    + rewrite E3, Hs', Hsum. unfold u32.
      rewrite <- Z.add_mod_idemp_l by lia. rewrite Zminus_mod_idemp_l.
      by rewrite Z.add_mod_idemp_l by lia.
Qed.

Lemma tas_qman_set_ok t v f rt avail chunk flags :
  qman_wf t -> 0 <= v < FLEXNIC_PL_VMST_NUM -> 0 <= f < FLEXNIC_NUM_QMFLOWQUEUES ->
  is_u32 rt -> is_u32 avail -> 0 <= chunk < 65536 ->
  exists t', tas_qman_set t v f rt avail chunk flags = Some (t', 0) /\ qman_wf t'.
Proof.
  intros. destruct (tas_qman_set_full t v f rt avail chunk flags) as (t' & ? & ? & _);
    try done. by exists t'.
Qed.

#[export] Instance qman_thread_ops : QmanOps qman_thread := {
  qman_set := tas_qman_set }.

#[export] Instance qman_thread_laws : QmanLaws qman_thread := {
  qman_inv := qman_wf;
  qman_set_ok := tas_qman_set_ok }.
