(* ===== verification/QmanPoll.v ===== *)
(** * Queue manager: polling

    [tas_qman_poll] always returns: its loops end within the given fuel, the
    events it reports are within bounds, and the bytes it reports are taken off
    the totals of the flows and of the VMs. *)

From S2P Require Import Prelude FpTypes Rng Links Qman QmanProofs.

(** ** Firing a flow queue *)

Definition ev_sum (evs : list qm_ev) : Z := foldr (fun e s => ev_bytes e + s) 0 evs.

Lemma ev_sum_app a b : ev_sum (a ++ b) = ev_sum a + ev_sum b.
Proof. unfold ev_sum. induction a as [|e a IH]; cbn in *; lia. Qed.

(** Events of one VM. *)
Definition ev_ok (vm : Z) (e : qm_ev) : Prop :=
  0 <= ev_flow e < FLEXNIC_NUM_QMFLOWQUEUES /\ ev_vm e = vm /\ is_u16 (ev_bytes e).

(** A poll state; [fs_but x] is the state after [x] was taken off its list. *)
Record fpoll_ok (s : fpoll) (N : list Z) (L : nat -> list Z) : Prop := mk_fpoll_ok {
  pk_flows : flow_qman_ok (fqman (fp_vq s)) N L;
  pk_tsv : is_u32 (ts_virtual (fp_vq s)) }.

Record fpoll_but (x : Z) (s : fpoll) (N : list Z) (L : nat -> list Z) : Prop :=
  mk_fpoll_but {
  pb_rep : flow_rep (fqman (fp_vq s)) N L;
  pb_cells : forall i, fq_ok (fqueues (fqman (fp_vq s)) !!! i);
  pb_active : forall i, i <> x -> 0 < fq_avail (fqueues (fqman (fp_vq s)) !!! i) ->
                listed N L i;
  pb_range : forall i, is_Some (fqueues (fqman (fp_vq s)) !! i) ->
               0 <= i < FLEXNIC_NUM_QMFLOWQUEUES;
  pb_x : ~ listed N L x /\ 0 <= x < FLEXNIC_NUM_QMFLOWQUEUES;
  pb_tsv : is_u32 (ts_virtual (fp_vq s)) }.

Lemma fpoll_but_ok x s N L :
  fpoll_but x s N L -> fq_avail (fqueues (fqman (fp_vq s)) !!! x) <= 0 ->
  fpoll_ok s N L.
Proof.
  intros [P1 P2 P3 P4 P5 P6] Hx. constructor; [|done]. constructor; try done.
  intros i Hi. destruct (decide (i = x)) as [->|]; [lia|by apply P3].
Qed.

(** What a poll does to the rest: it reports events, and takes their bytes off
    the flows and adds them to the sum. *)
Record fpoll_step (s s' : fpoll) (evs : list qm_ev) : Prop := mk_fpoll_step {
  st_out : fp_out s' = fp_out s ++ evs;
  st_sum : fp_sum s' = s32 (fp_sum s + ev_sum evs);
  st_flow : flow_sum (fqman (fp_vq s')) = flow_sum (fqman (fp_vq s)) - ev_sum evs;
  st_evs : Forall (ev_ok (vq_id (fp_vq s))) evs;
  st_id : vq_id (fp_vq s') = vq_id (fp_vq s)
    /\ vq_avail (fp_vq s') = vq_avail (fp_vq s)
    /\ vq_flags (fp_vq s') = vq_flags (fp_vq s)
    /\ vq_next_idx (fp_vq s') = vq_next_idx (fp_vq s) }.

Lemma s32_range z : - 2147483648 <= s32 z < 2147483648.
Proof. clia. Qed.
Lemma s32_id z : - 2147483648 <= z < 2147483648 -> s32 z = z.
Proof. clia. Qed.
Lemma s32_add_l a b : s32 (s32 a + b) = s32 (a + b).
Proof.
  unfold s32. f_equal.
  replace ((a + 2147483648) mod 4294967296 - 2147483648 + b + 2147483648)
    with ((a + 2147483648) mod 4294967296 + b) by lia.
  rewrite Zplus_mod_idemp_l. f_equal. lia.
Qed.

Lemma fpoll_step_trans s1 s2 s3 e1 e2 :
  fpoll_step s1 s2 e1 -> fpoll_step s2 s3 e2 -> fpoll_step s1 s3 (e1 ++ e2).
Proof.
  intros [O1 S1 F1 E1 (I1 & J1 & K1 & M1)] [O2 S2 F2 E2 (I2 & J2 & K2 & M2)]. constructor.
  - by rewrite O2, O1, app_assoc.
  - rewrite S2, S1, s32_add_l, ev_sum_app. f_equal. lia.
  - rewrite F2, F1, ev_sum_app. lia.
  - apply Forall_app. rewrite I1 in E2. done.
  - by rewrite I2, I1, J2, J1, K2, K1, M2, M1.
Qed.

(** Updates of the poll state that touch neither values nor totals. *)
Lemma fpoll_step_same s s' :
  fp_out s' = fp_out s -> fp_sum s' = fp_sum s -> - 2147483648 <= fp_sum s < 2147483648 ->
  flow_sum (fqman (fp_vq s')) = flow_sum (fqman (fp_vq s)) ->
  vq_id (fp_vq s') = vq_id (fp_vq s) -> vq_avail (fp_vq s') = vq_avail (fp_vq s) ->
  vq_flags (fp_vq s') = vq_flags (fp_vq s) ->
  vq_next_idx (fp_vq s') = vq_next_idx (fp_vq s) -> fpoll_step s s' [].
Proof.
  intros O S R F I A G X. constructor; cbn; try done.
  - by rewrite app_nil_r.
  - rewrite S, Z.add_0_r. by rewrite s32_id.
  - rewrite F. lia.
Qed.

(** Every queue of the skip list has work. *)
Definition no_stale (fm : flow_qman) (L : nat -> list Z) : Prop :=
  forall i, i ∈ L 0%nat -> 0 < fq_avail (fqueues fm !!! i).

Lemma flow_queue_fire_ok s x N L :
  fpoll_but x s N L -> 0 < fq_avail (fqueues (fqman (fp_vq s)) !!! x) ->
  exists s' e N' L', flow_queue_fire s x = Some s' /\ fpoll_ok s' N' L'
  /\ fpoll_step s s' [e] /\ fp_limited s' = fp_limited s
  /\ (forall i, listed N L i -> listed N' L' i)
  /\ (N' = N \/ N' = N ++ [x]) /\ (length (L' 0%nat) <= S (length (L 0%nat)))%nat
  /\ (length N' + length (L' 0%nat) <= S (length N + length (L 0%nat)))%nat
  /\ (forall i, i ∈ L 0%nat -> i ∈ L' 0%nat)
  /\ (no_stale (fqman (fp_vq s)) L -> no_stale (fqman (fp_vq s')) L').
Proof.
  intros [P1 P2 P3 P4 [P5 P5'] P6] Hav. unfold flow_queue_fire. cbv zeta.
  set (vq := fp_vq s) in *. set (q := fqueues (fqman vq) !!! x) in *.
  destruct (Z.ltb_spec 0 (fq_avail q)); [|lia]. cbn [cassert mbind option_bind].
  set (bytes := if fq_avail q <=? max_chunk q then fq_avail q else max_chunk q).
  pose proof (P2 x) as [Q1 Q2 Q3 Q4]. fold q in Q1, Q2, Q3, Q4.
  assert (Hby : 0 <= bytes < 65536 /\ bytes <= fq_avail q).
  { subst bytes. unfold is_u16 in Q4. destruct (Z.leb_spec (fq_avail q) (max_chunk q)); lia. }
  set (fm1 := upd_fq x _ (fqman vq)).
  assert (Hx1 : fq_avail (fqueues fm1 !!! x) = fq_avail q - bytes
    /\ is_u32 (next_ts (fqueues fm1 !!! x)) /\ rate (fqueues fm1 !!! x) = rate q
    /\ max_chunk (fqueues fm1 !!! x) = max_chunk q
    /\ next_idxs (fqueues fm1 !!! x) = next_idxs q
    /\ fq_flags (fqueues fm1 !!! x) = fq_flags q).
  { subst fm1. rewrite upd_fq_eq. fold q. cbv zeta. cbn [rate setf].
    rewrite (u32_sub_pos (fq_avail q)) by cside.
    destruct (0 <? rate q); cbn; (split; [done|]; split; [|done]);
      [apply u32_range|done]. }
  destruct Hx1 as (X1 & X2 & X3 & X4 & X5 & X6).
  assert (Hne : forall j, j <> x -> fqueues fm1 !!! j = fqueues (fqman vq) !!! j)
    by (intros; subst fm1; by rewrite upd_fq_ne).
  assert (Hr1 : flow_rep fm1 N L).
  { apply (flow_rep_ext (fqman vq)); try done.
    - intros l i. unfold fnext. destruct (decide (i = x)) as [->|];
        [by rewrite X5|by rewrite Hne].
    - intros i. destruct (decide (i = x)) as [->|]; [by rewrite X6|by rewrite Hne].
    - intros i Hd. apply upd_fq_dom. by right. }
  assert (Hok1 : forall i, fq_ok (fqueues fm1 !!! i)).
  { intros i. destruct (decide (i = x)) as [->|]; [|by rewrite Hne].
    constructor; rewrite ?X1, ?X3, ?X4; try done. cside. }
  assert (Hact1 : forall i, i <> x -> 0 < fq_avail (fqueues fm1 !!! i) -> listed N L i)
    by (intros i Hi; rewrite Hne by done; by apply P3).
  assert (Hrng1 : forall i, is_Some (fqueues fm1 !! i) -> 0 <= i < FLEXNIC_NUM_QMFLOWQUEUES)
    by (intros i Hi; apply upd_fq_dom in Hi as [->|]; auto).
  assert (Hsum1 : flow_sum fm1 = flow_sum (fqman vq) - bytes).
  { subst fm1. rewrite flow_sum_upd. rewrite upd_fq_eq in X1. rewrite X1.
    fold q. lia. }
  set (e := mk_qm_ev x (u16 bytes) (vq_id vq)).
  assert (He : ev_ok (vq_id vq) e /\ ev_sum [e] = bytes).
  { split; [split; [done|split; [done|apply u16_range]]|]. cbn.
    rewrite u16_id by cside. lia. }
  destruct He as [He1 He2].
  assert (Hstep : forall r fm', flow_sum fm' = flow_sum fm1 ->
    fpoll_step s (mk_fpoll r (vq <| fqman := fm' |>) (fp_limited s)
      (fp_out s ++ [mk_qm_ev x (u16 bytes) (vq_id vq)]) (s32 (fp_sum s + bytes))) [e]).
  { intros r fm' Hs. constructor; cbn [fp_out fp_sum fp_vq]; try done.
    - by rewrite He2.
    - cbn [fqman setf]. rewrite Hs, Hsum1, He2. done.
    - by constructor. }
  destruct (Z.ltb_spec 0 (fq_avail (fqueues fm1 !!! x))) as [Hp|Hp].
  - destruct (flow_queue_activate_qman_ok (fp_rng s) (ts_virtual vq) fm1 N L x)
      as (r' & fm' & N' & L' & -> & Hk & Hs & Hl & Hsh & Hsd); try done.
    cbn [mbind option_bind]. eexists _, e, N', L'. split; [reflexivity|].
    split; [by constructor|]. split; [by apply Hstep|]. split; [done|].
    split; [intros i Hi; apply Hl; by right|].
    assert (Hav' : forall i, fq_avail (fqueues fm' !!! i) = fq_avail (fqueues fm1 !!! i)).
    { intros i. destruct (Hsd i) as (t & _ & Hc). by apply cell_data_eq in Hc as (_ & _ & ? & _). }
    assert (Hns : forall i, no_stale (fqman vq) L -> i = x \/ i ∈ L 0%nat ->
      0 < fq_avail (fqueues fm' !!! i)).
    { intros i Hn Hi. rewrite Hav'. destruct (decide (i = x)) as [->|]; [done|].
      rewrite Hne by done. apply Hn. tauto. }
    destruct (rate (fqueues fm1 !!! x) =? 0); destruct Hsh as [-> Hsh].
    + subst L'. rewrite length_app. cbn. split; [by right|]. split; [lia|]. split; [lia|].
      split; [done|]. intros Hn i Hi. apply Hns; [done|by right].
    + pose proof (Permutation_length Hsh) as Hlen. cbn in Hlen.
      split; [by left|]. split; [lia|]. split; [lia|].
      split; [intros i Hi; rewrite Hsh; by right|].
      intros Hn i Hi. rewrite Hsh, elem_of_cons in Hi. by apply Hns.
  - cbn [mbind option_bind]. eexists _, e, N, L. split; [reflexivity|].
    split; [|split; [by apply Hstep|]].
    + apply (fpoll_but_ok x); [|exact Hp]. by constructor.
    + split; [done|]. split; [done|]. split; [by left|]. split; [lia|]. split; [lia|].
      split; [done|]. intros Hn i Hi. cbn.
      rewrite Hne; [by apply Hn|]. intros ->. apply P5. by right.
Qed.

(** ** The no limit list *)

(** Taking the head off the no limit list. *)
Definition pop_nolimit (x nxt : Z) (s : fpoll) : fpoll :=
  let s := set_fqman (fun fm => fm <| nolimit_head_idx := nxt |>) s in
  let s := if nxt =? IDXLIST_INVAL
           then set_fqman (fun fm => fm <| nolimit_tail_idx := IDXLIST_INVAL |>) s
           else s in
  set_fqman (upd_fq x (fun q =>
    q <| fq_flags := Z.land (fq_flags q) (Z.lnot FLAG_INNOLIMITL) |>)) s.

Lemma pop_nolimit_frame x nxt s :
  let s' := pop_nolimit x nxt s in
  fp_out s' = fp_out s /\ fp_sum s' = fp_sum s /\ fp_limited s' = fp_limited s
  /\ fp_rng s' = fp_rng s
  /\ vq_data (fp_vq s') = vq_data (fp_vq s <| fqman := fqman (fp_vq s') |>)
  /\ vq_flags (fp_vq s') = vq_flags (fp_vq s)
  /\ vq_next_idx (fp_vq s') = vq_next_idx (fp_vq s)
  /\ head_idx (fqman (fp_vq s')) = head_idx (fqman (fp_vq s))
  /\ nolimit_head_idx (fqman (fp_vq s')) = nxt
  /\ nolimit_tail_idx (fqman (fp_vq s'))
     = (if nxt =? IDXLIST_INVAL then IDXLIST_INVAL else nolimit_tail_idx (fqman (fp_vq s)))
  /\ (forall j, fqueues (fqman (fp_vq s')) !!! j
        = if decide (j = x) then (fqueues (fqman (fp_vq s)) !!! x)
            <| fq_flags := Z.land (fq_flags (fqueues (fqman (fp_vq s)) !!! x))
                             (Z.lnot FLAG_INNOLIMITL) |>
          else fqueues (fqman (fp_vq s)) !!! j)
  /\ (forall j, is_Some (fqueues (fqman (fp_vq s')) !! j)
        <-> j = x \/ is_Some (fqueues (fqman (fp_vq s)) !! j)).
Proof.
  unfold pop_nolimit. cbv zeta.
  assert (Hc : forall (fm : flow_qman) g j, fqueues (upd_fq x g fm) !!! j
    = if decide (j = x) then g (fqueues fm !!! x) else fqueues fm !!! j).
  { intros fm g j. destruct (decide (j = x)) as [->|];
      [by rewrite upd_fq_eq|by rewrite upd_fq_ne by congruence]. }
  destruct (nxt =? IDXLIST_INVAL); cbn -[upd_fq];
    (split; [done|]; split; [done|]; split; [done|]; split; [done|];
     split; [done|]; split; [done|]; split; [done|]; split; [done|];
     split; [done|]; split; [done|]; split; [intros j; etransitivity; [apply Hc|done]|
     intros j; etransitivity; [apply upd_fq_dom|done]]).
Qed.

(** The container after a cell left its list: the flags and lists that
    [flow_rep] relates. *)
Lemma flow_rep_pop_flags (N N' : list Z) (L L' : nat -> list Z) x (f f' : Z -> Z) :
  (forall i, f i = if decide (i ∈ N) then FLAG_INNOLIMITL
                   else if decide (i ∈ L 0%nat) then FLAG_INSKIPLIST else 0) ->
  (forall i, f' i = if decide (i = x) then 0 else f i) ->
  (forall i, i ∈ N' <-> i ∈ N /\ i <> x) -> (forall i, i ∈ L' 0%nat <-> i ∈ L 0%nat /\ i <> x) ->
  forall i, f' i = if decide (i ∈ N') then FLAG_INNOLIMITL
                   else if decide (i ∈ L' 0%nat) then FLAG_INSKIPLIST else 0.
Proof.
  intros Hf Hf' HN HL i. rewrite Hf', Hf.
  destruct (decide (i = x)) as [->|Hne].
  - rewrite !decide_False; [done| |]; rewrite ?HN, ?HL; tauto.
  - destruct (decide (i ∈ N)), (decide (i ∈ N')) as [H1|H1]; rewrite HN in H1;
      try done; try tauto.
    destruct (decide (i ∈ L 0%nat)), (decide (i ∈ L' 0%nat)) as [H2|H2];
      rewrite HL in H2; try done; tauto.
Qed.

Lemma pop_nolimit_ok s x N L :
  fpoll_ok s (x :: N) L -> - 2147483648 <= fp_sum s < 2147483648 ->
  let s' := pop_nolimit x (fnext (fqman (fp_vq s)) 0 x) s in
  fpoll_but x s' N L /\ fpoll_step s s' [] /\ fp_limited s' = fp_limited s
  /\ fq_avail (fqueues (fqman (fp_vq s')) !!! x)
     = fq_avail (fqueues (fqman (fp_vq s)) !!! x)
  /\ (no_stale (fqman (fp_vq s)) L -> no_stale (fqman (fp_vq s')) L).
Proof.
  intros [[Hr Hc Ha Hg] Ht] Hsum. cbv zeta.
  set (nxt := fnext _ _ _).
  destruct (pop_nolimit_frame x nxt s) as (F1 & F2 & F3 & F4 & F5 & F6 & F6' & F7 & F8 & F9 & F10 & F11).
  set (s' := pop_nolimit x nxt s) in *.
  pose proof Hr as [R1 R2 R3 R4 R5 R6 R7 R8].
  destruct (queue_rep_pop _ _ _ _ _ _ R1) as (Hh & HxN & Hxi & Hq).
  fold (fnext (fqman (fp_vq s)) 0 x) in Hq. fold nxt in Hq.
  assert (HxL : x ∉ L 0%nat) by (apply R7, list_elem_of_here).
  assert (Hn : forall l j, fnext (fqman (fp_vq s')) l j = fnext (fqman (fp_vq s)) l j).
  { intros l j. unfold fnext. rewrite F10. by destruct (decide (j = x)) as [->|]. }
  assert (Hcell : forall j, cell_data (fqueues (fqman (fp_vq s')) !!! j)
                            = cell_data (fqueues (fqman (fp_vq s)) !!! j)).
  { intros j. rewrite F10. by destruct (decide (j = x)) as [->|]. }
  assert (Hxv : is_Some (fqueues (fqman (fp_vq s)) !! x))
    by (apply R8; left; apply list_elem_of_here).
  split; [|split; [|split; [done|]]].
  - constructor.
    + constructor; rewrite ?F7, ?F8, ?F9; try done.
      * eapply queue_rep_ext; [intros y _; apply Hn|exact Hq].
      * intros l Hl. eapply path_ext; [intros y _; apply Hn|by apply R2].
      * apply (flow_rep_pop_flags (x :: N) N L L x
          (fun i => fq_flags (fqueues (fqman (fp_vq s)) !!! i))); [exact R6| | |].
        -- intros i. rewrite F10. destruct (decide (i = x)) as [->|]; [|done].
           cbn. rewrite R6, decide_True by apply list_elem_of_here. done.
        -- intros i. rewrite elem_of_cons. split; [|intros [[|] ?]; congruence].
           intros Hi. split; [by right|]. by intros ->.
        -- intros i. split; [|tauto]. intros Hi. split; [done|]. by intros ->.
      * intros i Hi. apply R7. by apply list_elem_of_further.
      * intros i Hi. apply F11. right. apply R8.
        destruct Hi; [left; by apply list_elem_of_further|by right].
    + intros i. eapply fq_ok_data; [apply Hcell|apply Hc].
    + intros i Hi Hp. assert (0 < fq_avail (fqueues (fqman (fp_vq s)) !!! i)) as Hp'.
      { by rewrite <- (cell_data_avail _ _ (Hcell i)). }
      apply Ha in Hp' as [Hin|]; [|by right].
      apply elem_of_cons in Hin as [|]; [done|by left].
    + intros i Hi. apply F11 in Hi as [->|]; auto.
    + split; [|by apply Hg]. unfold listed. tauto.
    + assert (Etv : ts_virtual (fp_vq s') = ts_virtual (fp_vq s))
        by exact (f_equal (fun t => t.2) F5). by rewrite Etv.
  - apply fpoll_step_same; try done.
    + apply flow_sum_data. intros i. apply cell_data_avail, Hcell.
    + exact (f_equal (fun t => t.1.1.1.1) F5).
    + exact (f_equal (fun t => t.1.1.2) F5).
  - split; [apply cell_data_avail, Hcell|]. intros Hns i Hi.
    rewrite (cell_data_avail _ _ (Hcell i)). by apply Hns.
Qed.

Lemma fpoll_step_sum_range s s' evs :
  fpoll_step s s' evs -> - 2147483648 <= fp_sum s' < 2147483648.
Proof. intros [_ -> _ _ _]. apply s32_range. Qed.

Lemma flow_poll_nolimit_ok fuel s num cnt N L :
  fpoll_ok s N L -> - 2147483648 <= fp_sum s < 2147483648 -> cnt <= num ->
  num - cnt + Z.of_nat (length N) < Z.of_nat fuel ->
  exists s' cnt' N' L' evs, flow_poll_nolimit fuel s num cnt = Some (s', cnt')
  /\ fpoll_ok s' N' L' /\ fpoll_step s s' evs /\ fp_limited s' = fp_limited s
  /\ cnt' = cnt + Z.of_nat (length evs) /\ cnt' <= num
  /\ (cnt' < num -> N' = []) /\ (evs = [] -> L' = L)
  /\ (forall i, i ∈ L 0%nat -> i ∈ L' 0%nat)
  /\ (no_stale (fqman (fp_vq s)) L -> no_stale (fqman (fp_vq s')) L')
  /\ (length N' + length (L' 0%nat) <= length N + length (L 0%nat))%nat.
Proof.
  revert s cnt N L. induction fuel as [|fuel IH]; intros s cnt N L Hok Hsr Hcnt Hf; [lia|].
  cbn [flow_poll_nolimit]. cbv zeta.
  pose proof (fr_nolimit _ _ _ (fk_rep _ _ _ (pk_flows _ _ _ Hok))) as Hq.
  pose proof (queue_rep_head_nil _ _ _ _ _ Hq) as Hnil.
  assert (Hdone : (cnt = num \/ N = []) -> exists s' cnt' N' L' evs,
    Some (s, cnt) = Some (s', cnt') /\ fpoll_ok s' N' L' /\ fpoll_step s s' evs
    /\ fp_limited s' = fp_limited s /\ cnt' = cnt + Z.of_nat (length evs)
    /\ cnt' <= num /\ (cnt' < num -> N' = []) /\ (evs = [] -> L' = L)
    /\ (forall i, i ∈ L 0%nat -> i ∈ L' 0%nat)
    /\ (no_stale (fqman (fp_vq s)) L -> no_stale (fqman (fp_vq s')) L')
    /\ (length N' + length (L' 0%nat) <= length N + length (L 0%nat))%nat).
  { intros Hor. exists s, cnt, N, L, []. split; [done|]. split; [done|].
    split; [by apply fpoll_step_same|]. split; [done|]. cbn.
    split; [lia|]. split; [done|]. split; [intros; destruct Hor; [lia|done]|].
    split; [done|]. split; [done|]. split; [done|]. lia. }
  destruct (Z.ltb_spec cnt num); [|apply Hdone; left; lia].
  destruct (Z.eqb_spec (nolimit_head_idx (fqman (fp_vq s))) IDXLIST_INVAL) as [Hh|Hh];
    cbn [andb negb]; [apply Hdone; right; by apply Hnil|].
  destruct N as [|x N]; [exfalso; by apply Hh, Hnil|].
  destruct (queue_rep_pop _ _ _ _ _ _ Hq) as (Hx & _). rewrite Hx.
  change (next_idxs (fqueues (fqman (fp_vq s)) !!! x) !!! 0%nat)
    with (fnext (fqman (fp_vq s)) 0 x).
  fold (pop_nolimit x (fnext (fqman (fp_vq s)) 0 x) s).
  destruct (pop_nolimit_ok s x N L Hok Hsr) as (Hb & Hst & Hlim & Hav & Hns1).
  set (s1 := pop_nolimit x _ s) in *. cbn [length] in Hf.
  pose proof (fpoll_step_sum_range _ _ _ Hst) as Hsr1.
  destruct (Z.ltb_spec 0 (fq_avail (fqueues (fqman (fp_vq s1)) !!! x))) as [Hp|Hp].
  - destruct (flow_queue_fire_ok s1 x N L Hb Hp)
      as (s2 & e & N2 & L2 & -> & Hok2 & Hst2 & Hlim2 & _ & HN2 & HL2 & Hlen2 & Hin2 & Hns2).
    cbn [mbind option_bind].
    pose proof (fpoll_step_sum_range _ _ _ Hst2) as Hsr2.
    assert (HlN : (length N2 <= S (length N))%nat).
    { destruct HN2 as [->| ->]; [lia|]. rewrite length_app. cbn. lia. }
    destruct (IH s2 (cnt + 1) N2 L2) as (s3 & cnt3 & N3 & L3 & evs & E & Hok3 & Hst3
      & Hlim3 & Hc3 & Hle3 & Hend3 & Hl3 & Hin3 & Hns3 & Hlen3); try done; try lia.
    exists s3, cnt3, N3, L3, ([] ++ [e] ++ evs). split; [done|]. split; [done|].
    split; [eapply fpoll_step_trans; [exact Hst|]; by eapply fpoll_step_trans|].
    split; [by rewrite Hlim3, Hlim2|]. cbn. split; [lia|]. split; [done|].
    split; [done|]. split; [done|]. split; [auto|]. split; [auto|]. lia.
  - destruct (IH s1 cnt N L) as (s3 & cnt3 & N3 & L3 & evs & E & Hok3 & Hst3
      & Hlim3 & Hc3 & Hle3 & Hend3 & Hl3 & Hin3 & Hns3 & Hlen3); try done; try lia.
    { by apply (fpoll_but_ok x). }
    exists s3, cnt3, N3, L3, ([] ++ evs). split; [done|]. split; [done|].
    split; [by eapply fpoll_step_trans|]. split; [by rewrite Hlim3|]. cbn.
    split; [done|]. split; [done|]. split; [done|]. split; [done|].
    split; [auto|]. split; [auto|]. lia.
Qed.

(** ** The skip list *)

(** Removing [x] where it is the head. *)
Definition drop_head (x : Z) (l : list Z) : list Z :=
  match l with y :: k => if y =? x then k else l | [] => [] end.

Lemma skip_unlink_spec n l x fm :
  (forall k, (l <= k)%nat -> (S k < l + n)%nat -> head_idx fm !!! (S k) = x ->
     head_idx fm !!! k = x) ->
  let fm' := skip_unlink n l x fm in
  fqueues fm' = fqueues fm /\ nolimit_head_idx fm' = nolimit_head_idx fm
  /\ nolimit_tail_idx fm' = nolimit_tail_idx fm
  /\ (forall k, head_idx fm' !!! k
        = if decide ((l <= k)%nat /\ (k < l + n)%nat /\ head_idx fm !!! k = x)
          then fnext fm k x else head_idx fm !!! k).
Proof.
  cbv zeta. revert l fm. induction n as [|n IH]; intros l fm Hc; cbn [skip_unlink].
  - split; [done|]. split; [done|]. split; [done|]. intros k.
    rewrite decide_False; [done|lia].
  - destruct (Z.eqb_spec (head_idx fm !!! l) x) as [Hx|Hx].
    + set (fm1 := fm <| head_idx ::= _ |>).
      assert (Hne : forall k, k <> l -> head_idx fm1 !!! k = head_idx fm !!! k)
        by (intros; subst fm1; cbn; by rewrite lookup_total_insert_ne).
      destruct (IH (S l) fm1) as (E1 & E2 & E3 & E4).
      { intros k H1 H2. rewrite !Hne by lia. apply Hc; lia. }
      split; [by rewrite E1|]. split; [by rewrite E2|]. split; [by rewrite E3|].
      intros k. rewrite E4. destruct (decide (k = l)) as [->|Hk].
      * rewrite decide_False by lia. rewrite decide_True by (repeat split; (lia || done)).
        subst fm1. cbn. by rewrite lookup_total_insert_eq.
      * rewrite Hne by done. change (fnext fm1 k x) with (fnext fm k x).
        destruct (decide (_ /\ _ /\ _)) as [?|Hd1], (decide (_ /\ _ /\ _)) as [?|Hd2]; try done.
        -- exfalso. apply Hd2. split; [lia|split; [lia|tauto]].
        -- exfalso. apply Hd1. split; [lia|split; [lia|tauto]].
    + split; [done|]. split; [done|]. split; [done|]. intros k.
      rewrite decide_False; [done|]. intros (H1 & H2 & H3). apply Hx.
      clear IH. induction H1 as [|k H1 IH]; [done|]. apply IH; [lia|].
      apply Hc; [lia|lia|done].
Qed.

Lemma path_drop_head nxt h l e x :
  path nxt h l e -> x <> e ->
  path nxt (if decide (h = x) then nxt x else h) (drop_head x l) e.
Proof.
  destruct l as [|y l]; cbn.
  - intros -> Hx. by rewrite decide_False by congruence.
  - intros [-> Hp] Hx. destruct (Z.eqb_spec y x) as [->|].
    + by rewrite decide_True.
    + by rewrite decide_False.
Qed.

(** Sublists of a duplicate-free list that starts with [x] contain [x] only as
    their head. *)
Lemma sublist_head (x : Z) l k :
  l `sublist_of` (x :: k) -> NoDup (x :: k) -> x ∈ l -> exists l', l = x :: l'.
Proof.
  intros Hs Hnd Hx. apply NoDup_cons in Hnd as [Hxk _].
  apply sublist_cons_r in Hs as [Hs|(l' & -> & _)]; [|by eauto].
  exfalso. apply Hxk. by eapply elem_of_sublist.
Qed.

Lemma drop_head_elem (x : Z) l k i :
  l `sublist_of` (x :: k) -> NoDup (x :: k) ->
  (i ∈ drop_head x l <-> i ∈ l /\ i <> x).
Proof.
  intros Hs Hnd. destruct (decide (x ∈ l)) as [Hin|Hin].
  - destruct (sublist_head x l k Hs Hnd Hin) as [l' ->]. cbn. rewrite Z.eqb_refl.
    assert (Hnl : x ∉ l').
    { assert (NoDup (x :: l')) as Hn by by eapply sublist_NoDup.
      by apply NoDup_cons in Hn as [? _]. }
    rewrite elem_of_cons. split; [|intros [[|] ?]; congruence].
    intros Hi. split; [by right|]. by intros ->.
  - assert (drop_head x l = l) as ->.
    { destruct l as [|y l]; [done|]. cbn. rewrite (proj2 (Z.eqb_neq y x)); [done|].
      intros ->. apply Hin, list_elem_of_here. }
    split; [|tauto]. intros Hi. split; [done|]. by intros ->.
Qed.

Lemma drop_head_sublist (x : Z) l1 l2 k :
  l1 `sublist_of` l2 -> l2 `sublist_of` (x :: k) -> NoDup (x :: k) ->
  drop_head x l1 `sublist_of` drop_head x l2.
Proof.
  intros H1 H2 Hnd. destruct l2 as [|y l2]; cbn.
  { apply sublist_nil_r in H1 as ->. done. }
  destruct (Z.eqb_spec y x) as [->|Hy].
  - assert (Hnl : x ∉ l2).
    { assert (NoDup (x :: l2)) as Hn by by eapply sublist_NoDup.
      by apply NoDup_cons in Hn as [? _]. }
    apply sublist_cons_r in H1 as [H1|(l' & -> & H1)]; cbn.
    + destruct l1 as [|z l1]; [done|]. cbn.
      destruct (Z.eqb_spec z x) as [->|]; [|done].
      exfalso. apply Hnl. eapply elem_of_sublist; [apply list_elem_of_here|done].
    + by rewrite Z.eqb_refl.
  - etransitivity; [|exact H1].
    destruct l1 as [|z l1]; [done|]. cbn. destruct (z =? x); [|done].
    by apply sublist_cons.
Qed.

(** Taking the head [x] off the skip list. *)
Definition pop_skip (x : Z) (fm : flow_qman) : flow_qman :=
  upd_fq x (fun q => q <| fq_flags := Z.land (fq_flags q) (Z.lnot FLAG_INSKIPLIST) |>)
    (skip_unlink QMAN_SKIPLIST_LEVELS 0 x fm).

Lemma pop_skip_rep fm N L x k :
  flow_rep fm N L -> L 0%nat = x :: k ->
  let fm' := pop_skip x fm in
  flow_rep fm' N (fun l => drop_head x (L l))
  /\ (forall i, cell_data (fqueues fm' !!! i) = cell_data (fqueues fm !!! i))
  /\ (forall i, is_Some (fqueues fm' !! i) <-> is_Some (fqueues fm !! i)).
Proof.
  intros Hr HL. cbv zeta. pose proof Hr as [R1 R2 R3 R4 R5 R6 R7 R8].
  assert (Hsub : forall l, (l < 4)%nat -> L l `sublist_of` (x :: k))
    by (intros l Hl; rewrite <- HL; by eapply fr_nest0).
  rewrite HL in R3. assert (Hxi : x <> INVAL).
  { intros ->. apply R4. rewrite HL. apply list_elem_of_here. }
  destruct (skip_unlink_spec QMAN_SKIPLIST_LEVELS 0 x fm) as (U1 & U2 & U3 & U4).
  { intros l _ Hl Hx. unfold QMAN_SKIPLIST_LEVELS in Hl.
    assert (Hin : x ∈ L (S l)).
    { pose proof (R2 (S l) ltac:(lia)) as Hp. rewrite Hx in Hp.
      destruct (L (S l)) as [|y l']; [by destruct Hxi|]. destruct Hp as [-> _].
      apply list_elem_of_here. }
    assert (Hin' : x ∈ L l) by (eapply elem_of_sublist; [exact Hin|apply R5; lia]).
    destruct (sublist_head x (L l) k (Hsub l ltac:(lia)) R3 Hin') as [l' El].
    pose proof (R2 l ltac:(lia)) as Hp. rewrite El in Hp. by destruct Hp. }
  set (fm1 := skip_unlink _ _ _ _) in *. unfold pop_skip. fold fm1.
  set (fm2 := upd_fq x _ fm1).
  assert (Hn : forall l j, fnext fm2 l j = fnext fm l j).
  { intros l j. subst fm2. rewrite fnext_upd_keep by done. unfold fnext. by rewrite U1. }
  assert (Hxv : is_Some (fqueues fm !! x)).
  { apply R8. right. rewrite HL. apply list_elem_of_here. }
  assert (Hdom : forall i, is_Some (fqueues fm2 !! i) <-> is_Some (fqueues fm !! i)).
  { intros i. subst fm2. rewrite upd_fq_dom, U1. split; [intros [->|]; done|auto]. }
  assert (Hel : forall i, i ∈ drop_head x (L 0%nat) <-> i ∈ L 0%nat /\ i <> x)
    by (intros i; rewrite HL; by apply drop_head_elem with k).
  split; [|split; [|exact Hdom]].
  - constructor.
    + change (nolimit_head_idx fm2) with (nolimit_head_idx fm1).
      change (nolimit_tail_idx fm2) with (nolimit_tail_idx fm1).
      rewrite U2, U3. eapply queue_rep_ext; [intros y _; apply Hn|done].
    + intros l Hl. change (head_idx fm2) with (head_idx fm1).
      eapply path_ext; [intros y _; apply Hn|]. rewrite U4.
      pose proof (path_drop_head _ _ _ _ x (R2 l Hl) Hxi) as Hp.
      destruct (decide (head_idx fm !!! l = x)) as [Hd|Hd].
      * rewrite decide_True; [done|]. unfold QMAN_SKIPLIST_LEVELS. repeat split; (lia || done).
      * rewrite decide_False; [done|]. tauto.
    + rewrite HL. cbn. rewrite Z.eqb_refl.
      by apply NoDup_cons in R3 as [_ ?].
    + rewrite Hel. tauto.
    + intros l Hl. apply (drop_head_sublist x _ _ k); [by apply R5|apply Hsub; lia|done].
    + apply (flow_rep_pop_flags N N L (fun l => drop_head x (L l)) x
               (fun i => fq_flags (fqueues fm !!! i))); [exact R6| | |exact Hel].
      * intros i. subst fm2. destruct (decide (i = x)) as [->|].
        -- rewrite upd_fq_eq, U1. cbn. rewrite R6.
           rewrite decide_False, decide_True; [done| |].
           ++ rewrite HL. apply list_elem_of_here.
           ++ intros HN. apply (R7 x HN). rewrite HL. apply list_elem_of_here.
        -- by rewrite upd_fq_ne, U1 by congruence.
      * intros i. split; [|tauto]. intros Hi. split; [done|]. intros ->.
        apply (R7 x Hi). rewrite HL. apply list_elem_of_here.
    + intros i Hi. rewrite Hel. intros [? _]. by apply (R7 i).
    + intros i. rewrite Hel, Hdom. intros [?|[? _]]; apply R8; auto.
  - intros i. subst fm2. destruct (decide (x = i)) as [->|];
      [by rewrite upd_fq_eq, U1|by rewrite upd_fq_ne, U1].
Qed.

(** The head is taken off and the virtual time advances to its stamp. *)
Definition pop_skip_st (x : Z) (s : fpoll) : fpoll :=
  set_fqman (pop_skip x) s
    <| fp_vq ::= fun vq => vq <| ts_virtual := next_ts (fqueues (fqman (fp_vq s)) !!! x) |> |>.

Lemma pop_skip_ok s x k N L :
  fpoll_ok s N L -> L 0%nat = x :: k -> - 2147483648 <= fp_sum s < 2147483648 ->
  let s' := pop_skip_st x s in
  fpoll_but x s' N (fun l => drop_head x (L l)) /\ fpoll_step s s' []
  /\ fq_avail (fqueues (fqman (fp_vq s')) !!! x)
     = fq_avail (fqueues (fqman (fp_vq s)) !!! x)
  /\ (no_stale (fqman (fp_vq s)) L ->
      no_stale (fqman (fp_vq s')) (fun l => drop_head x (L l))).
Proof.
  intros [[Hr Hc Ha Hg] Ht] HL Hsum. cbv zeta.
  destruct (pop_skip_rep _ _ _ _ _ Hr HL) as (Hr' & Hd & Hdom).
  set (s' := pop_skip_st x s).
  change (pop_skip x (fqman (fp_vq s))) with (fqman (fp_vq s')) in Hr', Hd, Hdom.
  pose proof (fr_nodup _ _ _ Hr) as Hnd. rewrite HL in Hnd.
  assert (Hel : forall i, i ∈ drop_head x (L 0%nat) <-> i ∈ L 0%nat /\ i <> x).
  { intros i. rewrite HL. by apply drop_head_elem with k. }
  split; [|split].
  - constructor; try done.
    + intros i. eapply fq_ok_data; [apply Hd|apply Hc].
    + intros i Hi Hp. rewrite (cell_data_avail _ _ (Hd i)) in Hp.
      unfold listed. rewrite Hel. apply Ha in Hp. unfold listed in Hp. tauto.
    + intros i Hi. apply Hg. by apply Hdom.
    + unfold listed. rewrite Hel. split.
      * intros [HN|[_ ?]]; [|done]. apply (fr_disj _ _ _ Hr x HN). rewrite HL.
        apply list_elem_of_here.
      * apply Hg, (fr_dom _ _ _ Hr). right. rewrite HL. apply list_elem_of_here.
    + cbn. apply Hc.
  - apply fpoll_step_same; try done.
    apply flow_sum_data. intros i. apply cell_data_avail, Hd.
  - split; [apply cell_data_avail, Hd|]. intros Hn i Hi. apply Hel in Hi as [Hi _].
    rewrite (cell_data_avail _ _ (Hd i)). by apply Hn.
Qed.

Lemma skip_loop_ok fuel s max_vts num cnt N L :
  fpoll_ok s N L -> - 2147483648 <= fp_sum s < 2147483648 -> cnt <= num ->
  is_u32 max_vts -> num - cnt + Z.of_nat (length (L 0%nat)) < Z.of_nat fuel ->
  exists s' cnt' N' L' evs, skip_loop fuel s max_vts num cnt = Some (s', cnt')
  /\ fpoll_ok s' N' L' /\ fpoll_step s s' evs
  /\ cnt' = cnt + Z.of_nat (length evs) /\ cnt' <= num
  /\ (fp_limited s' = true -> fp_limited s = true \/ L' 0%nat <> [])
  /\ (cnt' < num -> fp_limited s' = true \/ L' 0%nat = []) /\ (evs = [] -> N' = N)
  /\ (no_stale (fqman (fp_vq s)) L -> no_stale (fqman (fp_vq s')) L')
  /\ (length N' + length (L' 0%nat) <= length N + length (L 0%nat))%nat.
Proof.
  revert s cnt N L. induction fuel as [|fuel IH]; intros s cnt N L Hok Hsr Hcnt Hvts Hf; [lia|].
  cbn [skip_loop]. cbv zeta.
  pose proof (fk_rep _ _ _ (pk_flows _ _ _ Hok)) as Hr.
  assert (Hdone : forall s', (s' = s \/ exists b,
      s' = s <| fp_vq ::= fun vq => vq <| ts_virtual := max_vts |> |> <| fp_limited := b |>
      /\ (b = true -> fp_limited s = true \/ L 0%nat <> [])) ->
    (cnt < num -> fp_limited s' = true \/ L 0%nat = []) ->
    exists s'' cnt' N' L' evs, Some (s', cnt) = Some (s'', cnt')
    /\ fpoll_ok s'' N' L' /\ fpoll_step s s'' evs
    /\ cnt' = cnt + Z.of_nat (length evs) /\ cnt' <= num
    /\ (fp_limited s'' = true -> fp_limited s = true \/ L' 0%nat <> [])
    /\ (cnt' < num -> fp_limited s'' = true \/ L' 0%nat = []) /\ (evs = [] -> N' = N)
    /\ (no_stale (fqman (fp_vq s)) L -> no_stale (fqman (fp_vq s'')) L')
    /\ (length N' + length (L' 0%nat) <= length N + length (L 0%nat))%nat).
  { intros s' Hs' Hend. exists s', cnt, N, L, []. split; [done|].
    split; [|split; [|split; [cbn; lia|split; [done|split; [|split; [done|split; [done|split; [|lia]]]]]]]].
    - destruct Hs' as [->|(b & -> & _)]; [done|]. destruct Hok as [[] ?].
      by constructor; [constructor|].
    - destruct Hs' as [->|(b & -> & _)]; by apply fpoll_step_same.
    - destruct Hs' as [->|(b & -> & Hb)]; [by left|exact Hb].
    - by destruct Hs' as [->|(b & -> & _)]. }
  destruct (Z.ltb_spec cnt num); [|apply Hdone; [by left|lia]].
  pose proof (fr_level _ _ _ Hr 0%nat ltac:(lia)) as Hp.
  destruct (Z.eqb_spec (head_idx (fqman (fp_vq s)) !!! 0%nat) INVAL) as [Hh|Hh].
  { apply Hdone; [right; exists (fp_limited s); split; [clear; by destruct s|by left]|].
    intros _. right. eapply path_nil_inv; [apply Hr|exact Hp|done]. }
  destruct (L 0%nat) as [|x k] eqn:EL; [by destruct Hh|]. destruct Hp as [Hx _]. rewrite Hx.
  set (q := fqueues (fqman (fp_vq s)) !!! x).
  destruct (timestamp_lessthaneq _ _ _) eqn:Ele; cbn [negb].
  2: { apply Hdone; [right; exists true; split; [done|by right]|]. intros _. by left. }
  assert (Hfl : fq_flags q = FLAG_INSKIPLIST).
  { subst q. rewrite (fr_flags _ _ _ Hr). rewrite decide_False, decide_True; [done| |].
    - rewrite EL. apply list_elem_of_here.
    - intros HN. apply (fr_disj _ _ _ Hr x HN). rewrite EL. apply list_elem_of_here. }
  rewrite Hfl. cbn [cassert mbind option_bind negb Z.land Z.eqb].
  match goal with |- context [if 0 <? fq_avail q then ?A else ?B] =>
    change (if 0 <? fq_avail q then A else B) with
      (if 0 <? fq_avail q then
         s ← flow_queue_fire (pop_skip_st x s) x; skip_loop fuel s max_vts num (cnt + 1)
       else skip_loop fuel (pop_skip_st x s) max_vts num cnt) end.
  destruct (pop_skip_ok s x k N L Hok EL Hsr) as (Hb & Hst & Hav & Hns1).
  set (s1 := pop_skip_st x s) in *. fold q in Hav. rewrite <- Hav.
  pose proof (fpoll_step_sum_range _ _ _ Hst) as Hsr1.
  assert (Hlk : length (drop_head x (L 0%nat)) = length k).
  { rewrite EL. cbn. by rewrite Z.eqb_refl. }
  cbn [length] in Hf |- *.
  destruct (Z.ltb_spec 0 (fq_avail (fqueues (fqman (fp_vq s1)) !!! x))) as [Hp|Hp].
  - destruct (flow_queue_fire_ok s1 x N _ Hb Hp)
      as (s2 & e & N2 & L2 & -> & Hok2 & Hst2 & Hlim2 & _ & HN2 & HL2 & Hlen2 & _ & Hns2).
    cbn [mbind option_bind]. rewrite Hlk in HL2, Hlen2.
    pose proof (fpoll_step_sum_range _ _ _ Hst2) as Hsr2.
    destruct (IH s2 (cnt + 1) N2 L2) as (s3 & cnt3 & N3 & L3 & evs & E & Hok3 & Hst3
      & Hc3 & Hle3 & Hlm3 & Hend3 & Hl3 & Hns3 & Hlen3); try done; try lia.
    exists s3, cnt3, N3, L3, ([] ++ [e] ++ evs). split; [done|]. split; [done|].
    split; [eapply fpoll_step_trans; [exact Hst|]; by eapply fpoll_step_trans|].
    cbn. split; [lia|]. split; [done|]. split; [rewrite Hlim2 in Hlm3; exact Hlm3|].
    split; [done|]. split; [done|]. split; [auto|]. lia.
  - destruct (IH s1 cnt N (fun l => drop_head x (L l)))
      as (s3 & cnt3 & N3 & L3 & evs & E & Hok3 & Hst3
      & Hc3 & Hle3 & Hlm3 & Hend3 & Hl3 & Hns3 & Hlen3); try done; try lia.
    { by apply (fpoll_but_ok x). }
    exists s3, cnt3, N3, L3, ([] ++ evs). split; [done|]. split; [done|].
    split; [by eapply fpoll_step_trans|]. cbn. split; [done|]. split; [done|].
    split; [exact Hlm3|]. split; [done|]. split; [done|]. split; [auto|]. lia.
Qed.

(** ** Polling the flows of a VM *)

Lemma fpoll_step_vq s s' vq evs :
  fpoll_step s s' evs -> fqman vq = fqman (fp_vq s') -> vq_id vq = vq_id (fp_vq s') ->
  vq_avail vq = vq_avail (fp_vq s') -> vq_flags vq = vq_flags (fp_vq s') ->
  vq_next_idx vq = vq_next_idx (fp_vq s') -> fpoll_step s (s' <| fp_vq := vq |>) evs.
Proof.
  intros [O S F Ev (I & A & G & X)] E1 E2 E3 E4 E5. constructor; cbn; try done.
  - by rewrite E1.
  - by rewrite E2, E3, E4, E5.
Qed.

Lemma flow_poll_skiplist_ok fuel s cur_ts orig_num num N L :
  fpoll_ok s N L -> - 2147483648 <= fp_sum s < 2147483648 -> 0 <= num ->
  num + Z.of_nat (length (L 0%nat)) < Z.of_nat fuel ->
  exists s' cnt N' L' evs, flow_poll_skiplist fuel s cur_ts orig_num num = Some (s', cnt)
  /\ fpoll_ok s' N' L' /\ fpoll_step s s' evs
  /\ cnt = Z.of_nat (length evs) /\ cnt <= num
  /\ (fp_limited s' = true -> fp_limited s = true \/ L' 0%nat <> [])
  /\ (cnt < num -> fp_limited s' = true \/ L' 0%nat = []) /\ (evs = [] -> N' = N)
  /\ (no_stale (fqman (fp_vq s)) L -> no_stale (fqman (fp_vq s')) L')
  /\ (length N' + length (L' 0%nat) <= length N + length (L 0%nat))%nat.
Proof.
  intros Hok Hsr Hnum Hf. unfold flow_poll_skiplist. cbv zeta.
  set (max_vts := u32 _).
  assert (Hvts : is_u32 max_vts) by apply u32_range.
  destruct (skip_loop_ok fuel s max_vts num 0 N L)
    as (s' & cnt & N' & L' & evs & -> & Hok' & Hst & Hc & Hle & Hlm & Hend & Hl & Hns & Hlen);
    try done; try lia.
  cbn [mbind option_bind].
  set (vq := if cnt =? orig_num then _ else _).
  assert (Hvq : fqman vq = fqman (fp_vq s') /\ vq_id vq = vq_id (fp_vq s')
    /\ vq_avail vq = vq_avail (fp_vq s') /\ vq_flags vq = vq_flags (fp_vq s')
    /\ vq_next_idx vq = vq_next_idx (fp_vq s') /\ is_u32 (ts_virtual vq)).
  { subst vq. destruct Hok' as [[Hr Hcl _ _] Ht].
    destruct (cnt =? orig_num); [|done]. destruct (_ && _); [|done].
    do 5 (split; [done|]). cbn. apply Hcl. }
  destruct Hvq as (V1 & V2 & V3 & V4 & V5 & V6). clearbody vq.
  eexists _, cnt, N', L', evs. split; [reflexivity|]. split; [|split].
  - destruct Hok'. constructor; cbn; [by rewrite V1|done].
  - by apply fpoll_step_vq.
  - split; [lia|]. split; [done|]. split; [done|]. split; [done|]. split; [done|].
    split; [|done]. intros Hn i Hi. cbn. rewrite V1. by apply Hns.
Qed.

Lemma fpoll_ok_first s N L b :
  fpoll_ok s N L -> fpoll_ok (set_fqman (fun fm => fm <| nolimit_first := b fm |>) s) N L.
Proof.
  intros [[[] ? ? ?] ?]. constructor; [constructor; [constructor|..]|]; done.
Qed.

(** Everything a poll of the flows of a VM guarantees. *)
Lemma flow_qman_poll_ok fuel s cur_ts orig_num num N L :
  fpoll_ok s N L -> - 2147483648 <= fp_sum s < 2147483648 -> 0 <= num ->
  fp_limited s = false ->
  num + Z.of_nat (length N + length (L 0%nat)) < Z.of_nat fuel ->
  exists s' cnt N' L' evs, flow_qman_poll fuel s cur_ts orig_num num = Some (s', cnt)
  /\ fpoll_ok s' N' L' /\ fpoll_step s s' evs
  /\ cnt = Z.of_nat (length evs) /\ cnt <= num
  /\ (evs = [] -> 0 < num -> fp_limited s' = false ->
        forall i, fq_avail (fqueues (fqman (fp_vq s')) !!! i) <= 0)
  /\ (fp_limited s' = true -> L' 0%nat <> [])
  /\ (no_stale (fqman (fp_vq s)) L -> no_stale (fqman (fp_vq s')) L')
  /\ (length N' + length (L' 0%nat) <= length N + length (L 0%nat))%nat.
Proof.
  intros Hok Hsr Hnum Hlim Hf. unfold flow_qman_poll.
  assert (Hfin : forall s1 N1 (L1 : nat -> list Z) e1, fpoll_ok s1 N1 L1 -> fpoll_step s s1 e1 ->
    (e1 = [] -> 0 < num -> fp_limited s1 = false -> N1 = [] /\ L1 0%nat = []) ->
    let s' := set_fqman (fun fm => fm <| nolimit_first := negb (nolimit_first fm) |>) s1 in
    fpoll_ok s' N1 L1 /\ fpoll_step s s' e1
    /\ (e1 = [] -> 0 < num -> fp_limited s' = false ->
        forall i, fq_avail (fqueues (fqman (fp_vq s')) !!! i) <= 0)).
  { intros s1 N1 L1 e1 H1 H2 H3. cbv zeta. split; [by apply fpoll_ok_first|]. split.
    - destruct H2. by constructor.
    - intros E1 E2 E3 i. destruct (H3 E1 E2 E3) as [HN HL].
      destruct (Z.leb_spec (fq_avail (fqueues (fqman (fp_vq s1)) !!! i)) 0); [done|].
      pose proof (fk_active _ _ _ (pk_flows _ _ _ H1) i ltac:(lia)) as [Hi|Hi].
      + rewrite HN in Hi. by apply not_elem_of_nil in Hi.
      + rewrite HL in Hi. by apply not_elem_of_nil in Hi. }
  destruct (nolimit_first _).
  - destruct (flow_poll_nolimit_ok fuel s num 0 N L) as (s1 & c1 & N1 & L1 & e1 & -> & Hok1
      & Hst1 & Hlim1 & Hc1 & Hle1 & Hend1 & Hl1 & Hin1 & Hns1 & Hlen1); try done; try lia.
    cbn [mbind option_bind]. pose proof (fpoll_step_sum_range _ _ _ Hst1) as Hsr1.
    destruct (flow_poll_skiplist_ok fuel s1 cur_ts orig_num (num - c1) N1 L1)
      as (s2 & c2 & N2 & L2 & e2 & -> & Hok2 & Hst2 & Hc2 & Hle2 & Hlm2 & Hend2 & Hl2 & Hns2 & Hlen2);
      try done; try lia.
    cbn [mbind option_bind].
    destruct (Hfin s2 N2 L2 (e1 ++ e2)) as (F1 & F2 & F3); [done|by eapply fpoll_step_trans| |].
    { intros E Hn Hl. apply app_eq_nil in E as [-> ->]. cbn in Hc1, Hc2.
      rewrite (Hl2 eq_refl). split; [apply Hend1; lia|].
      destruct Hend2 as [|]; [lia|congruence|done]. }
    eexists _, (c1 + c2), N2, L2, (e1 ++ e2). split; [reflexivity|].
    split; [done|]. split; [done|]. rewrite length_app.
    split; [lia|]. split; [lia|]. split; [done|]. split.
    { intros Hl. destruct Hlm2 as [|]; [done|congruence|done]. }
    split; [|lia]. intros Hn. apply Hns2, Hns1, Hn.
  - destruct (flow_poll_skiplist_ok fuel s cur_ts orig_num num N L)
      as (s2 & c2 & N2 & L2 & e2 & -> & Hok2 & Hst2 & Hc2 & Hle2 & Hlm2 & Hend2 & Hl2 & Hns2 & Hlen2);
      try done; try lia.
    cbn [mbind option_bind]. pose proof (fpoll_step_sum_range _ _ _ Hst2) as Hsr2.
    destruct (flow_poll_nolimit_ok fuel s2 (num - c2) 0 N2 L2)
      as (s1 & c1 & N1 & L1 & e1 & -> & Hok1 & Hst1 & Hlim1 & Hc1 & Hle1 & Hend1 & Hl1 & Hin1 & Hns1 & Hlen1);
      try done; try lia.
    cbn [mbind option_bind].
    destruct (Hfin s1 N1 L1 (e2 ++ e1)) as (F1 & F2 & F3); [done|by eapply fpoll_step_trans| |].
    { intros E Hn Hl. apply app_eq_nil in E as [-> ->]. cbn in Hc1, Hc2.
      rewrite (Hl1 eq_refl). split; [apply Hend1; lia|].
      rewrite Hlim1 in Hl. destruct Hend2 as [|]; [lia|congruence|done]. }
    eexists _, (c2 + c1), N1, L1, (e2 ++ e1). split; [reflexivity|].
    split; [done|]. split; [done|]. rewrite length_app.
    split; [lia|]. split; [lia|]. split; [done|]. split.
    { intros Hl HL1. cbn in Hl. rewrite Hlim1 in Hl.
      destruct Hlm2 as [|HL2]; [done|congruence|].
      destruct (L2 0%nat) as [|y l] eqn:EL2; [done|].
      apply (not_elem_of_nil y). rewrite <- HL1. apply Hin1, list_elem_of_here. }
    split; [|lia]. intros Hn. apply Hns1, Hns2, Hn.
Qed.

(** The lists of a container hold at most all its queues. *)
Lemma flow_lists_bound fm N L :
  flow_qman_ok fm N L ->
  Z.of_nat (length N + length (L 0%nat)) <= FLEXNIC_NUM_QMFLOWQUEUES.
Proof.
  intros [Hr _ _ Hg].
  assert (Hnd : NoDup (N ++ L 0%nat)).
  { apply NoDup_app. split; [apply Hr|]. split; [|apply Hr]. apply Hr. }
  assert (Hsub : (N ++ L 0%nat) ⊆ seqZ 0 FLEXNIC_NUM_QMFLOWQUEUES).
  { intros i Hi. apply elem_of_seqZ. rewrite Z.add_0_l. apply Hg, (fr_dom _ _ _ Hr).
    by apply elem_of_app. }
  pose proof (submseteq_length _ _ (NoDup_submseteq _ _ Hnd Hsub)) as Hle.
  rewrite length_app, length_seqZ in Hle. unfold FLEXNIC_NUM_QMFLOWQUEUES in *. lia.
Qed.

(** ** Polling the VMs *)

Lemma flow_sum_nonneg fm :
  (forall i, 0 <= fq_avail (fqueues fm !!! i)) ->
  0 <= flow_sum fm /\ (flow_sum fm = 0 -> forall i, fq_avail (fqueues fm !!! i) = 0).
Proof.
  unfold flow_sum. generalize (fqueues fm). clear fm. intros m.
  induction m as [|i q m Hi IH] using map_ind; intros Hp.
  - rewrite map_fold_empty. split; [lia|]. done.
  - assert (Hq : 0 <= fq_avail q).
    { specialize (Hp i). by rewrite lookup_total_insert_eq in Hp. }
    destruct IH as [IH1 IH2].
    { intros j. destruct (decide (i = j)) as [->|].
      - by rewrite lookup_total_alt, Hi.
      - specialize (Hp j). by rewrite lookup_total_insert_ne in Hp. }
    rewrite map_sum_insert. rewrite lookup_total_alt, Hi. cbn.
    split; [lia|]. intros Hz j. destruct (decide (i = j)) as [->|].
    + rewrite lookup_total_insert_eq. lia.
    + rewrite lookup_total_insert_ne by done. apply IH2. lia.
Qed.

Lemma flow_qman_sum_nonneg fm N L :
  flow_qman_ok fm N L -> 0 <= flow_sum fm
  /\ (flow_sum fm = 0 -> forall i, fq_avail (fqueues fm !!! i) = 0).
Proof.
  intros Hk. apply flow_sum_nonneg. intros i.
  destruct (fk_cells _ _ _ Hk i) as [_ _ Ha _]. unfold is_u32 in Ha. lia.
Qed.

(** The bytes available in each VM fit the 32-bit total. *)
Definition vm_bounded (vm : vm_qman) : Prop :=
  forall i, 0 <= i < FLEXNIC_PL_VMST_NUM ->
    flow_sum (fqman (vqueues vm !!! i)) < 4294967296.

Definition vev_ok (e : qm_ev) : Prop :=
  0 <= ev_vm e < FLEXNIC_PL_VMST_NUM /\ ev_ok (ev_vm e) e.

(** VM [x] after its flows were polled and [n] bytes were taken off them. *)
Record vq_polled (vq : vm_queue) (n : Z) : Prop := mk_vq_polled {
  vp_flows : exists N L, flow_qman_ok (fqman vq) N L;
  vp_tsv : is_u32 (ts_virtual vq);
  vp_bound : flow_sum (fqman vq) + n < 4294967296;
  vp_avail : vq_avail vq = flow_sum (fqman vq) + n }.

Lemma vq_ok_avail vq :
  vq_ok vq -> flow_sum (fqman vq) < 4294967296 -> vq_avail vq = flow_sum (fqman vq).
Proof.
  intros [(N & L & Hk) _ ->] Hb. destruct (flow_qman_sum_nonneg _ _ _ Hk) as [? _].
  apply u32_id. unfold is_u32. lia.
Qed.

Lemma ev_sum_bound vm evs : Forall (ev_ok vm) evs ->
  0 <= ev_sum evs <= 65535 * Z.of_nat (length evs).
Proof.
  intros Hf. induction Hf as [|e evs He _ IH]; [done|].
  change (ev_sum (e :: evs)) with (ev_bytes e + ev_sum evs). rewrite length_cons.
  destruct He as (_ & _ & Hb). unfold is_u16 in Hb. lia.
Qed.

(** No queue without work is left in the skip list. *)
Definition fresh (fm : flow_qman) : Prop :=
  forall i, fq_flags (fqueues fm !!! i) = FLAG_INSKIPLIST ->
    0 < fq_avail (fqueues fm !!! i).

Lemma fresh_no_stale fm N L : flow_rep fm N L -> (fresh fm <-> no_stale fm L).
Proof.
  intros Hr. split; intros Hf i Hi; apply Hf.
  - rewrite (fr_flags _ _ _ Hr), decide_False, decide_True; [done|done|].
    intros HN. by apply (fr_disj _ _ _ Hr i).
  - rewrite (fr_flags _ _ _ Hr) in Hi. destruct (decide (i ∈ N)); [done|].
    by destruct (decide (i ∈ L 0%nat)).
Qed.

(** Bytes the events report for VM [i]. *)
Definition vm_bytes (i : Z) (evs : list qm_ev) : Z :=
  foldr (fun e s => (if ev_vm e =? i then ev_bytes e else 0) + s) 0 evs.

Lemma vm_bytes_app i a b : vm_bytes i (a ++ b) = vm_bytes i a + vm_bytes i b.
Proof. unfold vm_bytes. induction a as [|e a IH]; cbn in *; lia. Qed.

Lemma vm_bytes_one x evs : Forall (ev_ok x) evs ->
  forall i, vm_bytes i evs = if decide (i = x) then ev_sum evs else 0.
Proof.
  intros Hf i. unfold vm_bytes, ev_sum.
  induction Hf as [|e evs (_ & He & _) _ IH]; cbn; [by destruct (decide _)|].
  rewrite IH, He. destruct (Z.eqb_spec x i), (decide (i = x)); congruence || lia.
Qed.

(** The bytes the events report are taken off the flows of their VMs. *)
Definition taken (evs : list qm_ev) (vm vm' : vm_qman) : Prop :=
  forall i, 0 <= i < FLEXNIC_PL_VMST_NUM ->
    flow_sum (fqman (vqueues vm !!! i))
    = flow_sum (fqman (vqueues vm' !!! i)) + vm_bytes i evs.

Lemma taken_same vm vm' :
  (forall i, fqman (vqueues vm' !!! i) = fqman (vqueues vm !!! i)) -> taken [] vm vm'.
Proof. intros Hs i _. rewrite Hs. cbn. lia. Qed.

Lemma taken_trans a b vm1 vm2 vm3 :
  taken a vm1 vm2 -> taken b vm2 vm3 -> taken (a ++ b) vm1 vm3.
Proof. intros H1 H2 i Hi. rewrite H1, H2, vm_bytes_app by done. lia. Qed.

(** One poll of the flows of VM [x], which is off the list. *)
Lemma poll_flows_ok ffuel s x cur_ts num O V :
  vm_ok_but O x (vqman (vp_t s)) V -> 0 <= x < FLEXNIC_PL_VMST_NUM -> x ∉ V ->
  vq_ok (vqueues (vqman (vp_t s)) !!! x) ->
  vq_id (vqueues (vqman (vp_t s)) !!! x) = x ->
  flow_sum (fqman (vqueues (vqman (vp_t s)) !!! x)) < 4294967296 ->
  fresh (fqman (vqueues (vqman (vp_t s)) !!! x)) ->
  0 <= num <= 32767 -> num + FLEXNIC_NUM_QMFLOWQUEUES < Z.of_nat ffuel ->
  exists s' n limited evs, poll_flows ffuel s x cur_ts num
      = Some (s', Z.of_nat (length evs), n, limited)
  /\ vm_ok_but O x (vqman (vp_t s')) V
  /\ vq_polled (vqueues (vqman (vp_t s')) !!! x) n /\ 0 <= n
  /\ vq_id (vqueues (vqman (vp_t s')) !!! x) = x
  /\ (forall i, i <> x -> vqueues (vqman (vp_t s')) !!! i = vqueues (vqman (vp_t s)) !!! i)
  /\ vp_out s' = vp_out s ++ evs /\ Forall vev_ok evs
  /\ taken evs (vqman (vp_t s)) (vqman (vp_t s'))
  /\ Z.of_nat (length evs) <= num
  /\ (evs = [] -> n = 0
      /\ (0 < num -> limited = false -> vq_avail (vqueues (vqman (vp_t s')) !!! x) = 0))
  /\ vp_oob s' = vp_oob s
  /\ fresh (fqman (vqueues (vqman (vp_t s')) !!! x))
  /\ (limited = true -> 0 < flow_sum (fqman (vqueues (vqman (vp_t s')) !!! x))).
Proof.
  intros Hb Hx HxV [(N & L & Hk) Htsv Hsum] Hid Hbd Hfr Hnum Hfuel. unfold poll_flows.
  set (vq := vqueues (vqman (vp_t s)) !!! x) in *.
  set (f := mk_fpoll _ vq false _ 0).
  pose proof (flow_lists_bound _ _ _ Hk) as Hlen.
  destruct (flow_qman_poll_ok ffuel f cur_ts (vp_orig s) num N L)
    as (f' & cnt & N' & L' & evs & -> & Hok' & Hst & Hc & Hle & Hend & Hlim & Hns & _);
    try done; try lia.
  cbn [mbind option_bind].
  destruct Hst as [So Ss Sf Se (Si & Sa & Sg & Sx)]. cbn in So, Ss, Sf, Se, Si, Sa, Sg, Sx.
  fold vq in So, Ss, Sf, Se, Si, Sa, Sg, Sx.
  pose proof (ev_sum_bound _ _ Se) as Hes.
  rewrite Z.add_0_l, s32_id in Ss by lia. rewrite Hid in Se, Si.
  set (s1 := set_vqman _ s).
  set (s' := s1 <| vp_t ::= _ |> <| vp_out := _ |>).
  assert (Hq : vqueues (vqman (vp_t s')) !!! x = fp_vq f')
    by (cbn; by rewrite lookup_total_insert_eq).
  assert (Hne : forall i, i <> x ->
    vqueues (vqman (vp_t s')) !!! i = vqueues (vqman (vp_t s)) !!! i)
    by (intros i Hi; cbn; by rewrite lookup_total_insert_ne).
  assert (Hval : vq_avail vq = flow_sum (fqman vq)).
  { apply vq_ok_avail; [|done]. constructor; [by exists N, L|done|done]. }
  exists s', (fp_sum f'), (fp_limited f'), evs. rewrite Hq, Hc.
  split; [done|]. split; [|split; [|split; [lia|]]].
  - destruct Hb as [B1 B2 B3 B4 B5]. constructor; try done.
    + eapply queue_rep_ext; [|exact B1]. intros y Hy. unfold vnext.
      destruct (decide (y = x)) as [->|]; [done|by rewrite Hne].
    + intros i Hi. destruct (decide (i = x)) as [->|]; [|rewrite Hne by done; by apply B3].
      rewrite Hq, Sg. by apply B3.
    + intros i Hi HiO Hix. rewrite Hne by done. by apply B4.
    + intros i Hi Hix. rewrite Hne by done. by apply B5.
  - destruct Hok' as [Hk' Ht']. constructor; [by exists N', L'|done|..];
      rewrite Sf, Ss; [lia|]. rewrite Sa. lia.
  - split; [by rewrite Si|]. split; [done|]. split; [done|]. split.
    { eapply Forall_impl; [exact Se|]. intros e He. pose proof He as (_ & Hv & _).
      unfold vev_ok. by rewrite Hv. }
    split.
    { intros i Hi. rewrite (vm_bytes_one x) by done.
      destruct (decide (i = x)) as [->|Hix]; [|rewrite Hne by done; lia].
      rewrite Hq. fold vq. lia. }
    split; [lia|]. pose proof (pk_flows _ _ _ Hok') as Hk'.
    assert (Hns' : no_stale (fqman (fp_vq f')) L').
    { apply Hns. by apply (fresh_no_stale _ _ _ (fk_rep _ _ _ Hk)). }
    split; [|split; [done|split]].
    2: { by apply (fresh_no_stale _ _ _ (fk_rep _ _ _ Hk')). }
    2: { intros Hl. destruct (flow_qman_sum_nonneg _ _ _ Hk') as [Hnn Hz0].
         destruct (decide (flow_sum (fqman (fp_vq f')) = 0)) as [Hz|]; [|lia].
         exfalso. specialize (Hz0 Hz). specialize (Hlim Hl).
         destruct (L' 0%nat) as [|y l] eqn:EL; [done|].
         specialize (Hns' y). rewrite EL, Hz0 in Hns'.
         specialize (Hns' (list_elem_of_here y l)). lia. }
    intros ->. cbn in Ss. split; [done|].
    intros Hn Hl. rewrite Sa, Hval. cbn in Sf.
    assert (Hz : flow_sum (fqman (fp_vq f')) = 0).
    { rewrite (flow_sum_data (flowcont_init false) (fqman (fp_vq f'))); [done|].
      intros i. specialize (Hend eq_refl Hn Hl i).
      destruct (fk_cells _ _ _ Hk' i) as [_ _ Ha _]. unfold is_u32 in Ha.
      change (fq_avail (fqueues (flowcont_init false) !!! i)) with 0. lia. }
    lia.
Qed.

(** Firing a VM: it goes back to the list if it has work left. *)
Lemma vm_queue_fire_ok O x vm V n :
  vm_ok_but O x vm V -> x ∉ V -> x ∉ O -> 0 <= x < FLEXNIC_PL_VMST_NUM ->
  vq_polled (vqueues vm !!! x) n -> 0 <= n -> 0 < vq_avail (vqueues vm !!! x) ->
  exists vm' V', vm_queue_fire vm x n = Some vm' /\ vm_ok O vm' V'
  /\ (V' = V \/ V' = V ++ [x])
  /\ flow_sum (fqman (vqueues vm' !!! x)) = flow_sum (fqman (vqueues vm !!! x))
  /\ vq_id (vqueues vm' !!! x) = vq_id (vqueues vm !!! x)
  /\ (0 < flow_sum (fqman (vqueues vm !!! x)) -> V' = V ++ [x])
  /\ fqman (vqueues vm' !!! x) = fqman (vqueues vm !!! x)
  /\ (forall i, i <> x -> vq_data (vqueues vm' !!! i) = vq_data (vqueues vm !!! i)).
Proof.
  intros Hb HxV HxO Hx [(N & L & Hk) Ht Hbd Hav] Hn Hp. unfold vm_queue_fire.
  destruct (Z.ltb_spec 0 (vq_avail (vqueues vm !!! x))); [|lia].
  cbn [cassert mbind option_bind].
  destruct (flow_qman_sum_nonneg _ _ _ Hk) as [Hnn _].
  set (vm1 := upd_vq x _ vm).
  assert (Hb1 : vm_ok_but O x vm1 V) by by apply vm_ok_but_upd.
  assert (Hx1 : vq_avail (vqueues vm1 !!! x) = flow_sum (fqman (vqueues vm !!! x))
    /\ fqman (vqueues vm1 !!! x) = fqman (vqueues vm !!! x)
    /\ vq_id (vqueues vm1 !!! x) = vq_id (vqueues vm !!! x)
    /\ ts_virtual (vqueues vm1 !!! x) = ts_virtual (vqueues vm !!! x)).
  { subst vm1. rewrite upd_vq_eq. cbn. split; [|done].
    rewrite Hav, u32_id by (unfold is_u32; lia). lia. }
  destruct Hx1 as (X1 & X2 & X3 & X4).
  assert (Hok1 : vq_ok (vqueues vm1 !!! x)).
  { constructor; rewrite ?X2, ?X4; [by exists N, L|done|].
    rewrite X1, u32_id; [done|]. unfold is_u32. lia. }
  destruct (Z.ltb_spec 0 (vq_avail (vqueues vm1 !!! x))) as [Hp1|Hp1].
  - destruct (vm_queue_activate_ok O x vm1 V Hb1 HxV Hx) as (vm' & -> & Hk' & Hd).
    exists vm', (V ++ [x]). split; [done|].
    assert (E1 : fqman (vqueues vm' !!! x) = fqman (vqueues vm1 !!! x))
      by exact (f_equal (fun t => t.1.1.1.2) (Hd x)).
    assert (E2 : vq_id (vqueues vm' !!! x) = vq_id (vqueues vm1 !!! x))
      by exact (f_equal (fun t => t.1.1.1.1) (Hd x)).
    split; [|split; [by right|split; [by rewrite E1, X2|split; [by rewrite E2, X3|split; [done|split; [by rewrite E1, X2|]]]]]].
    + apply (vm_ok_of_but O x); [done| |].
      * intros _ _. rewrite elem_of_app, list_elem_of_singleton. tauto.
      * by eapply vq_ok_data; [apply Hd|].
    + intros i Hi. rewrite Hd. subst vm1. by rewrite upd_vq_ne by congruence.
  - exists vm1, V. split; [done|]. split; [|split; [by left|split; [by rewrite X2|split; [done|split; [|split; [done|]]]]]].
    + apply (vm_ok_of_but O x); [done| |done]. intros _ Hp2. lia.
    + lia.
    + intros i Hi. subst vm1. by rewrite upd_vq_ne by congruence.
Qed.

(** State of the poll loops: VMs [O] are out of budget. *)
Record vstate (O : list Z) (s : vpoll) (V : list Z) : Prop := mk_vstate {
  vs_ok : vm_ok O (vqman (vp_t s)) V;
  vs_bound : vm_bounded (vqman (vp_t s));
  vs_fresh : forall i, 0 <= i < FLEXNIC_PL_VMST_NUM ->
    fresh (fqman (vqueues (vqman (vp_t s)) !!! i));
  vs_ids : forall i, 0 <= i < FLEXNIC_PL_VMST_NUM ->
    vq_id (vqueues (vqman (vp_t s)) !!! i) = i;
  vs_oob : NoDup O /\ (forall i, i ∈ O -> i ∉ V /\ 0 <= i < FLEXNIC_PL_VMST_NUM) }.

(** Taking the head off the VM list. *)
Definition pop_vm (x nxt : Z) (vm : vm_qman) : vm_qman :=
  let vm := upd_vq x (fun q =>
    q <| vq_flags := Z.land (vq_flags q) (Z.lnot FLAG_INNOLIMITL) |>)
    (vm <| vm_head_idx := nxt |>) in
  if nxt =? IDXLIST_INVAL then vm <| vm_tail_idx := IDXLIST_INVAL |> else vm.

Lemma pop_vm_ok O x V vm :
  vm_ok O vm (x :: V) ->
  let vm' := pop_vm x (vnext vm x) vm in
  vm_ok_but O x vm' V /\ x ∉ V /\ vm_head_idx vm = x
  /\ (forall i, vq_data (vqueues vm' !!! i) = vq_data (vqueues vm !!! i)).
Proof.
  intros [K1 K2 K3 K4 K5]. cbv zeta. set (vm' := pop_vm _ _ _).
  destruct (queue_rep_pop _ _ _ _ _ _ K1) as (Hh & HxV & Hxi & Hq).
  assert (Hc : forall j, vqueues vm' !!! j
    = if decide (j = x) then (vqueues vm !!! x) <| vq_flags :=
        Z.land (vq_flags (vqueues vm !!! x)) (Z.lnot FLAG_INNOLIMITL) |>
      else vqueues vm !!! j).
  { intros j. subst vm'. unfold pop_vm. cbv zeta.
    assert (Hu : forall g (v : vm_qman), vqueues (upd_vq x g v) !!! j
      = if decide (j = x) then g (vqueues v !!! x) else vqueues v !!! j).
    { intros g v. destruct (decide (j = x)) as [->|];
        [by rewrite upd_vq_eq|by rewrite upd_vq_ne by congruence]. }
    destruct (_ =? _); (etransitivity; [apply Hu|done]). }
  assert (Hht : vm_head_idx vm' = vnext vm x /\ vm_tail_idx vm'
    = if vnext vm x =? IDXLIST_INVAL then IDXLIST_INVAL else vm_tail_idx vm).
  { subst vm'. unfold pop_vm. by destruct (_ =? _). }
  assert (Hxr : 0 <= x < FLEXNIC_PL_VMST_NUM) by apply K2, list_elem_of_here.
  split; [|split; [done|split; [done|]]].
  - destruct Hht as [Hhd Htl]. constructor; rewrite ?Hhd, ?Htl.
    + eapply queue_rep_ext; [|exact Hq]. intros y _. unfold vnext. rewrite Hc.
      by destruct (decide (y = x)) as [->|].
    + intros i Hi. apply K2. by apply list_elem_of_further.
    + intros i Hi. rewrite Hc. destruct (decide (i = x)) as [->|].
      * cbn. rewrite K3, decide_True by (done || apply list_elem_of_here).
        by rewrite decide_False.
      * rewrite K3 by done. destruct (decide (i ∈ V)), (decide (i ∈ x :: V)) as [Hin|Hin];
          try done; rewrite elem_of_cons in Hin; tauto.
    + intros i Hi HiO Hix. rewrite Hc, decide_False by done. intros Hp.
      apply K4 in Hp; [|done|done]. by apply elem_of_cons in Hp as [|].
    + intros i Hi Hix. rewrite Hc, decide_False by done. by apply K5.
  - intros i. rewrite Hc. by destruct (decide (i = x)) as [->|].
Qed.

Lemma vm_ok_but_incl O O' x vm V :
  (forall i, i ∈ O -> i ∈ O') -> vm_ok_but O x vm V -> vm_ok_but O' x vm V.
Proof. intros Hi [? ? ? Ha ?]. constructor; auto. Qed.

(** The measure of the first loop: once a rate limited VM [r] is in the list,
    the loop ends when it comes up again. *)
Definition loop_measure (num cnt : Z) (V : list Z) (rvq : option Z) (m : Z) : Prop :=
  match rvq with
  | Some r => exists A B, V = A ++ r :: B /\ Z.of_nat (length A) + 1 <= m
  | None => (num - cnt) + 2 * Z.of_nat (length V) + 2 <= m
  end.

Lemma NoDup_range_length V :
  NoDup V -> (forall i, i ∈ V -> 0 <= i < FLEXNIC_PL_VMST_NUM) -> Z.of_nat (length V) <= 6.
Proof.
  intros Hnd Hr.
  assert (Hsub : V ⊆ seqZ 0 FLEXNIC_PL_VMST_NUM) by (intros i Hi; apply elem_of_seqZ; auto).
  pose proof (submseteq_length _ _ (NoDup_submseteq _ _ Hnd Hsub)) as Hle.
  rewrite length_seqZ in Hle. unfold FLEXNIC_PL_VMST_NUM in Hle. lia.
Qed.

(** The body of the first loop for a VM with budget. *)
Lemma vm_serve_ok ffuel s x V O cur_ts num cnt rvq :
  vm_ok_but O x (vqman (vp_t s)) V -> x ∉ V -> x ∉ O ->
  0 <= x < FLEXNIC_PL_VMST_NUM -> vq_ok (vqueues (vqman (vp_t s)) !!! x) ->
  vm_bounded (vqman (vp_t s)) ->
  (forall i, 0 <= i < FLEXNIC_PL_VMST_NUM -> vq_id (vqueues (vqman (vp_t s)) !!! i) = i) ->
  (forall i, 0 <= i < FLEXNIC_PL_VMST_NUM ->
     fresh (fqman (vqueues (vqman (vp_t s)) !!! i))) ->
  cnt < num <= 32767 -> 0 <= cnt -> num + FLEXNIC_NUM_QMFLOWQUEUES < Z.of_nat ffuel ->
  exists s1 s2 n limited evs rvq' V',
  poll_flows ffuel s x cur_ts (num - cnt) = Some (s1, Z.of_nat (length evs), n, limited)
  /\ (if 0 <? vq_avail (vqueues (vqman (vp_t s1)) !!! x) then
        vm ← vm_queue_fire (vqman (vp_t s1)) x n;
        Some (set_vqman (fun _ => vm) s1,
              match rvq with
              | None => if limited then Some x else None
              | Some _ => rvq
              end)
      else Some (s1, rvq)) = Some (s2, rvq')
  /\ vm_ok O (vqman (vp_t s2)) V' /\ vm_bounded (vqman (vp_t s2))
  /\ (forall i, 0 <= i < FLEXNIC_PL_VMST_NUM -> vq_id (vqueues (vqman (vp_t s2)) !!! i) = i)
  /\ (forall i, 0 <= i < FLEXNIC_PL_VMST_NUM ->
       fresh (fqman (vqueues (vqman (vp_t s2)) !!! i)))
  /\ vp_out s2 = vp_out s ++ evs /\ Forall vev_ok evs
  /\ taken evs (vqman (vp_t s)) (vqman (vp_t s2))
  /\ cnt + Z.of_nat (length evs) <= num /\ vp_oob s2 = vp_oob s
  /\ (V' = V \/ V' = V ++ [x])
  /\ (match rvq with Some _ => rvq' = rvq
      | None => (rvq' = None /\ (evs = [] -> V' = V)) \/ (rvq' = Some x /\ V' = V ++ [x])
      end).
Proof.
  intros Hb HxV HxO Hx Hok Hbd Hids Hfr Hn Hc Hf.
  destruct (poll_flows_ok ffuel s x cur_ts (num - cnt) O V)
    as (s1 & n & lim & evs & E1 & Hb1 & Hp1 & Hn0 & Hid1 & Hne1 & Ho1 & Hev1 & Htk1 & Hl1 & Hz1 & Hoob1 & Hfr1 & Hlim1);
    try done; try lia; try (by apply Hids); try (by apply Hbd); try (by apply Hfr).
  destruct (Z.ltb_spec 0 (vq_avail (vqueues (vqman (vp_t s1)) !!! x))) as [Hp|Hp].
  - destruct (vm_queue_fire_ok O x (vqman (vp_t s1)) V n Hb1 HxV HxO Hx Hp1 Hn0 Hp)
      as (vm' & V' & E2 & Hk2 & HV' & Hs2 & Hid2 & Hz2 & Hfm2 & Hne2).
    set (rvq' := match rvq with None => if lim then Some x else None | Some _ => rvq end).
    exists s1, (set_vqman (fun _ => vm') s1), n, lim, evs, rvq', V'.
    split; [done|]. split. { rewrite (proj2 (Z.ltb_lt _ _) Hp), E2. reflexivity. } split; [done|].
    assert (Hd : forall i, i <> x -> vq_data (vqueues vm' !!! i)
      = vq_data (vqueues (vqman (vp_t s)) !!! i))
      by (intros i Hi; rewrite Hne2 by done; by rewrite Hne1).
    assert (Hfmi : forall i, i <> x -> fqman (vqueues vm' !!! i)
      = fqman (vqueues (vqman (vp_t s)) !!! i))
      by (intros i Hi; exact (f_equal (fun t => t.1.1.1.2) (Hd i Hi))).
    split; [|split; [|split; [|split; [done|split; [done|split; [|split; [lia|split; [done|split; [done|]]]]]]]]].
    + intros i Hi. cbn. destruct (decide (i = x)) as [->|Hix].
      * rewrite Hs2. destruct Hp1. lia.
      * rewrite Hfmi by done. by apply Hbd.
    + intros i Hi. cbn. destruct (decide (i = x)) as [->|Hix]; [by rewrite Hid2|].
      assert (vq_id (vqueues vm' !!! i) = vq_id (vqueues (vqman (vp_t s)) !!! i)) as ->
        by exact (f_equal (fun t => t.1.1.1.1) (Hd i Hix)). by apply Hids.
    + intros i Hi. cbn. destruct (decide (i = x)) as [->|Hix]; [by rewrite Hfm2|].
      rewrite Hfmi by done. by apply Hfr.
    + rewrite <- (app_nil_r evs). eapply taken_trans; [exact Htk1|]. apply taken_same.
      intros i. cbn. destruct (decide (i = x)) as [->|Hix]; [done|].
      rewrite Hfmi by done. by rewrite Hne1.
    + subst rvq'. destruct rvq as [r|]; [done|]. destruct lim; [right|left].
      * split; [done|]. by apply Hz2, Hlim1.
      * split; [done|]. intros ->. destruct (Hz1 eq_refl) as [-> Hz].
        rewrite Hz in Hp by (done || lia). lia.
  - destruct Hp1 as [(N & L & Hk) Ht Hbd1 Hav1].
    destruct (flow_qman_sum_nonneg _ _ _ Hk) as [Hnn _].
    exists s1, s1, n, lim, evs, rvq, V.
    split; [done|]. split; [by rewrite (proj2 (Z.ltb_ge _ _) Hp)|]. split.
    { apply (vm_ok_of_but O x); [done|intros _; lia|].
      constructor; [by exists N, L|done|]. rewrite u32_id; [lia|unfold is_u32; lia]. }
    split; [|split; [|split; [|split; [done|split; [done|split; [done|split; [lia|split; [done|split; [by left|]]]]]]]]].
    + intros i Hi. destruct (decide (i = x)) as [->|Hix]; [lia|].
      rewrite Hne1 by done. by apply Hbd.
    + intros i Hi. destruct (decide (i = x)) as [->|Hix]; [done|].
      rewrite Hne1 by done. by apply Hids.
    + intros i Hi. destruct (decide (i = x)) as [->|Hix]; [done|].
      rewrite Hne1 by done. by apply Hfr.
    + destruct rvq; [done|]. by left.
Qed.

Lemma vm_poll_loop_ok fuel ffuel budgets cur_ts num s cnt rvq V m :
  vstate (vp_oob s) s V -> 0 <= cnt <= num -> num <= 32767 ->
  num + FLEXNIC_NUM_QMFLOWQUEUES < Z.of_nat ffuel ->
  loop_measure num cnt V rvq m -> m < Z.of_nat fuel ->
  exists s' evs V', vm_poll_loop fuel ffuel budgets cur_ts num s cnt rvq
      = Some (s', cnt + Z.of_nat (length evs))
  /\ vstate (vp_oob s') s' V' /\ vp_out s' = vp_out s ++ evs
  /\ Forall vev_ok evs /\ taken evs (vqman (vp_t s)) (vqman (vp_t s'))
  /\ cnt + Z.of_nat (length evs) <= num.
Proof.
  revert s cnt rvq V m. induction fuel as [|fuel IH];
    intros s cnt rvq V m Hvs Hcnt Hnum Hff Hm Hf.
  { destruct rvq; cbn in Hm; [destruct Hm as (A & B & _ & ?); lia|lia]. }
  cbn [vm_poll_loop]. unfold vm_poll_iter. cbv zeta.
  assert (Hstop : exists s' evs V', Some (s, cnt) = Some (s', cnt + Z.of_nat (length evs))
    /\ vstate (vp_oob s') s' V' /\ vp_out s' = vp_out s ++ evs
    /\ Forall vev_ok evs /\ taken evs (vqman (vp_t s)) (vqman (vp_t s'))
    /\ cnt + Z.of_nat (length evs) <= num).
  { exists s, [], V. cbn [length]. rewrite Z.add_0_r, app_nil_r.
    split; [done|]. split; [done|]. split; [done|]. split; [constructor|].
    split; [by apply taken_same|lia]. }
  pose proof Hvs as [Hok Hbd Hfr Hids [Hnd Hoob]].
  pose proof (vmk_list _ _ _ Hok) as Hq.
  destruct (Z.ltb_spec cnt num); [|exact Hstop].
  destruct (Z.eqb_spec (vm_head_idx (vqman (vp_t s))) INVAL) as [Hh|Hh];
    cbn [andb negb]; [exact Hstop|].
  destruct V as [|x V].
  { exfalso. apply Hh. by apply (queue_rep_head_nil _ _ _ _ _ Hq). }
  destruct (pop_vm_ok _ _ _ _ Hok) as (Hb & HxV & Hx & Hd). rewrite Hx.
  destruct (bool_decide (rvq = Some x)) eqn:Erv; [exact Hstop|].
  apply bool_decide_eq_false in Erv.
  change (vq_next_idx (vqueues (vqman (vp_t s)) !!! x)) with (vnext (vqman (vp_t s)) x).
  change (set_vqman _ s) with (set_vqman (pop_vm x (vnext (vqman (vp_t s)) x)) s).
  set (s0 := set_vqman _ s).
  assert (Hxr : 0 <= x < FLEXNIC_PL_VMST_NUM)
    by apply (vmk_range _ _ _ Hok), list_elem_of_here.
  assert (HxO : x ∉ vp_oob s).
  { intros HO. destruct (Hoob x HO) as [Hn _]. apply Hn, list_elem_of_here. }
  assert (Hfq : forall i, fqman (vqueues (vqman (vp_t s0)) !!! i)
    = fqman (vqueues (vqman (vp_t s)) !!! i))
    by (intros i; exact (f_equal (fun t => t.1.1.1.2) (Hd i))).
  assert (Hid0 : forall i, vq_id (vqueues (vqman (vp_t s0)) !!! i)
    = vq_id (vqueues (vqman (vp_t s)) !!! i))
    by (intros i; exact (f_equal (fun t => t.1.1.1.1) (Hd i))).
  assert (Hok0 : vq_ok (vqueues (vqman (vp_t s0)) !!! x)).
  { eapply vq_ok_data; [apply Hd|]. by apply (vmk_ok _ _ _ Hok). }
  assert (HnV : NoDup (x :: V)) by apply Hq.
  (* the measure of the next iteration *)
  assert (Hm1 : forall c' rv' V', cnt <= c' <= num -> (V' = V \/ V' = V ++ [x]) ->
    (match rvq with Some _ => rv' = rvq
     | None => (rv' = None /\ (c' = cnt -> V' = V)) \/ (rv' = Some x /\ V' = V ++ [x]) end) ->
    loop_measure num c' V' rv' (m - 1)).
  { intros c' rv' V' H1 HV' Hrv. destruct rvq as [r|].
    - subst rv'. destruct Hm as (A & B & EV & Hlen).
      destruct A as [|y A]; cbn in EV; injection EV as <- EV; [by destruct Erv|].
      cbn [length] in Hlen. subst V. destruct HV' as [->| ->].
      + exists A, B. split; [done|]. lia.
      + exists A, (B ++ [x]). rewrite <- app_assoc. split; [done|]. lia.
    - cbn [loop_measure length] in Hm.
      destruct Hrv as [[-> HVc]|[-> ->]].
      + cbn [loop_measure]. destruct HV' as [->| ->]; [lia|].
        rewrite length_app. cbn [length]. destruct (decide (c' = cnt)) as [Ec|]; [|lia].
        specialize (HVc Ec). apply (f_equal length) in HVc. rewrite length_app in HVc.
        cbn [length] in HVc. lia.
      + exists V, []. split; [done|]. lia. }
  destruct (0 <? budgets !!! x).
  - destruct (vm_serve_ok ffuel (s0 <| vp_orig := num |>) x V (vp_oob s) cur_ts num cnt rvq)
      as (s1 & s2 & n & lim & evs & rvq' & V' & E1 & E2 & Hk2 & Hbd2 & Hids2 & Hfr2 & Ho2
          & Hev2 & Htk2 & Hl2 & Hoob2 & HV' & Hrv); try done; try lia.
    { intros i Hi. cbn. rewrite Hfq. by apply Hbd. }
    { intros i Hi. cbn. rewrite Hid0. by apply Hids. }
    { intros i Hi. cbn. rewrite Hfq. by apply Hfr. }
    rewrite E1. cbn [mbind option_bind]. rewrite E2. cbn [mbind option_bind].
    set (s3 := s2 <| vp_counters ::= _ |> <| vp_total := _ |>).
    assert (Hvs3 : vstate (vp_oob s3) s3 V').
    { change (vp_oob s3) with (vp_oob s2). rewrite Hoob2. constructor; try done.
      split; [done|]. intros i Hi. destruct (Hoob i Hi) as [Hn Hr]. split; [|done].
      rewrite elem_of_cons in Hn. destruct HV' as [->| ->]; [tauto|].
      rewrite elem_of_app, list_elem_of_singleton. tauto. }
    destruct (IH s3 (cnt + Z.of_nat (length evs)) rvq' V' (m - 1))
      as (s' & evs' & V'' & E3 & Hvs' & Ho' & Hev' & Htk' & Hl'); try done; try lia.
    { apply Hm1; try done; try lia.
      destruct rvq; [done|]. destruct Hrv as [[-> HV]|[-> ->]].
      - left. split; [done|]. intros Hc. apply HV. destruct evs; [done|].
        cbn [length] in Hc. lia.
      - by right. }
    exists s', (evs ++ evs'), V''. rewrite length_app, Nat2Z.inj_add, Z.add_assoc.
    split; [done|]. split; [done|]. split.
    { rewrite Ho'. change (vp_out s3) with (vp_out s2). rewrite Ho2. by rewrite app_assoc. }
    split; [by apply Forall_app|]. split; [|done].
    eapply (taken_trans evs); [|exact Htk'].
    eapply (taken_trans []); [by apply taken_same|exact Htk2].
  - set (s1 := if 0 <? vq_avail _ then _ else s0).
    assert (Hs1 : vstate (vp_oob s1) s1 V /\ vp_out s1 = vp_out s
      /\ vqman (vp_t s1) = vqman (vp_t s0)).
    { assert (Hb0 : vm_ok_but (vp_oob s) x (vqman (vp_t s0)) V) by done.
      assert (Hbd0 : vm_bounded (vqman (vp_t s0)))
        by (intros i Hi; rewrite Hfq; by apply Hbd).
      assert (Hfr0 : forall i, 0 <= i < FLEXNIC_PL_VMST_NUM ->
        fresh (fqman (vqueues (vqman (vp_t s0)) !!! i)))
        by (intros i Hi; rewrite Hfq; by apply Hfr).
      assert (Hids0 : forall i, 0 <= i < FLEXNIC_PL_VMST_NUM ->
        vq_id (vqueues (vqman (vp_t s0)) !!! i) = i)
        by (intros i Hi; rewrite Hid0; by apply Hids).
      subst s1. destruct (Z.ltb_spec 0 (vq_avail (vqueues (vqman (vp_t s0)) !!! x))).
      - split; [|split; done]. constructor; try done.
        + apply (vm_ok_of_but _ x); [|intros Hn _; exfalso; apply Hn|done].
          * eapply vm_ok_but_incl; [|exact Hb0]. intros i Hi.
            change (i ∈ vp_oob s ++ [x]). rewrite elem_of_app. by left.
          * change (x ∈ vp_oob s ++ [x]). rewrite elem_of_app, list_elem_of_singleton. tauto.
        + change (NoDup (vp_oob s ++ [x]) /\ (forall i, i ∈ vp_oob s ++ [x] ->
            i ∉ V /\ 0 <= i < FLEXNIC_PL_VMST_NUM)).
          split.
          * apply NoDup_app. split; [done|]. split; [|repeat constructor; apply not_elem_of_nil].
            intros i Hi Hix. apply list_elem_of_singleton in Hix. by subst.
          * intros i. rewrite elem_of_app, list_elem_of_singleton. intros [Hi| ->]; [|done].
            destruct (Hoob i Hi) as [Hn ?]. rewrite elem_of_cons in Hn. tauto.
      - split; [|split; done]. constructor; try done.
        + apply (vm_ok_of_but _ x); [done|lia|done].
        + split; [done|]. intros i Hi. destruct (Hoob i Hi) as [Hn ?].
          rewrite elem_of_cons in Hn. tauto. }
    destruct Hs1 as (Hvs1 & Ho1 & Hq1).
    destruct (IH s1 cnt rvq V (m - 1)) as (s' & evs' & V'' & E3 & Hvs' & Ho' & Hev' & Htk' & Hl');
      try done; try lia.
    { apply Hm1; [lia|by left|]. destruct rvq; [done|by left]. }
    exists s', evs', V''. rewrite <- Ho1. split; [done|]. split; [done|]. split; [done|].
    split; [done|]. split; [|done]. rewrite Hq1 in Htk'.
    eapply (taken_trans []); [by apply taken_same|exact Htk'].
Qed.

(** The second loop. *)
Lemma vm_poll_oob_ok ffuel cur_ts num temp oob s cnt V :
  vstate oob s V -> 0 <= cnt <= num -> num <= 32767 ->
  num + FLEXNIC_NUM_QMFLOWQUEUES < Z.of_nat ffuel ->
  exists s' evs V', vm_poll_oob ffuel cur_ts num temp oob s cnt
      = Some (s', cnt + Z.of_nat (length evs))
  /\ vstate [] s' V' /\ vp_out s' = vp_out s ++ evs
  /\ Forall vev_ok evs /\ taken evs (vqman (vp_t s)) (vqman (vp_t s'))
  /\ cnt + Z.of_nat (length evs) <= num.
Proof.
  revert s cnt V. induction oob as [|x oob IH]; intros s cnt V Hvs Hcnt Hnum Hff.
  { exists s, [], V. cbn [length]. rewrite Z.add_0_r, app_nil_r.
    split; [done|]. split; [done|]. split; [done|]. split; [constructor|].
    split; [by apply taken_same|lia]. }
  cbn [vm_poll_oob]. pose proof Hvs as [Hok Hbd Hfr Hids [Hnd Hoob]].
  apply NoDup_cons in Hnd as [Hxo Hnd].
  destruct (Hoob x (list_elem_of_here _ _)) as [HxV Hx].
  assert (Hoob' : forall i, i ∈ oob -> i ∉ V /\ 0 <= i < FLEXNIC_PL_VMST_NUM)
    by (intros i Hi; apply Hoob; by apply list_elem_of_further).
  set (s0 := set_vqman _ s).
  assert (Hd : forall i, vq_data (vqueues (vqman (vp_t s0)) !!! i)
    = vq_data (vqueues (vqman (vp_t s)) !!! i)).
  { intros i. cbn -[upd_vq]. destruct (decide (x = i)) as [->|];
      [by rewrite upd_vq_eq|by rewrite upd_vq_ne]. }
  assert (Hfq : forall i, fqman (vqueues (vqman (vp_t s0)) !!! i)
    = fqman (vqueues (vqman (vp_t s)) !!! i))
    by (intros i; exact (f_equal (fun t => t.1.1.1.2) (Hd i))).
  assert (Hid0 : forall i, vq_id (vqueues (vqman (vp_t s0)) !!! i)
    = vq_id (vqueues (vqman (vp_t s)) !!! i))
    by (intros i; exact (f_equal (fun t => t.1.1.1.1) (Hd i))).
  assert (Hb0 : vm_ok_but oob x (vqman (vp_t s0)) V).
  { destruct Hok as [K1 K2 K3 K4 K5]. constructor; try done.
    - eapply queue_rep_ext; [|exact K1]. intros y _.
      change (vnext (upd_vq x (fun q => q <| vq_flags := Z.land (vq_flags q)
        (Z.lnot FLAG_INNOLIMITL) |>) (vqman (vp_t s))) y = vnext (vqman (vp_t s)) y).
      rewrite vnext_upd. by destruct (decide (y = x)) as [->|].
    - intros i Hi. cbn -[upd_vq]. destruct (decide (x = i)) as [->|].
      + rewrite upd_vq_eq. cbn. rewrite K3 by done. by rewrite decide_False.
      + rewrite upd_vq_ne by done. by apply K3.
    - intros i Hi HiO Hix. cbn -[upd_vq]. rewrite upd_vq_ne by congruence. apply K4; [done|].
      rewrite elem_of_cons. tauto.
    - intros i Hi Hix. cbn -[upd_vq]. rewrite upd_vq_ne by congruence. by apply K5. }
  assert (Hok0 : vq_ok (vqueues (vqman (vp_t s0)) !!! x)).
  { eapply vq_ok_data; [apply Hd|]. by apply (vmk_ok _ _ _ Hok). }
  destruct ((cnt <? num) && (temp =? 0)) eqn:Ego.
  - bprop. destruct (vm_serve_ok ffuel s0 x V oob cur_ts num cnt (Some x))
      as (s1 & s2 & n & lim & evs & rvq' & V' & E1 & E2 & Hk2 & Hbd2 & Hids2 & Hfr2 & Ho2
          & Hev2 & Htk2 & Hl2 & Hoob2 & HV' & Hrv); try done; try lia.
    { intros i Hi. rewrite Hfq. by apply Hbd. }
    { intros i Hi. rewrite Hid0. by apply Hids. }
    { intros i Hi. rewrite Hfq. by apply Hfr. }
    rewrite E1. cbn [mbind option_bind].
    assert (Hvm : exists vm, (if 0 <? vq_avail (vqueues (vqman (vp_t s1)) !!! x)
        then vm_queue_fire (vqman (vp_t s1)) x n else Some (vqman (vp_t s1))) = Some vm
      /\ set_vqman (fun _ => vm) s1 = s2).
    { destruct (0 <? _).
      - destruct (vm_queue_fire (vqman (vp_t s1)) x n) as [vm|]; [|done].
        cbn [mbind option_bind] in E2. injection E2 as <- _. by exists vm.
      - injection E2 as <- _. eexists. split; [done|]. by destruct s1 as [[] ? ? ? ? ?]. }
    destruct Hvm as (vm & -> & Evm). cbn [mbind option_bind]. rewrite Evm.
    destruct (IH s2 (cnt + Z.of_nat (length evs)) V')
      as (s' & evs' & V'' & E3 & Hvs' & Ho' & Hev' & Htk' & Hl'); try done; try lia.
    { constructor; try done. split; [done|]. intros i Hi.
      destruct (Hoob' i Hi) as [Hn Hr]. split; [|done].
      destruct HV' as [->| ->]; [done|]. rewrite elem_of_app, list_elem_of_singleton.
      intros [|]; [done|]. by subst. }
    exists s', (evs ++ evs'), V''. rewrite length_app, Nat2Z.inj_add, Z.add_assoc.
    split; [done|]. split; [done|]. split.
    { rewrite Ho', Ho2. by rewrite app_assoc. }
    split; [by apply Forall_app|]. split; [|done].
    eapply (taken_trans evs); [|exact Htk'].
    eapply (taken_trans []); [by apply taken_same|exact Htk2].
  - destruct (vm_queue_activate_ok oob x (vqman (vp_t s0)) V Hb0 HxV Hx)
      as (vm' & -> & Hk' & Hd'). cbn [mbind option_bind].
    set (s1 := set_vqman _ s0).
    assert (Hd1 : forall i, vq_data (vqueues (vqman (vp_t s1)) !!! i)
      = vq_data (vqueues (vqman (vp_t s)) !!! i)) by (intros i; rewrite <- Hd; apply Hd').
    assert (Hfq1 : forall i, fqman (vqueues (vqman (vp_t s1)) !!! i)
      = fqman (vqueues (vqman (vp_t s)) !!! i))
      by (intros i; exact (f_equal (fun t => t.1.1.1.2) (Hd1 i))).
    destruct (IH s1 cnt (V ++ [x])) as (s' & evs' & V'' & E3 & Hvs' & Ho' & Hev' & Htk' & Hl');
      try done.
    { constructor.
      - apply (vm_ok_of_but _ x); [done| |].
        + intros _ _. rewrite elem_of_app, list_elem_of_singleton. tauto.
        + eapply vq_ok_data; [apply Hd1|]. by apply (vmk_ok _ _ _ Hok).
      - intros i Hi. rewrite Hfq1. by apply Hbd.
      - intros i Hi. rewrite Hfq1. by apply Hfr.
      - intros i Hi. assert (vq_id (vqueues (vqman (vp_t s1)) !!! i)
          = vq_id (vqueues (vqman (vp_t s)) !!! i)) as ->
          by exact (f_equal (fun t => t.1.1.1.1) (Hd1 i)). by apply Hids.
      - split; [done|]. intros i Hi. destruct (Hoob' i Hi). split; [|done].
        rewrite elem_of_app, list_elem_of_singleton. intros [|]; [done|]. by subst. }
    exists s', evs', V''. split; [done|]. split; [done|]. split; [done|].
    split; [done|]. split; [|done].
    eapply (taken_trans []); [by apply taken_same|exact Htk'].
Qed.

(** ** The whole poll *)

(** What the poll needs beside the invariant: totals that fit 32 bits, no queue
    without work in a skip list, the identifiers of the VMs. *)
Record qman_pollable (t : qman_thread) : Prop := mk_pollable {
  pl_wf : qman_wf t;
  pl_bound : vm_bounded (vqman t);
  pl_fresh : forall i, 0 <= i < FLEXNIC_PL_VMST_NUM -> fresh (fqman (vqueues (vqman t) !!! i));
  pl_ids : forall i, 0 <= i < FLEXNIC_PL_VMST_NUM -> vq_id (vqueues (vqman t) !!! i) = i }.

(** Iterations that are enough for both loops. *)
Definition vm_poll_fuel : nat := Z.to_nat 32800.
Definition flow_poll_fuel : nat := Z.to_nat 200000.

Lemma vm_qman_poll_total budgets cur_ts num s :
  qman_pollable (vp_t s) -> 0 <= num <= 32767 ->
  exists s' cnt, vm_qman_poll vm_poll_fuel flow_poll_fuel budgets cur_ts num s = Some (s', cnt)
  /\ cnt = Z.of_nat (length (vp_out s')) /\ cnt <= num
  /\ Forall vev_ok (vp_out s') /\ qman_pollable (vp_t s')
  /\ taken (vp_out s') (vqman (vp_t s)) (vqman (vp_t s')).
Proof.
  intros [[V Hok] Hbd Hfr Hids] Hnum. unfold vm_qman_poll.
  set (s0 := s <| vp_out := [] |> <| vp_oob := [] |>).
  assert (Hlen : Z.of_nat (length V) <= 6).
  { apply NoDup_range_length; [apply (vmk_list _ _ _ Hok)|]. apply (vmk_range _ _ _ Hok). }
  destruct (vm_poll_loop_ok vm_poll_fuel flow_poll_fuel budgets cur_ts num s0 0 None V
    (num + 2 * 6 + 2)) as (s1 & evs & V1 & -> & Hvs1 & Ho1 & Hev1 & Htk1 & Hl1).
  - constructor; try done. split; [constructor|]. intros i Hi. by apply not_elem_of_nil in Hi.
  - lia.
  - lia.
  - unfold flow_poll_fuel, FLEXNIC_NUM_QMFLOWQUEUES. lia.
  - cbn [loop_measure]. lia.
  - unfold vm_poll_fuel. lia.
  - cbn [mbind option_bind].
    destruct (vm_poll_oob_ok flow_poll_fuel cur_ts num (0 + Z.of_nat (length evs)) (vp_oob s1)
      s1 (0 + Z.of_nat (length evs)) V1 Hvs1)
      as (s' & evs' & V' & -> & Hvs' & Ho' & Hev' & Htk' & Hl'); try lia.
    { unfold flow_poll_fuel, FLEXNIC_NUM_QMFLOWQUEUES. lia. }
    eexists s', _. split; [done|]. rewrite Ho', Ho1, app_nil_l, length_app, Nat2Z.inj_add.
    split; [lia|]. split; [lia|]. split; [by apply Forall_app|].
    destruct Hvs' as [Hk Hb Hf Hi _].
    split; [constructor; try done; by exists V'|]. by eapply taken_trans.
Qed.

(** The state after initialisation. *)
Lemma flow_qman_init_ok first : flow_qman_ok (flowcont_init first) [] (fun _ => []).
Proof.
  constructor.
  - constructor; try done.
    + apply queue_rep_empty.
    + intros l Hl. cbn [path]. do 4 (destruct l as [|l]; [done|]). lia.
    + constructor.
    + apply not_elem_of_nil.
    + intros i H. by apply not_elem_of_nil in H.
    + intros i [H|H]; by apply not_elem_of_nil in H.
  - intros i. change (fqueues (flowcont_init first) !!! i) with (inhabitant : flow_queue).
    constructor; try done; cbn; unfold is_u32, is_u16; lia.
  - intros i H. change (fqueues (flowcont_init first) !!! i) with (inhabitant : flow_queue) in H.
    cbn in H. lia.
  - intros i [q H]. done.
Qed.
Lemma vmcont_init_queue first now i : 0 <= i < FLEXNIC_PL_VMST_NUM ->
  vqueues (vmcont_init first now) !!! i = mk_vm_queue i 0 (flowcont_init (first i)) 0 0 (now i) 0.
Proof.
  unfold FLEXNIC_PL_VMST_NUM. intros Hi.
  assert (i = 0 \/ i = 1 \/ i = 2 \/ i = 3 \/ i = 4 \/ i = 5) as Hc by lia.
  by destruct Hc as [->|[->|[->|[->|[->| ->]]]]].
Qed.

Lemma qman_init_pollable first now id :
  qman_pollable (tas_qman_thread_init first now id).
Proof.
  assert (Hq : forall i, 0 <= i < FLEXNIC_PL_VMST_NUM ->
    vqueues (vqman (tas_qman_thread_init first now id)) !!! i
    = mk_vm_queue i 0 (flowcont_init (first i)) 0 0 (now i) 0)
    by (intros i Hi; by apply vmcont_init_queue).
  constructor.
  - exists []. constructor.
    + apply queue_rep_empty.
    + intros i H. by apply not_elem_of_nil in H.
    + intros i Hi. by rewrite Hq.
    + intros i Hi _. rewrite Hq by done. cbn. lia.
    + intros i Hi. rewrite Hq by done. constructor; [|done|done].
      exists [], (fun _ => []). apply flow_qman_init_ok.
  - intros i Hi. by rewrite Hq.
  - intros i Hi. rewrite Hq by done. intros j. cbn. done.
  - intros i Hi. by rewrite Hq.
Qed.
