(* ===== verification/QmanThms.v ===== *)
(** * Properties of the queue manager

    [tas_qman_set] and [tas_qman_poll] on the whole scheduler state, the flow
    lists as refinements of a FIFO queue and of an ordered list, the time stamp
    arithmetic and the random generator; and a reachable state in which the poll
    does not return. *)

From S2P Require Import Prelude FpTypes Rng Links Qman QmanProofs QmanPoll.

(** ** The scheduler *)

(** C9: a poll of a scheduler whose queued totals fit 32 bits and whose rate
    limited queues all have work returns within [vm_poll_fuel] and
    [flow_poll_fuel] iterations, hits no assertion, reports at most [num]
    entries, each of a valid flow and VM, takes exactly the reported bytes off
    the queues of each VM, and leaves such a state. *)
Theorem tas_qman_poll_total budgets cur_ts num s :
  qman_pollable (vp_t s) -> 0 <= num <= 32767 ->
  exists s' cnt,
    tas_qman_poll vm_poll_fuel flow_poll_fuel budgets cur_ts num s = Some (s', cnt)
    /\ cnt = Z.of_nat (length (vp_out s')) /\ cnt <= num
    /\ Forall vev_ok (vp_out s') /\ qman_pollable (vp_t s')
    /\ taken (vp_out s') (vqman (vp_t s)) (vqman (vp_t s')).
Proof.
  intros Hp Hn. unfold tas_qman_poll.
  destruct (vm_qman_poll_total budgets cur_ts num s Hp Hn) as (s' & cnt & -> & H).
  by exists s', cnt.
Qed.

Definition qt0 : qman_thread := tas_qman_thread_init (fun _ => false) (fun _ => 0) 1.
Definition vp0 : vpoll := mk_vpoll qt0 [] ∅ 0 [] 0.

Lemma tas_qman_poll_total_witness : exists s' cnt,
  tas_qman_poll vm_poll_fuel flow_poll_fuel ∅ 5 16 vp0 = Some (s', cnt) /\ cnt <= 16.
Proof.
  destruct (tas_qman_poll_total ∅ 5 16 vp0) as (s' & cnt & E & _ & Hc & _).
  - apply qman_init_pollable.
  - lia.
  - exists s', cnt. exact (conj E Hc).
Defined.

(** C19: [tas_qman_set] of a valid flow of a valid VM hits no assertion, returns 0,
    keeps the lists of the scheduler well formed (every queue with work is in
    exactly one list, and every VM with work is listed), and sets or adds the
    available bytes of that flow only. *)
Theorem tas_qman_set_effect t v f rt avail chunk flags :
  qman_wf t -> 0 <= v < FLEXNIC_PL_VMST_NUM -> 0 <= f < FLEXNIC_NUM_QMFLOWQUEUES ->
  is_u32 rt -> is_u32 avail -> is_u16 chunk ->
  exists t', tas_qman_set t v f rt avail chunk flags = Some (t', 0) /\ qman_wf t'
  /\ forall i j, 0 <= i < FLEXNIC_PL_VMST_NUM -> queued t' i j
       = if decide (i = v /\ j = f) then set_avail avail (u8 flags) (queued t v f)
         else queued t i j.
Proof. intros. by apply tas_qman_set_full. Qed.

Lemma tas_qman_set_effect_witness : exists t',
  tas_qman_set qt0 1 7 0 3000 1000 11 = Some (t', 0) /\ queued t' 1 7 = 3000
  /\ queued t' 1 8 = 0.
Proof.
  destruct (tas_qman_set_effect qt0 1 7 0 3000 1000 11) as (t' & E & _ & H);
    try (unfold FLEXNIC_PL_VMST_NUM, FLEXNIC_NUM_QMFLOWQUEUES; cside).
  - apply qman_init_pollable.
  - exists t'. split; [exact E|]. split.
    + exact (H 1 7 ltac:(unfold FLEXNIC_PL_VMST_NUM; lia)).
    + exact (H 1 8 ltac:(unfold FLEXNIC_PL_VMST_NUM; lia)).
Defined.

(** A flow or VM number out of range is rejected with -1; a rejected VM
    leaves the scheduler as it is. *)
Theorem tas_qman_set_rejects t v f rt avail chunk flags :
  (FLEXNIC_PL_VMST_NUM <= v ->
   tas_qman_set t v f rt avail chunk flags = Some (t, -1))
  /\ (v < FLEXNIC_PL_VMST_NUM -> FLEXNIC_NUM_QMFLOWQUEUES <= f ->
      forall t' r, tas_qman_set t v f rt avail chunk flags = Some (t', r) ->
      r = -1 /\ fqman (vqueues (vqman t') !!! v) = fqman (vqueues (vqman t) !!! v)).
Proof.
  unfold tas_qman_set, vm_qman_set. split.
  - intros H. by rewrite (proj2 (Z.leb_le _ _) H).
  - intros Hv Hf t' r. rewrite (proj2 (Z.leb_gt _ _) Hv).
    intros (vm & Evm & E)%bind_Some. unfold flow_qman_set in E.
    rewrite (proj2 (Z.leb_le _ _) Hf) in E. cbn [mbind option_bind] in E.
    simplify_eq. split; [done|]. cbn [vqman]. rewrite upd_vq_eq. cbn [fqman].
    by apply (vm_set_impl_fqman _ _ _ _ _ _ _ Evm).
Qed.

Lemma tas_qman_set_rejects_witness :
  tas_qman_set qt0 6 7 0 3000 1000 11 = Some (qt0, -1).
Proof.
  apply (proj1 (tas_qman_set_rejects qt0 6 7 0 3000 1000 11)).
  unfold FLEXNIC_PL_VMST_NUM. lia.
Defined.

(** The scheduler of a new thread is well formed, nothing is queued in it, and
    it can be polled, whatever the content of the fresh memory. *)
Theorem tas_qman_thread_init_ok first now id :
  qman_pollable (tas_qman_thread_init first now id)
  /\ forall v f, 0 <= v < FLEXNIC_PL_VMST_NUM ->
     queued (tas_qman_thread_init first now id) v f = 0.
Proof.
  split; [apply qman_init_pollable|]. intros v f Hv. unfold queued.
  cbn [vqman tas_qman_thread_init]. by rewrite vmcont_init_queue.
Qed.

(** ** Flow lists *)

(** [flow_queue_activate_nolimit] refines the push of a FIFO queue: the array
    cells that represent the queue [N] (and the skip list [L]) represent
    [N ++ [idx]] afterwards, and no byte count, rate or time stamp changes. *)
Theorem flow_queue_activate_nolimit_push fm N L idx :
  flow_rep fm N L -> idx ∉ N -> idx ∉ L 0%nat -> idx <> IDXLIST_INVAL ->
  exists fm', flow_queue_activate_nolimit fm idx = Some fm'
  /\ flow_rep fm' (N ++ [idx]) L /\ same_data fm fm'.
Proof.
  intros Hr HN HL Hi.
  destruct (activate_nolimit_ok fm N L idx Hr HN HL Hi) as (fm' & ? & ? & ? & _).
  by exists fm'.
Qed.

Definition fm0 : flow_qman := flowcont_init true.
Lemma fm0_rep : flow_rep fm0 [] (fun _ => []).
Proof. apply flow_qman_init_ok. Qed.

Lemma flow_queue_activate_nolimit_push_witness : exists fm',
  flow_queue_activate_nolimit fm0 3 = Some fm' /\ flow_rep fm' [3] (fun _ => []).
Proof.
  destruct (flow_queue_activate_nolimit_push fm0 [] (fun _ => []) 3 fm0_rep)
    as (fm' & E & H & _).
  - apply not_elem_of_nil.
  - apply not_elem_of_nil.
  - discriminate.
  - exists fm'. exact (conj E H).
Defined.

(** C26: [flow_queue_activate_skiplist] refines the insertion into a list ordered
    by time stamp: whatever level the queue is given, all four levels stay linked
    sublists of each other, and at level 0 the queue goes between the last queue
    that is due by its clamped time stamp and the first that is not. *)
Theorem flow_queue_activate_skiplist_insert r tsv fm N L idx :
  flow_rep fm N L -> idx ∉ N -> idx ∉ L 0%nat -> idx <> IDXLIST_INVAL ->
  is_u32 tsv -> is_u32 (next_ts (fqueues fm !!! idx)) ->
  exists r' fm' L', flow_queue_activate_skiplist r tsv fm idx = Some (r', fm')
  /\ flow_rep fm' N L'
  /\ inserted tsv (clamp_ts tsv (fqueues fm !!! idx)) fm (L 0%nat) (L' 0%nat) idx
  /\ next_ts (fqueues fm' !!! idx) = clamp_ts tsv (fqueues fm !!! idx).
Proof.
  intros Hr HN HL Hi Ht Hn.
  destruct (activate_skiplist_ok r tsv fm N L idx Hr HN HL Hi Ht Hn)
    as (r' & fm' & L' & ? & ? & ? & _ & ? & _).
  by exists r', fm', L'.
Qed.

Lemma flow_queue_activate_skiplist_insert_witness : exists r' fm' L',
  flow_queue_activate_skiplist 42 1000 fm0 3 = Some (r', fm')
  /\ flow_rep fm' [] L' /\ L' 0%nat = [3].
Proof.
  destruct (flow_queue_activate_skiplist_insert 42 1000 fm0 [] (fun _ => []) 3 fm0_rep)
    as (r' & fm' & L' & E & Hr & (A & B & E1 & E2 & _) & _); try cside.
  - apply not_elem_of_nil.
  - apply not_elem_of_nil.
  - discriminate.
  - vm_compute. intuition congruence.
  - exists r', fm', L'. split; [exact E|]. split; [exact Hr|].
    symmetry in E1. apply app_nil in E1 as [-> ->]. exact E2.
Defined.

(** ** Time stamps and random numbers *)

(** [rel_time] is the signed 32-bit distance of the time stamp from the
    current one, except that a time stamp exactly 2^31 behind counts as 2^31
    ahead. *)
Theorem rel_time_signed cur_ts ts_in :
  is_u32 cur_ts -> is_u32 ts_in -> rel_time cur_ts ts_in = rel_time_spec cur_ts ts_in.
Proof. apply rel_time_ok. Qed.

Lemma rel_time_signed_witness :
  rel_time 4294967290 5 = 11 /\ rel_time 5 4294967290 = -11
  /\ rel_time 2147483658 10 = 2147483648.
Proof.
  rewrite (rel_time_signed 4294967290 5 ltac:(cside) ltac:(cside)).
  rewrite (rel_time_signed 5 4294967290 ltac:(cside) ltac:(cside)).
  rewrite (rel_time_signed 2147483658 10 ltac:(cside) ltac:(cside)).
  repeat split.
Defined.

(** The generator is the linear congruence of modulus 2^48: the wrap-around of
    the 64-bit product does not change it, and the value is the upper 32 bits. *)
Theorem utils_rng_gen32_lcg seed :
  0 <= seed < rng_m ->
  utils_rng_gen32 seed
  = ((rng_a * seed + rng_c) mod rng_m, (rng_a * seed + rng_c) mod rng_m / 65536).
Proof. apply rng_next_lcg. Qed.

Lemma utils_rng_gen32_lcg_witness :
  utils_rng_gen32 281474976710655 = (281449761806750, 4294582547).
Proof.
  rewrite (utils_rng_gen32_lcg 281474976710655) by (vm_compute; split; congruence).
  reflexivity.
Defined.

(** ** A poll that does not return *)

Definition lv_budgets : gmap Z Z := list_to_map (map (fun i => (i, 1000000)) (seqZ 0 6)).
Definition lv : option vpoll :=
  let t0 := tas_qman_thread_init (fun _ => false) (fun _ => 0) 1 in
  '(t, _) ← tas_qman_set t0 0 1 1000 2000 1000 11;
  '(t, _) ← tas_qman_set t 1 2 1000 2000 1000 11;
  '(s, _) ← vm_qman_poll 20 50 lv_budgets 1000 2 (mk_vpoll t [] ∅ 0 [] 0);
  '(t, _) ← tas_qman_set (vp_t s) 0 1 0 0 0 11;
  '(t, _) ← tas_qman_set t 0 3 0 100 1000 11;
  Some (s <| vp_t := t |>).

Definition lv_iter (x : vpoll * Z * option Z) : option (vpoll * Z * option Z * bool) :=
  vm_poll_iter 50 lv_budgets 2000 16 x.1.1 x.1.2 x.2.
Definition lv_next (x : vpoll * Z * option Z) : vpoll * Z * option Z :=
  match lv_iter x with Some (y, _) => y | None => x end.
Definition lv0 : vpoll := match lv with Some s => s | None => mk_vpoll (tas_qman_thread_init (fun _ => false) (fun _ => 0) 1) [] ∅ 0 [] 0 end.
Definition lv1 := lv_next (lv0 <| vp_out := [] |> <| vp_oob := [] |>, 0, None).

Definition lv_run (fuel : nat) (x : vpoll * Z * option Z) : option (vpoll * Z) :=
  vm_poll_loop fuel 50 lv_budgets 2000 16 x.1.1 x.1.2 x.2.

Lemma lv_run_iter f x y : lv_iter x = Some (y, true) -> lv_run (S f) x = lv_run f y.
Proof.
  destruct x as [[s c] r], y as [[s' c'] r']. unfold lv_iter, lv_run. cbn [fst snd]. intros E.
  cbn [vm_poll_loop]. by rewrite E.
Qed.

Lemma lv_run_0 x : lv_run 0 x = None.
Proof. done. Qed.

Lemma lv_poll_none f s :
  lv_run f (s <| vp_out := [] |> <| vp_oob := [] |>, 0, None) = None ->
  vm_qman_poll f 50 lv_budgets 2000 16 s = None.
Proof. unfold lv_run, vm_qman_poll. cbn [fst snd]. by intros ->. Qed.

(** An idle VM at the head of the list, followed by rate limited VMs whose
    queues are not due, keeps the poll in its loop forever: a state that
    [tas_qman_set] and [vm_qman_poll] reach from the start, and in which no
    amount of fuel lets the poll return. *)
Theorem vm_qman_poll_livelock : lv = Some lv0 /\
  forall fuel, vm_qman_poll fuel 50 lv_budgets 2000 16 lv0 = None.
Proof.
  split; [vm_compute; reflexivity|].
  assert (E1 : lv_iter (lv0 <| vp_out := [] |> <| vp_oob := [] |>, 0, None) = Some (lv1, true))
    by (vm_compute; reflexivity).
  assert (E2 : lv_iter lv1 = Some (lv_next lv1, true)) by (vm_compute; reflexivity).
  assert (E3 : lv_iter (lv_next lv1) = Some (lv_next (lv_next lv1), true)) by (vm_compute; reflexivity).
  assert (E4 : lv_iter (lv_next (lv_next lv1)) = Some (lv_next lv1, true)) by (vm_compute; reflexivity).
  set (x0 := (_, 0, None)) in E1. set (a := lv_next lv1) in *. set (b := lv_next a) in *.
  assert (Hb : forall f, lv_run f a = None /\ lv_run f b = None).
  { induction f as [|f [IHa IHb]]; [split; apply lv_run_0|].
    rewrite (lv_run_iter _ _ _ E3), (lv_run_iter _ _ _ E4). split; assumption. }
  intros fuel. apply lv_poll_none. fold x0.
  destruct fuel as [|[|f]]; rewrite ?lv_run_0, ?(lv_run_iter _ _ _ E1), ?lv_run_0; [reflexivity..|].
  rewrite (lv_run_iter _ _ _ E2). apply (proj1 (Hb f)).
Qed.
