(* ===== verification/TcpCommon.v ===== *)
(** * tas/fast/tcp_common.h

    Sequence number arithmetic of the fast path: receive window checks and
    trimming, acknowledgement validation, available send window, and the TCP
    option parser.  A rejected packet ([return -1]) is [None]; the out
    parameters are the value of [Some]. *)

From S2P Require Import Prelude FpTypes.

(** ** Definitions *)

Definition tcp_valid_rxseq (fs : flowst) (pkt_seq pkt_bytes : Z)
    : option (Z * Z) :=
  let pseq_a := pkt_seq in
  let pseq_b := u32 (pkt_seq + u16 pkt_bytes) in
  let sseq_a := rx_next_seq fs in
  let sseq_b := u32 (rx_next_seq fs + rx_avail fs) in
  if (pseq_a <=? pseq_b) && (sseq_a <=? sseq_b) then
    if pseq_b <? sseq_a then None
    else if sseq_a <? pseq_a then None
    else Some (u16 (sseq_a - pseq_a),
               u16 (if sseq_b <? pseq_b then pseq_b - sseq_b else 0))
  else if (pseq_a <=? pseq_b) && (sseq_b <? sseq_a) then
    if (sseq_b <=? pseq_a) && (pseq_b <? sseq_a) then None
    else if (sseq_a <? pseq_a) || (pseq_a <? sseq_b) then None
    else Some (u16 (sseq_a - pseq_a), 0)
  else if (pseq_b <? pseq_a) && (sseq_a <=? sseq_b) then
    if pseq_b <? sseq_a then None
    else if sseq_a <? pseq_a then None
    else Some (u16 (sseq_a - pseq_a),
               u16 (if sseq_b <? pseq_b then pseq_b - sseq_b else 0))
  else
    if sseq_a <? pseq_a then None
    else Some (u16 (sseq_a - pseq_a),
               u16 (if sseq_b <? pseq_b then pseq_b - sseq_b else 0)).

Definition tcp_trim_rxbuf (fs : flowst) (pkt_seq pkt_bytes : Z)
    : option (Z * Z) :=
  let pseq_a := pkt_seq in
  let pseq_b := u32 (pkt_seq + u16 pkt_bytes) in
  let sseq_a := rx_next_seq fs in
  let sseq_b := u32 (rx_next_seq fs + rx_avail fs) in
  if (pseq_a <=? pseq_b) && (sseq_a <=? sseq_b) then
    if pseq_b <? sseq_a then None
    else if sseq_b <? pseq_a then None
    else Some (u16 (if pseq_a <? sseq_a then sseq_a - pseq_a else 0),
               u16 (if sseq_b <? pseq_b then pseq_b - sseq_b else 0))
  else if (pseq_a <=? pseq_b) && (sseq_b <? sseq_a) then
    if (sseq_b <? pseq_a) && (pseq_b <? sseq_a) then None
    else Some (u16 (if (sseq_b <? pseq_a) && (pseq_a <? sseq_a)
                    then sseq_a - pseq_a else 0),
               u16 (if (sseq_b <=? pseq_b) && (pseq_b <? sseq_a)
                    then pseq_b - sseq_b else 0))
  else if (pseq_b <? pseq_a) && (sseq_a <=? sseq_b) then
    if (sseq_b <? pseq_a) && (pseq_b <? sseq_a) then None
    else Some (u16 (if (sseq_a <=? pseq_b) || (pseq_a <? sseq_a)
                    then sseq_a - pseq_a else 0),
               u16 (if (sseq_b <? pseq_b) || (pseq_a <=? sseq_a)
                    then pseq_b - sseq_b else 0))
  else
    Some (u16 (if pseq_a <? sseq_a then sseq_a - pseq_a else 0),
          u16 (if sseq_b <? pseq_b then pseq_b - sseq_b else 0)).

(** [ALLOW_FUTURE_ACKS] is defined: unsent bytes may be acknowledged too. *)
Definition tcp_valid_rxack (fs : flowst) (ack : Z) : option Z :=
  let fsack_a := u32 (tx_next_seq fs - tx_sent fs) in
  let fsack_b := u32 (tx_next_seq fs + tx_avail fs) in
  if fsack_a <=? fsack_b then
    if (ack <? fsack_a) || (fsack_b <? ack) then None
    else Some (u32 (ack - fsack_a))
  else
    if (ack <? fsack_a) && (fsack_b <? ack) then None
    else Some (u32 (ack - fsack_a)).

Definition tcp_txavail (fs : flowst) (pavail : option Z) : Z :=
  let buf_avail := match pavail with Some a => a | None => tx_avail fs end in
  let fc_avail :=
    if rx_remote_avail fs <? tx_sent fs then 0
    else rx_remote_avail fs - tx_sent fs in
  if fc_avail <? buf_avail then fc_avail else buf_avail.

(** Result of the option parser: [return 0] with [opts->ts] (an offset into
    the options, or [NULL]), [return -1], or out of fuel. *)
Inductive parse_res : Type :=
| ParseOk (ts : option Z)
| ParseErr
| ParseFuel.

Fixpoint tcp_opt_loop (fuel : nat) (opt : mem) (opts_len off : Z)
    (ts : option Z) : parse_res :=
  match fuel with
  | O => ParseFuel
  | S fuel =>
      if off <? opts_len then
        let opt_kind := opt off in
        let opt_avail := u8 (opts_len - off) in
        if opt_kind =? TCP_OPT_END_OF_OPTIONS then ParseOk ts
        else if opt_kind =? TCP_OPT_NO_OP then
          tcp_opt_loop fuel opt opts_len (u16 (off + 1)) ts
        else if opt_avail <? 2 then ParseErr
        else
          let opt_len := opt (off + 1) in
          if opt_kind =? TCP_OPT_TIMESTAMP then
            if negb (opt_len =? sizeof_ts_opt) then ParseErr
            else tcp_opt_loop fuel opt opts_len (u16 (off + opt_len)) (Some off)
          else tcp_opt_loop fuel opt opts_len (u16 (off + opt_len)) ts
      else ParseOk ts
  end.

Definition tcp_parse_hdr (fuel : nat) (sizeof_p : Z) (tcp : tcp_hdr)
    (rest : mem) (len : Z) : parse_res :=
  let opts_len := u16 (TCPH_HDRLEN tcp * 4 - 20) in
  if (TCPH_HDRLEN tcp <? 5) || (u64 (len - sizeof_p) <? opts_len) then ParseErr
  else tcp_opt_loop fuel rest opts_len 0 None.

Definition tcp_parse_options (fuel : nat) (p : pkt_tcp) (len : Z) : parse_res :=
  tcp_parse_hdr fuel sizeof_pkt_tcp (p_tcp p) (p_rest p) len.

Definition tcp_parse_options_gre (fuel : nat) (p : pkt_gre) (len : Z)
    : parse_res :=
  tcp_parse_hdr fuel sizeof_pkt_gre (g_tcp p) (g_rest p) len.

(** ** Specifications *)

(** Signed distance of a sequence number from the start of the window. *)
Definition seq_dist (seq base : Z) : Z := s32 (seq - base).

(** What trimming a segment of [n] bytes at distance [d] from the start of a
    window of [w] bytes should give. *)
Definition trim_spec (d n w : Z) : option (Z * Z) :=
  if (d + n <? 0) || (w <? d) then None
  else Some (Z.max 0 (- d), Z.max 0 (d + n - w)).

(** The case the third branch of [tcp_trim_rxbuf] misses: the segment wraps
    around 2^32, the window does not, and the segment starts strictly inside
    the window. *)
Definition trim_gap (fs : flowst) (seq n : Z) : Prop :=
  u32 (seq + n) < seq /\ rx_next_seq fs < seq
  /\ seq <= u32 (rx_next_seq fs + rx_avail fs).

Definition window_ok (fs : flowst) : Prop :=
  is_u32 (rx_next_seq fs) /\ 0 <= rx_avail fs <= 1073741824.

(** Case analysis shared by the window proofs: the two interval ends and the
    distance, each with or without wrap-around. *)
Ltac trim_facts fs seq n :=
  destruct (u32_add_cases seq n ltac:(cside) ltac:(cside)) as [[??]|[??]];
  destruct (u32_add_cases (rx_next_seq fs) (rx_avail fs)
              ltac:(cside) ltac:(cside)) as [[??]|[??]];
  destruct (s32_cases seq (rx_next_seq fs) ltac:(cside) ltac:(cside))
    as [[??]|[[??]|[??]]].

(** Trimming is exact outside the gap. *)
Lemma tcp_trim_rxbuf_spec fs seq n :
  window_ok fs -> is_u32 seq -> is_u16 n -> ~ trim_gap fs seq n ->
  tcp_trim_rxbuf fs seq n
  = trim_spec (seq_dist seq (rx_next_seq fs)) n (rx_avail fs).
Proof.
  intros [Hn Hw] Hs Hb Hgap. unfold trim_gap in Hgap.
  unfold tcp_trim_rxbuf, trim_spec, seq_dist. rewrite (u16_id n) by done.
  trim_facts fs seq n.
  all: unfold is_u16, is_u32 in *; zdecide; try reflexivity.
  all: f_equal; f_equal; unfold u16; Z.div_mod_to_equations; lia.
Qed.

Lemma tcp_trim_rxbuf_overrun fs seq n :
  window_ok fs -> is_u32 seq -> is_u16 n -> trim_gap fs seq n ->
  tcp_trim_rxbuf fs seq n = Some (0, 0)
  /\ 0 < seq_dist seq (rx_next_seq fs) <= rx_avail fs
  /\ rx_avail fs < seq_dist seq (rx_next_seq fs) + n.
Proof.
  intros [Hn Hw] Hs Hb Hgap. unfold trim_gap in Hgap.
  unfold tcp_trim_rxbuf, seq_dist. rewrite (u16_id n) by done.
  trim_facts fs seq n.
  all: unfold is_u16, is_u32 in *; try (exfalso; lia).
  all: split; [zdecide; reflexivity|lia].
Qed.

(** Oldest unacknowledged sequence number. *)
Definition snd_una (fs : flowst) : Z := u32 (tx_next_seq fs - tx_sent fs).

Lemma tcp_valid_rxack_spec fs ack :
  is_u32 (tx_next_seq fs) -> is_u32 ack -> 0 <= tx_sent fs -> 0 <= tx_avail fs ->
  tx_sent fs + tx_avail fs < 4294967296 ->
  tcp_valid_rxack fs ack
  = if u32 (ack - snd_una fs) <=? tx_sent fs + tx_avail fs
    then Some (u32 (ack - snd_una fs)) else None.
Proof.
  intros Hn Ha Hs Hv Ht. unfold tcp_valid_rxack, snd_una.
  pose proof (u32_range (tx_next_seq fs - tx_sent fs)) as Hr.
  destruct (u32_sub_cases (tx_next_seq fs) (tx_sent fs)
              ltac:(cside) ltac:(cside)) as [[??]|[??]];
  destruct (u32_add_cases (tx_next_seq fs) (tx_avail fs)
              ltac:(cside) ltac:(cside)) as [[??]|[??]];
  destruct (u32_sub_cases ack (u32 (tx_next_seq fs - tx_sent fs)) Ha Hr)
    as [[??]|[??]].
  all: unfold is_u16, is_u32 in *; zdecide; reflexivity.
Qed.

Lemma tcp_txavail_bound fs pavail :
  0 <= tx_sent fs -> 0 <= rx_remote_avail fs -> 
  0 <= (match pavail with Some a => a | None => tx_avail fs end) ->
  0 <= tcp_txavail fs pavail
  /\ tcp_txavail fs pavail <= (match pavail with Some a => a | None => tx_avail fs end)
  /\ (0 < tcp_txavail fs pavail ->
      tx_sent fs + tcp_txavail fs pavail <= rx_remote_avail fs).
Proof.
  intros. unfold tcp_txavail.
  destruct (Z.ltb_spec (rx_remote_avail fs) (tx_sent fs)), pavail;
    repeat zcase; lia.
Qed.

(** ** Option parsing *)

(** An option with a length byte of zero at [i]. *)
Definition zero_len_opt (opt : mem) (i : Z) : bool :=
  negb (opt i =? TCP_OPT_END_OF_OPTIONS) && negb (opt i =? TCP_OPT_NO_OP)
  && (opt (i + 1) =? 0).

Definition opts_bytes (opt : mem) : Prop := forall i, is_u8 (opt i).

(** [opt_reach opt n off j]: from offset [off], the parser comes to offset [j]
    of [n] bytes of options. *)
Inductive opt_reach (opt : mem) (n : Z) : Z -> Z -> Prop :=
| reach_here off : opt_reach opt n off off
| reach_nop off j :
    off < n -> opt off = TCP_OPT_NO_OP -> opt_reach opt n (off + 1) j ->
    opt_reach opt n off j
| reach_var off j :
    off + 2 <= n -> opt off <> TCP_OPT_END_OF_OPTIONS -> opt off <> TCP_OPT_NO_OP ->
    (opt off = TCP_OPT_TIMESTAMP -> opt (off + 1) = sizeof_ts_opt) ->
    opt_reach opt n (off + opt (off + 1)) j -> opt_reach opt n off j.

(** The parser comes from [off] to an option on which it stays. *)
Definition opt_stuck (opt : mem) (n off : Z) : Prop :=
  exists j, opt_reach opt n off j /\ j + 2 <= n /\ zero_len_opt opt j = true
  /\ opt j <> TCP_OPT_TIMESTAMP.

(** One iteration of the loop, by the kind of the option. *)
Lemma tcp_opt_loop_step fuel opt n off ts :
  0 <= off < n -> n <= 40 -> opts_bytes opt ->
  tcp_opt_loop (S fuel) opt n off ts
  = if opt off =? TCP_OPT_END_OF_OPTIONS then ParseOk ts
    else if opt off =? TCP_OPT_NO_OP then tcp_opt_loop fuel opt n (off + 1) ts
    else if n <? off + 2 then ParseErr
    else if opt off =? TCP_OPT_TIMESTAMP then
      if opt (off + 1) =? sizeof_ts_opt
      then tcp_opt_loop fuel opt n (off + opt (off + 1)) (Some off) else ParseErr
    else tcp_opt_loop fuel opt n (off + opt (off + 1)) ts.
Proof.
  intros Ho Hn Hb. cbn [tcp_opt_loop]. pose proof (Hb (off + 1)) as Hb1.
  rewrite (proj2 (Z.ltb_lt off n)) by lia. rewrite u8_id by cside.
  rewrite (u16_id (off + 1)), (u16_id (off + opt (off + 1))) by cside.
  replace (n - off <? 2) with (n <? off + 2)
    by (destruct (Z.ltb_spec n (off + 2)), (Z.ltb_spec (n - off) 2); lia).
  destruct (opt off =? _); [done|]. destruct (opt off =? _); [done|].
  destruct (n <? off + 2); [done|]. destruct (opt off =? _); [|done].
  by destruct (opt (off + 1) =? sizeof_ts_opt).
Qed.

Lemma tcp_opt_loop_stuck fuel opt n off ts :
  opts_bytes opt -> n <= 40 -> 0 <= off -> Z.max 0 (n - off) < Z.of_nat fuel ->
  tcp_opt_loop fuel opt n off ts = ParseFuel -> opt_stuck opt n off.
Proof.
  intros Hb Hl. revert off ts.
  induction fuel as [|fuel IH]; intros off ts Hoff Hf; [lia|].
  destruct (Z.ltb_spec off n).
  2: { cbn [tcp_opt_loop]. by rewrite (proj2 (Z.ltb_ge off n)) by done. }
  rewrite tcp_opt_loop_step by done. pose proof (Hb (off + 1)) as Hb1.
  destruct (Z.eqb_spec (opt off) TCP_OPT_END_OF_OPTIONS) as [|He]; [done|].
  destruct (Z.eqb_spec (opt off) TCP_OPT_NO_OP) as [Hnop|Hnop].
  { intros (j & Hj & Hz)%IH; [|lia..]. exists j. split; [by apply reach_nop|done]. }
  destruct (Z.ltb_spec n (off + 2)); [done|].
  destruct (Z.eqb_spec (opt (off + 1)) 0) as [E|E].
  - destruct (Z.eqb_spec (opt off) TCP_OPT_TIMESTAMP) as [|Ht]; [by rewrite E|].
    intros _. exists off. split; [apply reach_here|]. split; [done|]. split; [|done].
    unfold zero_len_opt. by rewrite E, (proj2 (Z.eqb_neq _ _) He),
      (proj2 (Z.eqb_neq _ _) Hnop).
  - assert (Hstep : forall ts, (opt off = TCP_OPT_TIMESTAMP ->
      opt (off + 1) = sizeof_ts_opt) ->
      tcp_opt_loop fuel opt n (off + opt (off + 1)) ts = ParseFuel ->
      opt_stuck opt n off).
    { intros ts' Ht (j & Hj & Hz)%IH; [|cside..].
      exists j. split; [by apply reach_var|done]. }
    destruct (Z.eqb_spec (opt off) TCP_OPT_TIMESTAMP);
      [destruct (Z.eqb_spec (opt (off + 1)) sizeof_ts_opt); [|done]|];
      by apply Hstep.
Qed.

Lemma opt_stuck_cases opt n off :
  opt_stuck opt n off ->
  (off + 2 <= n /\ zero_len_opt opt off = true /\ opt off <> TCP_OPT_TIMESTAMP)
  \/ (off < n /\ opt off = TCP_OPT_NO_OP /\ opt_stuck opt n (off + 1))
  \/ (off + 2 <= n /\ opt off <> TCP_OPT_END_OF_OPTIONS
      /\ opt off <> TCP_OPT_NO_OP
      /\ (opt off = TCP_OPT_TIMESTAMP -> opt (off + 1) = sizeof_ts_opt)
      /\ opt_stuck opt n (off + opt (off + 1))).
Proof.
  intros (j & Hr & Hz). destruct Hr as [off|off j H1 H2 Hr|off j H1 H2 H3 H4 Hr].
  - by left.
  - right; left. repeat split; [done..|]. by exists j.
  - right; right. repeat split; [done..|]. by exists j.
Qed.

Lemma tcp_opt_loop_diverges fuel opt n off ts :
  opts_bytes opt -> n <= 40 -> 0 <= off -> opt_stuck opt n off ->
  tcp_opt_loop fuel opt n off ts = ParseFuel.
Proof.
  intros Hb Hn. revert off ts.
  induction fuel as [|fuel IH]; intros off ts Ho Hs; [done|].
  pose proof (Hb (off + 1)) as Hb1.
  destruct (opt_stuck_cases _ _ _ Hs)
    as [(Hl & Hz & Ht)|[(Hl & Hk & Hs')|(Hl & He & Hk & Ht & Hs')]];
    rewrite tcp_opt_loop_step by (done || lia).
  - unfold zero_len_opt in Hz. apply andb_true_iff in Hz as [Hz E].
    apply Z.eqb_eq in E. apply andb_true_iff in Hz as [H1 H2].
    apply negb_true_iff in H1 as ->. apply negb_true_iff in H2 as ->.
    rewrite (proj2 (Z.ltb_ge n (off + 2))), (proj2 (Z.eqb_neq _ _) Ht) by done.
    rewrite E, Z.add_0_r. by apply IH.
  - rewrite Hk. cbn. apply IH; [lia|done].
  - rewrite (proj2 (Z.eqb_neq _ _) He), (proj2 (Z.eqb_neq _ _) Hk),
      (proj2 (Z.ltb_ge n (off + 2))) by done.
    destruct (Z.eqb_spec (opt off) TCP_OPT_TIMESTAMP) as [E|];
      [rewrite (proj2 (Z.eqb_eq _ _) (Ht E))|]; apply IH; (done || cside).
Qed.

Lemma tcp_opt_loop_ts fuel opt opts_len off ts t :
  0 <= off ->
  (forall t0, ts = Some t0 -> 0 <= t0 /\ t0 + 2 <= opts_len
     /\ opt t0 = TCP_OPT_TIMESTAMP /\ opt (t0 + 1) = sizeof_ts_opt) ->
  opts_len <= 40 ->
  tcp_opt_loop fuel opt opts_len off ts = ParseOk (Some t) ->
  0 <= t /\ t + 2 <= opts_len /\ opt t = TCP_OPT_TIMESTAMP
  /\ opt (t + 1) = sizeof_ts_opt.
Proof.
  revert off ts. induction fuel as [|fuel IH]; intros off ts Ho Hts Hl; [done|].
  cbn [tcp_opt_loop].
  destruct (Z.ltb_spec off opts_len); [|intros [= ->]; by apply Hts].
  pose proof (u16_range (off + 1)) as [? _].
  pose proof (u16_range (off + opt (off + 1))) as [? _].
  destruct (opt off =? TCP_OPT_END_OF_OPTIONS); [intros [= ->]; by apply Hts|].
  destruct (opt off =? TCP_OPT_NO_OP); [by eapply IH|].
  rewrite u8_id by cside.
  destruct (Z.ltb_spec (opts_len - off) 2); [done|].
  destruct (Z.eqb_spec (opt off) TCP_OPT_TIMESTAMP); [|by eapply IH].
  destruct (Z.eqb_spec (opt (off + 1)) sizeof_ts_opt); [|done].
  cbn [negb]. apply IH; [done| |done].
  intros t0 [= <-]. repeat split; (done || lia).
Qed.

(** [struct tcp_hdr] has a 16-bit length and flags word. *)
Definition tcp_hdr_ok (h : tcp_hdr) : Prop := is_u16 (_hdrlen_rsvd_flags h).

Lemma TCPH_HDRLEN_range h : tcp_hdr_ok h -> 0 <= TCPH_HDRLEN h <= 15.
Proof.
  intros Hh. unfold TCPH_HDRLEN. rewrite Z.shiftr_div_pow2 by lia.
  pose proof (bswap16_range _ Hh) as Hr. unfold is_u16 in Hr.
  change (2 ^ 12) with 4096. Z.div_mod_to_equations. lia.
Qed.

(** Length of the options of a header that passed the length check. *)
Definition opts_len_of (h : tcp_hdr) : Z := u16 (TCPH_HDRLEN h * 4 - 20).

Lemma opts_len_of_range h :
  tcp_hdr_ok h -> 5 <= TCPH_HDRLEN h ->
  opts_len_of h = TCPH_HDRLEN h * 4 - 20 /\ 0 <= opts_len_of h <= 40.
Proof.
  intros Hh H5. pose proof (TCPH_HDRLEN_range h Hh). unfold opts_len_of.
  rewrite u16_id by cside. lia.
Qed.
