(* ===== verification/FlowTx.v ===== *)
(** * Segment and acknowledgement construction (tas/fast/fast_flows.c)

    DMA access to the shared memory of a VM (tas/fast/dma.h), the circular
    transmit and receive buffers, checksums, and the functions that fill in a
    data segment or turn a received packet into an acknowledgement. *)

From Stdlib Require Import SpecFloat.
From S2P Require Import Prelude FpTypes TcpCommon.

(** ** Environment

    Configuration values, and the DPDK functions the handlers call. *)
Record fpenv : Type := mk_fpenv {
  vm_shm_len : Z;
  fp_xsumoffload : bool;
  bu_max_budget : Z;
  bu_ecn_thresh : spec_float;
  eth_addr : Z;
  rte_ipv4_cksum : ip_hdr -> Z;
  rte_ipv4_udptcp_cksum : ip_hdr -> tcp_hdr -> mem -> Z;
  crc32c_sse42_u32 : Z -> Z -> Z;
  crc32c_sse42_u64 : Z -> Z -> Z;
  rte_ring_has_room : list (Z * Z) -> Z -> bool }.

Definition VIRTUOSO_GRE : bool := false.
Definition TCP_MSS : Z := 1400.
Definition TCP_MAX_RTT : Z := 100000.

(** Shared memory of the VMs: byte at an offset into [vm_shm[vm_id]]. *)
Definition shm : Type := Z -> mem.

Definition shm_set (s : shm) (vm : Z) (m : mem) : shm :=
  fun v => if v =? vm then m else s v.

(** A transmit buffer: its handle and the bytes at [buf_addr]. *)
Record nbuf : Type := mk_nbuf { nb_id : Z; nb_mem : mem }.

(** A received buffer: handle, [data_off], [data_len]. *)
Record rxbuf : Type := mk_rxbuf { rb_id : Z; rb_off : Z; rb_len : Z }.

Section FlowTx.
Context (E : fpenv).

(** ** DMA *)

Definition dma_ok (addr len : Z) : bool :=
  (addr <=? u64 (addr + len)) && (u64 (addr + len) <=? vm_shm_len E).

Definition dma_read (m : mem) (addr len : Z) : option mem :=
  cassert (dma_ok addr len);; Some (fun i => m (addr + i)).

Definition dma_write (m : mem) (addr len : Z) (src : mem) : option mem :=
  cassert (dma_ok addr len);; Some (mem_write m addr len src).

Lemma dma_ok_in addr len :
  0 <= addr -> 0 <= len -> addr + len <= vm_shm_len E ->
  vm_shm_len E < 18446744073709551616 -> dma_ok addr len = true.
Proof.
  intros. unfold dma_ok. rewrite u64_id by cside.
  apply andb_true_iff. split; apply Z.leb_le; lia.
Qed.

(** Read [len] bytes at [pos] of the circular transmit buffer into [dst]
    (memory [d], offset [off]). *)
Definition flow_tx_read (fs : flowst) (m : mem) (pos len : Z) (d : mem) (off : Z)
    : option mem :=
  let len := u16 len in
  if u32 (pos + len) <=? tx_len fs then
    b ← dma_read m (u64 (tx_base fs + pos)) len;
    Some (mem_write d off len b)
  else
    let part := u32 (tx_len fs - pos) in
    b1 ← dma_read m (u64 (tx_base fs + pos)) part;
    let d1 := mem_write d off part b1 in
    b2 ← dma_read m (tx_base fs) (u32 (len - part));
    Some (mem_write d1 (off + part) (u32 (len - part)) b2).

(** Write [len] bytes of [src] at [pos] of the circular receive buffer. *)
Definition flow_rx_write (fs : flowst) (m : mem) (pos len : Z) (src : mem)
    : option mem :=
  let len := u16 len in
  let rx_base := Z.land (rx_base_sp fs) FLEXNIC_PL_FLOWST_RX_MASK in
  if u32 (pos + len) <=? rx_len fs then
    dma_write m (u64 (rx_base + pos)) len src
  else
    let part := u32 (rx_len fs - pos) in
    m1 ← dma_write m (u64 (rx_base + pos)) part src;
    dma_write m1 rx_base (u32 (len - part)) (fun i => src (part + i)).

Definition flow_rx_seq_write (fs : flowst) (m : mem) (seq len : Z) (src : mem)
    : option mem :=
  let diff := u32 (seq - rx_next_seq fs) in
  let pos := u32 (rx_next_pos fs + diff) in
  let pos := if rx_len fs <=? pos then u32 (pos - rx_len fs) else pos in
  cassert (pos <? rx_len fs);;
  flow_rx_write fs m pos len src.

(** ** Checksums *)

Definition network_ip_phdr_xsum (ip_src ip_dst proto l3_paylen : Z) : Z :=
  let sum := u32 (Z.land ip_src 65535) in
  let sum := u32 (sum + Z.land (Z.shiftr ip_src 16) 65535) in
  let sum := u32 (sum + Z.land ip_dst 65535) in
  let sum := u32 (sum + Z.land (Z.shiftr ip_dst 16) 65535) in
  let sum := u32 (sum + Z.shiftl (u16 proto) 8) in
  let sum := u32 (sum + t_beui16 l3_paylen) in
  let sum := u32 (Z.shiftr (Z.land sum 4294901760) 16 + Z.land sum 65535) in
  let sum := u32 (Z.shiftr (Z.land sum 4294901760) 16 + Z.land sum 65535) in
  u16 sum.

Definition tcp_checksums (p : pkt_tcp) (ip_s ip_d l3_paylen : Z)
    : pkt_tcp * xsum_req :=
  let p := p <| p_ip ::= fun h => h <| ip_chksum := 0 |> |> in
  if fp_xsumoffload E then
    (p <| p_tcp ::= fun t =>
        t <| tcp_chksum := network_ip_phdr_xsum ip_s ip_d IP_PROTO_TCP
                             (u16 l3_paylen) |> |>,
     XsumTcp sizeof_eth sizeof_ip)
  else
    let p := p <| p_tcp ::= fun t => t <| tcp_chksum := 0 |> |> in
    let p := p <| p_ip ::= fun h => h <| ip_chksum := rte_ipv4_cksum E h |> |> in
    (p <| p_tcp ::= fun t =>
        t <| tcp_chksum := rte_ipv4_udptcp_cksum E (p_ip p) t (p_rest p) |> |>,
     XsumNone).

Definition gre_checksums (p : pkt_gre) (l3_paylen : Z) : pkt_gre * xsum_req :=
  let p := p <| g_in_ip ::= fun h => h <| ip_chksum := 0 |> |> in
  let p := p <| g_out_ip ::= fun h => h <| ip_chksum := 0 |> |> in
  if fp_xsumoffload E then
    (p <| g_tcp ::= fun t =>
        t <| tcp_chksum := network_ip_phdr_xsum (ip_src (g_in_ip p))
               (ip_dest (g_in_ip p)) IP_PROTO_TCP (u16 l3_paylen) |> |>,
     XsumGre sizeof_eth sizeof_ip sizeof_ip)
  else
    let p := p <| g_tcp ::= fun t => t <| tcp_chksum := 0 |> |> in
    let p := p <| g_in_ip ::= fun h => h <| ip_chksum := rte_ipv4_cksum E h |> |> in
    let p := p <| g_out_ip ::= fun h => h <| ip_chksum := rte_ipv4_cksum E h |> |> in
    (p <| g_tcp ::= fun t =>
        t <| tcp_chksum := rte_ipv4_udptcp_cksum E (g_in_ip p) t (g_rest p) |> |>,
     XsumNone).

(** ** Congestion signal: [double] arithmetic in binary64 *)

Definition double_of_Z (z : Z) : spec_float := binary_normalize 53 1024 z 0 false.

Context {Q : Type}.
Abbreviation ctx_t := (dataplane_context Q).

Definition flow_should_signal_ece (ctx : ctx_t) (vm : Z) : bool :=
  if SFleb (bu_ecn_thresh E) (double_of_Z 0) then false
  else
    let threshold :=
      SFmul 53 1024 (double_of_Z (bu_max_budget E)) (bu_ecn_thresh E) in
    SFltb (double_of_Z (budgets ctx !!! vm)) threshold.

(** ** Queueing packets for transmission (fastemu.h) *)

Definition tx_send (ctx : ctx_t) (nbh : Z) (pkt : pktbuf) (xs : xsum_req)
    (off len : Z) : option ctx_t :=
  let i := tx_num ctx in
  if TXBUF_SIZE <=? i then None
  else Some (ctx <| tx_handles ::= <[i := mk_tx_ent nbh pkt (u16 off) (u16 len) xs]> |>
                 <| tx_num := u16 (i + 1) |>).

Definition arx_cache_add (ctx : ctx_t) (ctx_id vmid opaque rx_bump rx_pos tx_bump
    type_flags : Z) : option ctx_t :=
  let id := arx_num ctx in
  if BATCH_SIZE <=? id then None
  else Some (ctx <| arx_num := u16 (id + 1) |>
                 <| arx_ctx ::= <[id := u16 ctx_id]> |>
                 <| arx_vm ::= <[id := u16 vmid]> |>
                 <| arx_cache ::= <[id :=
                      mk_arx (Z.land type_flags 255) opaque rx_bump rx_pos
                             tx_bump (u8 (Z.shiftr type_flags 8))]> |>).

(** ** Data segments *)

Definition TS_OPTLEN : Z := Z.land (sizeof_ts_opt + 3) (Z.lnot 3).

(** The timestamp option at [off], after [memset(p + 1, 0, optlen)]. *)
Definition write_ts_opt (rest : mem) (ts_my ts_echo : Z) : mem :=
  let r := mem_write rest 0 TS_OPTLEN (fun _ => 0) in
  let r := mem_write r 0 1 (fun _ => TCP_OPT_TIMESTAMP) in
  let r := mem_write r 1 1 (fun _ => sizeof_ts_opt) in
  let r := store32 r 2 (t_beui32 ts_my) in
  store32 r 6 (t_beui32 ts_echo).

Definition seg_flags (fs : flowst) (ctx : ctx_t) (fin : bool) : Z :=
  let fin_fl := if fin then TAS_TCP_FIN else 0 in
  let flags := Z.lor (Z.lor TAS_TCP_PSH TAS_TCP_ACK) fin_fl in
  if has_flag (rx_base_sp fs) FLEXNIC_PL_FLOWST_ECN
     && flow_should_signal_ece ctx (vm_id fs)
  then Z.lor flags TAS_TCP_ECE else flags.

Definition flow_tx_segment (ctx : ctx_t) (m : mem) (nbh : nbuf) (fs : flowst)
    (seq ack rxwnd payload payload_pos ts_echo ts_my : Z) (fin : bool)
    : option ctx_t :=
  let payload := u16 payload in
  let optlen := TS_OPTLEN in
  let hdrs_len := u16 (sizeof_pkt_tcp + optlen) in
  let ip0 := mk_ip 0 0 (t_beui16 (hdrs_len - offsetof_tcp_ip + payload))
               (t_beui16 3) (t_beui16 0) 255 IP_PROTO_TCP 0
               (out_local_ip fs) (out_remote_ip fs) in
  let ip1 := IPH_VHL_SET 4 5 ip0 in
  let ip2 := if has_flag (rx_base_sp fs) FLEXNIC_PL_FLOWST_ECN
             then IPH_ECN_SET TAS_IP_ECN_ECT0 ip1 else ip1 in
  let tcp0 := mk_tcp (local_port fs) (remote_port fs) (t_beui32 seq)
                (t_beui32 ack) 0 (t_beui16 (Z.min 65535 rxwnd)) 0 (t_beui16 0) in
  let tcp1 := TCPH_HDRLEN_FLAGS_SET (5 + optlen / 4) (seg_flags fs ctx fin) tcp0 in
  let rest0 := fun i => nb_mem nbh (sizeof_pkt_tcp + i) in
  let rest1 := write_ts_opt rest0 ts_my ts_echo in
  rest2 ← (if 0 <? payload
           then flow_tx_read fs m payload_pos payload rest1
                  (hdrs_len - sizeof_pkt_tcp)
           else Some rest1);
  let p := mk_pkt_tcp (mk_eth (remote_mac fs) (eth_addr E) (t_beui16 ETH_TYPE_IP))
             ip2 tcp1 rest2 in
  let '(p, xs) := tcp_checksums p (out_local_ip fs) (out_remote_ip fs)
                    (hdrs_len - offsetof_tcp_tcp + payload) in
  tx_send ctx (nb_id nbh) (PktTcp p) xs 0 (hdrs_len + payload).

Definition flow_tx_segment_gre (ctx : ctx_t) (m : mem) (nbh : nbuf) (fs : flowst)
    (seq ack rxwnd payload payload_pos ts_echo ts_my : Z) (fin : bool)
    : option ctx_t :=
  let payload := u16 payload in
  let optlen := TS_OPTLEN in
  let hdrs_len := u16 (sizeof_pkt_gre + optlen) in
  let out0 := mk_ip 0 0 (t_beui16 (hdrs_len - offsetof_gre_out_ip + payload))
               (t_beui16 3) (t_beui16 0) 255 IP_PROTO_GRE 0
               (out_local_ip fs) (out_remote_ip fs) in
  let out1 := IPH_VHL_SET 4 5 out0 in
  let gre := mk_gre (GREH_CKSV 0 1 0 0) (t_beui16 GRE_PROTO_IP) (tunnel_id fs) in
  let in0 := mk_ip 0 0 (t_beui16 (hdrs_len - offsetof_gre_in_ip + payload))
               (t_beui16 3) (t_beui16 0) 255 IP_PROTO_TCP 0
               (in_local_ip fs) (in_remote_ip fs) in
  let in1 := IPH_VHL_SET 4 5 in0 in
  let in2 := if has_flag (rx_base_sp fs) FLEXNIC_PL_FLOWST_ECN
             then IPH_ECN_SET TAS_IP_ECN_ECT0 in1 else in1 in
  let tcp0 := mk_tcp (local_port fs) (remote_port fs) (t_beui32 seq)
                (t_beui32 ack) 0 (t_beui16 (Z.min 65535 rxwnd)) 0 (t_beui16 0) in
  let tcp1 := TCPH_HDRLEN_FLAGS_SET (5 + optlen / 4) (seg_flags fs ctx fin) tcp0 in
  let rest0 := fun i => nb_mem nbh (sizeof_pkt_gre + i) in
  let rest1 := write_ts_opt rest0 ts_my ts_echo in
  rest2 ← (if 0 <? payload
           then flow_tx_read fs m payload_pos payload rest1
                  (hdrs_len - sizeof_pkt_gre)
           else Some rest1);
  let p := mk_pkt_gre (mk_eth (remote_mac fs) (eth_addr E) (t_beui16 ETH_TYPE_IP))
             out1 gre in2 tcp1 rest2 in
  let '(p, xs) := gre_checksums p (hdrs_len - offsetof_gre_tcp + payload) in
  tx_send ctx (nb_id nbh) (PktGre p) xs 0 (hdrs_len + payload).

(** The segment sender selected at build time. *)
Definition flow_tx_seg (ctx : ctx_t) (m : mem) (nbh : nbuf) (fs : flowst)
    (seq ack rxwnd payload payload_pos ts_echo ts_my : Z) (fin : bool)
    : option ctx_t :=
  if VIRTUOSO_GRE
  then flow_tx_segment_gre ctx m nbh fs seq ack rxwnd payload payload_pos
         ts_echo ts_my fin
  else flow_tx_segment ctx m nbh fs seq ack rxwnd payload payload_pos
         ts_echo ts_my fin.

(** ** Acknowledgements: the received packet is rewritten in place *)

Definition ack_flags (fs : flowst) (ctx : ctx_t) (ip : ip_hdr) : Z :=
  let mark_ece := has_flag (rx_base_sp fs) FLEXNIC_PL_FLOWST_ECN
                  && flow_should_signal_ece ctx (vm_id fs) in
  let ecn_flags := if IPH_ECN ip =? TAS_IP_ECN_CE then TAS_TCP_ECE else 0 in
  let ecn_flags := if mark_ece then Z.lor ecn_flags TAS_TCP_ECE else ecn_flags in
  Z.lor TAS_TCP_ACK ecn_flags.

(** TCP header of the acknowledgement, up to the checksum. *)
Definition ack_tcp_hdr (t : tcp_hdr) (seq ack rxwnd flags : Z) : tcp_hdr :=
  let t := t <| tcp_src := tcp_dest t |> <| tcp_dest := tcp_src t |> in
  let t := t <| tcp_wnd := t_beui16 (Z.min 65535 rxwnd) |> in
  let t := t <| tcp_seqno := t_beui32 seq |> <| tcp_ackno := t_beui32 ack |> in
  let t := TCPH_HDRLEN_FLAGS_SET (TCPH_HDRLEN t) flags t in
  t <| tcp_urgp := t_beui16 0 |>.

Definition swap_ip (h : ip_hdr) : ip_hdr :=
  h <| ip_src := ip_dest h |> <| ip_dest := ip_src h |>.

Definition swap_eth (h : eth_hdr) : eth_hdr :=
  mk_eth (eth_src h) (eth_dest h) (eth_type h).

Definition flow_tx_ack (ctx : ctx_t) (fs : flowst)
    (seq ack rxwnd echots myts : Z) (nbh : rxbuf) (p : pkt_tcp) (ts_opt : Z)
    : option ctx_t :=
  let hdrlen := u16 (sizeof_pkt_tcp + (TCPH_HDRLEN (p_tcp p) - 5) * 4) in
  let tcp := ack_tcp_hdr (p_tcp p) seq ack rxwnd (ack_flags fs ctx (p_ip p)) in
  let ip := IPH_ECN_SET TAS_IP_ECN_NONE (swap_ip (p_ip p)) in
  let rest := store32 (p_rest p) (ts_opt + 2) (t_beui32 myts) in
  let rest := store32 rest (ts_opt + 6) (t_beui32 echots) in
  let ip := ip <| ip_len := t_beui16 (hdrlen - offsetof_tcp_ip) |>
               <| ip_ttl := 255 |> in
  let p := mk_pkt_tcp (swap_eth (p_eth p)) ip tcp rest in
  let '(p, xs) := tcp_checksums p (ip_src ip) (ip_dest ip)
                    (hdrlen - offsetof_tcp_tcp) in
  tx_send ctx (rb_id nbh) (PktTcp p) xs (rb_off nbh) hdrlen.

Definition flow_tx_ack_gre (ctx : ctx_t) (fs : flowst)
    (seq ack rxwnd echots myts : Z) (nbh : rxbuf) (p : pkt_gre) (ts_opt : Z)
    : option ctx_t :=
  let hdrlen := u16 (sizeof_pkt_gre + (TCPH_HDRLEN (g_tcp p) - 5) * 4) in
  let tcp := ack_tcp_hdr (g_tcp p) seq ack rxwnd (ack_flags fs ctx (g_in_ip p)) in
  let out_ip := IPH_ECN_SET TAS_IP_ECN_NONE (swap_ip (g_out_ip p)) in
  let in_ip := IPH_ECN_SET TAS_IP_ECN_NONE (swap_ip (g_in_ip p)) in
  let rest := store32 (g_rest p) (ts_opt + 2) (t_beui32 myts) in
  let rest := store32 rest (ts_opt + 6) (t_beui32 echots) in
  let in_ip := in_ip <| ip_len := t_beui16 (hdrlen - offsetof_gre_in_ip) |>
                     <| ip_ttl := 255 |> in
  let out_ip := out_ip <| ip_len := t_beui16 (hdrlen - offsetof_gre_out_ip) |>
                       <| ip_ttl := 255 |> in
  let p := mk_pkt_gre (swap_eth (g_eth p)) out_ip (g_gre p) in_ip tcp rest in
  let '(p, xs) := gre_checksums p (hdrlen - offsetof_gre_tcp) in
  tx_send ctx (rb_id nbh) (PktGre p) xs (rb_off nbh) hdrlen.

End FlowTx.
