(* ===== verification/FlowRx.v ===== *)
(** * Receive path of the fast path (tas/fast/fast_flows.c)

    [fast_flows_packet] and [fast_flows_packet_gre] as a sequence of stages
    over the flow state, the receive buffer and the local variables of the C
    functions.  A stage continues, jumps to the label [unlock], or jumps to
    the label [slowpath]. *)

From S2P Require Import Prelude FpTypes TcpCommon FlowTx.

(** ** State of the handlers *)

(** The parts of fast-path memory a handler can reach.  [w_fwd] is the
    sequence of (core, flow id) enqueued on the forwarding rings of other
    cores, [w_notified] the cores woken up. *)
Record world (Q : Type) : Type := mk_world {
  w_flowst : gmap Z flowst;
  w_flowht : gmap Z flowhte;
  w_steering : gmap Z Z;
  w_shm : shm;
  w_ctx : dataplane_context Q;
  w_fwd : list (Z * Z);
  w_notified : list Z }.
Arguments mk_world {Q}.
Arguments w_flowst {Q}.
Arguments w_flowht {Q}.
Arguments w_steering {Q}.
Arguments w_shm {Q}.
Arguments w_ctx {Q}.
Arguments w_fwd {Q}.
Arguments w_notified {Q}.

#[export] Instance eta_world {Q} : Eta (world Q) := fun r =>
  mk_world (w_flowst r) (w_flowht r) (w_steering r) (w_shm r) (w_ctx r)
    (w_fwd r) (w_notified r).

Definition fs_lock (fs : flowst) : flowst := fs <| lock := 1 |>.
Definition fs_unlock (fs : flowst) : flowst := fs <| lock := 0 |>.

(** The fields of a received segment both packet formats share: TCP header,
    bytes after the struct, [sizeof( *p)], total length of the IP packet that
    carries the TCP segment, offset of the timestamp option. *)
Record rx_seg : Type := mk_rx_seg {
  sg_tcp : tcp_hdr; sg_rest : mem; sg_sizeof : Z; sg_ip_len : Z; sg_ts : Z }.

Definition ts_val (s : rx_seg) : Z := f_beui32 (load32 (sg_rest s) (sg_ts s + 2)).
Definition ts_ecr (s : rx_seg) : Z := f_beui32 (load32 (sg_rest s) (sg_ts s + 6)).
Definition sg_flags (s : rx_seg) : Z := TCPH_FLAGS (sg_tcp s).

Definition tcp_extra_hlen (s : rx_seg) : Z :=
  u16 ((TCPH_HDRLEN (sg_tcp s) - 5) * 4).
Definition sg_payload_off (s : rx_seg) : Z :=
  u32 (sg_sizeof s + tcp_extra_hlen s).
(** [ip.len - (sizeof(ip) + sizeof(tcp) + tcp_extra_hlen)], a [uint32_t]. *)
Definition sg_payload_bytes (s : rx_seg) : Z :=
  u32 (f_beui16 (sg_ip_len s) - (sizeof_ip + sizeof_tcp + tcp_extra_hlen s)).

(** Flow state, receive buffer memory of its VM, and local variables. *)
Record rxst : Type := mk_rxst {
  x_fs : flowst; x_mem : mem;
  x_payload_bytes : Z; x_payload_off : Z; x_seq : Z;
  x_rx_bump : Z; x_tx_bump : Z; x_trigger_ack : bool; x_fin_bump : bool }.
#[export] Instance eta_rxst : Eta rxst := fun r =>
  mk_rxst (x_fs r) (x_mem r) (x_payload_bytes r) (x_payload_off r) (x_seq r)
    (x_rx_bump r) (x_tx_bump r) (x_trigger_ack r) (x_fin_bump r).

Inductive rxres : Type :=
| RxCont (s : rxst)
| RxUnlock (s : rxst)
| RxSlow (no_permanent_sp : bool) (s : rxst).

Definition rx_bind (r : option rxres) (k : rxst -> option rxres)
    : option rxres :=
  match r with
  | Some (RxCont s) => k s
  | _ => r
  end.
Notation "r ;>> k" := (rx_bind r k) (at level 62, left associativity) : tas_scope.

Definition flow_reset_retransmit (fs : flowst) : flowst :=
  let fs := fs <| rx_dupack_cnt := 0 |> in
  let fs := fs <| tx_next_seq := u32 (tx_next_seq fs - tx_sent fs) |> in
  let fs :=
    if tx_sent fs <=? tx_next_pos fs
    then fs <| tx_next_pos := u32 (tx_next_pos fs - tx_sent fs) |>
    else let x := u32 (tx_sent fs - tx_next_pos fs) in
         fs <| tx_next_pos := u32 (tx_len fs - x) |> in
  let fs := fs <| tx_avail := u32 (tx_avail fs + tx_sent fs) |> in
  let fs := fs <| tx_sent := 0 |> in
  let fs := if cnt_tx_drops fs =? 0
            then fs <| tx_rate := tx_rate fs / 2 |> else fs in
  fs <| cnt_tx_drops := u16 (cnt_tx_drops fs + 1) |>.

Section FlowRx.
Context (E : fpenv).

(** ** Stages *)

(** Flow state or TCP flags that send the packet to the slow path. *)
Definition rx_slow_check (s : rx_seg) (x : rxst) : option rxres :=
  let fast_flags := Z.lor TAS_TCP_ACK (Z.lor TAS_TCP_PSH (Z.lor TAS_TCP_ECE
                      (Z.lor TAS_TCP_CWR TAS_TCP_FIN))) in
  if negb (Z.land (rx_base_sp (x_fs x)) FLEXNIC_PL_FLOWST_SLOWPATH =? 0)
  then Some (RxSlow false x)
  else if negb (Z.land (sg_flags s) (Z.lnot fast_flags) =? 0)
  then Some (RxSlow (negb (Z.land (sg_flags s) TAS_TCP_SYN =? 0)) x)
  else Some (RxCont x).

(** Processing of a valid acknowledgement of [bump] bytes. *)
Definition rx_ack_bump (s : rx_seg) (bump : Z) (fs : flowst) : flowst :=
  let fs := fs <| cnt_rx_ack_bytes := u32 (cnt_rx_ack_bytes fs + bump) |> in
  let fs := if has_flag (sg_flags s) TAS_TCP_ECE
            then fs <| cnt_rx_ecn_bytes := u32 (cnt_rx_ecn_bytes fs + bump) |>
            else fs in
  if bump <=? tx_sent fs
  then fs <| tx_sent := u32 (tx_sent fs - bump) |>
  else
    let more := u32 (bump - tx_sent fs) in
    let fs := fs <| tx_next_seq := u32 (tx_next_seq fs + more) |> in
    let fs := fs <| tx_next_pos := u32 (tx_next_pos fs + more) |> in
    let fs := if tx_len fs <=? tx_next_pos fs
              then fs <| tx_next_pos := u32 (tx_next_pos fs - tx_len fs) |>
              else fs in
    let fs := fs <| tx_avail := u32 (tx_avail fs - more) |> in
    fs <| tx_sent := 0 |>.

(** ACK statistics, acknowledgement processing, duplicate ACK handling. *)
Definition rx_ack (s : rx_seg) (orig_payload : Z) (x : rxst) : option rxres :=
  let is_ack := has_flag (sg_flags s) TAS_TCP_ACK in
  let x := if 0 <? x_payload_bytes x then x <| x_trigger_ack := true |> else x in
  let x := if is_ack
           then x <| x_fs ::= fun fs =>
                  fs <| cnt_rx_acks := u16 (cnt_rx_acks fs + 1) |> |>
           else x in
  match (if is_ack then tcp_valid_rxack (x_fs x) (f_beui32 (tcp_ackno (sg_tcp s)))
         else None) with
  | None => Some (RxCont x)
  | Some bump =>
      let x := x <| x_tx_bump := bump |> <| x_fs ::= rx_ack_bump s bump |> in
      if negb (bump =? 0)
      then Some (RxCont (x <| x_fs ::= fun fs => fs <| rx_dupack_cnt := 0 |> |>))
      else if orig_payload =? 0 then
        let x := x <| x_fs ::= fun fs =>
                   fs <| rx_dupack_cnt := u32 (rx_dupack_cnt fs + 1) |> |> in
        if 3 <=? rx_dupack_cnt (x_fs x)
        then Some (RxUnlock (x <| x_fs ::= flow_reset_retransmit |>))
        else Some (RxCont x)
      else Some (RxCont x)
  end.

(** Trim the payload to the free part of the receive buffer. *)
Definition rx_trim (x : rxst) : option rxres :=
  match tcp_trim_rxbuf (x_fs x) (x_seq x) (x_payload_bytes x) with
  | None => Some (RxUnlock (x <| x_trigger_ack := true |>))
  | Some (trim_start, trim_end) =>
      Some (RxCont
        (x <| x_payload_bytes := u32 (x_payload_bytes x - (trim_start + trim_end)) |>
           <| x_payload_off := u32 (x_payload_off x + trim_start) |>
           <| x_seq := u32 (x_seq x + trim_start) |>))
  end.

(** [(uint8_t * ) p + payload_off]. *)
Definition rx_payload_ptr (s : rx_seg) (x : rxst) : mem :=
  fun i => sg_rest s (x_payload_off x - sg_sizeof s + i).

(** Out-of-order segment: keep it if it creates or extends the interval. *)
Definition rx_ooo (s : rx_seg) (x : rxst) : option rxres :=
  let fs := x_fs x in
  let seq := x_seq x in
  let n := x_payload_bytes x in
  if seq =? rx_next_seq fs then Some (RxCont x)
  else
    let x := x <| x_trigger_ack := true |> in
    if n =? 0 then Some (RxUnlock x)
    else if rx_ooo_len fs =? 0 then
      let fs := fs <| rx_ooo_start := seq |> <| rx_ooo_len := n |> in
      m ← flow_rx_seq_write E fs (x_mem x) seq n (rx_payload_ptr s x);
      Some (RxUnlock (x <| x_fs := fs |> <| x_mem := m |>))
    else if u32 (seq + n) =? rx_ooo_start fs then
      let fs := fs <| rx_ooo_start := seq |>
                   <| rx_ooo_len := u32 (rx_ooo_len fs + n) |> in
      m ← flow_rx_seq_write E fs (x_mem x) seq n (rx_payload_ptr s x);
      Some (RxUnlock (x <| x_fs := fs |> <| x_mem := m |>))
    else if u32 (rx_ooo_start fs + rx_ooo_len fs) =? seq then
      let fs := fs <| rx_ooo_len := u32 (rx_ooo_len fs + n) |> in
      m ← flow_rx_seq_write E fs (x_mem x) seq n (rx_payload_ptr s x);
      Some (RxUnlock (x <| x_fs := fs |> <| x_mem := m |>))
    else Some (RxUnlock x).

(** Timestamp echo, RTT estimate, remote window, data after FIN. *)
Definition rx_rtt (s : rx_seg) (ts : Z) (fs : flowst) : flowst :=
  let fs := fs <| tx_next_ts := ts_val s |> in
  let fs :=
    if has_flag (sg_flags s) TAS_TCP_ACK && negb (ts_ecr s =? 0) then
      let rtt := u32 (ts - ts_ecr s) in
      if rtt <? TCP_MAX_RTT then
        if negb (rtt_est fs =? 0)
        then fs <| rtt_est := u32 (u32 (rtt_est fs * 7) + rtt) / 8 |>
        else fs <| rtt_est := rtt |>
      else fs
    else fs in
  fs <| rx_remote_avail := f_beui16 (tcp_wnd (sg_tcp s)) |>.

Definition rx_update (s : rx_seg) (ts : Z) (x : rxst) : option rxres :=
  let x := x <| x_fs ::= rx_rtt s ts |> in
  if has_flag (rx_base_sp (x_fs x)) FLEXNIC_PL_FLOWST_RXFIN
     && (0 <? x_payload_bytes x)
  then Some (RxUnlock x) else Some (RxCont x).

(** Advance the receive position by [n] bytes. *)
Definition rx_advance (n : Z) (fs : flowst) : option flowst :=
  let fs := fs <| rx_avail := u32 (rx_avail fs - n) |> in
  let fs := fs <| rx_next_pos := u32 (rx_next_pos fs + n) |> in
  let fs := if rx_len fs <=? rx_next_pos fs
            then fs <| rx_next_pos := u32 (rx_next_pos fs - rx_len fs) |>
            else fs in
  cassert (rx_next_pos fs <? rx_len fs);;
  Some (fs <| rx_next_seq := u32 (rx_next_seq fs + n) |>).

(** Merge or drop the out-of-order interval after in-order data; returns the
    bytes it adds to [rx_bump]. *)
Definition rx_ooo_merge (fs : flowst) : option (flowst * Z) :=
  if rx_ooo_len fs =? 0 then Some (fs, 0)
  else match tcp_trim_rxbuf fs (rx_ooo_start fs) (rx_ooo_len fs) with
  | None => Some (fs <| rx_ooo_len := 0 |>, 0)
  | Some (trim_start, trim_end) =>
      let fs := fs <| rx_ooo_start := u32 (rx_ooo_start fs + trim_start) |>
                   <| rx_ooo_len := u32 (rx_ooo_len fs - (trim_start + trim_end)) |> in
      if (0 <? rx_ooo_len fs) && (rx_ooo_start fs =? rx_next_seq fs) then
        let n := rx_ooo_len fs in
        fs ← rx_advance n fs;
        Some (fs <| rx_ooo_len := 0 |>, n)
      else Some (fs, 0)
  end.

(** Copy in-order payload to the receive buffer. *)
Definition rx_payload (s : rx_seg) (x : rxst) : option rxres :=
  let n := x_payload_bytes x in
  if 0 <? n then
    m ← flow_rx_write E (x_fs x) (x_mem x) (rx_next_pos (x_fs x)) n
          (rx_payload_ptr s x);
    fs ← rx_advance n (x_fs x);
    '(fs, ooo) ← rx_ooo_merge fs;
    Some (RxCont (x <| x_fs := fs |> <| x_mem := m |>
                    <| x_rx_bump := u32 (n + ooo) |> <| x_trigger_ack := true |>))
  else Some (RxCont x).

(** FIN flag: accepted once all data before it has been received. *)
Definition rx_fin (s : rx_seg) (orig_payload : Z) (x : rxst) : option rxres :=
  let fs := x_fs x in
  if has_flag (sg_flags s) TAS_TCP_FIN
     && (Z.land (rx_base_sp fs) FLEXNIC_PL_FLOWST_RXFIN =? 0) then
    if (rx_next_seq fs =? u32 (f_beui32 (tcp_seqno (sg_tcp s)) + orig_payload))
       && (rx_ooo_len fs =? 0)
    then Some (RxCont
           (x <| x_fin_bump := true |>
              <| x_fs := fs <| rx_base_sp := Z.lor (rx_base_sp fs)
                                               FLEXNIC_PL_FLOWST_RXFIN |>
                            <| rx_next_seq := u32 (rx_next_seq fs + 1) |> |>
              <| x_trigger_ack := true |>))
    else Some (RxCont x)
  else Some (RxCont x).

(** From the slow path checks to the label [unlock]. *)
Definition rx_stages (s : rx_seg) (ts : Z) (fs : flowst) (m : mem)
    : option rxres :=
  let orig_payload := sg_payload_bytes s in
  let x := mk_rxst fs m orig_payload (sg_payload_off s)
             (f_beui32 (tcp_seqno (sg_tcp s))) 0 0 false false in
  rx_slow_check s x ;>> rx_ack s orig_payload ;>> rx_trim ;>> rx_ooo s
    ;>> rx_update s ts ;>> rx_payload s ;>> rx_fin s orig_payload.

(** ** The handlers *)

Context {Q : Type} `{QmanOps Q}.

Definition QMAN_SET_ALL : Z :=
  Z.lor QMAN_SET_RATE (Z.lor QMAN_SET_MAXCHUNK QMAN_SET_AVAIL).

(** [if (tas_qman_set(...) != 0) abort();] *)
Definition qman_set_or_abort (ctx : dataplane_context Q)
    (vm flow rate avail chunk flags : Z) : option (dataplane_context Q) :=
  '(q, r) ← qman_set (qman ctx) vm flow rate avail chunk flags;
  cassert (r =? 0);;
  Some (ctx <| qman := q |>).

(** Budget accounting before the flow is locked. *)
Definition rx_budget (ctx : dataplane_context Q) (spend_budget : bool)
    (vm payload_bytes : Z) : dataplane_context Q :=
  if spend_budget
  then ctx <| vm_counters ::= fun c => <[vm := s32 (c !!! vm + payload_bytes)]> c |>
           <| counters_total ::= fun c => s32 (c + payload_bytes) |>
  else ctx.

(** From the label [unlock]: application notification, queue manager update,
    acknowledgement.  [send_ack] is [flow_tx_ack] or [flow_tx_ack_gre] applied
    to the received packet. *)
Definition rx_finish
    (send_ack : dataplane_context Q -> flowst -> option (dataplane_context Q))
    (ctx : dataplane_context Q) (flow_id rx_pos old_avail : Z) (x : rxst)
    : option (dataplane_context Q) :=
  let fs := x_fs x in
  ctx ← (if negb (x_rx_bump x =? 0) || negb (x_tx_bump x =? 0) || x_fin_bump x
         then
           let type := if x_fin_bump x
             then Z.lor FLEXTCP_PL_ARX_CONNUPDATE
                    (Z.shiftl FLEXTCP_PL_ARX_FLRXDONE 8)
             else FLEXTCP_PL_ARX_CONNUPDATE in
           arx_cache_add ctx (db_id fs) (vm_id fs) (opaque fs) (x_rx_bump x)
             rx_pos (x_tx_bump x) type
         else Some ctx);
  let new_avail := tcp_txavail fs None in
  ctx ← (if old_avail <? new_avail
         then qman_set_or_abort ctx (vm_id fs) flow_id (tx_rate fs) new_avail
                TCP_MSS QMAN_SET_ALL
         else Some ctx);
  if x_trigger_ack x then send_ack ctx fs else Some ctx.

Definition rx_handler (s : rx_seg)
    (send_ack : dataplane_context Q -> flowst -> option (dataplane_context Q))
    (w : world Q) (fid : Z) (spend_budget : bool) (ts : Z)
    : option (world Q * Z) :=
  let fs := w_flowst w !!! fid in
  let flow_id := u16 fid in
  let ctx := rx_budget (w_ctx w) spend_budget (vm_id fs) (sg_payload_bytes s) in
  let w := w <| w_ctx := ctx |> in
  if spend_budget && (budgets ctx !!! vm_id fs <=? 0) then Some (w, 0)
  else
    let fs := fs_lock fs in
    let old_avail := tcp_txavail fs None in
    let rx_pos := rx_next_pos fs in
    r ← rx_stages s ts fs (w_shm w (vm_id fs));
    match r with
    | RxSlow no_permanent_sp x =>
        let fs := if no_permanent_sp then x_fs x
          else x_fs x <| rx_base_sp ::= fun b => Z.lor b FLEXNIC_PL_FLOWST_SLOWPATH |> in
        Some (w <| w_flowst ::= <[fid := fs_unlock fs]> |>, -1)
    | RxCont x | RxUnlock x =>
        ctx ← rx_finish send_ack (w_ctx w) flow_id rx_pos old_avail x;
        Some (w <| w_ctx := ctx |>
                <| w_shm ::= fun m => shm_set m (vm_id fs) (x_mem x) |>
                <| w_flowst ::= <[fid := fs_unlock (x_fs x)]> |>,
              if x_trigger_ack x then 1 else 0)
    end.

Definition tcp_seg (p : pkt_tcp) (ts_opt : Z) : rx_seg :=
  mk_rx_seg (p_tcp p) (p_rest p) sizeof_pkt_tcp (ip_len (p_ip p)) ts_opt.

Definition gre_seg (p : pkt_gre) (ts_opt : Z) : rx_seg :=
  mk_rx_seg (g_tcp p) (g_rest p) sizeof_pkt_gre (ip_len (g_in_ip p)) ts_opt.

Definition fast_flows_packet (w : world Q) (nbh : rxbuf) (p : pkt_tcp) (fid : Z)
    (ts_opt : Z) (spend_budget : bool) (ts : Z) : option (world Q * Z) :=
  rx_handler (tcp_seg p ts_opt)
    (fun ctx fs => flow_tx_ack E ctx fs (tx_next_seq fs) (rx_next_seq fs)
                     (rx_avail fs) (tx_next_ts fs) ts nbh p ts_opt)
    w fid spend_budget ts.

Definition fast_flows_packet_gre (w : world Q) (nbh : rxbuf) (p : pkt_gre)
    (fid : Z) (ts_opt : Z) (spend_budget : bool) (ts : Z)
    : option (world Q * Z) :=
  rx_handler (gre_seg p ts_opt)
    (fun ctx fs => flow_tx_ack_gre E ctx fs (tx_next_seq fs) (rx_next_seq fs)
                     (rx_avail fs) (tx_next_ts fs) ts nbh p ts_opt)
    w fid spend_budget ts.

End FlowRx.
