(* ===== verification/FlowOps.v ===== *)
(** * The other flow handlers (tas/fast/fast_flows.c)

    Queue manager events ([fast_flows_qman], [fast_flows_qman_fwd]), updates
    from the application ([fast_flows_bump]), retransmission requests of the
    slow path, flow lookup ([fast_flows_packet_fss]) and the header checks
    ([fast_flows_packet_parse]). *)

From S2P Require Import Prelude FpTypes TcpCommon FlowTx FlowRx.

Section FlowOps.
Context (E : fpenv) {Q : Type} `{QmanOps Q}.
Abbreviation wld := (world Q).

(** Store the register file of a flow and release its lock. *)
Definition put_unlock (w : wld) (fid : Z) (fs : flowst) : wld :=
  w <| w_flowst ::= <[fid := fs_unlock fs]> |>.

(** ** Queue manager events *)

(** The flow group has moved: pass the flow on and clear its queue here. *)
Definition qman_forward (w : wld) (vm_id flow_id new_core : Z) : option wld :=
  cassert (rte_ring_has_room E (w_fwd w) new_core);;
  let w := w <| w_fwd ::= fun l => l ++ [(new_core, flow_id)] |> in
  ctx ← qman_set_or_abort (w_ctx w) vm_id flow_id 0 0 0 QMAN_SET_ALL;
  Some (w <| w_ctx := ctx |> <| w_notified ::= fun l => l ++ [new_core] |>).

(** Account [len] bytes as sent. *)
Definition tx_advance (len : Z) (fs : flowst) : flowst :=
  let fs := fs <| tx_next_seq := u32 (tx_next_seq fs + len) |> in
  let fs := fs <| tx_next_pos := u32 (tx_next_pos fs + len) |> in
  let fs := if tx_len fs <=? tx_next_pos fs
            then fs <| tx_next_pos := u32 (tx_next_pos fs - tx_len fs) |>
            else fs in
  let fs := fs <| tx_sent := u32 (tx_sent fs + len) |> in
  fs <| tx_avail := u32 (tx_avail fs - len) |>.

Definition fast_flows_qman (w : wld) (vmid queue : Z) (nbh : nbuf) (ts : Z)
    : option (wld * Z) :=
  let flow_id := queue in
  let fs := fs_lock (w_flowst w !!! flow_id) in
  let new_core := w_steering w !!! flow_group fs in
  if negb (new_core =? ctx_id (w_ctx w)) then
    w ← qman_forward w vmid flow_id new_core;
    Some (put_unlock w flow_id fs, -1)
  else
    let avail := tcp_txavail fs None in
    if avail =? 0 then Some (put_unlock w flow_id fs, -1)
    else
      let len := Z.min avail TCP_MSS in
      let tx_seq := tx_next_seq fs in
      let tx_pos := tx_next_pos fs in
      let rx_wnd := rx_avail fs in
      let ack := rx_next_seq fs in
      let fs := tx_advance len fs in
      let fin := has_flag (rx_base_sp fs) FLEXNIC_PL_FLOWST_TXFIN
                 && (tx_avail fs =? 0) in
      cassert (negb fin || (0 <? len));;
      let len := if fin then u32 (len - 1) else len in
      ctx ← flow_tx_seg E (w_ctx w) (w_shm w (vm_id fs)) nbh fs tx_seq ack
              rx_wnd len tx_pos (tx_next_ts fs) ts fin;
      Some (put_unlock (w <| w_ctx := ctx |>) flow_id fs, 0).

Definition fast_flows_qman_fwd (w : wld) (fid : Z) : option (wld * Z) :=
  let flow_id := u16 fid in
  let fs := fs_lock (w_flowst w !!! fid) in
  let avail := tcp_txavail fs None in
  ctx ← qman_set_or_abort (w_ctx w) (vm_id fs) flow_id (tx_rate fs) avail
          TCP_MSS QMAN_SET_ALL;
  Some (put_unlock (w <| w_ctx := ctx |>) fid fs, 0).

(** ** Updates from the application *)

(** An out of order bump. *)
Definition bump_is_old (fs : flowst) (bseq : Z) : bool :=
  ((bump_seq fs <=? bseq) && (65535 / 2 <? bseq - bump_seq fs))
  || ((bseq <? bump_seq fs)
      && ((bump_seq fs <? (65535 / 4) * 3) || (65535 / 4 <? bseq))).

(** Empty segment that announces the receive window. *)
Definition send_window_update (ctx : dataplane_context Q) (m : mem) (nbh : nbuf)
    (fs : flowst) (ts : Z) : option (dataplane_context Q) :=
  flow_tx_seg E ctx m nbh fs (tx_next_seq fs) (rx_next_seq fs) (rx_avail fs)
    0 0 (tx_next_ts fs) ts false.

Definition fast_flows_bump (w : wld) (flow_id bseq rx_bump tx_bump flags : Z)
    (nbh : nbuf) (ts : Z) : option (wld * Z) :=
  let fs := fs_lock (w_flowst w !!! flow_id) in
  if bump_is_old fs bseq then Some (put_unlock w flow_id fs, -1)
  else
    let fs := fs <| bump_seq := bseq |> in
    let txdone := has_flag flags FLEXTCP_PL_ATX_FLTXDONE in
    let txfin := has_flag (rx_base_sp fs) FLEXNIC_PL_FLOWST_TXFIN in
    let closed := txfin && negb (tx_bump =? 0) in
    let tx_bump := if closed then 0 else tx_bump in
    if negb closed && txdone
       && (Z.land (rx_base_sp fs) FLEXNIC_PL_FLOWST_TXFIN =? 0) && (tx_bump =? 0)
    then Some (put_unlock w flow_id fs, -1)
    else
      let avail := u32 (tx_avail fs + tx_bump) in
      if (tx_len fs <? tx_bump) || (tx_len fs <? avail)
         || (tx_len fs <? u32 (avail + tx_sent fs))
      then Some (put_unlock w flow_id fs, -1)
      else if (rx_len fs <? rx_bump)
              || (tx_len fs <? u32 (rx_bump + rx_avail fs))
      then Some (put_unlock w flow_id fs, -1)
      else
        let old_avail := tcp_txavail fs None in
        let new_avail := tcp_txavail fs (Some avail) in
        let fs :=
          if txdone && (Z.land (rx_base_sp fs) FLEXNIC_PL_FLOWST_TXFIN =? 0)
          then fs <| rx_base_sp ::= fun b => Z.lor b FLEXNIC_PL_FLOWST_TXFIN |>
          else fs in
        ctx ← (if old_avail <? new_avail
               then qman_set_or_abort (w_ctx w) (vm_id fs) flow_id (tx_rate fs)
                      new_avail TCP_MSS QMAN_SET_ALL
               else Some (w_ctx w));
        let w := w <| w_ctx := ctx |> in
        let fs := fs <| tx_avail := avail |> in
        let rx_avail_prev := rx_avail fs in
        let fs := fs <| rx_avail := u32 (rx_avail fs + rx_bump) |> in
        if (new_avail =? 0) && (rx_avail_prev =? 0) && negb (rx_avail fs =? 0)
        then
          ctx ← send_window_update (w_ctx w) (w_shm w (vm_id fs)) nbh fs ts;
          Some (put_unlock (w <| w_ctx := ctx |>) flow_id fs, 0)
        else Some (put_unlock w flow_id fs, -1).

(** ** Retransmission *)

Definition count_kernel_op (w : wld) (vm : Z) : wld :=
  w <| w_ctx ::= fun ctx =>
         ctx <| counters_total ::= fun c => s32 (c + 1) |>
             <| vm_counters ::= fun c => <[vm := s32 (c !!! vm + 1)]> c |> |>.

Definition fast_flows_winretransmit (w : wld) (flow_id : Z) (nbh : nbuf) (ts : Z)
    : option wld :=
  let fs := fs_lock (w_flowst w !!! flow_id) in
  let w := count_kernel_op w (vm_id fs) in
  ctx ← send_window_update (w_ctx w) (w_shm w (vm_id fs)) nbh fs ts;
  Some (put_unlock (w <| w_ctx := ctx |>) flow_id fs).

Definition fast_flows_retransmit (w : wld) (flow_id : Z) : option wld :=
  let fs := fs_lock (w_flowst w !!! flow_id) in
  let w := count_kernel_op w (vm_id fs) in
  let old_avail := tcp_txavail fs None in
  if tx_sent fs =? 0 then Some (put_unlock w flow_id fs)
  else
    let fs := flow_reset_retransmit fs in
    let new_avail := tcp_txavail fs None in
    ctx ← (if old_avail <? new_avail
           then qman_set_or_abort (w_ctx w) (vm_id fs) flow_id (tx_rate fs)
                  new_avail TCP_MSS QMAN_SET_ALL
           else Some (w_ctx w));
    Some (put_unlock (w <| w_ctx := ctx |>) flow_id fs).

(** ** Flow lookup *)

Record flow_key : Type := mk_flow_key {
  key_local_ip : Z; key_remote_ip : Z; key_local_port : Z; key_remote_port : Z }.

Definition flow_hash_of (k : flow_key) : Z :=
  crc32c_sse42_u32 E
    (Z.lor (key_local_port k) (u32 (Z.shiftl (key_remote_port k) 16)))
    (crc32c_sse42_u64 E
       (Z.lor (key_local_ip k) (u64 (Z.shiftl (key_remote_ip k) 32))) 0).

Definition flow_hash_gre (tunnel local_p remote_p : Z) : Z :=
  crc32c_sse42_u32 E (Z.lor local_p (u32 (Z.shiftl remote_p 16)))
    (crc32c_sse42_u32 E tunnel 0).

(** Probe [n] buckets from position [j]; [matches] compares the addresses. *)
Fixpoint fss_probe (w : wld) (matches : flowst -> bool) (h j : Z) (n : nat)
    : option Z :=
  match n with
  | O => None
  | S n =>
      let k := u32 (h + j) mod FLEXNIC_PL_FLOWHT_ENTRIES in
      let e := w_flowht w !!! k in
      let ffid := flow_id e in
      let fid := Z.land ffid (Z.shiftl 1 FLEXNIC_PL_FLOWHTE_POSSHIFT - 1) in
      if (Z.land ffid FLEXNIC_PL_FLOWHTE_VALID =? 0) || negb (flow_hash e =? h)
      then fss_probe w matches h (j + 1) n
      else if matches (w_flowst w !!! fid) then Some fid
      else fss_probe w matches h (j + 1) n
  end.

Definition fss_match (p : pkt_tcp) (fs : flowst) : bool :=
  (out_local_ip fs =? ip_dest (p_ip p)) && (out_remote_ip fs =? ip_src (p_ip p))
  && (local_port fs =? tcp_dest (p_tcp p))
  && (remote_port fs =? tcp_src (p_tcp p)).

Definition fss_one (w : wld) (p : pkt_tcp) : option Z :=
  let key := mk_flow_key (ip_dest (p_ip p)) (ip_src (p_ip p))
               (tcp_dest (p_tcp p)) (tcp_src (p_tcp p)) in
  fss_probe w (fss_match p) (flow_hash_of key) 0
    (Z.to_nat FLEXNIC_PL_FLOWHT_NBSZ).

Definition fast_flows_packet_fss (w : wld) (ps : list pkt_tcp)
    : list (option Z) := map (fss_one w) ps.

Definition fss_match_gre (p : pkt_gre) (fs : flowst) : bool :=
  (out_local_ip fs =? ip_dest (g_out_ip p))
  && (out_remote_ip fs =? ip_src (g_out_ip p))
  && (in_local_ip fs =? ip_dest (g_in_ip p))
  && (in_remote_ip fs =? ip_src (g_in_ip p))
  && (tunnel_id fs =? gre_key (g_gre p))
  && (local_port fs =? tcp_dest (g_tcp p))
  && (remote_port fs =? tcp_src (g_tcp p)).

Definition fss_one_gre (w : wld) (p : pkt_gre) : option Z :=
  fss_probe w (fss_match_gre p)
    (flow_hash_gre (gre_key (g_gre p)) (tcp_dest (g_tcp p)) (tcp_src (g_tcp p)))
    0 (Z.to_nat FLEXNIC_PL_FLOWHT_NBSZ).

Definition fast_flows_packet_fss_gre (w : wld) (ps : list pkt_gre)
    : list (option Z) := map (fss_one_gre w) ps.

(** ** Header checks

    [ParseFuel]: the option parser has not returned. *)

(** The part of [cond] before the option parser. *)
Definition hdr_bad (p : pkt_tcp) (len : Z) : bool :=
  (len <? sizeof_pkt_tcp)
  || negb (f_beui16 (eth_type (p_eth p)) =? ETH_TYPE_IP)
  || negb (ip_proto (p_ip p) =? IP_PROTO_TCP)
  || negb (IPH_V (p_ip p) =? 4) || negb (IPH_HL (p_ip p) =? 5)
  || (TCPH_HDRLEN (p_tcp p) <? 5)
  || (len <? f_beui16 (ip_len (p_ip p)) + sizeof_eth).

Definition hdr_bad_gre (p : pkt_gre) (len : Z) : bool :=
  (len <? sizeof_pkt_gre)
  || negb (f_beui16 (eth_type (g_eth p)) =? ETH_TYPE_IP)
  || negb (ip_proto (g_out_ip p) =? IP_PROTO_GRE)
  || negb (ip_proto (g_in_ip p) =? IP_PROTO_TCP)
  || negb (f_beui16 (gre_proto (g_gre p)) =? GRE_PROTO_IP)
  || negb (IPH_V (g_out_ip p) =? 4) || negb (IPH_HL (g_out_ip p) =? 5)
  || negb (IPH_V (g_in_ip p) =? 4) || negb (IPH_HL (g_in_ip p) =? 5)
  || (TCPH_HDRLEN (g_tcp p) <? 5)
  || (len <? f_beui16 (ip_len (g_out_ip p)) + sizeof_eth).

(** The flow and the timestamp option of a packet that stays on the fast path. *)
Definition parse_keep (bad : bool) (r : parse_res) (fss : option Z)
    : option (option (Z * Z)) :=
  match fss, r with
  | None, _ => Some None
  | Some _, ParseFuel => None
  | Some fid, ParseOk (Some ts) => Some (if bad then None else Some (fid, ts))
  | Some _, _ => Some None
  end.

Definition fast_flows_packet_parse (fuel : nat)
    (b : pkt_tcp * Z * option Z) : option (option (Z * Z)) :=
  let '(p, len, fss) := b in
  parse_keep (hdr_bad p len) (tcp_parse_options fuel p len) fss.

Definition fast_flows_packet_parse_gre (fuel : nat)
    (b : pkt_gre * Z * option Z) : option (option (Z * Z)) :=
  let '(p, len, fss) := b in
  parse_keep (hdr_bad_gre p len) (tcp_parse_options_gre fuel p len) fss.

(** ** Packets of the slow path *)

Definition fast_flows_kernelxsums (p : pkt_tcp) : pkt_tcp * xsum_req :=
  tcp_checksums E p (ip_src (p_ip p)) (ip_dest (p_ip p))
    (f_beui16 (ip_len (p_ip p)) - sizeof_ip).

Definition fast_flows_kernelxsums_gre (p : pkt_gre) : pkt_gre * xsum_req :=
  gre_checksums E p (f_beui16 (ip_len (g_in_ip p)) - sizeof_ip).

End FlowOps.
