(* ===== verification/Sender.v ===== *)
(** * Sender specification and refinement

    The transmit side of a connection as three positions in the byte stream the
    application writes: the oldest unacknowledged byte, the next byte to send
    and the end of the data the application has made available.  The transmit
    registers of a flow represent such a state, and the register updates of the
    handlers are steps of the specification. *)

From S2P Require Import Prelude FpTypes TcpCommon FlowTx FlowRx FlowOps.

(** ** Specification *)

Record snd : Type := mk_snd { s_una : Z; s_nxt : Z; s_end : Z }.

Inductive snd_ev : Type :=
| SndPush (n : Z)
| SndSend (n : Z)
| SndAck (n : Z)
| SndRewind.

(** Steps of a sender whose buffer holds [cap] bytes. *)
Inductive snd_step (cap : Z) : snd -> snd_ev -> snd -> Prop :=
| step_push a n :
    0 <= n -> s_end a + n - s_una a <= cap ->
    snd_step cap a (SndPush n) (mk_snd (s_una a) (s_nxt a) (s_end a + n))
| step_send a n :
    0 <= n <= s_end a - s_nxt a ->
    snd_step cap a (SndSend n) (mk_snd (s_una a) (s_nxt a + n) (s_end a))
| step_ack a n :
    0 <= n <= s_end a - s_una a ->
    snd_step cap a (SndAck n)
      (mk_snd (s_una a + n) (Z.max (s_nxt a) (s_una a + n)) (s_end a))
| step_rewind a :
    snd_step cap a SndRewind (mk_snd (s_una a) (s_una a) (s_end a)).

Definition snd_wf (cap : Z) (a : snd) : Prop :=
  0 <= s_una a <= s_nxt a /\ s_nxt a <= s_end a /\ s_end a - s_una a <= cap.

Inductive snd_reach (cap : Z) : snd -> Prop :=
| reach_init : snd_reach cap (mk_snd 0 0 0)
| reach_step a e a' : snd_reach cap a -> snd_step cap a e a' -> snd_reach cap a'.

Lemma snd_step_wf cap a e a' : snd_wf cap a -> snd_step cap a e a' -> snd_wf cap a'.
Proof. unfold snd_wf. intros Hw Hs. destruct Hs; cbn; lia. Qed.

Lemma snd_reach_wf cap a : 0 <= cap -> snd_reach cap a -> snd_wf cap a.
Proof.
  intros Hc Hr. induction Hr; [unfold snd_wf; cbn; lia|].
  by eapply snd_step_wf.
Qed.

(** ** Representation *)

(** The transmit registers of [fs] represent [a]; [isn] is the sequence number
    of stream byte 0. *)
Record snd_rep (isn : Z) (fs : flowst) (a : snd) : Prop := mk_snd_rep {
  sr_cap : 0 < tx_len fs <= 1073741824;
  sr_wf : snd_wf (tx_len fs) a;
  sr_sent : tx_sent fs = s_nxt a - s_una a;
  sr_avail : tx_avail fs = s_end a - s_nxt a;
  sr_seq : tx_next_seq fs = u32 (isn + s_nxt a);
  sr_pos : tx_next_pos fs = s_nxt a mod tx_len fs }.

(** The remaining registers the sender depends on. *)
Record snd_env_ok (fs : flowst) : Prop := mk_snd_env_ok {
  se_wnd : is_u32 (rx_remote_avail fs);
  se_rate : is_u32 (tx_rate fs);
  se_vm : 0 <= vm_id fs < FLEXNIC_PL_VMST_NUM }.

Definition tx_view (fs : flowst) :=
  (tx_len fs, tx_sent fs, tx_avail fs, tx_next_seq fs, tx_next_pos fs).

Lemma snd_rep_view isn fs fs' a :
  tx_view fs' = tx_view fs -> snd_rep isn fs a -> snd_rep isn fs' a.
Proof.
  unfold tx_view. intros [= El Es Ea Eq Ep] [? ? ? ? ? ?].
  constructor; by rewrite ?El, ?Es, ?Ea, ?Eq, ?Ep.
Qed.

(** The address in VM memory of stream byte [k]. *)
Definition tx_addr (fs : flowst) (k : Z) : Z := tx_base fs + k mod tx_len fs.

(** The buffer holds the stream bytes that are not acknowledged. *)
Definition tx_data (app : Z -> Z) (fs : flowst) (m : mem) (a : snd) : Prop :=
  forall k, s_una a <= k < s_end a -> m (tx_addr fs k) = app k.

(** ** Register updates *)

Lemma snd_una_rep isn fs a :
  snd_rep isn fs a -> snd_una fs = u32 (isn + s_una a).
Proof.
  intros [Hc (? & ? & ?) Hs Ha Hq Hp]. unfold snd_una.
  rewrite Hs, Hq, u32_sub_l. f_equal. lia.
Qed.

Lemma tcp_valid_rxack_rep isn fs a ack :
  snd_rep isn fs a -> is_u32 ack ->
  tcp_valid_rxack fs ack
  = let n := u32 (ack - (isn + s_una a)) in
    if n <=? s_end a - s_una a then Some n else None.
Proof.
  intros Hr Hk. pose proof Hr as [Hc (? & ? & ?) Hs Ha Hq Hp].
  rewrite tcp_valid_rxack_spec; try done; try lia.
  2: { rewrite Hq. apply u32_range. }
  rewrite (snd_una_rep isn fs a Hr), u32_sub_r. cbv zeta.
  by replace (tx_sent fs + tx_avail fs) with (s_end a - s_una a) by lia.
Qed.

(** Moving a circular position by [n], as the handlers compute it. *)
Lemma pos_advance k n len :
  0 < len <= 1073741824 -> 0 <= k -> 0 <= n <= len ->
  (if len <=? u32 (k mod len + n)
   then u32 (u32 (k mod len + n) - len) else u32 (k mod len + n))
  = (k + n) mod len.
Proof.
  intros Hl Hk Hn. pose proof (Z.mod_pos_bound k len ltac:(lia)).
  rewrite (u32_add_small (k mod len)) by lia.
  rewrite <- (Zplus_mod_idemp_l k), <- wrap_add by lia.
  destruct (Z.leb_spec len (k mod len + n)); [apply u32_sub_pos; cside|done].
Qed.

(** Moving it back. *)
Lemma pos_rewind k n len :
  0 < len <= 1073741824 -> 0 <= n <= len -> 0 <= k - n ->
  (if n <=? k mod len then u32 (k mod len - n)
   else u32 (len - u32 (n - k mod len)))
  = (k - n) mod len.
Proof.
  intros Hl Hn Hk. pose proof (Z.mod_pos_bound k len ltac:(lia)).
  rewrite <- (Zminus_mod_idemp_l k).
  destruct (Z.leb_spec n (k mod len)).
  - rewrite u32_sub_pos by cside.
    by rewrite (Z.mod_small (k mod len - n)) by lia.
  - rewrite (u32_sub_pos n) by cside. rewrite u32_sub_pos by cside.
    apply (Z.mod_unique _ _ (-1)); lia.
Qed.

Lemma tx_advance_rep isn fs a n :
  snd_rep isn fs a -> 0 <= n <= tx_avail fs ->
  snd_rep isn (tx_advance n fs) (mk_snd (s_una a) (s_nxt a + n) (s_end a)).
Proof.
  intros [Hc (? & ? & ?) Hs Ha Hq Hp] Hn. unfold tx_advance.
  pose proof (pos_advance (s_nxt a) n (tx_len fs) Hc ltac:(lia) ltac:(lia)) as Hpos.
  rewrite <- Hp in Hpos.
  cbn. destruct (tx_len fs <=? _); constructor; cbn; try done.
  all: try (unfold snd_wf; cbn; lia).
  all: try (rewrite Hs; rewrite u32_add_small; lia).
  all: try (rewrite u32_sub_pos by cside; lia).
  all: rewrite Hq, u32_add_l; f_equal; lia.
Qed.

Lemma rx_ack_bump_rep isn fs a s n :
  snd_rep isn fs a -> 0 <= n <= s_end a - s_una a ->
  snd_rep isn (rx_ack_bump s n fs)
    (mk_snd (s_una a + n) (Z.max (s_nxt a) (s_una a + n)) (s_end a)).
Proof.
  intros [Hc (? & ? & ?) Hs Ha Hq Hp] Hn. unfold rx_ack_bump.
  set (fs1 := if has_flag _ _ then _ else _).
  assert (Hv : tx_view fs1 = tx_view fs) by (subst fs1; by destruct (has_flag _ _)).
  injection Hv as El Es Ea Eq Ep. clearbody fs1. rewrite Es.
  destruct (Z.leb_spec n (tx_sent fs)).
  - rewrite Z.max_l by lia.
    constructor; cbn; rewrite ?El, ?Ea, ?Eq, ?Ep; try done.
    + unfold snd_wf; cbn; lia.
    + rewrite u32_sub_pos by cside. lia.
  - rewrite Z.max_r by lia. rewrite (u32_sub_pos n) by cside.
    pose proof (pos_advance (s_nxt a) (n - tx_sent fs) (tx_len fs) Hc
                  ltac:(lia) ltac:(lia)) as Hpos.
    rewrite <- Hp in Hpos.
    replace (s_nxt a + (n - tx_sent fs)) with (s_una a + n) in Hpos by lia.
    cbn. rewrite El, Ep.
    destruct (tx_len fs <=? _); constructor; cbn; rewrite ?El, ?Ea, ?Eq, ?Ep;
      try done; try lia.
    all: try (unfold snd_wf; cbn; lia).
    all: try (rewrite u32_sub_pos by cside; lia).
    all: rewrite Hq, u32_add_l; f_equal; lia.
Qed.

Lemma flow_reset_retransmit_rep isn fs a :
  snd_rep isn fs a ->
  snd_rep isn (flow_reset_retransmit fs) (mk_snd (s_una a) (s_una a) (s_end a)).
Proof.
  intros [Hc (? & ? & ?) Hs Ha Hq Hp]. unfold flow_reset_retransmit.
  pose proof (pos_rewind (s_nxt a) (tx_sent fs) (tx_len fs) Hc
                ltac:(lia) ltac:(lia)) as Hpos.
  rewrite <- Hp in Hpos.
  replace (s_nxt a - tx_sent fs) with (s_una a) in Hpos by lia.
  cbn. destruct (tx_sent fs <=? _); cbn; destruct (cnt_tx_drops fs =? 0);
    constructor; cbn; try done; try lia.
  all: try (unfold snd_wf; cbn; lia).
  all: try (rewrite u32_add_small; lia).
  all: rewrite Hq, u32_sub_l; f_equal; lia.
Qed.

(** ** Register updates and the rest of the flow state *)

(** Everything the transmit-side updates leave alone. *)
Definition st_view (fs : flowst) :=
  (opaque fs, tx_base fs, (tx_len fs, rx_len fs), db_id fs, vm_id fs,
   flow_group fs, local_port fs, remote_port fs).

Lemma st_view_vm fs fs' : st_view fs' = st_view fs -> vm_id fs' = vm_id fs.
Proof. intros Hv. exact (f_equal (fun t => t.1.1.1.2) Hv). Qed.

Lemma st_view_len fs fs' : st_view fs' = st_view fs -> tx_len fs' = tx_len fs.
Proof. intros Hv. exact (f_equal (fun t => t.1.1.1.1.1.2.1) Hv). Qed.

Lemma tx_advance_st n fs : st_view (tx_advance n fs) = st_view fs.
Proof. unfold tx_advance. cbn. by destruct (_ <=? _). Qed.

Lemma rx_ack_bump_st s n fs :
  st_view (rx_ack_bump s n fs) = st_view fs
  /\ rx_remote_avail (rx_ack_bump s n fs) = rx_remote_avail fs
  /\ tx_rate (rx_ack_bump s n fs) = tx_rate fs.
Proof.
  unfold rx_ack_bump, st_view. destruct (has_flag _ _); cbn;
  (destruct (_ <=? _); cbn; [done|]); by destruct (_ <=? _).
Qed.

Lemma flow_reset_retransmit_st fs :
  st_view (flow_reset_retransmit fs) = st_view fs
  /\ rx_remote_avail (flow_reset_retransmit fs) = rx_remote_avail fs
  /\ (is_u32 (tx_rate fs) -> is_u32 (tx_rate (flow_reset_retransmit fs))).
Proof.
  unfold flow_reset_retransmit, st_view. cbn.
  destruct (_ <=? _); cbn; destruct (_ =? 0);
    (split; [done|]); (split; [done|]); cbn; try done.
  all: unfold is_u32; intros; Z.div_mod_to_equations; lia.
Qed.

(** The amount the queue manager is told is a [uint32_t]. *)
Lemma tcp_txavail_range fs pavail :
  is_u32 (rx_remote_avail fs) -> 0 <= tx_sent fs ->
  is_u32 (match pavail with Some a => a | None => tx_avail fs end) ->
  is_u32 (tcp_txavail fs pavail)
  /\ tcp_txavail fs pavail
     <= match pavail with Some a => a | None => tx_avail fs end.
Proof.
  unfold is_u32, tcp_txavail. intros.
  destruct (Z.ltb_spec (rx_remote_avail fs) (tx_sent fs)); zcase; lia.
Qed.
