(* ===== verification/FlowProofs.v ===== *)
(** * Segments: sending and receiving

    What [flow_tx_segment] and [flow_tx_ack] put on the wire and what the peer parses; then
    the receive stages of [fast_flows_packet]. *)

From S2P Require Import Prelude FpTypes TcpCommon FlowTx FlowRx FlowOps Sender.

(** ** Reading the transmit buffer *)

Definition tx_buf_ok (E : fpenv) (fs : flowst) : Prop :=
  0 <= tx_base fs /\ tx_base fs + tx_len fs <= vm_shm_len E
  /\ vm_shm_len E < 18446744073709551616 /\ 0 < tx_len fs <= 1073741824.

Lemma flow_tx_read_spec E fs m pos n d off :
  tx_buf_ok E fs -> 0 <= pos < tx_len fs -> 0 <= n <= tx_len fs -> n < 65536 ->
  exists d', flow_tx_read E fs m pos n d off = Some d'
  /\ (forall i, 0 <= i < n -> d' (off + i) = m (tx_addr fs (pos + i)))
  /\ (forall a, ~ (off <= a < off + n) -> d' a = d a).
Proof.
  intros (Hb & Hl & Hv & Hlen) Hpos Hn Hn16. unfold flow_tx_read.
  rewrite (u16_id n) by cside. rewrite (u32_add_small pos n) by lia.
  destruct (Z.leb_spec (pos + n) (tx_len fs)) as [Hfit|Hwrap].
  - rewrite u64_id by cside. unfold dma_read.
    rewrite dma_ok_in by lia. cbn. eexists. split; [done|]. split.
    + intros i Hi. unfold tx_addr. rewrite mem_write_in by lia.
      rewrite Z.mod_small by lia. f_equal. lia.
    + intros a Ha. by apply mem_write_out.
  - rewrite (u32_sub_pos (tx_len fs) pos) by cside.
    rewrite (u32_sub_pos n) by cside. rewrite u64_id by cside.
    unfold dma_read. rewrite dma_ok_in by lia. cbn.
    rewrite dma_ok_in by lia. cbn. eexists. split; [done|]. split.
    + intros i Hi. unfold tx_addr. rewrite <- wrap_add by lia.
      destruct (Z.leb_spec (tx_len fs) (pos + i)).
      * rewrite mem_write_in by lia. f_equal. lia.
      * rewrite mem_write_out, mem_write_in by lia. f_equal. lia.
    + intros a Ha. rewrite !mem_write_out; [done|lia..].
Qed.

(** ** The timestamp option *)

Lemma write_ts_opt_bytes rest my echo i :
  (i = 0 -> write_ts_opt rest my echo i = TCP_OPT_TIMESTAMP)
  /\ (i = 1 -> write_ts_opt rest my echo i = sizeof_ts_opt)
  /\ (i = 10 \/ i = 11 -> write_ts_opt rest my echo i = 0).
Proof.
  unfold write_ts_opt, store32. change TS_OPTLEN with 12.
  split; [|split]; intros Hi.
  - rewrite !(mem_write_out _ _ 4) by lia. rewrite mem_write_out by lia.
    by rewrite mem_write_in by lia.
  - rewrite !(mem_write_out _ _ 4) by lia. by rewrite mem_write_in by lia.
  - rewrite !(mem_write_out _ _ 4) by lia. rewrite !(mem_write_out _ _ 1) by lia.
    by rewrite mem_write_in by lia.
Qed.

Lemma t_beui32_range z : is_u32 (t_beui32 z).
Proof. apply bswap32_range, u32_range. Qed.

Lemma write_ts_opt_val rest my echo :
  load32 (write_ts_opt rest my echo) 2 = t_beui32 my
  /\ load32 (write_ts_opt rest my echo) 6 = t_beui32 echo.
Proof.
  unfold write_ts_opt. split.
  - rewrite load32_store32_ne by lia. apply load32_store32, t_beui32_range.
  - apply load32_store32, t_beui32_range.
Qed.

Lemma load32_ext m m' a :
  (forall i, 0 <= i < 4 -> m (a + i) = m' (a + i)) -> load32 m a = load32 m' a.
Proof.
  intros Hm. unfold load32. rewrite <- !Hm by lia.
  rewrite <- (Z.add_0_r a) at 1. rewrite Hm by lia. by rewrite Z.add_0_r.
Qed.

(** ** Header fields *)

Lemma TCPH_set_hdrlen h len flags :
  0 <= len <= 15 -> 0 <= flags < 512 ->
  TCPH_HDRLEN (TCPH_HDRLEN_FLAGS_SET len flags h) = len
  /\ TCPH_FLAGS (TCPH_HDRLEN_FLAGS_SET len flags h) = flags.
Proof.
  intros Hl Hf. unfold TCPH_HDRLEN, TCPH_FLAGS, TCPH_HDRLEN_FLAGS_SET. cbn.
  rewrite lor_shiftl_low by (change (2 ^ 12) with 4096; lia).
  change (2 ^ 12) with 4096.
  rewrite (u16_id (len * 4096 + flags)) by cside.
  rewrite bswap16_invol by cside.
  rewrite Z.shiftr_div_pow2 by lia. change (2 ^ 12) with 4096.
  unfold TAS_TCP_FLAGS. change 511 with (Z.ones 9).
  rewrite Z.land_ones by lia. change (2 ^ 9) with 512.
  split; Z.div_mod_to_equations; lia.
Qed.

Lemma seg_flags_range {Q} E fs (ctx : dataplane_context Q) fin :
  0 <= seg_flags E fs ctx fin < 512.
Proof.
  unfold seg_flags. destruct (_ && _), fin; vm_compute; split; congruence.
Qed.

(** Checksums only fill in the checksum fields. *)
Lemma tcp_checksums_frame E p s d l :
  exists c c', p_eth (tcp_checksums E p s d l).1 = p_eth p
  /\ p_rest (tcp_checksums E p s d l).1 = p_rest p
  /\ p_ip (tcp_checksums E p s d l).1 = p_ip p <| ip_chksum := c |>
  /\ p_tcp (tcp_checksums E p s d l).1 = p_tcp p <| tcp_chksum := c' |>.
Proof.
  unfold tcp_checksums. destruct (fp_xsumoffload E); cbn; eexists _, _; eauto.
Qed.

Lemma gre_checksums_frame E p l :
  exists c c' c'', g_eth (gre_checksums E p l).1 = g_eth p
  /\ g_rest (gre_checksums E p l).1 = g_rest p
  /\ g_gre (gre_checksums E p l).1 = g_gre p
  /\ g_in_ip (gre_checksums E p l).1 = g_in_ip p <| ip_chksum := c |>
  /\ g_out_ip (gre_checksums E p l).1 = g_out_ip p <| ip_chksum := c' |>
  /\ g_tcp (gre_checksums E p l).1 = g_tcp p <| tcp_chksum := c'' |>.
Proof.
  unfold gre_checksums. destruct (fp_xsumoffload E); cbn; eexists _, _, _; eauto 7.
Qed.

(** ** Data segments *)

(** A segment as the peer reads it. *)
Record segment_on_wire (fs : flowst) (m : mem)
    (seq ack rxwnd payload pos echo my flags : Z) (p : pkt_tcp) (len : Z) : Prop :=
  mk_on_wire {
  ow_src : ip_src (p_ip p) = out_local_ip fs;
  ow_dest : ip_dest (p_ip p) = out_remote_ip fs;
  ow_sport : tcp_src (p_tcp p) = local_port fs;
  ow_dport : tcp_dest (p_tcp p) = remote_port fs;
  ow_seq : f_beui32 (tcp_seqno (p_tcp p)) = u32 seq;
  ow_ack : f_beui32 (tcp_ackno (p_tcp p)) = u32 ack;
  ow_wnd : f_beui16 (tcp_wnd (p_tcp p)) = Z.min 65535 rxwnd;
  ow_flags : TCPH_FLAGS (p_tcp p) = flags;
  ow_hl : TCPH_HDRLEN (p_tcp p) = 8;
  ow_iplen : f_beui16 (ip_len (p_ip p)) = 52 + payload;
  ow_len : len = 66 + payload;
  ow_bytes : forall i, 0 <= i < payload -> p_rest p (12 + i) = m (tx_addr fs (pos + i));
  ow_ts : ts_val (tcp_seg p 0) = u32 my /\ ts_ecr (tcp_seg p 0) = u32 echo;
  ow_opt : p_rest p 0 = TCP_OPT_TIMESTAMP /\ p_rest p 1 = sizeof_ts_opt
           /\ p_rest p 10 = 0;
  ow_ip : IPH_V (p_ip p) = 4 /\ IPH_HL (p_ip p) = 5
          /\ ip_proto (p_ip p) = IP_PROTO_TCP
          /\ f_beui16 (eth_type (p_eth p)) = ETH_TYPE_IP }.

Definition ctx_room {Q} (ctx : dataplane_context Q) : Prop :=
  0 <= tx_num ctx < TXBUF_SIZE /\ 0 <= arx_num ctx < BATCH_SIZE.

Lemma tx_send_ok {Q} (ctx : dataplane_context Q) nbh pkt xs off len :
  0 <= tx_num ctx < TXBUF_SIZE ->
  tx_send ctx nbh pkt xs off len
  = Some (ctx <| tx_handles ::= <[tx_num ctx := mk_tx_ent nbh pkt (u16 off) (u16 len) xs]> |>
              <| tx_num := tx_num ctx + 1 |>).
Proof.
  unfold TXBUF_SIZE, tx_send. intros Hr. unfold TXBUF_SIZE.
  destruct (Z.leb_spec 32 (tx_num ctx)); [lia|].
  by rewrite u16_id by cside.
Qed.

Lemma flow_tx_segment_ok {Q} E (ctx : dataplane_context Q) m nbh fs
    seq ack rxwnd payload pos echo my fin :
  tx_buf_ok E fs -> 0 <= pos < tx_len fs -> 0 <= payload <= TCP_MSS ->
  payload <= tx_len fs -> 0 <= rxwnd -> 0 <= tx_num ctx < TXBUF_SIZE ->
  exists p xs,
    flow_tx_segment E ctx m nbh fs seq ack rxwnd payload pos echo my fin
    = Some (ctx <| tx_handles ::=
                   <[tx_num ctx := mk_tx_ent (nb_id nbh) (PktTcp p) 0 (66 + payload) xs]> |>
                <| tx_num := tx_num ctx + 1 |>)
    /\ segment_on_wire fs m seq ack rxwnd payload pos echo my
         (seg_flags E fs ctx fin) p (66 + payload).
Proof.
  intros Hb Hpos Hpl Hfit Hw Hroom. unfold TCP_MSS in Hpl. unfold flow_tx_segment.
  rewrite (u16_id payload) by cside.
  change (u16 (sizeof_pkt_tcp + TS_OPTLEN)) with 66. cbv zeta.
  set (rest1 := write_ts_opt _ my echo).
  set (rd := if 0 <? payload then _ else _).
  assert (Hrd : exists d, rd = Some d
    /\ (forall i, 0 <= i < payload -> d (12 + i) = m (tx_addr fs (pos + i)))
    /\ (forall a, 0 <= a < 12 -> d a = rest1 a)).
  { subst rd. destruct (Z.ltb_spec 0 payload).
    - change (66 - sizeof_pkt_tcp) with 12.
      destruct (flow_tx_read_spec E fs m pos payload rest1 12 Hb Hpos)
        as (d & Ed & Hd & Ho); [lia|lia|].
      exists d. split; [done|]. split; [done|]. intros a Ha. apply Ho. lia.
    - exists rest1. split; [done|]. split; [intros; lia|done]. }
  destruct Hrd as (d & -> & Hbytes & Hopt). cbn [mbind option_bind].
  set (p0 := mk_pkt_tcp _ _ _ d).
  pose proof (tcp_checksums_frame E p0 (out_local_ip fs) (out_remote_ip fs)
                (66 - offsetof_tcp_tcp + payload)) as (c & c' & He & Hr & Hi & Ht).
  destruct (tcp_checksums _ _ _ _ _) as [p xs]. cbn in He, Hr, Hi, Ht.
  rewrite tx_send_ok by done. rewrite (u16_id (66 + payload)) by cside.
  exists p, xs. split; [done|].
  destruct (TCPH_set_hdrlen
    (mk_tcp (local_port fs) (remote_port fs) (t_beui32 seq) (t_beui32 ack) 0
       (t_beui16 (Z.min 65535 rxwnd)) 0 (t_beui16 0))
    (5 + TS_OPTLEN / 4) (seg_flags E fs ctx fin)) as [Ehl Efl];
    [change (5 + TS_OPTLEN / 4) with 8; lia|apply seg_flags_range|].
  assert (El : forall a, 0 <= a <= 8 -> load32 d a = load32 rest1 a).
  { intros a Ha. apply load32_ext. intros i Hin. apply Hopt. lia. }
  pose proof (write_ts_opt_val (fun i => nb_mem nbh (sizeof_pkt_tcp + i)) my echo)
    as [Emy Eecho].
  constructor; unfold ts_val, ts_ecr, tcp_seg; cbn [sg_rest sg_ts];
    rewrite ?He, ?Hr, ?Hi, ?Ht; cbn -[Z.add Z.sub Z.div TCPH_HDRLEN_FLAGS_SET load32].
  - by destruct (has_flag _ _).
  - by destruct (has_flag _ _).
  - done.
  - done.
  - apply f_t_beui32.
  - apply f_t_beui32.
  - cbn. rewrite f_t_beui16, u16_id by cside. done.
  - exact Efl.
  - exact Ehl.
  - destruct (has_flag _ _); cbn -[Z.add Z.sub];
      rewrite f_t_beui16, u16_id by (unfold offsetof_tcp_ip, sizeof_eth; cside);
      unfold offsetof_tcp_ip, sizeof_eth; lia.
  - done.
  - exact Hbytes.
  - change (0 + 2) with 2. change (0 + 6) with 6. rewrite !El by lia. subst rest1. rewrite Emy, Eecho.
    by rewrite !f_t_beui32.
  - rewrite !Hopt by lia. subst rest1. 
    split; [by apply write_ts_opt_bytes|]. split; [by apply write_ts_opt_bytes|].
    apply write_ts_opt_bytes. by left.
  - by destruct (has_flag _ _).
Qed.

(** ** Acknowledgements *)

(** [pk] is the packet [flow_tx_ack] turns the received packet [p] into. *)
Record ack_on_wire (p : pkt_tcp) (seq ack rxwnd echo my flags ts_opt : Z)
    (pk : pkt_tcp) : Prop := mk_ack_on_wire {
  aw_eth : p_eth pk = swap_eth (p_eth p);
  aw_ip : ip_src (p_ip pk) = ip_dest (p_ip p) /\ ip_dest (p_ip pk) = ip_src (p_ip p);
  aw_ports : tcp_src (p_tcp pk) = tcp_dest (p_tcp p)
             /\ tcp_dest (p_tcp pk) = tcp_src (p_tcp p);
  aw_seq : f_beui32 (tcp_seqno (p_tcp pk)) = u32 seq;
  aw_ack : f_beui32 (tcp_ackno (p_tcp pk)) = u32 ack;
  aw_wnd : f_beui16 (tcp_wnd (p_tcp pk)) = Z.min 65535 rxwnd;
  aw_flags : TCPH_FLAGS (p_tcp pk) = flags;
  aw_hl : TCPH_HDRLEN (p_tcp pk) = TCPH_HDRLEN (p_tcp p);
  aw_iplen : f_beui16 (ip_len (p_ip pk)) = 20 + TCPH_HDRLEN (p_tcp p) * 4;
  aw_ts : ts_val (tcp_seg pk ts_opt) = u32 my /\ ts_ecr (tcp_seg pk ts_opt) = u32 echo;
  aw_rest : forall a, ~ (ts_opt + 2 <= a < ts_opt + 10) -> p_rest pk a = p_rest p a }.

Lemma ack_flags_range {Q} E fs (ctx : dataplane_context Q) ip :
  0 <= ack_flags E fs ctx ip < 512.
Proof.
  unfold ack_flags. destruct (_ && _), (_ =? _); vm_compute; split; congruence.
Qed.

(** ECN is echoed for a mark, and when the budget is low. *)
Lemma ack_flags_eq {Q} E fs (ctx : dataplane_context Q) ip :
  ack_flags E fs ctx ip
  = Z.lor TAS_TCP_ACK (if (IPH_ECN ip =? TAS_IP_ECN_CE)
      || has_flag (rx_base_sp fs) FLEXNIC_PL_FLOWST_ECN && flow_should_signal_ece E ctx (vm_id fs)
      then TAS_TCP_ECE else 0).
Proof. unfold ack_flags. by destruct (_ =? _), (has_flag _ _), (flow_should_signal_ece _ _ _). Qed.

(** The acknowledgement has the minimal payload: none. *)
Lemma ack_hdrlen h :
  tcp_hdr_ok h -> 5 <= TCPH_HDRLEN h ->
  u16 (sizeof_pkt_tcp + (TCPH_HDRLEN h - 5) * 4) = 34 + TCPH_HDRLEN h * 4.
Proof.
  intros Hh H5. pose proof (TCPH_HDRLEN_range h Hh).
  change sizeof_pkt_tcp with 54. rewrite u16_id by cside. lia.
Qed.

Lemma flow_tx_ack_ok {Q} E (ctx : dataplane_context Q) fs seq ack rxwnd echo my
    nbh p ts_opt :
  tcp_hdr_ok (p_tcp p) -> 5 <= TCPH_HDRLEN (p_tcp p) -> 0 <= rxwnd ->
  0 <= tx_num ctx < TXBUF_SIZE ->
  exists pk xs,
    flow_tx_ack E ctx fs seq ack rxwnd echo my nbh p ts_opt
    = Some (ctx <| tx_handles ::=
                   <[tx_num ctx := mk_tx_ent (rb_id nbh) (PktTcp pk) (u16 (rb_off nbh))
                                     (34 + TCPH_HDRLEN (p_tcp p) * 4) xs]> |>
                <| tx_num := tx_num ctx + 1 |>)
    /\ ack_on_wire p seq ack rxwnd echo my (ack_flags E fs ctx (p_ip p)) ts_opt pk.
Proof.
  intros Hh H5 Hw Hroom. pose proof (TCPH_HDRLEN_range _ Hh) as Hr.
  unfold flow_tx_ack. rewrite ack_hdrlen by done. cbv zeta.
  set (p0 := mk_pkt_tcp _ _ _ _).
  set (l := 34 + TCPH_HDRLEN (p_tcp p) * 4 - offsetof_tcp_tcp).
  pose proof (tcp_checksums_frame E p0 (ip_src (p_ip p0)) (ip_dest (p_ip p0)) l)
    as (c & c' & He & Hre & Hi & Ht).
  change (tcp_checksums E p0 _ _ _)
    with (tcp_checksums E p0 (ip_src (p_ip p0)) (ip_dest (p_ip p0)) l).
  destruct (tcp_checksums E p0 _ _ _) as [pk xs]. cbn [fst] in He, Hre, Hi, Ht.
  rewrite tx_send_ok by done. rewrite (u16_id (34 + _)) by cside.
  exists pk, xs. split; [done|].
  set (t0 := p_tcp p <| tcp_src := tcp_dest (p_tcp p) |>
               <| tcp_dest := tcp_src (p_tcp p) |>
               <| tcp_wnd := t_beui16 (Z.min 65535 rxwnd) |>
               <| tcp_seqno := t_beui32 seq |> <| tcp_ackno := t_beui32 ack |>).
  destruct (TCPH_set_hdrlen t0 (TCPH_HDRLEN (p_tcp p))
              (ack_flags E fs ctx (p_ip p))) as [Ehl Efl];
    [lia|apply ack_flags_range|].
  constructor; unfold ts_val, ts_ecr, tcp_seg; cbn [sg_rest sg_ts];
    rewrite ?He, ?Hre, ?Hi, ?Ht; try done.
  - apply f_t_beui32.
  - apply f_t_beui32.
  - cbn -[Z.min]. rewrite f_t_beui16, u16_id by cside. done.
  - cbn -[Z.add Z.sub Z.mul]. rewrite f_t_beui16, u16_id;
      unfold offsetof_tcp_ip, sizeof_eth; cside.
  - cbn -[Z.add load32 store32]. 
    rewrite load32_store32_ne by lia.
    rewrite !load32_store32 by apply t_beui32_range. by rewrite !f_t_beui32.
  - intros a Ha. cbn -[Z.add store32]. unfold store32.
    rewrite !mem_write_out by lia. done.
Qed.

(** * Receive stream integrity

    Proofs about the receive stages of FlowRx.v: whatever segments arrive, the
    bytes of the receive buffer between the old and the new [rx_next_pos] are
    the bytes of the sender's stream, and bytes of the buffer that the
    application may still read are not touched. *)

(** [rx_base], and the address of position [p] of the receive buffer. *)
Definition rx_base (fs : flowst) : Z :=
  Z.land (rx_base_sp fs) FLEXNIC_PL_FLOWST_RX_MASK.
Definition rx_addr (fs : flowst) (p : Z) : Z := rx_base fs + p mod rx_len fs.

(** The receive buffer lies inside the shared memory of the VM. *)
Definition rx_buf_ok (E : fpenv) (fs : flowst) : Prop :=
  0 <= rx_base fs /\ rx_base fs + rx_len fs <= vm_shm_len E
  /\ vm_shm_len E < 18446744073709551616.

(** Receive-side registers. *)
Record rx_ok (fs : flowst) : Prop := mk_rx_ok {
  rxk_len : 0 < rx_len fs <= 1073741824;
  rxk_avail : 0 <= rx_avail fs <= rx_len fs;
  rxk_pos : 0 <= rx_next_pos fs < rx_len fs;
  rxk_seq : is_u32 (rx_next_seq fs);
  rxk_ooo : rx_ooo_len fs = 0 \/
    (0 < rx_ooo_len fs /\ is_u32 (rx_ooo_start fs)
     /\ 0 < u32 (rx_ooo_start fs - rx_next_seq fs)
     /\ u32 (rx_ooo_start fs - rx_next_seq fs) + rx_ooo_len fs <= rx_avail fs) }.

(** Writing [n] bytes at [pos]: the bytes land at consecutive circular
    positions and nothing else changes. *)
Lemma flow_rx_write_spec E fs m pos n src :
  rx_buf_ok E fs -> 0 < rx_len fs <= 1073741824 -> 0 <= pos < rx_len fs ->
  0 <= n <= rx_len fs -> n < 65536 ->
  exists m', flow_rx_write E fs m pos n src = Some m'
  /\ (forall i, 0 <= i < n -> m' (rx_addr fs (pos + i)) = src i)
  /\ (forall a, (forall i, 0 <= i < n -> a <> rx_addr fs (pos + i)) -> m' a = m a).
Proof.
  intros (Hb & Hl & Hv) Hlen Hpos Hn Hn16. unfold flow_rx_write.
  fold (rx_base fs). rewrite (u16_id n) by cside.
  rewrite (u32_add_small pos n) by lia.
  destruct (Z.leb_spec (pos + n) (rx_len fs)) as [Hfit|Hwrap].
  - rewrite u64_id by cside. unfold dma_write.
    rewrite dma_ok_in by lia. cbn. eexists. split; [done|]. split.
    + intros i Hi. unfold rx_addr. rewrite Z.mod_small by lia.
      rewrite mem_write_in by lia. f_equal. lia.
    + intros a Ha. apply mem_write_out. intros Hin.
      apply (Ha (a - (rx_base fs + pos))); [lia|].
      unfold rx_addr. rewrite Z.mod_small by lia. lia.
  - rewrite (u32_sub_pos (rx_len fs) pos) by cside.
    rewrite (u32_sub_pos n) by cside. rewrite u64_id by cside.
    unfold dma_write. rewrite dma_ok_in by lia. cbn.
    rewrite dma_ok_in by lia. cbn. eexists. split; [done|]. split.
    + intros i Hi. unfold rx_addr.
      destruct (Z.ltb_spec (pos + i) (rx_len fs)).
      * rewrite Z.mod_small by lia.
        rewrite mem_write_out, mem_write_in by lia. f_equal. lia.
      * rewrite <- wrap_add by lia.
        destruct (Z.leb_spec (rx_len fs) (pos + i)); [|lia].
        rewrite mem_write_in by lia. f_equal. lia.
    + intros a Ha. rewrite !mem_write_out; [done|..].
      * intros Hin. apply (Ha (a - (rx_base fs + pos))); [lia|].
        unfold rx_addr. rewrite Z.mod_small by lia. lia.
      * intros Hin. apply (Ha (a - rx_base fs + (rx_len fs - pos))); [lia|].
        unfold rx_addr. rewrite <- wrap_add by lia.
        destruct (Z.leb_spec (rx_len fs) (pos + (a - rx_base fs + (rx_len fs - pos))));
          lia.
Qed.

(** Distinct positions of the window have distinct addresses. *)
Lemma rx_addr_inj fs pos i j :
  0 <= pos < rx_len fs -> 0 <= i < rx_len fs -> 0 <= j < rx_len fs ->
  rx_addr fs (pos + i) = rx_addr fs (pos + j) -> i = j.
Proof.
  intros Hp Hi Hj. unfold rx_addr.
  destruct (wrap_mod pos i (rx_len fs)) as [[? ->]|[? ->]]; [lia|lia|..];
  destruct (wrap_mod pos j (rx_len fs)) as [[? ->]|[? ->]]; lia.
Qed.

Lemma rx_addr_mod fs p k : rx_addr fs (p mod rx_len fs + k) = rx_addr fs (p + k).
Proof. unfold rx_addr. by rewrite Zplus_mod_idemp_l. Qed.

(** ** Stages and the receive side *)

Definition rx_view (fs : flowst) :=
  (rx_base_sp fs, rx_len fs, rx_avail fs, rx_next_pos fs, rx_next_seq fs,
   rx_ooo_start fs, rx_ooo_len fs).

Lemma rx_view_eq fs fs' :
  rx_view fs' = rx_view fs ->
  rx_base_sp fs' = rx_base_sp fs /\ rx_len fs' = rx_len fs
  /\ rx_avail fs' = rx_avail fs /\ rx_next_pos fs' = rx_next_pos fs
  /\ rx_next_seq fs' = rx_next_seq fs /\ rx_ooo_start fs' = rx_ooo_start fs
  /\ rx_ooo_len fs' = rx_ooo_len fs.
Proof. unfold rx_view. intros [= -> -> -> -> -> -> ->]. tauto. Qed.

Lemma flow_reset_retransmit_rx fs : rx_view (flow_reset_retransmit fs) = rx_view fs.
Proof.
  unfold flow_reset_retransmit, rx_view. cbn.
  destruct (_ <=? _), (_ =? 0); reflexivity.
Qed.

Lemma rx_ack_bump_rx s bump fs : rx_view (rx_ack_bump s bump fs) = rx_view fs.
Proof.
  unfold rx_ack_bump, rx_view. destruct (has_flag _ _); cbn;
  destruct (_ <=? _); cbn; try reflexivity; destruct (_ <=? _); reflexivity.
Qed.

(** Effect of the acknowledgement stage on everything but the sender. *)
Lemma rx_ack_frame s op x r :
  rx_ack s op x = Some r ->
  exists x', (r = RxCont x' \/ r = RxUnlock x')
  /\ rx_view (x_fs x') = rx_view (x_fs x) /\ x_mem x' = x_mem x
  /\ x_payload_bytes x' = x_payload_bytes x
  /\ x_payload_off x' = x_payload_off x /\ x_seq x' = x_seq x
  /\ x_rx_bump x' = x_rx_bump x /\ x_fin_bump x' = x_fin_bump x.
Proof.
  unfold rx_ack. intros Hr.
  destruct (0 <? x_payload_bytes x), (has_flag (sg_flags s) TAS_TCP_ACK);
    cbn in Hr; try (injection Hr as <-; eexists; split; [by left|]; done);
  (destruct (tcp_valid_rxack _ _) as [bump|]; cbn in Hr;
   [|injection Hr as <-; eexists; split; [by left|]; done]);
  (destruct (bump =? 0); cbn in Hr;
   [destruct (op =? 0); cbn in Hr; [destruct (3 <=? _); cbn in Hr|]|]);
  injection Hr as <-; eexists; (split; [by eauto|]); cbn;
  rewrite ?flow_reset_retransmit_rx; (split; [|done]);
  unfold rx_view; cbn;
  lazymatch goal with
  | |- context [rx_base_sp (rx_ack_bump ?s ?b ?f)] =>
      pose proof (rx_view_eq _ _ (rx_ack_bump_rx s b f))
        as (-> & -> & -> & -> & -> & -> & ->); reflexivity
  end.
Qed.

(** ** Data integrity of the receive path

    The peer's byte stream, by sequence number. *)
Section Stream.
Context (E : fpenv) (strm : Z -> Z).

(** The out-of-order interval holds stream bytes. *)
Definition ooo_data (fs : flowst) (m : mem) : Prop :=
  forall i, 0 <= i < rx_ooo_len fs ->
    m (rx_addr fs (rx_next_pos fs + u32 (rx_ooo_start fs - rx_next_seq fs) + i))
    = strm (u32 (rx_ooo_start fs + i)).

(** The payload of a well-formed segment carries stream bytes. *)
Record seg_ok (s : rx_seg) : Prop := mk_seg_ok {
  sgk_payload : is_u16 (sg_payload_bytes s);
  sgk_off : sg_payload_off s = sg_sizeof s + tcp_extra_hlen s;
  sgk_off_range : 0 <= sg_payload_off s <= 65536;
  sgk_seq : is_u32 (f_beui32 (tcp_seqno (sg_tcp s)));
  sgk_data : forall i, 0 <= i < sg_payload_bytes s ->
    sg_rest s (tcp_extra_hlen s + i)
    = strm (u32 (f_beui32 (tcp_seqno (sg_tcp s)) + i)) }.

(** The local variables [seq], [payload], [payload_bytes] between the trim
    stage and the label [unlock]: a piece of the stream inside the window. *)
Definition piece_ok (s : rx_seg) (x : rxst) : Prop :=
  let d := u32 (x_seq x - rx_next_seq (x_fs x)) in
  is_u32 (x_seq x) /\ 0 <= x_payload_bytes x < 65536
  /\ d + x_payload_bytes x <= rx_avail (x_fs x)
  /\ (forall i, 0 <= i < x_payload_bytes x ->
        rx_payload_ptr s x i = strm (u32 (x_seq x + i))).

Lemma rx_trim_ok s x :
  rx_ok (x_fs x) -> seg_ok s ->
  x_payload_bytes x = sg_payload_bytes s -> x_payload_off x = sg_payload_off s ->
  x_seq x = f_beui32 (tcp_seqno (sg_tcp s)) ->
  ~ trim_gap (x_fs x) (x_seq x) (x_payload_bytes x) ->
  exists x', (rx_trim x = Some (RxUnlock x')
      \/ (rx_trim x = Some (RxCont x') /\ piece_ok s x'))
  /\ x_fs x' = x_fs x /\ x_mem x' = x_mem x
  /\ x_rx_bump x' = x_rx_bump x /\ x_fin_bump x' = x_fin_bump x.
Proof.
  intros [Hl Ha Hp Hs Ho] [Hn Hoff Hoffr Hq Hd] En Eo Es Hgap.
  rewrite <- En in Hn, Hd. rewrite <- Es in Hq, Hd. unfold rx_trim.
  rewrite tcp_trim_rxbuf_spec by first [done | split; [done|lia]].
  unfold trim_spec, seq_dist.
  set (d := s32 (x_seq x - rx_next_seq (x_fs x))).
  assert (Hdr : -2147483648 <= d < 2147483648) by (subst d; clia).
  assert (Hds : x_seq x = u32 (rx_next_seq (x_fs x) + d)) by (subst d; clia).
  destruct ((d + x_payload_bytes x <? 0) || (rx_avail (x_fs x) <? d)) eqn:Erej.
  { eexists. split; [by left|done]. }
  bprop. eexists. split; [right; split; [reflexivity|]|done].
  unfold piece_ok, is_u16 in *. cbn.
  rewrite (u32_sub_pos (x_payload_bytes x)) by cside.
  assert (Eu : u32 (x_seq x + Z.max 0 (- d))
               = u32 (rx_next_seq (x_fs x) + Z.max 0 d)).
  { rewrite Hds, u32_add_l. f_equal. lia. }
  rewrite Eu.
  replace (u32 (u32 (rx_next_seq (x_fs x) + Z.max 0 d) - rx_next_seq (x_fs x)))
    with (Z.max 0 d)
    by (rewrite u32_sub_l, u32_id; cside).
  split; [apply u32_range|]. split; [lia|]. split; [lia|].
  intros i Hi. unfold rx_payload_ptr. cbn. rewrite u32_add_small by cside.
  replace (x_payload_off x + Z.max 0 (- d) - sg_sizeof s + i)
    with (tcp_extra_hlen s + (Z.max 0 (- d) + i)) by lia.
  rewrite Hd by lia. f_equal. rewrite <- Eu, u32_add_l. f_equal. lia.
Qed.

(** Writing at the position of sequence number [seq]. *)
Lemma flow_rx_seq_write_spec fs m seq n src :
  rx_ok fs -> rx_buf_ok E fs -> is_u32 seq -> 0 < n < 65536 ->
  u32 (seq - rx_next_seq fs) + n <= rx_avail fs ->
  exists m', flow_rx_seq_write E fs m seq n src = Some m'
  /\ (forall i, 0 <= i < n ->
        m' (rx_addr fs (rx_next_pos fs + u32 (seq - rx_next_seq fs) + i)) = src i)
  /\ (forall a, (forall i, 0 <= i < n ->
        a <> rx_addr fs (rx_next_pos fs + u32 (seq - rx_next_seq fs) + i)) ->
        m' a = m a).
Proof.
  intros [Hl Ha Hp Hs Ho] Hb Hq Hn Hfit. unfold flow_rx_seq_write.
  set (d := u32 (seq - rx_next_seq fs)) in *.
  assert (Hd : is_u32 d) by apply u32_range. unfold is_u32 in Hd.
  rewrite (u32_add_small (rx_next_pos fs)) by cside.
  set (pos := if _ <=? _ then _ else _).
  assert (Epos : pos = (rx_next_pos fs + d) mod rx_len fs).
  { subst pos. rewrite <- wrap_add by cside.
    destruct (Z.leb_spec (rx_len fs) (rx_next_pos fs + d)); [|done].
    apply u32_sub_pos; cside. }
  pose proof (Z.mod_pos_bound (rx_next_pos fs + d) (rx_len fs) ltac:(lia)).
  destruct (Z.ltb_spec pos (rx_len fs)); [|lia]. cbn [cassert mbind option_bind].
  destruct (flow_rx_write_spec E fs m pos n src Hb Hl ltac:(lia) ltac:(lia)
              ltac:(lia)) as (m' & E1 & E2 & E3).
  assert (Eaddr : forall i, rx_addr fs (rx_next_pos fs + d + i) = rx_addr fs (pos + i)).
  { intros i. by rewrite Epos, rx_addr_mod. }
  exists m'. split; [done|]. split.
  - intros i Hi. rewrite Eaddr. by apply E2.
  - intros a Hout. apply E3. intros i Hi. rewrite <- Eaddr. by apply Hout.
Qed.

(** What a handler has done to the receive side: [n] bytes of the stream, from
    the old next sequence number on, are in the buffer from the old next
    position on; memory outside the window is untouched; [fin] tells whether a
    FIN was accepted after them. *)
Record received (fs0 : flowst) (m0 : mem) (fs : flowst) (m : mem) (n : Z)
    (fin : bool) : Prop := mk_received {
  rcv_ok : rx_ok fs;
  rcv_ooo : ooo_data fs m;
  rcv_len : rx_len fs = rx_len fs0;
  rcv_base : rx_base fs = rx_base fs0;
  rcv_bump : 0 <= n /\ n + rx_avail fs = rx_avail fs0;
  rcv_pos : rx_next_pos fs = (rx_next_pos fs0 + n) mod rx_len fs0;
  rcv_seq : rx_next_seq fs = u32 (rx_next_seq fs0 + n + (if fin then 1 else 0));
  rcv_data : forall i, 0 <= i < n ->
    m (rx_addr fs0 (rx_next_pos fs0 + i)) = strm (u32 (rx_next_seq fs0 + i));
  rcv_frame : forall a,
    (forall i, 0 <= i < rx_avail fs0 -> a <> rx_addr fs0 (rx_next_pos fs0 + i)) ->
    m a = m0 a }.

Definition delivers (fs0 : flowst) (m0 : mem) (x : rxst) : Prop :=
  received fs0 m0 (x_fs x) (x_mem x) (x_rx_bump x) (x_fin_bump x).

(** Nothing delivered yet. *)
Definition untouched (x : rxst) : Prop :=
  x_rx_bump x = 0 /\ x_fin_bump x = false.

Lemma delivers_idle fs0 m0 x :
  rx_ok fs0 -> ooo_data fs0 m0 -> rx_view (x_fs x) = rx_view fs0 ->
  x_mem x = m0 -> untouched x -> delivers fs0 m0 x.
Proof.
  intros Hok Hd Hv <- [Hb Hf].
  pose proof (rx_view_eq _ _ Hv) as (Eb & El & Ea & Ep & Es & Eo & Eol).
  pose proof Hok as [Hl Ha Hp Hs Ho].
  constructor; rewrite ?Hb, ?Hf; unfold ooo_data, rx_addr, rx_base in *;
    rewrite ?Eb, ?El, ?Ea, ?Ep, ?Es, ?Eo, ?Eol.
  1: constructor; rewrite ?El, ?Ea, ?Ep, ?Es, ?Eo, ?Eol; done.
  all: try done; try lia.
  - rewrite Z.mod_small by lia. lia.
  - rewrite u32_id by cside. lia.
Qed.

Lemma dist_add next seq k :
  0 <= u32 (seq - next) + k < 4294967296 ->
  u32 (u32 (seq + k) - next) = u32 (seq - next) + k.
Proof.
  intros H. rewrite u32_sub_l. rewrite <- (u32_id (u32 (seq - next) + k)) by cside.
  rewrite u32_add_l. f_equal. lia.
Qed.

(** A segment of the window written into a register file [fs'] that differs
    only in the out-of-order interval. *)
Lemma delivers_ooo s x fs' m' start len :
  let fs := x_fs x in
  let d := u32 (x_seq x - rx_next_seq fs) in
  rx_ok fs -> rx_buf_ok E fs -> ooo_data fs (x_mem x) -> untouched x ->
  piece_ok s x -> 0 < x_payload_bytes x ->
  fs' = fs <| rx_ooo_start := start |> <| rx_ooo_len := len |> ->
  flow_rx_seq_write E fs (x_mem x) (x_seq x) (x_payload_bytes x)
    (rx_payload_ptr s x) = Some m' ->
  0 < len -> is_u32 start -> 0 < u32 (start - rx_next_seq fs) ->
  u32 (start - rx_next_seq fs) + len <= rx_avail fs ->
  (forall i, 0 <= i < len ->
    (exists k, 0 <= k < x_payload_bytes x
       /\ u32 (start - rx_next_seq fs) + i = d + k)
    \/ (exists k, 0 <= k < rx_ooo_len fs
       /\ u32 (start - rx_next_seq fs) + i
          = u32 (rx_ooo_start fs - rx_next_seq fs) + k
       /\ ~ (d <= u32 (start - rx_next_seq fs) + i < d + x_payload_bytes x))) ->
  delivers fs (x_mem x)
    (x <| x_trigger_ack := true |> <| x_fs := fs' |> <| x_mem := m' |>).
Proof.
  intros fs d Hok Hb Hooo [Hb0 Hf0] (Hq & Hn & Hfit & Hdata) Hn0 -> Hw Hlen Hst
    Hsd Hsf Hcov.
  pose proof Hok as [Hl Ha Hp Hs Ho].
  assert (Hd : is_u32 d) by apply u32_range. unfold is_u32 in Hd.
  destruct (flow_rx_seq_write_spec fs (x_mem x) (x_seq x) (x_payload_bytes x)
              (rx_payload_ptr s x) Hok Hb Hq ltac:(lia) Hfit) as (m & E1 & E2 & E3).
  rewrite Hw in E1. injection E1 as <-. fold fs d in E2, E3, Hfit.
  set (sd := u32 (start - rx_next_seq fs)) in *.
  assert (Hseq : forall seq i, u32 (seq + i)
                 = u32 (rx_next_seq fs + (u32 (seq - rx_next_seq fs) + i))).
  { intros seq i. rewrite Z.add_assoc, <- (u32_add_l (_ + _)), u32_add_r, u32_add_l.
    f_equal. lia. }
  constructor; cbn; fold fs; rewrite ?Hb0, ?Hf0.
  1: { constructor; cbn; fold fs; try done. right. by fold sd. }
  1: { intros i Hi. cbn in *. fold fs. fold sd.
    change (rx_addr _ ?p) with (rx_addr fs p). rewrite Hseq. fold sd.
    destruct (Hcov i Hi) as [(k & Hk & Ek)|(k & Hk & Ek & Hnot)].
    - rewrite <- Z.add_assoc, Ek, Z.add_assoc, E2 by done.
      rewrite Hdata by done. rewrite Hseq. by fold fs d.
    - rewrite <- Z.add_assoc, E3.
      + rewrite Ek, Z.add_assoc, Hooo by done. by rewrite Hseq.
      + intros j Hj Heq. apply Hnot. rewrite <- Z.add_assoc in Heq.
        apply rx_addr_inj in Heq; lia. }
  all: try done; try lia.
  - rewrite Z.mod_small by lia. lia.
  - rewrite u32_id by cside. lia.
  - intros a Ha'. apply E3. intros i Hi. rewrite <- Z.add_assoc. apply Ha'. lia.
Qed.

Lemma rx_ooo_ok s x :
  rx_ok (x_fs x) -> rx_buf_ok E (x_fs x) -> ooo_data (x_fs x) (x_mem x) ->
  untouched x -> piece_ok s x ->
  (x_seq x = rx_next_seq (x_fs x) /\ rx_ooo E s x = Some (RxCont x))
  \/ (exists x', rx_ooo E s x = Some (RxUnlock x')
      /\ delivers (x_fs x) (x_mem x) x').
Proof.
  intros Hok Hb Hooo Hun Hpc. pose proof Hpc as (Hq & Hn & Hfit & Hdata).
  pose proof Hok as [Hl Ha Hp Hs Ho].
  unfold rx_ooo. destruct (Z.eqb_spec (x_seq x) (rx_next_seq (x_fs x))) as [|Hne];
    [by left|right].
  set (fs := x_fs x) in *. set (d := u32 (x_seq x - rx_next_seq fs)) in *.
  assert (Hd : 0 < d < 4294967296) by (subst d; clia).
  destruct (Z.eqb_spec (x_payload_bytes x) 0) as [|Hn0].
  { eexists. split; [done|]. destruct Hun. by apply delivers_idle. }
  destruct (flow_rx_seq_write_spec fs (x_mem x) (x_seq x) (x_payload_bytes x)
              (rx_payload_ptr s x) Hok Hb Hq ltac:(lia) Hfit) as (m & E1 & _).
  destruct (Z.eqb_spec (rx_ooo_len fs) 0) as [Hz|Hnz].
  { eexists. cbn. change (flow_rx_seq_write E _ _ _ _ _)
      with (flow_rx_seq_write E fs (x_mem x) (x_seq x) (x_payload_bytes x)
              (rx_payload_ptr s x)). rewrite E1. split; [done|].
    apply (delivers_ooo s x _ m (x_seq x) (x_payload_bytes x)); try done;
      fold fs; fold d; try lia.
    intros i Hi. left. exists i. split; [lia|done]. }
  destruct Ho as [|(Hol & Host & Hod & Hof)]; [done|].
  set (od := u32 (rx_ooo_start fs - rx_next_seq fs)) in *.
  destruct (Z.eqb_spec (u32 (x_seq x + x_payload_bytes x)) (rx_ooo_start fs))
    as [Hpre|Hnpre].
  { assert (Eod : od = d + x_payload_bytes x).
    { subst od. rewrite <- Hpre. apply dist_add. subst d. lia. }
    eexists. cbn. change (flow_rx_seq_write E _ _ _ _ _)
      with (flow_rx_seq_write E fs (x_mem x) (x_seq x) (x_payload_bytes x)
              (rx_payload_ptr s x)). rewrite E1. split; [done|].
    fold fs. rewrite u32_add_small by lia.
    apply (delivers_ooo s x _ m (x_seq x) (rx_ooo_len fs + x_payload_bytes x));
      try done; fold fs; fold d; fold od; try lia.
    intros i Hi. destruct (Z.ltb_spec i (x_payload_bytes x)).
    - left. exists i. lia.
    - right. exists (i - x_payload_bytes x). lia. }
  destruct (Z.eqb_spec (u32 (rx_ooo_start fs + rx_ooo_len fs)) (x_seq x))
    as [Happ|Hnapp].
  { assert (Ed : d = od + rx_ooo_len fs).
    { subst d. rewrite <- Happ. apply dist_add. subst od. lia. }
    eexists. cbn. change (flow_rx_seq_write E _ _ _ _ _)
      with (flow_rx_seq_write E fs (x_mem x) (x_seq x) (x_payload_bytes x)
              (rx_payload_ptr s x)). rewrite E1. split; [done|].
    fold fs. rewrite u32_add_small by lia.
    change (fs <| rx_ooo_len := ?n |>)
      with (fs <| rx_ooo_start := rx_ooo_start fs |> <| rx_ooo_len := n |>).
    apply (delivers_ooo s x _ m (rx_ooo_start fs) (rx_ooo_len fs + x_payload_bytes x));
      try done; fold fs; fold d; fold od; try lia.
    intros i Hi. destruct (Z.ltb_spec i (rx_ooo_len fs)).
    - right. exists i. lia.
    - left. exists (i - rx_ooo_len fs). lia. }
  eexists. split; [done|]. destruct Hun. by apply delivers_idle.
Qed.

Lemma rx_advance_eq n fs :
  0 < rx_len fs <= 1073741824 -> 0 <= rx_next_pos fs < rx_len fs ->
  0 <= rx_avail fs <= rx_len fs -> 0 <= n <= rx_avail fs ->
  rx_advance n fs
  = Some (fs <| rx_avail := rx_avail fs - n |>
             <| rx_next_pos := (rx_next_pos fs + n) mod rx_len fs |>
             <| rx_next_seq := u32 (rx_next_seq fs + n) |>).
Proof.
  intros Hl Hp Ha Hn. unfold rx_advance. cbn.
  rewrite (u32_sub_pos (rx_avail fs)) by cside.
  rewrite (u32_add_small (rx_next_pos fs)) by lia.
  rewrite <- wrap_add by lia.
  destruct (Z.leb_spec (rx_len fs) (rx_next_pos fs + n)); cbn.
  1: rewrite u32_sub_pos by cside.
  all: zcase; [reflexivity|lia].
Qed.

Lemma tcp_trim_rxbuf_u16 fs seq n :
  tcp_trim_rxbuf fs seq (u16 n) = tcp_trim_rxbuf fs seq n.
Proof. unfold tcp_trim_rxbuf. by rewrite (u16_id (u16 n)) by apply u16_range. Qed.

(** The out-of-order interval after in-order data was added: it may start
    before the window. *)
Definition ooo_pending (fs : flowst) (m : mem) : Prop :=
  rx_ooo_len fs = 0 \/
  let d := s32 (rx_ooo_start fs - rx_next_seq fs) in
  0 < rx_ooo_len fs /\ is_u32 (rx_ooo_start fs) /\ -65536 < d
  /\ d + rx_ooo_len fs <= rx_avail fs
  /\ (forall i, 0 <= i < rx_ooo_len fs -> 0 <= d + i ->
        m (rx_addr fs (rx_next_pos fs + (d + i))) = strm (u32 (rx_ooo_start fs + i))).

Lemma rx_ooo_merge_ok fs m :
  0 < rx_len fs <= 1073741824 -> 0 <= rx_next_pos fs < rx_len fs ->
  0 <= rx_avail fs <= rx_len fs -> is_u32 (rx_next_seq fs) ->
  ooo_pending fs m ->
  exists fs' k, rx_ooo_merge fs = Some (fs', k) /\ 0 <= k <= rx_avail fs
  /\ rx_ok fs' /\ ooo_data fs' m
  /\ rx_len fs' = rx_len fs /\ rx_base fs' = rx_base fs
  /\ rx_avail fs' = rx_avail fs - k
  /\ rx_next_pos fs' = (rx_next_pos fs + k) mod rx_len fs
  /\ rx_next_seq fs' = u32 (rx_next_seq fs + k)
  /\ (forall i, 0 <= i < k ->
        m (rx_addr fs (rx_next_pos fs + i)) = strm (u32 (rx_next_seq fs + i))).
Proof.
  intros Hl Hp Ha Hs Hpend. unfold rx_ooo_merge.
  assert (Hidle : forall fs' start len,
    fs' = fs <| rx_ooo_start := start |> <| rx_ooo_len := len |> ->
    rx_ok fs' -> ooo_data fs' m ->
    exists fs'' k, Some (fs', 0) = Some (fs'', k) /\ 0 <= k <= rx_avail fs
    /\ rx_ok fs'' /\ ooo_data fs'' m
    /\ rx_len fs'' = rx_len fs /\ rx_base fs'' = rx_base fs
    /\ rx_avail fs'' = rx_avail fs - k
    /\ rx_next_pos fs'' = (rx_next_pos fs + k) mod rx_len fs
    /\ rx_next_seq fs'' = u32 (rx_next_seq fs + k)
    /\ (forall i, 0 <= i < k ->
          m (rx_addr fs (rx_next_pos fs + i)) = strm (u32 (rx_next_seq fs + i)))).
  { intros fs' start len -> Hok Hd. eexists _, 0. split; [done|]. cbn in *.
    rewrite !Z.add_0_r, Z.sub_0_r, u32_id, Z.mod_small by done.
    repeat split; try done; try lia; apply Hok. }
  destruct (Z.eqb_spec (rx_ooo_len fs) 0) as [Hz|Hnz].
  { apply (Hidle fs (rx_ooo_start fs) (rx_ooo_len fs)).
    - by destruct fs.
    - constructor; auto.
    - intros i Hi. lia. }
  destruct Hpend as [|(Hol & Host & Hd0 & Hfit & Hdata)]; [done|].
  set (d := s32 (rx_ooo_start fs - rx_next_seq fs)) in *.
  assert (Hdr : -2147483648 <= d < 2147483648) by (subst d; clia).
  assert (Hds : rx_ooo_start fs = u32 (rx_next_seq fs + d)) by (subst d; clia).
  assert (Hn16 : 0 <= u16 (rx_ooo_len fs) < 65536
                 /\ u16 (rx_ooo_len fs) <= rx_ooo_len fs) by clia.
  rewrite <- tcp_trim_rxbuf_u16.
  assert (Hw : window_ok fs) by (split; [done|lia]).
  rewrite tcp_trim_rxbuf_spec; [|done|done|apply u16_range|].
  2: { intros Hg. pose proof (tcp_trim_rxbuf_overrun fs _ _ Hw Host
         (u16_range _) Hg) as (_ & _ & Hover). unfold seq_dist in Hover.
       fold d in Hover. lia. }
  unfold trim_spec, seq_dist. fold d.
  destruct ((d + u16 (rx_ooo_len fs) <? 0) || (rx_avail fs <? d)) eqn:Erej.
  { apply (Hidle _ (rx_ooo_start fs) 0); [reflexivity| |].
    - constructor; auto.
    - intros i Hi. cbn in Hi. lia. }
  bprop. rewrite (Z.max_l 0 (d + u16 (rx_ooo_len fs) - rx_avail fs)) by lia.
  rewrite Z.add_0_r. cbn.
  rewrite (u32_sub_pos (rx_ooo_len fs)) by cside.
  assert (Est : u32 (rx_ooo_start fs + Z.max 0 (- d))
                = u32 (rx_next_seq fs + Z.max 0 d)).
  { rewrite Hds, u32_add_l. f_equal. lia. }
  rewrite Est.
  assert (Edist : u32 (u32 (rx_next_seq fs + Z.max 0 d) - rx_next_seq fs) = Z.max 0 d).
  { rewrite u32_sub_l, u32_id; cside. }
  destruct (Z.ltb_spec 0 (rx_ooo_len fs - Z.max 0 (- d))) as [Hpos|Hnpos];
    [destruct (Z.eqb_spec (u32 (rx_next_seq fs + Z.max 0 d)) (rx_next_seq fs))
       as [Heq|Hneq]|]; cbn [andb].
  - (* caught up *)
    assert (Hd00 : d <= 0).
    { rewrite Heq, Z.sub_diag in Edist. change (u32 0) with 0 in Edist. lia. }
    rewrite rx_advance_eq by (cbn; lia). cbn.
    set (k := rx_ooo_len fs - Z.max 0 (- d)) in *.
    eexists _, k. split; [done|]. split; [lia|].
    split; [constructor; cbn; [done|lia|apply Z.mod_pos_bound; lia|apply u32_range|by left]|].
    split; [intros i Hi; cbn in Hi; lia|]. cbn.
    repeat split; try done.
    intros i Hi. specialize (Hdata (Z.max 0 (- d) + i) ltac:(lia) ltac:(lia)).
    replace (d + (Z.max 0 (- d) + i)) with i in Hdata by lia. rewrite Hdata.
    rewrite Z.add_assoc, <- (u32_add_l (rx_ooo_start fs + _)), Est, Heq. done.
  - apply (Hidle _ (u32 (rx_next_seq fs + Z.max 0 d))
             (rx_ooo_len fs - Z.max 0 (- d))); [reflexivity| |].
    + constructor; cbn; try done. right. rewrite Edist.
      assert (Hdp : 0 < d).
      { destruct (Z.ltb_spec 0 d); [done|]. exfalso. apply Hneq.
        rewrite Z.max_l, Z.add_0_r by lia. by apply u32_id. }
      split; [done|]. split; [apply u32_range|]. lia.
    + intros i Hi. cbn in *. rewrite Edist.
      specialize (Hdata (Z.max 0 (- d) + i) ltac:(lia) ltac:(lia)).
      replace (d + (Z.max 0 (- d) + i)) with (Z.max 0 d + i) in Hdata by lia.
      rewrite Z.add_assoc in Hdata.
      change (rx_addr _ ?p) with (rx_addr fs p). rewrite Hdata.
      rewrite Z.add_assoc, <- (u32_add_l (rx_ooo_start fs + _)), Est. done.
  - apply (Hidle _ (u32 (rx_next_seq fs + Z.max 0 d))
             (rx_ooo_len fs - Z.max 0 (- d))); [reflexivity| |].
    + constructor; cbn; try done. left. lia.
    + intros i Hi. cbn in Hi. lia.
Qed.

Lemma rx_payload_ok s x :
  rx_ok (x_fs x) -> rx_buf_ok E (x_fs x) -> ooo_data (x_fs x) (x_mem x) ->
  untouched x -> piece_ok s x -> x_seq x = rx_next_seq (x_fs x) ->
  exists x', rx_payload E s x = Some (RxCont x')
  /\ delivers (x_fs x) (x_mem x) x' /\ x_fin_bump x' = false
  /\ x_payload_bytes x <= x_rx_bump x'
  /\ (0 < x_payload_bytes x -> x_trigger_ack x' = true).
Proof.
  intros Hok Hb Hooo [Hb0 Hf0] (Hq & Hn & Hfit & Hdata) Hseq.
  pose proof Hok as [Hl Ha Hp Hs Ho].
  rewrite Hseq in *. rewrite Z.sub_diag in Hfit. change (u32 0) with 0 in Hfit.
  set (n := x_payload_bytes x) in *. set (fs := x_fs x) in *.
  unfold rx_payload. fold n fs.
  destruct (Z.ltb_spec 0 n) as [Hpos|]; [|].
  2: { exists x. split; [done|]. split; [by apply delivers_idle|].
       split; [done|]. fold n. lia. }
  destruct (flow_rx_write_spec E fs (x_mem x) (rx_next_pos fs) n
              (rx_payload_ptr s x) Hb Hl Hp ltac:(lia) ltac:(lia))
    as (m & E1 & E2 & E3).
  rewrite E1. cbn [mbind option_bind]. rewrite rx_advance_eq by lia.
  cbn [mbind option_bind].
  set (fs1 := fs <| rx_avail := _ |> <| rx_next_pos := _ |> <| rx_next_seq := _ |>).
  assert (Hpend : ooo_pending fs1 m).
  { unfold ooo_pending. cbn. destruct Ho as [|(Hol & Host & Hod & Hof)]; [by left|].
    right. set (od := u32 (rx_ooo_start fs - rx_next_seq fs)) in *.
    replace (s32 (rx_ooo_start fs - u32 (rx_next_seq fs + n))) with (od - n)
      by (subst od; clia).
    split; [done|]. split; [done|]. split; [lia|]. split; [lia|].
    intros i Hi Hge. change (rx_addr _ ?p) with (rx_addr fs p).
    rewrite rx_addr_mod.
    replace (rx_next_pos fs + n + (od - n + i)) with (rx_next_pos fs + (od + i)) by lia.
    rewrite E3; [rewrite Z.add_assoc; by apply Hooo|].
    intros j Hj Heq. apply rx_addr_inj in Heq; lia. }
  destruct (rx_ooo_merge_ok fs1 m) as (fs' & k & -> & Hk & Hok' & Hooo' & Hlen'
    & Hbase' & Hav' & Hpos' & Hseq' & Hdat'); cbn; try done; try lia;
    [apply Z.mod_pos_bound; lia|apply u32_range|].
  cbn in *. eexists. split; [done|]. split; [|split; [done|]].
  2: { cbn. rewrite u32_add_small by lia. split; [|done]. fold n. lia. }
  rewrite u32_add_small by lia.
  constructor; cbn; try done; rewrite ?Hf0.
  - lia.
  - rewrite Hpos'. rewrite Zplus_mod_idemp_l. f_equal. lia.
  - rewrite Hseq', u32_add_l. f_equal. lia.
  - intros i Hi. destruct (Z.ltb_spec i n).
    + rewrite E2 by lia. by rewrite Hdata by lia.
    + specialize (Hdat' (i - n) ltac:(lia)).
      change (rx_addr fs1 ?p) with (rx_addr fs p) in Hdat'.
      rewrite rx_addr_mod in Hdat'.
      replace (rx_next_pos fs + n + (i - n)) with (rx_next_pos fs + i) in Hdat' by lia.
      rewrite Hdat', u32_add_l. do 2 f_equal. lia.
  - intros a Hout. apply E3. intros i Hi. apply Hout. lia.
Qed.

(** Setting one of the low flag bits does not move the buffer. *)
Lemma rx_base_lor fs f :
  0 <= f < 64 -> rx_base (fs <| rx_base_sp := Z.lor (rx_base_sp fs) f |>) = rx_base fs.
Proof.
  intros Hf. unfold rx_base, FLEXNIC_PL_FLOWST_RX_MASK. cbn [setf rx_base_sp].
  rewrite Z.land_lor_distr_l.
  replace (Z.land f 18446744073709551552) with 0; [apply Z.lor_0_r|].
  apply Z.bits_inj'. intros k Hk. rewrite Z.land_spec, Z.bits_0.
  destruct (Z.ltb_spec k 6).
  - change 18446744073709551552 with (Z.shiftl 288230376151711743 6).
    rewrite Z.shiftl_spec_low by lia. by rewrite andb_false_r.
  - rewrite Z.testbit_odd, Z.shiftr_div_pow2 by lia. rewrite Z.div_small; [done|].
    split; [lia|]. apply Z.lt_le_trans with (2 ^ 6); [lia|].
    apply Z.pow_le_mono_r; lia.
Qed.

Lemma rx_fin_ok s op fs0 m0 x :
  delivers fs0 m0 x -> x_fin_bump x = false ->
  exists x', rx_fin s op x = Some (RxCont x') /\ delivers fs0 m0 x'.
Proof.
  intros Hd Hf. unfold rx_fin.
  destruct (_ && _); [|by eauto].
  destruct (_ && _) eqn:Eacc; [|by eauto]. bprop.
  eexists. split; [done|].
  destruct Hd as [[Hl Ha Hp Hs Ho] Hooo Hlen Hbase Hbump Hpos Hseq Hdata Hframe].
  rewrite Hf, Z.add_0_r in Hseq.
  constructor; cbn; try done.
  - constructor; cbn; try done; [apply u32_range|by left].
  - intros i Hi. cbn in Hi. lia.
  - etransitivity; [|exact Hbase].
    change (rx_base (x_fs x <| rx_base_sp := Z.lor (rx_base_sp (x_fs x))
              FLEXNIC_PL_FLOWST_RXFIN |>) = rx_base (x_fs x)).
    by apply rx_base_lor.
  - rewrite Hseq. by rewrite u32_add_l.
Qed.

Lemma rx_rtt_view s ts fs : rx_view (rx_rtt s ts fs) = rx_view fs.
Proof.
  unfold rx_rtt. destruct (_ && _); [|done].
  destruct (_ <? _); [|done]. destruct (negb _); done.
Qed.

(** [delivers] from the register file at the start of the handler. *)
Lemma delivers_view fs0 fs1 m x :
  rx_view fs1 = rx_view fs0 -> delivers fs1 m x -> delivers fs0 m x.
Proof.
  intros Hv. pose proof (rx_view_eq _ _ Hv) as (Eb & El & Ea & Ep & Es & _ & _).
  intros [? ? Hlen Hbase ? Hpos Hseq Hdata Hframe].
  unfold rx_addr, rx_base in *.
  rewrite Eb, El, Ea, Ep, Es in *. by constructor.
Qed.

Lemma rx_ok_view fs0 fs1 : rx_view fs1 = rx_view fs0 -> rx_ok fs0 -> rx_ok fs1.
Proof.
  intros Hv. pose proof (rx_view_eq _ _ Hv) as (Eb & El & Ea & Ep & Es & Eo & Eol).
  intros [? ? ? ? ?]. constructor; by rewrite ?El, ?Ea, ?Ep, ?Es, ?Eo, ?Eol.
Qed.

Lemma rx_buf_ok_view fs0 fs1 :
  rx_view fs1 = rx_view fs0 -> rx_buf_ok E fs0 -> rx_buf_ok E fs1.
Proof.
  intros Hv. pose proof (rx_view_eq _ _ Hv) as (Eb & El & _).
  unfold rx_buf_ok, rx_base. by rewrite Eb, El.
Qed.

Lemma ooo_data_view fs0 fs1 m :
  rx_view fs1 = rx_view fs0 -> ooo_data fs0 m -> ooo_data fs1 m.
Proof.
  intros Hv. pose proof (rx_view_eq _ _ Hv) as (Eb & El & Ea & Ep & Es & Eo & Eol).
  unfold ooo_data, rx_addr, rx_base. by rewrite Eb, El, Ep, Es, Eo, Eol.
Qed.

(** From a trimmed segment to the end of the stages. *)
Lemma rx_tail_ok s op ts fs0 m0 x :
  rx_ok fs0 -> rx_buf_ok E fs0 -> ooo_data fs0 m0 ->
  rx_view (x_fs x) = rx_view fs0 -> x_mem x = m0 -> untouched x -> piece_ok s x ->
  exists r x', (r = RxCont x' \/ r = RxUnlock x') /\ delivers fs0 m0 x'
  /\ (rx_ooo E s x ;>> rx_update s ts ;>> rx_payload E s ;>> rx_fin s op) = Some r.
Proof.
  intros Hok Hb Hooo Hv <- Hun Hpc.
  destruct (rx_ooo_ok s x) as [[Hseq ->]|(x' & -> & Hd)];
    [by eapply rx_ok_view|by eapply rx_buf_ok_view|by eapply ooo_data_view|done|done|..].
  2: { exists (RxUnlock x'), x'. split; [by right|]. split; [|done].
       by eapply delivers_view. }
  cbn [rx_bind]. unfold rx_update.
  set (x1 := x <| x_fs ::= rx_rtt s ts |>).
  assert (Hv1 : rx_view (x_fs x1) = rx_view fs0) by (cbn; by rewrite rx_rtt_view).
  pose proof (rx_view_eq _ _ (eq_trans Hv1 (eq_sym Hv)))
    as (_ & _ & Ea1 & _ & Es1 & _).
  destruct (_ && _).
  { exists (RxUnlock x1), x1. split; [by right|]. split; [|done].
    by apply delivers_idle. }
  cbn [rx_bind].
  destruct (rx_payload_ok s x1) as (x2 & -> & Hd & Hf & _);
    [by eapply rx_ok_view|by eapply rx_buf_ok_view|by eapply ooo_data_view|done| |
     by rewrite Es1|].
  { unfold piece_ok. rewrite Ea1, Es1. exact Hpc. }
  cbn [rx_bind].
  destruct (rx_fin_ok s op fs0 (x_mem x) x2) as (x3 & -> & Hd3);
    [by eapply delivers_view|done|].
  exists (RxCont x3), x3. split; [by left|done].
Qed.

(** The state in which the stages end. *)
Definition rx_final (r : rxres) : rxst :=
  match r with RxCont x | RxUnlock x | RxSlow _ x => x end.

(** All stages: a well-formed segment never makes the fast path fail, and what
    it reports as received is the stream. *)
Lemma rx_stages_ok s ts fs m :
  rx_ok fs -> rx_buf_ok E fs -> ooo_data fs m -> seg_ok s ->
  ~ trim_gap fs (f_beui32 (tcp_seqno (sg_tcp s))) (sg_payload_bytes s) ->
  exists r, rx_stages E s ts fs m = Some r /\ delivers fs m (rx_final r).
Proof.
  intros Hok Hb Hooo Hsg Hgap. unfold rx_stages.
  set (x0 := mk_rxst _ _ _ _ _ _ _ _ _).
  assert (Hidle : delivers fs m x0) by by apply delivers_idle.
  unfold rx_slow_check.
  destruct (negb _); [eexists; split; [reflexivity|done]|].
  destruct (negb _); [eexists; split; [reflexivity|done]|].
  cbn [rx_bind].
  destruct (rx_ack s (sg_payload_bytes s) x0) as [r|] eqn:Eack.
  2: { exfalso. revert Eack. unfold rx_ack.
       destruct (if has_flag _ _ then tcp_valid_rxack _ _ else None); [|done].
       repeat (case_match; try done). }
  destruct (rx_ack_frame _ _ _ _ Eack)
    as (x1 & Hr & Hv & Hm & Hpb & Hpo & Hsq & Hbp & Hfb).
  destruct Hr as [->| ->]; cbn [rx_bind].
  2: { eexists. split; [reflexivity|]. apply delivers_idle; try done. }
  destruct (rx_trim_ok s x1) as (x2 & Htr & Hfs2 & Hm2 & Hb2 & Hf2); try done.
  { by eapply rx_ok_view. }
  { rewrite Hsq, Hpb. cbn. unfold trim_gap in *.
    pose proof (rx_view_eq _ _ Hv) as (_ & _ & -> & _ & -> & _). done. }
  assert (Hv2 : rx_view (x_fs x2) = rx_view fs) by (by rewrite Hfs2).
  assert (Hun2 : untouched x2)
    by (split; [by rewrite Hb2, Hbp|by rewrite Hf2, Hfb]).
  destruct Htr as [->|[-> Hpc]]; cbn [rx_bind].
  { eexists. split; [reflexivity|]. apply delivers_idle; try done.
    cbn [rx_final]. by rewrite Hm2, Hm. }
  destruct (rx_tail_ok s (sg_payload_bytes s) ts fs m x2) as (r & x3 & Hr & Hd & E3);
    try done; [by rewrite Hm2, Hm|].
  exists r. split; [exact E3|]. by destruct Hr as [->| ->].
Qed.

End Stream.
