(* ===== verification/FlowHandlers.v ===== *)
(** * The flow handlers: lemmas

    The receive stages and the sender, the part of the packet handlers after the label
    [unlock], and the other handlers: events of the queue manager, updates of applications,
    retransmissions. *)

From S2P Require Import Prelude FpTypes TcpCommon FlowTx FlowRx FlowOps Sender FlowProofs.

(** ** Receive stages and the sender *)

Definition snd_view (fs : flowst) := (st_view fs, tx_view fs, tx_rate fs).

(** What the stages after the acknowledgement leave alone. *)
Definition keeps_snd (s : rx_seg) (x x' : rxst) : Prop :=
  snd_view (x_fs x') = snd_view (x_fs x) /\ x_tx_bump x' = x_tx_bump x
  /\ (is_u16 (tcp_wnd (sg_tcp s)) -> is_u32 (rx_remote_avail (x_fs x)) ->
      is_u32 (rx_remote_avail (x_fs x'))).

#[export] Instance keeps_snd_preorder s : PreOrder (keeps_snd s).
Proof.
  split; [by intros x|]. intros x y z (E1 & F1 & G1) (E2 & F2 & G2).
  split; [by rewrite E2|]. split; [by rewrite F2|]. auto.
Qed.

Definition stage_keeps (s : rx_seg) (f : rxst -> option rxres) : Prop :=
  forall x r, f x = Some r -> keeps_snd s x (rx_final r).

Lemma stage_bind s f g :
  stage_keeps s f -> stage_keeps s g -> stage_keeps s (fun x => f x ;>> g).
Proof.
  intros Hf Hg x r Hr. destruct (f x) as [r1|] eqn:E1; [|done].
  pose proof (Hf _ _ E1) as H1.
  destruct r1 as [x1|x1|b x1]; cbn [rx_bind] in Hr; [|by injection Hr as <-..].
  etransitivity; [exact H1|]. by apply Hg.
Qed.

(** Cases of a stage that only writes receive registers. *)
Ltac stage_cases :=
  repeat first
    [ progress simplify_eq
    | match goal with
      | H : context [if ?b then _ else _] |- _ => destruct b
      | H : context [match ?o with Some _ => _ | None => _ end] |- _ =>
          destruct o as [?|] eqn:?; cbn [mbind option_bind] in H
      | H : context [?o ≫= _] |- _ =>
          destruct o as [?|] eqn:?; cbn [mbind option_bind] in H
      | p : (_ * _)%type |- _ => destruct p
      end ].

Lemma rx_trim_keeps s : stage_keeps s rx_trim.
Proof. intros x r. unfold rx_trim. intros Hr. stage_cases; done. Qed.

Lemma rx_ooo_keeps E s : stage_keeps s (rx_ooo E s).
Proof. intros x r. unfold rx_ooo. cbv zeta. intros Hr. stage_cases; done. Qed.

Lemma rx_rtt_snd s ts fs : snd_view (rx_rtt s ts fs) = snd_view fs.
Proof.
  unfold rx_rtt. destruct (_ && _); [|done].
  destruct (_ <? _); [|done]. by destruct (negb _).
Qed.

Lemma rx_rtt_wnd s ts fs :
  rx_remote_avail (rx_rtt s ts fs) = f_beui16 (tcp_wnd (sg_tcp s)).
Proof. reflexivity. Qed.

Lemma rx_update_keeps s ts : stage_keeps s (rx_update s ts).
Proof.
  intros x r. unfold rx_update. cbv zeta. intros Hr.
  assert (rx_final r = x <| x_fs ::= rx_rtt s ts |>) as ->.
  { destruct (_ && _); by injection Hr as <-. }
  split; [apply rx_rtt_snd|]. split; [done|]. intros Hw _. cbn [x_fs setf].
  rewrite rx_rtt_wnd. pose proof (bswap16_range _ Hw). unfold f_beui16. cside.
Qed.

Lemma rx_advance_snd n fs fs' :
  rx_advance n fs = Some fs' ->
  snd_view fs' = snd_view fs /\ rx_remote_avail fs' = rx_remote_avail fs.
Proof.
  unfold rx_advance. cbn. intros Ha.
  destruct (rx_len fs <=? _); cbn in Ha; destruct (_ <? _); by simplify_eq/=.
Qed.

Lemma rx_ooo_merge_snd fs fs' k :
  rx_ooo_merge fs = Some (fs', k) ->
  snd_view fs' = snd_view fs /\ rx_remote_avail fs' = rx_remote_avail fs.
Proof.
  unfold rx_ooo_merge. cbv zeta. intros Hm. stage_cases; try done.
  match goal with H : rx_advance _ _ = _ |- _ => apply rx_advance_snd in H end.
  done.
Qed.

Lemma rx_payload_keeps E s : stage_keeps s (rx_payload E s).
Proof.
  intros x r. unfold rx_payload. cbv zeta. intros Hr.
  destruct (0 <? _); [|by injection Hr as <-].
  destruct (flow_rx_write _ _ _ _ _ _) as [m|]; [|done]. cbn [mbind option_bind] in Hr.
  destruct (rx_advance _ _) as [fs1|] eqn:E1; [|done]. cbn [mbind option_bind] in Hr.
  destruct (rx_ooo_merge fs1) as [[fs2 k]|] eqn:E2; [|done].
  cbn [mbind option_bind] in Hr. injection Hr as <-.
  apply rx_advance_snd in E1 as [E1 F1]. apply rx_ooo_merge_snd in E2 as [E2 F2].
  split; [exact (eq_trans E2 E1)|]. split; [done|].
  intros _ Hu. cbn [rx_final x_fs setf]. by rewrite F2, F1.
Qed.

Lemma rx_fin_keeps s op : stage_keeps s (rx_fin s op).
Proof. intros x r. unfold rx_fin. cbv zeta. intros Hr. stage_cases; done. Qed.

(** The stages after the acknowledgement. *)
Lemma rx_tail_keeps E s ts op :
  stage_keeps s (fun x => rx_trim x ;>> rx_ooo E s ;>> rx_update s ts
                            ;>> rx_payload E s ;>> rx_fin s op).
Proof.
  apply (stage_bind s (fun x => rx_trim x ;>> rx_ooo E s ;>> rx_update s ts
                                  ;>> rx_payload E s)); [|apply rx_fin_keeps].
  apply (stage_bind s (fun x => rx_trim x ;>> rx_ooo E s ;>> rx_update s ts));
    [|apply rx_payload_keeps].
  apply (stage_bind s (fun x => rx_trim x ;>> rx_ooo E s)); [|apply rx_update_keeps].
  apply (stage_bind s rx_trim); [apply rx_trim_keeps|apply rx_ooo_keeps].
Qed.

Lemma snd_view_eq fs fs' :
  snd_view fs' = snd_view fs ->
  st_view fs' = st_view fs /\ tx_view fs' = tx_view fs /\ tx_rate fs' = tx_rate fs.
Proof.
  intros Hv. split; [exact (f_equal (fun t => t.1.1) Hv)|].
  split; [exact (f_equal (fun t => t.1.2) Hv)|exact (f_equal (fun t => t.2) Hv)].
Qed.

(** What a received segment does to the sender: [n] bytes are acknowledged,
    and the sender may start over from the oldest unacknowledged byte. *)
Definition snd_acked (isn : Z) (fs0 fs : flowst) (a : snd) (n : Z) : Prop :=
  exists a1 a2, snd_step (tx_len fs0) a (SndAck n) a1
  /\ (a2 = a1 \/ snd_step (tx_len fs0) a1 SndRewind a2)
  /\ snd_rep isn fs a2 /\ snd_env_ok fs /\ st_view fs = st_view fs0.

Lemma snd_acked_none isn fs0 fs a :
  snd_rep isn fs0 a -> snd_env_ok fs0 -> tx_view fs = tx_view fs0 ->
  st_view fs = st_view fs0 -> rx_remote_avail fs = rx_remote_avail fs0 ->
  tx_rate fs = tx_rate fs0 -> snd_acked isn fs0 fs a 0.
Proof.
  intros Hr He Hv Hst Hw Hrt.
  pose proof Hr as [Hc (? & ? & ?) Hs Ha Hq Hp]. destruct He as [He1 He2 He3].
  exists a, a. split.
  { replace a with (mk_snd (s_una a + 0) (Z.max (s_nxt a) (s_una a + 0)) (s_end a)) at 2.
    - constructor. lia.
    - destruct a as [u n e]. cbn in *. f_equal; lia. }
  split; [by left|]. split; [by eapply snd_rep_view|].
  split; [|done]. apply st_view_vm in Hst as Hvm.
  constructor; rewrite ?Hw, ?Hrt, ?Hvm; done.
Qed.

(** The acknowledgement stage is a step of the sender. *)
Lemma rx_ack_snd isn s op x r a :
  snd_rep isn (x_fs x) a -> snd_env_ok (x_fs x) -> x_tx_bump x = 0 ->
  is_u32 (f_beui32 (tcp_ackno (sg_tcp s))) -> rx_ack s op x = Some r ->
  let x' := rx_final r in
  snd_acked isn (x_fs x) (x_fs x') a (x_tx_bump x')
  /\ (x_tx_bump x' <> 0 ->
      f_beui32 (tcp_ackno (sg_tcp s)) = u32 (isn + s_una a + x_tx_bump x')).
Proof.
  intros Hrep Henv Hb0 Hack. cbv zeta. unfold rx_ack.
  set (x1 := if 0 <? x_payload_bytes x then _ else x).
  set (is_ack := has_flag (sg_flags s) TAS_TCP_ACK).
  set (x2 := if is_ack then _ else x1).
  assert (Hx2 : tx_view (x_fs x2) = tx_view (x_fs x)
    /\ st_view (x_fs x2) = st_view (x_fs x)
    /\ rx_remote_avail (x_fs x2) = rx_remote_avail (x_fs x)
    /\ tx_rate (x_fs x2) = tx_rate (x_fs x) /\ x_tx_bump x2 = 0).
  { subst x2 x1. by destruct (0 <? _), is_ack. }
  destruct Hx2 as (Hv & Hst & Hw & Hrt & Hb2). clearbody x2. clear x1.
  assert (Hnone : snd_acked isn (x_fs x) (x_fs x2) a (x_tx_bump x2)
    /\ (x_tx_bump x2 <> 0 ->
        f_beui32 (tcp_ackno (sg_tcp s)) = u32 (isn + s_una a + x_tx_bump x2))).
  { rewrite Hb2. split; [|done]. by apply snd_acked_none. }
  destruct is_ack; [|by intros [= <-]].
  pose proof (snd_rep_view _ _ _ _ Hv Hrep) as Hrep2.
  rewrite (tcp_valid_rxack_rep isn _ a) by done. cbv zeta.
  set (n := u32 (f_beui32 (tcp_ackno (sg_tcp s)) - (isn + s_una a))).
  destruct (Z.leb_spec n (s_end a - s_una a)) as [Hn|]; [|by intros [= <-]].
  assert (Hn0 : is_u32 n) by apply u32_range.
  assert (Hseq : f_beui32 (tcp_ackno (sg_tcp s)) = u32 (isn + s_una a + n)).
  { subst n. rewrite u32_add_r. rewrite <- (u32_id _ Hack) at 1.
    f_equal. lia. }
  pose proof (rx_ack_bump_rep isn (x_fs x2) a s n Hrep2 ltac:(cside)) as Hrep3.
  pose proof (rx_ack_bump_st s n (x_fs x2)) as (Hst3 & Hw3 & Hrt3).
  destruct Henv as [He1 He2 He3].
  assert (Hvm : vm_id (rx_ack_bump s n (x_fs x2)) = vm_id (x_fs x)).
  { apply st_view_vm. by rewrite Hst3. }
  set (a1 := mk_snd _ _ _) in Hrep3.
  assert (Hstep : snd_step (tx_len (x_fs x)) a (SndAck n) a1) by (constructor; cside).
  assert (Henv3 : snd_env_ok (rx_ack_bump s n (x_fs x2))).
  { constructor; rewrite ?Hw3, ?Hrt3, ?Hvm, ?Hw, ?Hrt; done. }
  intros Hr.
  assert (Hcase : exists x3,
    (rx_final r = x3 \/ rx_final r = x3 <| x_fs ::= flow_reset_retransmit |>)
    /\ x_tx_bump x3 = n /\ snd_view (x_fs x3) = snd_view (rx_ack_bump s n (x_fs x2))
    /\ rx_remote_avail (x_fs x3) = rx_remote_avail (rx_ack_bump s n (x_fs x2))).
  { cbv zeta in Hr. stage_cases; cbn [rx_final]; eexists;
      first [split; [by left|done] | split; [by right|done]]. }
  destruct Hcase as (x3 & Hfin & <- & Hv3 & Hwv). split.
  2: { intros _. by destruct Hfin as [->| ->]. }
  apply snd_view_eq in Hv3 as (Hst4 & Hv4 & Hrt4).
  pose proof (snd_rep_view _ _ _ _ Hv4 Hrep3) as Hrep4.
  assert (Hstx : st_view (x_fs x3) = st_view (x_fs x)) by congruence.
  assert (Henv4 : snd_env_ok (x_fs x3)).
  { destruct Henv3. apply st_view_vm in Hst4 as Hvm4.
    constructor; rewrite ?Hwv, ?Hrt4, ?Hvm4; done. }
  destruct Hfin as [->| ->].
  - exists a1, a1. split; [done|]. split; [by left|]. done.
  - pose proof (flow_reset_retransmit_st (x_fs x3)) as (Hst5 & Hw5 & Hrt5).
    exists a1, (mk_snd (s_una a1) (s_una a1) (s_end a1)). split; [done|].
    split; [right; constructor|]. cbn [x_fs setf].
    split; [by apply flow_reset_retransmit_rep|].
    split; [|by rewrite Hst5]. destruct Henv4 as [? ? ?].
    apply st_view_vm in Hst5 as Hvm5.
    constructor; rewrite ?Hw5, ?Hvm5; auto.
Qed.

(** All receive stages. *)
Lemma rx_stages_snd E isn s ts fs m a r :
  snd_rep isn fs a -> snd_env_ok fs -> is_u16 (tcp_wnd (sg_tcp s)) ->
  is_u32 (f_beui32 (tcp_ackno (sg_tcp s))) -> rx_stages E s ts fs m = Some r ->
  let x := rx_final r in
  snd_acked isn fs (x_fs x) a (x_tx_bump x)
  /\ (x_tx_bump x <> 0 ->
      f_beui32 (tcp_ackno (sg_tcp s)) = u32 (isn + s_una a + x_tx_bump x)).
Proof.
  intros Hrep Henv Hwnd Hack. cbv zeta. unfold rx_stages.
  set (x0 := mk_rxst _ _ _ _ _ _ _ _ _).
  assert (Hidle : snd_acked isn fs (x_fs x0) a (x_tx_bump x0)
    /\ (x_tx_bump x0 <> 0 ->
        f_beui32 (tcp_ackno (sg_tcp s)) = u32 (isn + s_una a + x_tx_bump x0))).
  { split; [by apply snd_acked_none|done]. }
  unfold rx_slow_check.
  destruct (negb _); [by intros [= <-]|]. destruct (negb _); [by intros [= <-]|].
  cbn [rx_bind].
  destruct (rx_ack s (sg_payload_bytes s) x0) as [r1|] eqn:Eack; [|done].
  pose proof (rx_ack_snd isn s _ x0 r1 a Hrep Henv eq_refl Hack Eack) as H1.
  cbv zeta in H1.
  destruct r1 as [x1|x1|b x1]; cbn [rx_bind]; [|by intros [= <-]..].
  intros Htail. cbn [rx_final] in H1. destruct H1 as [(a1 & a2 & S1 & S2 & R & En & St) Hsq].
  pose proof (rx_tail_keeps E s ts (sg_payload_bytes s) x1 r Htail) as (Hv & Hb & Hw).
  rewrite Hb. split; [|done].
  apply snd_view_eq in Hv as (Hst & Hv & Hrt).
  exists a1, a2. split; [done|]. split; [done|].
  split; [by eapply snd_rep_view|]. split; [|by rewrite Hst].
  destruct En as [? ? ?]. apply st_view_vm in Hst as Hvm.
  constructor; rewrite ?Hrt, ?Hvm; auto.
Qed.

(** ** After the label [unlock] *)

Section Finish.
Context {Q : Type} `{QmanLaws Q}.

(** Setting a queue of this flow succeeds. *)
Lemma qman_set_or_abort_ok (ctx : dataplane_context Q) vm flow rate avail chunk flags :
  qman_inv (qman ctx) -> 0 <= vm < FLEXNIC_PL_VMST_NUM ->
  0 <= flow < FLEXNIC_NUM_QMFLOWQUEUES -> is_u32 rate -> is_u32 avail ->
  0 <= chunk < 65536 ->
  exists q, qman_set (qman ctx) vm flow rate avail chunk flags = Some (q, 0)
  /\ qman_inv q
  /\ qman_set_or_abort ctx vm flow rate avail chunk flags = Some (ctx <| qman := q |>).
Proof.
  intros Hi Hv Hf Hr Ha Hc. unfold qman_set_or_abort.
  destruct (qman_set_ok (qman ctx) vm flow rate avail chunk flags) as (q & E & Hq);
    try done.
  exists q. by rewrite E.
Qed.

(** The entry that tells the application about [n] received and [t]
    acknowledged bytes. *)
Definition arx_entry (fs : flowst) (rx_pos n t : Z) (fin : bool) : arx :=
  mk_arx FLEXTCP_PL_ARX_CONNUPDATE (opaque fs) n rx_pos t
    (if fin then FLEXTCP_PL_ARX_FLRXDONE else 0).

Definition notified (ctx : dataplane_context Q) (fs : flowst) (rx_pos n t : Z)
    (fin : bool) : dataplane_context Q :=
  if negb (n =? 0) || negb (t =? 0) || fin
  then ctx <| arx_num := u16 (arx_num ctx + 1) |>
           <| arx_ctx ::= <[arx_num ctx := u16 (db_id fs)]> |>
           <| arx_vm ::= <[arx_num ctx := u16 (vm_id fs)]> |>
           <| arx_cache ::= <[arx_num ctx := arx_entry fs rx_pos n t fin]> |>
  else ctx.

(** [rx_finish] never fails: the application is notified of exactly what
    changed, and an acknowledgement goes out if one is due. *)
Lemma rx_finish_ok send_ack (ctx : dataplane_context Q) flow rx_pos old_avail x :
  qman_inv (qman ctx) -> ctx_room ctx -> 0 <= flow < FLEXNIC_NUM_QMFLOWQUEUES ->
  snd_env_ok (x_fs x) -> 0 <= tx_sent (x_fs x) -> is_u32 (tx_avail (x_fs x)) ->
  (forall ctx', 0 <= tx_num ctx' < TXBUF_SIZE -> exists hs,
     send_ack ctx' (x_fs x) = Some (ctx' <| tx_handles := hs |>
                                         <| tx_num := tx_num ctx' + 1 |>)) ->
  exists q hs, qman_inv q
  /\ let ctx1 := notified ctx (x_fs x) rx_pos (x_rx_bump x) (x_tx_bump x)
                   (x_fin_bump x) <| qman := q |> in
     rx_finish send_ack ctx flow rx_pos old_avail x
     = Some (if x_trigger_ack x
             then ctx1 <| tx_handles := hs |> <| tx_num := tx_num ctx + 1 |>
             else ctx1).
Proof.
  intros Hq [Htx Harx] Hf [He1 He2 He3] Hs Ha Hack. unfold rx_finish. cbv zeta.
  set (ctx1 := notified _ _ _ _ _ _).
  set (o := if _ || _ || _ then _ else Some ctx).
  assert (Ho : o = Some ctx1).
  { subst o ctx1. unfold notified. destruct (_ || _); [|done].
    unfold arx_cache_add, arx_entry. unfold BATCH_SIZE in *.
    destruct (Z.leb_spec 16 (arx_num ctx)); [lia|].
    by destruct (x_fin_bump x). }
  rewrite Ho. cbn [mbind option_bind].
  assert (Hq1 : qman_inv (qman ctx1) /\ tx_num ctx1 = tx_num ctx).
  { subst ctx1. unfold notified. by destruct (_ || _). }
  destruct Hq1 as [Hq1 Ht1].
  destruct (tcp_txavail_range (x_fs x) None He1 Hs Ha) as [Hav _].
  set (new := tcp_txavail (x_fs x) None) in *.
  assert (Hset : exists q, qman_inv q /\
    (if old_avail <? new
     then qman_set_or_abort ctx1 (vm_id (x_fs x)) flow (tx_rate (x_fs x)) new
            TCP_MSS QMAN_SET_ALL
     else Some ctx1) = Some (ctx1 <| qman := q |>)).
  { destruct (old_avail <? new).
    - destruct (qman_set_or_abort_ok ctx1 (vm_id (x_fs x)) flow (tx_rate (x_fs x))
                  new TCP_MSS QMAN_SET_ALL) as (q & _ & Hi & E); try done.
      by exists q.
    - exists (qman ctx1). split; [done|]. by destruct ctx1. }
  destruct Hset as (q & Hi & ->). cbn [mbind option_bind].
  destruct (x_trigger_ack x).
  - destruct (Hack (ctx1 <| qman := q |>)) as [hs ->]; [cbn; by rewrite Ht1|].
    exists q, hs. split; [done|]. cbn. by rewrite Ht1.
  - by exists q, ∅.
Qed.

End Finish.

(** ** The packet handlers *)

Section Handler.
Context (E : fpenv) {Q : Type} `{QmanLaws Q} (strm : Z -> Z) (isn : Z).

(** Register files that differ in the lock or in the slow path flag. *)
Lemma received_unlock fs0 m0 fs m n fin :
  received strm (fs_lock fs0) m0 fs m n fin ->
  received strm fs0 m0 (fs_unlock fs) m n fin.
Proof. intros [[? ? ? ? ?] ? ? ? ? ? ? ? ?]. constructor; [constructor|..]; done. Qed.

Lemma snd_acked_unlock fs0 fs a t :
  snd_acked isn (fs_lock fs0) fs a t -> snd_acked isn fs0 (fs_unlock fs) a t.
Proof.
  intros (a1 & a2 & S1 & S2 & R & [? ? ?] & St). exists a1, a2.
  split; [done|]. split; [done|]. split; [by eapply snd_rep_view, R|].
  split; [by constructor|done].
Qed.

Definition set_slowpath (fs : flowst) : flowst :=
  fs <| rx_base_sp ::= fun b => Z.lor b FLEXNIC_PL_FLOWST_SLOWPATH |>.

Lemma received_slowpath fs0 m0 fs m n fin :
  received strm fs0 m0 fs m n fin ->
  received strm fs0 m0 (set_slowpath fs) m n fin.
Proof.
  assert (Eb : rx_base (set_slowpath fs) = rx_base fs).
  { apply (rx_base_lor fs 1). lia. }
  intros [[? ? ? ? ?] Ho ? Hb ? ? ? ? ?]. constructor; [constructor|..]; try done.
  - intros i Hi. unfold rx_addr. rewrite Eb. by apply Ho.
  - by rewrite Eb.
Qed.

Lemma snd_acked_slowpath fs0 fs a t :
  snd_acked isn fs0 fs a t -> snd_acked isn fs0 (set_slowpath fs) a t.
Proof.
  intros (a1 & a2 & S1 & S2 & R & [? ? ?] & St). exists a1, a2.
  split; [done|]. split; [done|]. split; [by eapply snd_rep_view, R|].
  split; [by constructor|done].
Qed.

(** A flow in a consistent state: receive side, send side and the data of the
    out-of-order interval. *)
Record flow_ok (w : world Q) (fid : Z) (a : snd) : Prop := mk_flow_ok {
  fo_rx : rx_ok (w_flowst w !!! fid);
  fo_buf : rx_buf_ok E (w_flowst w !!! fid);
  fo_ooo : ooo_data strm (w_flowst w !!! fid) (w_shm w (vm_id (w_flowst w !!! fid)));
  fo_snd : snd_rep isn (w_flowst w !!! fid) a;
  fo_env : snd_env_ok (w_flowst w !!! fid);
  fo_lock : lock (w_flowst w !!! fid) = 0 }.

(** The core can queue one more packet and one more notification. *)
Definition core_ok (w : world Q) : Prop :=
  qman_inv (qman (w_ctx w)) /\ ctx_room (w_ctx w).

(** What the packet handler has done with flow [fid]. *)
Record packet_done (w w' : world Q) (fid : Z) (a : snd) (s : rx_seg) (n t : Z)
    (fin : bool) : Prop := mk_packet_done {
  pd_rx : let fs := w_flowst w !!! fid in
    received strm fs (w_shm w (vm_id fs)) (w_flowst w' !!! fid)
      (w_shm w' (vm_id fs)) n fin;
  pd_snd : snd_acked isn (w_flowst w !!! fid) (w_flowst w' !!! fid) a t;
  pd_ack : t <> 0 -> f_beui32 (tcp_ackno (sg_tcp s)) = u32 (isn + s_una a + t);
  pd_lock : lock (w_flowst w' !!! fid) = 0;
  pd_qman : qman_inv (qman (w_ctx w'));
  pd_arx : let fs := w_flowst w !!! fid in
    let c := notified (w_ctx w) (w_flowst w' !!! fid) (rx_next_pos fs) n t fin in
    arx_cache (w_ctx w') = arx_cache c /\ arx_num (w_ctx w') = arx_num c
    /\ arx_ctx (w_ctx w') = arx_ctx c /\ arx_vm (w_ctx w') = arx_vm c;
  pd_vms : forall v, v <> vm_id (w_flowst w !!! fid) -> w_shm w' v = w_shm w v;
  pd_others : forall f, f <> fid -> w_flowst w' !! f = w_flowst w !! f }.

Lemma received_none fs m :
  rx_ok fs -> ooo_data strm fs m -> received strm fs m fs m 0 false.
Proof.
  intros Hok Ho. pose proof Hok as [Hl Ha Hp Hs _].
  constructor; try done; try lia; rewrite ?Z.add_0_r.
  - by rewrite Z.mod_small by lia.
  - by rewrite u32_id.
Qed.

(** The stages after the slow path checks never go to the slow path. *)
Definition never_slow (f : rxst -> option rxres) : Prop :=
  forall x r, f x = Some r -> exists y, r = RxCont y \/ r = RxUnlock y.

Lemma never_slow_bind f g :
  never_slow f -> never_slow g -> never_slow (fun x => f x ;>> g).
Proof.
  intros Hf Hg x r Hr. destruct (f x) as [r1|] eqn:E1; [|done].
  destruct (Hf _ _ E1) as [y [->| ->]]; cbn [rx_bind] in Hr; [by eapply Hg|].
  injection Hr as <-. eauto.
Qed.

Lemma rx_ack_never_slow s op : never_slow (rx_ack s op).
Proof.
  intros x r Hr. destruct (rx_ack_frame _ _ _ _ Hr) as (y & Hy & _). eauto.
Qed.

Lemma rx_trim_never_slow : never_slow rx_trim.
Proof. intros x r. unfold rx_trim. intros Hr. stage_cases; eauto. Qed.

Lemma rx_ooo_never_slow s : never_slow (rx_ooo E s).
Proof. intros x r. unfold rx_ooo. cbv zeta. intros Hr. stage_cases; eauto. Qed.

Lemma rx_update_never_slow s ts : never_slow (rx_update s ts).
Proof. intros x r. unfold rx_update. cbv zeta. intros Hr. stage_cases; eauto. Qed.

Lemma rx_payload_never_slow s : never_slow (rx_payload E s).
Proof.
  intros x r. unfold rx_payload. cbv zeta.
  destruct (0 <? _); [|intros [= <-]; eauto].
  destruct (flow_rx_write _ _ _ _ _ _); [|done]. cbn [mbind option_bind].
  destruct (rx_advance _ _); [|done]. cbn [mbind option_bind].
  destruct (rx_ooo_merge _) as [[? ?]|]; [|done]. cbn [mbind option_bind].
  intros [= <-]. eauto.
Qed.

Lemma rx_fin_never_slow s op : never_slow (rx_fin s op).
Proof. intros x r. unfold rx_fin. cbv zeta. intros Hr. stage_cases; eauto. Qed.

Lemma rx_tail_never_slow s ts op :
  never_slow (fun x => rx_ack s op x ;>> rx_trim ;>> rx_ooo E s ;>> rx_update s ts
    ;>> rx_payload E s ;>> rx_fin s op).
Proof.
  apply (never_slow_bind (fun x => rx_ack s op x ;>> rx_trim
    ;>> rx_ooo E s ;>> rx_update s ts ;>> rx_payload E s)); [|apply rx_fin_never_slow].
  apply (never_slow_bind (fun x => rx_ack s op x ;>> rx_trim
    ;>> rx_ooo E s ;>> rx_update s ts)); [|apply rx_payload_never_slow].
  apply (never_slow_bind (fun x => rx_ack s op x ;>> rx_trim
    ;>> rx_ooo E s)); [|apply rx_update_never_slow].
  apply (never_slow_bind (fun x => rx_ack s op x ;>> rx_trim));
    [|apply rx_ooo_never_slow].
  apply never_slow_bind; [apply rx_ack_never_slow|apply rx_trim_never_slow].
Qed.

(** Nothing is delivered when the slow path gets the packet. *)
Lemma rx_stages_slow s ts fs m b x :
  rx_stages E s ts fs m = Some (RxSlow b x) ->
  x_fs x = fs /\ x_mem x = m /\ x_rx_bump x = 0 /\ x_tx_bump x = 0
  /\ x_fin_bump x = false.
Proof.
  unfold rx_stages. set (x0 := mk_rxst _ _ _ _ _ _ _ _ _).
  unfold rx_slow_check.
  destruct (negb _); [by intros [= _ <-]|]. destruct (negb _); [by intros [= _ <-]|].
  cbn [rx_bind]. intros Hr. exfalso.
  destruct (rx_tail_never_slow _ _ _ x0 _ Hr) as [y [|]]; discriminate.
Qed.

Lemma rx_budget_frame (ctx : dataplane_context Q) sb vm n :
  let c := rx_budget ctx sb vm n in
  qman c = qman ctx /\ arx_cache c = arx_cache ctx /\ arx_num c = arx_num ctx
  /\ arx_ctx c = arx_ctx ctx /\ arx_vm c = arx_vm ctx /\ tx_num c = tx_num ctx.
Proof. unfold rx_budget. by destruct sb. Qed.

(** The handler of a well-formed segment. *)
Lemma rx_handler_ok s send_ack (w : world Q) fid sb ts a :
  flow_ok w fid a -> core_ok w -> seg_ok strm s ->
  is_u16 (tcp_wnd (sg_tcp s)) -> is_u32 (f_beui32 (tcp_ackno (sg_tcp s))) ->
  ~ trim_gap (w_flowst w !!! fid) (f_beui32 (tcp_seqno (sg_tcp s)))
      (sg_payload_bytes s) ->
  (forall ctx fs, rx_ok fs -> 0 <= tx_num ctx < TXBUF_SIZE -> exists hs,
     send_ack ctx fs = Some (ctx <| tx_handles := hs |>
                                 <| tx_num := tx_num ctx + 1 |>)) ->
  exists w' ret n t fin, rx_handler E s send_ack w fid sb ts = Some (w', ret)
  /\ packet_done w w' fid a s n t fin.
Proof.
  intros [Hrx Hbuf Hooo Hsnd Henv Hlk] [Hq Hroom] Hseg Hwnd Hackno Hgap Hack.
  unfold rx_handler. set (fs := w_flowst w !!! fid) in *.
  set (ctx := rx_budget _ _ _ _).
  assert (Hctx : qman ctx = qman (w_ctx w) /\ arx_cache ctx = arx_cache (w_ctx w)
    /\ arx_num ctx = arx_num (w_ctx w) /\ arx_ctx ctx = arx_ctx (w_ctx w)
    /\ arx_vm ctx = arx_vm (w_ctx w) /\ tx_num ctx = tx_num (w_ctx w))
    by apply rx_budget_frame.
  clearbody ctx. destruct Hctx as (Eq & Ec & En & Ex & Ev & Et).
  destruct (_ && _).
  { exists (w <| w_ctx := ctx |>), 0, 0, 0, false. split; [done|].
    constructor; cbn -[notified]; try fold fs; try done.
    - by apply received_none.
    - by apply snd_acked_none.
    - by rewrite Eq. }
  destruct (rx_stages_ok E strm s ts (fs_lock fs) (w_shm w (vm_id fs)))
    as (r & Er & Hdel); try done.
  { by destruct Hrx; constructor. }
  pose proof (rx_stages_snd E isn s ts (fs_lock fs) (w_shm w (vm_id fs)) a r)
    as Hsn.
  cbv zeta in Hsn. destruct Hsn as [Hsn Hsq]; try done.
  { by eapply snd_rep_view, Hsnd. }
  { by destruct Henv; constructor. }
  cbn [w_shm w_ctx setf]. change (vm_id (fs_lock fs)) with (vm_id fs).
  change (rx_next_pos (fs_lock fs)) with (rx_next_pos fs). rewrite Er. cbn [mbind option_bind].
  assert (Hfin : forall x, (r = RxCont x \/ r = RxUnlock x) ->
    exists q hs, qman_inv q /\
    rx_finish send_ack ctx (u16 fid) (rx_next_pos fs)
      (tcp_txavail (fs_lock fs) None) x
    = Some (let ctx1 := notified ctx (x_fs x) (rx_next_pos fs) (x_rx_bump x)
                          (x_tx_bump x) (x_fin_bump x) <| qman := q |> in
            if x_trigger_ack x
            then ctx1 <| tx_handles := hs |> <| tx_num := tx_num ctx + 1 |>
            else ctx1)).
  { intros x Hx. assert (rx_final r = x) as <- by by destruct Hx as [->| ->].
    destruct Hsn as (a1 & a2 & _ & _ & R & Ee & _).
    destruct R as [R1 (R2 & R3 & R4) R5 R6 _ _].
    destruct Hroom as [Hr1 Hr2].
    apply rx_finish_ok; try done.
    - by rewrite Eq.
    - unfold ctx_room. by rewrite Et, En.
    - pose proof (u16_range fid). unfold is_u16, FLEXNIC_NUM_QMFLOWQUEUES in *. lia.
    - lia.
    - unfold is_u32. lia.
    - intros ctx' Hc. apply Hack; [|done]. apply Hdel. }
  assert (Hdone : forall x, rx_final r = x -> (r = RxCont x \/ r = RxUnlock x) ->
    exists w' ret n t fin,
    (ctx' ← rx_finish send_ack ctx (u16 fid) (rx_next_pos fs)
              (tcp_txavail (fs_lock fs) None) x;
     Some (w <| w_ctx := ctx |> <| w_ctx := ctx' |>
             <| w_shm ::= fun m => shm_set m (vm_id fs) (x_mem x) |>
             <| w_flowst ::= <[fid := fs_unlock (x_fs x)]> |>,
           if x_trigger_ack x then 1 else 0)) = Some (w', ret)
    /\ packet_done w w' fid a s n t fin).
  { intros x Hx Hr. destruct (Hfin x Hr) as (q & hs & Hi & ->).
    cbn [mbind option_bind]. rewrite Hx in *.
    eexists _, _, (x_rx_bump x), (x_tx_bump x), (x_fin_bump x). split; [reflexivity|].
    constructor; cbn -[notified]; fold fs; rewrite ?lookup_total_insert_eq;
      unfold shm_set; rewrite ?Z.eqb_refl; try done.
    - by apply received_unlock.
    - by apply snd_acked_unlock.
    - by destruct (x_trigger_ack x).
    - unfold notified. destruct (_ || _), (x_trigger_ack x); cbn;
        rewrite ?Ec, ?En, ?Ex, ?Ev; done.
    - intros v Hv. by rewrite (proj2 (Z.eqb_neq _ _) Hv).
    - intros f Hf. by rewrite lookup_insert_ne. }
  destruct r as [x|x|b x].
  - destruct (Hdone x eq_refl (or_introl eq_refl)) as (w' & ret & n & t & fin & ? & ?).
    by exists w', ret, n, t, fin.
  - destruct (Hdone x eq_refl (or_intror eq_refl)) as (w' & ret & n & t & fin & ? & ?).
    by exists w', ret, n, t, fin.
  - destruct (rx_stages_slow _ _ _ _ _ _ Er) as (Ef & Em & En0 & Et0 & Efn).
    cbn [rx_final] in *. unfold delivers in Hdel.
    rewrite En0, Et0, Efn, Em in *.
    eexists _, _, 0, 0, false. split; [reflexivity|].
    constructor; cbn -[notified]; fold fs; rewrite ?lookup_total_insert_eq; try done.
    + apply received_unlock. destruct b; [done|]. by apply received_slowpath.
    + apply snd_acked_unlock. destruct b; [done|]. by apply snd_acked_slowpath.
    + by rewrite Eq.
    + intros f Hf. by rewrite lookup_insert_ne.
Qed.

End Handler.

(** * Transmit side handlers: lemmas

    [fast_flows_qman], [fast_flows_bump] and [fast_flows_retransmit] as steps
    of the sender specification. *)

Section Ops.
Context (E : fpenv) {Q : Type} `{QmanLaws Q} (strm : Z -> Z) (isn : Z).

Lemma tx_advance_env n fs : snd_env_ok fs -> snd_env_ok (tx_advance n fs).
Proof.
  intros [? ? ?]. pose proof (tx_advance_st n fs) as Hst.
  apply st_view_vm in Hst as Hvm. unfold tx_advance in *. cbn in *.
  destruct (tx_len fs <=? _); constructor; done.
Qed.

Lemma tx_advance_rx n fs : rx_view (tx_advance n fs) = rx_view fs
  /\ tx_next_ts (tx_advance n fs) = tx_next_ts fs
  /\ rx_remote_avail (tx_advance n fs) = rx_remote_avail fs.
Proof. unfold tx_advance. cbn. by destruct (tx_len fs <=? _). Qed.

(** [flow_ok] depends on these parts of the register file only. *)
Lemma flow_ok_update (w : world Q) fid fs' a :
  rx_ok fs' -> rx_buf_ok E fs' -> ooo_data strm fs' (w_shm w (vm_id fs')) ->
  snd_rep isn fs' a -> snd_env_ok fs' ->
  flow_ok E strm isn (put_unlock w fid fs') fid a.
Proof.
  intros Hrx Hb Ho Hs He. unfold put_unlock.
  constructor; cbn; rewrite ?lookup_total_insert_eq; try done.
  - by destruct Hrx; constructor.
  - by eapply snd_rep_view, Hs.
  - by destruct He; constructor.
Qed.

Lemma flow_ok_relock (w w' : world Q) fid a :
  flow_ok E strm isn w fid a -> w_shm w' = w_shm w ->
  flow_ok E strm isn (put_unlock w' fid (fs_lock (w_flowst w !!! fid))) fid a.
Proof.
  intros [Hrx Hb Ho Hs He _] Hm. apply flow_ok_update; try done.
  - by destruct Hrx; constructor.
  - by rewrite Hm.
  - by eapply snd_rep_view, Hs.
  - by destruct He; constructor.
Qed.

(** ** Sending *)

(** Effect of a successful [fast_flows_qman]: [n] bytes of the stream leave in
    one segment; a FIN replaces the last (dummy) byte of the stream. *)
Record segment_sent (app : Z -> Z) (w w' : world Q) (fid nb : Z) (a : snd) (ts n : Z)
    (fin : bool) (p : pkt_tcp) : Prop := mk_segment_sent {
  ss_step : snd_step (tx_len (w_flowst w !!! fid)) a (SndSend n)
              (mk_snd (s_una a) (s_nxt a + n) (s_end a));
  ss_n : 0 < n <= TCP_MSS;
  ss_window : s_nxt a + n - s_una a <= rx_remote_avail (w_flowst w !!! fid);
  ss_fin : fin = true -> s_nxt a + n = s_end a;
  ss_flow : flow_ok E strm isn w' fid (mk_snd (s_una a) (s_nxt a + n) (s_end a));
  ss_entry : exists xs,
    tx_handles (w_ctx w') !! tx_num (w_ctx w)
    = Some (mk_tx_ent nb (PktTcp p) 0 (66 + (if fin then n - 1 else n)) xs)
    /\ tx_num (w_ctx w') = tx_num (w_ctx w) + 1;
  ss_wire : let fs := w_flowst w !!! fid in
    segment_on_wire fs (w_shm w (vm_id fs)) (isn + s_nxt a) (rx_next_seq fs)
      (rx_avail fs) (if fin then n - 1 else n) (s_nxt a mod tx_len fs)
      (tx_next_ts fs) ts
      (seg_flags E (tx_advance n fs) (w_ctx w) fin) p
      (66 + (if fin then n - 1 else n));
  ss_bytes : forall i, 0 <= i < (if fin then n - 1 else n) ->
    p_rest p (12 + i) = app (s_nxt a + i);
  ss_qman : qman_inv (qman (w_ctx w')) }.

Lemma segment_on_wire_ext fs fs' m seq seq' ack wnd n pos echo my fl p len :
  out_local_ip fs' = out_local_ip fs -> out_remote_ip fs' = out_remote_ip fs ->
  local_port fs' = local_port fs -> remote_port fs' = remote_port fs ->
  tx_base fs' = tx_base fs -> tx_len fs' = tx_len fs -> u32 seq' = u32 seq ->
  segment_on_wire fs' m seq' ack wnd n pos echo my fl p len ->
  segment_on_wire fs m seq ack wnd n pos echo my fl p len.
Proof.
  intros E1 E2 E3 E4 E5 E6 E7 []. constructor; try congruence.
  intros i Hi. unfold tx_addr in *. rewrite <- E5, <- E6. auto.
Qed.

Lemma tx_advance_id n fs :
  let fs' := tx_advance n fs in
  out_local_ip fs' = out_local_ip fs /\ out_remote_ip fs' = out_remote_ip fs
  /\ local_port fs' = local_port fs /\ remote_port fs' = remote_port fs
  /\ tx_base fs' = tx_base fs /\ tx_len fs' = tx_len fs.
Proof. unfold tx_advance. cbn. by destruct (tx_len fs <=? _). Qed.

Lemma fast_flows_qman_send app (w : world Q) fid vm nbh ts a :
  flow_ok E strm isn w fid a -> core_ok w ->
  tx_buf_ok E (w_flowst w !!! fid) ->
  tx_data app (w_flowst w !!! fid) (w_shm w (vm_id (w_flowst w !!! fid))) a ->
  w_steering w !!! flow_group (w_flowst w !!! fid) = ctx_id (w_ctx w) ->
  0 < tcp_txavail (w_flowst w !!! fid) None ->
  exists w' n fin p, fast_flows_qman E w vm fid nbh ts = Some (w', 0)
  /\ segment_sent app w w' fid (nb_id nbh) a ts n fin p.
Proof.
  intros Hfo [Hq [Hroom _]] Hbuf Hdata Hst Hav.
  pose proof Hfo as [Hrx Hb Ho Hs He _].
  unfold fast_flows_qman. set (fs := w_flowst w !!! fid) in *. cbv zeta.
  change (flow_group (fs_lock fs)) with (flow_group fs).
  rewrite Hst, Z.eqb_refl. cbn [negb].
  change (tcp_txavail (fs_lock fs) None) with (tcp_txavail fs None).
  pose proof Hs as [Hc (H1 & H2 & H3) Hsent Havl Hseq Hpos].
  destruct He as [He1 He2 He3].
  pose proof (tcp_txavail_bound fs None ltac:(lia) ltac:(cside) ltac:(cbn; lia))
    as (_ & Hle & Hwin). cbn in Hle. specialize (Hwin Hav).
  set (av := tcp_txavail fs None) in *.
  destruct (Z.eqb_spec av 0) as [|_]; [lia|].
  set (n := Z.min av TCP_MSS). unfold TCP_MSS in *.
  assert (Hn : 0 < n <= 1400 /\ n <= av) by lia.
  set (fs1 := tx_advance n (fs_lock fs)).
  assert (Hs1 : snd_rep isn fs1 (mk_snd (s_una a) (s_nxt a + n) (s_end a))).
  { apply tx_advance_rep; [by eapply snd_rep_view, Hs|]. cbn. lia. }
  pose proof (tx_advance_rx n (fs_lock fs)) as (Hrv & Hts & Hrw). fold fs1 in Hrv, Hts, Hrw.
  pose proof (tx_advance_id n (fs_lock fs)) as (I1 & I2 & I3 & I4 & I5 & I6).
  fold fs1 in I1, I2, I3, I4, I5, I6. cbv zeta in I6.
  change (tx_next_ts (fs_lock fs)) with (tx_next_ts fs) in Hts.
  assert (Hvm : vm_id fs1 = vm_id fs)
    by (apply (st_view_vm (fs_lock fs)), tx_advance_st).
  set (fin := has_flag (rx_base_sp fs1) FLEXNIC_PL_FLOWST_TXFIN && (tx_avail fs1 =? 0)).
  replace (negb fin || (0 <? n)) with true.
  2: { destruct (Z.ltb_spec 0 n); [|lia]. by rewrite orb_true_r. }
  cbn [cassert mbind option_bind].
  set (len := if fin then u32 (n - 1) else n).
  assert (Elen : len = if fin then n - 1 else n).
  { subst len. destruct fin; [apply u32_id; cside|done]. }
  assert (Hpos0 : 0 <= tx_next_pos fs < tx_len fs) by (rewrite Hpos; apply Z.mod_pos_bound; lia).
  destruct (flow_tx_segment_ok E (w_ctx w) (w_shm w (vm_id fs1)) nbh fs1
              (tx_next_seq fs) (rx_next_seq fs) (rx_avail fs) len (tx_next_pos fs)
              (tx_next_ts fs1) ts fin) as (p & xs & Eseg & Hwire).
  { unfold tx_buf_ok in *. by rewrite I5, I6. }
  { by rewrite I6. }
  { rewrite Elen. unfold TCP_MSS. destruct fin; lia. }
  { rewrite Elen, I6. cbn. destruct fin; lia. }
  { destruct Hrx. lia. }
  { done. }
  unfold flow_tx_seg, VIRTUOSO_GRE.
  change (tx_next_seq (fs_lock fs)) with (tx_next_seq fs).
  change (rx_next_seq (fs_lock fs)) with (rx_next_seq fs).
  change (rx_avail (fs_lock fs)) with (rx_avail fs).
  change (tx_next_pos (fs_lock fs)) with (tx_next_pos fs).
  rewrite Eseg. cbn [mbind option_bind].
  set (ctx' := w_ctx w <| tx_handles ::= _ |> <| tx_num := _ |>).
  assert (Hw' : segment_on_wire fs (w_shm w (vm_id fs)) (isn + s_nxt a)
    (rx_next_seq fs) (rx_avail fs) (if fin then n - 1 else n)
    (s_nxt a mod tx_len fs) (tx_next_ts fs) ts
    (seg_flags E (tx_advance n fs) (w_ctx w) fin) p
    (66 + (if fin then n - 1 else n))).
  { rewrite <- Elen, <- Hpos. rewrite <- Hts, <- Hvm.
    apply (segment_on_wire_ext fs fs1 _ (isn + s_nxt a) (tx_next_seq fs));
      try done.
    { rewrite Hseq. apply u32_u32. }
    replace (seg_flags E (tx_advance n fs) (w_ctx w) fin)
      with (seg_flags E fs1 (w_ctx w) fin); [done|].
    unfold seg_flags. rewrite Hvm. f_equal.
    unfold fs1, tx_advance. cbn. by destruct (tx_len fs <=? _). }
  eexists _, n, fin, p. split; [reflexivity|].
  constructor.
  - constructor. lia.
  - unfold TCP_MSS. lia.
  - fold fs. lia.
  - intros Hf. subst fin. apply andb_true_iff in Hf as [_ Hz].
    apply Z.eqb_eq in Hz. destruct Hs1 as [_ _ _ Ha1 _ _]. cbn [s_end s_nxt] in Ha1. lia.
  - apply flow_ok_update; try done.
    + by eapply rx_ok_view, Hrx.
    + by eapply rx_buf_ok_view, Hb.
    + rewrite Hvm. by eapply ooo_data_view, Ho.
    + apply tx_advance_env. by constructor.
  - exists xs. cbn. rewrite Elen. split; [|done].
    by rewrite lookup_insert_eq.
  - exact Hw'.
  - intros i Hi. rewrite (ow_bytes _ _ _ _ _ _ _ _ _ _ _ _ Hw' i Hi).
    unfold tx_addr. rewrite Zplus_mod_idemp_l. apply Hdata.
    destruct fin; lia.
  - exact Hq.
Qed.

(** Nothing to send. *)
Lemma fast_flows_qman_idle (w : world Q) fid vm nbh ts a :
  flow_ok E strm isn w fid a ->
  w_steering w !!! flow_group (w_flowst w !!! fid) = ctx_id (w_ctx w) ->
  tcp_txavail (w_flowst w !!! fid) None = 0 ->
  exists w', fast_flows_qman E w vm fid nbh ts = Some (w', -1)
  /\ w_ctx w' = w_ctx w /\ flow_ok E strm isn w' fid a.
Proof.
  intros Hfo Hst Hav. unfold fast_flows_qman. cbv zeta.
  change (flow_group (fs_lock ?f)) with (flow_group f).
  rewrite Hst, Z.eqb_refl. cbn [negb].
  change (tcp_txavail (fs_lock ?f) None) with (tcp_txavail f None).
  rewrite Hav. cbn. eexists. split; [reflexivity|]. split; [done|].
  by apply flow_ok_relock.
Qed.

(** The flow group belongs to another core. *)
Lemma fast_flows_qman_moved (w : world Q) fid vm nbh ts a new_core :
  flow_ok E strm isn w fid a -> core_ok w -> 0 <= vm < FLEXNIC_PL_VMST_NUM ->
  0 <= fid < FLEXNIC_NUM_QMFLOWQUEUES ->
  w_steering w !!! flow_group (w_flowst w !!! fid) = new_core ->
  new_core <> ctx_id (w_ctx w) -> rte_ring_has_room E (w_fwd w) new_core = true ->
  exists w', fast_flows_qman E w vm fid nbh ts = Some (w', -1)
  /\ w_fwd w' = w_fwd w ++ [(new_core, fid)]
  /\ w_notified w' = w_notified w ++ [new_core]
  /\ flow_ok E strm isn w' fid a /\ qman_inv (qman (w_ctx w'))
  /\ tx_num (w_ctx w') = tx_num (w_ctx w).
Proof.
  intros Hfo [Hq Hroom] Hvm Hfid Hst Hne Hring. unfold fast_flows_qman. cbv zeta.
  change (flow_group (fs_lock ?f)) with (flow_group f). rewrite Hst.
  rewrite (proj2 (Z.eqb_neq _ _) Hne). cbn [negb].
  unfold qman_forward. rewrite Hring. cbn [cassert mbind option_bind w_ctx setf].
  destruct (qman_set_or_abort_ok (w_ctx w) vm fid 0 0 0 QMAN_SET_ALL)
    as (q & _ & Hi & ->); try done.
  cbn [mbind option_bind]. eexists. split; [reflexivity|].
  split; [done|]. split; [done|]. split; [|done].
  by apply flow_ok_relock.
Qed.

(** ** Updates from the application *)

Definition tx_bump_eff (fs : flowst) (tx_bump : Z) : Z :=
  if has_flag (rx_base_sp fs) FLEXNIC_PL_FLOWST_TXFIN && negb (tx_bump =? 0)
  then 0 else tx_bump.

(** The application is done sending, for the first time. *)
Definition bump_fin (fs : flowst) (flags : Z) : bool :=
  has_flag flags FLEXTCP_PL_ATX_FLTXDONE
  && (Z.land (rx_base_sp fs) FLEXNIC_PL_FLOWST_TXFIN =? 0).

(** The update is in order, brings a byte for a FIN, and fits both buffers. *)
Definition bump_takes (fs : flowst) (seq rx_bump tx_bump flags : Z) : Prop :=
  bump_is_old fs seq = false /\ ~ (bump_fin fs flags = true /\ tx_bump = 0)
  /\ tx_avail fs + tx_sent fs + tx_bump_eff fs tx_bump <= tx_len fs
  /\ rx_avail fs + rx_bump <= tx_len fs.

(** The register file after an accepted update. *)
Definition bumped_fs (fs : flowst) (seq avail rx_bump : Z) (fin : bool) : flowst :=
  let fs := fs <| bump_seq := seq |> in
  let fs := if fin then fs <| rx_base_sp ::= fun b => Z.lor b FLEXNIC_PL_FLOWST_TXFIN |>
            else fs in
  fs <| tx_avail := avail |> <| rx_avail := u32 (rx_avail fs + rx_bump) |>.

(** An accepted update: the sender gets the new bytes, the receive window the
    freed ones. *)
Definition bump_accepted (w w' : world Q) (fid seq rx_bump tx_bump flags : Z) (a : snd)
    : Prop :=
  let fs := w_flowst w !!! fid in
  let n := tx_bump_eff fs tx_bump in
  let a' := mk_snd (s_una a) (s_nxt a) (s_end a + n) in
  bump_takes fs seq rx_bump tx_bump flags
  /\ w_flowst w' = <[fid := bumped_fs fs seq (tx_avail fs + n) rx_bump (bump_fin fs flags)]> (w_flowst w)
  /\ snd_step (tx_len fs) a (SndPush n) a'
  /\ flow_ok E strm isn w' fid a'
  /\ rx_avail (w_flowst w' !!! fid) = rx_avail fs + rx_bump.

(** A rejected one: nothing but the sequence number of the last update changes. *)
Definition bump_rejected (w w' : world Q) (fid seq rx_bump tx_bump flags : Z) (a : snd) : Prop :=
  let fs := w_flowst w !!! fid in
  ~ bump_takes fs seq rx_bump tx_bump flags
  /\ w' = w <| w_flowst ::= <[fid := fs <| bump_seq := if bump_is_old fs seq then bump_seq fs else seq |>]> |>
  /\ flow_ok E strm isn w' fid a.

Lemma rx_base_txfin fs :
  rx_base (fs <| rx_base_sp ::= fun b => Z.lor b FLEXNIC_PL_FLOWST_TXFIN |>)
  = rx_base fs.
Proof. apply (rx_base_lor fs 16). lia. Qed.

(** A larger window keeps the receive side consistent. *)
Lemma rx_ok_grow fs n :
  rx_ok fs -> 0 <= n -> rx_avail fs + n <= rx_len fs ->
  rx_ok (fs <| rx_avail := rx_avail fs + n |>).
Proof.
  intros [Hl Ha Hp Hs Ho] Hn Hfit. constructor; cbn; try done; try lia.
  destruct Ho as [|(? & ? & ? & ?)]; [by left|right].
  split; [done|]. split; [done|]. split; [done|]. lia.
Qed.

Lemma fs_relock fs q : lock fs = 0 -> fs_unlock (fs_lock fs <| bump_seq := q |>) = fs <| bump_seq := q |>.
Proof. destruct fs. cbn. by intros ->. Qed.

Lemma bumped_relock fs seq avail rx_bump fin : lock fs = 0 ->
  fs_unlock (bumped_fs (fs_lock fs) seq avail rx_bump fin) = bumped_fs fs seq avail rx_bump fin.
Proof. intros Hl. unfold bumped_fs. destruct fin, fs; cbn in *; by rewrite Hl. Qed.

Lemma bumped_flow_ok (w : world Q) (w' : world Q) fid a seq n rx_bump fin :
  let fs := w_flowst w !!! fid in
  flow_ok E strm isn w fid a -> w_shm w' = w_shm w -> 0 <= n -> 0 <= rx_bump ->
  s_end a + n - s_una a <= tx_len fs -> rx_avail fs + rx_bump <= rx_len fs ->
  flow_ok E strm isn
    (put_unlock w' fid (bumped_fs (fs_lock fs) seq (tx_avail fs + n) rx_bump fin))
    fid (mk_snd (s_una a) (s_nxt a) (s_end a + n)).
Proof.
  intros fs Hfo Hm Hn Hrb Htx Hrx. destruct Hfo as [Hr Hb Ho Hs He _].
  fold fs in Hr, Hb, Ho, Hs, He.
  pose proof Hs as [Hc (H1 & H2 & H3) Hsent Havl Hseq Hpos].
  assert (Eu : u32 (rx_avail fs + rx_bump) = rx_avail fs + rx_bump)
    by (destruct Hr; apply u32_id; cside).
  apply rx_ok_grow in Hrx as Hg; [|done..].
  assert (Ebase : forall f, rx_base (bumped_fs (fs_lock fs) seq f rx_bump fin)
                            = rx_base fs).
  { intros f. unfold bumped_fs. destruct fin; [|done].
    etransitivity; [|apply (rx_base_txfin fs)]. done. }
  apply flow_ok_update.
  - destruct Hg as [G1 G2 G3 G4 G5]. unfold bumped_fs.
    destruct fin; constructor; cbn in *; rewrite ?Eu; done.
  - unfold rx_buf_ok. rewrite Ebase.
    unfold bumped_fs. by destruct fin.
  - intros i Hi. unfold rx_addr. rewrite Ebase, Hm. specialize (Ho i).
    unfold bumped_fs, rx_addr in *. destruct fin; cbn in *; by apply Ho.
  - unfold bumped_fs. destruct fin; constructor; cbn; try done; try lia;
      unfold snd_wf; cbn; lia.
  - destruct He. unfold bumped_fs. by destruct fin; constructor.
Qed.

(** A FIN needs a byte of its own. *)
Lemma bump_no_byte fs flags tx_bump :
  negb (has_flag (rx_base_sp fs) FLEXNIC_PL_FLOWST_TXFIN && negb (tx_bump =? 0))
    && has_flag flags FLEXTCP_PL_ATX_FLTXDONE
    && (Z.land (rx_base_sp fs) FLEXNIC_PL_FLOWST_TXFIN =? 0) && (tx_bump_eff fs tx_bump =? 0)
  = bump_fin fs flags && (tx_bump =? 0).
Proof.
  unfold bump_fin, tx_bump_eff. destruct (Z.land (rx_base_sp fs) _ =? 0) eqn:Ez.
  - replace (has_flag (rx_base_sp fs) FLEXNIC_PL_FLOWST_TXFIN) with false.
    + cbn [andb negb]. by rewrite !andb_true_r.
    + unfold has_flag. apply Z.eqb_eq in Ez. by rewrite Ez.
  - by rewrite !andb_false_r.
Qed.

Lemma fast_flows_bump_cases (w : world Q) fid seq rx_bump tx_bump flags nbh ts a :
  flow_ok E strm isn w fid a -> core_ok w -> 0 <= fid < FLEXNIC_NUM_QMFLOWQUEUES ->
  tx_buf_ok E (w_flowst w !!! fid) ->
  is_u32 rx_bump -> is_u32 tx_bump ->
  tx_len (w_flowst w !!! fid) <= rx_len (w_flowst w !!! fid) ->
  exists w' ret, fast_flows_bump E w fid seq rx_bump tx_bump flags nbh ts
                 = Some (w', ret)
  /\ qman_inv (qman (w_ctx w'))
  /\ (bump_rejected w w' fid seq rx_bump tx_bump flags a
      \/ bump_accepted w w' fid seq rx_bump tx_bump flags a).
Proof.
  intros Hfo [Hq [Hroom _]] Hfid Hbuf Hrb Htb Hlen.
  pose proof Hfo as [Hr Hb Ho Hs He Hlk]. pose proof He as [He1 He2 He3].
  unfold fast_flows_bump. set (fs := w_flowst w !!! fid) in *. cbv zeta.
  pose proof Hs as [Hc (H1 & H2 & H3) Hsent Havl Hseq Hpos].
  fold fs in Hlk.
  assert (Hrej : forall fs', ~ bump_takes fs seq rx_bump tx_bump flags ->
    fs' = fs_lock fs <| bump_seq := if bump_is_old fs seq then bump_seq fs else seq |> ->
    exists w' ret, Some (put_unlock w fid fs', -1) = Some (w', ret)
    /\ qman_inv (qman (w_ctx w'))
    /\ (bump_rejected w w' fid seq rx_bump tx_bump flags a
      \/ bump_accepted w w' fid seq rx_bump tx_bump flags a)).
  { intros fs' Hno ->. eexists _, _. split; [reflexivity|]. split; [done|]. left.
    split; [done|]. split; [unfold put_unlock; by rewrite fs_relock|].
    apply flow_ok_update; try done;
      first [by destruct Hr; constructor|by eapply snd_rep_view, Hs|by destruct He; constructor]. }
  change (bump_is_old (fs_lock fs) seq) with (bump_is_old fs seq).
  destruct (bump_is_old fs seq) eqn:Eold.
  { apply Hrej; [intros [? _]; congruence|by destruct fs]. }
  set (fs1 := fs_lock fs <| bump_seq := seq |>) in *.
  change (rx_base_sp fs1) with (rx_base_sp fs).
  change (tx_avail fs1) with (tx_avail fs). change (tx_sent fs1) with (tx_sent fs).
  change (tx_len fs1) with (tx_len fs). change (rx_len fs1) with (rx_len fs).
  change (rx_avail fs1) with (rx_avail fs).
  fold (tx_bump_eff fs tx_bump). set (n := tx_bump_eff fs tx_bump).
  assert (Hn : 0 <= n) by (subst n; unfold tx_bump_eff; case_match; cside).
  match goal with |- context [if ?b then Some (_, -1) else _] =>
    replace b with (bump_fin fs flags && (tx_bump =? 0)) by (symmetry; apply bump_no_byte) end.
  destruct (bump_fin fs flags && (tx_bump =? 0)) eqn:Efin.
  { apply Hrej; [|done]. bprop. intros (_ & Hnf & _). by apply Hnf. }
  match goal with |- context [if ?b then Some (_, -1) else _] => destruct b eqn:Etx end.
  { apply Hrej; [|done]. intros (_ & _ & Hfit & _). fold n in Hfit.
    rewrite (u32_add_small (tx_avail fs)) in Etx by cside. rewrite u32_add_small in Etx by cside.
    bprop; lia. }
  match goal with |- context [if ?b then Some (_, -1) else _] => destruct b eqn:Erx end.
  { apply Hrej; [|done]. intros (_ & _ & _ & Hfit). pose proof Hr as [R1 R2 _ _ _].
    rewrite u32_add_small in Erx by cside. bprop; lia. }
  bprop. pose proof Hr as [R1 R2 R3 R4 R5].
  assert (En : u32 (tx_avail fs + n) = tx_avail fs + n) by (apply u32_add_small; lia).
  rewrite !En in *.
  assert (En2 : u32 (tx_avail fs + n + tx_sent fs) = tx_avail fs + n + tx_sent fs)
    by (apply u32_add_small; lia).
  assert (Er2 : u32 (rx_bump + rx_avail fs) = rx_bump + rx_avail fs)
    by (apply u32_add_small; cside).
  rewrite ?En2, ?Er2 in *.
  assert (Hfit : s_end a + n - s_una a <= tx_len fs) by lia.
  fold (bump_fin fs flags) in *. set (fin := bump_fin fs flags) in *.
  change (tcp_txavail fs1 None) with (tcp_txavail fs None).
  set (fs2 := if fin then _ else fs1).
  assert (Hfs2 : vm_id fs2 = vm_id fs /\ tx_rate fs2 = tx_rate fs
                 /\ rx_avail fs2 = rx_avail fs) by (subst fs2; by destruct fin).
  destruct Hfs2 as (Evm & Erate & Era).
  destruct (tcp_txavail_range fs1 (Some (tx_avail fs + n)) He1
              ltac:(cbn; lia) ltac:(cside)) as [Hav _].
  set (new := tcp_txavail fs1 _) in *.
  set (o := if tcp_txavail fs None <? new then _ else _).
  assert (Ho' : exists q, qman_inv q /\ o = Some (w_ctx w <| qman := q |>)).
  { subst o. destruct (_ <? new).
    - rewrite Evm, Erate. destruct (qman_set_or_abort_ok (w_ctx w) (vm_id fs) fid
        (tx_rate fs) new TCP_MSS QMAN_SET_ALL) as (q & _ & Hi & Eq); try done.
      by exists q.
    - exists (qman (w_ctx w)). split; [done|]. by destruct (w_ctx w). }
  destruct Ho' as (q & Hi & ->). cbn [mbind option_bind].
  set (fs3 := fs2 <| tx_avail := _ |> <| rx_avail := _ |>).
  assert (Efs3 : fs3 = bumped_fs (fs_lock fs) seq (tx_avail fs + n) rx_bump fin)
    by (subst fs3 fs2; unfold bumped_fs; by destruct fin).
  assert (Hacc : forall (w2 : world Q) (r : Z), w_shm w2 = w_shm w ->
    w_flowst w2 = w_flowst w -> qman (w_ctx w2) = q ->
    exists w' (ret : Z), Some (put_unlock w2 fid fs3, r) = Some (w', ret)
    /\ qman_inv (qman (w_ctx w'))
    /\ (bump_rejected w w' fid seq rx_bump tx_bump flags a
      \/ bump_accepted w w' fid seq rx_bump tx_bump flags a)).
  { intros w2 r Hm Hfw Hqw. eexists _, _. split; [reflexivity|].
    split; [change (qman_inv (qman (w_ctx w2))); by rewrite Hqw|].
    right. unfold bump_accepted. fold fs n.
    split; [|split; [|split; [constructor; lia|split]]].
    - split; [done|]. split; [|split; [fold n; lia|lia]].
      intros [Hf ->]. fold fin in Hf. by rewrite Hf in Efin.
    - unfold put_unlock. cbn. by rewrite Hfw, Efs3, bumped_relock.
    - rewrite Efs3. apply bumped_flow_ok; try done; fold fs; cside.
    - unfold put_unlock. cbn. rewrite lookup_total_insert_eq. cbn.
      rewrite Era. apply u32_add_small. cside. }
  destruct (_ && _ && _); [|by apply Hacc].
  assert (Etl : tx_len fs3 = tx_len fs /\ tx_base fs3 = tx_base fs
    /\ rx_avail fs3 = rx_avail fs + rx_bump).
  { rewrite Efs3, <- (u32_add_small (rx_avail fs)) by cside.
    unfold bumped_fs. by destruct fin. }
  destruct Etl as (Etl & Etb & Era3).
  unfold send_window_update, flow_tx_seg, VIRTUOSO_GRE.
  match goal with |- context [flow_tx_segment E ?c ?m nbh fs3 ?sq ?ak ?wn 0 0 ?ec ts false] =>
    destruct (flow_tx_segment_ok E c m nbh fs3 sq ak wn 0 0 ec ts false)
      as (p & xs & -> & _) end.
  { unfold tx_buf_ok. by rewrite Etl, Etb. }
  1-4: rewrite ?Etl, ?Era3; unfold TCP_MSS; cside.
  { done. }
  cbn [mbind option_bind]. by apply Hacc.
Qed.

(** ** Retransmission *)

Lemma fast_flows_retransmit_ok (w : world Q) fid a :
  flow_ok E strm isn w fid a -> core_ok w -> 0 <= fid < FLEXNIC_NUM_QMFLOWQUEUES ->
  exists w', fast_flows_retransmit w fid = Some w'
  /\ flow_ok E strm isn w' fid (mk_snd (s_una a) (s_una a) (s_end a))
  /\ qman_inv (qman (w_ctx w')) /\ tx_num (w_ctx w') = tx_num (w_ctx w)
  /\ arx_num (w_ctx w') = arx_num (w_ctx w).
Proof.
  intros Hfo [Hq Hroom] Hfid. pose proof Hfo as [Hr Hb Ho Hs He _].
  unfold fast_flows_retransmit. set (fs := w_flowst w !!! fid) in *. cbv zeta.
  pose proof Hs as [Hc (H1 & H2 & H3) Hsent Havl Hseq Hpos].
  change (tx_sent (fs_lock fs)) with (tx_sent fs).
  destruct (Z.eqb_spec (tx_sent fs) 0) as [Hz|Hz].
  { eexists. split; [reflexivity|]. split; [|done].
    replace (mk_snd (s_una a) (s_una a) (s_end a)) with a.
    - by apply (flow_ok_relock w).
    - destruct a as [u x e]. cbn in *. f_equal. lia. }
  change (tcp_txavail (fs_lock fs) None) with (tcp_txavail fs None).
  pose proof (flow_reset_retransmit_rep isn (fs_lock fs) a
    ltac:(by eapply snd_rep_view, Hs)) as Hrep.
  pose proof (flow_reset_retransmit_st (fs_lock fs)) as (Hst & Hw & Hrt).
  pose proof (flow_reset_retransmit_rx (fs_lock fs)) as Hrv.
  set (fs1 := flow_reset_retransmit (fs_lock fs)) in *.
  apply st_view_vm in Hst as Hvm. apply st_view_len in Hst as Hlen.
  change (vm_id (fs_lock fs)) with (vm_id fs) in *.
  assert (He' : snd_env_ok fs1).
  { destruct He. constructor; [by rewrite Hw|by apply Hrt|by rewrite Hvm]. }
  pose proof He' as [He1 He2 He3].
  pose proof Hrep as [C1 (C2 & C3 & C4) C5 C6 _ _].
  cbn [s_una s_nxt s_end] in C2, C3, C4, C5, C6.
  destruct (tcp_txavail_range fs1 None He1 ltac:(lia) ltac:(cside)) as [Hav _].
  set (o := if _ <? _ then _ else _).
  assert (Ho' : exists c, o = Some c /\ qman_inv (qman c)
    /\ tx_num c = tx_num (w_ctx w) /\ arx_num c = arx_num (w_ctx w)).
  { subst o. destruct (_ <? _); [|by eexists].
    match goal with |- context [qman_set_or_abort ?c ?v ?f ?r ?x ?m ?g] =>
      destruct (qman_set_or_abort_ok c v f r x m g) as (q & _ & Hi & ->) end;
      try done. by eexists. }
  destruct Ho' as (c & -> & Hi & Ht & Ha). cbn [mbind option_bind].
  eexists. split; [reflexivity|]. split; [|done].
  apply flow_ok_update; try done.
  - by eapply rx_ok_view, Hr.
  - by eapply rx_buf_ok_view, Hb.
  - change (ooo_data strm fs1 (w_shm w (vm_id fs1))). rewrite Hvm. by eapply ooo_data_view, Ho.
Qed.

(** What can be sent again is handed to the queue manager. *)
Lemma fast_flows_retransmit_rearms (w w' : world Q) fid :
  fast_flows_retransmit w fid = Some w' ->
  let fs := w_flowst w !!! fid in
  let fs' := w_flowst w' !!! fid in
  if tcp_txavail fs None <? tcp_txavail fs' None
  then qman_set (qman (w_ctx w)) (vm_id fs) fid (tx_rate fs') (tcp_txavail fs' None) TCP_MSS
         QMAN_SET_ALL = Some (qman (w_ctx w'), 0)
  else qman (w_ctx w') = qman (w_ctx w).
Proof.
  assert (Hu : forall g, tcp_txavail (fs_unlock g) None = tcp_txavail g None) by done.
  unfold fast_flows_retransmit, put_unlock. cbv zeta.
  set (fs := w_flowst w !!! fid). change (tcp_txavail (fs_lock fs) None) with (tcp_txavail fs None).
  destruct (_ =? 0).
  { intros [= <-]. cbn [w_flowst w_ctx setf]. rewrite lookup_total_insert_eq, Hu.
    change (tcp_txavail (fs_lock fs) None) with (tcp_txavail fs None). by rewrite Z.ltb_irrefl. }
  pose proof (flow_reset_retransmit_st (fs_lock fs)) as [Hvm%st_view_vm _].
  revert Hvm. generalize (flow_reset_retransmit (fs_lock fs)). intros g Hvm.
  change (vm_id (fs_lock fs)) with (vm_id fs) in Hvm.
  destruct (tcp_txavail fs None <? tcp_txavail g None) eqn:Elt.
  - unfold qman_set_or_abort. rewrite Hvm. destruct (qman_set _ _ _ _ _ _ _) as [[q r]|] eqn:Eq; [|done].
    cbn [mbind option_bind]. destruct (Z.eqb_spec r 0) as [->|]; [|done].
    intros [= <-]. cbn [w_flowst w_ctx setf]. rewrite lookup_total_insert_eq, Hu, Elt. exact Eq.
  - intros [= <-]. cbn [w_flowst w_ctx setf]. rewrite lookup_total_insert_eq, Hu, Elt. done.
Qed.

End Ops.
