(* ===== verification/FlowLive.v ===== *)
(** * Progress of the receive path

    The fast path does not only deliver nothing but the stream: data that is
    in order is delivered, an out-of-order segment is kept and delivered when
    the gap is filled, a valid acknowledgement is taken, and nothing is
    delivered after a FIN. *)

From S2P Require Import Prelude FpTypes TcpCommon FlowTx FlowRx FlowOps Sender.
From S2P Require Import FlowProofs FlowHandlers.

(** The packet stays on the fast path. *)
Definition FAST_FLAGS : Z :=
  Z.lor TAS_TCP_ACK (Z.lor TAS_TCP_PSH (Z.lor TAS_TCP_ECE
    (Z.lor TAS_TCP_CWR TAS_TCP_FIN))).

Definition stays_fast (fs : flowst) (s : rx_seg) : Prop :=
  Z.land (rx_base_sp fs) FLEXNIC_PL_FLOWST_SLOWPATH = 0
  /\ Z.land (sg_flags s) (Z.lnot FAST_FLAGS) = 0.

Lemma rx_slow_check_fast s x :
  stays_fast (x_fs x) s -> rx_slow_check s x = Some (RxCont x).
Proof.
  intros [H1 H2]. unfold rx_slow_check. rewrite H1. cbn [Z.eqb negb].
  fold FAST_FLAGS. by rewrite H2.
Qed.

(** ** Acknowledgement *)

Lemma rx_ack_cont s op x r :
  op <> 0 -> rx_ack s op x = Some r -> r = RxCont (rx_final r).
Proof.
  intros Hop. unfold rx_ack. rewrite (proj2 (Z.eqb_neq op 0) Hop).
  set (x1 := if 0 <? x_payload_bytes x then _ else x).
  set (x2 := if has_flag _ _ then _ else x1). clearbody x2.
  destruct (if has_flag _ _ then tcp_valid_rxack _ _ else None); [|by intros [= <-]].
  destruct (negb _); by intros [= <-].
Qed.

Lemma rx_ack_total s op x : exists r, rx_ack s op x = Some r.
Proof.
  unfold rx_ack.
  set (x1 := if 0 <? x_payload_bytes x then _ else x).
  set (x2 := if has_flag _ _ then _ else x1). clearbody x2.
  destruct (if has_flag _ _ then tcp_valid_rxack _ _ else None); [|by eexists].
  destruct (negb _); [by eexists|]. destruct (op =? 0); [|by eexists].
  destruct (3 <=? _); by eexists.
Qed.

Lemma rx_ack_bumps s op x r n :
  has_flag (sg_flags s) TAS_TCP_ACK = true ->
  (forall fs, tx_view fs = tx_view (x_fs x) ->
     tcp_valid_rxack fs (f_beui32 (tcp_ackno (sg_tcp s))) = Some n) ->
  rx_ack s op x = Some r -> x_tx_bump (rx_final r) = n.
Proof.
  intros Ha Hv. unfold rx_ack. rewrite Ha.
  set (x1 := if 0 <? x_payload_bytes x then _ else x).
  assert (H1 : tx_view (x_fs x1) = tx_view (x_fs x)) by (subst x1; by destruct (0 <? _)).
  set (x2 := x1 <| x_fs ::= _ |>).
  assert (H2 : tx_view (x_fs x2) = tx_view (x_fs x)) by done. clearbody x2.
  rewrite (Hv _ H2).
  destruct (negb _); [by intros [= <-]|]. destruct (op =? 0); [|by intros [= <-]].
  destruct (3 <=? _); by intros [= <-].
Qed.

(** The stages take a valid acknowledgement. *)
Lemma rx_stages_acks E isn s ts fs m a r :
  snd_rep isn fs a -> is_u32 (f_beui32 (tcp_ackno (sg_tcp s))) -> stays_fast fs s ->
  has_flag (sg_flags s) TAS_TCP_ACK = true ->
  u32 (f_beui32 (tcp_ackno (sg_tcp s)) - (isn + s_una a)) <= s_end a - s_una a ->
  rx_stages E s ts fs m = Some r ->
  x_tx_bump (rx_final r) = u32 (f_beui32 (tcp_ackno (sg_tcp s)) - (isn + s_una a)).
Proof.
  intros Hrep Hack Hfast Hfl Hn. unfold rx_stages.
  set (x0 := mk_rxst _ _ _ _ _ _ _ _ _).
  rewrite rx_slow_check_fast by done. cbn [rx_bind].
  destruct (rx_ack_total s (sg_payload_bytes s) x0) as [r1 E1].
  assert (Hb : x_tx_bump (rx_final r1)
    = u32 (f_beui32 (tcp_ackno (sg_tcp s)) - (isn + s_una a))).
  { eapply rx_ack_bumps; [done| |exact E1]. intros fs' Hv.
    rewrite (tcp_valid_rxack_rep isn fs' a); [|by eapply snd_rep_view|done].
    cbv zeta. by rewrite (proj2 (Z.leb_le _ _) Hn). }
  rewrite E1. destruct (rx_ack_frame _ _ _ _ E1) as (x1 & [->| ->] & _); cbn [rx_bind].
  2: { by intros [= <-]. }
  intros Hr. pose proof (rx_tail_keeps E s ts (sg_payload_bytes s)) as Ht.
  specialize (Ht x1 r). cbv beta in Ht. destruct (Ht Hr) as (_ & -> & _). done.
Qed.

(** ** In-order data *)

Lemma rx_ack_total_cont s op x :
  op <> 0 -> exists y, rx_ack s op x = Some (RxCont y)
  /\ rx_view (x_fs y) = rx_view (x_fs x) /\ x_mem y = x_mem x
  /\ x_payload_bytes y = x_payload_bytes x /\ x_payload_off y = x_payload_off x
  /\ x_seq y = x_seq x /\ x_rx_bump y = x_rx_bump x /\ x_fin_bump y = x_fin_bump x.
Proof.
  intros Hop. destruct (rx_ack_total s op x) as [r Er].
  apply rx_ack_cont in Er as Ec; [|done].
  destruct (rx_ack_frame _ _ _ _ Er) as (y & Hy & Hf). rewrite Ec in Hy.
  destruct Hy as [[= Hy]|]; [|done].
  exists y. split; [|done]. congruence.
Qed.

(** An in-order segment that fits the window is not trimmed. *)
Lemma rx_trim_inorder x :
  rx_ok (x_fs x) -> x_seq x = rx_next_seq (x_fs x) ->
  0 <= x_payload_bytes x < 65536 -> x_payload_bytes x <= rx_avail (x_fs x) ->
  is_u32 (x_payload_off x) ->
  rx_trim x = Some (RxCont x).
Proof.
  intros [Hl Ha Hp Hs _] Hq Hn Hfit Hoff. unfold rx_trim. rewrite Hq.
  rewrite tcp_trim_rxbuf_spec; [|split; [done|lia]|done|done|].
  2: { unfold trim_gap. lia. }
  unfold trim_spec, seq_dist. rewrite Z.sub_diag. change (s32 0) with 0.
  destruct (Z.ltb_spec (0 + x_payload_bytes x) 0); [lia|].
  destruct (Z.ltb_spec (rx_avail (x_fs x)) 0); [lia|]. cbn [orb].
  rewrite Z.max_l by lia. rewrite Z.max_l by lia. do 2 f_equal.
  rewrite !Z.add_0_r, Z.sub_0_r, <- Hq in *.
  rewrite (u32_id (x_payload_bytes x)), (u32_id (x_payload_off x)), (u32_id (x_seq x))
    by (done || unfold is_u32; lia).
  by destruct x.
Qed.

(** The window when an in-order segment is processed. *)
Definition in_order (fs : flowst) (s : rx_seg) : Prop :=
  f_beui32 (tcp_seqno (sg_tcp s)) = rx_next_seq fs
  /\ 0 < sg_payload_bytes s <= rx_avail fs
  /\ has_flag (rx_base_sp fs) FLEXNIC_PL_FLOWST_RXFIN = false.

Lemma rx_view_base fs fs' : rx_view fs' = rx_view fs -> rx_base_sp fs' = rx_base_sp fs.
Proof. intros Hv. by destruct (rx_view_eq _ _ Hv). Qed.

(** The stages up to the copy of an in-order segment. *)
Lemma rx_stages_to_payload E strm s ts fs m :
  rx_ok fs -> seg_ok strm s -> stays_fast fs s -> in_order fs s ->
  exists x, rx_stages E s ts fs m = (rx_payload E s x ;>> rx_fin s (sg_payload_bytes s))
  /\ rx_view (x_fs x) = rx_view fs /\ x_mem x = m /\ untouched x
  /\ x_payload_bytes x = sg_payload_bytes s /\ x_seq x = rx_next_seq (x_fs x)
  /\ piece_ok strm s x.
Proof.
  intros Hok Hsg Hfast (Hq & Hn & Hfin). pose proof Hsg as [Hp Hoff Hoffr Hs Hd].
  unfold is_u16 in Hp. unfold rx_stages. set (x0 := mk_rxst _ _ _ _ _ _ _ _ _).
  rewrite rx_slow_check_fast by done. cbn [rx_bind].
  destruct (rx_ack_total_cont s (sg_payload_bytes s) x0) as
    (x1 & -> & Hv & Hm & Hpb & Hpo & Hsq & Hbp & Hfb); [lia|]. cbn [rx_bind].
  change (x_fs x0) with fs in Hv. change (x_payload_bytes x0) with (sg_payload_bytes s) in Hpb.
  change (x_payload_off x0) with (sg_payload_off s) in Hpo.
  change (x_seq x0) with (f_beui32 (tcp_seqno (sg_tcp s))) in Hsq.
  pose proof (rx_view_eq _ _ Hv) as (Eb & El & Ea & Ep & Es & _ & _).
  assert (Hok1 : rx_ok (x_fs x1)) by by eapply rx_ok_view.
  assert (Hseq1 : x_seq x1 = rx_next_seq (x_fs x1)) by (by rewrite Es, Hsq).
  rewrite rx_trim_inorder; [|done|done|lia|rewrite Ea; lia|rewrite Hpo; cside].
  cbn [rx_bind]. unfold rx_ooo. rewrite (proj2 (Z.eqb_eq _ _) Hseq1). cbn [rx_bind].
  unfold rx_update. set (x2 := x1 <| x_fs ::= rx_rtt s ts |>).
  assert (Hv2 : rx_view (x_fs x2) = rx_view (x_fs x1)) by apply rx_rtt_view.
  rewrite (rx_view_base _ _ Hv2), Eb, Hfin. cbn [andb rx_bind].
  pose proof (rx_view_eq _ _ Hv2) as (_ & _ & Ea2 & _ & Es2 & _ & _).
  exists x2. split; [done|]. split; [by rewrite Hv2|]. split; [done|]. split; [done|].
  split; [done|]. split; [by rewrite Es2|].
  unfold piece_ok. rewrite Es2, Ea2. change (x_seq x2) with (x_seq x1).
  change (x_payload_bytes x2) with (x_payload_bytes x1). rewrite Hpb, Hseq1, Z.sub_diag.
  change (u32 0) with 0. rewrite Es, Ea.
  split; [by destruct Hok|]. split; [lia|]. split; [lia|].
  intros i Hi. unfold rx_payload_ptr. change (x_payload_off x2) with (x_payload_off x1).
  rewrite Hpo, Hoff.
  replace (sg_sizeof s + tcp_extra_hlen s - sg_sizeof s + i) with (tcp_extra_hlen s + i) by lia.
  rewrite Hd by done. by rewrite Hq.
Qed.

Lemma rx_fin_bump s op x r : rx_fin s op x = Some r ->
  exists y, r = RxCont y /\ x_rx_bump y = x_rx_bump x
  /\ (x_trigger_ack x = true -> x_trigger_ack y = true).
Proof.
  unfold rx_fin. destruct (_ && _); [destruct (_ && _)|]; intros [= <-]; by eexists.
Qed.

(** In-order data is delivered and acknowledged. *)
Lemma rx_stages_inorder E strm s ts fs m :
  rx_ok fs -> rx_buf_ok E fs -> ooo_data strm fs m -> seg_ok strm s ->
  stays_fast fs s -> in_order fs s ->
  exists x, rx_stages E s ts fs m = Some (RxCont x)
  /\ sg_payload_bytes s <= x_rx_bump x /\ x_trigger_ack x = true.
Proof.
  intros Hok Hb Hooo Hsg Hfast Hin. pose proof Hin as (_ & Hn & _).
  destruct (rx_stages_to_payload E strm s ts fs m) as (x & -> & Hv & Hm & Hun & Hpb & Hsq & Hpc);
    try done.
  destruct (rx_payload_ok E strm s x) as (x' & -> & _ & _ & Hbump & Htr); try done.
  { by eapply rx_ok_view. }
  { by eapply rx_buf_ok_view. }
  { rewrite Hm. by eapply ooo_data_view. }
  cbn [rx_bind]. destruct (rx_fin s _ x') as [r|] eqn:Er.
  - apply rx_fin_bump in Er as (y & -> & Hy & Ht). exists y.
    split; [done|]. rewrite Hy. rewrite Hpb in *. split; [done|]. apply Ht, Htr. lia.
  - exfalso. revert Er. unfold rx_fin. by destruct (_ && _); [destruct (_ && _)|].
Qed.

(** ** Out-of-order data *)

(** The interval that starts where the in-order data ends is delivered. *)
Lemma rx_ooo_merge_fill fs :
  0 < rx_len fs <= 1073741824 -> 0 <= rx_next_pos fs < rx_len fs ->
  0 <= rx_avail fs <= rx_len fs -> is_u32 (rx_next_seq fs) ->
  rx_ooo_start fs = rx_next_seq fs -> 0 < rx_ooo_len fs <= rx_avail fs ->
  exists fs', rx_ooo_merge fs = Some (fs', rx_ooo_len fs) /\ rx_ooo_len fs' = 0.
Proof.
  intros Hl Hp Ha Hs Hst Hlen. unfold rx_ooo_merge.
  destruct (Z.eqb_spec (rx_ooo_len fs) 0); [lia|].
  assert (Hn16 : 0 <= u16 (rx_ooo_len fs) <= rx_ooo_len fs) by clia.
  rewrite <- tcp_trim_rxbuf_u16, Hst.
  rewrite tcp_trim_rxbuf_spec; [|split; [done|lia]|done|apply u16_range|].
  2: { unfold trim_gap. lia. }
  unfold trim_spec, seq_dist. rewrite Z.sub_diag. change (s32 0) with 0.
  destruct (Z.ltb_spec (0 + u16 (rx_ooo_len fs)) 0); [lia|].
  destruct (Z.ltb_spec (rx_avail fs) 0); [lia|]. cbn [orb].
  rewrite Z.max_l by lia. rewrite Z.max_l by lia. cbv zeta.
  rewrite !Z.add_0_r, Z.sub_0_r, !u32_id by (done || unfold is_u32; lia).
  set (fs1 := fs <| rx_ooo_start := rx_next_seq fs |> <| rx_ooo_len := rx_ooo_len fs |>).
  change (rx_ooo_len fs1) with (rx_ooo_len fs).
  change (rx_ooo_start fs1) with (rx_next_seq fs).
  change (rx_next_seq fs1) with (rx_next_seq fs).
  destruct (Z.ltb_spec 0 (rx_ooo_len fs)); [|lia]. rewrite Z.eqb_refl. cbn [andb].
  rewrite rx_advance_eq by (cbn; lia). cbn [mbind option_bind]. by eexists.
Qed.

(** A segment that fills the gap before the interval delivers both. *)
Lemma rx_stages_fill E strm s ts fs m :
  rx_ok fs -> rx_buf_ok E fs -> ooo_data strm fs m -> seg_ok strm s ->
  stays_fast fs s -> in_order fs s ->
  0 < rx_ooo_len fs -> u32 (rx_next_seq fs + sg_payload_bytes s) = rx_ooo_start fs ->
  exists x, rx_stages E s ts fs m = Some (RxCont x)
  /\ x_rx_bump x = sg_payload_bytes s + rx_ooo_len fs.
Proof.
  intros Hok Hb Hooo Hsg Hfast Hin Hlen Hadj. pose proof Hin as (_ & Hn & _).
  destruct (rx_stages_to_payload E strm s ts fs m) as (x & -> & Hv & Hm & Hun & Hpb & Hsq & Hpc);
    try done.
  pose proof (rx_view_eq _ _ Hv) as (Eb & El & Ea & Ep & Es & Eo & Eol).
  assert (Hok1 : rx_ok (x_fs x)) by by eapply rx_ok_view.
  pose proof Hok as [L1 L2 L3 L4 L5].
  destruct L5 as [L5|(L5 & L6 & L7 & L8)]; [lia|].
  set (n := sg_payload_bytes s) in *.
  assert (Hod : u32 (rx_ooo_start fs - rx_next_seq fs) = n).
  { rewrite <- Hadj, u32_sub_l. rewrite u32_id by (unfold is_u32; lia). lia. }
  rewrite Hod in L7, L8.
  assert (Hbump : exists x', rx_payload E s x = Some (RxCont x')
    /\ x_rx_bump x' = n + rx_ooo_len fs).
  { pose proof Hpc as (_ & Hn2 & _ & _). unfold rx_payload. rewrite Hpb in *.
    destruct (Z.ltb_spec 0 n); [|lia].
    destruct (flow_rx_write_spec E (x_fs x) (x_mem x) (rx_next_pos (x_fs x)) n
                (rx_payload_ptr s x)) as (m' & E1 & _);
      [by eapply rx_buf_ok_view|apply Hok1|apply Hok1|rewrite El; lia|lia|].
    rewrite E1. cbn [mbind option_bind].
    rewrite rx_advance_eq by (rewrite ?El, ?Ep, ?Ea; lia). cbn [mbind option_bind].
    set (fs1 := x_fs x <| rx_avail := _ |> <| rx_next_pos := _ |> <| rx_next_seq := _ |>).
    assert (F : rx_len fs1 = rx_len fs /\ rx_avail fs1 = rx_avail fs - n
      /\ rx_next_pos fs1 = (rx_next_pos fs + n) mod rx_len fs
      /\ rx_next_seq fs1 = rx_ooo_start fs /\ rx_ooo_start fs1 = rx_ooo_start fs
      /\ rx_ooo_len fs1 = rx_ooo_len fs).
    { subst fs1. cbn [setf rx_len rx_avail rx_next_pos rx_next_seq rx_ooo_start rx_ooo_len].
      by rewrite El, Ea, Ep, Es, Eo, Eol, Hadj. }
    clearbody fs1. destruct F as (F1 & F2 & F3 & F4 & F5 & F6).
    destruct (rx_ooo_merge_fill fs1) as (fs2 & -> & _); rewrite ?F1, ?F2, ?F3, ?F4, ?F5, ?F6;
      try done; try lia; [apply Z.mod_pos_bound; lia|].
    cbn [mbind option_bind]. eexists. split; [done|].
    cbn [setf x_rx_bump]. rewrite ?F6, u32_id; [done|unfold is_u32; lia]. }
  destruct Hbump as (x' & -> & Hb'). cbn [rx_bind].
  destruct (rx_fin s n x') as [r|] eqn:Er.
  - apply rx_fin_bump in Er as (y & -> & Hy & _). exists y. split; [done|]. lia.
  - exfalso. revert Er. unfold rx_fin. by destruct (_ && _); [destruct (_ && _)|].
Qed.

(** ** After a FIN *)

Definition fin_quiet (x : rxst) : Prop :=
  has_flag (rx_base_sp (x_fs x)) FLEXNIC_PL_FLOWST_RXFIN = true /\ untouched x.

Definition stage_quiet (f : rxst -> option rxres) : Prop :=
  forall x r, fin_quiet x -> f x = Some r -> fin_quiet (rx_final r).

Lemma stage_quiet_bind f g :
  stage_quiet f -> stage_quiet g -> stage_quiet (fun x => f x ;>> g).
Proof.
  intros Hf Hg x r Hx Hr. destruct (f x) as [r1|] eqn:E1; [|done].
  pose proof (Hf _ _ Hx E1) as H1.
  destruct r1 as [x1|x1|b x1]; cbn [rx_bind] in Hr; [by eapply Hg|by injection Hr as <-..].
Qed.

Lemma rx_ack_quiet s op : stage_quiet (rx_ack s op).
Proof.
  intros x r [Hf [Hb Hn]] Hr.
  destruct (rx_ack_frame _ _ _ _ Hr) as (y & Hy & Hv & _ & _ & _ & _ & Hbp & Hfb).
  assert (rx_final r = y) as -> by by destruct Hy as [->| ->].
  split; [by rewrite (rx_view_base _ _ Hv)|]. split; congruence.
Qed.

Lemma rx_trim_quiet : stage_quiet rx_trim.
Proof.
  intros x r Hx. unfold rx_trim. destruct (tcp_trim_rxbuf _ _ _) as [[? ?]|];
    intros [= <-]; exact Hx.
Qed.

Lemma rx_ooo_quiet E s : stage_quiet (rx_ooo E s).
Proof.
  intros x r Hx. unfold rx_ooo. cbv zeta.
  destruct (_ =? _); [intros [= <-]; exact Hx|].
  destruct (_ =? 0); [intros [= <-]; exact Hx|].
  destruct (_ =? 0); [|destruct (_ =? _); [|destruct (_ =? _)]].
  1-3: destruct (flow_rx_seq_write _ _ _ _ _ _); [|done]; intros [= <-]; exact Hx.
  intros [= <-]; exact Hx.
Qed.

(** Data is dropped before it is copied. *)
Lemma rx_update_payload_quiet E s ts :
  stage_quiet (fun x => rx_update s ts x ;>> rx_payload E s).
Proof.
  intros x r [Hf Hu]. unfold rx_update. set (x1 := x <| x_fs ::= rx_rtt s ts |>).
  assert (Hf1 : has_flag (rx_base_sp (x_fs x1)) FLEXNIC_PL_FLOWST_RXFIN = true).
  { rewrite <- Hf. f_equal. apply rx_view_base, rx_rtt_view. }
  rewrite Hf1. cbn [andb]. destruct (0 <? x_payload_bytes x1) eqn:En.
  - intros [= <-]. done.
  - cbn [rx_bind]. unfold rx_payload. rewrite En. intros [= <-]. done.
Qed.

Lemma rx_fin_quiet s op : stage_quiet (rx_fin s op).
Proof.
  intros x r [Hf Hu]. unfold rx_fin.
  assert (Z.land (rx_base_sp (x_fs x)) FLEXNIC_PL_FLOWST_RXFIN =? 0 = false) as ->.
  { unfold has_flag in Hf. apply Z.eqb_eq in Hf. rewrite Hf. done. }
  rewrite andb_false_r. by intros [= <-].
Qed.

Lemma rx_stages_quiet E s ts fs m r :
  has_flag (rx_base_sp fs) FLEXNIC_PL_FLOWST_RXFIN = true ->
  rx_stages E s ts fs m = Some r ->
  x_rx_bump (rx_final r) = 0 /\ x_fin_bump (rx_final r) = false.
Proof.
  intros Hf. unfold rx_stages. set (x0 := mk_rxst _ _ _ _ _ _ _ _ _).
  assert (H0 : fin_quiet x0) by done. clearbody x0. unfold rx_slow_check.
  destruct (negb _); [intros [= <-]; apply H0|].
  destruct (negb _); [intros [= <-]; apply H0|]. cbn [rx_bind]. intros Hr.
  set (op := sg_payload_bytes s) in *.
  assert (Hq : stage_quiet (fun x => rx_ack s op x ;>> rx_trim ;>> rx_ooo E s
    ;>> rx_update s ts ;>> rx_payload E s ;>> rx_fin s op)).
  { apply (stage_quiet_bind (fun x => rx_ack s op x ;>> rx_trim ;>> rx_ooo E s
      ;>> rx_update s ts ;>> rx_payload E s)); [|apply rx_fin_quiet].
    assert (Hassoc : forall x, (rx_ack s op x ;>> rx_trim ;>> rx_ooo E s
        ;>> rx_update s ts ;>> rx_payload E s)
      = (rx_ack s op x ;>> rx_trim ;>> rx_ooo E s
        ;>> (fun x => rx_update s ts x ;>> rx_payload E s))).
    { intros x. by destruct (rx_ack s op x ;>> rx_trim ;>> rx_ooo E s) as [[]|]. }
    intros x r' Hx. rewrite Hassoc. revert x r' Hx.
    apply (stage_quiet_bind (fun x => rx_ack s op x ;>> rx_trim ;>> rx_ooo E s));
      [|apply rx_update_payload_quiet].
    apply (stage_quiet_bind (fun x => rx_ack s op x ;>> rx_trim)); [|apply rx_ooo_quiet].
    apply (stage_quiet_bind (rx_ack s op)); [apply rx_ack_quiet|apply rx_trim_quiet]. }
  by destruct (Hq x0 r H0 Hr) as [_ Hu].
Qed.

(** ** The handler *)

Section Handler.
Context (E : fpenv) {Q : Type} `{QmanOps Q}.

(** The budget check of the VM lets the packet through. *)
Definition has_budget (w : world Q) (fid : Z) (spend : bool) : Prop :=
  spend = true -> 0 < budgets (w_ctx w) !!! vm_id (w_flowst w !!! fid).

(** The register file after the handler is that of the stages. *)
Lemma rx_handler_stages s send_ack (w w' : world Q) fid sb ts ret :
  has_budget w fid sb -> stays_fast (w_flowst w !!! fid) s ->
  rx_handler E s send_ack w fid sb ts = Some (w', ret) ->
  exists r, rx_stages E s ts (fs_lock (w_flowst w !!! fid))
              (w_shm w (vm_id (w_flowst w !!! fid))) = Some r
  /\ w_flowst w' !!! fid = fs_unlock (x_fs (rx_final r))
  /\ ret = (if x_trigger_ack (rx_final r) then 1 else 0).
Proof.
  intros Hb Hfast. unfold rx_handler. cbv zeta.
  set (ctx := rx_budget _ _ _ _).
  assert (Hc : sb && (budgets ctx !!! vm_id (w_flowst w !!! fid) <=? 0) = false).
  { destruct sb; [|done]. specialize (Hb eq_refl). apply Z.leb_gt. exact Hb. }
  change (w_ctx (w <| w_ctx := ctx |>)) with ctx. rewrite Hc.
  change (w_shm (w <| w_ctx := ctx |>)) with (w_shm w).
  change (vm_id (fs_lock ?f)) with (vm_id f).
  destruct (rx_stages _ _ _ _ _) as [r|] eqn:Er; [|done]. cbn [mbind option_bind].
  intros Hr. exists r. split; [done|].
  destruct r as [x|x|b x].
  1-2: destruct (rx_finish _ _ _ _ _ _); [|done]; injection Hr as <- <-;
    split; [apply lookup_total_insert_eq|done].
  exfalso. revert Er. unfold rx_stages. set (x0 := mk_rxst _ _ _ _ _ _ _ _ _).
  rewrite rx_slow_check_fast by exact Hfast. cbn [rx_bind]. intros Er.
  assert (Hn : never_slow (fun x => rx_ack s (sg_payload_bytes s) x ;>> rx_trim
    ;>> rx_ooo E s ;>> rx_update s ts ;>> rx_payload E s
    ;>> rx_fin s (sg_payload_bytes s))) by apply rx_tail_never_slow.
  destruct (Hn x0 _ Er) as [y [|]]; discriminate.
Qed.

End Handler.

(** ** What the handler reports *)

Section Reports.
Context (E : fpenv) {Q : Type} `{QmanLaws Q}.

(** The acknowledgement is built from the register file at the end. *)
Lemma rx_finish_send send_ack (ctx ctx' : dataplane_context Q) fid pos old x :
  rx_finish send_ack ctx fid pos old x = Some ctx' -> x_trigger_ack x = true ->
  exists ctx1, send_ack ctx1 (x_fs x) = Some ctx' /\ tx_num ctx1 = tx_num ctx.
Proof.
  unfold rx_finish. cbv zeta. intros Hr Ht. rewrite Ht in Hr.
  set (o1 := if _ || _ || _ then _ else _) in Hr.
  assert (H1 : forall c, o1 = Some c -> tx_num c = tx_num ctx).
  { subst o1. destruct (_ || _ || _); [|by intros c [= ->]].
    intros c. unfold arx_cache_add. destruct (_ <=? _); [done|]. by intros [= <-]. }
  destruct o1 as [c1|]; [|done]. specialize (H1 c1 eq_refl). cbn [mbind option_bind] in Hr.
  set (o2 := if _ <? _ then _ else _) in Hr.
  assert (H2 : forall c, o2 = Some c -> tx_num c = tx_num c1).
  { subst o2. destruct (_ <? _); [|by intros c [= ->]].
    intros c. unfold qman_set_or_abort. destruct (qman_set _ _ _ _ _ _ _) as [[q r]|]; [|done].
    cbn [mbind option_bind]. destruct (cassert _); [|done]. by intros [= <-]. }
  destruct o2 as [c2|]; [|done]. specialize (H2 c2 eq_refl). cbn [mbind option_bind] in Hr.
  exists c2. split; [done|]. congruence.
Qed.

Lemma rx_handler_ack s send_ack (w w' : world Q) fid sb ts :
  rx_handler E s send_ack w fid sb ts = Some (w', 1) ->
  exists ctx1 fs1, send_ack ctx1 fs1 = Some (w_ctx w')
  /\ w_flowst w' !!! fid = fs_unlock fs1 /\ tx_num ctx1 = tx_num (w_ctx w).
Proof.
  unfold rx_handler. cbv zeta.
  pose proof (rx_budget_frame (w_ctx w) sb (vm_id (w_flowst w !!! fid)) (sg_payload_bytes s))
    as (_ & _ & _ & _ & _ & Et). cbv zeta in Et.
  set (ctx := rx_budget _ _ _ _) in *.
  destruct (sb && _); [done|].
  destruct (rx_stages _ _ _ _ _) as [r|]; [|done]. cbn [mbind option_bind].
  assert (Hfin : forall x,
    (ctx' ← rx_finish send_ack ctx (u16 fid) (rx_next_pos (fs_lock (w_flowst w !!! fid)))
              (tcp_txavail (fs_lock (w_flowst w !!! fid)) None) x;
     Some (w <| w_ctx := ctx |> <| w_ctx := ctx' |>
             <| w_shm ::= fun m => shm_set m (vm_id (fs_lock (w_flowst w !!! fid))) (x_mem x) |>
             <| w_flowst ::= <[fid := fs_unlock (x_fs x)]> |>,
           if x_trigger_ack x then 1 else 0)) = Some (w', 1) ->
    exists ctx1 fs1, send_ack ctx1 fs1 = Some (w_ctx w')
    /\ w_flowst w' !!! fid = fs_unlock fs1 /\ tx_num ctx1 = tx_num (w_ctx w)).
  { intros x. destruct (rx_finish _ _ _ _ _ _) as [c|] eqn:Ef; [|done].
    cbn [mbind option_bind]. destruct (x_trigger_ack x) eqn:Etr; [|done].
    intros [= <-]. destruct (rx_finish_send _ _ _ _ _ _ _ Ef Etr) as (c1 & E1 & E2).
    exists c1, (x_fs x). split; [exact E1|].
    split; [apply lookup_total_insert_eq|]. by rewrite E2. }
  destruct r as [x|x|b x]; [apply Hfin|apply Hfin|]. done.
Qed.

(** [packet_done] tells what the stages computed. *)
Lemma packet_done_stages strm isn s send_ack (w w' : world Q) fid sb ts a ret n t fin :
  has_budget w fid sb -> stays_fast (w_flowst w !!! fid) s ->
  flow_ok E strm isn w fid a -> seg_ok strm s ->
  is_u16 (tcp_wnd (sg_tcp s)) -> is_u32 (f_beui32 (tcp_ackno (sg_tcp s))) ->
  ~ trim_gap (w_flowst w !!! fid) (f_beui32 (tcp_seqno (sg_tcp s))) (sg_payload_bytes s) ->
  rx_handler E s send_ack w fid sb ts = Some (w', ret) ->
  packet_done strm isn w w' fid a s n t fin ->
  exists r, rx_stages E s ts (fs_lock (w_flowst w !!! fid))
              (w_shm w (vm_id (w_flowst w !!! fid))) = Some r
  /\ n = x_rx_bump (rx_final r) /\ t = x_tx_bump (rx_final r)
  /\ ret = (if x_trigger_ack (rx_final r) then 1 else 0).
Proof.
  intros Hb Hfast [K1 K2 K3 K4 K5 K6] Hsg Hwnd Hackno Hgap Er Hd.
  destruct (rx_handler_stages E s send_ack w w' fid sb ts ret Hb Hfast Er)
    as (r & Es & Ef & Hret).
  exists r. split; [done|]. set (fs := w_flowst w !!! fid) in *.
  destruct (rx_stages_ok E strm s ts (fs_lock fs) (w_shm w (vm_id fs)))
    as (r' & Es' & Hdel); try done.
  { by destruct K1; constructor. }
  rewrite Es in Es'. injection Es' as <-.
  pose proof (rx_stages_snd E isn s ts (fs_lock fs) (w_shm w (vm_id fs)) a r) as Hsn.
  cbv zeta in Hsn. destruct Hsn as [Hsn _]; try done.
  { by eapply snd_rep_view, K4. }
  { by destruct K5; constructor. }
  destruct Hd as [Hrx Hsnd _ _ _ _ _ _]. cbv zeta in Hrx. fold fs in Hrx, Hsnd.
  split; [|split; [|done]].
  - destruct Hdel as [_ _ _ _ [_ H1] _ _ _ _]. destruct Hrx as [_ _ _ _ [_ H2] _ _ _ _].
    rewrite Ef in H2. change (rx_avail (fs_unlock ?f)) with (rx_avail f) in H2.
    change (rx_avail (fs_lock fs)) with (rx_avail fs) in H1. lia.
  - assert (Hune : forall f b u, snd_acked isn f b a u -> exists a', snd_rep isn b a'
      /\ s_una a' = s_una a + u /\ s_end a' = s_end a).
    { intros f b u (a1 & a2 & S1 & S2 & R & _). exists a2. split; [done|].
      inversion S1; subst. destruct S2 as [->|S2]; [done|]. inversion S2; subst. done. }
    destruct (Hune _ _ _ Hsn) as (a1 & R1 & U1 & V1).
    destruct (Hune _ _ _ Hsnd) as (a2 & R2 & U2 & V2).
    destruct R1 as [_ _ S1 A1 _ _], R2 as [_ _ S2 A2 _ _]. rewrite Ef in S2, A2.
    change (tx_sent (fs_unlock ?f)) with (tx_sent f) in S2.
    change (tx_avail (fs_unlock ?f)) with (tx_avail f) in A2. lia.
Qed.

End Reports.
