(* ===== verification/FastPath.v ===== *)
(** * The fast path as a whole

    Any sequence of packets, queue manager events, application updates and
    retransmission requests, for any set of flows: the handlers never abort,
    every flow stays consistent, and each flow moves by steps of its connection
    specification. *)

From S2P Require Import Prelude FpTypes TcpCommon FlowTx FlowRx FlowOps Sender.
From S2P Require Import FlowProofs FlowHandlers.

(** ** Frame of the transmit side handlers *)

(** What no handler changes in a register file. *)
Definition static_view (fs : flowst) :=
  (rx_base fs, rx_len fs, tx_base fs, tx_len fs, vm_id fs).

(** [grow]: the receive window may change. *)
Definition tx_frame (grow : bool) (fs fs' : flowst) : Prop :=
  static_view fs' = static_view fs /\ rx_next_seq fs' = rx_next_seq fs
  /\ rx_next_pos fs' = rx_next_pos fs /\ (grow = false -> rx_avail fs' = rx_avail fs).

#[export] Instance tx_frame_preorder grow : PreOrder (tx_frame grow).
Proof.
  split; [by intros x|]. intros x y z (E1 & F1 & G1 & H1) (E2 & F2 & G2 & H2).
  split; [congruence|]. split; [congruence|]. split; [congruence|].
  intros Hg. rewrite H2 by done. by apply H1.
Qed.

Lemma tx_frame_lock grow fs fs' : tx_frame grow (fs_lock fs) fs' -> tx_frame grow fs fs'.
Proof. done. Qed.

Lemma tx_frame_advance grow n fs : tx_frame grow fs (tx_advance n fs).
Proof. unfold tx_advance. cbn. by destruct (tx_len fs <=? _). Qed.

Lemma tx_frame_reset grow fs : tx_frame grow fs (flow_reset_retransmit fs).
Proof.
  unfold flow_reset_retransmit.
  set (fs1 := if tx_sent _ <=? _ then _ else _).
  assert (H1 : tx_frame grow fs fs1) by (subst fs1; by destruct (_ <=? _)).
  clearbody fs1. set (fs2 := fs1 <| tx_avail := _ |> <| tx_sent := 0 |>).
  assert (H2 : tx_frame grow fs fs2) by done. clearbody fs2.
  by destruct (_ =? 0).
Qed.

Lemma tx_frame_txfin grow fs :
  tx_frame grow fs (fs <| rx_base_sp ::= fun b => Z.lor b FLEXNIC_PL_FLOWST_TXFIN |>).
Proof.
  split; [|done]. unfold static_view. by rewrite (rx_base_txfin fs).
Qed.

Section Frame.
Context (E : fpenv) {Q : Type} `{QmanOps Q}.

(** Only flow [fid] changes, and no shared memory. *)
Record framed (grow : bool) (w w' : world Q) (fid : Z) : Prop := mk_framed {
  frm_others : forall f, f <> fid -> w_flowst w' !! f = w_flowst w !! f;
  frm_flow : tx_frame grow (w_flowst w !!! fid) (w_flowst w' !!! fid);
  frm_shm : w_shm w' = w_shm w }.

Lemma framed_put grow (w w0 : world Q) fid fs :
  w_flowst w0 = w_flowst w -> w_shm w0 = w_shm w ->
  tx_frame grow (w_flowst w !!! fid) fs -> framed grow w (put_unlock w0 fid fs) fid.
Proof.
  intros Hf Hm Ht. constructor; cbn; rewrite ?Hf.
  - intros f Hne. by rewrite lookup_insert_ne.
  - by rewrite lookup_total_insert_eq.
  - done.
Qed.

Lemma qman_forward_frame (w w' : world Q) vm f c :
  qman_forward E w vm f c = Some w' ->
  w_flowst w' = w_flowst w /\ w_shm w' = w_shm w.
Proof.
  unfold qman_forward. destruct (rte_ring_has_room _ _ _); [|done].
  cbn [cassert mbind option_bind].
  destruct (qman_set_or_abort _ _ _ _ _ _ _); [|done]. by intros [= <-].
Qed.

Lemma fast_flows_qman_frame (w w' : world Q) vm fid nbh ts r :
  fast_flows_qman E w vm fid nbh ts = Some (w', r) -> framed false w w' fid.
Proof.
  unfold fast_flows_qman. cbv zeta. destruct (negb _).
  - destruct (qman_forward _ _ _ _ _) as [w0|] eqn:Ef; [|done].
    apply qman_forward_frame in Ef as [Ef Em]. intros [= <- _]. by apply framed_put.
  - destruct (_ =? 0); [intros [= <- _]; by apply framed_put|].
    set (n := Z.min _ _). set (fs' := tx_advance n _).
    assert (Hf : tx_frame false (w_flowst w !!! fid) fs')
      by (apply tx_frame_lock, tx_frame_advance).
    clearbody fs' n. destruct (cassert _); [|done].
    destruct (flow_tx_seg _ _ _ _ _ _ _ _ _ _ _ _ _); [|done].
    intros [= <- _]. by apply framed_put.
Qed.

Lemma fast_flows_qman_fwd_frame (w w' : world Q) fid r :
  fast_flows_qman_fwd w fid = Some (w', r) -> framed false w w' fid.
Proof.
  unfold fast_flows_qman_fwd. cbv zeta.
  destruct (qman_set_or_abort _ _ _ _ _ _ _); [|done].
  intros [= <- _]. by apply framed_put.
Qed.

Lemma fast_flows_retransmit_frame (w w' : world Q) fid :
  fast_flows_retransmit w fid = Some w' -> framed false w w' fid.
Proof.
  unfold fast_flows_retransmit. cbv zeta.
  destruct (_ =? 0); [intros [= <-]; by apply framed_put|].
  set (o := if _ <? _ then _ else _). destruct o; [|done].
  intros [= <-]. apply framed_put; [done..|].
  apply tx_frame_lock, tx_frame_reset.
Qed.

Lemma fast_flows_winretransmit_frame (w w' : world Q) fid nbh ts :
  fast_flows_winretransmit E w fid nbh ts = Some w' -> framed false w w' fid.
Proof.
  unfold fast_flows_winretransmit. cbv zeta.
  destruct (send_window_update _ _ _ _ _ _); [|done].
  intros [= <-]. by apply framed_put.
Qed.

Lemma fast_flows_bump_frame (w w' : world Q) fid seq rb tb flags nbh ts r :
  fast_flows_bump E w fid seq rb tb flags nbh ts = Some (w', r) -> framed true w w' fid.
Proof.
  unfold fast_flows_bump. cbv zeta.
  destruct (bump_is_old _ _); [intros [= <- _]; by apply framed_put|].
  set (fs1 := fs_lock _ <| bump_seq := seq |>).
  assert (H1 : tx_frame true (w_flowst w !!! fid) fs1) by done.
  destruct (_ && _ && _ && _); [intros [= <- _]; by apply framed_put|].
  destruct (_ || _ || _); [intros [= <- _]; by apply framed_put|].
  destruct (_ || _); [intros [= <- _]; by apply framed_put|].
  set (fs2 := if _ && _ then _ else fs1).
  assert (H2 : tx_frame true (w_flowst w !!! fid) fs2).
  { subst fs2. destruct (_ && _); [|done]. etransitivity; [exact H1|].
    apply tx_frame_txfin. }
  clearbody fs2. set (o := if _ <? _ then _ else _). destruct o; [|done].
  cbn [mbind option_bind]. set (fs3 := fs2 <| tx_avail := _ |> <| rx_avail := _ |>).
  assert (H3 : tx_frame true (w_flowst w !!! fid) fs3)
    by (destruct H2 as (? & ? & ? & _); repeat split; [done..|by intros [=]]).
  clearbody fs3.
  destruct (_ && _ && _); [|intros [= <- _]; by apply framed_put].
  destruct (send_window_update _ _ _ _ _ _); [|done].
  intros [= <- _]. by apply framed_put.
Qed.

End Frame.

(** ** Streams of any length

    [irs] is the initial receive sequence number; stream positions are
    unbounded, sequence numbers are positions modulo 2^32.  [strm_at] gives the
    stream as seen around receive position [r]. *)
Definition strm_at (peer : Z -> Z) (irs r q : Z) : Z :=
  let lo := r - 2147483648 in peer (lo + u32 (q - (irs + lo))).

Lemma strm_at_pos peer irs r k :
  r - 2147483648 <= k < r + 2147483648 ->
  strm_at peer irs r (u32 (irs + k)) = peer k.
Proof.
  intros Hk. unfold strm_at. f_equal. rewrite u32_sub_l.
  rewrite u32_id by cside. lia.
Qed.

(** A received segment carries the peer's stream from position [k] on. *)
Record seg_at (peer : Z -> Z) (irs r : Z) (s : rx_seg) (k : Z) : Prop := mk_seg_at {
  sa_seq : f_beui32 (tcp_seqno (sg_tcp s)) = u32 (irs + k);
  sa_near : - 2147483648 <= k - r /\ k - r + 65536 <= 2147483648;
  sa_payload : is_u16 (sg_payload_bytes s);
  sa_off : sg_payload_off s = sg_sizeof s + tcp_extra_hlen s;
  sa_off_range : 0 <= sg_payload_off s <= 65536;
  sa_data : forall i, 0 <= i < sg_payload_bytes s ->
    sg_rest s (tcp_extra_hlen s + i) = peer (k + i) }.

Lemma seg_at_ok peer irs r s k :
  seg_at peer irs r s k -> seg_ok (strm_at peer irs r) s.
Proof.
  intros [Hq [Hn1 Hn2] Hp Ho Hr Hd]. constructor; try done.
  - rewrite Hq. apply u32_range.
  - intros i Hi. rewrite Hd by done. rewrite Hq, u32_add_l, <- Z.add_assoc.
    unfold is_u16 in Hp. by rewrite strm_at_pos by lia.
Qed.

(** The bytes of the out-of-order interval, by stream position. *)
Lemma ooo_data_move peer irs r r' fs m :
  rx_ok fs -> rx_next_seq fs = u32 (irs + r') ->
  r <= r' -> r' - r + rx_avail fs <= 1073741825 ->
  ooo_data (strm_at peer irs r) fs m -> ooo_data (strm_at peer irs r') fs m.
Proof.
  intros [Hl Ha Hp Hs Ho] Hq Hr Hr' Hd i Hi. rewrite Hd by done.
  destruct Ho as [Ho|(H0 & H1 & H2 & H3)]; [lia|].
  set (d := u32 (rx_ooo_start fs - rx_next_seq fs)) in *.
  assert (Hst : u32 (rx_ooo_start fs + i) = u32 (irs + (r' + d + i))).
  { subst d. rewrite Hq.
    replace (irs + (r' + u32 (rx_ooo_start fs - u32 (irs + r')) + i))
      with (irs + r' + i + u32 (rx_ooo_start fs - u32 (irs + r'))) by lia.
    rewrite u32_add_r. rewrite <- (u32_id _ H1) at 1. rewrite u32_add_l.
    rewrite <- (u32_add_r (irs + r' + i)). rewrite u32_sub_r, u32_add_r.
    f_equal. lia. }
  rewrite Hst, !strm_at_pos by lia. done.
Qed.

(** ** Connections *)

(** Ghost state of a connection: the sender and the number of sequence numbers
    received (bytes, and the FIN). *)
Record conn : Type := mk_conn { c_snd : snd; c_rcv : Z }.

(** What is fixed for a connection: initial sequence numbers, the stream the
    application writes and the stream the peer sends. *)
Record conn_cfg : Type := mk_conn_cfg {
  cc_isn : Z; cc_irs : Z; cc_app : Z -> Z; cc_peer : Z -> Z }.

Inductive conn_ev : Type :=
| ConnSnd (e : snd_ev)
| ConnRcv (n : Z) (fin : bool).

Inductive conn_step (cap : Z) : conn -> conn_ev -> conn -> Prop :=
| cs_snd c e a' : snd_step cap (c_snd c) e a' ->
    conn_step cap c (ConnSnd e) (mk_conn a' (c_rcv c))
| cs_rcv c n fin : 0 <= n ->
    conn_step cap c (ConnRcv n fin)
      (mk_conn (c_snd c) (c_rcv c + n + (if fin : bool then 1 else 0))).

Inductive conn_steps (cap : Z) : conn -> list conn_ev -> conn -> Prop :=
| css_nil c : conn_steps cap c [] c
| css_cons c e c1 l c2 : conn_step cap c e c1 -> conn_steps cap c1 l c2 ->
    conn_steps cap c (e :: l) c2.

Lemma conn_steps_app cap c l c1 l' c2 :
  conn_steps cap c l c1 -> conn_steps cap c1 l' c2 -> conn_steps cap c (l ++ l') c2.
Proof. intros H1 H2. induction H1; [done|]. by econstructor; [|apply IHconn_steps]. Qed.

Lemma conn_steps_one cap c e c' : conn_step cap c e c' -> conn_steps cap c [e] c'.
Proof. intros. econstructor; [done|constructor]. Qed.

Section System.
Context (E : fpenv) {Q : Type} `{QmanLaws Q} (cfg : Z -> conn_cfg).

(** Flow [fid] is a connection in state [c]. *)
Record conn_ok (w : world Q) (fid : Z) (c : conn) : Prop := mk_conn_ok {
  ck_flow : flow_ok E (strm_at (cc_peer (cfg fid)) (cc_irs (cfg fid)) (c_rcv c))
              (cc_isn (cfg fid)) w fid (c_snd c);
  ck_rcv : rx_next_seq (w_flowst w !!! fid) = u32 (cc_irs (cfg fid) + c_rcv c);
  ck_tx : tx_buf_ok E (w_flowst w !!! fid);
  ck_app : tx_data (cc_app (cfg fid)) (w_flowst w !!! fid)
             (w_shm w (vm_id (w_flowst w !!! fid))) (c_snd c) }.

(** Receive buffers are disjoint from all other buffers of the same VM. *)
Definition apart (w : world Q) (f g : Z) : Prop :=
  let fs := w_flowst w !!! f in
  let gs := w_flowst w !!! g in
  vm_id fs = vm_id gs ->
  (f <> g -> rx_base fs + rx_len fs <= rx_base gs \/ rx_base gs + rx_len gs <= rx_base fs)
  /\ (rx_base fs + rx_len fs <= tx_base gs \/ tx_base gs + tx_len gs <= rx_base fs).

Record sys_ok (F : list Z) (w : world Q) (C : Z -> conn) : Prop := mk_sys_ok {
  sy_conn : forall f, f ∈ F -> conn_ok w f (C f);
  sy_apart : forall f g, f ∈ F -> g ∈ F -> apart w f g;
  sy_qman : qman_inv (qman (w_ctx w)) }.

Lemma static_view_eq fs fs' :
  static_view fs' = static_view fs ->
  rx_base fs' = rx_base fs /\ rx_len fs' = rx_len fs /\ tx_base fs' = tx_base fs
  /\ tx_len fs' = tx_len fs /\ vm_id fs' = vm_id fs.
Proof.
  intros Hv. split; [exact (f_equal (fun t => t.1.1.1.1) Hv)|].
  split; [exact (f_equal (fun t => t.1.1.1.2) Hv)|].
  split; [exact (f_equal (fun t => t.1.1.2) Hv)|].
  split; [exact (f_equal (fun t => t.1.2) Hv)|exact (f_equal (fun t => t.2) Hv)].
Qed.

Lemma apart_static (w w' : world Q) f g :
  static_view (w_flowst w' !!! f) = static_view (w_flowst w !!! f) ->
  static_view (w_flowst w' !!! g) = static_view (w_flowst w !!! g) ->
  apart w f g -> apart w' f g.
Proof.
  intros Hf Hg. apply static_view_eq in Hf as (F1 & F2 & F3 & F4 & F5).
  apply static_view_eq in Hg as (G1 & G2 & G3 & G4 & G5).
  unfold apart. by rewrite F1, F2, F5, G1, G2, G3, G4, G5.
Qed.

(** A connection whose register file is the same and whose part of the memory
    is the same. *)
Lemma conn_ok_frame (w w' : world Q) f c :
  w_flowst w' !! f = w_flowst w !! f ->
  (forall a, (exists i, a = rx_addr (w_flowst w !!! f) i)
        \/ (exists i, a = tx_addr (w_flowst w !!! f) i) ->
     w_shm w' (vm_id (w_flowst w !!! f)) a = w_shm w (vm_id (w_flowst w !!! f)) a) ->
  conn_ok w f c -> conn_ok w' f c.
Proof.
  intros Hf Hm [[K1 K2 K3 K4 K5 K6] K7 K8 K9].
  assert (Hft : w_flowst w' !!! f = w_flowst w !!! f)
    by (by rewrite !lookup_total_alt, Hf).
  constructor; [constructor|..]; rewrite ?Hft; try done.
  - intros i Hi. rewrite Hm by (left; by eexists). by apply K3.
  - intros k Hk. rewrite Hm by (right; by eexists). by apply K9.
Qed.

(** The addresses of a buffer. *)
Lemma rx_addr_range fs i : 0 < rx_len fs ->
  rx_base fs <= rx_addr fs i < rx_base fs + rx_len fs.
Proof. intros. unfold rx_addr. pose proof (Z.mod_pos_bound i (rx_len fs)). lia. Qed.

Lemma tx_addr_range fs i : 0 < tx_len fs ->
  tx_base fs <= tx_addr fs i < tx_base fs + tx_len fs.
Proof. intros. unfold tx_addr. pose proof (Z.mod_pos_bound i (tx_len fs)). lia. Qed.

(** Buffers of different flows of one VM do not meet; nor does the receive
    buffer of a flow meet its own transmit buffer. *)
Lemma apart_addr (w : world Q) f g a j :
  0 < rx_len (w_flowst w !!! g) -> 0 < tx_len (w_flowst w !!! g) ->
  apart w f g -> vm_id (w_flowst w !!! f) = vm_id (w_flowst w !!! g) ->
  rx_base (w_flowst w !!! f) <= a < rx_base (w_flowst w !!! f) + rx_len (w_flowst w !!! f) ->
  (f <> g -> a <> rx_addr (w_flowst w !!! g) j) /\ a <> tx_addr (w_flowst w !!! g) j.
Proof.
  intros H1 H2 Hap Hv Ha. destruct (Hap Hv) as [Hr Ht].
  pose proof (rx_addr_range _ j H1). pose proof (tx_addr_range _ j H2).
  split; [intros Hne; specialize (Hr Hne)|]; lia.
Qed.

Definition cupd (C : Z -> conn) (f : Z) (c : conn) : Z -> conn :=
  fun g => if decide (g = f) then c else C g.

(** Memory that a handler working on flow [f] leaves alone. *)
Definition shm_frame (w w' : world Q) (f : Z) : Prop :=
  forall v a, (v = vm_id (w_flowst w !!! f) ->
      ~ (rx_base (w_flowst w !!! f) <= a
         < rx_base (w_flowst w !!! f) + rx_len (w_flowst w !!! f))) ->
    w_shm w' v a = w_shm w v a.

Lemma sys_ok_step F (w w' : world Q) C f c' :
  sys_ok F w C -> f ∈ F ->
  (forall g, g <> f -> w_flowst w' !! g = w_flowst w !! g) ->
  static_view (w_flowst w' !!! f) = static_view (w_flowst w !!! f) ->
  shm_frame w w' f -> qman_inv (qman (w_ctx w')) -> conn_ok w' f c' ->
  sys_ok F w' (cupd C f c').
Proof.
  intros [Sc Sa Sq] Hf Ho Hst Hm Hq Hc.
  assert (Hsv : forall g, static_view (w_flowst w' !!! g) = static_view (w_flowst w !!! g)).
  { intros g. destruct (decide (g = f)) as [->|Hne]; [done|].
    by rewrite !lookup_total_alt, Ho. }
  constructor.
  - intros g Hg. unfold cupd. destruct (decide (g = f)) as [->|Hne]; [done|].
    apply (conn_ok_frame w); [by apply Ho| |by apply Sc].
    intros a Ha. apply Hm. intros Hv Hin.
    pose proof (Sc g Hg) as [[K1 _ _ K4 _ _] _ K8 _].
    assert (Hr : 0 < rx_len (w_flowst w !!! g)) by (destruct K1; lia).
    assert (Ht : 0 < tx_len (w_flowst w !!! g)) by (destruct K8; lia).
    destruct Ha as [[i ->]|[i ->]].
    + destruct (apart_addr w f g _ i Hr Ht (Sa f g Hf Hg) (eq_sym Hv) Hin) as [H1 _].
      by apply H1.
    + by destruct (apart_addr w f g _ i Hr Ht (Sa f g Hf Hg) (eq_sym Hv) Hin) as [_ H2].
  - intros g h Hg Hh. apply (apart_static w); [apply Hsv..|by apply Sa].
  - done.
Qed.

(** ** Packets *)

Lemma received_static strm fs m fs' m' n fin :
  received strm fs m fs' m' n fin -> st_view fs' = st_view fs ->
  static_view fs' = static_view fs.
Proof.
  intros [? ? Hl Hb ? ? ? ? ?] Hst. unfold static_view.
  rewrite Hl, Hb, (st_view_vm _ _ Hst), (st_view_len _ _ Hst).
  assert (tx_base fs' = tx_base fs) as -> by exact (f_equal (fun t => t.1.1.1.1.1.1.2) Hst).
  done.
Qed.

Lemma tx_data_una app fs m a a' fs' :
  tx_data app fs m a -> s_una a <= s_una a' -> s_end a' = s_end a ->
  tx_base fs' = tx_base fs -> tx_len fs' = tx_len fs ->
  tx_data app fs' m a'.
Proof.
  intros Hd Hu He Hb Hl k Hk. unfold tx_addr. rewrite Hb, Hl. apply Hd. lia.
Qed.

Lemma snd_acked_conn (isn : Z) fs0 fs a t :
  snd_acked isn fs0 fs a t -> exists a' evs,
    (forall r, conn_steps (tx_len fs0) (mk_conn a r) evs (mk_conn a' r))
    /\ (evs = [ConnSnd (SndAck t)] \/ evs = [ConnSnd (SndAck t); ConnSnd SndRewind])
    /\ snd_rep isn fs a' /\ s_una a <= s_una a' /\ s_end a' = s_end a
    /\ snd_env_ok fs /\ st_view fs = st_view fs0.
Proof.
  intros (a1 & a2 & S1 & S2 & R & He & Hst). exists a2.
  assert (H1 : s_una a1 = s_una a + t /\ s_end a1 = s_end a /\ 0 <= t)
    by (inversion S1; cbn; lia).
  assert (H2 : s_una a2 = s_una a1 /\ s_end a2 = s_end a1).
  { destruct S2 as [->|S2]; [done|]. by inversion S2. }
  assert (Hs : forall r, conn_step (tx_len fs0) (mk_conn a r) (ConnSnd (SndAck t)) (mk_conn a1 r))
    by (intros r; by apply (cs_snd _ (mk_conn a r))).
  destruct S2 as [->|S2].
  - exists [ConnSnd (SndAck t)]. split; [intros r; by apply conn_steps_one|].
    split; [by left|]. split; [done|]. split; [lia|]. split; [lia|done].
  - exists [ConnSnd (SndAck t); ConnSnd SndRewind].
    split.
    { intros r. econstructor; [apply Hs|]. apply conn_steps_one.
      by apply (cs_snd _ (mk_conn a1 r)). }
    split; [by right|]. split; [done|]. split; [lia|]. split; [lia|done].
Qed.

(** The handler of a packet of flow [f] at position [k]. *)
Lemma packet_done_conn (w w' : world Q) f c s n t fin :
  conn_ok w f c -> apart w f f ->
  packet_done (strm_at (cc_peer (cfg f)) (cc_irs (cfg f)) (c_rcv c)) (cc_isn (cfg f))
    w w' f (c_snd c) s n t fin ->
  exists a' evs, let c' := mk_conn a' (c_rcv c + n + (if fin then 1 else 0)) in
    conn_steps (tx_len (w_flowst w !!! f)) c (evs ++ [ConnRcv n fin]) c'
    /\ (evs = [ConnSnd (SndAck t)] \/ evs = [ConnSnd (SndAck t); ConnSnd SndRewind])
    /\ conn_ok w' f c'
    /\ static_view (w_flowst w' !!! f) = static_view (w_flowst w !!! f)
    /\ shm_frame w w' f
    /\ forall i, 0 <= i < n ->
         w_shm w' (vm_id (w_flowst w !!! f))
           (rx_addr (w_flowst w !!! f) (rx_next_pos (w_flowst w !!! f) + i))
         = cc_peer (cfg f) (c_rcv c + i).
Proof.
  intros [[K1 K2 K3 K4 K5 K6] K7 K8 K9] Hap [Hrx Hsn _ Hlk _ _ Hvm _].
  cbv zeta in Hrx. set (fs := w_flowst w !!! f) in *. set (fs' := w_flowst w' !!! f) in *.
  destruct (snd_acked_conn _ _ _ _ _ Hsn) as (a' & evs & Hst & Hev & Hrep & Hu & He & Henv & Hsv).
  pose proof (received_static _ _ _ _ _ _ _ Hrx Hsv) as Hss.
  apply static_view_eq in Hss as Hse. destruct Hse as (S1 & S2 & S3 & S4 & S5).
  pose proof Hrx as [R1 R2 R3 R4 [R5 R5'] R6 R7 R8 R9].
  pose proof K1 as [L1 L2 L3 L4 L5].
  assert (Hshm : shm_frame w w' f).
  { intros v a Ha. destruct (decide (v = vm_id fs)) as [->|Hne]; [|by rewrite Hvm].
    apply R9. intros i _ ->. apply (Ha eq_refl). apply rx_addr_range, L1. }
  assert (Hseq : rx_next_seq fs' = u32 (cc_irs (cfg f) + (c_rcv c + n + (if fin then 1 else 0)))).
  { rewrite R7, K7. rewrite <- Z.add_assoc, u32_add_l. f_equal. lia. }
  exists a', evs. cbv zeta. split; [|split; [done|split; [|split; [done|split; [done|]]]]].
  - apply (conn_steps_app _ _ _ (mk_conn a' (c_rcv c))); [destruct c as [a r]; apply Hst|].
    apply conn_steps_one. by apply (cs_rcv _ (mk_conn a' (c_rcv c))).
  - constructor.
    + constructor; fold fs'; try done.
      * unfold rx_buf_ok. by rewrite S1, S2.
      * rewrite S5. eapply ooo_data_move; [done|exact Hseq| | |done].
        -- cbn [c_rcv]. destruct fin; lia.
        -- cbn [c_rcv]. pose proof (proj2 L1). pose proof (proj2 L2). destruct fin; lia.
    + done.
    + fold fs'. unfold tx_buf_ok. by rewrite S3, S4.
    + fold fs'. rewrite S5. eapply (tx_data_una _ fs); [|done..].
      intros k Hk. rewrite Hshm; [by apply K9|]. intros _ Hin.
      assert (Ht : 0 < tx_len fs) by (destruct K8; lia).
      destruct (apart_addr w f f _ k (proj1 L1) Ht Hap eq_refl Hin)
        as [_ Hne]. by apply Hne.
  - intros i Hi. destruct R1. rewrite R8 by done. rewrite K7, u32_add_l, <- Z.add_assoc.
    rewrite strm_at_pos by lia. done.
Qed.

(** ** The remaining handlers on connections *)

Lemma framed_shm grow (w w' : world Q) f : framed grow w w' f -> shm_frame w w' f.
Proof. intros [_ _ Hm] v a _. by rewrite Hm. Qed.

Lemma conn_ok_tx grow (w w' : world Q) f c a' :
  conn_ok w f c -> framed grow w w' f ->
  flow_ok E (strm_at (cc_peer (cfg f)) (cc_irs (cfg f)) (c_rcv c)) (cc_isn (cfg f)) w' f a' ->
  tx_data (cc_app (cfg f)) (w_flowst w !!! f) (w_shm w (vm_id (w_flowst w !!! f))) a' ->
  conn_ok w' f (mk_conn a' (c_rcv c)).
Proof.
  intros [K1 K7 K8 K9] [_ (Hst & Hsq & _) Hm] Hfo Hd.
  apply static_view_eq in Hst as (S1 & S2 & S3 & S4 & S5).
  constructor; [done|by rewrite Hsq|unfold tx_buf_ok; by rewrite S3, S4|].
  intros k Hk. unfold tx_addr. rewrite S5, S3, S4, Hm. by apply Hd.
Qed.

(** Window updates leave the flow alone. *)
Lemma fast_flows_winretransmit_ok (w : world Q) f c nbh ts :
  conn_ok w f c -> core_ok w ->
  exists w', fast_flows_winretransmit E w f nbh ts = Some w'
  /\ framed false w w' f /\ qman_inv (qman (w_ctx w')) /\ conn_ok w' f c.
Proof.
  intros Hc [Hq [Hroom _]]. pose proof Hc as [K1 K7 K8 K9].
  unfold fast_flows_winretransmit. set (fs := w_flowst w !!! f) in *. cbv zeta.
  unfold send_window_update, flow_tx_seg, VIRTUOSO_GRE.
  assert (Hrx : 0 <= rx_avail fs) by (destruct K1 as [[? [? ?] ? ? ?] _ _ _ _ _]; done).
  assert (Htl : 0 < tx_len fs) by (destruct K8; lia).
  match goal with |- context [flow_tx_segment E ?c ?m nbh ?fs1 ?sq ?ak ?wn 0 0 ?ec ts false] =>
    destruct (flow_tx_segment_ok E c m nbh fs1 sq ak wn 0 0 ec ts false)
      as (p & xs & -> & _) end.
  { exact K8. }
  { split; [lia|exact Htl]. }
  { unfold TCP_MSS. lia. }
  { change (0 <= tx_len fs). lia. }
  { exact Hrx. }
  { exact Hroom. }
  cbn [mbind option_bind]. eexists. split; [reflexivity|].
  assert (Hfr : framed false w (put_unlock
    (count_kernel_op w (vm_id (fs_lock fs)) <| w_ctx := w_ctx (count_kernel_op w (vm_id (fs_lock fs)))
      <| tx_handles ::= <[tx_num (w_ctx w) := mk_tx_ent (nb_id nbh) (PktTcp p) 0 (66 + 0) xs]> |>
      <| tx_num := tx_num (w_ctx w) + 1 |> |>) f (fs_lock fs)) f) by by apply framed_put.
  split; [exact Hfr|]. split; [exact Hq|].
  destruct c as [a r]. apply (conn_ok_tx false w _ f (mk_conn a r)); [done|exact Hfr| |done].
  by apply (flow_ok_relock E _ _ w).
Qed.

Lemma fast_flows_qman_fwd_ok (w : world Q) f c :
  conn_ok w f c -> qman_inv (qman (w_ctx w)) ->
  exists w', fast_flows_qman_fwd w f = Some (w', 0)
  /\ framed false w w' f /\ qman_inv (qman (w_ctx w')) /\ conn_ok w' f c.
Proof.
  intros Hc Hq. pose proof Hc as [K1 K7 K8 K9].
  pose proof K1 as [_ _ _ Hs He _]. pose proof He as [He1 He2 He3].
  pose proof Hs as [Hcap (H1 & H2 & H3) Hsent Havl _ _].
  unfold fast_flows_qman_fwd. set (fs := w_flowst w !!! f) in *. cbv zeta.
  change (tcp_txavail (fs_lock fs) None) with (tcp_txavail fs None).
  destruct (tcp_txavail_range fs None He1 ltac:(lia) ltac:(cside)) as [Hav _].
  pose proof (u16_range f).
  destruct (qman_set_or_abort_ok (w_ctx w) (vm_id fs) (u16 f) (tx_rate fs)
    (tcp_txavail fs None) TCP_MSS QMAN_SET_ALL) as (q & _ & Hi & Eq); try done.
  { unfold FLEXNIC_NUM_QMFLOWQUEUES, is_u16 in *. lia. }
  change (qman_set_or_abort (w_ctx w) (vm_id (fs_lock fs)) (u16 f) (tx_rate (fs_lock fs)))
    with (qman_set_or_abort (w_ctx w) (vm_id fs) (u16 f) (tx_rate fs)).
  rewrite Eq. cbn [mbind option_bind]. eexists. split; [reflexivity|].
  assert (Hfr : framed false w (put_unlock (w <| w_ctx := w_ctx w <| qman := q |> |>) f (fs_lock fs)) f)
    by by apply framed_put.
  split; [exact Hfr|]. split; [exact Hi|].
  destruct c as [a r]. apply (conn_ok_tx false w _ f (mk_conn a r)); [done|exact Hfr| |done].
  by apply (flow_ok_relock E _ _ w).
Qed.

Lemma flow_tx_ack_gre_send (ctx : dataplane_context Q) fs seq ack rxwnd echo my nbh p ts_opt :
  0 <= tx_num ctx < TXBUF_SIZE -> exists hs,
  flow_tx_ack_gre E ctx fs seq ack rxwnd echo my nbh p ts_opt
  = Some (ctx <| tx_handles := hs |> <| tx_num := tx_num ctx + 1 |>).
Proof.
  intros Hr. unfold flow_tx_ack_gre. cbv zeta. destruct (gre_checksums _ _ _) as [pk xs].
  rewrite tx_send_ok by done. by eexists.
Qed.

(** ** Events *)

Inductive fp_ev : Type :=
| EvPacket (nbh : rxbuf) (p : pkt_tcp) (fid ts_opt : Z) (spend : bool) (ts : Z)
| EvPacketGre (nbh : rxbuf) (p : pkt_gre) (fid ts_opt : Z) (spend : bool) (ts : Z)
| EvQman (vm fid : Z) (nbh : nbuf) (ts : Z)
| EvQmanFwd (fid : Z)
| EvBump (fid bseq rx_bump tx_bump flags : Z) (nbh : nbuf) (ts : Z)
| EvRetransmit (fid : Z)
| EvWinRetransmit (fid : Z) (nbh : nbuf) (ts : Z)
| EvEnv (w' : world Q).

(** [EvEnv] is everything else: other parts of the program and the
    applications. *)
Definition fp_exec (w : world Q) (e : fp_ev) : option (world Q) :=
  match e with
  | EvPacket nbh p fid o sb ts => '(w', _) ← fast_flows_packet E w nbh p fid o sb ts; Some w'
  | EvPacketGre nbh p fid o sb ts =>
      '(w', _) ← fast_flows_packet_gre E w nbh p fid o sb ts; Some w'
  | EvQman vm fid nbh ts => '(w', _) ← fast_flows_qman E w vm fid nbh ts; Some w'
  | EvQmanFwd fid => '(w', _) ← fast_flows_qman_fwd w fid; Some w'
  | EvBump fid sq rb tb fl nbh ts =>
      '(w', _) ← fast_flows_bump E w fid sq rb tb fl nbh ts; Some w'
  | EvRetransmit fid => fast_flows_retransmit w fid
  | EvWinRetransmit fid nbh ts => fast_flows_winretransmit E w fid nbh ts
  | EvEnv w' => Some w'
  end.

Fixpoint fp_run (w : world Q) (es : list fp_ev) : option (world Q) :=
  match es with
  | [] => Some w
  | e :: es => w' ← fp_exec w e; fp_run w' es
  end.

(** A packet of flow [f] that carries the peer's stream. *)
Definition packet_ok (w : world Q) (C : Z -> conn) (f : Z) (s : rx_seg) : Prop :=
  (exists k, seg_at (cc_peer (cfg f)) (cc_irs (cfg f)) (c_rcv (C f)) s k)
  /\ is_u16 (tcp_wnd (sg_tcp s)) /\ is_u32 (f_beui32 (tcp_ackno (sg_tcp s)))
  /\ ~ trim_gap (w_flowst w !!! f) (f_beui32 (tcp_seqno (sg_tcp s))) (sg_payload_bytes s).

(** The environment does not touch the register files, nor the bytes of the
    transmit buffers that are not acknowledged, nor the receive buffers. *)
Definition env_ok (F : list Z) (w w' : world Q) (C : Z -> conn) : Prop :=
  w_flowst w' = w_flowst w /\ qman_inv (qman (w_ctx w'))
  /\ forall f, f ∈ F -> let fs := w_flowst w !!! f in
     (forall i, w_shm w' (vm_id fs) (rx_addr fs i) = w_shm w (vm_id fs) (rx_addr fs i))
     /\ (forall k, s_una (c_snd (C f)) <= k < s_end (c_snd (C f)) ->
         w_shm w' (vm_id fs) (tx_addr fs k) = w_shm w (vm_id fs) (tx_addr fs k)).

(** What the callers of the handlers guarantee. *)
Definition ev_pre (F : list Z) (w : world Q) (C : Z -> conn) (e : fp_ev) : Prop :=
  match e with
  | EvPacket _ p f o _ _ =>
      f ∈ F /\ ctx_room (w_ctx w) /\ packet_ok w C f (tcp_seg p o)
      /\ tcp_hdr_ok (p_tcp p) /\ 5 <= TCPH_HDRLEN (p_tcp p)
  | EvPacketGre _ p f o _ _ =>
      f ∈ F /\ ctx_room (w_ctx w) /\ packet_ok w C f (gre_seg p o)
  | EvQman vm f _ _ =>
      f ∈ F /\ ctx_room (w_ctx w) /\ 0 <= vm < FLEXNIC_PL_VMST_NUM
      /\ 0 <= f < FLEXNIC_NUM_QMFLOWQUEUES
      /\ let core := w_steering w !!! flow_group (w_flowst w !!! f) in
         core = ctx_id (w_ctx w) \/ rte_ring_has_room E (w_fwd w) core = true
  | EvQmanFwd f => f ∈ F
  | EvBump f _ rb tb _ _ _ =>
      f ∈ F /\ ctx_room (w_ctx w) /\ 0 <= f < FLEXNIC_NUM_QMFLOWQUEUES
      /\ is_u32 rb /\ is_u32 tb
      /\ tx_len (w_flowst w !!! f) <= rx_len (w_flowst w !!! f)
      /\ let fs := w_flowst w !!! f in
         let a := c_snd (C f) in
         s_end a + tb - s_una a <= tx_len fs ->
         forall k, s_end a <= k < s_end a + tb ->
           w_shm w (vm_id fs) (tx_addr fs k) = cc_app (cfg f) k
  | EvRetransmit f => f ∈ F /\ ctx_room (w_ctx w) /\ 0 <= f < FLEXNIC_NUM_QMFLOWQUEUES
  | EvWinRetransmit f _ _ => f ∈ F /\ ctx_room (w_ctx w)
  | EvEnv w' => env_ok F w w' C
  end.

(** The bytes that the steps [l] deliver, from stream position [r] on. *)
Fixpoint delivered (peer : Z -> Z) (r : Z) (l : list conn_ev) : list Z :=
  match l with
  | [] => []
  | ConnSnd _ :: l => delivered peer r l
  | ConnRcv n fin :: l =>
      map (fun i => peer (r + i)) (seqZ 0 n)
      ++ delivered peer (r + n + (if fin : bool then 1 else 0)) l
  end.

Lemma delivered_app cap peer c l c1 l' :
  conn_steps cap c l c1 ->
  delivered peer (c_rcv c) (l ++ l') = delivered peer (c_rcv c) l ++ delivered peer (c_rcv c1) l'.
Proof.
  induction 1 as [|c e c1 l c2 Hs _ IH]; [done|]. destruct Hs as [c e a' Hs|c n fin Hn]; cbn.
  - exact IH.
  - rewrite <- app_assoc. f_equal. exact IH.
Qed.

(** What the application has not freed of the bytes [d] that were delivered is in the
    receive buffer, in order, up to the position of the next byte. *)
Definition unread_ok (w : world Q) (f : Z) (d : list Z) : Prop :=
  let fs := w_flowst w !!! f in
  forall i x, 0 <= i < rx_len fs - rx_avail fs -> reverse d !! Z.to_nat i = Some x ->
    w_shm w (vm_id fs) (rx_addr fs (rx_next_pos fs - 1 - i)) = x.

(** The bytes [d] were delivered between [w] and [w']. *)
Definition adds (w w' : world Q) (f : Z) (d : list Z) : Prop :=
  forall d0, unread_ok w f d0 -> unread_ok w' f (d0 ++ d).

Lemma adds_nil (w w' : world Q) f :
  let fs := w_flowst w !!! f in let fs' := w_flowst w' !!! f in
  static_view fs' = static_view fs -> rx_next_pos fs' = rx_next_pos fs ->
  rx_avail fs <= rx_avail fs' ->
  (forall i, w_shm w' (vm_id fs) (rx_addr fs i) = w_shm w (vm_id fs) (rx_addr fs i)) ->
  adds w w' f [].
Proof.
  intros fs fs' Hsv Hp Ha Hm d0 Hd. apply static_view_eq in Hsv as (S1 & S2 & _ & _ & S5).
  rewrite app_nil_r. unfold unread_ok. fold fs'. cbv zeta. intros i x Hi Hx.
  unfold rx_addr in *. rewrite S1, S2, S5, Hp in *. rewrite Hm. apply Hd; fold fs; [lia|done].
Qed.

(** The receive positions before the window are not in it. *)
Lemma rx_addr_before fs k i :
  rx_ok fs -> 0 <= k < rx_len fs - rx_avail fs -> 0 <= i < rx_avail fs ->
  rx_addr fs (rx_next_pos fs - 1 - k) <> rx_addr fs (rx_next_pos fs + i).
Proof.
  intros [Hl Ha Hp _ _] Hk Hi He.
  assert (Er : rx_addr fs (rx_next_pos fs - 1 - k) = rx_addr fs (rx_next_pos fs + (rx_len fs - 1 - k))).
  { unfold rx_addr. f_equal. replace (rx_next_pos fs + (rx_len fs - 1 - k))
      with (rx_next_pos fs - 1 - k + 1 * rx_len fs) by lia. by rewrite Z.mod_add by lia. }
  rewrite Er in He. apply rx_addr_inj in He; lia.
Qed.

(** The bytes of [n] positions of the window are delivered. *)
Lemma adds_received (w w' : world Q) f strm n fin (g : Z -> Z) :
  let fs := w_flowst w !!! f in
  rx_ok fs -> static_view (w_flowst w' !!! f) = static_view fs ->
  received strm fs (w_shm w (vm_id fs)) (w_flowst w' !!! f) (w_shm w' (vm_id fs)) n fin ->
  (forall i, 0 <= i < n ->
     w_shm w' (vm_id fs) (rx_addr fs (rx_next_pos fs + i)) = g i) ->
  adds w w' f (map g (seqZ 0 n)).
Proof.
  intros fs Hok Hsv [_ _ _ _ [Hn Ha] Hp _ _ Hfr] Hg d0 Hd.
  apply static_view_eq in Hsv as (S1 & S2 & _ & _ & S5).
  set (fs' := w_flowst w' !!! f) in *. unfold unread_ok. fold fs'. cbv zeta. intros i x Hi Hx.
  assert (Eaddr : forall k, rx_addr fs' (rx_next_pos fs' + k) = rx_addr fs (rx_next_pos fs + n + k)).
  { intros k. unfold rx_addr. rewrite S1, S2, Hp. by rewrite Zplus_mod_idemp_l. }
  replace (rx_next_pos fs' - 1 - i) with (rx_next_pos fs' + (- 1 - i)) by lia.
  rewrite Eaddr, S5. rewrite S2 in Hi. rewrite reverse_app in Hx.
  assert (El : length (reverse (map g (seqZ 0 n))) = Z.to_nat n)
    by (by rewrite length_reverse, length_map, length_seqZ).
  destruct (decide (i < n)) as [Hlt|Hge].
  - rewrite lookup_app_l in Hx by lia. apply reverse_lookup_Some in Hx as [Hx Hli].
    rewrite length_map, length_seqZ in Hx, Hli.
    apply list_lookup_fmap_Some in Hx as (z & -> & Hz). apply lookup_seqZ in Hz as [-> _].
    replace (rx_next_pos fs + n + (- 1 - i)) with (rx_next_pos fs + (n - 1 - i)) by lia.
    rewrite Hg by lia. f_equal. lia.
  - rewrite lookup_app_r, El in Hx by lia.
    replace (rx_next_pos fs + n + (- 1 - i)) with (rx_next_pos fs - 1 - (i - n)) by lia.
    rewrite Hfr.
    + apply Hd; fold fs; [lia|]. replace (Z.to_nat (i - n)) with (Z.to_nat i - Z.to_nat n)%nat by lia. done.
    + intros k Hk. apply rx_addr_before; [done|lia|done].
Qed.

(** Every connection makes steps of its specification, and the bytes that they deliver are
    put into its receive buffer. *)
Definition conns_step (F : list Z) (w w' : world Q) (C C' : Z -> conn) : Prop :=
  forall f, f ∈ F -> exists l, conn_steps (tx_len (w_flowst w !!! f)) (C f) l (C' f)
    /\ adds w w' f (delivered (cc_peer (cfg f)) (c_rcv (C f)) l).

Definition ev_done (F : list Z) (w w' : world Q) (C : Z -> conn) : Prop :=
  exists C', sys_ok F w' C' /\ conns_step F w w' C C'
  /\ forall f, f ∈ F ->
       static_view (w_flowst w' !!! f) = static_view (w_flowst w !!! f).

(** A flow that the handler of flow [f] does not work on. *)
Lemma adds_other F (w w' : world Q) C f g :
  sys_ok F w C -> f ∈ F -> g ∈ F -> g <> f ->
  w_flowst w' !! g = w_flowst w !! g -> shm_frame w w' f -> adds w w' g [].
Proof.
  intros [Sc Sa _] Hf Hg Hne Ho Hm.
  assert (Er : w_flowst w' !!! g = w_flowst w !!! g) by (by rewrite !lookup_total_alt, Ho).
  apply adds_nil; rewrite ?Er; try done.
  intros i. apply Hm. intros Hv Hin. destruct (Sc g Hg) as [[K1 _ _ _ _ _] _ K8 _].
  assert (Hr : 0 < rx_len (w_flowst w !!! g)) by (destruct K1; lia).
  assert (Ht : 0 < tx_len (w_flowst w !!! g)) by (destruct K8; lia).
  destruct (apart_addr w f g _ i Hr Ht (Sa f g Hf Hg) (eq_sym Hv) Hin) as [H1 _]. by apply H1.
Qed.

Lemma ev_done_step F (w w' : world Q) C f c' l :
  sys_ok F w C -> f ∈ F ->
  (forall g, g <> f -> w_flowst w' !! g = w_flowst w !! g) ->
  static_view (w_flowst w' !!! f) = static_view (w_flowst w !!! f) ->
  shm_frame w w' f -> qman_inv (qman (w_ctx w')) -> conn_ok w' f c' ->
  conn_steps (tx_len (w_flowst w !!! f)) (C f) l c' ->
  adds w w' f (delivered (cc_peer (cfg f)) (c_rcv (C f)) l) -> ev_done F w w' C.
Proof.
  intros Hs Hf Ho Hst Hm Hq Hc Hl Ha. exists (cupd C f c').
  split; [by apply (sys_ok_step F w)|]. split.
  - intros g Hg. unfold cupd. destruct (decide (g = f)) as [->|Hne]; [by exists l|].
    exists []. split; [constructor|]. eapply (adds_other F w w' C f g); eauto.
  - intros g Hg. destruct (decide (g = f)) as [->|Hne]; [done|].
    by rewrite !lookup_total_alt, Ho.
Qed.

Lemma ev_done_framed F grow (w w' : world Q) C f a' l :
  sys_ok F w C -> f ∈ F -> framed grow w w' f ->
  (grow = true -> rx_avail (w_flowst w !!! f) <= rx_avail (w_flowst w' !!! f)) ->
  qman_inv (qman (w_ctx w')) ->
  conn_ok w' f (mk_conn a' (c_rcv (C f))) ->
  (forall r, conn_steps (tx_len (w_flowst w !!! f)) (mk_conn (c_snd (C f)) r) l (mk_conn a' r)) ->
  (forall peer r, delivered peer r l = []) -> ev_done F w w' C.
Proof.
  intros Hs Hf Hfr Hav Hq Hc Hl Hd. pose proof (framed_shm _ _ _ _ Hfr) as Hm.
  destruct Hfr as [Ho (Hst & _ & Hp & Hg) Hmem].
  apply (ev_done_step F w w' C f (mk_conn a' (c_rcv (C f))) l); try done.
  - specialize (Hl (c_rcv (C f))). by destruct (C f).
  - rewrite Hd. apply adds_nil; try done; [|by rewrite Hmem].
    destruct grow; [by apply Hav|]. by rewrite Hg.
Qed.

Lemma snd_conn_steps cap a e a' r :
  snd_step cap a e a' -> conn_steps cap (mk_conn a r) [ConnSnd e] (mk_conn a' r).
Proof. intros. apply conn_steps_one. by apply (cs_snd _ (mk_conn a r)). Qed.

Lemma packet_ev_ok F (w : world Q) C f s send_ack sb ts :
  sys_ok F w C -> f ∈ F -> ctx_room (w_ctx w) -> packet_ok w C f s ->
  (forall ctx fs, rx_ok fs -> 0 <= tx_num ctx < TXBUF_SIZE -> exists hs,
     send_ack ctx fs = Some (ctx <| tx_handles := hs |>
                                 <| tx_num := tx_num ctx + 1 |>)) ->
  exists w' ret, rx_handler E s send_ack w f sb ts = Some (w', ret) /\ ev_done F w w' C.
Proof.
  intros Hs Hf Hroom ((k & Hk) & Hwnd & Hackno & Hgap) Hack.
  pose proof (sy_conn _ _ _ Hs f Hf) as Hc.
  destruct (rx_handler_ok E (strm_at (cc_peer (cfg f)) (cc_irs (cfg f)) (c_rcv (C f)))
    (cc_isn (cfg f)) s send_ack w f sb ts (c_snd (C f)))
    as (w' & ret & n & t & fin & Er & Hd); try done.
  { apply Hc. }
  { split; [apply Hs|done]. }
  { by eapply seg_at_ok. }
  exists w', ret. split; [done|].
  destruct (packet_done_conn w w' f (C f) s n t fin Hc (sy_apart _ _ _ Hs f f Hf Hf) Hd)
    as (a' & evs & Hst & Hev & Hc' & Hsv & Hm & Hbytes).
  destruct Hd as [Hrx _ _ _ Hq _ _ Ho].
  eapply (ev_done_step F w w' C f); try done.
  assert (Ed : delivered (cc_peer (cfg f)) (c_rcv (C f)) (evs ++ [ConnRcv n fin])
               = map (fun i => cc_peer (cfg f) (c_rcv (C f) + i)) (seqZ 0 n)).
  { by destruct Hev as [->| ->]; cbn; rewrite app_nil_r. }
  rewrite Ed. by eapply adds_received; [apply Hc| |exact Hrx|].
Qed.

Lemma bump_ev_ok F (w : world Q) C f sq rb tb fl nbh ts :
  sys_ok F w C -> ev_pre F w C (EvBump f sq rb tb fl nbh ts) ->
  exists w' r, fast_flows_bump E w f sq rb tb fl nbh ts = Some (w', r)
  /\ ev_done F w w' C.
Proof.
  intros Hs (Hf & Hroom & Hfid & Hrb & Htb & Hlen & Hdata).
  pose proof (sy_conn _ _ _ Hs f Hf) as Hc. pose proof Hc as [K1 K7 K8 K9].
  destruct (fast_flows_bump_cases E _ _ w f sq rb tb fl nbh ts (c_snd (C f)) K1
    (conj (sy_qman _ _ _ Hs) Hroom) Hfid K8 Hrb Htb Hlen) as (w' & r & Er & Hq & Hcases).
  exists w', r. split; [done|].
  apply fast_flows_bump_frame in Er.
  destruct Hcases as [(_ & Ew & Hfo)|(_ & _ & Hst & Hfo & Ha)].
  - apply (ev_done_framed F true w w' C f (c_snd (C f)) []); try done.
    + rewrite Ew. cbn. by rewrite lookup_total_insert_eq.
    + by apply (conn_ok_tx true w).
    + intros. constructor.
  - set (n := tx_bump_eff (w_flowst w !!! f) tb) in *.
    eapply (ev_done_framed F true w w' C f _ [ConnSnd (SndPush n)]); try done.
    + rewrite Ha. unfold is_u32 in Hrb. lia.
    + apply (conn_ok_tx true w); [done|done|exact Hfo|].
      intros k Hk. cbn [s_una s_end] in Hk.
      destruct (decide (k < s_end (c_snd (C f)))); [apply K9; lia|].
      assert (n = tb) as En by (subst n; unfold tx_bump_eff in *; case_match; lia).
      inversion Hst. apply Hdata; lia.
    + intros. by apply snd_conn_steps.
Qed.

Lemma qman_ev_ok F (w : world Q) C vm f nbh ts :
  sys_ok F w C -> ev_pre F w C (EvQman vm f nbh ts) ->
  exists w' r, fast_flows_qman E w vm f nbh ts = Some (w', r) /\ ev_done F w w' C.
Proof.
  intros Hs (Hf & Hroom & Hvm & Hfid & Hcore). cbv zeta in Hcore.
  pose proof (sy_conn _ _ _ Hs f Hf) as Hc. pose proof Hc as [K1 K7 K8 K9].
  pose proof (sy_qman _ _ _ Hs) as Hq.
  assert (Hsame : forall w' : world Q, framed false w w' f -> qman_inv (qman (w_ctx w')) ->
    flow_ok E (strm_at (cc_peer (cfg f)) (cc_irs (cfg f)) (c_rcv (C f))) (cc_isn (cfg f))
      w' f (c_snd (C f)) -> ev_done F w w' C).
  { intros w' Hfr Hq' Hfo.
    apply (ev_done_framed F false w w' C f (c_snd (C f)) []); try done.
    - by apply (conn_ok_tx false w).
    - intros. constructor. }
  destruct (decide (w_steering w !!! flow_group (w_flowst w !!! f) = ctx_id (w_ctx w)))
    as [Hst|Hst].
  - assert (Hav0 : 0 <= tcp_txavail (w_flowst w !!! f) None).
    { pose proof K1 as [_ _ _ [_ (H1 & H2 & H3) H4 H5 _ _] [H6 _ _] _].
      apply (tcp_txavail_bound _ None); cside. }
    destruct (decide (tcp_txavail (w_flowst w !!! f) None = 0)) as [Hz|Hz].
    + destruct (fast_flows_qman_idle E _ _ w f vm nbh ts (c_snd (C f)) K1 Hst Hz)
        as (w' & Er & Hctx & Hfo). exists w', (-1). split; [done|].
      apply Hsame; [by eapply fast_flows_qman_frame|by rewrite Hctx|done].
    + destruct (fast_flows_qman_send E _ _ (cc_app (cfg f)) w f vm nbh ts (c_snd (C f)) K1
        (conj Hq Hroom) K8 K9 Hst ltac:(lia)) as (w' & n & fin & p & Er & Hsent).
      exists w', 0. split; [done|]. apply fast_flows_qman_frame in Er as Hfr.
      destruct Hsent as [Hstep Hn _ _ Hfo _ _ _ Hqs].
      eapply (ev_done_framed F false w w' C f _ [ConnSnd (SndSend n)]); try done.
      * by apply (conn_ok_tx false w).
      * intros. by apply snd_conn_steps.
  - destruct Hcore as [?|Hcore]; [done|].
    destruct (fast_flows_qman_moved E _ _ w f vm nbh ts (c_snd (C f)) _ K1 (conj Hq Hroom)
      Hvm Hfid eq_refl Hst Hcore) as (w' & Er & _ & _ & Hfo & Hq' & _).
    exists w', (-1). split; [done|]. apply Hsame; try done.
    by eapply fast_flows_qman_frame.
Qed.

Lemma env_ev_ok F (w w' : world Q) C :
  sys_ok F w C -> env_ok F w w' C -> ev_done F w w' C.
Proof.
  intros [Sc Sa Sq] (Hfs & Hq & Hm). exists C.
  split; [|split; [|by rewrite Hfs]].
  2: { intros f Hf. exists []. split; [constructor|].
       apply adds_nil; rewrite ?Hfs; try done. by apply Hm. }
  constructor; [|intros f g Hf Hg; apply (apart_static w); by rewrite ?Hfs; auto|done].
  intros f Hf. destruct (Sc f Hf) as [[K1 K2 K3 K4 K5 K6] K7 K8 K9].
  destruct (Hm f Hf) as [Hrx Htx]. cbv zeta in Hrx, Htx.
  constructor; [constructor|..]; rewrite ?Hfs; try done.
  - intros i Hi. rewrite Hrx. by apply K3.
  - intros k Hk. rewrite Htx by done. by apply K9.
Qed.

Lemma fp_exec_ok F (w : world Q) C e :
  sys_ok F w C -> ev_pre F w C e ->
  exists w', fp_exec w e = Some w' /\ ev_done F w w' C.
Proof.
  intros Hs He. pose proof (sy_qman _ _ _ Hs) as Hq. destruct e; cbn [fp_exec].
  - destruct He as (Hf & Hroom & Hp & Hh & H5).
    destruct (packet_ev_ok F w C fid _ (fun ctx fs => flow_tx_ack E ctx fs (tx_next_seq fs)
      (rx_next_seq fs) (rx_avail fs) (tx_next_ts fs) ts nbh p ts_opt) spend ts Hs Hf Hroom Hp)
      as (w' & r & Er & Hd).
    { intros ctx fs [? [? ?] ? ? ?] Ht.
      destruct (flow_tx_ack_ok E ctx fs (tx_next_seq fs) (rx_next_seq fs) (rx_avail fs)
        (tx_next_ts fs) ts nbh p ts_opt) as (pk & xs & -> & _); try done. by eexists. }
    unfold fast_flows_packet. rewrite Er. by eexists.
  - destruct He as (Hf & Hroom & Hp).
    destruct (packet_ev_ok F w C fid _ (fun ctx fs => flow_tx_ack_gre E ctx fs (tx_next_seq fs)
      (rx_next_seq fs) (rx_avail fs) (tx_next_ts fs) ts nbh p ts_opt) spend ts Hs Hf Hroom Hp)
      as (w' & r & Er & Hd).
    { intros ctx fs _ Ht. by apply flow_tx_ack_gre_send. }
    unfold fast_flows_packet_gre. rewrite Er. by eexists.
  - destruct (qman_ev_ok F w C vm fid nbh ts Hs He) as (w' & r & -> & Hd). by eexists.
  - destruct (fast_flows_qman_fwd_ok w fid (C fid) (sy_conn _ _ _ Hs _ He) Hq)
      as (w' & -> & Hfr & Hq' & Hc). eexists. split; [done|].
    apply (ev_done_framed F false w w' C fid (c_snd (C fid)) []); try done.
    + by destruct (C fid).
    + intros. constructor.
  - destruct (bump_ev_ok F w C fid bseq rx_bump tx_bump flags nbh ts Hs He)
      as (w' & r & -> & Hd). by eexists.
  - destruct He as (Hf & Hroom & Hfid). pose proof (sy_conn _ _ _ Hs _ Hf) as Hc.
    pose proof Hc as [K1 K7 K8 K9].
    destruct (fast_flows_retransmit_ok E _ _ w fid (c_snd (C fid)) K1 (conj Hq Hroom) Hfid)
      as (w' & Er & Hfo & Hq' & _). exists w'. split; [done|].
    apply fast_flows_retransmit_frame in Er.
    eapply (ev_done_framed F false w w' C fid _ [ConnSnd SndRewind]); try done.
    + by apply (conn_ok_tx false w).
    + intros. apply snd_conn_steps. constructor.
  - destruct He as (Hf & Hroom).
    destruct (fast_flows_winretransmit_ok w fid (C fid) nbh ts (sy_conn _ _ _ Hs _ Hf)
      (conj Hq Hroom)) as (w' & -> & Hfr & Hq' & Hc). eexists. split; [done|].
    apply (ev_done_framed F false w w' C fid (c_snd (C fid)) []); try done.
    + by destruct (C fid).
    + intros. constructor.
  - eexists. split; [done|]. by apply env_ev_ok.
Qed.

(** The events of a run meet the guarantees of the callers, whatever the
    connections do. *)
Fixpoint run_pre (F : list Z) (w : world Q) (C : Z -> conn) (es : list fp_ev) : Prop :=
  match es with
  | [] => True
  | e :: es => ev_pre F w C e
      /\ forall w' C', fp_exec w e = Some w' -> sys_ok F w' C' -> conns_step F w w' C C' ->
           run_pre F w' C' es
  end.

Lemma conns_step_trans F (w w1 w2 : world Q) C C1 C2 :
  (forall f, f ∈ F -> static_view (w_flowst w1 !!! f) = static_view (w_flowst w !!! f)) ->
  conns_step F w w1 C C1 -> conns_step F w1 w2 C1 C2 -> conns_step F w w2 C C2.
Proof.
  intros Hsv H1 H2 f Hf. destruct (H1 f Hf) as (l1 & Hl1 & Ha1).
  destruct (H2 f Hf) as (l2 & Hl2 & Ha2).
  specialize (Hsv f Hf). apply static_view_eq in Hsv as (_ & _ & _ & E4 & _).
  rewrite E4 in Hl2. exists (l1 ++ l2). split; [by eapply conn_steps_app|].
  rewrite (delivered_app _ _ _ _ _ _ Hl1). intros d0 Hd. rewrite app_assoc. by apply Ha2, Ha1.
Qed.

Lemma fp_run_done F es (w : world Q) C :
  sys_ok F w C -> run_pre F w C es ->
  exists w', fp_run w es = Some w' /\ ev_done F w w' C.
Proof.
  revert w C. induction es as [|e es IH]; intros w C Hs Hp.
  - exists w. split; [done|]. exists C.
    split; [done|]. split; [|done]. intros f _. exists []. split; [constructor|].
    by apply adds_nil.
  - destruct Hp as [He Hp]. cbn [fp_run].
    destruct (fp_exec_ok F w C e Hs He) as (w1 & E1 & C1 & Hs1 & Hc1 & Hv1).
    destruct (IH w1 C1 Hs1 (Hp w1 C1 E1 Hs1 Hc1)) as (w2 & E2 & C2 & Hs2 & Hc2 & Hv2).
    rewrite E1. cbn [mbind option_bind]. exists w2. split; [done|].
    exists C2. split; [done|]. split; [by eapply conns_step_trans|].
    intros f Hf. by rewrite Hv2, Hv1.
Qed.
End System.
