(* ===== verification/Examples.v ===== *)
(** * A concrete fast path

    One flow on a small shared memory, with the queue manager of qman.c: the
    state the witnesses start from. *)

From S2P Require Import Prelude FpTypes Rng Links Qman QmanProofs QmanPoll.
From S2P Require Import TcpCommon FlowTx FlowRx FlowOps Sender FlowProofs.
From S2P Require Import FlowHandlers FlowLive.
From S2P Require Import FastPath.

Definition ex_env : fpenv :=
  mk_fpenv 65536 false 1000000 (SpecFloat.S754_zero false) 0
    (fun _ => 0) (fun _ _ _ => 0) (fun a b => u32 (a + b)) (fun a b => u32 (a + b))
    (fun _ _ => true).

(** Receive buffer at 0, transmit buffer at 4096; 100 bytes to send.  [b] is a
    set of flags, [l] the length of an out-of-order interval 16 bytes ahead,
    [core] the core of the flow group. *)
Definition ex_fs (b l : Z) : flowst :=
  flowst_zero <| rx_base_sp := b |> <| rx_len := 1024 |> <| tx_base := 4096 |>
    <| tx_len := 1024 |> <| out_local_ip := 1 |> <| out_remote_ip := 2 |>
    <| local_port := 80 |> <| remote_port := 90 |> <| rx_avail := 1024 |>
    <| rx_next_seq := 5000 |> <| rx_ooo_start := 5016 |> <| rx_ooo_len := l |>
    <| rx_remote_avail := 2000 |> <| tx_avail := 90 |> <| tx_sent := 10 |>
    <| tx_next_pos := 10 |> <| tx_next_seq := 1010 |> <| opaque := 77 |>.

Definition ex_ctx : dataplane_context qman_thread :=
  mk_dpctx 0 (tas_qman_thread_init (fun _ => false) (fun _ => 0) 0) ∅ ∅ ∅ 0 ∅ 0 0 ∅
    (list_to_map (map (fun i => (i, 1000000)) (seqZ 0 FLEXNIC_PL_VMST_NUM))).

(** The transmit buffer holds 7s, the receive buffer 9s. *)
Definition ex_mem : mem := fun a => if a <? 4096 then 9 else 7.

Definition ex_world (b l core : Z) : world qman_thread :=
  mk_world {[ 3 := ex_fs b l ]} ∅ {[ 0 := core ]} (fun _ => ex_mem) ex_ctx [] [].

(** The application writes 7s, the peer sends 9s. *)
Definition ex_cfg (f : Z) : conn_cfg := mk_conn_cfg 1000 5000 (fun _ => 7) (fun _ => 9).
Definition ex_conn (f : Z) : conn := mk_conn (mk_snd 0 10 100) 0.

Lemma ex_mem_rx fs p : rx_base fs = 0 -> rx_len fs = 1024 -> ex_mem (rx_addr fs p) = 9.
Proof.
  intros Hb Hl. unfold ex_mem, rx_addr. rewrite Hb, Hl.
  pose proof (Z.mod_pos_bound p 1024 eq_refl).
  destruct (Z.ltb_spec (0 + p mod 1024) 4096); [done|lia].
Qed.

Lemma ex_mem_tx fs k : tx_base fs = 4096 -> tx_len fs = 1024 -> ex_mem (tx_addr fs k) = 7.
Proof.
  intros Hb Hl. unfold ex_mem, tx_addr. rewrite Hb, Hl.
  pose proof (Z.mod_pos_bound k 1024 eq_refl).
  destruct (Z.ltb_spec (4096 + k mod 1024) 4096); [lia|done].
Qed.

Lemma ex_flow_ok b l core :
  b = 0 \/ b = FLEXNIC_PL_FLOWST_RXFIN -> l = 0 \/ l = 10 ->
  flow_ok ex_env (strm_at (fun _ => 9) 5000 0) 1000 (ex_world b l core) 3 (mk_snd 0 10 100).
Proof.
  intros [->| ->] [->| ->].
  all: constructor;
    [constructor; vm_compute; intuition congruence|vm_compute; intuition congruence| |
     constructor; vm_compute; intuition congruence|constructor; vm_compute; intuition congruence
     |reflexivity].
  all: intros i Hi; by apply ex_mem_rx.
Qed.

Lemma ex_conn_ok b l core :
  b = 0 \/ b = FLEXNIC_PL_FLOWST_RXFIN -> l = 0 \/ l = 10 ->
  conn_ok ex_env ex_cfg (ex_world b l core) 3 (ex_conn 3).
Proof.
  intros Hb Hl. constructor; [by apply ex_flow_ok|reflexivity|..].
  - destruct Hb as [->| ->], Hl as [->| ->]; vm_compute; intuition congruence.
  - intros k Hk. by apply ex_mem_tx.
Qed.

Lemma ex_sys_ok b l core :
  b = 0 \/ b = FLEXNIC_PL_FLOWST_RXFIN -> l = 0 \/ l = 10 ->
  sys_ok ex_env ex_cfg [3] (ex_world b l core) ex_conn.
Proof.
  intros Hb Hl. constructor.
  - intros f Hf. apply list_elem_of_singleton in Hf as ->. by apply ex_conn_ok.
  - intros f g Hf Hg. apply list_elem_of_singleton in Hf as ->.
    apply list_elem_of_singleton in Hg as ->. intros _.
    split; [done|]. left. destruct Hb as [->| ->]; vm_compute; congruence.
  - apply (pl_wf _ (qman_init_pollable (fun _ => false) (fun _ => 0) 0)).
Qed.

(** A segment of [plen] bytes. *)
Definition ex_pkt (plen seq ack fl : Z) : pkt_tcp :=
  mk_pkt_tcp (mk_eth 0 0 (t_beui16 ETH_TYPE_IP))
    (mk_ip 69 0 (t_beui16 (52 + plen)) 0 0 64 IP_PROTO_TCP 0 2 1)
    (TCPH_HDRLEN_FLAGS_SET 8 fl
       (mk_tcp 90 80 (t_beui32 seq) (t_beui32 ack) 0 (t_beui16 2000) 0 0))
    (fun i => if i =? 0 then TCP_OPT_TIMESTAMP else if i =? 1 then sizeof_ts_opt
              else if i <? 12 then 0 else 9).

Definition ex_rxbuf : rxbuf := mk_rxbuf 1 128 (66 + 16).

(** 16 bytes at the start of the peer's stream, acknowledging 4 bytes. *)
Definition ex_p : pkt_tcp := ex_pkt 16 5000 1004 TAS_TCP_ACK.

Lemma ex_seg_at : seg_at (cc_peer (ex_cfg 3)) (cc_irs (ex_cfg 3)) (c_rcv (ex_conn 3))
  (tcp_seg ex_p 0) 0.
Proof.
  constructor; try (vm_compute; intuition congruence).
  intros i Hi. assert (0 <= i < 16) as Hi' by exact Hi.
  change (sg_rest (tcp_seg ex_p 0) (12 + i) = 9). cbn.
  destruct (Z.eqb_spec (12 + i) 0); [lia|]. destruct (Z.eqb_spec (12 + i) 1); [lia|].
  destruct (Z.ltb_spec (12 + i) 12); [lia|done].
Qed.

Lemma ex_packet_ok b l core :
  packet_ok ex_cfg (ex_world b l core) ex_conn 3 (tcp_seg ex_p 0).
Proof.
  split; [exists 0; apply ex_seg_at|].
  split; [vm_compute; intuition congruence|]. split; [vm_compute; intuition congruence|].
  intros (Hg & _). vm_compute in Hg. congruence.
Qed.

Lemma ex_ctx_room b l core : ctx_room (w_ctx (ex_world b l core)).
Proof. vm_compute. intuition congruence. Qed.
