(* ===== verification/TcpThms.v ===== *)
(** * Properties of tas/fast/tcp_common.h

    The window arithmetic on wrapping 32-bit sequence numbers against integer
    specifications, and the behaviour of the TCP option parser. *)

From S2P Require Import Prelude FpTypes TcpCommon Examples.

(** ** Receive window *)

(** C28: trimming a segment of [n] bytes to the receive window computes the
    intersection with the window from the signed distance of the sequence
    number, and rejects exactly the segments that do not touch the window,
    except in the case [trim_gap] that the third branch misses: there it trims
    nothing although the segment ends past the window. *)
Theorem tcp_trim_rxbuf_exact fs seq n :
  window_ok fs -> is_u32 seq -> is_u16 n ->
  (~ trim_gap fs seq n ->
   tcp_trim_rxbuf fs seq n
   = trim_spec (seq_dist seq (rx_next_seq fs)) n (rx_avail fs))
  /\ (trim_gap fs seq n ->
      tcp_trim_rxbuf fs seq n = Some (0, 0)
      /\ exists over, 0 < over
         /\ trim_spec (seq_dist seq (rx_next_seq fs)) n (rx_avail fs)
            = Some (0, over)).
Proof.
  intros Hw Hs Hn. split; [by apply tcp_trim_rxbuf_spec|]. intros Hg.
  destruct (tcp_trim_rxbuf_overrun fs seq n Hw Hs Hn Hg) as (-> & Hd & Ho).
  split; [done|]. exists (seq_dist seq (rx_next_seq fs) + n - rx_avail fs).
  split; [lia|]. unfold trim_spec, is_u16 in *.
  set (d := seq_dist _ _) in *. clearbody d. repeat zcase; lia || (do 2 f_equal; lia).
Qed.

(** A flow whose window is [next, next + avail). *)
Definition wnd (next avail : Z) : flowst :=
  ex_fs 0 0 <| rx_next_seq := next |> <| rx_avail := avail |>.

Lemma tcp_trim_rxbuf_exact_witness :
  (* a segment that starts 10 bytes before a wrapping window *)
  tcp_trim_rxbuf (wnd 4294967290 100) 4294967280 50 = Some (10, 0)
  /\ (* the missed case: 100 bytes that start 20 bytes before the end *)
  tcp_trim_rxbuf (wnd 4294967000 290) 4294967270 100 = Some (0, 0)
  /\ exists over, 0 < over
     /\ trim_spec (seq_dist 4294967270 4294967000) 100 290 = Some (0, over).
Proof.
  assert (W1 : window_ok (wnd 4294967290 100)) by (split; cbn; cside).
  assert (W2 : window_ok (wnd 4294967000 290)) by (split; cbn; cside).
  split.
  - rewrite (proj1 (tcp_trim_rxbuf_exact (wnd 4294967290 100) 4294967280 50 W1
      ltac:(cside) ltac:(cside))); [reflexivity|].
    intros (_ & H & _). vm_compute in H. discriminate H.
  - apply (proj2 (tcp_trim_rxbuf_exact (wnd 4294967000 290) 4294967270 100 W2
      ltac:(cside) ltac:(cside))).
    repeat split; vm_compute; congruence.
Defined.

(** A segment that carries the next expected sequence number but whose end
    wraps around 2^32 is dropped by [tcp_valid_rxseq] when the window itself does
    not wrap. *)
Theorem tcp_valid_rxseq_drops fs seq n :
  window_ok fs -> is_u32 seq -> is_u16 n ->
  u32 (seq + n) < seq -> rx_next_seq fs <= u32 (rx_next_seq fs + rx_avail fs) ->
  rx_next_seq fs = seq -> tcp_valid_rxseq fs seq n = None.
Proof.
  intros [Hn Hw] Hs Hb Hwrap Hns Heq.
  unfold tcp_valid_rxseq. rewrite (u16_id n) by done.
  trim_facts fs seq n.
  all: unfold is_u16, is_u32 in *; zdecide; reflexivity.
Qed.

Lemma tcp_valid_rxseq_drops_witness :
  tcp_valid_rxseq (wnd 4294967200 50) 4294967200 100 = None.
Proof.
  apply (tcp_valid_rxseq_drops (wnd 4294967200 50)); try (vm_compute; congruence);
    [split; cbn; cside|cside|cside].
Defined.

(** ** Acknowledgements and send window *)

(** An acknowledgement number is accepted with [k] acknowledged bytes exactly
    when it is the oldest unacknowledged sequence number plus [k], modulo 2^32,
    for a [k] of at most the sent and the unsent bytes of the buffer. *)
Theorem tcp_valid_rxack_iff fs ack k :
  is_u32 (tx_next_seq fs) -> is_u32 ack -> 0 <= tx_sent fs -> 0 <= tx_avail fs ->
  tx_sent fs + tx_avail fs < 4294967296 ->
  tcp_valid_rxack fs ack = Some k
  <-> 0 <= k <= tx_sent fs + tx_avail fs /\ ack = u32 (snd_una fs + k).
Proof.
  intros Hn Ha Hs Hv Ht. rewrite tcp_valid_rxack_spec by done.
  assert (Hu : is_u32 (snd_una fs)) by apply u32_range.
  pose proof (u32_range (ack - snd_una fs)) as Hr.
  destruct (Z.leb_spec (u32 (ack - snd_una fs)) (tx_sent fs + tx_avail fs)).
  - split; [intros [= <-]; split; [cside|]|intros (Hk & ->); f_equal].
    + rewrite u32_add_r. replace (_ + _) with ack by lia. by rewrite u32_id.
    + rewrite u32_sub_l. replace (_ - _) with k by lia. apply u32_id. cside.
  - split; [done|]. intros (Hk & ->). exfalso. rewrite u32_sub_l in *.
    replace (_ - _) with k in * by lia. rewrite u32_id in * by cside. lia.
Qed.

Lemma tcp_valid_rxack_iff_witness :
  tcp_valid_rxack (ex_fs 0 0 <| tx_next_seq := 10 |> <| tx_sent := 30 |>
                   <| tx_avail := 5 |>) 12 = Some 32.
Proof.
  apply (tcp_valid_rxack_iff (ex_fs 0 0 <| tx_next_seq := 10 |>
    <| tx_sent := 30 |> <| tx_avail := 5 |>) 12 32); try (cbn; cside).
  split; [cbn; lia|reflexivity].
Defined.

(** [tcp_txavail] is the largest number of bytes that the send buffer holds
    and that the window of the peer still allows on top of the bytes in
    flight. *)
Theorem tcp_txavail_largest fs pavail n :
  0 <= tx_sent fs -> 0 <= rx_remote_avail fs ->
  0 <= (match pavail with Some a => a | None => tx_avail fs end) -> 0 < n ->
  n <= tcp_txavail fs pavail
  <-> n <= (match pavail with Some a => a | None => tx_avail fs end)
      /\ tx_sent fs + n <= rx_remote_avail fs.
Proof.
  intros. unfold tcp_txavail.
  destruct (Z.ltb_spec (rx_remote_avail fs) (tx_sent fs)), pavail;
    repeat zcase; lia.
Qed.

Lemma tcp_txavail_largest_witness :
  500 <= tcp_txavail (ex_fs 0 0 <| tx_sent := 100 |> <| tx_avail := 900 |>
                      <| rx_remote_avail := 600 |>) None.
Proof.
  apply (tcp_txavail_largest (ex_fs 0 0 <| tx_sent := 100 |>
    <| tx_avail := 900 |> <| rx_remote_avail := 600 |>) None 500); cbn; lia.
Defined.

(** ** Options *)

(** A packet of header length [4 * n] whose options are [opts], then zeros. *)
Definition opt_pkt (n : Z) (opts : list Z) : pkt_tcp :=
  mk_pkt_tcp (mk_eth 0 0 (t_beui16 ETH_TYPE_IP))
    (mk_ip 69 0 (t_beui16 (20 + 4 * n)) 0 0 64 IP_PROTO_TCP 0 2 1)
    (TCPH_HDRLEN_FLAGS_SET n TAS_TCP_ACK (mk_tcp 90 80 0 0 0 0 0 0))
    (fun i => nth (Z.to_nat i) opts 0).

Lemma opt_pkt_bytes n opts : Forall is_u8 opts -> opts_bytes (p_rest (opt_pkt n opts)).
Proof.
  intros Hf i. cbn. destruct (nth_in_or_default (Z.to_nat i) opts 0) as [H| ->]; [|cside].
  rewrite Forall_forall in Hf. by apply Hf, list_elem_of_In.
Qed.

(** No-op, no-op, time stamp option. *)
Definition ex_opts : list Z :=
  [TCP_OPT_NO_OP; TCP_OPT_NO_OP; TCP_OPT_TIMESTAMP; sizeof_ts_opt; 1; 2; 3; 4; 5; 6; 7; 8].

(** The option parser runs forever exactly on the packets that pass the
    length checks and on which it comes to an option (not a time stamp) whose
    length byte is 0; on all others it returns within 41 iterations, as there
    are at most 40 bytes of options. *)
Theorem tcp_parse_options_hangs_iff p len fuel :
  tcp_hdr_ok (p_tcp p) -> opts_bytes (p_rest p) -> (41 <= fuel)%nat ->
  tcp_parse_options fuel p len = ParseFuel
  <-> 5 <= TCPH_HDRLEN (p_tcp p)
      /\ opts_len_of (p_tcp p) <= u64 (len - sizeof_pkt_tcp)
      /\ opt_stuck (p_rest p) (opts_len_of (p_tcp p)) 0.
Proof.
  intros Hh Hb Hf. unfold tcp_parse_options, tcp_parse_hdr.
  fold (opts_len_of (p_tcp p)).
  destruct (Z.ltb_spec (TCPH_HDRLEN (p_tcp p)) 5); cbn [orb]; [split; [done|lia]|].
  destruct (opts_len_of_range _ Hh ltac:(lia)) as [_ ?].
  destruct (Z.ltb_spec (u64 (len - sizeof_pkt_tcp)) (opts_len_of (p_tcp p)));
    [split; [done|lia]|].
  split.
  - intros Hp. repeat split; [done..|]. eapply tcp_opt_loop_stuck, Hp; (done || lia).
  - intros (_ & _ & Hs). apply tcp_opt_loop_diverges; (done || lia).
Qed.

Lemma tcp_parse_options_hangs_iff_witness :
  tcp_parse_options 1000 (opt_pkt 7 [TCP_OPT_NO_OP; 30; 0; 0]) 62 = ParseFuel
  /\ tcp_parse_options 41 (opt_pkt 8 ex_opts) 66 = ParseOk (Some 2)
  /\ ~ opt_stuck (p_rest (opt_pkt 8 ex_opts)) (opts_len_of (p_tcp (opt_pkt 8 ex_opts))) 0.
Proof.
  split.
  - apply (tcp_parse_options_hangs_iff (opt_pkt 7 [TCP_OPT_NO_OP; 30; 0; 0]) 62).
    + vm_compute. intuition congruence.
    + apply opt_pkt_bytes. repeat constructor; vm_compute; intuition congruence.
    + apply Nat.leb_le. reflexivity.
    + split; [vm_compute; congruence|]. split; [vm_compute; congruence|].
      exists 1. split; [|vm_compute; intuition congruence].
      apply reach_nop; [vm_compute; congruence|reflexivity|apply reach_here].
  - split; [reflexivity|]. intros Hs.
    assert (E : tcp_parse_options 41 (opt_pkt 8 ex_opts) 66 = ParseFuel).
    { apply (tcp_parse_options_hangs_iff (opt_pkt 8 ex_opts) 66 41);
        [vm_compute; intuition congruence| |lia|].
      - apply opt_pkt_bytes. repeat constructor; vm_compute; intuition congruence.
      - repeat split; [vm_compute; congruence..|exact Hs]. }
    discriminate E.
Defined.

(** A timestamp pointer points to a timestamp option whose kind and length
    bytes are inside the options. *)
Theorem tcp_parse_options_ts p len fuel t :
  tcp_hdr_ok (p_tcp p) ->
  tcp_parse_options fuel p len = ParseOk (Some t) ->
  0 <= t /\ t + 2 <= opts_len_of (p_tcp p)
  /\ opts_len_of (p_tcp p) <= u64 (len - sizeof_pkt_tcp)
  /\ p_rest p t = TCP_OPT_TIMESTAMP /\ p_rest p (t + 1) = sizeof_ts_opt.
Proof.
  intros Hh. unfold tcp_parse_options, tcp_parse_hdr.
  fold (opts_len_of (p_tcp p)).
  destruct (Z.ltb_spec (TCPH_HDRLEN (p_tcp p)) 5); [done|].
  destruct (opts_len_of_range _ Hh ltac:(lia)) as [_ ?]. cbn [orb].
  destruct (Z.ltb_spec (u64 (len - sizeof_pkt_tcp)) (opts_len_of (p_tcp p)));
    [done|].
  intros Hp. apply tcp_opt_loop_ts in Hp; [|done..|lia]. tauto.
Qed.

Lemma tcp_parse_options_ts_witness :
  tcp_parse_options 41 (opt_pkt 8 ex_opts) 66 = ParseOk (Some 2)
  /\ 2 + 2 <= opts_len_of (p_tcp (opt_pkt 8 ex_opts))
  /\ p_rest (opt_pkt 8 ex_opts) 2 = TCP_OPT_TIMESTAMP.
Proof.
  assert (E : tcp_parse_options 41 (opt_pkt 8 ex_opts) 66 = ParseOk (Some 2)) by reflexivity.
  split; [exact E|].
  destruct (tcp_parse_options_ts (opt_pkt 8 ex_opts) 66 41 2
              ltac:(vm_compute; intuition congruence) E) as (_ & H & _ & Ht & _).
  split; assumption.
Defined.
