(* ===== verification/FlowThms.v ===== *)
(** * Properties of the flow handlers

    What the packet handler delivers, acknowledges and reports; what the
    transmit side puts on the wire; the fast path under any sequence of
    events. *)

From S2P Require Import Prelude FpTypes Rng Links Qman QmanProofs QmanPoll.
From S2P Require Import TcpCommon FlowTx FlowRx FlowOps Sender FlowProofs.
From S2P Require Import FlowHandlers FlowLive.
From S2P Require Import FastPath Examples.

(** ** The handler of a packet of a connection *)

Section Packets.
Context (E : fpenv) {Q : Type} `{QmanLaws Q} (cfg : Z -> conn_cfg).

Definition packet_pre (F : list Z) (w : world Q) (C : Z -> conn) (f : Z) (p : pkt_tcp)
    (o : Z) : Prop :=
  sys_ok E cfg F w C /\ f ∈ F /\ ctx_room (w_ctx w) /\ packet_ok cfg w C f (tcp_seg p o)
  /\ tcp_hdr_ok (p_tcp p) /\ 5 <= TCPH_HDRLEN (p_tcp p).

Definition strm_of (C : Z -> conn) (f : Z) : Z -> Z :=
  strm_at (cc_peer (cfg f)) (cc_irs (cfg f)) (c_rcv (C f)).

Lemma packet_handled F (w : world Q) C f p o nbh sb ts :
  packet_pre F w C f p o ->
  exists w' ret n t fin, fast_flows_packet E w nbh p f o sb ts = Some (w', ret)
  /\ packet_done (strm_of C f) (cc_isn (cfg f)) w w' f (c_snd (C f)) (tcp_seg p o) n t fin.
Proof.
  intros (Hs & Hf & Hroom & ((k & Hk) & Hwnd & Hackno & Hgap) & Hh & H5).
  pose proof (sy_conn _ _ _ _ _ Hs f Hf) as Hc. unfold fast_flows_packet.
  apply (rx_handler_ok E (strm_of C f)); try done.
  - apply Hc.
  - split; [apply (sy_qman _ _ _ _ _ Hs)|done].
  - by eapply seg_at_ok.
  - intros ctx fs [? [? ?] ? ? ?] Ht.
    destruct (flow_tx_ack_ok E ctx fs (tx_next_seq fs) (rx_next_seq fs) (rx_avail fs)
      (tx_next_ts fs) ts nbh p o) as (pk & xs & -> & _); try done. by eexists.
Qed.

Lemma packet_handled_stages F (w : world Q) C f p o nbh sb ts :
  packet_pre F w C f p o -> has_budget w f sb ->
  stays_fast (w_flowst w !!! f) (tcp_seg p o) ->
  exists w' n t fin r,
    fast_flows_packet E w nbh p f o sb ts
    = Some (w', if x_trigger_ack (rx_final r) then 1 else 0)
  /\ packet_done (strm_of C f) (cc_isn (cfg f)) w w' f (c_snd (C f)) (tcp_seg p o) n t fin
  /\ rx_stages E (tcp_seg p o) ts (fs_lock (w_flowst w !!! f))
       (w_shm w (vm_id (w_flowst w !!! f))) = Some r
  /\ n = x_rx_bump (rx_final r) /\ t = x_tx_bump (rx_final r).
Proof.
  intros Hpre Hb Hfast.
  destruct (packet_handled F w C f p o nbh sb ts Hpre) as (w' & ret & n & t & fin & Er & Hd).
  destruct Hpre as (Hs & Hf & Hroom & ((k & Hk) & Hwnd & Hackno & Hgap) & Hh & H5).
  pose proof (sy_conn _ _ _ _ _ Hs f Hf) as Hc.
  unfold fast_flows_packet in *.
  destruct (packet_done_stages E (strm_of C f) _ _ _ w w' f sb ts _ ret n t fin Hb Hfast
    (ck_flow _ _ _ _ _ Hc) (seg_at_ok _ _ _ _ _ Hk) Hwnd Hackno Hgap Er Hd)
    as (r & Es & En & Et & ->).
  exists w', n, t, fin, r. done.
Qed.

(** C1: a sequence of packets, queue manager events, application updates, retransmission
    requests and steps of the environment, for any set of flows, is processed without a
    failed assertion or abort, if the events meet what their callers guarantee (`run_pre`):
    a packet carries a piece of the peer's stream, is not shorter than its headers, and does
    not lie in the gap that the trimming of tcp_common.h mishandles; there is room for one
    more packet and one more notification; the transmit buffer of a flow that the
    application updates is not larger than its receive buffer; what runs in between leaves
    the flows and the bytes in their buffers alone.  Then every flow stays consistent, every
    connection moves by steps of the connection specification, and the bytes of the peer's
    stream that these steps deliver, as far as the application has not freed them, are in the
    receive buffer, in order, up to the position of the next byte. *)
Theorem fast_path_run F (w : world Q) C es :
  sys_ok E cfg F w C -> run_pre E cfg F w C es ->
  exists w' C', fp_run E w es = Some w' /\ sys_ok E cfg F w' C'
  /\ forall f, f ∈ F -> exists l, conn_steps (tx_len (w_flowst w !!! f)) (C f) l (C' f)
       /\ forall d0, unread_ok w f d0 ->
            unread_ok w' f (d0 ++ delivered (cc_peer (cfg f)) (c_rcv (C f)) l).
Proof.
  intros Hs Hp. destruct (fp_run_done E cfg F es w C Hs Hp) as (w' & Er & C' & Hs' & Hc & _).
  by exists w', C'.
Qed.

(** C5: what the handler of a packet adds to the receive buffer is the next part of the
    peer's stream, at the position the application reads next, and the window shrinks by as
    much; only the free part of the receive buffer is written (past the delivered bytes it
    may take out-of-order data), the other flows are left alone, and all connections stay
    consistent.  The packet must carry a piece of the peer's stream, be at least as long as
    its headers say, and not lie in the gap that the trimming of tcp_common.h mishandles
    (`trim_gap`); the core has room for one more packet and notification. *)
Theorem fast_flows_packet_delivers F (w : world Q) C f p o nbh sb ts :
  packet_pre F w C f p o ->
  exists w' ret n (fin : bool), fast_flows_packet E w nbh p f o sb ts = Some (w', ret)
  /\ let fs := w_flowst w !!! f in
     let fs' := w_flowst w' !!! f in
     let r := c_rcv (C f) in
     0 <= n /\ rx_avail fs' = rx_avail fs - n
     /\ rx_next_pos fs' = (rx_next_pos fs + n) mod rx_len fs
     /\ rx_next_seq fs' = u32 (cc_irs (cfg f) + (r + n + (if fin then 1 else 0)))
     /\ (forall i, 0 <= i < n ->
          w_shm w' (vm_id fs) (rx_addr fs (rx_next_pos fs + i)) = cc_peer (cfg f) (r + i))
     /\ (forall v a, (v = vm_id fs ->
            forall i, 0 <= i < rx_avail fs -> a <> rx_addr fs (rx_next_pos fs + i)) ->
          w_shm w' v a = w_shm w v a)
     /\ (forall g, g <> f -> w_flowst w' !! g = w_flowst w !! g)
     /\ lock fs' = 0
     /\ exists a, sys_ok E cfg F w' (cupd C f (mk_conn a (r + n + (if fin then 1 else 0)))).
Proof.
  intros Hpre. destruct (packet_handled F w C f p o nbh sb ts Hpre)
    as (w' & ret & n & t & fin & Er & Hd).
  exists w', ret, n, fin. split; [done|]. cbv zeta.
  destruct Hpre as (Hs & Hf & _). pose proof (sy_conn _ _ _ _ _ Hs f Hf) as Hc.
  pose proof (packet_done_conn E cfg w w' f (C f) _ n t fin Hc (sy_apart _ _ _ _ _ Hs f f Hf Hf) Hd)
    as (a' & evs & _ & _ & Hc' & Hsv & Hm & Hbytes).
  destruct Hd as [[R1 R2 R3 R4 [R5 R5'] R6 R7 R8 R9] _ _ Hlk Hq _ Hvm Ho].
  split; [done|]. split; [lia|]. split; [done|].
  split; [exact (ck_rcv _ _ _ _ _ Hc')|]. split; [exact Hbytes|].
  split; [|split; [done|split; [done|]]].
  - intros v a Ha. destruct (decide (v = vm_id (w_flowst w !!! f))) as [->|Hne].
    + apply R9. by apply Ha.
    + by rewrite Hvm.
  - exists a'. by apply (sys_ok_step E cfg F w).
Qed.

(** C6: in-order data that fits the window is delivered in full and acknowledged: its
    bytes, and those of an out-of-order interval they reach, are in the receive buffer at
    the position the application reads next; one packet is queued for transmission, the
    received one turned around, with the ACK flag and nothing but ECE besides (set for a
    CE mark, or when the VM runs out of budget), the new receive sequence number and window.
    The conditions on the packet are those of `packet_pre`, with no trim gap; the VM has
    budget, and neither flags nor state ask for the slow path. *)
Theorem fast_flows_packet_inorder F (w : world Q) C f p o nbh sb ts :
  packet_pre F w C f p o -> has_budget w f sb ->
  stays_fast (w_flowst w !!! f) (tcp_seg p o) -> in_order (w_flowst w !!! f) (tcp_seg p o) ->
  exists w' pk xs n, fast_flows_packet E w nbh p f o sb ts = Some (w', 1)
  /\ let fs := w_flowst w !!! f in
     let fs' := w_flowst w' !!! f in
     let ece := (IPH_ECN (p_ip p) =? TAS_IP_ECN_CE)
                || has_flag (rx_base_sp fs') FLEXNIC_PL_FLOWST_ECN
                   && flow_should_signal_ece E (w_ctx w') (vm_id fs') in
     sg_payload_bytes (tcp_seg p o) <= n /\ rx_avail fs' = rx_avail fs - n
     /\ (forall i, 0 <= i < n ->
          w_shm w' (vm_id fs) (rx_addr fs (rx_next_pos fs + i))
          = cc_peer (cfg f) (c_rcv (C f) + i))
     /\ tx_num (w_ctx w') = tx_num (w_ctx w) + 1
     /\ tx_handles (w_ctx w') !! tx_num (w_ctx w)
        = Some (mk_tx_ent (rb_id nbh) (PktTcp pk) (u16 (rb_off nbh))
                  (34 + TCPH_HDRLEN (p_tcp p) * 4) xs)
     /\ ack_on_wire p (tx_next_seq fs') (rx_next_seq fs') (rx_avail fs') (tx_next_ts fs') ts
          (Z.lor TAS_TCP_ACK (if ece then TAS_TCP_ECE else 0)) o pk.
Proof.
  intros Hpre Hb Hfast Hin.
  destruct (packet_handled_stages F w C f p o nbh sb ts Hpre Hb Hfast)
    as (w' & n & t & fin & r & Er & Hd & Es & En & _).
  destruct Hpre as (Hs & Hf & Hroom & ((k & Hk) & _) & Hh & H5).
  pose proof (sy_conn _ _ _ _ _ Hs f Hf) as Hc.
  pose proof (ck_flow _ _ _ _ _ Hc) as [K1 K2 K3 _ _ _].
  destruct (rx_stages_inorder E (strm_of C f) (tcp_seg p o) ts (fs_lock (w_flowst w !!! f))
    (w_shm w (vm_id (w_flowst w !!! f)))) as (x & Ex & Hbump & Htr); try done.
  { by destruct K1; constructor. }
  { by eapply seg_at_ok. }
  rewrite Es in Ex. injection Ex as ->. cbn [rx_final] in *. rewrite Htr in Er.
  pose proof (packet_done_conn E cfg w w' f (C f) _ n t fin Hc (sy_apart _ _ _ _ _ Hs f f Hf Hf) Hd)
    as (a' & evs & _ & _ & _ & _ & _ & Hbytes).
  destruct Hd as [[R1 _ _ _ [_ R5] _ _ _ _] _ _ _ _ _ _ _].
  unfold fast_flows_packet in Er.
  destruct (rx_handler_ack E _ _ w w' f sb ts Er) as (c1 & fs1 & Ea & Ef & Et).
  destruct (flow_tx_ack_ok E c1 fs1 (tx_next_seq fs1) (rx_next_seq fs1) (rx_avail fs1)
    (tx_next_ts fs1) ts nbh p o Hh H5) as (pk & xs & Eack & Hwire).
  { rewrite Ef in R1. apply R1. }
  { rewrite Et. apply Hroom. }
  rewrite Eack in Ea. injection Ea as Ea.
  exists w', pk, xs, n. split; [done|]. cbv zeta.
  split; [lia|]. split; [lia|]. split; [exact Hbytes|].
  rewrite ack_flags_eq in Hwire. rewrite Ef, <- Ea, <- Et. split; [done|]. split; [|exact Hwire].
  cbn. by rewrite lookup_insert_eq.
Qed.

(** C21: a segment that fills the gap before the out-of-order interval delivers
    its own bytes and those of the interval. *)
Theorem fast_flows_packet_fills_gap F (w : world Q) C f p o nbh sb ts :
  packet_pre F w C f p o -> has_budget w f sb ->
  stays_fast (w_flowst w !!! f) (tcp_seg p o) -> in_order (w_flowst w !!! f) (tcp_seg p o) ->
  0 < rx_ooo_len (w_flowst w !!! f) ->
  u32 (rx_next_seq (w_flowst w !!! f) + sg_payload_bytes (tcp_seg p o))
  = rx_ooo_start (w_flowst w !!! f) ->
  exists w' ret, fast_flows_packet E w nbh p f o sb ts = Some (w', ret)
  /\ let fs := w_flowst w !!! f in
     let n := sg_payload_bytes (tcp_seg p o) + rx_ooo_len fs in
     rx_avail (w_flowst w' !!! f) = rx_avail fs - n
     /\ forall i, 0 <= i < n ->
          w_shm w' (vm_id fs) (rx_addr fs (rx_next_pos fs + i))
          = cc_peer (cfg f) (c_rcv (C f) + i).
Proof.
  intros Hpre Hb Hfast Hin Hlen Hadj.
  destruct (packet_handled_stages F w C f p o nbh sb ts Hpre Hb Hfast)
    as (w' & n & t & fin & r & Er & Hd & Es & En & _).
  destruct Hpre as (Hs & Hf & Hroom & ((k & Hk) & _) & Hh & H5).
  pose proof (sy_conn _ _ _ _ _ Hs f Hf) as Hc.
  pose proof (ck_flow _ _ _ _ _ Hc) as [K1 K2 K3 _ _ _].
  destruct (rx_stages_fill E (strm_of C f) (tcp_seg p o) ts (fs_lock (w_flowst w !!! f))
    (w_shm w (vm_id (w_flowst w !!! f)))) as (x & Ex & Hbump); try done.
  { by destruct K1; constructor. }
  { by eapply seg_at_ok. }
  rewrite Es in Ex. injection Ex as ->. cbn [rx_final] in *.
  change (rx_ooo_len (fs_lock ?g)) with (rx_ooo_len g) in Hbump.
  pose proof (packet_done_conn E cfg w w' f (C f) _ n t fin Hc (sy_apart _ _ _ _ _ Hs f f Hf Hf) Hd)
    as (a' & evs & _ & _ & _ & _ & _ & Hbytes).
  destruct Hd as [[R1 _ _ _ [_ R5] _ _ _ _] _ _ _ _ _ _ _].
  eexists w', _. split; [exact Er|]. cbv zeta. rewrite <- Hbump, <- En.
  split; [lia|exact Hbytes].
Qed.

(** C7: a valid acknowledgement is taken: the sender's oldest unacknowledged
    byte moves by exactly the number of bytes acknowledged, and the
    application is told to reclaim them. *)
Theorem fast_flows_packet_acked F (w : world Q) C f p o nbh sb ts :
  packet_pre F w C f p o -> has_budget w f sb ->
  stays_fast (w_flowst w !!! f) (tcp_seg p o) ->
  has_flag (TCPH_FLAGS (p_tcp p)) TAS_TCP_ACK = true ->
  let a := c_snd (C f) in
  let n := u32 (f_beui32 (tcp_ackno (p_tcp p)) - (cc_isn (cfg f) + s_una a)) in
  n <= s_end a - s_una a ->
  exists w' ret a', fast_flows_packet E w nbh p f o sb ts = Some (w', ret)
  /\ snd_rep (cc_isn (cfg f)) (w_flowst w' !!! f) a'
  /\ s_una a' = s_una a + n /\ s_end a' = s_end a
  /\ (n <> 0 -> exists e, arx_cache (w_ctx w') !! arx_num (w_ctx w) = Some e
        /\ arx_tx_bump e = n /\ arx_opaque e = opaque (w_flowst w !!! f)).
Proof.
  intros Hpre Hb Hfast Hfl. cbv zeta. intros Hn.
  destruct (packet_handled_stages F w C f p o nbh sb ts Hpre Hb Hfast)
    as (w' & m & t & fin & r & Er & Hd & Es & _ & Et).
  destruct Hpre as (Hs & Hf & Hroom & (_ & _ & Hackno & _) & Hh & H5).
  pose proof (ck_flow _ _ _ _ _ (sy_conn _ _ _ _ _ Hs f Hf)) as [_ _ _ K4 _ _].
  rewrite (rx_stages_acks E (cc_isn (cfg f)) (tcp_seg p o) ts (fs_lock (w_flowst w !!! f))
    (w_shm w (vm_id (w_flowst w !!! f))) (c_snd (C f)) r) in Et; try done.
  2: { by eapply snd_rep_view, K4. }
  change (sg_tcp (tcp_seg p o)) with (p_tcp p) in Et. rewrite <- Et in *.
  destruct Hd as [_ Hsnd _ _ _ Harx _ _].
  destruct (snd_acked_conn _ _ _ _ _ Hsnd) as (a' & evs & Hst & Hev & Hrep & _ & He & _ & Hsv).
  assert (Hu : s_una a' = s_una (c_snd (C f)) + t).
  { destruct Hsnd as (a1 & a2 & S1 & S2 & R & _).
    assert (Ea2 : s_una a2 = s_una (c_snd (C f)) + t /\ s_end a2 = s_end (c_snd (C f))).
    { inversion S1; subst. destruct S2 as [->|S2]; [done|]. by inversion S2. }
    destruct R as [_ _ Q1 Q2 _ _], Hrep as [_ _ P1 P2 _ _]. lia. }
  eexists w', _, a'. split; [exact Er|]. split; [done|]. split; [done|]. split; [done|].
  intros Ht. cbv zeta in Harx. destruct Harx as (Ea & _). rewrite Ea.
  unfold notified. rewrite (proj2 (Z.eqb_neq t 0) Ht). rewrite orb_true_r. cbn [orb negb].
  eexists. cbn. rewrite lookup_insert_eq. split; [done|]. split; [done|].
  exact (f_equal (fun z => z.1.1.1.1.1.1.1) Hsv).
Qed.

(** After the peer's FIN was accepted no more data is delivered and no
    second FIN is accepted. *)
Theorem fast_flows_packet_after_fin F (w : world Q) C f p o nbh sb ts :
  packet_pre F w C f p o -> has_budget w f sb ->
  stays_fast (w_flowst w !!! f) (tcp_seg p o) ->
  has_flag (rx_base_sp (w_flowst w !!! f)) FLEXNIC_PL_FLOWST_RXFIN = true ->
  exists w' ret, fast_flows_packet E w nbh p f o sb ts = Some (w', ret)
  /\ rx_avail (w_flowst w' !!! f) = rx_avail (w_flowst w !!! f)
  /\ rx_next_seq (w_flowst w' !!! f) = rx_next_seq (w_flowst w !!! f).
Proof.
  intros Hpre Hb Hfast Hfin.
  destruct (packet_handled_stages F w C f p o nbh sb ts Hpre Hb Hfast)
    as (w' & n & t & fin & r & Er & Hd & Es & _ & _).
  destruct Hpre as (Hs & Hf & Hroom & ((k & Hk) & _ & _ & Hgap) & Hh & H5).
  pose proof (ck_flow _ _ _ _ _ (sy_conn _ _ _ _ _ Hs f Hf)) as [K1 K2 K3 _ _ _].
  unfold fast_flows_packet in *.
  destruct (rx_handler_stages E _ _ w w' f sb ts _ Hb Hfast Er) as (r' & Es' & Ef & _).
  rewrite Es in Es'. injection Es' as <-.
  destruct (rx_stages_quiet E _ ts (fs_lock (w_flowst w !!! f)) _ r Hfin Es) as [En Efin].
  destruct (rx_stages_ok E (strm_of C f) (tcp_seg p o) ts (fs_lock (w_flowst w !!! f))
    (w_shm w (vm_id (w_flowst w !!! f)))) as (r' & Er' & Hdel); try done.
  { by destruct K1; constructor. }
  { by eapply seg_at_ok. }
  rewrite Es in Er'. injection Er' as <-. unfold delivers in Hdel. rewrite En, Efin in Hdel.
  destruct Hdel as [_ _ _ _ [_ R5] _ R7 _ _].
  eexists w', _. split; [exact Er|]. rewrite Ef.
  change (rx_avail (fs_unlock ?g)) with (rx_avail g).
  change (rx_next_seq (fs_unlock ?g)) with (rx_next_seq g).
  split; [exact R5|]. rewrite R7, !Z.add_0_r. apply u32_id, K1.
Qed.

(** ** Sending *)

(** The options of a segment: time stamp, end of options. *)
Lemma tcp_opt_loop_seg fuel opt ts :
  opt 0 = TCP_OPT_TIMESTAMP -> opt 1 = sizeof_ts_opt -> opt 10 = 0 ->
  tcp_opt_loop (S (S fuel)) opt 12 0 ts = ParseOk (Some 0).
Proof.
  intros O0 O1 O10. cbn [tcp_opt_loop].
  change (0 + 1) with 1. rewrite O0, O1. change (u16 (0 + sizeof_ts_opt)) with 10.
  by rewrite O10.
Qed.

(** A segment as the peer's fast path sees it. *)
Lemma segment_parsed fs m seq ack wnd n pos echo my fl p fid :
  segment_on_wire fs m seq ack wnd n pos echo my fl p (66 + n) -> 0 <= n < 65536 ->
  fast_flows_packet_parse 41 (p, 66 + n, Some fid) = Some (Some (fid, 0)).
Proof.
  intros [W1 W2 W3 W4 W5 W6 W7 W8 W9 W10 W11 W12 W13 (W14 & W15 & W16) (W17 & W18 & W19 & W20)] Hn.
  unfold fast_flows_packet_parse.
  assert (Hbad : hdr_bad p (66 + n) = false).
  { unfold hdr_bad. rewrite W20, W19, W17, W18, W9, W10.
    change sizeof_pkt_tcp with 54. change sizeof_eth with 14.
    destruct (Z.ltb_spec (66 + n) 54); [lia|].
    destruct (Z.ltb_spec (66 + n) (52 + n + 14)); [lia|]. done. }
  rewrite Hbad. unfold tcp_parse_options, tcp_parse_hdr. rewrite W9.
  change (u16 (8 * 4 - 20)) with 12. change sizeof_pkt_tcp with 54.
  rewrite u64_id by (unfold is_u64; lia).
  destruct (Z.ltb_spec (66 + n - 54) 12); [lia|]. change (8 <? 5) with false. cbn [orb].
  change 41%nat with (S (S 39)). rewrite tcp_opt_loop_seg by done. done.
Qed.

(** A segment carries its part of the application's stream to the peer. *)
Lemma segment_seg_at app isn fs m seq0 ack wnd n pos echo my fl p r :
  segment_on_wire fs m (isn + seq0) ack wnd n pos echo my fl p (66 + n) ->
  0 <= n < 65536 - 66 ->
  (forall i, 0 <= i < n -> p_rest p (12 + i) = app (seq0 + i)) ->
  - 2147483648 <= seq0 - r -> seq0 - r + 65536 <= 2147483648 ->
  seg_at app isn r (tcp_seg p 0) seq0 /\ sg_payload_bytes (tcp_seg p 0) = n.
Proof.
  intros [W1 W2 W3 W4 W5 W6 W7 W8 W9 W10 W11 W12 W13 W14 W17] Hn Hb Hr1 Hr2.
  assert (Hx : tcp_extra_hlen (tcp_seg p 0) = 12).
  { unfold tcp_extra_hlen. cbn [sg_tcp tcp_seg]. by rewrite W9. }
  assert (Hp : sg_payload_bytes (tcp_seg p 0) = n).
  { unfold sg_payload_bytes. rewrite Hx. cbn [sg_ip_len tcp_seg]. rewrite W10.
    change (sizeof_ip + sizeof_tcp + 12) with 52. rewrite u32_id by (unfold is_u32; lia). lia. }
  assert (Ho : sg_payload_off (tcp_seg p 0) = 66).
  { unfold sg_payload_off. by rewrite Hx. }
  split; [|done]. constructor; rewrite ?Hp, ?Ho, ?Hx; try done.
  unfold is_u16. lia.
Qed.

(** C8: when the queue manager schedules a flow with data and window, one
    segment is queued: it carries the next bytes of the application's stream
    (at most one MSS, within the peer's window), the sender advances by as
    much, and the peer's header checks and receive path take the segment as
    that part of the stream. *)
Theorem fast_flows_qman_segment F (w : world Q) C f vm nbh ts :
  sys_ok E cfg F w C -> f ∈ F -> ctx_room (w_ctx w) ->
  w_steering w !!! flow_group (w_flowst w !!! f) = ctx_id (w_ctx w) ->
  0 < tcp_txavail (w_flowst w !!! f) None ->
  let a := c_snd (C f) in
  exists w' n (fin : bool) p xs, fast_flows_qman E w vm f nbh ts = Some (w', 0)
  /\ let k := if fin then n - 1 else n in
     snd_step (tx_len (w_flowst w !!! f)) a (SndSend n)
       (mk_snd (s_una a) (s_nxt a + n) (s_end a))
     /\ snd_rep (cc_isn (cfg f)) (w_flowst w' !!! f) (mk_snd (s_una a) (s_nxt a + n) (s_end a))
     /\ 0 < n <= TCP_MSS /\ s_nxt a + n - s_una a <= rx_remote_avail (w_flowst w !!! f)
     /\ (fin = true -> s_nxt a + n = s_end a)
     /\ tx_handles (w_ctx w') !! tx_num (w_ctx w)
        = Some (mk_tx_ent (nb_id nbh) (PktTcp p) 0 (66 + k) xs)
     /\ (forall fid, fast_flows_packet_parse 41 (p, 66 + k, Some fid) = Some (Some (fid, 0)))
     /\ forall r, - 2147483648 <= s_nxt a - r -> s_nxt a - r + 65536 <= 2147483648 ->
          seg_at (cc_app (cfg f)) (cc_isn (cfg f)) r (tcp_seg p 0) (s_nxt a)
          /\ sg_payload_bytes (tcp_seg p 0) = k.
Proof.
  intros Hs Hf Hroom Hst Hav. cbv zeta.
  pose proof (sy_conn _ _ _ _ _ Hs f Hf) as [K1 K7 K8 K9].
  destruct (fast_flows_qman_send E _ _ (cc_app (cfg f)) w f vm nbh ts (c_snd (C f)) K1
    (conj (sy_qman _ _ _ _ _ Hs) Hroom) K8 K9 Hst Hav) as (w' & n & fin & p & Er & Hsent).
  destruct Hsent as [S1 S2 S3 S4 S5 (xs & S6 & S6') S7 S8 _].
  unfold fast_flows_qman in Er.
  exists w', n, fin, p, xs. split; [exact Er|].
  unfold TCP_MSS in *. set (k := if fin then n - 1 else n) in *.
  assert (Hk : 0 <= k <= 1400) by (subst k; destruct fin; lia).
  split; [done|]. split; [apply S5|]. split; [lia|]. split; [done|]. split; [done|].
  split; [exact S6|]. split.
  - intros fid. eapply segment_parsed; [exact S7|lia].
  - intros r Hr1 Hr2. eapply segment_seg_at; [exact S7|lia|done..].
Qed.

(** A flow whose group moved to another core is handed to that core's ring,
    the core is notified, and the flow's queue is emptied here; nothing is
    sent. *)
Theorem fast_flows_qman_moves F (w : world Q) C f vm nbh ts new_core :
  sys_ok E cfg F w C -> f ∈ F -> ctx_room (w_ctx w) ->
  0 <= vm < FLEXNIC_PL_VMST_NUM -> 0 <= f < FLEXNIC_NUM_QMFLOWQUEUES ->
  w_steering w !!! flow_group (w_flowst w !!! f) = new_core ->
  new_core <> ctx_id (w_ctx w) -> rte_ring_has_room E (w_fwd w) new_core = true ->
  exists w', fast_flows_qman E w vm f nbh ts = Some (w', -1)
  /\ w_fwd w' = w_fwd w ++ [(new_core, f)] /\ w_notified w' = w_notified w ++ [new_core]
  /\ tx_num (w_ctx w') = tx_num (w_ctx w) /\ sys_ok E cfg F w' (cupd C f (C f)).
Proof.
  intros Hs Hf Hroom Hvm Hfid Hst Hne Hring.
  pose proof (sy_conn _ _ _ _ _ Hs f Hf) as Hc. pose proof Hc as [K1 K7 K8 K9].
  destruct (fast_flows_qman_moved E _ _ w f vm nbh ts (c_snd (C f)) _ K1
    (conj (sy_qman _ _ _ _ _ Hs) Hroom) Hvm Hfid Hst Hne Hring)
    as (w' & Er & Hfw & Hnt & Hfo & Hq & Htx).
  exists w'. split; [done|]. split; [done|]. split; [done|]. split; [done|].
  apply fast_flows_qman_frame in Er as Hfr. pose proof (framed_shm _ _ _ _ Hfr) as Hm.
  pose proof (conn_ok_tx E cfg _ w w' f (C f) _ Hc Hfr Hfo K9) as Hc'.
  destruct Hfr as [Ho [Hsv _] _].
  apply (sys_ok_step E cfg F w); try done. by destruct (C f).
Qed.

(** C20: an application update is applied as a whole or not at all.  It is taken exactly
    when it is in order, brings a byte for the FIN if it is the application's last, and fits
    (`bump_takes`); then the new bytes are appended to the stream to send and the freed bytes
    to the receive window, its sequence number is stored and the FIN is noted, and no other
    field of the flow changes.  Otherwise nothing changes but, when it was not an old one, the
    sequence number of the last update, which the code stores before it checks the rest.
    Other flows and the shared memory are left alone.  The transmit buffer must not be larger
    than the receive buffer: the code checks the freed bytes against the wrong one. *)
Theorem fast_flows_bump_atomic F (w : world Q) C f bseq rb tb fl nbh ts :
  sys_ok E cfg F w C -> ev_pre E cfg F w C (EvBump f bseq rb tb fl nbh ts) ->
  exists w' ret, fast_flows_bump E w f bseq rb tb fl nbh ts = Some (w', ret)
  /\ let fs := w_flowst w !!! f in
     let a := c_snd (C f) in
     let n := tx_bump_eff fs tb in
     w_shm w' = w_shm w
     /\ (~ bump_takes fs bseq rb tb fl
         /\ w' = w <| w_flowst ::= <[f := fs <| bump_seq := if bump_is_old fs bseq then bump_seq fs
                                                            else bseq |>]> |>
         \/ bump_takes fs bseq rb tb fl
         /\ w_flowst w' = <[f := bumped_fs fs bseq (tx_avail fs + n) rb (bump_fin fs fl)]> (w_flowst w)
         /\ rx_avail (w_flowst w' !!! f) = rx_avail fs + rb /\ rx_avail fs + rb <= rx_len fs
         /\ snd_step (tx_len fs) a (SndPush n) (mk_snd (s_una a) (s_nxt a) (s_end a + n))
         /\ snd_rep (cc_isn (cfg f)) (w_flowst w' !!! f) (mk_snd (s_una a) (s_nxt a) (s_end a + n))).
Proof.
  intros Hs (Hf & Hroom & Hfid & Hrb & Htb & Hlen & Hdata).
  pose proof (sy_conn _ _ _ _ _ Hs f Hf) as [K1 K7 K8 K9].
  destruct (fast_flows_bump_cases E _ _ w f bseq rb tb fl nbh ts (c_snd (C f)) K1
    (conj (sy_qman _ _ _ _ _ Hs) Hroom) Hfid K8 Hrb Htb Hlen) as (w' & r & Er & Hq & Hcases).
  apply fast_flows_bump_frame in Er as Hfr. destruct Hfr as [_ (Hsv & _) Hm].
  apply static_view_eq in Hsv as (_ & Hrl & _).
  exists w', r. split; [done|]. cbv zeta. split; [exact Hm|].
  destruct Hcases as [(Hno & Ew & _)|(Hyes & Ew & Hst & Hfo & Ha)]; [by left|right].
  split; [done|]. split; [done|]. split; [done|].
  split; [|split; [done|apply Hfo]].
  destruct (fo_rx _ _ _ _ _ _ Hfo) as [_ [_ Hav] _ _ _]. rewrite <- Ha, <- Hrl. exact Hav.
Qed.

(** C25: A retransmission request goes back to the oldest unacknowledged byte (go-back-N),
    loses nothing, and hands what can be sent again to the queue manager: when there is more
    of it than before, the flow's queue is set to it, at the flow's new rate, with one MSS as
    chunk. *)
Theorem fast_flows_retransmit_rewinds F (w : world Q) C f :
  sys_ok E cfg F w C -> f ∈ F -> ctx_room (w_ctx w) ->
  0 <= f < FLEXNIC_NUM_QMFLOWQUEUES ->
  let a := c_snd (C f) in
  exists w', fast_flows_retransmit w f = Some w'
  /\ let fs := w_flowst w !!! f in
     let fs' := w_flowst w' !!! f in
     snd_rep (cc_isn (cfg f)) fs' (mk_snd (s_una a) (s_una a) (s_end a))
     /\ tx_next_seq fs' = u32 (cc_isn (cfg f) + s_una a)
     /\ tx_sent fs' = 0 /\ tx_avail fs' = s_end a - s_una a
     /\ (if tcp_txavail fs None <? tcp_txavail fs' None
         then qman_set (qman (w_ctx w)) (vm_id fs) f (tx_rate fs') (tcp_txavail fs' None) TCP_MSS
                QMAN_SET_ALL = Some (qman (w_ctx w'), 0)
         else qman (w_ctx w') = qman (w_ctx w))
     /\ sys_ok E cfg F w' (cupd C f (mk_conn (mk_snd (s_una a) (s_una a) (s_end a)) (c_rcv (C f)))).
Proof.
  intros Hs Hf Hroom Hfid. cbv zeta.
  pose proof (sy_conn _ _ _ _ _ Hs f Hf) as Hc. pose proof Hc as [K1 K7 K8 K9].
  destruct (fast_flows_retransmit_ok E _ _ w f (c_snd (C f)) K1
    (conj (sy_qman _ _ _ _ _ Hs) Hroom) Hfid) as (w' & Er & Hfo & Hq & _).
  exists w'. split; [done|]. pose proof (fo_snd _ _ _ _ _ _ Hfo) as [R1 R2 R3 R4 R5 R6].
  split; [done|]. split; [done|]. split; [rewrite R3; cbn; lia|].
  split; [rewrite R4; cbn; lia|]. split; [by apply fast_flows_retransmit_rearms|].
  apply fast_flows_retransmit_frame in Er as Hfr. pose proof (framed_shm _ _ _ _ Hfr) as Hm.
  pose proof (conn_ok_tx E cfg _ w w' f (C f) _ Hc Hfr Hfo K9) as Hc'.
  destruct Hfr as [Ho [Hsv _] _]. by apply (sys_ok_step E cfg F w).
Qed.

(** ** Flow lookup *)

Lemma fss_probe_spec (w : world Q) m h j n fid :
  fss_probe w m h j n = Some fid ->
  exists i, j <= i < j + Z.of_nat n
  /\ let e := w_flowht w !!! (u32 (h + i) mod FLEXNIC_PL_FLOWHT_ENTRIES) in
     Z.land (flow_id e) FLEXNIC_PL_FLOWHTE_VALID <> 0 /\ flow_hash e = h
     /\ fid = Z.land (flow_id e) (Z.shiftl 1 FLEXNIC_PL_FLOWHTE_POSSHIFT - 1)
     /\ m (w_flowst w !!! fid) = true.
Proof.
  revert j. induction n as [|n IH]; intros j; [done|]. cbn [fss_probe]. cbv zeta.
  set (e := w_flowht w !!! _).
  assert (Hrest : fss_probe w m h (j + 1) n = Some fid -> exists i, j <= i < j + Z.of_nat (S n)
    /\ let e := w_flowht w !!! (u32 (h + i) mod FLEXNIC_PL_FLOWHT_ENTRIES) in
       Z.land (flow_id e) FLEXNIC_PL_FLOWHTE_VALID <> 0 /\ flow_hash e = h
       /\ fid = Z.land (flow_id e) (Z.shiftl 1 FLEXNIC_PL_FLOWHTE_POSSHIFT - 1)
       /\ m (w_flowst w !!! fid) = true).
  { intros Hr. destruct (IH _ Hr) as (i & Hi & He). exists i. split; [lia|done]. }
  destruct (Z.eqb_spec (Z.land (flow_id e) FLEXNIC_PL_FLOWHTE_VALID) 0); [exact Hrest|].
  destruct (Z.eqb_spec (flow_hash e) h); cbn [orb negb]; [|exact Hrest].
  set (g := Z.land (flow_id e) (Z.shiftl 1 FLEXNIC_PL_FLOWHTE_POSSHIFT - 1)) in *.
  destruct (m (w_flowst w !!! g)) eqn:Em; [|exact Hrest]. intros [= <-].
  exists j. split; [lia|]. by fold e.
Qed.

Lemma fss_probe_complete (w : world Q) m h j n i :
  j <= i < j + Z.of_nat n ->
  let e := w_flowht w !!! (u32 (h + i) mod FLEXNIC_PL_FLOWHT_ENTRIES) in
  Z.land (flow_id e) FLEXNIC_PL_FLOWHTE_VALID <> 0 -> flow_hash e = h ->
  m (w_flowst w !!! Z.land (flow_id e) (Z.shiftl 1 FLEXNIC_PL_FLOWHTE_POSSHIFT - 1)) = true ->
  is_Some (fss_probe w m h j n).
Proof.
  intros Hi. cbv zeta. intros Hv Hh Hm. revert j Hi. induction n as [|n IH]; intros j Hi; [lia|].
  cbn [fss_probe]. cbv zeta. destruct (decide (i = j)) as [->|Hne].
  - rewrite (proj2 (Z.eqb_neq _ _) Hv), (proj2 (Z.eqb_eq _ _) Hh). cbn [orb negb].
    rewrite Hm. by eexists.
  - assert (Hrest : is_Some (fss_probe w m h (j + 1) n)) by (apply IH; lia).
    match goal with |- is_Some (if ?b then _ else _) => destruct b end; [exact Hrest|].
    match goal with |- is_Some (if ?b then _ else _) => destruct b end; [by eexists|exact Hrest].
Qed.

Definition fss_hash (p : pkt_tcp) : Z :=
  flow_hash_of E (mk_flow_key (ip_dest (p_ip p)) (ip_src (p_ip p))
    (tcp_dest (p_tcp p)) (tcp_src (p_tcp p))).

(** A flow is installed: one of the buckets probed for [h] holds it. *)
Definition installed (w : world Q) (h fid : Z) : Prop :=
  exists i, 0 <= i < FLEXNIC_PL_FLOWHT_NBSZ
  /\ let e := w_flowht w !!! (u32 (h + i) mod FLEXNIC_PL_FLOWHT_ENTRIES) in
     Z.land (flow_id e) FLEXNIC_PL_FLOWHTE_VALID <> 0 /\ flow_hash e = h
     /\ fid = Z.land (flow_id e) (Z.shiftl 1 FLEXNIC_PL_FLOWHTE_POSSHIFT - 1).

(** C29: Flow lookup is exact when the installed flows have distinct addresses:
    it returns a flow if and only if that flow is installed under the packet's
    hash and has the packet's addresses and ports. *)
Theorem fast_flows_packet_fss_exact (w : world Q) (ps : list pkt_tcp) i p :
  ps !! i = Some p ->
  (forall f g, installed w (fss_hash p) f -> installed w (fss_hash p) g ->
     fss_match p (w_flowst w !!! f) = true -> fss_match p (w_flowst w !!! g) = true -> f = g) ->
  forall fid, fast_flows_packet_fss E w ps !! i = Some (Some fid)
    <-> installed w (fss_hash p) fid /\ fss_match p (w_flowst w !!! fid) = true.
Proof.
  intros Hp Huniq fid. unfold fast_flows_packet_fss.
  rewrite list_lookup_fmap, Hp. cbn [fmap option_fmap option_map].
  unfold fss_one. fold (fss_hash p). cbv zeta.
  assert (Hs : forall f, fss_probe w (fss_match p) (fss_hash p) 0 (Z.to_nat FLEXNIC_PL_FLOWHT_NBSZ)
      = Some f -> installed w (fss_hash p) f /\ fss_match p (w_flowst w !!! f) = true).
  { intros f Hf. apply fss_probe_spec in Hf as (k & Hk & E1 & E2 & E3 & E4).
    split; [|done]. exists k.
    change (Z.of_nat (Z.to_nat FLEXNIC_PL_FLOWHT_NBSZ)) with FLEXNIC_PL_FLOWHT_NBSZ in Hk.
    split; [lia|done]. }
  split.
  - intros [= Hf]. by apply Hs.
  - intros [Hi Hm]. pose proof Hi as (k & Hk & E1 & E2 & E3).
    assert (Hm' := Hm). rewrite E3 in Hm'.
    destruct (fss_probe_complete w (fss_match p) (fss_hash p) 0
      (Z.to_nat FLEXNIC_PL_FLOWHT_NBSZ) k Hk E1 E2 Hm') as [g Hg].
    rewrite Hg. do 2 f_equal. destruct (Hs g Hg). by apply Huniq.
Qed.
End Packets.

(** ** Faults *)

(** A packet whose IP length is shorter than its headers passes the header
    checks, and the handler then fails the assertion on the receive position:
    one packet from the network stops the fast path. *)
Theorem fast_flows_packet_short_ip_len :
  let p := ex_pkt (-52) 5000 1004 TAS_TCP_ACK in
  ip_len (p_ip p) = 0
  /\ fast_flows_packet_parse 41 (p, 66, Some 3) = Some (Some (3, 0))
  /\ fast_flows_packet ex_env (ex_world 0 0 0) ex_rxbuf p 3 0 false 10 = None.
Proof. split; [|split]; vm_compute; reflexivity. Qed.

(** The flow of the examples under another number, with a closed window. *)
Definition ex_world_at (f : Z) : world qman_thread :=
  mk_world {[ f := ex_fs 0 0 <| rx_remote_avail := 0 |> ]} ∅ ∅ (fun _ => ex_mem) ex_ctx [] [].

(** The packet handler cuts the flow number to 16 bits: an acknowledgement
    for flow 65536 + 3 arms the queue of flow 3 instead. *)
Theorem fast_flows_packet_flow_id_16_bits :
  exists w' ret, fast_flows_packet ex_env (ex_world_at 65539) ex_rxbuf ex_p 65539 0 false 10
                 = Some (w', ret)
  /\ tcp_txavail (w_flowst w' !!! 65539) None = 90
  /\ queued (qman (w_ctx w')) 0 65539 = 0 /\ queued (qman (w_ctx w')) 0 3 = 90.
Proof.
  assert (Hp : (fun r : world qman_thread * Z => (tcp_txavail (w_flowst r.1 !!! 65539) None,
      queued (qman (w_ctx r.1)) 0 65539, queued (qman (w_ctx r.1)) 0 3))
    <$> fast_flows_packet ex_env (ex_world_at 65539) ex_rxbuf ex_p 65539 0 false 10
    = Some (90, 0, 90)) by (vm_compute; reflexivity).
  apply fmap_Some in Hp as ([w' ret] & Er & Hp). exists w', ret. split; [exact Er|]. clear Er.
  injection Hp as E1 E2 E3. auto.
Qed.

(** A flow whose transmit buffer is larger than its receive buffer. *)
Definition ex_world_tx : world qman_thread :=
  mk_world {[ 3 := ex_fs 0 0 <| tx_len := 4096 |> ]} ∅ ∅ (fun _ => ex_mem) ex_ctx [] [].

(** An application update is checked against the length of the transmit
    buffer where the receive buffer is meant: with a larger transmit buffer the
    receive window grows past the receive buffer. *)
Theorem fast_flows_bump_rx_overflow :
  exists w' ret, fast_flows_bump ex_env ex_world_tx 3 1 1000 0 0 (mk_nbuf 1 (fun _ => 0)) 10
                 = Some (w', ret)
  /\ rx_avail (w_flowst w' !!! 3) = 2024 /\ rx_len (w_flowst w' !!! 3) = 1024.
Proof.
  assert (Hp : (fun r : world qman_thread * Z => (rx_avail (w_flowst r.1 !!! 3),
      rx_len (w_flowst r.1 !!! 3)))
    <$> fast_flows_bump ex_env ex_world_tx 3 1 1000 0 0 (mk_nbuf 1 (fun _ => 0)) 10
    = Some (2024, 1024)) by (vm_compute; reflexivity).
  apply fmap_Some in Hp as ([w' ret] & Er & Hp). exists w', ret. split; [exact Er|]. clear Er.
  injection Hp as E1 E2. auto.
Qed.

(** ** Witnesses *)

Lemma ex_packet_pre b l core :
  b = 0 \/ b = FLEXNIC_PL_FLOWST_RXFIN -> l = 0 \/ l = 10 ->
  packet_pre ex_env ex_cfg [3] (ex_world b l core) ex_conn 3 ex_p 0.
Proof.
  intros Hb Hl. split; [by apply ex_sys_ok|]. split; [by apply list_elem_of_here|].
  split; [apply ex_ctx_room|]. split; [apply ex_packet_ok|].
  split; vm_compute; intuition congruence.
Qed.

Lemma ex_stays_fast b l core :
  b = 0 \/ b = FLEXNIC_PL_FLOWST_RXFIN ->
  stays_fast (w_flowst (ex_world b l core) !!! 3) (tcp_seg ex_p 0).
Proof. intros [->| ->]; split; vm_compute; reflexivity. Qed.

Lemma ex_in_order l core : in_order (w_flowst (ex_world 0 l core) !!! 3) (tcp_seg ex_p 0).
Proof. split; [|split]; vm_compute; intuition congruence. Qed.

Lemma ex_has_budget (w : world qman_thread) f : has_budget w f false.
Proof. by intros [=]. Qed.

Definition ex_events : list (fp_ev (Q := qman_thread)) :=
  [EvPacket ex_rxbuf ex_p 3 0 false 10; EvRetransmit 3].

Lemma ex_run_pre : run_pre ex_env ex_cfg [3] (ex_world 0 0 0) ex_conn ex_events.
Proof.
  assert (H3 : (3 : Z) ∈ [3 : Z]) by apply list_elem_of_here.
  split.
  - destruct (ex_packet_pre 0 0 0) as (_ & _ & Hr & Hp & Hh & H5); [by left|by left|].
    split; [exact H3|]. split; [exact Hr|]. split; [exact Hp|]. split; [exact Hh|exact H5].
  - intros w' C' Er Hs Hc. split; [|done]. split; [exact H3|].
    assert (Hn : (fun w : world qman_thread => (tx_num (w_ctx w), arx_num (w_ctx w)))
      <$> fp_exec ex_env (ex_world 0 0 0) (EvPacket ex_rxbuf ex_p 3 0 false 10) = Some (1, 1))
      by (vm_compute; reflexivity).
    rewrite Er in Hn. clear Er. injection Hn as E1 E2.
    unfold ctx_room, FLEXNIC_NUM_QMFLOWQUEUES, TXBUF_SIZE, BATCH_SIZE. rewrite E1, E2. lia.
Qed.

Lemma fast_path_run_witness :
  exists w' C', fp_run ex_env (ex_world 0 0 0) ex_events = Some w'
  /\ sys_ok ex_env ex_cfg [3] w' C'.
Proof.
  destruct (fast_path_run ex_env ex_cfg [3] (ex_world 0 0 0) ex_conn ex_events
    (ex_sys_ok 0 0 0 (or_introl eq_refl) (or_introl eq_refl)) ex_run_pre)
    as (w' & C' & Er & Hs & _).
  exists w', C'. split; [exact Er|exact Hs].
Defined.

Lemma fast_flows_packet_delivers_witness :
  exists w' ret n, fast_flows_packet ex_env (ex_world 0 0 0) ex_rxbuf ex_p 3 0 false 10
                   = Some (w', ret)
  /\ rx_avail (w_flowst w' !!! 3) = rx_avail (w_flowst (ex_world 0 0 0) !!! 3) - n.
Proof.
  destruct (fast_flows_packet_delivers ex_env ex_cfg [3] (ex_world 0 0 0) ex_conn 3 ex_p 0
    ex_rxbuf false 10 (ex_packet_pre 0 0 0 (or_introl eq_refl) (or_introl eq_refl)))
    as (w' & ret & n & fin & Er & _ & Ha & _).
  exists w', ret, n. split; [exact Er|exact Ha].
Defined.

Lemma fast_flows_packet_inorder_witness :
  exists w', fast_flows_packet ex_env (ex_world 0 0 0) ex_rxbuf ex_p 3 0 false 10 = Some (w', 1)
  /\ rx_avail (w_flowst w' !!! 3) <= 1024 - 16.
Proof.
  destruct (fast_flows_packet_inorder ex_env ex_cfg [3] (ex_world 0 0 0) ex_conn 3 ex_p 0
    ex_rxbuf false 10 (ex_packet_pre 0 0 0 (or_introl eq_refl) (or_introl eq_refl))
    (ex_has_budget _ _) (ex_stays_fast 0 0 0 (or_introl eq_refl)) (ex_in_order 0 0))
    as (w' & pk & xs & n & Er & Hn & Ha & _).
  exists w'. split; [exact Er|].
  change (rx_avail (w_flowst (ex_world 0 0 0) !!! 3)) with 1024 in Ha.
  change (sg_payload_bytes (tcp_seg ex_p 0)) with 16 in Hn. lia.
Defined.

Lemma fast_flows_packet_fills_gap_witness :
  exists w' ret, fast_flows_packet ex_env (ex_world 0 10 0) ex_rxbuf ex_p 3 0 false 10
                 = Some (w', ret)
  /\ rx_avail (w_flowst w' !!! 3) = 1024 - 26.
Proof.
  destruct (fast_flows_packet_fills_gap ex_env ex_cfg [3] (ex_world 0 10 0) ex_conn 3 ex_p 0
    ex_rxbuf false 10 (ex_packet_pre 0 10 0 (or_introl eq_refl) (or_intror eq_refl))
    (ex_has_budget _ _) (ex_stays_fast 0 10 0 (or_introl eq_refl)) (ex_in_order 10 0)
    eq_refl eq_refl) as (w' & ret & Er & Ha & _).
  exists w', ret. split; [exact Er|exact Ha].
Defined.

Lemma fast_flows_packet_acked_witness :
  exists w' ret a', fast_flows_packet ex_env (ex_world 0 0 0) ex_rxbuf ex_p 3 0 false 10
                    = Some (w', ret)
  /\ snd_rep 1000 (w_flowst w' !!! 3) a' /\ s_una a' = 4.
Proof.
  destruct (fast_flows_packet_acked ex_env ex_cfg [3] (ex_world 0 0 0) ex_conn 3 ex_p 0
    ex_rxbuf false 10 (ex_packet_pre 0 0 0 (or_introl eq_refl) (or_introl eq_refl))
    (ex_has_budget _ _) (ex_stays_fast 0 0 0 (or_introl eq_refl)) eq_refl)
    as (w' & ret & a' & Er & Hr & Hu & _).
  - vm_compute. congruence.
  - exists w', ret, a'. split; [exact Er|]. split; [exact Hr|exact Hu].
Defined.

Lemma fast_flows_packet_after_fin_witness :
  exists w' ret, fast_flows_packet ex_env (ex_world 32 0 0) ex_rxbuf ex_p 3 0 false 10
                 = Some (w', ret)
  /\ rx_next_seq (w_flowst w' !!! 3) = 5000.
Proof.
  destruct (fast_flows_packet_after_fin ex_env ex_cfg [3] (ex_world 32 0 0) ex_conn 3 ex_p 0
    ex_rxbuf false 10 (ex_packet_pre 32 0 0 (or_intror eq_refl) (or_introl eq_refl))
    (ex_has_budget _ _) (ex_stays_fast 32 0 0 (or_intror eq_refl)) eq_refl)
    as (w' & ret & Er & _ & Hq).
  exists w', ret. split; [exact Er|exact Hq].
Defined.

Definition ex_nbuf : nbuf := mk_nbuf 1 (fun _ => 0).

Lemma fast_flows_qman_segment_witness :
  exists w' n, fast_flows_qman ex_env (ex_world 0 0 0) 0 3 ex_nbuf 10 = Some (w', 0)
  /\ 0 < n <= TCP_MSS /\ snd_rep 1000 (w_flowst w' !!! 3) (mk_snd 0 (10 + n) 100).
Proof.
  destruct (fast_flows_qman_segment ex_env ex_cfg [3] (ex_world 0 0 0) ex_conn 3 0 ex_nbuf 10
    (ex_sys_ok 0 0 0 (or_introl eq_refl) (or_introl eq_refl)) (list_elem_of_here _ _)
    (ex_ctx_room 0 0 0) eq_refl eq_refl)
    as (w' & n & fin & p & xs & Er & _ & Hr & Hn & _).
  exists w', n. split; [exact Er|]. split; [exact Hn|exact Hr].
Defined.

Lemma fast_flows_qman_moves_witness :
  exists w', fast_flows_qman ex_env (ex_world 0 0 5) 0 3 ex_nbuf 10 = Some (w', -1)
  /\ w_fwd w' = [(5, 3)].
Proof.
  destruct (fast_flows_qman_moves ex_env ex_cfg [3] (ex_world 0 0 5) ex_conn 3 0 ex_nbuf 10 5
    (ex_sys_ok 0 0 5 (or_introl eq_refl) (or_introl eq_refl)) (list_elem_of_here _ _)
    (ex_ctx_room 0 0 5)) as (w' & Er & Hf & _);
    [vm_compute; intuition congruence|vm_compute; intuition congruence|reflexivity
    |vm_compute; congruence|reflexivity|].
  exists w'. split; [exact Er|exact Hf].
Defined.

Lemma fast_flows_bump_atomic_witness :
  exists w' ret, fast_flows_bump ex_env (ex_world 0 0 0) 3 1 0 50 0 ex_nbuf 10 = Some (w', ret)
  /\ w_shm w' = w_shm (ex_world 0 0 0)
  /\ w_flowst w' = <[3 := bumped_fs (ex_fs 0 0) 1 140 0 false]> (w_flowst (ex_world 0 0 0)).
Proof.
  destruct (fast_flows_bump_atomic ex_env ex_cfg [3] (ex_world 0 0 0) ex_conn 3 1 0 50 0
    ex_nbuf 10 (ex_sys_ok 0 0 0 (or_introl eq_refl) (or_introl eq_refl)))
    as (w' & ret & Er & Hm & Hc).
  - split; [apply list_elem_of_here|]. split; [apply ex_ctx_room|].
    split; [vm_compute; intuition congruence|]. split; [vm_compute; intuition congruence|].
    split; [vm_compute; intuition congruence|]. split; [vm_compute; congruence|].
    cbv zeta. intros _ k _. by apply ex_mem_tx.
  - exists w', ret. split; [exact Er|]. split; [exact Hm|].
    destruct Hc as [[Hno _]|(_ & Hfs & _)]; [|exact Hfs].
    exfalso. apply Hno. split; [reflexivity|]. split; [by intros [[=] _]|].
    split; vm_compute; congruence.
Defined.

Lemma fast_flows_retransmit_rewinds_witness :
  exists w', fast_flows_retransmit (ex_world 0 0 0) 3 = Some w'
  /\ tx_next_seq (w_flowst w' !!! 3) = 1000.
Proof.
  destruct (fast_flows_retransmit_rewinds ex_env ex_cfg [3] (ex_world 0 0 0) ex_conn 3
    (ex_sys_ok 0 0 0 (or_introl eq_refl) (or_introl eq_refl)) (list_elem_of_here _ _)
    (ex_ctx_room 0 0 0)) as (w' & Er & _ & Hq & _); [vm_compute; intuition congruence|].
  exists w'. split; [exact Er|exact Hq].
Defined.

(** The lookup table with the flow in the second bucket of its hash. *)
Definition ex_world_ht : world qman_thread :=
  ex_world 0 0 0 <| w_flowht := {[ u32 (fss_hash ex_env ex_p + 1) mod FLEXNIC_PL_FLOWHT_ENTRIES
    := mk_flowhte (Z.lor FLEXNIC_PL_FLOWHTE_VALID 3) (fss_hash ex_env ex_p) ]} |>.

Lemma fast_flows_packet_fss_exact_witness :
  fast_flows_packet_fss ex_env ex_world_ht [ex_p] !! 0%nat = Some (Some 3).
Proof.
  assert (Hall : forall f, installed ex_world_ht (fss_hash ex_env ex_p) f -> f = 3).
  { intros f (i & Hi & E1 & E2 & E3). unfold FLEXNIC_PL_FLOWHT_NBSZ in Hi.
    assert (Hc : i = 0 \/ i = 1 \/ i = 2 \/ i = 3) by lia.
    destruct Hc as [->|[->|[->| ->]]];
      [exfalso; apply E1; vm_compute; reflexivity|rewrite E3; vm_compute; reflexivity
      |exfalso; apply E1; vm_compute; reflexivity|exfalso; apply E1; vm_compute; reflexivity]. }
  apply (fast_flows_packet_fss_exact ex_env ex_world_ht [ex_p] 0 ex_p eq_refl).
  - intros f g Hf Hg _ _. transitivity 3; [by apply Hall|by symmetry; apply Hall].
  - split.
    + exists 1. split; [vm_compute; intuition congruence|].
      split; [vm_compute; congruence|]. split; vm_compute; reflexivity.
    + vm_compute. reflexivity.
Defined.
