(* ===== verification/Timeout.v ===== *)
(** * Timeout manager (lib/utils/timeout.c)

    Pending timeouts are kept in a doubly linked list ordered by time, due
    timeouts in a second list.  Time stamps have 28 bits and wrap around; the
    specification gives every timeout an absolute time. *)

From Stdlib Require Import Sorting.Sorted.
From S2P Require Import Prelude Links.

Definition TIMEOUT_BITS : Z := 28.
Definition TIMEOUT_MASK : Z := 268435455.
Definition MAX_TIMEOUTS : nat := 64.

(** ** State *)

Record timeout : Type := mk_timeout {
  timeout_type : Z; to_next : Z; to_prev : Z }.
#[export] Instance eta_timeout : Eta timeout := fun r =>
  mk_timeout (timeout_type r) (to_next r) (to_prev r).
#[export] Instance timeout_inhabited : Inhabited timeout :=
  populate (mk_timeout 0 0 0).

(** The timeout objects by address, and the fields of the manager; the null
    pointer is 0. *)
Record timeout_manager : Type := mk_tm {
  tm_mem : gmap Z timeout;
  timeouts_first : Z; timeouts_last : Z; due_first : Z; due_last : Z }.
#[export] Instance eta_tm : Eta timeout_manager := fun r =>
  mk_tm (tm_mem r) (timeouts_first r) (timeouts_last r) (due_first r) (due_last r).

Definition upd_to (p : Z) (f : timeout -> timeout) (m : timeout_manager)
    : timeout_manager :=
  m <| tm_mem ::= fun h => <[p := f (h !!! p)]> h |>.

(** ** Operations *)

(** [memset] of the manager. *)
Definition util_timeout_init (h : gmap Z timeout) : timeout_manager :=
  mk_tm h 0 0 0 0.

Definition rel_time (cur_ts : Z) (to : timeout) : Z :=
  let middle := 134217728 in
  let to_ts := Z.land (timeout_type to) TIMEOUT_MASK in
  if cur_ts <? middle then
    let start := Z.land (u32 (cur_ts - middle)) TIMEOUT_MASK in
    let end_ := 268435456 in
    if (start <=? to_ts) && (to_ts <? end_)
    then s32 (u32 (u32 (to_ts - start) - middle))
    else s32 (u32 (to_ts - cur_ts))
  else if cur_ts =? middle then s32 (u32 (to_ts - cur_ts))
  else
    let start := 0 in
    let end_ := u32 (Z.land (u32 (cur_ts + middle)) TIMEOUT_MASK + 1) in
    if (start <=? cur_ts) && (to_ts <? end_)
    then s32 (u32 (to_ts + (268435456 - cur_ts)))
    else s32 (u32 (to_ts - cur_ts)).

Definition timeout_due (to : timeout) (ts : Z) : bool := rel_time ts to <=? 0.

(** One timeout from the pending to the due list. *)
Definition move_due_one (to : Z) (m : timeout_manager) : timeout_manager :=
  let next := to_next (tm_mem m !!! to) in
  let m := m <| timeouts_first := next |> in
  let m := if negb (next =? 0)
           then upd_to next (fun t => t <| to_prev := 0 |>) m
           else m <| timeouts_last := 0 |> in
  let m := upd_to to (fun t => t <| to_next := 0 |> <| to_prev := due_last m |>) m in
  let m := if due_last m =? 0 then m <| due_first := to |>
           else upd_to (due_last m) (fun t => t <| to_next := to |>) m in
  m <| due_last := to |>.

Fixpoint move_due_timeouts (fuel : nat) (m : timeout_manager) (cur_ts : Z)
    : option timeout_manager :=
  match fuel with
  | O => None
  | S fuel =>
      let to := timeouts_first m in
      if negb (to =? 0) && timeout_due (tm_mem m !!! to) cur_ts
      then move_due_timeouts fuel (move_due_one to m) cur_ts
      else Some m
  end.

(** Search for the predecessor, from the end; the comparison is unsigned. *)
Fixpoint arm_find (fuel : nat) (m : timeout_manager) (cur_ts us tp : Z)
    : option Z :=
  match fuel with
  | O => None
  | S fuel =>
      if negb (tp =? 0) && (us <? u32 (rel_time cur_ts (tm_mem m !!! tp)))
      then arm_find fuel m cur_ts us (to_prev (tm_mem m !!! tp))
      else Some tp
  end.

Definition arm_insert (m : timeout_manager) (to word tp : Z) : timeout_manager :=
  let tn := if negb (tp =? 0) then to_next (tm_mem m !!! tp)
            else timeouts_first m in
  let m := upd_to to (fun _ => mk_timeout word tn tp) m in
  let m := if tp =? 0 then m <| timeouts_first := to |>
           else upd_to tp (fun t => t <| to_next := to |>) m in
  if tn =? 0 then m <| timeouts_last := to |>
  else upd_to tn (fun t => t <| to_prev := to |>) m.

(** Iterations that are enough: every list is shorter than the memory. *)
Definition tm_fuel (m : timeout_manager) : nat := S (size (tm_mem m)).

Definition util_timeout_arm_ts (m : timeout_manager) (to us type cur_ts : Z)
    : option timeout_manager :=
  let cur_ts := Z.land cur_ts TIMEOUT_MASK in
  if 134217728 <=? us then None
  else
    m ← move_due_timeouts (tm_fuel m) m cur_ts;
    tp ← arm_find (tm_fuel m) m cur_ts us (timeouts_last m);
    Some (arm_insert m to
            (Z.lor (u32 (Z.shiftl (u8 type) TIMEOUT_BITS))
               (Z.land (u32 (cur_ts + us)) TIMEOUT_MASK)) tp).

Definition util_timeout_disarm (m : timeout_manager) (to : Z)
    : option timeout_manager :=
  let prev := to_prev (tm_mem m !!! to) in
  let next := to_next (tm_mem m !!! to) in
  m ← (if prev =? 0 then
         if timeouts_first m =? to then Some (m <| timeouts_first := next |>)
         else if due_first m =? to then Some (m <| due_first := next |>)
         else None
       else Some (upd_to prev (fun t => t <| to_next := next |>) m));
  if next =? 0 then
    if timeouts_last m =? to then Some (m <| timeouts_last := prev |>)
    else if due_last m =? to then Some (m <| due_last := prev |>)
    else None
  else Some (upd_to next (fun t => t <| to_prev := prev |>) m).

Definition util_timeout_next (m : timeout_manager) (cur_ts : Z) : Z :=
  if negb (due_first m =? 0) then 0
  else if timeouts_first m =? 0 then u32 (-1)
  else
    let next := rel_time (Z.land cur_ts TIMEOUT_MASK) (tm_mem m !!! timeouts_first m) in
    if next <? 0 then 0 else next.

(** Unlinking the first due timeout. *)
Definition pop_due (to : Z) (m : timeout_manager) : timeout_manager :=
  let m := m <| due_first := to_next (tm_mem m !!! to) |> in
  if negb (due_first m =? 0)
  then upd_to (due_first m) (fun t => t <| to_prev := 0 |>) m
  else m <| due_last := 0 |>.

Section Poll.
(** The handler may arm and disarm timeouts. *)
Context (handler : timeout_manager -> Z -> Z -> option timeout_manager).

(** Result: the manager and the calls of the handler, in order. *)
Fixpoint poll_due (n : nat) (m : timeout_manager)
    : option (timeout_manager * list (Z * Z)) :=
  match n with
  | O => Some (m, [])
  | S n =>
      let to := due_first m in
      if negb (to =? 0) then
        let m := pop_due to m in
        let type := Z.shiftr (timeout_type (tm_mem m !!! to)) TIMEOUT_BITS in
        m ← handler m to type;
        '(m, calls) ← poll_due n m;
        Some (m, (to, type) :: calls)
      else Some (m, [])
  end.

Definition util_timeout_poll_ts (m : timeout_manager) (cur_ts : Z)
    : option (timeout_manager * list (Z * Z)) :=
  m ← move_due_timeouts (tm_fuel m) m (Z.land cur_ts TIMEOUT_MASK);
  poll_due MAX_TIMEOUTS m.

End Poll.

(** ** Specification *)

Definition nx (m : timeout_manager) (p : Z) : Z := to_next (tm_mem m !!! p).
Definition pv (m : timeout_manager) (p : Z) : Z := to_prev (tm_mem m !!! p).
Definition word (m : timeout_manager) (p : Z) : Z := timeout_type (tm_mem m !!! p).

(** At the absolute time [now], the pending list is [l] and the due list [d];
    [dl] gives the absolute time of the pending timeouts. *)
Record tm_rep (now : Z) (m : timeout_manager) (l d : list Z) (dl : Z -> Z) : Prop :=
  mk_tm_rep {
  tr_pending : dseg (nx m) (pv m) 0 (timeouts_first m) l (timeouts_last m) 0;
  tr_due : dseg (nx m) (pv m) 0 (due_first m) d (due_last m) 0;
  tr_nodup : NoDup (l ++ d);
  tr_null : 0 ∉ l ++ d;
  tr_dom : forall x, x ∈ l ++ d -> is_Some (tm_mem m !! x);
  tr_word : forall x, x ∈ l -> Z.land (word m x) TIMEOUT_MASK = dl x mod 268435456;
  tr_window : forall x, x ∈ l -> now - 134217728 < dl x < now + 134217728;
  tr_sorted : StronglySorted (fun a b => dl a <= dl b) l }.

(** The 28-bit time stamp of an absolute time. *)
Definition ts28 (now : Z) : Z := now mod 268435456.

Lemma land_mask28 z : Z.land z TIMEOUT_MASK = z mod 268435456.
Proof.
  unfold TIMEOUT_MASK. change 268435455 with (Z.ones 28). by rewrite Z.land_ones by lia.
Qed.

(** Inside the window, relative time is the difference of absolute times. *)
Lemma rel_time_abs now to t :
  Z.land (timeout_type to) TIMEOUT_MASK = t mod 268435456 ->
  now - 134217728 < t < now + 134217728 ->
  rel_time (ts28 now) to = t - now.
Proof.
  intros Ht Hw. unfold rel_time. rewrite Ht, !land_mask28. unfold ts28.
  assert (Hk : exists k, t mod 268435456 - now mod 268435456 = t - now + k * 268435456
                         /\ -1 <= k <= 1).
  { exists (now / 268435456 - t / 268435456). Z.div_mod_to_equations. lia. }
  destruct Hk as (k & Hk & Hkr).
  pose proof (Z.mod_pos_bound t 268435456 ltac:(lia)) as Ha.
  pose proof (Z.mod_pos_bound now 268435456 ltac:(lia)) as Hb.
  set (a := t mod 268435456) in *. set (b := now mod 268435456) in *.
  clearbody a b.
  assert (Es : forall z, -2147483648 <= z < 2147483648 -> s32 (u32 z) = z).
  { intros z Hz. unfold s32, u32. rewrite Zplus_mod_idemp_l, Z.mod_small; lia. }
  assert (E1 : b < 134217728 -> u32 (b - 134217728) mod 268435456 = b + 134217728).
  { intros Hlt. unfold u32.
    rewrite <- (Z.mod_unique (b - 134217728) 4294967296 (-1) (b - 134217728 + 4294967296)) by lia.
    symmetry. apply (Z.mod_unique _ _ 15); lia. }
  assert (E2 : 134217728 < b -> u32 (u32 (b + 134217728) mod 268435456 + 1) = b - 134217728 + 1).
  { intros Hlt. rewrite (u32_id (b + 134217728)) by cside.
    rewrite <- (Z.mod_unique (b + 134217728) 268435456 1 (b - 134217728)) by lia.
    apply u32_id. cside. }
  destruct (Z.ltb_spec b 134217728) as [Hlt|Hge].
  - rewrite E1 by done. destruct (Z.leb_spec (b + 134217728) a), (Z.ltb_spec a 268435456);
      cbn [andb]; try lia.
    + rewrite (u32_id (a - (b + 134217728))) by cside. rewrite Es; lia.
    + rewrite Es; lia.
  - destruct (Z.eqb_spec b 134217728) as [->|Hne]; [rewrite Es; lia|].
    rewrite E2 by lia. destruct (Z.leb_spec 0 b), (Z.ltb_spec a (b - 134217728 + 1));
      cbn [andb]; try lia; rewrite Es; lia.
Qed.
