(* ===== verification/TimeoutThms.v ===== *)
(** * The timeout manager against its specification (lib/utils/timeout.c)

    Each operation of Timeout.v on the doubly linked lists, as an operation on the lists of
    the representation [tm_rep], and the theorems. *)

From S2P Require Import Prelude Links Timeout.
From Stdlib Require Import Sorting.Sorted.

(** ** The list operations on the representation *)

Lemma upd_to_view {A} (g : timeout -> A) p f m x :
  g (tm_mem (upd_to p f m) !!! x)
  = if x =? p then g (f (tm_mem m !!! p)) else g (tm_mem m !!! x).
Proof.
  unfold upd_to. cbn [tm_mem setf]. destruct (Z.eqb_spec x p) as [->|Hne].
  - by rewrite lookup_total_insert_eq.
  - by rewrite lookup_total_insert_ne.
Qed.

Lemma upd_to_dom p f m x :
  is_Some (tm_mem (upd_to p f m) !! x) <-> x = p \/ is_Some (tm_mem m !! x).
Proof.
  unfold upd_to. cbn [tm_mem setf]. rewrite lookup_insert_is_Some. 
  destruct (decide (p = x)); intuition congruence.
Qed.

Lemma nx_upd p f m y : nx (upd_to p f m) y = fupd (nx m) p (to_next (f (tm_mem m !!! p))) y.
Proof. apply upd_to_view. Qed.
Lemma pv_upd p f m y : pv (upd_to p f m) y = fupd (pv m) p (to_prev (f (tm_mem m !!! p))) y.
Proof. apply upd_to_view. Qed.
Lemma word_upd p f m y :
  word (upd_to p f m) y = fupd (word m) p (timeout_type (f (tm_mem m !!! p))) y.
Proof. apply upd_to_view. Qed.

(** An update of a cell outside of a list leaves the list. *)
Lemma dseg_upd_out c f m p h l t e :
  c ∉ l -> dseg (nx m) (pv m) p h l t e ->
  dseg (nx (upd_to c f m)) (pv (upd_to c f m)) p h l t e.
Proof.
  intros Hc. apply dseg_ext. intros y Hy. rewrite nx_upd, pv_upd, !fupd_ne; [done|..];
    by intros ->.
Qed.

(** The stores that redirect the end or the start of a list. *)
Definition set_next (t v : Z) (m : timeout_manager) : timeout_manager :=
  upd_to t (fun c => c <| to_next := v |>) m.
Definition set_prev (h v : Z) (m : timeout_manager) : timeout_manager :=
  upd_to h (fun c => c <| to_prev := v |>) m.

Lemma dseg_set_next m h l t e v :
  NoDup l -> 0 ∉ l -> dseg (nx m) (pv m) 0 h l t e ->
  if t =? 0 then dseg (nx m) (pv m) 0 v l t v
  else dseg (nx (set_next t v m)) (pv (set_next t v m)) 0 h l t v.
Proof.
  intros Hnd H0 Hs. pose proof (dseg_set_end _ _ _ _ _ _ v Hnd H0 Hs) as Hr.
  destruct (t =? 0); [done|]. eapply dseg_ext; [|exact Hr].
  intros y _. unfold set_next. rewrite nx_upd, pv_upd. split; [done|].
  unfold fupd. by destruct (Z.eqb_spec y t) as [->|].
Qed.

Lemma dseg_set_prev m p h l t v :
  NoDup l -> 0 ∉ l -> dseg (nx m) (pv m) p h l t 0 ->
  if h =? 0 then dseg (nx m) (pv m) v h l v 0
  else dseg (nx (set_prev h v m)) (pv (set_prev h v m)) v h l t 0.
Proof.
  intros Hnd H0 Hs. pose proof (dseg_set_start _ _ _ _ _ _ v Hnd H0 Hs) as Hr.
  destruct (h =? 0); [done|]. eapply dseg_ext; [|exact Hr].
  intros y _. unfold set_prev. rewrite nx_upd, pv_upd. split; [|done].
  unfold fupd. by destruct (Z.eqb_spec y h) as [->|].
Qed.

Lemma dseg_end_in nx pv p h l t e : dseg nx pv p h l t e -> t = p \/ t ∈ l.
Proof.
  intros ->%dseg_last. destruct (last l) eqn:E; [right|by left].
  by apply last_Some_elem_of.
Qed.

Lemma dseg_start_in nx pv p h l t e : dseg nx pv p h l t e -> h = e \/ h ∈ l.
Proof.
  destruct l as [|x l]; [by intros [-> _]; left|]. intros (-> & _). right.
  apply list_elem_of_here.
Qed.

(** The part of the representation that does not depend on the links. *)
Record to_meta (m : timeout_manager) (L : list Z) (P : list Z) (dl : Z -> Z) : Prop :=
  mk_meta {
  mt_dom : forall x, x ∈ L -> is_Some (tm_mem m !! x);
  mt_word : forall x, x ∈ P -> Z.land (word m x) TIMEOUT_MASK = dl x mod 268435456 }.

Lemma upd_to_meta c f m L P dl :
  (forall t, timeout_type (f t) = timeout_type t) ->
  to_meta m L P dl -> to_meta (upd_to c f m) L P dl.
Proof.
  intros Hf [Hd Hw]. constructor.
  - intros x Hx. apply upd_to_dom. right. by apply Hd.
  - intros x Hx. rewrite word_upd. unfold fupd. destruct (Z.eqb_spec x c) as [<-|];
      [rewrite Hf|]; by apply Hw.
Qed.

Lemma move_due_links x m l d :
  NoDup (x :: l ++ d) -> 0 ∉ x :: l ++ d ->
  dseg (nx m) (pv m) 0 (timeouts_first m) (x :: l) (timeouts_last m) 0 ->
  dseg (nx m) (pv m) 0 (due_first m) d (due_last m) 0 ->
  let m' := move_due_one x m in
  dseg (nx m') (pv m') 0 (timeouts_first m') l (timeouts_last m') 0
  /\ dseg (nx m') (pv m') 0 (due_first m') (d ++ [x]) (due_last m') 0
  /\ forall L P dl, to_meta m L P dl -> to_meta m' L P dl.
Proof.
  intros Hnd H0 (_ & _ & Hp) Hd. cbv zeta. unfold move_due_one.
  apply NoDup_cons in Hnd as [Hx Hnd]. rewrite elem_of_app in Hx.
  apply NoDup_app in Hnd as (Hndl & Hld & Hndd).
  rewrite elem_of_cons, elem_of_app in H0.
  set (n := to_next (tm_mem m !!! x)). change (nx m x) with n in Hp.
  (* the rest of the pending list *)
  set (m1 := if negb (n =? 0) then _ else _).
  assert (H1 : dseg (nx m1) (pv m1) 0 (timeouts_first m1) l (timeouts_last m1) 0
    /\ dseg (nx m1) (pv m1) 0 (due_first m1) d (due_last m1) 0
    /\ forall L P dl, to_meta m L P dl -> to_meta m1 L P dl).
  { pose proof (dseg_set_prev _ _ _ _ _ 0 Hndl ltac:(tauto) Hp) as Hs.
    subst m1. destruct (Z.eqb_spec n 0) as [E|E]; cbn [negb].
    - split; [exact Hs|]. split; [exact Hd|]. intros L P dl [? ?]. by constructor.
    - split; [exact Hs|]. split.
      + apply dseg_upd_out; [|exact Hd]. intros Hin.
        destruct (dseg_start_in _ _ _ _ _ _ _ Hp) as [|Hn]; [done|by apply (Hld n)].
      + intros L P dl HM. apply upd_to_meta; [done|]. by destruct HM. }
  destruct H1 as (Hp1 & Hd1 & HM1). clearbody m1.
  (* the moved timeout *)
  set (t := due_last m1) in *.
  set (m2 := upd_to x _ m1).
  assert (Hp2 : dseg (nx m2) (pv m2) 0 (timeouts_first m2) l (timeouts_last m2) 0)
    by (apply dseg_upd_out; [tauto|exact Hp1]).
  assert (Hd2 : dseg (nx m2) (pv m2) 0 (due_first m2) d t 0)
    by (apply dseg_upd_out; [tauto|exact Hd1]).
  assert (Hnx : nx m2 x = 0) by (unfold m2; rewrite nx_upd; apply fupd_eq).
  assert (Hpv : pv m2 x = t) by (unfold m2; rewrite pv_upd; apply fupd_eq).
  assert (HM2 : forall L P dl, to_meta m L P dl -> to_meta m2 L P dl)
    by (intros; apply upd_to_meta; [done|by apply HM1]).
  change (due_last m2) with t. clearbody m2. clear Hd1 Hp1 HM1.
  (* linking it to the end of the due list *)
  pose proof (dseg_set_next _ _ _ _ _ x Hndd ltac:(tauto) Hd2) as Hs.
  pose proof (dseg_end_in _ _ _ _ _ _ _ Hd2) as Ht.
  destruct (Z.eqb_spec t 0) as [E|E].
  - split; [exact Hp2|]. split.
    + apply dseg_app. exists t, x. by repeat split.
    + intros L P dl HM. destruct (HM2 _ _ _ HM). by constructor.
  - destruct Ht as [|Ht]; [done|].
    assert (Hxt : x <> t) by (intros ->; tauto).
    split; [|split].
    + apply dseg_upd_out; [|exact Hp2]. intros Hin. by apply (Hld t).
    + apply dseg_app. exists t, x. split; [exact Hs|].
      split; [done|]. split.
      * change (pv (set_next t x m2) x = t). unfold set_next.
        by rewrite pv_upd, fupd_ne.
      * split; [|done]. change (nx (set_next t x m2) x = 0). unfold set_next.
        by rewrite nx_upd, fupd_ne.
    + intros L P dl HM.
      destruct (upd_to_meta t (fun c => c <| to_next := x |>) m2 L P dl
                  ltac:(done) (HM2 _ _ _ HM)). by constructor.
Qed.

Definition to_links (m : timeout_manager) (l d : list Z) : Prop :=
  dseg (nx m) (pv m) 0 (timeouts_first m) l (timeouts_last m) 0
  /\ dseg (nx m) (pv m) 0 (due_first m) d (due_last m) 0.

Lemma tm_rep_of now m l d dl :
  to_links m l d -> NoDup (l ++ d) -> 0 ∉ l ++ d -> to_meta m (l ++ d) l dl ->
  (forall x, x ∈ l -> now - 134217728 < dl x < now + 134217728) ->
  StronglySorted (fun a b => dl a <= dl b) l -> tm_rep now m l d dl.
Proof. intros [? ?] ? ? [? ?] ? ?. by constructor. Qed.

Lemma tm_rep_meta now m l d dl : tm_rep now m l d dl -> to_meta m (l ++ d) l dl.
Proof. intros []. by constructor. Qed.

(** Due is due. *)
Lemma timeout_due_abs now m l d dl x :
  tm_rep now m l d dl -> x ∈ l ->
  timeout_due (tm_mem m !!! x) (ts28 now) = (dl x <=? now).
Proof.
  intros Hr Hx. unfold timeout_due. rewrite (rel_time_abs now _ (dl x)).
  - apply eq_true_iff_eq. rewrite !Z.leb_le. lia.
  - by apply (tr_word _ _ _ _ _ Hr).
  - by apply (tr_window _ _ _ _ _ Hr).
Qed.

(** One step of the loop. *)
Lemma move_due_one_ok now m x l d dl :
  tm_rep now m (x :: l) d dl -> tm_rep now (move_due_one x m) l (d ++ [x]) dl.
Proof.
  intros Hr. pose proof (tm_rep_meta _ _ _ _ _ Hr) as HM.
  destruct Hr as [Hp Hd Hnd H0 _ _ Hw Hs].
  destruct (move_due_links x m l d Hnd H0 Hp Hd) as (Hp' & Hd' & HM').
  assert (E : (x :: l) ++ d ≡ₚ l ++ d ++ [x]) by (cbn; solve_Permutation).
  apply tm_rep_of.
  - by split.
  - by rewrite <- E.
  - by rewrite <- E.
  - destruct (HM' _ _ _ HM) as [H1 H2]. constructor.
    + intros y Hy. apply H1. by rewrite E.
    + intros y Hy. apply H2. by apply list_elem_of_further.
  - intros y Hy. apply Hw. by apply list_elem_of_further.
  - by apply StronglySorted_inv in Hs as [? _].
Qed.

Lemma move_due_timeouts_ok fuel now m l d dl :
  tm_rep now m l d dl -> (length l < fuel)%nat ->
  exists m' l1 l2, move_due_timeouts fuel m (ts28 now) = Some m' /\ l = l1 ++ l2
  /\ Forall (fun x => dl x <= now) l1 /\ Forall (fun x => now < dl x) l2
  /\ tm_rep now m' l2 (d ++ l1) dl.
Proof.
  revert m l d. induction fuel as [|fuel IH]; intros m l d Hr Hl; [lia|].
  cbn [move_due_timeouts]. pose proof (dseg_head _ _ _ _ _ _ _ (tr_pending _ _ _ _ _ Hr)) as Hh.
  destruct l as [|x l]; cbn in Hh, Hl; rewrite Hh.
  - exists m, [], []. rewrite (app_nil_r d). split_and!; try done; by apply Forall_nil.
  - assert (Hx0 : x <> 0).
    { intros ->. apply (tr_null _ _ _ _ _ Hr). apply list_elem_of_here. }
    rewrite (proj2 (Z.eqb_neq x 0) Hx0).
    rewrite (timeout_due_abs now m (x :: l) d dl) by (done || apply list_elem_of_here).
    cbn [negb andb]. destruct (Z.leb_spec (dl x) now) as [Hdue|Hdue].
    + destruct (IH _ _ _ (move_due_one_ok _ _ _ _ _ _ Hr) ltac:(lia))
        as (m' & l1 & l2 & -> & -> & H1 & H2 & Hr').
      exists m', (x :: l1), l2. split; [done|]. split; [done|].
      split; [by constructor|]. split; [done|]. by rewrite <- (assoc_L (++)) in Hr'.
    + exists m, [], (x :: l). rewrite (app_nil_r d).
      pose proof (tr_sorted _ _ _ _ _ Hr) as Hs. apply StronglySorted_inv in Hs as [_ Hs].
      split_and!; try done. constructor; [done|].
      eapply Forall_impl; [exact Hs|]. cbn. lia.
Qed.

Lemma tm_fuel_enough now m l d dl : tm_rep now m l d dl -> (length l < tm_fuel m)%nat.
Proof.
  intros Hr. unfold tm_fuel. pose proof (tr_nodup _ _ _ _ _ Hr) as Hnd.
  apply NoDup_app in Hnd as (Hnd & _). apply Nat.lt_succ_r.
  apply length_le_size; [done|]. intros x Hx. apply (tr_dom _ _ _ _ _ Hr).
  apply elem_of_app. by left.
Qed.

(** The search finds the last timeout that is not later. *)
Lemma arm_find_ok fuel now m l d dl us A0 B0 :
  tm_rep now m l d dl -> Forall (fun x => now < dl x) l -> 0 <= us < 134217728 ->
  l = A0 ++ B0 -> Forall (fun x => now + us < dl x) B0 -> (length A0 < fuel)%nat ->
  exists A B, l = A ++ B
  /\ arm_find fuel m (ts28 now) us (default 0 (last A0)) = Some (default 0 (last A))
  /\ Forall (fun x => dl x <= now + us) A /\ Forall (fun x => now + us < dl x) B.
Proof.
  intros Hr Hfut Hus. revert A0 B0.
  induction fuel as [|fuel IH]; intros A0 B0 E HB Hl; [lia|]. cbn [arm_find].
  destruct A0 as [|x A0 _] using rev_ind.
  { by exists [], B0. }
  rewrite last_snoc. change (default 0 (Some x)) with x.
  rewrite length_app in Hl. cbn in Hl.
  rewrite <- (assoc_L (++)) in E. cbn in E.
  assert (Hx : x ∈ l) by (rewrite E, elem_of_app; right; apply list_elem_of_here).
  assert (Hx0 : x <> 0).
  { intros ->. apply (tr_null _ _ _ _ _ Hr). apply elem_of_app. by left. }
  rewrite (proj2 (Z.eqb_neq x 0) Hx0). cbn [negb andb].
  pose proof (tr_window _ _ _ _ _ Hr x Hx) as Hw.
  rewrite Forall_forall in Hfut. pose proof (Hfut x Hx) as Hf.
  rewrite (rel_time_abs now _ (dl x)) by (done || by apply (tr_word _ _ _ _ _ Hr)).
  rewrite u32_id by cside. destruct (Z.ltb_spec us (dl x - now)) as [Hlt|Hge].
  - replace (to_prev (tm_mem m !!! x)) with (default 0 (last A0)).
    + apply (IH A0 (x :: B0)); [done| |lia]. constructor; [lia|done].
    + symmetry. pose proof (tr_pending _ _ _ _ _ Hr) as Hp. rewrite E in Hp.
      by eapply (dseg_prev (nx m) (pv m)).
  - exists (A0 ++ [x]), B0. rewrite last_snoc. split; [by rewrite <- (assoc_L (++))|].
    split; [done|]. split; [|done].
    pose proof (tr_sorted _ _ _ _ _ Hr) as Hs. rewrite E in Hs.
    clear -Hs Hge. induction A0 as [|a A0 IH]; cbn in *; apply StronglySorted_inv in Hs as [Hs Ha].
    + constructor; [lia|constructor].
    + constructor; [|by apply IH]. rewrite Forall_forall in Ha.
      assert (dl a <= dl x); [|lia]. apply Ha. rewrite elem_of_app. right. apply list_elem_of_here.
Qed.

Lemma arm_insert_links m to w tp A B d :
  NoDup (to :: (A ++ B) ++ d) -> 0 ∉ to :: (A ++ B) ++ d ->
  to_links m (A ++ B) d -> tp = default 0 (last A) ->
  to_links (arm_insert m to w tp) (A ++ to :: B) d
  /\ word (arm_insert m to w tp) to = w
  /\ forall L P dl, to ∉ P -> to_meta m L P dl -> to_meta (arm_insert m to w tp) (to :: L) P dl.
Proof.
  intros Hnd H0 [Hp Hd] Htp. unfold arm_insert.
  apply NoDup_cons in Hnd as [Hx Hnd]. rewrite !elem_of_app in Hx.
  apply NoDup_app in Hnd as (Hndl & Hld & Hndd).
  apply NoDup_app in Hndl as (HndA & HAB & HndB).
  rewrite elem_of_cons, !elem_of_app in H0.
  apply dseg_app in Hp as (q & n & HA & HB).
  pose proof (dseg_last _ _ _ _ _ _ _ HA) as Hq. rewrite <- Htp in Hq. subst q. clear Htp.
  assert (Htn : (if negb (tp =? 0) then to_next (tm_mem m !!! tp) else timeouts_first m) = n).
  { pose proof (dseg_last _ _ _ _ _ _ _ HA) as Hl.
    destruct A as [|a A _] using rev_ind.
    - cbn in Hl. subst tp. cbn. by destruct HA.
    - rewrite last_snoc in Hl. cbn in Hl. subst tp.
      rewrite (proj2 (Z.eqb_neq a 0)).
      + by apply (dseg_next (nx m)) in HA.
      + intros ->. apply H0. right. left. left. rewrite elem_of_app.
        right. apply list_elem_of_here. }
  rewrite Htn. set (m1 := upd_to to _ m).
  assert (HA1 : dseg (nx m1) (pv m1) 0 (timeouts_first m1) A tp n)
    by (apply dseg_upd_out; [tauto|exact HA]).
  assert (HB1 : dseg (nx m1) (pv m1) tp n B (timeouts_last m1) 0)
    by (apply dseg_upd_out; [tauto|exact HB]).
  assert (Hd1 : dseg (nx m1) (pv m1) 0 (due_first m1) d (due_last m1) 0)
    by (apply dseg_upd_out; [tauto|exact Hd]).
  assert (Hnx : nx m1 to = n) by (unfold m1; rewrite nx_upd; apply fupd_eq).
  assert (Hpv : pv m1 to = tp) by (unfold m1; rewrite pv_upd; apply fupd_eq).
  assert (Hwd : word m1 to = w) by (unfold m1; rewrite word_upd; apply fupd_eq).
  assert (HM1 : forall L P dl, to ∉ P -> to_meta m L P dl -> to_meta m1 (to :: L) P dl).
  { intros L P dl HP [H1 H2]. constructor.
    - intros x Hin. apply upd_to_dom. apply elem_of_cons in Hin as [|]; auto.
    - intros x Hin. unfold m1. rewrite word_upd, fupd_ne; [by apply H2|]. by intros ->. }
  clearbody m1. clear HA HB Hd Htn.
  (* the predecessor *)
  set (m2 := if tp =? 0 then _ else _).
  assert (Htin := dseg_end_in _ _ _ _ _ _ _ HA1).
  assert (H2 : dseg (nx m2) (pv m2) 0 (timeouts_first m2) A tp to
    /\ dseg (nx m2) (pv m2) tp n B (timeouts_last m2) 0
    /\ dseg (nx m2) (pv m2) 0 (due_first m2) d (due_last m2) 0
    /\ nx m2 to = n /\ pv m2 to = tp /\ word m2 to = w
    /\ forall L P dl, to ∉ P -> to_meta m L P dl -> to_meta m2 (to :: L) P dl).
  { pose proof (dseg_set_next _ _ _ _ _ to HndA ltac:(tauto) HA1) as Hs.
    subst m2. destruct (Z.eqb_spec tp 0) as [E|E].
    - split_and!; try done. intros L P dl HP HM. destruct (HM1 _ _ _ HP HM). by constructor.
    - destruct Htin as [|Htin]; [done|]. assert (to <> tp) by (intros ->; tauto).
      split_and!.
      + exact Hs.
      + apply dseg_upd_out; [by apply HAB|exact HB1].
      + apply dseg_upd_out; [|exact Hd1]. apply Hld. rewrite elem_of_app. by left.
      + by rewrite nx_upd, fupd_ne.
      + by rewrite pv_upd, fupd_ne.
      + by rewrite word_upd, fupd_ne.
      + intros L P dl HP HM. by apply upd_to_meta, HM1. }
  destruct H2 as (HA2 & HB2 & Hd2 & Hnx2 & Hpv2 & Hwd2 & HM2). clearbody m2.
  clear HA1 HB1 Hd1 Hnx Hpv Hwd HM1.
  (* the successor *)
  assert (Hnin := dseg_start_in _ _ _ _ _ _ _ HB2).
  pose proof (dseg_set_prev _ _ _ _ _ to HndB ltac:(tauto) HB2) as Hs.
  destruct (Z.eqb_spec n 0) as [E|E].
  - split; [split; [|exact Hd2]|split; [exact Hwd2|]].
    + apply dseg_app. exists tp, to. split; [exact HA2|]. split; [done|]. split; [exact Hpv2|].
      change (dseg (nx m2) (pv m2) to (nx m2 to) B to 0). rewrite Hnx2. exact Hs.
    + intros L P dl HP HM. destruct (HM2 _ _ _ HP HM). by constructor.
  - destruct Hnin as [|Hnin]; [done|]. assert (to <> n) by (intros ->; tauto).
    split; [split|split].
    + apply dseg_app. exists tp, to. split.
      * apply dseg_upd_out; [|exact HA2]. intros Hin. by apply (HAB n).
      * split; [done|]. split; [by rewrite pv_upd, fupd_ne|].
        rewrite nx_upd, fupd_ne by done. rewrite Hnx2. exact Hs.
    + apply dseg_upd_out; [|exact Hd2]. apply Hld. rewrite elem_of_app. by right.
    + by rewrite word_upd, fupd_ne.
    + intros L P dl HP HM. by apply upd_to_meta, HM2.
Qed.

Lemma sorted_insert (f : Z -> Z) A B to t :
  StronglySorted (fun a b => f a <= f b) (A ++ B) ->
  Forall (fun x => f x <= t) A -> Forall (fun x => t < f x) B -> to ∉ A ++ B ->
  StronglySorted (fun a b => fupd f to t a <= fupd f to t b) (A ++ to :: B).
Proof.
  intros Hs HA HB Hn.
  assert (E : forall x, x ∈ A ++ B -> fupd f to t x = f x)
    by (intros x Hx; apply fupd_ne; by intros ->).
  induction A as [|a A IH]; cbn in *.
  - constructor.
    + clear Hn HB. induction B as [|b B IH]; [constructor|].
      apply StronglySorted_inv in Hs as [Hs Hb]. constructor.
      * apply IH; [done|]. intros x Hx. apply E. by apply list_elem_of_further.
      * rewrite Forall_forall in *. intros x Hx.
        rewrite !E by (apply list_elem_of_here || by apply list_elem_of_further).
        by apply Hb.
    + rewrite Forall_forall in *. intros x Hx. rewrite fupd_eq, E by done.
      pose proof (HB x Hx). lia.
  - apply StronglySorted_inv in Hs as [Hs Ha]. apply Forall_cons in HA as [Ht HA].
    rewrite elem_of_cons in Hn. constructor.
    + apply IH; [done|done|tauto|]. intros x Hx. apply E. by apply list_elem_of_further.
    + rewrite Forall_forall in *. intros x Hx. rewrite (E a) by apply list_elem_of_here.
      destruct (Z.eqb_spec x to) as [->|Hne]; [by rewrite fupd_eq|].
      rewrite fupd_ne by done. apply Ha. rewrite elem_of_app, elem_of_cons in Hx.
      rewrite elem_of_app. tauto.
Qed.

(** The word of an armed timeout. *)
Lemma arm_word now us type :
  0 <= us -> 0 <= type < 16 ->
  let w := Z.lor (u32 (Z.shiftl (u8 type) TIMEOUT_BITS))
             (Z.land (u32 (ts28 now + us)) TIMEOUT_MASK) in
  Z.land w TIMEOUT_MASK = (now + us) mod 268435456 /\ Z.shiftr w TIMEOUT_BITS = type.
Proof.
  intros Hu Ht. cbv zeta. rewrite (land_mask28 (u32 _)).
  assert (E : u32 (ts28 now + us) mod 268435456 = (now + us) mod 268435456).
  { unfold u32, ts28. change 4294967296 with (268435456 * 16).
    rewrite Z.rem_mul_r by lia. rewrite Z.mul_comm, Z.mod_add, Z.mod_mod by lia.
    by rewrite Zplus_mod_idemp_l. }
  rewrite E, u8_id by cside. unfold TIMEOUT_BITS.
  rewrite (u32_id (Z.shiftl type 28)) by (rewrite Z.shiftl_mul_pow2 by lia; cside).
  pose proof (Z.mod_pos_bound (now + us) 268435456 ltac:(lia)).
  rewrite lor_shiftl_low by lia. rewrite land_mask28. change (2 ^ 28) with 268435456.
  split.
  - rewrite Z.add_comm, Z.mod_add by lia. apply Z.mod_mod. lia.
  - rewrite Z.shiftr_div_pow2 by lia. change (2 ^ 28) with 268435456.
    rewrite Z.add_comm, Z.div_add by lia. rewrite Z.div_small by lia. done.
Qed.

Lemma land_u32_mask28 now : Z.land (u32 now) TIMEOUT_MASK = ts28 now.
Proof.
  rewrite land_mask28. unfold u32, ts28. change 4294967296 with (268435456 * 16).
  rewrite Z.rem_mul_r by lia. by rewrite Z.mul_comm, Z.mod_add, Z.mod_mod by lia.
Qed.

Lemma util_timeout_arm_ok now m l d dl to us type :
  tm_rep now m l d dl -> to ∉ l ++ d -> to <> 0 ->
  0 <= us < 134217728 -> 0 <= type < 16 ->
  exists m' l1 A B, util_timeout_arm_ts m to us type (u32 now) = Some m'
  /\ l = l1 ++ A ++ B
  /\ Forall (fun x => dl x <= now) l1 /\ Forall (fun x => now < dl x <= now + us) A
  /\ Forall (fun x => now + us < dl x) B
  /\ tm_rep now m' (A ++ to :: B) (d ++ l1) (fupd dl to (now + us))
  /\ Z.shiftr (word m' to) TIMEOUT_BITS = type.
Proof.
  intros Hr Hto H0 Hus Hty. unfold util_timeout_arm_ts. cbv zeta.
  rewrite !(land_u32_mask28 now), (proj2 (Z.leb_gt _ _)) by lia.
  destruct (move_due_timeouts_ok (tm_fuel m) now m l d dl Hr) as
    (m1 & l1 & l2 & Em & -> & Hl1 & Hl2 & Hr1); [by eapply tm_fuel_enough|].
  rewrite Em. cbn [mbind option_bind].
  pose proof (tm_fuel_enough _ _ _ _ _ Hr1) as Hfuel.
  assert (Hl : timeouts_last m1 = default 0 (last l2))
    by (eapply (dseg_last (nx m1)); apply (tr_pending _ _ _ _ _ Hr1)).
  rewrite Hl.
  destruct (arm_find_ok (tm_fuel m1) now m1 l2 (d ++ l1) dl us l2 [] Hr1 Hl2 Hus)
    as (A & B & -> & -> & HA & HB); [by rewrite app_nil_r|by apply Forall_nil|done|].
  cbn [mbind option_bind].
  set (w := Z.lor _ _). destruct (arm_word now us type ltac:(lia) Hty) as [Hw1 Hw2].
  fold w in Hw1, Hw2. clearbody w.
  assert (Hn : to ∉ (A ++ B) ++ d ++ l1).
  { intros Hin. apply Hto. rewrite !elem_of_app in *. tauto. }
  pose proof (tm_rep_meta _ _ _ _ _ Hr1) as HM.
  destruct Hr1 as [Hp Hd Hnd H00 _ _ Hwin Hs].
  destruct (arm_insert_links m1 to w (default 0 (last A)) A B (d ++ l1))
    as (HL & Hwd & HM'); [by constructor| |by split|done|].
  { rewrite elem_of_cons. intros [|]; congruence || done. }
  assert (Hn' : to ∉ A ++ B) by (intros Hin; apply Hn; apply elem_of_app; by left).
  destruct (HM' _ _ _ Hn' HM) as [H1 H2].
  exists (arm_insert m1 to w (default 0 (last A))), l1, A, B.
  rewrite Forall_app in Hl2. destruct Hl2 as [HA' HB'].
  split_and!; try done.
  - rewrite Forall_forall in *. intros x Hx. split; [by apply HA'|by apply HA].
  - assert (Ep : (A ++ to :: B) ++ d ++ l1 ≡ₚ to :: (A ++ B) ++ d ++ l1) by solve_Permutation.
    apply tm_rep_of.
    + done.
    + rewrite Ep. by constructor.
    + rewrite Ep, elem_of_cons. intros [|]; congruence || done.
    + constructor.
      * intros x Hx. apply H1. by rewrite Ep in Hx.
      * intros x Hx. destruct (Z.eqb_spec x to) as [->|Hne].
        { rewrite fupd_eq, Hwd. exact Hw1. }
        rewrite fupd_ne by done. apply H2.
        rewrite elem_of_app, elem_of_cons in Hx. rewrite elem_of_app. tauto.
    + intros x Hx. destruct (Z.eqb_spec x to) as [->|Hne]; [rewrite fupd_eq; lia|].
      rewrite fupd_ne by done. apply Hwin.
      rewrite elem_of_app, elem_of_cons in Hx. rewrite elem_of_app. tauto.
    + by apply sorted_insert.
  - by rewrite Hwd.
Qed.

(** Unlinking [x] from the list it is in. *)
Definition unlink (x : Z) (m : timeout_manager) : timeout_manager :=
  let m' := if pv m x =? 0 then m else set_next (pv m x) (nx m x) m in
  if nx m x =? 0 then m' else set_prev (nx m x) (pv m x) m'.

Lemma unlink_dseg m h A x B t :
  NoDup (A ++ x :: B) -> 0 ∉ A ++ x :: B ->
  dseg (nx m) (pv m) 0 h (A ++ x :: B) t 0 ->
  dseg (nx (unlink x m)) (pv (unlink x m)) 0 (if pv m x =? 0 then nx m x else h) (A ++ B)
    (if nx m x =? 0 then pv m x else t) 0
  /\ (pv m x = 0 -> h = x) /\ (nx m x = 0 -> t = x)
  /\ (pv m x <> 0 -> pv m x ∈ A) /\ (nx m x <> 0 -> nx m x ∈ B).
Proof.
  intros Hnd H0 Hs. unfold unlink.
  apply NoDup_app in Hnd as (HndA & HAB & HndB). apply NoDup_cons in HndB as [HxB HndB].
  rewrite elem_of_app, elem_of_cons in H0.
  apply dseg_app in Hs as (q & y & HA & (-> & Hq & HB)).
  subst q. set (p := pv m x) in *. set (n := nx m x) in *.
  assert (HxA : x ∉ A) by (intros Hin; apply (HAB x Hin), list_elem_of_here).
  assert (HpA := dseg_end_in _ _ _ _ _ _ _ HA). assert (HnB := dseg_start_in _ _ _ _ _ _ _ HB).
  split; [|split_and!; [|..|tauto|tauto]].
  - set (m1 := if p =? 0 then m else _).
    assert (H1 : dseg (nx m1) (pv m1) 0 (if p =? 0 then n else h) A p n
                 /\ dseg (nx m1) (pv m1) x n B t 0).
    { pose proof (dseg_set_next _ _ _ _ _ n HndA ltac:(tauto) HA) as Hs.
      subst m1. destruct (Z.eqb_spec p 0) as [E|E]; [by split|]. split; [exact Hs|].
      apply dseg_upd_out; [|exact HB]. destruct HpA as [|HpA]; [done|].
      intros Hin. apply (HAB p HpA). by apply list_elem_of_further. }
    destruct H1 as [HA1 HB1]. clearbody m1.
    pose proof (dseg_set_prev _ _ _ _ _ p HndB ltac:(tauto) HB1) as Hs.
    apply dseg_app. destruct (Z.eqb_spec n 0) as [E|E]; [by exists p, n|].
    exists p, n. split; [|exact Hs]. apply dseg_upd_out; [|exact HA1].
    destruct HnB as [|HnB]; [done|]. intros Hin. apply (HAB n Hin).
    by apply list_elem_of_further.
  - intros E. rewrite E in HA. destruct A as [|a A _] using rev_ind; [by destruct HA|].
    pose proof (dseg_last _ _ _ _ _ _ _ HA) as Hl. rewrite last_snoc in Hl. cbn in Hl.
    exfalso. apply H0. left. subst a. apply elem_of_app. right. apply list_elem_of_here.
  - intros E. rewrite E in HB. destruct B as [|b B]; [by destruct HB|].
    destruct HB as (<- & _). exfalso. apply H0. right. right. apply list_elem_of_here.
Qed.

Lemma unlink_other x m h l t :
  pv m x ∉ l -> nx m x ∉ l -> dseg (nx m) (pv m) 0 h l t 0 ->
  dseg (nx (unlink x m)) (pv (unlink x m)) 0 h l t 0.
Proof.
  intros Hp Hn Hs. unfold unlink.
  destruct (pv m x =? 0), (nx m x =? 0); [done|..];
    repeat (apply dseg_upd_out; [done|]); done.
Qed.

Lemma unlink_meta x m L P dl : to_meta m L P dl -> to_meta (unlink x m) L P dl.
Proof.
  intros HM. unfold unlink. destruct (pv m x =? 0), (nx m x =? 0); [done|..];
    repeat apply upd_to_meta; done.
Qed.

(** [disarm] is [unlink] with the change of the head and tail pointers. *)
Lemma disarm_pending m A x B d :
  NoDup ((A ++ x :: B) ++ d) -> 0 ∉ (A ++ x :: B) ++ d -> to_links m (A ++ x :: B) d ->
  exists m', util_timeout_disarm m x = Some m' /\ to_links m' (A ++ B) d
  /\ forall L P dl, to_meta m L P dl -> to_meta m' L P dl.
Proof.
  intros Hnd H0 [Hp Hd]. apply NoDup_app in Hnd as (Hndl & Hld & Hndd).
  rewrite elem_of_app in H0.
  destruct (unlink_dseg m _ A x B _ Hndl ltac:(tauto) Hp) as (Hs & Hh & Ht & HpA & HnB).
  assert (Hd' : dseg (nx (unlink x m)) (pv (unlink x m)) 0 (due_first m) d (due_last m) 0).
  { apply unlink_other; [| |exact Hd]; intros Hin.
    - destruct (decide (pv m x = 0)) as [E|E]; [rewrite E in Hin; tauto|].
      apply (Hld (pv m x)); [|done]. apply elem_of_app. left. by apply HpA.
    - destruct (decide (nx m x = 0)) as [E|E]; [rewrite E in Hin; tauto|].
      apply (Hld (nx m x)); [|done]. apply elem_of_app. right.
      apply list_elem_of_further. by apply HnB. }
  pose proof (fun L P dl => unlink_meta x m L P dl) as HM.
  unfold util_timeout_disarm. fold (pv m x) (nx m x). unfold unlink in *.
  destruct (Z.eqb_spec (pv m x) 0) as [Ep|Ep], (Z.eqb_spec (nx m x) 0) as [En|En];
    rewrite ?(Hh Ep), ?(Ht En), ?Z.eqb_refl in *; cbn [mbind option_bind];
    try change (timeouts_last (set_next _ _ m)) with (timeouts_last m);
    try change (timeouts_last (upd_to _ _ m)) with (timeouts_last m);
    try change (timeouts_last (m <| timeouts_first := _ |>)) with (timeouts_last m);
    rewrite ?(Ht En), ?Z.eqb_refl.
  all: (eexists; split; [reflexivity|]; split; [by split|]).
  all: intros L P dl HL; destruct (HM L P dl HL); by constructor.
Qed.

Lemma disarm_due m l A x B :
  NoDup (l ++ A ++ x :: B) -> 0 ∉ l ++ A ++ x :: B -> to_links m l (A ++ x :: B) ->
  exists m', util_timeout_disarm m x = Some m' /\ to_links m' l (A ++ B)
  /\ forall L P dl, to_meta m L P dl -> to_meta m' L P dl.
Proof.
  intros Hnd H0 [Hp Hd]. apply NoDup_app in Hnd as (Hndl & Hld & Hndd).
  rewrite elem_of_app in H0.
  destruct (unlink_dseg m _ A x B _ Hndd ltac:(tauto) Hd) as (Hs & Hh & Ht & HpA & HnB).
  assert (Hx : x ∈ A ++ x :: B) by (apply elem_of_app; right; apply list_elem_of_here).
  assert (Hp' : dseg (nx (unlink x m)) (pv (unlink x m)) 0 (timeouts_first m) l
                  (timeouts_last m) 0).
  { apply unlink_other; [| |exact Hp]; intros Hin.
    - destruct (decide (pv m x = 0)) as [E|E]; [rewrite E in Hin; tauto|].
      apply (Hld _ Hin). apply elem_of_app. left. by apply HpA.
    - destruct (decide (nx m x = 0)) as [E|E]; [rewrite E in Hin; tauto|].
      apply (Hld _ Hin). apply elem_of_app. right. apply list_elem_of_further. by apply HnB. }
  assert (Hf : (timeouts_first m =? x) = false).
  { apply Z.eqb_neq. intros E. destruct (dseg_start_in _ _ _ _ _ _ _ Hp) as [E0|Hin].
    - apply H0. right. by rewrite <- E0, E.
    - rewrite E in Hin. by apply (Hld x). }
  assert (Hl : (timeouts_last m =? x) = false).
  { apply Z.eqb_neq. intros E. destruct (dseg_end_in _ _ _ _ _ _ _ Hp) as [E0|Hin].
    - apply H0. right. by rewrite <- E0, E.
    - rewrite E in Hin. by apply (Hld x). }
  pose proof (fun L P dl => unlink_meta x m L P dl) as HM.
  unfold util_timeout_disarm. fold (pv m x) (nx m x). rewrite Hf. unfold unlink in *.
  destruct (Z.eqb_spec (pv m x) 0) as [Ep|Ep], (Z.eqb_spec (nx m x) 0) as [En|En];
    rewrite ?(Hh Ep), ?(Ht En), ?Z.eqb_refl in *; cbn [mbind option_bind];
    try change (timeouts_last (upd_to _ _ m)) with (timeouts_last m);
    try change (timeouts_last (m <| due_first := _ |>)) with (timeouts_last m);
    try change (due_last (upd_to _ _ m)) with (due_last m);
    try change (due_last (m <| due_first := _ |>)) with (due_last m);
    rewrite ?Hl, ?(Ht En), ?Z.eqb_refl.
  all: (eexists; split; [reflexivity|]; split; [by split|]).
  all: intros L P dl HL; destruct (HM L P dl HL); by constructor.
Qed.

Lemma StronglySorted_sublist {A} (R : A -> A -> Prop) l k :
  l `sublist_of` k -> StronglySorted R k -> StronglySorted R l.
Proof.
  induction 1 as [|x l k Hl IH|x l k Hl IH]; [done|..];
    intros [Hs Hx]%StronglySorted_inv; [|by apply IH].
  constructor; [by apply IH|]. rewrite Forall_forall in *. intros y Hy. apply Hx.
  by eapply elem_of_sublist.
Qed.

(** The representation after timeouts have been taken out. *)
Lemma tm_rep_shrink now m m' l d l' d' dl :
  tm_rep now m l d dl -> l' `sublist_of` l -> d' `sublist_of` d -> to_links m' l' d' ->
  (forall L P dl, to_meta m L P dl -> to_meta m' L P dl) -> tm_rep now m' l' d' dl.
Proof.
  intros Hr Hl Hd HL HM. assert (Hs : (l' ++ d') `sublist_of` (l ++ d)) by by apply sublist_app.
  pose proof (HM _ _ _ (tm_rep_meta _ _ _ _ _ Hr)) as [M1 M2].
  destruct Hr as [_ _ Hnd H0 _ _ Hw Hst]. apply tm_rep_of; [done|..].
  - by eapply sublist_NoDup.
  - intros Hin. apply H0. by eapply elem_of_sublist.
  - constructor; intros x Hx; [apply M1|apply M2]; by eapply elem_of_sublist.
  - intros x Hx. apply Hw. by eapply elem_of_sublist.
  - by eapply StronglySorted_sublist.
Qed.

Lemma sublist_middle {A} (A1 B1 : list A) x :
  (A1 ++ B1) `sublist_of` (A1 ++ x :: B1).
Proof. apply sublist_app; [done|]. by apply sublist_cons. Qed.

Lemma util_timeout_disarm_ok now m l d dl x :
  tm_rep now m l d dl -> x ∈ l ++ d ->
  exists m', util_timeout_disarm m x = Some m'
  /\ exists l' d', tm_rep now m' l' d' dl
     /\ (forall y, y ∈ l' <-> y ∈ l /\ y <> x) /\ (forall y, y ∈ d' <-> y ∈ d /\ y <> x)
     /\ l' `sublist_of` l /\ d' `sublist_of` d.
Proof.
  intros Hr Hx. pose proof (tr_nodup _ _ _ _ _ Hr) as Hnd.
  pose proof (conj (tr_pending _ _ _ _ _ Hr) (tr_due _ _ _ _ _ Hr)) as HL.
  pose proof (tr_null _ _ _ _ _ Hr) as H0.
  assert (Hmid : forall (A B : list Z), NoDup (A ++ x :: B) ->
    forall y, y ∈ A ++ B <-> y ∈ A ++ x :: B /\ y <> x).
  { intros A B (HA & HAB & [HxB _]%NoDup_cons)%NoDup_app y.
    rewrite !elem_of_app, elem_of_cons. split.
    - intros [Hy|Hy]; (split; [tauto|]); intros ->; [|done].
      apply (HAB x Hy), list_elem_of_here.
    - intros [[?|[?|?]] ?]; [by left|done|by right]. }
  apply elem_of_app in Hx as [Hx|Hx]; apply list_elem_of_split in Hx as (A & B & ->).
  - destruct (disarm_pending m A x B d Hnd H0 HL) as (m' & -> & HL' & HM).
    exists m'. split; [done|]. exists (A ++ B), d.
    apply NoDup_app in Hnd as (Hnl & Hld & Hndd).
    split; [eapply tm_rep_shrink; eauto using sublist_middle|].
    split_and!; [by apply Hmid| |apply sublist_middle|done].
    intros y. split; [|tauto]. intros Hy. split; [done|]. intros ->.
    apply (Hld x); [|done]. apply elem_of_app. right. apply list_elem_of_here.
  - destruct (disarm_due m l A x B Hnd H0 HL) as (m' & -> & HL' & HM).
    exists m'. split; [done|]. exists l, (A ++ B).
    apply NoDup_app in Hnd as (Hnl & Hld & Hndd).
    split; [eapply tm_rep_shrink; eauto using sublist_middle|].
    split_and!; [|by apply Hmid|done|apply sublist_middle].
    intros y. split; [|tauto]. intros Hy. split; [done|]. intros ->.
    apply (Hld x Hy). apply elem_of_app. right. apply list_elem_of_here.
Qed.

(** Time passes: no timeout may be more than 2^27 microseconds overdue. *)
Lemma tm_rep_later now now' m l d dl :
  tm_rep now m l d dl -> now <= now' -> (forall x, x ∈ l -> now' - 134217728 < dl x) ->
  tm_rep now' m l d dl.
Proof.
  intros [? ? ? ? ? ? Hwin ?] Hle Hw. constructor; try done.
  intros x Hx. split; [by apply Hw|]. pose proof (Hwin x Hx). lia.
Qed.

(** Taking the first due timeout. *)
Lemma pop_due_ok now m x l d dl :
  tm_rep now m l (x :: d) dl ->
  due_first m = x /\ x <> 0 /\ tm_rep now (pop_due x m) l d dl
  /\ word (pop_due x m) x = word m x.
Proof.
  intros Hr. pose proof (tr_due _ _ _ _ _ Hr) as (Hf & _ & Hd).
  pose proof (tr_pending _ _ _ _ _ Hr) as Hp.
  pose proof (tr_nodup _ _ _ _ _ Hr) as Hnd. pose proof (tr_null _ _ _ _ _ Hr) as H0.
  apply NoDup_app in Hnd as (Hndl & Hld & Hndd). apply NoDup_cons in Hndd as [Hx Hndd].
  rewrite elem_of_app, elem_of_cons in H0.
  split; [done|]. split; [intros ->; tauto|].
  pose proof (dseg_set_prev _ _ _ _ _ 0 Hndd ltac:(tauto) Hd) as Hs.
  assert (Hn := dseg_start_in _ _ _ _ _ _ _ Hd).
  unfold pop_due. cbn [due_first setf]. fold (nx m x).
  destruct (Z.eqb_spec (nx m x) 0) as [E|E]; cbn [negb].
  - split; [|done]. eapply tm_rep_shrink; [exact Hr|done|by apply sublist_cons|by split|].
    intros L P dl' HM. destruct HM. by constructor.
  - destruct Hn as [|Hn]; [done|]. split.
    + eapply tm_rep_shrink; [exact Hr|done|by apply sublist_cons|split|].
      * apply dseg_upd_out; [|exact Hp]. intros Hin. apply (Hld _ Hin).
        by apply list_elem_of_further.
      * exact Hs.
      * intros L P dl' HM. apply upd_to_meta; [done|]. destruct HM. by constructor.
    + rewrite word_upd. unfold fupd. by destruct (Z.eqb_spec x (nx m x)) as [<-|].
Qed.

Lemma word_upd_same c f m y :
  (forall t, timeout_type (f t) = timeout_type t) -> word (upd_to c f m) y = word m y.
Proof.
  intros Hf. rewrite word_upd. unfold fupd.
  destruct (Z.eqb_spec y c) as [->|]; [apply Hf|done].
Qed.

Lemma move_due_one_word x m y : word (move_due_one x m) y = word m y.
Proof.
  assert (Hh : forall m1 m2, tm_mem m1 = tm_mem m2 -> word m1 y = word m2 y)
    by (intros m1 m2 E; unfold word; by rewrite E).
  unfold move_due_one. cbv zeta.
  set (m1 := if negb _ then _ else _).
  assert (E1 : word m1 y = word m y).
  { subst m1. destruct (negb _); [|by apply Hh]. rewrite word_upd_same by done. by apply Hh. }
  set (m2 := upd_to x _ m1).
  assert (E2 : word m2 y = word m1 y) by (by apply word_upd_same).
  set (m3 := if _ =? 0 then _ else _).
  assert (E3 : word m3 y = word m2 y).
  { subst m3. destruct (due_last m2 =? 0); [by apply Hh|]. by apply word_upd_same. }
  rewrite <- E1, <- E2, <- E3. by apply Hh.
Qed.

Lemma move_due_timeouts_word fuel m ts m' y :
  move_due_timeouts fuel m ts = Some m' -> word m' y = word m y.
Proof.
  revert m. induction fuel as [|fuel IH]; [done|]. intros m. cbn [move_due_timeouts].
  case_match; [|by intros [= <-]]. intros ->%IH. apply move_due_one_word.
Qed.

Section PollOk.
Context (handler : timeout_manager -> Z -> Z -> option timeout_manager) (now : Z).

(** The handler succeeds, may arm timeouts, and leaves the due ones alone. *)
Definition handler_ok : Prop := forall m l d dl to type,
  tm_rep now m l d dl -> to ∉ l ++ d ->
  exists m' l' d' dl', handler m to type = Some m' /\ tm_rep now m' l' (d ++ d') dl'
  /\ forall y, y ∈ d -> word m' y = word m y.

Lemma poll_due_ok n m l d dl :
  handler_ok -> tm_rep now m l d dl ->
  exists m' calls, poll_due handler n m = Some (m', calls)
  /\ take (length d) calls = take n (map (fun x => (x, Z.shiftr (word m x) TIMEOUT_BITS)) d)
  /\ exists l' d' dl', tm_rep now m' l' d' dl'.
Proof.
  intros Hh. revert m l d dl. induction n as [|n IH]; intros m l d dl Hr; cbn [poll_due].
  { exists m, []. rewrite take_nil. split; [done|]. split; [done|]. by exists l, d, dl. }
  destruct d as [|x d].
  { pose proof (tr_due _ _ _ _ _ Hr) as [-> _]. cbn.
    exists m, []. split; [done|]. split; [done|]. by exists l, [], dl. }
  pose proof (tr_nodup _ _ _ _ _ Hr) as Hnd.
  assert (Hx : x ∉ l ++ d).
  { assert (Ep : l ++ x :: d ≡ₚ x :: l ++ d) by solve_Permutation.
    rewrite Ep in Hnd. by apply NoDup_cons in Hnd as [? _]. }
  destruct (pop_due_ok _ _ _ _ _ _ Hr) as (Hf & Hx0 & Hr1 & Hwx).
  rewrite Hf, (proj2 (Z.eqb_neq x 0) Hx0). cbn [negb].
  assert (Hw1 : forall y, word (pop_due x m) y = word m y).
  { intros y. unfold pop_due. case_match; [|done]. rewrite word_upd. unfold fupd.
    by destruct (Z.eqb_spec y (due_first (m <| due_first := to_next (tm_mem m !!! x) |>)))
      as [->|]. }
  fold (word (pop_due x m) x). rewrite Hw1.
  destruct (Hh _ _ _ _ x (Z.shiftr (word m x) TIMEOUT_BITS) Hr1 Hx)
    as (m2 & l2 & d2 & dl2 & -> & Hr2 & Hw2).
  cbn [mbind option_bind].
  destruct (IH _ _ _ _ Hr2) as (m3 & calls & -> & Hc & Hr3). cbn [mbind option_bind].
  eexists _, _. split; [reflexivity|]. split; [|done].
  rewrite length_cons. cbn [take map]. f_equal.
  apply (f_equal (take (length d))) in Hc.
  rewrite !take_take, Nat.min_l in Hc by (rewrite length_app; lia). rewrite Hc.
  rewrite Nat.min_comm, <- take_take. f_equal.
  rewrite map_app, take_app_le by (by rewrite length_map).
  rewrite take_ge by (by rewrite length_map). apply map_ext_in.
  intros y Hy%list_elem_of_In. by rewrite Hw2, Hw1.
Qed.

End PollOk.

(** * Properties of the timeout manager *)

(** C30: Arming a timeout refines the insertion into a list ordered by absolute
    time, across wrap-around of the 28-bit stamps: timeouts that are due go to
    the due list in order, the new timeout goes behind all pending timeouts that
    are not later and before all later ones, and no other timeout changes. *)
Theorem util_timeout_arm_inserts now m l d dl to us type :
  tm_rep now m l d dl -> to ∉ l ++ d -> to <> 0 ->
  0 <= us < 134217728 -> 0 <= type < 16 ->
  exists m' l1 A B, util_timeout_arm_ts m to us type (u32 now) = Some m'
  /\ l = l1 ++ A ++ B
  /\ Forall (fun x => dl x <= now) l1 /\ Forall (fun x => now < dl x <= now + us) A
  /\ Forall (fun x => now + us < dl x) B
  /\ tm_rep now m' (A ++ to :: B) (d ++ l1) (fupd dl to (now + us))
  /\ Z.shiftr (word m' to) TIMEOUT_BITS = type.
Proof. intros. by apply util_timeout_arm_ok. Qed.

(** Five unused timeouts at addresses 1 to 5. *)
Definition ex_tm : timeout_manager :=
  util_timeout_init (list_to_map (map (fun i => (i, mk_timeout 0 0 0)) [1; 2; 3; 4; 5])).

Lemma ex_tm_rep now : tm_rep now ex_tm [] [] (fun _ => 0).
Proof.
  constructor; cbn [app]; try done; try apply not_elem_of_nil; try apply NoDup_nil_2;
    try apply SSorted_nil; intros x Hx; by apply not_elem_of_nil in Hx.
Qed.

Lemma util_timeout_arm_inserts_witness : exists m',
  util_timeout_arm_ts ex_tm 2 1000 3 (u32 (2 ^ 40)) = Some m'
  /\ tm_rep (2 ^ 40) m' [2] [] (fupd (fun _ => 0) 2 (2 ^ 40 + 1000)).
Proof.
  destruct (util_timeout_arm_inserts (2 ^ 40) ex_tm [] [] (fun _ => 0) 2 1000 3
              (ex_tm_rep _)) as (m' & l1 & A & B & E & El & _ & _ & _ & Hr & _);
    [apply not_elem_of_nil|lia|lia|lia|].
  symmetry in El. apply app_nil in El as [-> El]. apply app_nil in El as [-> ->].
  exists m'. exact (conj E Hr).
Defined.

(** C32: a poll fires the due timeouts: first those already on the due list, then
    the pending ones whose time has come, in order of time, each with the type
    it was armed with and at most [MAX_TIMEOUTS] of them.  The handlers may arm
    further timeouts, and the manager stays well formed. *)
Theorem util_timeout_poll_fires handler now m l d dl :
  handler_ok handler now -> tm_rep now m l d dl ->
  exists m' calls due later,
    util_timeout_poll_ts handler m (u32 now) = Some (m', calls)
    /\ l = due ++ later
    /\ Forall (fun x => dl x <= now) due /\ Forall (fun x => now < dl x) later
    /\ take (length (d ++ due)) calls
       = take MAX_TIMEOUTS (map (fun x => (x, Z.shiftr (word m x) TIMEOUT_BITS)) (d ++ due))
    /\ exists l' d' dl', tm_rep now m' l' d' dl'.
Proof.
  intros Hh Hr. unfold util_timeout_poll_ts. rewrite (land_u32_mask28 now).
  destruct (move_due_timeouts_ok (tm_fuel m) now m l d dl Hr) as
    (m1 & due & later & Em & -> & H1 & H2 & Hr1); [by eapply tm_fuel_enough|].
  rewrite Em.
  cbn [mbind option_bind].
  destruct (poll_due_ok handler now MAX_TIMEOUTS m1 later (d ++ due) dl Hh Hr1)
    as (m' & calls & -> & Hc & Hr').
  exists m', calls, due, later. split_and!; try done. rewrite Hc. f_equal.
  apply map_ext. intros x. by rewrite (move_due_timeouts_word _ _ _ _ x Em).
Qed.

Lemma util_timeout_poll_fires_witness : exists m1 m2 calls,
  util_timeout_arm_ts ex_tm 2 1000 3 (u32 0) = Some m1
  /\ util_timeout_poll_ts (fun m _ _ => Some m) m1 (u32 2000) = Some (m2, calls)
  /\ take 1 calls = [(2, 3)].
Proof.
  destruct (util_timeout_arm_ok 0 ex_tm [] [] (fun _ => 0) 2 1000 3
              (ex_tm_rep _)) as (m1 & l1 & A & B & E & El & _ & _ & _ & Hr & Hty);
    [apply not_elem_of_nil|lia|lia|lia|].
  symmetry in El. apply app_nil in El as [-> El]. apply app_nil in El as [-> ->].
  assert (Hr2 : tm_rep 2000 m1 [2] [] (fupd (fun _ => 0) 2 1000)).
  { apply (tm_rep_later 0); [exact Hr|lia|]. intros x Hx.
    apply list_elem_of_singleton in Hx as ->. rewrite fupd_eq. lia. }
  destruct (util_timeout_poll_fires (fun m _ _ => Some m) 2000 m1 [2] []
              (fupd (fun _ => 0) 2 1000))
    as (m2 & calls & due & later & E2 & Edl & Hdue & Hlater & Hc & _); [|exact Hr2|].
  - intros m l d dl to type Hm _. exists m, l, [], dl. rewrite (app_nil_r d).
    split; [reflexivity|]. split; [exact Hm|]. reflexivity.
  - exists m1, m2, calls. split; [exact E|]. split; [exact E2|].
    destruct due as [|y due]; cbn in Edl.
    + subst later. apply Forall_cons in Hlater as [Hl _]. rewrite fupd_eq in Hl. lia.
    + injection Edl as <- Edl. symmetry in Edl. apply app_nil in Edl as [-> ->].
      cbn in Hc. rewrite Hc. cbn. unfold word in Hty. by rewrite <- Hty.
Defined.

(** Arming a timeout and disarming it again leaves exactly the other
    timeouts, in their order. *)
Theorem util_timeout_arm_disarm now m l d dl to us type :
  tm_rep now m l d dl -> to ∉ l ++ d -> to <> 0 ->
  0 <= us < 134217728 -> 0 <= type < 16 ->
  exists m1 m2 l1 l2, util_timeout_arm_ts m to us type (u32 now) = Some m1
  /\ util_timeout_disarm m1 to = Some m2
  /\ l = l1 ++ l2 /\ Forall (fun x => dl x <= now) l1 /\ Forall (fun x => now < dl x) l2
  /\ tm_rep now m2 l2 (d ++ l1) (fupd dl to (now + us)).
Proof.
  intros Hr Hto H0 Hus Hty.
  destruct (util_timeout_arm_ok now m l d dl to us type Hr Hto H0 Hus Hty)
    as (m1 & l1 & A & B & E & -> & H1 & HA & HB & Hr1 & _).
  destruct (disarm_pending m1 A to B (d ++ l1) (tr_nodup _ _ _ _ _ Hr1)
              (tr_null _ _ _ _ _ Hr1)
              (conj (tr_pending _ _ _ _ _ Hr1) (tr_due _ _ _ _ _ Hr1)))
    as (m2 & E2 & HL & HM).
  exists m1, m2, l1, (A ++ B). split_and!; try done.
  - apply Forall_app. split; [by eapply Forall_impl; [exact HA|]; cbn; lia|].
    eapply Forall_impl; [exact HB|]. cbn. lia.
  - eapply tm_rep_shrink; [exact Hr1|apply sublist_middle|done|done|done].
Qed.

Lemma util_timeout_arm_disarm_witness : exists m1 m2,
  util_timeout_arm_ts ex_tm 2 1000 3 (u32 0) = Some m1
  /\ util_timeout_disarm m1 2 = Some m2
  /\ timeouts_first m2 = 0.
Proof.
  destruct (util_timeout_arm_disarm 0 ex_tm [] [] (fun _ => 0) 2 1000 3 (ex_tm_rep _))
    as (m1 & m2 & l1 & l2 & E1 & E2 & El & _ & _ & Hr);
    [apply not_elem_of_nil|lia|lia|lia|].
  symmetry in El. apply app_nil in El as [-> ->].
  exists m1, m2. split; [exact E1|]. split; [exact E2|].
  pose proof (tr_pending _ _ _ _ _ Hr) as Hp. exact (proj1 Hp).
Defined.
