(* ===== verification/ShmRing.v ===== *)
(** * Shared memory rings and channels (proxy/shmring.c, proxy/channel.c)

    The byte rings between the host and a virtual machine.  Positions are [int],
    sizes [size_t]; the locks of the source do nothing. *)

From S2P Require Import Prelude.

(** ** State *)

(** [struct ring_header] and the bytes behind it. *)
Record ring : Type := mk_ring {
  write_pos : Z; read_pos : Z; full : bool; ring_size : Z; ring_buf : mem }.
#[export] Instance eta_ring : Eta ring := fun r =>
  mk_ring (write_pos r) (read_pos r) (full r) (ring_size r) (ring_buf r).

(** Packed struct with a [pthread_mutex_t] of 40 bytes (x86-64 Linux). *)
Definition sizeof_ring_header : Z := 60.

(** ** Operations *)

Definition shmring_reset (size : Z) : ring :=
  mk_ring 0 0 false (u64 (size - sizeof_ring_header)) (fun _ => 0).

Definition shmring_is_empty (r : ring) : bool :=
  negb (full r) && (write_pos r =? read_pos r).

Definition shmring_get_freesz (r : ring) : Z :=
  let w_pos := write_pos r in
  let r_pos := read_pos r in
  if negb (full r) && (w_pos =? r_pos) then ring_size r
  else if r_pos <? w_pos then u64 (u64 (ring_size r - w_pos) + r_pos)
  else u64 (s32 (r_pos - w_pos)).

(** [pos += size; pos %= ring_size]: the sum is a [size_t] stored in an [int]. *)
Definition ring_advance (pos size rsize : Z) : Z :=
  s32 (u64 (s32 (u64 (pos + size))) mod rsize).

Definition read_advance (r : ring) (size : Z) : ring :=
  r <| read_pos := ring_advance (read_pos r) size (ring_size r) |>.
Definition clear_full (r : ring) : ring := r <| full := false |>.

(** The two copies of a read that loops over. *)
Definition copy_out_fragmented (r : ring) (dst : mem) (size : Z) : mem :=
  let sz1 := u64 (ring_size r - read_pos r) in
  let dst := mem_write dst 0 sz1 (fun i => ring_buf r (read_pos r + i)) in
  mem_write dst sz1 (u64 (size - sz1)) (ring_buf r).

Definition pop_fragmented (r : ring) (dst : mem) (size : Z) : Z * ring * mem :=
  (size, clear_full (read_advance r size), copy_out_fragmented r dst size).

Definition shmring_pop (r : ring) (dst : mem) (size : Z) : Z * ring * mem :=
  if u64 (ring_size r - shmring_get_freesz r) <? size then (0, r, dst)
  else if u64 (ring_size r - read_pos r) <? size then pop_fragmented r dst size
  else (size, clear_full (read_advance r size),
        mem_write dst 0 size (fun i => ring_buf r (read_pos r + i))).

(** [sz1] and [sz2] are [int]s here. *)
Definition read_fragmented (r : ring) (dst : mem) (size : Z) : Z * mem :=
  let sz1 := s32 (u64 (ring_size r - read_pos r)) in
  let dst := mem_write dst 0 sz1 (fun i => ring_buf r (read_pos r + i)) in
  let sz2 := s32 (u64 (size - sz1)) in
  (size, mem_write dst sz1 sz2 (ring_buf r)).

Definition shmring_read (r : ring) (dst : mem) (size : Z) : Z * mem :=
  if u64 (ring_size r - shmring_get_freesz r) <? size then (0, dst)
  else if u64 (ring_size r - read_pos r) <? size then read_fragmented r dst size
  else (size, mem_write dst 0 size (fun i => ring_buf r (read_pos r + i))).

Definition write_advance (r : ring) (size : Z) : ring :=
  let r := r <| write_pos := ring_advance (write_pos r) size (ring_size r) |> in
  if write_pos r =? read_pos r then r <| full := true |> else r.

Definition push_fragmented (r : ring) (src : mem) (size : Z) : Z * ring :=
  let sz1 := s32 (u64 (ring_size r - write_pos r)) in
  let r1 := r <| ring_buf ::= fun b => mem_write b (write_pos r) sz1 src |> in
  let sz2 := s32 (u64 (size - sz1)) in
  let r2 := r1 <| ring_buf ::= fun b =>
              mem_write b 0 sz2 (fun i => src (sz1 + i)) |> in
  (size, write_advance r2 size).

Definition shmring_push (r : ring) (src : mem) (size : Z) : Z * ring :=
  if shmring_get_freesz r <? size then (0, r)
  else if u64 (ring_size r - write_pos r) <? size then push_fragmented r src size
  else (size,
        write_advance
          (r <| ring_buf ::= fun b => mem_write b (write_pos r) size src |>) size).

(** ** Channels: a ring for each direction *)

Definition CHAN_SIZE : Z := 8192.

Record channel : Type := mk_channel { ch_rx : ring; ch_tx : ring }.
#[export] Instance eta_channel : Eta channel := fun r =>
  mk_channel (ch_rx r) (ch_tx r).

(** One iteration of the loop of [channel_write]; [None]: no space yet. *)
Definition channel_write (c : channel) (buf : mem) (size : Z)
    : option (Z * channel) :=
  if size <=? shmring_get_freesz (ch_tx c) then
    let '(ret, r) := shmring_push (ch_tx c) buf size in
    Some (ret, c <| ch_tx := r |>)
  else None.

Definition channel_read (c : channel) (buf : mem) (size : Z) : Z * channel * mem :=
  let '(ret, r, buf) := shmring_pop (ch_rx c) buf size in
  (ret, c <| ch_rx := r |>, buf).

(** [-1] as a [uint8_t]; [dst] is the content of the stack. *)
Definition channel_get_msg_type (c : channel) (dst : mem) : Z :=
  let '(ret, buf) := shmring_read (ch_rx c) dst 1 in
  if ret <? 1 then u8 (-1) else buf 0.

(** ** Specification: a bounded queue of bytes *)

(** The ring holds the bytes [l], oldest first. *)
Record ring_rep (r : ring) (l : list Z) : Prop := mk_ring_rep {
  rr_size : 0 < ring_size r <= 1073741824;
  rr_read : 0 <= read_pos r < ring_size r;
  rr_len : Z.of_nat (length l) <= ring_size r;
  rr_write : write_pos r = (read_pos r + Z.of_nat (length l)) mod ring_size r;
  rr_full : full r = (Z.of_nat (length l) =? ring_size r);
  rr_bytes : forall i x, l !! i = Some x ->
    ring_buf r ((read_pos r + Z.of_nat i) mod ring_size r) = x }.

(** The bytes [src 0], ..., [src (n - 1)]. *)
Definition bytes_of (src : mem) (n : Z) : list Z := map src (seqZ 0 n).

Lemma bytes_of_length src n : 0 <= n -> Z.of_nat (length (bytes_of src n)) = n.
Proof. intros. unfold bytes_of. rewrite length_map, length_seqZ. lia. Qed.

Lemma bytes_of_lookup src n i x :
  bytes_of src n !! i = Some x <-> x = src (Z.of_nat i) /\ Z.of_nat i < n.
Proof.
  unfold bytes_of. rewrite list_lookup_fmap, fmap_Some. split.
  - intros (z & Hz & ->). apply lookup_seqZ in Hz as [-> ?]. split; [f_equal; lia|lia].
  - intros [-> Hi]. exists (Z.of_nat i). split; [|done]. apply lookup_seqZ. lia.
Qed.

Lemma shmring_reset_rep size :
  sizeof_ring_header < size <= 1073741824 -> ring_rep (shmring_reset size) [].
Proof.
  unfold sizeof_ring_header, shmring_reset. intros Hs.
  assert (E : u64 (size - sizeof_ring_header) = size - 60)
    by (apply u64_id; unfold sizeof_ring_header; cside).
  rewrite E. constructor; cbn; try lia.
  - rewrite Z.mod_small; lia.
  - symmetry. apply Z.eqb_neq. lia.
  - intros i x Hi. by rewrite lookup_nil in Hi.
Qed.

Lemma ring_advance_ok pos n size :
  0 <= pos < size -> 0 <= n <= size -> size <= 1073741824 ->
  ring_advance pos n size = (pos + n) mod size.
Proof.
  intros. unfold ring_advance.
  assert (Es : forall z, 0 <= z < 2147483648 -> s32 z = z) by (intros; clia).
  rewrite (u64_id (pos + n)) by cside. rewrite (Es (pos + n)) by lia.
  rewrite u64_id by cside. apply Es.
  pose proof (Z.mod_pos_bound (pos + n) size ltac:(lia)). lia.
Qed.

Lemma s32_small z : 0 <= z < 2147483648 -> s32 z = z.
Proof. clia. Qed.

Lemma shmring_freesz_ok r l :
  ring_rep r l -> shmring_get_freesz r = ring_size r - Z.of_nat (length l).
Proof.
  intros [Hs Hr Hl Hw Hf _]. unfold shmring_get_freesz. rewrite Hf, Hw.
  pose proof (Nat2Z.is_nonneg (length l)) as Hn.
  set (n := Z.of_nat (length l)) in *. clearbody n.
  rewrite <- (wrap_add (read_pos r) n) by lia.
  destruct (Z.eqb_spec n (ring_size r)) as [Heq|Hne];
    destruct (Z.leb_spec (ring_size r) (read_pos r + n)); cbn [negb andb]; repeat zcase;
    try lia; rewrite ?s32_small, ?(u64_id (_ - _)), ?u64_id by cside; lia.
Qed.

(** [n] bytes of [src] written at [w], the other bytes kept. *)
Definition ring_written (b b' : mem) (w n size : Z) (src : mem) : Prop :=
  (forall i, 0 <= i < n -> b' ((w + i) mod size) = src i)
  /\ (forall i, n <= i < size -> b' ((w + i) mod size) = b ((w + i) mod size)).

Lemma mem_write_ring b w n size src :
  0 <= w -> 0 <= n -> w + n <= size ->
  ring_written b (mem_write b w n src) w n size src.
Proof.
  intros Hw Hn Hl. split; intros i Hi.
  - rewrite Z.mod_small by lia. rewrite mem_write_in by lia. f_equal. lia.
  - apply mem_write_out. destruct (Z.lt_ge_cases (w + i) size).
    + rewrite Z.mod_small by lia. lia.
    + rewrite <- (Z.mod_unique (w + i) size 1 (w + i - size)) by lia. lia.
Qed.

Lemma mem_write_wrap b w n size src :
  0 <= w < size -> size - w < n <= size ->
  ring_written b
    (mem_write (mem_write b w (size - w) src) 0 (n - (size - w))
       (fun i => src (size - w + i))) w n size src.
Proof.
  intros Hw Hn. split; intros i Hi; destruct (Z.lt_ge_cases (w + i) size).
  - rewrite Z.mod_small by lia. rewrite mem_write_out, mem_write_in by lia. f_equal. lia.
  - rewrite <- (Z.mod_unique (w + i) size 1 (w + i - size)) by lia.
    rewrite mem_write_in by lia. f_equal. lia.
  - lia.
  - rewrite <- (Z.mod_unique (w + i) size 1 (w + i - size)) by lia.
    rewrite !mem_write_out by lia. done.
Qed.

Lemma ring_rep_write_pos r l : ring_rep r l -> 0 <= write_pos r < ring_size r.
Proof. intros [Hs _ _ -> _ _]. apply Z.mod_pos_bound. lia. Qed.

(** Pushing bytes that fit. *)
Lemma write_advance_rep r l b' n src :
  ring_rep r l -> 0 < n <= ring_size r - Z.of_nat (length l) ->
  ring_written (ring_buf r) b' (write_pos r) n (ring_size r) src ->
  ring_rep (write_advance (r <| ring_buf := b' |>) n) (l ++ bytes_of src n).
Proof.
  intros Hrep Hn [Hin Hout]. pose proof (ring_rep_write_pos _ _ Hrep) as Hwp.
  destruct Hrep as [Hs Hr Hl Hw Hf Hb].
  assert (Hlen : Z.of_nat (length (l ++ bytes_of src n)) = Z.of_nat (length l) + n)
    by (rewrite length_app, Nat2Z.inj_add, bytes_of_length; lia).
  assert (Hadv : ring_advance (write_pos r) n (ring_size r)
                 = (read_pos r + (Z.of_nat (length l) + n)) mod ring_size r).
  { rewrite ring_advance_ok by lia. rewrite Hw, Zplus_mod_idemp_l. f_equal. lia. }
  set (w := write_pos r) in *.
  assert (Hbuf : forall i x, (l ++ bytes_of src n) !! i = Some x ->
            b' ((read_pos r + Z.of_nat i) mod ring_size r) = x).
  { intros i x Hi. apply lookup_app_Some in Hi as [Hi|[Hge Hi]].
    - pose proof (lookup_lt_Some _ _ _ Hi) as Hlt. rewrite <- (Hb i x Hi).
      replace ((read_pos r + Z.of_nat i) mod ring_size r)
        with ((w + (ring_size r - Z.of_nat (length l) + Z.of_nat i)) mod ring_size r).
      + apply Hout. lia.
      + rewrite Hw, Zplus_mod_idemp_l.
        replace (_ + _) with (read_pos r + Z.of_nat i + 1 * ring_size r) by lia.
        apply Z.mod_add. lia.
    - apply bytes_of_lookup in Hi as [-> Hi].
      replace ((read_pos r + Z.of_nat i) mod ring_size r)
        with ((w + Z.of_nat (i - length l)) mod ring_size r) by
        (rewrite Hw, Zplus_mod_idemp_l; f_equal; lia).
      apply Hin. lia. }
  unfold write_advance. cbn [write_pos read_pos ring_size full ring_buf setf]. fold w.
  rewrite Hadv. pose proof (Nat2Z.is_nonneg (length l)) as H0.
  assert (Hfull : ((read_pos r + (Z.of_nat (length l) + n)) mod ring_size r =? read_pos r)
                  = (Z.of_nat (length l) + n =? ring_size r)).
  { rewrite <- wrap_add by lia. repeat zcase; try lia; done. }
  assert (Hfl : full r = false) by (rewrite Hf; apply Z.eqb_neq; lia).
  assert (Hfin : forall f, f = (Z.of_nat (length l) + n =? ring_size r) ->
    ring_rep (mk_ring ((read_pos r + (Z.of_nat (length l) + n)) mod ring_size r)
                (read_pos r) f (ring_size r) b') (l ++ bytes_of src n)).
  { intros f ->. constructor; cbn [write_pos read_pos ring_size full ring_buf];
      rewrite ?Hlen; try done; lia. }
  rewrite Hfull. destruct (Z.eqb_spec (Z.of_nat (length l) + n) (ring_size r)) as [E|E].
  - by apply Hfin.
  - rewrite Hfl. by apply Hfin.
Qed.

Lemma write_advance_size r n : ring_size (write_advance r n) = ring_size r.
Proof. unfold write_advance. cbv zeta. by destruct (_ =? _). Qed.

Lemma shmring_push_ok r l src n :
  ring_rep r l -> 0 < n < 2147483648 ->
  if n <=? ring_size r - Z.of_nat (length l)
  then exists r', shmring_push r src n = (n, r') /\ ring_rep r' (l ++ bytes_of src n)
       /\ ring_size r' = ring_size r
  else shmring_push r src n = (0, r).
Proof.
  intros Hrep Hn. pose proof (ring_rep_write_pos _ _ Hrep) as Hwp.
  unfold shmring_push. rewrite (shmring_freesz_ok r l Hrep).
  pose proof (rr_size _ _ Hrep) as Hs.
  pose proof (Nat2Z.is_nonneg (length l)) as H0.
  destruct (Z.leb_spec n (ring_size r - Z.of_nat (length l))) as [Hfit|Hfull];
    [|by rewrite (proj2 (Z.ltb_lt _ _)) by lia].
  rewrite (proj2 (Z.ltb_ge _ _)) by lia. rewrite (u64_id (ring_size r - write_pos r)) by cside.
  destruct (Z.ltb_spec (ring_size r - write_pos r) n) as [Hw|Hw].
  - unfold push_fragmented. rewrite (u64_id (ring_size r - write_pos r)) by cside.
    rewrite (s32_small (ring_size r - write_pos r)) by lia.
    rewrite (u64_id (n - _)) by cside. rewrite (s32_small (n - _)) by lia.
    eexists. split; [reflexivity|]. split.
    + exact (write_advance_rep r l _ n src Hrep ltac:(lia)
               (mem_write_wrap (ring_buf r) (write_pos r) n (ring_size r) src
                  ltac:(lia) ltac:(lia))).
    + exact (write_advance_size _ n).
  - eexists. split; [reflexivity|]. split.
    + exact (write_advance_rep r l _ n src Hrep ltac:(lia)
               (mem_write_ring (ring_buf r) (write_pos r) n (ring_size r) src
                  ltac:(lia) ltac:(lia) ltac:(lia))).
    + exact (write_advance_size _ n).
Qed.

(** Popping bytes that are there. *)
Lemma read_advance_rep r l n :
  ring_rep r l -> 0 < n <= Z.of_nat (length l) ->
  ring_rep (clear_full (read_advance r n)) (drop (Z.to_nat n) l).
Proof.
  intros Hrep Hn. pose proof Hrep as [Hs Hr Hl Hw Hf Hb].
  assert (Hlen : Z.of_nat (length (drop (Z.to_nat n) l)) = Z.of_nat (length l) - n)
    by (rewrite length_drop; lia).
  assert (Hadv : ring_advance (read_pos r) n (ring_size r)
                 = (read_pos r + n) mod ring_size r) by (apply ring_advance_ok; lia).
  constructor; cbn [clear_full read_advance write_pos read_pos ring_size full ring_buf setf];
    rewrite ?Hlen, ?Hadv.
  - done.
  - apply Z.mod_pos_bound. lia.
  - lia.
  - rewrite Zplus_mod_idemp_l, Hw. f_equal. lia.
  - symmetry. apply Z.eqb_neq. lia.
  - intros i x Hi. rewrite lookup_drop in Hi. rewrite <- (Hb _ _ Hi).
    rewrite Zplus_mod_idemp_l. f_equal. f_equal. lia.
Qed.

Lemma copy_out_ok r l dst n :
  ring_rep r l -> 0 <= n <= Z.of_nat (length l) ->
  let src := if ring_size r - read_pos r <? n
    then fun i => mem_write (mem_write dst 0 (ring_size r - read_pos r)
                    (fun i => ring_buf r (read_pos r + i)))
                    (ring_size r - read_pos r) (n - (ring_size r - read_pos r)) (ring_buf r) i
    else mem_write dst 0 n (fun i => ring_buf r (read_pos r + i)) in
  bytes_of src n = take (Z.to_nat n) l.
Proof.
  intros [Hs Hr Hl Hw Hf Hb] Hn. cbv zeta. apply list_eq. intros i.
  destruct (Z.lt_ge_cases (Z.of_nat i) n) as [Hi|Hi].
  - destruct (lookup_lt_is_Some_2 l i ltac:(lia)) as [x Hx].
    rewrite lookup_take_lt by lia. rewrite Hx. apply bytes_of_lookup. split; [|done].
    rewrite <- (Hb i x Hx). destruct (Z.ltb_spec (ring_size r - read_pos r) n).
    + destruct (Z.lt_ge_cases (read_pos r + Z.of_nat i) (ring_size r)).
      * rewrite mem_write_out, mem_write_in by lia. rewrite Z.mod_small by lia. f_equal. lia.
      * rewrite mem_write_in by lia.
        rewrite <- (Z.mod_unique (read_pos r + Z.of_nat i) (ring_size r) 1
                     (read_pos r + Z.of_nat i - ring_size r)) by lia. f_equal. lia.
    + rewrite mem_write_in by lia. rewrite Z.mod_small by lia. f_equal. lia.
  - rewrite !lookup_ge_None_2; [done|rewrite length_take; lia|].
    unfold bytes_of. rewrite length_map, length_seqZ. lia.
Qed.

Lemma shmring_pop_ok r l dst n :
  ring_rep r l -> 0 < n < 2147483648 ->
  if n <=? Z.of_nat (length l)
  then exists r' dst', shmring_pop r dst n = (n, r', dst')
       /\ bytes_of dst' n = take (Z.to_nat n) l /\ ring_rep r' (drop (Z.to_nat n) l)
       /\ ring_size r' = ring_size r
  else shmring_pop r dst n = (0, r, dst).
Proof.
  intros Hrep Hn. pose proof (rr_size _ _ Hrep) as Hs. pose proof (rr_len _ _ Hrep) as Hl.
  pose proof (rr_read _ _ Hrep) as Hr.
  unfold shmring_pop. rewrite (shmring_freesz_ok r l Hrep).
  rewrite (u64_id (ring_size r - (_ - _))) by cside.
  replace (ring_size r - (ring_size r - Z.of_nat (length l))) with (Z.of_nat (length l)) by lia.
  destruct (Z.leb_spec n (Z.of_nat (length l))) as [Hfit|Hfull];
    [|by rewrite (proj2 (Z.ltb_lt _ _)) by lia].
  rewrite (proj2 (Z.ltb_ge _ _)) by lia. rewrite (u64_id (ring_size r - read_pos r)) by cside.
  pose proof (copy_out_ok r l dst n Hrep ltac:(lia)) as Hc. cbv zeta in Hc.
  pose proof (read_advance_rep r l n Hrep ltac:(lia)) as Ha.
  destruct (Z.ltb_spec (ring_size r - read_pos r) n).
  - unfold pop_fragmented. eexists _, _. split; [reflexivity|].
    unfold copy_out_fragmented. rewrite (u64_id (ring_size r - read_pos r)) by cside.
    rewrite (u64_id (n - _)) by cside. by split.
  - eexists _, _. split; [reflexivity|]. by split.
Qed.

(** Reading without consuming. *)
Lemma shmring_read_ok r l dst n :
  ring_rep r l -> 0 < n < 2147483648 ->
  if n <=? Z.of_nat (length l)
  then exists dst', shmring_read r dst n = (n, dst') /\ bytes_of dst' n = take (Z.to_nat n) l
  else shmring_read r dst n = (0, dst).
Proof.
  intros Hrep Hn. pose proof (rr_size _ _ Hrep) as Hs. pose proof (rr_len _ _ Hrep) as Hl.
  pose proof (rr_read _ _ Hrep) as Hr.
  unfold shmring_read. rewrite (shmring_freesz_ok r l Hrep).
  rewrite (u64_id (ring_size r - (_ - _))) by cside.
  replace (ring_size r - (ring_size r - Z.of_nat (length l))) with (Z.of_nat (length l)) by lia.
  destruct (Z.leb_spec n (Z.of_nat (length l))) as [Hfit|Hfull];
    [|by rewrite (proj2 (Z.ltb_lt _ _)) by lia].
  rewrite (proj2 (Z.ltb_ge _ _)) by lia. rewrite (u64_id (ring_size r - read_pos r)) by cside.
  pose proof (copy_out_ok r l dst n Hrep ltac:(lia)) as Hc. cbv zeta in Hc.
  destruct (Z.ltb_spec (ring_size r - read_pos r) n).
  - unfold read_fragmented. eexists. split; [reflexivity|].
    rewrite (u64_id (ring_size r - read_pos r)) by cside.
    rewrite (s32_small (ring_size r - read_pos r)) by lia.
    rewrite (u64_id (n - _)) by cside. rewrite (s32_small (n - _)) by lia. done.
  - eexists. by split.
Qed.

Lemma shmring_is_empty_ok r l :
  ring_rep r l -> shmring_is_empty r = bool_decide (l = []).
Proof.
  intros [Hs Hr Hl Hw Hf _]. unfold shmring_is_empty. rewrite Hf, Hw.
  destruct l as [|x l].
  - rewrite (proj2 (Z.eqb_neq _ _)) by (cbn; lia). cbn [length Z.of_nat].
    rewrite Z.add_0_r, Z.mod_small, Z.eqb_refl by lia. done.
  - change (bool_decide (x :: l = [])) with false.
    set (n := Z.of_nat (length (x :: l))) in *. assert (0 < n) by (subst n; cbn; lia).
    rewrite <- wrap_add by lia. repeat zcase; cbn; try done; lia.
Qed.
