(* ===== verification/ShmRingThms.v ===== *)
(** * Theorems about the rings and channels (proxy/shmring.c, proxy/channel.c)

    A ring is a bounded queue of bytes, a channel hands on messages in order,
    and the missing locks let a pop and a push that overlap lose a whole ring. *)

From S2P Require Import Prelude.
From S2P Require Import ShmRing.

(** ** The ring as an abstract bounded queue *)

(** One call of an operation; [dst] is the buffer of the caller before it. *)
Inductive ring_op : Type :=
| OpPush (src : mem) (n : Z)
| OpPop (dst : mem) (n : Z)
| OpRead (dst : mem) (n : Z)
| OpIsEmpty.

(** The value returned and the bytes delivered. *)
Definition ring_exec (r : ring) (op : ring_op) : ring * (Z * list Z) :=
  match op with
  | OpPush src n => let '(ret, r') := shmring_push r src n in (r', (ret, []))
  | OpPop dst n =>
      let '(ret, r', dst') := shmring_pop r dst n in (r', (ret, bytes_of dst' ret))
  | OpRead dst n => let '(ret, dst') := shmring_read r dst n in (r, (ret, bytes_of dst' ret))
  | OpIsEmpty => (r, (if shmring_is_empty r then 1 else 0, []))
  end.

Definition fifo_exec (cap : Z) (l : list Z) (op : ring_op) : list Z * (Z * list Z) :=
  match op with
  | OpPush src n =>
      if n <=? cap - Z.of_nat (length l) then (l ++ bytes_of src n, (n, []))
      else (l, (0, []))
  | OpPop _ n =>
      if n <=? Z.of_nat (length l)
      then (drop (Z.to_nat n) l, (n, take (Z.to_nat n) l)) else (l, (0, []))
  | OpRead _ n =>
      if n <=? Z.of_nat (length l) then (l, (n, take (Z.to_nat n) l)) else (l, (0, []))
  | OpIsEmpty => (l, (if decide (l = []) then 1 else 0, []))
  end.

Definition op_size_ok (op : ring_op) : Prop :=
  match op with
  | OpPush _ n | OpPop _ n | OpRead _ n => 0 < n < 2147483648
  | OpIsEmpty => True
  end.

(** A run of operations, with the list of results. *)
Fixpoint run_ops {S} (f : S -> ring_op -> S * (Z * list Z)) (s : S) (ops : list ring_op)
    : S * list (Z * list Z) :=
  match ops with
  | [] => (s, [])
  | op :: ops =>
      let '(s, out) := f s op in
      let '(s, outs) := run_ops f s ops in (s, out :: outs)
  end.

Lemma ring_exec_ok r l op :
  ring_rep r l -> op_size_ok op ->
  ring_rep (ring_exec r op).1 (fifo_exec (ring_size r) l op).1
  /\ (ring_exec r op).2 = (fifo_exec (ring_size r) l op).2
  /\ ring_size (ring_exec r op).1 = ring_size r.
Proof.
  intros Hrep Hn. destruct op as [src n|dst n|dst n|]; cbn [ring_exec fifo_exec op_size_ok] in *.
  - pose proof (shmring_push_ok r l src n Hrep Hn) as Hp. destruct (_ <=? _).
    + by destruct Hp as (r' & -> & ? & ?).
    + by rewrite Hp.
  - pose proof (shmring_pop_ok r l dst n Hrep Hn) as Hp. destruct (_ <=? _).
    + destruct Hp as (r' & dst' & -> & Hb & ? & ?). cbn. by rewrite Hb.
    + by rewrite Hp.
  - pose proof (shmring_read_ok r l dst n Hrep Hn) as Hp. destruct (_ <=? _).
    + destruct Hp as (dst' & -> & Hb). cbn. by rewrite Hb.
    + by rewrite Hp.
  - split; [done|]. split; [|done]. cbn [snd].
    by rewrite (shmring_is_empty_ok r l Hrep), decide_bool_decide.
Qed.

Lemma ring_run_ok ops : forall r l,
  ring_rep r l -> Forall op_size_ok ops ->
  ring_rep (run_ops ring_exec r ops).1 (run_ops (fifo_exec (ring_size r)) l ops).1
  /\ (run_ops ring_exec r ops).2 = (run_ops (fifo_exec (ring_size r)) l ops).2.
Proof.
  induction ops as [|op ops IH]; intros r l Hrep Hops; [done|].
  apply Forall_cons in Hops as [Hop Hops].
  destruct (ring_exec_ok r l op Hrep Hop) as (H1 & H2 & H3).
  specialize (IH _ _ H1 Hops). rewrite H3 in IH. cbn [run_ops].
  destruct (ring_exec r op) as [r1 o1], (fifo_exec (ring_size r) l op) as [l1 o1'].
  cbn in *. destruct (run_ops ring_exec r1 ops), (run_ops (fifo_exec (ring_size r)) l1 ops).
  cbn in *. destruct IH as [? ->]. by subst.
Qed.

(** C39: A ring that was reset behaves, under every sequence of pushes, pops, reads
    and tests for emptiness with sizes from 1 to 2^31 - 1, as a queue of bytes that
    holds at most [size - 60] bytes: the calls return the same values and deliver the
    same bytes, refuse what does not fit or is not there, and the ring ends up holding
    the bytes of the queue. *)
Theorem shmring_refines_fifo size ops :
  sizeof_ring_header < size <= 1073741824 -> Forall op_size_ok ops ->
  let cap := size - sizeof_ring_header in
  let '(r, outs) := run_ops ring_exec (shmring_reset size) ops in
  let '(l, outs') := run_ops (fifo_exec cap) [] ops in
  outs = outs' /\ ring_rep r l.
Proof.
  intros Hs Hops. cbv zeta.
  assert (Hsz : ring_size (shmring_reset size) = size - sizeof_ring_header).
  { unfold shmring_reset. cbn [ring_size]. apply u64_id.
    unfold sizeof_ring_header in *. cside. }
  pose proof (ring_run_ok ops _ _ (shmring_reset_rep size Hs) Hops) as [H1 H2].
  rewrite Hsz in H1, H2.
  destruct (run_ops ring_exec _ ops), (run_ops (fifo_exec _) [] ops). by split.
Qed.

Lemma shmring_refines_fifo_witness :
  let ops := [OpPush (fun i => i + 1) 3; OpPush (fun _ => 9) 3; OpPop (fun _ => 0) 2;
              OpPush (fun i => i + 7) 2; OpRead (fun _ => 0) 3; OpPop (fun _ => 0) 4;
              OpPop (fun _ => 0) 3; OpIsEmpty] in
  (run_ops (fifo_exec 4) [] ops).2
    = [(3, []); (0, []); (2, [1; 2]); (2, []); (3, [3; 7; 8]); (0, []);
       (3, [3; 7; 8]); (1, [])]
  /\ (run_ops ring_exec (shmring_reset 64) ops).2 = (run_ops (fifo_exec 4) [] ops).2.
Proof.
  cbv zeta. split; [vm_compute; reflexivity|].
  pose proof (shmring_refines_fifo 64
    [OpPush (fun i => i + 1) 3; OpPush (fun _ => 9) 3; OpPop (fun _ => 0) 2;
     OpPush (fun i => i + 7) 2; OpRead (fun _ => 0) 3; OpPop (fun _ => 0) 4;
     OpPop (fun _ => 0) 3; OpIsEmpty]
    ltac:(unfold sizeof_ring_header; lia) ltac:(repeat constructor)) as H.
  cbv zeta in H. change (64 - sizeof_ring_header) with 4 in H.
  destruct (run_ops ring_exec _ _), (run_ops (fifo_exec 4) _ _). exact (proj1 H).
Defined.

(** ** Messages over a channel *)

(** The other end of a channel: what one side sends is what the other receives. *)
Definition peer (c : channel) : channel := mk_channel (ch_tx c) (ch_rx c).

Fixpoint write_msgs (c : channel) (ms : list (mem * Z)) : option channel :=
  match ms with
  | [] => Some c
  | (src, n) :: ms => '(_, c) ← channel_write c src n; write_msgs c ms
  end.

(** As the receivers do: peek at the type, then read a message of that size. *)
Fixpoint read_msgs (c : channel) (dst : mem) (ns : list Z) : list (Z * Z * list Z) :=
  match ns with
  | [] => []
  | n :: ns =>
      let ty := channel_get_msg_type c dst in
      let '(ret, c, dst) := channel_read c dst n in
      (ty, ret, bytes_of dst ret) :: read_msgs c dst ns
  end.

Definition msg_bytes (m : mem * Z) : list Z := bytes_of m.1 m.2.
Definition msg_ok (m : mem * Z) : Prop := 0 < m.2 < 2147483648.

Lemma write_msgs_ok ms : forall c l,
  ring_rep (ch_tx c) l -> Forall msg_ok ms ->
  Z.of_nat (length (l ++ concat (map msg_bytes ms))) <= ring_size (ch_tx c) ->
  exists c', write_msgs c ms = Some c' /\ ring_rep (ch_tx c') (l ++ concat (map msg_bytes ms)).
Proof.
  induction ms as [|[src n] ms IH]; intros c l Hrep Hms Hlen; cbn [write_msgs map concat] in *.
  - exists c. by rewrite app_nil_r.
  - apply Forall_cons in Hms as [Hn Hms]. unfold msg_ok in Hn. cbn in Hn.
    rewrite app_assoc in Hlen |- *.
    assert (Hfit : n <= ring_size (ch_tx c) - Z.of_nat (length l)).
    { rewrite !length_app, !Nat2Z.inj_add in Hlen. unfold msg_bytes at 1 in Hlen.
      rewrite bytes_of_length in Hlen by (cbn; lia). cbn in Hlen. lia. }
    unfold channel_write. rewrite (shmring_freesz_ok _ _ Hrep), (proj2 (Z.leb_le _ _)) by lia.
    pose proof (shmring_push_ok _ l src n Hrep Hn) as Hp.
    rewrite (proj2 (Z.leb_le _ _)) in Hp by lia. destruct Hp as (r' & -> & Hr & Hsz).
    cbn [mbind option_bind]. apply IH; [done|done|]. cbn. by rewrite Hsz.
Qed.

Lemma read_msgs_ok ms : forall c dst,
  ring_rep (ch_rx c) (concat (map msg_bytes ms)) -> Forall msg_ok ms ->
  Forall (fun m => 0 <= m.1 0 < 256) ms ->
  read_msgs c dst (map snd ms) = map (fun m => (m.1 0, m.2, msg_bytes m)) ms.
Proof.
  induction ms as [|[src n] ms IH]; intros c dst Hrep Hms Hty; [done|].
  apply Forall_cons in Hms as [Hn Hms]. apply Forall_cons in Hty as [Ht Hty].
  unfold msg_ok in Hn. cbn [fst snd] in Hn, Ht. cbn [map concat fst snd read_msgs] in *.
  assert (Hlen : Z.of_nat (length (msg_bytes (src, n))) = n)
    by (unfold msg_bytes; rewrite bytes_of_length; cbn; lia).
  assert (Hge : n <= Z.of_nat (length (msg_bytes (src, n) ++ concat (map msg_bytes ms))))
    by (rewrite length_app; lia).
  assert (Htype : channel_get_msg_type c dst = src 0).
  { unfold channel_get_msg_type.
    pose proof (shmring_read_ok _ _ dst 1 Hrep ltac:(lia)) as Hp.
    rewrite (proj2 (Z.leb_le _ _)) in Hp by lia. destruct Hp as (dst' & -> & Hb).
    cbn [Z.ltb Z.compare]. assert (Hz : bytes_of dst' 1 !! 0%nat = Some (src 0)).
    { rewrite Hb, lookup_take_lt, lookup_app_l by lia.
      apply bytes_of_lookup. split; [done|cbn; lia]. }
    apply bytes_of_lookup in Hz as [Hz _]. by symmetry. }
  rewrite Htype. unfold channel_read.
  pose proof (shmring_pop_ok _ _ dst n Hrep ltac:(lia)) as Hp.
  rewrite (proj2 (Z.leb_le _ _)) in Hp by lia.
  destruct Hp as (r' & dst' & -> & Hb & Hr & _). rewrite Hb.
  rewrite take_app_length' by lia. f_equal. apply IH; [|done|done].
  cbn [ch_rx setf]. by rewrite drop_app_length' in Hr by lia.
Qed.

(** C40: Messages that fit together into the ring are all accepted by [channel_write],
    and the other side then gets them back in order: [channel_get_msg_type] returns
    the first byte of the next message and [channel_read] exactly its bytes, whether
    or not they wrap around the end of the ring. *)
Theorem channel_messages_roundtrip c dst ms :
  ring_rep (ch_tx c) [] -> Forall msg_ok ms -> Forall (fun m => 0 <= m.1 0 < 256) ms ->
  Z.of_nat (length (concat (map msg_bytes ms))) <= ring_size (ch_tx c) ->
  exists c', write_msgs c ms = Some c'
    /\ read_msgs (peer c') dst (map snd ms) = map (fun m => (m.1 0, m.2, msg_bytes m)) ms.
Proof.
  intros Hrep Hms Hty Hlen.
  destruct (write_msgs_ok ms c [] Hrep Hms Hlen) as (c' & Hw & Hr).
  exists c'. split; [done|]. by apply read_msgs_ok.
Qed.

(** An empty ring of 12 bytes whose positions are near the end. *)
Definition ex_chan : channel :=
  mk_channel (shmring_reset 72) (mk_ring 10 10 false 12 (fun _ => 255)).

Lemma channel_messages_roundtrip_witness :
  exists c', write_msgs ex_chan [(fun i => i + 3, 4); (fun i => i + 8, 8)] = Some c'
    /\ read_msgs (peer c') (fun _ => 0) [4; 8]
       = [(3, 4, [3; 4; 5; 6]); (8, 8, [8; 9; 10; 11; 12; 13; 14; 15])].
Proof.
  apply (channel_messages_roundtrip ex_chan (fun _ => 0)
           [(fun i => i + 3, 4); (fun i => i + 8, 8)]).
  - constructor; cbn; try lia; done.
  - repeat constructor.
  - repeat constructor; cbn; lia.
  - vm_compute. discriminate.
Defined.

(** ** No locks *)

(** [shmring_pop] moves [read_pos] and then clears [full], and the locks are empty
    functions.  If the other side fills the ring between these two stores, the push
    succeeds, but the ring is then empty: all of its [ring_size] unread bytes are
    lost, for every ring that was not full. *)
Theorem shmring_pop_push_race r l n src :
  ring_rep r l -> 0 < n <= Z.of_nat (length l) -> Z.of_nat (length l) < ring_size r ->
  let m := ring_size r - (Z.of_nat (length l) - n) in
  exists r', shmring_push (read_advance r n) src m = (m, r')
    /\ ring_rep r' (drop (Z.to_nat n) l ++ bytes_of src m)
    /\ Z.of_nat (length (drop (Z.to_nat n) l ++ bytes_of src m)) = ring_size r
    /\ shmring_is_empty (clear_full r') = true
    /\ shmring_get_freesz (clear_full r') = ring_size r
    /\ forall dst k, 0 < k -> shmring_pop (clear_full r') dst k = (0, clear_full r', dst).
Proof.
  intros Hrep Hn Hl. cbv zeta. set (m := ring_size r - (Z.of_nat (length l) - n)).
  assert (Hadv : ring_rep (read_advance r n) (drop (Z.to_nat n) l)).
  { pose proof (read_advance_rep r l n Hrep Hn) as Ha.
    assert (Hf : full r = false) by (rewrite (rr_full _ _ Hrep); apply Z.eqb_neq; lia).
    pose proof (eq_trans Hf (rr_full _ _ Ha)) as E. by destruct Ha. }
  pose proof (rr_size _ _ Hrep) as Hs.
  assert (Hd : Z.of_nat (length (drop (Z.to_nat n) l)) = Z.of_nat (length l) - n)
    by (rewrite length_drop; lia).
  pose proof (shmring_push_ok _ _ src m Hadv ltac:(lia)) as Hp.
  rewrite (proj2 (Z.leb_le _ _)) in Hp by (rewrite Hd; cbn [ring_size read_advance setf]; lia).
  destruct Hp as (r' & Hpush & Hr' & Hsz). exists r'.
  assert (Hlen : Z.of_nat (length (drop (Z.to_nat n) l ++ bytes_of src m)) = ring_size r)
    by (rewrite length_app, Nat2Z.inj_add, bytes_of_length; lia).
  change (ring_size (read_advance r n)) with (ring_size r) in Hsz.
  assert (Hwr : write_pos r' = read_pos r').
  { destruct Hr' as [? ? _ -> _ _]. rewrite Hlen, <- Hsz.
    replace (_ + _) with (read_pos r' + 1 * ring_size r') by lia.
    rewrite Z.mod_add, Z.mod_small by lia. done. }
  assert (Hempty : shmring_is_empty (clear_full r') = true)
    by (unfold shmring_is_empty; cbn; by apply Z.eqb_eq).
  assert (Hfree : shmring_get_freesz (clear_full r') = ring_size r)
    by (unfold shmring_get_freesz; cbn; by rewrite Hwr, Z.eqb_refl).
  split_and!; try done. intros dst k Hk. unfold shmring_pop. rewrite Hfree.
  change (ring_size (clear_full r')) with (ring_size r'). rewrite Hsz, Z.sub_diag.
  change (u64 0) with 0. by rewrite (proj2 (Z.ltb_lt _ _)) by lia.
Qed.

Lemma shmring_pop_push_race_witness :
  exists r', shmring_push (read_advance (mk_ring 2 0 false 4 (fun i => i)) 1) (fun i => i + 5) 3
             = (3, r')
    /\ shmring_is_empty r' = false /\ shmring_is_empty (clear_full r') = true.
Proof.
  refine (match shmring_pop_push_race (mk_ring 2 0 false 4 (fun i => i)) [0; 1] 1
                  (fun i => i + 5) _ _ _ with
          | ex_intro _ r' (conj H1 (conj _ (conj _ (conj H2 _)))) =>
              ex_intro _ r' (conj H1 (conj _ H2)) end).
  - constructor; cbn; try lia; try done. intros [|[|i]] x Hx; simplify_eq/=; done.
  - cbn. lia.
  - cbn. lia.
  - change (_ - _) with 3 in H1. vm_compute in H1. injection H1 as <-. reflexivity.
Defined.
