(* ===== verification/PacketMem.v ===== *)
(** * Packet memory (tas/slow/packetmem.c)

    First-fit allocation from a free list for each VM.  The handles are objects
    on the heap, linked by address; [malloc] is an argument: the address of the
    next object, 0 when there is no memory. *)

From S2P Require Import Prelude FpTypes Links.

(** ** State *)

Record packetmem_handle : Type := mk_ph { ph_base : Z; ph_len : Z; ph_next : Z }.
#[export] Instance eta_ph : Eta packetmem_handle := fun r =>
  mk_ph (ph_base r) (ph_len r) (ph_next r).
#[export] Instance ph_inhabited : Inhabited packetmem_handle := populate (mk_ph 0 0 0).

Record pmem : Type := mk_pmem { handles : gmap Z packetmem_handle; freelist : gmap Z Z }.
#[export] Instance eta_pmem : Eta pmem := fun r => mk_pmem (handles r) (freelist r).

Definition upd_ph (p : Z) (f : packetmem_handle -> packetmem_handle) (m : pmem) : pmem :=
  m <| handles ::= fun h => <[p := f (h !!! p)]> h |>.

(** ** Operations *)

Definition ph_free (p : Z) (m : pmem) : pmem := m <| handles ::= delete p |>.

(** The region given to one VM: [data_mem_off] and [dma_mem_size]. *)
Definition packetmem_init_vm (off size : Z) (i ph : Z) (m : pmem) : option pmem :=
  if ph =? 0 then None
  else Some (upd_ph ph (fun _ => mk_ph off (u64 (size - off)) 0) m
               <| freelist ::= <[i := ph]> |>).

(** [alloc i]: the object [malloc] returns for VM [i]; [None]: returned [-1]. *)
Fixpoint packetmem_init_loop (off size : Z) (alloc : Z -> Z) (i : Z) (n : nat) (m : pmem)
    : option pmem :=
  match n with
  | O => Some m
  | S n =>
      m ← packetmem_init_vm off size i (alloc i) m;
      packetmem_init_loop off size alloc (i + 1) n m
  end.

Definition packetmem_init (off size : Z) (alloc : Z -> Z) (m : pmem) : option pmem :=
  packetmem_init_loop off size alloc 0 (Z.to_nat (FLEXNIC_PL_VMST_NUM + 1)) m.

(** The search for the first fit: [(ph_prev, ph)] when it ends. *)
Fixpoint find_fit (fuel : nat) (m : pmem) (length ph_prev ph : Z) : option (Z * Z) :=
  match fuel with
  | O => None
  | S fuel =>
      if negb (ph =? 0) && (ph_len (handles m !!! ph) <? length)
      then find_fit fuel m length ph (ph_next (handles m !!! ph))
      else Some (ph_prev, ph)
  end.

(** Taking a handle out of the list. *)
Definition unlink_ph (m : pmem) (vmid ph_prev ph : Z) : pmem :=
  let next := ph_next (handles m !!! ph) in
  if ph_prev =? 0 then m <| freelist ::= <[vmid := next]> |>
  else upd_ph ph_prev (fun h => h <| ph_next := next |>) m.

(** Taking the front of a handle. *)
Definition split_ph (m : pmem) (ph ph_new length : Z) : pmem :=
  let m := upd_ph ph_new (fun _ => mk_ph (ph_base (handles m !!! ph)) length 0) m in
  upd_ph ph (fun h => h <| ph_base := u64 (ph_base h + length) |>
                        <| ph_len := u64 (ph_len h - length) |>) m.

(** Every list is shorter than the heap. *)
Definition pm_fuel (m : pmem) : nat := S (size (handles m)).

(** Result: the return value, the offset and the handle (when it is 0), and
    the state; the inner [None]: returned [-1]. *)
Definition packetmem_alloc (m : pmem) (length vmid malloced : Z)
    : option (option (Z * Z) * pmem) :=
  '(ph_prev, ph) ← find_fit (pm_fuel m) m length 0 (freelist m !!! vmid);
  if ph =? 0 then Some (None, m)
  else if ph_len (handles m !!! ph) =? length then
    let m := unlink_ph m vmid ph_prev ph in
    Some (Some (ph_base (handles m !!! ph), ph), m)
  else if malloced =? 0 then Some (None, m)
  else
    let m := split_ph m ph malloced length in
    Some (Some (ph_base (handles m !!! malloced), malloced), m).

(** The search for the first successor. *)
Fixpoint find_succ (fuel : nat) (m : pmem) (base ph_prev ph : Z) : option Z :=
  match fuel with
  | O => None
  | S fuel =>
      let next := ph_next (handles m !!! ph) in
      if negb (ph =? 0) && negb (next =? 0) && (ph_base (handles m !!! next) <? base)
      then find_succ fuel m base ph next
      else Some ph_prev
  end.

Definition link_ph (m : pmem) (vmid ph_prev handle : Z) : pmem :=
  if ph_prev =? 0 then
    let m := upd_ph handle (fun h => h <| ph_next := freelist m !!! vmid |>) m in
    m <| freelist ::= <[vmid := handle]> |>
  else
    let m := upd_ph handle (fun h => h <| ph_next := ph_next (handles m !!! ph_prev) |>) m in
    upd_ph ph_prev (fun h => h <| ph_next := handle |>) m.

(** [ph] takes over its successor [ph_next] when that is adjacent. *)
Definition adjacent (m : pmem) (p q : Z) : bool :=
  u64 (ph_base (handles m !!! p) + ph_len (handles m !!! p)) =? ph_base (handles m !!! q).

Definition absorb (m : pmem) (p q : Z) : pmem :=
  ph_free q
    (upd_ph p (fun h => h <| ph_next := ph_next (handles m !!! q) |>
                          <| ph_len := u64 (ph_len h + ph_len (handles m !!! q)) |>) m).

Definition merge_items (m : pmem) (ph_prev vmid : Z) : pmem :=
  let '(m, ph) :=
    if negb (ph_prev =? 0) then
      let ph := ph_next (handles m !!! ph_prev) in
      if adjacent m ph_prev ph then (absorb m ph_prev ph, ph_prev) else (m, ph)
    else (m, freelist m !!! vmid) in
  let next := ph_next (handles m !!! ph) in
  if negb (next =? 0) && adjacent m ph next then absorb m ph next else m.

Definition packetmem_free (m : pmem) (handle vmid : Z) : option pmem :=
  ph_prev ← find_succ (pm_fuel m) m (ph_base (handles m !!! handle)) 0 (freelist m !!! vmid);
  Some (merge_items (link_ph m vmid ph_prev handle) ph_prev vmid).

(** ** Specification *)

Definition pnext (m : pmem) (p : Z) : Z := ph_next (handles m !!! p).
Definition pbase (m : pmem) (p : Z) : Z := ph_base (handles m !!! p).
Definition plen (m : pmem) (p : Z) : Z := ph_len (handles m !!! p).

(** [1] when the block of [p] contains the offset [x]. *)
Definition covers (m : pmem) (x p : Z) : Z :=
  if (pbase m p <=? x) && (x <? pbase m p + plen m p) then 1 else 0.
Definition cover (m : pmem) (x : Z) (l : list Z) : Z := foldr (fun p n => covers m x p + n) 0 l.

(** The free blocks [F] and the blocks in use [U] of one VM tile the region
    from [lo] to [hi]: every offset lies in exactly one of them. *)
Record vm_ok (lo hi : Z) (m : pmem) (v : Z) (F U : list Z) : Prop := mk_vm_ok {
  vo_path : path (pnext m) (freelist m !!! v) F 0;
  vo_nodup : NoDup (F ++ U);
  vo_dom : forall p, p ∈ F ++ U -> p <> 0 /\ is_Some (handles m !! p);
  vo_range : forall p, p ∈ F ++ U ->
    lo <= pbase m p /\ 0 <= plen m p /\ pbase m p + plen m p <= hi;
  vo_tile : forall x, cover m x (F ++ U) = if (lo <=? x) && (x <? hi) then 1 else 0 }.

(** All VMs; their handles are distinct. *)
Record pm_ok (lo hi : Z) (m : pmem) (F U : Z -> list Z) : Prop := mk_pm_ok {
  pm_bounds : 0 <= lo /\ hi < 18446744073709551616;
  pm_vm : forall v, 0 <= v <= FLEXNIC_PL_VMST_NUM -> vm_ok lo hi m v (F v) (U v);
  pm_apart : forall v w p, 0 <= v <= FLEXNIC_PL_VMST_NUM -> 0 <= w <= FLEXNIC_PL_VMST_NUM ->
    p ∈ F v ++ U v -> p ∈ F w ++ U w -> v = w }.
