(* ===== verification/PacketMemThms.v ===== *)
(** * Packet memory: proofs (tas/slow/packetmem.c)

    The operations of PacketMem.v keep the tiling of the region: blocks are only moved
    between the free list and the blocks in use, split, or joined.  Then the theorems. *)

From S2P Require Import Prelude FpTypes Links PacketMem.

(** ** Heap updates *)

Lemma upd_ph_eq m p f : handles (upd_ph p f m) !!! p = f (handles m !!! p).
Proof. cbn. by rewrite lookup_total_insert_eq. Qed.

Lemma upd_ph_ne m p f q : q <> p -> handles (upd_ph p f m) !!! q = handles m !!! q.
Proof. intros. cbn. by rewrite lookup_total_insert_ne. Qed.

Lemma upd_ph_lookup_ne m p f q : q <> p -> handles (upd_ph p f m) !! q = handles m !! q.
Proof. intros. cbn. by rewrite lookup_insert_ne. Qed.

Lemma upd_ph_is_Some m p f q :
  is_Some (handles m !! q) -> is_Some (handles (upd_ph p f m) !! q).
Proof.
  intros H. cbn. destruct (Z.eqb_spec q p) as [->|]; [by rewrite lookup_insert_eq|].
  by rewrite lookup_insert_ne.
Qed.

(** Agreement of two heaps on base and length. *)
Definition same_block (m m' : pmem) (p : Z) : Prop :=
  pbase m' p = pbase m p /\ plen m' p = plen m p.

Lemma upd_next_same m p n q :
  same_block m (upd_ph p (fun h => h <| ph_next := n |>) m) q.
Proof.
  unfold same_block, pbase, plen. destruct (Z.eqb_spec q p) as [->|Hq].
  - by rewrite upd_ph_eq.
  - by rewrite upd_ph_ne.
Qed.

Lemma upd_next_pnext m p n :
  forall q, pnext (upd_ph p (fun h => h <| ph_next := n |>) m) q = fupd (pnext m) p n q.
Proof.
  intros q. unfold pnext, fupd. destruct (Z.eqb_spec q p) as [->|Hq].
  - by rewrite upd_ph_eq.
  - by rewrite upd_ph_ne.
Qed.

(** ** Tilings *)

Lemma cover_app m x l1 l2 : cover m x (l1 ++ l2) = cover m x l1 + cover m x l2.
Proof. induction l1 as [|p l1 IH]; [done|]. unfold cover in *. cbn. lia. Qed.

Lemma cover_cons m x p l : cover m x (p :: l) = covers m x p + cover m x l.
Proof. done. Qed.

Lemma cover_perm m x l l' : l ≡ₚ l' -> cover m x l = cover m x l'.
Proof. unfold cover. induction 1; cbn in *; lia. Qed.

Lemma cover_nonneg m x l : 0 <= cover m x l.
Proof.
  induction l as [|p l IH]; [done|]. rewrite cover_cons. unfold covers.
  destruct (_ && _); lia.
Qed.

Lemma cover_ext m m' x l :
  (forall p, p ∈ l -> same_block m m' p) -> cover m' x l = cover m x l.
Proof.
  induction l as [|p l IH]; [done|]. intros H. rewrite !cover_cons, IH.
  - unfold covers. by destruct (H p ltac:(apply list_elem_of_here)) as [-> ->].
  - intros q Hq. apply H. by apply list_elem_of_further.
Qed.

(** The part of [vm_ok] that does not depend on the links or on the order. *)
Record tiling (lo hi : Z) (m : pmem) (l : list Z) : Prop := mk_tiling {
  ti_nodup : NoDup l;
  ti_dom : forall p, p ∈ l -> p <> 0 /\ is_Some (handles m !! p);
  ti_range : forall p, p ∈ l ->
    lo <= pbase m p /\ 0 <= plen m p /\ pbase m p + plen m p <= hi;
  ti_tile : forall x, cover m x l = if (lo <=? x) && (x <? hi) then 1 else 0 }.

Lemma vm_ok_tiling lo hi m v F U :
  vm_ok lo hi m v F U <-> path (pnext m) (freelist m !!! v) F 0 /\ tiling lo hi m (F ++ U).
Proof. split; [intros []; split; [done|by constructor]|intros [? []]; by constructor]. Qed.

Lemma tiling_perm lo hi m l l' : l ≡ₚ l' -> tiling lo hi m l -> tiling lo hi m l'.
Proof.
  intros E [H1 H2 H3 H4]. constructor.
  - by rewrite <- E.
  - intros p. rewrite <- E. apply H2.
  - intros p. rewrite <- E. apply H3.
  - intros x. by rewrite <- (cover_perm m x _ _ E).
Qed.

Lemma tiling_ext lo hi m m' l :
  (forall p, p ∈ l -> same_block m m' p) ->
  (forall p, p ∈ l -> is_Some (handles m !! p) -> is_Some (handles m' !! p)) ->
  tiling lo hi m l -> tiling lo hi m' l.
Proof.
  intros Hs Hd [H1 H2 H3 H4]. constructor; [done|..].
  - intros p Hp. destruct (H2 p Hp). split; [done|]. by apply Hd.
  - intros p Hp. destruct (Hs p Hp) as [-> ->]. by apply H3.
  - intros x. by rewrite (cover_ext m m').
Qed.

Lemma covers_split m m' p q n x :
  0 <= n <= plen m p ->
  pbase m' q = pbase m p -> plen m' q = n ->
  pbase m' p = pbase m p + n -> plen m' p = plen m p - n ->
  covers m' x q + covers m' x p = covers m x p.
Proof.
  intros Hn E1 E2 E3 E4. unfold covers. rewrite E1, E2, E3, E4. zdecide; cbn; lia.
Qed.

Lemma covers_join m m' p q x :
  0 <= plen m p -> 0 <= plen m q -> pbase m p + plen m p = pbase m q ->
  pbase m' p = pbase m p -> plen m' p = plen m p + plen m q ->
  covers m' x p = covers m x p + covers m x q.
Proof.
  intros Hp Hq E E1 E2. unfold covers. rewrite E1, E2, <- E. zdecide; cbn; lia.
Qed.

(** ** Allocation *)

Lemma vm_fuel_enough lo hi m v F U : vm_ok lo hi m v F U -> (length F < pm_fuel m)%nat.
Proof.
  intros [_ Hnd Hd _ _]. unfold pm_fuel. apply Nat.lt_succ_r, length_le_size.
  - by apply NoDup_app in Hnd as (? & _).
  - intros x Hx. apply Hd, elem_of_app. by left.
Qed.

Lemma find_fit_ok fuel m n B : forall A,
  path (pnext m) (default 0 (head B)) B 0 -> 0 ∉ B -> (length B < fuel)%nat ->
  Forall (fun p => plen m p < n) A ->
  exists A' B', A ++ B = A' ++ B' /\ Forall (fun p => plen m p < n) A'
    /\ (forall p, head B' = Some p -> n <= plen m p)
    /\ find_fit fuel m n (default 0 (last A)) (default 0 (head B))
       = Some (default 0 (last A'), default 0 (head B')).
Proof.
  revert B. induction fuel as [|fuel IH]; intros B A Hp H0 Hf HA; [lia|].
  cbn [find_fit]. destruct B as [|p B].
  { exists A, []. by split_and!. }
  cbn [head]. change (default 0 (Some p)) with p. destruct Hp as [_ Hp].
  rewrite elem_of_cons in H0. rewrite (proj2 (Z.eqb_neq p 0)) by (intros ->; tauto).
  cbn [negb andb]. destruct (Z.ltb_spec (ph_len (handles m !!! p)) n) as [Hlt|Hge].
  - destruct (IH B (A ++ [p])) as (A' & B' & E & HA' & HB' & Ef).
    + change (ph_next (handles m !!! p)) with (pnext m p) in *.
      by rewrite <- (path_head _ _ _ _ Hp).
    + tauto.
    + cbn in Hf. lia.
    + apply Forall_app. split; [done|]. by apply Forall_singleton.
    + exists A', B'. rewrite <- E, <- app_assoc. split_and!; try done.
      rewrite <- Ef, last_snoc. change (default 0 (Some p)) with p. f_equal.
      change (ph_next (handles m !!! p)) with (pnext m p). by apply path_head in Hp.
  - exists A, (p :: B). split_and!; try done. by intros ? [= <-].
Qed.

Lemma vm_null lo hi m v F U : vm_ok lo hi m v F U -> 0 ∉ F ++ U.
Proof. intros Hv H. by destruct (vo_dom _ _ _ _ _ _ Hv 0 H). Qed.

(** Taking a whole block. *)
Lemma unlink_ph_ok lo hi m v A p B U :
  vm_ok lo hi m v (A ++ p :: B) U ->
  let m' := unlink_ph m v (default 0 (last A)) p in
  vm_ok lo hi m' v (A ++ B) (p :: U)
  /\ (forall q, same_block m m' q)
  /\ (forall w, w <> v -> freelist m' !!! w = freelist m !!! w)
  /\ (forall q, q ∉ A -> handles m' !! q = handles m !! q).
Proof.
  intros Hv. cbv zeta. pose proof (vm_null _ _ _ _ _ _ Hv) as H0.
  apply vm_ok_tiling in Hv as [Hp Ht].
  pose proof (ti_nodup _ _ _ _ Ht) as Hnd. apply NoDup_app in Hnd as (Hnd & _).
  pose proof (path_remove _ _ A p B 0 Hnd Hp) as Hr.
  assert (Hperm : (A ++ p :: B) ++ U ≡ₚ (A ++ B) ++ p :: U) by solve_Permutation.
  unfold unlink_ph. change (ph_next (handles m !!! p)) with (pnext m p).
  destruct (last A) as [a|] eqn:EA;
    [change (default 0 (Some a)) with a|change (default 0 (@None Z)) with 0].
  - assert (Ha : a ∈ A) by (by apply last_Some_elem_of).
    rewrite (proj2 (Z.eqb_neq a 0)) by (intros ->; apply H0; rewrite !elem_of_app; tauto).
    split_and!; [apply vm_ok_tiling; split| | |].
    + eapply path_ext; [|exact Hr]. intros q _. by rewrite upd_next_pnext.
    + eapply tiling_perm; [exact Hperm|]. eapply tiling_ext; [..|exact Ht].
      * intros; apply upd_next_same.
      * intros q _. apply upd_ph_is_Some.
    + intros; apply upd_next_same.
    + done.
    + intros q Hq. apply upd_ph_lookup_ne. by intros ->.
  - cbn [Z.eqb]. split_and!; [apply vm_ok_tiling; split| | |].
    + cbn. by rewrite lookup_total_insert_eq.
    + eapply tiling_perm; [exact Hperm|]. eapply tiling_ext; [..|exact Ht]; done.
    + done.
    + intros w Hw. cbn. by rewrite lookup_total_insert_ne.
    + done.
Qed.

(** Splitting a block. *)
Lemma split_ph_ok lo hi m v A p B U new n :
  vm_ok lo hi m v (A ++ p :: B) U -> 0 <= lo -> hi < 18446744073709551616 ->
  0 <= n <= plen m p -> new <> 0 -> handles m !! new = None ->
  let m' := split_ph m p new n in
  vm_ok lo hi m' v (A ++ p :: B) (new :: U)
  /\ pbase m' new = pbase m p /\ plen m' new = n
  /\ (forall q, q <> p -> q <> new -> handles m' !! q = handles m !! q).
Proof.
  intros Hv Hlo Hhi Hn Hnew0 Hnew. cbv zeta. apply vm_ok_tiling in Hv as [Hp [H1 H2 H3 H4]].
  assert (Hin : p ∈ (A ++ p :: B) ++ U) by (rewrite !elem_of_app, elem_of_cons; tauto).
  assert (Hnp : new <> p) by (intros ->; destruct (H2 p Hin) as [_ [? E]]; congruence).
  destruct (H3 p Hin) as (Hr1 & Hr2 & Hr3).
  set (m' := split_ph m p new n).
  assert (En : handles m' !!! new = mk_ph (pbase m p) n 0).
  { subst m'. unfold split_ph. cbv zeta. rewrite upd_ph_ne by done. by rewrite upd_ph_eq. }
  assert (Ep : handles m' !!! p = mk_ph (pbase m p + n) (plen m p - n) (pnext m p)).
  { subst m'. unfold split_ph. cbv zeta. rewrite upd_ph_eq, upd_ph_ne by done.
    unfold pbase, plen, pnext in *. cbn [setf ph_base ph_len ph_next].
    by rewrite (u64_id (_ + _)), (u64_id (_ - _)) by cside. }
  assert (Eq : forall q, q <> p -> q <> new -> handles m' !! q = handles m !! q).
  { intros q Hq1 Hq2. subst m'. unfold split_ph. cbv zeta. by rewrite !upd_ph_lookup_ne. }
  assert (Eqt : forall q, q <> p -> q <> new -> handles m' !!! q = handles m !!! q).
  { intros q Hq1 Hq2. rewrite !lookup_total_alt. by rewrite Eq. }
  assert (Hnn : new ∉ (A ++ p :: B) ++ U).
  { intros Hx. destruct (H2 new Hx) as [_ [? E]]. congruence. }
  assert (Hsame : forall q, q ∈ (A ++ p :: B) ++ U -> q <> p -> same_block m m' q).
  { intros q Hq Hqp. unfold same_block, pbase, plen.
    rewrite Eqt; [done..|]. by intros ->. }
  assert (Hperm : (A ++ p :: B) ++ new :: U ≡ₚ new :: p :: A ++ B ++ U) by solve_Permutation.
  assert (Hperm0 : (A ++ p :: B) ++ U ≡ₚ p :: A ++ B ++ U) by solve_Permutation.
  assert (Hrest : forall q, q ∈ A ++ B ++ U -> q ∈ (A ++ p :: B) ++ U /\ q <> p).
  { intros q Hq. rewrite Hperm0 in H1. apply NoDup_cons in H1 as [H1 _].
    split; [rewrite Hperm0; by apply list_elem_of_further|]. by intros ->. }
  split_and!; [apply vm_ok_tiling; split| | |done].
  - eapply path_ext; [|exact Hp]. intros q Hq. unfold pnext.
    destruct (Z.eqb_spec q p) as [->|Hqp]; [by rewrite Ep|].
    rewrite Eqt; [done..|]. intros ->. apply Hnn, elem_of_app. by left.
  - eapply tiling_perm; [symmetry; exact Hperm|]. constructor.
    + apply NoDup_cons. split; [by rewrite <- Hperm0|]. by rewrite <- Hperm0.
    + intros q. rewrite !elem_of_cons. intros [->|[->|Hq]].
      * split; [done|]. subst m'. unfold split_ph. cbv zeta. apply upd_ph_is_Some. cbn.
        by rewrite lookup_insert_eq.
      * split; [by apply H2|]. subst m'. unfold split_ph. cbv zeta. cbn.
        by rewrite lookup_insert_eq.
      * destruct (Hrest q Hq) as [Hq1 Hq2]. rewrite Eq; [by apply H2|done|]. by intros ->.
    + intros q. rewrite !elem_of_cons. intros [->|[->|Hq]].
      * unfold pbase, plen in *. rewrite En. cbn. lia.
      * unfold pbase, plen in *. rewrite Ep. cbn. lia.
      * destruct (Hrest q Hq) as [Hq1 Hq2]. destruct (Hsame q Hq1 Hq2) as [-> ->].
        by apply H3.
    + intros x. rewrite <- H4, (cover_perm m x _ _ Hperm0), !cover_cons, Z.add_assoc.
      rewrite (covers_split m m' p new n x) by
        (unfold pbase, plen in *; rewrite ?En, ?Ep; done).
      f_equal. apply cover_ext. intros q Hq. by apply Hsame; apply Hrest.
  - unfold pbase. by rewrite En.
  - unfold plen. by rewrite En.
Qed.

(** Freeing does not fit anywhere in particular: the search stops somewhere. *)
Lemma find_succ_ok fuel m base B : forall A,
  path (pnext m) (default 0 (head B)) B 0 -> 0 ∉ B -> (length B < fuel)%nat ->
  exists A' B', A ++ B = A' ++ B'
    /\ find_succ fuel m base (default 0 (last A)) (default 0 (head B))
       = Some (default 0 (last A')).
Proof.
  revert B. induction fuel as [|fuel IH]; intros B A Hp H0 Hf; [lia|].
  cbn [find_succ]. destruct B as [|p B].
  { exists A, []. by split_and!. }
  cbn [head]. change (default 0 (Some p)) with p. destruct Hp as [_ Hp].
  rewrite elem_of_cons in H0. rewrite (proj2 (Z.eqb_neq p 0)) by (intros ->; tauto).
  cbn [negb andb]. destruct (_ && _) eqn:E.
  - destruct (IH B (A ++ [p])) as (A' & B' & E' & Ef).
    + change (ph_next (handles m !!! p)) with (pnext m p) in *.
      by rewrite <- (path_head _ _ _ _ Hp).
    + tauto.
    + cbn in Hf. lia.
    + exists A', B'. rewrite <- E', <- app_assoc. split; [done|].
      rewrite <- Ef, last_snoc. change (default 0 (Some p)) with p. f_equal.
      change (ph_next (handles m !!! p)) with (pnext m p). by apply path_head in Hp.
  - by exists A, (p :: B).
Qed.

Lemma link_ph_ok lo hi m v A B U1 h U2 :
  vm_ok lo hi m v (A ++ B) (U1 ++ h :: U2) ->
  let m' := link_ph m v (default 0 (last A)) h in
  vm_ok lo hi m' v (A ++ h :: B) (U1 ++ U2)
  /\ (forall q, same_block m m' q)
  /\ (forall w, w <> v -> freelist m' !!! w = freelist m !!! w)
  /\ (forall q, q ∉ A -> q <> h -> handles m' !! q = handles m !! q).
Proof.
  intros Hv. cbv zeta. pose proof (vm_null _ _ _ _ _ _ Hv) as H0.
  apply vm_ok_tiling in Hv as [Hp Ht].
  pose proof (ti_nodup _ _ _ _ Ht) as Hnd.
  assert (Hperm : (A ++ B) ++ U1 ++ h :: U2 ≡ₚ (A ++ h :: B) ++ U1 ++ U2)
    by solve_Permutation.
  assert (HhAB : h ∉ A ++ B).
  { apply NoDup_app in Hnd as (_ & Hd & _). intros Hin. apply (Hd h Hin).
    rewrite elem_of_app, elem_of_cons. tauto. }
  apply NoDup_app in Hnd as (Hnd & _).
  unfold link_ph. destruct A as [|a A _] using rev_ind.
  - change (default 0 (last [])) with 0. cbn [Z.eqb]. cbn [app] in *.
    split_and!; [apply vm_ok_tiling; split| | |].
    + cbn [freelist setf]. rewrite lookup_total_insert_eq.
      eapply path_ext; [intros q _; exact (upd_next_pnext m h (freelist m !!! v) q)|].
      by apply path_insert_front.
    + eapply tiling_perm; [exact Hperm|]. eapply tiling_ext; [..|exact Ht].
      * intros q _. exact (upd_next_same m h (freelist m !!! v) q).
      * intros q _. apply upd_ph_is_Some.
    + exact (upd_next_same m h (freelist m !!! v)).
    + intros w Hw. cbn. by rewrite lookup_total_insert_ne.
    + intros q _ Hq. exact (upd_ph_lookup_ne m h _ q Hq).
  - rewrite last_snoc. change (default 0 (Some a)) with a.
    rewrite (proj2 (Z.eqb_neq a 0)) by (intros ->; apply H0;
      rewrite !elem_of_app, list_elem_of_singleton; tauto).
    rewrite elem_of_app, elem_of_app, list_elem_of_singleton in HhAB.
    rewrite <- app_assoc in Hnd, Hp. cbn in Hnd, Hp.
    apply NoDup_app in Hnd as (_ & Hd & Hnd). apply NoDup_cons in Hnd as [HaB _].
    assert (HaA : a ∉ A) by (intros Hin; apply (Hd a Hin), list_elem_of_here).
    assert (Hha : h <> a) by (intros ->; tauto).
    set (n := ph_next (handles m !!! a)).
    set (m1 := upd_ph h (fun b => b <| ph_next := n |>) m).
    split_and!; [apply vm_ok_tiling; split| | |].
    + rewrite <- app_assoc. cbn [app].
      eapply path_ext; [|apply (path_insert_after (pnext m) _ A a B 0 h)]; try done.
      * intros q _. etrans; [apply (upd_next_pnext m1 a h)|]. unfold fupd.
        destruct (q =? a); [done|]. apply (upd_next_pnext m h n).
      * rewrite elem_of_app, elem_of_cons. tauto.
    + eapply tiling_perm; [exact Hperm|]. eapply tiling_ext; [..|exact Ht].
      * intros q _. destruct (upd_next_same m h n q) as [E1 E2].
        destruct (upd_next_same m1 a h q) as [E3 E4].
        exact (conj (eq_trans E3 E1) (eq_trans E4 E2)).
      * intros q _ Hq. by do 2 apply upd_ph_is_Some.
    + intros q. destruct (upd_next_same m h n q) as [E1 E2].
      destruct (upd_next_same m1 a h q) as [E3 E4].
        exact (conj (eq_trans E3 E1) (eq_trans E4 E2)).
    + done.
    + intros q Hq1 Hq2. rewrite elem_of_app, list_elem_of_singleton in Hq1.
      assert (Hqa : q <> a) by (intros ->; tauto).
      exact (eq_trans (upd_ph_lookup_ne m1 a _ q Hqa) (upd_ph_lookup_ne m h _ q Hq2)).
Qed.

Lemma absorb_ok lo hi m v A p q B U :
  vm_ok lo hi m v (A ++ p :: q :: B) U -> 0 <= lo -> hi < 18446744073709551616 ->
  pbase m p + plen m p = pbase m q ->
  let m' := absorb m p q in
  vm_ok lo hi m' v (A ++ p :: B) U /\ freelist m' = freelist m
  /\ (forall x, x <> p -> x <> q -> handles m' !! x = handles m !! x).
Proof.
  intros Hv Hlo Hhi Hadj. cbv zeta. apply vm_ok_tiling in Hv as [Hp [H1 H2 H3 H4]].
  assert (Hperm : (A ++ p :: q :: B) ++ U ≡ₚ q :: p :: A ++ B ++ U) by solve_Permutation.
  assert (Hperm' : (A ++ p :: B) ++ U ≡ₚ p :: A ++ B ++ U) by solve_Permutation.
  assert (Hpq : p <> q).
  { intros ->. rewrite Hperm in H1. apply NoDup_cons in H1 as [H1 _].
    apply H1, list_elem_of_here. }
  assert (Hinp : p ∈ (A ++ p :: q :: B) ++ U) by (rewrite Hperm, !elem_of_cons; tauto).
  assert (Hinq : q ∈ (A ++ p :: q :: B) ++ U) by (rewrite Hperm, !elem_of_cons; tauto).
  destruct (H3 p Hinp) as (Hp1 & Hp2 & Hp3). destruct (H3 q Hinq) as (Hq1 & Hq2 & Hq3).
  set (m' := absorb m p q).
  assert (El : forall x, x <> p -> x <> q -> handles m' !! x = handles m !! x).
  { intros x Hx1 Hx2. subst m'. unfold absorb, ph_free. cbn.
    by rewrite lookup_delete_ne, lookup_insert_ne. }
  assert (Ep : handles m' !! p = Some (mk_ph (pbase m p) (plen m p + plen m q) (pnext m q))).
  { subst m'. unfold absorb, ph_free. cbn. rewrite lookup_delete_ne, lookup_insert_eq by done.
    unfold pbase, plen, pnext in *. by rewrite u64_id by cside. }
  assert (Ept : handles m' !!! p = mk_ph (pbase m p) (plen m p + plen m q) (pnext m q))
    by (by rewrite lookup_total_alt, Ep).
  assert (Hnq : q ∉ A ++ p :: B ++ U).
  { rewrite Hperm in H1. apply NoDup_cons in H1 as [H1 _]. intros Hx. apply H1.
    rewrite !elem_of_app, !elem_of_cons, !elem_of_app in *. tauto. }
  assert (Hnp : p ∉ A ++ B ++ U).
  { rewrite Hperm in H1. apply NoDup_cons in H1 as [_ H1]. by apply NoDup_cons in H1 as []. }
  assert (Hrest : forall x, x ∈ A ++ B ++ U -> x <> p /\ x <> q).
  { intros x Hx. split; intros ->; [done|]. apply Hnq.
    rewrite !elem_of_app, elem_of_cons, !elem_of_app in *. tauto. }
  assert (Hsame : forall x, x ∈ A ++ B ++ U -> same_block m m' x).
  { intros x Hx. destruct (Hrest x Hx). unfold same_block, pbase, plen.
    rewrite !lookup_total_alt. by rewrite El. }
  split_and!; [apply vm_ok_tiling; split|done|done].
  - apply path_app in Hp as (x & HA & -> & Hq). destruct Hq as [Epq HB].
    apply path_app. exists p.
    assert (Hn : forall x, x ∈ A ++ B -> pnext m' x = pnext m x).
    { intros x Hx. destruct (Hrest x) as [Hx1 Hx2]; [rewrite !elem_of_app in *; tauto|].
      unfold pnext. rewrite !lookup_total_alt. by rewrite El. }
    split; [|split; [done|]].
    + eapply path_ext; [|exact HA]. intros x Hx. apply Hn, elem_of_app. by left.
    + unfold pnext at 2. rewrite Ept. cbn [ph_next].
      eapply path_ext; [|exact HB]. intros x Hx. apply Hn, elem_of_app. by right.
  - eapply tiling_perm; [symmetry; exact Hperm'|]. rewrite Hperm in H1.
    apply NoDup_cons in H1 as [_ H1]. constructor; [done|..].
    + intros x. rewrite elem_of_cons. intros [->|Hx]; [split; [by apply H2|by rewrite Ep]|].
      destruct (Hrest x Hx). rewrite El by done. apply H2. rewrite Hperm, !elem_of_cons. tauto.
    + intros x. rewrite elem_of_cons. intros [->|Hx].
      * unfold pbase, plen in *. rewrite Ept. cbn. lia.
      * destruct (Hsame x Hx) as [-> ->]. apply H3. rewrite Hperm, !elem_of_cons. tauto.
    + intros x. rewrite <- H4, (cover_perm m x _ _ Hperm), !cover_cons, Z.add_assoc.
      rewrite (covers_join m m' p q x) by (unfold pbase, plen in *; rewrite ?Ept; done || lia).
      rewrite (cover_ext m m' x (A ++ B ++ U)) by done. lia.
Qed.

(** One merge with the successor. *)
Lemma merge_next_ok lo hi m v A p B U :
  vm_ok lo hi m v (A ++ p :: B) U -> 0 <= lo -> hi < 18446744073709551616 ->
  let next := ph_next (handles m !!! p) in
  let m' := if negb (next =? 0) && adjacent m p next then absorb m p next else m in
  exists B', vm_ok lo hi m' v (A ++ p :: B') U /\ freelist m' = freelist m
    /\ (forall x, x ∈ B' -> x ∈ B)
    /\ (forall x, x ∉ A ++ p :: B -> handles m' !! x = handles m !! x).
Proof.
  intros Hv Hlo Hhi. cbv zeta. change (ph_next (handles m !!! p)) with (pnext m p).
  destruct (_ && _) eqn:E; [|by exists B]. apply andb_true_iff in E as [E1 E2].
  pose proof (vm_null _ _ _ _ _ _ Hv) as H0.
  pose proof (vo_path _ _ _ _ _ _ Hv) as Hp. apply path_app in Hp as (x & _ & -> & HB).
  destruct B as [|q B]; [cbn in HB; by rewrite HB in E1|].
  destruct HB as [EB HB]. rewrite EB in *.
  assert (Hadj : pbase m p + plen m p = pbase m q).
  { unfold adjacent in E2. apply Z.eqb_eq in E2. unfold pbase, plen. rewrite <- E2.
    symmetry. apply u64_id.
    pose proof (vo_range _ _ _ _ _ _ Hv p) as Hr. unfold pbase, plen in Hr.
    rewrite !elem_of_app, elem_of_cons in Hr. specialize (Hr ltac:(tauto)). cside. }
  destruct (absorb_ok lo hi m v A p q B U Hv Hlo Hhi Hadj) as (Hv' & Hf & Hh).
  exists B. split_and!; try done.
  - intros x Hx. by apply list_elem_of_further.
  - intros x Hx. rewrite elem_of_app, !elem_of_cons in Hx. apply Hh; intros ->; tauto.
Qed.

Lemma merge_items_ok lo hi m v A h B U :
  vm_ok lo hi m v (A ++ h :: B) U -> 0 <= lo -> hi < 18446744073709551616 ->
  let m' := merge_items m (default 0 (last A)) v in
  exists F', vm_ok lo hi m' v F' U /\ freelist m' = freelist m
    /\ (forall x, x ∈ F' -> x ∈ A ++ h :: B)
    /\ (forall x, x ∉ A ++ h :: B -> handles m' !! x = handles m !! x).
Proof.
  intros Hv Hlo Hhi. cbv zeta. unfold merge_items.
  pose proof (vm_null _ _ _ _ _ _ Hv) as H0.
  pose proof (vo_path _ _ _ _ _ _ Hv) as Hp.
  assert (Hdone : forall m1 A1 p B1, vm_ok lo hi m1 v (A1 ++ p :: B1) U ->
    freelist m1 = freelist m -> (forall x, x ∈ A1 ++ p :: B1 -> x ∈ A ++ h :: B) ->
    (forall x, x ∉ A ++ h :: B -> handles m1 !! x = handles m !! x) ->
    let next := ph_next (handles m1 !!! p) in
    let m' := if negb (next =? 0) && adjacent m1 p next then absorb m1 p next else m1 in
    exists F', vm_ok lo hi m' v F' U /\ freelist m' = freelist m
      /\ (forall x, x ∈ F' -> x ∈ A ++ h :: B)
      /\ (forall x, x ∉ A ++ h :: B -> handles m' !! x = handles m !! x)).
  { intros m1 A1 p B1 H1 H2 H3 H4.
    destruct (merge_next_ok _ _ _ _ _ _ _ _ H1 Hlo Hhi) as (B' & K1 & K2 & K3 & K4).
    exists (A1 ++ p :: B'). cbv zeta in *. split_and!; [done|congruence|..].
    - intros x Hx. apply H3. rewrite elem_of_app, elem_of_cons in *. naive_solver.
    - intros x Hx. rewrite K4; [by apply H4|]. intros Hin. by apply Hx, H3. }
  destruct A as [|a A _] using rev_ind.
  - change (default 0 (last [])) with 0. cbn [Z.eqb negb]. destruct Hp as [Ef _].
    rewrite Ef. by apply (Hdone m [] h B).
  - rewrite last_snoc. change (default 0 (Some a)) with a.
    rewrite (proj2 (Z.eqb_neq a 0)) by (intros ->; apply H0;
      rewrite !elem_of_app, list_elem_of_singleton; tauto). cbn [negb].
    assert (Ea : ph_next (handles m !!! a) = h).
    { rewrite <- app_assoc in Hp. apply path_app in Hp as (x & _ & _ & Eh & _). exact Eh. }
    rewrite Ea. destruct (adjacent m a h) eqn:Eadj.
    + rewrite <- app_assoc in Hv, Hdone |- *. cbn [app] in *.
      destruct (absorb_ok lo hi m v A a h B U) as (Hv' & Hf & Hh); try done.
      { unfold adjacent in Eadj. apply Z.eqb_eq in Eadj. unfold pbase, plen.
        rewrite <- Eadj. symmetry. apply u64_id.
        pose proof (vo_range _ _ _ _ _ _ Hv a) as Hr. unfold pbase, plen in Hr.
        rewrite !elem_of_app, elem_of_cons in Hr. specialize (Hr ltac:(tauto)). cside. }
      apply (Hdone _ A a B); try done.
      * intros x. rewrite !elem_of_app, !elem_of_cons. tauto.
      * intros x. rewrite !elem_of_app, !elem_of_cons. intros Hx.
        apply Hh; intros ->; tauto.
    + by apply (Hdone m (A ++ [a]) h B).
Qed.

(** ** The operations on all VMs *)

Lemma vm_ok_frame lo hi m m' v F U :
  (forall p, p ∈ F ++ U -> handles m' !! p = handles m !! p) ->
  freelist m' !!! v = freelist m !!! v -> vm_ok lo hi m v F U -> vm_ok lo hi m' v F U.
Proof.
  intros Hh Hf [Hp Ht]%vm_ok_tiling. apply vm_ok_tiling. rewrite Hf. split.
  - eapply path_ext; [|exact Hp]. intros p Hin. unfold pnext. rewrite !lookup_total_alt.
    rewrite Hh; [done|]. apply elem_of_app. by left.
  - eapply tiling_ext; [..|exact Ht].
    + intros p Hin. unfold same_block, pbase, plen. rewrite !lookup_total_alt. by rewrite Hh.
    + intros p Hin. by rewrite Hh.
Qed.

Lemma pm_ok_step lo hi m m' F U v F' U' :
  pm_ok lo hi m F U -> 0 <= v <= FLEXNIC_PL_VMST_NUM -> vm_ok lo hi m' v F' U' ->
  (forall w, w <> v -> freelist m' !!! w = freelist m !!! w) ->
  (forall p, p ∉ F v ++ U v -> is_Some (handles m !! p) -> handles m' !! p = handles m !! p) ->
  (forall p, p ∈ F' ++ U' -> p ∈ F v ++ U v \/ handles m !! p = None) ->
  pm_ok lo hi m' (fupd F v F') (fupd U v U').
Proof.
  intros [Hb Hvm Ha] Hv Hv' Hfl Hh Hnew.
  assert (Hold : forall w p, 0 <= w <= FLEXNIC_PL_VMST_NUM -> p ∈ F w ++ U w -> w <> v ->
            p ∉ F v ++ U v /\ is_Some (handles m !! p)).
  { intros w p Hw Hp Hne. split.
    - intros Hp'. apply Hne. by apply (Ha w v p).
    - by apply (vo_dom _ _ _ _ _ _ (Hvm w Hw)). }
  assert (Hcross : forall w p, 0 <= w <= FLEXNIC_PL_VMST_NUM -> p ∈ F' ++ U' ->
            p ∈ F w ++ U w -> w = v).
  { intros w p Hw Hp1 Hp2. destruct (decide (w = v)) as [|Hne]; [done|].
    destruct (Hold w p Hw Hp2 Hne) as [H1 [? H2]].
    destruct (Hnew p Hp1); [done|congruence]. }
  constructor; [done|..].
  - intros w Hw. destruct (Z.eqb_spec w v) as [->|Hne]; [by rewrite !fupd_eq|].
    rewrite !fupd_ne by done. eapply vm_ok_frame; [|by apply Hfl|by apply Hvm].
    intros p Hp. destruct (Hold w p Hw Hp Hne). by apply Hh.
  - intros w1 w2 p Hw1 Hw2. unfold fupd.
    destruct (Z.eqb_spec w1 v) as [->|H1], (Z.eqb_spec w2 v) as [->|H2]; [done|..].
    + intros Hp1 Hp2. symmetry. by apply (Hcross w2 p).
    + intros Hp1 Hp2. by apply (Hcross w1 p).
    + by apply Ha.
Qed.

(** What a caller knows about a result of [malloc]. *)
Definition malloc_ok (m : pmem) (p : Z) : Prop := p = 0 \/ handles m !! p = None.

Lemma find_app_skip {A} (f : A -> bool) l1 l2 :
  Forall (fun x => f x = false) l1 -> List.find f (l1 ++ l2) = List.find f l2.
Proof. induction 1 as [|x l1 Hx _ IH]; [done|]. cbn. by rewrite Hx. Qed.

Lemma packetmem_alloc_ok lo hi m F U v n new :
  pm_ok lo hi m F U -> 0 <= v <= FLEXNIC_PL_VMST_NUM -> 0 <= n -> malloc_ok m new ->
  match List.find (fun p => n <=? plen m p) (F v) with
  | None => packetmem_alloc m n v new = Some (None, m)
  | Some p =>
      if negb (plen m p =? n) && (new =? 0) then packetmem_alloc m n v new = Some (None, m)
      else exists m' h F', packetmem_alloc m n v new = Some (Some (pbase m p, h), m')
        /\ pbase m' h = pbase m p /\ plen m' h = n /\ h ∉ U v
        /\ pm_ok lo hi m' (fupd F v F') (fupd U v (h :: U v))
        /\ (forall w q, 0 <= w <= FLEXNIC_PL_VMST_NUM -> q ∈ U w -> same_block m m' q)
  end.
Proof.
  intros Hok Hv Hn Hnew. pose proof (pm_bounds _ _ _ _ _ Hok) as [Hlo Hhi].
  pose proof (pm_vm _ _ _ _ _ Hok v Hv) as Hvm.
  pose proof (vm_null _ _ _ _ _ _ Hvm) as H0.
  pose proof (vo_path _ _ _ _ _ _ Hvm) as Hp.
  destruct (find_fit_ok (pm_fuel m) m n (F v) []) as (A & B & EF & HA & HB & Ef).
  { by rewrite <- (path_head _ _ _ _ Hp). }
  { intros Hin. apply H0, elem_of_app. by left. }
  { by eapply vm_fuel_enough. }
  { by apply Forall_nil. }
  cbn [app] in EF. rewrite <- (path_head _ _ _ _ Hp) in Ef.
  change (default 0 (last [])) with 0 in Ef.
  assert (Hskip : List.find (fun p => n <=? plen m p) (F v) = head B).
  { rewrite EF, find_app_skip.
    - destruct B as [|p B]; [done|]. cbn. by rewrite (proj2 (Z.leb_le _ _)) by (by apply HB).
    - eapply Forall_impl; [exact HA|]. cbn. intros p Hlt. apply Z.leb_gt. lia. }
  rewrite Hskip. unfold packetmem_alloc. rewrite Ef. cbn [mbind option_bind].
  destruct B as [|p B]; [done|]. cbn [head]. change (default 0 (Some p)) with p.
  specialize (HB p eq_refl). rewrite EF in Hvm.
  assert (Hp0 : p <> 0).
  { intros ->. apply H0. rewrite EF, !elem_of_app, elem_of_cons. tauto. }
  rewrite (proj2 (Z.eqb_neq p 0)) by done.
  change (ph_len (handles m !!! p)) with (plen m p).
  assert (HpU : p ∉ U v).
  { pose proof (vo_nodup _ _ _ _ _ _ Hvm) as Hnd. apply NoDup_app in Hnd as (_ & Hd & _).
    apply Hd. rewrite elem_of_app, elem_of_cons. tauto. }
  assert (Hpu : forall w q, 0 <= w <= FLEXNIC_PL_VMST_NUM -> q ∈ U w -> q <> p).
  { intros w q Hw Hq ->. assert (w = v) as ->; [|done].
    apply (pm_apart _ _ _ _ _ Hok w v p Hw Hv); [rewrite elem_of_app; tauto|].
    rewrite EF, !elem_of_app, elem_of_cons. tauto. }
  destruct (Z.eqb_spec (plen m p) n) as [En|En]; cbn [negb andb].
  - destruct (unlink_ph_ok lo hi m v A p B (U v) Hvm) as (Hvm' & Hs & Hfl & Hh).
    destruct (Hs p) as [Hs1 Hs2].
    eexists _, p, (A ++ B). split; [unfold pbase in *; by rewrite Hs1|].
    split_and!; [done|congruence|done| |by intros w q _ _].
    apply (pm_ok_step lo hi m); [done|done|done|done|..].
    + intros q Hq _. apply Hh. intros Hin. apply Hq. rewrite EF, !elem_of_app. tauto.
    + intros q. rewrite EF, !elem_of_app, !elem_of_cons. tauto.
  - destruct (Z.eqb_spec new 0) as [Hz|Hz]; [done|]. cbn [andb].
    destruct Hnew as [|Hnew]; [done|].
    destruct (split_ph_ok lo hi m v A p B (U v) new n Hvm Hlo Hhi ltac:(lia) Hz Hnew)
      as (Hvm' & Hs1 & Hs2 & Hh).
    assert (Hfresh : forall w q, 0 <= w <= FLEXNIC_PL_VMST_NUM -> q ∈ F w ++ U w -> q <> new).
    { intros w q Hw Hq ->. apply (vo_dom _ _ _ _ _ _ (pm_vm _ _ _ _ _ Hok w Hw)) in Hq as [_ [? E]].
      congruence. }
    eexists _, new, (A ++ p :: B). split; [unfold pbase in *; by rewrite Hs1|].
    split_and!; [done|done| | |].
    + intros Hin. apply (Hfresh v new Hv); [|done]. rewrite elem_of_app. tauto.
    + apply (pm_ok_step lo hi m); [done|done|done|done|..].
      * intros q Hq1 Hq2. apply Hh; intros ->.
        -- apply Hq1. rewrite EF, !elem_of_app, elem_of_cons. tauto.
        -- destruct Hq2. congruence.
      * intros q. rewrite EF, !elem_of_app, !elem_of_cons. intros [|[->|]]; tauto.
    + intros w q Hw Hq. unfold same_block, pbase, plen. rewrite !lookup_total_alt.
      rewrite Hh; [done|by eapply Hpu|]. apply (Hfresh w); [done|]. rewrite elem_of_app. tauto.
Qed.

Lemma packetmem_free_ok lo hi m F U v U1 h U2 :
  pm_ok lo hi m F U -> 0 <= v <= FLEXNIC_PL_VMST_NUM -> U v = U1 ++ h :: U2 ->
  exists m' F', packetmem_free m h v = Some m'
    /\ pm_ok lo hi m' (fupd F v F') (fupd U v (U1 ++ U2))
    /\ (forall w q, 0 <= w <= FLEXNIC_PL_VMST_NUM -> q ∈ fupd U v (U1 ++ U2) w ->
          same_block m m' q).
Proof.
  intros Hok Hv EU. pose proof (pm_bounds _ _ _ _ _ Hok) as [Hlo Hhi].
  pose proof (pm_vm _ _ _ _ _ Hok v Hv) as Hvm.
  pose proof (vm_null _ _ _ _ _ _ Hvm) as H0.
  pose proof (vo_path _ _ _ _ _ _ Hvm) as Hp.
  destruct (find_succ_ok (pm_fuel m) m (ph_base (handles m !!! h)) (F v) [])
    as (A & B & EF & Ef).
  { by rewrite <- (path_head _ _ _ _ Hp). }
  { intros Hin. apply H0, elem_of_app. by left. }
  { by eapply vm_fuel_enough. }
  cbn [app] in EF. rewrite <- (path_head _ _ _ _ Hp) in Ef.
  change (default 0 (last [])) with 0 in Ef.
  unfold packetmem_free. rewrite Ef. cbn [mbind option_bind].
  rewrite EF, EU in Hvm.
  destruct (link_ph_ok lo hi m v A B U1 h U2 Hvm) as (Hvm1 & Hs1 & Hfl1 & Hh1).
  set (m1 := link_ph m v (default 0 (last A)) h) in *.
  destruct (merge_items_ok lo hi m1 v A h B _ Hvm1 Hlo Hhi) as (F' & Hvm2 & Hfl2 & HF & Hh2).
  cbv zeta in *. set (m2 := merge_items m1 (default 0 (last A)) v) in *.
  exists m2, F'. split; [done|].
  assert (Hh : forall q, q ∉ A ++ h :: B -> handles m2 !! q = handles m !! q).
  { intros q Hq. rewrite Hh2 by done. rewrite elem_of_app, elem_of_cons in Hq.
    apply Hh1; [tauto|]. intros ->. tauto. }
  split.
  - apply (pm_ok_step lo hi m); [done|done|done|..].
    + intros w Hw. rewrite Hfl2. by apply Hfl1.
    + intros q Hq _. apply Hh. rewrite EF, EU in Hq. intros Hin. apply Hq.
      rewrite !elem_of_app, !elem_of_cons in *. tauto.
    + intros q. rewrite EF, EU. intros Hq. left.
      rewrite elem_of_app in Hq. destruct Hq as [Hq%HF|Hq];
        rewrite !elem_of_app, !elem_of_cons in *; tauto.
  - intros w q Hw Hq. unfold same_block, pbase, plen. rewrite !lookup_total_alt.
    rewrite Hh; [done|].
    pose proof (vo_nodup _ _ _ _ _ _ Hvm) as Hnd.
    destruct (Z.eqb_spec w v) as [->|Hne].
    + rewrite fupd_eq in Hq. intros Hin.
      assert (E : (A ++ B) ++ U1 ++ h :: U2 ≡ₚ (A ++ h :: B) ++ U1 ++ U2) by solve_Permutation.
      rewrite E in Hnd. apply NoDup_app in Hnd as (_ & Hd & _). by apply (Hd q).
    + rewrite fupd_ne in Hq by done. intros Hin. apply Hne.
      apply (pm_apart _ _ _ _ _ Hok w v q Hw Hv); [rewrite elem_of_app; tauto|].
      rewrite EF, EU, !elem_of_app, !elem_of_cons in *. tauto.
Qed.

(** * Properties of the packet memory

    The allocator as a transition system: whatever the callers allocate and
    free, blocks in use never overlap, no byte of the region is lost, and every
    call returns.  Freed neighbours are not always joined. *)

(** ** Initialisation *)

Section Init.
Context (off size : Z) (alloc : Z -> Z).
Hypothesis Hregion : 0 <= off <= size /\ size < 18446744073709551616.
Hypothesis Halloc : forall i, 0 <= i <= FLEXNIC_PL_VMST_NUM -> alloc i <> 0.
Hypothesis Hinj : forall i j, 0 <= i <= FLEXNIC_PL_VMST_NUM ->
  0 <= j <= FLEXNIC_PL_VMST_NUM -> alloc i = alloc j -> i = j.

Lemma init_vm_ok i m : 
  vm_ok off size (upd_ph (alloc i) (fun _ => mk_ph off (u64 (size - off)) 0) m
                    <| freelist ::= <[i := alloc i]> |>) i [alloc i] []
  \/ ~ (0 <= i <= FLEXNIC_PL_VMST_NUM).
Proof.
  destruct (decide (0 <= i <= FLEXNIC_PL_VMST_NUM)) as [Hi|]; [left|by right].
  rewrite u64_id by cside. set (m' := _ <| freelist ::= _ |>).
  assert (E : handles m' !!! alloc i = mk_ph off (size - off) 0) by exact (upd_ph_eq m _ _).
  assert (Eb : pbase m' (alloc i) = off /\ plen m' (alloc i) = size - off)
    by (unfold pbase, plen; by rewrite E).
  destruct Eb as [Eb El]. constructor; cbn [app].
  - cbn. rewrite lookup_total_insert_eq. split; [done|]. unfold pnext. by rewrite E.
  - apply NoDup_singleton.
  - intros p ->%list_elem_of_singleton. split; [by apply Halloc|]. cbn.
    by rewrite lookup_insert_eq.
  - intros p ->%list_elem_of_singleton. rewrite Eb, El. lia.
  - intros x. rewrite cover_cons. unfold covers. rewrite Eb, El. cbn.
    replace (off + (size - off)) with size by lia. by destruct (_ && _).
Qed.

(** The VMs below [i] are initialised. *)
Definition init_upto (i : Z) (m : pmem) : Prop :=
  (forall v, 0 <= v < i -> vm_ok off size m v [alloc v] []).

Lemma init_loop_ok n : forall i m, 0 <= i -> i + Z.of_nat n = FLEXNIC_PL_VMST_NUM + 1 ->
  init_upto i m ->
  exists m', packetmem_init_loop off size alloc i n m = Some m'
    /\ init_upto (FLEXNIC_PL_VMST_NUM + 1) m'.
Proof.
  induction n as [|n IH]; intros i m Hi Hn Hm; cbn [packetmem_init_loop].
  { exists m. split; [done|]. by replace (FLEXNIC_PL_VMST_NUM + 1) with i by lia. }
  unfold packetmem_init_vm. rewrite (proj2 (Z.eqb_neq _ _)) by (apply Halloc; lia).
  cbn [mbind option_bind]. apply IH; [lia|lia|].
  intros v Hv. destruct (Z.eqb_spec v i) as [->|Hne].
  { destruct (init_vm_ok i m); [done|lia]. }
  eapply vm_ok_frame; [| |apply Hm; lia]; cbn.
  - intros p ->%list_elem_of_singleton. apply lookup_insert_ne. intros E.
    apply Hne. symmetry. apply Hinj; [lia|lia|done].
  - apply lookup_total_insert_ne. lia.
Qed.

Lemma packetmem_init_ok m :
  exists m', packetmem_init off size alloc m = Some m'
    /\ pm_ok off size m' (fun v => [alloc v]) (fun _ => []).
Proof.
  destruct (init_loop_ok (Z.to_nat (FLEXNIC_PL_VMST_NUM + 1)) 0 m) as (m' & E & Hm);
    [lia|unfold FLEXNIC_PL_VMST_NUM; lia|intros v ?; lia|].
  exists m'. split; [done|]. constructor; [lia|..].
  - intros v Hv. apply Hm. lia.
  - intros v w p Hv Hw. cbn. intros ->%list_elem_of_singleton Hp%list_elem_of_singleton.
    by apply Hinj.
Qed.

End Init.

(** ** The allocator as a transition system *)

(** The state with the blocks each VM has allocated and not freed. *)
Inductive pm_step : pmem * (Z -> list Z) -> pmem * (Z -> list Z) -> Prop :=
| step_alloc m U v n new base h m' :
    0 <= v <= FLEXNIC_PL_VMST_NUM -> is_u64 n -> malloc_ok m new ->
    packetmem_alloc m n v new = Some (Some (base, h), m') ->
    pm_step (m, U) (m', fupd U v (h :: U v))
| step_alloc_fails m U v n new m' :
    0 <= v <= FLEXNIC_PL_VMST_NUM -> is_u64 n -> malloc_ok m new ->
    packetmem_alloc m n v new = Some (None, m') ->
    pm_step (m, U) (m', U)
| step_free m U v U1 h U2 m' :
    0 <= v <= FLEXNIC_PL_VMST_NUM -> U v = U1 ++ h :: U2 ->
    packetmem_free m h v = Some m' ->
    pm_step (m, U) (m', fupd U v (U1 ++ U2)).

Lemma pm_step_ok lo hi m U m' U' F :
  pm_ok lo hi m F U -> pm_step (m, U) (m', U') -> exists F', pm_ok lo hi m' F' U'.
Proof.
  intros Hok Hs. inversion Hs as [? ? v n new base h ? Hv Hn Hnew E|? ? v n new ? Hv Hn Hnew E
                                 |? ? v U1 h U2 ? Hv EU E]; subst.
  - pose proof (packetmem_alloc_ok lo hi m F U v n new Hok Hv (proj1 Hn) Hnew) as H.
    destruct (List.find _ (F v)) as [p|]; [|congruence].
    destruct (_ && _); [congruence|].
    destruct H as (m1 & h1 & F' & E1 & _ & _ & _ & Hok' & _).
    rewrite E in E1. injection E1 as -> -> ->. by eexists.
  - pose proof (packetmem_alloc_ok lo hi m F U' v n new Hok Hv (proj1 Hn) Hnew) as H.
    destruct (List.find _ (F v)) as [p|]; [|rewrite E in H; injection H as ->; by exists F].
    destruct (_ && _); [rewrite E in H; injection H as ->; by exists F|].
    destruct H as (m1 & h1 & F' & E1 & _). congruence.
  - destruct (packetmem_free_ok lo hi m F U v U1 h U2 Hok Hv EU) as (m1 & F' & E1 & Hok' & _).
    rewrite E in E1. injection E1 as ->. by eexists.
Qed.

Lemma pm_steps_ok lo hi s s' F :
  pm_ok lo hi s.1 F s.2 -> rtc pm_step s s' -> exists F', pm_ok lo hi s'.1 F' s'.2.
Proof.
  intros Hok Hs. revert F Hok. induction Hs as [s|[m U] [m1 U1] s' H _ IH]; [by eauto|].
  intros F Hok. destruct (pm_step_ok _ _ _ _ _ _ _ Hok H) as [F' Hok']. by eapply IH.
Qed.

Lemma cover_disjoint m x p q l : p ∈ l -> q ∈ l -> p <> q -> NoDup l ->
  covers m x p + covers m x q <= cover m x l.
Proof.
  intros Hp Hq Hne Hnd. apply list_elem_of_split in Hp as (l1 & l2 & ->).
  rewrite (cover_perm m x _ (p :: l1 ++ l2)) by solve_Permutation.
  assert (Hq' : q ∈ l1 ++ l2).
  { rewrite elem_of_app, elem_of_cons in Hq. rewrite elem_of_app. naive_solver. }
  apply list_elem_of_split in Hq' as (l3 & l4 & ->).
  rewrite cover_cons, (cover_perm m x _ (q :: l3 ++ l4)) by solve_Permutation.
  rewrite cover_cons. pose proof (cover_nonneg m x (l3 ++ l4)). lia.
Qed.

(** C31: In every state that callers reach from [packetmem_init] by allocating blocks
    and freeing blocks they hold, [packetmem_alloc] and [packetmem_free] return; the
    blocks a VM holds lie inside the region, no two of them overlap, and every offset
    of the region lies in exactly one block that is free or in use, so no memory is
    lost. *)
Theorem packetmem_reachable off size alloc m0 m1 m U :
  0 <= off <= size /\ size < 18446744073709551616 ->
  (forall i, 0 <= i <= FLEXNIC_PL_VMST_NUM -> alloc i <> 0) ->
  (forall i j, 0 <= i <= FLEXNIC_PL_VMST_NUM -> 0 <= j <= FLEXNIC_PL_VMST_NUM ->
    alloc i = alloc j -> i = j) ->
  packetmem_init off size alloc m0 = Some m1 ->
  rtc pm_step (m1, fun _ => []) (m, U) ->
  forall v, 0 <= v <= FLEXNIC_PL_VMST_NUM ->
  (forall n new, is_u64 n -> malloc_ok m new -> is_Some (packetmem_alloc m n v new))
  /\ (forall h, h ∈ U v -> is_Some (packetmem_free m h v))
  /\ (forall h, h ∈ U v -> off <= pbase m h /\ 0 <= plen m h /\ pbase m h + plen m h <= size)
  /\ (forall h k x, h ∈ U v -> k ∈ U v -> h <> k ->
        pbase m h <= x < pbase m h + plen m h -> ~ (pbase m k <= x < pbase m k + plen m k))
  /\ exists F, path (pnext m) (freelist m !!! v) F 0
       /\ forall x, cover m x (F ++ U v) = if (off <=? x) && (x <? size) then 1 else 0.
Proof.
  intros Hreg Ha Hi E Hs v Hv.
  destruct (packetmem_init_ok off size alloc Hreg Ha Hi m0) as (m1' & E1 & Hok).
  rewrite E in E1. injection E1 as <-.
  destruct (pm_steps_ok off size (m1, fun _ => []) (m, U) _ Hok Hs) as [F Hok']. cbn in Hok'.
  pose proof (pm_vm _ _ _ _ _ Hok' v Hv) as [Hp Hnd Hd Hr Ht].
  split_and!.
  - intros n new Hn Hnew.
    pose proof (packetmem_alloc_ok off size m F U v n new Hok' Hv (proj1 Hn) Hnew) as H.
    destruct (List.find _ (F v)); [|by rewrite H]. destruct (_ && _); [by rewrite H|].
    destruct H as (? & ? & ? & -> & _). done.
  - intros h Hh. apply list_elem_of_split in Hh as (U1 & U2 & EU).
    destruct (packetmem_free_ok off size m F U v U1 h U2 Hok' Hv EU) as (? & ? & -> & _). done.
  - intros h Hh. apply Hr, elem_of_app. by right.
  - intros h k x Hh Hk Hne Hx Hx'.
    pose proof (cover_disjoint m x h k (F v ++ U v)) as Hc.
    rewrite Ht, !elem_of_app in Hc. specialize (Hc ltac:(tauto) ltac:(tauto) Hne Hnd).
    unfold covers in Hc. revert Hc. zdecide; cbn; lia.
  - by exists (F v).
Qed.

(** VM [i] starts with the object at address [i + 1]. *)
Lemma packetmem_reachable_witness :
  exists m1 m2, packetmem_init 4096 8192 (fun i => i + 1) (mk_pmem ∅ ∅) = Some m1
  /\ packetmem_alloc m1 100 2 50 = Some (Some (4096, 50), m2)
  /\ is_Some (packetmem_free m2 50 2)
  /\ 4096 <= pbase m2 50 /\ 0 <= plen m2 50 /\ pbase m2 50 + plen m2 50 <= 8192.
Proof.
  eexists _, _. split; [vm_compute; reflexivity|]. split; [vm_compute; reflexivity|].
  match goal with |- is_Some (packetmem_free ?m _ _) /\ _ =>
  destruct (packetmem_reachable 4096 8192 (fun i => i + 1) (mk_pmem ∅ ∅)
    (default (mk_pmem ∅ ∅) (packetmem_init 4096 8192 (fun i => i + 1) (mk_pmem ∅ ∅))) m
    (fupd (fun _ => []) 2 [50])) with (v := 2) as (_ & H1 & H2 & _) end.
  - lia.
  - intros; lia.
  - intros; lia.
  - vm_compute. reflexivity.
  - apply rtc_once. apply (step_alloc _ (fun _ => []) 2 100 50 4096 50).
    + unfold FLEXNIC_PL_VMST_NUM. lia.
    + unfold is_u64. lia.
    + right. vm_compute. reflexivity.
    + vm_compute. reflexivity.
  - unfold FLEXNIC_PL_VMST_NUM. lia.
  - split; [apply H1; left|apply H2; left].
Defined.

(** [packetmem_alloc] is first fit: it takes the first block of the free list that
    is long enough, returns its base and a handle of exactly the requested length, and
    leaves all blocks in use alone.  It returns -1, changing nothing, exactly when no
    free block is long enough, or when a block must be split and [malloc] fails. *)
Theorem packetmem_alloc_first_fit lo hi m F U v n new :
  pm_ok lo hi m F U -> 0 <= v <= FLEXNIC_PL_VMST_NUM -> 0 <= n -> malloc_ok m new ->
  match List.find (fun p => n <=? plen m p) (F v) with
  | None => packetmem_alloc m n v new = Some (None, m)
  | Some p =>
      if negb (plen m p =? n) && (new =? 0) then packetmem_alloc m n v new = Some (None, m)
      else exists m' h F', packetmem_alloc m n v new = Some (Some (pbase m p, h), m')
        /\ pbase m' h = pbase m p /\ plen m' h = n /\ h ∉ U v
        /\ pm_ok lo hi m' (fupd F v F') (fupd U v (h :: U v))
        /\ (forall w q, 0 <= w <= FLEXNIC_PL_VMST_NUM -> q ∈ U w -> same_block m m' q)
  end.
Proof. apply packetmem_alloc_ok. Qed.

Lemma packetmem_alloc_first_fit_witness : exists m1 m2 h,
  packetmem_init 4096 8192 (fun i => i + 1) (mk_pmem ∅ ∅) = Some m1
  /\ packetmem_alloc m1 5000 2 50 = Some (None, m1)
  /\ packetmem_alloc m1 100 2 50 = Some (Some (4096, h), m2) /\ plen m2 h = 100.
Proof.
  destruct (packetmem_init_ok 4096 8192 (fun i => i + 1)) with (m := mk_pmem ∅ ∅)
    as (m1 & E & Hok); [lia|intros; lia|intros; lia|].
  assert (Hnew : malloc_ok m1 50).
  { right. vm_compute in E. injection E as <-. vm_compute. reflexivity. }
  pose proof (packetmem_alloc_first_fit 4096 8192 m1 _ _ 2 5000 50 Hok
                ltac:(unfold FLEXNIC_PL_VMST_NUM; lia) ltac:(lia) Hnew) as H1.
  pose proof (packetmem_alloc_first_fit 4096 8192 m1 _ _ 2 100 50 Hok
                ltac:(unfold FLEXNIC_PL_VMST_NUM; lia) ltac:(lia) Hnew) as H2.
  assert (El : plen m1 (2 + 1) = 4096 /\ pbase m1 (2 + 1) = 4096)
    by (vm_compute in E; injection E as <-; vm_compute; split; reflexivity).
  destruct El as [El Eb]. cbn [List.find] in H1, H2. rewrite El in H1, H2.
  change (5000 <=? 4096) with false in H1. change (100 <=? 4096) with true in H2.
  cbv beta iota in H1, H2. rewrite El in H2.
  change (negb (4096 =? 100) && (50 =? 0)) with false in H2.
  cbv beta iota in H2.
  destruct H2 as (m2 & h & F' & E2 & _ & Hl & _).
  exists m1, m2, h. rewrite Eb in E2. by split_and!.
Defined.

(** Two blocks are allocated and freed in the same order. *)
Definition free_in_order (m : pmem) (n new1 new2 : Z) : option pmem :=
  '(r, m) ← packetmem_alloc m n 0 new1;
  '(_, h1) ← r;
  '(r, m) ← packetmem_alloc m n 0 new2;
  '(_, h2) ← r;
  m ← packetmem_free m h1 0;
  packetmem_free m h2 0.

(** [packetmem_free] does not keep the free list ordered by offset: its search
    stops one block too early, so the block goes before its predecessor and neighbours
    are not joined.  After two blocks of 10 bytes of a region of 30 have been allocated
    and freed in the same order, all memory is free again, but an allocation of 11
    bytes fails. *)
Theorem packetmem_free_fragments : exists m1 m2,
  packetmem_init 0 30 (fun i => i + 1) (mk_pmem ∅ ∅) = Some m1
  /\ free_in_order m1 10 50 51 = Some m2
  /\ path (pnext m2) (freelist m2 !!! 0) [51; 50; 1] 0
  /\ map (pbase m2) [51; 50; 1] = [10; 0; 20] /\ map (plen m2) [51; 50; 1] = [10; 10; 10]
  /\ packetmem_alloc m2 11 0 52 = Some (None, m2).
Proof.
  eexists _, _. split; [vm_compute; reflexivity|]. split; [vm_compute; reflexivity|].
  split_and!; vm_compute; try reflexivity. by split_and!.
Qed.
