(* ===== verification/NbQueue.v ===== *)
(** * Queue of completions (include/utils_nbqueue.h)

    Elements are linked from the newest to the oldest; the oldest is taken first.  The
    mutex is a flag: taking it again without releasing it blocks for ever ([None]).
    The null pointer is 0. *)

From S2P Require Import Prelude Links.

Record nbqueue_el : Type := mk_nbel { nb_next : Z; nb_prev : Z }.
#[export] Instance eta_nbel : Eta nbqueue_el := fun r => mk_nbel (nb_next r) (nb_prev r).
#[export] Instance nbel_inhabited : Inhabited nbqueue_el := populate (mk_nbel 0 0).

(** The elements by address, and the queue. *)
Record nbqueue : Type := mk_nbqueue { nb_els : gmap Z nbqueue_el; nb_head : Z; nb_locked : bool }.
#[export] Instance eta_nbqueue : Eta nbqueue := fun r =>
  mk_nbqueue (nb_els r) (nb_head r) (nb_locked r).

Definition upd_el (p : Z) (f : nbqueue_el -> nbqueue_el) (q : nbqueue) : nbqueue :=
  q <| nb_els ::= fun h => <[p := f (h !!! p)]> h |>.
Definition nb_lock (q : nbqueue) : option nbqueue :=
  if nb_locked q then None else Some (q <| nb_locked := true |>).
Definition nb_unlock (q : nbqueue) : nbqueue := q <| nb_locked := false |>.

Definition nbqueue_init (q : nbqueue) : nbqueue := q <| nb_head := 0 |> <| nb_locked := false |>.

Definition nbqueue_enq (el : Z) (q : nbqueue) : option nbqueue :=
  q ← nb_lock q;
  let q := if negb (nb_head q =? 0)
           then upd_el (nb_head q) (fun e => e <| nb_prev := el |>) q else q in
  Some (nb_unlock (upd_el el (fun _ => mk_nbel (nb_head q) 0) q <| nb_head := el |>)).

(** The search for the last element: [(el_p, el)]. *)
Fixpoint nb_last (fuel : nat) (q : nbqueue) (el_p el : Z) : option (Z * Z) :=
  match fuel with
  | O => None
  | S fuel =>
      if negb (el =? 0) && negb (nb_next (nb_els q !!! el) =? 0)
      then nb_last fuel q el (nb_next (nb_els q !!! el))
      else Some (el_p, el)
  end.

(** Result 0: the queue is empty. *)
Definition nbqueue_deq (q : nbqueue) : option (Z * nbqueue) :=
  if nb_head q =? 0 then Some (0, q)
  else
    q ← nb_lock q;
    '(el_p, el) ← nb_last (S (size (nb_els q))) q 0 (nb_head q);
    _ ← cassert (nb_next (nb_els q !!! el) =? 0);
    let q := if negb (el =? 0) then
               if negb (el_p =? 0) then upd_el el_p (fun e => e <| nb_next := 0 |>) q
               else q <| nb_head := 0 |>
             else q in
    Some (el, nb_unlock q).

Definition nbqueue_remove (el : Z) (q : nbqueue) : option nbqueue :=
  q ← nb_lock q;
  let e := nb_els q !!! el in
  if nb_next e =? 0 then Some (q <| nb_head := 0 |>)
  else if nb_prev e =? 0 then
    Some (upd_el (nb_next e) (fun e' => e' <| nb_prev := 0 |>) (q <| nb_head := nb_next e |>))
  else
    let q := upd_el (nb_prev e) (fun e' => e' <| nb_next := nb_next e |>) q in
    let q := upd_el (nb_next e) (fun e' => e' <| nb_prev := nb_prev e |>) q in
    Some (nb_unlock q).

(** ** Specification *)

Definition nbnx (q : nbqueue) (p : Z) : Z := nb_next (nb_els q !!! p).

(** The elements of the queue, oldest first; nobody holds the mutex. *)
Record nb_rep (q : nbqueue) (l : list Z) : Prop := mk_nb_rep {
  nr_path : path (nbnx q) (nb_head q) (reverse l) 0;
  nr_nodup : NoDup l;
  nr_null : 0 ∉ l;
  nr_dom : forall x, x ∈ l -> is_Some (nb_els q !! x);
  nr_lock : nb_locked q = false }.

Lemma nbnx_upd q p f x :
  nbnx (upd_el p f q) x = fupd (nbnx q) p (nb_next (f (nb_els q !!! p))) x.
Proof.
  unfold nbnx, upd_el, fupd. cbn [nb_els setf]. destruct (Z.eqb_spec x p) as [->|].
  - by rewrite lookup_total_insert_eq.
  - by rewrite lookup_total_insert_ne.
Qed.

Lemma upd_el_dom q p f x :
  is_Some (nb_els (upd_el p f q) !! x) <-> p = x \/ is_Some (nb_els q !! x).
Proof.
  unfold upd_el. cbn [nb_els setf]. rewrite lookup_insert_is_Some.
  destruct (decide (p = x)); tauto.
Qed.

Lemma nb_enq_ok q l el :
  nb_rep q l -> el <> 0 -> el ∉ l ->
  exists q', nbqueue_enq el q = Some q' /\ nb_rep q' (l ++ [el]).
Proof.
  intros [Hp Hnd H0 Hdom Hl] Hel0 Hel. unfold nbqueue_enq, nb_lock. rewrite Hl.
  cbn [mbind option_bind]. eexists. split; [done|].
  set (q1 := if negb (nb_head _ =? 0) then _ else _).
  assert (E1 : (forall x, nbnx q1 x = nbnx q x) /\ nb_head q1 = nb_head q
    /\ (forall x, is_Some (nb_els q !! x) -> is_Some (nb_els q1 !! x))).
  { subst q1. destruct (negb _); [|done]. split; [|split; [done|]].
    - intros x. rewrite nbnx_upd. unfold fupd. cbn.
      destruct (Z.eqb_spec x (nb_head q)) as [->|]; done.
    - intros x Hx. apply upd_el_dom. by right. }
  destruct E1 as (E1 & E2 & E3). clearbody q1.
  constructor; cbn [nb_unlock nb_head nb_locked setf].
  - rewrite reverse_snoc. split; [done|].
    assert (En : forall x, nbnx (nb_unlock (upd_el el (fun _ => mk_nbel (nb_head q1) 0) q1
                    <| nb_head := el |>)) x = fupd (nbnx q1) el (nb_head q1) x)
      by (intros x; apply (nbnx_upd q1 el (fun _ => mk_nbel (nb_head q1) 0))).
    rewrite <- E2 in Hp. rewrite En, fupd_eq. eapply path_ext; [|exact Hp]. intros x Hx. rewrite En.
    rewrite elem_of_reverse in Hx. rewrite fupd_ne by (by intros ->). by rewrite E1.
  - apply NoDup_app. split; [done|]. split; [|apply NoDup_singleton].
    intros x Hx ->%list_elem_of_singleton. done.
  - rewrite elem_of_app, list_elem_of_singleton. naive_solver.
  - intros x Hx. apply (upd_el_dom q1). apply elem_of_app in Hx as [Hx|Hx].
    + right. auto.
    + apply list_elem_of_singleton in Hx. by left.
  - done.
Qed.

Lemma nb_last_ok fuel q l el_p el x :
  path (nbnx q) el (reverse (x :: l)) 0 -> 0 ∉ x :: l -> (length l < fuel)%nat ->
  nb_last fuel q el_p el = Some (default el_p (head l), x).
Proof.
  rewrite reverse_cons. revert el el_p fuel.
  induction l as [|y l IH] using rev_ind; intros el el_p [|fuel] Hp H0 Hf; try lia.
  - destruct Hp as [-> Hp]. cbn in Hp. cbn [nb_last]. fold (nbnx q x). rewrite Hp. cbn.
    by rewrite andb_false_r.
  - rewrite length_app in Hf. cbn in Hf. rewrite reverse_snoc in Hp. destruct Hp as [-> Hp].
    rewrite elem_of_cons, elem_of_app, list_elem_of_singleton in H0. cbn [nb_last].
    rewrite (proj2 (Z.eqb_neq y 0)) by (intros ->; tauto).
    assert (En : nb_next (nb_els q !!! y) =? 0 = false).
    { apply Z.eqb_neq. fold (nbnx q y). intros E. rewrite E in Hp.
      destruct (reverse l ++ [x]) as [|z r] eqn:Er; [by destruct (reverse l)|].
      destruct Hp as [<- _].
      assert (Hz : 0 ∈ reverse l ++ [x]) by (rewrite Er; apply list_elem_of_here).
      rewrite elem_of_app, elem_of_reverse, list_elem_of_singleton in Hz. naive_solver. }
    rewrite En. cbn [negb andb]. rewrite (IH (nb_next (nb_els q !!! y)) y fuel Hp).
    + by destruct l.
    + rewrite elem_of_cons. tauto.
    + lia.
Qed.

Lemma nb_deq_ok q l :
  nb_rep q l ->
  exists q', nbqueue_deq q = Some (default 0 (head l), q') /\ nb_rep q' (tail l).
Proof.
  intros [Hp Hnd H0 Hdom Hl]. unfold nbqueue_deq. destruct l as [|x l].
  { cbn in Hp. rewrite Hp. eexists. split; [done|]. by constructor. }
  assert (Hh : nb_head q <> 0).
  { intros E. apply H0. rewrite reverse_cons in Hp. apply path_head in Hp. rewrite E in Hp.
    assert (Hin : head (reverse l ++ [x]) = Some 0).
    { destruct (reverse l) as [|z r]; cbn in Hp |- *; congruence. }
    apply head_Some_elem_of in Hin.
    rewrite elem_of_app, elem_of_reverse, list_elem_of_singleton in Hin.
    apply elem_of_cons. naive_solver. }
  rewrite (proj2 (Z.eqb_neq _ _) Hh). unfold nb_lock. rewrite Hl. cbn [mbind option_bind].
  set (q1 := q <| nb_locked := true |>).
  change (nb_els q1) with (nb_els q). change (nb_head q1) with (nb_head q).
  rewrite (nb_last_ok _ q1 l 0 (nb_head q) x); [|exact Hp|done|].
  2: { pose proof (length_le_size (nb_els q) (x :: l) Hnd Hdom). cbn in *. lia. }
  cbn [mbind option_bind]. rewrite reverse_cons in Hp.
  assert (Hx : nbnx q x = 0).
  { apply path_app in Hp as (m & _ & -> & Hp). exact Hp. }
  fold (nbnx q x). rewrite Hx. cbn [Z.eqb cassert mbind option_bind].
  apply NoDup_cons in Hnd as [Hxl Hnd]. rewrite elem_of_cons in H0.
  rewrite (proj2 (Z.eqb_neq x 0)) by (intros ->; tauto). cbn [negb].
  eexists. split; [done|]. cbn [tail]. destruct l as [|y l]; cbn [head default from_option id].
  - constructor; [done|constructor|apply not_elem_of_nil| |done].
    intros z Hz. by apply not_elem_of_nil in Hz.
  - rewrite elem_of_cons in H0. rewrite (proj2 (Z.eqb_neq y 0)) by (intros ->; tauto).
    cbn [negb]. apply NoDup_cons in Hnd as [Hyl Hnd].
    assert (En : forall z, nbnx (nb_unlock (upd_el y (fun e => e <| nb_next := 0 |>) q1)) z
                 = fupd (nbnx q) y 0 z) by (intros z; apply (nbnx_upd q1 y)).
    constructor.
    + cbn [nb_head nb_unlock upd_el setf q1]. rewrite reverse_cons in Hp |- *.
      apply path_app in Hp as (m & Hp & _). eapply path_ext; [intros z _; apply En|].
      apply (path_redirect _ _ _ _ m); [by rewrite elem_of_reverse|done].
    + by constructor.
    + rewrite elem_of_cons. tauto.
    + intros z Hz. apply (upd_el_dom q1). right. apply Hdom. by apply list_elem_of_further.
    + done.
Qed.

(** The queue hands out its elements in the order they were put in, with none lost and
    none repeated. *)
Theorem nbqueue_refines_fifo q l :
  nb_rep q l ->
  (forall el, el <> 0 -> el ∉ l ->
     exists q', nbqueue_enq el q = Some q' /\ nb_rep q' (l ++ [el]))
  /\ exists q', nbqueue_deq q = Some (default 0 (head l), q') /\ nb_rep q' (tail l).
Proof.
  intros H. split; [|by apply nb_deq_ok]. intros el H0 Hel. by apply nb_enq_ok.
Qed.

Lemma nbqueue_refines_fifo_witness : exists q1 q2 q3,
  nbqueue_enq 5 (mk_nbqueue ∅ 0 false) = Some q1 /\ nbqueue_enq 6 q1 = Some q2
  /\ nbqueue_deq q2 = Some (5, q3) /\ nb_rep q3 [6].
Proof.
  assert (R0 : nb_rep (mk_nbqueue ∅ 0 false) []).
  { constructor; [done|by constructor|apply not_elem_of_nil| |done].
    intros x Hx. by apply not_elem_of_nil in Hx. }
  destruct (proj1 (nbqueue_refines_fifo _ _ R0) 5) as (q1 & E1 & R1);
    [done|apply not_elem_of_nil|].
  destruct (proj1 (nbqueue_refines_fifo _ _ R1) 6) as (q2 & E2 & R2);
    [done|by intros ?%list_elem_of_singleton|].
  destruct (proj2 (nbqueue_refines_fifo _ _ R2)) as (q3 & E3 & R3).
  exists q1, q2, q3. exact (conj E1 (conj E2 (conj E3 R3))).
Defined.

(** Removing the newest or the oldest element returns with the mutex held, so that the
    next operation blocks; removing the oldest of several empties the queue. *)
Lemma nbqueue_remove_locks :
  let q := default (mk_nbqueue ∅ 0 false)
             (nbqueue_enq 5 (mk_nbqueue ∅ 0 false) ≫= nbqueue_enq 6) in
  exists q', nbqueue_remove 5 q = Some q' /\ nb_head q' = 0 /\ nbqueue_enq 7 q' = None.
Proof. eexists. split; [vm_compute; reflexivity|]. split; reflexivity. Qed.
