(* ===== verification/SpTypes.v ===== *)
(** * Data of the slow path (tas/slow/internal.h, tas/include/config.h)

    The TCP connection as the slow path keeps it, and the configuration values it
    reads.  Fields that have the name of a flow state field carry the prefix
    [cn_]. *)

From S2P Require Import Prelude.

(** ** Configuration

    [kni_enabled]: [kni_name] is not [NULL]. *)

Inductive config_cc_algorithm : Type :=
| CONFIG_CC_DCTCP_WIN | CONFIG_CC_DCTCP_RATE | CONFIG_CC_TIMELY | CONFIG_CC_CONST_RATE.

Record configuration : Type := mk_config {
  tcp_rxbuf_len : Z; tcp_txbuf_len : Z;
  tcp_rtt_init : Z; tcp_link_bw : Z; tcp_handshake_to : Z; tcp_handshake_retries : Z;
  config_ip : Z; arp_to : Z; arp_to_max : Z; kni_enabled : bool;
  cc_algorithm : config_cc_algorithm;
  cc_control_granularity : Z; cc_control_interval : Z; cc_rexmit_ints : Z;
  cc_dctcp_weight : Z; cc_dctcp_init : Z; cc_dctcp_step : Z; cc_dctcp_mimd : Z;
  cc_dctcp_min : Z; cc_dctcp_minpkts : Z; cc_const_rate : Z;
  cc_timely_tlow : Z; cc_timely_thigh : Z; cc_timely_step : Z; cc_timely_init : Z;
  cc_timely_alpha : Z; cc_timely_beta : Z; cc_timely_min_rtt : Z; cc_timely_min_rate : Z }.
#[export] Instance eta_config : Eta configuration := fun r =>
  mk_config (tcp_rxbuf_len r) (tcp_txbuf_len r)
    (tcp_rtt_init r) (tcp_link_bw r) (tcp_handshake_to r) (tcp_handshake_retries r)
    (config_ip r) (arp_to r) (arp_to_max r) (kni_enabled r)
    (cc_algorithm r)
    (cc_control_granularity r) (cc_control_interval r) (cc_rexmit_ints r)
    (cc_dctcp_weight r) (cc_dctcp_init r) (cc_dctcp_step r) (cc_dctcp_mimd r)
    (cc_dctcp_min r) (cc_dctcp_minpkts r) (cc_const_rate r)
    (cc_timely_tlow r) (cc_timely_thigh r) (cc_timely_step r) (cc_timely_init r)
    (cc_timely_alpha r) (cc_timely_beta r) (cc_timely_min_rtt r) (cc_timely_min_rate r).

(** ** Connections *)

Inductive connection_status : Type :=
| CONN_SYN_WAIT | CONN_OVS_PENDING | CONN_OVS_COMP | CONN_ARP_PENDING | CONN_SYN_SENT
| CONN_REG_SYNACK | CONN_OPEN | CONN_CLOSED | CONN_FAILED.
#[export] Instance connection_status_dec : EqDecision connection_status.
Proof. solve_decision. Defined.

Record connection_cc_dctcp_win : Type := mk_dctcp_win {
  dw_ecn_rate : Z; dw_window : Z; dw_slowstart : bool }.
#[export] Instance eta_dctcp_win : Eta connection_cc_dctcp_win := fun r =>
  mk_dctcp_win (dw_ecn_rate r) (dw_window r) (dw_slowstart r).

Record connection_cc_dctcp_rate : Type := mk_dctcp_rate {
  unproc_acks : Z; unproc_ackb : Z; unproc_ecnb : Z; unproc_drops : Z;
  dr_ecn_rate : Z; dr_act_rate : Z; dr_slowstart : bool }.
#[export] Instance eta_dctcp_rate : Eta connection_cc_dctcp_rate := fun r =>
  mk_dctcp_rate (unproc_acks r) (unproc_ackb r) (unproc_ecnb r) (unproc_drops r)
    (dr_ecn_rate r) (dr_act_rate r) (dr_slowstart r).

Record connection_cc_timely : Type := mk_timely {
  rtt_prev : Z; rtt_diff : Z; hai_cnt : Z; ti_act_rate : Z; ti_last_ts : Z;
  ti_slowstart : bool }.
#[export] Instance eta_timely : Eta connection_cc_timely := fun r =>
  mk_timely (rtt_prev r) (rtt_diff r) (hai_cnt r) (ti_act_rate r) (ti_last_ts r)
    (ti_slowstart r).

(** The congestion control fields of [struct connection].  The alternatives of the
    union are fields of their own: the algorithm is fixed by the configuration, so
    that only one of them is ever used. *)
Record conn_cc : Type := mk_conn_cc {
  cc_last_ts : Z; cc_rtt : Z; cc_last_drops : Z; cc_last_acks : Z; cc_last_ackb : Z;
  cc_last_ecnb : Z; cc_last_tx_next_seq : Z; cc_rate : Z; cc_rexmits : Z;
  dctcp_win : connection_cc_dctcp_win; timely : connection_cc_timely;
  dctcp_rate : connection_cc_dctcp_rate;
  cnt_win_updt_pending : Z; ts_win_updt_pending : Z; cnt_tx_pending : Z;
  ts_tx_pending : Z; cc_next : Z }.
#[export] Instance eta_conn_cc : Eta conn_cc := fun r =>
  mk_conn_cc (cc_last_ts r) (cc_rtt r) (cc_last_drops r) (cc_last_acks r) (cc_last_ackb r)
    (cc_last_ecnb r) (cc_last_tx_next_seq r) (cc_rate r) (cc_rexmits r)
    (dctcp_win r) (timely r) (dctcp_rate r)
    (cnt_win_updt_pending r) (ts_win_updt_pending r) (cnt_tx_pending r)
    (ts_tx_pending r) (cc_next r).

(** [cn_vm] and [cn_app_id] are [ctx->app->vm_id] and [ctx->app->id]; [rx_buf] and
    [tx_buf] are offsets into the shared memory of the VM. *)
Record connection : Type := mk_conn {
  cn_opaque : Z; cn_ctx : Z; cn_vm : Z; cn_app_id : Z; app_next : Z; cn_db_id : Z;
  rx_handle : Z; tx_handle : Z; rx_buf : Z; tx_buf : Z; cn_rx_len : Z; cn_tx_len : Z;
  cn_remote_mac : Z; cn_tunnel_id : Z; cn_out_remote_ip : Z; cn_out_local_ip : Z;
  cn_in_remote_ip : Z; cn_in_local_ip : Z; cn_remote_port : Z; cn_local_port : Z;
  status : connection_status; remote_seq : Z; local_seq : Z; syn_ts : Z;
  cn_timeout : Z; to_attempts : Z; to_armed : bool;
  cn_cc : conn_cc;
  ht_next : Z; comp_status : Z; cn_flow_id : Z; fn_core : Z; cn_flags : Z;
  cn_flow_group : Z }.
#[export] Instance eta_connection : Eta connection := fun r =>
  mk_conn (cn_opaque r) (cn_ctx r) (cn_vm r) (cn_app_id r) (app_next r) (cn_db_id r)
    (rx_handle r) (tx_handle r) (rx_buf r) (tx_buf r) (cn_rx_len r) (cn_tx_len r)
    (cn_remote_mac r) (cn_tunnel_id r) (cn_out_remote_ip r) (cn_out_local_ip r)
    (cn_in_remote_ip r) (cn_in_local_ip r) (cn_remote_port r) (cn_local_port r)
    (status r) (remote_seq r) (local_seq r) (syn_ts r)
    (cn_timeout r) (to_attempts r) (to_armed r) (cn_cc r)
    (ht_next r) (comp_status r) (cn_flow_id r) (fn_core r) (cn_flags r)
    (cn_flow_group r).

(** [memset] of the structs. *)
Definition conn_cc_zero : conn_cc :=
  mk_conn_cc 0 0 0 0 0 0 0 0 0 (mk_dctcp_win 0 0 false) (mk_timely 0 0 0 0 0 false)
    (mk_dctcp_rate 0 0 0 0 0 0 false) 0 0 0 0 0.
Definition conn_zero : connection :=
  mk_conn 0 0 0 0 0 0 0 0 0 0 0 0 0 0 0 0 0 0 0 0 CONN_SYN_WAIT 0 0 0 0 0 false conn_cc_zero
    0 0 0 0 0 0.
#[export] Instance connection_inhabited : Inhabited connection := populate conn_zero.

(** Statistics the fast path keeps for a flow. *)
Record nicif_stats : Type := mk_stats {
  c_drops : Z; c_acks : Z; c_ackb : Z; c_ecnb : Z; txp : bool; st_rtt : Z;
  c_tx_next_seq : Z; c_tx_avail : Z }.
#[export] Instance eta_stats : Eta nicif_stats := fun r =>
  mk_stats (c_drops r) (c_acks r) (c_ackb r) (c_ecnb r) (txp r) (st_rtt r)
    (c_tx_next_seq r) (c_tx_avail r).
