(* ===== verification/Cc.v ===== *)
(** * Congestion control (tas/slow/cc.c)

    The control loop over the connections of each VM, the four rate control
    algorithms with their 32-bit and 64-bit arithmetic, and the decision to
    retransmit.  Division by zero is [None], as is a failed assertion.  The
    counters of [kstats] and the budget updates inside the loop are left out. *)

From S2P Require Import Prelude FpTypes SpTypes.

(** ** State *)

Record ccst : Type := mk_ccst {
  conns : gmap Z connection;
  cc_conns : gmap Z Z; next_conn : gmap Z Z;
  last_ts : Z; next_vm : Z;
  cc_flowst : gmap Z flowst;
  cc_retransmits : list Z }.
#[export] Instance eta_ccst : Eta ccst := fun r =>
  mk_ccst (conns r) (cc_conns r) (next_conn r) (last_ts r) (next_vm r) (cc_flowst r)
    (cc_retransmits r).

Definition UINT32_MAX : Z := 4294967295.
Definition INT32_MAX : Z := 2147483647.
Definition INT16_MAX : Z := 32767.
Definition CONF_MSS : Z := 1400.

(** C division: unsigned, and signed (rounding towards zero). *)
Definition udiv (a b : Z) : option Z := if b =? 0 then None else Some (a / b).
Definition sdiv (a b : Z) : option Z := if b =? 0 then None else Some (Z.quot a b).

(** ** Fast path state (tas/slow/nicif.c) *)

Definition nicif_connection_stats (fp : gmap Z flowst) (f_id : Z) : option nicif_stats :=
  if FLEXNIC_PL_FLOWST_NUM <=? f_id then None
  else
    let fs := fp !!! f_id in
    Some (mk_stats (cnt_tx_drops fs) (cnt_rx_acks fs) (cnt_rx_ack_bytes fs)
            (cnt_rx_ecn_bytes fs) (negb (tx_sent fs =? 0)) (rtt_est fs)
            (tx_next_seq fs) (tx_avail fs)).

Definition nicif_connection_setrate (f_id rate : Z) (fp : gmap Z flowst) : gmap Z flowst :=
  if FLEXNIC_PL_FLOWST_NUM <=? f_id then fp
  else <[f_id := (fp !!! f_id) <| tx_rate := rate |>]> fp.

Section Config.
Context (config : configuration).

(** ** Window to rate *)

Definition window_to_rate (window rtt : Z) : option Z :=
  t ← udiv (u64 (window * 8 * 1000)) (tcp_link_bw config);
  let time := t / 1000 in
  let time := if time <? u32 (rtt * 1000) then u32 (rtt * 1000) else time in
  _ ← cassert (negb (time =? 0));
  let rate := u64 (window * 8 * 1000000) / time in
  Some (u32 (if UINT32_MAX <? rate then UINT32_MAX else rate)).

(** The ECN estimate: moving average of the fraction of marked bytes. *)
Definition ewma_ecn (old c_ecnb c_ackb : Z) : Z :=
  let ecn_rate := u64 (c_ecnb * UINT32_MAX) / c_ackb in
  u32 (u64 (u64 (ecn_rate * cc_dctcp_weight config)
            + u64 (old * u32 (UINT32_MAX - cc_dctcp_weight config))) / UINT32_MAX).

(** ** Window-based DCTCP *)

Definition dctcp_win_init (c : conn_cc) : option conn_cc :=
  let win := 2 * CONF_MSS in
  rate ← window_to_rate win (tcp_rtt_init config);
  Some (c <| dctcp_win := mk_dctcp_win 0 win true |> <| cc_rate := rate |>).

(** Slow start: the window and whether slow start goes on. *)
Definition dctcp_win_slowstart (c : conn_cc) (s : nicif_stats) (win : Z) : Z * bool :=
  if dw_slowstart (dctcp_win c) then
    if (c_drops s =? 0) && (c_ecnb s =? 0) && (cc_rexmits c =? 0)
    then (if win <? u32 (win + c_ackb s) then u32 (win + c_ackb s) else win, true)
    else (win, false)
  else (win, false).

(** Congestion avoidance: the window and the new ECN estimate. *)
Definition dctcp_win_avoid (c : conn_cc) (s : nicif_stats) (win : Z) : option (Z * Z) :=
  let old := dw_ecn_rate (dctcp_win c) in
  if (0 <? c_drops s) || (0 <? cc_rexmits c) then Some (win / 2, old)
  else
    let '(c_ecnb, ecn_rate) :=
      if 0 <? c_ackb s then
        let e := if c_ecnb s <=? c_ackb s then c_ecnb s else c_ackb s in
        (e, ewma_ecn old e (c_ackb s))
      else (c_ecnb s, old) in
    if 0 <? c_ecnb then
      Some (u32 (u64 (win * u32 (UINT32_MAX - ecn_rate / 2)) / UINT32_MAX), ecn_rate)
    else
      _ ← cassert (negb (win =? 0));
      let incr := u64 (c_ackb s * CONF_MSS) / win in
      Some (if win <? u32 (win + incr) then u32 (win + incr) else win, ecn_rate).

Definition dctcp_win_update (c : conn_cc) (tx_len : Z) (s : nicif_stats) : option conn_cc :=
  let win := dw_window (dctcp_win c) in
  _ ← cassert (CONF_MSS <=? win);
  let rtt := if st_rtt s =? 0 then tcp_rtt_init config else st_rtt s in
  let '(win, slowstart) := dctcp_win_slowstart c s win in
  '(win, ecn_rate) ←
    (if slowstart then Some (win, dw_ecn_rate (dctcp_win c)) else dctcp_win_avoid c s win);
  let win := if win <? CONF_MSS then CONF_MSS else win in
  let win := if tx_len <? win then tx_len else win in
  rate ← window_to_rate win rtt;
  _ ← cassert (CONF_MSS <=? win);
  Some (c <| cc_rtt := rtt |> <| cc_rate := rate |>
          <| dctcp_win := mk_dctcp_win ecn_rate win slowstart |> <| cc_rexmits := 0 |>).

(** ** Rate-based DCTCP *)

Definition dctcp_rate_init (c : conn_cc) : conn_cc :=
  c <| cc_rate := cc_dctcp_init config |>
    <| dctcp_rate ::= fun d =>
         d <| dr_ecn_rate := 0 |> <| dr_slowstart := true |> <| unproc_ecnb := 0 |>
           <| unproc_acks := 0 |> <| unproc_ackb := 0 |> <| unproc_drops := 0 |> |>.

(** The rate really used: the moving average and the larger of the two. *)
Definition actual_rate (avg c_ackb last cur : Z) : option (Z * Z) :=
  act ← (if negb (last =? 0)
         then udiv (u32 (u32 (c_ackb * 8) * 1000)) (u32 (cur - last)) else Some 0);
  let avg := u32 (u32 (7 * avg) + act) / 8 in
  Some (avg, if avg <=? act then act else avg).

Definition clamp_used (rate act_rate : Z) : Z :=
  if u64 (act_rate * 12) / 10 <? rate then u32 (u64 (act_rate * 12) / 10) else rate.

Definition dctcp_rate_avoid (d : connection_cc_dctcp_rate) (rexmits rate c_ecnb c_ackb
    c_drops : Z) : Z * Z :=
  let old := dr_ecn_rate d in
  if (0 <? c_drops) || (0 <? rexmits) then (rate / 2, old)
  else
    let '(c_ecnb, ecn_rate) :=
      if 0 <? c_ackb then
        let e := if c_ecnb <=? c_ackb then c_ecnb else c_ackb in
        (e, ewma_ecn old e c_ackb)
      else (c_ecnb, old) in
    if 0 <? c_ecnb
    then (u32 (u64 (rate * u32 (UINT32_MAX - ecn_rate / 2)) / UINT32_MAX), ecn_rate)
    else if cc_dctcp_mimd config =? 0 then (u32 (rate + cc_dctcp_step config), ecn_rate)
    else (u32 (rate + u64 (rate * cc_dctcp_mimd config) / UINT32_MAX), ecn_rate).

Definition dctcp_rate_update (c : conn_cc) (s : nicif_stats) (cur_ts : Z) : option conn_cc :=
  let d := dctcp_rate c in
  let rate := cc_rate c in
  let rtt := if st_rtt s =? 0 then tcp_rtt_init config else st_rtt s in
  let c := c <| cc_rtt := rtt |> in
  let ecnb := u32 (unproc_ecnb d + c_ecnb s) in
  let acks := u32 (unproc_acks d + c_acks s) in
  let ackb := u32 (unproc_ackb d + c_ackb s) in
  let drops := u32 (unproc_drops d + c_drops s) in
  if acks <? cc_dctcp_minpkts config then
    Some (c <| dctcp_rate := d <| unproc_ecnb := ecnb |> <| unproc_acks := acks |>
                               <| unproc_ackb := ackb |> <| unproc_drops := drops |> |>)
  else
    let d := d <| unproc_ecnb := 0 |> <| unproc_acks := 0 |> <| unproc_ackb := 0 |>
               <| unproc_drops := 0 |> in
    '(avg, act_rate) ← actual_rate (dr_act_rate d) ackb (cc_last_ts c) cur_ts;
    let d := d <| dr_act_rate := avg |> in
    let rate := clamp_used rate act_rate in
    let '(rate, slowstart) :=
      if dr_slowstart d then
        if (drops =? 0) && (ecnb =? 0) && (cc_rexmits c =? 0)
        then (if rate <=? u32 (rate * 2) then u32 (rate * 2) else UINT32_MAX, true)
        else (rate, false)
      else (rate, false) in
    let '(rate, ecn_rate) :=
      if slowstart : bool then (rate, dr_ecn_rate d)
      else dctcp_rate_avoid d (cc_rexmits c) rate ecnb ackb drops in
    let rate := if rate <? cc_dctcp_min config then cc_dctcp_min config else rate in
    Some (c <| dctcp_rate := d <| dr_ecn_rate := ecn_rate |> <| dr_slowstart := slowstart |> |>
            <| cc_rate := rate |> <| cc_rexmits := 0 |>).

(** ** TIMELY *)

Definition timely_init (c : conn_cc) : conn_cc :=
  c <| cc_rate := cc_timely_init config |>
    <| timely ::= fun t =>
         t <| rtt_prev := 0 |> <| rtt_diff := 0 |> <| hai_cnt := 0 |>
           <| ti_last_ts := 0 |> <| ti_slowstart := true |> |>.

(** The RTT gradient; [rtt_diff] is an [int32_t], the products are 64 bits wide. *)
Definition timely_gradient (t : connection_cc_timely) (new_rtt : Z) : option (Z * Z) :=
  if rtt_prev t =? 0 then Some (rtt_diff t, 0)
  else
    let new_rtt_diff := s32 (u32 (new_rtt - rtt_prev t)) in
    let factor := cc_timely_alpha config / 2 in
    let x := s64 ((INT32_MAX - factor) * rtt_diff t + factor * new_rtt_diff) in
    let diff := s32 (Z.quot x INT32_MAX) in
    ng ← sdiv (diff * INT16_MAX) (cc_timely_min_rtt config);
    Some (diff, ng).

(** The new rate and [hai_cnt]. *)
Definition timely_rate (slowstart : bool) (rate hai new_rtt ng : Z) : Z * Z :=
  if slowstart then (u32 (rate * 2), hai)
  else if new_rtt <? cc_timely_tlow config then (u32 (rate + cc_timely_step config), 0)
  else if cc_timely_thigh config <? new_rtt then
    let d := u32 (u64 (UINT32_MAX * cc_timely_thigh config) / new_rtt) in
    let b := u32 (UINT32_MAX - d) in
    let a := u32 (u64 (cc_timely_beta config * b) / UINT32_MAX) in
    (u32 (u64 (rate * u32 (UINT32_MAX - a)) / UINT32_MAX), 0)
  else if ng <=? 0 then
    let hai := u32 (hai + 1) in
    if 5 <=? hai
    then (u32 (rate + u32 (cc_timely_step config * 5)), u32 (hai - 1))
    else (u32 (rate + cc_timely_step config), hai)
  else
    let a := s64 (cc_timely_beta config / 2 * ng) in
    let b := Z.quot a INT16_MAX in
    let d := if b <=? INT32_MAX then INT32_MAX - b else 0 in
    let e := s64 (rate * d) in
    (u32 (Z.quot e INT32_MAX), 0).

Definition timely_update (c : conn_cc) (s : nicif_stats) (cur_ts : Z) : option conn_cc :=
  let t := timely c in
  let new_rtt := st_rtt s in
  '(avg, act_rate) ← actual_rate (ti_act_rate t) (c_ackb s) (ti_last_ts t) cur_ts;
  let t := t <| ti_act_rate := avg |> in
  if new_rtt =? 0 then Some (c <| timely := t |>)
  else
    let slowstart :=
      ti_slowstart t
      && negb (u32 (cc_timely_tlow config + cc_timely_thigh config) / 2 <? new_rtt) in
    let rate := if slowstart then cc_rate c else clamp_used (cc_rate c) act_rate in
    '(diff, ng) ← timely_gradient t new_rtt;
    let orig_rate := rate in
    let '(rate, hai) := timely_rate slowstart rate (hai_cnt t) new_rtt ng in
    let rate := if rate <? orig_rate / 2 then orig_rate / 2 else rate in
    let rate := if rate <? cc_timely_min_rate config then cc_timely_min_rate config
                else rate in
    Some (c <| timely := mk_timely new_rtt diff hai avg cur_ts slowstart |>
            <| cc_rate := rate |> <| cc_rtt := st_rtt s |> <| cc_rexmits := 0 |>).

(** ** Constant rate *)

Definition const_rate_init (c : conn_cc) : conn_cc := c <| cc_rate := cc_const_rate config |>.

Definition const_rate_update (c : conn_cc) (s : nicif_stats) : conn_cc :=
  c <| cc_rtt := if st_rtt s =? 0 then tcp_rtt_init config else st_rtt s |>
    <| cc_rexmits := 0 |>.

(** The two switches over the algorithm. *)
Definition cc_algo_init (c : conn_cc) : option conn_cc :=
  match cc_algorithm config with
  | CONFIG_CC_DCTCP_WIN => dctcp_win_init c
  | CONFIG_CC_DCTCP_RATE => Some (dctcp_rate_init c)
  | CONFIG_CC_TIMELY => Some (timely_init c)
  | CONFIG_CC_CONST_RATE => Some (const_rate_init c)
  end.

Definition cc_algo_update (c : conn_cc) (tx_len : Z) (s : nicif_stats) (cur_ts : Z)
    : option conn_cc :=
  match cc_algorithm config with
  | CONFIG_CC_DCTCP_WIN => dctcp_win_update c tx_len s
  | CONFIG_CC_DCTCP_RATE => dctcp_rate_update c s cur_ts
  | CONFIG_CC_TIMELY => timely_update c s cur_ts
  | CONFIG_CC_CONST_RATE => Some (const_rate_update c s)
  end.

(** ** Retransmissions *)

Section Retransmit.
(** [nicif_connection_retransmit] for a flow, VM and flow group: whether it returns
    0, that is, whether the request fits into the queue to the fast path. *)
Context (retransmit : Z -> Z -> Z -> bool).

(** The connection, and whether a retransmission was requested. *)
Definition issue_retransmits (c : conn_cc) (fid vm fg : Z) (s : nicif_stats) (cur_ts : Z)
    : conn_cc * bool :=
  let rtt := if negb (st_rtt s =? 0) then st_rtt s else tcp_rtt_init config in
  if txp s && (c_ackb s =? 0) then
    let cnt := cnt_tx_pending c in
    let c := c <| cnt_tx_pending := u32 (cnt + 1) |> in
    if cnt =? 0 then
      (c <| ts_tx_pending := cur_ts |> <| ts_win_updt_pending := cur_ts |>, false)
    else if (cc_rexmit_ints config <=? cnt_tx_pending c)
            && (u32 (2 * rtt) <=? u32 (cur_ts - ts_tx_pending c)) then
      if retransmit fid vm fg then
        (c <| cnt_tx_pending := 0 |> <| cnt_win_updt_pending := 0 |>
           <| cc_rexmits := u32 (cc_rexmits c + 1) |>, true)
      else (c, false)
    else (c, false)
  else
    (c <| cnt_tx_pending := 0 |> <| cnt_win_updt_pending := 0 |>
       <| cc_last_tx_next_seq := c_tx_next_seq s |>, false).

(** ** The control loop *)

(** Differences to the counters of the last run; the first two are 16 bits wide. *)
Definition stats_delta (c : conn_cc) (s : nicif_stats) : conn_cc * nicif_stats :=
  (c <| cc_last_drops := c_drops s |> <| cc_last_acks := c_acks s |>
     <| cc_last_ackb := c_ackb s |> <| cc_last_ecnb := c_ecnb s |>,
   s <| c_drops := u16 (c_drops s - cc_last_drops c) |>
     <| c_acks := u16 (c_acks s - cc_last_acks c) |>
     <| c_ackb := u32 (c_ackb s - cc_last_ackb c) |>
     <| c_ecnb := u32 (c_ecnb s - cc_last_ecnb c) |>).

(** The body of the loop for one connection. *)
Definition cc_visit (vmid cur_ts p : Z) (m : ccst) : option ccst :=
  let c := conns m !!! p in
  if decide (status c <> CONN_OPEN) then Some m
  else if u32 (cur_ts - cc_last_ts (cn_cc c)) <?
          u32 (cc_rtt (cn_cc c) * cc_control_interval config) then Some m
  else
    s ← nicif_connection_stats (cc_flowst m) (cn_flow_id c);
    let '(cc, s) := stats_delta (cn_cc c) s in
    cc ← cc_algo_update cc (cn_tx_len c) s cur_ts;
    let '(cc, sent) :=
      issue_retransmits cc (cn_flow_id c) vmid (cn_flow_group c) s cur_ts in
    Some (m <| conns ::= <[p := c <| cn_cc := cc <| cc_last_ts := cur_ts |> |>]> |>
            <| cc_flowst ::= nicif_connection_setrate (cn_flow_id c) (cc_rate cc) |>
            <| cc_retransmits ::= fun l =>
                 if sent : bool then cn_flow_id c :: l else l |>).

Definition cc_succ (m : ccst) (vmid c : Z) : Z :=
  let next := cc_next (cn_cc (conns m !!! c)) in
  if negb (next =? 0) then next else cc_conns m !!! vmid.

(** At most 128 rounds in a poll; [first] is the connection the loop started at.
    The fuel is the bound of the loop itself. *)
Fixpoint cc_poll_loop (fuel : nat) (vmid cur_ts first c n : Z) (started : bool) (m : ccst)
    : option (Z * ccst) :=
  match fuel with
  | O => Some (n, m <| next_conn ::= <[vmid := c]> |>)
  | S fuel =>
      if (n <? 128) && (negb started || negb (c =? first)) then
        m ← cc_visit vmid cur_ts c m;
        cc_poll_loop fuel vmid cur_ts first (cc_succ m vmid c) (n + 1) true m
      else Some (n, m <| next_conn ::= <[vmid := c]> |>)
  end.

Definition cc_poll_vm (vmid cur_ts n : Z) (m : ccst) : option (Z * ccst) :=
  let c := if negb (next_conn m !!! vmid =? 0) then next_conn m !!! vmid
           else cc_conns m !!! vmid in
  if c =? 0 then Some (n, m)
  else cc_poll_loop (Z.to_nat (128 - n)) vmid cur_ts c c n false m.

(** The VMs from [next_vm] on; [vms] are the ids of the registered VMs. *)
Fixpoint cc_poll_vms (k : nat) (vms : gmap Z Z) (count cur_ts i n : Z) (m : ccst)
    : option (Z * Z * ccst) :=
  match k with
  | O => Some (i, n, m)
  | S k =>
      if n <? 128 then
        '(n, m) ← cc_poll_vm (vms !!! ((next_vm m + i) mod count)) cur_ts n m;
        cc_poll_vms k vms count cur_ts (i + 1) n m
      else Some (i, n, m)
  end.

Definition cc_poll (vms : gmap Z Z) (count cur_ts : Z) (m : ccst) : option (Z * ccst) :=
  if count =? 0 then Some (0, m <| last_ts := cur_ts |> <| next_vm := 0 |>)
  else
    let m := if count <=? next_vm m then m <| next_vm := 0 |> else m in
    '(i, n, m) ← cc_poll_vms (Z.to_nat count) vms count cur_ts 0 0 m;
    Some (n, m <| last_ts := cur_ts |> <| next_vm := (next_vm m + i) mod count |>).

End Retransmit.

(** ** Adding and removing connections *)

Definition cc_init (m : ccst) : ccst :=
  m <| cc_conns := ∅ |> <| next_conn := ∅ |>.

Definition upd_conn (p : Z) (f : connection -> connection) (m : ccst) : ccst :=
  m <| conns ::= fun h => <[p := f (h !!! p)]> h |>.

Definition cc_conn_init (p cur_ts : Z) (m : ccst) : option ccst :=
  let c := conns m !!! p in
  let vmid := cn_vm c in
  let cc := cn_cc c <| cc_next := cc_conns m !!! vmid |> <| cc_last_ts := cur_ts |>
              <| cc_rtt := tcp_rtt_init config |> <| cc_rexmits := 0 |>
              <| cc_last_tx_next_seq := 0 |> in
  cc ← cc_algo_init cc;
  Some (m <| cc_conns ::= <[vmid := p]> |> <| conns ::= <[p := c <| cn_cc := cc |>]> |>).

(** The predecessor of [p]; [Some 0]: not found. *)
Fixpoint cc_find_prev (fuel : nat) (m : ccst) (p cp : Z) : option Z :=
  match fuel with
  | O => None
  | S fuel =>
      if negb (cp =? 0) && negb (cc_next (cn_cc (conns m !!! cp)) =? p)
      then cc_find_prev fuel m p (cc_next (cn_cc (conns m !!! cp)))
      else Some cp
  end.

Definition cc_fuel (m : ccst) : nat := S (size (conns m)).

Definition cc_conn_remove (p : Z) (m : ccst) : option ccst :=
  let c := conns m !!! p in
  let vmid := cn_vm c in
  let next := cc_next (cn_cc c) in
  let m := if next_conn m !!! vmid =? p then m <| next_conn ::= <[vmid := next]> |> else m in
  if cc_conns m !!! vmid =? p then Some (m <| cc_conns ::= <[vmid := next]> |>)
  else
    cp ← cc_find_prev (cc_fuel m) m p (cc_conns m !!! vmid);
    _ ← cassert (negb (cp =? 0));
    Some (upd_conn cp (fun c => c <| cn_cc ::= fun cc => cc <| cc_next := next |> |>) m).

(** ** The time of the next run *)

Fixpoint cc_next_ts_vm (fuel : nat) (m : ccst) (cur_ts c ts : Z) : option Z :=
  match fuel with
  | O => None
  | S fuel =>
      if c =? 0 then Some ts
      else
        let k := conns m !!! c in
        let ts :=
          if decide (status k <> CONN_OPEN) then ts
          else
            let next_ts := s32 (u32 (u32 (cc_rtt (cn_cc k) * cc_control_interval config)
                                     - u32 (cur_ts - cc_last_ts (cn_cc k)))) in
            if 0 <=? next_ts then (if u32 next_ts <? ts then u32 next_ts else ts) else 0 in
        cc_next_ts_vm fuel m cur_ts (cc_next (cn_cc k)) ts
  end.

Fixpoint cc_next_ts_vms (vms : list Z) (m : ccst) (cur_ts ts : Z) : option Z :=
  match vms with
  | [] => Some ts
  | v :: vms =>
      ts ← cc_next_ts_vm (cc_fuel m) m cur_ts (cc_conns m !!! v) ts;
      cc_next_ts_vms vms m cur_ts ts
  end.

Definition cc_next_ts (vms : list Z) (m : ccst) (cur_ts : Z) : option Z :=
  _ ← cassert (last_ts m <=? cur_ts);
  ts ← cc_next_ts_vms vms m cur_ts UINT32_MAX;
  let g := u32 (cc_control_granularity config - u32 (cur_ts - last_ts m)) in
  Some (if ts =? UINT32_MAX then UINT32_MAX else if ts <? g then g else ts).

End Config.
