(* ===== verification/CcThms.v ===== *)
(** * Congestion control: proofs (tas/slow/cc.c)

    The algorithms return under sane configurations, the connections of a VM are visited in
    turn, and the lists stay well formed; then the theorems. *)

From S2P Require Import Prelude FpTypes Links SpTypes Cc.

(** ** The algorithms *)

(** Upper bound of the RTT estimates of the fast path ([TCP_MAX_RTT]). *)
Definition RTT_MAX : Z := 100000.

Record config_ok (config : configuration) : Prop := mk_config_ok {
  co_rtt : 0 < tcp_rtt_init config <= RTT_MAX;
  co_bw : 0 < tcp_link_bw config;
  co_interval : 0 < cc_control_interval config;
  co_wrap : RTT_MAX * cc_control_interval config < 4294967296 }.

Section Algos.
Context (config : configuration).
Hypothesis Hcfg : config_ok config.

(** At most a window per round trip: the rate in kbit/s times the RTT. *)
Lemma window_to_rate_ok window rtt :
  0 <= window < 4294967296 -> 0 < rtt <= RTT_MAX ->
  exists rate, window_to_rate config window rtt = Some rate
    /\ 0 <= rate < 4294967296 /\ rate * (rtt * 1000) <= window * 8 * 1000000.
Proof.
  intros Hw Hr. unfold RTT_MAX in Hr. destruct Hcfg as [_ Hbw _ _].
  unfold window_to_rate, udiv. rewrite (proj2 (Z.eqb_neq _ _)) by lia.
  cbn [mbind option_bind]. set (t := u64 _ / _ / 1000).
  rewrite (u32_id (rtt * 1000)) by cside. set (time := if t <? rtt * 1000 then _ else _).
  assert (Ht : rtt * 1000 <= time) by (subst time; destruct (Z.ltb_spec t (rtt * 1000)); lia).
  rewrite (proj2 (Z.eqb_neq time 0)) by lia. cbn [negb cassert mbind option_bind].
  rewrite (u64_id (window * 8 * 1000000)) by cside.
  set (q := window * 8 * 1000000 / time).
  assert (Hq : 0 <= q) by (apply Z.div_pos; lia).
  assert (Hqt : q * (rtt * 1000) <= window * 8 * 1000000).
  { apply Z.le_trans with (q * time); [apply Z.mul_le_mono_nonneg_l; lia|].
    rewrite Z.mul_comm. apply Z.mul_div_le. lia. }
  eexists. split; [reflexivity|]. unfold UINT32_MAX.
  destruct (Z.ltb_spec 4294967295 q) as [Hbig|Hsmall]; rewrite u32_id by cside.
  - split; [lia|]. apply Z.le_trans with (q * (rtt * 1000)); [|done].
    apply Z.mul_le_mono_nonneg_r; lia.
  - by split; [lia|].
Qed.

Lemma dctcp_win_slowstart_ge c s win :
  CONF_MSS <= win < 4294967296 ->
  win <= (dctcp_win_slowstart c s win).1 < 4294967296.
Proof.
  intros Hw. unfold dctcp_win_slowstart, CONF_MSS in *.
  pose proof (u32_range (win + c_ackb s)) as Hr. unfold is_u32 in Hr.
  destruct (dw_slowstart _); cbn; [|lia]. destruct (_ && _); cbn; [|lia].
  destruct (Z.ltb_spec win (u32 (win + c_ackb s))); lia.
Qed.

Lemma dctcp_win_avoid_some c s win :
  CONF_MSS <= win < 4294967296 ->
  exists win' e, dctcp_win_avoid config c s win = Some (win', e) /\ 0 <= win' < 4294967296.
Proof.
  intros Hw. unfold dctcp_win_avoid, CONF_MSS in *. cbv zeta.
  destruct (_ || _).
  { eexists _, _. split; [reflexivity|]. split; [apply Z.div_pos; lia|].
    apply Z.div_lt_upper_bound; lia. }
  destruct (if 0 <? c_ackb s then _ else _) as [e rate].
  rewrite (proj2 (Z.eqb_neq win 0)) by lia. cbn [negb cassert mbind option_bind].
  destruct (0 <? e).
  - eexists _, _. split; [reflexivity|]. apply u32_range.
  - eexists _, _. split; [reflexivity|]. destruct (Z.ltb_spec win (u32 (win + u64 (c_ackb s * 1400) / win))).
    + apply u32_range.
    + lia.
Qed.

Lemma dctcp_win_update_some c tx_len s :
  CONF_MSS <= dw_window (dctcp_win c) < 4294967296 ->
  CONF_MSS <= tx_len < 4294967296 -> 0 <= st_rtt s <= RTT_MAX ->
  exists c', dctcp_win_update config c tx_len s = Some c'
    /\ CONF_MSS <= dw_window (dctcp_win c') <= tx_len
    /\ cc_rtt c' = (if st_rtt s =? 0 then tcp_rtt_init config else st_rtt s)
    /\ cc_rate c' * (cc_rtt c' * 1000) <= dw_window (dctcp_win c') * 8 * 1000000
    /\ cc_next c' = cc_next c.
Proof.
  intros Hw Htx Hrtt. unfold dctcp_win_update.
  rewrite (proj2 (Z.leb_le _ _)) by lia. cbn [cassert mbind option_bind].
  set (rtt := if st_rtt s =? 0 then _ else _).
  assert (Hr : 0 < rtt <= RTT_MAX).
  { subst rtt. destruct Hcfg as [? _ _ _]. destruct (Z.eqb_spec (st_rtt s) 0); lia. }
  pose proof (dctcp_win_slowstart_ge c s _ Hw) as Hss.
  destruct (dctcp_win_slowstart c s (dw_window (dctcp_win c))) as [w1 ss]. cbn [fst] in Hss.
  assert (HM : 0 < CONF_MSS) by (unfold CONF_MSS; lia).
  assert (Hmid : exists w2 e, (if ss then Some (w1, dw_ecn_rate (dctcp_win c))
                               else dctcp_win_avoid config c s w1) = Some (w2, e)
                              /\ 0 <= w2 < 4294967296).
  { destruct ss; [by eexists _, _; split; [reflexivity|lia]|].
    apply dctcp_win_avoid_some. lia. }
  destruct Hmid as (w2 & e & -> & Hw2). cbn [mbind option_bind].
  set (w3 := if w2 <? CONF_MSS then CONF_MSS else w2).
  set (w4 := if tx_len <? w3 then tx_len else w3).
  assert (Hw4 : CONF_MSS <= w4 <= tx_len).
  { subst w4 w3. repeat zcase; lia. }
  unfold CONF_MSS in *.
  destruct (window_to_rate_ok w4 rtt) as (rate & -> & Hrate & Hle); [lia|done|].
  cbn [mbind option_bind]. rewrite (proj2 (Z.leb_le 1400 w4)) by lia.
  cbn [cassert mbind option_bind]. eexists. split; [reflexivity|].
  split; [exact Hw4|]. split; [reflexivity|]. split; [exact Hle|reflexivity].
Qed.

(** The stages of a successful update. *)
Lemma dctcp_win_update_inv c tx_len s c' :
  dctcp_win_update config c tx_len s = Some c' ->
  exists w1 ss w2 e, dctcp_win_slowstart c s (dw_window (dctcp_win c)) = (w1, ss)
    /\ (if ss then Some (w1, dw_ecn_rate (dctcp_win c)) else dctcp_win_avoid config c s w1)
       = Some (w2, e)
    /\ dctcp_win c' = mk_dctcp_win e (Z.min tx_len (Z.max CONF_MSS w2)) ss.
Proof.
  unfold dctcp_win_update. destruct (CONF_MSS <=? _); [|done]. cbn [cassert mbind option_bind].
  destruct (dctcp_win_slowstart c s _) as [w1 ss].
  destruct (if ss then _ else _) as [[w2 e]|] eqn:Ew; [|done]. cbn [mbind option_bind].
  set (w3 := if w2 <? CONF_MSS then CONF_MSS else w2).
  set (w4 := if tx_len <? w3 then tx_len else w3).
  assert (E3 : w3 = Z.max CONF_MSS w2) by (subst w3; zcase; lia).
  assert (E4 : w4 = Z.min tx_len (Z.max CONF_MSS w2)) by (subst w4; rewrite E3; zcase; lia).
  destruct (window_to_rate config w4 _) as [r|]; [|done]. cbn [mbind option_bind].
  destruct (CONF_MSS <=? w4); [|done]. cbn [cassert mbind option_bind].
  intros [= <-]. exists w1, ss, w2, e. rewrite <- E4. by split_and!.
Qed.

Lemma dctcp_win_slowstart_congested c s w :
  (0 <? c_drops s) || (0 <? cc_rexmits c) = true -> 0 <= c_drops s -> 0 <= cc_rexmits c ->
  dctcp_win_slowstart c s w = (w, false).
Proof.
  intros Hc Hd Hx. unfold dctcp_win_slowstart. destruct (dw_slowstart _); [|done].
  apply orb_true_iff in Hc as [Hc%Z.ltb_lt|Hc%Z.ltb_lt].
  - by rewrite (proj2 (Z.eqb_neq (c_drops s) 0)) by lia.
  - rewrite (proj2 (Z.eqb_neq (cc_rexmits c) 0)) by lia. by rewrite andb_false_r.
Qed.

Lemma dctcp_win_avoid_congested c s w :
  (0 <? c_drops s) || (0 <? cc_rexmits c) = true ->
  dctcp_win_avoid config c s w = Some (w / 2, dw_ecn_rate (dctcp_win c)).
Proof. intros Hc. unfold dctcp_win_avoid. by rewrite Hc. Qed.

Lemma dctcp_win_avoid_additive c s w :
  (0 <? c_drops s) || (0 <? cc_rexmits c) = false -> c_ecnb s = 0 ->
  CONF_MSS <= w < 4294967296 -> 0 <= c_ackb s -> w + c_ackb s < 4294967296 ->
  exists e, dctcp_win_avoid config c s w = Some (w + c_ackb s * CONF_MSS / w, e).
Proof.
  intros Hc Hz Hw Ha Hov. unfold dctcp_win_avoid. rewrite Hc, Hz. cbv zeta.
  set (p := if 0 <? c_ackb s then _ else _).
  assert (Ep : exists e, p = (0, e)).
  { subst p. destruct (Z.ltb_spec 0 (c_ackb s)); [|by eexists].
    rewrite (proj2 (Z.leb_le 0 _)) by lia. by eexists. }
  destruct Ep as [e ->]. unfold CONF_MSS in *. exists e. cbn [Z.ltb Z.compare].
  rewrite (proj2 (Z.eqb_neq w 0)) by lia. cbn [negb cassert mbind option_bind].
  rewrite (u64_id (c_ackb s * 1400)) by cside.
  assert (Hi : 0 <= c_ackb s * 1400 / w <= c_ackb s).
  { split; [apply Z.div_pos; lia|]. apply Z.div_le_upper_bound; nia. }
  rewrite u32_id by cside. f_equal. f_equal.
  destruct (Z.ltb_spec w (w + c_ackb s * 1400 / w)); lia.
Qed.

Lemma dctcp_win_avoid_marked c s w w' e :
  (0 <? c_drops s) || (0 <? cc_rexmits c) = false -> 0 < c_ecnb s -> 0 < c_ackb s ->
  CONF_MSS <= w < 4294967296 -> dctcp_win_avoid config c s w = Some (w', e) -> w' <= w.
Proof.
  intros Hc Hm Ha Hw. unfold dctcp_win_avoid. rewrite Hc. cbv zeta.
  rewrite (proj2 (Z.ltb_lt 0 (c_ackb s))) by lia.
  set (n := if c_ecnb s <=? c_ackb s then c_ecnb s else c_ackb s).
  assert (Hn : 0 < n) by (subst n; destruct (_ <=? _); lia).
  rewrite (proj2 (Z.ltb_lt 0 n)) by lia. intros [= <- _]. unfold UINT32_MAX, CONF_MSS in *.
  set (f := u32 (4294967295 - _ / 2)).
  assert (Hf : 0 <= f < 4294967296) by apply u32_range. clearbody f.
  rewrite (u64_id (w * f)) by (unfold is_u64; nia).
  assert (Hq : 0 <= w * f / 4294967295 <= w).
  { split; [apply Z.div_pos; nia|]. apply Z.div_le_upper_bound; nia. }
  rewrite u32_id by cside. lia.
Qed.

Lemma actual_rate_some avg ackb last cur :
  last = 0 \/ u32 (cur - last) <> 0 -> exists r, actual_rate avg ackb last cur = Some r.
Proof.
  intros Hd. unfold actual_rate, udiv. destruct (Z.eqb_spec last 0) as [|Hn]; cbn [negb].
  - by eexists.
  - rewrite (proj2 (Z.eqb_neq _ _)) by tauto. by eexists.
Qed.

Lemma dctcp_rate_update_some c s cur :
  cc_last_ts c = 0 \/ u32 (cur - cc_last_ts c) <> 0 ->
  exists c', dctcp_rate_update config c s cur = Some c'
    /\ cc_rtt c' = (if st_rtt s =? 0 then tcp_rtt_init config else st_rtt s)
    /\ dctcp_win c' = dctcp_win c /\ cc_next c' = cc_next c.
Proof.
  intros Hd. unfold dctcp_rate_update. cbv zeta. destruct (_ <? _).
  { eexists. split; [reflexivity|]. by split_and!. }
  match goal with |- context [actual_rate ?a ?b ?l ?cu] =>
    destruct (actual_rate_some a b l cu Hd) as [[avg act] ->] end.
  cbn [mbind option_bind].
  destruct (if dr_slowstart _ then _ else _) as [r1 ss].
  destruct (if ss : bool then _ else _) as [r2 e].
  eexists. split; [reflexivity|]. by split_and!.
Qed.

(** All algorithms that do not keep a time stamp of their own. *)
Lemma cc_algo_update_some c tx_len s cur :
  cc_algorithm config <> CONFIG_CC_TIMELY ->
  (cc_algorithm config = CONFIG_CC_DCTCP_WIN ->
    CONF_MSS <= dw_window (dctcp_win c) < 4294967296) ->
  CONF_MSS <= tx_len < 4294967296 -> 0 <= st_rtt s <= RTT_MAX ->
  u32 (cur - cc_last_ts c) <> 0 ->
  exists c', cc_algo_update config c tx_len s cur = Some c'
    /\ 0 < cc_rtt c' <= RTT_MAX /\ cc_next c' = cc_next c
    /\ (cc_algorithm config = CONFIG_CC_DCTCP_WIN ->
         CONF_MSS <= dw_window (dctcp_win c') < 4294967296).
Proof.
  intros Ha Hw Htx Hr Hd. destruct Hcfg as [Hri _ _ _].
  assert (Hrtt : 0 < (if st_rtt s =? 0 then tcp_rtt_init config else st_rtt s) <= RTT_MAX)
    by (destruct (Z.eqb_spec (st_rtt s) 0); lia).
  unfold cc_algo_update. destruct (cc_algorithm config) eqn:E; [| |done|].
  - destruct (dctcp_win_update_some c tx_len s (Hw eq_refl) Htx Hr)
      as (c' & -> & H1 & H2 & _ & H3).
    exists c'. rewrite H2. split_and!; try done; lia.
  - destruct (dctcp_rate_update_some c s cur) as (c' & -> & H1 & H2 & H3); [by right|].
    exists c'. rewrite H1. split_and!; try done; lia.
  - eexists. split; [reflexivity|]. split; [exact Hrtt|]. by split.
Qed.

Lemma issue_retransmits_keeps rex c fid vm fg s cur :
  let c' := (issue_retransmits config rex c fid vm fg s cur).1 in
  cc_next c' = cc_next c /\ cc_rtt c' = cc_rtt c /\ dctcp_win c' = dctcp_win c
  /\ cc_rate c' = cc_rate c.
Proof.
  cbv zeta. unfold issue_retransmits. cbv zeta.
  destruct (_ && _); [|by split_and!]. destruct (_ =? 0); [by split_and!|].
  destruct (_ && _); [|by split_and!]. destruct (rex fid vm fg); by split_and!.
Qed.

End Algos.

(** ** The list of connections of a VM *)

Definition cnext (m : ccst) (p : Z) : Z := cc_next (cn_cc (conns m !!! p)).

Record cc_rep (m : ccst) (v : Z) (l : list Z) : Prop := mk_cc_rep {
  cr_path : path (cnext m) (cc_conns m !!! v) l 0;
  cr_nodup : NoDup l;
  cr_null : 0 ∉ l;
  cr_dom : forall p, p ∈ l -> is_Some (conns m !! p) /\ cn_vm (conns m !!! p) = v;
  cr_next : next_conn m !!! v = 0 \/ next_conn m !!! v ∈ l }.

(** A visit changes neither the lists nor the identity of connections. *)
Record same_lists (m m' : ccst) : Prop := mk_same_lists {
  sl_conns : cc_conns m' = cc_conns m;
  sl_next : next_conn m' = next_conn m;
  sl_times : last_ts m' = last_ts m /\ next_vm m' = next_vm m;
  sl_cnext : forall p, cnext m' p = cnext m p;
  sl_conn : forall p, cn_vm (conns m' !!! p) = cn_vm (conns m !!! p)
    /\ status (conns m' !!! p) = status (conns m !!! p)
    /\ cn_flow_id (conns m' !!! p) = cn_flow_id (conns m !!! p)
    /\ cn_tx_len (conns m' !!! p) = cn_tx_len (conns m !!! p);
  sl_dom : forall p, is_Some (conns m !! p) -> is_Some (conns m' !! p);
  sl_fs : forall f, rtt_est (cc_flowst m' !!! f) = rtt_est (cc_flowst m !!! f) }.

#[export] Instance same_lists_refl : Reflexive same_lists.
Proof. by constructor. Qed.

#[export] Instance same_lists_trans : Transitive same_lists.
Proof.
  intros m1 m2 m3 [A1 A2 [A3 A3'] A4 A5 A6 A7] [B1 B2 [B3 B3'] B4 B5 B6 B7].
  constructor; [congruence|congruence|split; congruence|..].
  - intros p. by rewrite B4.
  - intros p. destruct (A5 p) as (? & ? & ? & ?), (B5 p) as (? & ? & ? & ?).
    split_and!; congruence.
  - eauto.
  - intros f. by rewrite B7.
Qed.

Lemma setrate_rtt f_id rate fp f :
  rtt_est (nicif_connection_setrate f_id rate fp !!! f) = rtt_est (fp !!! f).
Proof.
  unfold nicif_connection_setrate. destruct (_ <=? _); [done|].
  destruct (Z.eqb_spec f f_id) as [->|Hne]; [by rewrite lookup_total_insert_eq|].
  by rewrite lookup_total_insert_ne.
Qed.

Section Loop.
Context (config : configuration) (rex : Z -> Z -> Z -> bool).

Lemma cc_algo_update_next c tx_len s cur c' :
  cc_algo_update config c tx_len s cur = Some c' -> cc_next c' = cc_next c.
Proof.
  unfold cc_algo_update. destruct (cc_algorithm config).
  - unfold dctcp_win_update. intros H. cstep H.
    destruct (dctcp_win_slowstart _ _ _) as [w ss]. cstep H.
    match goal with x : Z * Z |- _ => destruct x end. by cstep H.
  - unfold dctcp_rate_update. cbv zeta. destruct (_ <? _); [by intros [= <-]|].
    intros H. cstep H. match goal with x : Z * Z |- _ => destruct x end.
    destruct (if dr_slowstart _ then _ else _) as [r1 ss].
    destruct (if ss : bool then _ else _) as [r2 e]. by simplify_eq.
  - unfold timely_update. intros H. cstep H.
    match goal with x : Z * Z |- _ => destruct x end. cbv zeta in H.
    destruct (_ =? 0); [by simplify_eq|]. cstep H.
    match goal with x : Z * Z |- _ => destruct x end.
    destruct (timely_rate _ _ _ _ _ _) as [r h]. by simplify_eq.
  - by intros [= <-].
Qed.

Lemma cc_visit_same v cur p m m' :
  cc_visit config rex v cur p m = Some m' -> same_lists m m'.
Proof.
  unfold cc_visit. destruct (decide _); [by intros [= <-]|]. destruct (_ <? _); [by intros [= <-]|].
  destruct (nicif_connection_stats _ _) as [s|]; [|done]. cbn [mbind option_bind].
  destruct (stats_delta _ s) as [cc1 s1] eqn:Es.
  assert (E1 : cc_next cc1 = cc_next (cn_cc (conns m !!! p)))
    by (unfold stats_delta in Es; by injection Es as <- _).
  destruct (cc_algo_update _ _ _ _ _) as [cc2|] eqn:Ea; [|done]. cbn [mbind option_bind].
  apply cc_algo_update_next in Ea.
  pose proof (issue_retransmits_keeps config rex cc2 (cn_flow_id (conns m !!! p)) v
                (cn_flow_group (conns m !!! p)) s1 cur) as (E3 & _).
  destruct (issue_retransmits _ _ _ _ _ _ _ _) as [cc3 sent]. cbn [fst] in E3.
  intros [= <-]. constructor; try done.
  - intros q. unfold cnext. cbn [conns setf].
    destruct (Z.eqb_spec q p) as [->|Hne]; [rewrite lookup_total_insert_eq|by rewrite lookup_total_insert_ne].
    cbn [cn_cc cc_next setf]. congruence.
  - intros q. cbn [conns setf].
    destruct (Z.eqb_spec q p) as [->|Hne]; [by rewrite lookup_total_insert_eq|by rewrite lookup_total_insert_ne].
  - intros q Hq. cbn [conns setf].
    destruct (Z.eqb_spec q p) as [->|Hne]; [by rewrite lookup_insert_eq|by rewrite lookup_insert_ne].
  - intros f. apply setrate_rtt.
Qed.

(** Visiting the connections of a list, one after the other. *)
Fixpoint cc_visits (v cur : Z) (l : list Z) (m : ccst) : option ccst :=
  match l with
  | [] => Some m
  | p :: l => m ← cc_visit config rex v cur p m; cc_visits v cur l m
  end.

(** The order of a round: from [B] to the end of the list, then its front. *)
Lemma rot_succ nxt h A B first V x R :
  path nxt h (A ++ B) 0 -> 0 ∉ A ++ B -> head B = Some first -> B ++ A = V ++ x :: R ->
  (if negb (nxt x =? 0) then nxt x else h) = default first (head R).
Proof.
  intros Hp H0 HB E. destruct B as [|b B]; [done|]. injection HB as ->.
  assert (Hh : h = default first (head A)).
  { apply path_head in Hp. by destruct A. }
  assert (Hnz : forall y, y ∈ A ++ first :: B -> (y =? 0) = false)
    by (intros y Hy; apply Z.eqb_neq; intros ->; by apply H0).
  assert (Hnext : forall L1 L2, A ++ first :: B = L1 ++ x :: L2 -> nxt x = default 0 (head L2)).
  { intros L1 L2 EL. rewrite EL in Hp. apply path_app in Hp as (z & _ & -> & Hp).
    by apply path_head in Hp. }
  apply app_eq_app in E as (k & [[EB ER]|[EV EA]]).
  - destruct k as [|y k]; cbn in ER.
    + rewrite app_nil_r in EB. destruct A as [|a A]; [done|]. cbn in ER. injection ER as -> ->.
      rewrite (Hnext [] (A ++ first :: B)) by done.
      destruct A as [|a' A]; cbn [head app]; change (default 0 (Some ?z)) with z;
        change (default first (@None Z)) with first; change (default first (Some ?z)) with z;
        rewrite Hnz; cbn [negb]; try done; rewrite ?elem_of_cons; set_solver.
    + injection ER as -> ->. rewrite EB in Hnext. rewrite (Hnext (A ++ V) k) by (by rewrite <- app_assoc).
      destruct k as [|z k]; [change (default 0 (head [])) with 0; cbn [Z.eqb negb app]; exact Hh|].
      cbn [head app]. change (default 0 (Some z)) with z. change (default first (Some z)) with z.
      rewrite Hnz; [done|]. rewrite EB. set_solver.
  - rewrite EA in Hnext. rewrite (Hnext k (R ++ first :: B)) by (by rewrite <- app_assoc).
    destruct R as [|z R]; cbn [head app].
    + change (default 0 (Some first)) with first. rewrite Hnz; [done|]. set_solver.
    + change (default 0 (Some z)) with z. rewrite Hnz; [done|]. rewrite EA. set_solver.
Qed.

Lemma cc_rep_same m m' v l : same_lists m m' -> cc_rep m v l -> cc_rep m' v l.
Proof.
  intros [H1 H2 _ H4 H5 H6 _] [Hp Hnd H0 Hd Hn]. constructor; try done.
  - rewrite H1. eapply path_ext; [|exact Hp]. intros x _. apply H4.
  - intros p Hp'. destruct (Hd p Hp') as [Hs Hv]. destruct (H5 p) as (-> & _). eauto.
  - by rewrite H2.
Qed.

Lemma cc_poll_loop_ok v cur A B first R : forall fuel V n m,
  cc_rep m v (A ++ B) -> head B = Some first -> B ++ A = V ++ R ->
  n + Z.of_nat fuel = 128 ->
  cc_poll_loop config rex fuel v cur first (default first (head R)) n
    (negb (bool_decide (V = []))) m
  = (m' ← cc_visits v cur (take fuel R) m;
     Some (n + Z.of_nat (length (take fuel R)),
           m' <| next_conn ::= <[v := default first (head (drop fuel R))]> |>)).
Proof.
  induction R as [|x R IH]; intros fuel V n m Hrep HB E Hn.
  - rewrite take_nil, drop_nil. cbn [cc_visits mbind option_bind length head Z.of_nat].
    change (default first (@None Z)) with first. rewrite Z.add_0_r.
    assert (HV : V <> []) by (intros ->; destruct B, A; by simplify_eq).
    destruct fuel as [|fuel]; cbn [cc_poll_loop]; [done|].
    rewrite bool_decide_eq_false_2 by done. cbn [negb]. rewrite Z.eqb_refl.
    cbn [negb orb]. by rewrite andb_false_r.
  - destruct fuel as [|fuel]; cbn [cc_poll_loop take drop cc_visits].
    { cbn [mbind option_bind length Z.of_nat head]. by rewrite Z.add_0_r. }
    rewrite (proj2 (Z.ltb_lt n 128)) by lia. cbn [andb head].
    change (default first (Some x)) with x.
    assert (Hgo : negb (negb (bool_decide (V = []))) || negb (x =? first) = true).
    { destruct V as [|w V]; [done|]. cbn [negb orb].
      destruct B as [|b B]; [done|]. injection HB as ->. injection E as -> E.
      destruct (Z.eqb_spec x w) as [->|]; [|by rewrite orb_true_r].
      exfalso. pose proof (cr_nodup _ _ _ Hrep) as Hnd.
      rewrite (Permutation_app_comm A) in Hnd. cbn in Hnd. rewrite E in Hnd.
      apply NoDup_cons in Hnd as [Hnd _]. apply Hnd. set_solver. }
    rewrite Hgo. destruct (cc_visit config rex v cur x m) as [m1|] eqn:Ev; [|done].
    cbn [mbind option_bind]. pose proof (cc_visit_same _ _ _ _ _ Ev) as Hs.
    pose proof (cc_rep_same _ _ _ _ Hs Hrep) as Hrep1.
    assert (Esucc : cc_succ m1 v x = default first (head R)).
    { unfold cc_succ. change (cc_next (cn_cc (conns m1 !!! x))) with (cnext m1 x).
      eapply rot_succ; [apply (cr_path _ _ _ Hrep1)|apply (cr_null _ _ _ Hrep1)|done|done]. }
    rewrite Esucc. specialize (IH fuel (V ++ [x]) (n + 1) m1 Hrep1 HB).
    replace (negb (bool_decide (V ++ [x] = []))) with true in IH
      by (by rewrite bool_decide_eq_false_2 by (by destruct V)).
    rewrite IH; [|by rewrite E, <- app_assoc|lia].
    destruct (cc_visits v cur (take fuel R) m1) as [m2|]; [|done]. cbn [mbind option_bind].
    f_equal. f_equal. cbn [length]. lia.
Qed.

(** A poll of one VM: the connections from [next_conn] on, in the order of the list. *)
Lemma cc_poll_vm_ok v cur n m A B first :
  cc_rep m v (A ++ B) -> head B = Some first -> 0 <= n < 128 ->
  (next_conn m !!! v = first \/ (next_conn m !!! v = 0 /\ A = [])) ->
  let round := B ++ A in
  let k := Z.to_nat (128 - n) in
  cc_poll_vm config rex v cur n m
  = (m' ← cc_visits v cur (take k round) m;
     Some (n + Z.of_nat (length (take k round)),
           m' <| next_conn ::= <[v := default first (head (drop k round))]> |>)).
Proof.
  intros Hrep HB Hn Hc. cbv zeta. unfold cc_poll_vm.
  assert (Hf : first <> 0).
  { intros ->. apply (cr_null _ _ _ Hrep). destruct B; [done|]. injection HB as ->. set_solver. }
  assert (E : (if negb (next_conn m !!! v =? 0) then next_conn m !!! v else cc_conns m !!! v)
              = first).
  { destruct Hc as [->|[-> ->]]; [by rewrite (proj2 (Z.eqb_neq _ _)) by done|].
    cbn. pose proof (cr_path _ _ _ Hrep) as Hp. apply path_head in Hp.
    cbn [app] in Hp. by rewrite HB in Hp. }
  rewrite E, (proj2 (Z.eqb_neq first 0)) by done.
  assert (Eh : first = default first (head (B ++ A))) by (destruct B; [done|by injection HB as ->]).
  rewrite Eh at 2.
  change false with (negb (bool_decide (@nil Z = []))).
  rewrite (cc_poll_loop_ok v cur A B first (B ++ A) _ []); done || lia.
Qed.

End Loop.

(** ** All VMs *)

Record conn_wf (config : configuration) (c : connection) : Prop := mk_conn_wf {
  cw_flow : 0 <= cn_flow_id c < FLEXNIC_PL_FLOWST_NUM;
  cw_tx : CONF_MSS <= cn_tx_len c < 4294967296;
  cw_rtt : 0 < cc_rtt (cn_cc c) <= RTT_MAX;
  cw_win : cc_algorithm config = CONFIG_CC_DCTCP_WIN ->
    CONF_MSS <= dw_window (dctcp_win (cn_cc c)) < 4294967296 }.

(** [L v] are the connections of VM [v]. *)
Record cc_ok (config : configuration) (m : ccst) (L : Z -> list Z) : Prop := mk_cc_ok {
  ck_rep : forall v, cc_rep m v (L v);
  ck_wf : forall v p, p ∈ L v -> conn_wf config (conns m !!! p);
  ck_fs : forall f, 0 <= rtt_est (cc_flowst m !!! f) <= RTT_MAX }.

Section Total.
Context (config : configuration) (rex : Z -> Z -> Z -> bool).
Hypothesis Hcfg : config_ok config.
Hypothesis Halg : cc_algorithm config <> CONFIG_CC_TIMELY.

Lemma cc_visit_some v cur p m L :
  cc_ok config m L -> p ∈ L v ->
  exists m', cc_visit config rex v cur p m = Some m' /\ cc_ok config m' L.
Proof.
  intros Hok Hp. pose proof (ck_wf _ _ _ Hok v p Hp) as Hwf.
  assert (Hgoal : forall m', cc_visit config rex v cur p m = Some m' ->
            conn_wf config (conns m' !!! p) ->
            (forall q, q <> p -> conns m' !!! q = conns m !!! q) ->
            exists m', cc_visit config rex v cur p m = Some m' /\ cc_ok config m' L).
  { intros m' E Hp' Hq. pose proof (cc_visit_same _ _ _ _ _ _ _ E) as Hs. exists m'.
    split; [done|]. constructor.
    - intros w. eapply cc_rep_same; [done|apply Hok].
    - intros w q Hin. destruct (Z.eqb_spec q p) as [->|Hne]; [done|].
      rewrite Hq by done. by eapply ck_wf.
    - intros f. rewrite (sl_fs _ _ Hs). apply Hok. }
  revert Hgoal. unfold cc_visit. destruct (decide _); [intros Hg; by apply (Hg m)|].
  destruct (Z.ltb_spec (u32 (cur - cc_last_ts (cn_cc (conns m !!! p))))
              (u32 (cc_rtt (cn_cc (conns m !!! p)) * cc_control_interval config))) as [|Hdue];
    [intros Hg; by apply (Hg m)|].
  intros Hg. destruct Hwf as [Hf Htx Hrtt Hwin].
  assert (Hd : u32 (cur - cc_last_ts (cn_cc (conns m !!! p))) <> 0).
  { destruct Hcfg as [_ _ Hi Hw].
    assert (Hb : 0 < cc_rtt (cn_cc (conns m !!! p)) * cc_control_interval config < 4294967296).
    { split; [apply Z.mul_pos_pos; lia|]. eapply Z.le_lt_trans; [|exact Hw].
      apply Z.mul_le_mono_nonneg_r; lia. }
    rewrite (u32_id (_ * _)) in Hdue by cside. lia. }
  unfold nicif_connection_stats in *. rewrite (proj2 (Z.leb_gt _ _)) in * by lia.
  cbn [mbind option_bind] in *.
  set (s := mk_stats _ _ _ _ _ _ _ _) in *.
  assert (Hst : 0 <= st_rtt s <= RTT_MAX) by apply Hok.
  clearbody s.
  destruct (stats_delta (cn_cc (conns m !!! p)) s) as [cc1 s1] eqn:Es.
  assert (E1 : st_rtt s1 = st_rtt s /\ dctcp_win cc1 = dctcp_win (cn_cc (conns m !!! p))
               /\ cc_last_ts cc1 = cc_last_ts (cn_cc (conns m !!! p)))
    by (unfold stats_delta in Es; by injection Es as <- <-).
  destruct E1 as (E1 & E2 & E3).
  destruct (cc_algo_update_some config Hcfg cc1 (cn_tx_len (conns m !!! p)) s1 cur)
    as (cc2 & Ea & Hr2 & _ & Hw2); [done|by rewrite E2|done|by rewrite E1|by rewrite E3|].
  rewrite Ea in *. cbn [mbind option_bind] in *.
  pose proof (issue_retransmits_keeps config rex cc2 (cn_flow_id (conns m !!! p)) v
                (cn_flow_group (conns m !!! p)) s1 cur) as (_ & H2 & H3 & _).
  destruct (issue_retransmits _ _ _ _ _ _ _ _) as [cc3 sent]. cbn [fst] in H2, H3.
  eapply Hg; [reflexivity| |].
  - cbn [conns setf]. rewrite lookup_total_insert_eq.
    constructor; cbn [cn_flow_id cn_tx_len cn_cc cc_rtt dctcp_win setf]; try done.
    + by rewrite H2.
    + by rewrite H3.
  - intros q Hne. cbn [conns setf]. by rewrite lookup_total_insert_ne.
Qed.

Lemma cc_visits_some v cur l : forall m L,
  cc_ok config m L -> (forall p, p ∈ l -> p ∈ L v) ->
  exists m', cc_visits config rex v cur l m = Some m' /\ cc_ok config m' L
    /\ same_lists m m'.
Proof.
  induction l as [|p l IH]; intros m L Hok Hl; cbn [cc_visits].
  { exists m. by split_and!. }
  destruct (cc_visit_some v cur p m L Hok) as (m1 & E1 & Hok1); [apply Hl; set_solver|].
  rewrite E1. cbn [mbind option_bind].
  destruct (IH m1 L Hok1) as (m2 & -> & Hok2 & Hs2); [intros q Hq; apply Hl; set_solver|].
  exists m2. split_and!; try done. by rewrite (cc_visit_same _ _ _ _ _ _ _ E1).
Qed.

Lemma cc_ok_next m L v c :
  cc_ok config m L -> c = 0 \/ c ∈ L v -> cc_ok config (m <| next_conn ::= <[v := c]> |>) L.
Proof.
  intros [Hr Hw Hf] Hc. constructor; [|done..].
  intros w. destruct (Hr w) as [H1 H2 H3 H4 H5]. constructor; try done.
  cbn [next_conn setf]. destruct (Z.eqb_spec w v) as [->|Hne].
  - by rewrite lookup_total_insert_eq.
  - by rewrite lookup_total_insert_ne.
Qed.

(** Where the poll of a VM starts. *)
Lemma cc_start m v l :
  cc_rep m v l -> l <> [] ->
  exists A B first, l = A ++ B /\ head B = Some first
    /\ (next_conn m !!! v = first \/ (next_conn m !!! v = 0 /\ A = [])).
Proof.
  intros Hr Hl. destruct (cr_next _ _ _ Hr) as [H|H].
  - destruct l as [|x l]; [done|]. exists [], (x :: l), x. split_and!; auto.
  - apply list_elem_of_split in H as (A & B & ->).
    exists A, (next_conn m !!! v :: B), (next_conn m !!! v). split_and!; auto.
Qed.

Lemma cc_poll_vm_some v cur n m L :
  cc_ok config m L -> 0 <= n < 128 ->
  exists n' m', cc_poll_vm config rex v cur n m = Some (n', m')
    /\ n' = n + Z.min (128 - n) (Z.of_nat (length (L v)))
    /\ cc_ok config m' L /\ next_vm m' = next_vm m.
Proof.
  intros Hok Hn. pose proof (ck_rep _ _ _ Hok v) as Hr.
  destruct (decide (L v = [])) as [El|Hl].
  { exists n, m. rewrite El. cbn [length Z.of_nat]. split_and!; [|lia|done|done].
    unfold cc_poll_vm.
    destruct Hr as [Hp _ _ _ Hnx]. rewrite El in Hp, Hnx. cbn in Hp. rewrite Hp.
    destruct Hnx as [->|Hnx]; [done|by apply not_elem_of_nil in Hnx]. }
  destruct (cc_start m v (L v) Hr Hl) as (A & B & first & El & HB & Hst).
  rewrite El in Hr.
  rewrite (cc_poll_vm_ok config rex v cur n m A B first Hr HB Hn Hst).
  set (k := Z.to_nat (128 - n)).
  destruct (cc_visits_some v cur (take k (B ++ A)) m L Hok) as (m' & -> & Hok' & Hs).
  { intros p Hp. apply elem_of_take in Hp as (i & Hi & _). apply list_elem_of_lookup_2 in Hi.
    rewrite El. set_solver. }
  cbn [mbind option_bind]. eexists _, _. split; [reflexivity|]. split_and!.
  - rewrite length_take, !length_app, El, length_app. lia.
  - apply cc_ok_next; [done|]. right.
    assert (Hf : first ∈ L v) by (rewrite El; destruct B; [done|injection HB as ->; set_solver]).
    destruct (drop k (B ++ A)) as [|y R] eqn:Ed; [done|]. cbn [head].
    change (default first (Some y)) with y. rewrite El.
    assert (Hy : y ∈ B ++ A) by (rewrite <- (take_drop k (B ++ A)), Ed; set_solver).
    set_solver.
  - destruct Hs as [_ _ [_ Hv] _ _ _ _]. exact Hv.
Qed.

Lemma cc_poll_vms_some k vms count cur : forall i n m L,
  cc_ok config m L -> 0 <= n <= 128 ->
  exists i' n' m', cc_poll_vms config rex k vms count cur i n m = Some (i', n', m')
    /\ 0 <= n' <= 128 /\ i <= i' <= i + Z.of_nat k
    /\ cc_ok config m' L /\ next_vm m' = next_vm m.
Proof.
  induction k as [|k IH]; intros i n m L Hok Hn; cbn [cc_poll_vms].
  { exists i, n, m. split_and!; done || lia. }
  destruct (Z.ltb_spec n 128) as [Hlt|Hge]; [|exists i, n, m; split_and!; done || lia].
  destruct (cc_poll_vm_some (vms !!! ((next_vm m + i) mod count)) cur n m L Hok)
    as (n1 & m1 & -> & Hn1 & Hok1 & Hv1); [lia|].
  cbn [mbind option_bind].
  destruct (IH (i + 1) n1 m1 L Hok1) as (i2 & n2 & m2 & -> & H1 & H2 & H3 & H4); [lia|].
  exists i2, n2, m2. split_and!; done || lia.
Qed.

Lemma cc_poll_some vms count cur m L :
  cc_ok config m L -> 0 <= count ->
  exists n m', cc_poll config rex vms count cur m = Some (n, m')
    /\ 0 <= n <= 128 /\ cc_ok config m' L /\ last_ts m' = cur
    /\ (0 < count -> 0 <= next_vm m' < count).
Proof.
  intros Hok Hc. unfold cc_poll. destruct (Z.eqb_spec count 0) as [->|Hne].
  { eexists _, _. split; [reflexivity|]. split_and!; try lia; [|done].
    destruct Hok as [H1 H2 H3]. constructor; try done.
    intros v. destruct (H1 v). by constructor. }
  set (m0 := if count <=? next_vm m then m <| next_vm := 0 |> else m).
  assert (Hok0 : cc_ok config m0 L).
  { subst m0. destruct (_ <=? _); [|done]. destruct Hok as [H1 H2 H3]. constructor; try done.
    intros v. destruct (H1 v). by constructor. }
  destruct (cc_poll_vms_some (Z.to_nat count) vms count cur 0 0 m0 L Hok0)
    as (i & n & m' & -> & Hn & _ & [H1 H2 H3] & _); [lia|].
  cbn [mbind option_bind]. eexists _, _. split; [reflexivity|]. split_and!; try done; try lia.
  - constructor; try done. intros v. destruct (H1 v). by constructor.
  - intros _. cbn. apply Z.mod_pos_bound. lia.
Qed.

End Total.

(** ** Adding and removing connections *)

(** Changing the connections outside a list. *)
Lemma cc_rep_frame m m' v l :
  (forall p, p ∈ l -> conns m' !! p = conns m !! p) ->
  cc_conns m' !!! v = cc_conns m !!! v -> next_conn m' !!! v = next_conn m !!! v ->
  cc_rep m v l -> cc_rep m' v l.
Proof.
  intros Hc H1 H2 [Hp Hnd H0 Hd Hn]. constructor; try done.
  - rewrite H1. eapply path_ext; [|exact Hp]. intros p Hin. unfold cnext.
    rewrite !lookup_total_alt. by rewrite Hc.
  - intros p Hin. rewrite lookup_total_alt, Hc, <- lookup_total_alt by done. by apply Hd.
  - by rewrite H2.
Qed.

Section Lists.
Context (config : configuration).

Lemma cc_other_vm m L v w p :
  cc_ok config m L -> p ∈ L v -> p ∈ L w -> v = w.
Proof.
  intros Hok Hv Hw. destruct (cr_dom _ _ _ (ck_rep _ _ _ Hok v) p Hv) as [_ <-].
  by destruct (cr_dom _ _ _ (ck_rep _ _ _ Hok w) p Hw) as [_ <-].
Qed.

Lemma cc_algo_init_ok c :
  config_ok config -> 0 < cc_rtt c <= RTT_MAX ->
  exists c', cc_algo_init config c = Some c' /\ cc_next c' = cc_next c
    /\ 0 < cc_rtt c' <= RTT_MAX
    /\ (cc_algorithm config = CONFIG_CC_DCTCP_WIN -> dw_window (dctcp_win c') = 2 * CONF_MSS).
Proof.
  intros Hcfg Hr. unfold cc_algo_init. destruct (cc_algorithm config) eqn:E;
    try (eexists; split; [reflexivity|]; split; [reflexivity|]; by split; [exact Hr|]).
  unfold dctcp_win_init.
  destruct (window_to_rate_ok config Hcfg (2 * CONF_MSS) (tcp_rtt_init config))
    as (rate & -> & _); [unfold CONF_MSS; lia|apply Hcfg|].
  eexists. split; [reflexivity|]. split; [reflexivity|]. by split; [exact Hr|].
Qed.

Lemma cc_conn_init_ok p cur m L :
  config_ok config -> cc_ok config m L -> p <> 0 -> is_Some (conns m !! p) ->
  (forall v, p ∉ L v) ->
  0 <= cn_flow_id (conns m !!! p) < FLEXNIC_PL_FLOWST_NUM ->
  CONF_MSS <= cn_tx_len (conns m !!! p) < 4294967296 ->
  let v := cn_vm (conns m !!! p) in
  exists m', cc_conn_init config p cur m = Some m'
    /\ cc_ok config m' (fupd L v (p :: L v))
    /\ status (conns m' !!! p) = status (conns m !!! p)
    /\ (forall q, q <> p -> conns m' !! q = conns m !! q).
Proof.
  intros Hcfg Hok Hp Hd Hin Hfl Htx. cbv zeta. set (v := cn_vm (conns m !!! p)).
  unfold cc_conn_init. fold v. cbv zeta.
  match goal with |- context [cc_algo_init _ ?c] =>
    destruct (cc_algo_init_ok c Hcfg) as (cc & -> & En & Er & Ew) end; [apply Hcfg|].
  cbn [mbind option_bind]. eexists. split; [reflexivity|].
  set (m' := _ <| conns ::= _ |>).
  assert (Ep : conns m' !!! p = (conns m !!! p) <| cn_cc := cc |>)
    by exact (lookup_total_insert_eq _ _ _).
  assert (Eq : forall q, q <> p -> conns m' !! q = conns m !! q)
    by (intros q Hq; apply lookup_insert_ne; congruence).
  assert (Ecc : cc_conns m' = <[v := p]> (cc_conns m)) by reflexivity.
  assert (Enx : next_conn m' = next_conn m) by reflexivity.
  split_and!; [|by rewrite Ep|exact Eq]. constructor.
  - intros w. destruct (Z.eqb_spec w v) as [->|Hne].
    + rewrite fupd_eq. destruct (ck_rep _ _ _ Hok v) as [H1 H2 H3 H4 H5]. constructor.
      * rewrite Ecc, lookup_total_insert_eq. split; [done|].
        unfold cnext at 2. rewrite Ep. cbn [cn_cc setf]. rewrite En. cbn [cc_next setf].
        eapply path_ext; [|exact H1]. intros q Hq. unfold cnext. rewrite !lookup_total_alt.
        rewrite Eq; [done|]. intros ->. by apply (Hin v).
      * apply NoDup_cons. by split.
      * rewrite elem_of_cons. intros [|]; congruence || done.
      * intros q [->|Hq]%elem_of_cons.
        -- split; [|by rewrite Ep]. subst m'. cbn [conns setf]. by rewrite lookup_insert_eq.
        -- assert (Hqp : q <> p) by (intros ->; by apply (Hin v)).
           rewrite lookup_total_alt, Eq, <- lookup_total_alt by done. by apply H4.
      * rewrite Enx, elem_of_cons. tauto.
    + rewrite fupd_ne by done. eapply cc_rep_frame; [| |by rewrite Enx|apply Hok].
      * intros q Hq. apply Eq. intros ->. by apply (Hin w).
      * rewrite Ecc. by rewrite lookup_total_insert_ne.
  - assert (Hold : forall w q, q ∈ L w -> conn_wf config (conns m' !!! q)).
    { intros w q Hq. rewrite lookup_total_alt, Eq by (intros ->; by apply (Hin w)).
      rewrite <- lookup_total_alt. by eapply ck_wf. }
    intros w q Hq. destruct (Z.eqb_spec w v) as [->|Hne].
    + rewrite fupd_eq in Hq. apply elem_of_cons in Hq as [->|Hq]; [|by eapply Hold].
      rewrite Ep. constructor; cbn [cn_flow_id cn_tx_len cn_cc setf]; try done.
      intros Ha. rewrite (Ew Ha). unfold CONF_MSS. lia.
    + rewrite fupd_ne in Hq by done. by eapply Hold.
  - apply Hok.
Qed.

Lemma cc_find_prev_ok m p B : forall fuel A h,
  path (cnext m) h (A ++ p :: B) 0 -> NoDup (A ++ p :: B) -> 0 ∉ A ++ p :: B -> A <> [] ->
  (length A < fuel)%nat ->
  exists a, last A = Some a /\ cc_find_prev fuel m p h = Some a.
Proof.
  induction fuel as [|fuel IH]; intros A h Hp Hnd H0 HA Hl; [lia|].
  destruct A as [|x A]; [done|]. destruct Hp as [-> Hp]. cbn [cc_find_prev].
  rewrite (proj2 (Z.eqb_neq x 0)) by (intros ->; set_solver). cbn [negb andb].
  change (cc_next (cn_cc (conns m !!! x))) with (cnext m x).
  apply NoDup_cons in Hnd as [Hx Hnd].
  destruct A as [|y A].
  - destruct Hp as [-> _]. rewrite Z.eqb_refl. by exists x.
  - assert (Hxy : cnext m x = y) by apply Hp.
    destruct (Z.eqb_spec (cnext m x) p) as [E|Hne]; cbn [negb].
    + exfalso. rewrite Hxy in E. subst y. apply NoDup_cons in Hnd as [Hnd _]. set_solver.
    + destruct (IH (y :: A) (cnext m x) Hp Hnd) as (a & Ea & Ef); [set_solver|done|cbn in *; lia|].
      exists a. by rewrite last_cons, Ea.
Qed.

Lemma cc_conn_remove_ok m L v A p B :
  cc_ok config m L -> L v = A ++ p :: B ->
  exists m', cc_conn_remove p m = Some m'
    /\ cc_ok config m' (fupd L v (A ++ B))
    /\ (forall q, status (conns m' !!! q) = status (conns m !!! q))
    /\ next_conn m' !!! v
       = (if next_conn m !!! v =? p then default 0 (head B) else next_conn m !!! v).
Proof.
  intros Hok El. pose proof (ck_rep _ _ _ Hok v) as Hr. rewrite El in Hr.
  destruct Hr as [Hp Hnd H0 Hd Hn].
  assert (Ev : cn_vm (conns m !!! p) = v) by (apply Hd; set_solver).
  pose proof (path_remove _ _ A p B 0 Hnd Hp) as Hrm.
  assert (Enext : cnext m p = default 0 (head B)).
  { apply path_app in Hp as (z & _ & -> & Hp). by apply path_head in Hp. }
  unfold cc_conn_remove. rewrite Ev. change (cc_next (cn_cc (conns m !!! p))) with (cnext m p).
  set (m1 := if next_conn m !!! v =? p then _ else m).
  assert (E1 : conns m1 = conns m /\ cc_conns m1 = cc_conns m /\ cc_flowst m1 = cc_flowst m)
    by (subst m1; by destruct (_ =? p)).
  assert (E2 : next_conn m1 !!! v
                 = (if next_conn m !!! v =? p then default 0 (head B) else next_conn m !!! v)
               /\ (forall w, w <> v -> next_conn m1 !!! w = next_conn m !!! w)).
  { subst m1. destruct (_ =? p); [|done]. cbn [next_conn setf].
    rewrite lookup_total_insert_eq, Enext. split; [done|]. intros w Hw.
    by rewrite lookup_total_insert_ne. }
  destruct E1 as (Ec & Eh & Ef). destruct E2 as (En & Eno).
  assert (Hpn : p ∉ A ++ B).
  { apply NoDup_app in Hnd as (_ & Hd1 & Hnd). apply NoDup_cons in Hnd as [Hnd _].
    rewrite elem_of_app. intros [Hx|Hx]; [|done]. by apply (Hd1 p Hx), list_elem_of_here. }
  assert (Hn' : next_conn m1 !!! v = 0 \/ next_conn m1 !!! v ∈ A ++ B).
  { rewrite En. destruct (Z.eqb_spec (next_conn m !!! v) p) as [E|Hne].
    - destruct B as [|b B]; [by left|]. right. cbn [head]. change (default 0 (Some b)) with b.
      set_solver.
    - destruct Hn as [Hz|Hx]; [by left|right]. set_solver. }
  assert (Hdom' : forall q, q ∈ A ++ B -> q ∈ A ++ p :: B) by (intros q; set_solver).
  rewrite Eh. destruct A as [|a0 A0] eqn:EA.
  - cbn [app] in *. destruct Hp as [Ehd Hp]. rewrite Ehd, Z.eqb_refl.
    eexists. split; [reflexivity|]. split_and!; [|by rewrite <- Ec|exact En].
    constructor.
    + intros w. destruct (Z.eqb_spec w v) as [->|Hne].
      * rewrite fupd_eq. constructor; cbn [next_conn cc_conns conns setf].
        -- rewrite lookup_total_insert_eq. eapply path_ext; [|exact Hrm].
           intros q _. unfold cnext. by rewrite <- Ec.
        -- by apply NoDup_cons in Hnd as [_ ?].
        -- intros Hx. apply H0. by apply list_elem_of_further.
        -- intros q Hq. rewrite Ec. by apply Hd, Hdom'.
        -- exact Hn'.
      * rewrite fupd_ne by done. eapply cc_rep_frame; [| | |apply Hok].
        -- intros q _. by rewrite <- Ec.
        -- cbn [cc_conns setf]. rewrite lookup_total_insert_ne by done. by rewrite Eh.
        -- by apply Eno.
    + intros w q Hq. cbn [conns setf]. rewrite Ec. apply (ck_wf _ _ _ Hok w).
      destruct (Z.eqb_spec w v) as [->|Hne]; [|by rewrite fupd_ne in Hq].
      rewrite fupd_eq in Hq. rewrite El. by apply list_elem_of_further.
    + intros f. cbn [cc_flowst setf]. rewrite Ef. apply Hok.
  - assert (Hhd : cc_conns m !!! v = a0) by (by destruct Hp as [-> _]).
    rewrite Hhd. rewrite (proj2 (Z.eqb_neq a0 p)) by (intros ->; apply Hpn; by left).
    assert (Hcn : forall q, cnext m1 q = cnext m q) by (intros q; unfold cnext; by rewrite Ec).
    destruct (cc_find_prev_ok m1 p B (cc_fuel m1) (a0 :: A0) a0) as (a & Ea & ->); try done.
    { eapply path_ext; [intros q _; apply Hcn|]. by rewrite Hhd in Hp. }
    { unfold cc_fuel. rewrite Ec. apply Nat.lt_succ_r. apply length_le_size.
      - by apply NoDup_app in Hnd as (? & _).
      - intros q Hq. apply Hd. rewrite elem_of_app. by left. }
    rewrite Ea in Hrm. cbn [mbind option_bind].
    assert (Ha : a ∈ a0 :: A0) by (by apply last_Some_elem_of).
    rewrite (proj2 (Z.eqb_neq a 0)) by
      (intros ->; apply H0; rewrite elem_of_app; by left). cbn [negb cassert mbind option_bind].
    set (m2 := upd_conn a _ m1).
    assert (Ema : conns m2 !!! a
      = (conns m !!! a) <| cn_cc ::= fun cc => cc <| cc_next := cnext m p |> |>).
    { subst m2. unfold upd_conn. cbn [conns setf]. by rewrite lookup_total_insert_eq, Ec. }
    assert (Emq : forall q, q <> a -> conns m2 !! q = conns m !! q).
    { intros q Hq. subst m2. unfold upd_conn. cbn [conns setf].
      rewrite lookup_insert_ne by done. by rewrite Ec. }
    assert (Emt : forall q, q <> a -> conns m2 !!! q = conns m !!! q).
    { intros q Hq. rewrite !lookup_total_alt. by rewrite Emq. }
    exists m2. split; [done|]. split_and!.
    + constructor.
      * intros w. destruct (Z.eqb_spec w v) as [->|Hne].
        -- rewrite fupd_eq. constructor.
           ++ change (cc_conns m2) with (cc_conns m1). rewrite Eh, Hhd.
              rewrite Hhd in Hrm. eapply path_ext; [|exact Hrm]. intros q _. unfold fupd.
              destruct (Z.eqb_spec q a) as [->|Hq]; unfold cnext;
                [by rewrite Ema|by rewrite Emt].
           ++ assert (E : (a0 :: A0) ++ p :: B ≡ₚ p :: (a0 :: A0) ++ B) by solve_Permutation.
              rewrite E in Hnd. by apply NoDup_cons in Hnd as [_ ?].
           ++ intros Hx. by apply H0, Hdom'.
           ++ intros q Hq. destruct (Hd q (Hdom' q Hq)) as [Hs Hv].
              destruct (Z.eqb_spec q a) as [->|Hqa].
              ** split; [|by rewrite Ema]. subst m2. unfold upd_conn. cbn [conns setf].
                 by rewrite lookup_insert_eq.
              ** rewrite Emq, Emt by done. by split.
           ++ exact Hn'.
        -- rewrite fupd_ne by done. eapply cc_rep_frame; [| | |apply Hok].
           ++ intros q Hq. apply Emq. intros ->. apply Hne.
              apply (cc_other_vm m L w v a Hok Hq). rewrite El, elem_of_app. by left.
           ++ change (cc_conns m2) with (cc_conns m1). by rewrite Eh.
           ++ by apply Eno.
      * intros w q Hq. assert (Hq' : q ∈ L w).
        { destruct (Z.eqb_spec w v) as [->|Hne]; [|by rewrite fupd_ne in Hq].
          rewrite fupd_eq in Hq. rewrite El. by apply Hdom'. }
        destruct (ck_wf _ _ _ Hok w q Hq') as [W1 W2 W3 W4].
        destruct (Z.eqb_spec q a) as [->|Hqa]; [rewrite Ema; by constructor|].
        rewrite Emt by done. by constructor.
      * intros f. change (cc_flowst m2) with (cc_flowst m1). rewrite Ef. apply Hok.
    + intros q. destruct (Z.eqb_spec q a) as [->|Hqa]; [by rewrite Ema|by rewrite Emt].
    + exact En.
Qed.

End Lists.

(** * Properties of congestion control

    The control loop returns and visits the connections in turn; the window stays
    within bounds and reacts to congestion; lists of connections stay well formed;
    when a retransmission is requested. *)

(** ** A concrete state *)

(** The defaults of tas/config.c. *)
Definition ex_config (alg : config_cc_algorithm) : configuration :=
  mk_config 8192 8192 50 40 10000 10 167772161 500 10000000 false alg 50 2 4
    268435455 10000 10000 0 0 50 0 30 150 10000 10000 85899345 3435973836 11 10000.

Lemma ex_config_ok alg : config_ok (ex_config alg).
Proof. constructor; unfold RTT_MAX; cbn; lia. Qed.

(** Connections 1 and 2 of VM 0, open, without traffic yet. *)
Definition ex_conn (flow next : Z) : connection :=
  conn_zero <| cn_tx_len := 8192 |> <| status := CONN_OPEN |> <| cn_flow_id := flow |>
    <| cn_cc := conn_cc_zero <| cc_rtt := 50 |> <| cc_next := next |>
                  <| dctcp_win := mk_dctcp_win 0 2800 true |> |>.
Definition ex_ccst : ccst :=
  mk_ccst {[1 := ex_conn 7 2; 2 := ex_conn 8 0]} {[0 := 1]} {[0 := 2]} 0 0 ∅ [].

Lemma ex_ccst_ok alg : cc_ok (ex_config alg) ex_ccst (fun v => if v =? 0 then [1; 2] else []).
Proof.
  constructor.
  - intros v. destruct (Z.eqb_spec v 0) as [->|Hv].
    + constructor.
      * by split_and!.
      * repeat constructor; set_solver.
      * set_solver.
      * intros p Hp. rewrite !elem_of_cons in Hp.
        destruct Hp as [->|[->|Hp]]; [by split..|by apply not_elem_of_nil in Hp].
      * right. change (next_conn ex_ccst !!! 0) with 2. set_solver.
    + constructor.
      * change (cc_conns ex_ccst) with ({[0 := 1]} : gmap Z Z). cbn.
        by rewrite lookup_total_alt, lookup_singleton_ne.
      * constructor.
      * apply not_elem_of_nil.
      * intros p Hp. by apply not_elem_of_nil in Hp.
      * left. change (next_conn ex_ccst) with ({[0 := 2]} : gmap Z Z).
        by rewrite lookup_total_alt, lookup_singleton_ne.
  - intros v p. destruct (v =? 0); [|by intros Hp%not_elem_of_nil].
    rewrite !elem_of_cons. intros [->|[->|Hp]]; [| |by apply not_elem_of_nil in Hp].
    + change (conns ex_ccst !!! 1) with (ex_conn 7 2).
      constructor; unfold CONF_MSS, RTT_MAX, FLEXNIC_PL_FLOWST_NUM; cbn; lia.
    + change (conns ex_ccst !!! 2) with (ex_conn 8 0).
      constructor; unfold CONF_MSS, RTT_MAX, FLEXNIC_PL_FLOWST_NUM; cbn; lia.
  - intros f. change (cc_flowst ex_ccst !!! f) with ((∅ : gmap Z flowst) !!! f).
    rewrite lookup_total_empty. unfold RTT_MAX. cbn. lia.
Qed.

(** ** The control loop *)

(** C37: [cc_poll] returns for every number of registered VMs, also with the algorithms
    that divide by elapsed time (TIMELY, which keeps a time stamp of its own, is not
    covered): no assertion fails and no division is by zero.  It handles at most 128
    connections, keeps the lists and every connection well formed, and remembers a
    valid position to go on from. *)
Theorem cc_poll_returns config rex vms count cur m L :
  config_ok config -> cc_algorithm config <> CONFIG_CC_TIMELY ->
  cc_ok config m L -> 0 <= count ->
  exists n m', cc_poll config rex vms count cur m = Some (n, m')
    /\ 0 <= n <= 128 /\ cc_ok config m' L /\ last_ts m' = cur
    /\ (0 < count -> 0 <= next_vm m' < count).
Proof. intros. by apply cc_poll_some. Qed.

Lemma cc_poll_returns_witness : exists n m',
  cc_poll (ex_config CONFIG_CC_DCTCP_WIN) (fun _ _ _ => true) {[0 := 0]} 1 1000 ex_ccst
    = Some (n, m') /\ last_ts m' = 1000.
Proof.
  destruct (cc_poll_returns (ex_config CONFIG_CC_DCTCP_WIN) (fun _ _ _ => true) {[0 := 0]} 1
              1000 ex_ccst _ (ex_config_ok _) ltac:(discriminate) (ex_ccst_ok _) ltac:(lia))
    as (n & m' & E & _ & _ & Ht & _).
  exists n, m'. exact (conj E Ht).
Defined.

(** A poll of one VM is round robin: it starts at [next_conn], goes through the list
    and on from its head, visits each connection at most once, stops when [n] reaches
    128, and leaves [next_conn] at the first connection not visited (at the one it
    started with after a complete round). *)
Theorem cc_poll_vm_round_robin config rex v cur n m A B first :
  cc_rep m v (A ++ B) -> head B = Some first -> 0 <= n < 128 ->
  (next_conn m !!! v = first \/ (next_conn m !!! v = 0 /\ A = [])) ->
  let round := B ++ A in
  let k := Z.to_nat (128 - n) in
  cc_poll_vm config rex v cur n m
  = (m' ← cc_visits config rex v cur (take k round) m;
     Some (n + Z.of_nat (length (take k round)),
           m' <| next_conn ::= <[v := default first (head (drop k round))]> |>)).
Proof. apply cc_poll_vm_ok. Qed.

Lemma cc_poll_vm_round_robin_witness :
  let cfg := ex_config CONFIG_CC_CONST_RATE in
  cc_poll_vm cfg (fun _ _ _ => true) 0 1000 127 ex_ccst
  = (m' ← cc_visits cfg (fun _ _ _ => true) 0 1000 [2] ex_ccst;
     Some (128, m' <| next_conn ::= <[0 := 1]> |>)).
Proof.
  apply (cc_poll_vm_round_robin (ex_config CONFIG_CC_CONST_RATE) (fun _ _ _ => true) 0 1000 127
           ex_ccst [1] [2] 2).
  - exact (ck_rep _ _ _ (ex_ccst_ok CONFIG_CC_CONST_RATE) 0).
  - reflexivity.
  - lia.
  - left. reflexivity.
Defined.

(** C38: Removing a connection of a VM from its list leaves the other connections in
    their order, and [next_conn] never points to the removed connection: it moves on to
    its successor. *)
Theorem cc_conn_remove_list config m L v A p B :
  cc_ok config m L -> L v = A ++ p :: B ->
  exists m', cc_conn_remove p m = Some m'
    /\ cc_ok config m' (fupd L v (A ++ B))
    /\ (forall q, status (conns m' !!! q) = status (conns m !!! q))
    /\ next_conn m' !!! v
       = (if next_conn m !!! v =? p then default 0 (head B) else next_conn m !!! v).
Proof. apply cc_conn_remove_ok. Qed.

Lemma cc_conn_remove_list_witness : exists m',
  cc_conn_remove 2 ex_ccst = Some m' /\ next_conn m' !!! 0 = 0.
Proof.
  destruct (cc_conn_remove_list (ex_config CONFIG_CC_CONST_RATE) ex_ccst _ 0 [1] 2 []
              (ex_ccst_ok _) eq_refl) as (m' & E & _ & _ & En).
  exists m'. split; [exact E|]. rewrite En. reflexivity.
Defined.

(** ** Window-based DCTCP *)

(** [dctcp_win_update] returns and the window stays between [CONF_MSS] and the
    transmit buffer; the rate never allows more than a window per round trip.  With
    losses or retransmissions the window is halved and slow start ends; in slow start
    without congestion it grows by the acknowledged bytes; with ECN marks it does not
    grow; without, it grows by at most a segment for each window acknowledged. *)
Theorem dctcp_win_update_window config c tx_len s :
  config_ok config ->
  CONF_MSS <= dw_window (dctcp_win c) < 4294967296 ->
  CONF_MSS <= tx_len < 4294967296 -> 0 <= st_rtt s <= RTT_MAX ->
  0 <= c_ackb s -> 0 <= c_drops s -> 0 <= c_ecnb s -> 0 <= cc_rexmits c ->
  dw_window (dctcp_win c) + c_ackb s < 4294967296 ->
  let w := dw_window (dctcp_win c) in
  let congested := (0 <? c_drops s) || (0 <? cc_rexmits c) in
  let clamp x := Z.min tx_len (Z.max CONF_MSS x) in
  exists c', dctcp_win_update config c tx_len s = Some c'
    /\ let w' := dw_window (dctcp_win c') in
       CONF_MSS <= w' <= tx_len
    /\ cc_rate c' * (cc_rtt c' * 1000) <= w' * 8 * 1000000
    /\ (congested = true -> w' = clamp (w / 2) /\ dw_slowstart (dctcp_win c') = false)
    /\ (congested = false -> c_ecnb s = 0 -> dw_slowstart (dctcp_win c) = true ->
          w' = clamp (w + c_ackb s) /\ dw_slowstart (dctcp_win c') = true)
    /\ (congested = false -> c_ecnb s = 0 -> dw_slowstart (dctcp_win c) = false ->
          w' = clamp (w + c_ackb s * CONF_MSS / w))
    /\ (congested = false -> 0 < c_ecnb s -> 0 < c_ackb s -> w' <= w).
Proof.
  intros Hcfg Hw Htx Hrtt Ha Hd He Hx Hov. cbv zeta.
  destruct (dctcp_win_update_some config Hcfg c tx_len s Hw Htx Hrtt)
    as (c' & E & Hb & _ & Hrate & _).
  exists c'. split; [done|]. split; [done|]. split; [done|].
  destruct (dctcp_win_update_inv config c tx_len s c' E) as (w1 & ss & w2 & e & Ess & Ew & Ec).
  rewrite Ec in Hb |- *. cbn [dw_window dw_slowstart] in Hb |- *.
  set (w := dw_window (dctcp_win c)) in *.
  split_and!; intros Hcong.
  - rewrite (dctcp_win_slowstart_congested c s w Hcong Hd Hx) in Ess.
    injection Ess as <- <-. rewrite (dctcp_win_avoid_congested config c s w Hcong) in Ew.
    by injection Ew as <- <-.
  - intros Hz Hs. unfold dctcp_win_slowstart in Ess. rewrite Hs in Ess.
    apply orb_false_iff in Hcong as [H1%Z.ltb_ge H2%Z.ltb_ge].
    rewrite Hz, (proj2 (Z.eqb_eq (c_drops s) 0)), (proj2 (Z.eqb_eq (cc_rexmits c) 0)) in Ess by lia.
    cbn [andb Z.eqb] in Ess. injection Ess as <- <-. injection Ew as <- <-.
    rewrite (u32_id (w + c_ackb s)) by (unfold CONF_MSS in *; cside).
    split; [|done]. f_equal. f_equal. destruct (Z.ltb_spec w (w + c_ackb s)); lia.
  - intros Hz Hs. unfold dctcp_win_slowstart in Ess. rewrite Hs in Ess. injection Ess as <- <-.
    destruct (dctcp_win_avoid_additive config c s w Hcong Hz Hw Ha Hov) as [e' Ee].
    rewrite Ee in Ew. by injection Ew as <- <-.
  - intros Hm Hack. assert (Es : w1 = w /\ ss = false).
    { unfold dctcp_win_slowstart in Ess. rewrite (proj2 (Z.eqb_neq (c_ecnb s) 0)) in Ess by lia.
      rewrite andb_false_r in Ess. by destruct (dw_slowstart _); injection Ess as <- <-. }
    destruct Es as [-> ->].
    pose proof (dctcp_win_avoid_marked config c s w w2 e Hcong Hm Hack Hw Ew). lia.
Qed.

Lemma dctcp_win_update_window_witness :
  let c := conn_cc_zero <| dctcp_win := mk_dctcp_win 0 6000 true |> in
  exists c', dctcp_win_update (ex_config CONFIG_CC_DCTCP_WIN) c 8192
               (mk_stats 1 3 4000 0 true 100 0 0) = Some c'
    /\ dw_window (dctcp_win c') = 3000 /\ dw_slowstart (dctcp_win c') = false.
Proof.
  cbv zeta.
  destruct (dctcp_win_update_window (ex_config CONFIG_CC_DCTCP_WIN)
    (conn_cc_zero <| dctcp_win := mk_dctcp_win 0 6000 true |>) 8192
    (mk_stats 1 3 4000 0 true 100 0 0) (ex_config_ok _)) as (c' & E & _ & _ & H & _);
    try (unfold CONF_MSS, RTT_MAX; cbn; lia).
  exists c'. split; [exact E|]. destruct (H eq_refl) as [Hw Hs]. split; [|exact Hs].
  rewrite Hw. reflexivity.
Defined.

(** ** Rate-based DCTCP *)

(** The actual rate is computed from [c_ackb * 8 * 1000] in 32 bits: it is the number
    of bits over the elapsed time only below 536871 bytes for a control interval.  From
    there on the product wraps around, and the rate used to clamp [cc_rate] is that of
    fewer bytes than were acknowledged. *)
Theorem actual_rate_wraps avg ackb last cur :
  is_u32 ackb -> last <> 0 -> u32 (cur - last) <> 0 ->
  exists avg' act, actual_rate avg ackb last cur = Some (avg', Z.max avg' act)
    /\ (ackb < 536871 -> act = ackb * 8000 / u32 (cur - last))
    /\ (536871 <= ackb -> act <= (ackb * 8000 - 4294967296) / u32 (cur - last)).
Proof.
  intros Hb Hl Hd. unfold actual_rate, udiv. rewrite (proj2 (Z.eqb_neq last 0)) by done.
  rewrite (proj2 (Z.eqb_neq _ _)) by done. cbn [negb mbind option_bind].
  set (dt := u32 (cur - last)) in *. assert (Hdt : 0 <= dt) by apply u32_range.
  assert (E : u32 (u32 (ackb * 8) * 1000) = u32 (ackb * 8000)).
  { unfold u32. rewrite Z.mul_mod_idemp_l by lia. f_equal. lia. }
  rewrite E. exists (u32 (u32 (7 * avg) + u32 (ackb * 8000) / dt) / 8), (u32 (ackb * 8000) / dt).
  split; [f_equal; f_equal; zcase; lia|]. split; intros Hlt.
  - unfold is_u32 in Hb. rewrite u32_id by cside. done.
  - apply Z.div_le_mono; [lia|]. unfold u32.
    pose proof (Z.div_mod (ackb * 8000) 4294967296 ltac:(lia)).
    assert (1 <= ackb * 8000 / 4294967296) by (apply Z.div_le_lower_bound; lia). lia.
Qed.

(** 600000 bytes in 100 us are 48 Gbit/s. *)
Lemma actual_rate_wraps_witness : exists avg act,
  actual_rate 0 600000 100 200 = Some (avg, Z.max avg act) /\ act <= 5050327.
Proof.
  destruct (actual_rate_wraps 0 600000 100 200) as (avg & act & E & _ & H);
    [unfold is_u32; lia|lia|vm_compute; discriminate|].
  exists avg, act. split; [exact E|]. exact (H ltac:(lia)).
Defined.

(** ** Retransmission *)

Section Stall.
Context (config : configuration) (rex : Z -> Z -> Z -> bool) (fid vm fg : Z).

(** Runs of the control loop for one connection, at the given times. *)
Fixpoint rexmit_run (c : conn_cc) (l : list (nicif_stats * Z)) : conn_cc * list bool :=
  match l with
  | [] => (c, [])
  | (s, t) :: l =>
      let '(c, b) := issue_retransmits config rex c fid vm fg s t in
      let '(c, bs) := rexmit_run c l in (c, b :: bs)
  end.

(** Data is in flight and nothing was acknowledged since the last run. *)
Definition stalled (s : nicif_stats) : bool := txp s && (c_ackb s =? 0).

Lemma rexmit_run_counts l : forall c k,
  0 < k -> cnt_tx_pending c = k -> k + Z.of_nat (length l) < 4294967296 ->
  Forall (fun st => stalled st.1 = true) l -> Forall (fun b => b = false) (rexmit_run c l).2 ->
  cnt_tx_pending (rexmit_run c l).1 = k + Z.of_nat (length l)
  /\ ts_tx_pending (rexmit_run c l).1 = ts_tx_pending c.
Proof.
  induction l as [|[s t] l IH]; intros c k Hk Ek Hlen Hl Hb; cbn [rexmit_run] in *.
  { cbn. split; [lia|done]. }
  apply Forall_cons in Hl as [Hs Hl]. cbn [fst] in Hs.
  destruct (issue_retransmits config rex c fid vm fg s t) as [c1 b] eqn:E.
  destruct (rexmit_run c1 l) as [c2 bs] eqn:Er. cbn [fst snd] in *.
  apply Forall_cons in Hb as [-> Hb].
  assert (E1 : cnt_tx_pending c1 = k + 1 /\ ts_tx_pending c1 = ts_tx_pending c).
  { revert E. unfold issue_retransmits. fold (stalled s). rewrite Hs, Ek. cbv zeta.
    rewrite (proj2 (Z.eqb_neq k 0)) by lia.
    assert (Eu : u32 (k + 1) = k + 1) by (apply u32_id; cbn [length] in Hlen; cside).
    destruct (_ && _); [destruct (rex _ _ _); [done|]|]; intros [= <-]; exact (conj Eu eq_refl). }
  destruct E1 as [E1 E2].
  specialize (IH c1 (k + 1)). rewrite Er in IH. cbn [fst snd] in IH.
  destruct IH as [H1 H2]; [lia|done|cbn [length] in Hlen; lia|done|done|].
  rewrite H1, H2. cbn [length]. split; [lia|done].
Qed.

End Stall.

(** When a connection stalls, with data in flight and no acknowledgement in each of
    the runs [l] since time [t0], and no retransmission was requested yet, then the next
    run requests one exactly when it is also stalled, it is at least the
    [cc_rexmit_ints]-th run, two round-trip times have passed since [t0], and the queue to
    the fast path takes the request. *)
Theorem issue_retransmits_stalled config rex fid vm fg c s0 t0 l s t :
  cnt_tx_pending c = 0 -> Z.of_nat (length l) + 2 < 4294967296 ->
  Forall (fun st => stalled st.1 = true) ((s0, t0) :: l) ->
  Forall (fun b => b = false) (rexmit_run config rex fid vm fg c ((s0, t0) :: l)).2 ->
  let c' := (rexmit_run config rex fid vm fg c ((s0, t0) :: l)).1 in
  let rtt := if st_rtt s =? 0 then tcp_rtt_init config else st_rtt s in
  (issue_retransmits config rex c' fid vm fg s t).2
  = stalled s && (cc_rexmit_ints config <=? Z.of_nat (length l) + 2)
    && (u32 (2 * rtt) <=? u32 (t - t0)) && rex fid vm fg.
Proof.
  intros Hc Hlen Hl Hb. cbv zeta. cbn [rexmit_run] in *.
  apply Forall_cons in Hl as [Hs0 Hl]. cbn [fst] in Hs0.
  destruct (issue_retransmits config rex c fid vm fg s0 t0) as [c1 b] eqn:E1.
  assert (H1 : cnt_tx_pending c1 = 1 /\ ts_tx_pending c1 = t0).
  { revert E1. unfold issue_retransmits. fold (stalled s0). rewrite Hs0, Hc. by intros [= <- _]. }
  destruct H1 as [H1 H2].
  pose proof (rexmit_run_counts config rex fid vm fg l c1 1 ltac:(lia) H1 ltac:(lia) Hl) as H.
  destruct (rexmit_run config rex fid vm fg c1 l) as [c2 bs]. cbn [fst snd] in *.
  apply Forall_cons in Hb as [_ Hb]. destruct (H Hb) as [H3 H4]. rewrite H2 in H4.
  unfold issue_retransmits. fold (stalled s).
  destruct (stalled s); [|done]. cbv zeta. rewrite H3.
  rewrite (proj2 (Z.eqb_neq _ 0)) by lia.
  cbn [cnt_tx_pending ts_tx_pending setf]. rewrite H4, u32_id by cside.
  replace (1 + Z.of_nat (length l) + 1) with (Z.of_nat (length l) + 2) by lia.
  replace (if negb (st_rtt s =? 0) then st_rtt s else tcp_rtt_init config)
    with (if st_rtt s =? 0 then tcp_rtt_init config else st_rtt s) by (by destruct (st_rtt s =? 0)).
  cbn [andb]. destruct (_ && _); [|done]. by destruct (rex fid vm fg).
Qed.

(** Four runs, 40 us apart, with an RTT of 50 us. *)
Lemma issue_retransmits_stalled_witness :
  let st := mk_stats 0 0 0 0 true 50 0 0 in
  (issue_retransmits (ex_config CONFIG_CC_DCTCP_WIN) (fun _ _ _ => true)
     (rexmit_run (ex_config CONFIG_CC_DCTCP_WIN) (fun _ _ _ => true) 7 0 0 conn_cc_zero
        [(st, 40); (st, 80); (st, 120)]).1 7 0 0 st 160).2 = true.
Proof.
  cbv zeta.
  refine (eq_trans (issue_retransmits_stalled (ex_config CONFIG_CC_DCTCP_WIN) (fun _ _ _ => true)
    7 0 0 conn_cc_zero (mk_stats 0 0 0 0 true 50 0 0) 40
    [(mk_stats 0 0 0 0 true 50 0 0, 80); (mk_stats 0 0 0 0 true 50 0 0, 120)]
    (mk_stats 0 0 0 0 true 50 0 0) 160 _ _ _ _) _).
  - reflexivity.
  - cbn. lia.
  - repeat constructor.
  - repeat constructor.
  - reflexivity.
Defined.
