(* ===== verification/NicFlow.v ===== *)
(** * Flow installation (tas/slow/nicif.c)

    How the slow path gives a connection to the fast path: allocation of flow ids,
    of slots of the flow hash table, and the flow state that is written.  A return
    value other than 0 of the C functions is [None] in the result, a failed
    assertion is [None] as a whole.  [rte_hash_crc] of DPDK is a parameter. *)

From S2P Require Import Prelude FpTypes SpTypes.
From S2P Require FlowTx.

(** ** State *)

(** [flow_id_items]: the item of a flow id and the link to the next item. *)
Record flow_id_item : Type := mk_item { it_flow_id : Z; it_next : option Z }.
#[export] Instance item_inhabited : Inhabited flow_id_item := populate (mk_item 0 None).
#[export] Instance eta_item : Eta flow_id_item := fun r => mk_item (it_flow_id r) (it_next r).

Record nicst : Type := mk_nicst {
  flow_id_items : gmap Z flow_id_item; flow_id_freelist : option Z;
  flowht : gmap Z flowhte; fp_flowst : gmap Z flowst }.
#[export] Instance eta_nicst : Eta nicst := fun r =>
  mk_nicst (flow_id_items r) (flow_id_freelist r) (flowht r) (fp_flowst r).

(** ** Flow ids *)

Fixpoint flow_id_init_loop (n : nat) (i : Z) (prev : option Z) (m : nicst) : nicst :=
  match n with
  | O => m
  | S n =>
      let m := m <| flow_id_items ::= <[i := mk_item i None]> |> in
      let m := match prev with
               | None => m <| flow_id_freelist := Some i |>
               | Some p => m <| flow_id_items ::= fun h =>
                                  <[p := (h !!! p) <| it_next := Some i |>]> h |>
               end in
      flow_id_init_loop n (i + 1) (Some i) m
  end.

Definition flow_id_alloc_init (m : nicst) : nicst :=
  flow_id_init_loop (Z.to_nat FLEXNIC_PL_FLOWST_NUM) 0 None m.

Definition flow_id_alloc (m : nicst) : option (Z * nicst) :=
  match flow_id_freelist m with
  | None => None
  | Some it => Some (it_flow_id (flow_id_items m !!! it),
                     m <| flow_id_freelist := it_next (flow_id_items m !!! it) |>)
  end.

Definition flow_id_free (fid : Z) (m : nicst) : nicst :=
  m <| flow_id_items ::= fun h =>
         <[fid := (h !!! fid) <| it_next := flow_id_freelist m |>]> h |>
    <| flow_id_freelist := Some fid |>.

(** ** The flow hash table *)

Definition POS_MASK : Z := Z.shiftl 1 FLEXNIC_PL_FLOWHTE_POSSHIFT - 1.

Definition hte_valid (e : flowhte) : bool :=
  negb (Z.land (flow_id e) FLEXNIC_PL_FLOWHTE_VALID =? 0).
Definition hte_pos (e : flowhte) : Z :=
  Z.land (Z.shiftr (flow_id e) FLEXNIC_PL_FLOWHTE_POSSHIFT) (FLEXNIC_PL_FLOWHT_NBSZ - 1).
Definition hte_fid (e : flowhte) : Z := Z.land POS_MASK (flow_id e).
Definition hte_mk (d f_id : Z) : Z :=
  Z.lor (Z.lor FLEXNIC_PL_FLOWHTE_VALID (u32 (Z.shiftl d FLEXNIC_PL_FLOWHTE_POSSHIFT))) f_id.

(** [(i + 1) % FLEXNIC_PL_FLOWHT_ENTRIES] and differences. *)
Definition ht_succ (i : Z) : Z := u32 (i + 1) mod FLEXNIC_PL_FLOWHT_ENTRIES.
Definition ht_diff (i j : Z) : Z := u32 (i - j) mod FLEXNIC_PL_FLOWHT_ENTRIES.

(** The first free entry from [i] up to [l]; the fuel bounds the distance. *)
Fixpoint ht_scan (n : nat) (ht : gmap Z flowhte) (i l d : Z) : option (Z * Z) :=
  match n with
  | O => Some (i, d)
  | S n =>
      if i =? l then Some (i, d)
      else if negb (hte_valid (ht !!! i)) then Some (i, d)
      else ht_scan n ht (ht_succ i) l (d + 1)
  end.

(** The search for an element that can be moved to [k]; [Some i = k]: none. *)
Fixpoint ht_find_move (n : nat) (ht : gmap Z flowhte) (i k : Z) : option Z :=
  match n with
  | O => None
  | S n =>
      if i =? k then Some i
      else
        _ ← cassert (hte_valid (ht !!! i));
        let d := FLEXNIC_PL_FLOWHT_NBSZ - 1 - hte_pos (ht !!! i) in
        if ht_diff k i <=? d then Some i else ht_find_move n ht (ht_succ i) k
  end.

(** Move the element at [i] to the free entry [k]. *)
Definition ht_move (i k : Z) (ht : gmap Z flowhte) : gmap Z flowhte :=
  let e := ht !!! i in
  <[i := mk_flowhte 0 (flow_hash e)]> (<[k := mk_flowhte (hte_mk (hte_pos e) (hte_fid e)) (flow_hash e)]> ht).

(** The free entry [i] is outside the neighbourhood of [j]. *)
Definition ht_outside (i j l : Z) : bool :=
  ((l <? j) || ((i <? j) || (l <=? i))) && ((j <? l) || ((l <=? i) && (i <? j))).

(** Move the free entry [i] backwards; the result [None]: no element could be
    moved.  The fuel bounds the number of moves. *)
Fixpoint ht_shift (n : nat) (i j l : Z) (ht : gmap Z flowhte)
    : option (option Z * gmap Z flowhte) :=
  match n with
  | O => None
  | S n =>
      if ht_outside i j l then
        let k := i in
        let i := u32 (k - FLEXNIC_PL_FLOWHT_NBSZ) mod FLEXNIC_PL_FLOWHT_ENTRIES in
        i ← ht_find_move (S (Z.to_nat FLEXNIC_PL_FLOWHT_NBSZ)) ht i k;
        if i =? k then Some (None, ht)
        else
          _ ← cassert (negb (hte_valid (ht !!! k)));
          ht_shift n i j l (ht_move i k ht)
      else Some (Some i, ht)
  end.

Definition flow_slot_alloc (h : Z) (ht : gmap Z flowhte)
    : option (option (Z * Z) * gmap Z flowhte) :=
  let j := h mod FLEXNIC_PL_FLOWHT_ENTRIES in
  let l := u32 (j + FLEXNIC_PL_FLOWHT_NBSZ) mod FLEXNIC_PL_FLOWHT_ENTRIES in
  '(i, d) ← ht_scan (Z.to_nat FLEXNIC_PL_FLOWHT_NBSZ) ht j l 0;
  if negb (i =? l) then Some (Some (i, d), ht)
  else
    let k := u32 (l + 4 * FLEXNIC_PL_FLOWHT_NBSZ) mod FLEXNIC_PL_FLOWHT_ENTRIES in
    '(i, _) ← ht_scan (Z.to_nat (4 * FLEXNIC_PL_FLOWHT_NBSZ)) ht i k d;
    if i =? k then Some (None, ht)
    else
      '(r, ht) ← ht_shift (S (Z.to_nat (4 * FLEXNIC_PL_FLOWHT_NBSZ))) i j l ht;
      Some (match r with
            | Some i => Some (i, ht_diff i j)
            | None => None
            end, ht).

(** [flow_slot_clear] after the hash was computed; the result tells whether the
    entry was found. *)
Fixpoint slot_clear_loop (n : nat) (j h f_id : Z) (ht : gmap Z flowhte)
    : bool * gmap Z flowhte :=
  match n with
  | O => (false, ht)
  | S n =>
      let k := u32 (h + j) mod FLEXNIC_PL_FLOWHT_ENTRIES in
      let e := ht !!! k in
      let ffid := flow_id e in
      if (Z.land ffid FLEXNIC_PL_FLOWHTE_VALID =? 0) || negb (flow_hash e =? h)
      then slot_clear_loop n (j + 1) h f_id ht
      else if Z.land ffid POS_MASK =? f_id then
        (true, <[k := mk_flowhte
                        (Z.land ffid (4294967295 - FLEXNIC_PL_FLOWHTE_VALID))
                        (flow_hash e)]> ht)
      else slot_clear_loop n (j + 1) h f_id ht
  end.

(** ** Installing and removing flows *)

Definition NICIF_CONN_ECN : Z := 4.

(** The arguments of [nicif_connection_add_gre]; [nicif_connection_add] has no
    tunnel id and no inner addresses. *)
Record add_args : Type := mk_add_args {
  aa_db : Z; aa_vm_id : Z; aa_app_id : Z; aa_tunnel_id : Z; aa_mac_remote : Z;
  aa_out_ip_local : Z; aa_out_ip_remote : Z; aa_in_ip_local : Z; aa_port_local : Z;
  aa_in_ip_remote : Z; aa_port_remote : Z;
  aa_rx_base : Z; aa_rx_len : Z; aa_tx_base : Z; aa_tx_len : Z;
  aa_remote_seq : Z; aa_local_seq : Z; aa_app_opaque : Z; aa_flags : Z; aa_rate : Z;
  aa_flow_group : Z }.

(** The bytes of a little-endian number. *)
Fixpoint le_bytes (n : nat) (x : Z) : list Z :=
  match n with O => [] | S n => x mod 256 :: le_bytes n (x / 256) end.

Section Nic.
Context (rte_hash_crc : list Z -> Z -> Z).

(** The packed structs [hk], as bytes. *)
Definition flow_hash_key (lip lp rip rp : Z) : Z :=
  rte_hash_crc (le_bytes 4 lip ++ le_bytes 4 rip ++ le_bytes 2 lp ++ le_bytes 2 rp) 0.
Definition flow_hash_key_gre (lp rp tid : Z) : Z :=
  rte_hash_crc (le_bytes 4 tid ++ le_bytes 2 lp ++ le_bytes 2 rp) 0.

Definition flow_slot_clear (f_id lip lp rip rp tid : Z) (ht : gmap Z flowhte)
    : bool * gmap Z flowhte :=
  let h := if FlowTx.VIRTUOSO_GRE then flow_hash_key_gre lp rp tid
           else flow_hash_key lip lp rip rp in
  slot_clear_loop (Z.to_nat FLEXNIC_PL_FLOWHT_NBSZ) 0 h f_id ht.

Definition ecn_base (a : add_args) : Z :=
  if Z.land (aa_flags a) NICIF_CONN_ECN =? NICIF_CONN_ECN
  then Z.lor (aa_rx_base a) FLEXNIC_PL_FLOWST_ECN else aa_rx_base a.

(** The fields both functions write. *)
Definition flow_init (a : add_args) (fs : flowst) : flowst :=
  fs <| opaque := aa_app_opaque a |> <| rx_base_sp := ecn_base a |>
     <| tx_base := aa_tx_base a |> <| rx_len := aa_rx_len a |> <| tx_len := aa_tx_len a |>
     <| remote_mac := aa_mac_remote a mod 281474976710656 |>
     <| db_id := u16 (aa_db a) |> <| app_id := aa_app_id a |> <| vm_id := aa_vm_id a |>
     <| out_local_ip := t_beui32 (aa_out_ip_local a) |>
     <| out_remote_ip := t_beui32 (aa_out_ip_remote a) |>
     <| local_port := t_beui16 (aa_port_local a) |>
     <| remote_port := t_beui16 (aa_port_remote a) |>
     <| flow_group := aa_flow_group a |> <| lock := 0 |> <| bump_seq := 0 |>
     <| rx_avail := aa_rx_len a |> <| rx_next_pos := 0 |> <| rx_next_seq := aa_remote_seq a |>
     <| rx_remote_avail := aa_rx_len a |>
     <| tx_sent := 0 |> <| tx_next_pos := 0 |> <| tx_next_seq := aa_local_seq a |>
     <| tx_avail := 0 |> <| tx_next_ts := 0 |> <| tx_rate := aa_rate a |> <| rtt_est := 0 |>.

(** Allocation of the id and the slot, and the two writes to the table. *)
Definition connection_install (hash : Z) (init : flowst -> flowst) (m : nicst)
    : option (option Z * nicst) :=
  match flow_id_alloc m with
  | None => Some (None, m)
  | Some (f_id, m) =>
      '(r, ht) ← flow_slot_alloc hash (flowht m);
      let m := m <| flowht := ht |> in
      match r with
      | None => Some (None, flow_id_free f_id m)
      | Some (i, d) =>
          _ ← cassert (i <? FLEXNIC_PL_FLOWHT_ENTRIES);
          _ ← cassert (d <? FLEXNIC_PL_FLOWHT_NBSZ);
          Some (Some f_id,
                m <| fp_flowst ::= fun h => <[f_id := init (h !!! f_id)]> h |>
                  <| flowht ::= <[i := mk_flowhte (hte_mk d f_id) hash]> |>)
      end
  end.

Definition nicif_connection_add (a : add_args) (m : nicst) : option (option Z * nicst) :=
  let lip := t_beui32 (aa_out_ip_local a) in
  let rip := t_beui32 (aa_out_ip_remote a) in
  let lp := t_beui16 (aa_port_local a) in
  let rp := t_beui16 (aa_port_remote a) in
  connection_install (flow_hash_key lip lp rip rp) (flow_init a) m.

Definition nicif_connection_add_gre (a : add_args) (m : nicst) : option (option Z * nicst) :=
  let tid := t_beui32 (aa_tunnel_id a) in
  let lp := t_beui16 (aa_port_local a) in
  let rp := t_beui16 (aa_port_remote a) in
  connection_install (flow_hash_key_gre lp rp tid)
    (fun fs => (flow_init a fs) <| tunnel_id := tid |>
                 <| in_local_ip := t_beui32 (aa_in_ip_local a) |>
                 <| in_remote_ip := t_beui32 (aa_in_ip_remote a) |>) m.

(** The outputs [tx_seq], [rx_seq], [tx_closed] and [rx_closed]. *)
Definition nicif_connection_disable (f_id : Z) (m : nicst)
    : (Z * Z * bool * bool) * nicst :=
  let fs := fp_flowst m !!! f_id in
  let fs := fs <| rx_base_sp := Z.lor (rx_base_sp fs) FLEXNIC_PL_FLOWST_SLOWPATH |> in
  let rx_closed := negb (Z.land (rx_base_sp fs) FLEXNIC_PL_FLOWST_RXFIN =? 0) in
  let tx_closed := negb (Z.land (rx_base_sp fs) FLEXNIC_PL_FLOWST_TXFIN =? 0)
                   && (tx_sent fs =? 0) in
  let '(_, ht) := flow_slot_clear f_id (out_local_ip fs) (local_port fs)
                    (out_remote_ip fs) (remote_port fs) (tunnel_id fs) (flowht m) in
  ((tx_next_seq fs, rx_next_seq fs, tx_closed, rx_closed),
   m <| fp_flowst ::= <[f_id := fs <| lock := 0 |>]> |> <| flowht := ht |>).

Definition nicif_connection_free (f_id : Z) (m : nicst) : nicst := flow_id_free f_id m.

Definition nicif_connection_move (dst_db f_id : Z) (m : nicst) : nicst :=
  m <| fp_flowst ::= fun h => <[f_id := (h !!! f_id) <| db_id := u16 dst_db |>]> h |>.

End Nic.
