(* ===== verification/NicFlowThms.v ===== *)
(** * The flow hash table and the flow ids: proofs (tas/slow/nicif.c)

    Circular offsets, entries as bit fields, the invariants of the hash table and what
    allocating and clearing a slot do to them; then the theorems about flows. *)

From S2P Require Import Prelude FpTypes Rng Links Qman QmanProofs QmanPoll TcpCommon FlowTx.
From S2P Require Import FlowRx FlowOps Sender FlowProofs FlowHandlers FlowLive FastPath Examples.
From S2P Require Import FlowThms SpTypes NicFlow.

(** ** Circular positions *)

Notation NENT := FLEXNIC_PL_FLOWHT_ENTRIES (only parsing).

Definition ht_idx (j x : Z) : Z := (j + x) mod FLEXNIC_PL_FLOWHT_ENTRIES.
(** The distance of entry [i] from the home position of hash [h]. *)
Definition ht_dist (h i : Z) : Z := (i - h) mod FLEXNIC_PL_FLOWHT_ENTRIES.

Ltac circ := unfold ht_idx, ht_dist, ht_succ, ht_diff, u32, FLEXNIC_PL_FLOWHT_NBSZ,
  FLEXNIC_PL_FLOWHT_ENTRIES in *; Z.div_mod_to_equations; lia.

Lemma ht_idx_range j x : 0 <= ht_idx j x < NENT.
Proof. apply Z.mod_pos_bound. reflexivity. Qed.

Lemma ht_idx_0 j : 0 <= j < NENT -> ht_idx j 0 = j.
Proof. circ. Qed.

Lemma ht_idx_inj j x y :
  0 <= x < NENT -> 0 <= y < NENT -> ht_idx j x = ht_idx j y -> x = y.
Proof. circ. Qed.

Lemma ht_succ_idx j x : ht_succ (ht_idx j x) = ht_idx j (x + 1).
Proof. circ. Qed.

Lemma ht_diff_idx j x y : 0 <= y <= x -> x < NENT -> ht_diff (ht_idx j x) (ht_idx j y) = x - y.
Proof. circ. Qed.

Lemma ht_back_idx j x :
  4 <= x -> u32 (ht_idx j x - FLEXNIC_PL_FLOWHT_NBSZ) mod NENT = ht_idx j (x - 4).
Proof. circ. Qed.

Lemma ht_idx_add j x y : ht_idx (ht_idx j x) y = ht_idx j (x + y).
Proof. circ. Qed.

Lemma ht_idx_u32 j x y : u32 (ht_idx j x + y) mod NENT = ht_idx j (x + y).
Proof. circ. Qed.

Lemma ht_outside_idx j x :
  0 <= j < NENT -> 0 <= x < NENT -> ht_outside (ht_idx j x) j (ht_idx j 4) = (4 <=? x).
Proof.
  intros Hj Hx. unfold ht_outside. unfold ht_idx, FLEXNIC_PL_FLOWHT_ENTRIES in *.
  destruct (Z.leb_spec 4 x).
  - apply andb_true_iff. rewrite !orb_true_iff, andb_true_iff, !Z.ltb_lt, !Z.leb_le.
    Z.div_mod_to_equations. lia.
  - apply andb_false_iff. rewrite !orb_false_iff, andb_false_iff, !Z.ltb_ge, !Z.leb_gt.
    Z.div_mod_to_equations. lia.
Qed.

Lemma ht_dist_idx h x : 0 <= x < NENT -> ht_dist h (ht_idx (h mod NENT) x) = x.
Proof. circ. Qed.

Lemma ht_dist_step h j x y :
  0 <= y <= x -> x < NENT -> ht_dist h (ht_idx j y) + (x - y) < NENT ->
  ht_dist h (ht_idx j x) = ht_dist h (ht_idx j y) + (x - y).
Proof. circ. Qed.

Lemma ht_idx_dist h i : 0 <= i < NENT -> i = u32 (h + ht_dist h i) mod NENT.
Proof. circ. Qed.

(** ** Entries *)

Lemma hte_pos_range e : 0 <= hte_pos e < 4.
Proof.
  unfold hte_pos. change (FLEXNIC_PL_FLOWHT_NBSZ - 1) with (Z.ones 2).
  rewrite Z.land_ones by lia. by apply Z.mod_pos_bound.
Qed.

Lemma hte_fid_range e : 0 <= hte_fid e < 536870912.
Proof.
  unfold hte_fid. change POS_MASK with (Z.ones 29). rewrite Z.land_comm, Z.land_ones by lia.
  by apply Z.mod_pos_bound.
Qed.

Lemma hte_mk_cases d : 0 <= d < 4 -> d = 0 \/ d = 1 \/ d = 2 \/ d = 3.
Proof. lia. Qed.

Lemma hte_mk_valid d f h : hte_valid (mk_flowhte (hte_mk d f) h) = true.
Proof.
  unfold hte_valid, hte_mk. cbn [flow_id]. apply negb_true_iff, Z.eqb_neq.
  intros E. apply (f_equal (fun x => Z.testbit x 31)) in E.
  rewrite Z.land_spec, !Z.lor_spec in E. by cbn in E.
Qed.

Lemma hte_mk_fid d f h :
  0 <= d < 4 -> 0 <= f < 536870912 -> hte_fid (mk_flowhte (hte_mk d f) h) = f.
Proof.
  intros Hd Hf. unfold hte_fid, hte_mk. cbn [flow_id]. rewrite !Z.land_lor_distr_r.
  change (Z.land POS_MASK FLEXNIC_PL_FLOWHTE_VALID) with 0.
  replace (Z.land POS_MASK (u32 (Z.shiftl d FLEXNIC_PL_FLOWHTE_POSSHIFT))) with 0
    by (by destruct (hte_mk_cases d Hd) as [-> | [-> | [-> | ->]]]).
  rewrite !Z.lor_0_l, Z.land_comm. change POS_MASK with (Z.ones 29).
  rewrite Z.land_ones by lia. by apply Z.mod_small.
Qed.

Lemma hte_mk_pos d f h :
  0 <= d < 4 -> 0 <= f < 536870912 -> hte_pos (mk_flowhte (hte_mk d f) h) = d.
Proof.
  intros Hd Hf. unfold hte_pos, hte_mk. cbn [flow_id]. rewrite !Z.shiftr_lor.
  replace (Z.shiftr f FLEXNIC_PL_FLOWHTE_POSSHIFT) with 0.
  - rewrite Z.lor_0_r. by destruct (hte_mk_cases d Hd) as [-> | [-> | [-> | ->]]].
  - symmetry. rewrite Z.shiftr_div_pow2 by (unfold FLEXNIC_PL_FLOWHTE_POSSHIFT; lia).
    apply Z.div_small. unfold FLEXNIC_PL_FLOWHTE_POSSHIFT. lia.
Qed.

Lemma hte_empty_invalid h : hte_valid (mk_flowhte 0 h) = false.
Proof. reflexivity. Qed.

(** Clearing the valid bit. *)
Lemma hte_clear_invalid x h :
  hte_valid (mk_flowhte (Z.land x (4294967295 - FLEXNIC_PL_FLOWHTE_VALID)) h) = false.
Proof.
  unfold hte_valid. cbn [flow_id]. rewrite <- Z.land_assoc.
  change (Z.land (4294967295 - FLEXNIC_PL_FLOWHTE_VALID) FLEXNIC_PL_FLOWHTE_VALID) with 0.
  by rewrite Z.land_0_r.
Qed.

(** ** Invariants of the table *)

(** Entry [i] holds flow [f] under hash [h]. *)
Definition ht_holds (ht : gmap Z flowhte) (i h f : Z) : Prop :=
  0 <= i < FLEXNIC_PL_FLOWHT_ENTRIES /\ hte_valid (ht !!! i) = true
  /\ flow_hash (ht !!! i) = h /\ hte_fid (ht !!! i) = f.

Definition ht_flow (ht : gmap Z flowhte) (h f : Z) : Prop := exists i, ht_holds ht i h f.

(** Every flow is in the neighbourhood of its home position. *)
Definition ht_near (ht : gmap Z flowhte) : Prop :=
  forall i h f, ht_holds ht i h f -> is_u32 h /\ ht_dist h i < FLEXNIC_PL_FLOWHT_NBSZ.

(** The position field is the distance from the home position. *)
Definition ht_exact (ht : gmap Z flowhte) (i : Z) : Prop :=
  hte_valid (ht !!! i) = true -> hte_pos (ht !!! i) = ht_dist (flow_hash (ht !!! i)) i.

Definition ht_accurate (ht : gmap Z flowhte) : Prop :=
  ht_near ht /\ forall i, 0 <= i < FLEXNIC_PL_FLOWHT_ENTRIES -> ht_exact ht i.

(** No flow has two entries. *)
Definition ht_unique (ht : gmap Z flowhte) : Prop :=
  forall i i' h h' f, ht_holds ht i h f -> ht_holds ht i' h' f -> i = i'.

(** The same flows are installed. *)
Definition ht_same (ht ht' : gmap Z flowhte) : Prop :=
  forall h f, ht_flow ht' h f <-> ht_flow ht h f.

Lemma ht_holds_self ht i :
  0 <= i < NENT -> hte_valid (ht !!! i) = true ->
  ht_holds ht i (flow_hash (ht !!! i)) (hte_fid (ht !!! i)).
Proof. done. Qed.

(** ** Searching *)

Lemma ht_scan_spec ht j y d n x :
  0 <= x <= y -> y < NENT -> (Z.to_nat (y - x) <= n)%nat ->
  exists z, x <= z <= y /\ ht_scan n ht (ht_idx j x) (ht_idx j y) d = Some (ht_idx j z, d + (z - x))
  /\ (forall u, x <= u < z -> hte_valid (ht !!! ht_idx j u) = true)
  /\ (z < y -> hte_valid (ht !!! ht_idx j z) = false).
Proof.
  revert x d. induction n as [|n IH]; intros x d Hx Hy Hn.
  - assert (x = y) as -> by lia. exists y. cbn. rewrite Z.sub_diag, Z.add_0_r.
    split_and!; [lia|lia|done|lia|lia].
  - cbn [ht_scan]. destruct (Z.eqb_spec (ht_idx j x) (ht_idx j y)) as [E|E].
    + apply ht_idx_inj in E; [|lia..]. subst x. exists y. rewrite Z.sub_diag, Z.add_0_r.
      split_and!; [lia|lia|done|lia|lia].
    + assert (x <> y) by congruence.
      destruct (hte_valid (ht !!! ht_idx j x)) eqn:Ev; cbn [negb].
      * rewrite ht_succ_idx. destruct (IH (x + 1) (d + 1)) as (z & Hz & Es & Hv & Hi); [lia..|].
        exists z. split; [lia|]. split; [rewrite Es; do 2 f_equal; lia|]. split; [|done].
        intros u Hu. destruct (decide (u = x)) as [->|]; [done|]. apply Hv. lia.
      * exists x. rewrite Z.sub_diag, Z.add_0_r. split_and!; [lia|lia|done|lia|done].
Qed.

Lemma ht_find_move_spec ht j x n y :
  0 <= y <= x -> x < NENT -> (Z.to_nat (x - y) < n)%nat ->
  (forall u, y <= u < x -> hte_valid (ht !!! ht_idx j u) = true) ->
  exists z, y <= z <= x /\ ht_find_move n ht (ht_idx j y) (ht_idx j x) = Some (ht_idx j z)
  /\ (z < x -> x - z <= 3 - hte_pos (ht !!! ht_idx j z)).
Proof.
  revert y. induction n as [|n IH]; intros y Hy Hx Hn Hv; [lia|]. cbn [ht_find_move].
  destruct (Z.eqb_spec (ht_idx j y) (ht_idx j x)) as [E|E].
  - apply ht_idx_inj in E; [|lia..]. subst y. exists x. split_and!; [lia|lia|done|lia].
  - assert (y <> x) by congruence. rewrite Hv by lia. cbn [cassert mbind option_bind].
    rewrite ht_diff_idx by lia. change (FLEXNIC_PL_FLOWHT_NBSZ - 1) with 3. cbv zeta.
    destruct (Z.leb_spec (x - y) (3 - hte_pos (ht !!! ht_idx j y))).
    + exists y. split_and!; [lia|lia|done|done].
    + rewrite ht_succ_idx. destruct (IH (y + 1)) as (z & Hz & Ez & Hm); [lia..| |].
      * intros u Hu. apply Hv. lia.
      * exists z. split_and!; [lia|lia|done|done].
Qed.

(** ** Moving an entry *)

Lemma ht_move_holds ht i k z h f :
  i <> k -> ht_holds (ht_move i k ht) z h f <->
  (z <> i /\ z <> k /\ ht_holds ht z h f)
  \/ (z = k /\ 0 <= k < FLEXNIC_PL_FLOWHT_ENTRIES /\ flow_hash (ht !!! i) = h /\ hte_fid (ht !!! i) = f).
Proof.
  intros Hik. unfold ht_holds, ht_move. cbv zeta.
  destruct (decide (z = i)) as [->|Hi].
  { rewrite lookup_total_insert_eq. split; [by intros (_ & [=] & _)|].
    intros [[]|[]]; done. }
  rewrite lookup_total_insert_ne by done. destruct (decide (z = k)) as [->|Hk].
  - rewrite lookup_total_insert_eq, hte_mk_valid. cbn [flow_hash].
    rewrite hte_mk_fid by (apply hte_pos_range || apply hte_fid_range). tauto.
  - rewrite lookup_total_insert_ne by done. tauto.
Qed.

Lemma ht_move_same ht i k :
  i <> k -> 0 <= i < NENT -> 0 <= k < NENT ->
  hte_valid (ht !!! i) = true -> hte_valid (ht !!! k) = false -> ht_same ht (ht_move i k ht).
Proof.
  intros Hik Hi Hk Hvi Hvk h f. split; intros [z Hz].
  - apply ht_move_holds in Hz as [(_ & _ & Hz)|(-> & _ & Eh & Ef)]; [by exists z| |done].
    exists i. subst h f. by apply ht_holds_self.
  - destruct (decide (z = i)) as [->|Hzi].
    + exists k. apply ht_move_holds; [done|]. right. by destruct Hz as (_ & _ & ? & ?).
    + exists z. apply ht_move_holds; [done|]. left. split; [done|]. split; [|done].
      intros ->. destruct Hz as (_ & Hz & _). congruence.
Qed.

Lemma ht_move_unique ht i k :
  i <> k -> 0 <= i < NENT -> hte_valid (ht !!! i) = true ->
  ht_unique ht -> ht_unique (ht_move i k ht).
Proof.
  intros Hik Hi Hv Hu z z' h h' f Hz Hz'.
  assert (Hold : ht_holds ht i (flow_hash (ht !!! i)) (hte_fid (ht !!! i))) by done.
  apply ht_move_holds in Hz as [(Hz1 & _ & Hz)|(-> & _ & _ & Ef)]; [| |done];
    apply ht_move_holds in Hz' as [(Hz2 & _ & Hz')|(-> & _ & _ & Ef')]; try done.
  - by eapply Hu.
  - exfalso. apply Hz1. subst f. by eapply Hu.
  - exfalso. apply Hz2. subst f. by eapply Hu.
Qed.

Lemma ht_move_near ht i k :
  i <> k -> 0 <= i < NENT -> hte_valid (ht !!! i) = true ->
  (0 <= k < NENT -> ht_dist (flow_hash (ht !!! i)) k < FLEXNIC_PL_FLOWHT_NBSZ) ->
  ht_near ht -> ht_near (ht_move i k ht).
Proof.
  intros Hik Hi Hv Hd Hn z h f Hz.
  apply ht_move_holds in Hz as [(_ & _ & Hz)|(-> & Hk & <- & _)]; [by eapply Hn| |done].
  split; [|by apply Hd]. by eapply (Hn i).
Qed.

(** The loop that moves the free entry at offset [x] of [j] towards [j]: the entries
    before it were not moved yet. *)
Lemma ht_shift_spec j n : forall x ht,
  0 <= j < NENT -> 0 <= x < 20 -> x < 4 + Z.of_nat n ->
  ht_near ht -> hte_valid (ht !!! ht_idx j x) = false ->
  (forall u, 0 <= u < x -> hte_valid (ht !!! ht_idx j u) = true) ->
  (forall u, 0 <= u < x -> ht_exact ht (ht_idx j u)) ->
  exists r ht', ht_shift (S n) (ht_idx j x) j (ht_idx j 4) ht = Some (r, ht')
  /\ ht_near ht' /\ ht_same ht ht' /\ (ht_unique ht -> ht_unique ht')
  /\ match r with
     | Some i => exists y, 0 <= y < 4 /\ y <= x /\ i = ht_idx j y /\ hte_valid (ht' !!! i) = false
     | None => forall u, 0 <= u < 4 -> hte_valid (ht !!! ht_idx j u) = true
     end.
Proof.
  induction n as [|n IH]; intros x ht Hj Hx Hn Hnear Hfree Hval Hex;
    cbn [ht_shift]; rewrite ht_outside_idx by (unfold FLEXNIC_PL_FLOWHT_ENTRIES in *; lia);
    (destruct (Z.leb_spec 4 x) as [H4|H4];
     [|exists (Some (ht_idx j x)), ht; split_and!; [done|done|by intros ??|done|];
       exists x; by split_and!; [lia..| |]]).
  - exfalso. lia.
  - cbv zeta. rewrite ht_back_idx by lia.
    destruct (ht_find_move_spec ht j x (S (Z.to_nat FLEXNIC_PL_FLOWHT_NBSZ)) (x - 4))
      as (z & Hz & Ez & Hm);
      [lia|unfold FLEXNIC_PL_FLOWHT_ENTRIES; lia|unfold FLEXNIC_PL_FLOWHT_NBSZ; lia
      |intros u Hu; apply Hval; lia|].
    rewrite Ez. cbn [mbind option_bind]. clear Ez.
    destruct (Z.eqb_spec (ht_idx j z) (ht_idx j x)) as [E|E].
    + exists None, ht. split_and!; [done|done|by intros ??|done|]. intros u Hu. apply Hval. lia.
    + assert (Hzx : z < x) by (destruct (decide (z = x)); [congruence|lia]).
      specialize (Hm Hzx). rewrite Hfree. cbn [negb cassert mbind option_bind].
      pose proof (Hval z ltac:(lia)) as Hvz. pose proof (Hex z ltac:(lia) Hvz) as Epos.
      pose proof (ht_idx_range j z) as Rz. pose proof (ht_idx_range j x) as Rx.
      assert (Hd : ht_dist (flow_hash (ht !!! ht_idx j z)) (ht_idx j x) < FLEXNIC_PL_FLOWHT_NBSZ).
      { pose proof (hte_pos_range (ht !!! ht_idx j z)).
        rewrite (ht_dist_step _ j x z); unfold FLEXNIC_PL_FLOWHT_NBSZ, FLEXNIC_PL_FLOWHT_ENTRIES in *;
          lia. }
      set (ht1 := ht_move (ht_idx j z) (ht_idx j x) ht).
      assert (Hsame : ht_same ht ht1) by by apply ht_move_same.
      assert (Hu1 : ht_unique ht -> ht_unique ht1) by by apply ht_move_unique.
      assert (Hlow : forall u, 0 <= u < z -> ht1 !!! ht_idx j u = ht !!! ht_idx j u).
      { intros u Hu. unfold ht1, ht_move. cbv zeta.
        rewrite !lookup_total_insert_ne; [done|..];
          intros Eu; apply ht_idx_inj in Eu; unfold FLEXNIC_PL_FLOWHT_ENTRIES; lia. }
      destruct (IH z ht1) as (r & ht' & Es & Hn' & Hs' & Hu' & Hr); try done; try lia.
      * apply ht_move_near; try done.
      * unfold ht1, ht_move. cbv zeta. by rewrite lookup_total_insert_eq.
      * intros u Hu. rewrite Hlow by lia. apply Hval. lia.
      * intros u Hu. unfold ht_exact. rewrite Hlow by lia. apply Hex. lia.
      * exists r, ht'. split; [exact Es|]. split; [done|].
        split; [intros h f; by rewrite (Hs' h f), (Hsame h f)|].
        split; [by intros Hu; apply Hu', Hu1|].
        destruct r as [i|]; [|intros u Hu; apply Hval; lia].
        destruct Hr as (y & ? & ? & ? & ?). exists y. by split_and!; [lia..| |].
Qed.

(** ** Allocating a slot *)

Lemma flow_slot_alloc_spec h ht :
  ht_accurate ht -> is_u32 h ->
  exists r ht', flow_slot_alloc h ht = Some (r, ht')
  /\ ht_near ht' /\ ht_same ht ht' /\ (ht_unique ht -> ht_unique ht')
  /\ (ht' = ht \/ forall x, 0 <= x < 4 -> hte_valid (ht !!! ht_idx (h mod NENT) x) = true)
  /\ match r with
     | Some (i, d) => 0 <= i < FLEXNIC_PL_FLOWHT_ENTRIES /\ d = ht_dist h i
                      /\ 0 <= d < FLEXNIC_PL_FLOWHT_NBSZ /\ hte_valid (ht' !!! i) = false
     | None => forall x, 0 <= x < 4 -> hte_valid (ht !!! ht_idx (h mod NENT) x) = true
     end.
Proof.
  intros [Hnear Hex] Hh. unfold flow_slot_alloc. cbv zeta. set (j := h mod NENT).
  assert (Hj : 0 <= j < NENT) by (by apply Z.mod_pos_bound).
  assert (El : u32 (j + FLEXNIC_PL_FLOWHT_NBSZ) mod NENT = ht_idx j 4) by circ.
  rewrite El. clear El.
  destruct (ht_scan_spec ht j 4 0 (Z.to_nat FLEXNIC_PL_FLOWHT_NBSZ) 0)
    as (z & Hz & Es & Hv & Hi);
    [lia|unfold FLEXNIC_PL_FLOWHT_ENTRIES; lia|unfold FLEXNIC_PL_FLOWHT_NBSZ; lia|].
  rewrite ht_idx_0 in Es by done. rewrite Es. clear Es. cbn [mbind option_bind].
  assert (Edist : forall x, 0 <= x < NENT -> ht_dist h (ht_idx j x) = x)
    by (intros; by apply ht_dist_idx).
  destruct (Z.eqb_spec (ht_idx j z) (ht_idx j 4)) as [E|E]; cbn [negb].
  2: { assert (z < 4) by (destruct (decide (z = 4)); [congruence|lia]).
       exists (Some (ht_idx j z, 0 + (z - 0))), ht.
       split; [done|]. split; [done|]. split; [by intros ??|]. split; [done|].
       split; [by left|]. split; [apply ht_idx_range|]. split_and!.
       - rewrite Edist; unfold FLEXNIC_PL_FLOWHT_ENTRIES; lia.
       - lia.
       - unfold FLEXNIC_PL_FLOWHT_NBSZ; lia.
       - by apply Hi. }
  apply ht_idx_inj in E; [|unfold FLEXNIC_PL_FLOWHT_ENTRIES; lia..]. subst z.
  assert (Ek : u32 (ht_idx j 4 + 4 * FLEXNIC_PL_FLOWHT_NBSZ) mod NENT = ht_idx j 20)
    by (rewrite ht_idx_u32; reflexivity).
  rewrite Ek. clear Ek.
  destruct (ht_scan_spec ht j 20 (0 + (4 - 0)) (Z.to_nat (4 * FLEXNIC_PL_FLOWHT_NBSZ)) 4)
    as (z & Hz2 & Es & Hv2 & Hi2);
    [lia|unfold FLEXNIC_PL_FLOWHT_ENTRIES; lia|unfold FLEXNIC_PL_FLOWHT_NBSZ; lia|].
  rewrite Es. clear Es. cbn [mbind option_bind].
  destruct (Z.eqb_spec (ht_idx j z) (ht_idx j 20)) as [E|E].
  { exists None, ht. split; [done|]. split; [done|]. split; [by intros ??|]. split; [done|].
    split; [by left|].
    intros x Hx. apply Hv. lia. }
  assert (Hz20 : z < 20) by (destruct (decide (z = 20)); [congruence|lia]).
  destruct (ht_shift_spec j (Z.to_nat (4 * FLEXNIC_PL_FLOWHT_NBSZ)) z ht)
    as (r & ht' & Er & Hn & Hs & Hu & Hr); try done.
  - unfold FLEXNIC_PL_FLOWHT_NBSZ. lia.
  - by apply Hi2.
  - intros u Hu. destruct (decide (u < 4)); [apply Hv; lia|apply Hv2; lia].
  - intros u Hu. apply Hex, ht_idx_range.
  - rewrite Er. cbn [mbind option_bind]. eexists _, ht'.
    split; [done|]. split; [done|]. split; [done|]. split; [done|].
    split; [right; intros x Hx; apply Hv; lia|].
    destruct r as [i|].
    + destruct Hr as (y & Hy & _ & -> & Hf). pose proof (ht_idx_range j y).
      assert (Ed : ht_diff (ht_idx j y) j = y).
      { rewrite <- (ht_idx_0 j) at 2 by done.
        rewrite ht_diff_idx; unfold FLEXNIC_PL_FLOWHT_ENTRIES; lia. }
      rewrite Ed, Edist by (unfold FLEXNIC_PL_FLOWHT_ENTRIES; lia).
      unfold FLEXNIC_PL_FLOWHT_NBSZ. split_and!; try done; lia.
    + intros x Hx. apply Hv. lia.
Qed.

(** ** Writing and clearing an entry *)

Lemma ht_put_holds ht i d g k z h f :
  0 <= d < 4 -> 0 <= g < 536870912 ->
  ht_holds (<[i := mk_flowhte (hte_mk d g) k]> ht) z h f <->
  (z <> i /\ ht_holds ht z h f) \/ (z = i /\ 0 <= i < FLEXNIC_PL_FLOWHT_ENTRIES /\ k = h /\ g = f).
Proof.
  intros Hd Hg. unfold ht_holds. destruct (decide (z = i)) as [->|Hi].
  - rewrite lookup_total_insert_eq, hte_mk_valid, hte_mk_fid by done. cbn [flow_hash]. tauto.
  - rewrite lookup_total_insert_ne by done. tauto.
Qed.

Lemma ht_put_flow ht i d g k :
  0 <= d < 4 -> 0 <= g < 536870912 -> 0 <= i < NENT -> hte_valid (ht !!! i) = false ->
  forall h f, ht_flow (<[i := mk_flowhte (hte_mk d g) k]> ht) h f
    <-> ht_flow ht h f \/ (h = k /\ f = g).
Proof.
  intros Hd Hg Hi Hf h f. split.
  - intros [z Hz]. apply ht_put_holds in Hz as [[_ Hz]|(_ & _ & -> & ->)]; [|by right|done..].
    left. by exists z.
  - intros [[z Hz]|[-> ->]].
    + exists z. apply ht_put_holds; [done..|]. left. split; [|done].
      intros ->. destruct Hz as (_ & Hz & _). congruence.
    + exists i. apply ht_put_holds; [done..|]. by right.
Qed.

Lemma ht_put_near ht i g k :
  is_u32 k -> 0 <= ht_dist k i < FLEXNIC_PL_FLOWHT_NBSZ -> 0 <= g < 536870912 -> ht_near ht ->
  ht_near (<[i := mk_flowhte (hte_mk (ht_dist k i) g) k]> ht).
Proof.
  intros Hk Hd Hg Hn z h f Hz. apply ht_put_holds in Hz as [[_ Hz]|(-> & _ & <- & _)];
    [by eapply Hn|split; [done|lia]|exact Hd|done].
Qed.

Lemma ht_put_accurate ht i g k :
  is_u32 k -> 0 <= ht_dist k i < FLEXNIC_PL_FLOWHT_NBSZ -> 0 <= g < 536870912 ->
  ht_accurate ht -> ht_accurate (<[i := mk_flowhte (hte_mk (ht_dist k i) g) k]> ht).
Proof.
  intros Hk Hd Hg [Hn He]. split; [by apply ht_put_near|]. intros z Hz Hv.
  destruct (decide (z = i)) as [->|Hi].
  - rewrite lookup_total_insert_eq in *. by apply hte_mk_pos.
  - rewrite lookup_total_insert_ne in * by done. by apply He.
Qed.

Lemma ht_put_unique ht i d g k :
  0 <= d < 4 -> 0 <= g < 536870912 -> (forall h, ~ ht_flow ht h g) -> ht_unique ht ->
  ht_unique (<[i := mk_flowhte (hte_mk d g) k]> ht).
Proof.
  intros Hd Hg Hnew Hu z z' h h' f Hz Hz'.
  apply ht_put_holds in Hz as [[_ Hz]|(-> & _ & _ & <-)]; [| |done..];
    apply ht_put_holds in Hz' as [[_ Hz']|(-> & _ & _ & Ef)]; try done.
  - by eapply Hu.
  - subst g. destruct (Hnew h). by exists z.
  - destruct (Hnew h'). by exists z'.
Qed.

Definition ht_cleared (ht : gmap Z flowhte) (i : Z) : gmap Z flowhte :=
  <[i := mk_flowhte (Z.land (flow_id (ht !!! i)) (4294967295 - FLEXNIC_PL_FLOWHTE_VALID))
           (flow_hash (ht !!! i))]> ht.

Lemma ht_cleared_holds ht i z h f :
  ht_holds (ht_cleared ht i) z h f <-> z <> i /\ ht_holds ht z h f.
Proof.
  unfold ht_holds, ht_cleared. destruct (decide (z = i)) as [->|Hi].
  - rewrite lookup_total_insert_eq, hte_clear_invalid. split; [by intros (_ & [=] & _)|tauto].
  - rewrite lookup_total_insert_ne by done. tauto.
Qed.

Lemma ht_cleared_flow ht i h f :
  ht_unique ht -> ht_holds ht i h f ->
  forall h' f', ht_flow (ht_cleared ht i) h' f' <-> ht_flow ht h' f' /\ f' <> f.
Proof.
  intros Hu Hi h' f'. split.
  - intros [z [Hzi Hz]%ht_cleared_holds]. split; [by exists z|]. intros ->.
    apply Hzi. by eapply Hu.
  - intros [[z Hz] Hf]. exists z. apply ht_cleared_holds. split; [|done]. intros ->.
    destruct Hz as (_ & _ & _ & Ez), Hi as (_ & _ & _ & Ei). congruence.
Qed.

Lemma ht_cleared_near ht i : ht_near ht -> ht_near (ht_cleared ht i).
Proof. intros Hn z h f [_ Hz]%ht_cleared_holds. by eapply Hn. Qed.

Lemma ht_cleared_accurate ht i : ht_accurate ht -> ht_accurate (ht_cleared ht i).
Proof.
  intros [Hn He]. split; [by apply ht_cleared_near|]. intros z Hz Hv.
  unfold ht_cleared in *. destruct (decide (z = i)) as [->|Hi].
  - by rewrite lookup_total_insert_eq, hte_clear_invalid in Hv.
  - rewrite lookup_total_insert_ne in * by done. by apply He.
Qed.

Lemma ht_cleared_unique ht i : ht_unique ht -> ht_unique (ht_cleared ht i).
Proof.
  intros Hu z z' h h' f [_ Hz]%ht_cleared_holds [_ Hz']%ht_cleared_holds. by eapply Hu.
Qed.

(** The entry of a flow is cleared, wherever it is in the neighbourhood. *)
Lemma slot_clear_loop_spec h f ht n j :
  (exists i, (exists u, j <= u < j + Z.of_nat n /\ i = u32 (h + u) mod NENT)
     /\ ht_holds ht i h f /\ slot_clear_loop n j h f ht = (true, ht_cleared ht i))
  \/ ((forall u, j <= u < j + Z.of_nat n -> ~ ht_holds ht (u32 (h + u) mod NENT) h f)
      /\ slot_clear_loop n j h f ht = (false, ht)).
Proof.
  revert j. induction n as [|n IH]; intros j; [right; split; [lia|done]|].
  cbn [slot_clear_loop]. cbv zeta. set (k := u32 (h + j) mod NENT).
  assert (Hk : 0 <= k < NENT) by (by apply Z.mod_pos_bound).
  assert (Hnext : ~ ht_holds ht k h f ->
    (exists i, (exists u, j <= u < j + Z.of_nat (S n) /\ i = u32 (h + u) mod NENT)
       /\ ht_holds ht i h f /\ slot_clear_loop n (j + 1) h f ht = (true, ht_cleared ht i))
    \/ ((forall u, j <= u < j + Z.of_nat (S n) -> ~ ht_holds ht (u32 (h + u) mod NENT) h f)
        /\ slot_clear_loop n (j + 1) h f ht = (false, ht))).
  { intros Hno. destruct (IH (j + 1)) as [(i & (u & Hu & Eu) & Hi & E)|[Hall E]]; rewrite E.
    - left. exists i. split; [exists u; split; [lia|done]|done].
    - right. split; [|done]. intros u Hu. destruct (decide (u = j)) as [->|]; [done|].
      apply Hall. lia. }
  destruct ((Z.land (flow_id (ht !!! k)) FLEXNIC_PL_FLOWHTE_VALID =? 0)
            || negb (flow_hash (ht !!! k) =? h)) eqn:Eb.
  - apply Hnext. intros (_ & Hv & Hh & _). unfold hte_valid in Hv.
    apply orb_true_iff in Eb as [Eb|Eb]; [by rewrite Eb in Hv|].
    by rewrite Hh, Z.eqb_refl in Eb.
  - apply orb_false_iff in Eb as [Ev Eh]. apply negb_false_iff, Z.eqb_eq in Eh.
    destruct (Z.eqb_spec (Z.land (flow_id (ht !!! k)) POS_MASK) f) as [Ef|Ef].
    + left. exists k. split; [exists j; split; [lia|done]|]. split; [|done].
      split; [done|]. unfold hte_valid, hte_fid. rewrite Ev, Z.land_comm. by split_and!.
    + apply Hnext. intros (_ & _ & _ & Hf). unfold hte_fid in Hf. by rewrite Z.land_comm in Hf.
Qed.

Lemma slot_clear_spec h f ht :
  ht_near ht -> ht_unique ht ->
  let r := slot_clear_loop (Z.to_nat FLEXNIC_PL_FLOWHT_NBSZ) 0 h f ht in
  (r.1 = true <-> ht_flow ht h f)
  /\ (forall h' f', ht_flow r.2 h' f' <-> ht_flow ht h' f' /\ ~ (ht_flow ht h f /\ f' = f))
  /\ ht_near r.2 /\ ht_unique r.2 /\ (ht_accurate ht -> ht_accurate r.2).
Proof.
  intros Hn Hu. cbv zeta.
  destruct (slot_clear_loop_spec h f ht (Z.to_nat FLEXNIC_PL_FLOWHT_NBSZ) 0)
    as [(i & _ & Hi & E)|[Hall E]]; rewrite E; cbn [fst Datatypes.snd].
  - assert (Hf : ht_flow ht h f) by by exists i.
    split; [done|]. split.
    { intros h' f'. rewrite (ht_cleared_flow ht i h f Hu Hi). tauto. }
    split; [by apply ht_cleared_near|]. split; [by apply ht_cleared_unique|].
    apply ht_cleared_accurate.
  - assert (Hno : ~ ht_flow ht h f).
    { intros [i Hi]. pose proof (Hn i h f Hi) as [_ Hd]. pose proof (proj1 Hi) as Hr.
      apply (Hall (ht_dist h i)); [|by rewrite <- ht_idx_dist].
      unfold FLEXNIC_PL_FLOWHT_NBSZ in *. unfold ht_dist in *.
      pose proof (Z.mod_pos_bound (i - h) NENT eq_refl). lia. }
    split; [done|]. split; [intros; tauto|]. done.
Qed.

(** ** Flow ids *)

(** The free list. *)
Definition item_next (m : nicst) (x : Z) : Z :=
  default (-1) (it_next (flow_id_items m !!! x)).

Record ids_ok (m : nicst) (l : list Z) : Prop := mk_ids_ok {
  id_path : path (item_next m) (default (-1) (flow_id_freelist m)) l (-1);
  id_nodup : NoDup l;
  id_range : forall x, x ∈ l -> 0 <= x < FLEXNIC_PL_FLOWST_NUM;
  id_item : forall x, 0 <= x < FLEXNIC_PL_FLOWST_NUM -> it_flow_id (flow_id_items m !!! x) = x;
  id_links : forall x, it_next (flow_id_items m !!! x) <> Some (-1);
  id_head : flow_id_freelist m <> Some (-1) }.

Lemma flow_id_alloc_spec m l :
  ids_ok m l ->
  match l with
  | [] => flow_id_alloc m = None
  | f :: l => exists m', flow_id_alloc m = Some (f, m') /\ ids_ok m' l
      /\ flowht m' = flowht m /\ fp_flowst m' = fp_flowst m
  end.
Proof.
  intros [Hp Hnd Hr Hi Hl Hh]. unfold flow_id_alloc.
  destruct l as [|f l].
  - cbn in Hp. destruct (flow_id_freelist m) as [x|]; [cbn in Hp; congruence|done].
  - destruct Hp as [Ef Hp]. pose proof (Hr f ltac:(apply list_elem_of_here)) as Hf.
    destruct (flow_id_freelist m) as [x|] eqn:Ex; cbn in Ef; [|lia]. subst x.
    rewrite Hi by done. eexists. split; [done|]. split; [|done].
    apply NoDup_cons in Hnd as [Hnf Hnd].
    constructor; [done|done| |done|done|by apply Hl].
    intros x Hx. apply Hr. by apply list_elem_of_further.
Qed.

Lemma flow_id_free_spec m l f :
  ids_ok m l -> 0 <= f < FLEXNIC_PL_FLOWST_NUM -> f ∉ l -> ids_ok (flow_id_free f m) (f :: l).
Proof.
  intros [Hp Hnd Hr Hi Hl Hh] Hf Hn. unfold flow_id_free.
  constructor; cbn [flow_id_items flow_id_freelist setf].
  - split; [done|]. unfold item_next at 2. cbn [flow_id_items setf].
    rewrite lookup_total_insert_eq. cbn [it_next setf].
    eapply path_ext, Hp. intros x Hx. unfold item_next. cbn [flow_id_items setf].
    rewrite lookup_total_insert_ne; [done|]. by intros ->.
  - by constructor.
  - intros x [->|Hx]%elem_of_cons; [done|by apply Hr].
  - intros x Hx. destruct (decide (x = f)) as [->|]; [rewrite lookup_total_insert_eq; by apply Hi|].
    rewrite lookup_total_insert_ne by done. by apply Hi.
  - intros x. destruct (decide (x = f)) as [->|]; [by rewrite lookup_total_insert_eq|].
    rewrite lookup_total_insert_ne by done. apply Hl.
  - intros [=]. lia.
Qed.

(** After [flow_id_alloc_init] every id is free, in ascending order. *)
Definition items_upto (n : Z) (m : nicst) : Prop :=
  (forall x, 0 <= x < n -> flow_id_items m !!! x
     = mk_item x (if x + 1 <? n then Some (x + 1) else None))
  /\ (forall x, n <= x -> it_next (flow_id_items m !!! x) = None)
  /\ (forall x, x < 0 -> it_next (flow_id_items m !!! x) = None)
  /\ flow_id_freelist m = (if n =? 0 then None else Some 0).

Lemma flow_id_init_loop_spec n : forall i m,
  0 <= i -> items_upto i m ->
  items_upto (i + Z.of_nat n)
    (flow_id_init_loop n i (if i =? 0 then None else Some (i - 1)) m).
Proof.
  induction n as [|n IH]; intros i m Hi (H1 & H2 & H3 & H4).
  { cbn [flow_id_init_loop]. by replace (i + Z.of_nat 0) with i by lia. }
  cbn [flow_id_init_loop]. cbv zeta. set (m1 := m <| flow_id_items ::= <[i := mk_item i None]> |>).
  set (m2 := match (if i =? 0 then None else Some (i - 1)) with None => _ | Some p => _ end).
  replace (i + Z.of_nat (S n)) with (i + 1 + Z.of_nat n) by lia.
  replace (Some i) with (if i + 1 =? 0 then None else Some (i + 1 - 1))
    by (rewrite (proj2 (Z.eqb_neq _ _)) by lia; f_equal; lia).
  apply IH; [lia|]. unfold items_upto. rewrite (proj2 (Z.eqb_neq (i + 1) 0)) by lia.
  unfold m2. destruct (Z.eqb_spec i 0) as [->|Hi0];
    unfold m1; cbn [flow_id_items flow_id_freelist setf].
  - split_and!; [|intros x Hx..|done].
    + intros x Hx. assert (x = 0) as -> by lia. by rewrite lookup_total_insert_eq.
    + rewrite lookup_total_insert_ne by lia. apply H2. lia.
    + rewrite lookup_total_insert_ne by lia. by apply H3.
  - split_and!; [intros x Hx..|done].
    + destruct (decide (x = i - 1)) as [->|].
      { rewrite lookup_total_insert_eq, lookup_total_insert_ne, H1 by lia. cbn [it_next setf eta eta_item].
        zdecide. cbn. repeat f_equal; lia. }
      rewrite lookup_total_insert_ne by done. destruct (decide (x = i)) as [->|].
      { rewrite lookup_total_insert_eq. by zdecide. }
      rewrite lookup_total_insert_ne, H1 by lia. by zdecide.
    + rewrite !lookup_total_insert_ne by lia. apply H2. lia.
    + rewrite !lookup_total_insert_ne by lia. by apply H3.
Qed.

Lemma path_ascending nxt n i e :
  (forall x, i <= x < i + Z.of_nat n -> nxt x = if x + 1 <? i + Z.of_nat n then x + 1 else e) ->
  path nxt (if 0 <? Z.of_nat n then i else e) (seqZ i (Z.of_nat n)) e.
Proof.
  revert i. induction n as [|n IH]; intros i Hn; [done|].
  rewrite seqZ_cons by lia. replace (Z.pred (Z.of_nat (S n))) with (Z.of_nat n) by lia.
  split; [done|]. rewrite Hn by lia.
  replace (i + 1 <? i + Z.of_nat (S n)) with (0 <? Z.of_nat n) by (by zdecide).
  apply (IH (i + 1)). intros x Hx. rewrite Hn by lia. by zdecide.
Qed.

Lemma flow_id_init_loop_ht n : forall i p m, flowht (flow_id_init_loop n i p m) = flowht m.
Proof.
  induction n as [|n IH]; intros i p m; [done|]. cbn [flow_id_init_loop].
  cbv zeta. rewrite IH. by destruct p.
Qed.

Lemma items_upto_ok n m :
  n = FLEXNIC_PL_FLOWST_NUM -> items_upto n m -> ids_ok m (seqZ 0 n).
Proof.
  intros En (H1 & H2 & H3 & H4). assert (Hn : 0 < n) by (subst n; done).
  rewrite (proj2 (Z.eqb_neq n 0)) in H4 by lia. constructor.
  - rewrite H4. cbn [default]. rewrite <- (Z2Nat.id n) by lia.
    replace 0 with (if 0 <? Z.of_nat (Z.to_nat n) then 0 else -1) at 1 by (zcase; [done|lia]).
    apply path_ascending. intros x Hx. rewrite Z2Nat.id in * by lia.
    unfold item_next. rewrite H1 by lia. rewrite Z.add_0_l. cbn [it_next].
    by destruct (x + 1 <? n).
  - apply NoDup_seqZ.
  - intros x Hx. apply elem_of_seqZ in Hx. lia.
  - intros x Hx. rewrite H1 by lia. done.
  - intros x. destruct (decide (x < 0)); [by rewrite H3|].
    destruct (decide (x < n)); [|by rewrite H2 by lia].
    rewrite H1 by lia. cbn [it_next]. destruct (x + 1 <? _); [intros [=]; lia|done].
  - by rewrite H4.
Qed.

Lemma flow_id_alloc_init_ok m :
  flow_id_items m = ∅ -> flow_id_freelist m = None ->
  ids_ok (flow_id_alloc_init m) (seqZ 0 FLEXNIC_PL_FLOWST_NUM)
  /\ flowht (flow_id_alloc_init m) = flowht m.
Proof.
  intros He Hf. assert (H0 : items_upto 0 m).
  { split; [lia|]. split; [intros x _; by rewrite He|]. split; [|done]. intros x _. by rewrite He. }
  unfold flow_id_alloc_init. split; [|apply flow_id_init_loop_ht].
  apply items_upto_ok; [done|].
  assert (E : Z.of_nat (Z.to_nat FLEXNIC_PL_FLOWST_NUM) = FLEXNIC_PL_FLOWST_NUM)
    by (apply Z2Nat.id; done).
  revert E. generalize (Z.to_nat FLEXNIC_PL_FLOWST_NUM) as n. intros n E.
  pose proof (flow_id_init_loop_spec n 0 m ltac:(lia) H0) as H.
  by rewrite Z.add_0_l, E in H.
Qed.

(** ** The state of the slow path *)

(** [l] is the free list of flow ids; the installed flows have other ids. *)
Record nic_ok (m : nicst) (l : list Z) : Prop := mk_nic_ok {
  nk_ids : ids_ok m l;
  nk_near : ht_near (flowht m);
  nk_unique : ht_unique (flowht m);
  nk_flows : forall h f, ht_flow (flowht m) h f -> f ∉ l /\ 0 <= f < FLEXNIC_PL_FLOWST_NUM }.

(** Some entry of the neighbourhood of [h] is free. *)
Definition ht_room (ht : gmap Z flowhte) (h : Z) : Prop :=
  exists x, 0 <= x < 4 /\ hte_valid (ht !!! ht_idx (h mod FLEXNIC_PL_FLOWHT_ENTRIES) x) = false.

Lemma ids_ok_same m m' l :
  flow_id_items m' = flow_id_items m -> flow_id_freelist m' = flow_id_freelist m ->
  ids_ok m l -> ids_ok m' l.
Proof.
  intros E1 E2 [H1 H2 H3 H4 H5 H6]. constructor; rewrite ?E1, ?E2; try done.
  eapply path_ext, H1. intros x _. unfold item_next. by rewrite E1.
Qed.

Lemma ids_ok_none m m0 l :
  ids_ok m0 l -> flow_id_items m = flow_id_items m0 -> flow_id_freelist m = None -> ids_ok m [].
Proof.
  intros [_ _ _ H4 H5 _] E1 E2.
  constructor; rewrite ?E1, ?E2; [done|constructor|by intros x Hx%not_elem_of_nil|done|done|done].
Qed.

Lemma connection_install_ok hash init m l :
  nic_ok m l -> ht_accurate (flowht m) -> is_u32 hash ->
  exists r m' l', connection_install hash init m = Some (r, m') /\ nic_ok m' l'
  /\ (ht_room (flowht m) hash -> ht_accurate (flowht m'))
  /\ match r with
     | Some f => l = f :: l'
         /\ (forall h g, ht_flow (flowht m') h g <-> ht_flow (flowht m) h g \/ (h = hash /\ g = f))
         /\ fp_flowst m' = <[f := init (fp_flowst m !!! f)]> (fp_flowst m)
     | None => l' = l /\ (l = [] \/ ~ ht_room (flowht m) hash)
         /\ ht_same (flowht m) (flowht m') /\ fp_flowst m' = fp_flowst m
     end.
Proof.
  intros [Hi Hnear Huniq Hfl] Hacc Hh. unfold connection_install.
  pose proof (flow_id_alloc_spec m l Hi) as Ha. destruct l as [|f l].
  { rewrite Ha. exists None, m, []. split; [done|]. split; [done|]. split; [done|].
    split; [done|]. split; [by left|done]. }
  destruct Ha as (m1 & -> & Hi1 & Eht & Efs). rewrite Eht.
  destruct (flow_slot_alloc_spec hash (flowht m) Hacc Hh)
    as (r & ht & -> & Hn & Hs & Hu & Hacc' & Hr). cbn [mbind option_bind].
  assert (Hroom : ht_room (flowht m) hash -> ht = flowht m).
  { intros (x & Hx & Hv). destruct Hacc' as [->|Hfull]; [done|]. rewrite Hfull in Hv by done. done. }
  pose proof (id_range _ _ Hi f ltac:(apply list_elem_of_here)) as Hf.
  pose proof (id_nodup _ _ Hi) as [Hnf Hnd]%NoDup_cons.
  destruct r as [[i d]|].
  - destruct Hr as (Hri & -> & Hd & Hv).
    rewrite (proj2 (Z.ltb_lt i _)) by lia. cbn [cassert mbind option_bind].
    rewrite (proj2 (Z.ltb_lt (ht_dist hash i) _)) by lia. cbn [cassert mbind option_bind].
    assert (Hd4 : 0 <= ht_dist hash i < 4) by exact Hd.
    assert (Hf29 : 0 <= f < 536870912) by (unfold FLEXNIC_PL_FLOWST_NUM in Hf; lia).
    assert (Hflow : forall h g,
      ht_flow (<[i := mk_flowhte (hte_mk (ht_dist hash i) f) hash]> ht) h g
      <-> ht_flow (flowht m) h g \/ (h = hash /\ g = f)).
    { intros h g. rewrite (ht_put_flow ht i _ f hash Hd4 Hf29 Hri Hv h g). by rewrite (Hs h g). }
    eexists (Some f), _, l. split; [done|]. split; [|split].
    + constructor; cbn [flowht setf].
      * eapply ids_ok_same, Hi1; done.
      * by apply ht_put_near.
      * apply ht_put_unique; [done|done| |by apply Hu]. intros h Hin. apply Hs in Hin.
        apply Hfl in Hin as [Hin _]. apply Hin, list_elem_of_here.
      * intros h g Hg. apply Hflow in Hg as [Hg|[-> ->]]; [|done].
        apply Hfl in Hg as [Hg ?]. split; [|done]. intros Hin. apply Hg.
        by apply list_elem_of_further.
    + intros Hrm. rewrite (Hroom Hrm). cbn [flowht setf]. by apply ht_put_accurate.
    + split; [done|]. split; [exact Hflow|]. cbn [fp_flowst setf]. by rewrite Efs.
  - eexists None, _, (f :: l). split; [done|]. split; [|split].
    + constructor; cbn [flowht setf flow_id_free].
      * apply flow_id_free_spec; [eapply ids_ok_same, Hi1; done|done|done].
      * done.
      * by apply Hu.
      * intros h g Hg%Hs. by apply Hfl in Hg.
    + intros Hrm. destruct Hrm as (x & Hx & Hv). rewrite Hr in Hv by done. done.
    + split; [done|]. split; [|split; [exact Hs|]].
      * right. intros (x & Hx & Hv). rewrite Hr in Hv by done. done.
      * exact Efs.
Qed.

(** ** The initial state *)

Lemma ht_empty_holds i h f : ~ ht_holds ∅ i h f.
Proof. intros (_ & Hv & _). by rewrite lookup_total_empty in Hv. Qed.

Lemma ht_empty_ok : ht_accurate ∅ /\ ht_unique ∅ /\ forall h f, ~ ht_flow ∅ h f.
Proof.
  split_and!.
  - split; [by intros i h f Hh%ht_empty_holds|]. intros i _ Hv. by rewrite lookup_total_empty in Hv.
  - by intros i i' h h' f Hh%ht_empty_holds.
  - intros h f [i Hh]. by apply ht_empty_holds in Hh.
Qed.

(** All ids are free and no flow is installed. *)
Lemma nic_init_ok m :
  flow_id_items m = ∅ -> flow_id_freelist m = None -> flowht m = ∅ ->
  nic_ok (flow_id_alloc_init m) (seqZ 0 FLEXNIC_PL_FLOWST_NUM)
  /\ flowht (flow_id_alloc_init m) = ∅.
Proof.
  intros He Hf Ht. destruct (flow_id_alloc_init_ok m He Hf) as [Hi Hh]. rewrite Ht in Hh.
  revert Hi Hh. generalize (flow_id_alloc_init m) as m1. intros m1 Hi Hh.
  destruct ht_empty_ok as ([Hn _] & Hu & Hno). split; [|exact Hh].
  constructor; rewrite ?Hh; [exact Hi|done|done|]. intros h f Hg. by apply Hno in Hg.
Qed.

(** * Properties of flow installation

    A connection added by the slow path is found by the flow lookup of the fast path
    and starts in a state the packet handlers can work with; removing it removes
    exactly that flow; what goes wrong with entries that move twice and with flow
    state that is used again. *)

(** ** The hash *)

(** [rte_hash_crc] of DPDK takes eight bytes at a time and then the rest, and is a
    32-bit CRC. *)
Record crc_law (E : fpenv) (rte_hash_crc : list Z -> Z -> Z) : Prop := mk_crc_law {
  crc_words : forall a b, is_u64 a -> is_u32 b ->
    rte_hash_crc (le_bytes 8 a ++ le_bytes 4 b) 0
    = crc32c_sse42_u32 E b (crc32c_sse42_u64 E a 0);
  crc_range : forall l, is_u32 (rte_hash_crc l 0) }.

Lemma le_bytes_app n k x y :
  0 <= x < 256 ^ Z.of_nat n ->
  le_bytes n x ++ le_bytes k y = le_bytes (n + k) (x + y * 256 ^ Z.of_nat n).
Proof.
  revert x. induction n as [|n IH]; intros x Hx.
  - cbn. f_equal. cbn in Hx. lia.
  - rewrite Nat2Z.inj_succ, Z.pow_succ_r in * by lia. cbn [Nat.add le_bytes app].
    assert (E : (x + y * (256 * 256 ^ Z.of_nat n)) = x + (y * 256 ^ Z.of_nat n) * 256) by lia.
    rewrite E, Z.mod_add, Z.div_add by lia. f_equal. apply IH.
    split; [apply Z.div_pos; lia|apply Z.div_lt_upper_bound; lia].
Qed.

Lemma flow_hash_key_eq E crc lip lp rip rp :
  crc_law E crc -> is_u32 lip -> is_u32 rip -> is_u16 lp -> is_u16 rp ->
  flow_hash_key crc lip lp rip rp = flow_hash_of E (mk_flow_key lip rip lp rp).
Proof.
  intros [Hw _] H1 H2 H3 H4. unfold flow_hash_key, flow_hash_of.
  cbn [key_local_ip key_remote_ip key_local_port key_remote_port].
  rewrite (app_assoc (le_bytes 4 lip)).
  rewrite (le_bytes_app 4 4) by (cbn; cside). rewrite (le_bytes_app 2 2) by (cbn; cside).
  change (4 + 4)%nat with 8%nat. change (2 + 2)%nat with 4%nat. cbn [Z.of_nat Z.pow Z.pow_pos Pos.iter].
  change (256 ^ Z.of_nat 4) with 4294967296. change (256 ^ Z.of_nat 2) with 65536.
  assert (Ea : Z.lor lip (u64 (Z.shiftl rip 32)) = lip + rip * 4294967296).
  { rewrite u64_id by (rewrite Z.shiftl_mul_pow2 by lia; cside).
    rewrite Z.lor_comm, lor_shiftl_low by (change (2 ^ 32) with 4294967296; cside).
    change (2 ^ 32) with 4294967296. lia. }
  assert (Eb : Z.lor lp (u32 (Z.shiftl rp 16)) = lp + rp * 65536).
  { rewrite u32_id by (rewrite Z.shiftl_mul_pow2 by lia; cside).
    rewrite Z.lor_comm, lor_shiftl_low by (change (2 ^ 16) with 65536; cside).
    change (2 ^ 16) with 65536. lia. }
  rewrite Ea, Eb. apply Hw; cside.
Qed.

(** ** The lookup of the fast path *)

Lemma installed_flow {Q} (w : world Q) h f :
  is_u32 h -> ht_near (w_flowht w) -> installed w h f <-> ht_flow (w_flowht w) h f.
Proof.
  intros Hh Hn. split.
  - intros (i & Hi & Hv & Eh & Ef). exists (u32 (h + i) mod FLEXNIC_PL_FLOWHT_ENTRIES).
    split; [by apply Z.mod_pos_bound|]. split; [|split; [exact Eh|]].
    + unfold hte_valid. by apply negb_true_iff, Z.eqb_neq.
    + unfold hte_fid. by rewrite Z.land_comm.
  - intros [i Hi]. pose proof (Hn _ _ _ Hi) as [_ Hd]. destruct Hi as (Hr & Hv & Eh & Ef).
    exists (ht_dist h i). split.
    { pose proof (Z.mod_pos_bound (i - h) FLEXNIC_PL_FLOWHT_ENTRIES eq_refl). unfold ht_dist in *. lia. }
    cbv zeta. rewrite <- ht_idx_dist by done. split; [|split; [exact Eh|]].
    + unfold hte_valid in Hv. by apply negb_true_iff, Z.eqb_neq in Hv.
    + unfold hte_fid in Ef. by rewrite Z.land_comm in Ef.
Qed.

(** The lookup tables of a world. *)
Definition with_nic {Q} (w : world Q) (m : nicst) : world Q :=
  w <| w_flowst := fp_flowst m |> <| w_flowht := flowht m |>.

Lemma installed_nic {Q} (w : world Q) m l h f :
  nic_ok m l -> is_u32 h -> installed (with_nic w m) h f <-> ht_flow (flowht m) h f.
Proof. intros Hok Hh. by apply installed_flow; [|apply Hok]. Qed.

(** The packets of the peer of a connection. *)
Definition from_peer (a : add_args) (p : pkt_tcp) : Prop :=
  ip_dest (p_ip p) = t_beui32 (aa_out_ip_local a) /\ ip_src (p_ip p) = t_beui32 (aa_out_ip_remote a)
  /\ tcp_dest (p_tcp p) = t_beui16 (aa_port_local a)
  /\ tcp_src (p_tcp p) = t_beui16 (aa_port_remote a).

Lemma t_beui16_range x : is_u16 (t_beui16 x).
Proof. apply bswap16_range, u16_range. Qed.

Definition add_hash (crc : list Z -> Z -> Z) (a : add_args) : Z :=
  flow_hash_key crc (t_beui32 (aa_out_ip_local a)) (t_beui16 (aa_port_local a))
    (t_beui32 (aa_out_ip_remote a)) (t_beui16 (aa_port_remote a)).

Lemma from_peer_hash E crc a p :
  crc_law E crc -> from_peer a p -> fss_hash E p = add_hash crc a.
Proof.
  intros Hc (E1 & E2 & E3 & E4). unfold fss_hash, add_hash.
  rewrite (flow_hash_key_eq E crc) by (done || apply t_beui32_range || apply t_beui16_range).
  by rewrite E1, E2, E3, E4.
Qed.

(** C34: On a table with exact positions, [nicif_connection_add] fails only when there is
    no free flow id or no free entry in the neighbourhood of the hash.  Otherwise the new
    id was free, the installed flows are those from before and the new one, and the
    lookup of the fast path finds the new flow for packets of its peer, provided no flow
    that was installed before matches them.  The positions stay exact when the neighbourhood had a free entry. *)
Theorem nicif_connection_add_installs {Q} E crc a m l (w : world Q) :
  crc_law E crc -> nic_ok m l -> ht_accurate (flowht m) ->
  let h := add_hash crc a in
  exists r m' l', nicif_connection_add crc a m = Some (r, m') /\ nic_ok m' l'
  /\ (ht_room (flowht m) h -> ht_accurate (flowht m'))
  /\ match r with
     | None => l' = l /\ (l = [] \/ ~ ht_room (flowht m) h)
         /\ (forall k g, is_u32 k -> installed (with_nic w m') k g <-> installed (with_nic w m) k g)
     | Some f => l = f :: l'
         /\ (forall k g, is_u32 k -> installed (with_nic w m') k g
               <-> installed (with_nic w m) k g \/ (k = h /\ g = f))
         /\ fp_flowst m' = <[f := flow_init a (fp_flowst m !!! f)]> (fp_flowst m)
         /\ (forall p, from_peer a p ->
               (forall g, installed (with_nic w m) h g -> fss_match p (fp_flowst m !!! g) = false) ->
               fast_flows_packet_fss E (with_nic w m') [p] = [Some f])
     end.
Proof.
  intros Hc Hok Hacc. cbv zeta.
  assert (Hh : is_u32 (add_hash crc a)) by apply (crc_range _ _ Hc).
  destruct (connection_install_ok (add_hash crc a) (flow_init a) m l Hok Hacc Hh)
    as (r & m' & l' & Er & Hok' & Hacc' & Hr).
  exists r, m', l'. split; [exact Er|]. split; [done|]. split; [done|].
  assert (Hi : forall k g, is_u32 k -> installed (with_nic w m') k g <-> ht_flow (flowht m') k g)
    by (intros; by eapply installed_nic).
  assert (Hi0 : forall k g, is_u32 k -> installed (with_nic w m) k g <-> ht_flow (flowht m) k g)
    by (intros; by eapply installed_nic).
  destruct r as [f|].
  2: { destruct Hr as (El & Hf & Hs & _). split; [done|]. split; [done|].
       intros k g Hk. rewrite Hi, Hi0 by done. apply Hs. }
  destruct Hr as (El & Hfl & Efs). split; [done|].
  assert (Hinst : forall k g, is_u32 k -> installed (with_nic w m') k g
    <-> installed (with_nic w m) k g \/ (k = add_hash crc a /\ g = f)).
  { intros k g Hk. rewrite Hi, Hi0 by done. apply Hfl. }
  split; [exact Hinst|]. split; [done|]. intros p Hp Hother.
  pose proof (from_peer_hash E crc a p Hc Hp) as Eh.
  assert (Hst : forall g, w_flowst (with_nic w m') !!! g = fp_flowst m' !!! g) by done.
  assert (Hmf : fss_match p (fp_flowst m' !!! f) = true).
  { rewrite Efs, lookup_total_insert_eq. destruct Hp as (E1 & E2 & E3 & E4).
    unfold fss_match. rewrite E1, E2, E3, E4. cbn. by rewrite !Z.eqb_refl. }
  assert (Hold : forall g, installed (with_nic w m) (add_hash crc a) g ->
    fss_match p (fp_flowst m' !!! g) = false).
  { intros g Hg. rewrite Efs, lookup_total_insert_ne; [by apply Hother|].
    intros <-. apply Hi0 in Hg; [|done]. apply (nk_flows _ _ Hok) in Hg as [Hg _].
    apply Hg. rewrite El. apply list_elem_of_here. }
  assert (Hfss : fast_flows_packet_fss E (with_nic w m') [p] !! 0%nat = Some (Some f)).
  { apply (fast_flows_packet_fss_exact E (with_nic w m') [p] 0 p eq_refl).
    - rewrite Eh. intros g1 g2 H1 H2 M1 M2. rewrite Hst in M1, M2.
      apply Hinst in H1 as [H1|[_ ->]]; [|apply Hinst in H2 as [H2|[_ ->]]; [|done|done]|done].
      + rewrite Hold in M1 by done. done.
      + rewrite Hold in M2 by done. done.
    - rewrite Eh. split; [|by rewrite Hst]. apply Hinst; [done|]. by right. }
  revert Hfss. unfold fast_flows_packet_fss. cbn. congruence.
Qed.

Lemma land_slowpath x k :
  Z.land FLEXNIC_PL_FLOWST_SLOWPATH k = 0 ->
  Z.land (Z.lor x FLEXNIC_PL_FLOWST_SLOWPATH) k = Z.land x k.
Proof. intros E. by rewrite Z.land_lor_distr_l, E, Z.lor_0_r. Qed.

(** The state after [nicif_connection_disable]. *)
Definition disabled (f : Z) (m : nicst) (ht : gmap Z flowhte) : nicst :=
  let fs := fp_flowst m !!! f in
  m <| fp_flowst ::= <[f := fs <| rx_base_sp := Z.lor (rx_base_sp fs) FLEXNIC_PL_FLOWST_SLOWPATH |>
                             <| lock := 0 |>]> |> <| flowht := ht |>.

Lemma disabled_fs f m ht : fp_flowst (disabled f m ht) !!! f
  = (fp_flowst m !!! f) <| rx_base_sp := Z.lor (rx_base_sp (fp_flowst m !!! f)) FLEXNIC_PL_FLOWST_SLOWPATH |>
                     <| lock := 0 |>.
Proof. unfold disabled. cbv zeta. cbn [fp_flowst setf]. by rewrite lookup_total_insert_eq. Qed.

Lemma disable_eq crc f m :
  let fs := fp_flowst m !!! f in
  let h := flow_hash_key crc (out_local_ip fs) (local_port fs) (out_remote_ip fs) (remote_port fs) in
  nicif_connection_disable crc f m
  = ((tx_next_seq fs, rx_next_seq fs,
      negb (Z.land (rx_base_sp fs) FLEXNIC_PL_FLOWST_TXFIN =? 0) && (tx_sent fs =? 0),
      negb (Z.land (rx_base_sp fs) FLEXNIC_PL_FLOWST_RXFIN =? 0)),
     disabled f m (slot_clear_loop (Z.to_nat FLEXNIC_PL_FLOWHT_NBSZ) 0 h f (flowht m)).2).
Proof.
  cbv zeta. unfold nicif_connection_disable, flow_slot_clear, disabled.
  change VIRTUOSO_GRE with false. cbv iota zeta.
  cbn [out_local_ip local_port out_remote_ip remote_port tunnel_id tx_next_seq rx_next_seq
       tx_sent rx_base_sp setf].
  rewrite !land_slowpath by done. by destruct (slot_clear_loop _ 0 _ f (flowht m)).
Qed.

(** C35: removing a flow that is installed under the hash of its addresses removes that flow
    from the lookup of the fast path and no other flow; the flow is marked for the slow
    path, its sequence numbers are returned, and its id stays allocated until
    [nicif_connection_free]. *)
Theorem nicif_connection_disable_removes {Q} crc m l f (w : world Q) :
  (forall k, is_u32 (crc k 0)) -> nic_ok m l ->
  let fs := fp_flowst m !!! f in
  let h := flow_hash_key crc (out_local_ip fs) (local_port fs) (out_remote_ip fs) (remote_port fs) in
  installed (with_nic w m) h f ->
  let r := nicif_connection_disable crc f m in
  r.1 = (tx_next_seq fs, rx_next_seq fs,
         negb (Z.land (rx_base_sp fs) FLEXNIC_PL_FLOWST_TXFIN =? 0) && (tx_sent fs =? 0),
         negb (Z.land (rx_base_sp fs) FLEXNIC_PL_FLOWST_RXFIN =? 0))
  /\ nic_ok r.2 l /\ (ht_accurate (flowht m) -> ht_accurate (flowht r.2))
  /\ (forall k g, is_u32 k ->
        installed (with_nic w r.2) k g <-> installed (with_nic w m) k g /\ g <> f)
  /\ Z.land (rx_base_sp (fp_flowst r.2 !!! f)) FLEXNIC_PL_FLOWST_SLOWPATH <> 0
  /\ nic_ok (nicif_connection_free f r.2) (f :: l).
Proof.
  intros Hc Hok. cbv zeta. set (fs := fp_flowst m !!! f). set (h := flow_hash_key _ _ _ _ _).
  intros Hin. assert (Hh : is_u32 h) by apply Hc.
  apply (installed_nic w m l) in Hin; [|done..].
  rewrite disable_eq. cbv zeta. fold fs h. cbn [fst Datatypes.snd].
  destruct (slot_clear_spec h f (flowht m) (nk_near _ _ Hok) (nk_unique _ _ Hok))
    as (_ & Hfl & Hn & Hu & Ha).
  set (ht := (slot_clear_loop _ 0 h f (flowht m)).2) in *.
  assert (Hfl' : forall k g, ht_flow ht k g <-> ht_flow (flowht m) k g /\ g <> f).
  { intros k g. rewrite Hfl. tauto. }
  pose proof (nk_flows _ _ Hok h f Hin) as [Hfr Hff].
  assert (Hok' : nic_ok (disabled f m ht) l).
  { constructor; [|exact Hn|exact Hu|].
    - eapply ids_ok_same, Hok; done.
    - intros k g Hg. apply (nk_flows _ _ Hok k g). by apply Hfl'. }
  split; [done|]. split; [exact Hok'|]. split; [exact Ha|]. split; [|split].
  - intros k g Hk. etransitivity; [exact (installed_nic w (disabled f m ht) l k g Hok' Hk)|].
    etransitivity; [exact (Hfl' k g)|].
    split; intros [Hg ?]; (split; [|done]); by apply (installed_nic w m l k g Hok Hk).
  - rewrite disabled_fs. cbn [rx_base_sp setf]. rewrite Z.land_lor_distr_l.
    intros E. by apply Z.lor_eq_0_iff in E as [_ E].
  - constructor; [|exact Hn|exact Hu|].
    + by apply flow_id_free_spec; [apply Hok'| |].
    + intros k g Hg. apply Hfl' in Hg as [Hg Hgf].
      apply (nk_flows _ _ Hok) in Hg as [Hg ?]. split; [|done].
      intros [->|Hin']%elem_of_cons; done.
Qed.

(** ** Handing a connection to the fast path *)

(** The buffers of the new connection: not empty, aligned, within the shared memory. *)
Record args_ok (E : fpenv) (a : add_args) : Prop := mk_args_ok {
  ao_rx : 0 < aa_rx_len a <= 1073741824;
  ao_tx : 0 < aa_tx_len a <= 1073741824;
  ao_align : Z.land (aa_rx_base a) FLEXNIC_PL_FLOWST_RX_MASK = aa_rx_base a;
  ao_rx_base : 0 <= aa_rx_base a /\ aa_rx_base a + aa_rx_len a <= vm_shm_len E;
  ao_tx_base : 0 <= aa_tx_base a /\ aa_tx_base a + aa_tx_len a <= vm_shm_len E;
  ao_shm : vm_shm_len E < 18446744073709551616;
  ao_rseq : is_u32 (aa_remote_seq a);
  ao_lseq : is_u32 (aa_local_seq a);
  ao_rate : is_u32 (aa_rate a);
  ao_vm : 0 <= aa_vm_id a < FLEXNIC_PL_VMST_NUM }.

Lemma connection_install_fs hash init m f m' :
  connection_install hash init m = Some (Some f, m') ->
  fp_flowst m' = <[f := init (fp_flowst m !!! f)]> (fp_flowst m).
Proof.
  unfold connection_install. destruct (flow_id_alloc m) as [[g m1]|] eqn:Ea; [|done].
  assert (Efs : fp_flowst m1 = fp_flowst m).
  { revert Ea. unfold flow_id_alloc. destruct (flow_id_freelist m); [|done]. by intros [= _ <-]. }
  intros H. cstep H. destruct p as [[[i d]|] ht]; cstep H. cbn [fp_flowst setf]. by rewrite Efs.
Qed.

Lemma flow_init_base a fs :
  Z.land (aa_rx_base a) FLEXNIC_PL_FLOWST_RX_MASK = aa_rx_base a ->
  rx_base (flow_init a fs) = aa_rx_base a.
Proof.
  intros Hal. unfold rx_base. change (rx_base_sp (flow_init a fs)) with (ecn_base a).
  unfold ecn_base. destruct (_ =? _); [|done]. rewrite Z.land_lor_distr_l, Hal.
  apply Z.lor_0_r.
Qed.

(** The flow starts with nothing sent and nothing received. *)
Lemma flow_init_ok {Q} E (w : world Q) f a fs app peer :
  args_ok E a -> rx_ooo_len fs = 0 -> w_flowst w !!! f = flow_init a fs ->
  let c := mk_conn_cfg (aa_local_seq a) (aa_remote_seq a) app peer in
  conn_ok E (fun _ => c) w f (FastPath.mk_conn (mk_snd 0 0 0) 0).
Proof.
  intros [] Ho Ef. cbv zeta. pose proof (flow_init_base a fs ao_align0) as Eb.
  set (fi := flow_init a fs) in *.
  assert (E1 : rx_len fi = aa_rx_len a) by done. assert (E2 : tx_len fi = aa_tx_len a) by done.
  assert (E3 : tx_base fi = aa_tx_base a) by done. assert (E4 : vm_id fi = aa_vm_id a) by done.
  assert (E5 : rx_next_seq fi = aa_remote_seq a) by done.
  assert (E6 : rx_avail fi = aa_rx_len a) by done.
  assert (E7 : rx_remote_avail fi = aa_rx_len a) by done.
  assert (E8 : tx_rate fi = aa_rate a) by done.
  assert (E9 : tx_next_seq fi = aa_local_seq a) by done.
  assert (E10 : rx_ooo_len fi = 0) by done.
  constructor; cbn [c_snd c_rcv cc_isn cc_irs cc_app cc_peer]; rewrite ?Ef.
  - constructor; rewrite ?Ef.
    + constructor; rewrite ?E1, ?E5, ?E6; [done|lia| |done|by left].
      change (rx_next_pos fi) with 0. lia.
    + unfold rx_buf_ok. rewrite Eb, E1. lia.
    + intros i Hi. rewrite E10 in Hi. lia.
    + constructor; rewrite ?E2, ?E9; cbn [s_una s_nxt s_end].
      * done.
      * unfold snd_wf. cbn [s_una s_nxt s_end]. lia.
      * done.
      * done.
      * by rewrite Z.add_0_r, u32_id.
      * by rewrite Z.mod_0_l by lia.
    + constructor; rewrite ?E4, ?E7, ?E8; [cside|done|done].
    + done.
  - by rewrite E5, Z.add_0_r, u32_id.
  - unfold tx_buf_ok. rewrite E2, E3. lia.
  - intros k Hk. cbn [s_una s_end c_snd] in Hk. lia.
Qed.

Lemma conn_ok_cfg {Q} E cfg cfg' (w : world Q) f c :
  cfg' f = cfg f -> conn_ok E cfg w f c -> conn_ok E cfg' w f c.
Proof. intros Ec [K1 K2 K3 K4]. constructor; rewrite ?Ec; done. Qed.

(** C33: when [nicif_connection_add] adds flow [f] to a running fast path, the invariant of
    the fast path also holds for the new flow, with empty streams in both directions that
    start at the given sequence numbers, and it still holds for the flows that run already.
    This needs a flow state without an out-of-order interval left from an earlier
    connection, and buffers that no other flow uses. *)
Theorem nicif_connection_add_sys_ok {Q} `{QmanLaws Q} E cfg F (w : world Q) C
    crc a m m' f app peer :
  sys_ok E cfg F w C -> w_flowst w = fp_flowst m ->
  nicif_connection_add crc a m = Some (Some f, m') ->
  f ∉ F -> args_ok E a -> rx_ooo_len (fp_flowst m !!! f) = 0 ->
  (forall g, g ∈ f :: F -> apart (with_nic w m') f g /\ apart (with_nic w m') g f) ->
  sys_ok E (fupd cfg f (mk_conn_cfg (aa_local_seq a) (aa_remote_seq a) app peer)) (f :: F)
    (with_nic w m') (fupd C f (FastPath.mk_conn (mk_snd 0 0 0) 0)).
Proof.
  intros [Hc Hap Hq] Ew Ea Hf Ha Ho Hnew. pose proof (connection_install_fs _ _ _ _ _ Ea) as Efs.
  assert (Hold : forall g, g <> f ->
    w_flowst (with_nic w m') !! g = w_flowst w !! g).
  { intros g Hg. cbn [with_nic w_flowst setf]. rewrite Efs, Ew. by rewrite lookup_insert_ne. }
  constructor.
  - intros g [->|Hg]%elem_of_cons.
    + rewrite fupd_eq. eapply conn_ok_cfg; [|apply (flow_init_ok E _ f a _ app peer Ha Ho)].
      * by rewrite fupd_eq.
      * cbn [with_nic w_flowst setf]. by rewrite Efs, lookup_total_insert_eq.
    + assert (Hgf : g <> f) by congruence. rewrite fupd_ne by done.
      apply (conn_ok_cfg E cfg); [by rewrite fupd_ne|].
      exact (conn_ok_frame E cfg w (with_nic w m') g (C g) (Hold g Hgf) (fun _ _ => eq_refl) (Hc g Hg)).
  - intros g1 g2 [->|H1]%elem_of_cons H2; [by apply Hnew|].
    apply elem_of_cons in H2 as [->|H2]; [apply Hnew; by apply list_elem_of_further|].
    eapply (apart_static w); [..|by apply Hap]; rewrite !lookup_total_alt, Hold; congruence.
  - exact Hq.
Qed.

(** ** Faults *)

(** A hash for the examples: it adds the words of the key. *)
Fixpoint le_num (l : list Z) : Z :=
  match l with [] => 0 | b :: l => b + 256 * le_num l end.
Definition ex_crc (l : list Z) (init : Z) : Z :=
  u32 (le_num (drop 8 l) + u32 (le_num (take 8 l) + init)).

Lemma le_num_bytes n x : 0 <= x < 256 ^ Z.of_nat n -> le_num (le_bytes n x) = x.
Proof.
  revert x. induction n as [|n IH]; intros x Hx; [cbn in *; lia|].
  rewrite Nat2Z.inj_succ, Z.pow_succ_r in Hx by lia. cbn [le_bytes le_num].
  rewrite IH; [Z.div_mod_to_equations; lia|].
  split; [apply Z.div_pos; lia|apply Z.div_lt_upper_bound; lia].
Qed.

Lemma ex_crc_law : crc_law ex_env ex_crc.
Proof.
  constructor; [|intros l; apply u32_range]. intros a b Ha Hb. unfold ex_crc.
  change (drop 8 (le_bytes 8 a ++ le_bytes 4 b)) with (le_bytes 4 b).
  change (take 8 (le_bytes 8 a ++ le_bytes 4 b)) with (le_bytes 8 a).
  rewrite !le_num_bytes; [done|..]; cbn; cside.
Qed.

(** A connection whose hash is [h] under [ex_crc]. *)
Definition ex_add (h peer : Z) : add_args :=
  mk_add_args 0 0 0 0 0 (bswap32 h) (bswap32 peer) 0 0 0 0 8192 1024 12288 1024 5000 1004 0 0
    10000 0.

(** The free list of the first [n] ids. *)
Definition ex_nic (n : Z) : nicst :=
  mk_nicst (list_to_map (map (fun i => (i, mk_item i (if i + 1 <? n then Some (i + 1) else None)))
                           (seqZ 0 n))) (Some 0) ∅ ∅.

Fixpoint add_all (l : list add_args) (m : nicst) : option (list (option Z) * nicst) :=
  match l with
  | [] => Some ([], m)
  | a :: l =>
      '(r, m) ← nicif_connection_add ex_crc a m;
      '(rs, m) ← add_all l m;
      Some (r :: rs, m)
  end.

(** An example of the position field that [flow_slot_alloc] does not update: ten connections
    with hashes chosen for it are all added successfully, and the first one is moved twice, to
    a distance of 6 from its home position.  It is still in the table, but the lookup of the
    fast path does not find it any more, and [nicif_connection_disable] does not remove it. *)
Theorem flow_slot_alloc_moves_twice :
  let a := ex_add 4 100 in
  let p := ex_pkt 16 5000 1004 TAS_TCP_ACK in
  let p := p <| p_ip ::= fun i => i <| ip_dest := 4 |> <| ip_src := 100 |> |>
             <| p_tcp ::= fun t => t <| tcp_dest := 0 |> <| tcp_src := 0 |> |> in
  exists m0 m,
    add_all [a] (ex_nic 16) = Some ([Some 0], m0)
    /\ fast_flows_packet_fss ex_env (with_nic (ex_world 0 0 0) m0) [p] = [Some 0]
    /\ add_all (map (fun h => ex_add h 0) [1; 2; 3; 5; 6; 1; 8; 9; 6]) m0
       = Some (map Some [1; 2; 3; 4; 5; 6; 7; 8; 9], m)
    /\ ht_holds (flowht m) 10 4 0
    /\ fast_flows_packet_fss ex_env (with_nic (ex_world 0 0 0) m) [p] = [None]
    /\ flowht (nicif_connection_disable ex_crc 0 m).2 = flowht m.
Proof.
  cbv zeta.
  destruct (add_all [ex_add 4 100] (ex_nic 16)) as [[r0 m0]|] eqn:E0; [|by vm_compute in E0].
  vm_compute in E0. injection E0 as <- <-.
  match goal with |- context [Some ([Some 0], ?x)] => exists x end.
  match goal with |- exists m, _ /\ _ /\ ?o = _ /\ _ => let v := eval vm_compute in o in
    lazymatch v with Some (_, ?x) => exists x end end.
  split; [done|]. split; [vm_compute; reflexivity|]. split; [vm_compute; reflexivity|].
  split; [split_and!; vm_compute; intuition congruence|].
  split; vm_compute; reflexivity.
Qed.

(** The out-of-order interval of the flow state is not reset when an id is used again:
    a new connection takes over the interval of the previous one, and the first segment of
    16 bytes makes the fast path acknowledge 26 bytes, 10 of which were never sent. *)
Theorem nicif_connection_add_stale_ooo :
  let w := ex_world 0 10 0 in
  let m := mk_nicst {[ 3 := mk_item 3 None ]} (Some 3) ∅ (w_flowst w) in
  exists m' w' ret, nicif_connection_add ex_crc (ex_add 4 100) m = Some (Some 3, m')
  /\ rx_next_seq (fp_flowst m' !!! 3) = 5000
  /\ sg_payload_bytes (tcp_seg ex_p 0) = 16
  /\ fast_flows_packet ex_env (with_nic w m') ex_rxbuf ex_p 3 0 false 10 = Some (w', ret)
  /\ rx_next_seq (w_flowst w' !!! 3) = 5026.
Proof.
  cbv zeta. set (w := ex_world 0 10 0). set (m := mk_nicst _ _ _ _).
  assert (Hp : (fun r : option Z * nicst => (r.1, rx_next_seq (fp_flowst r.2 !!! 3),
      (fun q : world qman_thread * Z => rx_next_seq (w_flowst q.1 !!! 3))
        <$> fast_flows_packet ex_env (with_nic w r.2) ex_rxbuf ex_p 3 0 false 10))
    <$> nicif_connection_add ex_crc (ex_add 4 100) m = Some (Some 3, 5000, Some 5026))
    by (vm_compute; reflexivity).
  apply fmap_Some in Hp as ([r m'] & Er & Hp). cbn [fst Datatypes.snd] in Hp.
  injection Hp as E1 E2 E3. subst r. symmetry in E3.
  apply fmap_Some in E3 as ([w' ret] & Ew & E3). exists m', w', ret.
  split; [exact Er|]. split; [done|]. split; [vm_compute; reflexivity|]. split; [exact Ew|done].
Qed.

(** ** Witnesses *)

Definition nic_start : nicst := flow_id_alloc_init (mk_nicst ∅ None ∅ ∅).

Lemma nic_start_ok : nic_ok nic_start (seqZ 0 FLEXNIC_PL_FLOWST_NUM) /\ flowht nic_start = ∅.
Proof. by apply nic_init_ok. Qed.
#[local] Opaque nic_start.

Lemma nicif_connection_add_installs_witness : exists f m',
  nicif_connection_add ex_crc (ex_add 4 100) nic_start = Some (Some f, m')
  /\ forall p, from_peer (ex_add 4 100) p ->
       fast_flows_packet_fss ex_env (with_nic (ex_world 0 0 0) m') [p] = [Some f].
Proof.
  destruct nic_start_ok as [Hok Hht]. destruct ht_empty_ok as (Hacc & _ & Hno).
  assert (Ha : ht_accurate (flowht nic_start)) by (rewrite Hht; exact Hacc).
  destruct (nicif_connection_add_installs ex_env ex_crc (ex_add 4 100) nic_start _ (ex_world 0 0 0)
    ex_crc_law Hok Ha) as (r & m' & l' & E & _ & _ & Hr).
  destruct r as [f|].
  - exists f, m'. split; [exact E|]. destruct Hr as (_ & _ & _ & Hr). intros p Hp.
    apply (Hr p Hp). intros g Hg. exfalso.
    pose proof (proj1 (installed_nic _ nic_start _ _ g Hok (crc_range _ _ ex_crc_law _)) Hg) as Hf.
    rewrite Hht in Hf. by apply Hno in Hf.
  - exfalso. destruct Hr as (_ & [Hl|Hroom] & _).
    + rewrite seqZ_cons in Hl by (unfold FLEXNIC_PL_FLOWST_NUM; lia). discriminate Hl.
    + apply Hroom. rewrite Hht. exists 0. split; [lia|]. by rewrite lookup_total_empty.
Defined.

(** One installed flow. *)
Definition nic_one : nicst :=
  mk_nicst (flow_id_items nic_start) None {[ 4 := mk_flowhte (hte_mk 0 3) 4 ]}
    {[ 3 := flow_init (ex_add 4 100) flowst_zero ]}.

Lemma nic_one_holds i h f : ht_holds (flowht nic_one) i h f <-> i = 4 /\ h = 4 /\ f = 3.
Proof.
  change (flowht nic_one) with ({[ 4 := mk_flowhte (hte_mk 0 3) 4 ]} : gmap Z flowhte).
  unfold ht_holds. destruct (decide (i = 4)) as [->|Hi].
  - rewrite lookup_total_singleton_eq. split; [|by intros (_ & -> & ->)].
    intros (_ & _ & <- & <-). done.
  - rewrite lookup_total_singleton_ne by done. split; [by intros (_ & [=] & _)|tauto].
Qed.

Lemma nic_one_ok : nic_ok nic_one [].
Proof.
  destruct nic_start_ok as [[Hi _ _ _] _]. constructor.
  - exact (ids_ok_none nic_one nic_start _ Hi eq_refl eq_refl).
  - intros i h f (-> & -> & ->)%nic_one_holds. split; [unfold is_u32; lia|done].
  - intros i i' h h' f (-> & _)%nic_one_holds (-> & _)%nic_one_holds. done.
  - intros h f [i (_ & _ & ->)%nic_one_holds]. split; [apply not_elem_of_nil|].
    unfold FLEXNIC_PL_FLOWST_NUM. lia.
Qed.

Lemma nicif_connection_disable_removes_witness :
  let r := nicif_connection_disable ex_crc 3 nic_one in
  r.1 = (1004, 5000, false, false)
  /\ forall k g, is_u32 k -> installed (with_nic (ex_world 0 0 0) r.2) k g
       <-> installed (with_nic (ex_world 0 0 0) nic_one) k g /\ g <> 3.
Proof.
  destruct (nicif_connection_disable_removes ex_crc nic_one [] 3 (ex_world 0 0 0)
    (crc_range _ _ ex_crc_law) nic_one_ok) as (E & _ & _ & H & _).
  - apply (installed_nic _ _ _ _ _ nic_one_ok); [vm_compute; intuition congruence|].
    exists 4. apply nic_one_holds. split_and!; vm_compute; reflexivity.
  - split; [exact E|exact H].
Defined.

Lemma nicif_connection_add_sys_ok_witness :
  let m := mk_nicst {[ 5 := mk_item 5 None ]} (Some 5) ∅ (w_flowst (ex_world 0 0 0)) in
  exists m', nicif_connection_add ex_crc (ex_add 4 100) m = Some (Some 5, m')
  /\ sys_ok ex_env (fupd ex_cfg 5 (mk_conn_cfg 1004 5000 (fun _ => 7) (fun _ => 9))) [5; 3]
       (with_nic (ex_world 0 0 0) m') (fupd Examples.ex_conn 5 (FastPath.mk_conn (mk_snd 0 0 0) 0)).
Proof.
  cbv zeta. set (m := mk_nicst _ _ _ _).
  destruct (nicif_connection_add ex_crc (ex_add 4 100) m) as [[r m']|] eqn:E;
    [|vm_compute in E; discriminate E].
  vm_compute in E. injection E as <- <-. eexists. split; [reflexivity|].
  apply (nicif_connection_add_sys_ok ex_env ex_cfg [3] (ex_world 0 0 0) Examples.ex_conn ex_crc
           (ex_add 4 100) m _ 5 (fun _ => 7) (fun _ => 9)
           (ex_sys_ok 0 0 0 (or_introl eq_refl) (or_introl eq_refl)) eq_refl).
  - vm_compute. reflexivity.
  - intros H%list_elem_of_singleton. discriminate H.
  - constructor; vm_compute; intuition congruence.
  - reflexivity.
  - intros g Hg. repeat (apply elem_of_cons in Hg as [->|Hg]); [..|by apply not_elem_of_nil in Hg].
    + split; vm_compute; intuition congruence.
    + split; vm_compute; intuition congruence.
Defined.
