(* ===== verification/SpState.v ===== *)
(** * State of the slow path

    The global state the connection management, ARP and the application interface
    share: the structs of tas/slow/appif.h, include/kernel_appif.h, tas/slow/arp.c and
    tas/slow/tcp.c, one record for the global variables, and the queue of packets to the
    fast path. *)

From S2P Require Import Prelude FpTypes SpTypes Links PacketMem Cc NicFlow.
From S2P Require Import Timeout.

(** ** Packets the slow path sends *)

Record arp_hdr : Type := mk_arp {
  htype : Z; ptype : Z; hlen : Z; plen : Z; oper : Z; sha : Z; spa : Z; tha : Z; tpa : Z }.
#[export] Instance eta_arp : Eta arp_hdr := fun r =>
  mk_arp (htype r) (ptype r) (hlen r) (plen r) (oper r) (sha r) (spa r) (tha r) (tpa r).
Record pkt_arp : Type := mk_pkt_arp { a_eth : eth_hdr; a_arp : arp_hdr }.

(** A packet with its length and whether [nicif_tx_send] asks for no time stamp. *)
Inductive tx_pkt : Type :=
| TxTcp (p : pkt_tcp) (len : Z)
| TxGre (p : pkt_gre) (len : Z)
| TxArp (p : pkt_arp).

(** ** ARP and routing *)

(** [compl]: the connections that wait for the entry, linked through [comp->el.next]. *)
Record arp_entry : Type := mk_ae {
  ae_status : Z; ae_ip : Z; ae_mac : Z; ae_compl : list Z; ae_timeout : Z;
  ae_prev : Z; ae_next : Z }.
#[export] Instance eta_ae : Eta arp_entry := fun r =>
  mk_ae (ae_status r) (ae_ip r) (ae_mac r) (ae_compl r) (ae_timeout r) (ae_prev r) (ae_next r).
#[export] Instance ae_inhabited : Inhabited arp_entry := populate (mk_ae 0 0 0 [] 0 0 0).

Record routing_table_entry : Type := mk_rte { dest_ip : Z; dest_mask : Z; next_hop : Z }.

(** ** Queues between applications and the slow path *)

Inductive kernel_appout : Type :=
| APPOUT_INVALID
| APPOUT_CONN_OPEN (opaque remote_ip flags remote_port : Z)
| APPOUT_CONN_CLOSE (opaque out_remote_ip out_local_ip in_remote_ip in_local_ip tunnel_id
    remote_port local_port flags : Z)
| APPOUT_CONN_MOVE (opaque out_remote_ip out_local_ip in_remote_ip in_local_ip tunnel_id
    remote_port local_port db_id : Z)
| APPOUT_LISTEN_MOVE (opaque local_port db_id : Z)
| APPOUT_LISTEN_OPEN (opaque backlog local_port flags : Z)
| APPOUT_LISTEN_CLOSE (opaque local_port : Z)
| APPOUT_ACCEPT_CONN (listen_opaque conn_opaque local_port : Z)
| APPOUT_REQ_SCALE (num_cores : Z)
| APPOUT_FORK.

Record conn_opened_info : Type := mk_coi {
  coi_rx_off : Z; coi_tx_off : Z; coi_rx_len : Z; coi_tx_len : Z; coi_seq_rx : Z;
  coi_seq_tx : Z; coi_out_remote_ip : Z; coi_out_local_ip : Z; coi_in_local_ip : Z;
  coi_local_port : Z; coi_tunnel_id : Z; coi_flow_id : Z; coi_fn_core : Z }.

Record accept_conn_info : Type := mk_aci {
  aci_rx_off : Z; aci_tx_off : Z; aci_rx_len : Z; aci_tx_len : Z; aci_seq_rx : Z;
  aci_seq_tx : Z; aci_tunnel_id : Z; aci_out_local_ip : Z; aci_out_remote_ip : Z;
  aci_in_local_ip : Z; aci_in_remote_ip : Z; aci_remote_port : Z; aci_flow_id : Z;
  aci_fn_core : Z }.

Inductive appin_status : Type :=
| STATUS_CONN_CLOSE | STATUS_CONN_MOVE | STATUS_LISTEN_OPEN | STATUS_LISTEN_MOVE.

(** Fields that are not written are left out: the information about a connection when
    the status is not 0, the tunnel and inner address without GRE. *)
Inductive kernel_appin : Type :=
| APPIN_INVALID
| APPIN_STATUS (type : appin_status) (opaque status : Z)
| APPIN_CONN_OPENED (opaque status : Z) (info : option conn_opened_info)
| APPIN_LISTEN_NEWCONN (opaque remote_ip remote_port : Z) (gre : option (Z * Z))
| APPIN_ACCEPTED_CONN (opaque status : Z) (info : option accept_conn_info).
#[export] Instance appout_inhabited : Inhabited kernel_appout := populate APPOUT_INVALID.
#[export] Instance appin_inhabited : Inhabited kernel_appin := populate APPIN_INVALID.

(** ** Applications *)

Record app_context : Type := mk_actx {
  ac_app : Z; kin : gmap Z kernel_appout; kin_len : Z; kin_pos : Z;
  kout : gmap Z kernel_appin; kout_len : Z; kout_pos : Z;
  ac_doorbell : Z; ac_evfd : Z; ac_next : Z }.
#[export] Instance eta_actx : Eta app_context := fun r =>
  mk_actx (ac_app r) (kin r) (kin_len r) (kin_pos r) (kout r) (kout_len r) (kout_pos r)
    (ac_doorbell r) (ac_evfd r) (ac_next r).
#[export] Instance actx_inhabited : Inhabited app_context :=
  populate (mk_actx 0 ∅ 0 0 ∅ 0 0 0 0 0).

(** [forked_ctxs]: the contexts of the list, first to last. *)
Record application : Type := mk_app {
  forked_ctxs : list Z; app_contexts : Z; app_conns : Z; app_listeners : Z;
  ap_id : Z; ap_vm_id : Z }.
#[export] Instance eta_app : Eta application := fun r =>
  mk_app (forked_ctxs r) (app_contexts r) (app_conns r) (app_listeners r) (ap_id r) (ap_vm_id r).
#[export] Instance app_inhabited : Inhabited application := populate (mk_app [] 0 0 0 0 0).

(** ** TCP *)

(** A packet in a backlog slot. *)
Inductive sp_pkt : Type := SpTcp (p : pkt_tcp) | SpGre (p : pkt_gre).

Record backlog_slot : Type := mk_bls { bl_pkt : sp_pkt; bl_len : Z; bl_core : Z; bl_fg : Z }.
Definition pkt_tcp_zero : pkt_tcp :=
  mk_pkt_tcp (mk_eth 0 0 0) (mk_ip 0 0 0 0 0 0 0 0 0 0) (mk_tcp 0 0 0 0 0 0 0 0) (fun _ => 0).
#[export] Instance bls_inhabited : Inhabited backlog_slot :=
  populate (mk_bls (SpTcp pkt_tcp_zero) 0 0 0).

Record listener : Type := mk_listener {
  ls_opaque : Z; ls_ctx : Z; ls_app_next : Z; ls_db_id : Z;
  backlog_len : Z; backlog_pos : Z; backlog_used : Z; backlog : gmap Z backlog_slot;
  wait_conns : Z; wait_conns_last : Z; ls_port : Z; ls_flags : Z }.
#[export] Instance eta_listener : Eta listener := fun r =>
  mk_listener (ls_opaque r) (ls_ctx r) (ls_app_next r) (ls_db_id r)
    (backlog_len r) (backlog_pos r) (backlog_used r) (backlog r)
    (wait_conns r) (wait_conns_last r) (ls_port r) (ls_flags r).
#[export] Instance listener_inhabited : Inhabited listener :=
  populate (mk_listener 0 0 0 0 0 0 0 ∅ 0 0 0 0).

(** An entry of [ports]: the pointer with its two type bits. *)
Inductive port_entry : Type :=
| PORT_UNUSED | PORT_LISTEN (l : Z) | PORT_LMULTI (lm : Z) | PORT_CONN (c : Z).
#[export] Instance port_inhabited : Inhabited port_entry := populate PORT_UNUSED.

(** ** The global variables

    [s_cc] holds the connections and the lists of congestion control.  The flow states
    the fast path works on are those of [s_nic].  [conn_async_q] is the FIFO queue of
    completions, [listen_multis] the listeners of a [listen_multi].  [tx_free] is the
    number of free entries of the queue to the fast path, [tx_sent] what was sent, last
    first.  [s_now] is the clock of the timeout manager. *)
Record spst : Type := mk_spst {
  s_cc : ccst; s_nic : nicst; s_pm : pmem; s_tm : timeout_manager; s_rng : Z;
  arp_heap : gmap Z arp_entry; arp_table : Z; routing_table : list routing_table_entry;
  ports : gmap Z port_entry; port_eph_hint : Z; conn_async_q : list Z;
  tcp_hashtable : gmap Z Z; listeners : gmap Z listener; listen_multis : gmap Z (list Z);
  s_apps : gmap Z application; s_ctxs : gmap Z app_context;
  tx_free : Z; tx_sent : list tx_pkt; s_now : Z; cur_ts : Z }.
#[export] Instance eta_spst : Eta spst := fun r =>
  mk_spst (s_cc r) (s_nic r) (s_pm r) (s_tm r) (s_rng r)
    (arp_heap r) (arp_table r) (routing_table r)
    (ports r) (port_eph_hint r) (conn_async_q r)
    (tcp_hashtable r) (listeners r) (listen_multis r) (s_apps r) (s_ctxs r)
    (tx_free r) (tx_sent r) (s_now r) (cur_ts r).

Definition s_conns (st : spst) : gmap Z connection := conns (s_cc st).
Definition conn_at (st : spst) (p : Z) : connection := conns (s_cc st) !!! p.
Definition set_conn (p : Z) (f : connection -> connection) (st : spst) : spst :=
  st <| s_cc ::= upd_conn p f |>.
Definition set_listener (p : Z) (f : listener -> listener) (st : spst) : spst :=
  st <| listeners ::= fun h => <[p := f (h !!! p)]> h |>.
Definition set_ctx (p : Z) (f : app_context -> app_context) (st : spst) : spst :=
  st <| s_ctxs ::= fun h => <[p := f (h !!! p)]> h |>.
Definition set_app (p : Z) (f : application -> application) (st : spst) : spst :=
  st <| s_apps ::= fun h => <[p := f (h !!! p)]> h |>.

(** [nicif_tx_alloc] and [nicif_tx_send]; the result tells whether there was room. *)
Definition tx_push (p : tx_pkt) (st : spst) : bool * spst :=
  if tx_free st <=? 0 then (false, st)
  else (true, st <| tx_free ::= fun n => n - 1 |> <| tx_sent ::= cons p |>).

(** Timeout types. *)
Definition TO_ARP_REQ : Z := 0.
Definition TO_TCP_HANDSHAKE : Z := 1.
Definition TO_TCP_CLOSED : Z := 3.

(** [util_timeout_arm]. *)
Definition timeout_arm (p us type : Z) (st : spst) : option spst :=
  m ← util_timeout_arm_ts (s_tm st) p us type (s_now st);
  Some (st <| s_tm := m |>).
Definition timeout_disarm (p : Z) (st : spst) : option spst :=
  m ← util_timeout_disarm (s_tm st) p;
  Some (st <| s_tm := m |>).
