(* ===== verification/TcpConn.v ===== *)
(** * Connections of the slow path (tas/slow/tcp.c)

    Allocation of connections and of local ports, the hash table of connections, the
    option parser, and the control packets the slow path sends.  The results of [malloc]
    are arguments, 0 when there is no memory.  A freed connection is no longer in the
    map; freeing it again has no value in the model. *)

From S2P Require Import Prelude FpTypes SpTypes Links PacketMem Rng Timeout Cc NicFlow.
From S2P Require Import FlowTx SpState.

Definition TCP_MSS : Z := 1412.
Definition TCP_HTSIZE : Z := 4096.
Definition PORT_MAX : Z := 65535.
Definition PORT_FIRST_EPH : Z := 8192.
Definition TAS_TCP_RST : Z := 4.
Definition TCP_OPT_MSS : Z := 2.
Definition sizeof_mss_opt : Z := 4.

(** ** Options *)

(** Offsets into the options, [None] for [NULL]. *)
Record tcp_opts : Type := mk_tcp_opts { o_mss : option Z; o_ts : option Z }.
#[export] Instance eta_tcp_opts : Eta tcp_opts := fun r => mk_tcp_opts (o_mss r) (o_ts r).

(** [None]: out of fuel; [Some None]: returned [-1]. *)
Fixpoint options_loop (fuel : nat) (opt : mem) (opts_len off : Z) (opts : tcp_opts)
    : option (option tcp_opts) :=
  match fuel with
  | O => None
  | S fuel =>
      if off <? opts_len then
        let opt_kind := opt off in
        let opt_avail := u8 (opts_len - off) in
        if opt_kind =? TCP_OPT_END_OF_OPTIONS then Some (Some opts)
        else if opt_kind =? TCP_OPT_NO_OP then
          options_loop fuel opt opts_len (u16 (off + 1)) opts
        else if opt_avail <? 2 then Some None
        else
          let opt_len := opt (off + 1) in
          if opt_kind =? TCP_OPT_MSS then
            if negb (opt_len =? sizeof_mss_opt) then Some None
            else options_loop fuel opt opts_len (u16 (off + opt_len)) (opts <| o_mss := Some off |>)
          else if opt_kind =? TCP_OPT_TIMESTAMP then
            if negb (opt_len =? sizeof_ts_opt) then Some None
            else options_loop fuel opt opts_len (u16 (off + opt_len)) (opts <| o_ts := Some off |>)
          else options_loop fuel opt opts_len (u16 (off + opt_len)) opts
      else Some (Some opts)
  end.

(** The options have at most 40 bytes. *)
Definition OPTS_FUEL : nat := 41.

Definition options_hdr (sizeof_p : Z) (tcp : tcp_hdr) (rest : mem) (len : Z)
    : option (option tcp_opts) :=
  let opts_len := u16 (TCPH_HDRLEN tcp * 4 - 20) in
  if (TCPH_HDRLEN tcp <? 5) || (u64 (len - sizeof_p) <? opts_len) then Some None
  else options_loop OPTS_FUEL rest opts_len 0 (mk_tcp_opts None None).

Definition parse_options (p : pkt_tcp) (len : Z) : option (option tcp_opts) :=
  options_hdr sizeof_pkt_tcp (p_tcp p) (p_rest p) len.
Definition parse_options_gre (p : pkt_gre) (len : Z) : option (option tcp_opts) :=
  options_hdr sizeof_pkt_gre (g_tcp p) (g_rest p) len.

(** [f_beui32(opts->ts->ts_val)]. *)
Definition ts_val (rest : mem) (ts : Z) : Z := f_beui32 (load32 rest (ts + 2)).

Section TcpConn.
Context (E : fpenv) (config : configuration).

(** ** Control packets *)

(** [opt_ts]; the value is zero, the echo is [ts_echo]. *)
Definition put_ts (m : mem) (off optlen ts_echo : Z) : mem :=
  let m := mem_write m off optlen (fun _ => 0) in
  let m := mem_write m off 2 (fun i => if i =? 0 then TCP_OPT_TIMESTAMP else sizeof_ts_opt) in
  store32 (store32 m (off + 2) (t_beui32 0)) (off + 6) (t_beui32 ts_echo).

Definition put_mss (m : mem) (off mss : Z) : mem :=
  mem_write m off 4 (fun i => if i =? 0 then TCP_OPT_MSS else if i =? 1 then sizeof_mss_opt
                              else if i =? 2 then t_beui16 mss mod 256 else t_beui16 mss / 256).

(** The length of the options and the offset of the time stamp. *)
Definition ctl_optlen (ts_opt mss_opt : bool) : Z :=
  let n := (if mss_opt then sizeof_mss_opt else 0) + (if ts_opt then sizeof_ts_opt else 0) in
  Z.land (n + 3) 252.
Definition ctl_opts (ts_opt : bool) (ts_echo mss_opt : Z) : mem :=
  let has_mss := negb (mss_opt =? 0) in
  let m := fun _ : Z => 0 in
  let m := if has_mss then put_mss m 0 mss_opt else m in
  if ts_opt then put_ts m (if has_mss then sizeof_mss_opt else 0)
                   (ctl_optlen ts_opt has_mss) ts_echo else m.

Definition ctl_ip (len proto src dest : Z) : ip_hdr :=
  IPH_VHL_SET 4 5 (mk_ip 0 0 (t_beui16 len) (t_beui16 3) (t_beui16 0) 255 proto 0
                     (t_beui32 src) (t_beui32 dest)).
Definition ctl_tcp (local_port remote_port seq ack optlen flags : Z) : tcp_hdr :=
  TCPH_HDRLEN_FLAGS_SET (5 + optlen / 4) flags
    (mk_tcp (t_beui16 local_port) (t_beui16 remote_port) (t_beui32 seq) (t_beui32 ack) 0
       (t_beui16 11680) 0 (t_beui16 0)).
Definition ctl_eth (mac : Z) : eth_hdr :=
  mk_eth (mac mod 281474976710656) (eth_addr E) (t_beui16 ETH_TYPE_IP).

(** The packet of [send_control_raw], with its length. *)
Definition control_pkt (remote_mac remote_ip remote_port local_port local_seq remote_seq
    flags : Z) (ts_opt : bool) (ts_echo mss_opt : Z) : tx_pkt :=
  let optlen := ctl_optlen ts_opt (negb (mss_opt =? 0)) in
  let len := u16 (sizeof_pkt_tcp + optlen) in
  let ip := ctl_ip (len - offsetof_tcp_ip) IP_PROTO_TCP (config_ip config) remote_ip in
  let tcp := ctl_tcp local_port remote_port local_seq remote_seq optlen flags in
  let rest := ctl_opts ts_opt ts_echo mss_opt in
  let ip := ip <| ip_chksum := rte_ipv4_cksum E ip |> in
  let tcp := tcp <| tcp_chksum := rte_ipv4_udptcp_cksum E ip tcp rest |> in
  TxTcp (mk_pkt_tcp (ctl_eth remote_mac) ip tcp rest) len.

(** The return value is [-1] when the queue to the fast path is full. *)
Definition send_control_raw (remote_mac remote_ip remote_port local_port local_seq remote_seq
    flags : Z) (ts_opt : bool) (ts_echo mss_opt : Z) (st : spst) : Z * spst :=
  let '(ok, st) := tx_push (control_pkt remote_mac remote_ip remote_port local_port local_seq
                              remote_seq flags ts_opt ts_echo mss_opt) st in
  (if ok then 0 else -1, st).

(** The packet of [send_control_raw_gre] and of [send_ovs_fake_packet]. *)
Definition control_pkt_gre (eth : eth_hdr) (tunnel_id out_remote_ip in_local_ip in_remote_ip
    remote_port local_port local_seq remote_seq flags : Z) (ts_opt : bool) (ts_echo mss_opt : Z)
    : pkt_gre * Z :=
  let optlen := ctl_optlen ts_opt (negb (mss_opt =? 0)) in
  let len := u16 (sizeof_pkt_gre + optlen) in
  let out_ip := ctl_ip (len - offsetof_gre_out_ip) IP_PROTO_GRE (config_ip config) out_remote_ip in
  let gre := mk_gre (GREH_CKSV 0 1 0 0) (t_beui16 GRE_PROTO_IP) (t_beui32 tunnel_id) in
  let in_ip := ctl_ip (len - offsetof_gre_in_ip) IP_PROTO_TCP in_local_ip in_remote_ip in
  let tcp := ctl_tcp local_port remote_port local_seq remote_seq optlen flags in
  let rest := ctl_opts ts_opt ts_echo mss_opt in
  let in_ip := in_ip <| ip_chksum := rte_ipv4_cksum E in_ip |> in
  let out_ip := out_ip <| ip_chksum := rte_ipv4_cksum E out_ip |> in
  let tcp := tcp <| tcp_chksum := rte_ipv4_udptcp_cksum E in_ip tcp rest |> in
  (mk_pkt_gre eth out_ip gre in_ip tcp rest, len).

Definition send_control_raw_gre (remote_mac tunnel_id out_remote_ip in_local_ip in_remote_ip
    remote_port local_port local_seq remote_seq flags : Z) (ts_opt : bool) (ts_echo mss_opt : Z)
    (st : spst) : Z * spst :=
  let '(p, len) := control_pkt_gre (ctl_eth remote_mac) tunnel_id out_remote_ip in_local_ip
                     in_remote_ip remote_port local_port local_seq remote_seq flags ts_opt
                     ts_echo mss_opt in
  let '(ok, st) := tx_push (TxGre p len) st in
  (if ok then 0 else -1, st).

Definition send_control (conn flags : Z) (ts_opt : bool) (ts_echo mss_opt : Z) (st : spst)
    : Z * spst :=
  let c := conn_at st conn in
  send_control_raw (cn_remote_mac c) (cn_out_remote_ip c) (cn_remote_port c) (cn_local_port c)
    (local_seq c) (remote_seq c) flags ts_opt ts_echo mss_opt st.

Definition send_control_gre (conn flags : Z) (ts_opt : bool) (ts_echo mss_opt : Z) (st : spst)
    : Z * spst :=
  let c := conn_at st conn in
  send_control_raw_gre (cn_remote_mac c) (cn_tunnel_id c) (cn_out_remote_ip c)
    (cn_in_local_ip c) (cn_in_remote_ip c) (cn_remote_port c) (cn_local_port c)
    (local_seq c) (remote_seq c) flags ts_opt ts_echo mss_opt st.

(** The time stamp to echo; [ts_val] of [send_reset] is not initialised without the
    option, and then not used. *)
Definition reset_ts (rest : mem) (opts : tcp_opts) : bool * Z :=
  match o_ts opts with Some off => (true, ts_val rest off) | None => (false, 0) end.

Definition send_reset (p : pkt_tcp) (opts : tcp_opts) (st : spst) : Z * spst :=
  let '(ts_opt, ts) := reset_ts (p_rest p) opts in
  let t := p_tcp p in
  send_control_raw (eth_src (p_eth p)) (f_beui32 (ip_src (p_ip p))) (f_beui16 (tcp_src t))
    (f_beui16 (tcp_dest t)) (f_beui32 (tcp_ackno t)) (u32 (f_beui32 (tcp_seqno t) + 1))
    (Z.lor TAS_TCP_RST TAS_TCP_ACK) ts_opt ts 0 st.

Definition send_reset_gre (p : pkt_gre) (opts : tcp_opts) (st : spst) : Z * spst :=
  let '(ts_opt, ts) := reset_ts (g_rest p) opts in
  let t := g_tcp p in
  send_control_raw_gre (eth_src (g_eth p)) (f_beui32 (gre_key (g_gre p)))
    (f_beui32 (ip_src (g_out_ip p))) (f_beui32 (ip_dest (g_in_ip p)))
    (f_beui32 (ip_dest (g_out_ip p))) (f_beui16 (tcp_src t)) (f_beui16 (tcp_dest t))
    (f_beui32 (tcp_ackno t)) (u32 (f_beui32 (tcp_seqno t) + 1))
    (Z.lor TAS_TCP_RST TAS_TCP_ACK) ts_opt ts 0 st.

(** ** Connections *)

Definition conn_delete (p : Z) (st : spst) : spst :=
  st <| s_cc ::= fun m => m <| conns ::= delete p |> |>.

(** [mc], [mr] and [mt]: memory for the connection and for the two handles.  The result 0
    is [NULL]. *)
Definition conn_alloc (vmid mc mr mt : Z) (st : spst) : option (Z * spst) :=
  if mc =? 0 then Some (0, st)
  else
    let st := set_conn mc (fun _ => conn_zero) st in
    '(r, pm) ← packetmem_alloc (s_pm st) (tcp_rxbuf_len config) vmid mr;
    match r with
    | None => Some (0, conn_delete mc (st <| s_pm := pm |>))
    | Some (off_rx, rxh) =>
        '(r, pm) ← packetmem_alloc pm (tcp_txbuf_len config) vmid mt;
        match r with
        | None =>
            pm ← packetmem_free pm rxh vmid;
            Some (0, conn_delete mc (st <| s_pm := pm |>))
        | Some (off_tx, txh) =>
            Some (mc, set_conn mc (fun c =>
                        c <| rx_handle := rxh |> <| tx_handle := txh |>
                          <| rx_buf := off_rx |> <| cn_rx_len := tcp_rxbuf_len config |>
                          <| tx_buf := off_tx |> <| cn_tx_len := tcp_txbuf_len config |>
                          <| to_armed := false |>) (st <| s_pm := pm |>))
        end
    end.

(** The two buffers; [conn->ctx] is read. *)
Definition conn_free_bufs (conn : Z) (st : spst) : option spst :=
  let c := conn_at st conn in
  _ ← cassert (negb (cn_ctx c =? 0));
  pm ← packetmem_free (s_pm st) (tx_handle c) (cn_vm c);
  pm ← packetmem_free pm (rx_handle c) (cn_vm c);
  Some (st <| s_pm := pm |>).

Definition conn_free (conn : Z) (st : spst) : option spst :=
  _ ← cassert (bool_decide (is_Some (s_conns st !! conn)));
  st ← conn_free_bufs conn st;
  Some (conn_delete conn st).

Definition tcp_destroy (conn : Z) (st : spst) : option spst :=
  _ ← cassert (bool_decide (status (conn_at st conn) = CONN_FAILED));
  conn_free conn st.

(** ** The table of connections *)

Definition conn_hash (l_ip r_ip l_po r_po : Z) : Z :=
  crc32c_sse42_u32 E (Z.lor l_po (u32 (Z.shiftl r_po 16)))
    (crc32c_sse42_u64 E (Z.lor l_ip (u64 (Z.shiftl r_ip 32))) 0).
Definition conn_hash_gre (t_id l_po r_po : Z) : Z :=
  crc32c_sse42_u32 E (Z.lor l_po (u32 (Z.shiftl r_po 16))) (crc32c_sse42_u64 E t_id 0).

(** The bucket of a connection. *)
Definition conn_bucket (c : connection) : Z :=
  (if VIRTUOSO_GRE then conn_hash_gre (cn_tunnel_id c) (cn_local_port c) (cn_remote_port c)
   else conn_hash (cn_out_local_ip c) (cn_out_remote_ip c) (cn_local_port c) (cn_remote_port c))
  mod TCP_HTSIZE.

Definition set_ht_next (n : Z) (c : connection) : connection := c <| ht_next := n |>.

Definition conn_register (conn : Z) (st : spst) : spst :=
  let h := conn_bucket (conn_at st conn) in
  set_conn conn (set_ht_next (tcp_hashtable st !!! h)) st <| tcp_hashtable ::= <[h := conn]> |>.

(** The predecessor of [conn], 0 when there is none. *)
Fixpoint ht_prev (fuel : nat) (h : gmap Z connection) (conn cp : Z) : option Z :=
  match fuel with
  | O => None
  | S fuel =>
      if negb (cp =? 0) && negb (ht_next (h !!! cp) =? conn)
      then ht_prev fuel h conn (ht_next (h !!! cp)) else Some cp
  end.

(** Every list of connections is shorter than the heap. *)
Definition conn_fuel (st : spst) : nat := S (size (s_conns st)).

Definition conn_unregister (conn : Z) (st : spst) : option spst :=
  let h := conn_bucket (conn_at st conn) in
  let next := ht_next (conn_at st conn) in
  if tcp_hashtable st !!! h =? conn then Some (st <| tcp_hashtable ::= <[h := next]> |>)
  else
    cp ← ht_prev (conn_fuel st) (s_conns st) conn (tcp_hashtable st !!! h);
    _ ← cassert (negb (cp =? 0));
    Some (set_conn cp (set_ht_next next) st).

Fixpoint conn_lookup_loop (fuel : nat) (h : gmap Z connection) (match_ : connection -> bool)
    (c : Z) : option Z :=
  match fuel with
  | O => None
  | S fuel =>
      if c =? 0 then Some 0
      else if match_ (h !!! c) then Some c
      else conn_lookup_loop fuel h match_ (ht_next (h !!! c))
  end.

(** [Some 0]: not found. *)
Definition conn_lookup (p : pkt_tcp) (st : spst) : option Z :=
  let src := f_beui32 (ip_src (p_ip p)) in
  let dport := f_beui16 (tcp_dest (p_tcp p)) in
  let sport := f_beui16 (tcp_src (p_tcp p)) in
  let h := conn_hash (f_beui32 (ip_dest (p_ip p))) src dport sport mod TCP_HTSIZE in
  conn_lookup_loop (conn_fuel st) (s_conns st)
    (fun c => (src =? cn_out_remote_ip c) && (dport =? cn_local_port c)
              && (sport =? cn_remote_port c)) (tcp_hashtable st !!! h).

Definition conn_lookup_gre (p : pkt_gre) (st : spst) : option Z :=
  let key := f_beui32 (gre_key (g_gre p)) in
  let dport := f_beui16 (tcp_dest (g_tcp p)) in
  let sport := f_beui16 (tcp_src (g_tcp p)) in
  let h := conn_hash_gre key dport sport mod TCP_HTSIZE in
  conn_lookup_loop (conn_fuel st) (s_conns st)
    (fun c => (key =? cn_tunnel_id c) && (dport =? cn_local_port c)
              && (sport =? cn_remote_port c)) (tcp_hashtable st !!! h).

(** ** Ports *)

Definition port_next (p : Z) : Z :=
  if u16 (p + 1) <? PORT_FIRST_EPH then PORT_FIRST_EPH else p + 1.

Definition port_unused (ps : gmap Z port_entry) (p : Z) : bool :=
  match ps !!! p with PORT_UNUSED => true | _ => false end.

Fixpoint port_loop (fuel : nat) (ps : gmap Z port_entry) (p p_start : Z) : option (Z * Z) :=
  match fuel with
  | O => None
  | S fuel =>
      let p_next := port_next p in
      if port_unused ps p then Some (p, p_next)
      else if negb (p_next =? p_start) then port_loop fuel ps p_next p_start
      else Some (0, p_start)
  end.

(** The result 0: every port is in use.  [None]: out of fuel. *)
Definition port_alloc (st : spst) : option (Z * spst) :=
  '(p, hint) ← port_loop (Z.to_nat 65536) (ports st) (port_eph_hint st) (port_eph_hint st);
  Some (p, st <| port_eph_hint := hint |>).

(** ** Timeouts of connections *)

(** The [type] argument is not used. *)
Definition conn_timeout_arm (conn type : Z) (st : spst) : option spst :=
  let c := conn_at st conn in
  _ ← cassert (negb (to_armed c));
  _ ← cassert (negb (cn_timeout c =? 0));
  let '(rng, r) := utils_rng_gen32 (s_rng st) in
  let to := u32 (cn_timeout c / 2 + r mod cn_timeout c) in
  timeout_arm conn to TO_TCP_HANDSHAKE
    (set_conn conn (fun c => c <| to_armed := true |>) st <| s_rng := rng |>).

Definition conn_timeout_disarm (conn : Z) (st : spst) : option spst :=
  _ ← cassert (to_armed (conn_at st conn));
  timeout_disarm conn (set_conn conn (fun c => c <| to_armed := false |>) st).

End TcpConn.
