(* ===== verification/TcpConnProofs.v ===== *)
(** * Proofs about connections of the slow path

    The search for a free port, the table of connections against a partition of the
    registered connections, and the options of control packets. *)

From stdpp Require Import gmap sets.
From S2P Require Import Prelude FpTypes SpTypes Links PacketMem Rng Timeout Cc NicFlow.
From S2P Require Import FlowTx SpState TcpConn.

(** ** Ports *)

(** The port tried after [k] others, when the search starts at [s]. *)
Definition port_at (s k : Z) : Z := 8192 + (s - 8192 + k) mod 57344.

Lemma port_next_at s k : 8192 <= s <= 65535 -> 0 <= k -> port_next (port_at s k) = port_at s (k + 1).
Proof.
  intros Hs Hk. unfold port_next, port_at, PORT_FIRST_EPH. rewrite Z.add_assoc.
  set (m := s - 8192 + k). assert (Hm : 0 <= m) by (unfold m; lia). clearbody m.
  rewrite <- (Zplus_mod_idemp_l m 1). pose proof (Z.mod_pos_bound m 57344 ltac:(lia)) as Hr.
  set (r := m mod 57344) in *. clearbody r.
  destruct (decide (r = 57343)) as [->|].
  - reflexivity.
  - rewrite u16_id by cside. rewrite (proj2 (Z.ltb_ge _ _)) by lia.
    rewrite (Z.mod_small (r + 1)) by lia. lia.
Qed.

Lemma port_at_range s k : 8192 <= port_at s k <= 65535.
Proof. unfold port_at. pose proof (Z.mod_pos_bound (s - 8192 + k) 57344 ltac:(lia)). lia. Qed.

Lemma port_at_start s k :
  8192 <= s <= 65535 -> 0 < k <= 57344 -> (port_at s k = s <-> k = 57344).
Proof.
  intros Hs Hk. unfold port_at. split; [|intros ->].
  - intros He. assert (Hm : (s - 8192 + k) mod 57344 = s - 8192) by lia.
    Z.div_mod_to_equations. lia.
  - replace (s - 8192 + 57344) with (s - 8192 + 1 * 57344) by lia.
    rewrite Z_mod_plus_full, Z.mod_small; lia.
Qed.

(** Every ephemeral port is tried. *)
Lemma port_at_all s p : 8192 <= s <= 65535 -> 8192 <= p <= 65535 ->
  exists k, 0 <= k < 57344 /\ port_at s k = p.
Proof.
  intros Hs Hp. exists ((p - s) mod 57344). split; [apply Z.mod_pos_bound; lia|].
  unfold port_at. rewrite Zplus_mod_idemp_r. replace (s - 8192 + (p - s)) with (p - 8192) by lia.
  rewrite Z.mod_small; lia.
Qed.

Lemma port_loop_ok fuel ps s k :
  8192 <= s <= 65535 -> 0 <= k < 57344 -> 57344 - k <= Z.of_nat fuel ->
  (forall j, 0 <= j < k -> port_unused ps (port_at s j) = false) ->
  (exists j, 0 <= j < 57344 /\ port_unused ps (port_at s j) = true
     /\ port_loop fuel ps (port_at s k) s = Some (port_at s j, port_at s (j + 1)))
  \/ ((forall j, 0 <= j < 57344 -> port_unused ps (port_at s j) = false)
      /\ port_loop fuel ps (port_at s k) s = Some (0, s)).
Proof.
  intros Hs. revert k. induction fuel as [|fuel IH]; intros k Hk Hf Hu; [lia|].
  cbn [port_loop]. rewrite port_next_at by lia.
  destruct (port_unused ps (port_at s k)) eqn:Ek; [left; exists k; done|].
  assert (Hu' : forall j, 0 <= j < k + 1 -> port_unused ps (port_at s j) = false).
  { intros j Hj. destruct (decide (j = k)) as [->|]; [done|]. apply Hu. lia. }
  destruct (decide (k + 1 = 57344)) as [E|E].
  - rewrite (proj2 (Z.eqb_eq _ _)) by (apply port_at_start; lia). cbn [negb]. right.
    split; [|done]. intros j Hj. apply Hu'. lia.
  - rewrite (proj2 (Z.eqb_neq _ _)); [|rewrite port_at_start by lia; lia]. cbn [negb].
    apply IH; [lia..|done].
Qed.

(** With a hint in the ephemeral range, the search finds a port that is not in use, or
    every ephemeral port is in use. *)
Lemma port_alloc_ok st :
  8192 <= port_eph_hint st <= 65535 ->
  exists p hint, port_alloc st = Some (p, st <| port_eph_hint := hint |>)
  /\ 8192 <= hint <= 65535
  /\ ((8192 <= p <= 65535 /\ ports st !!! p = PORT_UNUSED)
      \/ (p = 0 /\ forall q, 8192 <= q <= 65535 -> ports st !!! q <> PORT_UNUSED)).
Proof.
  intros Hs. unfold port_alloc.
  assert (E0 : port_eph_hint st = port_at (port_eph_hint st) 0).
  { unfold port_at. rewrite Z.add_0_r, Z.mod_small; lia. }
  assert (Hun : forall q, port_unused (ports st) q = true <-> ports st !!! q = PORT_UNUSED).
  { intros q. unfold port_unused. by destruct (ports st !!! q). }
  destruct (port_loop_ok (Z.to_nat 65536) (ports st) (port_eph_hint st) 0 Hs ltac:(lia)
              ltac:(rewrite Z2Nat.id; lia) ltac:(lia))
    as [(j & Hj & Hu & El)|[Hu El]]; rewrite <- E0 in El; rewrite El; cbn [mbind option_bind].
  - do 2 eexists. split; [done|]. split; [apply port_at_range|]. left.
    split; [apply port_at_range|]. by apply Hun.
  - do 2 eexists. split; [done|]. split; [done|]. right. split; [done|]. intros q Hq.
    destruct (port_at_all (port_eph_hint st) q Hs Hq) as (k & Hk & <-).
    intros H. apply Hun in H. rewrite Hu in H; done.
Qed.

(** ** The table of connections *)

Definition htn (st : spst) (c : Z) : Z := ht_next (conn_at st c).

(** The search for the predecessor of [c] in a linked list. *)
Fixpoint prev_search (nx : Z -> Z) (fuel : nat) (c cp : Z) : option Z :=
  match fuel with
  | O => None
  | S fuel =>
      if negb (cp =? 0) && negb (nx cp =? c) then prev_search nx fuel c (nx cp) else Some cp
  end.

Lemma prev_search_ok nx fuel c A B cp :
  path nx cp (A ++ c :: B) 0 -> NoDup (A ++ c :: B) -> 0 ∉ A ++ c :: B ->
  cp <> c -> (length A <= fuel)%nat ->
  prev_search nx fuel c cp = Some (default 0 (last A)).
Proof.
  revert cp fuel. induction A as [|a A IH]; intros cp fuel Hp Hnd H0 Hc Hf.
  { by destruct Hp as [-> _]. }
  destruct Hp as [-> Hp]. destruct fuel as [|fuel]; [cbn in Hf; lia|]. cbn [prev_search].
  cbn [app] in Hnd, H0. apply NoDup_cons in Hnd as [Ha Hnd]. rewrite elem_of_cons in H0.
  rewrite (proj2 (Z.eqb_neq a 0)) by (intros ->; tauto). cbn [negb andb].
  destruct (Z.eqb_spec (nx a) c) as [En|En]; cbn [negb].
  - destruct A as [|b A]; [done|]. destruct Hp as [Eb _]. exfalso.
    cbn [app] in Hnd. apply NoDup_cons in Hnd as [Hb _]. apply Hb.
    rewrite <- Eb, En. apply elem_of_app. right. apply list_elem_of_here.
  - rewrite (IH _ fuel Hp Hnd) by (tauto || (cbn in Hf; lia)). rewrite last_cons.
    destruct A as [|b A]; [by destruct Hp|]. rewrite last_cons. by destruct (last A).
Qed.

Lemma ht_prev_search fuel h c cp :
  ht_prev fuel h c cp = prev_search (fun x => ht_next (h !!! x)) fuel c cp.
Proof.
  revert cp. induction fuel as [|fuel IH]; intros cp; [done|]. cbn [ht_prev prev_search].
  by rewrite IH.
Qed.

Section Table.
Context (E : fpenv).

(** The bucket [h] holds the connections [T h]. *)
Record ht_rep (st : spst) (T : Z -> list Z) : Prop := mk_ht_rep {
  hr_path : forall h, path (htn st) (tcp_hashtable st !!! h) (T h) 0;
  hr_nodup : forall h, NoDup (T h);
  hr_null : forall h, 0 ∉ T h;
  hr_dom : forall h c, c ∈ T h -> is_Some (s_conns st !! c);
  hr_bucket : forall h c, c ∈ T h -> conn_bucket E (conn_at st c) = h }.

(** The registered connections. *)
Definition registered (T : Z -> list Z) (c : Z) : Prop := exists h, c ∈ T h.

Lemma registered_bucket st T c :
  ht_rep st T -> (registered T c <-> c ∈ T (conn_bucket E (conn_at st c))).
Proof.
  intros Hr. split; [|by eexists]. intros [h Hc].
  by rewrite (hr_bucket _ _ Hr h c Hc).
Qed.

(** Nothing the table depends on changes. *)
Definition same_key (c c' : connection) : Prop :=
  ht_next c' = ht_next c /\ conn_bucket E c' = conn_bucket E c.

Lemma ht_rep_frame st st' T :
  ht_rep st T -> tcp_hashtable st' = tcp_hashtable st ->
  (forall c, registered T c -> same_key (conn_at st c) (conn_at st' c)
                               /\ is_Some (s_conns st' !! c)) ->
  ht_rep st' T.
Proof.
  intros [Hp Hnd H0 Hd Hb] Et Hc. constructor; try done.
  - intros h. rewrite Et. eapply path_ext; [|apply Hp]. intros c Hin. unfold htn.
    destruct (Hc c) as [[-> _] _]; [by exists h|done].
  - intros h c Hin. apply Hc. by exists h.
  - intros h c Hin. destruct (Hc c) as [[_ ->] _]; [by exists h|]. by apply Hb.
Qed.

Lemma conn_at_set p f st c :
  conn_at (set_conn p f st) c = if c =? p then f (conn_at st p) else conn_at st c.
Proof.
  unfold conn_at, set_conn, upd_conn. cbn [conns s_cc setf]. destruct (Z.eqb_spec c p) as [->|].
  - apply lookup_total_insert_eq.
  - by apply lookup_total_insert_ne.
Qed.

Lemma conn_at_set_same p f st : conn_at (set_conn p f st) p = f (conn_at st p).
Proof. unfold conn_at, set_conn, upd_conn. cbn [conns s_cc setf]. apply lookup_total_insert_eq. Qed.

Lemma set_conn_dom p f st c :
  is_Some (s_conns (set_conn p f st) !! c) <-> p = c \/ is_Some (s_conns st !! c).
Proof.
  unfold s_conns, set_conn, upd_conn. cbn [conns s_cc setf]. rewrite lookup_insert_is_Some.
  destruct (decide (p = c)); tauto.
Qed.

Lemma conn_register_ok st T c :
  ht_rep st T -> c <> 0 -> ~ registered T c ->
  let h := conn_bucket E (conn_at st c) in
  ht_rep (conn_register E c st) (fun i => if i =? h then c :: T h else T i).
Proof.
  intros Hr Hc0 Hc h. set (st' := conn_register E c st).
  assert (Hat : forall d, conn_at st' d = if d =? c then set_ht_next (tcp_hashtable st !!! h) (conn_at st c)
                                          else conn_at st d) by (intros d; apply conn_at_set).
  assert (Ht : tcp_hashtable st' = <[h := c]> (tcp_hashtable st)) by done.
  assert (Hne : forall i d, d ∈ T i -> d <> c) by (intros i d Hd ->; apply Hc; by exists i).
  assert (Hpath : forall i, path (htn st') (tcp_hashtable st !!! i) (T i) 0).
  { intros i. eapply path_ext; [|apply (hr_path _ _ Hr i)]. intros d Hd. unfold htn.
    rewrite Hat, (proj2 (Z.eqb_neq _ _)); [done|]. by eapply Hne. }
  constructor; rewrite ?Ht.
  - intros i. destruct (Z.eqb_spec i h) as [->|Hi].
    + rewrite lookup_total_insert_eq. split; [done|].
      replace (htn st' c) with (tcp_hashtable st !!! h); [apply Hpath|].
      unfold htn. by rewrite Hat, Z.eqb_refl.
    + rewrite lookup_total_insert_ne by done. apply Hpath.
  - intros i. destruct (i =? h); [|apply (hr_nodup _ _ Hr)].
    constructor; [|apply (hr_nodup _ _ Hr)]. intros Hin. apply Hc. by exists h.
  - intros i. destruct (i =? h); [|apply (hr_null _ _ Hr)]. rewrite elem_of_cons.
    intros [?|Hin]; [done|]. by apply (hr_null _ _ Hr h).
  - intros i d Hd. apply set_conn_dom. destruct (decide (c = d)); [by left|right].
    destruct (i =? h); [apply elem_of_cons in Hd as [->|Hd]; [done|]|];
      by eapply (hr_dom _ _ Hr).
  - intros i d Hd. rewrite Hat. destruct (Z.eqb_spec d c) as [->|Hdc].
    + change (conn_bucket E (set_ht_next _ (conn_at st c))) with h.
      destruct (Z.eqb_spec i h) as [Ei|Ei]; [by rewrite Ei|]. by destruct (Hne _ _ Hd).
    + destruct (Z.eqb_spec i h) as [Ei|Ei]; [|by apply (hr_bucket _ _ Hr)].
      apply elem_of_cons in Hd as [->|Hd]; [done|]. rewrite Ei. by apply (hr_bucket _ _ Hr).
Qed.

Lemma conn_unregister_ok st T c :
  ht_rep st T -> registered T c ->
  let h := conn_bucket E (conn_at st c) in
  exists st' A B, conn_unregister E c st = Some st' /\ T h = A ++ c :: B
  /\ ht_rep st' (fun i => if i =? h then A ++ B else T i)
  /\ st' = st <| tcp_hashtable := tcp_hashtable st' |> <| s_cc := s_cc st' |>
  /\ (forall d, exists n, conn_at st' d = set_ht_next n (conn_at st d))
  /\ (forall d, is_Some (s_conns st' !! d) <-> is_Some (s_conns st !! d))
  /\ s_cc st' = s_cc st <| conns := conns (s_cc st') |>.
Proof.
  intros Hr Hreg h. apply (registered_bucket _ _ _ Hr) in Hreg. fold h in Hreg.
  apply list_elem_of_split in Hreg as (A & B & ET).
  pose proof (hr_path _ _ Hr h) as Hp. pose proof (hr_nodup _ _ Hr h) as Hnd.
  pose proof (hr_null _ _ Hr h) as H0. rewrite ET in Hp, Hnd, H0.
  pose proof (path_remove _ _ _ _ _ _ Hnd Hp) as Hp'.
  assert (Hidn : forall d, exists n, conn_at st d = set_ht_next n (conn_at st d)).
  { intros d. exists (ht_next (conn_at st d)). by destruct (conn_at st d). }
  assert (Hother : forall i d, i <> h -> d ∈ T i -> d ∉ T h).
  { intros i d Hi Hd1 Hd2. apply Hi. by rewrite <- (hr_bucket _ _ Hr _ _ Hd1), <- (hr_bucket _ _ Hr _ _ Hd2). }
  unfold conn_unregister. fold h.
  destruct (Z.eqb_spec (tcp_hashtable st !!! h) c) as [Eh|Eh].
  - destruct A as [|a A].
    2: { destruct Hp as [Ea _]. exfalso. cbn in Hnd. apply NoDup_cons in Hnd as [Ha _]. apply Ha.
         rewrite <- Ea, Eh. apply elem_of_app. right. apply list_elem_of_here. }
    cbn [last app] in Hp', ET, Hnd, H0. eexists _, [], B. split; [done|]. split; [done|].
    split; [|split; [done|split; [exact Hidn|split; [done|by cbn [s_cc setf]; destruct (s_cc st)]]]].
    constructor; cbn [app].
    + intros i. cbn [tcp_hashtable setf]. destruct (Z.eqb_spec i h) as [->|Hi].
      * rewrite lookup_total_insert_eq. exact Hp'.
      * rewrite lookup_total_insert_ne by done. apply (hr_path _ _ Hr i).
    + intros i. destruct (i =? h); [|apply (hr_nodup _ _ Hr)]. by apply NoDup_cons in Hnd as [_ ?].
    + intros i. destruct (i =? h); [|apply (hr_null _ _ Hr)]. rewrite elem_of_cons in H0. tauto.
    + intros i d Hd. apply (hr_dom _ _ Hr i). destruct (Z.eqb_spec i h) as [->|]; [|done].
      rewrite ET. by apply list_elem_of_further.
    + intros i d Hd. apply (hr_bucket _ _ Hr i). destruct (Z.eqb_spec i h) as [->|]; [|done].
      rewrite ET. by apply list_elem_of_further.
  - rewrite ht_prev_search, (prev_search_ok (htn st) (conn_fuel st) c A B) by (first [done|
      unfold conn_fuel; pose proof (length_le_size (s_conns st) (A ++ c :: B) Hnd
        ltac:(intros d Hd; apply (hr_dom _ _ Hr h); by rewrite ET)) as Hl;
      rewrite length_app in Hl; lia]).
    destruct (last A) as [p|] eqn:El; cbn [default from_option id mbind option_bind].
    2: { apply last_None in El as ->. by destruct Hp. }
    assert (HpA : p ∈ A) by (by apply last_Some_elem_of).
    rewrite elem_of_app, elem_of_cons in H0.
    rewrite (proj2 (Z.eqb_neq p 0)) by (intros ->; tauto). cbn [negb cassert mbind option_bind].
    set (st' := set_conn p _ st).
    assert (Hat : forall d, conn_at st' d = if d =? p then set_ht_next (htn st c) (conn_at st p) else conn_at st d)
      by (intros d; apply conn_at_set).
    assert (HpT : p ∈ T h) by (rewrite ET; apply elem_of_app; by left).
    exists st', A, B. split; [done|]. split; [done|]. split; [|split; [done|split; [|split; [|done]]]].
    + constructor.
      * intros i. change (tcp_hashtable st') with (tcp_hashtable st).
        destruct (Z.eqb_spec i h) as [->|Hi].
        -- eapply path_ext; [|exact Hp']. intros d _. unfold htn, fupd. rewrite Hat.
           by destruct (Z.eqb_spec d p) as [->|].
        -- eapply path_ext; [|apply (hr_path _ _ Hr i)]. intros d Hd. unfold htn. rewrite Hat.
           destruct (Z.eqb_spec d p) as [->|]; [|done]. by destruct (Hother i p Hi Hd).
      * intros i. destruct (i =? h); [|apply (hr_nodup _ _ Hr)].
        apply NoDup_app in Hnd as (H1 & H2 & H3). apply NoDup_cons in H3 as [_ H3].
        apply NoDup_app. split; [done|]. split; [|done]. intros d Hd Hd'. apply (H2 d Hd).
        by apply list_elem_of_further.
      * intros i. destruct (i =? h); [|apply (hr_null _ _ Hr)]. rewrite elem_of_app. tauto.
      * intros i d Hd. apply set_conn_dom. right. apply (hr_dom _ _ Hr i).
        destruct (Z.eqb_spec i h) as [->|]; [|done]. rewrite ET.
        rewrite elem_of_app, elem_of_cons. apply elem_of_app in Hd. tauto.
      * intros i d Hd. rewrite Hat.
        assert (Hd' : d ∈ T i).
        { destruct (Z.eqb_spec i h) as [->|]; [|done]. rewrite ET.
          rewrite elem_of_app, elem_of_cons. apply elem_of_app in Hd. tauto. }
        destruct (Z.eqb_spec d p) as [->|].
        -- change (conn_bucket E (conn_at st p) = i). by apply (hr_bucket _ _ Hr).
        -- by apply (hr_bucket _ _ Hr).
    + intros d. rewrite Hat. destruct (d =? p) eqn:Ed; [|apply Hidn].
      apply Z.eqb_eq in Ed as ->. by eexists.
    + intros d. unfold st'. rewrite set_conn_dom. split; [|by right]. intros [->|?]; [|done].
      by apply (hr_dom _ _ Hr h).
Qed.

(** A lookup finds the first match in the bucket. *)
Lemma conn_lookup_loop_ok fuel st m l c :
  path (htn st) c l 0 -> 0 ∉ l -> (length l < fuel)%nat ->
  exists r, conn_lookup_loop fuel (s_conns st) m c = Some r
  /\ ((r = 0 /\ forall d, d ∈ l -> m (conn_at st d) = false)
      \/ (r <> 0 /\ r ∈ l /\ m (conn_at st r) = true)).
Proof.
  revert fuel c. induction l as [|x l IH]; intros [|fuel] c Hp H0 Hf; cbn [length] in Hf; try lia;
    cbn [conn_lookup_loop].
  - exists 0. rewrite Hp. split; [done|]. left. split; [done|]. by intros d ?%not_elem_of_nil.
  - destruct Hp as [-> Hp]. rewrite elem_of_cons in H0.
    rewrite (proj2 (Z.eqb_neq x 0)) by (intros ->; tauto).
    change (s_conns st !!! x) with (conn_at st x). destruct (m (conn_at st x)) eqn:Em.
    + exists x. split; [done|]. right. split; [intros ->; tauto|]. split; [|done].
      apply list_elem_of_here.
    + destruct (IH fuel (htn st x) Hp) as (r & Er & Hres); [tauto|lia|].
      exists r. split; [exact Er|]. destruct Hres as [[-> Hn]|(Hr0 & Hin & Hm)].
      * left. split; [done|]. intros d [->|Hd]%elem_of_cons; auto.
      * right. split; [done|]. split; [|done]. by apply list_elem_of_further.
Qed.

(** The connection a plain packet belongs to. *)
Definition conn_matches (p : pkt_tcp) (c : connection) : Prop :=
  cn_out_remote_ip c = f_beui32 (ip_src (p_ip p))
  /\ cn_local_port c = f_beui16 (tcp_dest (p_tcp p))
  /\ cn_remote_port c = f_beui16 (tcp_src (p_tcp p)).

Lemma conn_lookup_ok st T p :
  ht_rep st T ->
  (forall c, registered T c -> cn_out_local_ip (conn_at st c) = f_beui32 (ip_dest (p_ip p))) ->
  exists r, conn_lookup E p st = Some r
  /\ ((r = 0 /\ forall c, registered T c -> ~ conn_matches p (conn_at st c))
      \/ (r <> 0 /\ registered T r /\ conn_matches p (conn_at st r))).
Proof.
  intros Hr Hip. unfold conn_lookup. cbv zeta. set (h := conn_hash _ _ _ _ _ mod _).
  set (m := fun c : connection => _ && _ && _).
  assert (Hm : forall c, m c = true <-> conn_matches p c).
  { intros c. unfold m, conn_matches. rewrite !andb_true_iff, !Z.eqb_eq. intuition congruence. }
  destruct (conn_lookup_loop_ok (conn_fuel st) st m (T h) (tcp_hashtable st !!! h))
    as (r & -> & Hres).
  - apply (hr_path _ _ Hr).
  - apply (hr_null _ _ Hr).
  - unfold conn_fuel. apply Nat.lt_succ_r, length_le_size; [apply (hr_nodup _ _ Hr)|].
    apply (hr_dom _ _ Hr).
  - exists r. split; [done|]. destruct Hres as [[-> Hn]|(Hr0 & Hin & Hmr)].
    + left. split; [done|]. intros c Hc Hmc.
      assert (Hb : conn_bucket E (conn_at st c) = h).
      { unfold conn_bucket. cbn [VIRTUOSO_GRE]. destruct Hmc as (E1 & E2 & E3).
        by rewrite E1, E2, E3, (Hip c Hc). }
      apply (registered_bucket _ _ _ Hr) in Hc. rewrite Hb in Hc.
      apply Hm in Hmc. by rewrite (Hn c Hc) in Hmc.
    + right. split; [done|]. split; [by exists h|]. by apply Hm.
Qed.

End Table.
