(* ===== verification/AppNotify.v ===== *)
(** * Messages to applications (tas/slow/appif_ctx.c)

    The functions the TCP code calls to tell an application about a connection or a
    listener.  A message takes the next entry of the ring [kout] of a context; without
    room it is lost. *)

From S2P Require Import Prelude FpTypes SpTypes Links PacketMem Timeout Cc NicFlow.
From S2P Require Import FlowTx SpState TcpConn.

Definition kout_entry (x : app_context) : kernel_appin := kout x !!! kout_pos x.
Definition kout_room (x : app_context) : bool :=
  match kout_entry x with APPIN_INVALID => true | _ => false end.

(** [appif_ctx_kick]. *)
Definition appif_ctx_kick (ctx : Z) (st : spst) : option unit :=
  cassert (negb (ac_evfd (s_ctxs st !!! ctx) =? 0)).

(** The end of each function: the type is written, the application is notified and the
    position advances. *)
Definition kout_push (ctx : Z) (e : kernel_appin) (st : spst) : option spst :=
  _ ← appif_ctx_kick ctx st;
  Some (set_ctx ctx (fun x =>
          x <| kout ::= <[kout_pos x := e]> |>
            <| kout_pos := (let pos := u32 (kout_pos x + 1) in
                            if kout_len x <=? pos then 0 else pos) |>) st).

(** The connection whose [app_next] is [c]; 0 when there is none. *)
Fixpoint app_prev (fuel : nat) (h : gmap Z connection) (c c_i : Z) : option Z :=
  match fuel with
  | O => None
  | S fuel =>
      if negb (c_i =? 0) && negb (app_next (h !!! c_i) =? c)
      then app_prev fuel h c (app_next (h !!! c_i)) else Some c_i
  end.

(** Removal from the list of the application. *)
Definition app_conn_remove (app c : Z) (st : spst) : option spst :=
  let next := app_next (conn_at st c) in
  if app_conns (s_apps st !!! app) =? c
  then Some (set_app app (fun a => a <| app_conns := next |>) st)
  else
    c_i ← app_prev (conn_fuel st) (s_conns st) c (app_conns (s_apps st !!! app));
    _ ← cassert (negb (c_i =? 0));
    Some (set_conn c_i (fun x => x <| app_next := next |>) st).

Definition app_conn_add (app c : Z) (st : spst) : spst :=
  let head := app_conns (s_apps st !!! app) in
  set_app app (fun a => a <| app_conns := c |>) (set_conn c (fun x => x <| app_next := head |>) st).

Section AppNotify.
Context (config : configuration).

Definition opened_info (c : connection) : conn_opened_info :=
  mk_coi (rx_buf c) (tx_buf c) (cn_rx_len c) (cn_tx_len c) (remote_seq c) (local_seq c)
    (cn_out_remote_ip c) (config_ip config) (cn_in_local_ip c) (cn_local_port c)
    (cn_tunnel_id c) (cn_flow_id c) (fn_core c).

Definition appif_conn_opened (conn st_code : Z) (st : spst) : option spst :=
  let c := conn_at st conn in
  let ctx := cn_ctx c in
  let app := ac_app (s_ctxs st !!! ctx) in
  if negb (kout_room (s_ctxs st !!! ctx)) then Some st
  else if st_code =? 0
  then kout_push ctx (APPIN_CONN_OPENED (cn_opaque c) st_code (Some (opened_info c))) st
  else
    st ← app_conn_remove app conn st;
    st ← tcp_destroy conn st;
    kout_push ctx (APPIN_CONN_OPENED (cn_opaque c) st_code None) st.

Definition appif_conn_closed (conn st_code : Z) (st : spst) : option spst :=
  let c := conn_at st conn in
  let ctx := cn_ctx c in
  let app := ac_app (s_ctxs st !!! ctx) in
  if negb (kout_room (s_ctxs st !!! ctx)) then Some st
  else
    st ← kout_push ctx (APPIN_STATUS STATUS_CONN_CLOSE (cn_opaque c) st_code) st;
    app_conn_remove app conn st.

(** The message of [appif_listen_newconn] and of [appif_listen_newconn_gre]. *)
Definition listen_newconn (l remote_ip remote_port : Z) (gre : option (Z * Z)) (st : spst)
    : option spst :=
  let ctx := ls_ctx (listeners st !!! l) in
  if negb (kout_room (s_ctxs st !!! ctx)) then Some st
  else kout_push ctx
         (APPIN_LISTEN_NEWCONN (ls_opaque (listeners st !!! l)) remote_ip remote_port gre) st.

Definition appif_listen_newconn (l remote_ip remote_port : Z) (st : spst) : option spst :=
  listen_newconn l remote_ip remote_port None st.

Definition appif_listen_newconn_gre (l out_remote_ip in_remote_ip remote_port tunnel_id : Z)
    (st : spst) : option spst :=
  listen_newconn l out_remote_ip remote_port (Some (tunnel_id, in_remote_ip)) st.

Definition accept_info (c : connection) : accept_conn_info :=
  mk_aci (rx_buf c) (tx_buf c) (cn_rx_len c) (cn_tx_len c) (remote_seq c) (local_seq c)
    (cn_tunnel_id c) (config_ip config) (cn_out_remote_ip c) (cn_in_local_ip c)
    (cn_in_remote_ip c) (cn_remote_port c) (cn_flow_id c) (fn_core c).

(** The message to every context of the forked application; [false]: no room in one of
    them, and the function returned. *)
Fixpoint accept_each (ctxs : list Z) (conn st_code : Z) (st : spst) : option (bool * spst) :=
  match ctxs with
  | [] => Some (true, st)
  | ctx :: ctxs =>
      if negb (kout_room (s_ctxs st !!! ctx)) then Some (false, st)
      else
        let c := conn_at st conn in
        st1 ← (if st_code =? 0 then Some st else tcp_destroy conn st);
        st1 ← kout_push ctx (APPIN_ACCEPTED_CONN (cn_opaque c) st_code
                (if st_code =? 0 then Some (accept_info c) else None)) st1;
        accept_each ctxs conn st_code st1
  end.

Definition appif_accept_conn (conn st_code : Z) (st : spst) : option spst :=
  let app := ac_app (s_ctxs st !!! cn_ctx (conn_at st conn)) in
  '(done_, st) ← accept_each (forked_ctxs (s_apps st !!! app)) conn st_code st;
  Some (if done_ : bool then app_conn_add app conn st else st).

End AppNotify.
