(* ===== verification/Arp.v ===== *)
(** * ARP and routing (tas/slow/arp.c, tas/slow/routing.c)

    The ARP cache with the connections that wait for an entry, and the resolution of
    an address through the routing table.  [malloc] is an argument: the address of the
    new object, 0 when there is no memory.  All completions are those of connections:
    [comp->ptr] is [remote_mac], [comp->q] is [conn_async_q] and [notify_fd] is [-1]. *)

From S2P Require Import Prelude FpTypes SpTypes Links PacketMem Timeout Cc NicFlow SpState.
From S2P Require Import FlowTx.

Definition ETH_TYPE_ARP : Z := 2054.
Definition ARP_OPER_REQUEST : Z := 1.
Definition ARP_OPER_REPLY : Z := 2.
Definition ARP_HTYPE_ETHERNET : Z := 1.
Definition ARP_PTYPE_IPV4 : Z := 2048.
Definition MAC_BROADCAST : Z := 281474976710655.

Section Arp.
Context (E : fpenv) (config : configuration).

Definition upd_ae (p : Z) (f : arp_entry -> arp_entry) (st : spst) : spst :=
  st <| arp_heap ::= fun h => <[p := f (h !!! p)]> h |>.

(** [None]: returned [-1]. *)
Definition arp_init (malloced : Z) (st : spst) : option spst :=
  _ ← cassert (negb (malloced =? 0));
  Some (upd_ae malloced (fun _ => mk_ae 0 (config_ip config) (eth_addr E) [] 0 0 0) st
          <| arp_table := malloced |>).

Fixpoint ae_lookup_loop (fuel : nat) (h : gmap Z arp_entry) (ip ae : Z) : option Z :=
  match fuel with
  | O => None
  | S fuel =>
      if ae =? 0 then Some 0
      else if ae_ip (h !!! ae) =? ip then Some ae
      else ae_lookup_loop fuel h ip (ae_next (h !!! ae))
  end.

(** [Some 0]: not found. *)
Definition ae_lookup (ip : Z) (st : spst) : option Z :=
  ae_lookup_loop (S (size (arp_heap st))) (arp_heap st) ip (arp_table st).

(** The packets of [request_tx] and [response_tx]. *)
Definition arp_pkt (dst_mac dst_ip op : Z) : pkt_arp :=
  mk_pkt_arp (mk_eth dst_mac (eth_addr E) (t_beui16 ETH_TYPE_ARP))
    (mk_arp (t_beui16 ARP_HTYPE_ETHERNET) (t_beui16 ARP_PTYPE_IPV4) 6 4 (t_beui16 op)
       (eth_addr E) (t_beui32 (config_ip config)) dst_mac (t_beui32 dst_ip)).

Definition request_tx (dst_ip : Z) (st : spst) : bool * spst :=
  tx_push (TxArp (arp_pkt MAC_BROADCAST dst_ip ARP_OPER_REQUEST)) st.

Definition response_tx (dst_mac dst_ip : Z) (st : spst) : bool * spst :=
  tx_push (TxArp (arp_pkt dst_mac dst_ip ARP_OPER_REPLY)) st.

(** [memcpy] of six bytes to a MAC address in an [uint64_t]. *)
Definition mac_copy (old mac : Z) : Z := old / 281474976710656 * 281474976710656 + mac.

Definition set_mac (f : Z -> Z) (c : connection) : connection :=
  c <| cn_remote_mac := f (cn_remote_mac c) |>.

(** The return value is 0, 1 (pending) or -1. *)
Definition arp_request (comp ip malloced : Z) (st : spst) : option (Z * spst) :=
  let st := set_conn comp (set_mac (fun _ => 0)) st in
  ae ← ae_lookup ip st;
  if negb (ae =? 0) then
    let e := arp_heap st !!! ae in
    if ae_status e =? 0
    then Some (0, set_conn comp (set_mac (fun old => mac_copy old (ae_mac e))) st)
    else Some (1, upd_ae ae (fun e => e <| ae_compl ::= cons comp |>) st)
  else if malloced =? 0 then Some (-1, st)
  else
    let ae := malloced in
    let '(_, st) := request_tx ip st in
    st ← timeout_arm ae (arp_to config) TO_ARP_REQ st;
    let next := arp_table st in
    let st := upd_ae ae (fun _ => mk_ae 1 ip 0 [comp] (arp_to config) 0 next) st in
    let st := if negb (next =? 0) then upd_ae next (fun e => e <| ae_prev := ae |>) st else st in
    Some (1, st <| arp_table := ae |>).

(** Waiting connections are told that the entry is complete, or that there is none. *)
Definition comp_done (mac : Z) (comp : Z) (st : spst) : spst :=
  set_conn comp (fun c => c <| cn_remote_mac ::= fun old => mac_copy old mac |>
                            <| comp_status := 0 |>) st
    <| conn_async_q ::= fun q => q ++ [comp] |>.

Definition comp_failed (comp : Z) (st : spst) : spst :=
  set_conn comp (fun c => c <| comp_status := -1 |>) st
    <| conn_async_q ::= fun q => q ++ [comp] |>.

Fixpoint comps_each (f : Z -> spst -> spst) (l : list Z) (st : spst) : spst :=
  match l with [] => st | comp :: l => comps_each f l (f comp st) end.

(** A reply: [mac] is the sender's address. *)
Definition arp_reply (ae mac : Z) (st : spst) : option spst :=
  st ← (if ae_status (arp_heap st !!! ae) =? 1 then timeout_disarm ae st else Some st);
  let st := upd_ae ae (fun e => e <| ae_mac := mac |> <| ae_status := 0 |>) st in
  let st := comps_each (comp_done mac) (ae_compl (arp_heap st !!! ae)) st in
  Some (upd_ae ae (fun e => e <| ae_compl := [] |>) st).

Definition arp_packet (parp : pkt_arp) (st : spst) : option spst :=
  let arp := a_arp parp in
  if negb (f_beui16 (htype arp) =? ARP_HTYPE_ETHERNET)
     || negb (f_beui16 (ptype arp) =? ARP_PTYPE_IPV4)
     || negb (hlen arp =? 6) || negb (plen arp =? 4) then Some st
  else
    let op := f_beui16 (oper arp) in
    if op =? ARP_OPER_REQUEST then
      if negb (f_beui32 (tpa arp) =? config_ip config) then Some st
      else Some (response_tx (sha arp) (f_beui32 (spa arp)) st).2
    else if op =? ARP_OPER_REPLY then
      ae ← ae_lookup (f_beui32 (spa arp)) st;
      if ae =? 0 then Some st else arp_reply ae (sha arp) st
    else Some st.

(** Removing an entry from the table. *)
Definition arp_remove (ae : Z) (st : spst) : spst :=
  let e := arp_heap st !!! ae in
  let st := if negb (ae_prev e =? 0)
            then upd_ae (ae_prev e) (fun e' => e' <| ae_next := ae_next e |>) st
            else st <| arp_table := ae_next e |> in
  let st := if negb (ae_next e =? 0)
            then upd_ae (ae_next e) (fun e' => e' <| ae_prev := ae_prev e |>) st
            else st in
  st <| arp_heap ::= delete ae |>.

(** The timeout object of entry [ae]. *)
Definition arp_timeout (ae : Z) (st : spst) : option spst :=
  let e := arp_heap st !!! ae in
  _ ← cassert (negb (ae_status e =? 0));
  if arp_to_max config <=? u32 (ae_timeout e * 2) then
    Some (arp_remove ae (comps_each comp_failed (ae_compl e) st))
  else
    let '(_, st) := request_tx (ae_ip e) st in
    let st := upd_ae ae (fun e => e <| ae_timeout := u32 (ae_timeout e * 2) |>) st in
    timeout_arm ae (u32 (ae_timeout e * 2)) TO_ARP_REQ st.

(** ** Routing *)

Definition prefix_len_mask (len : Z) : Z := u32 (Z.lnot (Z.shiftl 1 (32 - len) - 1)).

(** [cr]: destination, prefix length and next hop; [None]: returned [-1]. *)
Fixpoint routing_entries (l : list (Z * Z * Z)) : option (list routing_table_entry) :=
  match l with
  | [] => Some []
  | (ip, prefix, hop) :: l =>
      let mask := prefix_len_mask prefix in
      if negb (Z.land mask ip =? ip) then None
      else t ← routing_entries l; Some (mk_rte ip mask hop :: t)
  end.

Definition routing_init (ip_prefix : Z) (routes : list (Z * Z * Z)) (st : spst)
    : option spst :=
  let mask := prefix_len_mask ip_prefix in
  t ← routing_entries routes;
  Some (st <| routing_table := mk_rte (Z.land (config_ip config) mask) mask 0 :: t |>).

(** The first entry that matches. *)
Fixpoint resolve (t : list routing_table_entry) (ip : Z) : option routing_table_entry :=
  match t with
  | [] => None
  | r :: t => if dest_ip r =? Z.land ip (dest_mask r) then Some r else resolve t ip
  end.

(** Following next hops to a directly connected address; [Some None]: no route. *)
Fixpoint routing_hops (fuel : nat) (t : list routing_table_entry) (ip : Z)
    : option (option Z) :=
  match fuel with
  | O => None
  | S fuel =>
      match resolve t ip with
      | None => Some None
      | Some r => if next_hop r =? 0 then Some (Some ip) else routing_hops fuel t (next_hop r)
      end
  end.

(** More hops than entries of the table never end ([routing_hops_enough]). *)
Definition routing_resolve (comp ip malloced : Z) (st : spst) : option (Z * spst) :=
  r ← routing_hops (S (length (routing_table st))) (routing_table st) ip;
  match r with
  | None => Some (-1, st)
  | Some ip => arp_request comp ip malloced st
  end.

End Arp.
