(* ===== verification/Tcp.v ===== *)
(** * TCP connection management (tas/slow/tcp.c)

    Opening, accepting, closing and failing connections: the state machine of the slow
    path.  The functions for plain and for GRE packets have the same body except for
    the packet type; the shared part is a definition of its own. *)

From S2P Require Import Prelude FpTypes SpTypes Links PacketMem Rng Timeout Cc NicFlow.
From S2P Require Import FlowTx SpState TcpConn Arp AppNotify.

Definition LISTEN_MULTI_MAX : Z := 32.
Definition BACKLOG_BUF : Z := 126.
Definition SYN_FLAGS : Z := Z.lor TAS_TCP_SYN (Z.lor TAS_TCP_ECE TAS_TCP_CWR).
Definition ECN_FLAGS : Z := Z.lor TAS_TCP_ECE TAS_TCP_CWR.

Section Tcp.
Context (E : fpenv) (config : configuration) (rte_hash_crc : list Z -> Z -> Z).

(** [send_control] or [send_control_gre], without the result. *)
Definition control (gre : bool) (conn flags : Z) (ts_opt : bool) (ts_echo mss : Z) (st : spst)
    : spst :=
  Datatypes.snd (if gre then send_control_gre E config conn flags ts_opt ts_echo mss st
                 else send_control E config conn flags ts_opt ts_echo mss st).

(** ** Start-up *)

Definition tcp_init (time_us malloced : Z) (st : spst) : option spst :=
  let '(rng, r) := utils_rng_gen32 (utils_rng_init time_us) in
  let st := st <| conn_async_q := [] |> <| s_rng := rng |>
               <| port_eph_hint := u16 (r mod (65535 - PORT_FIRST_EPH)) |> in
  if malloced =? 0 then None else Some (st <| tcp_hashtable := ∅ |>).

(** ** Failure and the end of connections *)

Definition set_status (s : connection_status) (c : connection) : connection :=
  c <| status := s |>.

Definition conn_failed (conn st_code : Z) (st : spst) : option spst :=
  st ← conn_unregister E conn st;
  st ← (if to_armed (conn_at st conn) then conn_timeout_disarm conn st else Some st);
  appif_conn_opened config conn st_code (set_conn conn (set_status CONN_FAILED) st).

Definition port_conn_free (p : Z) (st : spst) : spst :=
  match ports st !!! p with
  | PORT_CONN _ => st <| ports ::= <[p := PORT_UNUSED]> |>
  | _ => st
  end.

Definition conn_close_timeout (conn : Z) (st : spst) : option spst :=
  let c := conn_at st conn in
  let st := port_conn_free (cn_local_port c) st in
  st ← conn_unregister E conn st;
  st ← conn_free_bufs conn st;
  let st := st <| s_nic ::= nicif_connection_free (cn_flow_id c) |> in
  let st := port_conn_free (cn_local_port c) st in
  st ← appif_conn_closed conn 0 st;
  Some (conn_delete conn st).

(** The return value is 0 or [-1]. *)
Definition tcp_close (conn : Z) (st : spst) : option (Z * spst) :=
  let c := conn_at st conn in
  if negb (bool_decide (status c = CONN_OPEN)) then Some (-1, st)
  else
    let '((tx_seq, rx_seq, tx_c, rx_c), nic) :=
      nicif_connection_disable rte_hash_crc (cn_flow_id c) (s_nic st) in
    let st := st <| s_nic := nic |> in
    let st := set_conn conn (fun c => c <| remote_seq := rx_seq |> <| local_seq := tx_seq |>) st in
    let st := if negb tx_c || negb rx_c
              then control VIRTUOSO_GRE conn TAS_TCP_RST false 0 0 st else st in
    cc ← cc_conn_remove conn (s_cc st);
    let st := set_conn conn (set_status CONN_CLOSED) (st <| s_cc := cc |>) in
    _ ← cassert (negb (to_armed (conn_at st conn)));
    st ← timeout_arm conn 10000 TO_TCP_CLOSED st;
    Some (0, set_conn conn (fun c => c <| to_armed := true |>) st).

Definition tcp_timeout (conn type : Z) (st : spst) : option spst :=
  _ ← cassert (to_armed (conn_at st conn));
  let st := set_conn conn (fun c => c <| to_armed := false |>) st in
  if type =? TO_TCP_CLOSED then conn_close_timeout conn st
  else
    _ ← cassert (type =? TO_TCP_HANDSHAKE);
    _ ← cassert (bool_decide (status (conn_at st conn) = CONN_SYN_SENT));
    let st := set_conn conn (fun c => c <| to_attempts ::= Z.add 1 |>) st in
    if tcp_handshake_retries config <? to_attempts (conn_at st conn) then conn_failed conn (-1) st
    else
      let st := set_conn conn (fun c => c <| cn_timeout := u32 (cn_timeout c * 2) |>) st in
      st ← conn_timeout_arm conn TO_TCP_HANDSHAKE st;
      Some (control VIRTUOSO_GRE conn SYN_FLAGS true 0 TCP_MSS st).

(** ** Active opening *)

Definition conn_arp_done (conn : Z) (st : spst) : option spst :=
  let st := set_conn conn (fun c => c <| status := CONN_SYN_SENT |> <| to_attempts := 0 |>
                                      <| cn_timeout := tcp_handshake_to config |>) st in
  st ← conn_timeout_arm conn TO_TCP_HANDSHAKE st;
  Some (control VIRTUOSO_GRE conn SYN_FLAGS true 0 TCP_MSS st).

(** The fields [conn->ctx] gives. *)
Definition set_conn_ctx (ctx : Z) (st : spst) (c : connection) : connection :=
  let app := s_apps st !!! ac_app (s_ctxs st !!! ctx) in
  c <| cn_ctx := ctx |> <| cn_vm := ap_vm_id app |> <| cn_app_id := ap_id app |>.

(** Resolution of the peer's address: [None]: returned a negative value. *)
Definition open_resolve (conn ip arp_malloced : Z) (st : spst) : option (bool * spst) :=
  '(ret, st) ← routing_resolve E config conn ip arp_malloced st;
  if ret <? 0 then
    st ← conn_free conn st;
    Some (false, st)
  else
    let st := conn_register E conn st in
    st ← (if ret =? 0 then conn_arp_done conn st else Some st);
    let p := cn_local_port (conn_at st conn) in
    Some (true, st <| ports ::= <[p := PORT_CONN conn]> |>).

(** The packet of [send_ovs_fake_packet]; [ovs_tx_upcall] is not modelled. *)
Definition ovs_fake_packet (in_remote_ip remote_port local_port flags : Z) (ts_opt : bool)
    (ts_echo mss : Z) : pkt_gre * Z :=
  control_pkt_gre E config (mk_eth 0 0 (t_beui16 ETH_TYPE_IP)) 0 0 0 in_remote_ip remote_port
    local_port 0 0 flags ts_opt ts_echo mss.

(** Without GRE.  The result 0: returned [-1]. *)
Definition tcp_open (ctx opaque remote_ip remote_port db_id mc mr mt arp_malloced : Z) (st : spst)
    : option (Z * spst) :=
  let vm := ap_vm_id (s_apps st !!! ac_app (s_ctxs st !!! ctx)) in
  '(conn, st) ← conn_alloc config vm mc mr mt st;
  if conn =? 0 then Some (0, st)
  else
    '(local_port, st) ← port_alloc st;
    if local_port =? 0 then
      st ← conn_free conn st;
      Some (0, st)
    else
      let st := set_conn conn (fun c =>
        (set_conn_ctx ctx st c) <| cn_opaque := opaque |>
          <| cn_out_local_ip := config_ip config |> <| cn_remote_port := remote_port |>
          <| cn_local_port := local_port |> <| local_seq := 0 |> <| remote_seq := 0 |>
          <| cn_cc ::= fun cc => cc <| cnt_tx_pending := 0 |> |> <| cn_db_id := db_id |>
          <| cn_flags := 0 |> <| cn_out_remote_ip := remote_ip |> <| status := CONN_ARP_PENDING |>
          <| comp_status := 0 |>) st in
      '(ok, st) ← open_resolve conn remote_ip arp_malloced st;
      Some (if ok : bool then conn else 0, st).

(** [None] as the return value: [-1]; the connection is freed. *)
Definition tcp_open_resolve_routing (conn arp_malloced : Z) (st : spst) : option (bool * spst) :=
  let st := set_conn conn (fun c => c <| status := CONN_ARP_PENDING |> <| comp_status := 0 |>) st in
  open_resolve conn (cn_out_remote_ip (conn_at st conn)) arp_malloced st.

(** The arguments of [nicif_connection_add] and [nicif_connection_add_gre]. *)
Definition conn_args (c : connection) (lseq : Z) : add_args :=
  mk_add_args (cn_db_id c) (cn_vm c) (cn_app_id c) (cn_tunnel_id c) (cn_remote_mac c)
    (cn_out_local_ip c) (cn_out_remote_ip c) (cn_in_local_ip c) (cn_local_port c)
    (cn_in_remote_ip c) (cn_remote_port c) (rx_buf c) (cn_rx_len c) (tx_buf c) (cn_tx_len c)
    (remote_seq c) lseq (cn_opaque c) (cn_flags c) (cc_rate (cn_cc c)) (cn_flow_group c).

(** The call, and the flow id it stores. *)
Definition conn_install (gre : bool) (conn lseq : Z) (st : spst) : option (bool * spst) :=
  let a := conn_args (conn_at st conn) lseq in
  '(r, nic) ← (if gre then nicif_connection_add_gre rte_hash_crc a (s_nic st)
               else nicif_connection_add rte_hash_crc a (s_nic st));
  let st := st <| s_nic := nic |> in
  match r with
  | None => Some (false, st)
  | Some f => Some (true, set_conn conn (fun c => c <| cn_flow_id := f |>) st)
  end.

Definition cc_init_conn (conn : Z) (st : spst) : option spst :=
  cc ← cc_conn_init config conn (cur_ts st) (s_cc st);
  Some (st <| s_cc := cc |>).

Definition ecn_on (b : bool) (c : connection) : connection :=
  if b then c <| cn_flags ::= Z.lor NICIF_CONN_ECN |> else c.

(** The SYN-ACK; the return value is 0 or [-1]. *)
Definition syn_sent_packet (gre : bool) (conn : Z) (tcp : tcp_hdr) (rest : mem)
    (opts : tcp_opts) (st : spst) : option (Z * spst) :=
  st ← conn_timeout_disarm conn st;
  if negb (has_flag (TCPH_FLAGS tcp) (Z.lor TAS_TCP_SYN TAS_TCP_ACK)) then Some (-1, st)
  else match o_ts opts with
  | None => Some (-1, st)
  | Some off =>
      let ecn_flags := Z.land (TCPH_FLAGS tcp) ECN_FLAGS in
      let st := set_conn conn (fun c =>
        ecn_on (ecn_flags =? TAS_TCP_ECE)
          (c <| remote_seq := u32 (f_beui32 (tcp_seqno tcp) + 1) |>
             <| local_seq := f_beui32 (tcp_ackno tcp) |> <| syn_ts := ts_val rest off |>)) st in
      st ← cc_init_conn conn st;
      let st := set_conn conn (fun c => c <| comp_status := 0 |>) st in
      '(ok, st) ← conn_install gre conn (local_seq (conn_at st conn)) st;
      if negb ok then Some (-1, st)
      else
        let st := set_conn conn (set_status CONN_OPEN) st in
        let st := control gre conn TAS_TCP_ACK true (syn_ts (conn_at st conn)) 0 st in
        st ← appif_conn_opened config conn 0 st;
        Some (0, st)
  end.

Definition conn_syn_sent_packet (conn : Z) (p : pkt_tcp) (opts : tcp_opts) (st : spst)
    : option (Z * spst) := syn_sent_packet false conn (p_tcp p) (p_rest p) opts st.
Definition conn_syn_sent_packet_gre (conn : Z) (p : pkt_gre) (opts : tcp_opts) (st : spst)
    : option (Z * spst) := syn_sent_packet true conn (g_tcp p) (g_rest p) opts st.

(** A packet for a connection the slow path knows. *)
Definition conn_packet_any (gre : bool) (conn : Z) (tcp : tcp_hdr) (rest : mem)
    (opts : tcp_opts) (fncore flowgroup : Z) (st : spst) : option spst :=
  let c := conn_at st conn in
  if bool_decide (status c = CONN_SYN_SENT) then
    let st := set_conn conn (fun c => c <| fn_core := fncore |> <| cn_flow_group := flowgroup |>) st in
    '(ret, st) ← syn_sent_packet gre conn tcp rest opts st;
    if negb (ret =? 0) then conn_failed conn ret st else Some st
  else if bool_decide (status c = CONN_OPEN) && (TCPH_FLAGS tcp =? TAS_TCP_SYN) then
    match o_ts opts with
    | None => conn_failed conn (-1) st
    | Some off =>
        let ecn_flags := if has_flag (cn_flags c) NICIF_CONN_ECN then TAS_TCP_ECE else 0 in
        Some (control gre conn (Z.lor (Z.lor TAS_TCP_SYN TAS_TCP_ACK) ecn_flags) true
                (ts_val rest off) TCP_MSS st)
    end
  else if bool_decide (status c = CONN_OPEN) && has_flag (TCPH_FLAGS tcp) TAS_TCP_SYN then Some st
  else if bool_decide (status c = CONN_CLOSED) && has_flag (TCPH_FLAGS tcp) TAS_TCP_FIN then
    Some (control gre conn TAS_TCP_ACK true 0 0 st)
  else Some st.

Definition conn_packet (conn : Z) (p : pkt_tcp) (opts : tcp_opts) (fncore flowgroup : Z)
    (st : spst) : option spst :=
  conn_packet_any false conn (p_tcp p) (p_rest p) opts fncore flowgroup st.
Definition conn_packet_gre (conn : Z) (p : pkt_gre) (opts : tcp_opts) (fncore flowgroup : Z)
    (st : spst) : option spst :=
  conn_packet_any true conn (g_tcp p) (g_rest p) opts fncore flowgroup st.

Definition conn_reg_synack (conn : Z) (st : spst) : option spst :=
  let st := set_conn conn (set_status CONN_OPEN) st in
  let c := conn_at st conn in
  let ecn_flags := if has_flag (cn_flags c) NICIF_CONN_ECN then TAS_TCP_ECE else 0 in
  appif_accept_conn config conn 0
    (control VIRTUOSO_GRE conn (Z.lor (Z.lor TAS_TCP_SYN TAS_TCP_ACK) ecn_flags) true
       (syn_ts c) TCP_MSS st).

End Tcp.
