(* ===== verification/Listen.v ===== *)
(** * Listeners and received packets (tas/slow/tcp.c)

    Listening sockets with their backlog of SYN packets and their connections that wait
    to be accepted, the handling of a received packet, and the queue of completions. *)

From S2P Require Import Prelude FpTypes SpTypes Links PacketMem Rng Timeout Cc NicFlow.
From S2P Require Import FlowTx SpState TcpConn Arp AppNotify Tcp.

(** ** Lookup *)

Definition hash_64_to_32 (key : Z) : Z :=
  let key := u64 (18446744073709551615 - key + Z.shiftl key 18) in
  let key := Z.lxor key (Z.shiftr key 31) in
  let key := u64 (key * 21) in
  let key := Z.lxor key (Z.shiftr key 11) in
  let key := u64 (key + Z.shiftl key 6) in
  let key := Z.lxor key (Z.shiftr key 22) in
  u32 key.

(** The listener of a port, for a hash; 0: none. *)
Definition port_listener (port hash : Z) (st : spst) : option Z :=
  match ports st !!! port with
  | PORT_LISTEN l => Some l
  | PORT_LMULTI lm =>
      let ls := listen_multis st !!! lm in
      let num := Z.of_nat (length ls) in
      _ ← cassert (negb (num =? 0));
      Some (ls !!! Z.to_nat (hash mod num))
  | _ => Some 0
  end.

Definition listener_lookup (p : pkt_tcp) (st : spst) : option Z :=
  let port := f_beui16 (tcp_dest (p_tcp p)) in
  port_listener port
    (hash_64_to_32 (Z.lor (Z.lor (Z.shiftl (f_beui32 (ip_src (p_ip p))) 32)
                             (u32 (Z.shiftl (f_beui16 (tcp_src (p_tcp p))) 16))) port)) st.

Definition listener_lookup_gre (p : pkt_gre) (st : spst) : option Z :=
  let port := f_beui16 (tcp_dest (g_tcp p)) in
  let init_hash := hash_64_to_32 (Z.lor (Z.shiftl (f_beui32 (ip_src (g_in_ip p))) 32)
                                   (f_beui32 (gre_key (g_gre p)))) in
  port_listener port
    (hash_64_to_32 (Z.lor (Z.lor (Z.shiftl init_hash 32)
                             (u32 (Z.shiftl (f_beui16 (tcp_src (g_tcp p))) 16))) port)) st.

(** ** The backlog *)

(** The same addresses and ports (and tunnel). *)
Definition same_tcp (p q : tcp_hdr) : bool :=
  (f_beui16 (tcp_src p) =? f_beui16 (tcp_src q)) && (f_beui16 (tcp_dest p) =? f_beui16 (tcp_dest q)).
Definition same_ip (p q : ip_hdr) : bool :=
  (f_beui32 (ip_src p) =? f_beui32 (ip_src q)) && (f_beui32 (ip_dest p) =? f_beui32 (ip_dest q)).
Definition same_tuple (p q : sp_pkt) : bool :=
  match p, q with
  | SpTcp p, SpTcp q => same_ip (p_ip p) (p_ip q) && same_tcp (p_tcp p) (p_tcp q)
  | SpGre p, SpGre q =>
      same_ip (g_out_ip p) (g_out_ip q) && same_ip (g_in_ip p) (g_in_ip q)
      && (f_beui32 (gre_key (g_gre p)) =? f_beui32 (gre_key (g_gre q)))
      && same_tcp (g_tcp p) (g_tcp q)
  | _, _ => false
  end.

Fixpoint backlog_find (n : nat) (p : sp_pkt) (l : listener) (bp : Z) : bool :=
  match n with
  | O => false
  | S n =>
      if same_tuple p (bl_pkt (backlog l !!! bp)) then true
      else backlog_find n p l (u32 (bp + 1) mod backlog_len l)
  end.

(** [memcpy] of the first [len] bytes: the bytes behind them are the old ones. *)
Definition rest_copy (len : Z) (new old : mem) : mem := fun i => if i <? len then new i else old i.
Definition slot_rest (p : sp_pkt) : mem :=
  match p with SpTcp p => p_rest p | SpGre p => g_rest p end.
Definition slot_copy (len : Z) (p old : sp_pkt) : option sp_pkt :=
  match p with
  | SpTcp p =>
      _ ← cassert (sizeof_pkt_tcp <=? len);
      Some (SpTcp (p <| p_rest := rest_copy (len - sizeof_pkt_tcp) (p_rest p) (slot_rest old) |>))
  | SpGre p =>
      _ ← cassert (sizeof_pkt_gre <=? len);
      Some (SpGre (p <| g_rest := rest_copy (len - sizeof_pkt_gre) (g_rest p) (slot_rest old) |>))
  end.

(** [None] for the whole: a packet shorter than its headers was copied.  The flag: the
    packet was put into the backlog. *)
Definition backlog_put (l : Z) (p : sp_pkt) (len fncore flowgroup : Z) (st : spst)
    : option (bool * spst) :=
  let ls := listeners st !!! l in
  if BACKLOG_BUF <? len then Some (false, st)
  else if backlog_find (Z.to_nat (backlog_used ls)) p ls (backlog_pos ls) then Some (false, st)
  else if backlog_len ls =? backlog_used ls then Some (false, st)
  else
    let bp := u32 (backlog_pos ls + backlog_used ls) in
    let bp := if backlog_len ls <=? bp then bp - backlog_len ls else bp in
    q ← slot_copy len p (bl_pkt (backlog ls !!! bp));
    Some (true, set_listener l (fun ls =>
                  ls <| backlog ::= <[bp := mk_bls q len fncore flowgroup]> |>
                     <| backlog_used := u32 (backlog_used ls + 1) |>) st).

(** The end of [listener_accept]: the SYN is taken from the backlog. *)
Definition backlog_pop (l : Z) (st : spst) : spst :=
  set_listener l (fun ls =>
    let pos := u32 (backlog_pos ls + 1) in
    ls <| backlog_used := u32 (backlog_used ls - 1) |>
       <| backlog_pos := if backlog_len ls <=? pos then pos - backlog_len ls else pos |>) st.

Section Listen.
Context (E : fpenv) (config : configuration) (rte_hash_crc : list Z -> Z -> Z).

(** ** Accepting *)

(** The fields of the connection that come from the SYN. *)
Definition syn_tcp (tcp : tcp_hdr) (ts port : Z) (c : connection) : connection :=
  c <| cn_remote_port := f_beui16 (tcp_src tcp) |> <| cn_local_port := port |>
    <| remote_seq := u32 (f_beui32 (tcp_seqno tcp) + 1) |> <| local_seq := 1 |>
    <| syn_ts := ts |>.
Definition syn_offers_ecn (tcp : tcp_hdr) : bool := Z.land (TCPH_FLAGS tcp) ECN_FLAGS =? ECN_FLAGS.

Definition accept_fields (p : sp_pkt) (ts port fncore flowgroup : Z) (c : connection) : connection :=
  let c := c <| fn_core := fncore |> <| cn_flow_group := flowgroup |> in
  match p with
  | SpTcp p =>
      ecn_on (syn_offers_ecn (p_tcp p))
        (syn_tcp (p_tcp p) ts port
           (c <| cn_remote_mac := eth_src (p_eth p) |>
              <| cn_out_remote_ip := f_beui32 (ip_src (p_ip p)) |>
              <| cn_out_local_ip := config_ip config |>))
  | SpGre p =>
      ecn_on (syn_offers_ecn (g_tcp p))
        (syn_tcp (g_tcp p) ts port
           (c <| cn_remote_mac := eth_src (g_eth p) |>
              <| cn_tunnel_id := f_beui32 (gre_key (g_gre p)) |>
              <| cn_out_remote_ip := f_beui32 (ip_src (g_out_ip p)) |>
              <| cn_out_local_ip := config_ip config |>
              <| cn_in_remote_ip := f_beui32 (ip_src (g_in_ip p)) |>
              <| cn_in_local_ip := f_beui32 (ip_dest (g_in_ip p)) |>))
  end.

(** Unlinking the first waiting connection. *)
Definition wait_pop (l : Z) (st : spst) : spst :=
  set_listener l (fun ls =>
    let next := ht_next (conn_at st (wait_conns ls)) in
    ls <| wait_conns := next |>
       <| wait_conns_last := if next =? 0 then 0 else wait_conns_last ls |>) st.

(** The connection leaves the list of waiting connections and is queued. *)
Definition accept_finish (l conn : Z) (st : spst) : spst :=
  conn_register E conn (wait_pop l st) <| conn_async_q ::= fun q => q ++ [conn] |>.

(** [listener_accept] and [listener_accept_gre], before the label [out]. *)
Definition accept_syn (gre : bool) (l : Z) (st : spst) : option spst :=
  let ls := listeners st !!! l in
  let conn := wait_conns ls in
  let slot := backlog ls !!! backlog_pos ls in
  let p := bl_pkt slot in
  opts ← match p with
         | SpTcp p => parse_options p (bl_len slot)
         | SpGre p => parse_options_gre p (bl_len slot)
         end;
  match opts ≫= o_ts with
  | None => Some st
  | Some off =>
      let st := set_conn conn (accept_fields p (ts_val (slot_rest p) off) (ls_port ls)
                                 (bl_core slot) (bl_fg slot)) st in
      st ← cc_init_conn config conn st;
      let st := set_conn conn (fun c => c <| status := CONN_REG_SYNACK |> <| comp_status := 0 |>) st in
      '(ok, st) ← conn_install rte_hash_crc gre conn (u32 (local_seq (conn_at st conn) + 1)) st;
      Some (if ok : bool then accept_finish l conn st else st)
  end.

Definition listener_accept_any (gre : bool) (l : Z) (st : spst) : option spst :=
  let ls := listeners st !!! l in
  _ ← cassert (negb (wait_conns ls =? 0));
  _ ← cassert (0 <? backlog_used ls);
  st ← accept_syn gre l st;
  Some (backlog_pop l st).

Definition listener_accept (l : Z) (st : spst) : option spst := listener_accept_any false l st.
Definition listener_accept_gre (l : Z) (st : spst) : option spst := listener_accept_any true l st.

Definition is_syn (tcp : tcp_hdr) : bool :=
  Z.land (TCPH_FLAGS tcp) (Z.lxor 4294967295 ECN_FLAGS) =? TAS_TCP_SYN.

Definition listener_packet (l : Z) (p : pkt_tcp) (opts : tcp_opts) (fncore flowgroup : Z)
    (st : spst) : option spst :=
  if negb (is_syn (p_tcp p)) then Some (Datatypes.snd (send_reset E config p opts st))
  else
    '(put, st) ← backlog_put l (SpTcp p) (u16 (sizeof_eth + f_beui16 (ip_len (p_ip p))))
                   fncore flowgroup st;
    if negb put then Some st
    else
      st ← appif_listen_newconn l (f_beui32 (ip_src (p_ip p))) (f_beui16 (tcp_src (p_tcp p))) st;
      if negb (wait_conns (listeners st !!! l) =? 0) then listener_accept l st else Some st.

Definition listener_packet_gre (l : Z) (p : pkt_gre) (opts : tcp_opts) (fncore flowgroup : Z)
    (st : spst) : option spst :=
  if negb (is_syn (g_tcp p)) then Some (Datatypes.snd (send_reset_gre E config p opts st))
  else
    '(put, st) ← backlog_put l (SpGre p) (u16 (sizeof_eth + f_beui16 (ip_len (g_out_ip p))))
                   fncore flowgroup st;
    if negb put then Some st
    else
      st ← appif_listen_newconn_gre l (f_beui32 (ip_src (g_out_ip p))) (f_beui32 (ip_src (g_in_ip p)))
             (f_beui16 (tcp_src (g_tcp p))) (f_beui32 (gre_key (g_gre p))) st;
      if negb (wait_conns (listeners st !!! l) =? 0) then listener_accept_gre l st else Some st.

(** ** Opening listeners and accepting connections *)

(** The checks of [tcp_listen] on the port; [Some None]: a new [listen_multi]. *)
Definition listen_port (port : Z) (reuseport : bool) (st : spst) : option (option Z) :=
  match ports st !!! port, reuseport with
  | PORT_UNUSED, false => Some None
  | PORT_UNUSED, true => Some None
  | PORT_LMULTI lm, true =>
      if Z.of_nat (length (listen_multis st !!! lm)) =? LISTEN_MULTI_MAX then None
      else Some (Some lm)
  | _, _ => None
  end.

(** [ml] and [mm]: memory for the listener with its backlog, and for the [listen_multi].
    The result 0: returned [-1]. *)
Definition tcp_listen (ctx opaque local_port : Z) (reuseport : bool) (ml mm : Z) (st : spst)
    : Z * spst :=
  let backlog := 2048 in
  match listen_port local_port reuseport st with
  | None => (0, st)
  | Some lm =>
      let new_multi := reuseport && negb (bool_decide (is_Some lm)) in
      if (new_multi && (mm =? 0)) || (ml =? 0) then (0, st)
      else
        let st := set_listener ml (fun _ =>
          mk_listener opaque ctx 0 0 backlog 0 0 ∅ 0 0 local_port 0) st in
        if negb reuseport then (ml, st <| ports ::= <[local_port := PORT_LISTEN ml]> |>)
        else
          let m := default mm lm in
          let st := st <| listen_multis ::= fun h =>
                            <[m := (if new_multi then [] else h !!! m) ++ [ml]]> h |> in
          (ml, if new_multi then st <| ports ::= <[local_port := PORT_LMULTI m]> |> else st)
  end.

(** The return value is 0 or [-1]. *)
Definition tcp_accept (ctx opaque l db_id mc mr mt : Z) (st : spst) : option (Z * spst) :=
  let vm := ap_vm_id (s_apps st !!! ac_app (s_ctxs st !!! ctx)) in
  '(conn, st) ← conn_alloc config vm mc mr mt st;
  if conn =? 0 then Some (-1, st)
  else
    _ ← cassert (negb (l =? 0));
    let ls := listeners st !!! l in
    let st := set_conn conn (fun c =>
      (set_conn_ctx ctx st c) <| cn_opaque := opaque |> <| status := CONN_SYN_WAIT |>
        <| cn_local_port := ls_port ls |> <| cn_db_id := db_id |> <| cn_flags := ls_flags ls |>
        <| cn_cc ::= fun cc => cc <| cnt_tx_pending := 0 |> |> <| ht_next := 0 |>) st in
    let st := if wait_conns ls =? 0
              then set_listener l (fun ls => ls <| wait_conns := conn |>) st
              else set_conn (wait_conns_last ls) (set_ht_next conn) st in
    let st := set_listener l (fun ls => ls <| wait_conns_last := conn |>) st in
    if 0 <? backlog_used (listeners st !!! l) then
      st ← (if VIRTUOSO_GRE then listener_accept_gre l st else listener_accept l st);
      Some (0, st)
    else Some (0, st).

(** ** Received packets *)

Definition tcp_packet (p : pkt_tcp) (len fncore flowgroup : Z) (st : spst) : option (Z * spst) :=
  if len <? sizeof_pkt_tcp then Some (-1, st)
  else if negb (f_beui32 (ip_dest (p_ip p)) =? config_ip config) then Some (-1, st)
  else
    opts ← parse_options p len;
    match opts with
    | None => Some (-1, st)
    | Some opts =>
        c ← conn_lookup E p st;
        if negb (c =? 0) then
          st ← conn_packet E config rte_hash_crc c p opts fncore flowgroup st; Some (0, st)
        else
          l ← listener_lookup p st;
          if negb (l =? 0) then
            st ← listener_packet l p opts fncore flowgroup st; Some (0, st)
          else
            Some (-1, if (Z.land (TCPH_FLAGS (p_tcp p)) TAS_TCP_RST =? 0) && negb (kni_enabled config)
                      then Datatypes.snd (send_reset E config p opts st) else st)
    end.

Definition gre_packet (p : pkt_gre) (len fncore flowgroup : Z) (st : spst) : option (Z * spst) :=
  if len <? sizeof_pkt_gre then Some (-1, st)
  else if negb (f_beui32 (ip_dest (g_out_ip p)) =? config_ip config) then Some (-1, st)
  else
    opts ← parse_options_gre p len;
    match opts with
    | None => Some (-1, st)
    | Some opts =>
        c ← conn_lookup_gre E p st;
        if negb (c =? 0) then
          st ← conn_packet_gre E config rte_hash_crc c p opts fncore flowgroup st; Some (0, st)
        else
          l ← listener_lookup_gre p st;
          if negb (l =? 0) then
            st ← listener_packet_gre l p opts fncore flowgroup st; Some (0, st)
          else
            Some (-1, if (Z.land (TCPH_FLAGS (g_tcp p)) TAS_TCP_RST =? 0) && negb (kni_enabled config)
                      then Datatypes.snd (send_reset_gre E config p opts st) else st)
    end.

(** ** Completions *)

(** One connection of the queue; [arp_malloced] is used when its address is resolved. *)
Definition poll_conn (conn arp_malloced : Z) (st : spst) : option spst :=
  let c := conn_at st conn in
  match status c with
  | CONN_OVS_COMP =>
      '(ok, st) ← tcp_open_resolve_routing E config conn arp_malloced st;
      if negb ok then conn_free conn st else Some st
  | CONN_ARP_PENDING =>
      if negb (comp_status c =? 0) then conn_failed E config conn (comp_status c) st
      else conn_arp_done E config conn st
  | CONN_REG_SYNACK =>
      if negb (comp_status c =? 0) then conn_failed E config conn (comp_status c) st
      else conn_reg_synack E config conn st
  | _ => Some st
  end.

(** [mallocs n]: the memory for the [n]-th connection.  The queue only gets shorter, so
    that its length is enough fuel. *)
Fixpoint tcp_poll_loop (fuel : nat) (mallocs : nat -> Z) (st : spst) : option spst :=
  match conn_async_q st with
  | [] => Some st
  | conn :: q =>
      match fuel with
      | O => None
      | S fuel =>
          st ← poll_conn conn (mallocs fuel) (st <| conn_async_q := q |>);
          tcp_poll_loop fuel mallocs st
      end
  end.

Definition tcp_poll (mallocs : nat -> Z) (st : spst) : option spst :=
  tcp_poll_loop (length (conn_async_q st)) mallocs st.

End Listen.
