(* ===== verification/ArpThms.v ===== *)
(** * ARP and routing: proofs (tas/slow/arp.c, tas/slow/routing.c)

    Following next hops visits every entry of the routing table at most once or never ends.
    The ARP table is a doubly linked list whose unresolved entries are exactly those with a
    timeout.  Then a concrete slow path, and the theorem. *)

From stdpp Require Import gmap sets.
From Stdlib Require Import Sorting.Sorted.
From S2P Require Import Prelude FpTypes Links FlowTx Timeout TimeoutThms PacketMem SpTypes Cc.
From S2P Require Import NicFlow SpState Arp.
From S2P Require CcThms Examples.

(** ** Routing *)

(** The next address on the way to [ip], when [ip] is not directly connected. *)
Definition hop (t : list routing_table_entry) (ip : Z) : option Z :=
  match resolve t ip with
  | Some r => if next_hop r =? 0 then None else Some (next_hop r)
  | None => None
  end.

(** The addresses visited on the way from an address to its last hop. *)
Inductive walk (t : list routing_table_entry) : Z -> list Z -> Prop :=
| walk_end ip : hop t ip = None -> walk t ip []
| walk_hop ip ip' l : hop t ip = Some ip' -> walk t ip' l -> walk t ip (ip' :: l).

Lemma walk_det t ip l l' : walk t ip l -> walk t ip l' -> l = l'.
Proof.
  intros H. revert l'. induction H as [ip E|ip ip' l E _ IH]; intros l' H'; inversion H';
    [done|congruence..|]. f_equal; [congruence|]. apply IH. congruence.
Qed.

Lemma walk_suffix t ip l x :
  walk t ip l -> x ∈ l -> exists l', walk t x l' /\ (length l' < length l)%nat.
Proof.
  induction 1 as [|ip ip' l E H IH]; [by intros ?%not_elem_of_nil|].
  intros [->|Hx]%elem_of_cons; [exists l; cbn; auto with lia|].
  destruct (IH Hx) as (l' & ? & ?). exists l'. cbn. auto with lia.
Qed.

Lemma walk_nodup t ip l : walk t ip l -> ip ∉ l /\ NoDup l.
Proof.
  induction 1 as [|ip ip' l E H [Hn Hd]]; [split; [apply not_elem_of_nil|by constructor]|].
  split; [|by constructor]. intros Hin.
  destruct (walk_suffix t ip (ip' :: l) ip) as (l' & Hw & Hl); [by econstructor|done|].
  rewrite (walk_det _ _ _ _ Hw (walk_hop _ _ _ _ E H)) in Hl. lia.
Qed.

Lemma resolve_in t ip r : resolve t ip = Some r -> r ∈ t.
Proof.
  induction t as [|r' t IH]; [done|]. cbn. case_match; [|by intros; right; apply IH].
  intros [= ->]. apply list_elem_of_here.
Qed.

Lemma walk_hops t ip l : walk t ip l -> forall x, x ∈ l -> x ∈ map next_hop t.
Proof.
  induction 1 as [|ip ip' l E H IH]; [by intros ? ?%not_elem_of_nil|].
  intros x [->|Hx]%elem_of_cons; [|auto]. unfold hop in E.
  destruct (resolve t ip) as [r|] eqn:Er; [|done]. case_match; simplify_eq.
  apply list_elem_of_fmap. exists r. split; [done|]. by eapply resolve_in.
Qed.

Lemma walk_length t ip l : walk t ip l -> (length l <= length t)%nat.
Proof.
  intros H. rewrite <- (length_map next_hop t). apply submseteq_length, NoDup_submseteq;
    [by eapply walk_nodup|]. by eapply walk_hops.
Qed.

Lemma routing_hops_walk fuel t ip r :
  routing_hops fuel t ip = Some r -> exists l, walk t ip l /\ (length l < fuel)%nat.
Proof.
  revert ip. induction fuel as [|fuel IH]; intros ip; [done|]. cbn [routing_hops].
  destruct (resolve t ip) as [e|] eqn:Er.
  - destruct (Z.eqb_spec (next_hop e) 0) as [E0|E0].
    + intros _. exists []. cbn. split; [|lia]. constructor. unfold hop. by rewrite Er, E0.
    + intros (l & Hw & Hl)%IH. exists (next_hop e :: l). cbn. split; [|lia].
      econstructor; [|done]. unfold hop. by rewrite Er, (proj2 (Z.eqb_neq _ _) E0).
  - intros _. exists []. cbn. split; [|lia]. constructor. unfold hop. by rewrite Er.
Qed.

Lemma routing_hops_fuel t ip l fuel fuel' :
  walk t ip l -> (length l < fuel)%nat -> (length l < fuel')%nat ->
  routing_hops fuel t ip = routing_hops fuel' t ip.
Proof.
  intros H. revert fuel fuel'. induction H as [ip E|ip ip' l E H IH];
    intros [|fuel] [|fuel']; cbn [length]; try lia; intros H1 H2; cbn [routing_hops];
    unfold hop in E; destruct (resolve t ip) as [e|]; try done;
    destruct (Z.eqb_spec (next_hop e) 0); try done; simplify_eq.
  apply IH; lia.
Qed.

(** More hops than the table has entries are never needed. *)
Lemma routing_hops_enough t ip fuel r :
  routing_hops fuel t ip = Some r -> routing_hops (S (length t)) t ip = Some r.
Proof.
  intros H. destruct (routing_hops_walk _ _ _ _ H) as (l & Hw & Hl).
  rewrite <- H. eapply routing_hops_fuel; [done| |done].
  pose proof (walk_length _ _ _ Hw). lia.
Qed.

(** The address that is found is directly connected. *)
Lemma routing_hops_direct fuel t ip gw :
  routing_hops fuel t ip = Some (Some gw) ->
  exists r, resolve t gw = Some r /\ next_hop r = 0.
Proof.
  revert ip. induction fuel as [|fuel IH]; intros ip; [done|]. cbn [routing_hops].
  destruct (resolve t ip) as [r|] eqn:Er; [|done].
  destruct (Z.eqb_spec (next_hop r) 0); [|apply IH]. intros [= <-]. eauto.
Qed.

(** ** The ARP table *)

Definition anx (st : spst) (p : Z) : Z := ae_next (arp_heap st !!! p).
Definition apv (st : spst) (p : Z) : Z := ae_prev (arp_heap st !!! p).
Definition aip (st : spst) (p : Z) : Z := ae_ip (arp_heap st !!! p).

(** The table has the entries [l]; the timeouts that are armed are [A].  The timeout of
    an unresolved entry is armed, unless it is being handled ([fired]). *)
Record arp_ok (now : Z) (A : gset Z) (fired : option Z) (l : list Z) (st : spst) : Prop :=
  mk_arp_ok {
  ao_links : exists t, dseg (anx st) (apv st) 0 (arp_table st) l t 0;
  ao_nodup : NoDup l;
  ao_null : 0 ∉ l;
  ao_dom : forall x, x ∈ l -> is_Some (arp_heap st !! x);
  ao_ips : NoDup (map (aip st) l);
  ao_now : s_now st = u32 now;
  ao_tm : exists tl td dl, tm_rep now (s_tm st) tl td dl
                           /\ forall y, y ∈ tl ++ td <-> y ∈ A;
  ao_armed : forall x, x ∈ l -> (x ∈ A <-> ae_status (arp_heap st !!! x) = 1
                                           /\ fired <> Some x);
  ao_status : forall x, x ∈ l -> ae_status (arp_heap st !!! x) = 0
                                 \/ ae_status (arp_heap st !!! x) = 1;
  ao_done : forall x, x ∈ l -> ae_status (arp_heap st !!! x) = 0 ->
            ae_compl (arp_heap st !!! x) = [];
  ao_timeout : forall x, x ∈ l -> 0 <= ae_timeout (arp_heap st !!! x) < 134217728 }.

Lemma upd_ae_view {X} (g : arp_entry -> X) p f st x :
  g (arp_heap (upd_ae p f st) !!! x)
  = if x =? p then g (f (arp_heap st !!! p)) else g (arp_heap st !!! x).
Proof.
  unfold upd_ae. cbn [arp_heap setf]. destruct (Z.eqb_spec x p) as [->|Hne].
  - by rewrite lookup_total_insert_eq.
  - by rewrite lookup_total_insert_ne.
Qed.

(** The functions of the timeout manager, in this state. *)
Lemma timeout_arm_ok now (A : gset Z) st x us type tl td dl :
  tm_rep now (s_tm st) tl td dl -> (forall y, y ∈ tl ++ td <-> y ∈ A) ->
  s_now st = u32 now -> x ∉ A -> x <> 0 -> 0 <= us < 134217728 -> 0 <= type < 16 ->
  exists m, timeout_arm x us type st = Some (st <| s_tm := m |>)
  /\ exists tl' td' dl', tm_rep now m tl' td' dl'
     /\ forall y, y ∈ tl' ++ td' <-> y ∈ {[x]} ∪ A.
Proof.
  intros Hr HA Hnow Hx H0 Hus Hty. unfold timeout_arm. rewrite Hnow.
  destruct (util_timeout_arm_ok now (s_tm st) tl td dl x us type Hr)
    as (m & l1 & A1 & B1 & -> & -> & _ & _ & _ & Hr' & _); [by rewrite HA|done..|].
  exists m. split; [done|]. do 3 eexists. split; [exact Hr'|]. intros y.
  rewrite elem_of_union, elem_of_singleton, <- HA, !elem_of_app, elem_of_cons. tauto.
Qed.

Lemma timeout_disarm_ok now (A : gset Z) st x tl td dl :
  tm_rep now (s_tm st) tl td dl -> (forall y, y ∈ tl ++ td <-> y ∈ A) -> x ∈ A ->
  exists m, timeout_disarm x st = Some (st <| s_tm := m |>)
  /\ exists tl' td' dl', tm_rep now m tl' td' dl'
     /\ forall y, y ∈ tl' ++ td' <-> y ∈ A ∖ {[x]}.
Proof.
  intros Hr HA Hx. unfold timeout_disarm.
  destruct (util_timeout_disarm_ok now (s_tm st) tl td dl x Hr)
    as (m & -> & l' & d' & Hr' & Hl & Hd & _); [by rewrite HA|].
  exists m. split; [done|]. do 3 eexists. split; [exact Hr'|]. intros y.
  rewrite elem_of_difference, elem_of_singleton, <- HA, !elem_of_app, Hl, Hd. tauto.
Qed.

(** A lookup walks through the list. *)
Lemma ae_lookup_loop_ok fuel h ip p l :
  path (fun x => ae_next (h !!! x)) p l 0 -> 0 ∉ l -> (length l < fuel)%nat ->
  ae_lookup_loop fuel h ip p
  = Some (default 0 (list_find (fun x => ae_ip (h !!! x) = ip) l ≫= fun '(_, x) => Some x)).
Proof.
  revert fuel p. induction l as [|x l IH]; intros [|fuel] p Hp H0 Hl; cbn [length] in Hl;
    try lia; cbn [ae_lookup_loop].
  - by rewrite Hp.
  - destruct Hp as [-> Hp]. rewrite elem_of_cons in H0. cbn [list_find].
    rewrite (proj2 (Z.eqb_neq x 0)) by (intros ->; tauto).
    destruct (Z.eqb_spec (ae_ip (h !!! x)) ip) as [E|E].
    + by rewrite decide_True.
    + rewrite decide_False by done. rewrite (IH fuel _ Hp) by (tauto || lia).
      by destruct (list_find _ l) as [[]|].
Qed.

Lemma dseg_path nx pv p h l t e : dseg nx pv p h l t e -> path nx h l e.
Proof.
  revert p h. induction l as [|x l IH]; intros p h; [by intros [-> _]|].
  intros (-> & _ & Hs). split; [done|]. by eapply IH.
Qed.

Section ArpProofs.
Context (E : fpenv) (config : configuration).

(** The result of a lookup in the table. *)
Lemma ae_lookup_ok now A fi l st ip :
  arp_ok now A fi l st ->
  exists x, ae_lookup ip st = Some x
  /\ ((x = 0 /\ forall y, y ∈ l -> aip st y <> ip) \/ (x <> 0 /\ x ∈ l /\ aip st x = ip)).
Proof.
  intros Ho. unfold ae_lookup. destruct (ao_links _ _ _ _ _ Ho) as [t Hs].
  rewrite (ae_lookup_loop_ok _ _ _ _ l (dseg_path _ _ _ _ _ _ _ Hs) (ao_null _ _ _ _ _ Ho)).
  - eexists. split; [done|]. destruct (list_find _ l) as [[i x]|] eqn:Ef; cbn.
    + apply list_find_Some in Ef as (Hl & He & _). right.
      apply list_elem_of_lookup_2 in Hl. split; [|done]. intros ->.
      by apply (ao_null _ _ _ _ _ Ho).
    + left. split; [done|]. intros y Hy He. apply list_find_None in Ef.
      rewrite Forall_forall in Ef. by apply (Ef y Hy).
  - apply Nat.lt_succ_r, length_le_size; [apply (ao_nodup _ _ _ _ _ Ho)|].
    apply (ao_dom _ _ _ _ _ Ho).
Qed.

Lemma aip_inj now A fi l st x y :
  arp_ok now A fi l st -> x ∈ l -> y ∈ l -> aip st x = aip st y -> x = y.
Proof.
  intros Ho [i Hi]%list_elem_of_lookup_1 [j Hj]%list_elem_of_lookup_1 He.
  assert (i = j) as ->; [|congruence].
  eapply (NoDup_lookup _ _ _ (aip st x) (ao_ips _ _ _ _ _ Ho)).
  - rewrite list_lookup_fmap, Hi. done.
  - rewrite list_lookup_fmap, Hj. cbn. by rewrite He.
Qed.

(** Changing what is not linked keeps the table. *)
Definition relink_free (f : arp_entry -> arp_entry) : Prop :=
  forall e, ae_next (f e) = ae_next e /\ ae_prev (f e) = ae_prev e /\ ae_ip (f e) = ae_ip e.

Lemma upd_ae_links p f l st :
  relink_free f ->
  (exists t, dseg (anx st) (apv st) 0 (arp_table st) l t 0) ->
  (exists t, dseg (anx (upd_ae p f st)) (apv (upd_ae p f st)) 0 (arp_table st) l t 0)
  /\ map (aip (upd_ae p f st)) l = map (aip st) l.
Proof.
  intros Hf [t Hs]. split.
  - exists t. eapply dseg_ext; [|exact Hs]. intros x _. unfold anx, apv.
    rewrite !upd_ae_view. destruct (Z.eqb_spec x p) as [->|]; [|done].
    split; apply Hf.
  - apply map_ext. intros x. unfold aip. rewrite upd_ae_view.
    destruct (Z.eqb_spec x p) as [->|]; [|done]. apply Hf.
Qed.

(** What the operations on connections and the queue to the fast path keep. *)
Definition arp_same (st st' : spst) : Prop :=
  arp_heap st' = arp_heap st /\ arp_table st' = arp_table st /\ s_tm st' = s_tm st
  /\ s_now st' = s_now st.

Lemma arp_ok_same now A fi l st st' :
  arp_same st st' -> arp_ok now A fi l st -> arp_ok now A fi l st'.
Proof.
  intros (E1 & E2 & E3 & E4) []. constructor; unfold anx, apv, aip in *;
    rewrite ?E1, ?E2, ?E3, ?E4; done.
Qed.

Lemma arp_same_set_conn p f st : arp_same st (set_conn p f st).
Proof. done. Qed.

Lemma arp_same_push p st : arp_same st (tx_push p st).2.
Proof. unfold tx_push. by destruct (_ <=? _). Qed.

Lemma arp_same_trans st1 st2 st3 : arp_same st1 st2 -> arp_same st2 st3 -> arp_same st1 st3.
Proof. unfold arp_same. intros (-> & -> & -> & ->). done. Qed.

(** What a completion does to one connection, and to all the waiting ones. *)
Lemma comps_each_ok f g l st :
  (forall comp st, f comp st = set_conn comp g st <| conn_async_q ::= fun q => q ++ [comp] |>) ->
  let st' := comps_each f l st in
  st' = st <| s_cc := s_cc st' |> <| conn_async_q := conn_async_q st ++ l |>
  /\ (forall c, c ∉ l -> conn_at st' c = conn_at st c)
  /\ (NoDup l -> forall c, c ∈ l -> conn_at st' c = g (conn_at st c)).
Proof.
  intros Hf. revert st. induction l as [|x l IH]; intros st; cbn [comps_each].
  { split; [|split]; [|done|by intros _ c ?%not_elem_of_nil]. rewrite app_nil_r. by destruct st. }
  destruct (IH (f x st)) as (E1 & E2 & E3). rewrite E1 at 1. clear E1. rewrite Hf in *.
  split; [|split].
  - cbn. by rewrite <- app_assoc.
  - intros c Hc. rewrite elem_of_cons in Hc. rewrite E2 by tauto.
    unfold conn_at, set_conn, upd_conn. cbn [conns s_cc setf].
    rewrite lookup_total_insert_ne; [done|]. intros ->. tauto.
  - intros [Hx Hnd]%NoDup_cons c Hc. apply elem_of_cons in Hc as [->|Hc].
    + rewrite E2 by done. unfold conn_at, set_conn, upd_conn. cbn [conns s_cc setf].
      by rewrite lookup_total_insert_eq.
    + rewrite E3 by done. unfold conn_at, set_conn, upd_conn. cbn [conns s_cc setf].
      rewrite lookup_total_insert_ne; [done|]. by intros ->.
Qed.

Definition conn_done (mac : Z) (c : connection) : connection :=
  c <| cn_remote_mac ::= fun old => mac_copy old mac |> <| comp_status := 0 |>.
Definition conn_no_arp (c : connection) : connection := c <| comp_status := -1 |>.

Lemma mac_copy_low old mac : 0 <= mac < 281474976710656 -> mac_copy old mac mod 281474976710656 = mac.
Proof. intros H. unfold mac_copy. rewrite Z.add_comm, Z_mod_plus_full. by apply Z.mod_small. Qed.

(** One entry changes, and its timeout. *)
Lemma arp_ok_update now (A A' : gset Z) fi fi' l st st' x e :
  arp_ok now A fi l st -> x ∈ l ->
  arp_heap st' = <[x := e]> (arp_heap st) -> arp_table st' = arp_table st ->
  s_now st' = s_now st ->
  (exists tl td dl, tm_rep now (s_tm st') tl td dl /\ forall y, y ∈ tl ++ td <-> y ∈ A') ->
  ae_next e = anx st x -> ae_prev e = apv st x -> ae_ip e = aip st x ->
  (forall y, y <> x -> (y ∈ A' <-> y ∈ A) /\ (fi' = Some y <-> fi = Some y)) ->
  (x ∈ A' <-> ae_status e = 1 /\ fi' <> Some x) -> ae_status e = 0 \/ ae_status e = 1 ->
  (ae_status e = 0 -> ae_compl e = []) -> 0 <= ae_timeout e < 134217728 ->
  arp_ok now A' fi' l st'.
Proof.
  intros [[t Hs] Hnd H0 Hdom Hips Hnow Htm Harm Hst Hdn Hto] Hx Eh Et En Htm' Enx Epv Eip HA'
    Hxa Hxs Hxc Hxt.
  assert (Hy : forall y, y <> x -> arp_heap st' !!! y = arp_heap st !!! y)
    by (intros; rewrite Eh; by apply lookup_total_insert_ne).
  assert (Hx' : arp_heap st' !!! x = e) by (rewrite Eh; apply lookup_total_insert_eq).
  assert (Hcase : forall (P : Z -> arp_entry -> Prop), P x e ->
    (forall y, y ∈ l -> y <> x -> P y (arp_heap st !!! y)) ->
    forall y, y ∈ l -> P y (arp_heap st' !!! y)).
  { intros P Px Py y Hyl. destruct (decide (y = x)) as [->|Hne]; [by rewrite Hx'|].
    rewrite Hy by done. auto. }
  constructor; try done.
  - exists t. rewrite Et. eapply dseg_ext; [|exact Hs]. unfold anx, apv. intros y Hyl.
    apply (Hcase (fun y e => ae_next e = anx st y /\ ae_prev e = apv st y)); done.
  - intros y Hyl. rewrite Eh. apply lookup_insert_is_Some. destruct (decide (x = y)); auto.
  - replace (map (aip st') l) with (map (aip st) l); [done|]. apply map_ext_in.
    intros y Hyl%list_elem_of_In. symmetry.
    apply (Hcase (fun y e => ae_ip e = aip st y)); done.
  - by rewrite En.
  - apply (Hcase (fun y e => y ∈ A' <-> ae_status e = 1 /\ fi' <> Some y)); [done|].
    intros y Hyl Hne. destruct (HA' y Hne) as [-> ->]. by apply Harm.
  - apply (Hcase (fun y e => ae_status e = 0 \/ ae_status e = 1)); auto.
  - apply (Hcase (fun y e => ae_status e = 0 -> ae_compl e = [])); auto.
  - apply (Hcase (fun y e => 0 <= ae_timeout e < 134217728)); auto.
Qed.

Lemma upd_ae_eq p f st : arp_heap (upd_ae p f st) = <[p := f (arp_heap st !!! p)]> (arp_heap st).
Proof. done. Qed.

(** A reply completes the entry and its waiting connections. *)
Lemma arp_reply_ok now A l st x mac :
  arp_ok now A None l st -> x ∈ l ->
  let e := arp_heap st !!! x in
  exists st', arp_reply x mac st = Some st'
  /\ arp_ok now (A ∖ {[x]}) None l st'
  /\ arp_heap st' !!! x = e <| ae_mac := mac |> <| ae_status := 0 |> <| ae_compl := [] |>
  /\ (forall y, y <> x -> arp_heap st' !!! y = arp_heap st !!! y)
  /\ conn_async_q st' = conn_async_q st ++ ae_compl e
  /\ (forall c, c ∉ ae_compl e -> conn_at st' c = conn_at st c)
  /\ (NoDup (ae_compl e) -> forall c, c ∈ ae_compl e ->
        conn_at st' c = conn_done mac (conn_at st c)).
Proof.
  intros Ho Hx e. unfold arp_reply. fold e.
  destruct (ao_tm _ _ _ _ _ Ho) as (tl & td & dl & Hr & HA).
  assert (Hdis : exists m, (if ae_status e =? 1 then timeout_disarm x st else Some st)
                           = Some (st <| s_tm := m |>)
    /\ exists tl' td' dl', tm_rep now m tl' td' dl' /\ forall y, y ∈ tl' ++ td' <-> y ∈ A ∖ {[x]}).
  { destruct (Z.eqb_spec (ae_status e) 1) as [E1|E1].
    - apply (timeout_disarm_ok _ _ _ _ _ _ _ Hr HA), (ao_armed _ _ _ _ _ Ho x Hx).
      split; [exact E1|done].
    - exists (s_tm st). split; [by destruct st|]. exists tl, td, dl. split; [done|].
      intros y. rewrite HA, elem_of_difference, elem_of_singleton.
      split; [|tauto]. intros Hy. split; [done|]. intros ->.
      apply (ao_armed _ _ _ _ _ Ho x Hx) in Hy as [? _]. done. }
  destruct Hdis as (m & -> & Htm). cbn [mbind option_bind].
  set (st1 := upd_ae x (fun e => e <| ae_mac := mac |> <| ae_status := 0 |>) (st <| s_tm := m |>)).
  assert (Ec : ae_compl (arp_heap st1 !!! x) = ae_compl e).
  { unfold st1. rewrite upd_ae_view, Z.eqb_refl. done. }
  rewrite Ec.
  destruct (comps_each_ok (comp_done mac) (conn_done mac) (ae_compl e) st1) as (E1 & E2 & E3);
    [done|]. set (st2 := comps_each _ _ _) in *. cbv zeta in E1.
  eexists. split; [done|].
  assert (Eh2 : arp_heap st2 = arp_heap st1) by (by rewrite E1).
  assert (Eh : arp_heap (upd_ae x (fun e => e <| ae_compl := [] |>) st2)
    = <[x := e <| ae_mac := mac |> <| ae_status := 0 |> <| ae_compl := [] |>]> (arp_heap st)).
  { rewrite upd_ae_eq, Eh2. unfold st1. rewrite upd_ae_eq. cbn [arp_heap setf].
    rewrite lookup_total_insert_eq. fold e. apply insert_insert_eq. }
  split; [|split; [|split; [|split; [|split]]]].
  - apply (arp_ok_update now A _ None None l st _ x _ Ho Hx Eh); try done.
    + cbn [arp_table upd_ae setf]. by rewrite E1.
    + cbn [s_now upd_ae setf]. by rewrite E1.
    + cbn [s_tm upd_ae setf]. rewrite E1. exact Htm.
    + intros y Hy. split; [|done]. set_solver.
    + cbn. set_solver.
    + by left.
    + apply (ao_timeout _ _ _ _ _ Ho x Hx).
  - rewrite Eh. apply lookup_total_insert_eq.
  - intros y Hy. rewrite Eh. by apply lookup_total_insert_ne.
  - cbn [conn_async_q upd_ae setf]. by rewrite E1.
  - intros c Hc. unfold conn_at. cbn [s_cc upd_ae setf]. exact (E2 c Hc).
  - intros Hnd c Hc. unfold conn_at. cbn [s_cc upd_ae setf]. exact (E3 Hnd c Hc).
Qed.

(** A new entry at the front of the table. *)
Lemma arp_ok_push now (A : gset Z) l st st' x ip comp :
  arp_ok now A None l st -> x ∉ l -> x <> 0 -> x ∉ A ->
  (forall y, y ∈ l -> aip st y <> ip) -> 0 <= arp_to config < 134217728 ->
  arp_heap st' = (let h := <[x := mk_ae 1 ip 0 [comp] (arp_to config) 0 (arp_table st)]> (arp_heap st) in
    if negb (arp_table st =? 0)
    then <[arp_table st := (h !!! arp_table st) <| ae_prev := x |>]> h else h) ->
  arp_table st' = x -> s_now st' = s_now st ->
  (exists tl td dl, tm_rep now (s_tm st') tl td dl /\ forall y, y ∈ tl ++ td <-> y ∈ {[x]} ∪ A) ->
  arp_heap st' !!! x = mk_ae 1 ip 0 [comp] (arp_to config) 0 (arp_table st)
  /\ arp_ok now ({[x]} ∪ A) None (x :: l) st'.
Proof.
  intros [[t Hs] Hnd H0 Hdom Hips Hnow Htm Harm Hst Hdn Hto] Hx Hx0 HxA Hip Hcfg Eh Et En Htm'.
  set (h := arp_table st) in *.
  assert (Hh : h = 0 \/ h ∈ l) by (rewrite (dseg_head _ _ _ _ _ _ _ Hs);
    destruct l; [by left|right; apply list_elem_of_here]).
  assert (Ex : arp_heap st' !!! x = mk_ae 1 ip 0 [comp] (arp_to config) 0 h).
  { rewrite Eh. cbv zeta. destruct (Z.eqb_spec h 0); cbn [negb].
    - apply lookup_total_insert_eq.
    - rewrite lookup_total_insert_ne; [apply lookup_total_insert_eq|]. intros ->.
      by destruct Hh. }
  assert (Ey : forall y, y ∈ l -> arp_heap st' !!! y
            = if y =? h then (arp_heap st !!! y) <| ae_prev := x |> else arp_heap st !!! y).
  { intros y Hy. assert (y <> x) by (by intros ->). rewrite Eh. cbv zeta.
    destruct (Z.eqb_spec h 0) as [E0|E0]; cbn [negb].
    - rewrite lookup_total_insert_ne by done. destruct (Z.eqb_spec y h) as [->|]; [|done].
      rewrite E0 in Hy. done.
    - destruct (Z.eqb_spec y h) as [->|].
      + by rewrite lookup_total_insert_eq, lookup_total_insert_ne.
      + by rewrite !lookup_total_insert_ne. }
  assert (Hcase : forall (P : Z -> arp_entry -> Prop), (forall y e p, P y e -> P y (e <| ae_prev := p |>)) ->
    P x (mk_ae 1 ip 0 [comp] (arp_to config) 0 h) -> (forall y, y ∈ l -> P y (arp_heap st !!! y)) ->
    forall y, y ∈ x :: l -> P y (arp_heap st' !!! y)).
  { intros P Pf Px Py y [->|Hy]%elem_of_cons; [by rewrite Ex|]. rewrite Ey by done.
    destruct (y =? h); [apply Pf|]; by apply Py. }
  assert (Eips : map (aip st') (x :: l) = ip :: map (aip st) l).
  { cbn [map]. f_equal; [unfold aip; by rewrite Ex|]. apply map_ext_in.
    intros y Hy%list_elem_of_In. unfold aip. rewrite Ey by done. by destruct (y =? h). }
  split; [exact Ex|]. constructor.
  - rewrite Et. apply (dseg_push (anx st) (apv st) _ _ h l t x Hx Hnd H0 Hs); unfold anx, apv.
    1-2: by rewrite Ex.
    1-2: intros y Hy; rewrite Ey by done; by destruct (y =? h).
  - by constructor.
  - rewrite elem_of_cons. by intros [?|?].
  - intros y [->|Hy]%elem_of_cons; rewrite Eh; cbv zeta; case_match;
      rewrite ?lookup_insert_is_Some'; auto.
  - rewrite Eips. constructor; [|done]. intros (y & Ey' & Hy)%list_elem_of_fmap.
    by apply (Hip y Hy).
  - by rewrite En.
  - exact Htm'.
  - apply (Hcase (fun y e => y ∈ {[x]} ∪ A <-> ae_status e = 1 /\ None <> Some y)); [done|..].
    + cbn. set_solver.
    + intros y Hy. rewrite <- Harm by done. assert (y <> x) by (by intros ->). set_solver.
  - apply (Hcase (fun y e => ae_status e = 0 \/ ae_status e = 1)); [done|by right|auto].
  - apply (Hcase (fun y e => ae_status e = 0 -> ae_compl e = [])); [done|done|auto].
  - apply (Hcase (fun y e => 0 <= ae_timeout e < 134217728)); [done|done|auto].
Qed.

(** What a request does. *)
Inductive arp_request_res (now : Z) (A : gset Z) (l : list Z) (st : spst) (comp ip malloced : Z)
    : Z -> spst -> Prop :=
| req_known x st' :
    x ∈ l -> aip st x = ip -> ae_status (arp_heap st !!! x) = 0 ->
    cn_remote_mac (conn_at st' comp) mod 281474976710656 = ae_mac (arp_heap st !!! x) mod 281474976710656 ->
    arp_ok now A None l st' -> tx_sent st' = tx_sent st ->
    arp_request_res now A l st comp ip malloced 0 st'
| req_pending x st' :
    x ∈ l -> aip st x = ip -> ae_status (arp_heap st !!! x) = 1 ->
    ae_compl (arp_heap st' !!! x) = comp :: ae_compl (arp_heap st !!! x) ->
    arp_ok now A None l st' -> tx_sent st' = tx_sent st ->
    arp_request_res now A l st comp ip malloced 1 st'
| req_new st' :
    (forall y, y ∈ l -> aip st y <> ip) -> malloced <> 0 ->
    aip st' malloced = ip -> ae_compl (arp_heap st' !!! malloced) = [comp] ->
    arp_ok now ({[malloced]} ∪ A) None (malloced :: l) st' ->
    tx_sent st' = (if tx_free st <=? 0 then tx_sent st
                   else TxArp (arp_pkt E config MAC_BROADCAST ip ARP_OPER_REQUEST) :: tx_sent st) ->
    arp_request_res now A l st comp ip malloced 1 st'
| req_no_memory st' :
    (forall y, y ∈ l -> aip st y <> ip) -> malloced = 0 ->
    arp_ok now A None l st' -> tx_sent st' = tx_sent st ->
    arp_request_res now A l st comp ip malloced (-1) st'.

Lemma conn_at_set_conn p f st : conn_at (set_conn p f st) p = f (conn_at st p).
Proof. unfold conn_at, set_conn, upd_conn. cbn [conns s_cc setf]. apply lookup_total_insert_eq. Qed.

Lemma arp_request_ok now A l st comp ip malloced :
  arp_ok now A None l st -> (malloced <> 0 -> malloced ∉ l /\ malloced ∉ A) ->
  0 <= arp_to config < 134217728 ->
  exists r st', arp_request E config comp ip malloced st = Some (r, st')
  /\ arp_request_res now A l st comp ip malloced r st'.
Proof.
  intros Ho Hm Hcfg. unfold arp_request. set (st0 := set_conn comp _ st).
  assert (Ho0 : arp_ok now A None l st0) by (by apply (arp_ok_same now A None l st)).
  assert (Ec0 : cn_remote_mac (conn_at st0 comp) = 0) by (unfold st0; by rewrite conn_at_set_conn).
  assert (Eh0 : arp_heap st0 = arp_heap st) by done.
  assert (Et0 : tx_sent st0 = tx_sent st /\ tx_free st0 = tx_free st /\ arp_table st0 = arp_table st) by done.
  clearbody st0. destruct Et0 as (Et0 & Ef0 & Ea0).
  destruct (ae_lookup_ok _ _ _ _ _ ip Ho0) as (x & -> & Hx). cbn [mbind option_bind].
  unfold aip in Hx. rewrite Eh0 in Hx. destruct Hx as [[-> Hx]|(Hx0 & Hx & Hip)].
  - cbn [negb Z.eqb]. destruct (Z.eqb_spec malloced 0) as [->|Hm0].
    { exists (-1), st0. split; [done|]. by apply req_no_memory. }
    destruct (Hm Hm0) as [Hml HmA].
    destruct (request_tx E config ip st0) as [b st1] eqn:Ereq.
    assert (E1 : arp_same st0 st1 /\ tx_sent st1 = (if tx_free st <=? 0 then tx_sent st
                   else TxArp (arp_pkt E config MAC_BROADCAST ip ARP_OPER_REQUEST) :: tx_sent st)).
    { unfold request_tx, tx_push in Ereq. rewrite Ef0 in Ereq.
      destruct (tx_free st <=? 0); injection Ereq as _ <-; [done|].
      split; [done|]. cbn. by rewrite Et0. }
    destruct E1 as [Es1 Et1]. assert (Ho1 := arp_ok_same _ _ _ _ _ _ Es1 Ho0).
    destruct (ao_tm _ _ _ _ _ Ho1) as (tl & td & dl & Hr & HA).
    destruct (timeout_arm_ok now A st1 malloced (arp_to config) TO_ARP_REQ tl td dl Hr HA)
      as (m & Em & Htm'); [apply (ao_now _ _ _ _ _ Ho1)|done..|].
    rewrite Em. cbn [mbind option_bind]. clear Em.
    eexists 1, _. split; [reflexivity|].
    assert (Eh1 : arp_heap st1 = arp_heap st) by (destruct Es1 as (E1 & _); congruence).
    assert (Ea1 : arp_table st1 = arp_table st) by (destruct Es1 as (_ & E1 & _); congruence).
    set (st' := setf arp_table _ _).
    destruct (arp_ok_push now A l st1 st' malloced ip comp Ho1) as [Ex Ho']; try done.
    { intros y Hy. unfold aip. rewrite Eh1. auto. }
    { unfold st'. cbn [arp_heap arp_table setf]. by destruct (_ =? 0). }
    { unfold st'. cbn [s_now setf]. by destruct (_ =? 0). }
    { unfold st'. cbn [s_tm setf]. destruct (_ =? 0); exact Htm'. }
    apply req_new; [|done| | |exact Ho'|].
    + exact Hx.
    + unfold aip. by rewrite Ex.
    + by rewrite Ex.
    + unfold st'. cbn [tx_sent setf]. by destruct (_ =? 0).
  - rewrite (proj2 (Z.eqb_neq x 0) Hx0). cbn [negb]. rewrite Eh0.
    destruct (Z.eqb_spec (ae_status (arp_heap st !!! x)) 0) as [Es|Es].
    + eexists 0, _. split; [reflexivity|]. eapply req_known; try done.
      rewrite conn_at_set_conn. cbn. rewrite Ec0. done.
      by apply (arp_ok_same now A None l st0).
    + eexists 1, _. split; [reflexivity|].
      assert (Es1 : ae_status (arp_heap st !!! x) = 1).
      { destruct (ao_status _ _ _ _ _ Ho x Hx); [done|]. done. }
      eapply req_pending; try done.
      * rewrite (upd_ae_view ae_compl), Z.eqb_refl. cbn. by rewrite Eh0.
      * eapply (arp_ok_update now A A None None l st0 _ x _ Ho0 Hx); try done;
          rewrite ?Eh0; try done.
        -- apply (ao_tm _ _ _ _ _ Ho0).
        -- apply (ao_armed _ _ _ _ _ Ho x Hx).
        -- by right.
        -- apply (ao_timeout _ _ _ _ _ Ho x Hx).
Qed.

(** A well-formed reply from [ip] with address [mac]. *)
Definition is_arp_reply (p : pkt_arp) (ip mac : Z) : Prop :=
  f_beui16 (htype (a_arp p)) = ARP_HTYPE_ETHERNET
  /\ f_beui16 (ptype (a_arp p)) = ARP_PTYPE_IPV4 /\ hlen (a_arp p) = 6 /\ plen (a_arp p) = 4
  /\ f_beui16 (oper (a_arp p)) = ARP_OPER_REPLY
  /\ f_beui32 (spa (a_arp p)) = ip /\ sha (a_arp p) = mac.

Lemma arp_packet_reply now A l st p ip mac :
  arp_ok now A None l st -> is_arp_reply p ip mac ->
  exists x, ((x = 0 /\ (forall y, y ∈ l -> aip st y <> ip)) \/ (x <> 0 /\ x ∈ l /\ aip st x = ip))
  /\ arp_packet E config p st = (if x =? 0 then Some st else arp_reply x mac st).
Proof.
  intros Ho (E1 & E2 & E3 & E4 & E5 & E6 & E7). unfold arp_packet. cbv zeta.
  rewrite E1, E2, E3, E4, E5, E6, E7. cbn -[ae_lookup arp_reply].
  destruct (ae_lookup_ok _ _ _ _ _ ip Ho) as (x & -> & Hx). exists x. done.
Qed.

(** Every packet keeps the table well formed. *)
Lemma arp_packet_ok now A l st p :
  arp_ok now A None l st ->
  exists A' st', arp_packet E config p st = Some st' /\ arp_ok now A' None l st' /\ A' ⊆ A.
Proof.
  intros Ho. unfold arp_packet. cbv zeta.
  destruct (_ || _); [by exists A, st|].
  destruct (_ =? ARP_OPER_REQUEST).
  { destruct (negb _); [by exists A, st|]. eexists A, _. split; [done|]. split; [|done].
    eapply arp_ok_same; [|exact Ho]. apply arp_same_push. }
  destruct (_ =? ARP_OPER_REPLY); [|by exists A, st].
  destruct (ae_lookup_ok _ _ _ _ _ (f_beui32 (spa (a_arp p))) Ho) as (x & -> & Hx).
  cbn [mbind option_bind]. destruct Hx as [[-> _]|(Hx0 & Hx & _)]; [by exists A, st|].
  rewrite (proj2 (Z.eqb_neq x 0) Hx0).
  destruct (arp_reply_ok now A l st x (sha (a_arp p)) Ho Hx) as (st' & -> & Ho' & _).
  exists (A ∖ {[x]}), st'. split; [done|]. split; [done|]. set_solver.
Qed.

(** Removing an entry: the state without the last step. *)
Definition arp_unlink (x : Z) (st : spst) : spst :=
  let e := arp_heap st !!! x in
  let st := if negb (ae_prev e =? 0)
            then upd_ae (ae_prev e) (fun e' => e' <| ae_next := ae_next e |>) st
            else st <| arp_table := ae_next e |> in
  if negb (ae_next e =? 0)
  then upd_ae (ae_next e) (fun e' => e' <| ae_prev := ae_prev e |>) st else st.

Lemma arp_remove_view {X} (g : arp_entry -> X) x st y :
  y <> x -> g (arp_heap (arp_remove x st) !!! y) = g (arp_heap (arp_unlink x st) !!! y).
Proof.
  intros Hy. change (arp_heap (arp_remove x st)) with (delete x (arp_heap (arp_unlink x st))).
  by rewrite lookup_total_delete_ne.
Qed.

Lemma arp_unlink_same {X} (g : arp_entry -> X) x st y :
  (forall e n, g (e <| ae_next := n |>) = g e) -> (forall e p, g (e <| ae_prev := p |>) = g e) ->
  g (arp_heap (arp_unlink x st) !!! y) = g (arp_heap st !!! y).
Proof.
  intros Hn Hp.
  assert (H : forall q f st, (forall e, g (f e) = g e) ->
    g (arp_heap (upd_ae q f st) !!! y) = g (arp_heap st !!! y)).
  { intros q f st0 Hf. rewrite upd_ae_view. destruct (Z.eqb_spec y q) as [->|]; auto. }
  unfold arp_unlink. destruct (negb _), (negb _); rewrite ?H; auto.
Qed.

Lemma arp_remove_dom x st y :
  y <> x -> is_Some (arp_heap st !! y) -> is_Some (arp_heap (arp_remove x st) !! y).
Proof.
  intros Hy H. change (arp_heap (arp_remove x st)) with (delete x (arp_heap (arp_unlink x st))).
  rewrite lookup_delete_ne by done. unfold arp_unlink.
  destruct (negb _), (negb _); cbn [arp_heap upd_ae setf]; rewrite ?lookup_insert_is_Some;
    repeat match goal with |- ?a = ?b \/ _ => destruct (decide (a = b)); [by left|right; split; [done|]] end;
    rewrite ?lookup_insert_is_Some;
    repeat match goal with |- ?a = ?b \/ _ => destruct (decide (a = b)); [by left|right; split; [done|]] end;
    done.
Qed.

Lemma arp_remove_ok now (A : gset Z) fi l1 x l2 st :
  arp_ok now A fi (l1 ++ x :: l2) st -> x ∉ A -> (forall y, fi = Some y -> y = x) ->
  arp_ok now A None (l1 ++ l2) (arp_remove x st)
  /\ s_cc (arp_remove x st) = s_cc st /\ conn_async_q (arp_remove x st) = conn_async_q st
  /\ tx_sent (arp_remove x st) = tx_sent st.
Proof.
  intros [[t Hs] Hnd H0 Hdom Hips Hnow Htm Harm Hst Hdn Hto] HxA Hfi.
  pose proof (dseg_unlink _ _ _ _ _ _ _ Hnd H0 Hs) as Hu.
  assert (Hsub : forall y, y ∈ l1 ++ l2 -> y ∈ l1 ++ x :: l2)
    by (intros y; rewrite !elem_of_app, elem_of_cons; tauto).
  assert (Hne : forall y, y ∈ l1 ++ l2 -> y <> x).
  { intros y Hy ->. rewrite <- (Permutation_middle l1 l2 x) in Hnd.
    by apply NoDup_cons in Hnd as [? _]. }
  set (st' := arp_remove x st).
  assert (Hv : forall {X} (g : arp_entry -> X) y, y <> x ->
    (forall e n, g (e <| ae_next := n |>) = g e) -> (forall e p, g (e <| ae_prev := p |>) = g e) ->
    g (arp_heap st' !!! y) = g (arp_heap st !!! y)).
  { intros X g y Hy Hn Hp. unfold st'. rewrite (arp_remove_view g x st y Hy).
    by apply arp_unlink_same. }
  split; [|unfold st', arp_remove; destruct (negb _), (negb _); done].
  constructor; try done.
  - eexists. replace (arp_table st') with (if apv st x =? 0 then anx st x else arp_table st)
      by (unfold st', arp_remove, anx, apv; destruct (ae_prev _ =? 0), (ae_next _ =? 0); done).
    eapply dseg_ext; [|exact Hu]. intros y Hy. split.
    + unfold anx at 1, st'. rewrite (arp_remove_view ae_next x st y) by auto.
      unfold arp_unlink, anx, apv, fupd.
      destruct (ae_prev _ =? 0), (ae_next _ =? 0); cbn [negb]; rewrite ?(upd_ae_view ae_next);
        cbn [ae_next setf]; rewrite ?(upd_ae_view ae_next); repeat case_match; bprop; subst; done.
    + unfold apv at 1, st'. rewrite (arp_remove_view ae_prev x st y) by auto.
      unfold arp_unlink, anx, apv, fupd.
      destruct (ae_prev _ =? 0), (ae_next _ =? 0); cbn [negb]; rewrite ?(upd_ae_view ae_prev);
        cbn [ae_prev setf]; rewrite ?(upd_ae_view ae_prev); repeat case_match; bprop; subst; done.
  - rewrite NoDup_app, NoDup_cons in *. set_solver.
  - intros H. apply H0. by apply Hsub.
  - intros y Hy. apply arp_remove_dom; auto.
  - replace (map (aip st') (l1 ++ l2)) with (map (aip st) (l1 ++ l2)).
    + rewrite map_app in *. cbn [map] in Hips. rewrite NoDup_app, NoDup_cons in *. set_solver.
    + apply map_ext_in. intros y Hy%list_elem_of_In. symmetry. by apply (Hv _ ae_ip); auto.
  - unfold st', arp_remove. destruct (negb _), (negb _); done.
  - unfold st', arp_remove. destruct (negb _), (negb _); exact Htm.
  - intros y Hy. rewrite (Hv _ ae_status) by auto. rewrite Harm by auto.
    split; intros [? _]; (split; [done|]); [done|]. intros Hf. apply (Hne y Hy). auto.
  - intros y Hy. rewrite (Hv _ ae_status) by auto. auto.
  - intros y Hy. rewrite (Hv _ ae_status), (Hv _ ae_compl) by auto. auto.
  - intros y Hy. rewrite (Hv _ ae_timeout) by auto. auto.
Qed.

(** A timeout either gives up or sends another request and waits twice as long. *)
Lemma arp_timeout_ok now A l st x :
  arp_ok now A (Some x) l st -> x ∈ l -> ae_status (arp_heap st !!! x) = 1 ->
  arp_to_max config <= 134217728 ->
  let e := arp_heap st !!! x in
  exists st', arp_timeout E config x st = Some st'
  /\ if arp_to_max config <=? ae_timeout e * 2 then
       (exists l1 l2, l = l1 ++ x :: l2 /\ arp_ok now A None (l1 ++ l2) st')
       /\ conn_async_q st' = conn_async_q st ++ ae_compl e /\ tx_sent st' = tx_sent st
       /\ (forall c, c ∉ ae_compl e -> conn_at st' c = conn_at st c)
       /\ (NoDup (ae_compl e) -> forall c, c ∈ ae_compl e ->
             conn_at st' c = conn_no_arp (conn_at st c))
     else
       arp_ok now ({[x]} ∪ A) None l st'
       /\ arp_heap st' !!! x = e <| ae_timeout := ae_timeout e * 2 |>
       /\ conn_async_q st' = conn_async_q st /\ s_cc st' = s_cc st
       /\ tx_sent st' = (if tx_free st <=? 0 then tx_sent st
            else TxArp (arp_pkt E config MAC_BROADCAST (ae_ip e) ARP_OPER_REQUEST) :: tx_sent st).
Proof.
  intros Ho Hx Hs Hmax e. unfold arp_timeout. fold e in Hs |- *. rewrite Hs. cbn [negb Z.eqb cassert].
  cbn [mbind option_bind].
  pose proof (ao_timeout _ _ _ _ _ Ho x Hx) as Hto. fold e in Hto.
  assert (HxA : x ∉ A) by (intros H; apply (ao_armed _ _ _ _ _ Ho x Hx) in H as [_ H]; done).
  rewrite (u32_id (ae_timeout e * 2)) by cside. destruct (Z.leb_spec (arp_to_max config) (ae_timeout e * 2)).
  - destruct (comps_each_ok comp_failed conn_no_arp (ae_compl e) st) as (E1 & E2 & E3); [done|].
    set (st1 := comps_each _ _ _) in *. cbv zeta in E1.
    assert (Ho1 : arp_ok now A (Some x) l st1).
    { eapply arp_ok_same; [|exact Ho]. rewrite E1. done. }
    apply list_elem_of_split in Hx as (l1 & l2 & ->).
    destruct (arp_remove_ok now A (Some x) l1 x l2 st1 Ho1 HxA) as (Ho2 & Ec & Eq & Et);
      [by intros y [= ->]|].
    eexists. split; [done|]. split; [by exists l1, l2|]. unfold conn_at. rewrite Ec, Eq, Et, E1.
    split; [done|]. split; [done|]. rewrite E1 in E2, E3. split; [exact E2|exact E3].
  - destruct (request_tx E config (ae_ip e) st) as [b st1] eqn:Ereq.
    assert (E1 : arp_same st st1 /\ s_cc st1 = s_cc st /\ conn_async_q st1 = conn_async_q st
      /\ tx_sent st1 = (if tx_free st <=? 0 then tx_sent st
            else TxArp (arp_pkt E config MAC_BROADCAST (ae_ip e) ARP_OPER_REQUEST) :: tx_sent st)).
    { unfold request_tx, tx_push in Ereq. by destruct (tx_free st <=? 0); injection Ereq as _ <-. }
    destruct E1 as (Es1 & Ec1 & Eq1 & Et1).
    assert (Ho1 := arp_ok_same _ _ _ _ _ _ Es1 Ho).
    set (st2 := upd_ae x _ st1).
    assert (Eh : arp_heap st1 = arp_heap st) by (by destruct Es1).
    destruct (ao_tm _ _ _ _ _ Ho1) as (tl & td & dl & Hr & HA).
    destruct (timeout_arm_ok now A st2 x (ae_timeout e * 2) TO_ARP_REQ tl td dl Hr HA)
      as (m & Em & Htm'); [apply (ao_now _ _ _ _ _ Ho1)|done| |lia|done|].
    { intros ->. by apply (ao_null _ _ _ _ _ Ho). }
    rewrite Em. eexists. split; [done|].
    assert (Ex : arp_heap (st2 <| s_tm := m |>)
                 = <[x := e <| ae_timeout := ae_timeout e * 2 |>]> (arp_heap st1)).
    { unfold st2. cbn [arp_heap setf upd_ae]. rewrite Eh. fold e. cbn.
      by rewrite (u32_id (ae_timeout e * 2)) by cside. }
    split; [|split; [by rewrite Ex, lookup_total_insert_eq|done]].
    eapply (arp_ok_update now A _ (Some x) None l st1 _ x _ Ho1 Hx Ex); try done;
      unfold anx, apv, aip; rewrite ?Eh; try done.
    + intros y Hy. split; [set_solver|]. split; [done|]. intros [= ->]. done.
    + cbn. fold e. rewrite Hs. set_solver.
    + right. exact Hs.
    + cbn. rewrite Hs. done.
    + cbn. lia.
Qed.

End ArpProofs.

(** * A slow path for the witnesses

    A state after start-up: flow ids 0 to 3 are free, VM 0 has 100000 bytes of packet
    memory, the own address is in the ARP table and every address is directly
    connected.  Addresses of objects are small numbers. *)


Definition ex_scfg : configuration := CcThms.ex_config CONFIG_CC_DCTCP_RATE.
Definition ex_senv : fpenv := Examples.ex_env.

Definition ex_spst0 : spst :=
  mk_spst (mk_ccst ∅ ∅ ∅ 0 0 ∅ [])
    (mk_nicst (list_to_map (map (fun i => (i, mk_item i (if i <? 3 then Some (i + 1) else None)))
                              [0; 1; 2; 3])) (Some 0) ∅ ∅)
    (mk_pmem {[900 := mk_ph 0 100000 0]} {[0 := 900]})
    (util_timeout_init ∅) 1 ∅ 0 [mk_rte 0 0 0] ∅ 8192 [] ∅ ∅ ∅ ∅ ∅ 100 [] 0 0.

Definition ex_spst : spst := default ex_spst0 (arp_init ex_senv ex_scfg 100 ex_spst0).

Lemma tm_empty_rep now h : tm_rep now (util_timeout_init h) [] [] (fun _ => 0).
Proof.
  constructor; cbn [app]; try done; try apply not_elem_of_nil; try apply NoDup_nil_2;
    try apply SSorted_nil; intros x Hx; by apply not_elem_of_nil in Hx.
Qed.

Lemma ex_spst_arp : arp_ok 0 ∅ None [100] ex_spst.
Proof.
  assert (Hall : forall (P : Z -> Prop), P 100 -> forall x, x ∈ [100] -> P x)
    by (intros P HP x ->%list_elem_of_singleton; done).
  constructor.
  - exists 100. done.
  - apply NoDup_singleton.
  - by intros ?%list_elem_of_singleton.
  - apply Hall. by eexists.
  - apply NoDup_singleton.
  - done.
  - exists [], [], (fun _ => 0). split; [apply tm_empty_rep|]. intros y. split; [by intros ?%not_elem_of_nil|by intros ?%not_elem_of_empty].
  - apply Hall. split; [by intros ?%not_elem_of_empty|]. intros [H _]. vm_compute in H. discriminate.
  - apply Hall. by left.
  - by apply (Hall (fun x => ae_status (arp_heap ex_spst !!! x) = 0 -> ae_compl (arp_heap ex_spst !!! x) = [])).
  - apply (Hall (fun x => 0 <= ae_timeout (arp_heap ex_spst !!! x) < 134217728)). split; [done|reflexivity].
Qed.

(** An application with one context. *)
Definition ex_actx : app_context := mk_actx 1 ∅ 16 0 ∅ 16 0 1 5 0.
Definition ex_app : application := mk_app [1] 1 0 0 3 0.
Definition ex_sp : spst := ex_spst <| s_ctxs := {[1 := ex_actx]} |> <| s_apps := {[1 := ex_app]} |>.

(** The value of a computation that succeeds. *)
Definition succeeds {A} (o : option A) : bool := match o with Some _ => true | None => false end.
Lemma succeeds_eq {A} (o : option A) d : succeeds o = true -> o = Some (default d o).
Proof. by destruct o. Qed.

(** * Properties of ARP and routing *)

(** Following next hops ends within as many steps as the routing table has entries, or
    it never ends: the search that [routing_resolve] makes with a bound gives the result
    of the unbounded loop, and the address found is directly connected. *)
Theorem routing_hops_bounded t ip fuel r :
  routing_hops fuel t ip = Some r ->
  routing_hops (S (length t)) t ip = Some r
  /\ (forall gw, r = Some gw -> exists e, resolve t gw = Some e /\ next_hop e = 0).
Proof.
  intros H. split; [by eapply routing_hops_enough|]. intros gw ->.
  by eapply routing_hops_direct.
Qed.

(** C18: an ARP reply resolves the address: every connection that waits for it gets the
    sender's hardware address and is queued for the TCP code in the order of the list, no
    other connection changes, and a later request for the address succeeds at once. *)
Theorem arp_reply_resolves E config now (A : gset Z) l st x p ip mac :
  arp_ok now A None l st -> x ∈ l -> aip st x = ip -> is_arp_reply p ip mac ->
  0 <= mac < 281474976710656 -> NoDup (ae_compl (arp_heap st !!! x)) ->
  0 <= arp_to config < 134217728 ->
  let waiting := ae_compl (arp_heap st !!! x) in
  exists st', arp_packet E config p st = Some st'
  /\ conn_async_q st' = conn_async_q st ++ waiting
  /\ (forall c, c ∈ waiting ->
        cn_remote_mac (conn_at st' c) mod 281474976710656 = mac
        /\ comp_status (conn_at st' c) = 0)
  /\ (forall c, c ∉ waiting -> conn_at st' c = conn_at st c)
  /\ arp_ok now (A ∖ {[x]}) None l st'
  /\ forall comp, exists st'', arp_request E config comp ip 0 st' = Some (0, st'')
       /\ cn_remote_mac (conn_at st'' comp) mod 281474976710656 = mac.
Proof.
  intros Ho Hx Hip Hp Hmac Hnd Hcfg waiting.
  destruct (arp_packet_reply E config _ _ _ _ _ _ _ Ho Hp) as (x' & Hx' & ->).
  destruct Hx' as [[-> Hno]|(Hx0 & Hx' & Hip')]; [by destruct (Hno x Hx)|].
  assert (x' = x) as -> by (eapply aip_inj; [exact Ho|done|done|by rewrite Hip, Hip']).
  rewrite (proj2 (Z.eqb_neq x 0) Hx0).
  destruct (arp_reply_ok now A l st x mac Ho Hx) as (st' & -> & Ho' & Ex & Hy & Eq & Hn & Hd).
  exists st'. split; [done|]. split; [done|]. split; [|split; [done|split; [done|]]].
  - intros c Hc. rewrite (Hd Hnd c Hc). split; [|done]. by apply mac_copy_low.
  - intros comp.
    assert (Ei : forall y, aip st' y = aip st y).
    { intros y. unfold aip. destruct (decide (y = x)) as [->|Hne]; [by rewrite Ex|by rewrite Hy]. }
    destruct (arp_request_ok E config now _ l st' comp ip 0 Ho') as (r & st'' & -> & Hres); [done..|].
    inversion Hres as [y st2 H1 H2 H3 H4 H5 H6|y st2 H1 H2 H3|st2 H1|st2 H1]; subst.
    + assert (y = x) as -> by (eapply aip_inj; [exact Ho'|done|done|congruence]).
      eexists. split; [done|]. rewrite H4, Ex. cbn. by apply Z.mod_small.
    + assert (y = x) as -> by (eapply aip_inj; [exact Ho'|done|done|congruence]).
      rewrite Ex in H3. done.
    + done.
    + destruct (H1 x Hx). apply Ei.
Qed.

(** Connection 500 waits for address 7. *)
Definition ex_waiting : spst :=
  default ex_spst (snd <$> arp_request ex_senv ex_scfg 500 7 200 ex_spst).
Definition ex_reply (ip mac : Z) : pkt_arp :=
  mk_pkt_arp (mk_eth 0 mac 0)
    (mk_arp (t_beui16 1) (t_beui16 2048) 6 4 (t_beui16 2) mac (t_beui32 ip) 0 0).

Lemma ex_waiting_arp : arp_ok 0 {[200]} None [200; 100] ex_waiting.
Proof.
  destruct (arp_request_ok ex_senv ex_scfg 0 ∅ [100] ex_spst 500 7 200 ex_spst_arp)
    as (r & st' & E & Hres).
  - intros _. split; [|done]. by intros ?%list_elem_of_singleton.
  - split; [done|reflexivity].
  - assert (Er : r = 1).
    { assert (Hr : fst <$> arp_request ex_senv ex_scfg 500 7 200 ex_spst = Some 1)
        by (vm_compute; reflexivity). rewrite E in Hr. by injection Hr. }
    unfold ex_waiting. rewrite E. cbn [fmap option_fmap option_map snd default].
    inversion Hres as [y st2 H1 H2 H3 H4 H5 H6|y st2 H1 H2 H3|st2 H1 H2 H3 H4 H5|st2 H1]; subst;
      try done.
    apply list_elem_of_singleton in H1 as ->. done.
Qed.

Lemma arp_reply_resolves_witness : exists st',
  arp_packet ex_senv ex_scfg (ex_reply 7 99) ex_waiting = Some st'
  /\ conn_async_q st' = [500]
  /\ cn_remote_mac (conn_at st' 500) mod 281474976710656 = 99.
Proof.
  destruct (arp_reply_resolves ex_senv ex_scfg 0 {[200]} [200; 100] ex_waiting 200 (ex_reply 7 99) 7 99)
    as (st' & E1 & E2 & E3 & _).
  - exact ex_waiting_arp.
  - apply list_elem_of_here.
  - vm_compute. reflexivity.
  - split_and!; vm_compute; reflexivity.
  - split; [done|reflexivity].
  - assert (E : ae_compl (arp_heap ex_waiting !!! 200) = [500]) by (vm_compute; reflexivity).
    rewrite E. apply NoDup_singleton.
  - split; [done|reflexivity].
  - assert (E : ae_compl (arp_heap ex_waiting !!! 200) = [500]) by (vm_compute; reflexivity).
    assert (Eq : conn_async_q ex_waiting = []) by (vm_compute; reflexivity).
    rewrite E, Eq in E2. rewrite E in E3. exists st'.
    split; [exact E1|]. split; [exact E2|]. apply E3. apply list_elem_of_here.
Defined.

(** A request that is not answered is repeated, after a delay that doubles each time; when
    the delay reaches [arp_to_max] the entry is removed, and every waiting connection is
    queued with an error. *)
Theorem arp_timeout_backs_off E config now (A : gset Z) l st x :
  arp_ok now A (Some x) l st -> x ∈ l -> ae_status (arp_heap st !!! x) = 1 ->
  arp_to_max config <= 134217728 ->
  let e := arp_heap st !!! x in
  exists st', arp_timeout E config x st = Some st'
  /\ if arp_to_max config <=? ae_timeout e * 2 then
       (exists l1 l2, l = l1 ++ x :: l2 /\ arp_ok now A None (l1 ++ l2) st')
       /\ conn_async_q st' = conn_async_q st ++ ae_compl e /\ tx_sent st' = tx_sent st
       /\ (forall c, c ∉ ae_compl e -> conn_at st' c = conn_at st c)
       /\ (NoDup (ae_compl e) -> forall c, c ∈ ae_compl e ->
             comp_status (conn_at st' c) = -1)
     else
       arp_ok now ({[x]} ∪ A) None l st'
       /\ ae_timeout (arp_heap st' !!! x) = ae_timeout e * 2
       /\ conn_async_q st' = conn_async_q st
       /\ tx_sent st' = (if tx_free st <=? 0 then tx_sent st
            else TxArp (arp_pkt E config MAC_BROADCAST (ae_ip e) ARP_OPER_REQUEST) :: tx_sent st).
Proof.
  intros Ho Hx Hs Hmax e.
  destruct (arp_timeout_ok E config now A l st x Ho Hx Hs Hmax) as (st' & -> & H).
  exists st'. split; [done|]. fold e in H. destruct (_ <=? _).
  - destruct H as (? & ? & ? & ? & Hd). split; [done|]. split; [done|]. split; [done|].
    split; [done|]. intros Hnd c Hc. by rewrite (Hd Hnd c Hc).
  - destruct H as (? & -> & ? & ? & ?). done.
Qed.

(** The timeout of the entry for address 7 has fired. *)
Lemma ex_fired_arp : arp_ok 0 ∅ (Some 200) [200; 100] (ex_waiting <| s_tm := util_timeout_init ∅ |>).
Proof.
  destruct ex_waiting_arp as [Hl Hnd H0 Hdom Hips Hnow _ Harm Hst Hdn Hto].
  constructor; try done.
  - exists [], [], (fun _ => 0). split; [apply tm_empty_rep|]. set_solver.
  - intros x Hx. split; [set_solver|]. intros [H1 H2]. pose proof (Harm x Hx) as [_ Hi].
    destruct (decide (x = 200)) as [->|]; [done|].
    assert (x ∈ ({[200]} : gset Z)) by (apply Hi; done). set_solver.
Qed.

Lemma arp_timeout_backs_off_witness : exists st',
  arp_timeout ex_senv ex_scfg 200 (ex_waiting <| s_tm := util_timeout_init ∅ |>) = Some st'
  /\ ae_timeout (arp_heap st' !!! 200) = 1000.
Proof.
  destruct (arp_timeout_backs_off ex_senv ex_scfg 0 ∅ [200; 100]
              (ex_waiting <| s_tm := util_timeout_init ∅ |>) 200) as (st' & E1 & E2).
  - exact ex_fired_arp.
  - apply list_elem_of_here.
  - vm_compute. reflexivity.
  - vm_compute. discriminate.
  - exists st'. split; [exact E1|].
    assert (Eto : ae_timeout (arp_heap (ex_waiting <| s_tm := util_timeout_init ∅ |>) !!! 200) = 500)
      by (vm_compute; reflexivity).
    rewrite Eto in E2. change (arp_to_max ex_scfg <=? 500 * 2) with false in E2.
    destruct E2 as (_ & E2 & _). exact E2.
Defined.
