(* ===== verification/HandshakeThms.v ===== *)
(** * The handshake of two hosts

    What the control packets of the slow path mean to the peer, and what a connection knows
    when its flow is installed; then two hosts together. *)

From S2P Require Import Prelude FpTypes Rng Links FlowTx Timeout PacketMem SpTypes Cc NicFlow.
From S2P Require Import SpState TcpConn TcpConnProofs AppNotify Arp Tcp Listen ArpThms.

(** ** Control packets on the wire *)

(** What the receiver reads in a plain control packet. *)
Record control_fields (config : configuration) (mac rip rport lport seq ack flags : Z)
    (p : pkt_tcp) : Prop := mk_control_fields {
  cf_src : f_beui32 (ip_src (p_ip p)) = u32 (config_ip config);
  cf_dest : f_beui32 (ip_dest (p_ip p)) = u32 rip;
  cf_sport : f_beui16 (tcp_src (p_tcp p)) = u16 lport;
  cf_dport : f_beui16 (tcp_dest (p_tcp p)) = u16 rport;
  cf_seq : f_beui32 (tcp_seqno (p_tcp p)) = u32 seq;
  cf_ack : f_beui32 (tcp_ackno (p_tcp p)) = u32 ack;
  cf_flags : TCPH_FLAGS (p_tcp p) = flags;
  cf_mac : eth_dest (p_eth p) = mac mod 281474976710656;
  cf_len : f_beui16 (ip_len (p_ip p)) = 56 }.

(** The options of a SYN are found by the parser, whatever lies behind the packet. *)
Lemma syn_options ts_echo old :
  options_loop OPTS_FUEL (rest_copy 16 (ctl_opts true ts_echo TCP_MSS) old) 16 0 (mk_tcp_opts None None)
  = Some (Some (mk_tcp_opts (Some 0) (Some 4)))
  /\ ts_val (rest_copy 16 (ctl_opts true ts_echo TCP_MSS) old) 4 = 0.
Proof. split; vm_compute; reflexivity. Qed.

Definition syn_opts : tcp_opts := mk_tcp_opts (Some 0) (Some 4).

(** A SYN or a SYN-ACK, as the receiver decodes it. *)
Lemma control_pkt_syn E config mac rip rport lport seq ack flags ts_echo :
  flags = SYN_FLAGS \/ flags = Z.lor TAS_TCP_SYN TAS_TCP_ACK
  \/ flags = Z.lor (Z.lor TAS_TCP_SYN TAS_TCP_ACK) TAS_TCP_ECE ->
  exists p, control_pkt E config mac rip rport lport seq ack flags true ts_echo TCP_MSS = TxTcp p 70
  /\ control_fields config mac rip rport lport seq ack flags p
  /\ forall old, parse_options (p <| p_rest ::= fun r => rest_copy 16 r old |>) 70 = Some (Some syn_opts)
       /\ ts_val (rest_copy 16 (p_rest p) old) 4 = 0.
Proof.
  intros Hfl. unfold control_pkt.
  change (ctl_optlen true (negb (TCP_MSS =? 0))) with 16.
  change (u16 (sizeof_pkt_tcp + 16)) with 70. eexists. split; [reflexivity|].
  split.
  - constructor; cbn [p_ip p_tcp p_eth ip_src ip_dest tcp_src tcp_dest tcp_seqno tcp_ackno ctl_ip
      ctl_tcp ctl_eth IPH_VHL_SET TCPH_HDRLEN_FLAGS_SET setf eth_dest]; autorewrite with beui; try done.
    destruct Hfl as [->|[->| ->]]; vm_compute; reflexivity.
  - intros old. destruct (syn_options ts_echo old) as [Eo Ets]. split; [|exact Ets].
    unfold parse_options, options_hdr. cbn [p_rest p_tcp].
    set (hl := TCPH_HDRLEN _).
    assert (Ehl : hl = 9) by (destruct Hfl as [->|[->| ->]]; vm_compute; reflexivity).
    rewrite Ehl. cbn -[options_loop OPTS_FUEL ctl_opts]. exact Eo.
Qed.

(** ** What is installed *)

Section Install.
Context (crc : list Z -> Z -> Z).

(** A successful call writes the flow state of the new flow. *)
Lemma conn_install_flow conn lseq st st' :
  conn_install crc false conn lseq st = Some (true, st') ->
  exists f nic, st' = set_conn conn (fun c => c <| cn_flow_id := f |>) (st <| s_nic := nic |>)
  /\ fp_flowst nic !!! f = flow_init (conn_args (conn_at st conn) lseq) (fp_flowst (s_nic st) !!! f).
Proof.
  unfold conn_install. intros H. cstep H. destruct p as [r nic]. destruct r as [f|]; [|done].
  injection H as <-. exists f, nic. split; [done|].
  unfold nicif_connection_add, connection_install in Ebind.
  destruct (flow_id_alloc (s_nic st)) as [[f0 m0]|] eqn:Ea; [|done].
  assert (Efs : fp_flowst m0 = fp_flowst (s_nic st)).
  { unfold flow_id_alloc in Ea. destruct (flow_id_freelist (s_nic st)); [|done].
    injection Ea as _ <-. done. }
  cstep Ebind. destruct p as [[[i d]|] ht]; [|done]. cstep Ebind.
  cbn [fp_flowst setf]. rewrite lookup_total_insert_eq, Efs. done.
Qed.
End Install.

(** The flow of a connection. *)
Definition flow_of (st : spst) (conn : Z) : flowst :=
  fp_flowst (s_nic st) !!! cn_flow_id (conn_at st conn).

(** The address and sequence fields of a flow state, for a connection. *)
Record flow_matches (fs : flowst) (lip rip lport rport lseq rseq : Z) (ecn : bool) (buf : Z) : Prop :=
  mk_flow_matches {
  fm_lip : out_local_ip fs = t_beui32 lip;
  fm_rip : out_remote_ip fs = t_beui32 rip;
  fm_lport : local_port fs = t_beui16 lport;
  fm_rport : remote_port fs = t_beui16 rport;
  fm_tx : tx_next_seq fs = lseq;
  fm_rx : rx_next_seq fs = rseq;
  fm_base : rx_base_sp fs = if ecn then Z.lor buf FLEXNIC_PL_FLOWST_ECN else buf }.

Lemma flow_init_matches c lseq fs :
  flow_matches (flow_init (conn_args c lseq) fs) (cn_out_local_ip c) (cn_out_remote_ip c)
    (cn_local_port c) (cn_remote_port c) lseq (remote_seq c)
    (Z.land (cn_flags c) NICIF_CONN_ECN =? NICIF_CONN_ECN) (rx_buf c).
Proof. constructor; reflexivity. Qed.

(** ** Frames *)

(** Congestion control does not change the fields of a connection that the flow takes. *)
Lemma cc_init_conn_eq config conn st st' :
  cc_init_conn config conn st = Some st' ->
  exists f, s_nic st' = s_nic st /\ conn_at st' conn = (conn_at st conn) <| cn_cc := f |>
  /\ listeners st' = listeners st /\ conn_async_q st' = conn_async_q st
  /\ tx_free st' = tx_free st /\ tx_sent st' = tx_sent st.
Proof.
  unfold cc_init_conn, cc_conn_init. intros H. cstep H. cstep Ebind.
  eexists. split; [done|]. split; [|done]. unfold conn_at. cbn [s_cc setf conns].
  apply lookup_total_insert_eq.
Qed.

Lemma kout_push_eq ctx e st st' :
  kout_push ctx e st = Some st' ->
  s_nic st' = s_nic st /\ s_cc st' = s_cc st /\ tx_sent st' = tx_sent st /\ tx_free st' = tx_free st
  /\ tcp_hashtable st' = tcp_hashtable st /\ conn_async_q st' = conn_async_q st.
Proof. unfold kout_push. intros H. cstep H. done. Qed.

Lemma appif_conn_opened_0 config conn st st' :
  appif_conn_opened config conn 0 st = Some st' ->
  s_nic st' = s_nic st /\ s_cc st' = s_cc st /\ tx_sent st' = tx_sent st.
Proof.
  unfold appif_conn_opened. destruct (negb _); [by intros [= <-]|]. cbn [Z.eqb].
  intros H. apply kout_push_eq in H. tauto.
Qed.

Lemma control_eq E config gre conn flags ts_opt ts_echo mss st :
  let st' := control E config gre conn flags ts_opt ts_echo mss st in
  s_nic st' = s_nic st /\ s_cc st' = s_cc st /\ listeners st' = listeners st
  /\ conn_async_q st' = conn_async_q st /\ s_ctxs st' = s_ctxs st /\ s_apps st' = s_apps st.
Proof.
  unfold control. destruct gre; unfold send_control_gre, send_control, send_control_raw_gre,
    send_control_raw, tx_push; [destruct (control_pkt_gre _ _ _ _ _ _ _ _ _ _ _ _ _ _ _)|];
    by destruct (_ <=? 0).
Qed.

(** A plain control packet is the next one on the queue, when there is room. *)
Lemma control_sent E config conn flags ts_opt ts_echo mss st :
  0 < tx_free st ->
  let c := conn_at st conn in
  tx_sent (control E config false conn flags ts_opt ts_echo mss st)
  = control_pkt E config (cn_remote_mac c) (cn_out_remote_ip c) (cn_remote_port c) (cn_local_port c)
      (local_seq c) (remote_seq c) flags ts_opt ts_echo mss :: tx_sent st.
Proof.
  intros Hf. unfold control, send_control, send_control_raw, tx_push.
  by rewrite (proj2 (Z.leb_gt _ _)).
Qed.

Lemma accept_finish_eq E l conn st :
  exists n, conn_at (accept_finish E l conn st) conn = set_ht_next n (conn_at st conn)
  /\ s_nic (accept_finish E l conn st) = s_nic st /\ tx_free (accept_finish E l conn st) = tx_free st.
Proof.
  eexists. split; [|done].
  exact (conn_at_set_same conn (set_ht_next _) (wait_pop l st)).
Qed.

(** The fields of an accepted connection. *)
Definition accepted_same (c d : connection) : Prop :=
  cn_out_local_ip c = cn_out_local_ip d /\ cn_out_remote_ip c = cn_out_remote_ip d
  /\ cn_local_port c = cn_local_port d /\ cn_remote_port c = cn_remote_port d
  /\ remote_seq c = remote_seq d /\ local_seq c = local_seq d
  /\ cn_remote_mac c = cn_remote_mac d /\ rx_buf c = rx_buf d /\ cn_flags c = cn_flags d.

Lemma accept_fields_eq config p ts port fncore fg c :
  let d := accept_fields config (SpTcp p) ts port fncore fg c in
  cn_out_local_ip d = config_ip config /\ cn_out_remote_ip d = f_beui32 (ip_src (p_ip p))
  /\ cn_local_port d = port /\ cn_remote_port d = f_beui16 (tcp_src (p_tcp p))
  /\ remote_seq d = u32 (f_beui32 (tcp_seqno (p_tcp p)) + 1) /\ local_seq d = 1
  /\ cn_remote_mac d = eth_src (p_eth p) /\ rx_buf d = rx_buf c
  /\ cn_flags d = (if syn_offers_ecn (p_tcp p) then Z.lor NICIF_CONN_ECN (cn_flags c) else cn_flags c).
Proof.
  cbv zeta. unfold accept_fields, ecn_on. destruct (syn_offers_ecn (p_tcp p)); split_and!; reflexivity.
Qed.

(** ** The two sides *)

(** The server takes the SYN [p] for its first waiting connection [s]. *)
Lemma accept_syn_ok E config crc l st st' p len fncore fg conn :
  backlog (listeners st !!! l) !!! backlog_pos (listeners st !!! l) = mk_bls (SpTcp p) len fncore fg ->
  wait_conns (listeners st !!! l) = conn ->
  parse_options p len = Some (Some (mk_tcp_opts (Some 0) (Some 4))) ->
  accept_syn E config crc false l st = Some st' ->
  conn_async_q st' = conn_async_q st ++ [conn] ->
  let c := conn_at st' conn in
  flow_matches (flow_of st' conn) (config_ip config) (f_beui32 (ip_src (p_ip p)))
    (ls_port (listeners st !!! l)) (f_beui16 (tcp_src (p_tcp p)))
    2 (u32 (f_beui32 (tcp_seqno (p_tcp p)) + 1))
    (Z.land (cn_flags c) NICIF_CONN_ECN =? NICIF_CONN_ECN) (rx_buf c)
  /\ cn_flags c = (if syn_offers_ecn (p_tcp p)
                   then Z.lor NICIF_CONN_ECN (cn_flags (conn_at st conn)) else cn_flags (conn_at st conn))
  /\ cn_remote_mac c = eth_src (p_eth p) /\ cn_out_remote_ip c = f_beui32 (ip_src (p_ip p))
  /\ cn_remote_port c = f_beui16 (tcp_src (p_tcp p))
  /\ cn_local_port c = ls_port (listeners st !!! l)
  /\ local_seq c = 1 /\ remote_seq c = u32 (f_beui32 (tcp_seqno (p_tcp p)) + 1)
  /\ rx_buf c = rx_buf (conn_at st conn) /\ tx_free st' = tx_free st.
Proof.
  intros Hs Hw Hp H Hq. unfold accept_syn in H. rewrite Hs, Hw in H. clear Hw. cbn [bl_pkt bl_len] in H.
  rewrite Hp in H. cbn [mbind option_bind o_ts] in H.
  cbn [bl_core bl_fg slot_rest] in H. 
  set (st0 := set_conn conn _ st) in H.
  destruct (cc_init_conn config conn st0) as [st1|] eqn:Ecc; [|done]. cbn [mbind option_bind] in H.
  destruct (cc_init_conn_eq _ _ _ _ Ecc) as (cc & En1 & Ec1 & El1 & Eq1 & Ef1 & _).
  set (st2 := set_conn conn _ st1) in H.
  assert (E2 : conn_at st2 conn = (conn_at st0 conn) <| cn_cc := cc |> <| status := CONN_REG_SYNACK |>
                                    <| comp_status := 0 |>)
    by (unfold st2; rewrite conn_at_set, Z.eqb_refl, Ec1; done).
  assert (E0 : conn_at st0 conn = accept_fields config (SpTcp p) (ts_val (p_rest p) 4)
                 (ls_port (listeners st !!! l)) fncore fg (conn_at st conn))
    by (unfold st0; by rewrite conn_at_set, Z.eqb_refl).
  destruct (conn_install crc false conn _ st2) as [[ok st3]|] eqn:Ei; [|done].
  cbn [mbind option_bind] in H. apply (inj Some) in H. destruct ok.
  2: { exfalso. subst st'. unfold conn_install in Ei. cstep Ei.
       destruct p0 as [[|] ?]; [done|]. injection Ei as <-.
       assert (Hq' : conn_async_q st = conn_async_q st ++ [conn]) by (rewrite <- Hq; exact (eq_sym Eq1)).
       apply (f_equal length) in Hq'. rewrite length_app in Hq'. cbn in Hq'. lia. }
  apply conn_install_flow in Ei as (f & nic & -> & Ef). subst st'.
  destruct (accept_finish_eq E l conn (set_conn conn (fun c => c <| cn_flow_id := f |>) (st2 <| s_nic := nic |>)))
    as (n & E4 & En4 & Et4).
  set (st4 := accept_finish _ _ _ _) in *. rewrite conn_at_set, Z.eqb_refl in E4.
  change (conn_at (st2 <| s_nic := nic |>) conn) with (conn_at st2 conn) in E4.
  unfold flow_of. rewrite En4, E4. change (s_nic (set_conn _ _ (st2 <| s_nic := nic |>))) with nic.
  set (c2 := conn_at st2 conn) in *.
  change (cn_flow_id (set_ht_next n (c2 <| cn_flow_id := f |>))) with f.
  destruct (accept_fields_eq config p (ts_val (p_rest p) 4) (ls_port (listeners st !!! l)) fncore fg
              (conn_at st conn)) as (F1 & F2 & F3 & F4 & F5 & F6 & F7 & F8 & F9).
  assert (G : accepted_same c2 (conn_at st0 conn)) by (rewrite E2; done).
  rewrite E0 in G. destruct G as (G1 & G2 & G3 & G4 & G5 & G6 & G7 & G8 & G9).
  rewrite F1 in G1. rewrite F2 in G2. rewrite F3 in G3. rewrite F4 in G4. rewrite F5 in G5.
  rewrite F6 in G6. rewrite F7 in G7. rewrite F8 in G8. rewrite F9 in G9.
  rewrite Ef. pose proof (flow_init_matches c2 (u32 (local_seq c2 + 1)) (fp_flowst (s_nic st2) !!! f)) as Hm.
  rewrite G1, G2, G3, G4, G5, G6 in Hm. change (u32 (1 + 1)) with 2 in Hm.
  rewrite G6. change (u32 (1 + 1)) with 2.
  split; [exact Hm|]. split; [exact G9|]. split; [exact G7|]. split; [exact G2|]. split; [exact G4|].
  split; [exact G3|]. split; [exact G6|]. split; [exact G5|]. split; [exact G8|].
  rewrite Et4. exact Ef1.
Qed.

(** The client takes the SYN-ACK. *)
Lemma syn_sent_ok E config crc conn tcp rest opts off st st' :
  o_ts opts = Some off ->
  syn_sent_packet E config crc false conn tcp rest opts st = Some (0, st') ->
  let c := conn_at st conn in
  let c' := conn_at st' conn in
  let ecn := Z.land (TCPH_FLAGS tcp) ECN_FLAGS =? TAS_TCP_ECE in
  flow_matches (flow_of st' conn) (cn_out_local_ip c) (cn_out_remote_ip c) (cn_local_port c)
    (cn_remote_port c) (f_beui32 (tcp_ackno tcp)) (u32 (f_beui32 (tcp_seqno tcp) + 1))
    (Z.land (cn_flags c') NICIF_CONN_ECN =? NICIF_CONN_ECN) (rx_buf c)
  /\ cn_flags c' = (if ecn then Z.lor NICIF_CONN_ECN (cn_flags c) else cn_flags c)
  /\ status c' = CONN_OPEN.
Proof.
  intros Ho H c c' ecn. unfold syn_sent_packet in H.
  destruct (conn_timeout_disarm conn st) as [st0|] eqn:Ed; [|done]. cbn [mbind option_bind] in H.
  destruct (negb _); [done|]. rewrite Ho in H.
  assert (Ec0 : conn_at st0 conn = c <| to_armed := false |>).
  { unfold conn_timeout_disarm, timeout_disarm in Ed. cstep Ed.
    exact (conn_at_set_same conn (fun c => c <| to_armed := false |>) st). }
  set (st1 := set_conn conn _ st0) in H.
  destruct (cc_init_conn config conn st1) as [st2|] eqn:Ecc; [|done]. cbn [mbind option_bind] in H.
  destruct (cc_init_conn_eq _ _ _ _ Ecc) as (cc & En2 & Ec2 & _).
  set (st3 := set_conn conn (fun c => c <| comp_status := 0 |>) st2) in H.
  destruct (conn_install crc false conn _ st3) as [[ok st4]|] eqn:Ei; [|done].
  cbn [mbind option_bind] in H. destruct ok; cbn [negb] in H; [|done].
  apply conn_install_flow in Ei as (f & nic & -> & Ef).
  set (st5 := set_conn conn (set_status CONN_OPEN) _) in H.
  destruct (control_eq E config false conn TAS_TCP_ACK true (syn_ts (conn_at st5 conn)) 0 st5)
    as (En6 & Ec6 & _).
  set (st6 := control E config false conn _ _ _ _ st5) in *.
  destruct (appif_conn_opened config conn 0 st6) as [st7|] eqn:Ea; [|done].
  cbn [mbind option_bind] in H. apply (inj Some) in H.
  assert (E7 : st7 = st') by congruence. subst st7. clear H.
  apply appif_conn_opened_0 in Ea as (En7 & Ec7 & _).
  assert (E3 : conn_at st3 conn = (conn_at st2 conn) <| comp_status := 0 |>)
    by apply conn_at_set_same.
  assert (E1 : conn_at st1 conn = ecn_on ecn (c <| to_armed := false |>
      <| remote_seq := u32 (f_beui32 (tcp_seqno tcp) + 1) |> <| local_seq := f_beui32 (tcp_ackno tcp) |>
      <| syn_ts := ts_val rest off |>)).
  { unfold st1. rewrite conn_at_set_same, Ec0. done. }
  assert (E5 : conn_at st5 conn = set_status CONN_OPEN ((conn_at st3 conn) <| cn_flow_id := f |>)).
  { unfold st5. rewrite !conn_at_set_same. done. }
  assert (Ec' : c' = conn_at st5 conn) by (unfold c', conn_at; by rewrite Ec7, Ec6).
  assert (Enic : s_nic st' = nic) by (rewrite En7, En6; done).
  set (c3 := conn_at st3 conn) in *.
  assert (G : accepted_same c3 (conn_at st1 conn)) by (rewrite E3, Ec2; done).
  destruct G as (G1 & G2 & G3 & G4 & G5 & G6 & _ & G8 & G9).
  assert (F : cn_out_local_ip (conn_at st1 conn) = cn_out_local_ip c
    /\ cn_out_remote_ip (conn_at st1 conn) = cn_out_remote_ip c
    /\ cn_local_port (conn_at st1 conn) = cn_local_port c
    /\ cn_remote_port (conn_at st1 conn) = cn_remote_port c
    /\ remote_seq (conn_at st1 conn) = u32 (f_beui32 (tcp_seqno tcp) + 1)
    /\ local_seq (conn_at st1 conn) = f_beui32 (tcp_ackno tcp)
    /\ rx_buf (conn_at st1 conn) = rx_buf c
    /\ cn_flags (conn_at st1 conn) = (if ecn then Z.lor NICIF_CONN_ECN (cn_flags c) else cn_flags c)).
  { rewrite E1. unfold ecn_on. destruct ecn; split_and!; reflexivity. }
  destruct F as (F1 & F2 & F3 & F4 & F5 & F6 & F8 & F9).
  rewrite F1 in G1. rewrite F2 in G2. rewrite F3 in G3. rewrite F4 in G4. rewrite F5 in G5.
  rewrite F6 in G6. rewrite F8 in G8. rewrite F9 in G9.
  unfold flow_of. rewrite Enic. fold c'. rewrite Ec', E5.
  change (cn_flow_id (set_status CONN_OPEN (c3 <| cn_flow_id := f |>))) with f.
  rewrite Ef. pose proof (flow_init_matches c3 (local_seq c3) (fp_flowst (s_nic st3) !!! f)) as Hm.
  rewrite G1, G2, G3, G4, G5, G8 in Hm. rewrite G6 in Hm at 2.
  split; [exact Hm|]. split; [exact G9|done].
Qed.

(** The server sends the SYN-ACK and tells the application. *)
Lemma accept_each_0 config ctxs conn st b st' :
  accept_each config ctxs conn 0 st = Some (b, st') ->
  s_nic st' = s_nic st /\ s_cc st' = s_cc st /\ tx_sent st' = tx_sent st.
Proof.
  revert st. induction ctxs as [|x ctxs IH]; intros st; cbn [accept_each]; [by intros [= _ <-]|].
  destruct (negb _); [by intros [= _ <-]|]. cbn [Z.eqb mbind option_bind].
  destruct (kout_push _ _ st) as [st1|] eqn:Ek; [|done]. cbn [mbind option_bind].
  intros (E1 & E2 & E3)%IH. apply kout_push_eq in Ek as (F1 & F2 & F3 & _). split_and!; congruence.
Qed.

Lemma reg_synack_ok E config conn st st' :
  0 < tx_free st -> conn_reg_synack E config conn st = Some st' ->
  let c := conn_at st conn in
  tx_sent st' = control_pkt E config (cn_remote_mac c) (cn_out_remote_ip c) (cn_remote_port c)
                  (cn_local_port c) (local_seq c) (remote_seq c)
                  (Z.lor (Z.lor TAS_TCP_SYN TAS_TCP_ACK)
                     (if has_flag (cn_flags c) NICIF_CONN_ECN then TAS_TCP_ECE else 0))
                  true (syn_ts c) TCP_MSS :: tx_sent st
  /\ s_nic st' = s_nic st /\ status (conn_at st' conn) = CONN_OPEN
  /\ cn_flow_id (conn_at st' conn) = cn_flow_id c.
Proof.
  intros Hf H c. unfold conn_reg_synack, appif_accept_conn in H.
  set (st0 := set_conn conn _ st) in H. assert (E0 : conn_at st0 conn = set_status CONN_OPEN c)
    by apply conn_at_set_same.
  set (st1 := control _ _ _ _ _ _ _ _ _) in H.
  destruct (accept_each config _ conn 0 st1) as [[b st2]|] eqn:Ea; [|done].
  cbn [mbind option_bind] in H. apply (inj Some) in H.
  destruct (accept_each_0 _ _ _ _ _ _ Ea) as (E1 & E2 & E3).
  pose proof (control_eq E config VIRTUOSO_GRE conn
    (Z.lor (Z.lor TAS_TCP_SYN TAS_TCP_ACK)
       (if has_flag (cn_flags (conn_at st0 conn)) NICIF_CONN_ECN then TAS_TCP_ECE else 0))
    true (syn_ts (conn_at st0 conn)) TCP_MSS st0) as Hc.
  cbv zeta in Hc. fold st1 in Hc. destruct Hc as (F1 & F2 & _).
  assert (Et : tx_sent st1 = _ :: tx_sent st0) by (apply (control_sent E config conn); exact Hf).
  rewrite E0 in Et.
  assert (Ec2 : conn_at st2 conn = set_status CONN_OPEN c) by (unfold conn_at; rewrite E2, F2; exact E0).
  destruct b; subst st'.
  - split; [exact (eq_trans E3 Et)|]. split; [exact (eq_trans E1 F1)|].
    assert (E4 : exists n, conn_at (app_conn_add (ac_app (s_ctxs st1 !!! cn_ctx (conn_at st1 conn))) conn st2) conn
      = (conn_at st2 conn) <| app_next := n |>) by (eexists; exact (conn_at_set_same conn _ st2)).
    destruct E4 as [n E4]. rewrite E4, Ec2. done.
  - split; [exact (eq_trans E3 Et)|]. split; [exact (eq_trans E1 F1)|]. rewrite Ec2. done.
Qed.

(** A SYN that comes first in the backlog is accepted at once when a connection waits. *)
Lemma backlog_put_first l p len fncore fg st :
  let ls := listeners st !!! l in
  backlog_used ls = 0 -> 0 <= backlog_pos ls < backlog_len ls -> backlog_len ls < 4294967296 ->
  sizeof_pkt_tcp <= len <= BACKLOG_BUF ->
  exists old st', backlog_put l (SpTcp p) len fncore fg st = Some (true, st')
  /\ backlog (listeners st' !!! l) !!! backlog_pos (listeners st' !!! l)
     = mk_bls (SpTcp (p <| p_rest ::= fun r => rest_copy (len - sizeof_pkt_tcp) r old |>)) len fncore fg
  /\ wait_conns (listeners st' !!! l) = wait_conns ls
  /\ ls_port (listeners st' !!! l) = ls_port ls
  /\ st' = st <| listeners := listeners st' |>.
Proof.
  intros ls Hu Hp Hl Hlen. unfold backlog_put. fold ls. rewrite Hu.
  rewrite (proj2 (Z.ltb_ge _ _)) by lia. cbn [Z.to_nat backlog_find].
  rewrite (proj2 (Z.eqb_neq _ _)) by lia. rewrite Z.add_0_r, u32_id by cside.
  rewrite (proj2 (Z.leb_gt _ _)) by lia. cbn [slot_copy].
  rewrite (proj2 (Z.leb_le _ _)) by lia. cbn [cassert mbind option_bind].
  eexists _, _. split; [reflexivity|].
  cbn [listeners set_listener setf]. rewrite !lookup_total_insert_eq. fold ls.
  split; [|done]. cbn [backlog backlog_pos setf]. rewrite lookup_total_insert_eq. done.
Qed.

(** * Two slow paths agree on a connection *)

(** The run of a handshake: the client [c] at [c0] sends the SYN; at the server, where
    [s] waits at the listener [l], it is put into the empty backlog and accepted; the
    SYN-ACK is sent when the completion is polled, and taken by the client.  Between the
    steps, each side may do other work that leaves the connection as it is. *)
Record handshake (E : fpenv) (cfgC cfgS : configuration) (crc : list Z -> Z -> Z) (c l s : Z)
    (fncore fg fncore' fg' : Z) (c0 c1 c1' c2 s0 s1 s1' s2 : spst) (syn synack : pkt_tcp) : Prop :=
  mk_handshake {
  hs_syn : conn_arp_done E cfgC c c0 = Some c1;
  hs_syn_pkt : tx_sent c1 = TxTcp syn 70 :: tx_sent c0;
  hs_listen : listener_packet E cfgS crc l syn syn_opts fncore fg s0 = Some s1;
  hs_accept : conn_async_q s1 = conn_async_q s0 ++ [s];
  hs_wait : conn_at s1' s = conn_at s1 s /\ s_nic s1' = s_nic s1;
  hs_synack : conn_reg_synack E cfgS s s1' = Some s2;
  hs_synack_pkt : tx_sent s2 = TxTcp synack 70 :: tx_sent s1';
  hs_wait_c : conn_at c1' c = conn_at c1 c;
  hs_open : conn_syn_sent_packet E cfgC crc c synack syn_opts c1' = Some (0, c2) }.

(** The two ends of a connection before the handshake. *)
Record handshake_ends (cfgC cfgS : configuration) (c l s : Z) (c0 s0 : spst) : Prop :=
  mk_handshake_ends {
  he_client : local_seq (conn_at c0 c) = 0 /\ remote_seq (conn_at c0 c) = 0
              /\ cn_flags (conn_at c0 c) = 0;
  he_lip : cn_out_local_ip (conn_at c0 c) = config_ip cfgC;
  he_rip : cn_out_remote_ip (conn_at c0 c) = config_ip cfgS;
  he_rport : cn_remote_port (conn_at c0 c) = ls_port (listeners s0 !!! l);
  he_ranges : is_u32 (config_ip cfgC) /\ is_u32 (config_ip cfgS)
              /\ is_u16 (cn_local_port (conn_at c0 c)) /\ is_u16 (ls_port (listeners s0 !!! l));
  he_server : wait_conns (listeners s0 !!! l) = s /\ s <> 0 /\ cn_flags (conn_at s0 s) = 0;
  he_backlog : backlog_used (listeners s0 !!! l) = 0
               /\ 0 <= backlog_pos (listeners s0 !!! l) < backlog_len (listeners s0 !!! l)
               /\ backlog_len (listeners s0 !!! l) < 4294967296;
  he_room : 0 < tx_free c0 }.

(** The packet a client sends when the address is resolved. *)
Lemma conn_arp_done_sent E config conn st st' :
  0 < tx_free st -> conn_arp_done E config conn st = Some st' ->
  let c := conn_at st conn in
  tx_sent st' = control_pkt E config (cn_remote_mac c) (cn_out_remote_ip c) (cn_remote_port c)
    (cn_local_port c) (local_seq c) (remote_seq c) SYN_FLAGS true 0 TCP_MSS :: tx_sent st
  /\ exists t, conn_at st' conn = c <| status := CONN_SYN_SENT |> <| to_attempts := 0 |>
                                   <| cn_timeout := t |> <| to_armed := true |>.
Proof.
  intros Hf H c. unfold conn_arp_done in H. set (st0 := set_conn conn _ st) in H.
  assert (E0 : conn_at st0 conn = c <| status := CONN_SYN_SENT |> <| to_attempts := 0 |>
    <| cn_timeout := tcp_handshake_to config |>) by apply conn_at_set_same.
  destruct (conn_timeout_arm conn TO_TCP_HANDSHAKE st0) as [st1|] eqn:Ea; [|done].
  cbn [mbind option_bind] in H. apply (inj Some) in H. subst st'.
  assert (E1 : conn_at st1 conn = (conn_at st0 conn) <| to_armed := true |>
               /\ tx_free st1 = tx_free st0 /\ tx_sent st1 = tx_sent st0).
  { unfold conn_timeout_arm in Ea. cstep Ea. destruct (utils_rng_gen32 _) as [rng r].
    unfold timeout_arm in Ea. cstep Ea.
    split; [exact (conn_at_set_same conn (fun c => c <| to_armed := true |>) st0)|done]. }
  destruct E1 as (E1 & F1 & T1). split.
  - etransitivity; [apply (control_sent E config conn); rewrite F1; exact Hf|].
    rewrite E1, E0, T1. done.
  - destruct (control_eq E config VIRTUOSO_GRE conn SYN_FLAGS true 0 TCP_MSS st1) as (_ & E2 & _).
    exists (tcp_handshake_to config). unfold conn_at at 1. rewrite E2. fold (conn_at st1 conn).
    rewrite E1, E0. done.
Qed.

(** The listener accepts the SYN. *)
Lemma listener_packet_accepts E config crc l p opts fncore fg st st' :
  let ls := listeners st !!! l in
  is_syn (p_tcp p) = true -> f_beui16 (ip_len (p_ip p)) = 56 ->
  backlog_used ls = 0 -> 0 <= backlog_pos ls < backlog_len ls -> backlog_len ls < 4294967296 ->
  wait_conns ls <> 0 ->
  (forall old, parse_options (p <| p_rest ::= fun r => rest_copy 16 r old |>) 70 = Some (Some syn_opts)) ->
  listener_packet E config crc l p opts fncore fg st = Some st' ->
  conn_async_q st' = conn_async_q st ++ [wait_conns ls] ->
  let c := conn_at st' (wait_conns ls) in
  flow_matches (flow_of st' (wait_conns ls)) (config_ip config) (f_beui32 (ip_src (p_ip p)))
    (ls_port ls) (f_beui16 (tcp_src (p_tcp p)))
    2 (u32 (f_beui32 (tcp_seqno (p_tcp p)) + 1))
    (Z.land (cn_flags c) NICIF_CONN_ECN =? NICIF_CONN_ECN) (rx_buf c)
  /\ cn_flags c = (if syn_offers_ecn (p_tcp p)
       then Z.lor NICIF_CONN_ECN (cn_flags (conn_at st (wait_conns ls)))
       else cn_flags (conn_at st (wait_conns ls)))
  /\ cn_remote_mac c = eth_src (p_eth p) /\ cn_out_remote_ip c = f_beui32 (ip_src (p_ip p))
  /\ cn_remote_port c = f_beui16 (tcp_src (p_tcp p)) /\ cn_local_port c = ls_port ls
  /\ local_seq c = 1 /\ remote_seq c = u32 (f_beui32 (tcp_seqno (p_tcp p)) + 1).
Proof.
  intros ls Hsyn Hlen Hu Hp Hl Hw0 Ho H Hq. unfold listener_packet in H. rewrite Hsyn, Hlen in H.
  cbn [negb] in H. change (u16 (sizeof_eth + 56)) with 70 in H.
  destruct (backlog_put_first l p 70 fncore fg st Hu Hp Hl ltac:(done)) as (old & st0 & Eb & Es & Ew & Ep & Est).
  rewrite Eb in H. cbn [mbind option_bind negb] in H.
  destruct (appif_listen_newconn l _ _ st0) as [st1|] eqn:En; [|done]. cbn [mbind option_bind] in H.
  assert (F : listeners st1 = listeners st0 /\ s_cc st1 = s_cc st0 /\ conn_async_q st1 = conn_async_q st0).
  { unfold appif_listen_newconn, listen_newconn in En. destruct (negb _); [by injection En as <-|].
    unfold kout_push in En. cstep En. done. }
  destruct F as (F1 & F2 & F3). rewrite F1, Ew in H. fold ls in H.
  rewrite (proj2 (Z.eqb_neq _ _) Hw0) in H. cbn [negb] in H.
  unfold listener_accept, listener_accept_any in H. rewrite F1, Ew in H. fold ls in H.
  rewrite (proj2 (Z.eqb_neq _ _) Hw0) in H. cbn [negb cassert mbind option_bind] in H.
  cstep H. rename s into st2. rename Ebind into Ea.
  change (conn_async_q (backlog_pop l st2)) with (conn_async_q st2) in Hq.
  assert (Ec0 : conn_at st0 = conn_at st) by (rewrite Est; done).
  assert (Hq1 : conn_async_q st1 = conn_async_q st) by (rewrite F3, Est; done).
  rewrite <- F1 in Es, Ew, Ep. fold ls in Ew, Ep.
  pose proof (accept_syn_ok E config crc l st1 st2 _ 70 fncore fg (wait_conns ls) Es Ew
                (Ho old) Ea ltac:(by rewrite Hq1)) as R.
  assert (Ec1 : conn_at st1 (wait_conns ls) = conn_at st (wait_conns ls)).
  { unfold conn_at. rewrite F2, Est. done. }
  rewrite Ep, Ec1 in R. destruct R as (R1 & R2 & R3 & R4 & R5 & R6 & R7 & R8 & _).
  split; [exact R1|]. split; [exact R2|]. split_and!; done.
Qed.

(** ECN in the flag word of a flow state with an aligned buffer. *)
Definition flow_ecn (fs : flowst) : bool := has_flag (rx_base_sp fs) FLEXNIC_PL_FLOWST_ECN.

Lemma flow_ecn_on fs buf :
  rx_base_sp fs = Z.lor buf FLEXNIC_PL_FLOWST_ECN -> flow_ecn fs = true.
Proof.
  intros H. unfold flow_ecn. rewrite H. change FLEXNIC_PL_FLOWST_ECN with (2 ^ 3).
  rewrite has_flag_pow2, Z.lor_spec, Z.pow2_bits_true by lia. apply orb_true_r.
Qed.

(** C2: the handshake agrees: when both slow paths have finished it, the two flow states the
    fast paths get are each other's mirror image -- every side's next sequence number to
    send is the one the other side expects, the addresses and ports are exchanged -- both
    connections are open, and both use ECN. *)
Theorem handshake_agrees E cfgC cfgS crc c l s fncore fg fncore' fg' c0 c1 c1' c2 s0 s1 s1' s2
    syn synack :
  handshake_ends cfgC cfgS c l s c0 s0 -> 0 < tx_free s1' ->
  handshake E cfgC cfgS crc c l s fncore fg fncore' fg' c0 c1 c1' c2 s0 s1 s1' s2 syn synack ->
  let fc := flow_of c2 c in
  let fs := flow_of s2 s in
  tx_next_seq fc = rx_next_seq fs /\ rx_next_seq fc = tx_next_seq fs
  /\ out_local_ip fc = out_remote_ip fs /\ out_remote_ip fc = out_local_ip fs
  /\ local_port fc = remote_port fs /\ remote_port fc = local_port fs
  /\ flow_ecn fc = true /\ flow_ecn fs = true
  /\ status (conn_at c2 c) = CONN_OPEN /\ status (conn_at s2 s) = CONN_OPEN.
Proof.
  intros [(Hls & Hrs & Hfc) Hlip Hrip Hrp (RC & RS & RLp & RRp) (Hw & Hs0 & Hfs) (Hbu & Hbp & Hbl) Hroom]
    Hroom' [Hsyn Hsynp Hlisten Hacc [Hc1 Hn1] Hreg Hregp Hc1' Hopen] fc fs.
  destruct (conn_arp_done_sent E cfgC c c0 c1 Hroom Hsyn) as [Etx [t Ec1]].
  rewrite Hsynp in Etx. apply (f_equal head) in Etx. cbn [head] in Etx. apply (inj Some) in Etx.
  set (C := conn_at c0 c) in *.
  destruct (control_pkt_syn E cfgC (cn_remote_mac C) (cn_out_remote_ip C) (cn_remote_port C)
    (cn_local_port C) (local_seq C) (remote_seq C) SYN_FLAGS 0 (or_introl eq_refl))
    as (p & Ep & [P1 P2 P3 P4 P5 P6 P7 P8 P9] & Po).
  assert (p = syn) as ->. { rewrite Ep in Etx. congruence. } clear Ep Etx.
  rewrite Hls in P5. rewrite (u32_id (config_ip cfgC)) in P1 by done. rewrite u16_id in P3 by done.
  assert (Hoffer : syn_offers_ecn (p_tcp syn) = true) by (unfold syn_offers_ecn; rewrite P7; done).
  assert (His : is_syn (p_tcp syn) = true) by (unfold is_syn; rewrite P7; done).
  rewrite <- Hw in Hacc, Hs0.
  destruct (listener_packet_accepts E cfgS crc l syn syn_opts fncore fg s0 s1 His P9 Hbu Hbp Hbl Hs0
    (fun old => proj1 (Po old)) Hlisten Hacc) as (Fm & S1 & S2 & S3 & S4 & S5 & S6 & S7).
  rewrite Hw in *. rewrite Hoffer, Hfs in S1. rewrite P1 in Fm, S3. rewrite P3 in Fm, S4.
  rewrite P5 in Fm, S7. change (u32 (u32 0 + 1)) with 1 in Fm, S7.
  set (S := conn_at s1 s) in *. rewrite S1 in Fm.
  assert (ES : conn_at s1' s = S) by done.
  destruct (reg_synack_ok E cfgS s s1' s2 Hroom' Hreg) as (Etx & En2 & Est & Efl).
  rewrite ES in Etx, Efl. rewrite Hregp in Etx. apply (f_equal head) in Etx. cbn [head] in Etx.
  apply (inj Some) in Etx. rewrite S1 in Etx.
  change (if has_flag (Z.lor NICIF_CONN_ECN 0) NICIF_CONN_ECN then TAS_TCP_ECE else 0)
    with TAS_TCP_ECE in Etx.
  destruct (control_pkt_syn E cfgS (cn_remote_mac S) (cn_out_remote_ip S) (cn_remote_port S)
    (cn_local_port S) (local_seq S) (remote_seq S)
    (Z.lor (Z.lor TAS_TCP_SYN TAS_TCP_ACK) TAS_TCP_ECE) (syn_ts S) (or_intror (or_intror eq_refl)))
    as (q & Eq & [Q1 Q2 Q3 Q4 Q5 Q6 Q7 Q8 Q9] & _).
  assert (q = synack) as ->. { rewrite Eq in Etx. congruence. } clear Eq Etx.
  rewrite S6 in Q5. rewrite S7 in Q6.
  unfold conn_syn_sent_packet in Hopen.
  destruct (syn_sent_ok E cfgC crc c (p_tcp synack) (p_rest synack) syn_opts 4 c1' c2 eq_refl Hopen)
    as (Gm & G1 & G2).
  rewrite Hc1', Ec1 in Gm, G1. rewrite Q7 in G1.
  change (Z.land (Z.lor (Z.lor TAS_TCP_SYN TAS_TCP_ACK) TAS_TCP_ECE) ECN_FLAGS =? TAS_TCP_ECE) with true in G1.
  assert (G1' : cn_flags (conn_at c2 c) = Z.lor NICIF_CONN_ECN 0) by (rewrite G1, <- Hfc; done).
  rewrite G1', Q5, Q6 in Gm.
  assert (Efs : fs = flow_of s1 s).
  { unfold fs, flow_of. rewrite En2, Hn1, Efl. done. }
  destruct Gm as [A1 A2 A3 A4 A5 A6 A7]. destruct Fm as [B1 B2 B3 B4 B5 B6 B7].
  fold fc in A1, A2, A3, A4, A5, A6, A7. rewrite <- Efs in B1, B2, B3, B4, B5, B6, B7.
  change (Z.land (Z.lor NICIF_CONN_ECN 0) NICIF_CONN_ECN =? NICIF_CONN_ECN) with true in A7, B7.
  split; [rewrite A5, B6; done|]. split; [rewrite A6, B5; done|].
  split; [rewrite A1, B2; by f_equal|]. split; [rewrite A2, B1; by f_equal|].
  split; [rewrite A3, B4; done|]. split; [rewrite A4, B3; by f_equal|].
  split; [exact (flow_ecn_on fc _ A7)|]. split; [exact (flow_ecn_on fs _ B7)|]. done.
Qed.

(** A run of the handshake: connection 500 of one slow path, and listener 300 with the
    waiting connection 600 of another. *)
Definition ex_crc0 : list Z -> Z -> Z := fun _ _ => 5.
Definition ex_scfg2 : configuration := ex_scfg <| config_ip := 167772162 |>.

Definition ex_c0 : spst := set_conn 500 (fun _ =>
  conn_zero <| cn_ctx := 1 |> <| cn_out_local_ip := config_ip ex_scfg |>
    <| cn_out_remote_ip := config_ip ex_scfg2 |> <| cn_remote_port := 80 |>
    <| cn_local_port := 8192 |> <| status := CONN_ARP_PENDING |>) ex_sp.
Definition ex_s0 : spst :=
  set_conn 600 (fun _ => conn_zero <| cn_ctx := 1 |> <| status := CONN_SYN_WAIT |>) ex_sp
    <| listeners := {[300 := mk_listener 0 1 0 0 2048 0 0 ∅ 600 600 80 0]} |>.
Definition sent_pkt (st : spst) : pkt_tcp :=
  match tx_sent st with TxTcp p _ :: _ => p | _ => pkt_tcp_zero end.

Definition ex_c1 : spst := default ex_c0 (conn_arp_done ex_senv ex_scfg 500 ex_c0).
Definition ex_s1 : spst :=
  default ex_s0 (listener_packet ex_senv ex_scfg2 ex_crc0 300 (sent_pkt ex_c1) syn_opts 0 7 ex_s0).
Definition ex_s2 : spst := default ex_s0 (conn_reg_synack ex_senv ex_scfg2 600 ex_s1).
Definition ex_c2 : spst :=
  default ex_c0 (Datatypes.snd <$> conn_syn_sent_packet ex_senv ex_scfg ex_crc0 500 (sent_pkt ex_s2)
                   syn_opts ex_c1).

Lemma handshake_agrees_witness :
  tx_next_seq (flow_of ex_c2 500) = rx_next_seq (flow_of ex_s2 600)
  /\ status (conn_at ex_c2 500) = CONN_OPEN.
Proof.
  pose proof (handshake_agrees ex_senv ex_scfg ex_scfg2 ex_crc0 500 300 600 0 7 0 0
    ex_c0 ex_c1 ex_c1 ex_c2 ex_s0 ex_s1 ex_s1 ex_s2 (sent_pkt ex_c1) (sent_pkt ex_s2)) as H.
  destruct H as (H1 & _ & _ & _ & _ & _ & _ & _ & H2 & _).
  - constructor; unfold is_u32, is_u16; repeat match goal with |- _ /\ _ => split end;
      vm_compute; first [reflexivity | discriminate].
  - vm_compute. reflexivity.
  - constructor.
    + apply succeeds_eq. vm_compute. reflexivity.
    + vm_compute. reflexivity.
    + apply succeeds_eq. vm_compute. reflexivity.
    + vm_compute. reflexivity.
    + split; reflexivity.
    + apply succeeds_eq. vm_compute. reflexivity.
    + vm_compute. reflexivity.
    + reflexivity.
    + unfold ex_c2. 
      assert (Hs : fst <$> conn_syn_sent_packet ex_senv ex_scfg ex_crc0 500 (sent_pkt ex_s2) syn_opts ex_c1
                   = Some 0) by (vm_compute; reflexivity).
      destruct (conn_syn_sent_packet _ _ _ _ _ _ _) as [[r st]|]; [|discriminate Hs].
      injection Hs as ->. reflexivity.
  - split; [exact H1|exact H2].
Defined.
