(* ===== verification/Release.v ===== *)
(** * Releasing connections

    A connection that fails, and one whose close timeout has passed, give back what they
    hold: the entry in the table of connections, the place in the list of the
    application, the packet memory and the timeout. *)

From stdpp Require Import gmap sets.
From S2P Require Import Prelude FpTypes SpTypes Links PacketMem PacketMemThms Rng Timeout.
From S2P Require Import TimeoutThms.
From S2P Require Import Cc NicFlow FlowTx SpState TcpConn TcpConnProofs Arp AppNotify Tcp ArpThms.

Definition appn (st : spst) (c : Z) : Z := app_next (conn_at st c).

(** The connections of application [a]. *)
Record app_rep (st : spst) (a : Z) (L : list Z) : Prop := mk_app_rep {
  ar_path : path (appn st) (app_conns (s_apps st !!! a)) L 0;
  ar_nodup : NoDup L;
  ar_null : 0 ∉ L;
  ar_dom : forall c, c ∈ L -> is_Some (s_conns st !! c) }.

(** The armed timeouts are [A]. *)
Definition timers (now : Z) (A : gset Z) (st : spst) : Prop :=
  s_now st = u32 now
  /\ exists tl td dl, tm_rep now (s_tm st) tl td dl /\ forall y, y ∈ tl ++ td <-> y ∈ A.

(** What a step changes of other connections: only links. *)
Definition links_only (c d : connection) : Prop :=
  exists n m, d = c <| ht_next := n |> <| app_next := m |>.

Lemma links_only_refl c : links_only c c.
Proof. exists (ht_next c), (app_next c). by destruct c. Qed.

Lemma links_only_ht c n : links_only c (set_ht_next n c).
Proof. exists n, (app_next c). by destruct c. Qed.

Lemma links_only_app c n : links_only c (c <| app_next := n |>).
Proof. exists (ht_next c), n. by destruct c. Qed.

Lemma links_only_trans c d e : links_only c d -> links_only d e -> links_only c e.
Proof. intros (n & m & ->) (n' & m' & ->). by exists n', m'. Qed.

Section Release.
Context (E : fpenv) (config : configuration).

Lemma app_prev_search fuel h c cp :
  app_prev fuel h c cp = prev_search (fun x => app_next (h !!! x)) fuel c cp.
Proof.
  revert cp. induction fuel as [|fuel IH]; intros cp; [done|]. cbn [app_prev prev_search].
  by rewrite IH.
Qed.

(** Removal from the list of the application. *)
Lemma app_conn_remove_ok st a L c :
  app_rep st a L -> c ∈ L ->
  exists st' A B, app_conn_remove a c st = Some st' /\ L = A ++ c :: B /\ app_rep st' a (A ++ B)
  /\ st' = st <| s_cc := s_cc st' |> <| s_apps := s_apps st' |>
  /\ (forall d, exists n, conn_at st' d = (conn_at st d) <| app_next := n |>)
  /\ (forall d, is_Some (s_conns st' !! d) <-> is_Some (s_conns st !! d))
  /\ s_cc st' = s_cc st <| conns := conns (s_cc st') |>.
Proof.
  intros [Hp Hnd H0 Hd] Hc. apply list_elem_of_split in Hc as (A & B & ->).
  pose proof (path_remove _ _ _ _ _ _ Hnd Hp) as Hp'.
  assert (Hid : forall d, exists n, conn_at st d = (conn_at st d) <| app_next := n |>)
    by (intros d; exists (app_next (conn_at st d)); by destruct (conn_at st d)).
  assert (Hsub : forall d, d ∈ A ++ B -> d ∈ A ++ c :: B)
    by (intros d; rewrite !elem_of_app, elem_of_cons; tauto).
  assert (Hnd' : NoDup (A ++ B)).
  { rewrite <- (Permutation_middle A B c) in Hnd. by apply NoDup_cons in Hnd as [_ ?]. }
  unfold app_conn_remove. destruct (Z.eqb_spec (app_conns (s_apps st !!! a)) c) as [Eh|Eh].
  - destruct A as [|x A].
    2: { destruct Hp as [Ex _]. exfalso. cbn in Hnd. apply NoDup_cons in Hnd as [Hx _]. apply Hx.
         rewrite <- Ex, Eh. apply elem_of_app. right. apply list_elem_of_here. }
    eexists _, [], B. split; [done|]. split; [done|].
    split; [|split; [by destruct st|split; [exact Hid|split; [done|by cbn [s_cc set_app setf]; destruct (s_cc st)]]]].
    constructor; [|done| |by intros d Hin; apply Hd, Hsub].
    + cbn [s_apps set_app setf]. rewrite lookup_total_insert_eq. exact Hp'.
    + intros H. by apply H0, Hsub.
  - assert (Hl : (length A <= conn_fuel st)%nat).
    { unfold conn_fuel. pose proof (length_le_size (s_conns st) (A ++ c :: B) Hnd Hd) as Hl.
      rewrite length_app in Hl. lia. }
    rewrite app_prev_search, (prev_search_ok (appn st) (conn_fuel st) c A B) by done.
    destruct (last A) as [p|] eqn:El; cbn [default from_option id mbind option_bind].
    2: { apply last_None in El as ->. by destruct Hp. }
    assert (HpA : p ∈ A) by (by apply last_Some_elem_of).
    rewrite (proj2 (Z.eqb_neq p 0)).
    2: { intros ->. apply H0, elem_of_app. by left. }
    cbn [negb cassert mbind option_bind]. set (st' := set_conn p _ st).
    assert (Hat : forall d, conn_at st' d = if d =? p then (conn_at st p) <| app_next := appn st c |>
                                            else conn_at st d) by (intros d; apply conn_at_set).
    exists st', A, B. split; [done|]. split; [done|].
    split; [|split; [by destruct st|split; [|split; [|done]]]].
    + constructor; [|done| |].
      * change (app_conns (s_apps st' !!! a)) with (app_conns (s_apps st !!! a)).
        eapply path_ext; [|exact Hp']. intros d _. unfold appn, fupd. rewrite Hat.
        by destruct (Z.eqb_spec d p) as [->|].
      * intros H. by apply H0, Hsub.
      * intros d Hin. apply set_conn_dom. right. by apply Hd, Hsub.
    + intros d. rewrite Hat. destruct (Z.eqb_spec d p) as [->|]; [by eexists|apply Hid].
    + intros d. unfold st'. rewrite set_conn_dom. split; [|by right]. intros [->|?]; [|done].
      apply Hd, elem_of_app. by left.
Qed.

(** The two buffers go back to the memory of the VM. *)
Lemma conn_free_bufs_ok lo hi st F U c :
  pm_ok lo hi (s_pm st) F U -> 0 <= cn_vm (conn_at st c) <= FLEXNIC_PL_VMST_NUM ->
  cn_ctx (conn_at st c) <> 0 ->
  rx_handle (conn_at st c) ∈ U (cn_vm (conn_at st c)) ->
  tx_handle (conn_at st c) ∈ U (cn_vm (conn_at st c)) ->
  rx_handle (conn_at st c) <> tx_handle (conn_at st c) ->
  exists pm F' Uv, conn_free_bufs c st = Some (st <| s_pm := pm |>)
  /\ pm_ok lo hi pm F' (fupd U (cn_vm (conn_at st c)) Uv)
  /\ U (cn_vm (conn_at st c)) ≡ₚ rx_handle (conn_at st c) :: tx_handle (conn_at st c) :: Uv.
Proof.
  intros Hpm Hv Hctx Hrx Htx Hne. unfold conn_free_bufs. set (v := cn_vm (conn_at st c)) in *.
  rewrite (proj2 (Z.eqb_neq _ _) Hctx). cbn [negb cassert mbind option_bind].
  apply list_elem_of_split in Htx as (U1 & U2 & EU).
  destruct (packetmem_free_ok lo hi (s_pm st) F U v U1 _ U2 Hpm Hv EU) as (pm & F1 & -> & Hpm1 & _).
  cbn [mbind option_bind].
  assert (Hrx' : rx_handle (conn_at st c) ∈ U1 ++ U2).
  { rewrite EU, elem_of_app, elem_of_cons in Hrx. rewrite elem_of_app. tauto. }
  apply list_elem_of_split in Hrx' as (V1 & V2 & EV).
  destruct (packetmem_free_ok lo hi pm _ (fupd U v (U1 ++ U2)) v V1 (rx_handle (conn_at st c)) V2 Hpm1 Hv)
    as (pm2 & F2 & -> & Hpm2 & _); [by rewrite fupd_eq|].
  cbn [mbind option_bind]. exists pm2, (fupd (fupd F v F1) v F2), (V1 ++ V2). split; [done|]. split.
  - destruct Hpm2 as [Hb Hvm Hap]. constructor; [done|..].
    + intros w Hw. pose proof (Hvm w Hw) as Hw'. unfold fupd in *. by destruct (w =? v).
    + intros w1 w2 p H1 H2 Hp1 Hp2. apply (Hap w1 w2 p H1 H2); unfold fupd in *.
      * by destruct (w1 =? v).
      * by destruct (w2 =? v).
  - rewrite EU. rewrite <- (Permutation_middle U1 U2), EV, <- (Permutation_middle V1 V2). apply perm_swap.
Qed.

(** Nothing the list of the application depends on changes. *)
Lemma app_rep_frame st st' a L :
  app_rep st a L -> app_conns (s_apps st' !!! a) = app_conns (s_apps st !!! a) ->
  (forall c, c ∈ L -> appn st' c = appn st c /\ is_Some (s_conns st' !! c)) ->
  app_rep st' a L.
Proof.
  intros [Hp Hnd H0 Hd] Ea Hc. constructor; try done.
  - rewrite Ea. eapply path_ext; [|exact Hp]. intros c Hin. by apply Hc.
  - intros c Hin. by apply Hc.
Qed.

Lemma conn_at_delete p st c : c <> p -> conn_at (conn_delete p st) c = conn_at st c.
Proof.
  intros Hc. unfold conn_at, conn_delete. cbn [conns s_cc setf].
  rewrite !lookup_total_alt. by rewrite lookup_delete_ne.
Qed.

Lemma conn_delete_dom p st c :
  is_Some (s_conns (conn_delete p st) !! c) <-> c <> p /\ is_Some (s_conns st !! c).
Proof.
  unfold s_conns, conn_delete. cbn [conns s_cc setf].
  destruct (decide (c = p)) as [->|Hc]; [rewrite lookup_delete_eq|rewrite lookup_delete_ne by done].
  - split; [by intros [? [=]]|tauto].
  - tauto.
Qed.

(** The connection leaves the heap, after the lists have let go of it. *)
Lemma ht_rep_delete st T c :
  ht_rep E st T -> ~ registered T c -> ht_rep E (conn_delete c st) T.
Proof.
  intros Hr Hc. apply (ht_rep_frame E st); [done..|]. intros d Hd.
  assert (Hdc : d <> c) by (intros ->; done). split.
  - unfold same_key. by rewrite conn_at_delete.
  - apply conn_delete_dom. split; [done|]. destruct Hd as [h Hd]. by apply (hr_dom _ _ _ Hr h).
Qed.

Lemma app_rep_delete st a L c :
  app_rep st a L -> c ∉ L -> app_rep (conn_delete c st) a L.
Proof.
  intros Hr Hc. apply (app_rep_frame st); [done..|]. intros d Hd.
  assert (Hdc : d <> c) by (intros ->; done). split.
  - unfold appn. by rewrite conn_at_delete.
  - apply conn_delete_dom. split; [done|]. by apply (ar_dom _ _ _ Hr).
Qed.

Lemma not_registered_removed st T c A B :
  ht_rep E st T -> T (conn_bucket E (conn_at st c)) = A ++ c :: B ->
  ~ registered (fun i => if i =? conn_bucket E (conn_at st c) then A ++ B else T i) c.
Proof.
  intros Hr ET [i Hi]. destruct (Z.eqb_spec i (conn_bucket E (conn_at st c))) as [_|Hn].
  - pose proof (hr_nodup _ _ _ Hr (conn_bucket E (conn_at st c))) as Hnd. rewrite ET in Hnd.
    apply NoDup_app in Hnd as (_ & H1 & H2). apply NoDup_cons in H2 as [H2 _].
    apply elem_of_app in Hi as [Hi|Hi]; [|done]. apply (H1 _ Hi). apply list_elem_of_here.
  - apply Hn. symmetry. by apply (hr_bucket _ _ _ Hr).
Qed.

(** A message is written and the position advances. *)
Lemma kout_push_ok ctx e st :
  ac_evfd (s_ctxs st !!! ctx) <> 0 ->
  exists x, kout_push ctx e st = Some (st <| s_ctxs := <[ctx := x]> (s_ctxs st) |>)
  /\ kout x = <[kout_pos (s_ctxs st !!! ctx) := e]> (kout (s_ctxs st !!! ctx))
  /\ ac_app x = ac_app (s_ctxs st !!! ctx).
Proof.
  intros He. unfold kout_push, appif_ctx_kick. rewrite (proj2 (Z.eqb_neq _ _) He).
  cbn [negb cassert mbind option_bind]. eexists. split; [reflexivity|]. done.
Qed.

(** What a connection in the tables holds. *)
Record conn_owns (lo hi : Z) (st : spst) (T : Z -> list Z) (L : list Z) (F U : Z -> list Z) (c : Z) : Prop := mk_conn_owns {
  ch_table : ht_rep E st T;
  ch_reg : registered T c;
  ch_app : app_rep st (ac_app (s_ctxs st !!! cn_ctx (conn_at st c))) L;
  ch_in : c ∈ L;
  ch_pm : pm_ok lo hi (s_pm st) F U;
  ch_vm : 0 <= cn_vm (conn_at st c) <= FLEXNIC_PL_VMST_NUM;
  ch_ctx : cn_ctx (conn_at st c) <> 0;
  ch_rx : rx_handle (conn_at st c) ∈ U (cn_vm (conn_at st c));
  ch_tx : tx_handle (conn_at st c) ∈ U (cn_vm (conn_at st c));
  ch_bufs : rx_handle (conn_at st c) <> tx_handle (conn_at st c);
  ch_evfd : ac_evfd (s_ctxs st !!! cn_ctx (conn_at st c)) <> 0 }.

(** The context of the connection has room for a message. *)
Definition conn_room (st : spst) (c : Z) : bool := kout_room (s_ctxs st !!! cn_ctx (conn_at st c)).

Definition conn_holds (lo hi : Z) (st : spst) (T : Z -> list Z) (L : list Z) (F U : Z -> list Z) (c : Z) : Prop :=
  conn_owns lo hi st T L F U c /\ conn_room st c = true.

(** The connection is gone: from the heap, the table and the list of its application; its
    two buffers are free again. *)
Record conn_gone (lo hi : Z) (st : spst) (T : Z -> list Z) (L : list Z) (U : Z -> list Z) (c : Z)
    (st' : spst) : Prop := mk_conn_gone {
  cg_heap : s_conns st' !! c = None;
  cg_table : exists T', ht_rep E st' T' /\ forall d, registered T' d <-> registered T d /\ d <> c;
  cg_app : exists A B, L = A ++ c :: B
           /\ app_rep st' (ac_app (s_ctxs st !!! cn_ctx (conn_at st c))) (A ++ B);
  cg_bufs : exists F' Uv, pm_ok lo hi (s_pm st') F' (fupd U (cn_vm (conn_at st c)) Uv)
            /\ U (cn_vm (conn_at st c)) ≡ₚ rx_handle (conn_at st c) :: tx_handle (conn_at st c) :: Uv }.

Lemma registered_removed st T c A B d :
  ht_rep E st T -> T (conn_bucket E (conn_at st c)) = A ++ c :: B ->
  registered (fun i => if i =? conn_bucket E (conn_at st c) then A ++ B else T i) d
  <-> registered T d /\ d <> c.
Proof.
  intros Hr ET. split.
  - intros Hd. split.
    + destruct Hd as [i Hi]. exists i. destruct (Z.eqb_spec i (conn_bucket E (conn_at st c))) as [Ei|]; [|done].
      rewrite Ei, ET, elem_of_app, elem_of_cons. apply elem_of_app in Hi. tauto.
    + intros ->. by apply (not_registered_removed st T c A B).
  - intros [[i Hi] Hdc]. exists i. destruct (Z.eqb_spec i (conn_bucket E (conn_at st c))) as [Ei|]; [|done].
    rewrite Ei, ET, elem_of_app, elem_of_cons in Hi. rewrite elem_of_app. tauto.
Qed.

(** The connection has failed, but its application cannot be told: it is out of the table, and
    keeps its place in the heap and in the list of the application, and its buffers. *)
Record conn_stuck (st : spst) (T : Z -> list Z) (L : list Z) (c : Z) (st' : spst) : Prop := mk_conn_stuck {
  ck_failed : status (conn_at st' c) = CONN_FAILED /\ is_Some (s_conns st' !! c);
  ck_table : exists T', ht_rep E st' T' /\ forall d, registered T' d <-> registered T d /\ d <> c;
  ck_app : app_rep st' (ac_app (s_ctxs st !!! cn_ctx (conn_at st c))) L;
  ck_pm : s_pm st' = s_pm st;
  ck_ctxs : s_ctxs st' = s_ctxs st }.

(** The connection is freed, but its application cannot be told: the object is still in the
    list of the application. *)
Record conn_dangles (lo hi : Z) (st : spst) (T : Z -> list Z) (L : list Z) (U : Z -> list Z) (c : Z)
    (st' : spst) : Prop := mk_conn_dangles {
  cd_heap : s_conns st' !! c = None;
  cd_table : exists T', ht_rep E st' T' /\ forall d, registered T' d <-> registered T d /\ d <> c;
  cd_app : s_apps st' = s_apps st /\ (forall d, d <> c -> appn st' d = appn st d);
  cd_ctxs : s_ctxs st' = s_ctxs st;
  cd_bufs : exists F' Uv, pm_ok lo hi (s_pm st') F' (fupd U (cn_vm (conn_at st c)) Uv)
            /\ U (cn_vm (conn_at st c)) ≡ₚ rx_handle (conn_at st c) :: tx_handle (conn_at st c) :: Uv }.

(** The core both ends share: the entry in the table goes, then the buffers and the place in
    the list of the application, in either order, and the heap object. *)
Lemma unregister_gone lo hi st T L F U c :
  conn_owns lo hi st T L F U c ->
  exists st1 T', conn_unregister E c st = Some st1
  /\ st1 = st <| tcp_hashtable := tcp_hashtable st1 |> <| s_cc := s_cc st1 |>
  /\ (exists n, conn_at st1 c = set_ht_next n (conn_at st c))
  /\ ht_rep E st1 T' /\ (forall d, registered T' d <-> registered T d /\ d <> c)
  /\ app_rep st1 (ac_app (s_ctxs st !!! cn_ctx (conn_at st c))) L
  /\ is_Some (s_conns st1 !! c) /\ cc_conns (s_cc st1) = cc_conns (s_cc st)
  /\ forall d, appn st1 d = appn st d.
Proof.
  intros H. destruct (conn_unregister_ok E st T c (ch_table _ _ _ _ _ _ _ _ H) (ch_reg _ _ _ _ _ _ _ _ H))
    as (st1 & A & B & Eu & ET & Hr & Est & Hat & Hd & Ecc).
  exists st1. eexists. split; [exact Eu|]. split; [by rewrite Est at 1; destruct st|]. split; [apply Hat|].
  split; [exact Hr|]. split; [intros d; apply (registered_removed st); [apply H|done]|]. split.
  - apply (app_rep_frame st); [apply H|by rewrite Est|]. intros d Hin. split.
    + unfold appn. by destruct (Hat d) as [n ->].
    + apply Hd. by apply (ar_dom _ _ _ (ch_app _ _ _ _ _ _ _ _ H)).
  - split; [|split; [by rewrite Ecc|intros d; unfold appn; by destruct (Hat d) as [n ->]]]. apply Hd. apply (ar_dom _ _ _ (ch_app _ _ _ _ _ _ _ _ H)), H.
Qed.

(** What only moves other parts of the state. *)
Lemma ht_rep_same st st' T :
  s_cc st' = s_cc st -> tcp_hashtable st' = tcp_hashtable st -> ht_rep E st T -> ht_rep E st' T.
Proof.
  intros Ec Et Hr. apply (ht_rep_frame E st); [done..|]. intros d [h Hd].
  unfold same_key, conn_at, s_conns. rewrite Ec. split; [done|]. by apply (hr_dom _ _ _ Hr h).
Qed.

Lemma app_rep_same st st' a L :
  s_cc st' = s_cc st -> s_apps st' = s_apps st -> app_rep st a L -> app_rep st' a L.
Proof.
  intros Ec Ea Hr. apply (app_rep_frame st); [done|by rewrite Ea|]. intros d Hd.
  unfold appn, conn_at, s_conns. rewrite Ec. split; [done|]. by apply (ar_dom _ _ _ Hr).
Qed.

Lemma ht_rep_app_links st st' T :
  tcp_hashtable st' = tcp_hashtable st ->
  (forall d, exists n, conn_at st' d = (conn_at st d) <| app_next := n |>) ->
  (forall d, is_Some (s_conns st' !! d) <-> is_Some (s_conns st !! d)) ->
  ht_rep E st T -> ht_rep E st' T.
Proof.
  intros Et Hat Hd Hr. apply (ht_rep_frame E st); [done..|]. intros d [h Hin]. split.
  - unfold same_key. destruct (Hat d) as [n ->]. done.
  - apply Hd. by apply (hr_dom _ _ _ Hr h).
Qed.

(** The place in the list of the application and the heap object. *)
Lemma app_gone st T a L c :
  ht_rep E st T -> ~ registered T c -> app_rep st a L -> c ∈ L ->
  exists st' A B, app_conn_remove a c st = Some st' /\ L = A ++ c :: B
  /\ st' = st <| s_cc := s_cc st' |> <| s_apps := s_apps st' |>
  /\ s_conns (conn_delete c st') !! c = None
  /\ ht_rep E (conn_delete c st') T /\ app_rep (conn_delete c st') a (A ++ B)
  /\ (forall d, is_Some (s_conns st' !! d) <-> is_Some (s_conns st !! d))
  /\ (exists n, conn_at st' c = (conn_at st c) <| app_next := n |>)
  /\ cc_conns (s_cc st') = cc_conns (s_cc st).
Proof.
  intros Hr Hc Ha Hin.
  destruct (app_conn_remove_ok st a L c Ha Hin) as (st' & A & B & Em & EL & Ha' & Est & Hat & Hd & Ecc).
  exists st', A, B. split; [exact Em|]. split; [exact EL|]. split; [exact Est|]. split; [|split; [|split; [|split; [done|split; [|by rewrite Ecc]]]]].
  - unfold s_conns, conn_delete. cbn [conns s_cc setf]. apply lookup_delete_eq.
  - apply ht_rep_delete; [|done]. apply (ht_rep_app_links st); [by rewrite Est|done..].
  - apply app_rep_delete; [done|]. pose proof (ar_nodup _ _ _ Ha) as Hnd. rewrite EL in Hnd.
    apply NoDup_app in Hnd as (_ & H1 & H2). apply NoDup_cons in H2 as [H2 _].
    intros [Hi|Hi]%elem_of_app; [|done]. apply (H1 _ Hi). apply list_elem_of_here.
  - apply Hat.
Qed.

Lemma port_conn_free_frame p st :
  port_conn_free p st = st <| ports := ports (port_conn_free p st) |>.
Proof. unfold port_conn_free. destruct (ports st !!! p); by destruct st. Qed.

Lemma port_conn_free_at p c st :
  ports st !!! p = PORT_CONN c -> ports (port_conn_free p st) !!! p = PORT_UNUSED.
Proof.
  intros H. unfold port_conn_free. rewrite H. cbn [ports setf]. apply lookup_total_insert_eq.
Qed.

Lemma port_conn_free_unused p st :
  ports st !!! p = PORT_UNUSED -> port_conn_free p st = st.
Proof. intros H. unfold port_conn_free. by rewrite H. Qed.

Lemma port_conn_free_other p q st : q <> p -> ports (port_conn_free p st) !!! q = ports st !!! q.
Proof.
  intros H. unfold port_conn_free. destruct (ports st !!! p); try done.
  cbn [ports setf]. by apply lookup_total_insert_ne.
Qed.

(** Nothing but links changes in the heap. *)
Lemma conn_owns_frame lo hi st st' T L F U c :
  conn_owns lo hi st T L F U c ->
  (forall d, same_key E (conn_at st d) (conn_at st' d) /\ appn st' d = appn st d
             /\ (is_Some (s_conns st !! d) -> is_Some (s_conns st' !! d))) ->
  tcp_hashtable st' = tcp_hashtable st -> s_apps st' = s_apps st -> s_ctxs st' = s_ctxs st ->
  s_pm st' = s_pm st ->
  cn_ctx (conn_at st' c) = cn_ctx (conn_at st c) -> cn_vm (conn_at st' c) = cn_vm (conn_at st c) ->
  rx_handle (conn_at st' c) = rx_handle (conn_at st c) ->
  tx_handle (conn_at st' c) = tx_handle (conn_at st c) ->
  conn_owns lo hi st' T L F U c.
Proof.
  intros [Hr Hreg Ha Hin Hpm Hv Hctx Hrx Htx Hb Hev] Hd Et Eap Ex Epm E1 E2 E3 E4.
  constructor; rewrite ?E1, ?E2, ?E3, ?E4, ?Ex; try done; [|..|by rewrite Epm].
  - apply (ht_rep_frame E st); [done..|]. intros d [h Hh]. split; [apply Hd|]. apply Hd.
    by apply (hr_dom _ _ _ Hr h).
  - apply (app_rep_frame st); [done|by rewrite Eap|]. intros d Hi. split; [apply Hd|].
    apply Hd. by apply (ar_dom _ _ _ Ha).
Qed.

(** The timeouts do not depend on the rest of the state. *)
Lemma timers_same now (A : gset Z) st st' :
  s_tm st' = s_tm st -> s_now st' = s_now st -> timers now A st -> timers now A st'.
Proof. intros Et En [H1 H2]. split; [by rewrite En|by rewrite Et]. Qed.

Lemma conn_timeout_disarm_ok now (A : gset Z) st c :
  timers now A st -> to_armed (conn_at st c) = true -> c ∈ A ->
  exists m, conn_timeout_disarm c st
    = Some (set_conn c (fun c => c <| to_armed := false |>) st <| s_tm := m |>)
  /\ timers now (A ∖ {[c]}) (set_conn c (fun c => c <| to_armed := false |>) st <| s_tm := m |>).
Proof.
  intros [Hn (tl & td & dl & Hr & HA)] Ha Hin. unfold conn_timeout_disarm. rewrite Ha.
  cbn [cassert mbind option_bind].
  destruct (timeout_disarm_ok now A (set_conn c (fun c => c <| to_armed := false |>) st) c tl td dl Hr HA Hin)
    as (m & Em & tl' & td' & dl' & Hr' & HA').
  exists m. split; [exact Em|]. split; [exact Hn|]. by exists tl', td', dl'.
Qed.

(** The timeout of the connection, when it has one. *)
Definition armed_in (A : gset Z) (c : Z) (st : spst) : Prop :=
  to_armed (conn_at st c) = true -> c ∈ A.
Definition disarmed (A : gset Z) (c : Z) (st : spst) : gset Z :=
  if to_armed (conn_at st c) then A ∖ {[c]} else A.

(** The disarming step of [conn_failed] and the new status. *)
Lemma failed_status now (A : gset Z) st c :
  timers now A st -> armed_in A c st ->
  exists st1, (if to_armed (conn_at st c) then conn_timeout_disarm c st else Some st) = Some st1
  /\ st1 = st <| s_tm := s_tm st1 |> <| s_cc := s_cc st1 |>
  /\ timers now (disarmed A c st) st1
  /\ (forall d, conn_at st1 d = if d =? c then (conn_at st c) <| to_armed := false |> else conn_at st d)
  /\ (forall d, is_Some (s_conns st !! d) -> is_Some (s_conns st1 !! d))
  /\ cc_conns (s_cc st1) = cc_conns (s_cc st).
Proof.
  intros Ht Ha. unfold disarmed, armed_in in *. destruct (to_armed (conn_at st c)) eqn:Ea.
  - destruct (conn_timeout_disarm_ok now A st c Ht Ea (Ha eq_refl)) as (m & -> & Ht').
    eexists. split; [reflexivity|]. split; [by destruct st|]. split; [exact Ht'|]. split.
    + intros d. apply conn_at_set.
    + split; [|done]. intros d Hd. apply set_conn_dom. by right.
  - exists st. split; [done|]. split; [by destruct st|]. split; [done|]. split; [|done].
    intros d. destruct (Z.eqb_spec d c) as [->|]; [|done].
    transitivity ((conn_at st c) <| to_armed := to_armed (conn_at st c) |>); [by destruct (conn_at st c)|by rewrite Ea].
Qed.

(** [conn_failed] up to the message. *)
Record failed_conn (now : Z) (A : gset Z) (st : spst) (T : Z -> list Z) (L : list Z) (c : Z)
    (st3 : spst) (T' : Z -> list Z) : Prop := mk_failed_conn {
  fc_conn : exists n, conn_at st3 c = set_status CONN_FAILED ((set_ht_next n (conn_at st c)) <| to_armed := false |>);
  fc_table : ht_rep E st3 T';
  fc_reg : forall d, registered T' d <-> registered T d /\ d <> c;
  fc_app : app_rep st3 (ac_app (s_ctxs st !!! cn_ctx (conn_at st c))) L;
  fc_heap : is_Some (s_conns st3 !! c);
  fc_timers : timers now (disarmed A c st) st3;
  fc_same : s_ctxs st3 = s_ctxs st /\ s_pm st3 = s_pm st /\ ports st3 = ports st /\ s_nic st3 = s_nic st
            /\ cc_conns (s_cc st3) = cc_conns (s_cc st) }.

Lemma conn_failed_parts lo hi now (A : gset Z) st T L F U c code :
  conn_owns lo hi st T L F U c -> timers now A st -> armed_in A c st ->
  exists st3 T', conn_failed E config c code st = appif_conn_opened config c code st3
  /\ failed_conn now A st T L c st3 T'.
Proof.
  intros H Ht Ha. unfold conn_failed. set (c0 := conn_at st c) in *.
  destruct (unregister_gone lo hi st T L F U c H) as (st1 & T' & -> & Est1 & [n E1] & Hr1 & HT & Ha1 & Hd1 & Ecc1 & _).
  cbn [mbind option_bind]. fold c0 in E1, Ha1.
  assert (Ed : disarmed A c st1 = disarmed A c st) by (unfold disarmed; by rewrite E1).
  destruct (failed_status now A st1 c) as (st2 & -> & Est2 & Ht2 & Hat2 & Hdom2 & Ecc2).
  { apply (timers_same now A st); [by rewrite Est1..|done]. }
  { unfold armed_in. rewrite E1. exact Ha. }
  rewrite Ed in Ht2. cbn [mbind option_bind]. set (st3 := set_conn c (set_status CONN_FAILED) st2).
  exists st3, T'. split; [done|].
  assert (Hat3 : forall d, conn_at st3 d = if d =? c then
      set_status CONN_FAILED ((set_ht_next n c0) <| to_armed := false |>) else conn_at st1 d).
  { intros d. unfold st3. rewrite conn_at_set, !Hat2, Z.eqb_refl, E1. by destruct (d =? c). }
  assert (Hdom3 : forall d, is_Some (s_conns st1 !! d) -> is_Some (s_conns st3 !! d)).
  { intros d Hd. apply set_conn_dom. right. by apply Hdom2. }
  assert (Es3 : tcp_hashtable st3 = tcp_hashtable st1 /\ s_apps st3 = s_apps st1 /\ s_ctxs st3 = s_ctxs st
    /\ s_pm st3 = s_pm st /\ ports st3 = ports st /\ s_nic st3 = s_nic st)
    by (unfold st3; rewrite Est2; cbn; rewrite Est1; done).
  destruct Es3 as (Et3 & Eap3 & Es3).
  constructor; [|..|split_and!; try apply Es3].
  - exists n. by rewrite Hat3, Z.eqb_refl.
  - apply (ht_rep_frame E st1); [done|done|]. intros d [h Hd]. split.
    + unfold same_key. rewrite Hat3. destruct (Z.eqb_spec d c) as [->|]; [by rewrite E1|done].
    + apply Hdom3. by apply (hr_dom _ _ _ Hr1 h).
  - exact HT.
  - apply (app_rep_frame st1); [done|by rewrite Eap3|]. intros d Hd. split.
    + unfold appn. rewrite Hat3. destruct (Z.eqb_spec d c) as [->|]; [by rewrite E1|done].
    + apply Hdom3. by apply (ar_dom _ _ _ Ha1).
  - by apply Hdom3.
  - exact Ht2.
  - transitivity (cc_conns (s_cc st2)); [done|]. by rewrite Ecc2.
Qed.

(** Without room for the message, nothing else happens. *)
Lemma conn_failed_full lo hi now (A : gset Z) st T L F U c code :
  conn_owns lo hi st T L F U c -> conn_room st c = false -> timers now A st -> armed_in A c st ->
  exists st', conn_failed E config c code st = Some st'
  /\ conn_stuck st T L c st' /\ timers now (disarmed A c st) st' /\ ports st' = ports st.
Proof.
  intros H Hroom Ht Ha. destruct (conn_failed_parts lo hi now A st T L F U c code H Ht Ha)
    as (st3 & T' & -> & [[n E3] Htb Hrg Hap Hhp Htm (Ex & Ep & Epo & _)]).
  exists st3. unfold appif_conn_opened. rewrite E3. cbv zeta.
  change (cn_ctx (set_status CONN_FAILED _)) with (cn_ctx (conn_at st c)). rewrite Ex.
  unfold conn_room in Hroom. rewrite Hroom. cbn [negb]. split; [done|]. split; [|by split].
  constructor; [by rewrite E3|by exists T'|done..].
Qed.

Lemma conn_failed_ok lo hi now (A : gset Z) st T L F U c code :
  conn_holds lo hi st T L F U c -> timers now A st -> armed_in A c st -> code <> 0 ->
  exists st', conn_failed E config c code st = Some st'
  /\ conn_gone lo hi st T L U c st'
  /\ timers now (disarmed A c st) st'
  /\ ports st' = ports st /\ s_nic st' = s_nic st /\ cc_conns (s_cc st') = cc_conns (s_cc st)
  /\ kout (s_ctxs st' !!! cn_ctx (conn_at st c))
     = <[kout_pos (s_ctxs st !!! cn_ctx (conn_at st c)) :=
           APPIN_CONN_OPENED (cn_opaque (conn_at st c)) code None]>
         (kout (s_ctxs st !!! cn_ctx (conn_at st c))).
Proof.
  intros [H Hroom] Ht Ha Hcode.
  destruct (conn_failed_parts lo hi now A st T L F U c code H Ht Ha)
    as (st3 & T' & -> & [[n E3] Hr3 HT Ha3 Hd3 Ht3 (Ex3 & Epm3 & Epo3 & Eni3 & Ecc3)]).
  unfold conn_room in Hroom. set (c0 := conn_at st c) in *.
  unfold appif_conn_opened. rewrite E3. cbv zeta.
  change (cn_ctx (set_status CONN_FAILED _)) with (cn_ctx c0).
  change (cn_opaque (set_status CONN_FAILED _)) with (cn_opaque c0).
  rewrite Ex3, Hroom, (proj2 (Z.eqb_neq _ _) Hcode). cbn [negb].
  set (a := ac_app (s_ctxs st !!! cn_ctx c0)) in *.
  destruct (app_gone st3 T' a L c Hr3) as (st4 & B1 & B2 & -> & EL & Est4 & Hg1 & Hg2 & Hg3 & Hdom4 & [m E4] & Ecc4).
  { intros Hc. by apply HT in Hc as [_ ?]. }
  { done. }
  { apply H. }
  cbn [mbind option_bind]. rewrite E3 in E4. unfold tcp_destroy. rewrite E4.
  rewrite bool_decide_eq_true_2 by done. cbn [cassert mbind option_bind]. unfold conn_free.
  rewrite bool_decide_eq_true_2 by (by apply Hdom4).
  cbn [cassert mbind option_bind].
  destruct (conn_free_bufs_ok lo hi st4 F U c) as (pm & F' & Uv & -> & Hpm & HU);
    rewrite ?E4; try apply H; [rewrite Est4; cbn [s_pm setf]; rewrite Epm3; apply H|].
  cbn [mbind option_bind]. rewrite E4 in Hpm, HU.
  set (st5 := conn_delete c (st4 <| s_pm := pm |>)).
  assert (Ex5 : s_ctxs st5 = s_ctxs st) by (unfold st5; rewrite Est4; exact Ex3).
  destruct (kout_push_ok (cn_ctx c0) (APPIN_CONN_OPENED (cn_opaque c0) code None) st5)
    as (x & -> & Ek & _); [rewrite Ex5; apply H|].
  rewrite Ex5 in Ek |- *. eexists. split; [reflexivity|]. split; [|split; [|split; [|split; [|split]]]].
  - constructor; [exact Hg1|exists T'; split; [|exact HT]|exists B1, B2; split; [exact EL|]|
      exists F', Uv; split; [exact Hpm|exact HU]].
    + by apply (ht_rep_same (conn_delete c st4)).
    + by apply (app_rep_same (conn_delete c st4)).
  - apply (timers_same now (disarmed A c st) st3); [..|done]; unfold st5; by rewrite Est4.
  - change (ports st5 = ports st). unfold st5. rewrite Est4. exact Epo3.
  - change (s_nic st5 = s_nic st). unfold st5. rewrite Est4. exact Eni3.
  - transitivity (cc_conns (s_cc st4)); [done|]. by rewrite Ecc4.
  - cbn [s_ctxs setf]. rewrite lookup_total_insert_eq. exact Ek.
Qed.

(** A control packet only changes the queue to the fast path. *)
Lemma control_frame gre conn flags ts_opt ts_echo mss st :
  exists n l, control E config gre conn flags ts_opt ts_echo mss st
              = st <| tx_free := n |> <| tx_sent := l |>.
Proof.
  unfold control. destruct gre; unfold send_control_gre, send_control, send_control_raw_gre,
    send_control_raw, tx_push; [destruct (control_pkt_gre _ _ _ _ _ _ _ _ _ _ _ _ _ _ _)|];
    destruct (_ <=? 0); cbn [Datatypes.snd]; try (exists (tx_free st), (tx_sent st); by destruct st);
    by eexists _, _.
Qed.

(** The armed timeouts with their deadlines. *)
Definition timers_at (now : Z) (A : gset Z) (dl : Z -> Z) (st : spst) : Prop :=
  s_now st = u32 now
  /\ exists tl td, tm_rep now (s_tm st) tl td dl /\ forall y, y ∈ tl ++ td <-> y ∈ A.

Lemma timers_at_any now (A : gset Z) dl st : timers_at now A dl st -> timers now A st.
Proof. intros [H (tl & td & Hr & HA)]. split; [done|]. by exists tl, td, dl. Qed.

(** The timeout of a connection is armed after between a half and three halves of its
    time. *)
Lemma conn_timeout_arm_ok now (A : gset Z) dl st c type :
  timers_at now A dl st -> to_armed (conn_at st c) = false -> c ∉ A -> c <> 0 ->
  0 < cn_timeout (conn_at st c) < 67108864 ->
  exists us m rng, conn_timeout_arm c type st
    = Some (set_conn c (fun c => c <| to_armed := true |>) st <| s_rng := rng |> <| s_tm := m |>)
  /\ cn_timeout (conn_at st c) / 2 <= us < cn_timeout (conn_at st c) / 2 + cn_timeout (conn_at st c)
  /\ timers_at now ({[c]} ∪ A) (fupd dl c (now + us))
       (set_conn c (fun c => c <| to_armed := true |>) st <| s_rng := rng |> <| s_tm := m |>).
Proof.
  intros [Hn (tl & td & Hr & HA)] Ha Hc Hc0 Ht. unfold conn_timeout_arm. rewrite Ha.
  set (t := cn_timeout (conn_at st c)) in *. rewrite (proj2 (Z.eqb_neq t 0)) by lia.
  cbn [negb cassert mbind option_bind]. destruct (utils_rng_gen32 (s_rng st)) as [rng r].
  pose proof (Z.mod_pos_bound r t ltac:(lia)) as Hm. pose proof (Z.div_pos t 2 ltac:(lia) ltac:(lia)) as Hd.
  assert (Hd2 : t / 2 <= t) by (apply Z.div_le_upper_bound; lia).
  rewrite u32_id by (unfold is_u32; lia). set (us := t / 2 + r mod t) in *.
  set (st1 := set_conn c _ st <| s_rng := rng |>). unfold timeout_arm. change (s_now st1) with (s_now st).
  rewrite Hn. change (s_tm st1) with (s_tm st).
  destruct (util_timeout_arm_ok now (s_tm st) tl td dl c us TO_TCP_HANDSHAKE Hr)
    as (m & l1 & B1 & B2 & -> & -> & _ & _ & _ & Hr' & _);
    [by rewrite HA|done|unfold us; lia|unfold TO_TCP_HANDSHAKE; lia|].
  exists us, m, rng. split; [done|]. split; [unfold us; lia|]. split; [exact Hn|].
  do 2 eexists. split; [exact Hr'|]. intros y.
  rewrite elem_of_union, elem_of_singleton, <- HA, !elem_of_app, elem_of_cons. tauto.
Qed.

(** The fields of a connection that say where it is kept. *)
Definition same_place (c c' : connection) : Prop :=
  same_key E c c' /\ app_next c' = app_next c /\ cn_ctx c' = cn_ctx c /\ cn_vm c' = cn_vm c
  /\ rx_handle c' = rx_handle c /\ tx_handle c' = tx_handle c.

Lemma conn_owns_set lo hi st st' T L F U c c' :
  conn_owns lo hi st T L F U c -> same_place (conn_at st c) c' ->
  (forall d, conn_at st' d = if d =? c then c' else conn_at st d) ->
  (forall d, is_Some (s_conns st !! d) -> is_Some (s_conns st' !! d)) ->
  tcp_hashtable st' = tcp_hashtable st -> s_apps st' = s_apps st -> s_ctxs st' = s_ctxs st ->
  s_pm st' = s_pm st -> conn_owns lo hi st' T L F U c.
Proof.
  intros H (K & Ea & E1 & E2 & E3 & E4) Hat Hd Et Eap Ex Epm.
  assert (Ec : conn_at st' c = c') by (by rewrite Hat, Z.eqb_refl).
  apply (conn_owns_frame lo hi st); rewrite ?Ec; try done.
  intros d. unfold appn. rewrite Hat. destruct (Z.eqb_spec d c) as [->|]; [auto|].
  split; [done|]. split; [done|]. apply Hd.
Qed.

Lemma conn_owns_set_conn lo hi st T L F U c f :
  conn_owns lo hi st T L F U c -> (forall x, same_place x (f x)) ->
  conn_owns lo hi (set_conn c f st) T L F U c.
Proof.
  intros H Hf. eapply (conn_owns_set lo hi st); [exact H|apply Hf|apply conn_at_set| |done..].
  intros d Hd. apply set_conn_dom. by right.
Qed.

Lemma conn_holds_set_conn lo hi st T L F U c f :
  conn_holds lo hi st T L F U c -> (forall x, same_place x (f x)) ->
  conn_holds lo hi (set_conn c f st) T L F U c.
Proof.
  intros [H Hr] Hf. split; [by apply conn_owns_set_conn|]. unfold conn_room in *.
  rewrite conn_at_set_same. destruct (Hf (conn_at st c)) as (_ & _ & E1 & _). by rewrite E1.
Qed.

End Release.
