(* ===== verification/ConnThms.v ===== *)
(** * The connections of the slow path: theorems

    Registration and lookup of connections, local ports, and the end of connections. *)

From stdpp Require Import gmap sets.
From S2P Require Import Prelude FpTypes SpTypes Links PacketMem PacketMemThms Rng Timeout.
From S2P Require Import Cc NicFlow NicFlowThms FlowTx SpState TcpConn TcpConnProofs Arp AppNotify.
From S2P Require Import Tcp Listen ArpThms Release.
From S2P Require Import HandshakeThms.
#[local] Opaque nic_start.

Section ConnThms.
Context (E : fpenv) (config : configuration).

(** The connections the table of connections maps the packets [p] to. *)
Definition table_finds (st : spst) (T : Z -> list Z) (p : pkt_tcp) (d : Z) : Prop :=
  registered T d /\ conn_matches p (conn_at st d)
  /\ forall e, registered T e -> conn_matches p (conn_at st e) -> e = d.

Definition table_local (st : spst) (T : Z -> list Z) (p : pkt_tcp) : Prop :=
  forall d, registered T d -> cn_out_local_ip (conn_at st d) = f_beui32 (ip_dest (p_ip p)).

Lemma conn_lookup_finds st T p d :
  ht_rep E st T -> table_local st T p -> table_finds st T p d -> conn_lookup E p st = Some d.
Proof.
  intros Hr Hl (Hd & Hm & Hu). destruct (conn_lookup_ok E st T p Hr Hl) as (r & -> & [[_ Hn]|(_ & Hr1 & Hr2)]).
  - by destruct (Hn d Hd).
  - by rewrite (Hu r Hr1 Hr2).
Qed.

Lemma conn_lookup_none st T p :
  ht_rep E st T -> table_local st T p ->
  (forall d, registered T d -> ~ conn_matches p (conn_at st d)) -> conn_lookup E p st = Some 0.
Proof.
  intros Hr Hl Hn. destruct (conn_lookup_ok E st T p Hr Hl) as (r & -> & [[-> _]|(_ & Hr1 & Hr2)]); [done|].
  by destruct (Hn r Hr1).
Qed.

(** Registration and removal keep the keys. *)
Definition same_keys (st st' : spst) : Prop :=
  forall d, exists n, conn_at st' d = set_ht_next n (conn_at st d).

Lemma table_finds_keys st st' T T' p d :
  same_keys st st' -> registered T' d ->
  (forall e, registered T' e -> registered T e \/ ~ conn_matches p (conn_at st e)) ->
  table_finds st T p d -> table_finds st' T' p d.
Proof.
  intros Hk Hd He (_ & Hm & Hu). split; [done|]. split.
  - by destruct (Hk d) as [n ->].
  - intros e He' Hme. destruct (Hk e) as [n En]. rewrite En in Hme.
    destruct (He e He') as [?|Hn]; [|by destruct Hn]. by apply Hu.
Qed.

(** The table of connections works like a finite map from addresses and ports to
    connections, although it is an array of linked lists: a packet for a registered connection
    is looked up as that connection, a packet for a connection taken out again is not found,
    and neither operation changes what other packets find. *)
Theorem conn_table_map st T c p :
  ht_rep E st T -> c <> 0 -> ~ registered T c -> conn_matches p (conn_at st c) ->
  cn_out_local_ip (conn_at st c) = f_beui32 (ip_dest (p_ip p)) -> table_local st T p ->
  (forall d, registered T d -> ~ conn_matches p (conn_at st d)) ->
  conn_lookup E p (conn_register E c st) = Some c
  /\ exists st', conn_unregister E c (conn_register E c st) = Some st'
  /\ conn_lookup E p st' = Some 0
  /\ forall q d, ip_dest (p_ip q) = ip_dest (p_ip p) -> table_finds st T q d ->
       ~ conn_matches q (conn_at st c) ->
       conn_lookup E q st = Some d
       /\ conn_lookup E q (conn_register E c st) = Some d /\ conn_lookup E q st' = Some d.
Proof.
  intros Hr Hc0 Hc Hm Hlip Hloc Hno. set (st1 := conn_register E c st).
  set (h := conn_bucket E (conn_at st c)). set (T1 := fun i => if i =? h then c :: T h else T i).
  pose proof (conn_register_ok E st T c Hr Hc0 Hc) as Hr1. cbv zeta in Hr1. fold h T1 st1 in Hr1.
  assert (HT1 : forall d, registered T1 d <-> d = c \/ registered T d).
  { intros d. unfold registered, T1. split.
    - intros [i Hi]. destruct (i =? h); [|right; by exists i].
      apply elem_of_cons in Hi as [->|Hi]; [by left|right; by exists h].
    - intros [->|[i Hi]]; [exists h; rewrite Z.eqb_refl; apply list_elem_of_here|].
      exists i. destruct (Z.eqb_spec i h) as [Ei|]; [|done]. apply list_elem_of_further. by rewrite <- Ei. }
  assert (Hk1 : same_keys st st1).
  { intros d. unfold st1, conn_register. change (conn_at (_ <| tcp_hashtable ::= _ |>) d) with
      (conn_at (set_conn c (set_ht_next (tcp_hashtable st !!! h)) st) d).
    rewrite conn_at_set. destruct (Z.eqb_spec d c) as [->|]; [by eexists|].
    exists (ht_next (conn_at st d)). by destruct (conn_at st d). }
  assert (Hloc1 : forall q, ip_dest (p_ip q) = ip_dest (p_ip p) -> table_local st1 T1 q).
  { intros q Eq d Hd. rewrite Eq. destruct (Hk1 d) as [n ->]. apply HT1 in Hd as [->|Hd]; [done|by apply Hloc]. }
  split.
  - apply (conn_lookup_finds st1 T1); [done|by apply Hloc1|]. split; [apply HT1; by left|]. split.
    + by destruct (Hk1 c) as [n ->].
    + intros e He Hme. destruct (Hk1 e) as [n En]. rewrite En in Hme. apply HT1 in He as [->|He]; [done|].
      by destruct (Hno e He).
  - assert (Hreg1 : registered T1 c) by (apply HT1; by left).
    destruct (conn_unregister_ok E st1 T1 c Hr1 Hreg1) as (st2 & A & B & Eu & ET & Hr2 & _ & Hk2 & _).
    set (T2 := fun i => _) in Hr2.
    assert (HT2 : forall d, registered T2 d <-> registered T d).
    { intros d. unfold T2. rewrite (registered_removed E st1 T1 c A B d Hr1 ET), HT1.
      split; [tauto|]. intros Hd. split; [by right|]. by intros ->. }
    assert (Hk : same_keys st st2).
    { intros d. destruct (Hk1 d) as [n1 E1], (Hk2 d) as [n2 E2]. exists n2. by rewrite E2, E1. }
    assert (Hloc2 : forall q, ip_dest (p_ip q) = ip_dest (p_ip p) -> table_local st2 T2 q).
    { intros q Eq d Hd. rewrite Eq. destruct (Hk d) as [n ->]. by apply Hloc, HT2. }
    exists st2. split; [exact Eu|]. split.
    + apply (conn_lookup_none st2 T2); [done|by apply Hloc2|]. intros d Hd.
      destruct (Hk d) as [n ->]. by apply Hno, HT2.
    + intros q d Eq Hf Hcq. pose proof (proj1 Hf) as Hd. split; [|split].
      * apply (conn_lookup_finds st T); [done| |done]. intros e He. rewrite Eq. by apply Hloc.
      * apply (conn_lookup_finds st1 T1); [done|by apply Hloc1|].
        apply (table_finds_keys st st1 T); [done|apply HT1; by right| |done].
        intros e [->|He]%HT1; [by right|by left].
      * apply (conn_lookup_finds st2 T2); [done|by apply Hloc2|].
        apply (table_finds_keys st st2 T); [done|by apply HT2| |done].
        intros e He. left. by apply HT2.
Qed.

(** C11: when the close timeout of a connection fires, its entry in the table, its two buffers,
    its flow id, which is the next one to be allocated, and its local port are given back, and
    the connection is freed.  With room in the queue to the application, the connection also
    leaves the list of its application, which gets the message that the connection is closed.
    Without room, nothing is sent, and the list of the application keeps the freed connection. *)
Theorem conn_close_timeout_releases lo hi st T L F U c l :
  conn_owns E lo hi st T L F U c -> ids_ok (s_nic st) l ->
  0 <= cn_flow_id (conn_at st c) < FLEXNIC_PL_FLOWST_NUM -> cn_flow_id (conn_at st c) ∉ l ->
  ports st !!! cn_local_port (conn_at st c) = PORT_CONN c ->
  exists st', conn_close_timeout E c st = Some st'
  /\ (if conn_room st c
      then conn_gone E lo hi st T L U c st'
           /\ kout (s_ctxs st' !!! cn_ctx (conn_at st c))
              = <[kout_pos (s_ctxs st !!! cn_ctx (conn_at st c)) :=
                    APPIN_STATUS STATUS_CONN_CLOSE (cn_opaque (conn_at st c)) 0]>
                  (kout (s_ctxs st !!! cn_ctx (conn_at st c)))
      else conn_dangles E lo hi st T L U c st')
  /\ ids_ok (s_nic st') (cn_flow_id (conn_at st c) :: l)
  /\ ports st' !!! cn_local_port (conn_at st c) = PORT_UNUSED.
Proof.
  intros H Hids Hf Hfl Hport. unfold conn_close_timeout. set (c0 := conn_at st c) in *.
  set (st1 := port_conn_free (cn_local_port c0) st).
  assert (Est1 : st1 = st <| ports := ports st1 |>) by apply port_conn_free_frame.
  assert (H1 : conn_owns E lo hi st1 T L F U c).
  { destruct H. rewrite Est1. constructor; try done; [by apply (ht_rep_same E st)|by apply (app_rep_same st)]. }
  destruct (unregister_gone E lo hi st1 T L F U c H1) as (st2 & T' & -> & Est2 & [n E2] & Hr2 & HT & Ha2 & Hd2 & _ & Hn2).
  cbn [mbind option_bind].
  assert (Ec1 : conn_at st1 c = c0) by (rewrite Est1; done). rewrite Ec1 in E2.
  destruct (conn_free_bufs_ok lo hi st2 F U c) as (pm & F' & Uv & -> & Hpm & HU);
    rewrite ?E2; try apply H; [rewrite Est2, Est1; apply H|].
  cbn [mbind option_bind]. rewrite E2 in Hpm, HU.
  set (st3 := st2 <| s_pm := pm |> <| s_nic ::= _ |>).
  rewrite (port_conn_free_unused (cn_local_port c0) st3).
  2: { unfold st3. rewrite Est2. cbn [ports setf]. unfold st1. by apply (port_conn_free_at _ c). }
  assert (Es3 : s_cc st3 = s_cc st2 /\ s_apps st3 = s_apps st /\ s_ctxs st3 = s_ctxs st
    /\ ports st3 = ports st1) by (unfold st3; rewrite Est2, Est1; done).
  destruct Es3 as (Ec3 & Ea3 & Ex3 & Ep3).
  assert (Hnic : ids_ok (s_nic st3) (cn_flow_id c0 :: l)).
  { unfold st3. cbn [s_nic setf]. apply flow_id_free_spec; [|done..]. rewrite Est2, Est1. exact Hids. }
  assert (Hprt : ports st3 !!! cn_local_port c0 = PORT_UNUSED)
    by (rewrite Ep3; unfold st1; by apply (port_conn_free_at _ c)).
  assert (Hr3 : ht_rep E st3 T') by (by apply (ht_rep_same E st2)).
  assert (Ha3 : app_rep st3 (ac_app (s_ctxs st !!! cn_ctx c0)) L).
  { apply (app_rep_same st2); [done| |by rewrite Est1 in Ha2]. rewrite Est2, Est1. exact Ea3. }
  assert (E3 : conn_at st3 c = set_ht_next n c0) by (unfold conn_at; rewrite Ec3; exact E2).
  assert (Hpm3 : s_pm st3 = pm) by done.
  assert (Hapn : forall d, appn st3 d = appn st d)
    by (intros d; unfold appn at 1, conn_at, s_conns; rewrite Ec3; etransitivity; [apply Hn2|by rewrite Est1]).
  clearbody st3. unfold appif_conn_closed. rewrite E3, Ex3. cbv zeta.
  change (cn_ctx (set_ht_next n c0)) with (cn_ctx c0).
  change (cn_opaque (set_ht_next n c0)) with (cn_opaque c0).
  assert (Hnc : ~ registered T' c) by (intros Hc; by apply HT in Hc as [_ ?]).
  change (kout_room (s_ctxs st !!! cn_ctx c0)) with (conn_room st c).
  set (a := ac_app (s_ctxs st !!! cn_ctx c0)) in *.
  destruct (conn_room st c) eqn:Hroom; cbn [negb].
  - destruct (kout_push_ok (cn_ctx c0) (APPIN_STATUS STATUS_CONN_CLOSE (cn_opaque c0) 0) st3)
      as (x & -> & Ek & _); [rewrite Ex3; apply H|]. cbn [mbind option_bind].
    rewrite Ex3 in Ek |- *. set (st4 := st3 <| s_ctxs := _ |>).
    destruct (app_gone E st4 T' a L c) as (st5 & A & B & -> & EL & Est5 & Hg1 & Hg2 & Hg3 & _);
      [by apply (ht_rep_same E st3)|done|by apply (app_rep_same st3)|apply H|].
    cbn [mbind option_bind]. eexists. split; [reflexivity|]. split; [split|split].
    + constructor; [done|by exists T'|by exists A, B|]. exists F', Uv. split; [|exact HU].
      rewrite Est5. change (s_pm _) with (s_pm st3). rewrite Hpm3. exact Hpm.
    + change (s_ctxs (conn_delete c st5)) with (s_ctxs st5). rewrite Est5.
      change (kout (s_ctxs st4 !!! cn_ctx c0) = <[kout_pos (s_ctxs st !!! cn_ctx c0) := APPIN_STATUS STATUS_CONN_CLOSE (cn_opaque c0) 0]> (kout (s_ctxs st !!! cn_ctx c0))).
      unfold st4. cbn [s_ctxs setf]. rewrite lookup_total_insert_eq. exact Ek.
    + change (s_nic (conn_delete c st5)) with (s_nic st5). rewrite Est5. exact Hnic.
    + change (ports (conn_delete c st5)) with (ports st5). rewrite Est5. exact Hprt.
  - cbn [mbind option_bind]. eexists. split; [reflexivity|]. split; [|by split].
    constructor.
    + unfold s_conns, conn_delete. cbn [conns s_cc setf]. apply lookup_delete_eq.
    + exists T'. split; [by apply ht_rep_delete|exact HT].
    + split; [exact Ea3|]. intros d Hd. unfold appn. rewrite conn_at_delete by done.
      apply Hapn.
    + exact Ex3.
    + exists F', Uv. split; [|exact HU]. change (s_pm (conn_delete c st3)) with (s_pm st3). by rewrite Hpm3.
Qed.

(** The SYN a connection sends, again after each timeout. *)
Definition syn_of (c : connection) : tx_pkt :=
  control_pkt E config (cn_remote_mac c) (cn_out_remote_ip c) (cn_remote_port c)
    (cn_local_port c) (local_seq c) (remote_seq c) SYN_FLAGS true 0 TCP_MSS.

Lemma control_syn_sent c st :
  tx_sent (control E config false c SYN_FLAGS true 0 TCP_MSS st)
  = if 0 <? tx_free st then syn_of (conn_at st c) :: tx_sent st else tx_sent st.
Proof.
  destruct (Z.ltb_spec 0 (tx_free st)) as [Hf|Hf]; [by apply control_sent|].
  unfold control, send_control, send_control_raw, tx_push. by rewrite (proj2 (Z.leb_le _ _) Hf).
Qed.

(** C10: when the handshake timeout of a connection fires and the number of retries is not used
    up, the connection tries again: the same SYN is sent if there is a free transmit buffer,
    the time is doubled (it is below 2^25 microseconds before) and the timeout is armed between
    a half and three halves of the new time.  When the number of retries is used up the
    connection is given up, and its local port stays marked as used by it: with room in the
    queue to the application, the connection and its buffers are released and the application
    is told; without room, the connection is only marked as failed and taken out of the table,
    and keeps its buffers and its place in the list of the application, with no timeout armed
    that would try to tell the application again. *)
Theorem tcp_timeout_handshake lo hi now (A : gset Z) dl st T L F U c :
  conn_owns E lo hi st T L F U c -> timers_at now A dl st -> c ∉ A -> c <> 0 ->
  to_armed (conn_at st c) = true -> status (conn_at st c) = CONN_SYN_SENT ->
  0 < cn_timeout (conn_at st c) < 33554432 ->
  exists st', tcp_timeout E config c TO_TCP_HANDSHAKE st = Some st'
  /\ if tcp_handshake_retries config <? 1 + to_attempts (conn_at st c)
     then timers now A st' /\ ports st' = ports st
          /\ if conn_room st c
             then conn_gone E lo hi st T L U c st'
                  /\ kout (s_ctxs st' !!! cn_ctx (conn_at st c))
                     = <[kout_pos (s_ctxs st !!! cn_ctx (conn_at st c)) :=
                           APPIN_CONN_OPENED (cn_opaque (conn_at st c)) (-1) None]>
                         (kout (s_ctxs st !!! cn_ctx (conn_at st c)))
             else conn_stuck E st T L c st'
     else conn_owns E lo hi st' T L F U c /\ s_ctxs st' = s_ctxs st
          /\ conn_at st' c = (conn_at st c) <| to_attempts := 1 + to_attempts (conn_at st c) |>
                               <| cn_timeout := 2 * cn_timeout (conn_at st c) |>
          /\ tx_sent st' = (if 0 <? tx_free st then syn_of (conn_at st c) :: tx_sent st
                            else tx_sent st)
          /\ exists us, cn_timeout (conn_at st c) <= us < 3 * cn_timeout (conn_at st c)
             /\ timers_at now ({[c]} ∪ A) (fupd dl c (now + us)) st'.
Proof.
  intros H Ht Hc Hc0 Harm Hst Hto. unfold tcp_timeout. rewrite Harm.
  set (c0 := conn_at st c) in *. cbn [cassert mbind option_bind].
  change (TO_TCP_HANDSHAKE =? TO_TCP_CLOSED) with false. cbv iota.
  change (TO_TCP_HANDSHAKE =? TO_TCP_HANDSHAKE) with true. cbn [cassert mbind option_bind].
  rewrite bool_decide_eq_true_2 by (rewrite conn_at_set_same; exact Hst). cbn [cassert mbind option_bind].
  set (st1 := set_conn c _ (set_conn c _ st)).
  assert (Hat1 : forall d, conn_at st1 d = if d =? c then c0 <| to_armed := false |>
                             <| to_attempts := 1 + to_attempts c0 |> else conn_at st d).
  { intros d. unfold st1. rewrite !conn_at_set, Z.eqb_refl. by destruct (d =? c). }
  assert (E1 : conn_at st1 c = c0 <| to_armed := false |> <| to_attempts := 1 + to_attempts c0 |>)
    by (rewrite Hat1, Z.eqb_refl; done).
  rewrite E1. change (to_attempts (c0 <| to_armed := false |> <| to_attempts := 1 + to_attempts c0 |>))
    with (1 + to_attempts c0).
  assert (Hd1 : forall d, is_Some (s_conns st !! d) -> is_Some (s_conns st1 !! d))
    by (intros d Hd; apply set_conn_dom; right; apply set_conn_dom; by right).
  assert (H1 : conn_owns E lo hi st1 T L F U c)
    by (eapply (conn_owns_set E lo hi st); [exact H| |exact Hat1|exact Hd1|done..]; done).
  assert (Ht1 : timers_at now A dl st1) by exact Ht.
  destruct (Z.ltb_spec (tcp_handshake_retries config) (1 + to_attempts c0)) as [Hr|Hr].
  - apply timers_at_any in Ht1.
    assert (Ha1 : armed_in A c st1) by (unfold armed_in; by rewrite E1).
    assert (Ed : disarmed A c st1 = A) by (unfold disarmed; by rewrite E1).
    assert (Er : conn_room st1 c = conn_room st c) by (unfold conn_room; by rewrite E1).
    destruct (conn_room st c).
    + destruct (conn_failed_ok E config lo hi now A st1 T L F U c (-1) (conj H1 Er) Ht1 Ha1)
        as (st' & -> & [Hg1 Hg2 Hg3 Hg4] & Ht' & Ep & _ & _ & Ek); [done|].
      exists st'. split; [done|]. rewrite Ed in Ht'. rewrite E1 in *. split; [done|]. split; [done|].
      split; [by constructor|done].
    + destruct (conn_failed_full E config lo hi now A st1 T L F U c (-1) H1 Er Ht1 Ha1)
        as (st' & -> & [Hg1 Hg2 Hg3 Hg4 Hg5] & Ht' & Ep).
      exists st'. split; [done|]. rewrite Ed in Ht'. rewrite E1 in *. split; [done|]. split; [done|].
      by constructor.
  - set (st2 := set_conn c _ st1).
    assert (E2 : conn_at st2 c = c0 <| to_armed := false |> <| to_attempts := 1 + to_attempts c0 |>
                                   <| cn_timeout := 2 * cn_timeout c0 |>).
    { unfold st2. rewrite conn_at_set_same, E1. cbn [cn_timeout setf].
      rewrite u32_id by (unfold is_u32; lia). by rewrite Z.mul_comm. }
    destruct (conn_timeout_arm_ok now A dl st2 c TO_TCP_HANDSHAKE Ht)
      as (us & m & rng & -> & Hus & Ht3); rewrite ?E2; [done..|cbn [cn_timeout setf]; lia|].
    rewrite E2 in Hus. cbn [cn_timeout setf] in Hus. rewrite (Z.mul_comm 2), Z.div_mul in Hus by lia.
    cbn [mbind option_bind]. set (st3 := set_conn c _ st2 <| s_rng := rng |> <| s_tm := m |>) in *.
    eexists. split; [reflexivity|].
    destruct (control_frame E config VIRTUOSO_GRE c SYN_FLAGS true 0 TCP_MSS st3) as (n & l & Ectl).
    pose proof (control_syn_sent c st3) as Hsent.
    change VIRTUOSO_GRE with false in *. rewrite Ectl in Hsent |- *.
    assert (E3 : conn_at st3 c = c0 <| to_attempts := 1 + to_attempts c0 |> <| cn_timeout := 2 * cn_timeout c0 |>).
    { transitivity (conn_at st2 c <| to_armed := true |>); [apply (conn_at_set_same c _ st2)|].
      rewrite E2, <- Harm. unfold c0. by destruct (conn_at st c). }
    assert (Hat3 : forall d, conn_at st3 d = if d =? c then
              c0 <| to_attempts := 1 + to_attempts c0 |> <| cn_timeout := 2 * cn_timeout c0 |> else conn_at st d).
    { intros d. destruct (Z.eqb_spec d c) as [->|Hdc]; [done|]. apply Z.eqb_neq in Hdc.
      transitivity (conn_at (set_conn c (fun c => c <| to_armed := true |>) st2) d); [done|].
      unfold st2. by rewrite !conn_at_set, Hdc, Hat1, Hdc. }
    split; [|split; [done|split; [exact E3|split]]].
    + eapply (conn_owns_set E lo hi st); [exact H| |exact Hat3| |done..]; [done|].
      intros d Hd. change (is_Some (s_conns (set_conn c (fun c => c <| to_armed := true |>) st2) !! d)).
      apply set_conn_dom. right. apply set_conn_dom. right. by apply Hd1.
    + rewrite E3 in Hsent. exact Hsent.
    + exists us. split; [lia|exact Ht3].
Qed.

(** C27: One SYN without a time stamp, from anybody who knows the addresses and ports, ends an
    open connection: with room in the queue to its application, the connection is freed, but
    its flow stays installed in the fast path, it stays in the list of congestion control, and
    its port stays in use. *)
Theorem conn_packet_syn_dangling crc lo hi now (A : gset Z) st T L F U c p opts fncore fg :
  conn_holds E lo hi st T L F U c -> timers now A st -> armed_in A c st ->
  status (conn_at st c) = CONN_OPEN -> TCPH_FLAGS (p_tcp p) = TAS_TCP_SYN -> o_ts opts = None ->
  exists st', conn_packet E config crc c p opts fncore fg st = Some st'
  /\ conn_gone E lo hi st T L U c st'
  /\ s_nic st' = s_nic st /\ cc_conns (s_cc st') = cc_conns (s_cc st) /\ ports st' = ports st.
Proof.
  intros H Ht Ha Hst Hfl Ho. unfold conn_packet, conn_packet_any. rewrite Hst, Hfl, Ho.
  rewrite bool_decide_eq_false_2 by done. rewrite bool_decide_eq_true_2 by done.
  change (true && (TAS_TCP_SYN =? TAS_TCP_SYN)) with true. cbv iota.
  destruct (conn_failed_ok E config lo hi now A st T L F U c (-1) H Ht Ha)
    as (st' & -> & Hg & _ & Ep & En & Ec & _); [done|].
  by exists st'.
Qed.

(** A lost SYN-ACK is not sent again: the SYN that a client of TAS repeats carries the ECN
    flags, and an open connection ignores it; only a SYN without them is answered. *)
Theorem conn_packet_retransmitted_syn cfgC crc mac rip rport lport seq st s fncore fg :
  status (conn_at st s) = CONN_OPEN ->
  exists syn, control_pkt E cfgC mac rip rport lport seq 0 SYN_FLAGS true 0 TCP_MSS = TxTcp syn 70
  /\ conn_packet E config crc s syn syn_opts fncore fg st = Some st
  /\ (0 < tx_free st ->
      let plain := syn <| p_tcp := TCPH_HDRLEN_FLAGS_SET 9 TAS_TCP_SYN (p_tcp syn) |> in
      exists st' answer, conn_packet E config crc s plain syn_opts fncore fg st = Some st'
      /\ tx_sent st' = TxTcp answer 70 :: tx_sent st
      /\ has_flag (TCPH_FLAGS (p_tcp answer)) (Z.lor TAS_TCP_SYN TAS_TCP_ACK) = true).
Proof.
  intros Hst.
  destruct (control_pkt_syn E cfgC mac rip rport lport seq 0 SYN_FLAGS 0 (or_introl eq_refl))
    as (syn & Esyn & Hf & _).
  exists syn. split; [exact Esyn|].
  assert (Hpf : TCPH_FLAGS (TCPH_HDRLEN_FLAGS_SET 9 TAS_TCP_SYN (p_tcp syn)) = TAS_TCP_SYN) by reflexivity.
  unfold conn_packet, conn_packet_any. rewrite Hst, (cf_flags _ _ _ _ _ _ _ _ _ Hf).
  rewrite bool_decide_eq_false_2 by done. rewrite bool_decide_eq_true_2 by done. split; [done|].
  intros Hfree. change (p_tcp (syn <| p_tcp := _ |>)) with (TCPH_HDRLEN_FLAGS_SET 9 TAS_TCP_SYN (p_tcp syn)).
  rewrite Hpf. change (true && (TAS_TCP_SYN =? TAS_TCP_SYN)) with true. cbn [o_ts syn_opts]. cbv iota.
  set (ecn := if has_flag (cn_flags (conn_at st s)) NICIF_CONN_ECN then TAS_TCP_ECE else 0).
  assert (Hfl : Z.lor (Z.lor TAS_TCP_SYN TAS_TCP_ACK) ecn = Z.lor TAS_TCP_SYN TAS_TCP_ACK
                \/ Z.lor (Z.lor TAS_TCP_SYN TAS_TCP_ACK) ecn = Z.lor (Z.lor TAS_TCP_SYN TAS_TCP_ACK) TAS_TCP_ECE)
    by (unfold ecn; destruct (has_flag _ _); [by right|by left]).
  eexists. set (sa := Z.lor (Z.lor TAS_TCP_SYN TAS_TCP_ACK) ecn) in *.
  set (ts := ts_val _ _). pose proof (control_sent E config s sa true ts TCP_MSS st Hfree) as Hs.
  destruct (control_pkt_syn E config (cn_remote_mac (conn_at st s)) (cn_out_remote_ip (conn_at st s))
    (cn_remote_port (conn_at st s)) (cn_local_port (conn_at st s)) (local_seq (conn_at st s))
    (remote_seq (conn_at st s)) sa ts (or_intror Hfl)) as (answer & Ean & Hfa & _).
  cbv zeta in Hs. rewrite Ean in Hs. exists answer. split; [reflexivity|]. split; [exact Hs|].
  rewrite (cf_flags _ _ _ _ _ _ _ _ _ Hfa). by destruct Hfl as [->| ->].
Qed.

(** With the hint in the ephemeral range, [port_alloc] finds an ephemeral port that is not in
    use, or tells with 0 that all of them are in use; the hint stays in the range.  From a hint
    below the range, where [tcp_init] may put it, it hands out a port that is not ephemeral. *)
Theorem port_alloc_finds st :
  (8192 <= port_eph_hint st <= 65535 ->
   exists p hint, port_alloc st = Some (p, st <| port_eph_hint := hint |>)
   /\ 8192 <= hint <= 65535
   /\ ((8192 <= p <= 65535 /\ ports st !!! p = PORT_UNUSED)
       \/ (p = 0 /\ forall q, 8192 <= q <= 65535 -> ports st !!! q <> PORT_UNUSED)))
  /\ (0 <= port_eph_hint st < 8192 -> ports st !!! port_eph_hint st = PORT_UNUSED ->
      exists st', port_alloc st = Some (port_eph_hint st, st')).
Proof.
  split; [apply port_alloc_ok|]. intros Hh Hu. unfold port_alloc.
  destruct (Z.to_nat 65536) as [|n] eqn:En; [lia|]. cbn [port_loop]. unfold port_unused. rewrite Hu.
  cbn [mbind option_bind]. by eexists.
Qed.

(** The connection [conn_alloc] makes has no context yet. *)
Lemma conn_alloc_ctx vm mc mr mt st conn st' :
  conn_alloc config vm mc mr mt st = Some (conn, st') -> conn <> 0 ->
  conn = mc /\ cn_ctx (conn_at st' mc) = 0 /\ ports st' = ports st
  /\ port_eph_hint st' = port_eph_hint st.
Proof.
  unfold conn_alloc. destruct (mc =? 0); [by intros [= <- _]|]. intros H Hc.
  destruct (packetmem_alloc _ _ _ mr) as [[r pm]|]; [|done]. cbn [mbind option_bind] in H.
  destruct r as [[off h]|]; [|by injection H as <- _].
  destruct (packetmem_alloc pm _ _ mt) as [[r pm']|]; [|done]. cbn [mbind option_bind] in H.
  destruct r as [[off' h']|].
  - apply (inj Some), (inj2 pair) in H as [<- <-]. split; [done|]. split; [|done].
    rewrite conn_at_set_same.
    change (cn_ctx (conn_at (set_conn mc (fun _ => conn_zero) st) mc) = 0). by rewrite conn_at_set_same.
  - destruct (packetmem_free _ _ _) as [pm''|]; [|done]. cbn [mbind option_bind] in H.
    by injection H as <- _.
Qed.

(** When every ephemeral port is in use, opening a connection stops the slow path: the
    connection has memory but no context yet, and [conn_free] follows the null pointer. *)
Theorem tcp_open_without_port ctx opaque rip rport db_id mc mr mt ma st conn st' :
  8192 <= port_eph_hint st <= 65535 ->
  (forall q, 8192 <= q <= 65535 -> ports st !!! q <> PORT_UNUSED) ->
  conn_alloc config (ap_vm_id (s_apps st !!! ac_app (s_ctxs st !!! ctx))) mc mr mt st = Some (conn, st') ->
  conn <> 0 ->
  tcp_open E config ctx opaque rip rport db_id mc mr mt ma st = None.
Proof.
  intros Hh Hall Ha Hc. unfold tcp_open. rewrite Ha. cbn [mbind option_bind].
  rewrite (proj2 (Z.eqb_neq _ _) Hc).
  destruct (conn_alloc_ctx _ _ _ _ _ _ _ Ha Hc) as (-> & Hctx & Ep & Eh).
  destruct (port_alloc_ok st') as (p & hint & -> & _ & [[Hp1 Hp2]|[-> _]]); [by rewrite Eh| |].
  - rewrite Ep in Hp2. by destruct (Hall p Hp1).
  - cbn [mbind option_bind Z.eqb]. unfold conn_free, conn_free_bufs.
    change (conn_at (st' <| port_eph_hint := hint |>) mc) with (conn_at st' mc). rewrite Hctx.
    destruct (cassert (bool_decide _)); done.
Qed.

End ConnThms.

(** Connection 500 with its two buffers, 51 and 52. *)
Definition ex_pm0 : pmem :=
  default (mk_pmem ∅ ∅) (packetmem_init 4096 104096 (fun i => i + 900) (mk_pmem ∅ ∅)).
Definition ex_pm_alloc (m : pmem) (h : Z) : pmem :=
  default m (Datatypes.snd <$> packetmem_alloc m 1000 0 h).
Definition ex_pm : pmem := ex_pm_alloc (ex_pm_alloc ex_pm0 51) 52.

Definition ex_conn500 : connection :=
  conn_zero <| cn_ctx := 1 |> <| cn_local_port := 8192 |> <| cn_remote_port := 80 |>
    <| cn_out_local_ip := config_ip ex_scfg |> <| cn_out_remote_ip := 167772162 |>
    <| rx_handle := 51 |> <| tx_handle := 52 |> <| cn_flow_id := 3 |> <| status := CONN_CLOSED |>.

Definition ex_held : spst :=
  conn_register ex_senv 500 (set_conn 500 (fun _ => ex_conn500) ex_sp)
    <| s_pm := ex_pm |> <| ports := {[8192 := PORT_CONN 500]} |>
    <| s_apps := {[1 := ex_app <| app_conns := 500 |>]} |>
    <| s_nic := mk_nicst (flow_id_items nic_start) None ∅ ∅ |>.

Definition ex_used : Z -> list Z := fupd (fupd (fun _ => []) 0 [51]) 0 [52; 51].

Lemma ex_pm_ok : exists F, pm_ok 4096 104096 ex_pm F ex_used.
Proof.
  destruct (packetmem_init_ok 4096 104096 (fun i => i + 900) ltac:(lia) ltac:(cbv beta; intros; lia)
              ltac:(cbv beta; intros; lia) (mk_pmem ∅ ∅)) as (m0 & E0 & H0).
  assert (Em0 : m0 = ex_pm0) by (unfold ex_pm0; by rewrite E0). subst m0.
  destruct (pm_steps_ok 4096 104096 (ex_pm0, fun _ => []) (ex_pm, ex_used) _ H0) as [F HF]; [|by exists F].
  eapply rtc_l; [apply (step_alloc _ (fun _ => []) 0 1000 51 4096 51 (ex_pm_alloc ex_pm0 51))|
    apply rtc_once; apply (step_alloc _ (fupd (fun _ => []) 0 [51]) 0 1000 52 5096 52 ex_pm)];
    try (unfold FLEXNIC_PL_VMST_NUM, is_u64; lia); first [right; vm_compute; reflexivity|vm_compute; reflexivity].
Qed.

Lemma ex_held_at : conn_at ex_held 500 = set_ht_next 0 ex_conn500.
Proof. vm_compute. reflexivity. Qed.

Definition ex_table (h : Z) : list Z :=
  if h =? conn_bucket ex_senv ex_conn500 then [500] else [].

Lemma ex_table_empty : ht_rep ex_senv (set_conn 500 (fun _ => ex_conn500) ex_sp) (fun _ => []).
Proof.
  constructor; intros; try by apply not_elem_of_nil in H.
  - vm_compute. reflexivity.
  - constructor.
  - apply not_elem_of_nil.
Qed.

Lemma ex_held_ok : exists F, conn_holds ex_senv 4096 104096 ex_held ex_table [500] F ex_used 500.
Proof.
  destruct ex_pm_ok as [F HF]. exists F. split; [|vm_compute; reflexivity].
  assert (Hr : ht_rep ex_senv ex_held ex_table).
  { set (st0 := set_conn 500 (fun _ => ex_conn500) ex_sp).
    pose proof (conn_register_ok ex_senv st0 _ 500 ex_table_empty ltac:(done)) as H.
    apply (ht_rep_same ex_senv (conn_register ex_senv 500 st0)); [done..|]. 
    apply H. intros [h Hh]. by apply not_elem_of_nil in Hh. }
  constructor; rewrite ?ex_held_at; try done.
  - exists (conn_bucket ex_senv ex_conn500). unfold ex_table. rewrite Z.eqb_refl. apply list_elem_of_here.
  - constructor.
    + vm_compute. done.
    + apply NoDup_singleton.
    + by intros ?%list_elem_of_singleton.
    + intros c ->%list_elem_of_singleton. vm_compute. eauto.
  - apply list_elem_of_here.
  - apply list_elem_of_further, list_elem_of_here.
  - apply list_elem_of_here.
Qed.

Lemma conn_close_timeout_releases_witness : exists st',
  conn_close_timeout ex_senv 500 ex_held = Some st' /\ s_conns st' !! 500 = None
  /\ ports st' !!! 8192 = PORT_UNUSED
  /\ kout (s_ctxs st' !!! 1) !!! kout_pos (s_ctxs ex_held !!! 1) = APPIN_STATUS STATUS_CONN_CLOSE 0 0.
Proof.
  destruct ex_held_ok as [F [HF Hroom]]. destruct nic_start_ok as [[Hi _ _ _] _].
  destruct (conn_close_timeout_releases ex_senv 4096 104096 ex_held ex_table [500] F ex_used 500 [] HF)
    as (st' & Hst & Hg & _ & Hp); rewrite ?ex_held_at in *.
  - exact (ids_ok_none (s_nic ex_held) nic_start _ Hi eq_refl eq_refl).
  - unfold FLEXNIC_PL_FLOWST_NUM. cbn. lia.
  - apply not_elem_of_nil.
  - reflexivity.
  - rewrite Hroom in Hg. destruct Hg as [Hg Hk]. exists st'. split; [exact Hst|].
    split; [exact (cg_heap _ _ _ _ _ _ _ _ _ Hg)|]. split; [exact Hp|].
    change (cn_ctx (set_ht_next 0 ex_conn500)) with 1 in Hk. rewrite Hk. apply lookup_total_insert_eq.
Defined.

(** The same connection while it waits for the SYN-ACK. *)
Definition ex_trying : spst :=
  set_conn 500 (fun c => c <| status := CONN_SYN_SENT |> <| to_armed := true |>
                           <| cn_timeout := 10000 |>) ex_held.

Lemma ex_trying_at : conn_at ex_trying 500 = conn_at ex_held 500
  <| status := CONN_SYN_SENT |> <| to_armed := true |> <| cn_timeout := 10000 |>.
Proof. unfold ex_trying. by rewrite conn_at_set_same. Qed.

Lemma ex_trying_ok : exists F, conn_holds ex_senv 4096 104096 ex_trying ex_table [500] F ex_used 500.
Proof.
  destruct ex_held_ok as [F HF]. exists F.
  apply conn_holds_set_conn; [exact HF|]. intros x. done.
Qed.

Lemma timers_at_set now (A : gset Z) dl st c f :
  timers_at now A dl st -> timers_at now A dl (set_conn c f st).
Proof. done. Qed.

Lemma ex_held_timers : timers_at 0 ∅ (fun _ => 0) ex_held.
Proof.
  split; [done|]. exists [], []. split; [apply tm_empty_rep|]. intros y.
  split; [by intros ?%not_elem_of_nil|by intros ?%not_elem_of_empty].
Qed.

Lemma tcp_timeout_handshake_witness : exists st',
  tcp_timeout ex_senv ex_scfg 500 TO_TCP_HANDSHAKE ex_trying = Some st'
  /\ cn_timeout (conn_at st' 500) = 20000 /\ length (SpState.tx_sent st') = S (length (SpState.tx_sent ex_trying)).
Proof.
  destruct ex_trying_ok as [F HF].
  assert (Hc : conn_at ex_trying 500 = set_ht_next 0 ex_conn500
    <| status := CONN_SYN_SENT |> <| to_armed := true |> <| cn_timeout := 10000 |>)
    by (by rewrite ex_trying_at, ex_held_at).
  destruct (tcp_timeout_handshake ex_senv ex_scfg 4096 104096 0 ∅ (fun _ => 0) ex_trying ex_table [500]
              F ex_used 500 (proj1 HF) (timers_at_set _ _ _ _ _ _ ex_held_timers)) as (st' & Hst & H).
  - apply not_elem_of_empty.
  - discriminate.
  - rewrite Hc. reflexivity.
  - rewrite Hc. reflexivity.
  - rewrite Hc. cbn. lia.
  - exists st'. split; [exact Hst|].
    assert (E : (tcp_handshake_retries ex_scfg <? 1 + to_attempts (conn_at ex_trying 500)) = false)
      by (vm_compute; reflexivity).
    rewrite E in H. destruct H as (_ & _ & E1 & E2 & _).
    change (0 <? SpState.tx_free ex_trying) with true in E2. cbv iota in E2. rewrite E1, E2. split; [|done].
    vm_compute. reflexivity.
Defined.

(** The same connection when it is open. *)
Definition ex_opened : spst := set_conn 500 (set_status CONN_OPEN) ex_held.

Lemma ex_opened_at : conn_at ex_opened 500 = set_status CONN_OPEN (set_ht_next 0 ex_conn500).
Proof. unfold ex_opened. by rewrite conn_at_set_same, ex_held_at. Qed.

Definition ex_syn_pkt : pkt_tcp :=
  pkt_tcp_zero <| p_tcp := TCPH_HDRLEN_FLAGS_SET 5 TAS_TCP_SYN (p_tcp pkt_tcp_zero) |>.

Lemma conn_packet_syn_dangling_witness : exists st',
  conn_packet ex_senv ex_scfg ex_crc 500 ex_syn_pkt (mk_tcp_opts None None) 0 0 ex_opened = Some st'
  /\ s_conns st' !! 500 = None.
Proof.
  destruct ex_held_ok as [F HF].
  assert (HF' : conn_holds ex_senv 4096 104096 ex_opened ex_table [500] F ex_used 500)
    by (apply conn_holds_set_conn; [exact HF|intros x; done]).
  destruct (conn_packet_syn_dangling ex_senv ex_scfg ex_crc 4096 104096 0 ∅ ex_opened ex_table [500]
    F ex_used 500 ex_syn_pkt (mk_tcp_opts None None) 0 0 HF') as (st' & Hst & Hg & _).
  - apply (timers_at_any 0 ∅ (fun _ => 0)), timers_at_set, ex_held_timers.
  - unfold armed_in. rewrite ex_opened_at. discriminate.
  - rewrite ex_opened_at. reflexivity.
  - reflexivity.
  - reflexivity.
  - exists st'. split; [exact Hst|exact (cg_heap _ _ _ _ _ _ _ _ _ Hg)].
Defined.

Lemma conn_packet_retransmitted_syn_witness : exists syn,
  conn_packet ex_senv ex_scfg ex_crc 500 syn syn_opts 0 0 ex_opened = Some ex_opened
  /\ TCPH_FLAGS (p_tcp syn) = SYN_FLAGS.
Proof.
  destruct (conn_packet_retransmitted_syn ex_senv ex_scfg ex_scfg ex_crc 0 1 80 8192 0
              ex_opened 500 0 0) as (syn & E1 & E2 & _); [rewrite ex_opened_at; reflexivity|].
  exists syn. split; [exact E2|]. cbn in E1. injection E1 as <-. reflexivity.
Defined.

(** Connection 500 is looked up by a packet of its peer. *)
Definition ex_peer_pkt : pkt_tcp :=
  pkt_tcp_zero <| p_ip := (p_ip pkt_tcp_zero) <| ip_src := t_beui32 167772162 |>
                            <| ip_dest := t_beui32 (config_ip ex_scfg) |> |>
    <| p_tcp := (p_tcp pkt_tcp_zero) <| tcp_src := t_beui16 80 |> <| tcp_dest := t_beui16 8192 |> |>.

Lemma conn_table_map_witness : exists st',
  conn_lookup ex_senv ex_peer_pkt
    (conn_register ex_senv 500 (set_conn 500 (fun _ => ex_conn500) ex_sp)) = Some 500
  /\ conn_unregister ex_senv 500
       (conn_register ex_senv 500 (set_conn 500 (fun _ => ex_conn500) ex_sp)) = Some st'
  /\ conn_lookup ex_senv ex_peer_pkt st' = Some 0.
Proof.
  assert (Hno : forall d, ~ registered (fun _ : Z => []) d) by (intros d [h Hd]; by apply not_elem_of_nil in Hd).
  assert (Ec : conn_at (set_conn 500 (fun _ => ex_conn500) ex_sp) 500 = ex_conn500) by apply conn_at_set_same.
  destruct (conn_table_map ex_senv (set_conn 500 (fun _ => ex_conn500) ex_sp) (fun _ => []) 500 ex_peer_pkt)
    as (H1 & st' & H2 & H3 & _).
  - exact ex_table_empty.
  - discriminate.
  - apply Hno.
  - rewrite Ec. repeat split; vm_compute; reflexivity.
  - rewrite Ec. vm_compute. reflexivity.
  - intros d Hd. destruct (Hno d Hd).
  - intros d Hd. destruct (Hno d Hd).
  - exists st'. split; [exact H1|]. split; [exact H2|exact H3].
Defined.

(** Every port is in use. *)
Definition ports_used (l : list Z) : gmap Z port_entry :=
  list_to_map (map (fun i => (i, PORT_CONN 500)) l).

Lemma ports_used_in l q : NoDup l -> q ∈ l -> ports_used l !!! q = PORT_CONN 500.
Proof.
  intros Hnd Hq. unfold ports_used. rewrite lookup_total_alt.
  rewrite (elem_of_list_to_map_1 _ q (PORT_CONN 500)); [done| |].
  - rewrite <- list_fmap_compose. replace (_ <$> l) with (id <$> l) by done. by rewrite list_fmap_id.
  - apply list_elem_of_In, in_map_iff. exists q. split; [done|]. by apply list_elem_of_In.
Qed.

Definition ex_full_ports : gmap Z port_entry := ports_used (seqZ 8192 57344).

Lemma ex_full_ports_used q : 8192 <= q <= 65535 -> ex_full_ports !!! q <> PORT_UNUSED.
Proof.
  intros Hq. unfold ex_full_ports. rewrite ports_used_in; [done|apply NoDup_seqZ|].
  apply elem_of_seqZ. lia.
Qed.
#[local] Opaque ex_full_ports.

Lemma tcp_open_without_port_witness :
  tcp_open ex_senv ex_scfg 1 7 167772162 80 0 500 50 51 700 (ex_sp <| ports := ex_full_ports |>) = None.
Proof.
  assert (H : exists st', conn_alloc ex_scfg (ap_vm_id
     (s_apps (ex_sp <| ports := ex_full_ports |>) !!! ac_app (s_ctxs (ex_sp <| ports := ex_full_ports |>) !!! 1)))
     500 50 51 (ex_sp <| ports := ex_full_ports |>) = Some (500, st')) by (eexists; reflexivity).
  destruct H as [st' H].
  apply (tcp_open_without_port ex_senv ex_scfg 1 7 167772162 80 0 500 50 51 700
    (ex_sp <| ports := ex_full_ports |>) 500 st').
  - change (8192 <= 8192 <= 65535). lia.
  - exact ex_full_ports_used.
  - exact H.
  - discriminate.
Defined.

Lemma port_alloc_finds_witness :
  (exists p hint, port_alloc ex_sp = Some (p, ex_sp <| port_eph_hint := hint |>))
  /\ exists st', port_alloc (ex_sp <| port_eph_hint := 80 |>) = Some (80, st').
Proof.
  split.
  - destruct (proj1 (port_alloc_finds ex_sp)) as (p & hint & H & _); [split; vm_compute; discriminate|].
    by exists p, hint.
  - destruct (proj2 (port_alloc_finds (ex_sp <| port_eph_hint := 80 |>))) as [st' H];
      [change (0 <= 80 < 8192); lia|reflexivity|].
    exists st'. exact H.
Defined.
