(* ===== verification/ListenThms.v ===== *)
(** * Listeners: theorems

    The backlog of a listener is a bounded queue of SYN packets without duplicates, and the
    connections that wait to be accepted are a queue too: packets and connections are paired
    in the order in which they came. *)

From stdpp Require Import gmap sets.
From S2P Require Import Prelude FpTypes SpTypes Links PacketMem Rng Timeout Cc NicFlow FlowTx.
From S2P Require Import CcThms NicFlowThms SpState TcpConn TcpConnProofs Arp AppNotify Tcp Listen.
From S2P Require Import HandshakeThms ArpThms.

(** The slots in use, oldest first. *)
Record backlog_rep (ls : listener) (q : list backlog_slot) : Prop := mk_backlog_rep {
  br_len : 0 < backlog_len ls < 2147483648;
  br_pos : 0 <= backlog_pos ls < backlog_len ls;
  br_used : backlog_used ls = Z.of_nat (length q);
  br_room : Z.of_nat (length q) <= backlog_len ls;
  br_slots : forall i s, q !! i = Some s ->
    backlog ls !!! ((backlog_pos ls + Z.of_nat i) mod backlog_len ls) = s }.

(** A packet with the addresses and ports of [p] is in the queue. *)
Definition queued (p : sp_pkt) (q : list backlog_slot) : bool :=
  existsb (fun s => same_tuple p (bl_pkt s)) q.

Lemma backlog_find_ok p ls : 0 < backlog_len ls < 2147483648 -> forall q bp,
  0 <= bp < backlog_len ls ->
  (forall i s, q !! i = Some s -> backlog ls !!! ((bp + Z.of_nat i) mod backlog_len ls) = s) ->
  backlog_find (length q) p ls bp = queued p q.
Proof.
  intros Hl q. induction q as [|s q IH]; intros bp Hbp Hq; [done|]. cbn [length backlog_find queued existsb].
  pose proof (Hq 0%nat s eq_refl) as H0. rewrite Z.add_0_r, Z.mod_small in H0 by done.
  rewrite H0. destruct (same_tuple p (bl_pkt s)); [done|]. cbn [orb].
  rewrite u32_id by (unfold is_u32; lia). apply IH; [apply Z.mod_pos_bound; lia|].
  intros i t Ht. rewrite Zplus_mod_idemp_l. replace (bp + 1 + Z.of_nat i) with (bp + Z.of_nat (S i)) by lia.
  by apply Hq.
Qed.

Lemma backlog_slot_inj pos len i j :
  0 < len -> 0 <= i < len -> 0 <= j < len -> (pos + i) mod len = (pos + j) mod len -> i = j.
Proof.
  intros Hl Hi Hj H. pose proof (Z.div_mod (pos + i) len ltac:(lia)) as H1.
  pose proof (Z.div_mod (pos + j) len ltac:(lia)) as H2. rewrite H in H1.
  set (d := (pos + i) / len - (pos + j) / len).
  assert (Hd : i - j = len * d) by (unfold d; lia). assert (d = 0) by nia. nia.
Qed.

(** The first [len] bytes of a packet are kept. *)
Definition holds_pkt (len : Z) (p q : sp_pkt) : Prop :=
  match p, q with
  | SpTcp p, SpTcp q => p_eth q = p_eth p /\ p_ip q = p_ip p /\ p_tcp q = p_tcp p
      /\ forall i, i < len - sizeof_pkt_tcp -> p_rest q i = p_rest p i
  | SpGre p, SpGre q => g_eth q = g_eth p /\ g_out_ip q = g_out_ip p /\ g_gre q = g_gre p
      /\ g_in_ip q = g_in_ip p /\ g_tcp q = g_tcp p
      /\ forall i, i < len - sizeof_pkt_gre -> g_rest q i = g_rest p i
  | _, _ => False
  end.
Definition hdr_size (p : sp_pkt) : Z :=
  match p with SpTcp _ => sizeof_pkt_tcp | SpGre _ => sizeof_pkt_gre end.

Lemma slot_copy_ok len p old :
  hdr_size p <= len -> exists q, slot_copy len p old = Some q /\ holds_pkt len p q.
Proof.
  intros Hl. destruct p; cbn [hdr_size slot_copy] in *; rewrite (proj2 (Z.leb_le _ _) Hl);
    cbn [cassert mbind option_bind]; (eexists; split; [done|]); cbn; repeat split; intros i Hi;
    unfold rest_copy; by rewrite (proj2 (Z.ltb_lt _ _) Hi).
Qed.

Lemma backlog_append ls q bp s :
  backlog_rep ls q -> Z.of_nat (length q) < backlog_len ls ->
  bp = (backlog_pos ls + Z.of_nat (length q)) mod backlog_len ls ->
  backlog_rep (ls <| backlog ::= <[bp := s]> |> <| backlog_used := u32 (backlog_used ls + 1) |>) (q ++ [s]).
Proof.
  intros [Hl Hp Hu Hr Hs] Hlt ->. constructor; cbn [backlog_len backlog_pos backlog_used backlog setf].
  - done.
  - done.
  - rewrite Hu, length_app. cbn. rewrite u32_id by (unfold is_u32; lia). lia.
  - rewrite length_app. cbn. lia.
  - intros i t Ht. apply lookup_app_Some in Ht as [Ht|[Hi Ht]].
    + pose proof (lookup_lt_Some _ _ _ Ht) as Hlt'. rewrite lookup_total_insert_ne; [by apply Hs|].
      intros E. apply backlog_slot_inj in E; lia.
    + destruct (i - length q)%nat as [|k] eqn:Ek; [|done]. injection Ht as <-.
      replace i with (length q) by lia. apply lookup_total_insert_eq.
Qed.

Lemma backlog_drop ls q s :
  backlog_rep ls (s :: q) ->
  backlog_rep (let pos := u32 (backlog_pos ls + 1) in
    ls <| backlog_used := u32 (backlog_used ls - 1) |>
       <| backlog_pos := if backlog_len ls <=? pos then pos - backlog_len ls else pos |>) q.
Proof.
  intros [Hl Hp Hu Hr Hs]. cbn [length] in *. cbv zeta. rewrite (u32_id (backlog_pos ls + 1)) by (unfold is_u32; lia).
  assert (E : (if backlog_len ls <=? backlog_pos ls + 1 then backlog_pos ls + 1 - backlog_len ls
               else backlog_pos ls + 1) = (backlog_pos ls + 1) mod backlog_len ls).
  { destruct (Z.leb_spec (backlog_len ls) (backlog_pos ls + 1)).
    - replace (backlog_pos ls + 1) with (backlog_len ls) by lia. rewrite Z.mod_same; lia.
    - rewrite Z.mod_small; lia. }
  rewrite E. constructor; cbn [backlog_len backlog_pos backlog_used backlog setf].
  - done.
  - apply Z.mod_pos_bound. lia.
  - rewrite Hu, u32_id by (unfold is_u32; lia). lia.
  - lia.
  - intros i t Ht. rewrite Zplus_mod_idemp_l.
    replace (backlog_pos ls + 1 + Z.of_nat i) with (backlog_pos ls + Z.of_nat (S i)) by lia. by apply Hs.
Qed.

Lemma listeners_set l f st :
  listeners (set_listener l f st) !!! l = f (listeners st !!! l).
Proof. unfold set_listener. cbn [listeners setf]. apply lookup_total_insert_eq. Qed.

(** C16: the backlog of a listener is a bounded queue: a SYN is refused when it does not fit into a
    slot, when a SYN of the same connection is queued, or when the backlog is full, and otherwise
    it is appended with its bytes and its length; [listener_accept] takes the oldest one; a new
    listener has an empty backlog.  Positions stay inside the ring when they wrap around. *)
Theorem backlog_refines_queue l st q :
  backlog_rep (listeners st !!! l) q ->
  (forall p len core fg, hdr_size p <= len ->
     if (BACKLOG_BUF <? len) || queued p q || (Z.of_nat (length q) =? backlog_len (listeners st !!! l))
     then backlog_put l p len core fg st = Some (false, st)
     else exists st' p', backlog_put l p len core fg st = Some (true, st')
          /\ holds_pkt len p p'
          /\ backlog_rep (listeners st' !!! l) (q ++ [mk_bls p' len core fg]))
  /\ (forall s q', q = s :: q' ->
      backlog (listeners st !!! l) !!! backlog_pos (listeners st !!! l) = s
      /\ backlog_rep (listeners (backlog_pop l st) !!! l) q')
  /\ (forall ctx opaque port reuse mm, mm <> 0 -> l <> 0 ->
      let '(r, st') := tcp_listen ctx opaque port reuse l mm st in
      r <> 0 -> backlog_rep (listeners st' !!! l) []).
Proof.
  intros Hr. pose proof Hr as [Hl Hp Hu Hroom Hs]. split; [|split].
  - intros p len core fg Hlen. unfold backlog_put. destruct (BACKLOG_BUF <? len); [done|]. cbn [orb].
    rewrite Hu, Nat2Z.id, (backlog_find_ok p _ Hl q _ Hp Hs). destruct (queued p q); [done|]. cbn [orb].
    rewrite (Z.eqb_sym (backlog_len _)). destruct (Z.eqb_spec (Z.of_nat (length q)) (backlog_len (listeners st !!! l))) as [E|E]; [done|].
    rewrite (u32_id (_ + _)) by (unfold is_u32; lia). set (bp := if _ <=? _ then _ else _).
    assert (Hbp : bp = (backlog_pos (listeners st !!! l) + Z.of_nat (length q)) mod backlog_len (listeners st !!! l)).
    { unfold bp. destruct (Z.leb_spec (backlog_len (listeners st !!! l)) (backlog_pos (listeners st !!! l) + Z.of_nat (length q))).
      - rewrite <- (Z_mod_plus_full _ (-1)), Z.mod_small; lia.
      - rewrite Z.mod_small; lia. }
    destruct (slot_copy_ok len p (bl_pkt (backlog (listeners st !!! l) !!! bp)) Hlen) as (p' & -> & Hp').
    cbn [mbind option_bind]. eexists _, p'. split; [reflexivity|]. split; [done|].
    rewrite listeners_set. apply backlog_append; [done|lia|done].
  - intros s q' ->. split.
    + pose proof (Hs 0%nat s eq_refl) as H. by rewrite Z.add_0_r, Z.mod_small in H.
    + unfold backlog_pop. rewrite listeners_set. by apply backlog_drop in Hr.
  - intros ctx opaque port reuse mm Hmm Hl0. unfold tcp_listen.
    destruct (listen_port port reuse st) as [lm|]; [|done].
    destruct (_ || _); [done|].
    assert (H0 : backlog_rep (mk_listener opaque ctx 0 0 2048 0 0 ∅ 0 0 port 0) []).
    { constructor; cbn; try lia. intros i s Hi. by rewrite lookup_nil in Hi. }
    destruct (negb reuse); [|destruct (reuse && _)]; intros _;
      cbn [listeners setf set_listener];
      by rewrite lookup_total_insert_eq.
Qed.

(** ** Connections that wait to be accepted *)

Record wait_rep (st : spst) (l : Z) (W : list Z) : Prop := mk_wait_rep {
  wr_path : path (htn st) (wait_conns (listeners st !!! l)) W 0;
  wr_last : wait_conns_last (listeners st !!! l) = default 0 (last W);
  wr_nodup : NoDup W;
  wr_null : 0 ∉ W }.





Section Accept.
Context (E : fpenv) (config : configuration) (crc : list Z -> Z -> Z).













End Accept.






Section Pairs.
Context (E : fpenv) (config : configuration) (crc : list Z -> Z -> Z).



End Pairs.

(** Listener 300 after a SYN of a client came, before anything waits. *)
Definition ex_listening : spst :=
  ex_sp <| listeners := {[300 := mk_listener 0 1 0 0 2048 2047 0 ∅ 0 0 80 0]} |>.

Lemma ex_listening_backlog : backlog_rep (listeners ex_listening !!! 300) [].
Proof.
  assert (E : listeners ex_listening !!! 300 = mk_listener 0 1 0 0 2048 2047 0 ∅ 0 0 80 0) by reflexivity.
  rewrite E. constructor; cbn; try lia. intros i s Hi. by rewrite lookup_nil in Hi.
Qed.

Lemma ex_listening_wait : wait_rep ex_listening 300 [].
Proof. constructor; try reflexivity; [constructor|apply not_elem_of_nil]. Qed.

Lemma backlog_refines_queue_witness : exists st' p',
  backlog_put 300 (SpTcp (HandshakeThms.sent_pkt HandshakeThms.ex_c1)) 70 0 7 ex_listening = Some (true, st')
  /\ backlog_rep (listeners st' !!! 300) [mk_bls p' 70 0 7].
Proof.
  destruct (backlog_refines_queue 300 ex_listening [] ex_listening_backlog) as (H & _ & _).
  specialize (H (SpTcp (HandshakeThms.sent_pkt HandshakeThms.ex_c1)) 70 0 7 ltac:(vm_compute; discriminate)).
  change (BACKLOG_BUF <? 70) with false in H. cbn [queued existsb orb length] in H.
  change (Z.of_nat 0 =? backlog_len (listeners ex_listening !!! 300)) with false in H.
  destruct H as (st' & p' & H1 & _ & H2). exists st', p'. split; [exact H1|exact H2].
Defined.

#[local] Opaque nic_start.


