(* ===== verification/Status.v ===== *)
(** * The states of a connection

    What the operations of the slow path do to the status of the connection they work on,
    and that they leave the other connections alone. *)

From stdpp Require Import gmap sets.
From S2P Require Import Prelude FpTypes SpTypes Links PacketMem Rng Timeout Cc NicFlow FlowTx.
From S2P Require Import SpState TcpConn TcpConnProofs Arp AppNotify Tcp Listen HandshakeThms ArpThms.
From S2P Require HandshakeThms.

(** The transitions.  [CONN_OVS_COMP] waits for the virtual switch, [CONN_ARP_PENDING] for the
    address of the peer, [CONN_SYN_SENT] for the SYN-ACK; [CONN_SYN_WAIT] waits for a SYN and
    [CONN_REG_SYNACK] for the SYN-ACK to be sent. *)
Inductive status_step : connection_status -> connection_status -> Prop :=
| step_ovs : status_step CONN_OVS_COMP CONN_ARP_PENDING
| step_arp : status_step CONN_ARP_PENDING CONN_SYN_SENT
| step_opened : status_step CONN_SYN_SENT CONN_OPEN
| step_syn : status_step CONN_SYN_WAIT CONN_REG_SYNACK
| step_accepted : status_step CONN_REG_SYNACK CONN_OPEN
| step_closed : status_step CONN_OPEN CONN_CLOSED
| step_failed s : s <> CONN_CLOSED -> status_step s CONN_FAILED.

(** No status changes, and no connection comes or goes. *)
Definition keeps (st st' : spst) : Prop :=
  forall d, status (conn_at st' d) = status (conn_at st d).

(** Only [c] may move, along the transitions, or it is freed. *)
Definition moves (c : Z) (st st' : spst) : Prop :=
  (forall d, d <> c -> status (conn_at st' d) = status (conn_at st d))
  /\ (s_conns st' !! c = None \/ rtc status_step (status (conn_at st c)) (status (conn_at st' c))).

(** The operations of the slow path on connection [c]. *)
Inductive conn_op (E : fpenv) (config : configuration) (crc : list Z -> Z -> Z) (c : Z) (st : spst)
    : spst -> Prop :=
| op_packet p opts core fg st' :
    conn_packet E config crc c p opts core fg st = Some st' -> conn_op E config crc c st st'
| op_packet_gre p opts core fg st' :
    conn_packet_gre E config crc c p opts core fg st = Some st' -> conn_op E config crc c st st'
| op_timeout type st' :
    tcp_timeout E config c type st = Some st' -> conn_op E config crc c st st'
| op_close r st' : tcp_close E config crc c st = Some (r, st') -> conn_op E config crc c st st'
| op_poll malloced st' : poll_conn E config c malloced st = Some st' -> conn_op E config crc c st st'
| op_accept gre l st' :
    wait_conns (listeners st !!! l) = c ->
    status (conn_at st c) = CONN_SYN_WAIT \/ status (conn_at st c) = CONN_REG_SYNACK ->
    listener_accept_any E config crc gre l st = Some st' -> conn_op E config crc c st st'.

Lemma keeps_refl st : keeps st st.
Proof. by intros d. Qed.

Lemma keeps_trans a b c : keeps a b -> keeps b c -> keeps a c.
Proof. intros H1 H2 d. by rewrite H2. Qed.

Lemma keeps_cc st st' : s_cc st' = s_cc st -> keeps st st'.
Proof. intros E d. unfold conn_at. by rewrite E. Qed.

Lemma keeps_set p f st : (forall x, status (f x) = status x) -> keeps st (set_conn p f st).
Proof.
  intros Hf d. rewrite conn_at_set. destruct (Z.eqb_spec d p) as [->|]; [apply Hf|done].
Qed.

Lemma keeps_moves c st st' : keeps st st' -> moves c st st'.
Proof. intros H. split; [intros d _; apply H|]. right. rewrite H. apply rtc_refl. Qed.

Lemma moves_keeps c a b b' : moves c a b -> keeps b b' ->
  (s_conns b !! c = None -> s_conns b' !! c = None) -> moves c a b'.
Proof.
  intros [H1 H2] Hk Hn. split; [intros d Hd; by rewrite Hk, H1|].
  destruct H2 as [H2|H2]; [left; by apply Hn|right]. by rewrite Hk.
Qed.

Lemma keeps_then c a a' b : keeps a a' -> moves c a' b -> moves c a b.
Proof.
  intros Hk [H1 H2]. split; [intros d Hd; by rewrite H1, Hk|].
  destruct H2 as [H2|H2]; [by left|right]. by rewrite <- Hk.
Qed.

Lemma moves_set c st s :
  rtc status_step (status (conn_at st c)) s -> forall f, (forall x, status (f x) = s) ->
  moves c st (set_conn c f st).
Proof.
  intros Hs f Hf. split.
  - intros d Hd. rewrite conn_at_set, (proj2 (Z.eqb_neq _ _)); done.
  - right. by rewrite conn_at_set_same, Hf.
Qed.

Lemma moves_trans c a b d : moves c a b -> moves c b d ->
  (s_conns b !! c = None -> s_conns d !! c = None) -> moves c a d.
Proof.
  intros [H1 H2] [H3 H4] Hn. split; [intros x Hx; by rewrite H3, H1|].
  destruct H2 as [H2|H2]; [left; by apply Hn|]. destruct H4 as [H4|H4]; [by left|right].
  by etrans.
Qed.

Lemma moves_delete c st : moves c st (conn_delete c st).
Proof.
  split; [|left; unfold s_conns, conn_delete; cbn [conns s_cc setf]; apply lookup_delete_eq].
  intros d Hd. unfold conn_at, conn_delete. cbn [conns s_cc setf]. rewrite !lookup_total_alt.
  by rewrite lookup_delete_ne.
Qed.

Lemma moves_set_keeps c st s f st' :
  rtc status_step (status (conn_at st c)) s -> (forall x, status (f x) = s) ->
  keeps (set_conn c f st) st' -> moves c st st'.
Proof.
  intros Hs Hf Hk. apply (moves_trans c _ _ _ (moves_set c st s Hs f Hf)); [by apply keeps_moves|].
  intros Hn. exfalso. assert (Hx : is_Some (s_conns (set_conn c f st) !! c)) by (apply set_conn_dom; by left).
  rewrite Hn in Hx. by destruct Hx.
Qed.

(** ** What keeps the states *)

Lemma keeps_set_then p f st st' : (forall x, status (f x) = status x) ->
  keeps (set_conn p f st) st' -> keeps st st'.
Proof. intros Hf. apply keeps_trans. by apply keeps_set. Qed.

Section Status.
Context (E : fpenv) (config : configuration) (crc : list Z -> Z -> Z).

Lemma timeout_arm_cc p us ty st st' : timeout_arm p us ty st = Some st' -> s_cc st' = s_cc st.
Proof. unfold timeout_arm. intros H. by cstep H. Qed.

Lemma timeout_disarm_cc p st st' : timeout_disarm p st = Some st' -> s_cc st' = s_cc st.
Proof. unfold timeout_disarm. intros H. by cstep H. Qed.

Lemma conn_timeout_arm_keeps c ty st st' : conn_timeout_arm c ty st = Some st' -> keeps st st'.
Proof.
  unfold conn_timeout_arm. intros H. cstep H. destruct (utils_rng_gen32 _) as [rng r].
  apply timeout_arm_cc in H. apply (keeps_trans _ (set_conn c (fun c => c <| to_armed := true |>) st)).
  - by apply keeps_set.
  - by apply keeps_cc.
Qed.

Lemma conn_timeout_disarm_keeps c st st' : conn_timeout_disarm c st = Some st' -> keeps st st'.
Proof.
  unfold conn_timeout_disarm. intros H. cstep H. apply timeout_disarm_cc in H.
  apply (keeps_trans _ (set_conn c (fun c => c <| to_armed := false |>) st)).
  - by apply keeps_set.
  - by apply keeps_cc.
Qed.

Lemma control_keeps gre c flags ts_opt ts mss st : keeps st (control E config gre c flags ts_opt ts mss st).
Proof. apply keeps_cc. apply control_eq. Qed.

Lemma conn_unregister_keeps c st st' : conn_unregister E c st = Some st' -> keeps st st'.
Proof.
  unfold conn_unregister. destruct (_ =? c).
  - intros H. apply (inj Some) in H as <-. by apply keeps_cc.
  - intros H. destruct (ht_prev _ _ _ _) as [cp|]; [|done]. cbn [mbind option_bind] in H.
    destruct (cassert _); [|done]. cbn [mbind option_bind] in H. apply (inj Some) in H as <-.
    by apply keeps_set.
Qed.

Lemma conn_register_keeps c st : keeps st (conn_register E c st).
Proof.
  apply (keeps_trans _ (set_conn c (set_ht_next (tcp_hashtable st !!! conn_bucket E (conn_at st c))) st)).
  - by apply keeps_set.
  - by apply keeps_cc.
Qed.

Lemma app_conn_remove_keeps a c st st' : app_conn_remove a c st = Some st' -> keeps st st'.
Proof.
  unfold app_conn_remove. destruct (_ =? c).
  - intros H. apply (inj Some) in H as <-. by apply keeps_cc.
  - intros H. destruct (app_prev _ _ _ _) as [cp|]; [|done]. cbn [mbind option_bind] in H.
    destruct (cassert _); [|done]. cbn [mbind option_bind] in H. apply (inj Some) in H as <-.
    by apply keeps_set.
Qed.

Lemma kout_push_cc x e st st' : kout_push x e st = Some st' -> s_cc st' = s_cc st.
Proof. intros H. by apply kout_push_eq in H as (_ & ? & _). Qed.

Lemma conn_free_moves c st st' : conn_free c st = Some st' -> moves c st st'.
Proof.
  unfold conn_free, conn_free_bufs. intros H. cstep H. cstep Ebind.
  eapply (keeps_then _ _ (st <| s_pm := _ |>)); [by apply keeps_cc|].
  apply moves_delete.
Qed.

Lemma tcp_destroy_moves c st st' : tcp_destroy c st = Some st' -> moves c st st'.
Proof. unfold tcp_destroy. intros H. cstep H. by apply conn_free_moves. Qed.

Lemma s_conns_cc st st' c : s_cc st' = s_cc st -> s_conns st !! c = None -> s_conns st' !! c = None.
Proof. unfold s_conns. by intros ->. Qed.

Lemma appif_conn_opened_moves c code st st' : appif_conn_opened config c code st = Some st' -> moves c st st'.
Proof.
  unfold appif_conn_opened. cbv zeta. intros H.
  destruct (negb _); [apply (inj Some) in H as <-; by apply keeps_moves|].
  destruct (code =? 0); [apply kout_push_cc in H; by apply keeps_moves, keeps_cc|].
  destruct (app_conn_remove _ c st) as [st1|] eqn:E1; [|done]. cbn [mbind option_bind] in H.
  destruct (tcp_destroy c st1) as [st2|] eqn:E2; [|done]. cbn [mbind option_bind] in H.
  apply kout_push_cc in H.
  apply (moves_keeps c _ st2); [|by apply keeps_cc|by apply s_conns_cc].
  apply (keeps_then c _ st1); [by eapply app_conn_remove_keeps|by apply tcp_destroy_moves].
Qed.

Lemma conn_failed_moves c code st st' : status (conn_at st c) <> CONN_CLOSED ->
  conn_failed E config c code st = Some st' -> moves c st st'.
Proof.
  intros Hs H. unfold conn_failed in H.
  destruct (conn_unregister E c st) as [st1|] eqn:E1; [|done]. cbn [mbind option_bind] in H.
  apply conn_unregister_keeps in E1.
  assert (E2 : exists st2, keeps st1 st2 /\
    appif_conn_opened config c code (set_conn c (set_status CONN_FAILED) st2) = Some st').
  { destruct (to_armed _); [|by exists st1].
    destruct (conn_timeout_disarm c st1) as [st2|] eqn:E2; [|done]. exists st2.
    split; [by eapply conn_timeout_disarm_keeps|exact H]. }
  destruct E2 as (st2 & Hk & H2). apply (keeps_then c _ st2); [by eapply keeps_trans|].
  pose proof (keeps_trans _ _ _ E1 Hk c) as Hc.
  unfold appif_conn_opened in H2.
  assert (Hm : moves c st2 (set_conn c (set_status CONN_FAILED) st2)).
  { apply (moves_set c st2 CONN_FAILED); [|done]. apply rtc_once. rewrite Hc. by constructor. }
  apply (moves_trans c _ _ _ Hm); [by eapply appif_conn_opened_moves|].
  intros Hn. exfalso. unfold s_conns in Hn.
  assert (Hx : is_Some (s_conns (set_conn c (set_status CONN_FAILED) st2) !! c)) by (apply set_conn_dom; by left).
  unfold s_conns in Hx. rewrite Hn in Hx. by destruct Hx.
Qed.

Lemma cc_init_conn_keeps c st st' : cc_init_conn config c st = Some st' -> keeps st st'.
Proof.
  unfold cc_init_conn, cc_conn_init. intros H. cstep H. cstep Ebind. intros d.
  unfold conn_at. cbn [s_cc setf conns]. destruct (decide (c = d)) as [->|Hd].
  - by rewrite lookup_total_insert_eq.
  - by rewrite lookup_total_insert_ne.
Qed.

Lemma conn_install_keeps gre c lseq st b st' :
  conn_install crc gre c lseq st = Some (b, st') -> keeps st st'.
Proof.
  unfold conn_install. intros H. cstep H. destruct p as [r nic]. destruct r as [f|].
  - apply (inj Some), (inj2 pair) in H as [<- <-].
    apply (keeps_trans _ (st <| s_nic := nic |>)); [by apply keeps_cc|by apply keeps_set].
  - apply (inj Some), (inj2 pair) in H as [<- <-]. by apply keeps_cc.
Qed.

Lemma ecn_on_status b x : status (ecn_on b x) = status x.
Proof. by destruct b. Qed.

(** A SYN-ACK: with the result 0 the connection is open, otherwise it is where it was. *)
Lemma syn_sent_moves gre c tcp rest opts st r st' : status (conn_at st c) = CONN_SYN_SENT ->
  syn_sent_packet E config crc gre c tcp rest opts st = Some (r, st') ->
  (r = 0 /\ moves c st st') \/ (r <> 0 /\ keeps st st').
Proof.
  intros Hs H. unfold syn_sent_packet in H.
  destruct (conn_timeout_disarm c st) as [st1|] eqn:E1; [|done]. cbn [mbind option_bind] in H.
  apply conn_timeout_disarm_keeps in E1.
  destruct (negb _); [right; apply (inj Some), (inj2 pair) in H as [<- <-]; done|].
  destruct (o_ts opts) as [off|]; [|right; apply (inj Some), (inj2 pair) in H as [<- <-]; done].
  set (st2 := set_conn c _ st1) in H.
  assert (E2 : keeps st1 st2) by (apply keeps_set; intros x; by rewrite ecn_on_status).
  destruct (cc_init_conn config c st2) as [st3|] eqn:E3; [|done]. cbn [mbind option_bind] in H.
  apply cc_init_conn_keeps in E3. set (st4 := set_conn c _ st3) in H.
  assert (E4 : keeps st3 st4) by (by apply keeps_set).
  destruct (conn_install crc gre c _ st4) as [[ok st5]|] eqn:E5; [|done]. cbn [mbind option_bind] in H.
  apply conn_install_keeps in E5. assert (K : keeps st st5) by eauto 6 using keeps_trans.
  destruct ok; cbn [negb] in H.
  2: { right. apply (inj Some), (inj2 pair) in H as [<- <-]. by split. }
  left. set (st6 := set_conn c (set_status CONN_OPEN) st5) in H.
  set (st7 := control _ _ _ _ _ _ _ _ _) in H.
  destruct (appif_conn_opened config c 0 st7) as [st8|] eqn:E8; [|done]. cbn [mbind option_bind] in H.
  apply (inj Some), (inj2 pair) in H as [<- <-]. split; [done|].
  apply (keeps_then c _ st5); [done|].
  apply appif_conn_opened_0 in E8 as (_ & Ec8 & _).
  apply (moves_set_keeps c st5 CONN_OPEN (set_status CONN_OPEN)); [|done|].
  - rewrite (K c), Hs. apply rtc_once. constructor.
  - apply (keeps_trans _ st7); [apply control_keeps|by apply keeps_cc].
Qed.

(** A packet for a connection. *)
Lemma conn_packet_moves gre c tcp rest opts core fg st st' :
  conn_packet_any E config crc gre c tcp rest opts core fg st = Some st' -> moves c st st'.
Proof.
  unfold conn_packet_any. intros H. case_bool_decide as Hs.
  - set (st1 := set_conn c _ st) in H. assert (K : keeps st st1) by (by apply keeps_set).
    destruct (syn_sent_packet _ _ _ _ _ _ _ _ st1) as [[r st2]|] eqn:E2; [|done].
    cbn [mbind option_bind] in H. apply (keeps_then c _ st1); [done|].
    assert (Hs1 : status (conn_at st1 c) = CONN_SYN_SENT) by (by rewrite (K c)).
    destruct (syn_sent_moves _ _ _ _ _ _ _ _ Hs1 E2) as [[-> M]|[Hr M]].
    + cbn [Z.eqb negb] in H. by apply (inj Some) in H as <-.
    + rewrite (proj2 (Z.eqb_neq _ _) Hr) in H. cbn [negb] in H.
      apply (keeps_then c _ st2); [done|]. apply conn_failed_moves in H; [done|].
      by rewrite (M c), Hs1.
  - destruct (bool_decide (status (conn_at st c) = CONN_OPEN) && _) eqn:Eo.
    + apply andb_true_iff in Eo as [Eo _]. apply bool_decide_eq_true in Eo.
      destruct (o_ts opts) as [off|].
      * apply (inj Some) in H as <-. apply keeps_moves, control_keeps.
      * apply conn_failed_moves in H; [done|]. by rewrite Eo.
    + clear Eo. destruct (_ && _); [apply (inj Some) in H as <-; apply keeps_moves, keeps_refl|].
      destruct (_ && _); apply (inj Some) in H as <-; apply keeps_moves;
        [apply control_keeps|apply keeps_refl].
Qed.

Lemma port_conn_free_keeps p st : keeps st (port_conn_free p st).
Proof. apply keeps_cc. unfold port_conn_free. by destruct (ports st !!! p). Qed.

Lemma conn_close_timeout_moves c st st' : conn_close_timeout E c st = Some st' -> moves c st st'.
Proof.
  unfold conn_close_timeout. intros H.
  set (st0 := port_conn_free _ st) in H. assert (K0 : keeps st st0) by apply port_conn_free_keeps.
  destruct (conn_unregister E c st0) as [st1|] eqn:E1; [|done]. cbn [mbind option_bind] in H.
  apply conn_unregister_keeps in E1.
  destruct (conn_free_bufs c st1) as [st2|] eqn:E2; [|done]. cbn [mbind option_bind] in H.
  assert (K2 : keeps st1 st2) by (unfold conn_free_bufs in E2; cstep E2; by apply keeps_cc).
  set (st3 := port_conn_free _ _) in H.
  assert (K3 : keeps st2 st3) by (eapply keeps_trans; [|apply port_conn_free_keeps]; by apply keeps_cc).
  destruct (appif_conn_closed c 0 st3) as [st4|] eqn:E4; [|done]. cbn [mbind option_bind] in H.
  assert (K4 : keeps st3 st4).
  { unfold appif_conn_closed in E4. cbv zeta in E4.
    destruct (negb _); [apply (inj Some) in E4 as <-; apply keeps_refl|].
    destruct (kout_push _ _ st3) as [st5|] eqn:E5; [|done]. cbn [mbind option_bind] in E4.
    apply kout_push_cc in E5. apply app_conn_remove_keeps in E4.
    eapply keeps_trans; [by apply keeps_cc|done]. }
  apply (inj Some) in H as <-. apply (keeps_then c _ st4); [|apply moves_delete].
  eauto 6 using keeps_trans.
Qed.

Lemma tcp_timeout_moves c type st st' : tcp_timeout E config c type st = Some st' -> moves c st st'.
Proof.
  unfold tcp_timeout. intros H. destruct (cassert (to_armed _)); [|done]. cbn [mbind option_bind] in H.
  set (st1 := set_conn c _ st) in H. assert (K1 : keeps st st1) by (by apply keeps_set).
  apply (keeps_then c _ st1); [done|].
  destruct (type =? TO_TCP_CLOSED); [by apply conn_close_timeout_moves|].
  destruct (cassert (type =? _)); [|done]. cbn [mbind option_bind] in H.
  destruct (cassert (bool_decide _)) eqn:Es; [|done]. cbn [mbind option_bind] in H.
  assert (Hs : status (conn_at st1 c) = CONN_SYN_SENT).
  { case_bool_decide; [done|discriminate Es]. }
  set (st2 := set_conn c _ st1) in H. assert (K2 : keeps st1 st2) by (by apply keeps_set).
  apply (keeps_then c _ st2); [done|]. destruct (_ <? _).
  - apply conn_failed_moves in H; [done|]. by rewrite (K2 c), Hs.
  - set (st3 := set_conn c _ st2) in H. assert (K3 : keeps st2 st3) by (by apply keeps_set).
    destruct (conn_timeout_arm c _ st3) as [st4|] eqn:E4; [|done]. cbn [mbind option_bind] in H.
    apply conn_timeout_arm_keeps in E4. apply (inj Some) in H as <-. apply keeps_moves.
    eapply keeps_trans; [done|]. eapply keeps_trans; [done|]. apply control_keeps.
Qed.

Lemma cc_conn_remove_keeps c st cc : cc_conn_remove c (s_cc st) = Some cc -> keeps st (st <| s_cc := cc |>).
Proof.
  unfold cc_conn_remove. set (m := if _ =? c then _ else s_cc st). intros H d.
  assert (Em : conns m = conns (s_cc st)) by (unfold m; by destruct (_ =? c)). clearbody m.
  change (status (conns cc !!! d) = status (conns (s_cc st) !!! d)). rewrite <- Em.
  destruct (_ =? c); [by apply (inj Some) in H as <-|].
  destruct (cc_find_prev _ _ _ _) as [cp|]; [|done]. cbn [mbind option_bind] in H.
  destruct (cassert _); [|done]. cbn [mbind option_bind] in H. apply (inj Some) in H as <-.
  unfold upd_conn. cbn [conns setf]. destruct (decide (cp = d)) as [->|Hd].
  - by rewrite lookup_total_insert_eq.
  - by rewrite lookup_total_insert_ne.
Qed.

Lemma tcp_close_moves c st r st' : tcp_close E config crc c st = Some (r, st') -> moves c st st'.
Proof.
  unfold tcp_close. cbv zeta. intros H. case_bool_decide as Hs; cbn [negb] in H.
  2: { apply (inj Some), (inj2 pair) in H as [_ <-]. apply keeps_moves, keeps_refl. }
  destruct (nicif_connection_disable _ _ _) as [[[[txs rxs] txc] rxc] nic].
  set (st1 := set_conn c _ (st <| s_nic := nic |>)) in H.
  assert (K1 : keeps st st1)
    by (apply (keeps_trans _ (st <| s_nic := nic |>)); [by apply keeps_cc|by apply keeps_set]).
  set (st2 := if _ : bool then _ else st1) in H.
  assert (K2 : keeps st st2).
  { unfold st2. destruct (_ || _); [|done]. eapply keeps_trans; [done|]. apply control_keeps. }
  destruct (cc_conn_remove c (s_cc st2)) as [cc|] eqn:Ecc; [|done]. cbn [mbind option_bind] in H.
  apply cc_conn_remove_keeps in Ecc. set (st3 := st2 <| s_cc := cc |>) in *.
  assert (K3 : keeps st st3) by eauto using keeps_trans.
  set (st4 := set_conn c (set_status CONN_CLOSED) st3) in H.
  destruct (cassert _); [|done]. cbn [mbind option_bind] in H.
  destruct (timeout_arm c 10000 TO_TCP_CLOSED st4) as [st5|] eqn:E5; [|done]. cbn [mbind option_bind] in H.
  apply timeout_arm_cc in E5. apply (inj Some), (inj2 pair) in H as [_ <-].
  apply (keeps_then c _ st3); [done|].
  apply (moves_set_keeps c st3 CONN_CLOSED (set_status CONN_CLOSED)); [|done|].
  - rewrite (K3 c), Hs. apply rtc_once. constructor.
  - apply (keeps_trans _ st5); [by apply keeps_cc|by apply keeps_set].
Qed.

Lemma arp_request_keeps comp ip ma st r st' : arp_request E config comp ip ma st = Some (r, st') -> keeps st st'.
Proof.
  unfold arp_request. intros H. set (st1 := set_conn comp _ st) in H.
  assert (K1 : keeps st st1) by (by apply keeps_set).
  destruct (ae_lookup ip st1) as [ae|]; [|done]. cbn [mbind option_bind] in H.
  destruct (negb (ae =? 0)).
  - destruct (_ =? 0); apply (inj Some), (inj2 pair) in H as [_ <-]; (eapply keeps_trans; [done|]).
    + by apply keeps_set.
    + by apply keeps_cc.
  - destruct (ma =? 0); [by apply (inj Some), (inj2 pair) in H as [_ <-]|].
    destruct (request_tx E config ip st1) as [b st2] eqn:E2.
    assert (Ec2 : s_cc st2 = s_cc st1).
    { unfold request_tx, tx_push in E2. destruct (_ <=? 0); by apply (inj2 pair) in E2 as [_ <-]. }
    destruct (timeout_arm ma _ _ st2) as [st3|] eqn:E3; [|done]. cbn [mbind option_bind] in H.
    apply timeout_arm_cc in E3. apply (inj Some), (inj2 pair) in H as [_ <-].
    eapply keeps_trans; [done|]. apply keeps_cc.
    transitivity (s_cc st3); [by destruct (negb _)|congruence].
Qed.

Lemma routing_resolve_keeps comp ip ma st r st' :
  routing_resolve E config comp ip ma st = Some (r, st') -> keeps st st'.
Proof.
  unfold routing_resolve. destruct (routing_hops _ _ _) as [[hop|]|]; [|..|done]; cbn [mbind option_bind].
  - by apply arp_request_keeps.
  - intros H. apply (inj Some), (inj2 pair) in H as [_ <-]. apply keeps_refl.
Qed.

Lemma conn_arp_done_moves c st st' : status (conn_at st c) = CONN_ARP_PENDING ->
  conn_arp_done E config c st = Some st' -> moves c st st'.
Proof.
  intros Hs H. unfold conn_arp_done in H. set (st1 := set_conn c _ st) in H.
  destruct (conn_timeout_arm c _ st1) as [st2|] eqn:E2; [|done]. cbn [mbind option_bind] in H.
  apply (inj Some) in H as <-. apply conn_timeout_arm_keeps in E2.
  eapply (moves_set_keeps c st CONN_SYN_SENT); [rewrite Hs; apply rtc_once; constructor| |].
  2: { eapply keeps_trans; [exact E2|apply control_keeps]. }
  done.
Qed.

Lemma accept_each_keeps ctxs c st b st' : accept_each config ctxs c 0 st = Some (b, st') -> keeps st st'.
Proof.
  revert st. induction ctxs as [|x ctxs IH]; intros st; cbn [accept_each].
  - intros H. apply (inj Some), (inj2 pair) in H as [_ <-]. apply keeps_refl.
  - destruct (negb _); [intros H; apply (inj Some), (inj2 pair) in H as [_ <-]; apply keeps_refl|].
    cbn [Z.eqb mbind option_bind]. destruct (kout_push _ _ st) as [st1|] eqn:E1; [|done].
    cbn [mbind option_bind]. intros H%IH. apply kout_push_cc in E1.
    eapply keeps_trans; [by apply keeps_cc|done].
Qed.

Lemma conn_reg_synack_moves c st st' : status (conn_at st c) = CONN_REG_SYNACK ->
  conn_reg_synack E config c st = Some st' -> moves c st st'.
Proof.
  intros Hs H. unfold conn_reg_synack, appif_accept_conn in H. set (st1 := control _ _ _ _ _ _ _ _ _) in H.
  destruct (accept_each _ _ c 0 st1) as [[b st2]|] eqn:E2; [|done]. cbn [mbind option_bind] in H.
  apply accept_each_keeps in E2. apply (inj Some) in H as <-.
  apply (moves_set_keeps c st CONN_OPEN (set_status CONN_OPEN)); [rewrite Hs; apply rtc_once; constructor|done|].
  apply (keeps_trans _ st1); [apply control_keeps|]. apply (keeps_trans _ st2); [exact E2|].
  destruct b; [|apply keeps_refl]. unfold app_conn_add.
  eapply keeps_trans; [|by apply keeps_cc]. by apply keeps_set.
Qed.

Lemma conn_free_gone c st st' : conn_free c st = Some st' -> s_conns st' !! c = None.
Proof.
  unfold conn_free. intros H. destruct (cassert _); [|done]. cbn [mbind option_bind] in H.
  destruct (conn_free_bufs c st) as [st1|]; [|done]. cbn [mbind option_bind] in H.
  apply (inj Some) in H as <-. unfold s_conns, conn_delete. cbn [conns s_cc setf]. apply lookup_delete_eq.
Qed.

(** A completion.  When there is no route, the connection is freed twice. *)
Lemma poll_conn_moves c ma st st' : poll_conn E config c ma st = Some st' -> moves c st st'.
Proof.
  unfold poll_conn. cbv zeta. intros H. destruct (status (conn_at st c)) eqn:Hs;
    try (apply (inj Some) in H as <-; apply keeps_moves, keeps_refl).
  - unfold tcp_open_resolve_routing, open_resolve in H.
    set (st1 := set_conn c _ st) in H.
    destruct (routing_resolve _ _ _ _ _ st1) as [[r st2]|] eqn:E2; [|done]. cbn [mbind option_bind] in H.
    apply routing_resolve_keeps in E2. destruct (r <? 0).
    + destruct (conn_free c st2) as [st3|] eqn:E3; [|done]. cbn [mbind option_bind negb] in H.
      apply conn_free_gone in E3. unfold conn_free in H.
      rewrite bool_decide_eq_false_2 in H; [done|]. rewrite E3. by intros [? [=]].
    + set (st3 := conn_register E c st2) in H.
      assert (K3 : keeps st1 st3) by (eapply keeps_trans; [done|apply conn_register_keeps]).
      assert (S3 : status (conn_at st3 c) = CONN_ARP_PENDING)
        by (rewrite (K3 c); unfold st1; by rewrite conn_at_set_same).
      assert (M3 : moves c st st3).
      { eapply (moves_set_keeps c st CONN_ARP_PENDING); [rewrite Hs; apply rtc_once; constructor| |exact K3].
        done. }
      destruct (r =? 0).
      * destruct (conn_arp_done E config c st3) as [st4|] eqn:E4; [|done].
        cbn [mbind option_bind negb] in H. apply (inj Some) in H as <-.
        apply conn_arp_done_moves in E4; [|done].
        apply (moves_trans c _ st3); [done| |].
        -- apply (moves_keeps c _ st4); [done|by apply keeps_cc|by apply s_conns_cc].
        -- intros Hn. exfalso. assert (Hx : is_Some (s_conns st3 !! c)) by (apply set_conn_dom; by left).
           rewrite Hn in Hx. by destruct Hx.
      * cbn [mbind option_bind negb] in H. apply (inj Some) in H as <-.
        apply (moves_keeps c _ st3); [done|by apply keeps_cc|by apply s_conns_cc].
  - destruct (negb _); [|by apply conn_arp_done_moves]. apply conn_failed_moves in H; [done|]. by rewrite Hs.
  - destruct (negb _); [|by apply conn_reg_synack_moves]. apply conn_failed_moves in H; [done|]. by rewrite Hs.
Qed.

(** Accepting a SYN for the connection that waits. *)
Lemma listener_accept_moves gre l st st' : let c := wait_conns (listeners st !!! l) in
  status (conn_at st c) = CONN_SYN_WAIT \/ status (conn_at st c) = CONN_REG_SYNACK ->
  listener_accept_any E config crc gre l st = Some st' -> moves c st st'.
Proof.
  intros c Hs H. unfold listener_accept_any in H.
  destruct (cassert (negb _)); [|done]. cbn [mbind option_bind] in H.
  destruct (cassert (0 <? _)); [|done]. cbn [mbind option_bind] in H.
  destruct (accept_syn E config crc gre l st) as [st0|] eqn:Ea; [|done]. cbn [mbind option_bind] in H.
  apply (inj Some) in H as <-. apply (moves_keeps c _ st0); [|by apply keeps_cc|by apply s_conns_cc].
  unfold accept_syn in Ea.
  match type of Ea with (?o ≫= _) = _ => destruct o as [opts|]; [|done] end.
  cbn [mbind option_bind] in Ea. destruct (opts ≫= o_ts) as [off|].
  2: { apply (inj Some) in Ea as <-. apply keeps_moves, keeps_refl. }
  fold c in Ea. set (st1 := set_conn c (accept_fields config _ _ _ _ _) st) in Ea.
  assert (K1 : keeps st st1).
  { apply keeps_set. intros x. unfold accept_fields. destruct (bl_pkt _); by rewrite ecn_on_status. }
  destruct (cc_init_conn config c st1) as [st2|] eqn:E2; [|done]. cbn [mbind option_bind] in Ea.
  apply cc_init_conn_keeps in E2. set (st3 := set_conn c _ st2) in Ea.
  destruct (conn_install crc gre c _ st3) as [[ok st4]|] eqn:E4; [|done].
  cbn [mbind option_bind] in Ea. apply (inj Some) in Ea as <-. apply conn_install_keeps in E4.
  apply (keeps_then c _ st2); [by eapply keeps_trans|].
  assert (K2 : status (conn_at st2 c) = status (conn_at st c)) by (by rewrite (E2 c), (K1 c)).
  eapply (moves_set_keeps c st2 CONN_REG_SYNACK).
  { rewrite K2. destruct Hs as [->| ->]; [apply rtc_once; constructor|apply rtc_refl]. }
  2: { apply (keeps_trans _ st4); [exact E4|]. destruct ok; [|apply keeps_refl]. unfold accept_finish.
       apply (keeps_trans _ (conn_register E c (wait_pop l st4))); [|by apply keeps_cc].
       eapply keeps_trans; [|apply conn_register_keeps]. by apply keeps_cc. }
  done.
Qed.

End Status.

(** C4: the status of a connection follows the state machine: every operation of the slow path --
    a packet, a timeout, closing, a completion, accepting a SYN -- moves the connection it is
    for along the transitions or frees it, and changes the status of no other connection.  In
    particular an open connection can only be closed, fail or be freed, and a closed one stays
    closed until it is freed. *)
Theorem conn_op_status E config crc c st st' : conn_op E config crc c st st' ->
  (forall d, d <> c -> status (conn_at st' d) = status (conn_at st d))
  /\ (s_conns st' !! c = None
      \/ (rtc status_step (status (conn_at st c)) (status (conn_at st' c))
          /\ (status (conn_at st c) = CONN_OPEN ->
              status (conn_at st' c) ∈ [CONN_OPEN; CONN_CLOSED; CONN_FAILED])
          /\ (status (conn_at st c) = CONN_CLOSED -> status (conn_at st' c) = CONN_CLOSED))).
Proof.
  intros H. assert (M : moves c st st').
  { destruct H as [p opts core fg st' H|p opts core fg st' H|type st' H|r st' H|ma st' H|gre l st' <- Hs H].
    - by eapply conn_packet_moves.
    - by eapply conn_packet_moves.
    - by eapply tcp_timeout_moves.
    - by eapply tcp_close_moves.
    - by eapply poll_conn_moves.
    - by eapply listener_accept_moves. }
  assert (Hfail : forall s, rtc status_step CONN_FAILED s -> s = CONN_FAILED).
  { intros s Hr. remember CONN_FAILED as f eqn:Ef. induction Hr as [|x y z Hxy _ IH]; [done|]. subst.
    inversion Hxy; subst. auto. }
  assert (Hclosed : forall s, rtc status_step CONN_CLOSED s -> s = CONN_CLOSED).
  { intros s Hr. inversion Hr as [|x y z Hxy _]; subst; [done|]. inversion Hxy; subst. done. }
  destruct M as [M1 M2]. split; [done|]. destruct M2 as [M2|M2]; [by left|right]. split; [done|]. split.
  - intros Ho. rewrite Ho in M2. inversion M2 as [x Hx|x y z Hxy Hr]; [set_solver|]. subst.
    inversion Hxy; subst; [apply Hclosed in Hr|apply Hfail in Hr]; set_solver.
  - intros Hc. rewrite Hc in M2. by apply Hclosed.
Qed.

Definition ex_answered : spst := default HandshakeThms.ex_c1
  (conn_packet ex_senv ex_scfg HandshakeThms.ex_crc0 500 (HandshakeThms.sent_pkt HandshakeThms.ex_s2) syn_opts
     0 7 HandshakeThms.ex_c1).

Lemma conn_op_status_witness :
  rtc status_step CONN_SYN_SENT CONN_OPEN
  /\ status (conn_at HandshakeThms.ex_c1 500) = CONN_SYN_SENT /\ status (conn_at ex_answered 500) = CONN_OPEN.
Proof.
  assert (H : conn_op ex_senv ex_scfg HandshakeThms.ex_crc0 500 HandshakeThms.ex_c1 ex_answered).
  { apply (op_packet _ _ _ _ _ (HandshakeThms.sent_pkt HandshakeThms.ex_s2) syn_opts 0 7).
    apply succeeds_eq. vm_compute. reflexivity. }
  assert (H1 : status (conn_at HandshakeThms.ex_c1 500) = CONN_SYN_SENT) by (vm_compute; reflexivity).
  assert (H2 : status (conn_at ex_answered 500) = CONN_OPEN) by (vm_compute; reflexivity).
  destruct (conn_op_status _ _ _ _ _ _ H) as [_ [H3|(H3 & _)]].
  - exfalso. assert (H4 : bool_decide (is_Some (s_conns ex_answered !! 500)) = true) by (vm_compute; reflexivity).
    apply bool_decide_eq_true in H4. rewrite H3 in H4. destruct H4. discriminate.
  - rewrite H1, H2 in H3. split; [exact H3|]. split; [exact H1|exact H2].
Defined.
