(* ===== verification/AppCtx.v ===== *)
(** * Requests of applications (tas/slow/appif_ctx.c)

    Polling the ring [kin] of a context: one request is taken and handled.  A handler
    returns how many entries of the ring [kout] it has used, 0 or 1. *)

From S2P Require Import Prelude FpTypes SpTypes Links PacketMem Timeout Cc NicFlow.
From S2P Require Import FlowTx SpState TcpConn Arp AppNotify Tcp Listen.

Definition KERNEL_APPOUT_LISTEN_REUSEPORT : Z := 1.

(** The results of [malloc] a request may need: a connection with its two handles, an entry
    of the ARP table, a listener, a [listen_multi] and a forked context. *)
Record req_mem : Type := mk_req_mem {
  rm_conn : Z; rm_rxh : Z; rm_txh : Z; rm_arp : Z; rm_listener : Z; rm_multi : Z; rm_fork : Z }.

(** The entry [kpos] of [kout] is written; the position stays. *)
Definition kout_write (ctx kpos : Z) (e : kernel_appin) (st : spst) : option spst :=
  _ ← appif_ctx_kick ctx st;
  Some (set_ctx ctx (fun x => x <| kout ::= <[kpos := e]> |>) st).

(** ** Lists of an application *)

Fixpoint listener_find (fuel : nat) (h : gmap Z listener) (port opaque l : Z) : option Z :=
  match fuel with
  | O => None
  | S fuel =>
      if l =? 0 then Some 0
      else if (ls_port (h !!! l) =? port) && (ls_opaque (h !!! l) =? opaque) then Some l
      else listener_find fuel h port opaque (ls_app_next (h !!! l))
  end.

Definition find_listener (app port opaque : Z) (st : spst) : option Z :=
  listener_find (S (size (listeners st))) (listeners st) port opaque (app_listeners (s_apps st !!! app)).

Fixpoint ctx_find (fuel : nat) (h : gmap Z app_context) (db_id x : Z) : option Z :=
  match fuel with
  | O => None
  | S fuel =>
      if x =? 0 then Some 0
      else if ac_doorbell (h !!! x) =? db_id then Some x
      else ctx_find fuel h db_id (ac_next (h !!! x))
  end.

Definition find_ctx (app db_id : Z) (st : spst) : option Z :=
  ctx_find (S (size (s_ctxs st))) (s_ctxs st) db_id (app_contexts (s_apps st !!! app)).

(** The connection a close or move request names. *)
Definition names_conn (opaque out_remote_ip out_local_ip in_remote_ip in_local_ip tunnel_id
    remote_port local_port : Z) (c : connection) : bool :=
  (cn_out_local_ip c =? out_local_ip) && (cn_out_remote_ip c =? out_remote_ip)
  && (cn_in_local_ip c =? in_local_ip) && (cn_in_remote_ip c =? in_remote_ip)
  && (cn_tunnel_id c =? tunnel_id) && (cn_local_port c =? local_port)
  && (cn_remote_port c =? remote_port) && (cn_opaque c =? opaque).

Fixpoint app_conn_find (fuel : nat) (h : gmap Z connection) (match_ : connection -> bool) (c : Z)
    : option Z :=
  match fuel with
  | O => None
  | S fuel =>
      if c =? 0 then Some 0
      else if match_ (h !!! c) then Some c
      else app_conn_find fuel h match_ (app_next (h !!! c))
  end.

Definition find_conn (app : Z) (match_ : connection -> bool) (st : spst) : option Z :=
  app_conn_find (conn_fuel st) (s_conns st) match_ (app_conns (s_apps st !!! app)).

(** [flexnic_scale_to]; a request while another one is handled is refused. *)
Definition flexnic_scale_to (cores fp_scale_to : Z) : Z :=
  if negb (fp_scale_to =? 0) then fp_scale_to else u32 cores.

Section AppCtx.
Context (E : fpenv) (config : configuration) (rte_hash_crc : list Z -> Z -> Z).

Definition kin_conn_open (app ctx kpos opaque remote_ip remote_port : Z) (m : req_mem) (st : spst)
    : option (Z * spst) :=
  '(conn, st) ← tcp_open E config ctx opaque remote_ip remote_port (ac_doorbell (s_ctxs st !!! ctx))
                  (rm_conn m) (rm_rxh m) (rm_txh m) (rm_arp m) st;
  if conn =? 0 then
    st ← kout_write ctx kpos (APPIN_CONN_OPENED opaque (-1) None) st; Some (1, st)
  else Some (0, app_conn_add app conn st).

Definition kin_listen_move (app ctx kpos opaque local_port db_id : Z) (st : spst) : option (Z * spst) :=
  l ← find_listener app local_port opaque st;
  new_ctx ← (if l =? 0 then Some 0 else find_ctx app db_id st);
  if (l =? 0) || (new_ctx =? 0) then
    st ← kout_write ctx kpos (APPIN_STATUS STATUS_LISTEN_MOVE opaque (-1)) st; Some (1, st)
  else
    let id := ac_doorbell (s_ctxs st !!! new_ctx) in
    let st := set_listener l (fun ls => ls <| ls_ctx := new_ctx |> <| ls_db_id := id |>) st in
    st ← kout_write ctx kpos (APPIN_STATUS STATUS_LISTEN_MOVE opaque 0) st; Some (1, st).

Definition kin_conn_move (app ctx kpos opaque db_id : Z) (match_ : connection -> bool) (st : spst)
    : option (Z * spst) :=
  conn ← find_conn app match_ st;
  new_ctx ← (if conn =? 0 then Some 0 else find_ctx app db_id st);
  if (conn =? 0) || (new_ctx =? 0) || negb (bool_decide (status (conn_at st conn) = CONN_OPEN)) then
    st ← kout_write ctx kpos (APPIN_STATUS STATUS_CONN_MOVE opaque (-1)) st; Some (1, st)
  else
    let id := ac_doorbell (s_ctxs st !!! new_ctx) in
    let st := st <| s_nic ::= nicif_connection_move id (cn_flow_id (conn_at st conn)) |> in
    st ← kout_write ctx kpos (APPIN_STATUS STATUS_CONN_MOVE opaque 0) st; Some (1, st).

Definition kin_conn_close (app ctx kpos opaque : Z) (match_ : connection -> bool) (st : spst)
    : option (Z * spst) :=
  conn ← find_conn app match_ st;
  '(ret, st) ← (if conn =? 0 then Some (-1, st) else tcp_close E config rte_hash_crc conn st);
  if negb (ret =? 0) then
    st ← kout_write ctx kpos (APPIN_STATUS STATUS_CONN_CLOSE opaque (-1)) st; Some (1, st)
  else Some (0, st).

Definition kin_listen_open (app ctx kpos opaque local_port flags : Z) (m : req_mem) (st : spst)
    : option (Z * spst) :=
  let reuseport := negb (Z.land flags KERNEL_APPOUT_LISTEN_REUSEPORT =? 0) in
  let '(l, st) := tcp_listen ctx opaque local_port reuseport (rm_listener m) (rm_multi m) st in
  if l =? 0 then
    st ← kout_write ctx kpos (APPIN_STATUS STATUS_LISTEN_OPEN opaque (-1)) st; Some (1, st)
  else
    let head := app_listeners (s_apps st !!! app) in
    let st := set_app app (fun a => a <| app_listeners := l |>)
                (set_listener l (fun ls => ls <| ls_app_next := head |>) st) in
    st ← kout_write ctx kpos (APPIN_STATUS STATUS_LISTEN_OPEN opaque 0) st; Some (1, st).

(** The search result is not tested: without a listener, [tcp_accept] gets [NULL]. *)
Definition kin_accept_conn (app ctx kpos listen_opaque conn_opaque local_port : Z) (m : req_mem)
    (st : spst) : option (Z * spst) :=
  l ← find_listener app local_port listen_opaque st;
  '(ret, st) ← tcp_accept E config rte_hash_crc ctx conn_opaque l (ac_doorbell (s_ctxs st !!! ctx))
                 (rm_conn m) (rm_rxh m) (rm_txh m) st;
  if negb (ret =? 0) then
    st ← kout_write ctx kpos (APPIN_ACCEPTED_CONN conn_opaque (-1) None) st; Some (1, st)
  else Some (0, st).

Definition kin_fork (app ctx : Z) (m : req_mem) (st : spst) : Z * spst :=
  (0, if rm_fork m =? 0 then st else set_app app (fun a => a <| forked_ctxs ::= cons ctx |>) st).

Definition kin_req_scale (num_cores fp_scale_to : Z) : Z := flexnic_scale_to num_cores fp_scale_to.

(** The [switch]: the number of entries used, the state and [fp_scale_to]. *)
Definition kin_handle (app ctx kpos : Z) (e : kernel_appout) (m : req_mem) (scale : Z) (st : spst)
    : option (Z * spst * Z) :=
  let plain (r : option (Z * spst)) := '(n, st) ← r; Some (n, st, scale) in
  match e with
  | APPOUT_INVALID => Some (0, st, scale)
  | APPOUT_CONN_OPEN opaque rip _ rport => plain (kin_conn_open app ctx kpos opaque rip rport m st)
  | APPOUT_LISTEN_MOVE opaque port db => plain (kin_listen_move app ctx kpos opaque port db st)
  | APPOUT_CONN_MOVE opaque orip olip irip ilip tid rport lport db =>
      plain (kin_conn_move app ctx kpos opaque db (names_conn opaque orip olip irip ilip tid rport lport) st)
  | APPOUT_CONN_CLOSE opaque orip olip irip ilip tid rport lport _ =>
      plain (kin_conn_close app ctx kpos opaque (names_conn opaque orip olip irip ilip tid rport lport) st)
  | APPOUT_LISTEN_OPEN opaque _ port flags => plain (kin_listen_open app ctx kpos opaque port flags m st)
  | APPOUT_ACCEPT_CONN lo co port => plain (kin_accept_conn app ctx kpos lo co port m st)
  | APPOUT_FORK => plain (Some (kin_fork app ctx m st))
  | APPOUT_REQ_SCALE n => Some (0, st, kin_req_scale n scale)
  | APPOUT_LISTEN_CLOSE _ _ => Some (0, st, scale)
  end.

Definition ring_next (pos len : Z) : Z := let pos := u32 (pos + 1) in if len <=? pos then 0 else pos.

Definition kin_invalid (e : kernel_appout) : bool :=
  match e with APPOUT_INVALID => true | _ => false end.

(** The end: the request is released and the positions move, that of [kout] when the
    handler has used the entry. *)
Definition poll_finish (ctx pos kpos inc : Z) (st : spst) : spst :=
  let st := set_ctx ctx (fun y =>
              y <| kin ::= <[pos := APPOUT_INVALID]> |>
                <| kin_pos := ring_next pos (kin_len y) |>) st in
  if 0 <? inc
  then set_ctx ctx (fun y => y <| kout_pos :=
         (let pos := u32 (kpos + inc) in if kout_len y <=? pos then 0 else pos) |>) st
  else st.

(** The number of requests handled, the state and [fp_scale_to]. *)
Definition appif_ctx_poll (app ctx : Z) (m : req_mem) (scale : Z) (st : spst)
    : option (Z * spst * Z) :=
  let x := s_ctxs st !!! ctx in
  let e := kin x !!! kin_pos x in
  if negb (kout_room x) then Some (0, st, scale)
  else if kin_invalid e then Some (0, st, scale)
  else
    '(inc, st, scale) ← kin_handle app ctx (kout_pos x) e m scale st;
    Some (1, poll_finish ctx (kin_pos x) (kout_pos x) inc st, scale).

End AppCtx.
