(* ===== verification/AppCtxThms.v ===== *)
(** * Requests of applications: proofs (tas/slow/appif_ctx.c)

    The operations a request starts do not touch the rings of any context: only the answer
    does.  [same_ctxs] is this frame condition.  Then the theorems about a poll. *)

From S2P Require Import Prelude FpTypes Links FlowTx Timeout PacketMem SpTypes Cc NicFlow.
From S2P Require Import SpState TcpConn AppNotify Arp Tcp Listen ArpThms Release AppCtx.

Definition same_ctxs (st st' : spst) : Prop := s_ctxs st' = s_ctxs st.

#[export] Instance same_ctxs_preorder : PreOrder same_ctxs.
Proof. split; [done|]. intros x y z Hx Hy. red in Hx, Hy |- *. by rewrite Hy. Qed.

Create HintDb ctxs.

(** A chain of operations is split into its steps; a step that is itself a chain, too. *)
Ltac ctxs_split H :=
  cbv zeta in H;
  try lazymatch type of H with
    | Some _ = Some _ =>
        apply (inj Some) in H;
        try (apply (inj2 pair) in H; destruct H as [H ?];
             try (apply (inj2 pair) in H; destruct H as [H ?])); subst
    | None = Some _ => discriminate H
    | (cassert ?b ≫= _) = Some _ =>
        destruct b; cbn [cassert mbind option_bind] in H; [ctxs_split H|discriminate H]
    | (?o ≫= _) = Some _ =>
        let x := fresh "x" in let E := fresh "Eb" in
        destruct o as [x|] eqn:E; cbn [mbind option_bind] in H;
        [ctxs_split E; ctxs_split H|discriminate H]
    | match ?x with _ => _ end = Some _ =>
        let E := fresh "Em" in destruct x eqn:E; ctxs_split H
    end.

(** What is left are steps of named operations, whose lemmas are hints; the last step is
    the one the goal ends with. *)
Ltac ctxs_close :=
  repeat match goal with
  | |- context [if ?b then ?s else _] => lazymatch type of s with spst => destruct b end
  | E : ?o = ?r |- same_ctxs _ _ =>
      let F := fresh "F" in
      lazymatch r with
      | Some (_, ?s) => eassert (F : same_ctxs _ s) by (eauto 2 with ctxs)
      | Some ?s => eassert (F : same_ctxs _ s) by (eauto 2 with ctxs)
      | (_, ?s) => eassert (F : same_ctxs _ s) by (eauto 2 with ctxs)
      end; clear E; etransitivity; [|exact F]; clear F
  end;
  try reflexivity.

Lemma tx_push_ctxs p st b st' : tx_push p st = (b, st') -> same_ctxs st st'.
Proof. unfold tx_push. by destruct (_ <=? _); intros [= <- <-]. Qed.
#[export] Hint Resolve tx_push_ctxs : ctxs.

Lemma timeout_arm_ctxs p us type st st' : timeout_arm p us type st = Some st' -> same_ctxs st st'.
Proof. intros H. unfold timeout_arm in H. ctxs_split H. ctxs_close. Qed.

Lemma conn_alloc_ctxs config vm mc mr mt st c st' :
  conn_alloc config vm mc mr mt st = Some (c, st') -> same_ctxs st st'.
Proof. intros H. unfold conn_alloc in H. ctxs_split H; ctxs_close. Qed.

Lemma conn_free_ctxs c st st' : conn_free c st = Some st' -> same_ctxs st st'.
Proof. intros H. unfold conn_free, conn_free_bufs in H. ctxs_split H; ctxs_close. Qed.
#[export] Hint Resolve timeout_arm_ctxs conn_alloc_ctxs conn_free_ctxs : ctxs.

Lemma port_alloc_ctxs st p st' : port_alloc st = Some (p, st') -> same_ctxs st st'.
Proof.
  unfold port_alloc. generalize (Z.to_nat 65536). intros fuel H. ctxs_split H; ctxs_close.
Qed.

Lemma conn_timeout_arm_ctxs c t st st' : conn_timeout_arm c t st = Some st' -> same_ctxs st st'.
Proof.
  intros H. unfold conn_timeout_arm in H. ctxs_split H.
  apply timeout_arm_ctxs in H. exact H.
Qed.

Lemma arp_request_ctxs E config comp ip ae st r st' :
  arp_request E config comp ip ae st = Some (r, st') -> same_ctxs st st'.
Proof. intros H. unfold arp_request, request_tx in H. ctxs_split H; ctxs_close. Qed.
#[export] Hint Resolve port_alloc_ctxs conn_timeout_arm_ctxs arp_request_ctxs : ctxs.

Lemma routing_resolve_ctxs E config comp ip ae st r st' :
  routing_resolve E config comp ip ae st = Some (r, st') -> same_ctxs st st'.
Proof. intros H. unfold routing_resolve in H. ctxs_split H; ctxs_close. Qed.

Lemma control_ctxs E config gre conn flags ts_opt ts_echo mss st :
  same_ctxs st (control E config gre conn flags ts_opt ts_echo mss st).
Proof.
  destruct (control_frame E config gre conn flags ts_opt ts_echo mss st) as (n & l & ->). done.
Qed.

Lemma conn_arp_done_ctxs E config conn st st' :
  conn_arp_done E config conn st = Some st' -> same_ctxs st st'.
Proof.
  intros H. unfold conn_arp_done in H. ctxs_split H.
  etransitivity; [|apply control_ctxs]. ctxs_close.
Qed.
#[export] Hint Resolve routing_resolve_ctxs control_ctxs conn_arp_done_ctxs : ctxs.

Lemma open_resolve_ctxs E config conn ip ae st b st' :
  open_resolve E config conn ip ae st = Some (b, st') -> same_ctxs st st'.
Proof. intros H. unfold open_resolve in H. ctxs_split H; ctxs_close. Qed.
#[export] Hint Resolve open_resolve_ctxs : ctxs.

Lemma tcp_open_ctxs E config ctx opaque rip rport db mc mr mt ae st c st' :
  tcp_open E config ctx opaque rip rport db mc mr mt ae st = Some (c, st') -> same_ctxs st st'.
Proof. intros H. unfold tcp_open in H. ctxs_split H; ctxs_close. Qed.

Lemma tcp_listen_ctxs ctx opaque port reuse ml mm st l st' :
  tcp_listen ctx opaque port reuse ml mm st = (l, st') -> same_ctxs st st'.
Proof.
  unfold tcp_listen. destruct (listen_port port reuse st) as [lm|]; [|by intros [= <- <-]].
  repeat case_match; intros [= <- <-]; done.
Qed.

Lemma cc_init_conn_ctxs config conn st st' :
  cc_init_conn config conn st = Some st' -> same_ctxs st st'.
Proof. intros H. unfold cc_init_conn in H. ctxs_split H; ctxs_close. Qed.

Lemma conn_install_ctxs crc gre conn lseq st b st' :
  conn_install crc gre conn lseq st = Some (b, st') -> same_ctxs st st'.
Proof. intros H. unfold conn_install in H. ctxs_split H; reflexivity. Qed.
#[export] Hint Resolve tcp_open_ctxs tcp_listen_ctxs cc_init_conn_ctxs conn_install_ctxs : ctxs.

Lemma accept_syn_ctxs E config crc gre l st st' :
  accept_syn E config crc gre l st = Some st' -> same_ctxs st st'.
Proof. intros H. unfold accept_syn in H. ctxs_split H; ctxs_close. Qed.

Lemma listener_accept_ctxs E config crc gre l st st' :
  listener_accept_any E config crc gre l st = Some st' -> same_ctxs st st'.
Proof.
  intros H. unfold listener_accept_any in H. ctxs_split H; apply accept_syn_ctxs in Eb; exact Eb.
Qed.
#[export] Hint Resolve listener_accept_ctxs : ctxs.

Lemma tcp_accept_ctxs E config crc ctx opaque l db mc mr mt st r st' :
  tcp_accept E config crc ctx opaque l db mc mr mt st = Some (r, st') -> same_ctxs st st'.
Proof.
  intros H. unfold tcp_accept, listener_accept, listener_accept_gre in H. ctxs_split H; ctxs_close.
Qed.

Lemma tcp_close_ctxs E config crc conn st r st' :
  tcp_close E config crc conn st = Some (r, st') -> same_ctxs st st'.
Proof.
  intros H. unfold tcp_close in H. ctxs_split H; ctxs_close.
  etransitivity; [|exact (control_ctxs E config VIRTUOSO_GRE conn TAS_TCP_RST false 0 0 _)]. done.
Qed.
#[export] Hint Resolve tcp_accept_ctxs tcp_close_ctxs : ctxs.

(** * What polling the requests of an application does

    One poll takes at most one request, the one at the position of the ring, and answers
    it at most once, in the context it came from. *)

(** The entry of [kout] answers the request: its type and the value the application gave
    to recognise the answer. *)
Definition answers (r : kernel_appout) (e : kernel_appin) : Prop :=
  match r, e with
  | APPOUT_CONN_OPEN o _ _ _, APPIN_CONN_OPENED o' s None => o' = o /\ s = -1
  | APPOUT_ACCEPT_CONN _ o _, APPIN_ACCEPTED_CONN o' s None => o' = o /\ s = -1
  | APPOUT_CONN_CLOSE o _ _ _ _ _ _ _ _, APPIN_STATUS STATUS_CONN_CLOSE o' s => o' = o /\ s = -1
  | APPOUT_CONN_MOVE o _ _ _ _ _ _ _ _, APPIN_STATUS STATUS_CONN_MOVE o' s
  | APPOUT_LISTEN_MOVE o _ _, APPIN_STATUS STATUS_LISTEN_MOVE o' s
  | APPOUT_LISTEN_OPEN o _ _ _, APPIN_STATUS STATUS_LISTEN_OPEN o' s => o' = o /\ (s = 0 \/ s = -1)
  | _, _ => False
  end.

(** What a handler does to the contexts: nothing, or one answer. *)
Definition handled (ctx kpos : Z) (r : kernel_appout) (n : Z) (st st' : spst) : Prop :=
  (n = 0 /\ same_ctxs st st')
  \/ (n = 1 /\ exists e, answers r e
      /\ s_ctxs st' = <[ctx := (s_ctxs st !!! ctx) <| kout ::= <[kpos := e]> |>]> (s_ctxs st)).

Lemma kout_write_handled ctx kpos r e st st1 st' :
  same_ctxs st st1 -> answers r e -> kout_write ctx kpos e st1 = Some st' ->
  handled ctx kpos r 1 st st'.
Proof.
  intros Hs He H. unfold kout_write in H. ctxs_split H; [].
  right. split; [done|]. exists e. split; [done|]. unfold same_ctxs in Hs.
  cbn [set_ctx s_ctxs setf]. by rewrite Hs.
Qed.

(** A handler: an operation without an answer, or an operation and then its answer. *)
Ltac handled_split H :=
  ctxs_split H;
  try (left; split; [reflexivity|]; solve [ctxs_close]);
  match goal with
  | Ek : kout_write _ _ _ _ = Some _ |- _ =>
      eapply kout_write_handled; [| |exact Ek]; cbn [answers]; [ctxs_close|auto]
  end.

Section Poll.
Context (E : fpenv) (config : configuration) (crc : list Z -> Z -> Z).

Lemma kin_handle_handled app ctx kpos r m scale st n st' scale' :
  kin_handle E config crc app ctx kpos r m scale st = Some (n, st', scale') ->
  handled ctx kpos r n st st'.
Proof.
  intros H. destruct r; cbn [kin_handle] in H;
    try unfold kin_conn_open in H; try unfold kin_listen_move in H; try unfold kin_conn_move in H;
    try unfold kin_conn_close in H; try unfold kin_listen_open in H; try unfold kin_accept_conn in H;
    try unfold kin_fork in H; handled_split H.
Qed.

(** What one poll leaves in the contexts. *)
Definition polled (ctx : Z) (st st' : spst) : Prop :=
  let x := s_ctxs st !!! ctx in
  let x' := s_ctxs st' !!! ctx in
  let r := kin x !!! kin_pos x in
  kin x' = <[kin_pos x := APPOUT_INVALID]> (kin x)
  /\ kin_pos x' = ring_next (kin_pos x) (kin_len x)
  /\ (kout x' = kout x /\ kout_pos x' = kout_pos x
      \/ exists e, answers r e /\ kout x' = <[kout_pos x := e]> (kout x)
                   /\ kout_pos x' = ring_next (kout_pos x) (kout_len x))
  /\ (kin_len x' = kin_len x /\ kout_len x' = kout_len x)
  /\ (forall y, y <> ctx -> s_ctxs st' !!! y = s_ctxs st !!! y).

Lemma poll_finish_polled ctx inc st st1 :
  let x := s_ctxs st !!! ctx in
  handled ctx (kout_pos x) (kin x !!! kin_pos x) inc st st1 ->
  polled ctx st (poll_finish ctx (kin_pos x) (kout_pos x) inc st1).
Proof.
  intros x H. unfold polled, poll_finish. fold x. destruct H as [[-> Hs]|(-> & e & He & Hs)].
  - cbn [Z.ltb Z.compare]. unfold set_ctx. cbn [s_ctxs setf]. red in Hs. rewrite Hs.
    rewrite lookup_total_insert_eq. fold x. repeat split; try done; [by left|].
    intros y Hy. by rewrite lookup_total_insert_ne.
  - cbn [Z.ltb Z.compare]. unfold set_ctx. cbn [s_ctxs setf]. rewrite Hs.
    rewrite !insert_insert_eq, !lookup_total_insert_eq. fold x. repeat split; try done; [right; by exists e|].
    intros y Hy. by rewrite lookup_total_insert_ne.
Qed.

Lemma appif_ctx_poll_cases app ctx m scale st n st' scale' :
  appif_ctx_poll E config crc app ctx m scale st = Some (n, st', scale') ->
  let x := s_ctxs st !!! ctx in
  (n = 0 /\ st' = st /\ scale' = scale
   /\ (kout x !!! kout_pos x <> APPIN_INVALID \/ kin x !!! kin_pos x = APPOUT_INVALID))
  \/ (n = 1 /\ kout x !!! kout_pos x = APPIN_INVALID /\ kin x !!! kin_pos x <> APPOUT_INVALID
      /\ polled ctx st st').
Proof.
  intros H. cbv zeta. unfold appif_ctx_poll, kout_room, kout_entry in H. cbv zeta in H.
  set (x := s_ctxs st !!! ctx) in *. set (r := kin x !!! kin_pos x) in *.
  destruct (kout x !!! kout_pos x) eqn:Eo; cbn [negb] in H;
    try (left; apply (inj Some), (inj2 pair) in H as [[<- <-]%(inj2 pair) <-]; by repeat split; left).
  destruct (kin_invalid r) eqn:Er.
  { left. apply (inj Some), (inj2 pair) in H as [[<- <-]%(inj2 pair) <-].
    repeat split; right. by destruct r. }
  right. ctxs_split H. split; [done|]. split; [done|]. split; [by intros ->|].
  match goal with Eh : kin_handle _ _ _ _ _ _ _ _ _ _ = _ |- _ => apply kin_handle_handled in Eh end.
  by apply poll_finish_polled.
Qed.

(** C22: one poll of an application's requests either does nothing, because the answer ring
    has no room or there is no request, or takes exactly the request at its position: the
    entry is freed, the position moves to the next one, the ring of answers has at most
    one new entry, which has the type and the opaque value of this request, and no other
    context is touched. *)
Theorem appif_ctx_poll_takes_one app ctx m scale st n st' scale' :
  appif_ctx_poll E config crc app ctx m scale st = Some (n, st', scale') ->
  let x := s_ctxs st !!! ctx in
  (n = 0 /\ st' = st /\ scale' = scale
   /\ (kout x !!! kout_pos x <> APPIN_INVALID \/ kin x !!! kin_pos x = APPOUT_INVALID))
  \/ (n = 1 /\ kout x !!! kout_pos x = APPIN_INVALID /\ kin x !!! kin_pos x <> APPOUT_INVALID
      /\ polled ctx st st').
Proof. apply appif_ctx_poll_cases. Qed.
End Poll.

(** The application of the examples asks to listen on port 80. *)
Definition ex_req : spst :=
  set_ctx 1 (fun x => x <| kin := {[0 := APPOUT_LISTEN_OPEN 77 128 80 0]} |>) ex_sp.
Definition ex_mem : req_mem := mk_req_mem 0 0 0 0 700 0 0.
Definition ex_poll : option (Z * spst * Z) :=
  appif_ctx_poll ex_senv ex_scfg (fun _ _ => 0) 1 1 ex_mem 0 ex_req.

Lemma appif_ctx_poll_takes_one_witness :
  exists n st', ex_poll = Some (n, st', 0) /\ n = 1
  /\ kout (s_ctxs st' !!! 1) !!! 0 = APPIN_STATUS STATUS_LISTEN_OPEN 77 0
  /\ polled 1 ex_req st'.
Proof.
  assert (Es : ex_poll = Some (default (0, ex_req, 0) ex_poll)) by (apply succeeds_eq; by vm_compute).
  assert (Hv : let p := default (0, ex_req, 0) ex_poll in
               p.1.1 = 1 /\ p.2 = 0 /\ kout (s_ctxs p.1.2 !!! 1) !!! 0 = APPIN_STATUS STATUS_LISTEN_OPEN 77 0)
    by (vm_compute; by repeat split).
  destruct (default (0, ex_req, 0) ex_poll) as [[n st'] sc]. cbn [fst snd] in Hv.
  destruct Hv as (-> & -> & Hk). exists 1, st'. split; [done|]. split; [done|]. split; [done|].
  destruct (appif_ctx_poll_takes_one _ _ _ _ _ _ _ _ _ _ _ Es) as [(H & _)|(_ & _ & _ & H)];
    [discriminate H|exact H].
Defined.
