(* ===== verification/LibTypes.v ===== *)
(** * Data of the application library (lib/tas/include/tas_ll.h, lib/tas/internal.h)

    Connections, listeners and contexts of an application, the events it gets, and the
    entries of its queues to the fast path.  The rings live in shared memory: those to
    the slow path are indexed by entry, those to the fast path by byte offset. *)

From S2P Require Import Prelude FpTypes SpTypes SpState.

(** ** Constants *)

Definition CTX_FLAG_POLL_CALLED : Z := 1.
Definition CTX_FLAG_POLL_EVENTS : Z := 2.
Definition CTX_FLAG_WANTWAIT : Z := 4.
Definition CTX_FLAG_LASTWAIT : Z := 8.

Definition CONN_FLAG_TXEOS : Z := 1.
Definition CONN_FLAG_TXEOS_ALLOC : Z := 2.
Definition CONN_FLAG_TXEOS_ACK : Z := 4.

Definition FLEXTCP_LISTEN_REUSEPORT : Z := 1.
Definition UINT64_MAX : Z := 18446744073709551615.
Definition sizeof_arx : Z := 32.
Definition sizeof_atx : Z := 16.

(** ** Connections *)

(** [conn_state]; the library's constructors have a prefix, the slow path has states of
    the same names. *)
Inductive conn_state : Type :=
| LCONN_CLOSED | LCONN_OPEN_REQUESTED | LCONN_ACCEPT_REQUESTED | LCONN_OPEN
| LCONN_CLOSE_REQUESTED.
#[export] Instance conn_state_eq_dec : EqDecision conn_state.
Proof. solve_decision. Defined.

Record flextcp_connection : Type := mk_fconn {
  rxb_base : Z; rxb_len : Z; rxb_head : Z; rxb_used : Z; rxb_bump : Z;
  txb_base : Z; txb_len : Z; txb_head : Z; txb_sent : Z; txb_allocated : Z; txb_bump : Z;
  lc_tunnel_id : Z; lc_out_local_ip : Z; lc_out_remote_ip : Z; lc_in_local_ip : Z;
  lc_in_remote_ip : Z; lc_local_port : Z; lc_remote_port : Z; lc_seq_rx : Z; lc_seq_tx : Z;
  lc_flow_id : Z; lc_bump_seq : Z; bump_next : Z; bump_prev : Z; lc_fn_core : Z;
  bump_pending : bool; lc_status : conn_state; lc_flags : Z; rx_closed : bool }.
#[export] Instance eta_fconn : Eta flextcp_connection := fun r =>
  mk_fconn (rxb_base r) (rxb_len r) (rxb_head r) (rxb_used r) (rxb_bump r)
    (txb_base r) (txb_len r) (txb_head r) (txb_sent r) (txb_allocated r) (txb_bump r)
    (lc_tunnel_id r) (lc_out_local_ip r) (lc_out_remote_ip r) (lc_in_local_ip r)
    (lc_in_remote_ip r) (lc_local_port r) (lc_remote_port r) (lc_seq_rx r) (lc_seq_tx r)
    (lc_flow_id r) (lc_bump_seq r) (bump_next r) (bump_prev r) (lc_fn_core r)
    (bump_pending r) (lc_status r) (lc_flags r) (rx_closed r).

(** [connection_init]. *)
Definition connection_init : flextcp_connection :=
  mk_fconn 0 0 0 0 0 0 0 0 0 0 0 0 0 0 0 0 0 0 0 0 0 0 0 0 0 false LCONN_CLOSED 0 false.
#[export] Instance fconn_inhabited : Inhabited flextcp_connection := populate connection_init.

Record flextcp_listener : Type := mk_flst { fl_conns : Z; fl_local_port : Z; fl_status : Z }.
#[export] Instance flst_inhabited : Inhabited flextcp_listener := populate (mk_flst 0 0 0).

(** ** Queues and contexts *)

(** Application TX queue entry. *)
Record atx : Type := mk_atx {
  atx_type : Z; atx_rx_bump : Z; atx_tx_bump : Z; atx_flow_id : Z; atx_bump_seq : Z;
  atx_flags : Z }.
#[export] Instance atx_inhabited : Inhabited atx := populate (mk_atx 0 0 0 0 0 0).
#[export] Instance eta_atx : Eta atx := fun r =>
  mk_atx (atx_type r) (atx_rx_bump r) (atx_tx_bump r) (atx_flow_id r) (atx_bump_seq r) (atx_flags r).
#[export] Instance eta_arx : Eta arx := fun r =>
  mk_arx (arx_type r) (arx_opaque r) (arx_rx_bump r) (arx_rx_pos r) (arx_tx_bump r) (arx_flags r).

Record lib_queue : Type := mk_lq {
  txq : gmap Z atx; rxq : gmap Z arx; rxq_head : Z; txq_tail : Z; txq_avail : Z; lq_last_ts : Z }.
#[export] Instance eta_lq : Eta lib_queue := fun r =>
  mk_lq (txq r) (rxq r) (rxq_head r) (txq_tail r) (txq_avail r) (lq_last_ts r).
#[export] Instance lq_inhabited : Inhabited lib_queue := populate (mk_lq ∅ ∅ 0 0 0 0).

(** [kick_ts] is the variable [last_ts] of [flextcp_kernel_kick]; [kicks] are the
    notifications sent, last first: the core, or [-1] for the slow path. *)
Record flextcp_context : Type := mk_fctx {
  lx_kin : gmap Z kernel_appout; lx_kin_len : Z; kin_head : Z;
  lx_kout : gmap Z kernel_appin; lx_kout_len : Z; kout_head : Z;
  rxq_len : Z; txq_len : Z; queues : gmap Z lib_queue;
  bump_pending_first : Z; bump_pending_last : Z;
  lx_flags : Z; lx_db_id : Z; num_queues : Z; next_queue : Z; last_inev_ts : Z;
  kick_ts : Z; kicks : list Z }.
#[export] Instance eta_fctx : Eta flextcp_context := fun r =>
  mk_fctx (lx_kin r) (lx_kin_len r) (kin_head r) (lx_kout r) (lx_kout_len r) (kout_head r)
    (rxq_len r) (txq_len r) (queues r) (bump_pending_first r) (bump_pending_last r)
    (lx_flags r) (lx_db_id r) (num_queues r) (next_queue r) (last_inev_ts r)
    (kick_ts r) (kicks r).

(** ** Events *)

Inductive flextcp_event : Type :=
| EV_LISTEN_OPEN (status listener : Z)
| EV_LISTEN_NEWCONN (listener out_remote_ip remote_port : Z) (gre : option (Z * Z))
| EV_LISTEN_ACCEPT (status conn : Z)
| EV_CONN_OPEN (status conn : Z)
| EV_CONN_CLOSED (status conn : Z)
| EV_CONN_RECEIVED (conn buf len : Z)
| EV_CONN_SENDBUF (conn : Z)
| EV_CONN_RXCLOSED (conn : Z)
| EV_CONN_TXCLOSED (conn : Z)
| EV_CONN_MOVED (status conn : Z)
| EV_LISTEN_MOVED (status listener : Z).

(** ** The library's state: one context with the connections and listeners used with it *)

Record libst : Type := mk_libst {
  l_conns : gmap Z flextcp_connection; l_listeners : gmap Z flextcp_listener;
  l_ctx : flextcp_context }.
#[export] Instance eta_libst : Eta libst := fun r =>
  mk_libst (l_conns r) (l_listeners r) (l_ctx r).

Definition lconn (L : libst) (p : Z) : flextcp_connection := l_conns L !!! p.
Definition set_lconn (p : Z) (f : flextcp_connection -> flextcp_connection) (L : libst) : libst :=
  L <| l_conns ::= fun h => <[p := f (h !!! p)]> h |>.
Definition upd_lctx (f : flextcp_context -> flextcp_context) (L : libst) : libst :=
  L <| l_ctx ::= f |>.
Definition upd_queue (q : Z) (f : lib_queue -> lib_queue) (L : libst) : libst :=
  L <| l_ctx ::= fun x => x <| queues ::= fun h => <[q := f (h !!! q)]> h |> |>.
Definition lqueue (L : libst) (q : Z) : lib_queue := queues (l_ctx L) !!! q.
