(* ===== verification/LibConn.v ===== *)
(** * Operations on connections (lib/tas/conn.c, lib/tas/kernel.c)

    Requests to the slow path, and the buffers of a connection.  A function that returns
    0 or -1 has the return value and the state as its result; [None] is a failed
    assertion, [abort], or a list that does not end.  The results of [util_rdtsc] are
    arguments.  Opening a connection to the slow path has set [kernel_evfd]. *)

From S2P Require Import Prelude FpTypes SpTypes Links SpState FlowTx LibTypes.
From S2P Require Import AppCtx.

(** What the library reads of [flexnic_info]. *)
Record flexnic_info : Type := mk_finfo { poll_cycle_app : Z; poll_cycle_tas : Z }.

(** ** The bump list *)

Definition conn_mark_bump (conn : Z) (L : libst) : libst :=
  if bump_pending (lconn L conn) then L
  else
    let c_prev := bump_pending_last (l_ctx L) in
    let L := set_lconn conn (fun c => c <| bump_next := 0 |> <| bump_prev := c_prev |>) L in
    let L := if negb (c_prev =? 0) then set_lconn c_prev (fun c => c <| bump_next := conn |>) L
             else upd_lctx (fun x => x <| bump_pending_first := conn |>) L in
    let L := upd_lctx (fun x => x <| bump_pending_last := conn |>) L in
    set_lconn conn (fun c => c <| bump_pending := true |>) L.

(** The loop over [p_c]; the result 0 is [NULL]. *)
Fixpoint bump_prev_find (fuel : nat) (h : gmap Z flextcp_connection) (conn p_c : Z) : option Z :=
  match fuel with
  | O => None
  | S fuel =>
      if negb (p_c =? 0) && negb (bump_next (h !!! p_c) =? conn)
      then bump_prev_find fuel h conn (bump_next (h !!! p_c)) else Some p_c
  end.

(** Removal from the list, at the start of [flextcp_connection_close].  When the
    connection is the first one, [bump_pending_last] stays. *)
Definition bump_remove (conn : Z) (L : libst) : option libst :=
  if negb (bump_pending (lconn L conn)) then Some L
  else
    let next := bump_next (lconn L conn) in
    L ← (if conn =? bump_pending_first (l_ctx L)
         then Some (upd_lctx (fun x => x <| bump_pending_first := next |>) L)
         else
           p_c ← bump_prev_find (S (size (l_conns L))) (l_conns L) conn (bump_pending_first (l_ctx L));
           _ ← cassert (negb (p_c =? 0));
           let L := set_lconn p_c (fun c => c <| bump_next := next |>) L in
           Some (if next =? 0 then upd_lctx (fun x => x <| bump_pending_last := p_c |>) L else L));
    Some (set_lconn conn (fun c => c <| bump_pending := false |>) L).

(** ** Buffers *)

Definition conn_tx_allocbytes (c : flextcp_connection) : Z :=
  u32 (txb_len c - txb_sent c - txb_allocated c).
Definition conn_tx_sendbytes (c : flextcp_connection) : Z := txb_allocated c.
Definition flextcp_conn_txbuf_available (c : flextcp_connection) : Z := conn_tx_allocbytes c.

Definition flextcp_connection_rx_done (conn len : Z) (L : libst) : Z * libst :=
  if rxb_used (lconn L conn) <? len then (-1, L)
  else
    let L := set_lconn conn (fun c => c <| rxb_used := u32 (rxb_used c - len) |>
                                        <| rxb_bump := u32 (rxb_bump c + len) |>) L in
    (0, if rxb_len (lconn L conn) / 4 <? rxb_bump (lconn L conn) then conn_mark_bump conn L else L).

Definition txeos (c : flextcp_connection) : bool := has_flag (lc_flags c) CONN_FLAG_TXEOS.
Definition txeos_alloc (c : flextcp_connection) : bool := has_flag (lc_flags c) CONN_FLAG_TXEOS_ALLOC.

(** The bytes that can be allocated, and where. *)
Definition alloc_len (c : flextcp_connection) (len : Z) : Z :=
  if conn_tx_allocbytes c <? len then conn_tx_allocbytes c else len.
Definition alloc_head (c : flextcp_connection) : Z :=
  let head := u32 (txb_head c + txb_allocated c) in
  if txb_len c <=? head then u32 (head - txb_len c) else head.

(** The return value and [buf]. *)
Definition flextcp_connection_tx_alloc (conn len : Z) (L : libst) : Z * Z * libst :=
  let c := lconn L conn in
  if txeos c then (-1, 0, L)
  else
    let len := alloc_len c len in
    let head := alloc_head c in
    let len := if txb_len c <? head + len then u32 (txb_len c - head) else len in
    (len, txb_base c + head,
     set_lconn conn (fun c => c <| txb_allocated := u32 (txb_allocated c + len) |>) L).

(** The return value, [buf_1], [len_1] and [buf_2]; 0 is [NULL]. *)
Definition flextcp_connection_tx_alloc2 (conn len : Z) (L : libst) : Z * (Z * Z * Z) * libst :=
  let c := lconn L conn in
  if txeos c then (-1, (0, 0, 0), L)
  else
    let len := alloc_len c len in
    let head := alloc_head c in
    (len,
     (if txb_len c <? head + len then (txb_base c + head, u32 (txb_len c - head), txb_base c)
      else (txb_base c + head, len, 0)),
     set_lconn conn (fun c => c <| txb_allocated := u32 (txb_allocated c + len) |>) L).

(** The head [len] bytes on. *)
Definition txb_advance (c : flextcp_connection) (len : Z) : Z :=
  let head := u32 (txb_head c + len) in
  if txb_len c <=? head then u32 (head - txb_len c) else head.

Definition flextcp_connection_tx_send (conn len : Z) (L : libst) : Z * libst :=
  if conn_tx_sendbytes (lconn L conn) <? len then (-1, L)
  else
    (0, conn_mark_bump conn (set_lconn conn (fun c =>
          c <| txb_allocated := u32 (txb_allocated c - len) |> <| txb_sent := u32 (txb_sent c + len) |>
            <| txb_head := txb_advance c len |> <| txb_bump := u32 (txb_bump c + len) |>) L)).

Definition flextcp_conn_pushtxeos (conn : Z) (L : libst) : option (Z * libst) :=
  let c := lconn L conn in
  _ ← cassert (conn_tx_sendbytes c =? 0);
  _ ← cassert (txeos c);
  if conn_tx_allocbytes c =? 0 then Some (-1, L)
  else
    Some (0, conn_mark_bump conn (set_lconn conn (fun c =>
               c <| txb_sent := u32 (txb_sent c + 1) |> <| txb_head := txb_advance c 1 |>
                 <| lc_flags := Z.lor (lc_flags c) CONN_FLAG_TXEOS_ALLOC |>
                 <| txb_bump := u32 (txb_bump c + 1) |>) L)).

(** The result of [flextcp_conn_pushtxeos] is not used. *)
Definition flextcp_connection_tx_close (conn : Z) (L : libst) : option (Z * libst) :=
  let c := lconn L conn in
  if 0 <? conn_tx_sendbytes c then Some (-1, L)
  else if txeos c then Some (-1, L)
  else
    let L := set_lconn conn (fun c => c <| lc_flags := Z.lor (lc_flags c) CONN_FLAG_TXEOS |>) L in
    '(_, L) ← flextcp_conn_pushtxeos conn L;
    Some (0, L).

(** ** Requests to the slow path *)

Section Requests.
Context (info : flexnic_info) (now : Z).

Definition flextcp_kernel_kick (L : libst) : libst :=
  let L := if poll_cycle_tas info <? u64 (now - kick_ts (l_ctx L))
           then upd_lctx (fun x => x <| kicks ::= cons (-1) |>) L else L in
  upd_lctx (fun x => x <| kick_ts := now |>) L.

(** The entry at [kin_head] can be used. *)
Definition kin_room (L : libst) : bool := kin_invalid (lx_kin (l_ctx L) !!! kin_head (l_ctx L)).

(** The end of each function: the entry is filled, the slow path notified, and the head
    moves. *)
Definition kin_put (e : kernel_appout) (L : libst) : libst :=
  let pos := kin_head (l_ctx L) in
  let L := upd_lctx (fun x => x <| lx_kin ::= <[pos := e]> |>) L in
  upd_lctx (fun x => x <| kin_head := ring_next pos (lx_kin_len x) |>) (flextcp_kernel_kick L).

Definition flextcp_listen_open (lst port backlog flags : Z) (L : libst) : Z * libst :=
  let L := L <| l_listeners ::= <[lst := mk_flst 0 0 0]> |> in
  if negb (Z.land flags (Z.lxor 4294967295 FLEXTCP_LISTEN_REUSEPORT) =? 0) then (-1, L)
  else
    let f := if has_flag flags FLEXTCP_LISTEN_REUSEPORT then KERNEL_APPOUT_LISTEN_REUSEPORT else 0 in
    if negb (kin_room L) then (-1, L)
    else
      let L := L <| l_listeners ::= <[lst := mk_flst 0 port 0]> |> in
      (0, kin_put (APPOUT_LISTEN_OPEN lst backlog port f) L).

Definition flextcp_listen_accept (lst conn : Z) (L : libst) : Z * libst :=
  let L := set_lconn conn (fun _ => connection_init) L in
  if negb (kin_room L) then (-1, L)
  else
    let port := fl_local_port (l_listeners L !!! lst) in
    let L := set_lconn conn (fun c => c <| lc_status := LCONN_ACCEPT_REQUESTED |>
                                        <| lc_local_port := port |>) L in
    (0, kin_put (APPOUT_ACCEPT_CONN lst conn port) L).

Definition flextcp_connection_open (conn dst_ip dst_port : Z) (L : libst) : Z * libst :=
  let L := set_lconn conn (fun _ => connection_init) L in
  if negb (kin_room L) then (-1, L)
  else
    let L := set_lconn conn (fun c => c <| lc_status := LCONN_OPEN_REQUESTED |>
                                        <| lc_in_remote_ip := dst_ip |> <| lc_remote_port := dst_port |>) L in
    (0, kin_put (APPOUT_CONN_OPEN conn dst_ip 0 dst_port) L).

Definition flextcp_connection_close (conn : Z) (L : libst) : option (Z * libst) :=
  L ← bump_remove conn L;
  if negb (kin_room L) then Some (-1, L)
  else
    let L := set_lconn conn (fun c => c <| lc_status := LCONN_CLOSE_REQUESTED |>) L in
    let c := lconn L conn in
    Some (0, kin_put (APPOUT_CONN_CLOSE conn (lc_out_remote_ip c) (lc_out_local_ip c)
                        (lc_in_remote_ip c) (lc_in_local_ip c) (lc_tunnel_id c)
                        (lc_remote_port c) (lc_local_port c) 0) L).

Definition flextcp_connection_move (conn : Z) (L : libst) : Z * libst :=
  if negb (kin_room L) then (-1, L)
  else
    let c := lconn L conn in
    (0, kin_put (APPOUT_CONN_MOVE conn (lc_out_remote_ip c) (lc_out_local_ip c)
                   (lc_in_remote_ip c) (lc_in_local_ip c) (lc_tunnel_id c)
                   (lc_remote_port c) (lc_local_port c) (lx_db_id (l_ctx L))) L).

Definition flextcp_listen_move (lst : Z) (L : libst) : Z * libst :=
  if negb (kin_room L) then (-1, L)
  else (0, kin_put (APPOUT_LISTEN_MOVE lst (fl_local_port (l_listeners L !!! lst))
                      (lx_db_id (l_ctx L))) L).

(** The process ids of the request are not read by the slow path. *)
Definition flextcp_kernel_fork (L : libst) : Z * libst :=
  if negb (kin_room L) then (-1, L) else (0, kin_put APPOUT_FORK L).

Definition flextcp_kernel_reqscale (cores : Z) (L : libst) : Z * libst :=
  if negb (kin_room L) then (-1, L) else (0, kin_put (APPOUT_REQ_SCALE cores) L).

End Requests.
