(* ===== verification/LibPoll.v ===== *)
(** * Polling a context (lib/tas/init.c)

    Messages of the slow path and of the fast path become events, and pending bumps go to
    the fast path.  Functions with an array of events as an argument have the list of the
    events they write as a result; a result [None] in place of the list is the return
    value -1, for too little space.  Prefetching is left out, and the three ways in which
    [fastpath_poll_vec] reads the types of the entries are one. *)

From S2P Require Import Prelude FpTypes SpTypes Links SpState FlowTx LibTypes LibConn.
From S2P Require Import AppCtx.

(** Adding [n] to an offset into a ring of [len] bytes. *)
Definition ring_wrap (len pos n : Z) : Z :=
  let pos := u32 (pos + n) in if len <=? pos then pos - len else pos.

Section Poll.
Context (info : flexnic_info) (now flexnic_mem : Z).

(** ** Messages of the slow path *)

(** The events for what the fast path has delivered before the connection was open. *)
Definition early_events (conn : Z) (L : libst) : list flextcp_event * libst :=
  let c := lconn L conn in
  let rx := 0 <? rxb_used c in
  ((if rx then [EV_CONN_RECEIVED conn (rxb_base c) (rxb_used c)] else [])
   ++ (if rx_closed c then [EV_CONN_RXCLOSED conn] else []),
   if rx then set_lconn conn (fun c => c <| lc_seq_rx := u32 (lc_seq_rx c + rxb_used c) |>) L else L).

(** The number of events they need is more than [avail]. *)
Definition early_no_space (c : flextcp_connection) (avail : Z) : bool :=
  ((0 <? rxb_used c) && rx_closed c && (avail <? 3))
  || (((0 <? rxb_used c) || rx_closed c) && (avail <? 2)).

Definition opened_fields (i : conn_opened_info) (c : flextcp_connection) : flextcp_connection :=
  c <| lc_status := LCONN_OPEN |> <| lc_out_remote_ip := coi_out_remote_ip i |>
    <| lc_out_local_ip := coi_out_local_ip i |> <| lc_in_local_ip := coi_in_local_ip i |>
    <| lc_local_port := coi_local_port i |> <| lc_seq_rx := coi_seq_rx i |>
    <| lc_seq_tx := coi_seq_tx i |> <| lc_flow_id := coi_flow_id i |>
    <| lc_tunnel_id := coi_tunnel_id i |> <| lc_fn_core := coi_fn_core i |>
    <| rxb_base := flexnic_mem + coi_rx_off i |> <| rxb_len := coi_rx_len i |>
    <| txb_base := flexnic_mem + coi_tx_off i |> <| txb_len := coi_tx_len i |>.

Definition accepted_fields (i : accept_conn_info) (c : flextcp_connection) : flextcp_connection :=
  c <| lc_status := LCONN_OPEN |> <| lc_out_local_ip := aci_out_local_ip i |>
    <| lc_out_remote_ip := aci_out_remote_ip i |> <| lc_in_local_ip := aci_in_local_ip i |>
    <| lc_in_remote_ip := aci_in_remote_ip i |> <| lc_remote_port := aci_remote_port i |>
    <| lc_seq_rx := aci_seq_rx i |> <| lc_seq_tx := aci_seq_tx i |>
    <| lc_flow_id := aci_flow_id i |> <| lc_tunnel_id := aci_tunnel_id i |>
    <| lc_fn_core := aci_fn_core i |>
    <| rxb_base := flexnic_mem + aci_rx_off i |> <| rxb_len := aci_rx_len i |>
    <| txb_base := flexnic_mem + aci_tx_off i |> <| txb_len := aci_tx_len i |>.

(** The two functions differ in the fields and in the event.  The information is there
    when the status is 0. *)
Definition kappin_open {I} (fields : I -> flextcp_connection -> flextcp_connection)
    (ev : flextcp_event) (conn status : Z) (i : option I) (avail : Z) (L : libst)
    : option (option (list flextcp_event) * libst) :=
  if negb (status =? 0)
  then Some (Some [ev], set_lconn conn (fun c => c <| lc_status := LCONN_CLOSED |>) L)
  else if early_no_space (lconn L conn) avail then Some (None, L)
  else
    i ← i;
    let '(evs, L) := early_events conn (set_lconn conn (fields i) L) in
    Some (Some (ev :: evs), L).

Definition event_kappin_conn_opened (conn status : Z) (i : option conn_opened_info) (avail : Z)
    (L : libst) : option (option (list flextcp_event) * libst) :=
  kappin_open opened_fields (EV_CONN_OPEN status conn) conn status i avail L.

Definition event_kappin_accept_conn (conn status : Z) (i : option accept_conn_info) (avail : Z)
    (L : libst) : option (option (list flextcp_event) * libst) :=
  kappin_open accepted_fields (EV_LISTEN_ACCEPT status conn) conn status i avail L.

(** The dispatch on the type. *)
Definition event_kappin (e : kernel_appin) (avail : Z) (L : libst)
    : option (option (list flextcp_event) * libst) :=
  match e with
  | APPIN_INVALID => None
  | APPIN_CONN_OPENED conn s i => event_kappin_conn_opened conn s i avail L
  | APPIN_LISTEN_NEWCONN lst ip port gre => Some (Some [EV_LISTEN_NEWCONN lst ip port gre], L)
  | APPIN_ACCEPTED_CONN conn s i => event_kappin_accept_conn conn s i avail L
  | APPIN_STATUS STATUS_LISTEN_OPEN lst s => Some (Some [EV_LISTEN_OPEN s lst], L)
  | APPIN_STATUS STATUS_CONN_MOVE conn s => Some (Some [EV_CONN_MOVED s conn], L)
  | APPIN_STATUS STATUS_LISTEN_MOVE lst s => Some (Some [EV_LISTEN_MOVED s lst], L)
  | APPIN_STATUS STATUS_CONN_CLOSE conn s =>
      Some (Some [EV_CONN_CLOSED s conn], set_lconn conn (fun c => c <| lc_status := LCONN_CLOSED |>) L)
  end.

Definition or_flags (f : Z) (L : libst) : libst := upd_lctx (fun x => x <| lx_flags ::= Z.lor f |>) L.

Definition appin_free (e : kernel_appin) : bool :=
  match e with APPIN_INVALID => true | _ => false end.

(** [true]: returned -1.  Every message takes an event, so that [num] is enough fuel. *)
Fixpoint kernel_poll_loop (fuel : nat) (num i : Z) (L : libst)
    : option (bool * list flextcp_event * libst) :=
  match fuel with
  | O => Some (false, [], L)
  | S fuel =>
      let pos := kout_head (l_ctx L) in
      let e := lx_kout (l_ctx L) !!! pos in
      if appin_free e then Some (false, [], L)
      else
        '(r, L) ← event_kappin e (num - i) L;
        let L := or_flags CTX_FLAG_POLL_EVENTS L in
        match r with
        | None => Some (true, [], L)
        | Some evs =>
            let L := upd_lctx (fun x =>
              x <| lx_kout ::= <[pos := APPIN_INVALID]> |>
                <| kout_head := ring_next pos (lx_kout_len x) |>) L in
            let i := i + Z.of_nat (length evs) in
            if num <=? i then Some (false, evs, L)
            else
              '(full, evs', L) ← kernel_poll_loop fuel num i L;
              Some (full, evs ++ evs', L)
        end
  end.

Definition kernel_poll (num : Z) (L : libst) : option (bool * list flextcp_event * libst) :=
  kernel_poll_loop (Z.to_nat num) num 0 L.

(** ** Updates of the fast path *)

Definition arx_eos (e : arx) : bool := has_flag (arx_flags e) FLEXTCP_PL_ARX_FLRXDONE.

(** [conn->rxb_head + rx_bump > conn->rxb_len]. *)
Definition rx_wraps (c : flextcp_connection) (rx_bump : Z) : bool :=
  rxb_len c <? u32 (rxb_head c + rx_bump).

Definition tx_avail_ev (c : flextcp_connection) (tx_bump : Z) : bool :=
  (0 <? tx_bump) && (flextcp_conn_txbuf_available c =? 0).

Definition evs_needed (c : flextcp_connection) (e : arx) : Z :=
  (if 0 <? arx_rx_bump e then 1 + (if rx_wraps c (arx_rx_bump e) then 1 else 0) else 0)
  + (if tx_avail_ev c (arx_tx_bump e) then 1 else 0)
  + (if txeos_alloc c && (u32 (txb_sent c - arx_tx_bump e) =? 0) then 1 else 0)
  + (if arx_eos e then 1 else 0).

(** The events for received bytes, and the new receive buffer. *)
Definition rx_events (conn : Z) (c : flextcp_connection) (rx_bump : Z) : list flextcp_event :=
  if negb (0 <? rx_bump) then []
  else if rx_wraps c rx_bump then
    let rx_len := u32 (rxb_len c - rxb_head c) in
    [EV_CONN_RECEIVED conn (rxb_base c + rxb_head c) rx_len;
     EV_CONN_RECEIVED conn (rxb_base c) (u32 (rx_bump - rx_len))]
  else [EV_CONN_RECEIVED conn (rxb_base c + rxb_head c) rx_bump].

Definition rx_update (rx_bump : Z) (c : flextcp_connection) : flextcp_connection :=
  if negb (0 <? rx_bump) then c
  else
    c <| lc_seq_rx := u32 (lc_seq_rx c + rx_bump) |>
      <| rxb_head := ring_wrap (rxb_len c) (rxb_head c) rx_bump |>
      <| rxb_used := u32 (rxb_used c + rx_bump) |>.

(** The bump of the transmit buffer; the events and the state. *)
Definition tx_bumped (conn tx_bump : Z) (avail_ev : bool) (L : libst)
    : option (list flextcp_event * libst) :=
  if negb (0 <? tx_bump) then Some ([], L)
  else
    let L := set_lconn conn (fun c => c <| txb_sent := u32 (txb_sent c - tx_bump) |>) L in
    let evs := if avail_ev then [EV_CONN_SENDBUF conn] else [] in
    let c := lconn L conn in
    if txeos c && negb (txeos_alloc c) then
      '(ret, L) ← flextcp_conn_pushtxeos conn L;
      _ ← cassert (ret =? 0);
      Some (evs, L)
    else if txeos_alloc c then
      _ ← cassert (negb (has_flag (lc_flags c) CONN_FLAG_TXEOS_ACK));
      if txb_sent c =? 0
      then Some (evs ++ [EV_CONN_TXCLOSED conn],
                 set_lconn conn (fun c => c <| lc_flags := Z.lor (lc_flags c) CONN_FLAG_TXEOS_ACK |>) L)
      else Some (evs, L)
    else Some (evs, L).

(** Before the slow path has confirmed the connection. *)
Definition early_update (e : arx) (c : flextcp_connection) : flextcp_connection :=
  c <| rx_closed := arx_eos e |> <| rxb_head := u32 (rxb_head c + arx_rx_bump e) |>
    <| rxb_used := u32 (rxb_used c + arx_rx_bump e) |>.

Definition event_arx_connupdate (e : arx) (outn fn_core : Z) (L : libst)
    : option (option (list flextcp_event) * libst) :=
  let conn := arx_opaque e in
  let L := set_lconn conn (fun c => c <| lc_fn_core := fn_core |>) L in
  let c := lconn L conn in
  match lc_status c with
  | LCONN_OPEN_REQUESTED | LCONN_ACCEPT_REQUESTED =>
      _ ← cassert (arx_tx_bump e =? 0);
      Some (Some [], set_lconn conn (early_update e) L)
  | LCONN_CLOSED | LCONN_CLOSE_REQUESTED => Some (Some [], L)
  | LCONN_OPEN =>
      if outn <? evs_needed c e then Some (None, L)
      else
        '(evs, L) ← tx_bumped conn (arx_tx_bump e) (tx_avail_ev c (arx_tx_bump e))
                      (set_lconn conn (rx_update (arx_rx_bump e)) L);
        let evs := rx_events conn c (arx_rx_bump e) ++ evs in
        Some (if arx_eos e
              then (Some (evs ++ [EV_CONN_RXCLOSED conn]),
                    set_lconn conn (fun c => c <| rx_closed := true |>) L)
              else (Some evs, L))
  end.

Definition queue_next (q n : Z) : Z := if q + 1 <? n then q + 1 else 0.

(** Freeing the entry at [pos] and moving the head of the queue. *)
Definition rxq_free (q pos : Z) (L : libst) : libst :=
  let len := rxq_len (l_ctx L) in
  upd_queue q (fun x =>
    x <| rxq ::= fun r => <[pos := (r !!! pos) <| arx_type := 0 |>]> r |>
      <| rxq_head := ring_wrap len (rxq_head x) sizeof_arx |>) L.

(** One queue of [fastpath_poll]; [true]: ran out of space.  The loop ends when the queue is
    empty; an entry need not give an event, so that the number of entries is the bound. *)
Fixpoint fastpath_queue (fuel : nat) (num i q : Z) (L : libst)
    : option (bool * list flextcp_event * libst) :=
  if num <=? i then Some (false, [], L)
  else
    let head := rxq_head (lqueue L q) in
    let e := rxq (lqueue L q) !!! head in
    if arx_type e =? 0 then Some (false, [], L)
    else
      match fuel with
      | O => None
      | S fuel =>
          '(r, L) ← (if arx_type e =? FLEXTCP_PL_ARX_CONNUPDATE
                     then event_arx_connupdate e (num - i) q L else Some (Some [], L));
          let L := or_flags CTX_FLAG_POLL_EVENTS L in
          match r with
          | None => Some (true, [], L)
          | Some evs =>
              '(out, evs', L) ← fastpath_queue fuel num (i + Z.of_nat (length evs)) q (rxq_free q head L);
              Some (out, evs ++ evs', L)
          end
      end.

(** The entries of a queue. *)
Definition rxq_fuel (L : libst) : nat := Z.to_nat (rxq_len (l_ctx L) / sizeof_arx).

(** The result [true]: returned -1. *)
Fixpoint fastpath_poll_loop (k : nat) (num i : Z) (L : libst)
    : option (bool * list flextcp_event * libst) :=
  match k with
  | O => Some (false, [], L)
  | S k =>
      if num <=? i then Some (false, [], L)
      else
        '(out, evs, L) ← fastpath_queue (rxq_fuel L) num i (next_queue (l_ctx L)) L;
        if out : bool then Some (true, evs, L)
        else
          let L := upd_lctx (fun x => x <| next_queue := ring_wrap (num_queues x) (next_queue x) 1 |>) L in
          '(out, evs', L) ← fastpath_poll_loop k num (i + Z.of_nat (length evs)) L;
          Some (out, evs ++ evs', L)
  end.

Definition fastpath_poll (num : Z) (L : libst) : option (bool * list flextcp_event * libst) :=
  fastpath_poll_loop (Z.to_nat (num_queues (l_ctx L))) num 0 L.

(** *** The version that looks at all queues first *)

(** One pass over the queues from [q]: the next entry of each is collected while there is
    [room]. *)
Fixpoint vec_pass (k : nat) (room : Z) (q : Z) (L : libst) (qheads : gmap Z Z)
    (arxs : list (Z * Z)) : gmap Z Z * list (Z * Z) :=
  match k with
  | O => (qheads, arxs)
  | S k =>
      if room <=? Z.of_nat (length arxs) then (qheads, arxs)
      else
        let head := qheads !!! q in
        let q' := queue_next q (num_queues (l_ctx L)) in
        if arx_type (rxq (lqueue L q) !!! head) =? FLEXTCP_PL_ARX_CONNUPDATE
        then vec_pass k room q' L (<[q := ring_wrap (rxq_len (l_ctx L)) head sizeof_arx]> qheads)
               (arxs ++ [(q, head)])
        else vec_pass k room q' L qheads arxs
  end.

(** Passes until one finds nothing; each one that goes on adds an entry. *)
Fixpoint vec_collect (fuel : nat) (room : Z) (L : libst) (qheads : gmap Z Z)
    (arxs : list (Z * Z)) : gmap Z Z * list (Z * Z) :=
  match fuel with
  | O => (qheads, arxs)
  | S fuel =>
      let '(qheads', arxs') :=
        vec_pass (Z.to_nat (num_queues (l_ctx L))) room (next_queue (l_ctx L)) L qheads arxs in
      if (length arxs' <=? length arxs)%nat || (room <=? Z.of_nat (length arxs')) then (qheads', arxs')
      else vec_collect fuel room L qheads' arxs'
  end.

(** The collected entries are handled in order.  The result has the last queue. *)
Fixpoint vec_handle (arxs : list (Z * Z)) (num i q : Z) (L : libst)
    : option (bool * list flextcp_event * Z * libst) :=
  match arxs with
  | [] => Some (false, [], q, L)
  | (q', pos) :: arxs =>
      if num <=? i then Some (false, [], q, L)
      else
        let e := rxq (lqueue L q') !!! pos in
        _ ← cassert (negb (arx_type e =? 0));
        '(r, L) ← (if arx_type e =? FLEXTCP_PL_ARX_CONNUPDATE
                   then event_arx_connupdate e (num - i) q' L else Some (Some [], L));
        match r with
        | None => Some (true, [], q', L)
        | Some evs =>
            '(out, evs', q, L) ← vec_handle arxs num (i + Z.of_nat (length evs)) q' (rxq_free q' pos L);
            Some (out, evs ++ evs', q, L)
        end
  end.

(** [found] and the next queue. *)
Fixpoint vec_loop (fuel : nat) (num i : Z) (found : bool) (qheads : gmap Z Z) (L : libst)
    : option (list flextcp_event * bool * Z * libst) :=
  if num <=? i then Some ([], found, next_queue (l_ctx L), L)
  else
    let '(qheads, arxs) := vec_collect (Z.to_nat num) (num - i) L qheads [] in
    match arxs with
    | [] => Some ([], found, next_queue (l_ctx L), L)
    | _ :: _ =>
        match fuel with
        | O => None
        | S fuel =>
            '(out, evs, q, L) ← vec_handle arxs num i (next_queue (l_ctx L)) L;
            let i := i + Z.of_nat (length evs) in
            let q := queue_next q (num_queues (l_ctx L)) in
            if (out : bool) || (num <=? i) then Some (evs, true, q, L)
            else
              '(evs', found, q, L) ← vec_loop fuel num i true qheads L;
              Some (evs ++ evs', found, q, L)
        end
    end.

(** The heads at the start. *)
Definition vec_heads (L : libst) : gmap Z Z := rxq_head <$> queues (l_ctx L).

Definition vec_fuel (L : libst) : nat :=
  (Z.to_nat (num_queues (l_ctx L)) * rxq_fuel L)%nat.

Definition fastpath_poll_vec (num : Z) (L : libst) : option (list flextcp_event * libst) :=
  '(evs, found, q, L) ← vec_loop (vec_fuel L) num 0 false (vec_heads L) L;
  let L := upd_lctx (fun x => x <| next_queue := q |>) L in
  Some (evs, if found : bool then or_flags CTX_FLAG_POLL_EVENTS L else L).

(** ** Bumps to the fast path *)

(** [txq_probe] for one queue: the entries the fast path has freed. *)
Fixpoint txq_probe_loop (i : nat) (ring : gmap Z atx) (len avail pos : Z) : Z :=
  match i with
  | O => avail
  | S i =>
      if negb (avail <? len) then avail
      else if negb (atx_type (ring !!! pos) =? 0) then avail
      else txq_probe_loop i ring len (u32 (avail + sizeof_atx)) (ring_wrap len pos sizeof_atx)
  end.

Definition txq_probe_queue (n q : Z) (L : libst) : libst :=
  let len := txq_len (l_ctx L) in
  let x := lqueue L q in
  if len / 2 <? txq_avail x then L
  else upd_queue q (fun x => x <| txq_avail :=
         txq_probe_loop (Z.to_nat (2 * n)) (txq x) len (txq_avail x)
           (ring_wrap len (txq_tail x) (txq_avail x)) |>) L.

Fixpoint txq_probe_each (k : nat) (n q : Z) (L : libst) : libst :=
  match k with O => L | S k => txq_probe_each k n (q + 1) (txq_probe_queue n q L) end.

Definition txq_probe (n : Z) (L : libst) : libst :=
  txq_probe_each (Z.to_nat (num_queues (l_ctx L))) n 0 L.

(** The offset of the entry, [None] when the queue is full. *)
Definition flextcp_context_tx_alloc (core : Z) (L : libst) : option Z :=
  if txq_avail (lqueue L core) =? 0 then None else Some (txq_tail (lqueue L core)).

Definition flextcp_flexnic_kick (core : Z) (L : libst) : libst :=
  if poll_cycle_tas info =? UINT64_MAX then L
  else
    let L := if poll_cycle_tas info <? u64 (now - lq_last_ts (lqueue L core))
             then upd_lctx (fun x => x <| kicks ::= cons core |>) L else L in
    upd_queue core (fun x => x <| lq_last_ts := now |>) L.

Definition flextcp_context_tx_done (core : Z) (L : libst) : libst :=
  let len := txq_len (l_ctx L) in
  flextcp_flexnic_kick core (upd_queue core (fun x =>
    x <| txq_tail := ring_wrap len (txq_tail x) sizeof_atx |>
      <| txq_avail := u32 (txq_avail x - sizeof_atx) |>) L).

(** The entry for the bumps of a connection. *)
Definition bump_entry (c : flextcp_connection) : atx :=
  mk_atx FLEXTCP_PL_ATX_CONNUPDATE (rxb_bump c) (txb_bump c) (lc_flow_id c) (u16 (lc_bump_seq c))
    (if txeos_alloc c then FLEXTCP_PL_ATX_FLTXDONE else 0).

Definition bump_sent (conn pos : Z) (L : libst) : libst :=
  let c := lconn L conn in
  let core := lc_fn_core c in
  let L := upd_queue core (fun x => x <| txq ::= <[pos := bump_entry c]> |>) L in
  let L := flextcp_context_tx_done core L in
  let L := set_lconn conn (fun c =>
             c <| lc_bump_seq := u32 (lc_bump_seq c + 1) |> <| rxb_bump := 0 |> <| txb_bump := 0 |>
               <| bump_pending := false |>) L in
  let next := bump_next (lconn L conn) in
  upd_lctx (fun x => x <| bump_pending_last := if next =? 0 then 0 else bump_pending_last x |>
                       <| bump_pending_first := next |>) L.

Fixpoint conns_bump_loop (fuel : nat) (L : libst) : option libst :=
  let c := bump_pending_first (l_ctx L) in
  if c =? 0 then Some L
  else
    match fuel with
    | O => None
    | S fuel =>
        _ ← cassert (bool_decide (lc_status (lconn L c) = LCONN_OPEN));
        match flextcp_context_tx_alloc (lc_fn_core (lconn L c)) L with
        | None => Some L
        | Some pos => conns_bump_loop fuel (bump_sent c pos L)
        end
    end.

Definition conns_bump (L : libst) : option libst := conns_bump_loop (size (l_conns L)) L.

(** ** Polling *)

Definition flextcp_context_poll (num : Z) (L : libst) : option (list flextcp_event * libst) :=
  let L := or_flags CTX_FLAG_POLL_CALLED L in
  '(full, evs, L) ← kernel_poll num L;
  if full : bool then Some (evs, L)
  else
    '(evs', L) ← fastpath_poll_vec (num - Z.of_nat (length evs)) L;
    L ← conns_bump (txq_probe num L);
    Some (evs ++ evs', L).

(** ** Blocking *)

(** [f] without the bits of [mask]. *)
Definition flags_clear (f mask : Z) : Z := Z.land f (Z.lxor 4294967295 mask).
Definition set_ctx_flags (f : Z) (L : libst) : libst := upd_lctx (fun x => x <| lx_flags := f |>) L.

(** [true]: returned 0, the caller may wait. *)
Definition flextcp_context_canwait (L : libst) : bool * libst :=
  let f := lx_flags (l_ctx L) in
  if poll_cycle_app info =? UINT64_MAX then (false, L)
  else if negb (Z.land f CTX_FLAG_POLL_EVENTS =? 0) then
    (false, set_ctx_flags (flags_clear f (Z.lor CTX_FLAG_POLL_EVENTS
                                            (Z.lor CTX_FLAG_WANTWAIT CTX_FLAG_LASTWAIT))) L)
  else if negb (Z.land f CTX_FLAG_WANTWAIT =? 0) then
    (false,
     if poll_cycle_app info <? u64 (now - last_inev_ts (l_ctx L))
     then set_ctx_flags (Z.lor (flags_clear f (Z.lor CTX_FLAG_POLL_CALLED CTX_FLAG_WANTWAIT))
                           CTX_FLAG_LASTWAIT) L
     else L)
  else if negb (Z.land f CTX_FLAG_LASTWAIT =? 0) then
    (negb (Z.land f CTX_FLAG_POLL_CALLED =? 0), L)
  else if negb (Z.land f CTX_FLAG_POLL_CALLED =? 0) then
    (false, upd_lctx (fun x => x <| last_inev_ts := now |>)
              (set_ctx_flags (Z.lor f CTX_FLAG_WANTWAIT) L))
  else (false, L).

(** After the read of the event count. *)
Definition flextcp_context_waitclear (L : libst) : libst :=
  set_ctx_flags (flags_clear (lx_flags (l_ctx L))
    (Z.lor CTX_FLAG_WANTWAIT (Z.lor CTX_FLAG_LASTWAIT CTX_FLAG_POLL_CALLED))) L.

(** [polled] is whether [poll] succeeds; the result [true] is the return value 0. *)
Definition flextcp_context_wait (polled : bool) (L : libst) : bool * libst :=
  let '(can, L) := flextcp_context_canwait L in
  if negb can then (false, L)
  else if negb polled then (false, L)
  else (true, flextcp_context_waitclear L).

End Poll.
