(* ===== verification/LibProofs.v ===== *)
(** * Connections of the library: lemmas

    The two buffers of a connection are windows of byte streams ([tx_rep], [rx_rep]); the
    operations move the positions.  Then the list of pending updates. *)

From S2P Require Import Prelude FpTypes Links FlowTx SpTypes SpState TcpConnProofs LibTypes.
From S2P Require Import LibConn LibPoll.

(** ** States *)

Lemma lconn_set p f L : lconn (set_lconn p f L) p = f (lconn L p).
Proof. unfold lconn, set_lconn. cbn [l_conns setf]. by rewrite lookup_total_insert_eq. Qed.
Lemma lconn_set_ne p q f L : q <> p -> lconn (set_lconn p f L) q = lconn L q.
Proof. intros Hn. unfold lconn, set_lconn. cbn [l_conns setf]. by rewrite lookup_total_insert_ne. Qed.
Lemma lconn_upd_lctx p f L : lconn (upd_lctx f L) p = lconn L p.
Proof. done. Qed.
#[export] Hint Rewrite lconn_set lconn_upd_lctx : lib.

(** A bump mark changes only the links of connections. *)
Lemma conn_mark_bump_conn {A} (f : flextcp_connection -> A) conn p L :
  (forall c v, f (c <| bump_next := v |>) = f c) -> (forall c v, f (c <| bump_prev := v |>) = f c) ->
  (forall c v, f (c <| bump_pending := v |>) = f c) ->
  f (lconn (conn_mark_bump conn L) p) = f (lconn L p).
Proof.
  intros Hn Hp Hb. unfold conn_mark_bump.
  destruct (bump_pending (lconn L conn)); [done|]. cbv zeta.
  assert (E1 : forall M, f (lconn (set_lconn conn (fun c => c <| bump_pending := true |>) M) p) = f (lconn M p)).
  { intros M. destruct (decide (p = conn)) as [->|Hne];
      [by rewrite lconn_set, Hb|by rewrite lconn_set_ne]. }
  rewrite E1, lconn_upd_lctx.
  set (c_prev := bump_pending_last (l_ctx L)).
  assert (E2 : f (lconn (set_lconn conn (fun c => c <| bump_next := 0 |> <| bump_prev := c_prev |>) L) p) = f (lconn L p)).
  { destruct (decide (p = conn)) as [->|Hne]; [by rewrite lconn_set, Hp, Hn|by rewrite lconn_set_ne]. }
  destruct (negb (c_prev =? 0)); [|exact E2]. rewrite <-E2.
  destruct (decide (p = c_prev)) as [Ep|Hne]; [by rewrite Ep, lconn_set, Hn|by rewrite lconn_set_ne].
Qed.

(** ** Positions *)

(** Moving an offset [h] by [d]: the loop-free wrap of the code. *)
Lemma wrap_pos n k h d : 0 < n -> 0 <= h < n -> h = k mod n -> 0 <= d <= n ->
  (if n <=? h + d then h + d - n else h + d) = (k + d) mod n.
Proof.
  intros Hn Hh Hk Hd. pose proof (Z.div_mod k n ltac:(lia)) as Ek.
  destruct (Z.leb_spec n (h + d)).
  - apply Zmod_unique with (q := k / n + 1); lia.
  - apply Zmod_unique with (q := k / n); lia.
Qed.

Lemma mod_shift n k h j : 0 < n -> h = k mod n -> 0 <= j -> 0 <= h -> h + j < n -> (k + j) mod n = h + j.
Proof.
  intros Hn -> Hj Hh Hlt. pose proof (Z.div_mod k n ltac:(lia)) as Ek.
  symmetry. apply Zmod_unique with (q := k / n); lia.
Qed.

(** Different bytes of a window are at different places. *)
Lemma window_inj n i j : 0 < n -> i mod n = j mod n -> i <= j < i + n -> i = j.
Proof.
  intros Hn Hm Hw.
  assert (Hd : (j - i) mod n = 0) by (rewrite Zminus_mod, Hm, Z.sub_diag; apply Z.mod_0_l; lia).
  rewrite Z.mod_small in Hd by lia. lia.
Qed.

(** ** The transmit buffer *)

(** [A] bytes are acknowledged, [S] sent and [N] allocated. *)
Record tx_rep (c : flextcp_connection) (A S N : Z) : Prop := mk_tx_rep {
  tr_len : 0 < txb_len c < 2147483648;
  tr_le : 0 <= A <= S /\ S <= N <= A + txb_len c;
  tr_head : txb_head c = S mod txb_len c;
  tr_sent : txb_sent c = S - A;
  tr_alloc : txb_allocated c = N - S }.

Lemma tx_rep_head c A S N : tx_rep c A S N -> 0 <= txb_head c < txb_len c.
Proof. intros [Hl _ Hh _ _]. rewrite Hh. apply Z.mod_pos_bound. lia. Qed.

Lemma tx_rep_allocbytes c A S N : tx_rep c A S N -> conn_tx_allocbytes c = A + txb_len c - N.
Proof.
  intros [Hl Hle _ Hs Ha]. unfold conn_tx_allocbytes. rewrite Hs, Ha, u32_id by cside. lia.
Qed.

Lemma tx_rep_advance c A S N d : tx_rep c A S N -> 0 <= d <= txb_len c ->
  txb_advance c d = (S + d) mod txb_len c.
Proof.
  intros H Hd. pose proof (tx_rep_head _ _ _ _ H) as Hh. destruct H as [Hl Hle Hhead Hs Ha].
  unfold txb_advance. rewrite (u32_id (txb_head c + d)) by cside.
  rewrite <-(wrap_pos (txb_len c) S (txb_head c) d) by (lia || done).
  destruct (Z.leb_spec (txb_len c) (txb_head c + d)); [|done]. by rewrite u32_id by cside.
Qed.

Lemma tx_rep_alloc_head c A S N : tx_rep c A S N -> alloc_head c = N mod txb_len c.
Proof.
  intros H. pose proof (tx_rep_head _ _ _ _ H) as Hh. destruct H as [Hl Hle Hhead Hs Ha].
  unfold alloc_head. rewrite Ha, (u32_id (txb_head c + (N - S))) by cside.
  transitivity ((S + (N - S)) mod txb_len c); [|f_equal; lia].
  rewrite <-(wrap_pos (txb_len c) S (txb_head c) (N - S)) by (lia || done).
  destruct (Z.leb_spec (txb_len c) (txb_head c + (N - S))); [|done]. by rewrite u32_id by cside.
Qed.

(** Fields of the transmit buffer. *)
Definition same_tx (c c' : flextcp_connection) : Prop :=
  txb_len c' = txb_len c /\ txb_head c' = txb_head c /\ txb_sent c' = txb_sent c
  /\ txb_allocated c' = txb_allocated c.

Lemma tx_rep_same c c' A S N : same_tx c c' -> tx_rep c A S N -> tx_rep c' A S N.
Proof. intros (E1 & E2 & E3 & E4) [Hl Hle Hh Hs Ha]. constructor; by rewrite ?E1, ?E2, ?E3, ?E4. Qed.

Lemma conn_mark_bump_tx conn L : same_tx (lconn L conn) (lconn (conn_mark_bump conn L) conn).
Proof. repeat split; by apply conn_mark_bump_conn. Qed.

Lemma conn_mark_bump_flags conn L :
  lc_flags (lconn (conn_mark_bump conn L) conn) = lc_flags (lconn L conn)
  /\ txb_base (lconn (conn_mark_bump conn L) conn) = txb_base (lconn L conn)
  /\ txb_bump (lconn (conn_mark_bump conn L) conn) = txb_bump (lconn L conn)
  /\ rxb_bump (lconn (conn_mark_bump conn L) conn) = rxb_bump (lconn L conn)
  /\ bump_pending (lconn (conn_mark_bump conn L) conn) = true.
Proof.
  repeat split; try by apply conn_mark_bump_conn.
  unfold conn_mark_bump. destruct (bump_pending (lconn L conn)) eqn:Eb; [done|]. by rewrite lconn_set.
Qed.

(** *** Operations *)

(** What an allocation of up to [len] bytes gets: [n] bytes of the stream, in a row. *)
Lemma tx_alloc_rep conn len L A S N r buf L' :
  tx_rep (lconn L conn) A S N -> 0 <= len -> txeos (lconn L conn) = false ->
  flextcp_connection_tx_alloc conn len L = (r, buf, L') ->
  0 <= r <= len /\ r <= A + txb_len (lconn L conn) - N
  /\ (0 < len -> N < A + txb_len (lconn L conn) -> 0 < r)
  /\ tx_rep (lconn L' conn) A S (N + r)
  /\ (forall j, 0 <= j < r -> buf + j = txb_base (lconn L conn) + (N + j) mod txb_len (lconn L conn)).
Proof.
  intros H Hl0 Heos. unfold flextcp_connection_tx_alloc. rewrite Heos. unfold alloc_len.
  rewrite (tx_rep_allocbytes _ _ _ _ H), (tx_rep_alloc_head _ _ _ _ H).
  set (c := lconn L conn) in *.
  assert (Hm := Z.mod_pos_bound N (txb_len c) ltac:(destruct H; lia)).
  set (n1 := if _ <? len then _ else len). set (r0 := if _ <? _ then _ else n1).
  assert (Hn1 : 0 <= n1 <= len /\ n1 <= A + txb_len c - N /\ (0 < len -> N < A + txb_len c -> 0 < n1)).
  { destruct H. subst n1. destruct (Z.ltb_spec (A + txb_len c - N) len); lia. }
  assert (Hr0 : 0 <= r0 <= n1 /\ N mod txb_len c + r0 <= txb_len c /\ (0 < n1 -> 0 < r0)).
  { destruct H. subst r0. destruct (Z.ltb_spec (txb_len c) (N mod txb_len c + n1)); [|lia].
    rewrite u32_id by cside. lia. }
  clearbody n1 r0. intros [= <- <- <-]. rewrite lconn_set. destruct H as [Hl Hle Hh Hs Ha].
  split; [lia|]. split; [lia|]. split; [lia|]. split.
  - constructor; cbn [txb_len txb_head txb_sent txb_allocated setf]; fold c; try done; [lia|].
    rewrite Ha, u32_id by cside. lia.
  - intros j Hj. rewrite (mod_shift _ N (N mod txb_len c) j) by (lia || done). lia.
Qed.

Lemma tx_send_rep conn len L A S N r L' :
  tx_rep (lconn L conn) A S N -> 0 <= len ->
  flextcp_connection_tx_send conn len L = (r, L') ->
  (r = -1 /\ L' = L /\ N - S < len)
  \/ (r = 0 /\ len <= N - S /\ tx_rep (lconn L' conn) A (S + len) N
      /\ txb_bump (lconn L' conn) = u32 (txb_bump (lconn L conn) + len)
      /\ bump_pending (lconn L' conn) = true).
Proof.
  intros H Hl0. unfold flextcp_connection_tx_send, conn_tx_sendbytes.
  pose proof (tr_alloc _ _ _ _ H) as Ha.
  destruct (Z.ltb_spec (txb_allocated (lconn L conn)) len); [intros [= <- <-]; left; split_and!; (lia || done)|].
  intros [= <- <-]. right. split; [done|]. split; [lia|].
  pose proof (conn_mark_bump_flags conn) as Hmark.
  match goal with |- context [conn_mark_bump conn ?M] => set (M1 := M) end.
  destruct (Hmark M1) as (_ & _ & Hb & _ & Hp). split; [|split; [|done]].
  - eapply tx_rep_same; [apply conn_mark_bump_tx|]. unfold M1. rewrite lconn_set.
    set (c := lconn L conn) in *. pose proof (tx_rep_advance c A S N len H) as Hadv.
    destruct H as [Hl Hle Hh Hs _].
    constructor; cbn [txb_len txb_head txb_sent txb_allocated setf]; try done; [lia|by apply Hadv; lia| |].
    + rewrite Hs, u32_id by cside. lia.
    + rewrite Ha, u32_id by cside. lia.
  - rewrite Hb. unfold M1. by rewrite lconn_set.
Qed.

(** ** Closing the transmit stream *)

(** The FIN takes a place in the stream behind the data: it is asked for (flag TXEOS), gets
    its place when there is room (TXEOS_ALLOC), and is acknowledged (TXEOS_ACK). *)
Inductive eos_ok (c : flextcp_connection) (A S N : Z) : Prop :=
| eos_open : lc_flags c = 0 -> eos_ok c A S N
| eos_wait : lc_flags c = 1 -> N = S -> S = A + txb_len c -> eos_ok c A S N
| eos_sent : lc_flags c = 3 -> N = S -> A < S -> eos_ok c A S N
| eos_acked : lc_flags c = 7 -> N = S -> A = S -> eos_ok c A S N.

Lemma pushtxeos_rep conn L A S N :
  tx_rep (lconn L conn) A S N -> lc_flags (lconn L conn) = 1 -> N = S ->
  exists r L', flextcp_conn_pushtxeos conn L = Some (r, L')
  /\ ((r = -1 /\ L' = L /\ S = A + txb_len (lconn L conn))
      \/ (r = 0 /\ S < A + txb_len (lconn L conn)
          /\ tx_rep (lconn L' conn) A (S + 1) (N + 1) /\ lc_flags (lconn L' conn) = 3)).
Proof.
  intros H Hf ->. unfold flextcp_conn_pushtxeos, conn_tx_sendbytes.
  pose proof (tx_rep_allocbytes _ _ _ _ H) as Hab. pose proof (tr_alloc _ _ _ _ H) as Ha.
  rewrite Hab, Ha, Z.sub_diag. unfold txeos. rewrite Hf. cbn [cassert mbind option_bind has_flag Z.eqb].
  change (has_flag 1 CONN_FLAG_TXEOS) with true. cbn [cassert mbind option_bind].
  destruct (Z.eqb_spec (A + txb_len (lconn L conn) - S) 0).
  - eexists _, _. split; [done|]. left. split_and!; (done || lia).
  - eexists _, _. split; [done|]. right. split; [done|].
    match goal with |- context [conn_mark_bump conn ?M] => set (M1 := M) end.
    pose proof (tx_rep_advance _ _ _ _ 1 H) as Hadv.
    destruct H as [Hl Hle Hh Hs _]. split; [lia|].
    destruct (conn_mark_bump_flags conn M1) as (Hfl & _). split.
    + eapply tx_rep_same; [apply conn_mark_bump_tx|]. unfold M1. rewrite lconn_set.
      constructor; cbn [txb_len txb_head txb_sent txb_allocated setf]; try done; [lia|by apply Hadv; lia| |].
      * rewrite Hs, u32_id by cside. lia.
      * rewrite Ha. lia.
    + rewrite Hfl. unfold M1. rewrite lconn_set. cbn [lc_flags setf]. by rewrite Hf.
Qed.

Lemma tx_close_rep conn L A S N :
  tx_rep (lconn L conn) A S N -> eos_ok (lconn L conn) A S N ->
  exists r L' d, flextcp_connection_tx_close conn L = Some (r, L')
  /\ ((r = -1 /\ L' = L) \/ (r = 0 /\ N = S))
  /\ 0 <= d <= 1 /\ tx_rep (lconn L' conn) A (S + d) (N + d)
  /\ eos_ok (lconn L' conn) A (S + d) (N + d).
Proof.
  intros H He. unfold flextcp_connection_tx_close, conn_tx_sendbytes.
  assert (Hstay : exists r L' d, Some (-1, L) = Some (r, L')
    /\ ((r = -1 /\ L' = L) \/ (r = 0 /\ N = S))
    /\ 0 <= d <= 1 /\ tx_rep (lconn L' conn) A (S + d) (N + d)
    /\ eos_ok (lconn L' conn) A (S + d) (N + d)).
  { exists (-1), L, 0. rewrite !Z.add_0_r. split_and!; (done || lia || (by left) || done). }
  pose proof (tr_alloc _ _ _ _ H) as Ha.
  destruct (Z.ltb_spec 0 (txb_allocated (lconn L conn))); [exact Hstay|].
  destruct (txeos (lconn L conn)) eqn:Eeos; [exact Hstay|].
  assert (HN : N = S) by (destruct H; lia).
  assert (Hf0 : lc_flags (lconn L conn) = 0) by
    (unfold txeos in Eeos; destruct He as [?|Hf|Hf|Hf]; [done|by rewrite Hf in Eeos..]).
  match goal with |- context [flextcp_conn_pushtxeos conn ?M] => set (M1 := M) end.
  assert (H1 : tx_rep (lconn M1 conn) A S N /\ lc_flags (lconn M1 conn) = 1
               /\ txb_len (lconn M1 conn) = txb_len (lconn L conn)).
  { unfold M1. rewrite lconn_set. split_and!; [|cbn [lc_flags setf]; by rewrite Hf0|done].
    eapply tx_rep_same; [|exact H]. by repeat split. }
  destruct H1 as (H1 & Hf1 & Hl1).
  destruct (pushtxeos_rep conn M1 A S N H1 Hf1 HN) as (r & L' & -> & Hr). cbn [mbind option_bind].
  destruct Hr as [(-> & -> & Hfull)|(-> & Hroom & Hrep & Hfl)].
  - exists 0, M1, 0. rewrite !Z.add_0_r. split_and!; try (done || lia); by apply eos_wait.
  - exists 0, L', 1. split_and!; try (done || lia).
    apply eos_sent; [done|lia|]. destruct H; lia.
Qed.

(** ** The receive buffer *)

(** [R] bytes have arrived, the application is done with [D] of them.  The head may be at
    the end of the buffer, after updates that came before the connection was open. *)
Record rx_rep (c : flextcp_connection) (R D : Z) : Prop := mk_rx_rep {
  rr_len : 0 < rxb_len c < 2147483648;
  rr_le : 0 <= D <= R /\ R <= D + rxb_len c;
  rr_head : 0 <= rxb_head c <= rxb_len c /\ rxb_head c mod rxb_len c = R mod rxb_len c;
  rr_used : rxb_used c = R - D }.

(** The addresses of the bytes of a connection that events hand to the application. *)
Definition event_bytes (conn : Z) (ev : flextcp_event) : list Z :=
  match ev with
  | EV_CONN_RECEIVED c buf len => if c =? conn then seqZ buf len else []
  | _ => []
  end.
Definition events_bytes (conn : Z) (evs : list flextcp_event) : list Z :=
  concat (map (event_bytes conn) evs).

Lemma events_bytes_app conn l l' :
  events_bytes conn (l ++ l') = events_bytes conn l ++ events_bytes conn l'.
Proof. unfold events_bytes. by rewrite map_app, concat_app. Qed.

(** The addresses of the bytes [k] to [k + m - 1] of the stream. *)
Definition rx_addrs (c : flextcp_connection) (k m : Z) : list Z :=
  (fun j => rxb_base c + (k + j) mod rxb_len c) <$> seqZ 0 m.

Lemma rx_addrs_app c k m m' : 0 <= m -> 0 <= m' ->
  rx_addrs c k (m + m') = rx_addrs c k m ++ rx_addrs c (k + m) m'.
Proof.
  intros Hm Hm'. unfold rx_addrs. rewrite seqZ_app, fmap_app by done. f_equal.
  rewrite Z.add_0_l. rewrite <-(Z.add_0_r m) at 1. rewrite <-fmap_add_seqZ, <-list_fmap_compose.
  apply list_fmap_ext. intros i x Hx. cbn. do 2 f_equal. lia.
Qed.

Lemma rx_addrs_seq c k m h : 0 < rxb_len c -> 0 <= h -> h mod rxb_len c = k mod rxb_len c ->
  h + m <= rxb_len c -> rx_addrs c k m = seqZ (rxb_base c + h) m.
Proof.
  intros Hl Hh Hm Hb. unfold rx_addrs. rewrite <-(Z.add_0_r (rxb_base c + h)), <-fmap_add_seqZ.
  apply list_fmap_ext. intros i x Hx. apply lookup_seqZ in Hx as [-> Hi].
  rewrite <-Z.add_mod_idemp_l, <-Hm, Z.add_mod_idemp_l by lia. rewrite Z.mod_small by lia. lia.
Qed.

Lemma rx_events_bytes conn c R D b : rx_rep c R D -> 0 <= b <= D + rxb_len c - R ->
  events_bytes conn (rx_events conn c b) = rx_addrs c R b.
Proof.
  intros [Hl Hle [Hh Hm] Hu] Hb. unfold rx_events, rx_wraps. rewrite (u32_id (rxb_head c + b)) by cside.
  destruct (Z.ltb_spec 0 b); cbn [negb]; [|by replace b with 0 by lia].
  destruct (Z.ltb_spec (rxb_len c) (rxb_head c + b)).
  - rewrite (u32_id (rxb_len c - rxb_head c)), u32_id by (rewrite ?u32_id; cside).
    unfold events_bytes. cbn [map concat event_bytes]. rewrite Z.eqb_refl, app_nil_r.
    replace b with ((rxb_len c - rxb_head c) + (b - (rxb_len c - rxb_head c))) at 2 by lia.
    rewrite rx_addrs_app by lia. f_equal.
    + symmetry. apply rx_addrs_seq; (done || lia).
    + symmetry. rewrite (rx_addrs_seq _ _ _ 0); [by rewrite Z.add_0_r|lia..| |lia].
      rewrite Z.mod_0_l by lia. rewrite <-Z.add_mod_idemp_l, <-Hm, Z.add_mod_idemp_l by lia.
      replace (rxb_head c + (rxb_len c - rxb_head c)) with (rxb_len c) by lia. by rewrite Z_mod_same_full.
  - unfold events_bytes. cbn [map concat event_bytes]. rewrite Z.eqb_refl, app_nil_r.
    symmetry. by apply rx_addrs_seq; (done || lia).
Qed.

Lemma rx_update_rep c R D b : rx_rep c R D -> 0 <= b <= D + rxb_len c - R ->
  rx_rep (rx_update b c) (R + b) D.
Proof.
  intros [Hl Hle [Hh Hm] Hu] Hb. unfold rx_update. destruct (Z.ltb_spec 0 b); cbn [negb];
    [|replace b with 0 by lia; rewrite Z.add_0_r; by constructor].
  constructor; cbn [rxb_len rxb_head rxb_used setf]; try done; [lia| |rewrite Hu, u32_id by cside; lia].
  unfold ring_wrap. rewrite u32_id by cside. rewrite <-(Z.add_mod_idemp_l R b), <-Hm, Z.add_mod_idemp_l by lia.
  destruct (Z.leb_spec (rxb_len c) (rxb_head c + b)); [|split; [lia|done]]. split; [lia|].
  rewrite <-(Z_mod_plus_full _ 1 (rxb_len c)). f_equal. lia.
Qed.

(** The number of events for received bytes. *)
Lemma rx_events_len conn c b :
  Z.of_nat (length (rx_events conn c b))
  = if 0 <? b then 1 + (if rx_wraps c b then 1 else 0) else 0.
Proof. unfold rx_events. destruct (0 <? b); [|done]. by destruct (rx_wraps c b). Qed.

(** ** Acknowledged bytes *)

Definition same_rx (c c' : flextcp_connection) : Prop :=
  rxb_len c' = rxb_len c /\ rxb_head c' = rxb_head c /\ rxb_used c' = rxb_used c
  /\ rxb_base c' = rxb_base c /\ lc_status c' = lc_status c.

#[export] Instance same_rx_preorder : PreOrder same_rx.
Proof.
  split; [by repeat split|]. intros x y z (?&?&?&?&?) (?&?&?&?&?). unfold same_rx. split_and!; congruence.
Qed.

Lemma rx_rep_same c c' R D : same_rx c c' -> rx_rep c R D -> rx_rep c' R D.
Proof. intros (E1 & E2 & E3 & _ & _) [Hl Hle Hh Hu]. constructor; by rewrite ?E1, ?E2, ?E3. Qed.

Lemma conn_mark_bump_rx conn L : same_rx (lconn L conn) (lconn (conn_mark_bump conn L) conn).
Proof. repeat split; by apply conn_mark_bump_conn. Qed.

Lemma pushtxeos_rx conn L r L' :
  flextcp_conn_pushtxeos conn L = Some (r, L') -> same_rx (lconn L conn) (lconn L' conn).
Proof.
  intros H. unfold flextcp_conn_pushtxeos in H. cbv zeta in H. cstep H.
  destruct (conn_tx_allocbytes _ =? 0); injection H as <- <-; [done|].
  etransitivity; [|apply conn_mark_bump_rx]. rewrite lconn_set. by repeat split.
Qed.

(** [tx_bumped] never fails: the assertions hold, and the FIN gets its place ([d]) once the
    full buffer has room. *)
Definition ack_events (conn t : Z) (av : bool) (f A S : Z) : list flextcp_event :=
  (if (0 <? t) && av then [EV_CONN_SENDBUF conn] else [])
  ++ (if (f =? 3) && (A + t =? S) then [EV_CONN_TXCLOSED conn] else []).

Lemma tx_bumped_rep conn t av L A S N :
  tx_rep (lconn L conn) A S N -> eos_ok (lconn L conn) A S N -> 0 <= t <= S - A ->
  let d := if (lc_flags (lconn L conn) =? 1) && (0 <? t) then 1 else 0 in
  exists L', tx_bumped conn t av L = Some (ack_events conn t av (lc_flags (lconn L conn)) A S, L')
  /\ tx_rep (lconn L' conn) (A + t) (S + d) (N + d)
  /\ eos_ok (lconn L' conn) (A + t) (S + d) (N + d)
  /\ same_rx (lconn L conn) (lconn L' conn).
Proof.
  intros H He Ht. unfold tx_bumped, ack_events. destruct (Z.ltb_spec 0 t); cbn [negb andb app].
  2:{ exists L. assert (t = 0) as -> by lia. rewrite andb_false_r, !Z.add_0_r. split_and!; try done.
      destruct He as [E|E HN HS|E HN HS|E HN HS]; rewrite E; try done. cbn [andb].
      by rewrite (proj2 (Z.eqb_neq A S)) by lia. }
  set (M1 := set_lconn conn _ L).
  assert (H1 : tx_rep (lconn M1 conn) (A + t) S N).
  { unfold M1. rewrite lconn_set. destruct H as [Hl Hle Hh Hs Ha].
    constructor; cbn [txb_len txb_head txb_sent txb_allocated setf]; try done; [lia|].
    rewrite Hs, u32_id by cside. lia. }
  assert (Hsr : same_rx (lconn L conn) (lconn M1 conn)) by (unfold M1; rewrite lconn_set; by repeat split).
  assert (Hf : lc_flags (lconn M1 conn) = lc_flags (lconn L conn)) by (unfold M1; by rewrite lconn_set).
  unfold txeos, txeos_alloc. rewrite Hf.
  destruct He as [E|E HN HS|E HN HS|E HN HS]; rewrite E.
  - change (has_flag 0 CONN_FLAG_TXEOS) with false. change (has_flag 0 CONN_FLAG_TXEOS_ALLOC) with false.
    cbn [negb andb Z.eqb]. exists M1. rewrite !Z.add_0_r, app_nil_r. split_and!; try done.
    apply eos_open. by rewrite Hf, E.
  - change (has_flag 1 CONN_FLAG_TXEOS) with true. change (has_flag 1 CONN_FLAG_TXEOS_ALLOC) with false.
    change (1 =? 3) with false. change (1 =? 1) with true. cbn [negb andb]. assert (Hf1 : lc_flags (lconn M1 conn) = 1) by (rewrite Hf; done).
    destruct (pushtxeos_rep conn M1 _ S N H1 Hf1 HN) as (r & L' & Ep & Hr). rewrite Ep. cbn [mbind option_bind].
    assert (Hl1 : txb_len (lconn M1 conn) = txb_len (lconn L conn)) by (unfold M1; by rewrite lconn_set).
    destruct Hr as [(_ & _ & Hfull)|(-> & Hroom & Hrep & Hfl)]; [exfalso; rewrite Hl1 in Hfull; lia|].
    cbn [cassert mbind option_bind Z.eqb]. exists L'. rewrite app_nil_r. split_and!; try done.
    + apply eos_sent; [done|lia|]. destruct H; lia.
    + etransitivity; [exact Hsr|]. by eapply pushtxeos_rx.
  - change (has_flag 3 CONN_FLAG_TXEOS) with true. change (has_flag 3 CONN_FLAG_TXEOS_ALLOC) with true.
    change (has_flag 3 CONN_FLAG_TXEOS_ACK) with false. change (3 =? 3) with true.
    change (3 =? 1) with false. cbn [negb andb cassert mbind option_bind].
    rewrite (tr_sent _ _ _ _ H1), !Z.add_0_r.
    destruct (Z.eqb_spec (A + t) S) as [Ez|Nz], (Z.eqb_spec (S - (A + t)) 0); try lia.
    + eexists. split; [done|]. rewrite lconn_set. split_and!; try done.
      * eapply tx_rep_same; [|exact H1]. by repeat split.
      * apply eos_acked; [cbn [lc_flags setf]; by rewrite Hf, E|lia|lia].
    + exists M1. rewrite app_nil_r. split_and!; try done. apply eos_sent; [by rewrite Hf, E|lia|lia].
  - exfalso. lia.
Qed.

(** * The bump list and the queues to the fast path

    A connection with bytes to report is in the list of the context; [conns_bump] turns
    the list, first to last, into entries of the queues to the cores of the fast path. *)

(** ** The list *)

Definition bnext (L : libst) (c : Z) : Z := bump_next (lconn L c).

(** The connections of the list. *)
Record bumps (L : libst) (l : list Z) : Prop := mk_bumps {
  bu_path : path (bnext L) (bump_pending_first (l_ctx L)) l 0;
  bu_last : bump_pending_last (l_ctx L) = default 0 (last l);
  bu_nodup : NoDup l;
  bu_nonnull : 0 ∉ l;
  bu_pending : forall c, bump_pending (lconn L c) = true <-> c ∈ l }.

Lemma bumps_dom L l c : bumps L l -> c ∈ l -> is_Some (l_conns L !! c).
Proof.
  intros H Hc. apply (bu_pending _ _ H) in Hc. unfold lconn in Hc. rewrite lookup_total_alt in Hc.
  by destruct (l_conns L !! c); [eexists|].
Qed.

Lemma lconn_set_eq p f L q : lconn (set_lconn p f L) q = if q =? p then f (lconn L p) else lconn L q.
Proof.
  destruct (Z.eqb_spec q p) as [->|]; [apply lconn_set|by apply lconn_set_ne].
Qed.

(** Marking puts a connection at the end, once. *)
Lemma conn_mark_bump_bumps L l conn : bumps L l -> conn <> 0 ->
  bumps (conn_mark_bump conn L) (if decide (conn ∈ l) then l else l ++ [conn]).
Proof.
  intros H Hn0. unfold conn_mark_bump. pose proof (bu_pending _ _ H conn) as Hp.
  destruct (bump_pending (lconn L conn)) eqn:Eb.
  { rewrite decide_True; [done|]. by apply Hp. }
  assert (Hnin : conn ∉ l) by (intros Hx; apply Hp in Hx; congruence). rewrite decide_False by done. clear Hp Eb.
  destruct H as [Hpa Hla Hnd H0 Hpe]. cbv zeta.
  set (cp := bump_pending_last (l_ctx L)) in *.
  assert (Hlast : (cp = 0 /\ l = []) \/ exists B, l = B ++ [cp] /\ cp <> 0).
  { destruct (last l) as [x|] eqn:El; [|left; by apply last_None in El; subst].
    right. apply last_Some in El as [B ->]. exists B. rewrite Hla. split; [done|].
    cbn. intros ->. apply H0, elem_of_app. right. by apply list_elem_of_singleton. }
  assert (Hcpn : cp <> conn).
  { destruct Hlast as [[-> _]|(B & -> & _)]; [done|]. intros ->. apply Hnin, elem_of_app. right.
    by apply list_elem_of_singleton. }
  set (L2 := set_lconn conn (fun c => c <| bump_next := 0 |> <| bump_prev := cp |>) L).
  set (L3 := if negb (cp =? 0) then _ else _).
  set (L4 := set_lconn conn _ _).
  assert (E4 : forall q, lconn L4 q = if q =? conn then (lconn L3 conn) <| bump_pending := true |> else lconn L3 q)
    by (intros q; unfold L4; by rewrite lconn_set_eq).
  assert (Hnx : forall q, bnext L4 q = if q =? conn then 0
                                       else if (q =? cp) && negb (cp =? 0) then conn else bnext L q).
  { intros q. unfold bnext. rewrite E4.
    assert (E3 : forall q, bump_next (lconn L3 q) = if q =? conn then 0
                  else if (q =? cp) && negb (cp =? 0) then conn else bump_next (lconn L q)).
    { intros q'. unfold L3. destruct (Z.eqb_spec cp 0) as [Ec|Ec]; cbn [negb].
      - rewrite lconn_upd_lctx. unfold L2. rewrite lconn_set_eq, andb_false_r.
        destruct (Z.eqb_spec q' conn); by subst.
      - rewrite andb_true_r, lconn_set_eq. destruct (Z.eqb_spec q' cp) as [->|]; cbn [bump_next setf].
        + by rewrite (proj2 (Z.eqb_neq _ _) Hcpn).
        + unfold L2. rewrite lconn_set_eq. destruct (Z.eqb_spec q' conn); by subst. }
    destruct (Z.eqb_spec q conn) as [->|Hq]; cbn [bump_next setf].
    - by rewrite E3, Z.eqb_refl.
    - rewrite E3. by rewrite (proj2 (Z.eqb_neq _ _) Hq). }
  assert (Hpend : forall q, bump_pending (lconn L4 q) = if q =? conn then true else bump_pending (lconn L q)).
  { intros q. rewrite E4. destruct (Z.eqb_spec q conn) as [|Hq]; [done|]. unfold L3. destruct (negb (cp =? 0)).
    - rewrite lconn_set_eq. destruct (Z.eqb_spec q cp) as [->|].
      + cbn [bump_pending setf]. unfold L2. by rewrite lconn_set_eq, (proj2 (Z.eqb_neq _ _) Hq).
      + unfold L2. by rewrite lconn_set_eq, (proj2 (Z.eqb_neq _ _) Hq).
    - rewrite lconn_upd_lctx. unfold L2. by rewrite lconn_set_eq, (proj2 (Z.eqb_neq _ _) Hq). }
  assert (Hfirst : bump_pending_first (l_ctx L4) = if negb (cp =? 0) then bump_pending_first (l_ctx L) else conn)
    by (unfold L4, L3; by destruct (negb (cp =? 0))).
  constructor.
  - rewrite Hfirst. destruct Hlast as [[Ec ->]|(B & -> & Ec)].
    + rewrite Ec. cbn. split; [done|]. by rewrite Hnx, Z.eqb_refl.
    + rewrite (proj2 (Z.eqb_neq _ _) Ec). cbn [negb]. apply NoDup_app in Hnd as (HndB & HB & _).
      rewrite <-app_assoc. cbn [app]. apply path_app in Hpa as (m & HpB & -> & Hnx0).
      apply path_app. exists cp. split.
      * eapply path_ext; [|exact HpB]. intros x Hx. rewrite Hnx.
        assert (x <> conn) by (intros ->; apply Hnin, elem_of_app; by left).
        assert (x <> cp) by (intros ->; eapply HB; [done|by apply list_elem_of_singleton]).
        by rewrite (proj2 (Z.eqb_neq x conn)), (proj2 (Z.eqb_neq x cp)).
      * split; [done|]. rewrite Hnx, (proj2 (Z.eqb_neq _ _) Hcpn), Z.eqb_refl, (proj2 (Z.eqb_neq _ _) Ec).
        cbn. split; [done|]. by rewrite Hnx, Z.eqb_refl.
  - by rewrite last_snoc.
  - apply NoDup_app. split; [done|]. split; [|apply NoDup_singleton].
    intros x Hx ->%list_elem_of_singleton. done.
  - intros [Hx|Hx%list_elem_of_singleton]%elem_of_app; [done|by subst].
  - intros q. rewrite Hpend, elem_of_app, list_elem_of_singleton. destruct (Z.eqb_spec q conn); [naive_solver|].
    rewrite Hpe. naive_solver.
Qed.

Lemma bump_prev_search fuel h c cp :
  bump_prev_find fuel h c cp = prev_search (fun x => bump_next (h !!! x)) fuel c cp.
Proof.
  revert cp. induction fuel as [|fuel IH]; intros cp; [done|]. cbn [bump_prev_find prev_search].
  by rewrite IH.
Qed.

(** Closing takes a connection out of the list; the list must have another one. *)
Lemma bump_remove_bumps L A conn B : bumps L (A ++ conn :: B) -> A ++ B <> [] ->
  exists L', bump_remove conn L = Some L' /\ bumps L' (A ++ B).
Proof.
  intros H Hne. pose proof H as [Hpa Hla Hnd H0 Hpe]. unfold bump_remove.
  assert (Hin : conn ∈ A ++ conn :: B) by (apply elem_of_app; right; apply list_elem_of_here).
  rewrite (proj2 (Hpe conn) Hin). cbn [negb].
  pose proof (path_remove _ _ _ _ _ _ Hnd Hpa) as Hp'.
  assert (Hnd' : NoDup (A ++ B) /\ conn ∉ A ++ B).
  { rewrite <-(Permutation_middle A B conn) in Hnd. apply NoDup_cons in Hnd as [? ?]. done. }
  destruct Hnd' as [Hnd' Hnin].
  assert (Hsub : forall d, d ∈ A ++ B -> d ∈ A ++ conn :: B)
    by (intros d; rewrite !elem_of_app, elem_of_cons; tauto).
  assert (Hpend : forall M, (forall q, bump_pending (lconn M q) = bump_pending (lconn L q)) ->
    forall q, bump_pending (lconn (set_lconn conn (fun c => c <| bump_pending := false |>) M) q) = true <-> q ∈ A ++ B).
  { intros M HM q. rewrite lconn_set_eq. destruct (Z.eqb_spec q conn) as [->|Hq]; [by split|].
    rewrite HM, Hpe, !elem_of_app, elem_of_cons. naive_solver. }
  destruct (Z.eqb_spec conn (bump_pending_first (l_ctx L))) as [Ef|Ef].
  - assert (A = []) as ->.
    { destruct A as [|x A]; [done|]. destruct Hpa as [Ex _]. exfalso. cbn in Hnin.
      rewrite elem_of_cons in Hnin. apply Hnin. left. congruence. }
    cbn [app] in *. cbn [mbind option_bind]. eexists. split; [done|]. constructor; [| |done|..].
    + rewrite elem_of_cons in H0. eapply path_ext; [|exact Hp']. intros x Hx. unfold bnext.
      rewrite lconn_set_eq. by destruct (Z.eqb_spec x conn) as [->|].
    + cbn [l_ctx set_lconn upd_lctx bump_pending_last setf]. rewrite Hla, last_cons.
      destruct (last B) eqn:EB; [done|]. by apply last_None in EB as ->.
    + intros Hx. by apply H0, Hsub.
    + by apply Hpend.
  - assert (Hl : (length A <= S (size (l_conns L)))%nat).
    { pose proof (length_le_size (l_conns L) (A ++ conn :: B) Hnd (fun d Hd => bumps_dom _ _ _ H Hd)) as Hl.
      rewrite length_app in Hl. lia. }
    rewrite bump_prev_search, (prev_search_ok (bnext L) _ conn A B) by (done || congruence).
    destruct (last A) as [p|] eqn:El; cbn [default from_option id mbind option_bind].
    2: { apply last_None in El as ->. destruct Hpa as [Hx _]. congruence. }
    apply last_Some in El as [A' ->].
    assert (HpA : p ∈ (A' ++ [p]) ++ B) by (rewrite !elem_of_app, list_elem_of_singleton; tauto).
    assert (Hpn : p <> 0) by (intros ->; by apply H0, Hsub).
    assert (Hpc : p <> conn) by (intros ->; done).
    rewrite (proj2 (Z.eqb_neq p 0) Hpn). cbn [negb cassert mbind option_bind].
    set (M := set_lconn p _ L). set (M2 := if _ =? 0 then _ else M).
    eexists. split; [done|].
    assert (HM : forall q, lconn M2 q = if q =? p then (lconn L p) <| bump_next := bnext L conn |> else lconn L q).
    { intros q. unfold M2, M. destruct (_ =? 0); rewrite ?lconn_upd_lctx; by rewrite lconn_set_eq. }
    assert (EB : bump_next (lconn L conn) = default 0 (head B)).
    { apply path_app in Hpa as (m & _ & -> & Hb). by apply path_head in Hb. }
    constructor; [| |done|..].
    + assert (Ef' : bump_pending_first (l_ctx (set_lconn conn (fun c => c <| bump_pending := false |>) M2))
                    = bump_pending_first (l_ctx L)) by (unfold M2, M; by destruct (_ =? 0)).
      rewrite Ef'. eapply path_ext; [|exact Hp']. intros x Hx. unfold bnext, fupd. rewrite lconn_set_eq, !HM.
      assert (x <> conn) by (intros ->; done). rewrite (proj2 (Z.eqb_neq x conn)) by done.
      by destruct (Z.eqb_spec x p) as [->|].
    + assert (El' : bump_pending_last (l_ctx (set_lconn conn (fun c => c <| bump_pending := false |>) M2))
                    = if bump_next (lconn L conn) =? 0 then p else bump_pending_last (l_ctx L))
        by (unfold M2, M; by destruct (_ =? 0)).
      rewrite El', EB, Hla. destruct B as [|b B]; cbn [head from_option id].
      * change (0 =? 0) with true. cbv iota. by rewrite app_nil_r, last_snoc.
      * assert (b <> 0) by (intros ->; apply H0; rewrite !elem_of_app, !elem_of_cons; tauto).
        rewrite (proj2 (Z.eqb_neq b 0)) by done. by rewrite !last_app, !last_cons; destruct (last B).
    + intros Hx. by apply H0, Hsub.
    + apply Hpend. intros q. rewrite HM. by destruct (Z.eqb_spec q p) as [->|].
Qed.

(** ** The queues to the fast path *)

Definition atx_free (e : atx) : bool := atx_type e =? 0.

(** The queue to core [q] has [n] entries; [pend] are those the fast path has not freed,
    from [tl] on.  [txq_avail] counts at most the free ones. *)
Record txq_rep (n : Z) (L : libst) (q tl : Z) (pend : list atx) : Prop := mk_txq_rep {
  tq_len : txq_len (l_ctx L) = 16 * n /\ 0 < n < 134217728;
  tq_ring : ring_of atx_free 16 n (txq (lqueue L q)) tl (txq_tail (lqueue L q)) pend;
  tq_avail : exists a, txq_avail (lqueue L q) = 16 * a /\ 0 <= a <= n - Z.of_nat (length pend) }.

Lemma lqueue_upd q f L p : lqueue (upd_queue q f L) p = if p =? q then f (lqueue L q) else lqueue L p.
Proof.
  unfold lqueue, upd_queue. cbn [l_ctx queues setf]. destruct (Z.eqb_spec p q) as [->|];
    [by rewrite lookup_total_insert_eq|by rewrite lookup_total_insert_ne].
Qed.

Lemma ring_wrap_adv n pos s : 0 <= pos < s * n -> 0 < s -> s * n + s < 4294967296 ->
  ring_wrap (s * n) pos s = ring_adv s n pos.
Proof. intros Hp Hs Hn. unfold ring_wrap, ring_adv. by rewrite u32_id by cside. Qed.

Section Bump.
Context (info : flexnic_info) (now : Z).

Lemma tx_done_lconn core L p : lconn (flextcp_context_tx_done info now core L) p = lconn L p.
Proof. unfold flextcp_context_tx_done, flextcp_flexnic_kick. by repeat case_match. Qed.

(** The effect of one step of [conns_bump]. *)
Lemma bump_sent_conn conn pos L p :
  lconn (bump_sent info now conn pos L) p
  = if p =? conn
    then (lconn L conn) <| lc_bump_seq := u32 (lc_bump_seq (lconn L conn) + 1) |> <| rxb_bump := 0 |>
           <| txb_bump := 0 |> <| bump_pending := false |>
    else lconn L p.
Proof.
  unfold bump_sent. cbv zeta. rewrite lconn_upd_lctx, lconn_set_eq.
  rewrite !tx_done_lconn. by destruct (p =? conn).
Qed.

Lemma bump_sent_first conn pos L :
  bump_pending_first (l_ctx (bump_sent info now conn pos L)) = bnext L conn
  /\ bump_pending_last (l_ctx (bump_sent info now conn pos L))
     = if bnext L conn =? 0 then 0 else bump_pending_last (l_ctx L).
Proof.
  assert (En : forall M, (forall p, lconn M p = lconn L p) ->
    bump_next (lconn (set_lconn conn (fun c =>
             c <| lc_bump_seq := u32 (lc_bump_seq c + 1) |> <| rxb_bump := 0 |> <| txb_bump := 0 |>
               <| bump_pending := false |>) M) conn) = bnext L conn)
    by (intros M HM; rewrite lconn_set; unfold bnext; by rewrite <-HM).
  unfold bump_sent. cbv zeta. cbn [l_ctx upd_lctx setf bump_pending_first bump_pending_last].
  rewrite En by (intros p; by rewrite tx_done_lconn).
  unfold flextcp_context_tx_done, flextcp_flexnic_kick. by repeat case_match.
Qed.

Lemma bump_sent_queue conn pos L p :
  let q := lc_fn_core (lconn L conn) in
  exists ts, lqueue (bump_sent info now conn pos L) p
  = if p =? q
    then (lqueue L q) <| txq ::= <[pos := bump_entry (lconn L conn)]> |>
           <| txq_tail := ring_wrap (txq_len (l_ctx L)) (txq_tail (lqueue L q)) sizeof_atx |>
           <| txq_avail := u32 (txq_avail (lqueue L q) - sizeof_atx) |> <| lq_last_ts := ts |>
    else lqueue L p.
Proof.
  intros q. unfold bump_sent. cbv zeta. fold q.
  set (L1 := upd_queue q _ L).
  assert (E1 : lqueue (flextcp_context_tx_done info now q L1) p
    = lqueue (upd_lctx (fun x => x) (flextcp_context_tx_done info now q L1)) p) by done.
  match goal with |- exists ts, lqueue ?M p = _ =>
    change (lqueue M p) with (lqueue (flextcp_context_tx_done info now q L1) p) end.
  clear E1. unfold flextcp_context_tx_done. set (L2 := upd_queue q _ L1).
  assert (E2 : lqueue L2 p = if p =? q
    then (lqueue L q) <| txq ::= <[pos := bump_entry (lconn L conn)]> |>
           <| txq_tail := ring_wrap (txq_len (l_ctx L)) (txq_tail (lqueue L q)) sizeof_atx |>
           <| txq_avail := u32 (txq_avail (lqueue L q) - sizeof_atx) |> else lqueue L p).
  { unfold L2, L1. rewrite !lqueue_upd, Z.eqb_refl. by destruct (p =? q). }
  assert (Hid : forall ts, lq_last_ts (lqueue L q) = ts -> lqueue L2 p = if p =? q
    then (lqueue L q) <| txq ::= <[pos := bump_entry (lconn L conn)]> |>
           <| txq_tail := ring_wrap (txq_len (l_ctx L)) (txq_tail (lqueue L q)) sizeof_atx |>
           <| txq_avail := u32 (txq_avail (lqueue L q) - sizeof_atx) |> <| lq_last_ts := ts |>
    else lqueue L p) by (intros ts <-; rewrite E2; by destruct (p =? q)).
  unfold flextcp_flexnic_kick. destruct (poll_cycle_tas info =? UINT64_MAX); [by eexists; apply Hid|].
  exists now. rewrite lqueue_upd. destruct (Z.eqb_spec p q) as [Epq|Hne].
  - assert (Eq : lqueue (if poll_cycle_tas info <? u64 (now - lq_last_ts (lqueue L2 q))
                  then upd_lctx (fun x => x <| kicks ::= cons q |>) L2 else L2) q = lqueue L2 q)
      by (by destruct (_ <? _)).
    rewrite Eq. rewrite Epq in E2. by rewrite E2.
  - rewrite <-E2. by destruct (_ <? _).
Qed.

Lemma bump_sent_len conn pos L :
  txq_len (l_ctx (bump_sent info now conn pos L)) = txq_len (l_ctx L).
Proof.
  unfold bump_sent, flextcp_context_tx_done, flextcp_flexnic_kick. cbv zeta. by repeat case_match.
Qed.

(** Sending a bump: one more entry at the end of the queue of the connection's core. *)
Lemma bump_sent_rep n conn L q tl pend :
  let core := lc_fn_core (lconn L conn) in
  txq_rep n L q tl pend -> txq_avail (lqueue L core) <> 0 ->
  txq_rep n (bump_sent info now conn (txq_tail (lqueue L core)) L) q tl
    (if q =? core then pend ++ [bump_entry (lconn L conn)] else pend).
Proof.
  intros core [[Hlen Hn] Hr (a & Ha & Hab)] Hav.
  destruct (bump_sent_queue conn (txq_tail (lqueue L core)) L q) as [ts Eq]. fold core in Eq.
  assert (Hpos : q = core -> 1 <= a) by (intros ->; lia).
  constructor; [by rewrite bump_sent_len| |]; rewrite Eq; destruct (Z.eqb_spec q core) as [E|]; try done;
    [| |by exists a]; specialize (Hpos E); subst q; cbn [txq txq_tail txq_avail setf].
  - rewrite Hlen. change sizeof_atx with 16. rewrite ring_wrap_adv by (try lia; by eapply ring_of_hd).
    apply ring_of_push; [lia|done| |done]. apply (ring_of_room _ _ _ _ _ _ _ (proj1 Hn) Hr). lia.
  - exists (a - 1). change sizeof_atx with 16. rewrite Ha, u32_id by cside. rewrite length_app. cbn [length]. lia.
Qed.

Lemma bump_sent_bumps conn l pos L : bumps L (conn :: l) -> bumps (bump_sent info now conn pos L) l.
Proof.
  intros [[Hf Hp] Hla Hnd H0 Hpe]. apply NoDup_cons in Hnd as [Hnin Hnd].
  destruct (bump_sent_first conn pos L) as [Ef El]. constructor; [| |done|..].
  - rewrite Ef. eapply path_ext; [|exact Hp]. intros x Hx. unfold bnext. rewrite bump_sent_conn.
    by destruct (Z.eqb_spec x conn) as [->|].
  - rewrite El, Hla, last_cons. destruct l as [|b l].
    + cbn in Hp. by rewrite Hp.
    + destruct Hp as [Hpb _]. rewrite Hpb, (proj2 (Z.eqb_neq b 0)); [by rewrite last_cons; destruct (last l)|].
      intros ->. apply H0. rewrite !elem_of_cons. tauto.
  - rewrite elem_of_cons in H0. tauto.
  - intros c. rewrite bump_sent_conn. destruct (Z.eqb_spec c conn) as [->|Hc]; [by split|].
    rewrite Hpe, elem_of_cons. naive_solver.
Qed.

(** The update that tells the fast path the bumps of a connection, their number, and whether
    the end of the stream is among the bytes to send. *)
Definition bump_update (c : flextcp_connection) : atx :=
  mk_atx FLEXTCP_PL_ATX_CONNUPDATE (rxb_bump c) (txb_bump c) (lc_flow_id c) (lc_bump_seq c mod 65536)
    (if has_flag (lc_flags c) CONN_FLAG_TXEOS_ALLOC then FLEXTCP_PL_ATX_FLTXDONE else 0).

(** The connection after it: the next number, and nothing pending. *)
Definition bump_done (c : flextcp_connection) : flextcp_connection :=
  c <| lc_bump_seq := u32 (lc_bump_seq c + 1) |> <| rxb_bump := 0 |> <| txb_bump := 0 |>
    <| bump_pending := false |>.

(** The entries [conns_bump] writes for the connections [l] to core [q]. *)
Definition bump_entries (L : libst) (q : Z) (l : list Z) : list atx :=
  (fun c => bump_update (lconn L c)) <$> filter (fun c => lc_fn_core (lconn L c) = q) l.

(** What is left of the list, and why. *)
Record bumped (n : Z) (nq : Z) (L L' : libst) (tl : Z -> Z) (pend : Z -> list atx) (l1 l2 : list Z)
    : Prop := mk_bumped {
  bd_bumps : bumps L' l2;
  bd_rep : forall q, 0 <= q < nq -> txq_rep n L' q (tl q) (pend q ++ bump_entries L q l1);
  bd_sent : forall c, c ∈ l1 -> lconn L' c = bump_done (lconn L c);
  bd_other : forall c, c ∉ l1 -> lconn L' c = lconn L c;
  bd_rest : l2 = [] \/ exists c, head l2 = Some c /\ txq_avail (lqueue L' (lc_fn_core (lconn L c))) = 0 }.

Lemma conns_bump_loop_ok n nq fuel L tl pend l :
  bumps L l -> (forall c, c ∈ l -> lc_status (lconn L c) = LCONN_OPEN /\ 0 <= lc_fn_core (lconn L c) < nq) ->
  (forall q, 0 <= q < nq -> txq_rep n L q (tl q) (pend q)) -> (length l <= fuel)%nat ->
  exists L' l1 l2, conns_bump_loop info now fuel L = Some L' /\ l = l1 ++ l2 /\ bumped n nq L L' tl pend l1 l2.
Proof.
  revert fuel L pend. induction l as [|c l IH]; intros fuel L pend Hb Hst Hq Hfu.
  { exists L, [], []. assert (Ef := bu_path _ _ Hb). cbn in Ef.
    split; [destruct fuel; cbn [conns_bump_loop]; by rewrite Ef|]. split; [done|].
    constructor; try done; [|by intros c ?%not_elem_of_nil|by left]. intros q Hr. unfold bump_entries. cbn. rewrite app_nil_r. by apply Hq. }
  destruct fuel as [|fuel]; [cbn in Hfu; lia|].
  destruct (Hst c ltac:(apply list_elem_of_here)) as [Hs Hco].
  assert (Ef : bump_pending_first (l_ctx L) = c) by (by destruct (bu_path _ _ Hb)).
  assert (Hc0 : c <> 0) by (intros ->; apply (bu_nonnull _ _ Hb), list_elem_of_here).
  cbn [conns_bump_loop]. rewrite Ef, (proj2 (Z.eqb_neq c 0) Hc0), bool_decide_true by done.
  cbn [cassert mbind option_bind]. unfold flextcp_context_tx_alloc.
  destruct (Z.eqb_spec (txq_avail (lqueue L (lc_fn_core (lconn L c)))) 0) as [Ea|Na].
  { exists L, [], (c :: l). split; [done|]. split; [done|]. constructor; try done; [|by intros d ?%not_elem_of_nil|right; by exists c].
    intros q Hr. unfold bump_entries. cbn. rewrite app_nil_r. by apply Hq. }
  set (L1 := bump_sent info now c _ L).
  assert (Hnin : c ∉ l) by (by pose proof (bu_nodup _ _ Hb) as [? _]%NoDup_cons).
  assert (H1 : forall d, d ∈ l -> lconn L1 d = lconn L d).
  { intros d Hd. unfold L1. rewrite bump_sent_conn. destruct (Z.eqb_spec d c) as [->|]; done. }
  destruct (IH fuel L1 (fun q => if q =? lc_fn_core (lconn L c) then pend q ++ [bump_entry (lconn L c)] else pend q))
    as (L' & l1 & l2 & -> & -> & Hd).
  { by apply bump_sent_bumps. }
  { intros d Hd. rewrite H1 by done. apply Hst. by apply list_elem_of_further. }
  { intros q Hr. apply bump_sent_rep; [by apply Hq|done]. }
  { cbn in Hfu. lia. }
  exists L', (c :: l1), l2. split; [done|]. split; [done|]. destruct Hd as [Hb' Hr' Hse Hot Hre].
  assert (Hl1 : forall d, d ∈ l1 -> lconn L1 d = lconn L d) by (intros d Hd; apply H1, elem_of_app; by left).
  assert (Hl2 : forall d, d ∈ l2 -> lconn L1 d = lconn L d) by (intros d Hd; apply H1, elem_of_app; by right).
  assert (Hc1 : c ∉ l1) by (intros Hx; apply Hnin, elem_of_app; by left).
  constructor; [done|..].
  - intros q Hr. specialize (Hr' q Hr).
    assert (E : bump_entries L1 q l1 = bump_entries L q l1).
    { unfold bump_entries. clear -Hl1. induction l1 as [|d l1 IH]; [done|].
      rewrite !filter_cons, (Hl1 d) by apply list_elem_of_here.
      destruct (decide _); cbn; rewrite ?(Hl1 d) by apply list_elem_of_here;
        rewrite IH; [done|intros x Hx; apply Hl1; by apply list_elem_of_further
                    |done|intros x Hx; apply Hl1; by apply list_elem_of_further]. }
    rewrite E in Hr'. unfold bump_entries in *. rewrite filter_cons.
    destruct (Z.eqb_spec q (lc_fn_core (lconn L c))) as [Eq|Nq].
    + rewrite decide_True by done. cbn. by rewrite <-app_assoc in Hr'.
    + by rewrite decide_False by done.
  - intros d [->|Hd]%elem_of_cons; [|by rewrite Hse, Hl1]. rewrite Hot by done. unfold L1.
    by rewrite bump_sent_conn, Z.eqb_refl.
  - intros d Hd. rewrite elem_of_cons in Hd. rewrite Hot by tauto. unfold L1. rewrite bump_sent_conn.
    rewrite (proj2 (Z.eqb_neq d c)) by tauto. done.
  - destruct Hre as [->|(d & Hh & Hav)]; [by left|right]. exists d. split; [done|].
    rewrite <-Hl2; [done|]. destruct l2; [done|]. injection Hh as ->. apply list_elem_of_here.
Qed.
End Bump.
