(* ===== verification/AppLink.v ===== *)
(** * An application and the slow path

    The library and the slow path share the rings [kin] and [kout] of a context.  Here the
    two models run on the same rings: a step of one side is followed by the other side
    seeing the new rings. *)

From S2P Require Import Prelude FpTypes SpTypes Links PacketMem Timeout Cc NicFlow.
From S2P Require Import FlowTx SpState TcpConn Arp AppNotify Tcp Listen AppCtx AppCtxThms.
From S2P Require Import LibTypes LibConn LibPoll LibProofs ArpThms.

(** ** Requests *)

(** A call of the library that may put a request. *)
Inductive request : Type :=
| ReqListenOpen (lst port backlog flags : Z) | ReqAccept (lst conn : Z)
| ReqOpen (conn dst_ip dst_port : Z) | ReqClose (conn : Z) | ReqMove (conn : Z)
| ReqListenMove (lst : Z) | ReqFork | ReqScale (cores : Z).

Definition do_request (info : flexnic_info) (now : Z) (r : request) (L : libst) : option (Z * libst) :=
  match r with
  | ReqListenOpen lst port backlog flags => Some (flextcp_listen_open info now lst port backlog flags L)
  | ReqAccept lst conn => Some (flextcp_listen_accept info now lst conn L)
  | ReqOpen conn ip port => Some (flextcp_connection_open info now conn ip port L)
  | ReqClose conn => flextcp_connection_close info now conn L
  | ReqMove conn => Some (flextcp_connection_move info now conn L)
  | ReqListenMove lst => Some (flextcp_listen_move info now lst L)
  | ReqFork => Some (flextcp_kernel_fork info now L)
  | ReqScale cores => Some (flextcp_kernel_reqscale info now cores L)
  end.

(** What the request says. *)
Definition request_entry (r : request) (L : libst) : kernel_appout :=
  match r with
  | ReqListenOpen lst port backlog flags =>
      APPOUT_LISTEN_OPEN lst backlog port
        (if has_flag flags FLEXTCP_LISTEN_REUSEPORT then KERNEL_APPOUT_LISTEN_REUSEPORT else 0)
  | ReqAccept lst conn => APPOUT_ACCEPT_CONN lst conn (fl_local_port (l_listeners L !!! lst))
  | ReqOpen conn ip port => APPOUT_CONN_OPEN conn ip 0 port
  | ReqClose conn =>
      let c := lconn L conn in
      APPOUT_CONN_CLOSE conn (lc_out_remote_ip c) (lc_out_local_ip c) (lc_in_remote_ip c)
        (lc_in_local_ip c) (lc_tunnel_id c) (lc_remote_port c) (lc_local_port c) 0
  | ReqMove conn =>
      let c := lconn L conn in
      APPOUT_CONN_MOVE conn (lc_out_remote_ip c) (lc_out_local_ip c) (lc_in_remote_ip c)
        (lc_in_local_ip c) (lc_tunnel_id c) (lc_remote_port c) (lc_local_port c) (lx_db_id (l_ctx L))
  | ReqListenMove lst => APPOUT_LISTEN_MOVE lst (fl_local_port (l_listeners L !!! lst)) (lx_db_id (l_ctx L))
  | ReqFork => APPOUT_FORK
  | ReqScale cores => APPOUT_REQ_SCALE cores
  end.

(** The rings of a context of the library. *)
Definition same_rings (L L' : libst) : Prop :=
  lx_kin (l_ctx L') = lx_kin (l_ctx L) /\ kin_head (l_ctx L') = kin_head (l_ctx L)
  /\ lx_kin_len (l_ctx L') = lx_kin_len (l_ctx L) /\ lx_kout (l_ctx L') = lx_kout (l_ctx L)
  /\ kout_head (l_ctx L') = kout_head (l_ctx L) /\ lx_kout_len (l_ctx L') = lx_kout_len (l_ctx L).

#[export] Instance same_rings_preorder : PreOrder same_rings.
Proof.
  split; [by repeat split|]. intros x y z (?&?&?&?&?&?) (?&?&?&?&?&?). unfold same_rings. split_and!; congruence.
Qed.

(** [e] is put into the ring of requests. *)
Definition put_ring (e : kernel_appout) (L L' : libst) : Prop :=
  let x := l_ctx L in let x' := l_ctx L' in
  lx_kin x' = <[kin_head x := e]> (lx_kin x) /\ kin_head x' = ring_next (kin_head x) (lx_kin_len x)
  /\ lx_kin_len x' = lx_kin_len x /\ lx_kout x' = lx_kout x
  /\ kout_head x' = kout_head x /\ lx_kout_len x' = lx_kout_len x.

Lemma kin_put_ring info now e L L0 : same_rings L0 L -> put_ring e L0 (kin_put info now e L).
Proof.
  intros (E1 & E2 & E3 & E4 & E5 & E6). unfold put_ring, kin_put, flextcp_kernel_kick.
  destruct (poll_cycle_tas info <? _); cbn; by rewrite ?E1, ?E2, ?E3, ?E4, ?E5, ?E6.
Qed.

Lemma kin_room_same L0 L : same_rings L0 L -> kin_room L = kin_room L0.
Proof. intros (E1 & E2 & _). unfold kin_room. by rewrite E1, E2. Qed.

(** Leaving the bump list changes only links. *)
Lemma bump_remove_same conn L L' : bump_remove conn L = Some L' ->
  same_rings L L' /\ forall p, exists n b, lconn L' p = (lconn L p) <| bump_next := n |> <| bump_pending := b |>.
Proof.
  intros H. assert (Hid : forall p, exists n b, lconn L p = (lconn L p) <| bump_next := n |> <| bump_pending := b |>)
    by (intros p; exists (bump_next (lconn L p)), (bump_pending (lconn L p)); by destruct (lconn L p)).
  unfold bump_remove in H. destruct (negb _); [injection H as <-; done|].
  cbv zeta in H. destruct (conn =? _); cbn [mbind option_bind] in H.
  - injection H as <-. split; [by repeat split|]. intros p. rewrite lconn_set_eq.
    destruct (Z.eqb_spec p conn) as [->|]; [|apply Hid]. exists (bump_next (lconn L conn)), false.
    rewrite lconn_upd_lctx. by destruct (lconn L conn).
  - cstep H. cstep Ebind. split; [destruct (bump_next _ =? 0); by repeat split|]. intros p.
    assert (Hp : forall p, exists n b, lconn (set_lconn z (fun c => c <| bump_next := bump_next (lconn L conn) |>) L) p
                                     = (lconn L p) <| bump_next := n |> <| bump_pending := b |>).
    { intros p'. rewrite lconn_set_eq. destruct (Z.eqb_spec p' z) as [->|]; [|apply Hid].
      exists (bump_next (lconn L conn)), (bump_pending (lconn L z)). by destruct (lconn L z). }
    rewrite lconn_set_eq.
    assert (Eq : forall q, lconn (if bump_next (lconn L conn) =? 0
        then upd_lctx (fun x => x <| bump_pending_last := z |>)
               (set_lconn z (fun c => c <| bump_next := bump_next (lconn L conn) |>) L)
        else set_lconn z (fun c => c <| bump_next := bump_next (lconn L conn) |>) L) q
      = lconn (set_lconn z (fun c => c <| bump_next := bump_next (lconn L conn) |>) L) q)
      by (intros q; by destruct (bump_next _ =? 0)).
    rewrite !Eq. destruct (Z.eqb_spec p conn) as [->|]; [|apply Hp].
    destruct (Hp conn) as (n & b & ->). exists n, false. by destruct (lconn L conn).
Qed.

(** A request is put when there is room, and else nothing happens to the rings. *)
Lemma do_request_ring info now r L ret L' :
  do_request info now r L = Some (ret, L') ->
  (ret = -1 /\ same_rings L L')
  \/ (ret = 0 /\ kin_room L = true /\ put_ring (request_entry r L) L L').
Proof.
  assert (Hplain : forall M e L0, same_rings L0 M ->
    (if negb (kin_room M) then (-1, M) else (0, kin_put info now e M)) = (ret, L') ->
    (ret = -1 /\ same_rings L0 L') \/ (ret = 0 /\ kin_room L0 = true /\ put_ring e L0 L')).
  { intros M e L0 Hs. rewrite (kin_room_same L0 M Hs). destruct (kin_room L0); cbn [negb]; intros [= <- <-];
      [right; split; [done|]; split; [done|by apply kin_put_ring]|by left]. }
  destruct r; cbn [do_request request_entry]; intros H.
  - apply (inj Some) in H. unfold flextcp_listen_open in H.
    destruct (negb (Z.land flags _ =? 0)); [injection H as <- <-; by left|].
    cbv zeta in H. destruct (kin_room _) eqn:Er; cbn [negb] in H; injection H as <- <-; [|by left].
    right. split; [done|]. split; [done|]. by apply kin_put_ring.
  - apply (inj Some) in H. unfold flextcp_listen_accept in H. cbv zeta in H.
    destruct (kin_room _) eqn:Er; cbn [negb] in H; injection H as <- <-; [|by left].
    right. split; [done|]. split; [done|]. by apply kin_put_ring.
  - apply (inj Some) in H. unfold flextcp_connection_open in H. cbv zeta in H.
    destruct (kin_room _) eqn:Er; cbn [negb] in H; injection H as <- <-; [|by left].
    right. split; [done|]. split; [done|]. by apply kin_put_ring.
  - unfold flextcp_connection_close in H.
    destruct (bump_remove conn L) as [M|] eqn:Eb; cbn [mbind option_bind] in H; [|done].
    apply bump_remove_same in Eb as [Hs Hc]. destruct (Hc conn) as (n & b & Ec). cbv zeta in H.
    rewrite (kin_room_same L M Hs) in H.
    destruct (kin_room L); cbn [negb] in H; injection H as <- <-; [|by left].
    right. split; [done|]. split; [done|]. rewrite lconn_set, Ec. by apply kin_put_ring.
  - apply (inj Some) in H. unfold flextcp_connection_move in H. by apply (Hplain L _ L) in H.
  - apply (inj Some) in H. unfold flextcp_listen_move in H. by apply (Hplain L _ L) in H.
  - apply (inj Some) in H. unfold flextcp_kernel_fork in H. by apply (Hplain L _ L) in H.
  - apply (inj Some) in H. unfold flextcp_kernel_reqscale in H. by apply (Hplain L _ L) in H.
Qed.

(** ** Messages *)

(** What the fast path has delivered of each connection before it is open: the number of
    bytes, and whether the end of the stream. *)
Definition early_of (L : libst) (conn : Z) : Z * bool := (rxb_used (lconn L conn), rx_closed (lconn L conn)).
Definition same_early (L L' : libst) : Prop := forall p, early_of L' p = early_of L p.

#[export] Instance same_early_preorder : PreOrder same_early.
Proof. split; [done|]. intros x y z H1 H2 p. by rewrite H2, H1. Qed.

(** The events for it, with the receive buffer at [buf]. *)
Definition early_data (h : Z -> Z * bool) (conn buf : Z) : list flextcp_event :=
  (if 0 <? (h conn).1 then [EV_CONN_RECEIVED conn buf (h conn).1] else [])
  ++ (if (h conn).2 then [EV_CONN_RXCLOSED conn] else []).

(** All the events for a message: one, and when it opens a connection the data that came
    early. *)
Definition events_for (mem : Z) (h : Z -> Z * bool) (e : kernel_appin) : list flextcp_event :=
  match e with
  | APPIN_INVALID => []
  | APPIN_CONN_OPENED conn s i =>
      EV_CONN_OPEN s conn :: match i with
        | Some i => if s =? 0 then early_data h conn (mem + coi_rx_off i) else []
        | None => [] end
  | APPIN_LISTEN_NEWCONN lst ip port gre => [EV_LISTEN_NEWCONN lst ip port gre]
  | APPIN_ACCEPTED_CONN conn s i =>
      EV_LISTEN_ACCEPT s conn :: match i with
        | Some i => if s =? 0 then early_data h conn (mem + aci_rx_off i) else []
        | None => [] end
  | APPIN_STATUS STATUS_LISTEN_OPEN lst s => [EV_LISTEN_OPEN s lst]
  | APPIN_STATUS STATUS_CONN_MOVE conn s => [EV_CONN_MOVED s conn]
  | APPIN_STATUS STATUS_LISTEN_MOVE lst s => [EV_LISTEN_MOVED s lst]
  | APPIN_STATUS STATUS_CONN_CLOSE conn s => [EV_CONN_CLOSED s conn]
  end.

Lemma events_for_ext mem h h' e : (forall p, h p = h' p) -> events_for mem h e = events_for mem h' e.
Proof. intros H. destruct e as [|[] o s|conn s i|lst ip port gre|conn s i]; cbn; unfold early_data; by rewrite ?H. Qed.

(** A function on connections that leaves the received part alone. *)
Lemma same_early_set conn f L :
  (forall c, rxb_used (f c) = rxb_used c /\ rx_closed (f c) = rx_closed c) -> same_early L (set_lconn conn f L).
Proof.
  intros Hf p. unfold early_of. rewrite lconn_set_eq. destruct (Z.eqb_spec p conn) as [->|]; [|done].
  by destruct (Hf (lconn L conn)) as [-> ->].
Qed.

Lemma kappin_open_told {I} (f : I -> flextcp_connection -> flextcp_connection) base ev conn s i avail L evs L' :
  (forall i c, rxb_used (f i c) = rxb_used c /\ rx_closed (f i c) = rx_closed c /\ rxb_base (f i c) = base i) ->
  kappin_open f ev conn s i avail L = Some (Some evs, L') ->
  evs = ev :: match i with Some i => if s =? 0 then early_data (early_of L) conn (base i) else [] | None => [] end
  /\ same_rings L L' /\ same_early L L'.
Proof.
  intros Hf H. unfold kappin_open in H. destruct (s =? 0); cbn [negb] in H.
  2: { injection H as <- <-. split; [by destruct i|]. split; [done|]. by apply same_early_set. }
  destruct (early_no_space _ _); [done|]. destruct i as [i|]; [|done]. cbn [mbind option_bind] in H.
  destruct (Hf i (lconn L conn)) as (F1 & F2 & F3).
  unfold early_events in H. rewrite lconn_set, F1, F2, F3 in H. injection H as <- <-. split; [done|].
  assert (H1 : same_early L (set_lconn conn (f i) L)) by (apply same_early_set; intros c; by destruct (Hf i c) as (? & ? & _)).
  split; [by destruct (0 <? _)|]. destruct (0 <? _); [|done]. etransitivity; [exact H1|]. by apply same_early_set.
Qed.

Lemma event_kappin_told mem e avail L evs L' :
  event_kappin mem e avail L = Some (Some evs, L') ->
  evs = events_for mem (early_of L) e /\ same_rings L L' /\ same_early L L'.
Proof.
  destruct e as [|[] o s|conn s i|lst ip port gre|conn s i]; cbn [event_kappin]; intros H; try done;
    try (injection H as <- <-; by split_and!).
  - injection H as <- <-. split_and!; [done|done|]. by apply same_early_set.
  - by apply (kappin_open_told (opened_fields mem) (fun i => mem + coi_rx_off i)) in H.
  - by apply (kappin_open_told (accepted_fields mem) (fun i => mem + aci_rx_off i)) in H.
Qed.

Lemma event_kappin_none mem e avail L L' : event_kappin mem e avail L = Some (None, L') -> L' = L.
Proof.
  assert (Hopen : forall I (f : I -> flextcp_connection -> flextcp_connection) ev conn s i,
    kappin_open f ev conn s i avail L = Some (None, L') -> L' = L).
  { intros I f ev conn s i H. unfold kappin_open in H. destruct (negb (s =? 0)); [done|].
    destruct (early_no_space _ _); [by injection H|]. by destruct i. }
  destruct e as [|[] o s|conn s i|lst ip port gre|conn s i]; cbn [event_kappin]; try done; apply Hopen.
Qed.

Lemma ring_next_adv n pos : 0 <= pos < n -> n < 4294967296 -> ring_next pos n = ring_adv 1 n pos.
Proof.
  intros Hp Hn. unfold ring_next, ring_adv. rewrite Z.mul_1_l.
  destruct (decide (pos + 1 = 4294967296)) as [E|]; [lia|]. rewrite u32_id by cside.
  destruct (Z.leb_spec n (pos + 1)); lia.
Qed.

Lemma kernel_poll_ring mem n hd fuel num i L full evs L' R :
  kernel_poll_loop mem fuel num i L = Some (full, evs, L') ->
  lx_kout_len (l_ctx L) = n -> n < 4294967296 ->
  ring_of appin_free 1 n (lx_kout (l_ctx L)) (kout_head (l_ctx L)) hd R ->
  exists R1 R2, R = R1 ++ R2 /\ evs = concat (map (events_for mem (early_of L)) R1)
  /\ ring_of appin_free 1 n (lx_kout (l_ctx L')) (kout_head (l_ctx L')) hd R2
  /\ lx_kout_len (l_ctx L') = n /\ lx_kin (l_ctx L') = lx_kin (l_ctx L)
  /\ kin_head (l_ctx L') = kin_head (l_ctx L) /\ lx_kin_len (l_ctx L') = lx_kin_len (l_ctx L).
Proof.
  revert i L evs R. induction fuel as [|fuel IH]; intros i L evs R H Hlen Hn Hr; cbn [kernel_poll_loop] in H.
  { apply (inj Some), (inj2 pair) in H as [[<- <-]%(inj2 pair) <-]. exists [], R. by split_and!. }
  assert (Hstop : forall b, Some (b, [], L) = Some (full, evs, L') ->
    exists R1 R2, R = R1 ++ R2 /\ evs = concat (map (events_for mem (early_of L)) R1)
    /\ ring_of appin_free 1 n (lx_kout (l_ctx L')) (kout_head (l_ctx L')) hd R2
    /\ lx_kout_len (l_ctx L') = n /\ lx_kin (l_ctx L') = lx_kin (l_ctx L)
    /\ kin_head (l_ctx L') = kin_head (l_ctx L) /\ lx_kin_len (l_ctx L') = lx_kin_len (l_ctx L)).
  { intros b Hb. apply (inj Some), (inj2 pair) in Hb as [[<- <-]%(inj2 pair) <-]. exists [], R. by split_and!. }
  pose proof (ring_of_len_pos _ _ _ _ _ _ _ Hr) as Hn0.
  cbv zeta in H. destruct (appin_free (lx_kout (l_ctx L) !!! kout_head (l_ctx L))) eqn:Ef; [by eapply Hstop|].
  destruct R as [|e R].
  { assert (Hc := proj2 (ring_of_empty _ _ _ _ _ _ _ Hn0 Hr) eq_refl). by rewrite Hc in Ef. }
  rewrite (ring_of_head _ _ _ _ _ _ _ _ Hn0 Hr) in H.
  destruct (event_kappin mem e (num - i) L) as [[[evs1|] L1]|] eqn:Ee; cbn [mbind option_bind] in H; [| |done].
  2: { apply (inj Some), (inj2 pair) in H as [[<- <-]%(inj2 pair) <-]. exists [], (e :: R).
       apply event_kappin_none in Ee as ->. by split_and!. }
  apply event_kappin_told in Ee as (-> & (E1 & E2 & E3 & E4 & E5 & E6) & Hse).
  set (L2 := upd_lctx _ (or_flags _ L1)) in H.
  assert (Hr2 : ring_of appin_free 1 n (lx_kout (l_ctx L2)) (kout_head (l_ctx L2)) hd R).
  { change (lx_kout (l_ctx L2)) with (<[kout_head (l_ctx L) := APPIN_INVALID]> (lx_kout (l_ctx L1))).
    change (kout_head (l_ctx L2)) with (ring_next (kout_head (l_ctx L)) (lx_kout_len (l_ctx L1))).
    rewrite E4, E6, Hlen. assert (Hp := ring_of_tl _ _ _ _ _ _ _ Hr).
    rewrite ring_next_adv by lia. by eapply ring_of_pop. }
  assert (Hs2 : lx_kout_len (l_ctx L2) = n /\ lx_kin (l_ctx L2) = lx_kin (l_ctx L)
    /\ kin_head (l_ctx L2) = kin_head (l_ctx L) /\ lx_kin_len (l_ctx L2) = lx_kin_len (l_ctx L))
    by (split_and!; [rewrite <-Hlen; exact E6|exact E1|exact E2|exact E3]).
  assert (He2 : same_early L L2) by exact Hse.
  destruct Hs2 as (S1 & S2 & S3 & S4). clearbody L2.
  destruct (num <=? i + Z.of_nat (length _)).
  { apply (inj Some), (inj2 pair) in H as [[<- <-]%(inj2 pair) <-]. exists [e], R.
    split_and!; try done. cbn. by rewrite app_nil_r. }
  destruct (kernel_poll_loop mem fuel num _ L2) as [[[full2 evs2] L3]|] eqn:Ek; cbn [mbind option_bind] in H; [|done].
  apply (inj Some), (inj2 pair) in H as [[<- <-]%(inj2 pair) <-].
  destruct (IH _ _ _ _ Ek S1 Hn Hr2) as (R1 & R2 & -> & -> & Hr' & T1 & T2 & T3 & T4).
  exists (e :: R1), R2. split_and!; try done; [|congruence..]. cbn. do 2 f_equal. apply map_ext.
  intros a. by apply events_for_ext.
Qed.

(** ** The two sides together *)

Section Link.
Context (E : fpenv) (config : configuration) (crc : list Z -> Z -> Z).
Context (info : flexnic_info) (flexnic_mem : Z) (app ctx : Z).

(** What one side has written is seen by the other. *)
Definition seen_by_sp (L : libst) (st : spst) : spst :=
  set_ctx ctx (fun x => x <| kin := lx_kin (l_ctx L) |> <| kout := lx_kout (l_ctx L) |>) st.
Definition seen_by_lib (st : spst) (L : libst) : libst :=
  let x := s_ctxs st !!! ctx in upd_lctx (fun y => y <| lx_kin := kin x |> <| lx_kout := kout x |>) L.

(** What happens at the rings: requests put and taken, messages posted; and for each poll
    of the application what had come early, and the events given. *)
Record link_trace : Type := mk_lt {
  lt_put : list kernel_appout; lt_taken : list kernel_appout;
  lt_posted : list kernel_appin; lt_polls : list ((Z -> Z * bool) * list flextcp_event) }.
Definition lt_app (a b : link_trace) : link_trace :=
  mk_lt (lt_put a ++ lt_put b) (lt_taken a ++ lt_taken b) (lt_posted a ++ lt_posted b)
    (lt_polls a ++ lt_polls b).

(** The slow path leaves the rings of the context alone. *)
Definition same_actx (x x' : app_context) : Prop :=
  kin x' = kin x /\ kin_pos x' = kin_pos x /\ kin_len x' = kin_len x
  /\ kout x' = kout x /\ kout_pos x' = kout_pos x /\ kout_len x' = kout_len x.

Inductive link_step : libst * spst -> link_trace -> libst * spst -> Prop :=
| link_request now r L st ret L' :
    do_request info now r L = Some (ret, L') ->
    link_step (L, st) (mk_lt (if ret =? 0 then [request_entry r L] else []) [] [] [])
      (L', seen_by_sp L' st)
| link_kin_poll m scale L st n st' scale' :
    appif_ctx_poll E config crc app ctx m scale st = Some (n, st', scale') ->
    let x := s_ctxs st !!! ctx in
    let e := kout (s_ctxs st' !!! ctx) !!! kout_pos x in
    link_step (L, st)
      (mk_lt [] (if n =? 1 then [kin x !!! kin_pos x] else [])
         (if (n =? 1) && negb (appin_free e) then [e] else []) [])
      (seen_by_lib st' L, st')
| link_post e L st st' :
    kout_room (s_ctxs st !!! ctx) = true -> appin_free e = false -> kout_push ctx e st = Some st' ->
    link_step (L, st) (mk_lt [] [] [e] []) (seen_by_lib st' L, st')
| link_sp L st st' :
    same_actx (s_ctxs st !!! ctx) (s_ctxs st' !!! ctx) ->
    link_step (L, st) (mk_lt [] [] [] []) (L, st')
| link_kernel_poll num L st full evs L' :
    kernel_poll flexnic_mem num L = Some (full, evs, L') ->
    link_step (L, st) (mk_lt [] [] [] [(early_of L, evs)]) (L', seen_by_sp L' st)
| link_lib L st L' : same_rings L L' -> link_step (L, st) (mk_lt [] [] [] []) (L', st).

Inductive link_steps : libst * spst -> link_trace -> libst * spst -> Prop :=
| link_refl j : link_steps j (mk_lt [] [] [] []) j
| link_trans j t j' t' j'' : link_steps j t j' -> link_step j' t' j'' -> link_steps j (lt_app t t') j''.

(** Both sides see the same rings; [Q] are the requests and [R] the messages in them. *)
Record linked (n m : Z) (j : libst * spst) (Q : list kernel_appout) (R : list kernel_appin) : Prop := mk_linked {
  lk_bound : n < 4294967296 /\ m < 4294967296;
  lk_lens : let x := s_ctxs j.2 !!! ctx in
    lx_kin_len (l_ctx j.1) = n /\ kin_len x = n /\ lx_kout_len (l_ctx j.1) = m /\ kout_len x = m;
  lk_same : let x := s_ctxs j.2 !!! ctx in
    lx_kin (l_ctx j.1) = kin x /\ lx_kout (l_ctx j.1) = kout x;
  lk_kin : let x := s_ctxs j.2 !!! ctx in
    ring_of kin_invalid 1 n (kin x) (kin_pos x) (kin_head (l_ctx j.1)) Q;
  lk_kout : let x := s_ctxs j.2 !!! ctx in
    ring_of appin_free 1 m (kout x) (kout_head (l_ctx j.1)) (kout_pos x) R }.

Lemma seen_by_sp_ctx L st :
  s_ctxs (seen_by_sp L st) !!! ctx
  = (s_ctxs st !!! ctx) <| kin := lx_kin (l_ctx L) |> <| kout := lx_kout (l_ctx L) |>.
Proof. unfold seen_by_sp, set_ctx. cbn [s_ctxs setf]. by rewrite lookup_total_insert_eq. Qed.

(** What a trace has to do with the contents of the rings before and after it. *)
Definition fifo (Q : list kernel_appout) (R : list kernel_appin) (t : link_trace)
    (Q' : list kernel_appout) (R' : list kernel_appin) : Prop :=
  Q ++ lt_put t = lt_taken t ++ Q'
  /\ exists Ds, R ++ lt_posted t = concat Ds ++ R'
       /\ Forall2 (fun p D => p.2 = concat (map (events_for flexnic_mem p.1) D)) (lt_polls t) Ds.

Lemma fifo_refl Q R : fifo Q R (mk_lt [] [] [] []) Q R.
Proof. split; [by rewrite app_nil_r|]. exists []. split; [by rewrite app_nil_r|constructor]. Qed.

Lemma fifo_trans Q R t Q' R' t' Q'' R'' :
  fifo Q R t Q' R' -> fifo Q' R' t' Q'' R'' -> fifo Q R (lt_app t t') Q'' R''.
Proof.
  intros [H1 (D & H2 & H3)] [H1' (D' & H2' & H3')]. split.
  - cbn. by rewrite app_assoc, H1, <-!app_assoc, H1'.
  - exists (D ++ D'). cbn. rewrite app_assoc, H2, <-!app_assoc, H2', concat_app, <-app_assoc.
    split; [done|by apply Forall2_app].
Qed.

(** Steps that leave the contents alone. *)
Lemma linked_lib n m L st L' Q R : linked n m (L, st) Q R -> same_rings L L' -> linked n m (L', st) Q R.
Proof.
  intros [Hb Hl Hs Hk Ho] (E1 & E2 & E3 & E4 & E5 & E6). cbn [fst snd] in *.
  constructor; cbn [fst snd]; rewrite ?E1, ?E2, ?E3, ?E4, ?E5, ?E6; done.
Qed.

Lemma linked_sp n m L st st' Q R : linked n m (L, st) Q R ->
  same_actx (s_ctxs st !!! ctx) (s_ctxs st' !!! ctx) -> linked n m (L, st') Q R.
Proof.
  intros [Hb Hl Hs Hk Ho] (E1 & E2 & E3 & E4 & E5 & E6). cbn [fst snd] in *.
  constructor; cbn [fst snd]; rewrite ?E1, ?E2, ?E3, ?E4, ?E5, ?E6; done.
Qed.

Lemma linked_request n m now r L st ret L' Q R :
  linked n m (L, st) Q R -> do_request info now r L = Some (ret, L') ->
  linked n m (L', seen_by_sp L' st) (Q ++ (if ret =? 0 then [request_entry r L] else [])) R.
Proof.
  intros H Hd. pose proof H as [Hb Hl Hs Hk Ho]. cbn [fst snd] in *.
  destruct Hl as (L1 & L2 & L3 & L4). destruct Hs as [S1 S2].
  apply do_request_ring in Hd as [[-> Hsame]|(-> & Hroom & E1 & E2 & E3 & E4 & E5 & E6)].
  - cbn [Z.eqb]. rewrite app_nil_r. destruct Hsame as (E1 & E2 & E3 & E4 & E5 & E6).
    constructor; cbn [fst snd]; rewrite ?seen_by_sp_ctx;
      cbn [kin kin_pos kin_len kout kout_pos kout_len setf];
      rewrite ?E1, ?E2, ?E3, ?E4, ?E5, ?E6, ?S1, ?S2; done.
  - cbn [Z.eqb]. constructor; cbn [fst snd]; rewrite ?seen_by_sp_ctx;
      cbn [kin kin_pos kin_len kout kout_pos kout_len setf];
      rewrite ?E1, ?E2, ?E3, ?E4, ?E5, ?E6; try done.
    + rewrite S1, L1. pose proof (ring_of_hd _ _ _ _ _ _ _ Hk). rewrite ring_next_adv by lia.
      apply ring_of_push; [by eapply ring_of_len_pos|done| |by destruct r].
      unfold kin_room in Hroom. by rewrite S1 in Hroom.
    + by rewrite S2.
Qed.

Lemma linked_kernel_poll n m num L st full evs L' Q R :
  linked n m (L, st) Q R -> kernel_poll flexnic_mem num L = Some (full, evs, L') ->
  exists R', linked n m (L', seen_by_sp L' st) Q R' /\ fifo Q R (mk_lt [] [] [] [(early_of L, evs)]) Q R'.
Proof.
  intros [Hb Hl Hs Hk Ho] H. cbn [fst snd] in *. destruct Hl as (L1 & L2 & L3 & L4). destruct Hs as [S1 S2].
  unfold kernel_poll in H. rewrite <-S2 in Ho.
  destruct (kernel_poll_ring _ _ _ _ _ _ _ _ _ _ _ H L3 ltac:(lia) Ho)
    as (R1 & R2 & -> & Hev & Hr & T1 & T2 & T3 & T4).
  exists R2. split.
  - constructor; cbn [fst snd]; rewrite ?seen_by_sp_ctx;
      cbn [kin kin_pos kin_len kout kout_pos kout_len setf]; rewrite ?T1, ?T2, ?T3, ?T4; try done.
    by rewrite S1.
  - split; [by rewrite app_nil_r|]. exists [R1]. cbn. rewrite !app_nil_r. split; [done|].
    by apply Forall2_cons.
Qed.

(** A message is posted at the position of the slow path. *)
Lemma linked_posted n m L st e Q R kin_ ring' pos' :
  linked n m (L, st) Q R ->
  let x := s_ctxs st !!! ctx in
  kout_room x = true -> appin_free e = false ->
  ring' = <[kout_pos x := e]> (kout x) -> pos' = ring_next (kout_pos x) (kout_len x) ->
  ring_of appin_free 1 m ring' (kout_head (l_ctx (upd_lctx (fun y => y <| lx_kin := kin_ |>) L))) pos' (R ++ [e]).
Proof.
  intros [Hb Hl Hs Hk Ho] x Hroom He -> ->. cbn [fst snd] in *. fold x in Ho, Hl.
  destruct Hl as (_ & _ & _ & L4). rewrite L4.
  pose proof (ring_of_hd _ _ _ _ _ _ _ Ho). rewrite ring_next_adv by lia.
  apply ring_of_push; [by eapply ring_of_len_pos|done| |done].
  unfold kout_room, kout_entry in Hroom. by destruct (kout x !!! kout_pos x).
Qed.

Lemma answers_used r e : answers r e -> appin_free e = false.
Proof. by destruct r, e as [|[]| | |]. Qed.

Lemma linked_kin_poll n m mm scale L st k st' scale' Q R :
  linked n m (L, st) Q R ->
  appif_ctx_poll E config crc app ctx mm scale st = Some (k, st', scale') ->
  let x := s_ctxs st !!! ctx in
  let e := kout (s_ctxs st' !!! ctx) !!! kout_pos x in
  exists Q' R', linked n m (seen_by_lib st' L, st') Q' R'
  /\ fifo Q R (mk_lt [] (if k =? 1 then [kin x !!! kin_pos x] else [])
                 (if (k =? 1) && negb (appin_free e) then [e] else []) []) Q' R'.
Proof.
  intros H Hp x e. pose proof H as [Hb Hl Hs Hk Ho]. cbn [fst snd] in *. fold x in Hl, Hs, Hk, Ho.
  destruct Hl as (L1 & L2 & L3 & L4). destruct Hs as [S1 S2].
  destruct (appif_ctx_poll_cases _ _ _ _ _ _ _ _ _ _ _ Hp)
    as [(-> & -> & _ & _)|(-> & Hro & Hri & Hkin & Hkp & Hans & [El1 El2] & _)];
    [|fold x in Hro, Hri, Hkin, Hkp, Hans, El1, El2].
  - exists Q, R. cbn [Z.eqb andb]. split; [|apply fifo_refl].
    eapply linked_lib; [exact H|]. unfold seen_by_lib. fold x. by repeat split; rewrite ?S1, ?S2.
  - change (1 =? 1) with true. cbn [andb]. set (x' := s_ctxs st' !!! ctx) in *.
    pose proof (ring_of_len_pos _ _ _ _ _ _ _ Hk) as Hn0.
    destruct Q as [|r Q].
    { assert (Hc := proj2 (ring_of_empty _ _ _ _ _ _ _ Hn0 Hk) eq_refl). exfalso.
      apply Hri. by destruct (kin x !!! kin_pos x). }
    assert (Er := ring_of_head _ _ _ _ _ _ _ _ Hn0 Hk).
    assert (Hk' : ring_of kin_invalid 1 n (kin x') (kin_pos x') (kin_head (l_ctx (seen_by_lib st' L))) Q).
    { rewrite Hkin, Hkp, L2. pose proof (ring_of_tl _ _ _ _ _ _ _ Hk). rewrite ring_next_adv by lia.
      by eapply ring_of_pop. }
    assert (Hfree : appin_free (kout x !!! kout_pos x) = true) by (by rewrite Hro).
    destruct Hans as [[Eo Ep]|(a & Ha & Eo & Ep)].
    + exists Q, R. assert (Ee : appin_free e = true) by (unfold e; by rewrite Eo).
      rewrite Ee. cbn [negb]. split.
      * constructor; cbn [fst snd]; fold x'; unfold seen_by_lib; fold x'; try done;
          [rewrite El1, El2; split_and!; done|]. rewrite Eo, Ep. exact Ho.
      * rewrite Er. split; [by rewrite app_nil_r|]. exists []. split; [by rewrite app_nil_r|constructor].
    + assert (Ee : e = a) by (unfold e; by rewrite Eo, lookup_total_insert_eq).
      assert (Hau := answers_used _ _ Ha). exists Q, (R ++ [a]). rewrite Ee, Hau. cbn [negb]. split.
      * constructor; cbn [fst snd]; fold x'; unfold seen_by_lib; fold x'; try done;
          [rewrite El1, El2; split_and!; done|].
        eapply (linked_posted n m L st a (r :: Q) R (lx_kin (l_ctx L))); done.
      * rewrite Er. split; [by rewrite app_nil_r|]. exists []. split; [done|constructor].
Qed.

Lemma linked_post n m e L st st' Q R :
  linked n m (L, st) Q R -> kout_room (s_ctxs st !!! ctx) = true -> appin_free e = false ->
  kout_push ctx e st = Some st' -> linked n m (seen_by_lib st' L, st') Q (R ++ [e]).
Proof.
  intros H Hro He Hp. unfold kout_push in Hp. destruct (appif_ctx_kick ctx st); [|done].
  cbn [mbind option_bind] in Hp. apply (inj Some) in Hp. set (x := s_ctxs st !!! ctx) in *.
  assert (Ex : s_ctxs st' !!! ctx = x <| kout ::= <[kout_pos x := e]> |>
                 <| kout_pos := ring_next (kout_pos x) (kout_len x) |>)
    by (rewrite <-Hp; unfold set_ctx; cbn [s_ctxs setf]; by rewrite lookup_total_insert_eq).
  pose proof H as [Hb Hl Hs Hk Ho]. cbn [fst snd] in *. fold x in Hl, Hs, Hk, Ho. destruct Hs as [S1 S2].
  constructor; cbn [fst snd]; unfold seen_by_lib; rewrite ?Ex; try done.
  by eapply (linked_posted n m L st e Q R (lx_kin (l_ctx L))).
Qed.

Lemma link_step_fifo n m j t j' Q R :
  linked n m j Q R -> link_step j t j' -> exists Q' R', linked n m j' Q' R' /\ fifo Q R t Q' R'.
Proof.
  intros H Hst. destruct Hst.
  - eexists _, R. split; [by eapply linked_request|]. split; [done|]. exists []. split; [by rewrite app_nil_r|constructor].
  - by eapply linked_kin_poll.
  - eexists Q, _. split; [by eapply linked_post|]. split; [by rewrite app_nil_r|]. exists []. split; [done|constructor].
  - exists Q, R. split; [by eapply linked_sp|apply fifo_refl].
  - exists Q. by eapply linked_kernel_poll.
  - exists Q, R. split; [by eapply linked_lib|apply fifo_refl].
Qed.

(** C3: in every interleaving of an application's calls, of the slow path's polls and messages
    and of other work of both sides, the requests the library accepted are taken by the
    slow path exactly once and in order, and the messages the slow path posted (the
    answers to requests among them) are given to the application exactly once and in
    order: a poll gives, for each message it takes, its event and, when it opens a
    connection, one event for the bytes and one for the end of the stream that the fast path
    had delivered before, and no other events (`events_for`).  What is not yet taken or given
    is in the rings. *)
Theorem app_link_fifo n m j t j' Q R :
  linked n m j Q R -> link_steps j t j' -> exists Q' R', linked n m j' Q' R' /\ fifo Q R t Q' R'.
Proof.
  intros H Hs. induction Hs as [j|j t j' t' j'' Hs IH Hst]; [exists Q, R; split; [done|apply fifo_refl]|].
  destruct (IH H) as (Q' & R' & H' & Hf). destruct (link_step_fifo _ _ _ _ _ _ _ H' Hst) as (Q'' & R'' & H'' & Hf').
  exists Q'', R''. split; [done|]. by eapply fifo_trans.
Qed.

End Link.

(** An application that asks to listen on port 80, the slow path's next poll, and the
    application's. *)
Definition ex_lib : libst :=
  mk_libst ∅ ∅ (mk_fctx ∅ 16 0 ∅ 16 0 0 0 ∅ 0 0 0 1 0 0 0 0 []).
Definition ex_info : flexnic_info := mk_finfo 10000 10000.
Definition ex_lib1 : libst := (flextcp_listen_open ex_info 0 77 80 128 0 ex_lib).2.
Definition ex_sp1 : spst := seen_by_sp 1 ex_lib1 ex_sp.
Definition ex_polled : option (Z * spst * Z) :=
  appif_ctx_poll ex_senv ex_scfg (fun _ _ => 0) 1 1 ex_mem 0 ex_sp1.
Definition ex_sp2 : spst := (default (0, ex_sp1, 0) ex_polled).1.2.

Definition ex_lib2 : libst := seen_by_lib 1 ex_sp2 ex_lib1.
Definition ex_kpoll : option (bool * list flextcp_event * libst) := kernel_poll 0 8 ex_lib2.
Definition ex_lib3 : libst := (default (false, [], ex_lib2) ex_kpoll).2.

Lemma ex_linked : linked 1 16 16 (ex_lib, ex_sp) [] [].
Proof.
  constructor; cbn [fst snd].
  - lia.
  - by split_and!; vm_compute.
  - by split_and!; vm_compute.
  - apply ring_of_new; [lia|lia|]. intros k.
    change (kin (s_ctxs ex_sp !!! 1)) with (∅ : gmap Z kernel_appout). by rewrite lookup_total_empty.
  - apply ring_of_new; [lia|lia|]. intros k.
    change (kout (s_ctxs ex_sp !!! 1)) with (∅ : gmap Z kernel_appin). by rewrite lookup_total_empty.
Qed.

Lemma ex_polled_eq : ex_polled = Some (1, ex_sp2, 0)
  /\ kout (s_ctxs ex_sp2 !!! 1) !!! 0 = APPIN_STATUS STATUS_LISTEN_OPEN 77 0.
Proof.
  assert (Es : ex_polled = Some (default (0, ex_sp1, 0) ex_polled)) by (apply succeeds_eq; by vm_compute).
  assert (Hv : let p := default (0, ex_sp1, 0) ex_polled in p.1.1 = 1 /\ p.2 = 0
    /\ kout (s_ctxs p.1.2 !!! 1) !!! 0 = APPIN_STATUS STATUS_LISTEN_OPEN 77 0) by (vm_compute; by repeat split).
  unfold ex_sp2. destruct (default (0, ex_sp1, 0) ex_polled) as [[k st'] sc]. cbn [fst snd] in Hv |- *.
  by destruct Hv as (-> & -> & Ho).
Qed.

Lemma ex_kpoll_eq : ex_kpoll = Some (false, [EV_LISTEN_OPEN 0 77], ex_lib3).
Proof.
  assert (Es : ex_kpoll = Some (default (false, [], ex_lib2) ex_kpoll)) by (apply succeeds_eq; by vm_compute).
  assert (Hv : let p := default (false, [], ex_lib2) ex_kpoll in p.1 = (false, [EV_LISTEN_OPEN 0 77])) by (by vm_compute).
  unfold ex_lib3. destruct (default (false, [], ex_lib2) ex_kpoll) as [r L]. cbn [fst snd] in Hv |- *.
  by rewrite Es, Hv.
Qed.

Lemma app_link_fifo_witness :
  exists t Q' R', link_steps ex_senv ex_scfg (fun _ _ => 0) ex_info 0 1 1 (ex_lib, ex_sp) t
      (ex_lib3, seen_by_sp 1 ex_lib3 ex_sp2)
  /\ lt_put t = [APPOUT_LISTEN_OPEN 77 128 80 0] /\ lt_taken t = [APPOUT_LISTEN_OPEN 77 128 80 0]
  /\ lt_posted t = [APPIN_STATUS STATUS_LISTEN_OPEN 77 0]
  /\ map snd (lt_polls t) = [[EV_LISTEN_OPEN 0 77]]
  /\ fifo 0 [] [] t Q' R'.
Proof.
  destruct ex_polled_eq as [Es Ho].
  assert (H1 : link_step ex_senv ex_scfg (fun _ _ => 0) ex_info 0 1 1 (ex_lib, ex_sp)
    (mk_lt [APPOUT_LISTEN_OPEN 77 128 80 0] [] [] []) (ex_lib1, ex_sp1))
    by exact (link_request _ _ _ _ _ _ _ 0 (ReqListenOpen 77 80 128 0) ex_lib ex_sp 0 ex_lib1 eq_refl).
  assert (H2 := link_kin_poll ex_senv ex_scfg (fun _ _ => 0) ex_info 0 1 1 ex_mem 0 ex_lib1 ex_sp1 1 ex_sp2 0 Es).
  cbv zeta in H2. change (kout_pos (s_ctxs ex_sp1 !!! 1)) with 0 in H2. rewrite Ho in H2.
  change (kin (s_ctxs ex_sp1 !!! 1) !!! kin_pos (s_ctxs ex_sp1 !!! 1)) with (APPOUT_LISTEN_OPEN 77 128 80 0) in H2.
  assert (H3 := link_kernel_poll ex_senv ex_scfg (fun _ _ => 0) ex_info 0 1 1 8 ex_lib2 ex_sp2 false
                  [EV_LISTEN_OPEN 0 77] ex_lib3 ex_kpoll_eq).
  assert (Hst := link_trans _ _ _ _ _ _ _ _ _ _ _ _ (link_trans _ _ _ _ _ _ _ _ _ _ _ _
    (link_trans _ _ _ _ _ _ _ _ _ _ _ _ (link_refl _ _ _ _ _ _ _ _) H1) H2) H3).
  destruct (app_link_fifo _ _ _ _ _ _ _ _ _ _ _ _ _ _ ex_linked Hst) as (Q' & R' & _ & Hf).
  eexists _, Q', R'. split; [exact Hst|]. split; [done|]. split; [done|]. split; [done|]. split; [done|exact Hf].
Defined.
