(* ===== verification/LibThms.v ===== *)
(** * The application library: theorems (lib/tas)

    When an application may block, the two ways to poll the fast path, and what the
    library does with the buffers and updates of a connection. *)

From S2P Require Import Prelude FpTypes Links FlowTx SpTypes SpState AppCtx LibTypes LibConn.
From S2P Require Import LibPoll LibProofs.

(** * The two ways to poll the fast path agree

    [fastpath_poll_vec] collects the next entries of all queues before it handles them;
    [fastpath_poll] handles one entry after the other.  With one queue they do the same. *)

Definition arx_free (e : arx) : bool := arx_type e =? 0.

(** ** The state a handler does not touch *)

(** The flags of the context and the time at which the grace period started. *)
Definition same_wait (L L' : libst) : Prop :=
  lx_flags (l_ctx L') = lx_flags (l_ctx L) /\ last_inev_ts (l_ctx L') = last_inev_ts (l_ctx L).

#[export] Instance same_wait_preorder : PreOrder same_wait.
Proof. split; [by split|]. intros x y z [??] [??]. split; congruence. Qed.

(** The queues and the position of the poll. *)
Definition same_rxqs (L L' : libst) : Prop :=
  queues (l_ctx L') = queues (l_ctx L) /\ rxq_len (l_ctx L') = rxq_len (l_ctx L)
  /\ num_queues (l_ctx L') = num_queues (l_ctx L) /\ next_queue (l_ctx L') = next_queue (l_ctx L).

Definition same_queues (L L' : libst) : Prop := same_wait L L' /\ same_rxqs L L'.

#[export] Instance same_queues_preorder : PreOrder same_queues.
Proof.
  split; [by repeat split|]. intros x y z [Hw (?&?&?&?)] [Hw' (?&?&?&?)].
  split; [by transitivity y|]. unfold same_rxqs. split_and!; congruence.
Qed.

Lemma conn_mark_bump_queues conn L : same_queues L (conn_mark_bump conn L).
Proof.
  unfold conn_mark_bump. destruct (bump_pending _); [done|].
  by destruct (negb (bump_pending_last (l_ctx L) =? 0)).
Qed.

Lemma event_arx_queues e outn core L r L' :
  event_arx_connupdate e outn core L = Some (r, L') -> same_queues L L'.
Proof.
  intros H. unfold event_arx_connupdate in H. cbv zeta in H.
  set (M := set_lconn (arx_opaque e) (fun c => c <| lc_fn_core := core |>) L) in H.
  assert (HM : same_queues L M) by (by repeat split).
  destruct (lc_status (lconn M (arx_opaque e))); [by injection H as <- <-|..|by injection H as <- <-].
  1,2: cstep H; exact HM.
  destruct (outn <? _); [by injection H as <- <-|].
  destruct (tx_bumped _ _ _ _) as [[evs L1]|] eqn:Et; cbn [mbind option_bind] in H; [|done].
  assert (H1 : same_queues M L1).
  { unfold tx_bumped in Et. destruct (negb (0 <? _)); [by injection Et as <- <-|]. cbv zeta in Et.
    destruct (txeos _ && _).
    - unfold flextcp_conn_pushtxeos in Et. cbv zeta in Et. cstep Et. destruct p as [ret L2]. cstep Ebind.
      cbn [fst snd] in *. destruct (conn_tx_allocbytes _ =? 0).
      + injection Ebind as <- <-. done.
      + injection Ebind as <- <-. cbn [cassert mbind option_bind] in Et. cstep Et.
        etransitivity; [|apply conn_mark_bump_queues]. by repeat split.
    - destruct (txeos_alloc _); [|by injection Et as <- <-]. cstep Et.
      by destruct (txb_sent _ =? 0); injection Et as <- <-. }
  etransitivity; [exact HM|]. etransitivity; [exact H1|].
  by destruct (arx_eos e); injection H as <- <-.
Qed.

(** Setting flags of the context commutes with handling an update. *)
Definition flagged (f : Z) {A} (p : A * libst) : A * libst := (p.1, or_flags f p.2).

Lemma conn_mark_bump_flags_comm f conn L : conn_mark_bump conn (or_flags f L) = or_flags f (conn_mark_bump conn L).
Proof.
  unfold conn_mark_bump. change (lconn (or_flags f L) conn) with (lconn L conn).
  destruct (bump_pending (lconn L conn)); [done|].
  change (bump_pending_last (l_ctx (or_flags f L))) with (bump_pending_last (l_ctx L)).
  by destruct (negb (bump_pending_last (l_ctx L) =? 0)).
Qed.

Lemma pushtxeos_flags f conn L :
  flextcp_conn_pushtxeos conn (or_flags f L) = flagged f <$> flextcp_conn_pushtxeos conn L.
Proof.
  unfold flextcp_conn_pushtxeos. change (lconn (or_flags f L) conn) with (lconn L conn). cbv zeta.
  destruct (conn_tx_sendbytes _ =? 0); [|done]. destruct (txeos _); [|done]. cbn [cassert mbind option_bind].
  destruct (conn_tx_allocbytes _ =? 0); [done|].
  match goal with |- context [set_lconn conn ?g (or_flags f L)] =>
    change (set_lconn conn g (or_flags f L)) with (or_flags f (set_lconn conn g L)) end.
  by rewrite conn_mark_bump_flags_comm.
Qed.

Lemma tx_bumped_flags f conn t av L : tx_bumped conn t av (or_flags f L) = flagged f <$> tx_bumped conn t av L.
Proof.
  unfold tx_bumped. destruct (negb (0 <? t)); [done|]. cbv zeta.
  set (g := fun c => c <| txb_sent := u32 (txb_sent c - t) |>).
  change (set_lconn conn g (or_flags f L)) with (or_flags f (set_lconn conn g L)).
  set (M := set_lconn conn g L). change (lconn (or_flags f M) conn) with (lconn M conn).
  destruct (txeos _ && _).
  - rewrite pushtxeos_flags. destruct (flextcp_conn_pushtxeos conn M) as [[ret L1]|]; [|done].
    cbn [fmap option_fmap option_map flagged fst snd mbind option_bind]. by destruct (ret =? 0).
  - destruct (txeos_alloc _); [|done]. destruct (negb (has_flag _ CONN_FLAG_TXEOS_ACK)); [|done]. cbn [cassert mbind option_bind].
    by destruct (txb_sent _ =? 0).
Qed.

Lemma event_arx_flags f e outn core L :
  event_arx_connupdate e outn core (or_flags f L) = flagged f <$> event_arx_connupdate e outn core L.
Proof.
  unfold event_arx_connupdate. cbv zeta. set (conn := arx_opaque e).
  set (g := fun c => c <| lc_fn_core := core |>).
  change (set_lconn conn g (or_flags f L)) with (or_flags f (set_lconn conn g L)).
  set (M := set_lconn conn g L). change (lconn (or_flags f M) conn) with (lconn M conn).
  destruct (lc_status (lconn M conn)); [done|..|done].
  1,2: by destruct (arx_tx_bump e =? 0).
  destruct (outn <? _); [done|].
  change (set_lconn conn (rx_update (arx_rx_bump e)) (or_flags f M))
    with (or_flags f (set_lconn conn (rx_update (arx_rx_bump e)) M)).
  rewrite tx_bumped_flags. destruct (tx_bumped _ _ _ _) as [[evs L1]|]; [|done].
  cbn [fmap option_fmap option_map flagged fst snd mbind option_bind]. by destruct (arx_eos e).
Qed.

(** ** Reference: the entries one after the other *)

(** [fl] is what is done to the flags for each entry. *)
Fixpoint deliver (fl : libst -> libst) (l : list arx) (num i : Z) (L : libst)
    : option (bool * list flextcp_event * libst) :=
  match l with
  | [] => Some (false, [], L)
  | e :: l =>
      if num <=? i then Some (false, [], L)
      else
        '(r, L) ← event_arx_connupdate e (num - i) 0 L;
        match r with
        | None => Some (true, [], fl L)
        | Some evs =>
            '(out, evs', L) ← deliver fl l num (i + Z.of_nat (length evs))
                                (rxq_free 0 (rxq_head (lqueue L 0)) (fl L));
            Some (out, evs ++ evs', L)
        end
  end.

(** One queue with [n] entries, of which those of [l] are in use. *)
Record one_queue (n : Z) (L : libst) (hd : Z) (l : list arx) : Prop := mk_one_queue {
  oq_num : num_queues (l_ctx L) = 1 /\ next_queue (l_ctx L) = 0;
  oq_len : rxq_len (l_ctx L) = 32 * n /\ 0 < n < 67108864;
  oq_ring : ring_of arx_free 32 n (rxq (lqueue L 0)) (rxq_head (lqueue L 0)) hd l;
  oq_type : forall e, e ∈ l -> arx_type e = FLEXTCP_PL_ARX_CONNUPDATE }.

Lemma one_queue_same n L L' hd l : same_rxqs L L' -> one_queue n L hd l -> one_queue n L' hd l.
Proof.
  intros (E1 & E2 & E3 & E4) [Hn Hl Hr Ht].
  constructor; [by rewrite E3, E4|by rewrite E2| |done]; unfold lqueue in *; by rewrite E1.
Qed.

Lemma rxq_free_queue pos L :
  lqueue (rxq_free 0 pos L) 0 = (lqueue L 0)
    <| rxq ::= fun r => <[pos := (r !!! pos) <| arx_type := 0 |>]> r |>
    <| rxq_head := ring_wrap (rxq_len (l_ctx L)) (rxq_head (lqueue L 0)) sizeof_arx |>.
Proof. unfold rxq_free. cbv zeta. by rewrite lqueue_upd. Qed.

Lemma one_queue_free n L hd e l : one_queue n L hd (e :: l) ->
  one_queue n (rxq_free 0 (rxq_head (lqueue L 0)) L) hd l.
Proof.
  intros [Hn [Hl Hb] Hr Ht]. constructor; [done|done| |intros x Hx; apply Ht; by apply list_elem_of_further].
  rewrite rxq_free_queue. cbn [rxq rxq_head setf]. rewrite Hl. change sizeof_arx with 32.
  pose proof (ring_of_tl _ _ _ _ _ _ _ Hr). rewrite ring_wrap_adv by lia. by eapply ring_of_pop; [lia|exact Hr|].
Qed.

(** ** The scalar version *)

Lemma fastpath_queue_deliver n hd fuel num i L l :
  one_queue n L hd l -> (length l <= fuel)%nat ->
  fastpath_queue fuel num i 0 L = deliver (or_flags CTX_FLAG_POLL_EVENTS) l num i L.
Proof.
  revert fuel i L. induction l as [|e l IH]; intros fuel i L Ho Hf.
  - assert (Hfree : arx_free (rxq (lqueue L 0) !!! rxq_head (lqueue L 0)) = true).
    { destruct Ho as [_ Hl Hr _]. eapply ring_of_empty; [|exact Hr|done]. lia. }
    unfold arx_free in Hfree. destruct fuel as [|fuel]; cbn [fastpath_queue deliver]; destruct (num <=? i); try done;
      by rewrite Hfree.
  - destruct fuel as [|fuel]; [cbn in Hf; lia|]. cbn [fastpath_queue deliver].
    destruct (num <=? i); [done|].
    assert (He : rxq (lqueue L 0) !!! rxq_head (lqueue L 0) = e).
    { destruct Ho as [_ Hl Hr _]. eapply ring_of_head; [|exact Hr]. lia. }
    assert (Hty : arx_type e = FLEXTCP_PL_ARX_CONNUPDATE) by (apply (oq_type _ _ _ _ Ho), list_elem_of_here).
    rewrite He, Hty. change (FLEXTCP_PL_ARX_CONNUPDATE =? 0) with false. rewrite Z.eqb_refl. cbv iota.
    destruct (event_arx_connupdate e (num - i) 0 L) as [[[evs|] L1]|] eqn:Ee; cbn [mbind option_bind]; [|done..].
    apply event_arx_queues in Ee as [_ Ee].
    assert (Ho1 : one_queue n (or_flags CTX_FLAG_POLL_EVENTS L1) hd (e :: l)) by (eapply one_queue_same; [|exact Ho]; done).
    assert (Eh : rxq_head (lqueue (or_flags CTX_FLAG_POLL_EVENTS L1) 0) = rxq_head (lqueue L 0))
      by (unfold lqueue; destruct Ee as (E1 & _); change (queues (l_ctx (or_flags CTX_FLAG_POLL_EVENTS L1))) with (queues (l_ctx L1)); by rewrite E1).
    rewrite <-Eh. rewrite IH; [done|by eapply one_queue_free|cbn in Hf; lia].
Qed.

(** ** Flags *)

Lemma rxq_free_flags f pos L : rxq_free 0 pos (or_flags f L) = or_flags f (rxq_free 0 pos L).
Proof. done. Qed.

Lemma deliver_flags f l num i L : deliver (fun M => M) l num i (or_flags f L) = flagged f <$> deliver (fun M => M) l num i L.
Proof.
  revert i L. induction l as [|e l IH]; intros i L; cbn [deliver]; destruct (num <=? i); try done.
  rewrite event_arx_flags. destruct (event_arx_connupdate e (num - i) 0 L) as [[[evs|] L1]|]; [|done..].
  cbn [fmap option_fmap option_map flagged fst snd mbind option_bind].
  change (rxq_head (lqueue (or_flags f L1) 0)) with (rxq_head (lqueue L1 0)).
  rewrite rxq_free_flags. rewrite IH.
  by destruct (deliver (fun M => M) l num _ _) as [[[out evs'] L2]|].
Qed.

Lemma or_flags_idem f L : or_flags f (or_flags f L) = or_flags f L.
Proof.
  transitivity (upd_lctx (fun x => x <| lx_flags := Z.lor f (Z.lor f (lx_flags x)) |>) L); [done|].
  unfold or_flags, upd_lctx. cbn. by rewrite Z.lor_assoc, Z.lor_diag.
Qed.

(** The flags are set for the entries, or once after them. *)
Lemma deliver_flags_once f l num i L :
  deliver (or_flags f) l num i L
  = (fun p => if match l with [] => false | _ => negb (num <=? i) end then flagged f p else p)
      <$> deliver (fun M => M) l num i L.
Proof.
  revert i L. induction l as [|e l IH]; intros i L; cbn [deliver]; [done|].
  destruct (num <=? i); [done|]. cbn [negb].
  destruct (event_arx_connupdate e (num - i) 0 L) as [[[evs|] L1]|]; [|done..]. cbn [mbind option_bind].
  change (rxq_head (lqueue (or_flags f L1) 0)) with (rxq_head (lqueue L1 0)).
  rewrite IH, rxq_free_flags, deliver_flags.
  destruct (deliver (fun M => M) l num _ _) as [[[out evs'] L2]|]; [|done].
  cbn [fmap option_fmap option_map mbind option_bind].
  destruct l; [done|]. destruct (negb _); [|done]. unfold flagged. cbn [fst snd]. by rewrite or_flags_idem.
Qed.

Lemma deliver_app l1 l2 num i L :
  deliver (fun M => M) (l1 ++ l2) num i L
  = '(out, evs, L1) ← deliver (fun M => M) l1 num i L;
    if out : bool then Some (true, evs, L1)
    else
      '(out, evs', L2) ← deliver (fun M => M) l2 num (i + Z.of_nat (length evs)) L1;
      Some (out, evs ++ evs', L2).
Proof.
  revert i L. induction l1 as [|e l1 IH]; intros i L; cbn [deliver app].
  - cbn [mbind option_bind length]. rewrite Z.add_0_r. by destruct (deliver _ l2 num i L) as [[[out evs] L2]|].
  - destruct (num <=? i) eqn:En.
    + cbn [mbind option_bind length]. rewrite Z.add_0_r. by destruct l2; cbn [deliver]; rewrite ?En.
    + destruct (event_arx_connupdate e (num - i) 0 L) as [[[evs|] L1]|]; [|done..]. cbn [mbind option_bind].
      rewrite IH. destruct (deliver _ l1 num _ _) as [[[[] evs1] L2]|]; [done| |done]. cbn [mbind option_bind].
      rewrite length_app, Nat2Z.inj_add, Z.add_assoc.
      destruct (deliver _ l2 num _ _) as [[[out evs2] L3]|]; [|done]. cbn. by rewrite app_assoc.
Qed.

(** All of [l1] was handled when there is still space. *)
Lemma deliver_all n hd l1 l2 num i L evs L1 :
  one_queue n L hd (l1 ++ l2) -> deliver (fun M => M) l1 num i L = Some (false, evs, L1) ->
  i + Z.of_nat (length evs) < num -> one_queue n L1 hd l2.
Proof.
  revert i L evs. induction l1 as [|e l1 IH]; intros i L evs Ho Hd Hi; cbn [deliver] in Hd.
  { by injection Hd as <- <-. }
  destruct (Z.leb_spec num i); [injection Hd as <- <-; cbn in Hi; lia|].
  destruct (event_arx_connupdate e (num - i) 0 L) as [[[evs1|] L2]|] eqn:Ee; cbn [mbind option_bind] in Hd; [|done..].
  apply event_arx_queues in Ee as [_ Ee].
  destruct (deliver (fun M => M) l1 num _ _) as [[[out evs2] L3]|] eqn:Ed; [|done]. cbn [mbind option_bind] in Hd.
  injection Hd as -> <- ->. rewrite length_app, Nat2Z.inj_add, Z.add_assoc in Hi.
  eapply IH; [|exact Ed|exact Hi].
  apply (one_queue_free n _ hd e). by eapply one_queue_same.
Qed.

(** ** The version that collects first *)

(** The positions of the first [m] entries from index [t]. *)
Definition slots (n t : Z) (m : nat) : list (Z * Z) := (fun j => (0, slot 32 n t (Z.of_nat j))) <$> seq 0 m.

Lemma slots_snoc n t m : slots n t (S m) = slots n t m ++ [(0, slot 32 n t (Z.of_nat m))].
Proof. unfold slots. by rewrite seq_S, fmap_app. Qed.

Lemma slots_cons n t m : 0 < n -> slots n t (S m) = (0, slot 32 n t 0) :: slots n ((t + 1) mod n) m.
Proof.
  intros Hn. unfold slots. cbn [seq fmap list_fmap]. f_equal. rewrite <-fmap_S_seq, <-list_fmap_compose.
  apply list_fmap_ext. intros i x _. cbn. f_equal. rewrite slot_shift by done. f_equal. lia.
Qed.

Lemma slots_length n t m : length (slots n t m) = m.
Proof. unfold slots. by rewrite length_fmap, length_seq. Qed.

Lemma wrap_slot n t k : 0 < n < 67108864 -> 0 <= t -> 0 <= k ->
  ring_wrap (32 * n) (slot 32 n t k) sizeof_arx = slot 32 n t (k + 1).
Proof.
  intros Hn Ht Hk. change sizeof_arx with 32.
  assert (Hp : 0 <= slot 32 n t k < 32 * n)
    by (unfold slot; pose proof (Z.mod_pos_bound (t + k) n ltac:(lia)); lia).
  rewrite ring_wrap_adv by lia. apply slot_adv; lia.
Qed.

Lemma vec_collect_one n L hd l t room fuel k qh :
  one_queue n L hd l -> 0 <= t < n ->
  (forall i e, l !! i = Some e -> rxq (lqueue L 0) !!! slot 32 n t (Z.of_nat i) = e) ->
  (forall i, Z.of_nat (length l) <= i < n -> arx_free (rxq (lqueue L 0) !!! slot 32 n t i) = true) ->
  Z.of_nat (length l) < n \/ Z.of_nat room <= n ->
  (k <= length l)%nat -> (k <= room)%nat -> (room - k <= fuel)%nat -> qh !!! 0 = slot 32 n t (Z.of_nat k) ->
  exists qh', vec_collect fuel (Z.of_nat room) L qh (slots n t k) = (qh', slots n t (room `min` length l))
  /\ qh' !!! 0 = slot 32 n t (Z.of_nat (room `min` length l)).
Proof.
  intros Ho Ht He Hfr Hfull. revert k qh. induction fuel as [|fuel IH]; intros k qh Hk Hkr Hfu Hq.
  { exists qh. replace (room `min` length l)%nat with k by lia. done. }
  destruct Ho as [[Hn1 Hn2] [Hlen Hn] Hr Hty] eqn:EHo. clear EHo. cbn [vec_collect].
  rewrite Hn1, Hn2. change (Z.to_nat 1) with 1%nat. cbn [vec_pass]. rewrite slots_length.
  destruct (Z.leb_spec (Z.of_nat room) (Z.of_nat k)).
  { rewrite slots_length, Nat.leb_refl. exists qh. replace (room `min` length l)%nat with k by lia. done. }
  rewrite Hq. destruct (decide (k < length l)%nat) as [Hkl|Hkl].
  - destruct (lookup_lt_is_Some_2 l k Hkl) as [e Hek]. rewrite (He k e Hek).
    rewrite (Hty e) by (by eapply list_elem_of_lookup_2). rewrite Z.eqb_refl, <-slots_snoc, !slots_length.
    rewrite (proj2 (Nat.leb_gt (S k) k)) by lia. cbn [orb].
    rewrite Hlen, wrap_slot by lia. replace (Z.of_nat k + 1) with (Z.of_nat (S k)) by lia.
    destruct (Z.leb_spec (Z.of_nat room) (Z.of_nat (S k))).
    + replace (room `min` length l)%nat with (S k) by lia. eexists. split; [done|]. by rewrite lookup_total_insert_eq.
    + apply IH; try lia. by rewrite lookup_total_insert_eq.
  - assert (Hfk : arx_free (rxq (lqueue L 0) !!! slot 32 n t (Z.of_nat k)) = true) by (apply Hfr; lia).
    unfold arx_free in Hfk. apply Z.eqb_eq in Hfk. rewrite Hfk.
    change (0 =? FLEXTCP_PL_ARX_CONNUPDATE) with false. cbv iota. rewrite slots_length, Nat.leb_refl.
    exists qh. replace (room `min` length l)%nat with k by lia. done.
Qed.

Definition with_queue (p : bool * list flextcp_event * libst) : bool * list flextcp_event * Z * libst :=
  (p.1.1, p.1.2, 0, p.2).

Lemma vec_handle_one n hd l1 l2 num i t L :
  one_queue n L hd (l1 ++ l2) -> 0 <= t -> rxq_head (lqueue L 0) = slot 32 n t 0 ->
  vec_handle (slots n t (length l1)) num i 0 L = with_queue <$> deliver (fun M => M) l1 num i L.
Proof.
  revert i t L. induction l1 as [|e l1 IH]; intros i t L Ho Ht Hh; [done|].
  assert (Hn : 0 < n < 67108864) by apply (oq_len _ _ _ _ Ho).
  cbn [length]. rewrite slots_cons by lia. cbn [vec_handle deliver]. destruct (num <=? i); [done|].
  assert (He : rxq (lqueue L 0) !!! slot 32 n t 0 = e).
  { rewrite <-Hh. eapply ring_of_head; [|apply (oq_ring _ _ _ _ Ho)]. lia. }
  assert (Hty : arx_type e = FLEXTCP_PL_ARX_CONNUPDATE) by (apply (oq_type _ _ _ _ Ho), list_elem_of_here).
  rewrite He, Hty. change (FLEXTCP_PL_ARX_CONNUPDATE =? 0) with false. cbn [negb cassert mbind option_bind].
  rewrite Z.eqb_refl.
  destruct (event_arx_connupdate e (num - i) 0 L) as [[[evs|] L1]|] eqn:Ee; [|done..]. cbn [mbind option_bind].
  apply event_arx_queues in Ee as [_ Ee].
  assert (Ho1 : one_queue n L1 hd (e :: l1 ++ l2)) by (eapply one_queue_same; [exact Ee|exact Ho]).
  destruct Ee as (E1 & E2 & E3 & E4).
  assert (Hh1 : rxq_head (lqueue L1 0) = slot 32 n t 0) by (unfold lqueue in *; by rewrite E1).
  rewrite Hh1. rewrite IH.
  - by destruct (deliver _ l1 num _ _) as [[[out evs'] L2]|].
  - rewrite <-Hh1. by eapply one_queue_free.
  - apply Z.mod_pos_bound. lia.
  - rewrite rxq_free_queue. cbn [rxq_head setf]. rewrite Hh1, E2, (proj1 (oq_len _ _ _ _ Ho)), wrap_slot by lia.
    rewrite slot_shift by lia. done.
Qed.

Lemma one_queue_slots n L hd l : one_queue n L hd l ->
  exists t, 0 <= t < n /\ rxq_head (lqueue L 0) = slot 32 n t 0
  /\ (forall i e, l !! i = Some e -> rxq (lqueue L 0) !!! slot 32 n t (Z.of_nat i) = e)
  /\ (forall i, Z.of_nat (length l) <= i < n -> arx_free (rxq (lqueue L 0) !!! slot 32 n t i) = true).
Proof. intros [_ _ [_ _ (t & Ht & E1 & _ & He & Hf) _] _]. by exists t. Qed.

Lemma deliver_frame l num i L out evs L' :
  deliver (fun M => M) l num i L = Some (out, evs, L') ->
  num_queues (l_ctx L') = num_queues (l_ctx L) /\ next_queue (l_ctx L') = next_queue (l_ctx L)
  /\ rxq_len (l_ctx L') = rxq_len (l_ctx L).
Proof.
  revert i L evs. induction l as [|e l IH]; intros i L evs Hd; cbn [deliver] in Hd; [by injection Hd as <- <- <-|].
  destruct (num <=? i); [by injection Hd as <- <- <-|].
  destruct (event_arx_connupdate e (num - i) 0 L) as [[[evs1|] L2]|] eqn:Ee; cbn [mbind option_bind] in Hd; [| |done].
  - apply event_arx_queues in Ee as [_ (E1 & E2 & E3 & E4)].
    destruct (deliver (fun M => M) l num _ _) as [[[out2 evs2] L3]|] eqn:Ed; [|done]. cbn [mbind option_bind] in Hd.
    injection Hd as -> <- ->. apply IH in Ed as (F1 & F2 & F3).
    split_and!; [by rewrite F1, <-E3|by rewrite F2, <-E4|by rewrite F3, <-E2].
  - apply event_arx_queues in Ee as [_ (E1 & E2 & E3 & E4)]. by injection Hd as <- <- <-.
Qed.

Lemma deliver_head n hd l1 l2 num i L evs L1 t :
  one_queue n L hd (l1 ++ l2) -> deliver (fun M => M) l1 num i L = Some (false, evs, L1) ->
  i + Z.of_nat (length evs) < num -> 0 <= t -> rxq_head (lqueue L 0) = slot 32 n t 0 ->
  rxq_head (lqueue L1 0) = slot 32 n t (Z.of_nat (length l1)).
Proof.
  revert i t L evs. induction l1 as [|e l1 IH]; intros i t L evs Ho Hd Hi Ht Hh; cbn [deliver] in Hd.
  { by injection Hd as <- <-. }
  destruct (Z.leb_spec num i); [injection Hd as <- <-; cbn in Hi; lia|].
  destruct (event_arx_connupdate e (num - i) 0 L) as [[[evs1|] L2]|] eqn:Ee; cbn [mbind option_bind] in Hd; [|done..].
  apply event_arx_queues in Ee as [_ Ee].
  assert (Ho2 : one_queue n L2 hd (e :: l1 ++ l2)) by (eapply one_queue_same; [exact Ee|exact Ho]).
  destruct (deliver (fun M => M) l1 num _ _) as [[[out evs2] L3]|] eqn:Ed; [|done]. cbn [mbind option_bind] in Hd.
  injection Hd as -> <- ->. rewrite length_app, Nat2Z.inj_add, Z.add_assoc in Hi.
  destruct Ee as (E1 & E2 & _). assert (Hn : 0 < n < 67108864) by apply (oq_len _ _ _ _ Ho).
  rewrite (IH _ ((t + 1) mod n) _ _ (one_queue_free _ _ _ _ _ Ho2) Ed Hi).
  - rewrite slot_shift by lia. f_equal. cbn [length]. lia.
  - apply Z.mod_pos_bound. lia.
  - rewrite rxq_free_queue. cbn [rxq_head setf]. rewrite E2, (proj1 (oq_len _ _ _ _ Ho)).
    assert (Eh : rxq_head (lqueue L2 0) = slot 32 n t 0) by (unfold lqueue in *; by rewrite E1).
    rewrite Eh, wrap_slot, slot_shift by lia. done.
Qed.

(** The loop: the events of the reference, whether there was an entry, and queue 0. *)
Definition vec_result (b : bool) (p : bool * list flextcp_event * libst)
    : list flextcp_event * bool * Z * libst := (p.1.2, b, 0, p.2).

Lemma vec_loop_one n hd fuel num i found qh L l :
  one_queue n L hd l -> (length l <= fuel)%nat -> 0 <= i ->
  Z.of_nat (length l) < n \/ num - i <= n -> qh !!! 0 = rxq_head (lqueue L 0) ->
  vec_loop fuel num i found qh L
  = vec_result (found || match l with [] => false | _ => negb (num <=? i) end)
      <$> deliver (fun M => M) l num i L.
Proof.
  revert i found qh L l. induction fuel as [|fuel IH]; intros i found qh L l Ho Hf Hi Hfull Hq.
  - destruct l; [|cbn in Hf; lia]. cbn [vec_loop deliver]. rewrite orb_false_r.
    destruct (Z.leb_spec num i); [by rewrite (proj2 (oq_num _ _ _ _ Ho))|].
    destruct (one_queue_slots _ _ _ _ Ho) as (t & Ht & Eh & He & Hfr).
    replace (num - i) with (Z.of_nat (Z.to_nat (num - i))) by lia.
    destruct (vec_collect_one n L hd [] t (Z.to_nat (num - i)) (Z.to_nat num) 0 qh Ho Ht He Hfr)
      as (qh' & Ec & _); [cbn; lia|cbn; lia|lia|lia|by rewrite Hq, Eh|].
    change (slots n t 0) with (@nil (Z * Z)) in Ec. rewrite Ec. rewrite Nat.min_0_r. cbn [slots seq fmap list_fmap].
    by rewrite (proj2 (oq_num _ _ _ _ Ho)).
  - cbn [vec_loop]. destruct (Z.leb_spec num i) as [Hni|Hni].
    { rewrite (proj2 (oq_num _ _ _ _ Ho)). destruct l; cbn [deliver]; rewrite ?(proj2 (Z.leb_le _ _) Hni);
        cbn; by rewrite orb_false_r. }
    destruct (one_queue_slots _ _ _ _ Ho) as (t & Ht & Eh & He & Hfr).
    replace (num - i) with (Z.of_nat (Z.to_nat (num - i))) by lia.
    destruct (vec_collect_one n L hd l t (Z.to_nat (num - i)) (Z.to_nat num) 0 qh Ho Ht He Hfr)
      as (qh' & Ec & Eq); [lia|lia|lia|lia|by rewrite Hq, Eh|].
    change (slots n t 0) with (@nil (Z * Z)) in Ec. rewrite Ec. clear Ec.
    set (m := (Z.to_nat (num - i) `min` length l)%nat) in *.
    destruct l as [|e l]; [cbn [length] in m; unfold m; rewrite Nat.min_0_r; cbn [slots seq fmap list_fmap deliver];
      rewrite (proj2 (oq_num _ _ _ _ Ho)), orb_false_r; done|].
    assert (Hm : exists m', m = S m') by (exists (pred m); unfold m; cbn [length]; lia). destruct Hm as [m' Em].
    destruct (slots n t m) as [|s ss] eqn:Es; [apply (f_equal length) in Es; rewrite slots_length in Es; cbn in Es; lia|].
    rewrite <-Es. clear s ss Es. rewrite (proj2 (oq_num _ _ _ _ Ho)).
    assert (El : e :: l = take m (e :: l) ++ drop m (e :: l)) by (by rewrite take_drop).
    assert (Hlen : length (take m (e :: l)) = m) by (rewrite length_take; unfold m; lia).
    rewrite <-Hlen at 1. rewrite El in Ho.
    rewrite (vec_handle_one n hd (take m (e :: l)) (drop m (e :: l)) num i t L Ho) by (lia || done).
    rewrite El at 2. rewrite deliver_app.
    destruct (deliver (fun M => M) (take m (e :: l)) num i L) as [[[out evs] L1]|] eqn:Ed; [|done].
    cbn [fmap option_fmap option_map with_queue fst snd mbind option_bind].
    destruct (deliver_frame _ _ _ _ _ _ _ Ed) as (F1 & F2 & F3). rewrite F1, (proj1 (oq_num _ _ _ _ Ho)).
    change (queue_next 0 1) with 0. rewrite orb_true_r.
    destruct out; [done|]. cbn [orb].
    destruct (Z.leb_spec num (i + Z.of_nat (length evs))) as [Hst|Hgo].
    + destruct (drop m (e :: l)); cbn [deliver]; rewrite ?(proj2 (Z.leb_le _ _) Hst);
        cbn [fmap option_fmap option_map mbind option_bind vec_result fst snd]; unfold vec_result; cbn; by rewrite app_nil_r.
    + assert (Ho' := deliver_all _ _ _ _ _ _ _ _ _ Ho Ed Hgo).
      assert (Eh' := deliver_head _ _ _ _ _ _ _ _ _ t Ho Ed Hgo (proj1 Ht) Eh).
      rewrite (IH _ _ _ _ (drop m (e :: l)) Ho').
      * cbn [orb]. by destruct (deliver _ (drop m (e :: l)) num _ L1) as [[[out2 evs2] L2]|].
      * rewrite length_drop. cbn [length] in Hf |- *. lia.
      * lia.
      * left. rewrite length_drop. pose proof (ro_len _ _ _ _ _ _ _ (oq_ring _ _ _ _ Ho)) as Hl.
        rewrite <-El in Hl. cbn [length] in Hl |- *. lia.
      * by rewrite Eh', Hlen.
Qed.

Lemma next_queue_id L : next_queue (l_ctx L) = 0 -> upd_lctx (fun x => x <| next_queue := 0 |>) L = L.
Proof. destruct L as [c ls x], x. cbn. by intros ->. Qed.

(** C24: with one core of the fast path, the poll that collects entries before it handles them
    gives the same events and leaves the same state as the poll that handles one entry
    after the other, and both fail on the same inputs, unless the queue is full of
    entries and the caller asks for more events than the queue has entries. *)
Theorem fastpath_poll_vec_scalar n hd l num L :
  one_queue n L hd l -> 0 ∈ dom (queues (l_ctx L)) -> Z.of_nat (length l) < n \/ num <= n ->
  fastpath_poll_vec num L = (fun p => (p.1.2, p.2)) <$> fastpath_poll num L.
Proof.
  intros Ho Hdom Hfull.
  assert (Hh : vec_heads L !!! 0 = rxq_head (lqueue L 0)).
  { unfold vec_heads. apply elem_of_dom in Hdom as [x Hx]. unfold lqueue.
    rewrite !lookup_total_alt, lookup_fmap, Hx. done. }
  destruct (oq_num _ _ _ _ Ho) as [Hnq Hnx]. destruct (oq_len _ _ _ _ Ho) as [Hlen Hn].
  pose proof (ro_len _ _ _ _ _ _ _ (oq_ring _ _ _ _ Ho)) as Hl.
  assert (Hfuel : rxq_fuel L = Z.to_nat n).
  { unfold rxq_fuel. rewrite Hlen. change sizeof_arx with 32. by rewrite Z.mul_comm, Z.div_mul by lia. }
  unfold fastpath_poll_vec, fastpath_poll, vec_fuel. rewrite Hnq, Hfuel. change (Z.to_nat 1) with 1%nat.
  rewrite (vec_loop_one n hd _ num 0 false _ L l Ho) by (lia || done). cbn [fastpath_poll_loop orb].
  destruct (Z.leb_spec num 0) as [Hz|Hz].
  - assert (Ed : deliver (fun M => M) l num 0 L = Some (false, [], L))
      by (destruct l; cbn [deliver]; [done|]; by rewrite (proj2 (Z.leb_le _ _) Hz)).
    rewrite Ed. cbn [fmap option_fmap option_map vec_result fst snd mbind option_bind].
    rewrite (next_queue_id L Hnx). by destruct l.
  - rewrite Hnx, Hfuel, (fastpath_queue_deliver n hd _ num 0 L l Ho) by lia.
    rewrite deliver_flags_once, (proj2 (Z.leb_gt num 0) Hz). cbn [negb].
    destruct (deliver (fun M => M) l num 0 L) as [[[out evs] L1]|] eqn:Ed; [|done].
    destruct (deliver_frame _ _ _ _ _ _ _ Ed) as (F1 & F2 & F3).
    cbn [fmap option_fmap option_map vec_result fst snd mbind option_bind].
    rewrite Hnx in F2. rewrite Hnq in F1. rewrite (next_queue_id L1 F2).
    assert (Hid : forall M, num_queues (l_ctx M) = 1 -> next_queue (l_ctx M) = 0 ->
      upd_lctx (fun x => x <| next_queue := ring_wrap (num_queues x) (next_queue x) 1 |>) M = M).
    { intros M H1 H2. destruct M as [c ls x], x. cbn in *. by rewrite H1, H2. }
    destruct l as [|e l].
    + destruct out; cbn [mbind option_bind fmap option_fmap option_map fst snd]; [done|].
      rewrite (Hid L1 F1 F2), app_nil_r. done.
    + unfold flagged. cbn [fst snd]. destruct out; cbn [mbind option_bind fmap option_fmap option_map fst snd]; [done|].
      rewrite (Hid (or_flags CTX_FLAG_POLL_EVENTS L1) F1 F2), app_nil_r. done.
Qed.

(** ** Examples *)

(** An open connection 5 with buffers of 100 bytes. *)
Definition ex_lconn : flextcp_connection :=
  connection_init <| lc_status := LCONN_OPEN |> <| rxb_base := 1000 |> <| rxb_len := 100 |>
    <| txb_base := 2000 |> <| txb_len := 100 |> <| lc_flow_id := 3 |>.
Definition ex_arx (n : Z) : arx := mk_arx FLEXTCP_PL_ARX_CONNUPDATE 5 n 0 0 0.

(** A context with one queue of [n] entries; the first ones are [l]. *)
Definition ex_ring (l : list arx) : gmap Z arx := list_to_map (zip (Z.mul 32 <$> seqZ 0 (Z.of_nat (length l))) l).
Definition ex_lctx (n : Z) (l : list arx) : flextcp_context :=
  mk_fctx ∅ 16 0 ∅ 16 0 (32 * n) 64 {[0 := mk_lq ∅ (ex_ring l) 0 0 64 0]} 0 0 0 1 1 0 0 0 [].
Definition ex_lst (c : flextcp_connection) (n : Z) (l : list arx) : libst :=
  mk_libst {[5 := c]} ∅ (ex_lctx n l).

Lemma ex_one_queue : one_queue 2 (ex_lst ex_lconn 2 [ex_arx 10]) 32 [ex_arx 10].
Proof.
  constructor; [done|cbn; lia| |by intros e ->%list_elem_of_singleton].
  change (ring_of arx_free 32 2 (rxq (mk_lq ∅ (ex_ring [ex_arx 10]) 0 0 64 0)) 0 32 [ex_arx 10]).
  cbn [rxq]. apply (ring_of_push arx_free 32 2 ∅ 0 0 []); [lia| |done|done].
  apply ring_of_new; [lia|lia|]. intros k. by rewrite lookup_total_empty.
Qed.

Lemma fastpath_poll_vec_scalar_witness :
  fastpath_poll_vec 4 (ex_lst ex_lconn 2 [ex_arx 10])
  = (fun p => (p.1.2, p.2)) <$> fastpath_poll 4 (ex_lst ex_lconn 2 [ex_arx 10])
  /\ fst <$> fastpath_poll_vec 4 (ex_lst ex_lconn 2 [ex_arx 10]) = Some [EV_CONN_RECEIVED 5 1000 10].
Proof.
  split; [|by vm_compute].
  apply (fastpath_poll_vec_scalar 2 32 [ex_arx 10]); [apply ex_one_queue|by vm_compute|by left].
Defined.

(** A full queue and more events asked for than it has entries: an entry is collected
    twice, and the assertion on its type fails the second time. *)
Example fastpath_poll_vec_full_aborts :
  fastpath_poll_vec 3 (ex_lst ex_lconn 2 [ex_arx 10; ex_arx 20]) = None
  /\ (fun p => p.1.2) <$> fastpath_poll 3 (ex_lst ex_lconn 2 [ex_arx 10; ex_arx 20])
     = Some [EV_CONN_RECEIVED 5 1000 10; EV_CONN_RECEIVED 5 1010 20].
Proof. split; by vm_compute. Qed.

(** * Blocking

    What the polls and the grace period promise to an application that wants to block. *)

(** ** The flags after a poll *)

(** [found]: an entry was found. *)
Definition noted (found : bool) (L L' : libst) : Prop :=
  lx_flags (l_ctx L') = (if found then Z.lor CTX_FLAG_POLL_EVENTS (lx_flags (l_ctx L)) else lx_flags (l_ctx L))
  /\ last_inev_ts (l_ctx L') = last_inev_ts (l_ctx L).

Lemma noted_same L L' : same_wait L L' -> noted false L L'.
Proof. done. Qed.

Lemma noted_flag L : noted true L (or_flags CTX_FLAG_POLL_EVENTS L).
Proof. done. Qed.

Lemma noted_trans b b' L1 L2 L3 : noted b L1 L2 -> noted b' L2 L3 -> noted (b || b') L1 L3.
Proof.
  intros [E1 T1] [E2 T2]. split; [|congruence]. rewrite E2, E1.
  destruct b, b'; cbn [orb]; rewrite ?Z.lor_assoc, ?Z.lor_diag; done.
Qed.

Lemma event_kappin_wait mem e avail L r L' : event_kappin mem e avail L = Some (r, L') -> same_wait L L'.
Proof.
  assert (Hopen : forall I (f : I -> flextcp_connection -> flextcp_connection) ev conn s i,
    kappin_open f ev conn s i avail L = Some (r, L') -> same_wait L L').
  { intros I f ev conn s i H. unfold kappin_open in H. destruct (negb (s =? 0)); [by injection H as <- <-|].
    destruct (early_no_space _ _); [by injection H as <- <-|]. destruct i as [i|]; [|done].
    cbn [mbind option_bind] in H. unfold early_events in H. injection H as <- <-. by destruct (0 <? _). }
  destruct e as [|[] o s|conn s i|lst ip port gre|conn s i]; cbn [event_kappin]; intros H;
    first [done|by apply Hopen in H|by injection H as <- <-].
Qed.

Lemma kernel_poll_noted mem fuel : forall num i L full evs L',
  kernel_poll_loop mem fuel num i L = Some (full, evs, L') ->
  exists found, noted found L L' /\ (evs <> [] -> found = true).
Proof.
  induction fuel as [|fuel IH]; intros num i L full evs L' H; cbn [kernel_poll_loop] in H.
  { apply (inj Some), (inj2 pair) in H as [[_ <-]%(inj2 pair) <-]. by exists false. }
  cbv zeta in H. destruct (appin_free _).
  { apply (inj Some), (inj2 pair) in H as [[_ <-]%(inj2 pair) <-]. by exists false. }
  destruct (event_kappin _ _ _ _) as [[r L1]|] eqn:Ee; cbn [mbind option_bind] in H; [|done].
  apply event_kappin_wait, noted_same in Ee. pose proof (noted_trans _ _ _ _ _ Ee (noted_flag L1)) as H1. cbn [orb] in H1.
  set (L2 := or_flags CTX_FLAG_POLL_EVENTS L1) in *. clearbody L2.
  destruct r as [evs1|]; [|apply (inj Some), (inj2 pair) in H as [_ <-]; by exists true].
  destruct (num <=? _).
  { apply (inj Some), (inj2 pair) in H as [_ <-]. by exists true. }
  destruct (kernel_poll_loop _ _ _ _ _) as [[[full2 evs2] L3]|] eqn:Ek; cbn [mbind option_bind] in H; [|done].
  apply (inj Some), (inj2 pair) in H as [_ <-]. apply IH in Ek as (b & Hb & _).
  exists true. split; [|done]. exact (noted_trans true b L L2 L3 H1 Hb).
Qed.

Lemma vec_handle_wait arxs : forall num i q L out evs q' L',
  vec_handle arxs num i q L = Some (out, evs, q', L') -> same_wait L L'.
Proof.
  induction arxs as [|[q1 pos] arxs IH]; intros num i q L out evs q' L' H; cbn [vec_handle] in H.
  { by apply (inj Some), (inj2 pair) in H as [_ <-]. }
  destruct (num <=? i); [by apply (inj Some), (inj2 pair) in H as [_ <-]|].
  cbv zeta in H. destruct (cassert _); cbn [mbind option_bind] in H; [|done].
  assert (He : forall p : option (list flextcp_event) * libst, (if arx_type (rxq (lqueue L q1) !!! pos) =? FLEXTCP_PL_ARX_CONNUPDATE
      then event_arx_connupdate (rxq (lqueue L q1) !!! pos) (num - i) q1 L else Some (Some [], L)) = Some p -> same_wait L p.2).
  { intros [r L1]. destruct (_ =? _); [|by intros [= <- <-]]. intros Ev. by apply event_arx_queues in Ev as [? _]. }
  destruct (if arx_type _ =? _ then _ else _) as [[r L1]|]; cbn [mbind option_bind] in H; [|done].
  specialize (He _ eq_refl). cbn [snd] in He.
  destruct r as [evs1|]; [|by apply (inj Some), (inj2 pair) in H as [_ <-]].
  destruct (vec_handle arxs _ _ _ _) as [[[[out2 evs2] q2] L2]|] eqn:Ev; cbn [mbind option_bind] in H; [|done].
  apply (inj Some), (inj2 pair) in H as [_ <-]. apply IH in Ev. etransitivity; [exact He|exact Ev].
Qed.

Lemma vec_loop_wait fuel : forall num i found qh L evs found' q L',
  vec_loop fuel num i found qh L = Some (evs, found', q, L') ->
  same_wait L L' /\ (evs <> [] \/ found = true -> found' = true).
Proof.
  induction fuel as [|fuel IH]; intros num i found qh L evs found' q L' H; cbn [vec_loop] in H;
    (destruct (num <=? i); [injection H as <- <- <- <-; split; [done|by intros [|]]|]);
    destruct (vec_collect _ _ _ _ _) as [qh' arxs]; destruct arxs as [|a arxs]; try done;
    try (injection H as <- <- <- <-; split; [done|by intros [|]]).
  destruct (vec_handle _ _ _ _ _) as [[[[out evs1] q1] L1]|] eqn:Ev; cbn [mbind option_bind] in H; [|done].
  apply vec_handle_wait in Ev. cbv zeta in H. destruct (_ || _); [by injection H as <- <- <- <-|].
  destruct (vec_loop fuel _ _ _ _ _) as [[[[evs2 f2] q2] L2]|] eqn:El; cbn [mbind option_bind] in H; [|done].
  injection H as <- <- <- <-. apply IH in El as [H2 Hf]. split; [by etransitivity|]. intros _. apply Hf. by right.
Qed.

Lemma fastpath_poll_vec_noted num L evs L' : fastpath_poll_vec num L = Some (evs, L') ->
  exists found, noted found L L' /\ (evs <> [] -> found = true).
Proof.
  unfold fastpath_poll_vec. intros H.
  destruct (vec_loop _ _ _ _ _ _) as [[[[evs1 found] q] L1]|] eqn:Ev; cbn [mbind option_bind] in H; [|done].
  apply vec_loop_wait in Ev as [[H1 H2] Hf]. injection H as <- <-. exists found.
  split; [|intros; apply Hf; by left]. unfold noted. destruct found; cbn; by rewrite ?H1.
Qed.

Lemma txq_probe_each_wait k n q L : same_wait L (txq_probe_each k n q L).
Proof.
  revert q L. induction k as [|k IH]; intros q L; [done|]. cbn [txq_probe_each].
  etransitivity; [|apply IH]. unfold txq_probe_queue. cbv zeta. by destruct (_ <? _).
Qed.

Lemma tx_done_wait info now core L : same_wait L (flextcp_context_tx_done info now core L).
Proof.
  unfold flextcp_context_tx_done, flextcp_flexnic_kick. destruct (_ =? _); [done|]. by destruct (_ <? _).
Qed.

Lemma bump_sent_wait info now conn pos L : same_wait L (bump_sent info now conn pos L).
Proof.
  unfold bump_sent. cbv zeta. set (L1 := upd_queue _ _ L).
  assert (H1 : same_wait L L1) by done. clearbody L1.
  pose proof (tx_done_wait info now (lc_fn_core (lconn L conn)) L1) as H2.
  revert H2. generalize (flextcp_context_tx_done info now (lc_fn_core (lconn L conn)) L1). intros L2 H2.
  etransitivity; [exact H1|]. etransitivity; [exact H2|done].
Qed.

Lemma conns_bump_wait info now fuel : forall L L', conns_bump_loop info now fuel L = Some L' -> same_wait L L'.
Proof.
  induction fuel as [|fuel IH]; intros L L' H; cbn [conns_bump_loop] in H;
    (destruct (_ =? 0); [by injection H as <-|]); [done|].
  destruct (cassert _); cbn [mbind option_bind] in H; [|done].
  destruct (flextcp_context_tx_alloc _ _); [|by injection H as <-].
  apply IH in H. etransitivity; [apply bump_sent_wait|exact H].
Qed.

(** A poll is noted, and events are. *)
Lemma context_poll_noted info now mem num L evs L' :
  flextcp_context_poll info now mem num L = Some (evs, L') ->
  exists found : bool, (evs <> [] -> found = true)
  /\ lx_flags (l_ctx L') = (if found then Z.lor CTX_FLAG_POLL_EVENTS (Z.lor CTX_FLAG_POLL_CALLED (lx_flags (l_ctx L)))
                            else Z.lor CTX_FLAG_POLL_CALLED (lx_flags (l_ctx L)))
  /\ last_inev_ts (l_ctx L') = last_inev_ts (l_ctx L).
Proof.
  unfold flextcp_context_poll. cbv zeta. set (L0 := or_flags CTX_FLAG_POLL_CALLED L). intros H.
  assert (Hfin : forall b M, noted b L0 M -> lx_flags (l_ctx M)
      = (if b then Z.lor CTX_FLAG_POLL_EVENTS (Z.lor CTX_FLAG_POLL_CALLED (lx_flags (l_ctx L)))
         else Z.lor CTX_FLAG_POLL_CALLED (lx_flags (l_ctx L)))
    /\ last_inev_ts (l_ctx M) = last_inev_ts (l_ctx L)) by done.
  destruct (kernel_poll mem num L0) as [[[full evs1] L1]|] eqn:Ek; cbn [mbind option_bind] in H; [|done].
  unfold kernel_poll in Ek. apply kernel_poll_noted in Ek as (b1 & H1 & Hb1). destruct full.
  { injection H as <- <-. exists b1. split; [done|]. by apply Hfin. }
  destruct (fastpath_poll_vec _ L1) as [[evs2 L2]|] eqn:Ev; cbn [mbind option_bind] in H; [|done].
  apply fastpath_poll_vec_noted in Ev as (b2 & H2 & Hb2).
  destruct (conns_bump info now _) as [L3|] eqn:Ec; cbn [mbind option_bind] in H; [|done].
  unfold conns_bump in Ec. apply conns_bump_wait in Ec. injection H as <- <-. exists (b1 || b2). split.
  - intros Hne. destruct evs1 as [|x evs1]; [|by rewrite Hb1]. rewrite Hb2 by done. apply orb_true_r.
  - apply Hfin. rewrite <-(orb_false_r (b1 || b2)). eapply noted_trans; [by eapply noted_trans|].
    apply noted_same. etransitivity; [apply txq_probe_each_wait|exact Ec].
Qed.

(** ** Histories *)

(** What an application does with a context: a poll with its events, the question whether it
    may wait, with the time of the call, clearing after a wait, and anything else. *)
Inductive wait_act : Type :=
| WPoll (evs : list flextcp_event) | WCan (now : Z) | WClear | WOther.

Section Wait.
Context (info : flexnic_info) (flexnic_mem : Z).

(** Other calls of the library, and what the two paths of TAS do with the shared memory,
    leave the flags alone. *)
Inductive wait_step : libst -> wait_act -> libst -> Prop :=
| ws_poll now num L evs L' :
    flextcp_context_poll info now flexnic_mem num L = Some (evs, L') -> wait_step L (WPoll evs) L'
| ws_can now L : wait_step L (WCan now) (flextcp_context_canwait info now L).2
| ws_clear L : wait_step L WClear (flextcp_context_waitclear L)
| ws_other L L' : same_wait L L' -> wait_step L WOther L'.

Inductive wait_steps (L0 : libst) : list wait_act -> libst -> Prop :=
| wss_nil : wait_steps L0 [] L0
| wss_snoc acts L a L' : wait_steps L0 acts L -> wait_step L a L' -> wait_steps L0 (acts ++ [a]) L'.

(** The four flags. *)
Definition enc (pc ev ww lw : bool) : Z :=
  Z.b2z pc + 2 * Z.b2z ev + 4 * Z.b2z ww + 8 * Z.b2z lw.

(** No poll of [acts] has given events, and nothing was cleared. *)
Definition quiet_act (a : wait_act) : Prop :=
  match a with WPoll evs => evs = [] | WClear => False | _ => True end.
Definition quiet (acts : list wait_act) : Prop := Forall quiet_act acts.
Definition polled (acts : list wait_act) : Prop := exists evs, WPoll evs ∈ acts.

(** The grace period runs since [t0], with [a1] after it. *)
Definition grace (acts : list wait_act) (t0 : Z) (a1 : list wait_act) : Prop :=
  exists a0, acts = a0 ++ WCan t0 :: a1.

(** The grace period from [t0] was over at [t1], with [a2] after it. *)
Definition grace_over (acts : list wait_act) (a2 : list wait_act) : Prop :=
  exists a0 t0 a1 t1, acts = a0 ++ WCan t0 :: a1 ++ WCan t1 :: a2
  /\ poll_cycle_app info < u64 (t1 - t0) /\ quiet a1.

Lemma quiet_snoc acts a : quiet acts -> quiet_act a -> quiet (acts ++ [a]).
Proof. intros H Ha. apply Forall_app. split; [done|]. by constructor. Qed.

Lemma grace_snoc acts t0 a1 a : grace acts t0 a1 -> grace (acts ++ [a]) t0 (a1 ++ [a]).
Proof. intros [a0 ->]. exists a0. by rewrite <-app_assoc. Qed.

Lemma grace_over_snoc acts a2 a : grace_over acts a2 -> grace_over (acts ++ [a]) (a2 ++ [a]).
Proof.
  intros (a0 & t0 & a1 & t1 & -> & H). exists a0, t0, a1, t1. split; [|done].
  by rewrite <-app_assoc; cbn; rewrite <-app_assoc.
Qed.

(** What the flags say about the history. *)
Record wait_inv (acts : list wait_act) (L : libst) (pc ev ww lw : bool) : Prop := mk_wait_inv {
  wi_flags : lx_flags (l_ctx L) = enc pc ev ww lw;
  wi_excl : ww = true -> lw = false;
  wi_want : ww = true -> exists a1, grace acts (last_inev_ts (l_ctx L)) a1 /\ (ev = false -> quiet a1);
  wi_last : lw = true -> exists a2, grace_over acts a2 /\ (ev = false -> quiet a2)
                                    /\ (pc = true -> polled a2) }.

(** The effect of each action on the flags. *)
Lemma poll_flags_enc (found : bool) pc ev ww lw :
  (if found then Z.lor 2 (Z.lor 1 (enc pc ev ww lw)) else Z.lor 1 (enc pc ev ww lw))
  = enc true (ev || found) ww lw.
Proof. by destruct found, pc, ev, ww, lw. Qed.

Lemma waitclear_enc pc ev ww lw : flags_clear (enc pc ev ww lw) 13 = enc false ev false false.
Proof. by destruct pc, ev, ww, lw. Qed.

Lemma canwait_enc now L pc ev ww lw :
  poll_cycle_app info <> UINT64_MAX -> lx_flags (l_ctx L) = enc pc ev ww lw -> (ww = true -> lw = false) ->
  let over := poll_cycle_app info <? u64 (now - last_inev_ts (l_ctx L)) in
  let '(can, L') := flextcp_context_canwait info now L in
  can = negb ev && lw && pc
  /\ lx_flags (l_ctx L') = (if ev then enc pc false false false
                            else if ww then (if over then enc false false false true else enc pc ev ww lw)
                            else if lw then enc pc ev ww lw
                            else enc pc ev pc lw)
  /\ last_inev_ts (l_ctx L') = (if negb ev && negb ww && negb lw && pc then now else last_inev_ts (l_ctx L)).
Proof.
  intros Hc Hf Hx over. unfold flextcp_context_canwait. rewrite (proj2 (Z.eqb_neq _ _) Hc), Hf. fold over. clearbody over.
  destruct ww; [specialize (Hx eq_refl); subst lw|destruct lw]; destruct pc, ev, over; cbn; split_and!; first [done|exact Hf].
Qed.

Lemma wait_inv_step acts L pc ev ww lw a L' :
  poll_cycle_app info <> UINT64_MAX -> wait_inv acts L pc ev ww lw -> wait_step L a L' ->
  exists pc' ev' ww' lw', wait_inv (acts ++ [a]) L' pc' ev' ww' lw'.
Proof.
  intros Hc [Hf Hx Hw Hl] Hs. destruct Hs as [now num L evs L' Hp|now L|L|L L' [Hs Ht]].
  - apply context_poll_noted in Hp as (found & Hfound & Hf' & Ht). rewrite Hf in Hf'.
    assert (Hqu : ev || found = false -> quiet_act (WPoll evs)).
    { intros [_ ->]%orb_false_iff. destruct evs; [done|]. by discriminate Hfound. }
    exists true, (ev || found), ww, lw. constructor; [|done|..].
    + rewrite Hf'. by rewrite <-(poll_flags_enc found pc).
    + intros Hww. destruct (Hw Hww) as (a1 & Hg & Hq). exists (a1 ++ [WPoll evs]). rewrite Ht.
      split; [by apply grace_snoc|].
      intros He. apply quiet_snoc; [apply Hq; by apply orb_false_iff in He as [? _]|by apply Hqu].
    + intros Hlw. destruct (Hl Hlw) as (a2 & Hg & Hq & _). exists (a2 ++ [WPoll evs]).
      split; [by apply grace_over_snoc|].
      split; [|intros _; exists evs; apply elem_of_app; right; by apply list_elem_of_singleton].
      intros He. apply quiet_snoc; [apply Hq; by apply orb_false_iff in He as [? _]|by apply Hqu].
  - pose proof (canwait_enc now L pc ev ww lw Hc Hf Hx) as H. cbv zeta in H.
    destruct (flextcp_context_canwait info now L) as [can L']. cbn [snd]. destruct H as (_ & Hf' & Ht').
    destruct ev; cbn [negb andb] in Ht'; [by exists pc, false, false, false|].
    destruct ww; cbn [negb andb] in Ht'.
    + rewrite (Hx eq_refl) in *. destruct (Hw eq_refl) as (a1 & Hg & Hq).
      destruct (Z.ltb_spec (poll_cycle_app info) (u64 (now - last_inev_ts (l_ctx L)))) as [Hov|Hov].
      * exists false, false, false, true. constructor; try done. intros _. exists []. split; [|by split; [intros _; constructor|]].
        destruct Hg as [a0 ->]. exists a0, (last_inev_ts (l_ctx L)), a1, now. rewrite <-app_assoc.
        split; [done|]. split; [done|by apply Hq].
      * exists pc, false, true, false. constructor; try done. intros _. exists (a1 ++ [WCan now]).
        rewrite Ht'. split; [by apply grace_snoc|]. intros _. apply quiet_snoc; [by apply Hq|done].
    + destruct lw; cbn [negb andb] in Ht'.
      * exists pc, false, false, true. constructor; try done. intros _.
        destruct (Hl eq_refl) as (a2 & Hg & Hq & Hp). exists (a2 ++ [WCan now]).
        split; [by apply grace_over_snoc|]. split; [intros _; apply quiet_snoc; [by apply Hq|done]|].
        intros Hpc. destruct (Hp Hpc) as [b Hb]. exists b. apply elem_of_app. by left.
      * exists pc, false, pc, false. constructor; try done. intros ->. exists [].
        rewrite Ht'. split; [by exists acts|intros _; constructor].
  - exists false, ev, false, false. constructor; try done.
    unfold flextcp_context_waitclear, set_ctx_flags. cbn [l_ctx lx_flags upd_lctx setf]. rewrite Hf. apply waitclear_enc.
  - exists pc, ev, ww, lw. constructor; [by rewrite Hs|done|..]; rewrite ?Ht.
    + intros Hww. destruct (Hw Hww) as (a1 & Hg & Hq). exists (a1 ++ [WOther]).
      split; [by apply grace_snoc|]. intros He. by apply quiet_snoc; [apply Hq|].
    + intros Hlw. destruct (Hl Hlw) as (a2 & Hg & Hq & Hp). exists (a2 ++ [WOther]).
      split; [by apply grace_over_snoc|]. split; [intros He; by apply quiet_snoc; [apply Hq|]|].
      intros Hpc. destruct (Hp Hpc) as [b Hb]. exists b. apply elem_of_app. by left.
Qed.

Lemma wait_inv_run L0 acts L : poll_cycle_app info <> UINT64_MAX -> lx_flags (l_ctx L0) = 0 ->
  wait_steps L0 acts L -> exists pc ev ww lw, wait_inv acts L pc ev ww lw.
Proof.
  intros Hc Hf Hs. induction Hs as [|acts L a L' Hs (pc & ev & ww & lw & H) Hst].
  - exists false, false, false, false. by constructor.
  - by apply (wait_inv_step _ _ _ _ _ _ _ _ Hc H Hst).
Qed.

(** C23: an application that starts with a new context, and polls it ([flextcp_context_poll]),
    asks whether it may block, blocks, and does anything else, in any order and number, is
    allowed to block only when two earlier questions are more than the poll cycle apart, no
    poll since the first of them has given an event, nothing was cleared in between, and the
    context was polled after the second one. *)
Theorem canwait_safe L0 acts L now L' :
  lx_flags (l_ctx L0) = 0 -> wait_steps L0 acts L -> flextcp_context_canwait info now L = (true, L') ->
  exists a0 t0 a1 t1 a2, acts = a0 ++ WCan t0 :: a1 ++ WCan t1 :: a2
  /\ poll_cycle_app info < u64 (t1 - t0) /\ quiet (a1 ++ a2) /\ polled a2.
Proof.
  intros Hf Hs H. destruct (Z.eq_dec (poll_cycle_app info) UINT64_MAX) as [Ec|Hc].
  { unfold flextcp_context_canwait in H. by rewrite Ec in H. }
  destruct (wait_inv_run L0 acts L Hc Hf Hs) as (pc & ev & ww & lw & [Hfl Hx Hw Hl]).
  pose proof (canwait_enc now _ pc ev ww lw Hc Hfl Hx) as Hcan. rewrite H in Hcan. cbv zeta in Hcan.
  destruct Hcan as (Hb & _). symmetry in Hb. apply andb_true_iff in Hb as [[Hev Hlw]%andb_true_iff Hpc].
  apply negb_true_iff in Hev. destruct (Hl Hlw) as (a2 & (a0 & t0 & a1 & t1 & -> & Hov & Hq1) & Hq & Hp).
  exists a0, t0, a1, t1, a2. split; [done|]. split; [done|]. split; [|by apply Hp].
  apply Forall_app. split; [done|by apply Hq].
Qed.
End Wait.

(** A context on which nothing arrives: five calls, 200 cycles after the first question. *)
Definition ex_idle (f ts : Z) : libst :=
  mk_libst ∅ ∅ (mk_fctx ∅ 16 0 ∅ 16 0 f 0 ∅ 0 0 0 1 0 ts 0 0 []).

Lemma canwait_safe_witness :
  let info := mk_finfo 100 100 in
  exists L, wait_steps info 0 (ex_idle 0 0) [WPoll []; WCan 1000; WPoll []; WCan 1200; WPoll []] L
  /\ exists a0 t0 a1 t1 a2, [WPoll []; WCan 1000; WPoll []; WCan 1200; WPoll []] = a0 ++ WCan t0 :: a1 ++ WCan t1 :: a2
  /\ poll_cycle_app info < u64 (t1 - t0) /\ quiet (a1 ++ a2) /\ polled a2.
Proof.
  intros info. assert (Hs : exists L, wait_steps info 0 (ex_idle 0 0) [WPoll []; WCan 1000; WPoll []; WCan 1200; WPoll []] L
    /\ (flextcp_context_canwait info 1300 L).1 = true).
  { set (poll := fun L => match flextcp_context_poll info 0 0 4 L with Some p => p.2 | None => L end).
    assert (Hp : forall L, flextcp_context_poll info 0 0 4 L = Some ([], poll L) -> wait_step info 0 L (WPoll []) (poll L))
      by (intros L E; by eapply ws_poll).
    set (can := fun t L => (flextcp_context_canwait info t L).2).
    exists (poll (can 1200 (poll (can 1000 (poll (ex_idle 0 0)))))). split; [|by vm_compute].
    change [WPoll []; WCan 1000; WPoll []; WCan 1200; WPoll []]
      with ((((([] ++ [WPoll []]) ++ [WCan 1000]) ++ [WPoll []]) ++ [WCan 1200]) ++ [WPoll []]).
    eapply wss_snoc; [|apply Hp; by vm_compute]. eapply wss_snoc; [|apply ws_can].
    eapply wss_snoc; [|apply Hp; by vm_compute]. eapply wss_snoc; [|apply ws_can].
    eapply wss_snoc; [apply wss_nil|apply Hp; by vm_compute]. }
  destruct Hs as (L & Hs & Hcan). exists L. split; [exact Hs|].
  apply (canwait_safe info 0 (ex_idle 0 0) _ L 1300 (flextcp_context_canwait info 1300 L).2); [done|exact Hs|].
  destruct (flextcp_context_canwait info 1300 L) as [b L'] eqn:E. cbn [fst snd] in *. by rewrite Hcan.
Defined.

(** * What the application library promises *)

(** ** Buffers *)

(** A connection that is open: [A], [S], [N] are the positions in the transmit stream,
    [R] and [D] those in the receive stream. *)
Record open_conn (c : flextcp_connection) (A S N R D : Z) : Prop := mk_open_conn {
  oc_status : lc_status c = LCONN_OPEN;
  oc_tx : tx_rep c A S N; oc_eos : eos_ok c A S N; oc_rx : rx_rep c R D }.

Lemma eos_ok_same c c' A S N :
  lc_flags c' = lc_flags c -> txb_len c' = txb_len c -> eos_ok c A S N -> eos_ok c' A S N.
Proof.
  intros Ef El [E|E HN HS|E HN HS|E HN HS].
  - apply eos_open. by rewrite Ef.
  - apply eos_wait; rewrite ?Ef, ?El; done.
  - apply eos_sent; rewrite ?Ef; done.
  - apply eos_acked; rewrite ?Ef; done.
Qed.

(** The fields an open connection is about. *)
Definition same_buffers (c c' : flextcp_connection) : Prop :=
  same_tx c c' /\ same_rx c c' /\ lc_flags c' = lc_flags c.

Lemma open_conn_same c c' A S N R D : same_buffers c c' -> open_conn c A S N R D -> open_conn c' A S N R D.
Proof.
  intros (Et & Er & Ef) [Hs Ht He Hr]. constructor.
  - by rewrite (proj2 (proj2 (proj2 (proj2 Er)))).
  - by eapply tx_rep_same.
  - eapply eos_ok_same; [done|apply Et|done].
  - by eapply rx_rep_same.
Qed.

Lemma rx_events_received conn c b ev :
  ev ∈ rx_events conn c b -> exists buf n, ev = EV_CONN_RECEIVED conn buf n.
Proof.
  unfold rx_events. repeat case_match; cbn; rewrite ?elem_of_cons, ?elem_of_nil; naive_solver.
Qed.

Lemma evs_needed_split c e :
  evs_needed c e = Z.of_nat (length (rx_events (arx_opaque e) c (arx_rx_bump e)))
    + (if tx_avail_ev c (arx_tx_bump e) then 1 else 0)
    + (if txeos_alloc c && (u32 (txb_sent c - arx_tx_bump e) =? 0) then 1 else 0)
    + (if arx_eos e then 1 else 0).
Proof. unfold evs_needed. by rewrite rx_events_len. Qed.

(** The received bytes: one piece, or two when the buffer wraps around. *)
Definition recv_events (conn : Z) (c : flextcp_connection) (n : Z) : list flextcp_event :=
  let last := rxb_len c - rxb_head c in
  if n =? 0 then []
  else if last <? n then [EV_CONN_RECEIVED conn (rxb_base c + rxb_head c) last;
                          EV_CONN_RECEIVED conn (rxb_base c) (n - last)]
  else [EV_CONN_RECEIVED conn (rxb_base c + rxb_head c) n].

Lemma rx_events_recv conn c R D n : rx_rep c R D -> 0 <= n <= D + rxb_len c - R ->
  rx_events conn c n = recv_events conn c n.
Proof.
  intros [Hl Hle [Hh _] _] Hn. unfold rx_events, recv_events, rx_wraps. rewrite (u32_id (rxb_head c + n)) by cside.
  destruct (Z.ltb_spec 0 n), (Z.eqb_spec n 0); cbn [negb]; try lia; [|done].
  destruct (Z.ltb_spec (rxb_len c) (rxb_head c + n)), (Z.ltb_spec (rxb_len c - rxb_head c) n); try lia; [|done].
  by rewrite (u32_id (rxb_len c - rxb_head c)), u32_id by (rewrite ?u32_id; cside).
Qed.

(** The events an update has: the received bytes, room in a transmit buffer that was full,
    the end of the transmit stream, the end of the received stream. *)
Definition update_events (conn : Z) (e : arx) (c : flextcp_connection) (A S N : Z) : list flextcp_event :=
  recv_events conn c (arx_rx_bump e)
  ++ (if (0 <? arx_tx_bump e) && (N - A =? txb_len c) then [EV_CONN_SENDBUF conn] else [])
  ++ (if (lc_flags c =? 3) && (A + arx_tx_bump e =? S) then [EV_CONN_TXCLOSED conn] else [])
  ++ (if arx_eos e then [EV_CONN_RXCLOSED conn] else []).

(** The code counts one more when the end of the stream was acknowledged before. *)
Lemma evs_needed_events conn e c A S N R D : arx_opaque e = conn -> open_conn c A S N R D ->
  0 <= arx_rx_bump e <= D + rxb_len c - R -> 0 <= arx_tx_bump e <= S - A ->
  evs_needed c e = Z.of_nat (length (update_events conn e c A S N)) + (if lc_flags c =? 7 then 1 else 0)
  /\ tx_avail_ev c (arx_tx_bump e) = (0 <? arx_tx_bump e) && (N - A =? txb_len c).
Proof.
  intros Hop [_ Ht He Hr] Hrb Htb. rewrite evs_needed_split, Hop, (rx_events_recv _ _ _ _ _ Hr Hrb).
  assert (Eav : tx_avail_ev c (arx_tx_bump e) = (0 <? arx_tx_bump e) && (N - A =? txb_len c)).
  { unfold tx_avail_ev, flextcp_conn_txbuf_available. rewrite (tx_rep_allocbytes _ _ _ _ Ht). f_equal.
    destruct (Z.eqb_spec (A + txb_len c - N) 0), (Z.eqb_spec (N - A) (txb_len c)); lia. }
  split; [|exact Eav]. unfold update_events. rewrite !length_app, Eav, (tr_sent _ _ _ _ Ht).
  rewrite (u32_id (S - A - arx_tx_bump e)) by (destruct Ht; cside). unfold txeos_alloc.
  assert (Eq : (S - A - arx_tx_bump e =? 0) = (A + arx_tx_bump e =? S))
    by (destruct (Z.eqb_spec (S - A - arx_tx_bump e) 0), (Z.eqb_spec (A + arx_tx_bump e) S); lia).
  rewrite Eq. set (n1 := length _). clearbody n1.
  destruct He as [E|E HN HS|E HN HS|E HN HS]; rewrite E;
    match goal with |- context [has_flag ?f CONN_FLAG_TXEOS_ALLOC] =>
      let b := eval vm_compute in (has_flag f CONN_FLAG_TXEOS_ALLOC) in
      change (has_flag f CONN_FLAG_TXEOS_ALLOC) with b end; cbn [andb Z.eqb Pos.eqb].
  4: rewrite (proj2 (Z.eqb_eq (A + arx_tx_bump e) S)) by lia.
  all: repeat case_match; cbn [length]; lia.
Qed.

(** C13: an update of the fast path for an open connection, for at most the free bytes of the
    receive buffer and at most the unacknowledged bytes of the transmit buffer, never fails.
    It is refused when the space for events is less than the events it has, one more when
    the end of the transmit stream was acknowledged before (the code counts it again); the
    connection then only gets the number of the core, and nothing else changes.  Otherwise it
    writes exactly these events: the received bytes, in one piece, or two when the buffer
    wraps around, at the places of the next bytes of the stream; room for a transmit buffer
    that was full; the end of the transmit stream when its last byte is acknowledged; the
    end of the received stream.  The received bytes are then the application's, the
    acknowledged ones are free again, and a FIN that waited for room gets its place. *)
Theorem arx_connupdate_events conn e outn core L A S N R D :
  arx_opaque e = conn ->
  open_conn (lconn L conn) A S N R D ->
  0 <= arx_rx_bump e <= D + rxb_len (lconn L conn) - R ->
  0 <= arx_tx_bump e <= S - A ->
  let c := lconn L conn in
  let evs := update_events conn e c A S N in
  let d := if (lc_flags c =? 1) && (0 <? arx_tx_bump e) then 1 else 0 in
  (outn < Z.of_nat (length evs) + (if lc_flags c =? 7 then 1 else 0)
   /\ event_arx_connupdate e outn core L
      = Some (None, set_lconn conn (fun c => c <| lc_fn_core := core |>) L))
  \/ (Z.of_nat (length evs) + (if lc_flags c =? 7 then 1 else 0) <= outn
      /\ events_bytes conn evs = rx_addrs c R (arx_rx_bump e)
      /\ exists L', event_arx_connupdate e outn core L = Some (Some evs, L')
         /\ open_conn (lconn L' conn) (A + arx_tx_bump e) (S + d) (N + d) (R + arx_rx_bump e) D).
Proof.
  intros Hop Ho Hrb Htb c evs d. unfold event_arx_connupdate. rewrite Hop.
  set (M := set_lconn conn _ L).
  assert (EM : lconn M conn = c <| lc_fn_core := core |>) by (unfold M; by rewrite lconn_set).
  assert (HoM : open_conn (lconn M conn) A S N R D).
  { eapply open_conn_same; [|exact Ho]. rewrite EM. by repeat split. }
  destruct (evs_needed_events conn e c A S N R D Hop Ho Hrb Htb) as [En Eav].
  rewrite (oc_status _ _ _ _ _ _ HoM).
  change (evs_needed (lconn M conn) e) with (evs_needed (lconn M conn) e).
  replace (evs_needed (lconn M conn) e) with (evs_needed c e) by (by rewrite EM).
  rewrite En. fold evs. destruct (Z.ltb_spec outn (Z.of_nat (length evs) + (if lc_flags c =? 7 then 1 else 0))) as [Hfew|Hroom];
    [by left|right]. split; [done|].
  assert (Hby : events_bytes conn evs = rx_addrs c R (arx_rx_bump e)).
  { unfold evs, update_events. rewrite events_bytes_app.
    rewrite <-(rx_events_recv conn c R D), (rx_events_bytes conn c R D) by (apply Ho || done).
    rewrite <-(app_nil_r (rx_addrs _ _ _)) at 2. f_equal. by repeat case_match. }
  split; [exact Hby|].
  set (M2 := set_lconn conn (rx_update (arx_rx_bump e)) M).
  assert (E2 : lconn M2 conn = rx_update (arx_rx_bump e) (lconn M conn)) by (unfold M2; by rewrite lconn_set).
  assert (HM2 : same_tx (lconn M conn) (lconn M2 conn) /\ lc_flags (lconn M2 conn) = lc_flags c
                /\ lc_status (lconn M2 conn) = LCONN_OPEN).
  { rewrite E2, <-(oc_status _ _ _ _ _ _ HoM), EM. unfold rx_update. destruct (negb _); by repeat split. }
  destruct HM2 as (Hst2 & Hf2 & Hs2). destruct HoM as [_ Ht He Hr].
  destruct (tx_bumped_rep conn (arx_tx_bump e) (tx_avail_ev (lconn M conn) (arx_tx_bump e)) M2 A S N)
    as (L' & Etx & Ht' & He' & Hsr); [by eapply tx_rep_same
      |apply (eos_ok_same (lconn M conn)); [by rewrite Hf2, EM|apply Hst2|done]|done|].
  rewrite Etx, Hf2. cbn [mbind option_bind]. rewrite Hf2 in Ht', He'. fold d in Ht', He'.
  assert (Hr' : rx_rep (lconn L' conn) (R + arx_rx_bump e) D).
  { eapply rx_rep_same; [exact Hsr|]. rewrite E2. apply rx_update_rep; [done|]. rewrite EM. exact Hrb. }
  assert (Hopen : open_conn (lconn L' conn) (A + arx_tx_bump e) (S + d) (N + d) (R + arx_rx_bump e) D)
    by (constructor; [rewrite (proj2 (proj2 (proj2 (proj2 Hsr)))); exact Hs2|done..]).
  assert (Eev : rx_events conn (lconn M conn) (arx_rx_bump e)
      ++ ack_events conn (arx_tx_bump e) (tx_avail_ev (lconn M conn) (arx_tx_bump e)) (lc_flags c) A S
      ++ (if arx_eos e then [EV_CONN_RXCLOSED conn] else []) = evs).
  { unfold evs, update_events, ack_events. rewrite <-(rx_events_recv conn c R D) by (apply Ho || done).
    replace (tx_avail_ev (lconn M conn) (arx_tx_bump e)) with (tx_avail_ev c (arx_tx_bump e)) by (by rewrite EM).
    rewrite Eav, <-!app_assoc, EM. by destruct (0 <? _). }
  rewrite <-Eev. destruct (arx_eos e).
  - eexists. split; [by rewrite app_assoc|]. rewrite lconn_set. eapply open_conn_same; [|exact Hopen]. by repeat split.
  - eexists. split; [by rewrite app_nil_r|exact Hopen].
Qed.

(** An allocation in the transmit buffer of an open stream returns [n] bytes in a row
    inside the buffer, at the places of the next [n] bytes of the stream; none of them is
    the place of a byte that is allocated or not acknowledged, and [n] is positive when
    there is room. *)
Theorem tx_alloc_fresh conn len L A S N R D r buf L' :
  open_conn (lconn L conn) A S N R D -> 0 <= len -> txeos (lconn L conn) = false ->
  flextcp_connection_tx_alloc conn len L = (r, buf, L') ->
  let c := lconn L conn in
  0 <= r <= len /\ (0 < len -> N < A + txb_len c -> 0 < r)
  /\ tx_rep (lconn L' conn) A S (N + r)
  /\ (forall j, 0 <= j < r ->
        buf + j = txb_base c + (N + j) mod txb_len c
        /\ txb_base c <= buf + j < txb_base c + txb_len c
        /\ (forall k, A <= k < N -> txb_base c + k mod txb_len c <> buf + j)).
Proof.
  intros Ho Hl Heos Ha c. pose proof (oc_tx _ _ _ _ _ _ Ho) as Ht.
  destruct (tx_alloc_rep _ _ _ _ _ _ _ _ _ Ht Hl Heos Ha) as (Hr & Hr2 & Hr3 & Ht' & Hj).
  fold c in Hr2, Hr3, Hj. destruct Ht as [Hlen Hle _ _ _]. fold c in Hlen, Hle.
  split; [done|]. split; [done|]. split; [done|]. intros j Hjr. rewrite (Hj j Hjr).
  pose proof (Z.mod_pos_bound (N + j) (txb_len c)). split; [done|]. split; [lia|].
  intros k Hk Heq. assert (Hm : k mod txb_len c = (N + j) mod txb_len c) by lia.
  apply window_inj in Hm; lia.
Qed.

(** ** A poll for one event *)

(** When the transmit stream is closed and acknowledged, an update with received bytes
    counts one event more than it needs; a context polled for one event at a time never
    takes it: the poll returns nothing and leaves the entry at the head of the queue, so
    that every later poll is the same. *)
Theorem half_closed_poll_stuck L A R D :
  let L0 := L in
  let e := rxq (lqueue L 0) !!! rxq_head (lqueue L 0) in
  let conn := arx_opaque e in
  num_queues (l_ctx L) = 1 -> next_queue (l_ctx L) = 0 -> 0 ∈ dom (queues (l_ctx L)) ->
  32 <= rxq_len (l_ctx L) -> arx_type e = FLEXTCP_PL_ARX_CONNUPDATE ->
  open_conn (lconn L conn) A A A R D -> lc_flags (lconn L conn) = 7 ->
  0 < arx_rx_bump e -> arx_tx_bump e = 0 ->
  exists L', fastpath_poll_vec 1 L = Some ([], L')
  /\ rxq (lqueue L' 0) = rxq (lqueue L 0) /\ rxq_head (lqueue L' 0) = rxq_head (lqueue L 0)
  /\ num_queues (l_ctx L') = 1 /\ next_queue (l_ctx L') = 0
  /\ open_conn (lconn L' conn) A A A R D /\ lc_flags (lconn L' conn) = 7.
Proof.
  intros L0 e conn Hn Hq Hdom Hlen Hty Ho Hf Hrb Htb. unfold L0; clear L0.
  assert (Hneed : 1 < evs_needed (lconn L conn) e).
  { rewrite evs_needed_split. pose proof (rx_events_len conn (lconn L conn) (arx_rx_bump e)) as Hl.
    destruct (Z.ltb_spec 0 (arx_rx_bump e)); [|lia]. fold conn.
    unfold txeos_alloc. rewrite Hf, Htb, (tr_sent _ _ _ _ (oc_tx _ _ _ _ _ _ Ho)), Z.sub_diag.
    change (has_flag 7 CONN_FLAG_TXEOS_ALLOC && (u32 (0 - 0) =? 0)) with true. cbv iota.
    destruct (rx_wraps _ _), (tx_avail_ev _ _), (arx_eos e); lia. }
  assert (Hev : event_arx_connupdate e 1 0 L
                = Some (None, set_lconn conn (fun c => c <| lc_fn_core := 0 |>) L)).
  { unfold event_arx_connupdate. fold conn. rewrite lconn_set.
    assert (Es : lc_status ((lconn L conn) <| lc_fn_core := 0 |>) = LCONN_OPEN) by exact (oc_status _ _ _ _ _ _ Ho).
    rewrite Es. change (evs_needed ((lconn L conn) <| lc_fn_core := 0 |>) e) with (evs_needed (lconn L conn) e).
    by rewrite (proj2 (Z.ltb_lt _ _) Hneed). }
  set (M := set_lconn conn (fun c => c <| lc_fn_core := 0 |>) L) in *.
  assert (Hh : vec_heads L !!! 0 = rxq_head (lqueue L 0)).
  { unfold vec_heads. apply elem_of_dom in Hdom as [x Hx]. unfold lqueue.
    rewrite !lookup_total_alt, lookup_fmap, Hx. done. }
  assert (Hcol : vec_collect (Z.to_nat 1) (1 - 0) L (vec_heads L) []
    = (<[0 := ring_wrap (rxq_len (l_ctx L)) (rxq_head (lqueue L 0)) sizeof_arx]> (vec_heads L),
       [(0, rxq_head (lqueue L 0))])).
  { change (Z.to_nat 1) with 1%nat. cbn [vec_collect].
    rewrite Hn, Hq. change (Z.to_nat 1) with 1%nat. cbn [vec_pass length].
    rewrite Hh. fold e. rewrite Hty. done. }
  eexists. unfold fastpath_poll_vec.
  assert (Hfuel : exists k, vec_fuel L = S k).
  { unfold vec_fuel, rxq_fuel, sizeof_arx. rewrite Hn. change (Z.to_nat 1) with 1%nat.
    exists (pred (1 * Z.to_nat (rxq_len (l_ctx L) / 32))).
    assert (1 <= rxq_len (l_ctx L) / 32) by (apply Z.div_le_lower_bound; lia). lia. }
  destruct Hfuel as [k ->]. cbn [vec_loop]. change (1 <=? 0) with false. cbv iota.
  rewrite Hcol. cbn [vec_handle]. change (1 <=? 0) with false. cbv iota. fold e. rewrite Hty.
  cbn [cassert mbind option_bind Z.eqb negb]. change (1 - 0) with 1.
  change (FLEXTCP_PL_ARX_CONNUPDATE =? 0) with false. cbn [negb cassert mbind option_bind].
  change (FLEXTCP_PL_ARX_CONNUPDATE =? FLEXTCP_PL_ARX_CONNUPDATE) with true. cbv iota.
  rewrite Hev. cbn [mbind option_bind orb]. split; [reflexivity|].
  split; [done|]. split; [done|]. split; [done|].
  split; [cbn; unfold queue_next; change (num_queues (l_ctx M)) with (num_queues (l_ctx L)); by rewrite Hn|].
  assert (Hc : same_buffers (lconn L conn) (lconn M conn)) by (unfold M; rewrite lconn_set; by repeat split).
  split; [by eapply open_conn_same; [exact Hc|]|]. by rewrite <-Hf; apply Hc.
Qed.

(** ** Bumps to the fast path *)

(** C14: the pending bumps of a context go to the fast path in the order of the list: the
    connections of a prefix of the list get one entry each, with their bumps and their
    sequence number, at the end of the queue of their core and in order.  Of these
    connections the bumps are then zero, the sequence number is one more and they leave the
    list, and none of their other fields changes (`bump_done`); the other connections are as
    they were, and the rest of the list waits only for a queue without a free entry.  The
    connections of the list are open and on an existing core. *)
Theorem conns_bump_sends info now n nq L tl pend l :
  bumps L l ->
  (forall c, c ∈ l -> lc_status (lconn L c) = LCONN_OPEN /\ 0 <= lc_fn_core (lconn L c) < nq) ->
  (forall q, 0 <= q < nq -> txq_rep n L q (tl q) (pend q)) ->
  exists L' l1 l2, conns_bump info now L = Some L' /\ l = l1 ++ l2
  /\ bumped n nq L L' tl pend l1 l2.
Proof.
  intros Hb Hs Hq. unfold conns_bump. apply conns_bump_loop_ok; try done.
  apply length_le_size; [apply (bu_nodup _ _ Hb)|]. intros c Hc. by eapply bumps_dom.
Qed.

(** No connection is in the list, but the end of the list is not [NULL]. *)
Definition bumps_lost (L : libst) : Prop :=
  bump_pending_first (l_ctx L) = 0 /\ bump_pending_last (l_ctx L) <> 0.

(** Closing the only connection with a pending bump leaves the end of the list pointing
    to it; from then on every connection that is marked is put behind it, the start of
    the list stays [NULL], and no bump of this context reaches the fast path any more. *)
Theorem close_loses_bumps info now conn L r L' :
  bumps L [conn] -> flextcp_connection_close info now conn L = Some (r, L') ->
  bumps_lost L'
  /\ (forall M, bumps_lost M ->
        conns_bump info now M = Some M /\ (forall d, d <> 0 -> bumps_lost (conn_mark_bump d M))).
Proof.
  intros [Hp Hl Hnd H0 Hpe] Hc. split.
  - unfold flextcp_connection_close, bump_remove in Hc. destruct Hp as [Ef Hnx].
    rewrite (proj2 (Hpe conn)) in Hc by apply list_elem_of_here. cbn [negb] in Hc.
    rewrite Ef, Z.eqb_refl in Hc. cbn [mbind option_bind] in Hc.
    assert (Hconn : conn <> 0) by (intros ->; apply H0, list_elem_of_here).
    unfold bnext in Hnx. cbn in Hnx. rewrite Hnx in Hc. cbv zeta in Hc.
    destruct (negb (kin_room _)); injection Hc as <- <-; (split; [|cbn in Hl]).
    + done.
    + by rewrite <-Hl in Hconn.
    + unfold kin_put, flextcp_kernel_kick. by destruct (_ <? _).
    + rewrite <-Hl in Hconn. unfold kin_put, flextcp_kernel_kick. by destruct (_ <? _).
  - intros M [Hf Hla]. split.
    + unfold conns_bump. by destruct (size (l_conns M)); cbn [conns_bump_loop]; rewrite Hf.
    + intros d Hd. unfold conn_mark_bump. destruct (bump_pending (lconn M d)); [done|].
      by rewrite (proj2 (Z.eqb_neq _ _) Hla).
Qed.

(** Freed entries are found: [txq_avail] stays a lower bound of the free entries. *)
Lemma txq_probe_loop_ok n ring tl hd pend i a :
  0 < n < 134217728 -> ring_of atx_free 16 n ring tl hd pend ->
  0 <= a <= n - Z.of_nat (length pend) ->
  exists a', txq_probe_loop i ring (16 * n) (16 * a) (ring_wrap (16 * n) hd (16 * a)) = 16 * a'
  /\ a <= a' <= n - Z.of_nat (length pend).
Proof.
  intros Hn Hr. revert a. induction i as [|i IH]; intros a Ha; cbn [txq_probe_loop]; [by exists a; split; [|lia]|].
  destruct (Z.ltb_spec (16 * a) (16 * n)) as [Hlt|Hge]; cbn [negb]; [|by exists a; split; [|lia]].
  pose proof Hr as [_ Hl (t & Ht & Etl & Ehd & He & Hf) Hu].
  assert (Epos : ring_wrap (16 * n) hd (16 * a) = slot 16 n t (Z.of_nat (length pend) + a)).
  { pose proof (ring_of_hd _ _ _ _ _ _ _ Hr) as Hh. unfold ring_wrap. rewrite u32_id by cside.
    rewrite Ehd. unfold slot in Hh, Ehd |- *. rewrite Z.add_assoc.
    rewrite <-(Z.add_mod_idemp_l (t + Z.of_nat (length pend)) a n) by lia.
    pose proof (Z.mod_pos_bound (t + Z.of_nat (length pend)) n ltac:(lia)) as Hm.
    set (r := (t + Z.of_nat (length pend)) mod n) in *. rewrite <-(wrap_pos n r r a) by (rewrite ?Z.mod_small; lia).
    destruct (Z.leb_spec (16 * n) (16 * r + 16 * a)), (Z.leb_spec n (r + a)); lia. }
  rewrite Epos. destruct (Z.eqb_spec (atx_type (ring !!! slot 16 n t (Z.of_nat (length pend) + a))) 0) as [E0|N0];
    cbn [negb]; [|by exists a; split; [|lia]].
  assert (Hlt2 : Z.of_nat (length pend) + a < n).
  { destruct (decide (Z.of_nat (length pend) + a = n)) as [E|]; [|lia]. exfalso.
    rewrite E, slot_wrap in E0 by lia. destruct pend as [|e pend]; [cbn in E, Hlt; lia|].
    change 0 with (Z.of_nat 0) in E0 at 1. rewrite (He 0%nat e eq_refl) in E0.
    apply Forall_cons in Hu as [Hu _]. unfold atx_free in Hu. by rewrite E0 in Hu. }
  rewrite <-Epos. change sizeof_atx with 16. rewrite u32_id by cside.
  assert (Enext : ring_wrap (16 * n) (ring_wrap (16 * n) hd (16 * a)) 16 = ring_wrap (16 * n) hd (16 * (a + 1))).
  { pose proof (ring_of_hd _ _ _ _ _ _ _ Hr) as Hh. unfold ring_wrap.
    rewrite (u32_id (hd + 16 * a)), (u32_id (hd + 16 * (a + 1))) by cside.
    destruct (Z.leb_spec (16 * n) (hd + 16 * a)); rewrite u32_id by cside; zdecide; lia. }
  replace (16 * a + 16) with (16 * (a + 1)) by lia. rewrite Enext. destruct (IH (a + 1)) as (a' & -> & ?); [lia|].
  exists a'. split; [done|lia].
Qed.

Lemma txq_probe_queue_rep m n p L q tl pend : txq_rep n L q tl pend -> txq_rep n (txq_probe_queue m p L) q tl pend.
Proof.
  intros [[Hlen Hn] Hr (a & Ha & Hab)]. unfold txq_probe_queue. cbv zeta.
  destruct (txq_len (l_ctx L) / 2 <? txq_avail (lqueue L p)); [by constructor; [|..|exists a]|].
  destruct (decide (q = p)) as [->|Hne].
  - constructor; [done| |]; rewrite lqueue_upd, Z.eqb_refl; [done|]. cbn [txq_avail setf]. rewrite Hlen, Ha.
    by destruct (txq_probe_loop_ok n (txq (lqueue L p)) tl (txq_tail (lqueue L p)) pend (Z.to_nat (2 * m)) a Hn Hr Hab)
      as (a' & -> & ?); exists a'; split; [|lia].
  - constructor; [done| |]; rewrite lqueue_upd, (proj2 (Z.eqb_neq q p) Hne); [done|by exists a].
Qed.

Lemma txq_probe_rep m n L q tl pend : txq_rep n L q tl pend -> txq_rep n (txq_probe m L) q tl pend.
Proof.
  unfold txq_probe. generalize (Z.to_nat (num_queues (l_ctx L))) 0. intros k. revert L.
  induction k as [|k IH]; intros L p H; [done|]. cbn [txq_probe_each]. by apply IH, txq_probe_queue_rep.
Qed.

(** ** Witnesses *)

(** The connection of the examples, with 20 bytes sent and 30 allocated. *)
Definition ex_busy : flextcp_connection :=
  ex_lconn <| txb_head := 90 |> <| txb_sent := 20 |> <| txb_allocated := 30 |> <| rxb_head := 95 |>.

Lemma ex_busy_open : open_conn ex_busy 70 90 120 95 95.
Proof.
  constructor; [done|constructor; cbn; (done || lia)|by apply eos_open|].
  constructor; cbn; [lia|lia|split; [lia|done]|done].
Qed.

Lemma ex_lst_conn c n l : lconn (ex_lst c n l) 5 = c.
Proof. unfold lconn, ex_lst. cbn [l_conns]. by rewrite lookup_total_singleton. Qed.

(** Ten bytes over the end of the receive buffer. *)
Lemma arx_connupdate_events_witness :
  exists L', event_arx_connupdate (ex_arx 10) 4 0 (ex_lst ex_busy 2 [])
    = Some (Some [EV_CONN_RECEIVED 5 1095 5; EV_CONN_RECEIVED 5 1000 5], L')
  /\ open_conn (lconn L' 5) 70 90 120 105 95.
Proof.
  pose proof (arx_connupdate_events 5 (ex_arx 10) 4 0 (ex_lst ex_busy 2 []) 70 90 120 95 95) as H.
  rewrite ex_lst_conn in H. destruct (H eq_refl ex_busy_open) as [[Hf _]|(_ & _ & L' & E & Ho)];
    [cbn; lia|cbn; lia|exfalso; revert Hf; vm_compute; congruence|].
  exists L'. split; [exact E|exact Ho].
Defined.

(** Room for 50 bytes, but the buffer wraps around after 80. *)
Lemma tx_alloc_fresh_witness :
  exists r buf L', flextcp_connection_tx_alloc 5 60 (ex_lst ex_busy 2 []) = (r, buf, L')
  /\ r = 50 /\ buf = 2020 /\ tx_rep (lconn L' 5) 70 90 170.
Proof.
  exists 50, 2020, (flextcp_connection_tx_alloc 5 60 (ex_lst ex_busy 2 [])).2.
  assert (Ha : flextcp_connection_tx_alloc 5 60 (ex_lst ex_busy 2 [])
    = (50, 2020, (flextcp_connection_tx_alloc 5 60 (ex_lst ex_busy 2 [])).2)) by reflexivity.
  split; [exact Ha|]. split; [done|]. split; [done|].
  assert (Ho : open_conn (lconn (ex_lst ex_busy 2 []) 5) 70 90 120 95 95)
    by (rewrite ex_lst_conn; apply ex_busy_open).
  assert (Hf : txeos (lconn (ex_lst ex_busy 2 []) 5) = false) by (by rewrite ex_lst_conn).
  exact (proj1 (proj2 (proj2 (tx_alloc_fresh 5 60 _ _ _ _ _ _ _ _ _ Ho ltac:(lia) Hf Ha)))).
Defined.

(** All sent bytes are acknowledged, the FIN too. *)
Definition ex_half : flextcp_connection := ex_lconn <| txb_head := 21 |> <| lc_flags := 7 |>.

Lemma half_closed_poll_stuck_witness :
  exists L', fastpath_poll_vec 1 (ex_lst ex_half 2 [ex_arx 10]) = Some ([], L')
  /\ rxq_head (lqueue L' 0) = 0 /\ arx_type (rxq (lqueue L' 0) !!! 0) = FLEXTCP_PL_ARX_CONNUPDATE.
Proof.
  assert (Ho : open_conn ex_half 21 21 21 0 0).
  { constructor; [done|constructor; cbn; (done || lia)|by apply eos_acked|].
    constructor; cbn; [lia|lia|split; [lia|done]|done]. }
  destruct (half_closed_poll_stuck (ex_lst ex_half 2 [ex_arx 10]) 21 0 0) as (L' & Hp & Hr & Hh & _);
    try done.
  exists L'. split; [exact Hp|]. rewrite Hh, Hr. by vm_compute.
Defined.

(** Two connections, 5 and 6, with pending bumps. *)
Definition ex_bumps : libst :=
  mk_libst {[5 := ex_lconn <| txb_bump := 7 |> <| bump_pending := true |> <| bump_next := 6 |>;
             6 := ex_lconn <| rxb_bump := 40 |> <| bump_pending := true |> <| lc_flow_id := 4 |>]} ∅
    ((ex_lctx 2 []) <| bump_pending_first := 5 |> <| bump_pending_last := 6 |>).

Lemma ex_bumps_list : bumps ex_bumps [5; 6].
Proof.
  constructor; [by vm_compute|done| | |].
  - apply NoDup_cons. split; [by intros ?%list_elem_of_singleton|apply NoDup_singleton].
  - by intros [?|?%list_elem_of_singleton]%elem_of_cons.
  - intros c. unfold lconn, ex_bumps. cbn [l_conns]. rewrite elem_of_cons, list_elem_of_singleton, lookup_total_alt.
    destruct (decide (c = 5)) as [->|H5]; [rewrite lookup_insert_eq; naive_solver|]. rewrite lookup_insert_ne by done.
    destruct (decide (c = 6)) as [->|H6]; [rewrite lookup_singleton_eq; naive_solver|].
    rewrite lookup_singleton_ne by done. cbn. split; [done|naive_solver].
Qed.

Lemma conns_bump_sends_witness :
  exists L' l1 l2, conns_bump (mk_finfo 100 100) 0 ex_bumps = Some L' /\ [5; 6] = l1 ++ l2
  /\ bumped 4 1 ex_bumps L' (fun _ => 0) (fun _ => []) l1 l2
  /\ txq (lqueue L' 0) !!! 16 = mk_atx FLEXTCP_PL_ATX_CONNUPDATE 40 0 4 0 0.
Proof.
  assert (Hst : forall c, c ∈ [5; 6] ->
    lc_status (lconn ex_bumps c) = LCONN_OPEN /\ 0 <= lc_fn_core (lconn ex_bumps c) < 1).
  { intros c [->|Hc]%elem_of_cons; [by vm_compute|]. apply list_elem_of_singleton in Hc as ->. by vm_compute. }
  assert (Hq : forall q, 0 <= q < 1 -> txq_rep 4 ex_bumps q 0 []).
  { intros q Hq. assert (q = 0) as -> by lia. constructor; [cbn; lia| |exists 4; split; [by vm_compute|cbn; lia]].
    change (ring_of atx_free 16 4 (∅ : gmap Z atx) 0 0 []).
    apply ring_of_new; [lia|lia|]. intros k. by rewrite lookup_total_empty. }
  destruct (conns_bump_sends (mk_finfo 100 100) 0 4 1 ex_bumps (fun _ => 0) (fun _ => []) [5; 6] ex_bumps_list Hst Hq)
    as (L' & l1 & l2 & E & El & Hb).
  exists L', l1, l2. split; [exact E|]. split; [exact El|]. split; [exact Hb|].
  assert (Hv : match conns_bump (mk_finfo 100 100) 0 ex_bumps with
               | Some L' => txq (lqueue L' 0) !!! 16 = mk_atx FLEXTCP_PL_ATX_CONNUPDATE 40 0 4 0 0
               | None => True end) by (by vm_compute).
  by rewrite E in Hv.
Defined.

(** Connection 5 is closed while it is the only one with a pending bump. *)
Definition ex_single : libst :=
  mk_libst {[5 := ex_lconn <| txb_bump := 7 |> <| bump_pending := true |>]} ∅
    ((ex_lctx 2 []) <| bump_pending_first := 5 |> <| bump_pending_last := 5 |>).

Lemma close_loses_bumps_witness :
  exists L', flextcp_connection_close (mk_finfo 100 100) 0 5 ex_single = Some (0, L') /\ bumps_lost L'.
Proof.
  assert (Hb : bumps ex_single [5]).
  { constructor; [by vm_compute|done|apply NoDup_singleton|by intros ?%list_elem_of_singleton|].
    intros c. unfold lconn, ex_single. cbn [l_conns]. rewrite list_elem_of_singleton, lookup_total_alt.
    destruct (decide (c = 5)) as [->|H5]; [rewrite lookup_singleton_eq; naive_solver|].
    rewrite lookup_singleton_ne by done. cbn. split; [done|naive_solver]. }
  assert (Es : option_map fst (flextcp_connection_close (mk_finfo 100 100) 0 5 ex_single) = Some 0) by (by vm_compute).
  destruct (flextcp_connection_close (mk_finfo 100 100) 0 5 ex_single) as [[r L']|] eqn:E; [|discriminate Es].
  injection Es as ->. exists L'. split; [done|]. exact (proj1 (close_loses_bumps _ _ _ _ _ _ Hb E)).
Defined.

(** Updates that come before the connection is open do not wrap the head: when they fill
    the buffer, the next update begins with an event for no bytes. *)
Example early_update_empty_event :
  let c := early_update (ex_arx 100) (ex_lconn <| lc_status := LCONN_OPEN_REQUESTED |>) in
  rxb_head c = rxb_len c
  /\ rx_events 5 (c <| rxb_used := 0 |>) 5 = [EV_CONN_RECEIVED 5 1100 0; EV_CONN_RECEIVED 5 1000 5].
Proof. split; reflexivity. Qed.
