(* ===== verification/Blocking.v ===== *)
(** * Blocking and waking (tas/blocking.c)

    A thread that is idle for [poll_cycle_tas] cycles blocks on its eventfd; whoever
    gives it work writes to the eventfd, except when it has done so recently.  That a
    write to an eventfd succeeds is assumed. *)

From S2P Require Import Prelude AppCtx LibTypes LibConn LibPoll.

(** Whether the eventfd is written, and the new time stamp. *)
Definition notify_core (last_ts tsc delta : Z) : bool * Z :=
  if delta =? UINT64_MAX then (false, last_ts)
  else (delta <? u64 (tsc - last_ts), tsc).

Definition notify_fastpath_core (info : flexnic_info) (last_ts tsc : Z) : bool * Z :=
  notify_core last_ts tsc (poll_cycle_tas info).
Definition notify_app_core (info : flexnic_info) (last_ts tsc : Z) : bool * Z :=
  notify_core last_ts tsc (poll_cycle_app info).
Definition notify_appctx (info : flexnic_info) (last_ts tsc : Z) : bool * Z :=
  notify_core last_ts tsc (poll_cycle_app info).
Definition notify_slowpath_core (info : flexnic_info) (last_ts tsc : Z) : bool * Z :=
  notify_core last_ts tsc (poll_cycle_tas info).

Record notify_blockstate : Type := mk_nbs { last_active_ts : Z; can_block : bool; second_bar : bool }.
#[export] Instance eta_nbs : Eta notify_blockstate := fun r =>
  mk_nbs (last_active_ts r) (can_block r) (second_bar r).

(** Whether the thread may block. *)
Definition notify_canblock (info : flexnic_info) (nbs : notify_blockstate) (had_data : bool) (tsc : Z)
    : bool * notify_blockstate :=
  if poll_cycle_tas info =? UINT64_MAX then (false, nbs)
  else
    let reset := nbs <| can_block := false |> <| second_bar := false |> <| last_active_ts := tsc |> in
    if had_data then (false, reset)
    else if second_bar nbs then (true, reset)
    else if can_block nbs && (poll_cycle_tas info <? u64 (tsc - last_active_ts nbs))
    then (false, nbs <| second_bar := true |>)
    else (false, nbs <| can_block := true |>).

Definition notify_canblock_reset (nbs : notify_blockstate) : notify_blockstate :=
  nbs <| can_block := false |> <| second_bar := false |>.

(** The rounds of a thread: whether there was something to do, and when. *)
Fixpoint canblock_run (info : flexnic_info) (l : list (bool * Z)) (nbs : notify_blockstate)
    : list bool * notify_blockstate :=
  match l with
  | [] => ([], nbs)
  | (d, t) :: l =>
      let '(r, nbs) := notify_canblock info nbs d t in
      let '(rs, nbs) := canblock_run info l nbs in (r :: rs, nbs)
  end.

Section Canblock.
Context (info : flexnic_info).
Hypothesis Hon : poll_cycle_tas info <> UINT64_MAX.

Lemma canblock_run_app l1 l2 nbs :
  canblock_run info (l1 ++ l2) nbs =
    let '(r1, nbs) := canblock_run info l1 nbs in
    let '(r2, nbs) := canblock_run info l2 nbs in (r1 ++ r2, nbs).
Proof.
  revert nbs. induction l1 as [|[d t] l1 IH]; intros nbs; cbn [canblock_run app].
  - by destruct (canblock_run info l2 nbs).
  - destruct (notify_canblock info nbs d t) as [r n1]. rewrite IH.
    destruct (canblock_run info l1 n1) as [r1 n2]. by destruct (canblock_run info l2 n2).
Qed.

(** What the state says about the rounds so far: [t0] is the time of the last round with
    data or of the last time the thread could block. *)
Definition idle_since (t0 : Z) (l : list (bool * Z)) (nbs : notify_blockstate) : Prop :=
  last_active_ts nbs = t0
  /\ (can_block nbs = true -> exists l' t, l = l' ++ [(false, t)])
  /\ (second_bar nbs = true -> exists l' t1 t, l = l' ++ [(false, t1); (false, t)]
        /\ poll_cycle_tas info < u64 (t - t0))
  /\ (second_bar nbs = true -> can_block nbs = true).

Lemma canblock_step nbs t0 l d t : idle_since t0 l nbs ->
  let '(r, nbs') := notify_canblock info nbs d t in
  (r = false -> d = false -> idle_since t0 (l ++ [(d, t)]) nbs')
  /\ (d = true \/ r = true -> last_active_ts nbs' = t /\ can_block nbs' = false /\ second_bar nbs' = false)
  /\ (r = true -> d = false /\ exists l' t1 t2, l = l' ++ [(false, t1); (false, t2)]
       /\ poll_cycle_tas info < u64 (t2 - t0)).
Proof.
  intros (Ht & Hc & Hs & Hsc). unfold notify_canblock. rewrite (proj2 (Z.eqb_neq _ _) Hon).
  destruct d; [by split_and!|]. destruct (second_bar nbs) eqn:Es.
  { split_and!; try done. intros _. split; [done|]. by apply Hs. }
  destruct (can_block nbs) eqn:Ec; cbn [andb].
  - destruct (Z.ltb_spec (poll_cycle_tas info) (u64 (t - last_active_ts nbs))) as [Hl|Hl].
    + split_and!; try done; [|by intros [?|?]]. intros _ _. split_and!; cbn; try done.
      * intros _. by exists l, t.
      * intros _. destruct (Hc eq_refl) as (l' & t1 & ->). exists l', t1, t.
        rewrite <-app_assoc. split; [done|]. by rewrite <-Ht.
    + split_and!; try done; [|by intros [?|?]]. intros _ _. split_and!; cbn; try done; [|congruence..].
      intros _. by exists l, t.
  - split_and!; try done; [|by intros [?|?]]. intros _ _. split_and!; cbn; try done; [|congruence..].
    intros _. by exists l, t.
Qed.

(** The rounds since the last one with data, or since the start. *)
Definition quiet_tail (t0 : Z) (l1 l2 : list (bool * Z)) (t : Z) : Prop :=
  (l1 = [] /\ t = t0 \/ exists l', l1 = l' ++ [(true, t)]) /\ Forall (fun x => x.1 = false) l2.

Lemma canblock_inv l nbs rs nbs' : can_block nbs = false -> second_bar nbs = false ->
  canblock_run info l nbs = (rs, nbs') -> true ∉ rs ->
  exists l1 l2 t, l = l1 ++ l2 /\ quiet_tail (last_active_ts nbs) l1 l2 t /\ idle_since t l2 nbs'.
Proof.
  intros Hc Hs. revert rs nbs'. induction l as [|[d t] l IH] using rev_ind; intros rs nbs' Hr Hn.
  { injection Hr as <- <-. exists [], [], (last_active_ts nbs).
    split; [done|]. split; [split; [by left|done]|]. unfold idle_since. rewrite Hc, Hs. done. }
  rewrite canblock_run_app in Hr. destruct (canblock_run info l nbs) as [r1 n1] eqn:E1. cbn [canblock_run] in Hr.
  destruct (notify_canblock info n1 d t) as [r n2] eqn:E2. injection Hr as <- <-.
  apply not_elem_of_app in Hn as [Hn1 Hn2].
  destruct (IH _ _ eq_refl Hn1) as (l1 & l2 & t1 & -> & [Hq Hi] & Hid).
  pose proof (canblock_step n1 t1 l2 d t Hid) as Hst. rewrite E2 in Hst. destruct Hst as (Hst & Hrst & _).
  assert (r = false) as -> by (destruct r; [exfalso; apply Hn2, list_elem_of_here|done]).
  destruct d.
  - destruct (Hrst (or_introl eq_refl)) as (Ht & Hcb & Hsb).
    exists ((l1 ++ l2) ++ [(true, t)]), [], t. rewrite app_nil_r. split; [done|]. split.
    + split; [right; by eexists|done].
    + split_and!; [done|rewrite Hcb|rewrite Hsb..]; done.
  - exists l1, (l2 ++ [(false, t)]), t1. rewrite <-app_assoc. split; [done|]. split; [|by apply Hst].
    split; [done|]. apply Forall_app. split; [done|]. by apply Forall_singleton.
Qed.

Lemma idle_after t0 l nbs t : idle_since t0 l nbs -> second_bar nbs = false ->
  let '(r, nbs') := notify_canblock info nbs false t in
  r = false /\ can_block nbs' = true /\ last_active_ts nbs' = t0
  /\ (can_block nbs = true -> poll_cycle_tas info < u64 (t - t0) -> second_bar nbs' = true).
Proof.
  intros (Ht & Hc & Hs & Hsc) Es. unfold notify_canblock. rewrite (proj2 (Z.eqb_neq _ _) Hon), Es, Ht.
  destruct (can_block nbs) eqn:Ec; cbn [andb]; [|by split_and!].
  destruct (Z.ltb_spec (poll_cycle_tas info) (u64 (t - t0))); split_and!; cbn; try done; lia.
Qed.
End Canblock.

(** ** The rounds after which a thread blocks *)

(** The thread may block only when no round has had data for more than the polling
    interval, and it has then polled once more. *)
Theorem notify_canblock_only_idle info l nbs rs nbs' : poll_cycle_tas info <> UINT64_MAX ->
  can_block nbs = false -> second_bar nbs = false ->
  canblock_run info l nbs = (rs ++ [true], nbs') -> true ∉ rs ->
  exists l1 l2 t t1 t2 t3, l = l1 ++ l2 ++ [(false, t1); (false, t2); (false, t3)]
    /\ quiet_tail (last_active_ts nbs) l1 l2 t /\ poll_cycle_tas info < u64 (t2 - t).
Proof.
  intros Hon Hc Hs Hr Hn. destruct l as [|[d t3] l _] using rev_ind.
  { injection Hr as E. by destruct rs. }
  rewrite canblock_run_app in Hr. destruct (canblock_run info l nbs) as [r1 n1] eqn:E1. cbn [canblock_run] in Hr.
  destruct (notify_canblock info n1 d t3) as [r n2] eqn:E2. injection Hr as Er <-.
  apply app_inj_tail in Er as [-> ->].
  destruct (canblock_inv info Hon l nbs rs n1 Hc Hs E1 Hn) as (l1 & l2 & t & -> & [Hq Hi] & Hid).
  pose proof (canblock_step info Hon n1 t l2 d t3 Hid) as Hst. rewrite E2 in Hst.
  destruct Hst as (_ & _ & Hb). destruct (Hb eq_refl) as (-> & l' & t1 & t2 & -> & Hp).
  exists l1, l', t, t1, t2, t3. rewrite <-!app_assoc. split; [done|]. split; [|done].
  split; [done|]. by apply Forall_app in Hi as [? _].
Qed.

Definition ex_info : flexnic_info := mk_finfo 100 100.
Definition ex_nbs : notify_blockstate := mk_nbs 0 false false.

Lemma notify_canblock_only_idle_witness :
  exists l1 l2 t t1 t2 t3, [(true, 0); (false, 10); (false, 200); (false, 210)]
      = l1 ++ l2 ++ [(false, t1); (false, t2); (false, t3)]
    /\ quiet_tail 0 l1 l2 t /\ 100 < u64 (t2 - t).
Proof.
  apply (notify_canblock_only_idle ex_info [(true, 0); (false, 10); (false, 200); (false, 210)]
    ex_nbs [false; false; false] (mk_nbs 210 false false)); [done..|vm_compute; reflexivity|].
  rewrite !elem_of_cons, elem_of_nil. naive_solver.
Defined.

Section Live.
Context (info : flexnic_info).
Hypothesis Hon : poll_cycle_tas info <> UINT64_MAX.

Lemma second_bar_blocks nbs t : second_bar nbs = true -> (notify_canblock info nbs false t).1 = true.
Proof. intros Es. unfold notify_canblock. by rewrite (proj2 (Z.eqb_neq _ _) Hon), Es. Qed.

(** The last of three idle rounds, the second after the interval: the thread has been told
    to block. *)
Lemma third_round_blocks t0 l nbs t1 t2 t3 : idle_since info t0 l nbs -> poll_cycle_tas info < u64 (t2 - t0) ->
  true ∈ (canblock_run info [(false, t1); (false, t2); (false, t3)] nbs).1.
Proof.
  intros Hi Hp. cbn [canblock_run].
  destruct (notify_canblock info nbs false t1) as [r1 n1] eqn:E1.
  destruct (notify_canblock info n1 false t2) as [r2 n2] eqn:E2.
  destruct (notify_canblock info n2 false t3) as [r3 n3] eqn:E3. cbn [fst]. rewrite !elem_of_cons.
  destruct (second_bar nbs) eqn:S0.
  { left. by rewrite <-(second_bar_blocks nbs t1 S0), E1. }
  pose proof (idle_after info Hon t0 l nbs t1 Hi S0) as H1. rewrite E1 in H1. destruct H1 as (-> & Hc1 & _).
  pose proof (canblock_step info Hon nbs t0 l false t1 Hi) as Hst. rewrite E1 in Hst.
  destruct Hst as (Hst & _). specialize (Hst eq_refl eq_refl).
  destruct (second_bar n1) eqn:S1.
  { right; left. by rewrite <-(second_bar_blocks n1 t2 S1), E2. }
  pose proof (idle_after info Hon t0 _ n1 t2 Hst S1) as H2. rewrite E2 in H2. destruct H2 as (-> & _ & _ & H2).
  right; right; left. by rewrite <-(second_bar_blocks n2 t3 (H2 Hc1 Hp)), E3.
Qed.
End Live.

(** A thread that has nothing to do blocks: two more idle rounds after the interval are
    enough. *)
Theorem notify_canblock_live info l nbs t2 t3 : poll_cycle_tas info <> UINT64_MAX ->
  can_block nbs = false -> second_bar nbs = false -> l <> [] -> Forall (fun x => x.1 = false) l ->
  poll_cycle_tas info < u64 (t2 - last_active_ts nbs) ->
  true ∈ (canblock_run info (l ++ [(false, t2); (false, t3)]) nbs).1.
Proof.
  intros Hon Hc Hs Hne Hi Hp. destruct l as [|[d t1] l _] using rev_ind; [done|].
  apply Forall_app in Hi as [Hi Hd]. apply Forall_cons in Hd as [Hd _]. cbn in Hd. subst d.
  rewrite <-app_assoc. cbn [app]. rewrite canblock_run_app.
  destruct (canblock_run info l nbs) as [r1 n1] eqn:E1.
  destruct (canblock_run info [(false, t1); (false, t2); (false, t3)] n1) as [r2 n2] eqn:E2. cbn [fst].
  apply elem_of_app. destruct (decide (true ∈ r1)) as [|Hn]; [by left|right].
  destruct (canblock_inv info Hon l nbs r1 n1 Hc Hs E1 Hn) as (l1 & l2 & t & -> & [Hq Hi2] & Hid).
  destruct Hq as [[-> ->]|[l' ->]].
  - change r2 with ((r2, n2).1). rewrite <-E2. by eapply third_round_blocks.
  - rewrite <-app_assoc in Hi. apply Forall_app in Hi as [_ Hi]. by apply Forall_cons in Hi as [? _].
Qed.

Lemma notify_canblock_live_witness :
  true ∈ (canblock_run ex_info ([(false, 10)] ++ [(false, 200); (false, 210)]) ex_nbs).1.
Proof. apply notify_canblock_live; [done..|repeat constructor|reflexivity]. Defined.
