(* ===== verification/BufCache.v ===== *)
(** * Packet buffers of a core (tas/fast/fastemu.c, tas/fast/network.h)

    The cache of buffers between a core and the pool of DPDK, and the buffers waiting to
    be sent.  The cache is a ring of 128 handles; [buf_rep] relates it to the queue of
    handles it holds. *)

From S2P Require Import Prelude FpTypes FlowTx.

Definition BUFCACHE_SIZE : Z := 128.

(** What the core uses of [rte_mempool]. *)
Class Mempool (P : Type) := {
  rte_pktmbuf_alloc_bulk : P -> Z -> option (list Z * P);
  rte_pktmbuf_alloc : P -> option (Z * P);
  rte_pktmbuf_free_seg : Z -> P -> P }.

(** The pool keeps a set of free buffers: what is allocated leaves it, what is freed
    returns to it. *)
Class MempoolLaws (P : Type) `{Mempool P} := {
  pool_free : P -> list Z;
  alloc_bulk_ok : forall p n l p', rte_pktmbuf_alloc_bulk p n = Some (l, p') ->
    Z.of_nat (length l) = Z.max 0 n /\ pool_free p ≡ₚ l ++ pool_free p';
  alloc_ok : forall p b p', rte_pktmbuf_alloc p = Some (b, p') -> pool_free p ≡ₚ b :: pool_free p';
  alloc_none : forall p, rte_pktmbuf_alloc p = None <-> pool_free p = [];
  free_ok : forall p b, pool_free (rte_pktmbuf_free_seg b p) ≡ₚ b :: pool_free p }.

Record bufcache : Type := mk_bufcache {
  bufcache_handles : gmap Z Z; bufcache_num : Z; bufcache_head : Z }.
#[export] Instance eta_bufcache : Eta bufcache := fun r =>
  mk_bufcache (bufcache_handles r) (bufcache_num r) (bufcache_head r).

Section BufCache.
Context {P : Type} `{Mempool P}.

(** Buffers one at a time. *)
Fixpoint alloc_each (n : nat) (p : P) : list Z * P :=
  match n with
  | O => ([], p)
  | S n =>
      match rte_pktmbuf_alloc p with
      | None => ([], p)
      | Some (b, p) => let '(l, p) := alloc_each n p in (b :: l, p)
      end
  end.

(** The handles written to consecutive entries. *)
Definition network_buf_alloc (num : Z) (p : P) : list Z * P :=
  match rte_pktmbuf_alloc_bulk p num with
  | Some (l, p) => (l, p)
  | None => alloc_each (Z.to_nat num) p
  end.

Definition network_free (bufs : list Z) (p : P) : P :=
  foldl (fun p b => rte_pktmbuf_free_seg b p) p bufs.

(** Consecutive entries of an array, from [pos] on. *)
Fixpoint store_handles (pos : Z) (l : list Z) (m : gmap Z Z) : gmap Z Z :=
  match l with
  | [] => m
  | h :: l => store_handles (pos + 1) l (<[pos := h]> m)
  end.

(** The refill of [bufcache_prealloc]. *)
Definition bufcache_grow (c : bufcache) (p : P) : bufcache * P :=
  let grow := BUFCACHE_SIZE - bufcache_num c in
  let head := Z.land (bufcache_head c + bufcache_num c) (BUFCACHE_SIZE - 1) in
  let '(hs, res, p) :=
    if head + grow <=? BUFCACHE_SIZE then
      let '(l, p) := network_buf_alloc grow p in
      (store_handles head l (bufcache_handles c), Z.of_nat (length l), p)
    else
      let g := BUFCACHE_SIZE - head in
      let '(l, p) := network_buf_alloc g p in
      let hs := store_handles head l (bufcache_handles c) in
      if Z.of_nat (length l) =? g then
        let '(l', p) := network_buf_alloc (grow - g) p in
        (store_handles 0 l' hs, Z.of_nat (length l) + Z.of_nat (length l'), p)
      else (hs, Z.of_nat (length l), p) in
  (c <| bufcache_handles := hs |> <| bufcache_num := u16 (bufcache_num c + res) |>, p).

(** The number of buffers that can be used; they are in the array from the head on. *)
Definition bufcache_prealloc (num : Z) (c : bufcache) (p : P) : Z * bufcache * P :=
  let '(c, p) := if bufcache_num c <? num then bufcache_grow c p else (c, p) in
  (u8 (Z.min num (if bufcache_head c + bufcache_num c <=? BUFCACHE_SIZE then bufcache_num c
                  else BUFCACHE_SIZE - bufcache_head c)), c, p).

Definition bufcache_alloc (num : Z) (c : bufcache) : option bufcache :=
  cassert (num <=? bufcache_num c);;
  Some (c <| bufcache_head := Z.land (bufcache_head c + num) (BUFCACHE_SIZE - 1) |>
          <| bufcache_num := u16 (bufcache_num c - num) |>).

Definition bufcache_free (handle : Z) (c : bufcache) (p : P) : bufcache * P :=
  let num := bufcache_num c in
  if num <? BUFCACHE_SIZE then
    let head := Z.land (bufcache_head c + num) (BUFCACHE_SIZE - 1) in
    (c <| bufcache_handles ::= <[head := handle]> |> <| bufcache_num := u16 (num + 1) |>, p)
  else (c, network_free [handle] p).

(** The handle a handler is given: entry [i] of the preallocated ones. *)
Definition prealloc_handle (c : bufcache) (i : Z) : Z := bufcache_handles c !!! (bufcache_head c + i).

(** ** The queue of handles *)

Record buf_rep (c : bufcache) (l : list Z) : Prop := mk_buf_rep {
  br_num : bufcache_num c = Z.of_nat (length l);
  br_max : Z.of_nat (length l) <= BUFCACHE_SIZE;
  br_head : 0 <= bufcache_head c < BUFCACHE_SIZE;
  br_get : forall i h, l !! i = Some h ->
    bufcache_handles c !!! ((bufcache_head c + Z.of_nat i) mod BUFCACHE_SIZE) = h }.

Lemma land_size x : Z.land x (BUFCACHE_SIZE - 1) = x mod BUFCACHE_SIZE.
Proof. exact (Z.land_ones x 7 ltac:(lia)). Qed.

Lemma store_out l : forall pos m k, k < pos \/ pos + Z.of_nat (length l) <= k -> store_handles pos l m !!! k = m !!! k.
Proof.
  induction l as [|h l IH]; intros pos m k Hk; [done|]. cbn [store_handles length] in *.
  rewrite IH by lia. apply lookup_total_insert_ne. lia.
Qed.

Lemma store_in l : forall pos m i h, l !! i = Some h -> store_handles pos l m !!! (pos + Z.of_nat i) = h.
Proof.
  induction l as [|x l IH]; intros pos m i h Hi; [done|]. cbn [store_handles].
  destruct i as [|i]; cbn [lookup list_lookup] in Hi.
  - injection Hi as ->. rewrite store_out by lia. replace (pos + Z.of_nat 0) with pos by lia. apply lookup_total_insert_eq.
  - replace (pos + Z.of_nat (S i)) with (pos + 1 + Z.of_nat i) by lia. by apply IH.
Qed.

Lemma mod_ne h i j : 0 <= i < BUFCACHE_SIZE -> 0 <= j < BUFCACHE_SIZE -> i <> j ->
  (h + i) mod BUFCACHE_SIZE <> (h + j) mod BUFCACHE_SIZE.
Proof. unfold BUFCACHE_SIZE. intros Hi Hj Hne. Z.div_mod_to_equations. lia. Qed.

(** New handles behind the last one. *)
Lemma buf_rep_app c l new hs : buf_rep c l -> Z.of_nat (length l) + Z.of_nat (length new) <= BUFCACHE_SIZE ->
  (forall i h, new !! i = Some h -> hs !!! ((bufcache_head c + Z.of_nat (length l) + Z.of_nat i) mod BUFCACHE_SIZE) = h) ->
  (forall i, 0 <= i < Z.of_nat (length l) -> hs !!! ((bufcache_head c + i) mod BUFCACHE_SIZE)
     = bufcache_handles c !!! ((bufcache_head c + i) mod BUFCACHE_SIZE)) ->
  buf_rep (c <| bufcache_handles := hs |> <| bufcache_num := u16 (bufcache_num c + Z.of_nat (length new)) |>) (l ++ new).
Proof.
  intros [Hn Hm Hh Hg] Hl Hnew Hold. unfold BUFCACHE_SIZE in *. constructor; cbn; [|rewrite length_app; unfold BUFCACHE_SIZE; lia|done|].
  - rewrite length_app, Hn, u16_id by cside. lia.
  - intros i h [Hi|[Hi Hx]]%lookup_app_Some.
    + rewrite Hold by (apply lookup_lt_Some in Hi; lia). by apply Hg.
    + rewrite <-(Hnew _ _ Hx). f_equal. unfold BUFCACHE_SIZE. f_equal. lia.
Qed.

Context `{!MempoolLaws P}.

Lemma alloc_each_ok n p l p' : alloc_each n p = (l, p') ->
  (length l <= n)%nat /\ pool_free p ≡ₚ l ++ pool_free p' /\ (length l < n -> pool_free p' = [])%nat.
Proof.
  revert p l. induction n as [|n IH]; intros p l; cbn [alloc_each].
  { intros [= <- <-]. cbn. split_and!; [lia|done|lia]. }
  destruct (rte_pktmbuf_alloc p) as [[b p1]|] eqn:Ea.
  - destruct (alloc_each n p1) as [l1 p2] eqn:E1. intros [= <- <-]. destruct (IH _ _ E1) as (Hl & Hp & Hx).
    cbn [length]. split; [lia|]. split; [|intros; apply Hx; lia]. by rewrite (alloc_ok _ _ _ Ea), Hp.
  - intros [= <- <-]. apply alloc_none in Ea. cbn. split_and!; [lia|done|done].
Qed.

(** At most [num] buffers, which leave the pool; fewer only when it has no more. *)
Lemma network_buf_alloc_ok num p l p' : 0 <= num -> network_buf_alloc num p = (l, p') ->
  Z.of_nat (length l) <= num /\ pool_free p ≡ₚ l ++ pool_free p'
  /\ (Z.of_nat (length l) < num -> pool_free p' = []).
Proof.
  intros Hn. unfold network_buf_alloc. destruct (rte_pktmbuf_alloc_bulk p num) as [[l1 p1]|] eqn:E.
  - intros [= <- <-]. destruct (alloc_bulk_ok _ _ _ _ E) as [E1 E2]. split_and!; [lia|done|lia].
  - intros E1. destruct (alloc_each_ok _ _ _ _ E1) as (E2 & E3 & E4). split_and!; [lia|done|intros; apply E4; lia].
Qed.

Lemma bufcache_grow_ok c p l : buf_rep c l ->
  exists new c' p', bufcache_grow c p = (c', p') /\ buf_rep c' (l ++ new) /\ bufcache_head c' = bufcache_head c
  /\ pool_free p ≡ₚ new ++ pool_free p' /\ (Z.of_nat (length (l ++ new)) < BUFCACHE_SIZE -> pool_free p' = []).
Proof.
  intros Hr. pose proof Hr as [Hn Hm Hh Hg]. unfold bufcache_grow. rewrite land_size, Hn.
  set (hd := (bufcache_head c + Z.of_nat (length l)) mod BUFCACHE_SIZE).
  assert (Hhd : 0 <= hd < BUFCACHE_SIZE) by (apply Z.mod_pos_bound; unfold BUFCACHE_SIZE; lia).
  set (grow := BUFCACHE_SIZE - Z.of_nat (length l)).
  assert (Hold : forall i, 0 <= i < Z.of_nat (length l) -> (bufcache_head c + i) mod BUFCACHE_SIZE < hd /\
     hd + grow <= BUFCACHE_SIZE + (bufcache_head c + i) mod BUFCACHE_SIZE
     \/ hd + grow <= (bufcache_head c + i) mod BUFCACHE_SIZE).
  { intros i Hi. subst hd grow. unfold BUFCACHE_SIZE in *. Z.div_mod_to_equations. lia. }
  assert (Hnew : forall i, 0 <= i < grow ->
     (bufcache_head c + Z.of_nat (length l) + i) mod BUFCACHE_SIZE =
       if hd + i <? BUFCACHE_SIZE then hd + i else hd + i - BUFCACHE_SIZE).
  { intros i Hi. subst hd grow. unfold BUFCACHE_SIZE in *.
    destruct (Z.ltb_spec ((bufcache_head c + Z.of_nat (length l)) mod 128 + i) 128); Z.div_mod_to_equations; lia. }
  clearbody hd. destruct (Z.leb_spec (hd + grow) BUFCACHE_SIZE) as [Hfit|Hfit].
  - destruct (network_buf_alloc grow p) as [new p'] eqn:Ea.
    destruct (network_buf_alloc_ok grow p new p' ltac:(subst grow; lia) Ea) as (Hl & Hp & He).
    exists new. eexists _, _. rewrite <-Hn. split; [done|]. split; [|split; [done|split; [done|]]].
    + apply buf_rep_app; [done|subst grow; lia| |].
      * intros i h Hi. pose proof (lookup_lt_Some _ _ _ Hi). rewrite Hnew by lia.
        rewrite (proj2 (Z.ltb_lt _ _)) by lia. by apply store_in.
      * intros i Hi. destruct (Hold i Hi); apply store_out; lia.
    + rewrite length_app. intros. apply He. subst grow. lia.
  - set (g := BUFCACHE_SIZE - hd) in *. destruct (network_buf_alloc g p) as [new1 p1] eqn:Ea.
    destruct (network_buf_alloc_ok g p new1 p1 ltac:(subst g; lia) Ea) as (Hl & Hp & He).
    destruct (Z.eqb_spec (Z.of_nat (length new1)) g) as [Eg|Ng].
    + destruct (network_buf_alloc (grow - g) p1) as [new2 p2] eqn:Ea2.
      destruct (network_buf_alloc_ok (grow - g) p1 new2 p2 ltac:(subst g; lia) Ea2) as (Hl2 & Hp2 & He2).
      exists (new1 ++ new2). eexists _, _. rewrite <-Hn, <-Nat2Z.inj_add, <-length_app. split; [done|].
      split; [|split; [done|split; [by rewrite Hp, Hp2, app_assoc|]]].
      * apply buf_rep_app; [done|rewrite length_app; subst grow g; lia| |].
        -- intros i h Hi. pose proof (lookup_lt_Some _ _ _ Hi) as Hlt. rewrite length_app in Hlt.
           rewrite Hnew by lia. apply lookup_app_Some in Hi as [Hi|[Hge Hi]].
           ++ pose proof (lookup_lt_Some _ _ _ Hi). rewrite (proj2 (Z.ltb_lt _ _)) by (subst g; lia).
              rewrite store_out by (subst g grow; lia). by apply store_in.
           ++ rewrite (proj2 (Z.ltb_ge _ _)) by (subst g; lia).
              replace (hd + Z.of_nat i - BUFCACHE_SIZE) with (0 + Z.of_nat (i - length new1)) by (subst g; lia).
              by apply store_in.
        -- intros i Hi. assert (0 <= (bufcache_head c + i) mod BUFCACHE_SIZE < BUFCACHE_SIZE)
             by (apply Z.mod_pos_bound; unfold BUFCACHE_SIZE; lia).
           destruct (Hold i Hi); rewrite !store_out by (subst g; lia); done.
      * rewrite !length_app. intros. apply He2. subst grow g. lia.
    + exists new1. eexists _, _. rewrite <-Hn. split; [done|].
      split; [|split; [done|split; [done|intros _; apply He; lia]]].
      apply buf_rep_app; [done|subst grow g; lia| |].
      * intros i h Hi. pose proof (lookup_lt_Some _ _ _ Hi). rewrite Hnew by lia.
        rewrite (proj2 (Z.ltb_lt _ _)) by (subst g; lia). by apply store_in.
      * intros i Hi. destruct (Hold i Hi); apply store_out; subst g; lia.
Qed.

Lemma bufcache_prealloc_ok num c p l : buf_rep c l -> 0 <= num < 256 ->
  exists new num' c' p', bufcache_prealloc num c p = (num', c', p') /\ buf_rep c' (l ++ new)
  /\ pool_free p ≡ₚ new ++ pool_free p'
  /\ (Z.of_nat (length (l ++ new)) < num -> Z.of_nat (length (l ++ new)) < BUFCACHE_SIZE -> pool_free p' = [])
  /\ 0 <= num' <= Z.min num (Z.of_nat (length (l ++ new)))
  /\ (0 < num -> l ++ new <> [] -> 0 < num')
  /\ forall i, (i < Z.to_nat num')%nat -> (l ++ new) !! i = Some (prealloc_handle c' (Z.of_nat i)).
Proof.
  intros Hr Hn. unfold bufcache_prealloc.
  assert (Hgo : exists new c' p', (if bufcache_num c <? num then bufcache_grow c p else (c, p)) = (c', p')
    /\ buf_rep c' (l ++ new) /\ pool_free p ≡ₚ new ++ pool_free p'
    /\ (Z.of_nat (length (l ++ new)) < num -> Z.of_nat (length (l ++ new)) < BUFCACHE_SIZE -> pool_free p' = [])).
  { rewrite (br_num _ _ Hr). destruct (Z.ltb_spec (Z.of_nat (length l)) num) as [Hlt|Hge].
    - destruct (bufcache_grow_ok c p l Hr) as (new & c' & p' & E & Hr' & _ & Hp & He).
      exists new, c', p'. split_and!; done || auto.
    - exists [], c, p. rewrite app_nil_r. split_and!; try done. lia. }
  destruct Hgo as (new & c' & p' & -> & Hr' & Hp & He). exists new. eexists _, c', p'.
  split; [done|]. split; [done|]. split; [done|]. split; [done|].
  pose proof Hr' as [Hnum Hm Hh Hg]. set (avail := if _ <=? BUFCACHE_SIZE then _ else _).
  assert (Ha : 0 <= avail <= Z.of_nat (length (l ++ new)) /\ bufcache_head c' + avail <= BUFCACHE_SIZE
    /\ (l ++ new <> [] -> 0 < avail)).
  { subst avail. rewrite Hnum. assert (l ++ new <> [] -> 0 < Z.of_nat (length (l ++ new)))
      by (destruct (l ++ new); [done|cbn; lia]).
    destruct (Z.leb_spec (bufcache_head c' + Z.of_nat (length (l ++ new))) BUFCACHE_SIZE);
      (split; [lia|]; split; [lia|]); [done|intros; lia]. }
  destruct Ha as (Ha & Hfit & Hpos). rewrite u8_id by (unfold is_u8; lia).
  split; [lia|]. split; [intros ? Hne; specialize (Hpos Hne); lia|].
  intros i Hi. destruct (lookup_lt_is_Some_2 (l ++ new) i) as [h Hx]; [lia|]. rewrite Hx.
  specialize (Hg _ _ Hx). rewrite Z.mod_small in Hg by lia. by rewrite <-Hg.
Qed.

Lemma bufcache_alloc_ok n c l : buf_rep c l -> (n <= length l)%nat ->
  exists c', bufcache_alloc (Z.of_nat n) c = Some c' /\ buf_rep c' (drop n l).
Proof.
  intros [Hn Hm Hh Hg] Hl. unfold bufcache_alloc. rewrite (proj2 (Z.leb_le _ _)) by lia. cbn [cassert mbind option_bind].
  eexists. split; [done|]. unfold BUFCACHE_SIZE in *. constructor; cbn; rewrite ?land_size.
  - rewrite length_drop, Hn, u16_id by cside. lia.
  - rewrite length_drop. unfold BUFCACHE_SIZE. lia.
  - apply Z.mod_pos_bound. unfold BUFCACHE_SIZE. lia.
  - intros i h Hi. rewrite lookup_drop in Hi. rewrite <-(Hg _ _ Hi). unfold BUFCACHE_SIZE.
    rewrite Z.add_mod_idemp_l by lia. do 2 f_equal. lia.
Qed.

Lemma bufcache_free_ok h c p l : buf_rep c l ->
  let '(c', p') := bufcache_free h c p in
  if Z.of_nat (length l) <? BUFCACHE_SIZE then buf_rep c' (l ++ [h]) /\ p' = p
  else c' = c /\ pool_free p' ≡ₚ h :: pool_free p.
Proof.
  intros Hr. pose proof Hr as [Hn Hm Hh Hg]. unfold bufcache_free. rewrite Hn.
  destruct (Z.ltb_spec (Z.of_nat (length l)) BUFCACHE_SIZE) as [Hlt|Hge].
  - split; [|done]. rewrite <-Hn. change 1 with (Z.of_nat (length [h])) at 1.
    change (setf bufcache_handles ?f c) with (c <| bufcache_handles := f (bufcache_handles c) |>).
    apply buf_rep_app; [done|cbn [length]; lia| |].
    + intros i x [Hi ->]%list_lookup_singleton_Some. rewrite land_size, Hn, Hi. change (Z.of_nat 0) with 0.
      by rewrite Z.add_0_r, lookup_total_insert_eq.
    + intros i Hi. rewrite land_size, Hn, lookup_total_insert_ne; [done|]. apply mod_ne; lia.
  - split; [done|]. cbn. apply free_ok.
Qed.

(** ** All buffers *)

(** Handlers use the first [n] buffers they have been given; a buffer in use comes back. *)
Inductive buf_step : relation (bufcache * P * list Z) :=
| BufUse num n num' c p c1 p1 c2 used : 0 <= num < 256 ->
    bufcache_prealloc num c p = (num', c1, p1) -> 0 <= n <= num' -> bufcache_alloc n c1 = Some c2 ->
    buf_step (c, p, used) (c2, p1, used ++ (prealloc_handle c1 <$> seqZ 0 n))
| BufFree h c p c1 p1 u1 u2 : bufcache_free h c p = (c1, p1) ->
    buf_step (c, p, u1 ++ h :: u2) (c1, p1, u1 ++ u2).

Lemma take_handles c l n : buf_rep c l -> 0 <= n <= Z.of_nat (length l) ->
  (forall i, (i < Z.to_nat n)%nat -> l !! i = Some (prealloc_handle c (Z.of_nat i))) ->
  prealloc_handle c <$> seqZ 0 n = take (Z.to_nat n) l.
Proof.
  intros Hr Hn Hi. apply list_eq. intros i. rewrite list_lookup_fmap.
  destruct (decide (i < Z.to_nat n)%nat) as [Hl|Hl].
  - rewrite lookup_seqZ_lt, lookup_take_lt, Hi by lia. done.
  - rewrite lookup_seqZ_ge, lookup_take_ge by lia. done.
Qed.

Lemma buf_step_ok c p used l c' p' used' : buf_rep c l -> buf_step (c, p, used) (c', p', used') ->
  exists l', buf_rep c' l' /\ l' ++ used' ++ pool_free p' ≡ₚ l ++ used ++ pool_free p.
Proof.
  intros Hr Hs. inversion Hs as [num n num' ? ? c1 p1 c2 ? Hnum Ep Hn Ea|h ? ? c1 p1 u1 u2 Ef]; subst.
  - destruct (bufcache_prealloc_ok num c p l Hr Hnum) as (new & x & y & z & E & Hr1 & Hp & _ & Hx & _ & Hget).
    rewrite Ep in E. injection E as <- <- <-. destruct (bufcache_alloc_ok (Z.to_nat n) c1 _ Hr1 ltac:(lia)) as (c3 & E3 & Hr3).
    rewrite Z2Nat.id in E3 by lia. rewrite Ea in E3. injection E3 as <-. eexists. split; [exact Hr3|].
    rewrite (take_handles c1 (l ++ new) n Hr1) by (try lia; intros; apply Hget; lia).
    rewrite Hp. transitivity ((take (Z.to_nat n) (l ++ new) ++ drop (Z.to_nat n) (l ++ new)) ++ used ++ pool_free p');
      [solve_Permutation|]. rewrite take_drop. solve_Permutation.
  - pose proof (bufcache_free_ok h c p l Hr) as H1. rewrite Ef in H1. destruct (_ <? BUFCACHE_SIZE).
    + destruct H1 as [Hr1 ->]. eexists. split; [exact Hr1|]. solve_Permutation.
    + destruct H1 as [-> Hp]. exists l. split; [done|]. rewrite Hp. solve_Permutation.
Qed.

Lemma buf_steps_ok s s' : rtc buf_step s s' -> forall l, buf_rep s.1.1 l ->
  exists l', buf_rep s'.1.1 l' /\ l' ++ s'.2 ++ pool_free s'.1.2 ≡ₚ l ++ s.2 ++ pool_free s.1.2.
Proof.
  induction 1 as [s|[[c p] u] [[c1 p1] u1] s' Hs _ IH]; intros l Hr; [by exists l|]. cbn [fst snd] in *.
  destruct (buf_step_ok _ _ _ _ _ _ _ Hr Hs) as (l1 & Hr1 & Hp1). destruct (IH l1 Hr1) as (l' & Hr' & Hp').
  exists l'. split; [done|]. by rewrite Hp'.
Qed.
End BufCache.

(** ** No buffer is lost or used twice *)

(** Whatever the handlers use and give back, every buffer is at one place: in the cache,
    in use, or in the pool; and the reservation of buffers that were announced succeeds. *)
Theorem buffers_conserved {P} `{MempoolLaws P} (c c' : bufcache) (p p' : P) l used used' :
  buf_rep c l -> NoDup (l ++ used ++ pool_free p) -> rtc buf_step (c, p, used) (c', p', used') ->
  exists l', buf_rep c' l' /\ l' ++ used' ++ pool_free p' ≡ₚ l ++ used ++ pool_free p
  /\ NoDup (l' ++ used' ++ pool_free p')
  /\ forall num n, 0 <= num < 256 -> let '(num', c1, _) := bufcache_prealloc num c' p' in
       0 <= n <= num' -> exists c2, bufcache_alloc n c1 = Some c2.
Proof.
  intros Hr Hnd Hs. destruct (buf_steps_ok _ _ Hs l Hr) as (l' & Hr' & Hp). cbn [fst snd] in *.
  exists l'. split; [done|]. split; [done|]. split; [by rewrite Hp|]. intros num n Hn.
  destruct (bufcache_prealloc_ok num c' p' l' Hr' Hn) as (new & x & y & z & -> & Hr1 & _ & _ & Hx & _).
  intros Hn2. destruct (bufcache_alloc_ok (Z.to_nat n) y _ Hr1 ltac:(lia)) as (c3 & E3 & _).
  rewrite Z2Nat.id in E3 by lia. by exists c3.
Qed.

(** A pool that is a list. *)
Definition list_pool : Type := list Z.
#[export] Instance list_mempool : Mempool list_pool := {
  rte_pktmbuf_alloc_bulk p n :=
    if Z.max 0 n <=? Z.of_nat (length p) then Some (take (Z.to_nat n) p, drop (Z.to_nat n) p) else None;
  rte_pktmbuf_alloc p := match p with [] => None | b :: p => Some (b, p) end;
  rte_pktmbuf_free_seg b p := b :: p }.
#[export] Instance list_mempool_laws : MempoolLaws list_pool.
Proof.
  refine {| pool_free := fun p => p |}; cbn.
  - intros p n l p'. destruct (Z.leb_spec (Z.max 0 n) (Z.of_nat (length p))) as [Hl|]; [|done].
    intros [= <- <-]. split; [rewrite length_take; lia|by rewrite take_drop].
  - intros [|x p] b p'; [done|]. by intros [= <- <-].
  - by intros [|x p].
  - done.
Defined.

Definition ex_cache : bufcache := mk_bufcache ∅ 0 120.

Lemma ex_cache_rep : buf_rep ex_cache [].
Proof. constructor; cbn; unfold BUFCACHE_SIZE; [done|lia|lia|]. intros i h Hi. by rewrite lookup_nil in Hi. Qed.

Definition ex_used : bufcache * list_pool :=
  let '(_, c, p) := bufcache_prealloc 2 ex_cache ([1; 2; 3] : list_pool) in (default c (bufcache_alloc 2 c), p).

Lemma buffers_conserved_witness :
  exists l', buf_rep ex_used.1 l' /\ l' ++ [1; 2] ++ ex_used.2 ≡ₚ [] ++ [] ++ [1; 2; 3]
  /\ NoDup (l' ++ [1; 2] ++ ex_used.2)
  /\ forall num n, 0 <= num < 256 -> let '(num', c1, _) := bufcache_prealloc num ex_used.1 ex_used.2 in
       0 <= n <= num' -> exists c2, bufcache_alloc n c1 = Some c2.
Proof.
  refine (buffers_conserved (P := list_pool) ex_cache ex_used.1 [1; 2; 3] ex_used.2 [] [] [1; 2] ex_cache_rep _ _).
  - change (NoDup [1; 2; 3]).
    repeat (apply NoDup_cons; split; [rewrite ?elem_of_cons, elem_of_nil; lia|]). by apply NoDup_nil_2.
  - assert (H2 : 0 <= 2 < 256) by lia. assert (H3 : 0 <= 2 <= 2) by lia.
    apply rtc_once. exact (BufUse 2 2 2 ex_cache ([1; 2; 3] : list_pool) _ _ _ [] H2 eq_refl H3 eq_refl).
Defined.
