(* ===== verification/FastKernel.v ===== *)
(** * Queues to the slow path, fast path side (tas/fast/fast_kernel.c)

    A core passes packets it does not handle to the slow path, and takes packets and
    requests to retransmit from it.  The rings of a core are indexed by byte offset.
    Packets are bytes here: [pkt_tcp_of] and [pkt_gre_of] give the structs. *)

From S2P Require Import Prelude FpTypes AppCtx LibTypes LibConn LibPoll Blocking.
From S2P Require Import TcpCommon FlowTx FlowRx FlowOps.

Definition SP_MEM_ID : Z := FLEXNIC_PL_VMST_NUM.
Definition FLEXTCP_PL_KRX_PACKET : Z := 1.
Definition FLEXTCP_PL_KTX_PACKET : Z := 1.
Definition FLEXTCP_PL_KTX_CONNRETRAN : Z := 2.
Definition FLEXTCP_PL_KTX_WINRETRAN : Z := 3.
Definition FLEXTCP_PL_KTX_PACKET_NOTS : Z := 4.
Definition sizeof_krx : Z := 64.
Definition sizeof_ktx : Z := 64.

Record krx : Type := mk_krx {
  krx_type : Z; krx_addr : Z; krx_len : Z; krx_fn_core : Z; krx_flow_group : Z; krx_vmid : Z }.
#[export] Instance eta_krx : Eta krx := fun r =>
  mk_krx (krx_type r) (krx_addr r) (krx_len r) (krx_fn_core r) (krx_flow_group r) (krx_vmid r).
#[export] Instance krx_inhabited : Inhabited krx := populate (mk_krx 0 0 0 0 0 0).

(** The flow id shares the first four bytes of the message with the address. *)
Record ktx : Type := mk_ktx { ktx_type : Z; ktx_addr : Z; ktx_len : Z }.
#[export] Instance eta_ktx : Eta ktx := fun r => mk_ktx (ktx_type r) (ktx_addr r) (ktx_len r).
#[export] Instance ktx_inhabited : Inhabited ktx := populate (mk_ktx 0 0 0).
Definition ktx_flow_id (k : ktx) : Z := u32 (ktx_addr k).

(** The context of a core ([fp_state->kctx[core]]), with the rings. *)
Record kctx : Type := mk_kctx {
  kx_rx : gmap Z krx; kx_tx : gmap Z ktx; kx_rx_len : Z; kx_tx_len : Z;
  kx_rx_head : Z; kx_tx_head : Z; kx_vm_id : Z; kx_last_ts : Z }.
#[export] Instance eta_kctx : Eta kctx := fun r =>
  mk_kctx (kx_rx r) (kx_tx r) (kx_rx_len r) (kx_tx_len r) (kx_rx_head r) (kx_tx_head r) (kx_vm_id r) (kx_last_ts r).
#[export] Instance kctx_inhabited : Inhabited kctx := populate (mk_kctx ∅ ∅ 0 0 0 0 0 0).

(** What a core has for the slow path: its context, the packets dropped, the time stamp
    of the last wake-up and how often the slow path has been woken. *)
Record kernel_if : Type := mk_kif {
  k_ctx : kctx; kernel_drop : Z; k_last_ts : Z; k_woken : Z }.
#[export] Instance eta_kif : Eta kernel_if := fun r =>
  mk_kif (k_ctx r) (kernel_drop r) (k_last_ts r) (k_woken r).

(** ** Packets as bytes *)

Definition load16 (m : mem) (a : Z) : Z := m a + m (a + 1) * 256.
Definition load48 (m : mem) (a : Z) : Z := load32 m a + load16 m (a + 4) * 4294967296.

Definition eth_of (m : mem) (a : Z) : eth_hdr := mk_eth (load48 m a) (load48 m (a + 6)) (load16 m (a + 12)).
Definition ip_of (m : mem) (a : Z) : ip_hdr :=
  mk_ip (m a) (m (a + 1)) (load16 m (a + 2)) (load16 m (a + 4)) (load16 m (a + 6)) (m (a + 8)) (m (a + 9))
    (load16 m (a + 10)) (load32 m (a + 12)) (load32 m (a + 16)).
Definition gre_of (m : mem) (a : Z) : gre_hdr := mk_gre (load16 m a) (load16 m (a + 2)) (load32 m (a + 4)).
Definition tcp_of (m : mem) (a : Z) : tcp_hdr :=
  mk_tcp (load16 m a) (load16 m (a + 2)) (load32 m (a + 4)) (load32 m (a + 8)) (load16 m (a + 12))
    (load16 m (a + 14)) (load16 m (a + 16)) (load16 m (a + 18)).

Definition pkt_tcp_of (m : mem) : pkt_tcp :=
  mk_pkt_tcp (eth_of m 0) (ip_of m offsetof_tcp_ip) (tcp_of m offsetof_tcp_tcp) (fun i => m (sizeof_pkt_tcp + i)).
Definition pkt_gre_of (m : mem) : pkt_gre :=
  mk_pkt_gre (eth_of m 0) (ip_of m offsetof_gre_out_ip) (gre_of m (offsetof_gre_out_ip + sizeof_ip))
    (ip_of m offsetof_gre_in_ip) (tcp_of m offsetof_gre_tcp) (fun i => m (sizeof_pkt_gre + i)).

(** A received packet: the buffer, its bytes from the data on and its RSS hash. *)
Record rx_pkt : Type := mk_rx_pkt { rp_buf : rxbuf; rp_bytes : mem; rp_rss : option Z }.

Section FastKernel.
Context (E : fpenv) (info : flexnic_info) (rss_reta_size : Z) {Q : Type} `{QmanOps Q}.

Definition parse_fuel : nat := 64.

(** ** Packets of the slow path *)

(** The time stamp is filled in, if the packet has the option. *)
Definition inject_tcp_ts (p : pkt_tcp) (len ts : Z) : option (pkt_tcp * xsum_req) :=
  if (len <? sizeof_pkt_tcp) || negb (f_beui16 (eth_type (p_eth p)) =? ETH_TYPE_IP)
     || negb (ip_proto (p_ip p) =? IP_PROTO_TCP) then Some (p, XsumNone)
  else
    match tcp_parse_options parse_fuel p len with
    | ParseFuel => None
    | ParseErr | ParseOk None => Some (p, XsumNone)
    | ParseOk (Some o) =>
        Some (fast_flows_kernelxsums E (p <| p_rest ::= fun m => store32 m (o + 2) (t_beui32 ts) |>))
    end.

Definition inject_tcp_ts_gre (p : pkt_gre) (len ts : Z) : option (pkt_gre * xsum_req) :=
  if (len <? sizeof_pkt_gre) || negb (f_beui16 (eth_type (g_eth p)) =? ETH_TYPE_IP)
     || negb (ip_proto (g_out_ip p) =? IP_PROTO_GRE) || negb (ip_proto (g_in_ip p) =? IP_PROTO_TCP)
  then Some (p, XsumNone)
  else
    match tcp_parse_options_gre parse_fuel p len with
    | ParseFuel => None
    | ParseErr | ParseOk None => Some (p, XsumNone)
    | ParseOk (Some o) =>
        Some (fast_flows_kernelxsums_gre E (p <| g_rest ::= fun m => store32 m (o + 2) (t_beui32 ts) |>))
    end.

(** The packet of an entry, in the buffer [nbh]. *)
Definition ktx_packet (e : ktx) (nbh : nbuf) (inject : bool) (ts : Z) (w : world Q) : option (world Q) :=
  let len := ktx_len e in
  d ← dma_read E (w_shm w SP_MEM_ID) (ktx_addr e) len;
  let buf := mem_write (nb_mem nbh) 0 len d in
  '(p, xs) ← (if negb inject then Some (PktTcp (pkt_tcp_of buf), XsumNone)
              else if VIRTUOSO_GRE
              then '(p, xs) ← inject_tcp_ts_gre (pkt_gre_of buf) len ts; Some (PktGre p, xs)
              else '(p, xs) ← inject_tcp_ts (pkt_tcp_of buf) len ts; Some (PktTcp p, xs));
  ctx ← tx_send (w_ctx w) (nb_id nbh) p xs 0 len;
  Some (w <| w_ctx := ctx |>).

(** An entry: the result is 0 when the buffer has been used, 1 when it has not. *)
Definition ktx_handle (e : ktx) (nbh : nbuf) (ts : Z) (w : world Q) : option (Z * world Q) :=
  if ktx_type e =? FLEXTCP_PL_KTX_PACKET then w ← ktx_packet e nbh true ts w; Some (0, w)
  else if ktx_type e =? FLEXTCP_PL_KTX_PACKET_NOTS then w ← ktx_packet e nbh false ts w; Some (0, w)
  else if ktx_type e =? FLEXTCP_PL_KTX_CONNRETRAN then
    cassert (ktx_flow_id e <? FLEXNIC_PL_FLOWST_NUM);;
    w ← fast_flows_retransmit w (ktx_flow_id e); Some (1, w)
  else if ktx_type e =? FLEXTCP_PL_KTX_WINRETRAN then
    cassert (ktx_flow_id e <? FLEXNIC_PL_FLOWST_NUM);;
    w ← fast_flows_winretransmit E w (ktx_flow_id e) nbh ts; Some (0, w)
  else None.

(** The result is -1 when there is no entry. *)
Definition fast_kernel_poll (nbh : nbuf) (ts : Z) (w : world Q) (k : kctx) : option (Z * world Q * kctx) :=
  if kx_tx_len k =? 0 then Some (-1, w, k)
  else
    let pos := kx_tx_head k in
    let e := kx_tx k !!! pos in
    if ktx_type e =? 0 then Some (-1, w, k)
    else
      '(ret, w) ← ktx_handle e nbh ts w;
      Some (ret, w, k <| kx_tx ::= <[pos := e <| ktx_type := 0 |>]> |>
                      <| kx_tx_head := ring_wrap (kx_tx_len k) pos sizeof_ktx |>).

(** ** Packets for the slow path *)

Definition network_buf_flowgroup (rss : option Z) (core : Z) : Z :=
  match rss with None => core | Some h => Z.land h (rss_reta_size - 1) end.

(** [tsc] is the time of the wake-up. *)
Definition fast_kernel_packet (rp : rx_pkt) (tsc : Z) (w : world Q) (k : kernel_if) : option (world Q * kernel_if) :=
  let kc := k_ctx k in
  if kx_rx_len kc =? 0 then Some (w, k)
  else
    let pos := kx_rx_head kc in
    let e := kx_rx kc !!! pos in
    if negb (krx_type e =? 0) then Some (w, k <| kernel_drop ::= fun n => u64 (n + 1) |>)
    else
      let len := rb_len (rp_buf rp) in
      m ← dma_write E (w_shm w SP_MEM_ID) (krx_addr e) len (rp_bytes rp);
      let core := ctx_id (w_ctx w) in
      let e := mk_krx FLEXTCP_PL_KRX_PACKET (krx_addr e) len core
                 (u16 (network_buf_flowgroup (rp_rss rp) core)) (u16 (kx_vm_id kc)) in
      let '(woken, ts) := notify_slowpath_core info (k_last_ts k) tsc in
      Some (w <| w_shm ::= fun s => shm_set s SP_MEM_ID m |>,
            k <| k_ctx := kc <| kx_rx_head := ring_wrap (kx_rx_len kc) pos sizeof_krx |> <| kx_rx ::= <[pos := e]> |> |>
              <| k_last_ts := ts |> <| k_woken ::= fun n => if woken then n + 1 else n |>).

End FastKernel.
