(* ===== verification/NicQueue.v ===== *)
(** * Queues to the fast path, slow path side (tas/slow/nicif.c)

    The slow path sends packets and retransmission requests to the cores and polls the
    packets the cores pass to it.  Positions are indices into the rings of [FastKernel];
    an entry of index [i] is at byte offset [64 * i]. *)

From S2P Require Import Prelude FpTypes AppCtx LibTypes LibConn LibPoll Blocking FlowTx FastKernel.

Definition FLEXTCP_PL_KRX_INVALID : Z := 0.
Definition PKTBUF_SIZE : Z := 1536.

(** The variables of nicif.c, the contexts of the cores and the memory of the slow path;
    [nq_woken] are the cores woken, last first. *)
Record nicq : Type := mk_nicq {
  fn_cores : Z; nq_rxq_len : Z; nq_rxq_tail : gmap Z Z; nq_rxq_next : Z;
  nq_txq_len : Z; nq_txq_tail : gmap Z Z;
  nq_rxq_bufs : gmap (Z * Z) Z; nq_txq_bufs : gmap (Z * Z) Z;
  nq_kctx : gmap Z kctx; nq_shm : mem; nq_woken : list Z }.
#[export] Instance eta_nicq : Eta nicq := fun r =>
  mk_nicq (fn_cores r) (nq_rxq_len r) (nq_rxq_tail r) (nq_rxq_next r) (nq_txq_len r) (nq_txq_tail r)
    (nq_rxq_bufs r) (nq_txq_bufs r) (nq_kctx r) (nq_shm r) (nq_woken r).

(** The flow id shares the first four bytes with the address. *)
Definition ktx_set_flow_id (f : Z) (k : ktx) : ktx :=
  k <| ktx_addr := ktx_addr k - u32 (ktx_addr k) + f |>.

Section NicQueue.
Context (info : flexnic_info) (tsc : Z).

Definition upd_kctx (core : Z) (f : kctx -> kctx) (s : nicq) : nicq :=
  s <| nq_kctx ::= fun h => <[core := f (h !!! core)]> h |>.
Definition kctx_of (s : nicq) (core : Z) : kctx := nq_kctx s !!! core.
Definition ktx_at (s : nicq) (core i : Z) : ktx := kx_tx (kctx_of s core) !!! (sizeof_ktx * i).
Definition set_ktx (core i : Z) (f : ktx -> ktx) (s : nicq) : nicq :=
  upd_kctx core (fun k => k <| kx_tx ::= fun r => <[sizeof_ktx * i := f (r !!! (sizeof_ktx * i))]> r |>) s.

(** Index of the free entry and the tail behind it. *)
Definition ktx_try_alloc (core : Z) (s : nicq) : option (Z * Z) :=
  let tail := nq_txq_tail s !!! core in
  if negb (ktx_type (ktx_at s core tail) =? 0) then None
  else
    let new_tail := u32 (tail + 1) in
    Some (tail, if new_tail =? nq_rxq_len s then u32 (new_tail - nq_rxq_len s) else new_tail).

Definition notify_fp (core : Z) (s : nicq) : nicq :=
  let '(woken, ts) := notify_fastpath_core info (kx_last_ts (kctx_of s core)) tsc in
  let s := upd_kctx core (fun k => k <| kx_last_ts := ts |>) s in
  if woken then s <| nq_woken ::= cons core |> else s.

(** The address of the packet buffer and the handle for [nicif_tx_send]. *)
Definition nicif_tx_alloc (len : Z) (s : nicq) : option (Z * Z) * nicq :=
  match ktx_try_alloc 0 s with
  | None => (None, s)
  | Some (i, opaque) =>
      let addr := nq_txq_bufs s !!! (0, i) in
      (Some (addr, opaque), set_ktx 0 i (fun k => k <| ktx_addr := addr |> <| ktx_len := len |>) s)
  end.

Definition nicif_tx_send (opaque : Z) (no_ts : bool) (s : nicq) : nicq :=
  let tail := if opaque =? 0 then u32 (nq_txq_len s - 1) else opaque - 1 in
  let s := set_ktx 0 tail (fun k => k <| ktx_type :=
             if no_ts then FLEXTCP_PL_KTX_PACKET_NOTS else FLEXTCP_PL_KTX_PACKET |>) s in
  notify_fp 0 (s <| nq_txq_tail ::= <[0 := opaque]> |>).

(** [budget] is the result of [tas_get_budget], an unsigned number. *)
Definition nicif_retran (type f_id core budget : Z) (s : nicq) : bool * nicq :=
  if budget <=? 0 then (false, s)
  else
    match ktx_try_alloc core s with
    | None => (false, s)
    | Some (i, new_tail) =>
        let s := s <| nq_txq_tail ::= <[core := new_tail]> |> in
        let s := set_ktx core i (ktx_set_flow_id f_id) s in
        let s := set_ktx core i (fun k => k <| ktx_type := type |>) s in
        (true, notify_fp core s)
    end.
Definition nicif_connection_winretransmit := nicif_retran FLEXTCP_PL_KTX_WINRETRAN.
Definition nicif_connection_retransmit := nicif_retran FLEXTCP_PL_KTX_CONNRETRAN.

(** ** Receiving *)

(** What the slow path does with a packet: bytes of the buffer, length, core, flow group. *)
Context (process_packet : mem -> Z -> Z -> Z -> nicq -> nicq) (budget_update : nicq -> nicq).

(** Whether there was an entry. *)
Definition rxq_poll (s : nicq) : bool * nicq :=
  let core := nq_rxq_next s in
  let tail := nq_rxq_tail s !!! core in
  let s := s <| nq_rxq_next := (core + 1) mod fn_cores s |> in
  let e := kx_rx (kctx_of s core) !!! (sizeof_krx * tail) in
  if krx_type e =? FLEXTCP_PL_KRX_INVALID then (false, s)
  else
    let new_tail := u32 (tail + 1) in
    let new_tail := if new_tail =? nq_rxq_len s then u32 (new_tail - nq_rxq_len s) else new_tail in
    let buf := nq_rxq_bufs s !!! (core, tail) in
    let s := if krx_type e =? FLEXTCP_PL_KRX_PACKET
             then process_packet (fun i => nq_shm s (buf + i)) (krx_len e) (krx_fn_core e) (krx_flow_group e) s
             else s in
    let s := upd_kctx core (fun k => k <| kx_rx ::= fun r =>
               <[sizeof_krx * tail := (r !!! (sizeof_krx * tail)) <| krx_type := 0 |>]> r |>) s in
    (true, s <| nq_rxq_tail ::= <[core := new_tail]> |>).

Definition BUDGET_INNER_UPDATE_STRIDE : Z := 32.

Fixpoint nicif_poll_loop (n : nat) (i ret : Z) (s : nicq) : Z * nicq :=
  match n with
  | O => (ret, s)
  | S n =>
      let s := if Z.land i (BUDGET_INNER_UPDATE_STRIDE - 1) =? BUDGET_INNER_UPDATE_STRIDE - 1
               then budget_update s else s in
      let '(x, s) := rxq_poll s in
      nicif_poll_loop n (i + 1) (if x then ret + 1 else ret) s
  end.

Definition nicif_poll (s : nicq) : Z * nicq := nicif_poll_loop 512 0 0 s.

(** ** Start *)

(** The buffers of the entries, [n] from index [i] on. *)
Fixpoint init_bufs (n : nat) (core i off : Z) (bufs : gmap (Z * Z) Z) : gmap (Z * Z) Z :=
  match n with
  | O => bufs
  | S n => init_bufs n core (i + 1) (off + PKTBUF_SIZE) (<[(core, i) := off]> bufs)
  end.

Fixpoint init_krx (n : nat) (i off : Z) (r : gmap Z krx) : gmap Z krx :=
  match n with
  | O => r
  | S n => init_krx n (i + 1) (off + PKTBUF_SIZE)
             (<[sizeof_krx * i := mk_krx 0 off 0 0 0 0]> r)
  end.

(** A core whose buffers are at [off_bufs]; the memory of the queues is zeroed. *)
Definition adminq_init_core (core nic_rx_len nic_tx_len off_bufs : Z) (s : nicq) : nicq :=
  let off_tx := off_bufs + nq_rxq_len s * PKTBUF_SIZE in
  let s := s <| nq_rxq_bufs ::= init_bufs (Z.to_nat (nq_rxq_len s)) core 0 off_bufs |>
             <| nq_txq_bufs ::= init_bufs (Z.to_nat (nq_txq_len s)) core 0 off_tx |> in
  upd_kctx core (fun k => k <| kx_rx := init_krx (Z.to_nat (nq_rxq_len s)) 0 off_bufs ∅ |>
    <| kx_tx := ∅ |> <| kx_tx_len := sizeof_ktx * nic_tx_len |> <| kx_rx_len := sizeof_krx * nic_rx_len |>) s.

End NicQueue.
