(* ===== verification/NicThms.v ===== *)
(** * The queues between the slow path and the cores

    Both sides of a queue are put together: what the slow path sends is what the core gets,
    in order and once, and the other way around; then the theorems. *)

From S2P Require Import Prelude FpTypes Links Qman QmanProofs TcpCommon FlowTx FlowRx FlowOps.
From S2P Require Import Examples AppCtx LibTypes LibConn LibPoll LibProofs Blocking FastKernel.
From S2P Require Import NicQueue.

Definition ktx_free (e : ktx) : bool := ktx_type e =? 0.
Definition krx_free (e : krx) : bool := krx_type e =? 0.

(** Writing to the free entry of the producer changes nothing. *)
Lemma ring_of_hd_write {A} `{Inhabited A} (free : A -> bool) st n ring tl hd l e : 0 < n ->
  ring_of free st n ring tl hd l -> Z.of_nat (length l) < n -> free e = true ->
  ring_of free st n (<[hd := e]> ring) tl hd l.
Proof.
  intros Hn [Hs Hl (t & Ht & -> & -> & He & Hf) Hu] Hlt Hfe. constructor; [done|done| |done].
  exists t. split; [done|]. split; [done|]. split; [done|]. split.
  - intros i x Hi. apply lookup_lt_Some in Hi as Hi'. rewrite lookup_total_insert_ne; [by apply He|].
    intros Hx%slot_inj; lia.
  - intros i Hi. destruct (decide (i = Z.of_nat (length l))) as [->|Hne].
    + by rewrite lookup_total_insert_eq.
    + rewrite lookup_total_insert_ne; [by apply Hf|]. intros Hx%slot_inj; lia.
Qed.

Lemma ring_of_hd_slot {A} `{Inhabited A} (free : A -> bool) st n ring tl hd l : 
  ring_of free st n ring tl hd l -> exists i, 0 <= i < n /\ hd = st * i.
Proof.
  intros [Hs _ (t & Ht & _ & -> & _) _]. exists ((t + Z.of_nat (length l)) mod n).
  split; [apply Z.mod_pos_bound; lia|done].
Qed.

(** ** From the slow path to a core *)

(** The queue to [core] has [n] entries and holds [l]. *)
Record ktx_rep (n : Z) (s : nicq) (core : Z) (l : list ktx) : Prop := mk_ktx_rep {
  kt_len : nq_txq_len s = n /\ nq_rxq_len s = n /\ 0 < n < 33554432;
  kt_tail : 0 <= nq_txq_tail s !!! core < n;
  kt_reg : kx_tx_len (kctx_of s core) = sizeof_ktx * n;
  kt_ring : ring_of ktx_free 64 n (kx_tx (kctx_of s core)) (kx_tx_head (kctx_of s core))
              (64 * (nq_txq_tail s !!! core)) l }.

Section TxQueue.
Context (info : flexnic_info) (tsc n : Z).

Lemma kctx_upd core f s c : kctx_of (upd_kctx core f s) c = if decide (c = core) then f (kctx_of s core) else kctx_of s c.
Proof.
  unfold kctx_of, upd_kctx. cbn. case_decide; [subst; by rewrite lookup_total_insert_eq|].
  by rewrite lookup_total_insert_ne.
Qed.

Lemma notify_fp_frame core s : let s' := notify_fp info tsc core s in
  nq_txq_len s' = nq_txq_len s /\ nq_rxq_len s' = nq_rxq_len s /\ nq_txq_tail s' = nq_txq_tail s
  /\ nq_txq_bufs s' = nq_txq_bufs s /\ nq_shm s' = nq_shm s
  /\ forall c, kx_tx (kctx_of s' c) = kx_tx (kctx_of s c) /\ kx_tx_head (kctx_of s' c) = kx_tx_head (kctx_of s c)
     /\ kx_tx_len (kctx_of s' c) = kx_tx_len (kctx_of s c).
Proof.
  unfold notify_fp. destruct (notify_fastpath_core _ _ _) as [wk ts]. cbv zeta.
  assert (Hc : forall c, let s1 := upd_kctx core (fun k => k <| kx_last_ts := ts |>) s in
     kx_tx (kctx_of s1 c) = kx_tx (kctx_of s c) /\ kx_tx_head (kctx_of s1 c) = kx_tx_head (kctx_of s c)
     /\ kx_tx_len (kctx_of s1 c) = kx_tx_len (kctx_of s c)).
  { intros c. cbv zeta. rewrite kctx_upd. case_decide; [by subst|done]. }
  destruct wk; split_and!; try done; exact Hc.
Qed.

Lemma notify_fp_rep core c s l : ktx_rep n s c l -> ktx_rep n (notify_fp info tsc core s) c l.
Proof.
  intros [H1 H2 H3 H4]. destruct (notify_fp_frame core s) as (E1 & E2 & E3 & _ & _ & E4).
  destruct (E4 c) as (E5 & E6 & E7). constructor; by rewrite ?E1, ?E2, ?E3, ?E5, ?E6, ?E7.
Qed.

Lemma ktx_at_hd s core : ktx_at s core (nq_txq_tail s !!! core) = kx_tx (kctx_of s core) !!! (64 * (nq_txq_tail s !!! core)).
Proof. done. Qed.

(** An entry can be allocated exactly when the queue has room. *)
Lemma ktx_try_alloc_ok s core l : ktx_rep n s core l ->
  let t := nq_txq_tail s !!! core in
  ktx_try_alloc core s = if Z.of_nat (length l) <? n then Some (t, (t + 1) mod n) else None.
Proof.
  intros [(E1 & E2 & Hn) Ht Hg Hr]. cbv zeta. unfold ktx_try_alloc. rewrite ktx_at_hd.
  pose proof (ring_of_room _ _ _ _ _ _ _ (proj1 Hn) Hr) as Hroom. unfold ktx_free in Hroom.
  destruct (Z.ltb_spec (Z.of_nat (length l)) n) as [Hl|Hl].
  - apply Hroom in Hl. rewrite Hl. cbn [negb]. do 2 f_equal. rewrite u32_id, E2 by cside.
    destruct (Z.eqb_spec (nq_txq_tail s !!! core + 1) n) as [Ee|Ee].
    + rewrite Ee, Z.sub_diag, Z_mod_same_full. done.
    + rewrite Z.mod_small by lia. done.
  - destruct (Z.eqb_spec (ktx_type (kx_tx (kctx_of s core) !!! (64 * (nq_txq_tail s !!! core)))) 0) as [E0|E0]; [|done].
    pose proof (proj1 Hroom eq_refl). lia.
Qed.

Lemma ring_adv_tail t : 0 <= t < n -> ring_adv 64 n (64 * t) = 64 * ((t + 1) mod n).
Proof.
  intros Ht. unfold ring_adv. destruct (Z.leb_spec (64 * n) (64 * t + 64)).
  - replace (t + 1) with n by lia. rewrite Z_mod_same_full. lia.
  - rewrite Z.mod_small by lia. lia.
Qed.

(** An entry is filled in and the tail moves. *)
Lemma ktx_push s s' core l e : ktx_rep n s core l -> Z.of_nat (length l) < n -> ktx_type e <> 0 ->
  let t := nq_txq_tail s !!! core in
  nq_txq_len s' = nq_txq_len s -> nq_rxq_len s' = nq_rxq_len s -> nq_txq_tail s' !!! core = (t + 1) mod n ->
  kx_tx_len (kctx_of s' core) = kx_tx_len (kctx_of s core) ->
  kx_tx_head (kctx_of s' core) = kx_tx_head (kctx_of s core) ->
  kx_tx (kctx_of s' core) = <[64 * t := e]> (kx_tx (kctx_of s core)) ->
  ktx_rep n s' core (l ++ [e]).
Proof.
  intros [(E1 & E2 & Hn) Ht Hg Hr] Hl He t F1 F2 F3 F4 F5 F6. constructor; rewrite ?F1, ?F2, ?F3, ?F4, ?F5, ?F6; try done.
  - apply Z.mod_pos_bound. lia.
  - rewrite <-ring_adv_tail by done. apply ring_of_push; [lia|exact Hr| |by apply Z.eqb_neq].
    by apply (ring_of_room _ _ _ _ _ _ _ (proj1 Hn) Hr).
Qed.

Lemma ktx_rep_same s s' core l : ktx_rep n s core l ->
  nq_txq_len s' = nq_txq_len s -> nq_rxq_len s' = nq_rxq_len s -> nq_txq_tail s' !!! core = nq_txq_tail s !!! core ->
  kx_tx_len (kctx_of s' core) = kx_tx_len (kctx_of s core) ->
  kx_tx_head (kctx_of s' core) = kx_tx_head (kctx_of s core) ->
  kx_tx (kctx_of s' core) = kx_tx (kctx_of s core) -> ktx_rep n s' core l.
Proof. intros [(E1 & E2 & Hn) Ht Hg Hr] F1 F2 F3 F4 F5 F6. by constructor; rewrite ?F1, ?F2, ?F3, ?F4, ?F5, ?F6. Qed.

Lemma set_ktx_tx core i f s c : kx_tx (kctx_of (set_ktx core i f s) c)
  = if decide (c = core) then <[64 * i := f (ktx_at s core i)]> (kx_tx (kctx_of s core)) else kx_tx (kctx_of s c).
Proof. unfold set_ktx. rewrite kctx_upd. by case_decide. Qed.

Lemma set_ktx_frame core i f s : let s' := set_ktx core i f s in
  nq_txq_len s' = nq_txq_len s /\ nq_rxq_len s' = nq_rxq_len s /\ nq_txq_tail s' = nq_txq_tail s
  /\ nq_txq_bufs s' = nq_txq_bufs s
  /\ forall c, kx_tx_len (kctx_of s' c) = kx_tx_len (kctx_of s c) /\ kx_tx_head (kctx_of s' c) = kx_tx_head (kctx_of s c).
Proof.
  cbv zeta. split_and!; try done. intros c. unfold set_ktx. rewrite kctx_upd. case_decide; [by subst|done].
Qed.

Lemma kctx_tail f s c : kctx_of (s <| nq_txq_tail ::= f |>) c = kctx_of s c.
Proof. done. Qed.

(** The entry of a request to retransmit. *)
Definition retran_entry (type f_id : Z) (e : ktx) : ktx := ktx_set_flow_id f_id e <| ktx_type := type |>.

Lemma nicif_retran_ok type f_id core budget s l : ktx_rep n s core l -> type <> 0 ->
  let '(ok, s') := nicif_retran info tsc type f_id core budget s in
  ok = negb (budget <=? 0) && (Z.of_nat (length l) <? n)
  /\ ktx_rep n s' core (if ok then l ++ [retran_entry type f_id (ktx_at s core (nq_txq_tail s !!! core))] else l).
Proof.
  intros Hr Hty. unfold nicif_retran. destruct (budget <=? 0); [done|]. cbn [negb andb].
  rewrite (ktx_try_alloc_ok s core l Hr). destruct (Z.ltb_spec (Z.of_nat (length l)) n) as [Hl|Hl]; [|done].
  split; [done|]. apply notify_fp_rep. set (t := nq_txq_tail s !!! core).
  set (s1 := s <| nq_txq_tail ::= _ |>). set (s2 := set_ktx core t (ktx_set_flow_id f_id) s1).
  destruct (set_ktx_frame core t (ktx_set_flow_id f_id) s1) as (A1 & A2 & A3 & _ & A4).
  destruct (set_ktx_frame core t (fun k => k <| ktx_type := type |>) s2) as (B1 & B2 & B3 & _ & B4).
  destruct (A4 core) as [A5 A6]. destruct (B4 core) as [B5 B6]. fold s2 in A1, A2, A3, A5, A6.
  apply (ktx_push s _ core l); [done|done|done|by rewrite B1, A1|by rewrite B2, A2| |by rewrite B5, A5|by rewrite B6, A6|].
  - rewrite B3, A3. unfold s1. cbn [nq_txq_tail setf]. by rewrite lookup_total_insert_eq.
  - rewrite set_ktx_tx, decide_True by done. unfold ktx_at, s2. rewrite set_ktx_tx, decide_True by done.
    rewrite lookup_total_insert_eq, insert_insert_eq. done.
Qed.

(** The entry of a packet. *)
Definition packet_entry (addr len : Z) (no_ts : bool) : ktx :=
  mk_ktx (if no_ts then FLEXTCP_PL_KTX_PACKET_NOTS else FLEXTCP_PL_KTX_PACKET) addr len.

(** Allocation does not change the queue. *)
Lemma nicif_tx_alloc_ok len s l : ktx_rep n s 0 l ->
  let t := nq_txq_tail s !!! 0 in
  let '(r, s') := nicif_tx_alloc len s in
  ktx_rep n s' 0 l /\ nq_txq_tail s' = nq_txq_tail s
  /\ if Z.of_nat (length l) <? n
     then r = Some (nq_txq_bufs s !!! (0, t), (t + 1) mod n)
       /\ ktx_at s' 0 t = mk_ktx 0 (nq_txq_bufs s !!! (0, t)) len
     else r = None /\ s' = s.
Proof.
  intros Hr t. unfold nicif_tx_alloc. rewrite (ktx_try_alloc_ok s 0 l Hr). fold t.
  pose proof Hr as [(E1 & E2 & Hn) Ht Hg Hro].
  destruct (Z.ltb_spec (Z.of_nat (length l)) n) as [Hl|Hl]; [|done].
  assert (E0 : ktx_type (ktx_at s 0 t) = 0) by (apply Z.eqb_eq; exact (proj2 (ring_of_room _ _ _ _ _ _ _ (proj1 Hn) Hro) Hl)).
  set (f := fun k : ktx => k <| ktx_addr := _ |> <| ktx_len := len |>).
  destruct (set_ktx_frame 0 t f s) as (A1 & A2 & A3 & _ & A4). destruct (A4 0) as [A5 A6].
  split; [|split; [done|split; [done|]]].
  - constructor; rewrite ?A1, ?A2, ?A3, ?A5, ?A6; try done. rewrite set_ktx_tx, decide_True by done.
    apply ring_of_hd_write; [lia|done|done|]. unfold ktx_free. cbn. by rewrite E0.
  - unfold ktx_at at 1. rewrite set_ktx_tx, decide_True by done. rewrite lookup_total_insert_eq. subst f. cbn. by rewrite E0.
Qed.

Lemma nicif_tx_send_ok no_ts s l addr len : ktx_rep n s 0 l -> Z.of_nat (length l) < n ->
  let t := nq_txq_tail s !!! 0 in
  ktx_at s 0 t = mk_ktx 0 addr len ->
  ktx_rep n (nicif_tx_send info tsc ((t + 1) mod n) no_ts s) 0 (l ++ [packet_entry addr len no_ts]).
Proof.
  intros Hr Hl t Ee. pose proof Hr as [(E1 & E2 & Hn) Ht Hg Hro]. unfold nicif_tx_send.
  assert (Et : (if (t + 1) mod n =? 0 then u32 (nq_txq_len s - 1) else (t + 1) mod n - 1) = t).
  { rewrite E1. destruct (decide (t + 1 = n)) as [Eq|Ne].
    - rewrite Eq, Z_mod_same_full. cbn. rewrite u32_id by cside. lia.
    - rewrite Z.mod_small by lia. destruct (Z.eqb_spec (t + 1) 0); lia. }
  rewrite Et. apply notify_fp_rep. set (f := fun k : ktx => k <| ktx_type := _ |>).
  destruct (set_ktx_frame 0 t f s) as (A1 & A2 & A3 & _ & A4). destruct (A4 0) as [A5 A6].
  apply (ktx_push s _ 0 l); rewrite ?kctx_tail; try done.
  - by destruct no_ts.
  - cbn [nq_txq_tail setf]. by rewrite lookup_total_insert_eq.
  - rewrite set_ktx_tx, decide_True by done. fold t. rewrite Ee. done.
Qed.

Context (E : fpenv) {Q : Type} `{QmanOps Q}.

Lemma ktx_handle_ret e nbh ts (w w' : world Q) ret : ktx_handle E e nbh ts w = Some (ret, w') -> ret = 0 \/ ret = 1.
Proof.
  unfold ktx_handle. intros Hx. repeat (case_match; try done); cbn [mbind option_bind] in *;
    repeat (match goal with H : (_ ← ?o; _) = Some _ |- _ => destruct o; cbn [mbind option_bind] in H; [|done] end);
    injection Hx as <- _; auto.
Qed.

(** Polling takes the oldest entry. *)
Lemma fast_kernel_poll_ok s core l nbh ts (w : world Q) r : ktx_rep n s core l ->
  fast_kernel_poll E nbh ts w (kctx_of s core) = Some r ->
  match l with
  | [] => r = (-1, w, kctx_of s core)
  | e :: l => exists ret w' k', r = (ret, w', k') /\ ktx_handle E e nbh ts w = Some (ret, w')
      /\ ktx_rep n (upd_kctx core (fun _ => k') s) core l
  end.
Proof.
  intros Hr. pose proof Hr as [(E1 & E2 & Hn) Ht Hg Hro]. unfold fast_kernel_poll.
  rewrite Hg, (proj2 (Z.eqb_neq (sizeof_ktx * n) 0)) by (unfold sizeof_ktx; lia).
  pose proof (ring_of_empty _ _ _ _ _ _ _ (proj1 Hn) Hro) as Hem. unfold ktx_free in Hem.
  destruct l as [|e l].
  - rewrite (proj2 Hem eq_refl). by intros [= <-].
  - destruct (Z.eqb_spec (ktx_type (kx_tx (kctx_of s core) !!! kx_tx_head (kctx_of s core))) 0) as [E0|E0].
    { pose proof (proj1 Hem eq_refl). done. }
    rewrite (ring_of_head _ _ _ _ _ _ _ _ (proj1 Hn) Hro).
    destruct (ktx_handle E e nbh ts w) as [[ret w']|] eqn:Eh; [|done]. cbn [mbind option_bind]. intros [= <-].
    eexists _, _, _. split; [done|]. split; [done|].
    match goal with |- ktx_rep _ (upd_kctx _ (fun _ => ?k) _) _ _ => set (k' := k) end.
    constructor; [done|done| |]; rewrite kctx_upd, decide_True by done; [done|].
    change (nq_txq_tail (upd_kctx core (fun _ => k') s)) with (nq_txq_tail s).
    subst k'. cbn [kx_tx kx_tx_head setf]. unfold sizeof_ktx.
    assert (Hhd : 0 <= kx_tx_head (kctx_of s core) < 64 * n).
    { destruct Hro as [_ _ (t & Ht' & -> & _) _]. unfold slot. pose proof (Z.mod_pos_bound (t + 0) n). lia. }
    rewrite ring_wrap_adv by lia. apply (ring_of_pop _ _ _ _ _ _ _ _ _ (proj1 Hn) Hro). done.
Qed.

(** ** Runs of both sides *)

Inductive kq_op : Type :=
| KqPacket (len : Z) (no_ts : bool)
| KqRetran (win : bool) (f_id budget : Z)
| KqPoll (nbh : nbuf) (ts : Z).

(** The entries sent and the entries handled. *)
Definition kq_exec (o : kq_op) (s : nicq) (w : world Q) : option (nicq * world Q * list ktx * list ktx) :=
  match o with
  | KqPacket len no_ts =>
      match nicif_tx_alloc len s with
      | (None, s) => Some (s, w, [], [])
      | (Some (addr, opaque), s) =>
          Some (nicif_tx_send info tsc opaque no_ts s, w, [packet_entry addr len no_ts], [])
      end
  | KqRetran win f_id budget =>
      let type := if win then FLEXTCP_PL_KTX_WINRETRAN else FLEXTCP_PL_KTX_CONNRETRAN in
      let e := retran_entry type f_id (ktx_at s 0 (nq_txq_tail s !!! 0)) in
      let '(ok, s) := (if win then nicif_connection_winretransmit else nicif_connection_retransmit)
                        info tsc f_id 0 budget s in
      Some (s, w, if ok : bool then [e] else [], [])
  | KqPoll nbh ts =>
      let e := kx_tx (kctx_of s 0) !!! kx_tx_head (kctx_of s 0) in
      '(ret, w, k) ← fast_kernel_poll E nbh ts w (kctx_of s 0);
      Some (upd_kctx 0 (fun _ => k) s, w, [], if ret =? -1 then [] else [e])
  end.

Fixpoint kq_run (os : list kq_op) (s : nicq) (w : world Q) : option (nicq * world Q * list ktx * list ktx) :=
  match os with
  | [] => Some (s, w, [], [])
  | o :: os =>
      '(s, w, a, h) ← kq_exec o s w;
      '(s, w, a', h') ← kq_run os s w;
      Some (s, w, a ++ a', h ++ h')
  end.

Lemma kq_exec_ok o s w l s' w' a h : ktx_rep n s 0 l -> kq_exec o s w = Some (s', w', a, h) ->
  exists l', ktx_rep n s' 0 l' /\ l ++ a = h ++ l'.
Proof.
  intros Hr. destruct o as [len no_ts|win f_id budget|nbh ts]; cbn [kq_exec].
  - pose proof (nicif_tx_alloc_ok len s l Hr) as Ha. destruct (nicif_tx_alloc len s) as [[[addr opq]|] s1];
      destruct Ha as (Hr1 & Et & Ha).
    + destruct (Z.ltb_spec (Z.of_nat (length l)) n) as [Hl|Hl]; [|by destruct Ha]. destruct Ha as [[= -> ->] He].
      intros [= <- <- <- <-]. eexists. split; [|done]. rewrite <-Et. apply nicif_tx_send_ok; rewrite ?Et; done.
    + intros [= <- <- <- <-]. exists l. by rewrite app_nil_r.
  - intros Hx. set (type := if win then FLEXTCP_PL_KTX_WINRETRAN else FLEXTCP_PL_KTX_CONNRETRAN) in *.
    assert (Hty : type <> 0) by by destruct win.
    pose proof (nicif_retran_ok type f_id 0 budget s l Hr Hty) as Ha.
    assert (Ex : (if win then nicif_connection_winretransmit else nicif_connection_retransmit)
                        info tsc f_id 0 budget s = nicif_retran info tsc type f_id 0 budget s) by by destruct win.
    rewrite Ex in Hx. destruct (nicif_retran info tsc type f_id 0 budget s) as [ok s1]. destruct Ha as [_ Ha].
    injection Hx as <- <- <- <-. destruct ok; eexists; (split; [exact Ha|]); [done|by rewrite app_nil_r].
  - destruct (fast_kernel_poll E nbh ts w (kctx_of s 0)) as [r|] eqn:Ep; [|done].
    pose proof (fast_kernel_poll_ok s 0 l nbh ts w r Hr Ep) as Hp. destruct l as [|e l].
    + subst r. intros [= <- <- <- <-]. exists []. split; [|done].
      eapply ktx_rep_same; [exact Hr|..]; try done; by rewrite kctx_upd, decide_True.
    + destruct Hp as (ret & w1 & k' & -> & Eh & Hr'). cbn [mbind option_bind].
      destruct (ktx_handle_ret _ _ _ _ _ _ Eh) as [->| ->]; intros [= <- <- <- <-]; exists l; split; try done;
        rewrite app_nil_r; cbn [app]; f_equal; destruct Hr as [(_ & _ & Hn) _ _ Hro];
        by rewrite (ring_of_head _ _ _ _ _ _ _ _ (proj1 Hn) Hro).
Qed.

Lemma kq_run_ok os : forall s w l s' w' a h, ktx_rep n s 0 l -> kq_run os s w = Some (s', w', a, h) ->
  exists l', ktx_rep n s' 0 l' /\ l ++ a = h ++ l'.
Proof.
  induction os as [|o os IH]; intros s w l s' w' a h Hr; cbn [kq_run].
  { intros [= <- <- <- <-]. exists l. by rewrite app_nil_r. }
  destruct (kq_exec o s w) as [[[[s1 w1] a1] h1]|] eqn:E1; [|done]. cbn [mbind option_bind].
  destruct (kq_run os s1 w1) as [[[[s2 w2] a2] h2]|] eqn:E2; [|done]. cbn [mbind option_bind].
  intros [= <- <- <- <-]. destruct (kq_exec_ok _ _ _ _ _ _ _ _ Hr E1) as (l1 & Hr1 & Eq1).
  destruct (IH _ _ _ _ _ _ _ Hr1 E2) as (l2 & Hr2 & Eq2). exists l2. split; [done|].
  by rewrite app_assoc, Eq1, <-!app_assoc, Eq2.
Qed.

End TxQueue.

(** ** From a core to the slow path *)

(** A packet of the queue: bytes, length, core and flow group. *)
Record sp_pkt : Type := mk_sp_pkt { sk_bytes : mem; sk_len : Z; sk_core : Z; sk_group : Z }.

(** The entry [e] is that of packet [p], whose bytes are in its buffer. *)
Definition krx_is (m : mem) (e : krx) (p : sp_pkt) : Prop :=
  krx_type e = FLEXTCP_PL_KRX_PACKET /\ krx_len e = sk_len p /\ 0 <= sk_len p <= PKTBUF_SIZE
  /\ krx_fn_core e = sk_core p /\ krx_flow_group e = sk_group p
  /\ forall j, 0 <= j < sk_len p -> m (krx_addr e + j) = sk_bytes p j.

(** The queue of [core] has [n] entries and holds [l]; the buffers start at [base]. *)
Record krx_rep (n base core : Z) (s : nicq) (l : list sp_pkt) : Prop := mk_krx_rep {
  kr_len : nq_rxq_len s = n /\ 0 < n < 33554432;
  kr_tail : 0 <= nq_rxq_tail s !!! core < n;
  kr_reg : kx_rx_len (kctx_of s core) = sizeof_krx * n;
  kr_bufs : forall i, 0 <= i < n -> nq_rxq_bufs s !!! (core, i) = base + PKTBUF_SIZE * i
    /\ krx_addr (kx_rx (kctx_of s core) !!! (64 * i)) = base + PKTBUF_SIZE * i;
  kr_ring : exists es, ring_of krx_free 64 n (kx_rx (kctx_of s core)) (64 * (nq_rxq_tail s !!! core))
              (kx_rx_head (kctx_of s core)) es /\ Forall2 (krx_is (nq_shm s)) es l }.

(** What the processing of a packet leaves alone. *)
Record rx_same (n base core : Z) (s s' : nicq) : Prop := mk_rx_same {
  rs_len : nq_rxq_len s' = nq_rxq_len s;
  rs_tail : nq_rxq_tail s' = nq_rxq_tail s;
  rs_bufs : nq_rxq_bufs s' = nq_rxq_bufs s;
  rs_ctx : kx_rx (kctx_of s' core) = kx_rx (kctx_of s core)
    /\ kx_rx_len (kctx_of s' core) = kx_rx_len (kctx_of s core)
    /\ kx_rx_head (kctx_of s' core) = kx_rx_head (kctx_of s core);
  rs_shm : forall a, base <= a < base + PKTBUF_SIZE * n -> nq_shm s' a = nq_shm s a }.

Section RxQueue.
Context (E : fpenv) (info : flexnic_info) (rss_reta_size : Z) {Q : Type} `{QmanOps Q}.
Context (n base core : Z).
Hypothesis Hbase : 0 <= base /\ base + PKTBUF_SIZE * n <= vm_shm_len E /\ vm_shm_len E < 18446744073709551616.

(** The entries of the ring have the buffers of their slots. *)
Lemma krx_entry_slot s l es t : 
  (forall i, 0 <= i < n -> krx_addr (kx_rx (kctx_of s core) !!! (64 * i)) = base + PKTBUF_SIZE * i) ->
  0 < n -> (forall i e, es !! i = Some e -> kx_rx (kctx_of s core) !!! slot 64 n t (Z.of_nat i) = e) ->
  Forall2 (krx_is (nq_shm s)) es l ->
  forall i e, es !! i = Some e -> krx_addr e = base + PKTBUF_SIZE * ((t + Z.of_nat i) mod n).
Proof.
  intros Hb Hn He _ i e Hi. rewrite <-(He i e Hi). unfold slot. apply Hb. apply Z.mod_pos_bound. lia.
Qed.

(** The state of the slow path after a step of the core. *)
Definition after_core (s : nicq) (w : world Q) (k : kernel_if) : nicq :=
  upd_kctx core (fun _ => k_ctx k) s <| nq_shm := w_shm w SP_MEM_ID |>.

Lemma slot_ne t i j : 0 < n -> 0 <= i < n -> 0 <= j < n -> i <> j -> (t + i) mod n <> (t + j) mod n.
Proof. intros Hn Hi Hj Hne Heq. apply Hne, (slot_inj 1 n t i j); [lia..|]. unfold slot. lia. Qed.

Lemma krx_hd s l : krx_rep n base core s l -> exists i, 0 <= i < n /\ kx_rx_head (kctx_of s core) = 64 * i
  /\ krx_addr (kx_rx (kctx_of s core) !!! kx_rx_head (kctx_of s core)) = base + PKTBUF_SIZE * i.
Proof.
  intros [_ _ _ Hb (es & Hro & _)]. destruct (ring_of_hd_slot _ _ _ _ _ _ _ Hro) as (i & Hi & ->).
  exists i. split; [done|]. split; [done|]. by apply Hb.
Qed.

(** A packet is written to the free entry of the core. *)
Lemma krx_push s s' l p : krx_rep n base core s l -> Z.of_nat (length l) < n -> 0 <= sk_len p <= PKTBUF_SIZE ->
  let hd := kx_rx_head (kctx_of s core) in
  let addr := krx_addr (kx_rx (kctx_of s core) !!! hd) in
  (exists vmid, kx_rx (kctx_of s' core)
     = <[hd := mk_krx FLEXTCP_PL_KRX_PACKET addr (sk_len p) (sk_core p) (sk_group p) vmid]> (kx_rx (kctx_of s core))) ->
  kx_rx_head (kctx_of s' core) = ring_adv 64 n hd ->
  kx_rx_len (kctx_of s' core) = kx_rx_len (kctx_of s core) ->
  nq_rxq_len s' = nq_rxq_len s -> nq_rxq_tail s' = nq_rxq_tail s -> nq_rxq_bufs s' = nq_rxq_bufs s ->
  nq_shm s' = mem_write (nq_shm s) addr (sk_len p) (sk_bytes p) ->
  krx_rep n base core s' (l ++ [p]).
Proof.
  intros Hr Hl Hlen hd addr [vmid F1] F2 F3 F4 F5 F6 F7. destruct (krx_hd s l Hr) as (i & Hi & Ehd & Ha).
  fold hd addr in Ehd, Ha. pose proof Hr as [(E1 & Hn) Ht Hg Hb (es & Hro & Hes)].
  pose proof (Forall2_length _ _ _ Hes) as El. set (e' := mk_krx _ _ _ _ _ _) in F1.
  constructor; rewrite ?F1, ?F2, ?F3, ?F4, ?F5, ?F6, ?F7; [done|done|done| |].
  - intros j Hj. destruct (Hb j Hj) as [Hb1 Hb2]. split; [done|].
    destruct (decide (64 * j = hd)) as [Eq|Hne]; [rewrite Eq, lookup_total_insert_eq; cbn; lia|].
    by rewrite lookup_total_insert_ne.
  - exists (es ++ [e']). split.
    + apply ring_of_push; [lia|done| |done]. apply (ring_of_room _ _ _ _ _ _ _ (proj1 Hn) Hro). lia.
    + pose proof Hro as [_ Hles (t & Htn & Etl & Ehd' & Hent & Hfree) Hused].
      assert (Hadr := krx_entry_slot s l es t (fun i Hi => proj2 (Hb i Hi)) (proj1 Hn) Hent Hes).
      apply Forall2_app.
      * apply Forall2_same_length_lookup_2; [done|]. intros x e q Hx Hq.
        pose proof (Forall2_lookup_lr _ _ _ _ _ _ Hes Hx Hq) as (K1 & K2 & K3 & K4 & K5 & K6).
        split_and!; try done; [apply K3..|]. intros j Hj. rewrite mem_write_out; [by apply K6|].
        rewrite (Hadr x e Hx), Ha. apply lookup_lt_Some in Hx.
        assert (Hne : (t + Z.of_nat x) mod n <> i).
        { intros Eq. assert (Es : slot 64 n t (Z.of_nat x) = slot 64 n t (Z.of_nat (length es)))
            by (unfold slot at 1; rewrite Eq, <-Ehd; exact Ehd').
          apply slot_inj in Es; lia. }
        unfold PKTBUF_SIZE in *. nia.
      * constructor; [|done]. split_and!; try done; [by apply Hlen..|]. intros j Hj. cbn [krx_addr e'].
        rewrite mem_write_in by (cbn; lia). f_equal. cbn. lia.
Qed.

Lemma fast_kernel_packet_ok s l rp tsc (w : world Q) k : krx_rep n base core s l ->
  k_ctx k = kctx_of s core -> w_shm w SP_MEM_ID = nq_shm s -> ctx_id (w_ctx w) = core ->
  0 <= rb_len (rp_buf rp) <= PKTBUF_SIZE ->
  exists w' k', fast_kernel_packet E info rss_reta_size rp tsc w k = Some (w', k')
  /\ if Z.of_nat (length l) <? n
     then krx_rep n base core (after_core s w' k')
            (l ++ [mk_sp_pkt (rp_bytes rp) (rb_len (rp_buf rp)) core
                     (u16 (network_buf_flowgroup rss_reta_size (rp_rss rp) core))])
       /\ kernel_drop k' = kernel_drop k
     else w' = w /\ k' = k <| kernel_drop := u64 (kernel_drop k + 1) |>.
Proof.
  intros Hr Ek Ew Ec Hlen. destruct (krx_hd s l Hr) as (i & Hi & Ehd & Ha).
  pose proof Hr as [(E1 & Hn) Ht Hg Hb (es & Hro & Hes)]. unfold fast_kernel_packet.
  rewrite Ek, Hg, (proj2 (Z.eqb_neq (sizeof_krx * n) 0)) by (unfold sizeof_krx; lia).
  pose proof (ring_of_room _ _ _ _ _ _ _ (proj1 Hn) Hro) as Hroom. unfold krx_free in Hroom.
  rewrite (Forall2_length _ _ _ Hes) in Hroom.
  destruct (Z.ltb_spec (Z.of_nat (length l)) n) as [Hl|Hl].
  2: { destruct (krx_type _ =? 0); cbn [negb].
    - pose proof (proj1 Hroom eq_refl). lia.
    - eexists _, _. split; [done|]. done. }
  rewrite (proj2 Hroom Hl). cbn [negb]. rewrite Ec. unfold dma_write.
  rewrite dma_ok_in by (unfold PKTBUF_SIZE in *; nia). cbn [cassert mbind option_bind].
  destruct (notify_slowpath_core _ _ _) as [wk ts]. eexists _, _. split; [done|]. split; [|done].
  assert (Ectx : forall w' k', kctx_of (after_core s w' k') core = k_ctx k').
  { intros w' k'. change (kctx_of (upd_kctx core (fun _ => k_ctx k') s) core = k_ctx k'). by rewrite kctx_upd, decide_True. }
  apply (krx_push s _ l _ Hr Hl); [done|rewrite Ectx; by eexists|rewrite Ectx|by rewrite Ectx|done..|].
  - cbn [k_ctx kx_rx_head setf]. unfold sizeof_krx. rewrite ring_wrap_adv by lia. done.
  - cbn [after_core nq_shm w_shm setf]. unfold shm_set. by rewrite Z.eqb_refl, Ew.
Qed.

(** The oldest packet is processed; its entry is free afterwards. *)
Lemma rxq_poll_ok process s l : krx_rep n base core s l -> nq_rxq_next s = core ->
  (forall m ln c fg s1, rx_same n base core s1 (process m ln c fg s1)) ->
  let s0 := s <| nq_rxq_next := (core + 1) mod fn_cores s |> in
  let '(found, s') := rxq_poll process s in
  match l with
  | [] => found = false /\ s' = s0
  | p :: l => found = true /\ krx_rep n base core s' l
      /\ exists m, (forall j, 0 <= j < sk_len p -> m j = sk_bytes p j)
         /\ nq_shm s' = nq_shm (process m (sk_len p) (sk_core p) (sk_group p) s0)
  end.
Proof.
  intros Hr Hnx Hp s0. pose proof Hr as [(E1 & Hn) Ht Hg Hb (es & Hro & Hes)]. unfold rxq_poll. rewrite Hnx. fold s0.
  change (kctx_of s0) with (kctx_of s). unfold sizeof_krx.
  pose proof (ring_of_empty _ _ _ _ _ _ _ (proj1 Hn) Hro) as Hem. unfold krx_free in Hem.
  unfold FLEXTCP_PL_KRX_INVALID. set (t := nq_rxq_tail s !!! core) in *.
  destruct Hes as [|e p es l He Hes]; [by rewrite (proj2 Hem eq_refl)|].
  destruct (krx_type _ =? 0) eqn:E0; [pose proof (proj1 Hem eq_refl); done|]. clear E0 Hem.
  rewrite (ring_of_head _ _ _ _ _ _ _ _ (proj1 Hn) Hro). pose proof He as (K1 & K2 & K3 & K4 & K5 & K6).
  rewrite K1, Z.eqb_refl, K2, K4, K5. split; [done|]. cbv zeta.
  set (m := fun i : Z => nq_shm s0 (nq_rxq_bufs s0 !!! (core, t) + i)).
  set (s1 := process m (sk_len p) (sk_core p) (sk_group p) s0).
  destruct (Hp m (sk_len p) (sk_core p) (sk_group p) s0) as [R1 R2 R3 [R4 [R5 R6]] R7]. fold s1 in R1, R2, R3, R4, R5, R6, R7.
  change (kctx_of s0) with (kctx_of s) in *. change (nq_rxq_len s0) with (nq_rxq_len s) in *.
  change (nq_rxq_tail s0) with (nq_rxq_tail s) in *. change (nq_rxq_bufs s0) with (nq_rxq_bufs s) in *.
  change (nq_shm s0) with (nq_shm s) in *.
  split.
  2: { exists m. split; [|done]. intros j Hj. rewrite <-(K6 j Hj). unfold m. f_equal.
    destruct (Hb t Ht) as [-> Hb2]. rewrite (ring_of_head _ _ _ _ _ _ _ _ (proj1 Hn) Hro) in Hb2. by rewrite Hb2. }
  assert (Etl : (if u32 (t + 1) =? nq_rxq_len s then u32 (u32 (t + 1) - nq_rxq_len s) else u32 (t + 1)) = (t + 1) mod n).
  { rewrite E1, !u32_id by (rewrite ?u32_id by cside; cside || (unfold is_u32; lia)).
    destruct (Z.eqb_spec (t + 1) n) as [->|]; [|by rewrite Z.mod_small by lia].
    rewrite Z.sub_diag, Z_mod_same_full. done. }
  rewrite Etl. pose proof (ring_of_pop _ _ _ _ _ _ _ _ (e <| krx_type := 0 |>) (proj1 Hn) Hro eq_refl) as Hpop.
  rewrite ring_adv_tail in Hpop by done.
  match goal with |- krx_rep _ _ _ ?s' _ => set (s2 := s') end.
  assert (Ectx : kctx_of s2 core = kctx_of s1 core <| kx_rx := <[64 * t := (kx_rx (kctx_of s core) !!! (64 * t)) <| krx_type := 0 |>]> (kx_rx (kctx_of s core)) |>).
  { subst s2. change (kctx_of (?x <| nq_rxq_tail ::= ?f |>) core) with (kctx_of x core).
    rewrite kctx_upd, decide_True by done. unfold setf. cbn. by rewrite R4. }
  rewrite (ring_of_head _ _ _ _ _ _ _ _ (proj1 Hn) Hro) in Ectx.
  assert (Es : nq_rxq_len s2 = n /\ nq_rxq_tail s2 = <[core := (t + 1) mod n]> (nq_rxq_tail s)
     /\ nq_rxq_bufs s2 = nq_rxq_bufs s /\ nq_shm s2 = nq_shm s1).
  { subst s2. cbn. rewrite R1, R2, R3. done. }
  clearbody s2. destruct Es as (S1 & S2 & S3 & S4).
  constructor; rewrite ?Ectx, ?S1, ?S2, ?S3, ?S4, ?lookup_total_insert_eq; cbn [kx_rx kx_rx_len kx_rx_head setf]; rewrite ?R5, ?R6; try done.
  - apply Z.mod_pos_bound. lia.
  - intros j Hj. destruct (Hb j Hj) as [Hb1 Hb2]. split; [done|].
    destruct (decide (64 * j = 64 * t)) as [Eq|Hne]; [|by rewrite lookup_total_insert_ne].
    rewrite Eq in Hb2 |- *. rewrite lookup_total_insert_eq. cbn. by rewrite <-(ring_of_head _ _ _ _ _ _ _ _ (proj1 Hn) Hro).
  - exists es. split; [exact Hpop|]. pose proof Hro as [_ Hles (t' & Htn & Etl' & Ehd' & Hent & Hfree) Hused].
    assert (Hadr := krx_entry_slot s (p :: l) (e :: es) t' (fun i Hi => proj2 (Hb i Hi)) (proj1 Hn) Hent ltac:(by constructor)).
    apply Forall2_same_length_lookup_2; [by apply Forall2_length in Hes|]. intros x e1 q Hx Hq.
    pose proof (Forall2_lookup_lr _ _ _ _ _ _ Hes Hx Hq) as (J1 & J2 & J3 & J4 & J5 & J6).
    split_and!; try done; [apply J3..|]. intros j Hj. rewrite R7; [by apply J6|].
    rewrite (Hadr (S x) e1 Hx). pose proof (Z.mod_pos_bound (t' + Z.of_nat (S x)) n ltac:(lia)).
    unfold PKTBUF_SIZE in *. nia.
Qed.

End RxQueue.

(** * Theorems about the queues between the slow path and the cores *)

(** ** The queue to a core *)

(** The queue from the slow path to a core is a FIFO: whatever the slow path sends
    (packets and requests to retransmit) and however the core polls, the entries the core
    handles are those that were accepted, in their order and each once; what is left is in
    the ring, with the entry contents unchanged. *)
Theorem ktx_queue_fifo {Q} `{QmanOps Q} info tsc n E os s s' (w w' : world Q) l sent handled :
  ktx_rep n s 0 l -> kq_run info tsc E os s w = Some (s', w', sent, handled) ->
  exists l', ktx_rep n s' 0 l' /\ l ++ sent = handled ++ l'.
Proof. apply kq_run_ok. Qed.

Definition ex_nicq (rxlen txlen : Z) : nicq :=
  adminq_init_core 0 rxlen txlen 4096
    (mk_nicq 1 rxlen ∅ 0 txlen ∅ ∅ ∅ (<[0 := mk_kctx ∅ ∅ 0 0 0 0 0 0]> ∅) (fun _ => 0) []).

Lemma ex_nicq_rep : ktx_rep 4 (ex_nicq 4 4) 0 [].
Proof.
  constructor; [by repeat split|by vm_compute|done|]. change (ring_of ktx_free 64 4 (∅ : gmap Z ktx) 0 0 []).
  apply ring_of_new; [lia|lia|]. intros k. by rewrite lookup_total_empty.
Qed.

Definition ex_kq_ops : list kq_op :=
  [KqPacket 100 true; KqRetran false 7 1; KqPoll (mk_nbuf 1 (fun _ => 0)) 0; KqPoll (mk_nbuf 1 (fun _ => 0)) 0;
   KqPoll (mk_nbuf 1 (fun _ => 0)) 0].

Definition ex_kq_run := kq_run (mk_finfo 100 100) 0 ex_env ex_kq_ops (ex_nicq 4 4) (ex_world 64 64 0).

Lemma ktx_queue_fifo_witness :
  exists s' w' sent handled, ex_kq_run = Some (s', w', sent, handled)
  /\ sent = [mk_ktx 4 10240 100; mk_ktx 2 7 0]
  /\ exists l', ktx_rep 4 s' 0 l' /\ [] ++ sent = handled ++ l'.
Proof.
  destruct ex_kq_run as [[[[s' w'] a] h]|] eqn:Er.
  - exists s', w', a, h. split; [done|]. split.
    + assert (Ea : (fun r => match r with Some (_, _, a, _) => a | None => [] end) ex_kq_run = a) by by rewrite Er.
      rewrite <-Ea. by vm_compute.
    + exact (ktx_queue_fifo _ _ 4 _ _ _ _ _ _ _ _ _ ex_nicq_rep Er).
  - exfalso. assert (Ea : (fun r => match r with Some _ => true | None => false end) ex_kq_run = false) by by rewrite Er.
    vm_compute in Ea. done.
Defined.

Definition ex_retran_poll (f : Z) : list kq_op := [KqRetran false f 1; KqPoll (mk_nbuf 1 (fun _ => 0)) 0].
Definition ex_wrap_run :=
  kq_run (mk_finfo 100 100) 0 ex_env (ex_retran_poll 7 ++ ex_retran_poll 8 ++ ex_retran_poll 9) (ex_nicq 2 4)
    (ex_world 64 64 0).
Definition ex_wrap_ends : nicq * list ktx * list ktx :=
  match ex_wrap_run with Some (s, _, a, h) => (s, a, h) | None => (ex_nicq 2 4, [], []) end.

Lemma fast_kernel_poll_empty {Q} `{QmanOps Q} E nbh ts (w : world Q) k :
  ktx_type (kx_tx k !!! kx_tx_head k) = 0 -> fast_kernel_poll E nbh ts w k = Some (-1, w, k).
Proof. intros E0. unfold fast_kernel_poll. rewrite E0. by case_match. Qed.

(** When the two lengths in the configuration differ, the queue to the core breaks: the
    tail of the slow path wraps around at the length of the receive queue.  With 2 and 4
    entries the third request goes to entry 0 while the core waits at entry 2, and the
    core never sees it. *)
Theorem ktx_tail_wraps_early :
  let '(s, sent, handled) := ex_wrap_ends in
  sent = [mk_ktx 2 7 0; mk_ktx 2 8 0; mk_ktx 2 9 0] /\ handled = [mk_ktx 2 7 0; mk_ktx 2 8 0]
  /\ forall nbh ts (w : world qman_thread), fast_kernel_poll ex_env nbh ts w (kctx_of s 0) = Some (-1, w, kctx_of s 0).
Proof.
  destruct ex_wrap_ends as [[s a] h] eqn:Ee.
  assert (E1 : ex_wrap_ends.1.2 = a) by by rewrite Ee. assert (E2 : ex_wrap_ends.2 = h) by by rewrite Ee.
  assert (E3 : ex_wrap_ends.1.1 = s) by by rewrite Ee.
  split; [by rewrite <-E1; vm_compute|]. split; [by rewrite <-E2; vm_compute|].
  intros nbh ts w. apply fast_kernel_poll_empty. rewrite <-E3. by vm_compute.
Qed.

(** ** The queue from a core *)

(** What a core passes to the slow path arrives once and in order: a packet given to
    [fast_kernel_packet] is appended to the queue, or dropped and counted exactly when the
    queue is full; the poll of the slow path processes the oldest packet, with the bytes,
    length, core and flow group it was queued with, and its entry is free afterwards. *)
Theorem krx_queue_delivers {Q} `{QmanOps Q} E info reta n base core s l process :
  0 <= base /\ base + PKTBUF_SIZE * n <= vm_shm_len E /\ vm_shm_len E < 18446744073709551616 ->
  krx_rep n base core s l ->
  (forall m ln c fg s1, rx_same n base core s1 (process m ln c fg s1)) ->
  (forall rp tsc (w : world Q) k, k_ctx k = kctx_of s core -> w_shm w SP_MEM_ID = nq_shm s ->
     ctx_id (w_ctx w) = core -> 0 <= rb_len (rp_buf rp) <= PKTBUF_SIZE ->
     exists w' k', fast_kernel_packet E info reta rp tsc w k = Some (w', k')
     /\ if Z.of_nat (length l) <? n
        then krx_rep n base core (after_core core s w' k')
               (l ++ [mk_sp_pkt (rp_bytes rp) (rb_len (rp_buf rp)) core
                        (u16 (network_buf_flowgroup reta (rp_rss rp) core))])
          /\ kernel_drop k' = kernel_drop k
        else w' = w /\ k' = k <| kernel_drop := u64 (kernel_drop k + 1) |>)
  /\ (nq_rxq_next s = core ->
      let s0 := s <| nq_rxq_next := (core + 1) mod fn_cores s |> in
      let '(found, s') := rxq_poll process s in
      match l with
      | [] => found = false /\ s' = s0
      | p :: l => found = true /\ krx_rep n base core s' l
          /\ exists m, (forall j, 0 <= j < sk_len p -> m j = sk_bytes p j)
             /\ nq_shm s' = nq_shm (process m (sk_len p) (sk_core p) (sk_group p) s0)
      end).
Proof.
  intros Hbase Hr Hp. split.
  - intros rp tsc w k Ek Ew Ec Hlen. by apply fast_kernel_packet_ok.
  - intros Hnx. by apply rxq_poll_ok.
Qed.

Lemma ex_nicq_rx_rep : krx_rep 4 4096 0 (ex_nicq 4 4) [].
Proof.
  constructor; [by repeat split|by vm_compute|done| |].
  - intros i Hi. assert (Hc : i = 0 \/ i = 1 \/ i = 2 \/ i = 3) by lia.
    destruct Hc as [->|[->|[->| ->]]]; by vm_compute.
  - exists []. split; [|done].
    set (r := init_krx 4 0 4096 ∅). change (ring_of krx_free 64 4 r 0 0 []).
    apply ring_of_new; [lia|lia|]. intros k. subst r. unfold krx_free. cbn [init_krx].
    repeat (rewrite lookup_total_insert; case_decide; [done|]). by rewrite lookup_total_empty.
Qed.

Definition ex_sp_pkt : rx_pkt := mk_rx_pkt (mk_rxbuf 1 128 60) (fun i => i) None.

Lemma krx_queue_delivers_witness :
  (exists w' k', fast_kernel_packet ex_env (mk_finfo 100 100) 128 ex_sp_pkt 0
      (ex_world 64 64 0 <| w_shm := fun _ _ => 0 |>) (mk_kif (kctx_of (ex_nicq 4 4) 0) 0 0 0) = Some (w', k')
   /\ krx_rep 4 4096 0 (after_core 0 (ex_nicq 4 4) w' k') [mk_sp_pkt (fun i => i) 60 0 0])
  /\ exists s', rxq_poll (fun _ _ _ _ s => s) (ex_nicq 4 4) = (false, s').
Proof.
  assert (Hb : 0 <= 4096 /\ 4096 + PKTBUF_SIZE * 4 <= vm_shm_len ex_env /\ vm_shm_len ex_env < 18446744073709551616)
    by (unfold PKTBUF_SIZE; cbn; lia).
  assert (Hp : forall (m : mem) ln c fg s1, rx_same 4 4096 0 s1 ((fun (_ : mem) (_ _ _ : Z) (s : nicq) => s) m ln c fg s1))
    by (intros; by constructor).
  destruct (krx_queue_delivers (Q := qman_thread) ex_env (mk_finfo 100 100) 128 4 4096 0 (ex_nicq 4 4) []
    (fun _ _ _ _ s => s) Hb ex_nicq_rx_rep Hp) as [H1 H2].
  split.
  - destruct (H1 ex_sp_pkt 0 (ex_world 64 64 0 <| w_shm := fun _ _ => 0 |>) (mk_kif (kctx_of (ex_nicq 4 4) 0) 0 0 0))
      as (w' & k' & Ek & Hr); [done..|cbn; unfold PKTBUF_SIZE; lia|].
    exists w', k'. split; [exact Ek|exact (proj1 Hr)].
  - specialize (H2 eq_refl). cbv zeta in H2. destruct (rxq_poll _ _) as [f s']. destruct H2 as [-> _]. by exists s'.
Defined.
