(* ===== verification/Registry.v ===== *)
(** * Registered VMs and contexts (tas/tas.c, tas/include/tas.h)

    The slow path registers VMs and application contexts; the fast path reads the ids.
    An id is entered once; the arrays are read up to the counts. *)

From S2P Require Import Prelude FpTypes.

(** The variables [tas_registered_*]; the slots say which ids are entered. *)
Record registry : Type := mk_registry {
  reg_vm_count : Z; reg_vm_ids : gmap Z Z; reg_vm_slots : gmap Z Z;
  reg_ctx_counts : gmap Z Z; reg_ctx_ids : gmap (Z * Z) Z; reg_ctx_slots : gmap (Z * Z) Z;
  reg_app_count : Z }.
#[export] Instance eta_registry : Eta registry := fun r =>
  mk_registry (reg_vm_count r) (reg_vm_ids r) (reg_vm_slots r) (reg_ctx_counts r) (reg_ctx_ids r)
    (reg_ctx_slots r) (reg_app_count r).

Definition registry_init : registry := mk_registry 0 ∅ ∅ ∅ ∅ ∅ 0.

Definition tas_register_vm (vmid : Z) (r : registry) : option registry :=
  cassert (vmid <? FLEXNIC_PL_VMST_NUM);;
  if negb (reg_vm_slots r !!! vmid =? 0) then Some r
  else
    let idx := reg_vm_count r in
    cassert (idx <? FLEXNIC_PL_VMST_NUM);;
    Some (r <| reg_vm_slots ::= <[vmid := 1]> |> <| reg_vm_ids ::= <[idx := vmid]> |>
            <| reg_vm_count := u16 (idx + 1) |>).

Definition tas_register_appctx (vmid ctxid : Z) (r : registry) : option registry :=
  cassert (vmid <? FLEXNIC_PL_VMST_NUM);;
  cassert (ctxid <? FLEXNIC_PL_APPCTX_NUM);;
  if negb (reg_ctx_slots r !!! (vmid, ctxid) =? 0) then Some r
  else
    let idx := reg_ctx_counts r !!! vmid in
    cassert (idx <? FLEXNIC_PL_APPCTX_NUM);;
    Some (r <| reg_ctx_slots ::= <[(vmid, ctxid) := 1]> |> <| reg_ctx_ids ::= <[(vmid, idx) := ctxid]> |>
            <| reg_ctx_counts ::= <[vmid := u16 (idx + 1)]> |>).

Definition tas_register_app (r : registry) : registry :=
  r <| reg_app_count := u16 (reg_app_count r + 1) |>.

Definition tas_registered_vm_count_get (r : registry) : Z := reg_vm_count r.
Definition tas_registered_ctx_count_get (vmid : Z) (r : registry) : Z := reg_ctx_counts r !!! vmid.

(** ** The ids as lists *)

(** The registered VMs and the contexts of each, in the order of registration. *)
Record registered (r : registry) (vms : list Z) (cs : Z -> list Z) : Prop := mk_registered {
  rg_vm_count : reg_vm_count r = Z.of_nat (length vms);
  rg_vm_ids : forall i v, vms !! i = Some v -> reg_vm_ids r !!! Z.of_nat i = v;
  rg_vm_nodup : NoDup vms;
  rg_vm_range : Forall (fun v => 0 <= v < FLEXNIC_PL_VMST_NUM) vms;
  rg_vm_slots : forall v, reg_vm_slots r !!! v <> 0 <-> v ∈ vms;
  rg_ctx_count : forall v, reg_ctx_counts r !!! v = Z.of_nat (length (cs v));
  rg_ctx_ids : forall v i c, cs v !! i = Some c -> reg_ctx_ids r !!! (v, Z.of_nat i) = c;
  rg_ctx_nodup : forall v, NoDup (cs v);
  rg_ctx_range : forall v, Forall (fun c => 0 <= c < FLEXNIC_PL_APPCTX_NUM) (cs v);
  rg_ctx_slots : forall v c, reg_ctx_slots r !!! (v, c) <> 0 <-> c ∈ cs v }.

Lemma registered_init : registered registry_init [] (fun _ => []).
Proof.
  constructor; cbn; intros; rewrite ?lookup_total_empty;
    first [done | by apply NoDup_nil_2 | by apply Forall_nil | by split; [|intros ?%elem_of_nil]].
Qed.

(** Distinct numbers below [n] are at most [n]. *)
Lemma nodup_bound (l : list Z) (n : Z) : NoDup l -> Forall (fun v => 0 <= v < n) l ->
  Z.of_nat (length l) <= Z.max 0 n.
Proof.
  intros Hnd Hr. assert (Hs : l ⊆ seqZ 0 n).
  { intros x Hx. rewrite Forall_forall in Hr. apply elem_of_seqZ. specialize (Hr x Hx). lia. }
  assert (Hl : (length l <= length (seqZ 0 n))%nat) by by apply submseteq_length, NoDup_submseteq.
  rewrite length_seqZ in Hl. lia.
Qed.

(** Distinct numbers below [n], one of which is missing, are fewer than [n]. *)
Lemma nodup_bound_missing (l : list Z) (n x : Z) : NoDup l -> Forall (fun v => 0 <= v < n) l ->
  0 <= x < n -> x ∉ l -> Z.of_nat (length l) < n.
Proof.
  intros Hnd Hr Hx Hnin. assert (H := nodup_bound (x :: l) n). cbn [length] in H.
  assert (Z.of_nat (S (length l)) <= Z.max 0 n); [|lia].
  apply H; constructor; done.
Qed.

Lemma slot_false (b : Z) (P : Prop) : (b <> 0 <-> P) -> b = 0 -> ~ P.
Proof. intros H -> Hp. by apply H in Hp. Qed.

Lemma snoc_lookup_old {A} (l : list A) x y i : (l ++ [x]) !! i = Some y ->
  l !! i = Some y \/ i = length l /\ y = x.
Proof.
  intros H. apply lookup_app_Some in H as [H|[Hi H]]; [by left|]. right.
  destruct (i - length l)%nat as [|k] eqn:Ek; [|by destruct k]. cbn in H. split; [lia|congruence].
Qed.

Lemma nodup_snoc (l : list Z) x : NoDup l -> x ∉ l -> NoDup (l ++ [x]).
Proof.
  intros Hn Hx. apply NoDup_app. split; [done|]. split; [|apply NoDup_singleton].
  intros y Hy. rewrite list_elem_of_singleton. by intros ->.
Qed.

Definition add_once (x : Z) (l : list Z) : list Z := if decide (x ∈ l) then l else l ++ [x].

(** An id that fits the table is entered once, and the arrays never overflow. *)
Lemma tas_register_vm_ok r vms cs vmid : registered r vms cs -> 0 <= vmid < FLEXNIC_PL_VMST_NUM ->
  exists r', tas_register_vm vmid r = Some r' /\ registered r' (add_once vmid vms) cs.
Proof.
  intros H Hv. unfold tas_register_vm, add_once. rewrite (proj2 (Z.ltb_lt vmid _)) by lia. cbn [cassert mbind option_bind].
  destruct (Z.eqb_spec (reg_vm_slots r !!! vmid) 0) as [Es|Es]; cbn [negb].
  2: { exists r. split; [done|]. rewrite decide_True; [done|]. by apply (rg_vm_slots _ _ _ H). }
  assert (Hnin : vmid ∉ vms) by exact (slot_false _ _ (rg_vm_slots _ _ _ H vmid) Es).
  rewrite decide_False by done.
  assert (Hlt := nodup_bound_missing vms _ vmid (rg_vm_nodup _ _ _ H) (rg_vm_range _ _ _ H) Hv Hnin).
  rewrite (rg_vm_count _ _ _ H), (proj2 (Z.ltb_lt _ _)) by lia. cbn [cassert mbind option_bind].
  eexists. split; [done|]. destruct H as [Hc Hi Hn Hr Hs Hcc Hci Hcn Hcr Hcs]. change FLEXNIC_PL_VMST_NUM with 6 in *.
  constructor; cbn; try done.
  - rewrite length_app, u16_id by cside. cbn [length]. lia.
  - intros i v [Hl|[-> ->]]%snoc_lookup_old; [|by rewrite lookup_total_insert_eq].
    rewrite lookup_total_insert_ne; [by apply Hi|]. apply lookup_lt_Some in Hl. lia.
  - by apply nodup_snoc.
  - apply Forall_app. split; [done|]. by apply Forall_singleton.
  - intros v. rewrite elem_of_app, list_elem_of_singleton. destruct (decide (v = vmid)) as [->|Hne].
    + rewrite lookup_total_insert_eq. split; [by right|done].
    + rewrite lookup_total_insert_ne by done. rewrite Hs. naive_solver.
Qed.

(** ** Contexts *)

Lemma tas_register_appctx_ok r vms cs vmid c : registered r vms cs ->
  0 <= vmid < FLEXNIC_PL_VMST_NUM -> 0 <= c < FLEXNIC_PL_APPCTX_NUM ->
  exists r', tas_register_appctx vmid c r = Some r'
  /\ registered r' vms (fun v => if decide (v = vmid) then add_once c (cs vmid) else cs v).
Proof.
  intros H Hv Hc. unfold tas_register_appctx, add_once. rewrite (proj2 (Z.ltb_lt vmid _)), (proj2 (Z.ltb_lt c _)) by lia.
  cbn [cassert mbind option_bind]. destruct (Z.eqb_spec (reg_ctx_slots r !!! (vmid, c)) 0) as [Es|Es]; cbn [negb].
  2: { exists r. split; [done|]. rewrite decide_True by by apply (rg_ctx_slots _ _ _ H).
    destruct H as [Hvc Hi Hn Hr Hs Hcc Hci Hcn Hcr Hcs].
    constructor; try done; intros v; case_decide; subst; auto. }
  assert (Hnin : c ∉ cs vmid) by exact (slot_false _ _ (rg_ctx_slots _ _ _ H vmid c) Es).
  rewrite (decide_False (P := c ∈ cs vmid)) by done.
  assert (Hlt := nodup_bound_missing _ _ c (rg_ctx_nodup _ _ _ H vmid) (rg_ctx_range _ _ _ H vmid) Hc Hnin).
  rewrite (rg_ctx_count _ _ _ H), (proj2 (Z.ltb_lt _ _)) by lia. cbn [cassert mbind option_bind].
  eexists. split; [done|]. destruct H as [Hvc Hi Hn Hr Hs Hcc Hci Hcn Hcr Hcs].
  change FLEXNIC_PL_APPCTX_NUM with 32 in *.
  constructor; cbn; try done.
  - intros v. case_decide as E; [subst v|].
    + rewrite lookup_total_insert_eq, length_app, u16_id by cside. cbn [length]. lia.
    + rewrite lookup_total_insert_ne by done. apply Hcc.
  - intros v i x. case_decide as E; [subst v|].
    + intros [Hl|[-> ->]]%snoc_lookup_old; [|by rewrite lookup_total_insert_eq].
      rewrite lookup_total_insert_ne; [by apply Hci|]. apply lookup_lt_Some in Hl. intros [=]. lia.
    + rewrite lookup_total_insert_ne by congruence. apply Hci.
  - intros v. case_decide; [by apply nodup_snoc|auto].
  - intros v. case_decide; [|auto]. apply Forall_app. split; [done|]. by apply Forall_singleton.
  - intros v x. case_decide as E; [subst v|].
    + rewrite elem_of_app, list_elem_of_singleton. destruct (decide (x = c)) as [->|Hne].
      * rewrite lookup_total_insert_eq. split; [by right|done].
      * rewrite lookup_total_insert_ne by congruence. rewrite Hcs. naive_solver.
    + rewrite lookup_total_insert_ne by congruence. apply Hcs.
Qed.
