(* ===== verification/AppQ.v ===== *)
(** * Application queues of the fast path (tas/fast/fast_appctx.c)

    A core of the fast path polls the transmit rings of the application contexts, hands
    the updates to [fast_flows_bump], and keeps track of the free entries of the receive
    rings.  VMs and contexts that have sent recently are in rings of active ones, polled
    in most rounds; all registered ones are polled once in a while.  The rings with
    entries of applications are indexed by byte offset; prefetching is left out. *)

From S2P Require Import Prelude FpTypes SpTypes SpState LibTypes LibConn LibPoll Registry.
From S2P Require Import TcpCommon FlowTx FlowRx FlowOps.

Definition FLAG_ACTIVE : Z := 1.
Definition MAX_POLL_ROUNDS : Z := 15.
Definition MAX_NULL_ROUNDS : Z := 2000.

(** ** Data *)

(** Registers of an application context, with the rings they point to. *)
Record appctx : Type := mk_appctx {
  ax_tx : gmap Z atx; ax_rx : gmap Z arx; ax_rx_len : Z; ax_tx_len : Z; ax_last_ts : Z;
  ax_rx_head : Z; ax_tx_head : Z; ax_rx_avail : Z }.
#[export] Instance eta_appctx : Eta appctx := fun r =>
  mk_appctx (ax_tx r) (ax_rx r) (ax_rx_len r) (ax_tx_len r) (ax_last_ts r) (ax_rx_head r)
    (ax_tx_head r) (ax_rx_avail r).
#[export] Instance appctx_inhabited : Inhabited appctx := populate (mk_appctx ∅ ∅ 0 0 0 0 0 0).

Record polled_context : Type := mk_pctx {
  pc_id : Z; pc_vmid : Z; pc_next : Z; pc_prev : Z; pc_flags : Z; pc_null_rounds : Z }.
#[export] Instance eta_pctx : Eta polled_context := fun r =>
  mk_pctx (pc_id r) (pc_vmid r) (pc_next r) (pc_prev r) (pc_flags r) (pc_null_rounds r).
#[export] Instance pctx_inhabited : Inhabited polled_context := populate (mk_pctx 0 0 0 0 0 0).

Record polled_vm : Type := mk_pvm {
  pv_id : Z; pv_next : Z; pv_prev : Z; pv_flags : Z; poll_next_ctx : Z;
  act_ctx_head : Z; act_ctx_tail : Z; pv_ctxs : gmap Z polled_context }.
#[export] Instance eta_pvm : Eta polled_vm := fun r =>
  mk_pvm (pv_id r) (pv_next r) (pv_prev r) (pv_flags r) (poll_next_ctx r) (act_ctx_head r)
    (act_ctx_tail r) (pv_ctxs r).
#[export] Instance pvm_inhabited : Inhabited polled_vm := populate (mk_pvm 0 0 0 0 0 0 0 ∅).

(** An entry that has been fetched: VM, context and offset. *)
Record aqe : Type := mk_aqe { ae_vm : Z; ae_ctx : Z; ae_pos : Z }.

(** The polling part of [dataplane_context], next to the rest in [aq_world].  [aq_woken]
    are the contexts notified, last first. *)
Record appq (Q : Type) : Type := mk_appq {
  aq_world : world Q; aq_ctxs : gmap (Z * Z) appctx; polled_vms : gmap Z polled_vm;
  act_head : Z; act_tail : Z; poll_rounds : Z; poll_next_vm : Z;
  aq_reg : registry; aq_woken : list (Z * Z) }.
Arguments mk_appq {Q}.
Arguments aq_world {Q}.
Arguments aq_ctxs {Q}.
Arguments polled_vms {Q}.
Arguments act_head {Q}.
Arguments act_tail {Q}.
Arguments poll_rounds {Q}.
Arguments poll_next_vm {Q}.
Arguments aq_reg {Q}.
Arguments aq_woken {Q}.
#[export] Instance eta_appq {Q} : Eta (appq Q) := fun r =>
  mk_appq (aq_world r) (aq_ctxs r) (polled_vms r) (act_head r) (act_tail r) (poll_rounds r)
    (poll_next_vm r) (aq_reg r) (aq_woken r).

(** ** Rings of active contexts and VMs *)

Definition upd_pc (cid : Z) (f : polled_context -> polled_context) (v : polled_vm) : polled_vm :=
  v <| pv_ctxs ::= fun h => <[cid := f (h !!! cid)]> h |>.

Definition flag_active (f : Z) : Z := Z.lor f FLAG_ACTIVE.
Definition flag_inactive (f : Z) : Z := Z.land f (Z.lxor 65535 FLAG_ACTIVE).

Definition enqueue_ctx_to_active (cid : Z) (v : polled_vm) : polled_vm :=
  if act_ctx_tail v =? IDXLIST_INVAL then
    upd_pc cid (fun c => c <| pc_prev := cid |> <| pc_next := cid |> <| pc_flags ::= flag_active |>)
      (v <| act_ctx_tail := cid |> <| act_ctx_head := cid |>)
  else
    let head := act_ctx_head v in
    let tail := act_ctx_tail v in
    let v := upd_pc tail (fun c => c <| pc_next := cid |>) v in
    let v := upd_pc head (fun c => c <| pc_prev := cid |>) v in
    upd_pc cid (fun c => c <| pc_prev := tail |> <| pc_next := head |> <| pc_flags ::= flag_active |>) v
      <| act_ctx_tail := cid |>.

(** The end of both branches of [remove_ctx_from_active]. *)
Definition ctx_deactivate (c : polled_context) : polled_context :=
  c <| pc_next := IDXLIST_INVAL |> <| pc_prev := IDXLIST_INVAL |> <| pc_flags ::= flag_inactive |>
    <| pc_null_rounds := 0 |>.

Definition remove_ctx_from_active (cid : Z) (v : polled_vm) : polled_vm :=
  if act_ctx_tail v =? act_ctx_head v then
    upd_pc cid ctx_deactivate (v <| act_ctx_head := IDXLIST_INVAL |> <| act_ctx_tail := IDXLIST_INVAL |>)
  else
    let next := pc_next (pv_ctxs v !!! cid) in
    let prev := pc_prev (pv_ctxs v !!! cid) in
    let v := if next =? act_ctx_head v then v <| act_ctx_tail := prev |>
             else if prev =? act_ctx_tail v then v <| act_ctx_head := next |> else v in
    let v := upd_pc prev (fun c => c <| pc_next := next |>) v in
    let v := upd_pc next (fun c => c <| pc_prev := prev |>) v in
    upd_pc cid ctx_deactivate v.

Section AppQ.
Context (E : fpenv) {Q : Type} `{QmanOps Q}.
Abbreviation aq := (appq Q).

Definition pvm (q : aq) (vm : Z) : polled_vm := polled_vms q !!! vm.
Definition upd_vm (vm : Z) (f : polled_vm -> polled_vm) (q : aq) : aq :=
  q <| polled_vms ::= fun h => <[vm := f (h !!! vm)]> h |>.
Definition upd_ax (vm cid : Z) (f : appctx -> appctx) (q : aq) : aq :=
  q <| aq_ctxs ::= fun h => <[(vm, cid) := f (h !!! (vm, cid))]> h |>.
Definition axctx (q : aq) (vm cid : Z) : appctx := aq_ctxs q !!! (vm, cid).

Definition upd_pctx (vm cid : Z) (f : polled_context -> polled_context) (q : aq) : aq :=
  upd_vm vm (upd_pc cid f) q.
Definition pctx (q : aq) (vm cid : Z) : polled_context := pv_ctxs (pvm q vm) !!! cid.

Definition enqueue_vm_to_active (vmid : Z) (q : aq) : aq :=
  if act_tail q =? IDXLIST_INVAL then
    upd_vm vmid (fun v => v <| pv_prev := vmid |> <| pv_next := vmid |> <| pv_flags ::= flag_active |>)
      (q <| act_tail := vmid |> <| act_head := vmid |>)
  else
    let head := act_head q in
    let tail := act_tail q in
    let q := upd_vm tail (fun v => v <| pv_next := vmid |>) q in
    let q := upd_vm head (fun v => v <| pv_prev := vmid |>) q in
    upd_vm vmid (fun v => v <| pv_prev := tail |> <| pv_next := head |> <| pv_flags ::= flag_active |>) q
      <| act_tail := vmid |>.

Definition vm_deactivate (v : polled_vm) : polled_vm :=
  v <| pv_next := IDXLIST_INVAL |> <| pv_prev := IDXLIST_INVAL |> <| pv_flags ::= flag_inactive |>.

Definition remove_vm_from_active (vmid : Z) (q : aq) : aq :=
  if act_tail q =? act_head q then
    upd_vm vmid vm_deactivate (q <| act_head := IDXLIST_INVAL |> <| act_tail := IDXLIST_INVAL |>)
  else
    let next := pv_next (pvm q vmid) in
    let prev := pv_prev (pvm q vmid) in
    let q := if next =? act_head q then q <| act_tail := prev |>
             else if prev =? act_tail q then q <| act_head := next |> else q in
    let q := upd_vm prev (fun v => v <| pv_next := next |>) q in
    let q := upd_vm next (fun v => v <| pv_prev := prev |>) q in
    upd_vm vmid vm_deactivate q.

Fixpoint remove_ctxs_from_active (ctxs : list (Z * Z)) (q : aq) : aq :=
  match ctxs with
  | [] => q
  | (vm, c) :: ctxs =>
      let cid := pc_id (pctx q vm c) in
      let vmid := pc_vmid (pctx q vm c) in
      let q := upd_vm vmid (remove_ctx_from_active cid) q in
      let q := if act_ctx_head (pvm q vmid) =? IDXLIST_INVAL then remove_vm_from_active vmid q else q in
      remove_ctxs_from_active ctxs q
  end.

(** ** Fetching updates *)

(** Bytes sent count for the budget of the VM. *)
Definition spend_bytes (vm n : Z) (w : world Q) : world Q :=
  w <| w_ctx ::= fun c => c <| vm_counters ::= fun h => <[vm := s32 (h !!! vm + n)]> h |>
                            <| counters_total ::= fun t => s32 (t + n) |> |>.

(** [None] inside: returned -1, there is nothing to fetch. *)
Definition fast_appctx_poll_fetch (vm cid : Z) (spend_budget : bool) (q : aq) : option (option aqe * aq) :=
  let ax := axctx q vm cid in
  if ax_tx_len ax =? 0 then Some (None, q)
  else
    let pos := ax_tx_head ax in
    let e := ax_tx ax !!! pos in
    if atx_type e =? 0 then Some (None, q)
    else
      cassert (atx_type e =? FLEXTCP_PL_ATX_CONNUPDATE);;
      cassert (atx_flow_id e <? FLEXNIC_PL_FLOWST_NUM);;
      let q := upd_ax vm cid (fun x => x <| ax_tx_head := ring_wrap (ax_tx_len x) pos sizeof_atx |>) q in
      Some (Some (mk_aqe vm cid pos),
            if spend_budget then q <| aq_world ::= spend_bytes vm (atx_tx_bump e) |> else q).

Definition null_round (n : Z) : Z := if n =? MAX_NULL_ROUNDS then MAX_NULL_ROUNDS else u16 (n + 1).


(** Up to [n] entries of one active context; the result has the entries and the contexts
    idle for too long, a write past whose array is a failure. *)
Fixpoint fetch_active_ctx_loop (n : nat) (vm cid max : Z) (spend : bool) (aqes : list aqe)
    (rem : list (Z * Z)) (q : aq) : option (list aqe * list (Z * Z) * aq) :=
  match n with
  | O => Some (aqes, rem, q)
  | S n =>
      if max <=? Z.of_nat (length aqes) then Some (aqes, rem, q)
      else
        '(r, q) ← fast_appctx_poll_fetch (pc_vmid (pctx q vm cid)) (pc_id (pctx q vm cid)) spend q;
        match r with
        | Some a =>
            fetch_active_ctx_loop n vm cid max spend (aqes ++ [a]) rem
              (upd_pctx vm cid (fun c => c <| pc_null_rounds := 0 |>) q)
        | None =>
            let q := upd_pctx vm cid (fun c => c <| pc_null_rounds ::= null_round |>) q in
            if MAX_NULL_ROUNDS <=? pc_null_rounds (pctx q vm cid) then
              cassert (Z.of_nat (length rem) <? BATCH_SIZE);;
              Some (aqes, rem ++ [(vm, cid)], q)
            else Some (aqes, rem, q)
        end
  end.

Definition fast_appctx_poll_fetch_active_ctx (vm cid max : Z) (spend : bool) (aqes : list aqe)
    (rem : list (Z * Z)) (q : aq) : option (list aqe * list (Z * Z) * aq) :=
  fetch_active_ctx_loop (Z.to_nat BATCH_SIZE) vm cid max spend aqes rem q.

(** The contexts of a VM, from [cid] to the head. *)
Fixpoint fetch_active_vm_loop (fuel : nat) (vm cid max : Z) (spend : bool) (aqes : list aqe)
    (rem : list (Z * Z)) (q : aq) : option (list aqe * list (Z * Z) * aq) :=
  match fuel with
  | O => None
  | S fuel =>
      '(aqes, rem, q) ← fast_appctx_poll_fetch_active_ctx vm cid max spend aqes rem q;
      let cid := pc_next (pctx q vm cid) in
      if negb (cid =? act_ctx_head (pvm q vm)) && (Z.of_nat (length aqes) <? max)
      then fetch_active_vm_loop fuel vm cid max spend aqes rem q
      else Some (aqes, rem, q)
  end.

(** The ring moves by one. *)
Definition rotate_ctxs (v : polled_vm) : polled_vm :=
  v <| act_ctx_head := pc_next (pv_ctxs v !!! act_ctx_head v) |>
    <| act_ctx_tail := pc_next (pv_ctxs v !!! act_ctx_tail v) |>.

Definition ctx_fuel : nat := Z.to_nat FLEXNIC_PL_APPST_CTX_NUM.
Definition vm_fuel : nat := Z.to_nat FLEXNIC_PL_VMST_NUM.

Definition fast_appctx_poll_fetch_active_vm (vm max : Z) (spend : bool) (aqes : list aqe)
    (rem : list (Z * Z)) (q : aq) : option (list aqe * list (Z * Z) * aq) :=
  '(aqes, rem, q) ← fetch_active_vm_loop ctx_fuel vm (act_ctx_head (pvm q vm)) max spend aqes rem q;
  Some (aqes, rem, upd_vm vm rotate_ctxs q).

Definition vm_budget (q : aq) (vm : Z) : Z := budgets (w_ctx (aq_world q)) !!! vm.

(** The VMs with a budget; the result has those without one. *)
Fixpoint fetch_active_loop (fuel : nat) (vm max : Z) (aqes : list aqe) (rem : list (Z * Z))
    (oob : list Z) (q : aq) : option (list aqe * list (Z * Z) * list Z * aq) :=
  match fuel with
  | O => None
  | S fuel =>
      '(aqes, rem, oob, q) ←
        (if 0 <? vm_budget q vm then
           '(aqes, rem, q) ← fast_appctx_poll_fetch_active_vm vm max true aqes rem q;
           Some (aqes, rem, oob, q)
         else Some (aqes, rem, oob ++ [vm], q));
      let vm := pv_next (pvm q vm) in
      if negb (vm =? act_head q) && (Z.of_nat (length aqes) <? max)
      then fetch_active_loop fuel vm max aqes rem oob q
      else Some (aqes, rem, oob, q)
  end.

(** VMs without a budget, when the others have sent nothing. *)
Fixpoint fetch_active_oob (oob : list Z) (max : Z) (aqes : list aqe) (rem : list (Z * Z)) (q : aq)
    : option (list aqe * list (Z * Z) * aq) :=
  match oob with
  | [] => Some (aqes, rem, q)
  | vm :: oob =>
      '(aqes, rem, q) ←
        (if Z.of_nat (length aqes) <? max
         then fast_appctx_poll_fetch_active_vm vm max false aqes rem q else Some (aqes, rem, q));
      fetch_active_oob oob max aqes rem q
  end.

Definition fast_appctx_poll_fetch_active (max : Z) (q : aq) : option (list aqe * list (Z * Z) * aq) :=
  '(aqes, rem, oob, q) ← fetch_active_loop vm_fuel (act_head q) max [] [] [] q;
  match aqes with
  | [] => fetch_active_oob oob max [] rem q
  | _ :: _ => Some (aqes, rem, q)
  end.

(** The result has whether the context has sent. *)
Fixpoint fetch_all_ctx_loop (n : nat) (vm cid max : Z) (spend active : bool) (aqes : list aqe) (q : aq)
    : option (bool * list aqe * aq) :=
  match n with
  | O => Some (active, aqes, q)
  | S n =>
      if max <=? Z.of_nat (length aqes) then Some (active, aqes, q)
      else
        '(r, q) ← fast_appctx_poll_fetch vm cid spend q;
        match r with
        | Some a =>
            let q := upd_pctx vm cid (fun c => c <| pc_null_rounds := 0 |>) q in
            let q := if Z.land (pc_flags (pctx q vm cid)) FLAG_ACTIVE =? 0
                     then upd_vm vm (enqueue_ctx_to_active cid) q else q in
            fetch_all_ctx_loop n vm cid max spend true (aqes ++ [a]) q
        | None => Some (active, aqes, upd_pctx vm cid (fun c => c <| pc_null_rounds ::= null_round |>) q)
        end
  end.

Definition fast_appctx_poll_fetch_all_ctx (vm cid max : Z) (spend : bool) (aqes : list aqe) (q : aq)
    : option (bool * list aqe * aq) :=
  fetch_all_ctx_loop (Z.to_nat BATCH_SIZE) vm cid max spend false aqes q.

Fixpoint fetch_all_vm_loop (n : nat) (vm count max : Z) (spend : bool) (aqes : list aqe) (q : aq)
    : option (list aqe * aq) :=
  match n with
  | O => Some (aqes, q)
  | S n =>
      if max <=? Z.of_nat (length aqes) then Some (aqes, q)
      else
        let cid := reg_ctx_ids (aq_reg q) !!! (vm, poll_next_ctx (pvm q vm)) in
        '(active, aqes, q) ← fast_appctx_poll_fetch_all_ctx vm cid max spend aqes q;
        let q := if (Z.land (pv_flags (pvm q vm)) FLAG_ACTIVE =? 0) && active
                 then enqueue_vm_to_active vm q else q in
        let q := upd_vm vm (fun v => v <| poll_next_ctx := (poll_next_ctx v + 1) mod count |>) q in
        fetch_all_vm_loop n vm count max spend aqes q
  end.

Definition fast_appctx_poll_fetch_all_vm (vm max : Z) (spend : bool) (aqes : list aqe) (q : aq)
    : option (list aqe * aq) :=
  let count := tas_registered_ctx_count_get vm (aq_reg q) in
  if count =? 0 then Some (aqes, q)
  else
    let q := if count <=? poll_next_ctx (pvm q vm)
             then upd_vm vm (fun v => v <| poll_next_ctx := 0 |>) q else q in
    fetch_all_vm_loop (Z.to_nat count) vm count max spend aqes q.

Definition next_vm (count : Z) (q : aq) : aq :=
  q <| poll_next_vm := (poll_next_vm q + 1) mod count |>.

Fixpoint fetch_all_loop (n : nat) (count max : Z) (aqes : list aqe) (oob : list Z) (q : aq)
    : option (list aqe * list Z * aq) :=
  match n with
  | O => Some (aqes, oob, q)
  | S n =>
      if max <=? Z.of_nat (length aqes) then Some (aqes, oob, q)
      else
        let vm := reg_vm_ids (aq_reg q) !!! poll_next_vm q in
        '(aqes, oob, q) ←
          (if 0 <? vm_budget q vm then
             '(aqes, q) ← fast_appctx_poll_fetch_all_vm vm max true aqes q; Some (aqes, oob, q)
           else Some (aqes, oob ++ [vm], q));
        fetch_all_loop n count max aqes oob (next_vm count q)
  end.

Fixpoint fetch_all_oob (oob : list Z) (count max : Z) (aqes : list aqe) (q : aq)
    : option (list aqe * aq) :=
  match oob with
  | [] => Some (aqes, q)
  | vm :: oob =>
      '(aqes, q) ← (if Z.of_nat (length aqes) <? max
                    then fast_appctx_poll_fetch_all_vm vm max false aqes q else Some (aqes, q));
      fetch_all_oob oob count max aqes (next_vm count q)
  end.

Definition fast_appctx_poll_fetch_all (max : Z) (q : aq) : option (list aqe * aq) :=
  let count := tas_registered_vm_count_get (aq_reg q) in
  if count =? 0 then Some ([], q)
  else
    let q := if count <=? poll_next_vm q then q <| poll_next_vm := 0 |> else q in
    '(aqes, oob, q) ← fetch_all_loop (Z.to_nat count) count max [] [] q;
    match aqes with
    | [] => fetch_all_oob oob count max [] q
    | _ :: _ => Some (aqes, q)
    end.

(** ** Handling an update *)

(** The update of entry [a] is applied and the entry freed. *)
Definition fast_appctx_poll_bump (a : aqe) (nbh : nbuf) (ts : Z) (q : aq) : option (Z * aq) :=
  let e := ax_tx (axctx q (ae_vm a) (ae_ctx a)) !!! ae_pos a in
  '(w, ret) ← fast_flows_bump E (aq_world q) (atx_flow_id e) (atx_bump_seq e) (atx_rx_bump e)
                (atx_tx_bump e) (atx_flags e) nbh ts;
  Some (if ret =? 0 then 0 else 1,
        upd_ax (ae_vm a) (ae_ctx a) (fun x =>
          x <| ax_tx ::= fun r => <[ae_pos a := (r !!! ae_pos a) <| atx_type := 0 |>]> r |>)
          (q <| aq_world := w |>)).

(** ** Receive rings *)

(** [None]: returned -1, no entry is free; else the offset of the entry. *)
Definition fast_actx_rxq_alloc (vm cid : Z) (q : aq) : option Z * aq :=
  let ax := axctx q vm cid in
  if ax_rx_avail ax =? 0 then (None, q)
  else
    (Some (ax_rx_head ax),
     upd_ax vm cid (fun x => x <| ax_rx_head := ring_wrap (ax_rx_len x) (ax_rx_head x) sizeof_arx |>
                               <| ax_rx_avail := u32 (ax_rx_avail x - sizeof_arx) |>) q).

Fixpoint rxq_probe_loop (i : nat) (ring : gmap Z arx) (len avail pos : Z) : Z :=
  match i with
  | O => avail
  | S i =>
      if negb (avail <? len) then avail
      else if negb (arx_type (ring !!! pos) =? 0) then avail
      else rxq_probe_loop i ring len (u32 (avail + sizeof_arx)) (ring_wrap len pos sizeof_arx)
  end.

Definition fast_actx_rxq_probe (vm cid : Z) (q : aq) : aq :=
  let ax := axctx q vm cid in
  if ax_rx_len ax / 2 <? ax_rx_avail ax then q
  else upd_ax vm cid (fun x => x <| ax_rx_avail :=
         rxq_probe_loop (Z.to_nat (2 * BATCH_SIZE)) (ax_rx x) (ax_rx_len x) (ax_rx_avail x)
           (ring_wrap (ax_rx_len x) (ax_rx_head x) (ax_rx_avail x)) |>) q.

Fixpoint probe_active_vm_loop (fuel : nat) (vm id cid : Z) (q : aq) : option aq :=
  match fuel with
  | O => None
  | S fuel =>
      let q := fast_actx_rxq_probe id cid q in
      let cid := pc_next (pctx q vm cid) in
      if cid =? act_ctx_head (pvm q vm) then Some q else probe_active_vm_loop fuel vm id cid q
  end.

Definition fast_actx_rxq_probe_active_vm (vm : Z) (q : aq) : option aq :=
  probe_active_vm_loop ctx_fuel vm (pv_id (pvm q vm)) (act_ctx_head (pvm q vm)) q.

Fixpoint probe_active_loop (fuel : nat) (vm : Z) (q : aq) : option aq :=
  match fuel with
  | O => None
  | S fuel =>
      q ← fast_actx_rxq_probe_active_vm vm q;
      let vm := pv_next (pvm q vm) in
      if vm =? act_head q then Some q else probe_active_loop fuel vm q
  end.

Definition fast_actx_rxq_probe_active (q : aq) : option aq := probe_active_loop vm_fuel (act_head q) q.

Definition fast_actx_rxq_probe_all_vm (vm : Z) (q : aq) : aq :=
  foldl (fun q n => fast_actx_rxq_probe vm (reg_ctx_ids (aq_reg q) !!! (vm, n)) q) q
    (seqZ 0 (tas_registered_ctx_count_get vm (aq_reg q))).

Definition fast_actx_rxq_probe_all (q : aq) : aq :=
  foldl (fun q i => fast_actx_rxq_probe_all_vm (reg_vm_ids (aq_reg q) !!! i) q) q
    (seqZ 0 (tas_registered_vm_count_get (aq_reg q))).

End AppQ.
