(* ===== verification/AppQProofs.v ===== *)
(** * Polling of the application contexts: lemmas (tas/fast/fast_appctx.c)

    The rings of active contexts and VMs as lists ([vm_act], [vms_act]), the entries a core
    fetches from a context, and a round over the active and over all contexts. *)

From S2P Require Import Prelude FpTypes Links TcpCommon FlowTx FlowRx FlowOps SpTypes SpState.
From S2P Require Import LibTypes LibConn LibPoll LibProofs Registry AppQ.

Definition act_flag (x : Z) (l : list Z) : Z := if decide (x ∈ l) then FLAG_ACTIVE else 0.

Lemma act_flag_in x l : x ∈ l -> act_flag x l = FLAG_ACTIVE.
Proof. intros H. unfold act_flag. by rewrite decide_True. Qed.

Lemma act_flag_out x l : x ∉ l -> act_flag x l = 0.
Proof. intros H. unfold act_flag. by rewrite decide_False. Qed.

Lemma act_flag_test x l : Z.land (act_flag x l) FLAG_ACTIVE =? 0 = negb (bool_decide (x ∈ l)).
Proof. unfold act_flag. by case_decide; [rewrite bool_decide_true|rewrite bool_decide_false]. Qed.

Lemma flag_active_act l y : flag_active (act_flag y l) = FLAG_ACTIVE.
Proof. unfold act_flag. by case_decide. Qed.

Lemma act_flag_equiv x l l' : (x ∈ l <-> x ∈ l') -> act_flag x l = act_flag x l'.
Proof. intros H. unfold act_flag. repeat case_decide; tauto. Qed.

(** ** Contexts of a VM *)

Definition vctx (v : polled_vm) (c : Z) : polled_context := pv_ctxs v !!! c.

Record vm_act (vm : Z) (v : polled_vm) (l : list Z) : Prop := mk_vm_act {
  va_ring : circ IDXLIST_INVAL (fun c => pc_next (vctx v c)) (fun c => pc_prev (vctx v c))
              (act_ctx_head v) (act_ctx_tail v) l;
  va_nodup : NoDup l;
  va_range : Forall (fun c => 0 <= c < FLEXNIC_PL_APPCTX_NUM) l;
  va_flags : forall c, pc_flags (vctx v c) = act_flag c l;
  va_ids : forall c, 0 <= c < FLEXNIC_PL_APPCTX_NUM -> pc_id (vctx v c) = c /\ pc_vmid (vctx v c) = vm }.

Lemma range_not_inval (l : list Z) n : n <= 4294967295 -> Forall (fun c => 0 <= c < n) l -> IDXLIST_INVAL ∉ l.
Proof. intros Hn Hr Hi. rewrite Forall_forall in Hr. apply Hr in Hi. unfold IDXLIST_INVAL in Hi. lia. Qed.

Lemma va_no_inval vm v l : vm_act vm v l -> IDXLIST_INVAL ∉ l.
Proof. intros H. eapply range_not_inval; [|exact (va_range _ _ _ H)]. done. Qed.

Lemma va_head_in vm v x l : vm_act vm v (x :: l) -> act_ctx_head v = x.
Proof. intros H. exact (ci_head _ _ _ _ _ _ (va_ring _ _ _ H)). Qed.

Lemma vctx_upd v c f x : vctx (upd_pc c f v) x = if decide (x = c) then f (vctx v c) else vctx v x.
Proof.
  unfold vctx, upd_pc. cbn. case_decide; [subst; by rewrite lookup_total_insert_eq|].
  by rewrite lookup_total_insert_ne.
Qed.

Lemma vctx_head v h x : vctx (v <| act_ctx_head := h |>) x = vctx v x.
Proof. done. Qed.
Lemma vctx_tail v t x : vctx (v <| act_ctx_tail := t |>) x = vctx v x.
Proof. done. Qed.

Ltac ctx_cases := repeat first [rewrite vctx_tail|rewrite vctx_head|rewrite vctx_upd];
  repeat (case_decide; [try (exfalso; congruence)|try (exfalso; congruence)]); cbn -[vctx upd_pc]; try done; try congruence.

(** An update of the other fields. *)
Lemma vm_act_upd vm v l c f :
  (forall p, pc_next (f p) = pc_next p /\ pc_prev (f p) = pc_prev p /\ pc_flags (f p) = pc_flags p
             /\ pc_id (f p) = pc_id p /\ pc_vmid (f p) = pc_vmid p) ->
  vm_act vm v l -> vm_act vm (upd_pc c f v) l.
Proof.
  intros Hf [Hr Hn Hg Hfl Hi].
  assert (E : forall x, pc_next (vctx (upd_pc c f v) x) = pc_next (vctx v x)
    /\ pc_prev (vctx (upd_pc c f v) x) = pc_prev (vctx v x)
    /\ pc_flags (vctx (upd_pc c f v) x) = pc_flags (vctx v x)
    /\ pc_id (vctx (upd_pc c f v) x) = pc_id (vctx v x)
    /\ pc_vmid (vctx (upd_pc c f v) x) = pc_vmid (vctx v x)).
  { intros x. rewrite vctx_upd. case_decide; [subst; apply Hf|done]. }
  constructor; [|done|done| |].
  - eapply circ_ext; [|exact Hr]. intros x _. cbn. destruct (E x) as (-> & -> & _). done.
  - intros x. destruct (E x) as (_ & _ & -> & _). apply Hfl.
  - intros x Hx. destruct (E x) as (_ & _ & _ & -> & ->). by apply Hi.
Qed.

(** A field outside of the ring. *)
Lemma vm_act_same vm v v' l : act_ctx_head v' = act_ctx_head v -> act_ctx_tail v' = act_ctx_tail v ->
  pv_ctxs v' = pv_ctxs v -> vm_act vm v l -> vm_act vm v' l.
Proof.
  intros Eh Et Ec [Hr Hn Hg Hfl Hi]. unfold vctx in *.
  constructor; unfold vctx; rewrite ?Eh, ?Et, ?Ec; done.
Qed.

Lemma enqueue_ctx_act vm v l c : vm_act vm v l -> 0 <= c < FLEXNIC_PL_APPCTX_NUM -> c ∉ l ->
  vm_act vm (enqueue_ctx_to_active c v) (l ++ [c]).
Proof.
  intros H Hc Hnin. pose proof (va_no_inval _ _ _ H) as Hinv. destruct H as [Hr Hn Hg Hfl Hi].
  pose proof (circ_tail_nil _ _ _ _ _ _ Hinv Hr) as Htn. pose proof Hr as [Eh Et _].
  assert (Hnd : NoDup (l ++ [c])) by by apply nodup_snoc.
  assert (Hrg : Forall (fun c => 0 <= c < FLEXNIC_PL_APPCTX_NUM) (l ++ [c])).
  { apply Forall_app. split; [done|]. by apply Forall_singleton. }
  assert (Hff : forall x, x <> c -> act_flag x (l ++ [c]) = act_flag x l).
  { intros x Hx. apply act_flag_equiv. rewrite elem_of_app, list_elem_of_singleton. tauto. }
  assert (Hfc : act_flag c (l ++ [c]) = FLAG_ACTIVE).
  { apply act_flag_in, elem_of_app. right. by apply list_elem_of_singleton. }
  unfold enqueue_ctx_to_active. destruct (Z.eqb_spec (act_ctx_tail v) IDXLIST_INVAL) as [E|E].
  - apply Htn in E as ->. constructor; [|done|done| |].
    + apply circ_push_first; ctx_cases.
    + intros x. destruct (decide (x = c)) as [->|Hx]; [rewrite Hfc|rewrite Hff by done]; ctx_cases.
      all: first [exact (Hfl _) | exact (eq_trans (f_equal flag_active (Hfl _)) (flag_active_act _ _)) | rewrite Hfl; congruence].
    + intros x Hx. destruct (Hi x Hx). ctx_cases; split; congruence.
  - assert (Hne : l <> []) by (intros ->; by apply E, Htn).
    assert (Htc : act_ctx_tail v <> c) by (rewrite Et; intros <-; by apply Hnin, tl_of_in).
    assert (Hhc : act_ctx_head v <> c) by (rewrite Eh; intros <-; by apply Hnin, hd_of_in).
    constructor; [|done|done| |]; cbv zeta.
    + match goal with |- circ _ _ _ ?h _ _ => change h with (act_ctx_head v) end.
      apply (circ_push IDXLIST_INVAL (fun c => pc_next (vctx v c)) (fun c => pc_prev (vctx v c)) _ _ _
        (act_ctx_tail v)); [done..|ctx_cases|ctx_cases|ctx_cases|ctx_cases| |].
      all: intros y Hy Hyt; assert (y <> c) by (by intros ->); ctx_cases.
    + intros x. destruct (decide (x = c)) as [->|Hx]; [rewrite Hfc|rewrite Hff by done]; ctx_cases.
      all: first [exact (Hfl _) | exact (eq_trans (f_equal flag_active (Hfl _)) (flag_active_act _ _)) | rewrite Hfl; congruence].
    + intros x Hx. destruct (Hi x Hx). ctx_cases; split; congruence.
Qed.

Lemma act_flag_without_ne x y l : y <> x -> act_flag y (without x l) = act_flag y l.
Proof. intros H. apply act_flag_equiv. rewrite elem_of_without. tauto. Qed.

Lemma act_flag_without x l : act_flag x (without x l) = 0.
Proof. apply act_flag_out. rewrite elem_of_without. tauto. Qed.

Lemma flag_inactive_act y l : flag_inactive (act_flag y l) = 0.
Proof. unfold act_flag. by case_decide. Qed.

(** A ring of one cell has the same head and tail. *)
Lemma ring_one e nx pv h t l : NoDup l -> l <> [] -> circ e nx pv h t l -> h = t -> exists x, l = [x].
Proof.
  intros Hnd Hne [-> -> _] E. destruct l as [|x l]; [done|]. destruct l as [|y l]; [by exists x|].
  exfalso. apply NoDup_cons in Hnd as [Hx _]. apply Hx. change (hd_of e (x :: y :: l)) with x in E.
  change (x :: y :: l) with ([x] ++ y :: l) in E. rewrite tl_of_app in E by done. rewrite E. by apply tl_of_in.
Qed.

Lemma remove_ctx_act vm v l c : vm_act vm v l -> c ∈ l ->
  vm_act vm (remove_ctx_from_active c v) (without c l).
Proof.
  intros H Hc. destruct H as [Hr Hn Hg Hfl Hi]. assert (Hne : l <> []) by (intros ->; by apply elem_of_nil in Hc).
  unfold remove_ctx_from_active. destruct (Z.eqb_spec (act_ctx_tail v) (act_ctx_head v)) as [E|E].
  - destruct (ring_one _ _ _ _ _ _ Hn Hne Hr (eq_sym E)) as [x ->]. apply list_elem_of_singleton in Hc as ->.
    assert (Ew : without x [x] = []) by (apply (without_split [] x []); done). rewrite Ew.
    constructor; [apply circ_nil|by apply NoDup_nil_2|by apply Forall_nil| |].
    + intros y. rewrite act_flag_out by by intros ?%elem_of_nil. ctx_cases.
      * exact (eq_trans (f_equal flag_inactive (Hfl _)) (flag_inactive_act _ _)).
      * refine (eq_trans (Hfl _) _). apply act_flag_out. by rewrite list_elem_of_singleton.
    + intros y Hy. destruct (Hi y Hy). ctx_cases; split; congruence.
  - apply list_elem_of_split in Hc as (A & B & ->). rewrite without_split by done.
    assert (HAB : A ++ B <> []).
    { intros Ea. destruct A; [|done]. cbn in Ea. subst B. apply E. by destruct Hr as [-> -> _]. }
    pose proof Hr as [Eh Et _].
    destruct (circ_neighbours _ _ _ _ _ _ _ _ HAB Hr) as (En & Ep & _).
    destruct (circ_remove_ends _ _ _ _ _ _ _ _ HAB Hn Hr) as [Ehd Etl].
    set (n := pc_next (vctx v c)) in *. set (p := pc_prev (vctx v c)) in *.
    change (pc_next (pv_ctxs v !!! c)) with n. change (pc_prev (pv_ctxs v !!! c)) with p.
    assert (HcAB : c ∉ A ++ B) by (rewrite <-(without_split A c B Hn), elem_of_without; tauto).
    assert (HBA : B ++ A <> []) by (intros Ex; apply HAB; by destruct A, B).
    assert (Hnc : n <> c).
    { intros Ex. apply HcAB. rewrite Permutation_app_comm, <-Ex, En. by apply hd_of_in. }
    assert (Hpc : p <> c).
    { intros Ex. apply HcAB. rewrite Permutation_app_comm, <-Ex, Ep. by apply tl_of_in. }
    set (v1 := if n =? act_ctx_head v then _ else _).
    assert (E1 : (forall y, vctx v1 y = vctx v y) /\ act_ctx_head v1 = hd_of IDXLIST_INVAL (A ++ B)
                 /\ act_ctx_tail v1 = tl_of IDXLIST_INVAL (A ++ B)).
    { rewrite Ehd, Etl. subst v1. by repeat case_match. }
    clearbody v1. destruct E1 as (Ev & Eh1 & Et1). rewrite <-(without_split A c B Hn).
    constructor; [| by apply without_nodup | by apply without_range | |]; cbv zeta.
    + rewrite without_split by done.
      match goal with |- circ _ _ _ ?h ?t _ => change h with (act_ctx_head v1); change t with (act_ctx_tail v1) end.
      rewrite Eh1, Et1. apply (circ_remove _ _ _ _ _ _ _ A c B HAB Hn Hr).
      all: change (pc_next (vctx v c)) with n; change (pc_prev (vctx v c)) with p.
      3-4: intros y Hy Hyn; assert (y <> c) by (by intros ->).
      all: ctx_cases; rewrite ?Ev; done.
    + intros y. destruct (decide (y = c)) as [->|Hy]; [rewrite act_flag_without|rewrite act_flag_without_ne by done].
      all: ctx_cases; rewrite ?Ev, ?Hfl; try congruence.
      all: by rewrite flag_inactive_act.
    + intros y Hy. destruct (Hi y Hy). ctx_cases; rewrite ?Ev; split; congruence.
Qed.

Lemma rotate_ctxs_act vm v x l : vm_act vm v (x :: l) -> vm_act vm (rotate_ctxs v) (l ++ [x]).
Proof.
  intros [Hr Hn Hg Hfl Hi]. constructor.
  - exact (circ_rotate _ _ _ _ _ _ _ Hr).
  - rewrite Permutation_app_comm. exact Hn.
  - rewrite Permutation_app_comm. exact Hg.
  - intros c. rewrite (act_flag_equiv c _ (x :: l)); [apply Hfl|]. rewrite Permutation_app_comm. done.
  - exact Hi.
Qed.

(** ** VMs *)

Section Vms.
Context {Q : Type}.
Implicit Type q : appq Q.

Lemma pvm_upd v f q x : pvm (upd_vm v f q) x = if decide (x = v) then f (pvm q v) else pvm q x.
Proof.
  unfold pvm, upd_vm. cbn. case_decide; [subst; by rewrite lookup_total_insert_eq|].
  by rewrite lookup_total_insert_ne.
Qed.

Lemma pvm_head q h x : pvm (q <| act_head := h |>) x = pvm q x.
Proof. done. Qed.
Lemma pvm_tail q t x : pvm (q <| act_tail := t |>) x = pvm q x.
Proof. done. Qed.

(** The rings of all VMs are consistent: [vms] are the active VMs, [cs v] the active
    contexts of [v]. *)
Record rings_ok q (vms : list Z) (cs : Z -> list Z) : Prop := mk_rings_ok {
  rk_ring : circ IDXLIST_INVAL (fun v => pv_next (pvm q v)) (fun v => pv_prev (pvm q v))
              (act_head q) (act_tail q) vms;
  rk_nodup : NoDup vms;
  rk_range : Forall (fun v => 0 <= v < FLEXNIC_PL_VMST_NUM) vms;
  rk_flags : forall v, pv_flags (pvm q v) = act_flag v vms;
  rk_ids : forall v, 0 <= v < FLEXNIC_PL_VMST_NUM -> pv_id (pvm q v) = v;
  rk_ctxs : forall v, 0 <= v < FLEXNIC_PL_VMST_NUM -> vm_act v (pvm q v) (cs v) }.

(** A VM is in the ring exactly when it has an active context. *)
Record active_ok q (vms : list Z) (cs : Z -> list Z) : Prop := mk_active_ok {
  ac_rings : rings_ok q vms cs;
  ac_used : forall v, 0 <= v < FLEXNIC_PL_VMST_NUM -> v ∈ vms <-> cs v <> [] }.

Lemma rk_no_inval q vms cs : rings_ok q vms cs -> IDXLIST_INVAL ∉ vms.
Proof. intros H. eapply range_not_inval; [|exact (rk_range _ _ _ H)]. done. Qed.

(** What the changes of the rings leave alone. *)
Definition ring_frame q q' : Prop :=
  aq_world q' = aq_world q /\ aq_ctxs q' = aq_ctxs q /\ aq_reg q' = aq_reg q /\ aq_woken q' = aq_woken q
  /\ poll_next_vm q' = poll_next_vm q /\ poll_rounds q' = poll_rounds q
  /\ forall v, poll_next_ctx (pvm q' v) = poll_next_ctx (pvm q v).

#[export] Instance ring_frame_preorder : PreOrder ring_frame.
Proof.
  split; [by repeat split|]. intros x y z (?&?&?&?&?&?&Hx) (?&?&?&?&?&?&Hy).
  unfold ring_frame. split_and!; congruence.
Qed.

Lemma ring_frame_upd v f q q' : (forall x, poll_next_ctx (f x) = poll_next_ctx x) ->
  ring_frame q q' -> ring_frame q (upd_vm v f q').
Proof.
  intros Hf H. etransitivity; [exact H|]. split_and!; try done. intros x. rewrite pvm_upd. case_decide; [by subst|done].
Qed.

Lemma ring_frame_head h q q' : ring_frame q q' -> ring_frame q (q' <| act_head := h |>).
Proof. intros H. etransitivity; [exact H|]. by repeat split. Qed.
Lemma ring_frame_tail t q q' : ring_frame q q' -> ring_frame q (q' <| act_tail := t |>).
Proof. intros H. etransitivity; [exact H|]. by repeat split. Qed.

Ltac frame_step := first [done|apply ring_frame_upd; [done|]|apply ring_frame_head|apply ring_frame_tail].

Lemma enqueue_vm_frame v q : ring_frame q (enqueue_vm_to_active v q).
Proof. unfold enqueue_vm_to_active. case_match; repeat frame_step. Qed.

Lemma remove_vm_frame v q : ring_frame q (remove_vm_from_active v q).
Proof.
  unfold remove_vm_from_active. destruct (_ =? act_head q); [by repeat frame_step|].
  cbv zeta. repeat (apply ring_frame_upd; [done|]). repeat case_match; repeat frame_step.
Qed.

(** Only the contexts of one VM change. *)
Lemma rings_ok_upd q vms cs v f l' : rings_ok q vms cs ->
  (forall x, pv_next (f x) = pv_next x /\ pv_prev (f x) = pv_prev x /\ pv_flags (f x) = pv_flags x
             /\ pv_id (f x) = pv_id x) ->
  vm_act v (f (pvm q v)) l' ->
  rings_ok (upd_vm v f q) vms (fun x => if decide (x = v) then l' else cs x).
Proof.
  intros [Hr Hn Hg Hfl Hi Hc] Hf Hv.
  assert (E : forall x, pv_next (pvm (upd_vm v f q) x) = pv_next (pvm q x)
    /\ pv_prev (pvm (upd_vm v f q) x) = pv_prev (pvm q x)
    /\ pv_flags (pvm (upd_vm v f q) x) = pv_flags (pvm q x)
    /\ pv_id (pvm (upd_vm v f q) x) = pv_id (pvm q x)).
  { intros x. rewrite pvm_upd. case_decide; [subst; apply Hf|done]. }
  constructor; [|done|done| | |].
  - eapply circ_ext; [|exact Hr]. intros x _. cbn. destruct (E x) as (-> & -> & _). done.
  - intros x. destruct (E x) as (_ & _ & -> & _). apply Hfl.
  - intros x Hx. destruct (E x) as (_ & _ & _ & ->). by apply Hi.
  - intros x Hx. rewrite pvm_upd. case_decide; [by subst|by apply Hc].
Qed.

Lemma rings_ok_ext q vms cs cs' : rings_ok q vms cs ->
  (forall v, 0 <= v < FLEXNIC_PL_VMST_NUM -> cs' v = cs v) -> rings_ok q vms cs'.
Proof. intros [Hr Hn Hg Hfl Hi Hc] He. constructor; try done. intros v Hv. rewrite He by done. by apply Hc. Qed.

Lemma rings_ok_same q q' vms cs : polled_vms q' = polled_vms q -> act_head q' = act_head q ->
  act_tail q' = act_tail q -> rings_ok q vms cs -> rings_ok q' vms cs.
Proof.
  intros E1 E2 E3 [Hr Hn Hg Hfl Hi Hc]. unfold pvm in *.
  constructor; unfold pvm; rewrite ?E1, ?E2, ?E3; done.
Qed.

Lemma active_ok_ext q vms cs cs' : active_ok q vms cs ->
  (forall v, 0 <= v < FLEXNIC_PL_VMST_NUM -> cs' v = cs v) -> active_ok q vms cs'.
Proof.
  intros [Hk Hu] He. split; [by apply (rings_ok_ext q vms cs)|]. intros v Hv. rewrite He by done. by apply Hu.
Qed.

(** A field of a context outside of the rings. *)
Lemma rings_ok_pctx q vms cs v c f : rings_ok q vms cs -> 0 <= v < FLEXNIC_PL_VMST_NUM ->
  (forall p, pc_next (f p) = pc_next p /\ pc_prev (f p) = pc_prev p /\ pc_flags (f p) = pc_flags p
             /\ pc_id (f p) = pc_id p /\ pc_vmid (f p) = pc_vmid p) ->
  rings_ok (upd_pctx v c f q) vms cs.
Proof.
  intros Hk Hv Hf. eapply rings_ok_ext; [apply (rings_ok_upd q vms cs v (upd_pc c f) (cs v) Hk); [done|]|].
  - apply vm_act_upd; [done|]. by apply (rk_ctxs _ _ _ Hk).
  - intros x Hx. cbn. by case_decide; [subst|].
Qed.

(** Changing the links and the flag of a VM keeps its contexts. *)
Lemma vm_act_links vm v l n p fl :
  vm_act vm v l -> vm_act vm (v <| pv_next := n |> <| pv_prev := p |> <| pv_flags := fl |>) l.
Proof. by apply vm_act_same. Qed.

Ltac vm_cases := repeat first [rewrite pvm_tail|rewrite pvm_head|rewrite pvm_upd];
  repeat (case_decide; [try (exfalso; congruence)|try (exfalso; congruence)]);
  cbn -[pvm upd_vm]; try done; try congruence.

Lemma enqueue_vm_ok q vms cs v : rings_ok q vms cs -> 0 <= v < FLEXNIC_PL_VMST_NUM -> v ∉ vms ->
  rings_ok (enqueue_vm_to_active v q) (vms ++ [v]) cs.
Proof.
  intros H Hv Hnin. pose proof (rk_no_inval _ _ _ H) as Hinv. destruct H as [Hr Hn Hg Hfl Hi Hc].
  pose proof (circ_tail_nil _ _ _ _ _ _ Hinv Hr) as Htn. pose proof Hr as [Eh Et _].
  assert (Hnd : NoDup (vms ++ [v])) by by apply nodup_snoc.
  assert (Hrg : Forall (fun x => 0 <= x < FLEXNIC_PL_VMST_NUM) (vms ++ [v])).
  { apply Forall_app. split; [done|]. by apply Forall_singleton. }
  assert (Hff : forall x, x <> v -> act_flag x (vms ++ [v]) = act_flag x vms).
  { intros x Hx. apply act_flag_equiv. rewrite elem_of_app, list_elem_of_singleton. tauto. }
  assert (Hfc : act_flag v (vms ++ [v]) = FLAG_ACTIVE).
  { apply act_flag_in, elem_of_app. right. by apply list_elem_of_singleton. }
  unfold enqueue_vm_to_active. destruct (Z.eqb_spec (act_tail q) IDXLIST_INVAL) as [E|E].
  - apply Htn in E as ->. constructor; [|done|done| | |].
    + apply circ_push_first; vm_cases.
    + intros x. destruct (decide (x = v)) as [->|Hx]; [rewrite Hfc|rewrite Hff by done]; vm_cases.
      all: first [exact (Hfl _) | exact (eq_trans (f_equal flag_active (Hfl _)) (flag_active_act _ _))].
    + intros x Hx. pose proof (Hi x Hx). vm_cases.
    + intros x Hx. apply (vm_act_same _ (pvm q x)); [vm_cases|vm_cases|vm_cases|by apply Hc].
  - assert (Hne : vms <> []) by (intros ->; by apply E, Htn).
    assert (Htc : act_tail q <> v) by (rewrite Et; intros <-; by apply Hnin, tl_of_in).
    assert (Hhc : act_head q <> v) by (rewrite Eh; intros <-; by apply Hnin, hd_of_in).
    constructor; [|done|done| | |]; cbv zeta.
    + match goal with |- circ _ _ _ ?h _ _ => change h with (act_head q) end.
      apply (circ_push IDXLIST_INVAL (fun c => pv_next (pvm q c)) (fun c => pv_prev (pvm q c)) _ _ _
        (act_tail q)); [done..|vm_cases|vm_cases|vm_cases|vm_cases| |].
      all: intros y Hy Hyt; assert (y <> v) by (by intros ->); vm_cases.
    + intros x. destruct (decide (x = v)) as [->|Hx]; [rewrite Hfc|rewrite Hff by done]; vm_cases.
      all: first [exact (Hfl _) | exact (eq_trans (f_equal flag_active (Hfl _)) (flag_active_act _ _))
                 | rewrite Hfl; congruence].
    + intros x Hx. pose proof (Hi x Hx). vm_cases.
    + intros x Hx. apply (vm_act_same _ (pvm q x)); [vm_cases|vm_cases|vm_cases|by apply Hc].
Qed.

Lemma remove_vm_ok q vms cs v : rings_ok q vms cs -> v ∈ vms ->
  rings_ok (remove_vm_from_active v q) (without v vms) cs.
Proof.
  intros [Hr Hn Hg Hfl Hi Hcs] Hv. assert (Hne : vms <> []) by (intros ->; by apply elem_of_nil in Hv).
  unfold remove_vm_from_active. destruct (Z.eqb_spec (act_tail q) (act_head q)) as [E|E].
  - destruct (ring_one _ _ _ _ _ _ Hn Hne Hr (eq_sym E)) as [x ->]. apply list_elem_of_singleton in Hv as ->.
    assert (Ew : without x [x] = []) by (apply (without_split [] x []); done). rewrite Ew.
    constructor; [apply circ_nil|by apply NoDup_nil_2|by apply Forall_nil| | |].
    + intros y. rewrite act_flag_out by by intros ?%elem_of_nil. vm_cases.
      * exact (eq_trans (f_equal flag_inactive (Hfl _)) (flag_inactive_act _ _)).
      * refine (eq_trans (Hfl _) _). apply act_flag_out. by rewrite list_elem_of_singleton.
    + intros y Hy. pose proof (Hi y Hy). vm_cases.
    + intros y Hy. apply (vm_act_same _ (pvm q y)); [vm_cases|vm_cases|vm_cases|by apply Hcs].
  - apply list_elem_of_split in Hv as (A & B & ->).
    assert (HAB : A ++ B <> []).
    { intros Ea. destruct A; [|done]. cbn in Ea. subst B. apply E. by destruct Hr as [-> -> _]. }
    destruct (circ_neighbours _ _ _ _ _ _ _ _ HAB Hr) as (En & Ep & _).
    destruct (circ_remove_ends _ _ _ _ _ _ _ _ HAB Hn Hr) as [Ehd Etl].
    set (n := pv_next (pvm q v)) in *. set (p := pv_prev (pvm q v)) in *.
    assert (HcAB : v ∉ A ++ B) by (rewrite <-(without_split A v B Hn), elem_of_without; tauto).
    assert (HBA : B ++ A <> []) by (intros Ex; apply HAB; by destruct A, B).
    assert (Hnc : n <> v).
    { intros Ex. apply HcAB. rewrite Permutation_app_comm, <-Ex, En. by apply hd_of_in. }
    assert (Hpc : p <> v).
    { intros Ex. apply HcAB. rewrite Permutation_app_comm, <-Ex, Ep. by apply tl_of_in. }
    set (q1 := if n =? act_head q then _ else _).
    assert (E1 : (forall y, pvm q1 y = pvm q y) /\ act_head q1 = hd_of IDXLIST_INVAL (A ++ B)
                 /\ act_tail q1 = tl_of IDXLIST_INVAL (A ++ B)).
    { rewrite Ehd, Etl. subst q1. by repeat case_match. }
    clearbody q1. destruct E1 as (Ev & Eh1 & Et1).
    constructor; [| by apply without_nodup | by apply without_range | | |]; cbv zeta.
    + rewrite without_split by done.
      match goal with |- circ _ _ _ ?h ?t _ => change h with (act_head q1); change t with (act_tail q1) end.
      rewrite Eh1, Et1. apply (circ_remove _ _ _ _ _ _ _ A v B HAB Hn Hr).
      all: change (pv_next (pvm q v)) with n; change (pv_prev (pvm q v)) with p.
      3-4: intros y Hy Hyn; assert (y <> v) by (by intros ->).
      all: vm_cases; rewrite ?Ev; done.
    + intros y. destruct (decide (y = v)) as [->|Hy]; [rewrite act_flag_without|rewrite act_flag_without_ne by done].
      all: vm_cases; rewrite ?Ev, ?Hfl; try congruence.
      all: by rewrite flag_inactive_act.
    + intros y Hy. pose proof (Hi y Hy). vm_cases; rewrite ?Ev; congruence.
    + intros y Hy. apply (vm_act_same _ (pvm q y)); [vm_cases; rewrite ?Ev; congruence..|by apply Hcs].
Qed.

(** The step of the round. *)
Definition rotate_vms q : appq Q :=
  q <| act_head := pv_next (pvm q (act_head q)) |> <| act_tail := pv_next (pvm q (act_tail q)) |>.

Lemma rotate_vms_ok q v vms cs : rings_ok q (v :: vms) cs -> rings_ok (rotate_vms q) (vms ++ [v]) cs.
Proof.
  intros [Hr Hn Hg Hfl Hi Hc]. constructor.
  - exact (circ_rotate _ _ _ _ _ _ _ Hr).
  - rewrite Permutation_app_comm. exact Hn.
  - rewrite Permutation_app_comm. exact Hg.
  - intros c. rewrite (act_flag_equiv c _ (v :: vms)); [apply Hfl|]. rewrite Permutation_app_comm. done.
  - exact Hi.
  - exact Hc.
Qed.

(** ** Idle contexts *)

(** The active contexts that are not in [rem]. *)
Definition cs_without (rem : list (Z * Z)) (cs : Z -> list Z) (v : Z) : list Z :=
  filter (fun c => (v, c) ∉ rem) (cs v).

Definition vms_without (rem : list (Z * Z)) (cs : Z -> list Z) (vms : list Z) : list Z :=
  filter (fun v => cs_without rem cs v <> []) vms.

Lemma cs_without_cons v c rem cs x :
  cs_without ((v, c) :: rem) cs x = cs_without rem (fun y => if decide (y = v) then without c (cs v) else cs y) x.
Proof.
  unfold cs_without, without. case_decide as E; [subst x|].
  - rewrite list_filter_filter. apply list_filter_iff. intros y. rewrite not_elem_of_cons. naive_solver.
  - apply list_filter_iff. intros y. rewrite not_elem_of_cons. naive_solver.
Qed.

Lemma remove_ctxs_ok rem q vms cs : active_ok q vms cs -> NoDup rem ->
  Forall (fun r => 0 <= r.1 < FLEXNIC_PL_VMST_NUM /\ r.2 ∈ cs r.1) rem ->
  active_ok (remove_ctxs_from_active rem q) (vms_without rem cs vms) (cs_without rem cs)
  /\ ring_frame q (remove_ctxs_from_active rem q).
Proof.
  revert q vms cs. induction rem as [|[v c] rem IH]; intros q vms cs Hac Hnd Hin.
  { cbn. split; [|done]. destruct Hac as [Hk Hu].
    assert (Ec : forall v, cs_without [] cs v = cs v).
    { intros v. unfold cs_without. apply without_all. intros x _. by apply not_elem_of_nil. }
    assert (Ev : vms_without [] cs vms = vms).
    { unfold vms_without. apply without_all. intros x Hx. rewrite Ec. apply Hu; [|done].
      pose proof (rk_range _ _ _ Hk) as Hr. rewrite Forall_forall in Hr. by apply Hr. }
    rewrite Ev. split.
    - destruct Hk as [K1 K2 K3 K4 K5 K6]. constructor; try done. intros v Hv. rewrite Ec. by apply K6.
    - intros v Hv. rewrite Ec. by apply Hu. }
  apply NoDup_cons in Hnd as [Hnin Hnd]. apply Forall_cons in Hin as [[Hv Hc] Hin]. cbn [fst snd] in *.
  destruct Hac as [Hk Hu]. pose proof (rk_ctxs _ _ _ Hk v Hv) as Hva.
  assert (Hcr : 0 <= c < FLEXNIC_PL_APPCTX_NUM).
  { pose proof (va_range _ _ _ Hva) as Hr. rewrite Forall_forall in Hr. by apply Hr. }
  cbn [remove_ctxs_from_active]. destruct (va_ids _ _ _ Hva c Hcr) as [E1 E2].
  change (pctx q v c) with (vctx (pvm q v) c). rewrite E1, E2. cbv zeta.
  set (cs1 := fun y => if decide (y = v) then without c (cs v) else cs y).
  set (q1 := upd_vm v (remove_ctx_from_active c) q).
  assert (Hk1 : rings_ok q1 vms cs1).
  { apply rings_ok_upd; [done| |by apply remove_ctx_act]. intros x. unfold remove_ctx_from_active.
    by repeat case_match. }
  assert (Hf1 : ring_frame q q1).
  { apply ring_frame_upd; [|done]. intros x. unfold remove_ctx_from_active. by repeat case_match. }
  pose proof (rk_ctxs _ _ _ Hk1 v Hv) as Hva1.
  assert (Hvin : v ∈ vms) by (apply Hu; [done|]; intros Ex; rewrite Ex in Hc; by apply elem_of_nil in Hc).
  assert (Hnext : forall q2 vms2, active_ok q2 vms2 cs1 -> ring_frame q q2 ->
    filter (fun x => cs1 x <> []) vms = vms2 ->
    active_ok (remove_ctxs_from_active rem q2) (vms_without ((v, c) :: rem) cs vms) (cs_without ((v, c) :: rem) cs)
    /\ ring_frame q (remove_ctxs_from_active rem q2)).
  { intros q2 vms2 Ha2 Hf2 Ev2.
    destruct (IH q2 vms2 cs1 Ha2 Hnd) as [Hok Hfr].
    { rewrite Forall_forall in Hin |- *. intros [v' c'] Hvc. destruct (Hin _ Hvc) as [H1 H2]. split; [done|].
      cbn [fst snd] in *. subst cs1. cbn. case_decide as E; [|done]. subst v'. apply elem_of_without. split; [done|].
      by intros ->. }
    split; [|by etransitivity].
    assert (Eq : vms_without rem cs1 vms2 = vms_without ((v, c) :: rem) cs vms).
    { unfold vms_without. rewrite <-Ev2, list_filter_filter. apply list_filter_iff. intros x.
      rewrite cs_without_cons. fold cs1. split; [by intros [? ?]|]. intros Hx. split; [done|]. intros Ex.
      apply Hx. unfold cs_without. by rewrite Ex. }
    rewrite <-Eq. destruct Hok as [[K1 K2 K3 K4 K5 K6] Ku].
    split; [constructor; try done|]; intros x Hx; rewrite cs_without_cons; [by apply K6|by apply Ku]. }
  pose proof (circ_head_nil _ _ _ _ _ _ (va_no_inval _ _ _ Hva1) (va_ring _ _ _ Hva1)) as Hhn.
  assert (Hcs1 : forall x, x <> v -> cs1 x = cs x) by (intros x Hx; subst cs1; cbn; by rewrite decide_False).
  destruct (Z.eqb_spec (act_ctx_head (pvm q1 v)) IDXLIST_INVAL) as [E|E].
  - apply Hhn in E. apply (Hnext _ (without v vms)).
    + split; [by apply remove_vm_ok|]. intros x Hx. rewrite elem_of_without. rewrite (Hu x Hx).
      destruct (decide (x = v)) as [->|Hxv]; [rewrite E; tauto|rewrite Hcs1 by done; tauto].
    + etransitivity; [exact Hf1|apply remove_vm_frame].
    + unfold without. apply list_filter_iff'. intros x Hx.
      assert (Hxr : 0 <= x < FLEXNIC_PL_VMST_NUM).
      { pose proof (rk_range _ _ _ Hk) as Hr. rewrite Forall_forall in Hr. by apply Hr. }
      destruct (decide (x = v)) as [->|Hxv]; [rewrite E; tauto|rewrite Hcs1 by done]. split; [done|]. intros _.
      by apply (Hu x Hxr).
  - assert (Hne : cs1 v <> []) by (intros Ex; by apply E, Hhn). apply (Hnext _ vms).
    + split; [done|]. intros x Hx. destruct (decide (x = v)) as [->|Hxv]; [tauto|].
      rewrite Hcs1 by done. by apply Hu.
    + done.
    + apply without_all. intros x Hx.
      assert (Hxr : 0 <= x < FLEXNIC_PL_VMST_NUM).
      { pose proof (rk_range _ _ _ Hk) as Hr. rewrite Forall_forall in Hr. by apply Hr. }
      destruct (decide (x = v)) as [->|Hxv]; [done|]. rewrite Hcs1 by done. by apply (Hu x Hxr).
Qed.
End Vms.

(** * Fetching the updates of the applications

    [polling] relates a core to the updates that were pending at the start of a round:
    the entries fetched so far are, for every context, the first ones of its ring, in
    order.  Every loop of fast_appctx.c keeps it. *)

Section Fetch.
Context (E : fpenv) {Q : Type} `{QmanOps Q}.
Implicit Type q : appq Q.

(** What the rings are at the start: number of entries (0 when not in use), index of the
    first used one and pending updates. *)
Context (n t : Z * Z -> Z) (L : Z * Z -> list atx).

Definition entry_ok (e : atx) : Prop :=
  atx_type e = FLEXTCP_PL_ATX_CONNUPDATE /\ 0 <= atx_flow_id e < FLEXNIC_PL_FLOWST_NUM.

(** The ring of context [vc], of which [k] entries have been fetched. *)
Record tx_ring (ax : appctx) (vc : Z * Z) (k : nat) : Prop := mk_tx_ring {
  tr_len : ax_tx_len ax = 16 * n vc;
  tr_size : n vc = 0 \/ BATCH_SIZE <= n vc < 134217728;
  tr_unused : n vc = 0 -> L vc = [];
  tr_first : 0 < n vc -> 0 <= t vc < n vc;
  tr_fetched : (k <= length (L vc))%nat;
  tr_count : Z.of_nat (length (L vc)) <= n vc;
  tr_head : 0 < n vc -> ax_tx_head ax = slot 16 (n vc) (t vc) (Z.of_nat k);
  tr_entries : forall i e, L vc !! i = Some e -> ax_tx ax !!! slot 16 (n vc) (t vc) (Z.of_nat i) = e;
  tr_free : forall i, Z.of_nat (length (L vc)) <= i < n vc -> atx_type (ax_tx ax !!! slot 16 (n vc) (t vc) i) = 0;
  tr_ok : Forall entry_ok (L vc) }.

(** The first [k] entries of a context. *)
Definition handles (vc : Z * Z) (k : nat) : list aqe :=
  (fun i => mk_aqe vc.1 vc.2 (slot 16 (n vc) (t vc) i)) <$> seqZ 0 (Z.of_nat k).

Definition fetched (aqes : list aqe) (vc : Z * Z) : list aqe :=
  filter (fun a => (ae_vm a, ae_ctx a) = vc) aqes.

(** The budget counters of a core aside, nothing changes. *)
Definition same_but_counters (w w' : world Q) : Prop :=
  exists cnts total, w' = w <| w_ctx ::= fun x => x <| vm_counters := cnts |> <| counters_total := total |> |>.

Context (q0 : appq Q).

Record polling (q : appq Q) (aqes : list aqe) : Prop := mk_polling {
  pl_ring : forall vc, exists k, tx_ring (aq_ctxs q !!! vc) vc k /\ fetched aqes vc = handles vc k;
  pl_rest : forall vc, ax_rx (aq_ctxs q !!! vc) = ax_rx (aq_ctxs q0 !!! vc) ;
  pl_reg : aq_reg q = aq_reg q0;
  pl_world : same_but_counters (aq_world q0) (aq_world q);
  pl_woken : aq_woken q = aq_woken q0 }.

Lemma same_but_refl w : same_but_counters w w.
Proof. exists (vm_counters (w_ctx w)), (counters_total (w_ctx w)). by destruct w as [? ? ? ? [] ? ?]. Qed.

Lemma same_but_spend w w' vm x : same_but_counters w w' -> same_but_counters w (spend_bytes vm x w').
Proof. intros (c & m & ->). eexists _, _. reflexivity. Qed.

(** Changes outside of the rings of entries. *)
Lemma polling_frame q q' aqes : aq_ctxs q' = aq_ctxs q -> aq_reg q' = aq_reg q -> aq_world q' = aq_world q ->
  aq_woken q' = aq_woken q -> polling q aqes -> polling q' aqes.
Proof.
  intros E1 E2 E3 E4 [H1 H2 H3 H4 H5]. constructor; rewrite ?E1, ?E2, ?E3, ?E4; done.
Qed.

Lemma fetched_snoc aqes a vc : fetched (aqes ++ [a]) vc =
  if decide ((ae_vm a, ae_ctx a) = vc) then fetched aqes vc ++ [a] else fetched aqes vc.
Proof.
  unfold fetched. rewrite filter_app. case_decide as Hd; [by rewrite (filter_cons_True _ _ []) by done|].
  by rewrite filter_cons_False, app_nil_r by done.
Qed.

Lemma fetched_le aqes vc : (length (fetched aqes vc) <= length aqes)%nat.
Proof. apply length_filter. Qed.

Lemma handles_len vc k : length (handles vc k) = k.
Proof. unfold handles. rewrite length_fmap, length_seqZ. lia. Qed.

Lemma handles_S vc k : handles vc (S k) = handles vc k ++ [mk_aqe vc.1 vc.2 (slot 16 (n vc) (t vc) (Z.of_nat k))].
Proof.
  unfold handles. rewrite Nat2Z.inj_succ, <-Z.add_1_r, seqZ_app by lia. rewrite fmap_app. cbn. done.
Qed.

Lemma aq_ctxs_upd vm c f q vc : aq_ctxs (upd_ax vm c f q) !!! vc
  = if decide (vc = (vm, c)) then f (aq_ctxs q !!! (vm, c)) else aq_ctxs q !!! vc.
Proof.
  unfold upd_ax. cbn. case_decide as Hd; [subst vc; by rewrite lookup_total_insert_eq|].
  by rewrite lookup_total_insert_ne.
Qed.

(** What a fetch leaves alone. *)
Definition fetch_frame q q' : Prop :=
  polled_vms q' = polled_vms q /\ act_head q' = act_head q /\ act_tail q' = act_tail q
  /\ poll_next_vm q' = poll_next_vm q /\ poll_rounds q' = poll_rounds q.

(** A fetch takes the oldest pending update of the context, if there is one. *)
Lemma fast_appctx_poll_fetch_ok vm c spend q aqes : polling q aqes -> (length aqes < Z.to_nat BATCH_SIZE)%nat ->
  exists r q', fast_appctx_poll_fetch vm c spend q = Some (r, q') /\ fetch_frame q q'
  /\ match r with
     | Some a => polling q' (aqes ++ [a])
     | None => q' = q /\ fetched aqes (vm, c) = handles (vm, c) (length (L (vm, c)))
     end.
Proof.
  intros Hp Hl. destruct (pl_ring _ _ Hp (vm, c)) as (k & Hr & Hf). pose proof Hr as [Hlen Hsz Hun Hfi Hk Hc Hh He Hfr Hok].
  unfold fast_appctx_poll_fetch, axctx. rewrite Hlen.
  assert (Hkn : (k <= length aqes)%nat).
  { pose proof (fetched_le aqes (vm, c)) as Hx. by rewrite Hf, handles_len in Hx. }
  destruct Hsz as [E0|Hsz].
  { rewrite E0. exists None, q. split; [done|]. split; [done|]. split; [done|]. rewrite Hf. f_equal.
    rewrite (Hun E0) in Hk |- *. cbn in *. lia. }
  rewrite (proj2 (Z.eqb_neq (16 * n (vm, c)) 0)) by (unfold BATCH_SIZE in *; lia).
  specialize (Hh ltac:(unfold BATCH_SIZE in *; lia)). rewrite Hh.
  destruct (decide (k = length (L (vm, c)))) as [->|Hne].
  - rewrite Hfr by (unfold BATCH_SIZE in *; lia). exists None, q. done.
  - destruct (lookup_lt_is_Some_2 (L (vm, c)) k) as [e Hek]; [lia|]. rewrite (He _ _ Hek).
    pose proof (proj1 (Forall_lookup _ _) Hok _ _ Hek) as [Ht Hfid]. rewrite Ht. change (FLEXTCP_PL_ATX_CONNUPDATE =? 0) with false.
    rewrite Z.eqb_refl, (proj2 (Z.ltb_lt (atx_flow_id e) _)) by lia. cbn [cassert mbind option_bind].
    set (q1 := upd_ax vm c _ q). eexists _, _. split; [done|].
    assert (Hp1 : polling q1 (aqes ++ [mk_aqe vm c (slot 16 (n (vm, c)) (t (vm, c)) (Z.of_nat k))])).
    { constructor; [| |exact (pl_reg _ _ Hp)|exact (pl_world _ _ Hp)|exact (pl_woken _ _ Hp)].
      - intros vc. unfold q1. rewrite aq_ctxs_upd, fetched_snoc. cbn [ae_vm ae_ctx]. case_decide as Hd.
        + subst vc. rewrite decide_True by done. exists (S k). rewrite Hf, handles_S. split; [|done].
          constructor; cbn [ax_tx_len ax_tx ax_tx_head setf]; try done; [by right|lia|].
          intros Hpos. rewrite Hlen. change sizeof_atx with 16.
          assert (0 <= slot 16 (n (vm, c)) (t (vm, c)) (Z.of_nat k) < 16 * n (vm, c)).
          { unfold slot. pose proof (Z.mod_pos_bound (t (vm, c) + Z.of_nat k) (n (vm, c)) ltac:(lia)). lia. }
          rewrite ring_wrap_adv, slot_adv by lia. f_equal. lia.
        + rewrite decide_False by congruence. apply (pl_ring _ _ Hp).
      - intros vc. unfold q1. rewrite aq_ctxs_upd. case_decide as Hd; [|by apply (pl_rest _ _ Hp)].
        subst vc. cbn [ax_rx setf]. apply (pl_rest _ _ Hp). }
    destruct spend; [|done]. split; [done|].
    destruct Hp1 as [H1 H2 H3 H4 H5]. constructor; try done. by apply same_but_spend.
Qed.

End Fetch.

(** * Polling the active contexts

    A round over the active VMs and contexts returns, keeps the rings of active ones and
    fetches updates in order; the contexts reported as idle are distinct active ones. *)

Section Round.
Context (E : fpenv) {Q : Type} `{QmanOps Q}.
Implicit Type q : appq Q.
Context (n t : Z * Z -> Z) (L : Z * Z -> list atx) (q0 : appq Q).
Abbreviation polling := (polling n t L q0).
Context (max : Z).
Hypothesis Hmax : 0 <= max <= BATCH_SIZE.

(** The active contexts of VMs. *)
Definition flat (cs : Z -> list Z) (vms : list Z) : list (Z * Z) := vms ≫= fun v => (v,.) <$> cs v.

Lemma flat_app cs l1 l2 : flat cs (l1 ++ l2) = flat cs l1 ++ flat cs l2.
Proof. apply bind_app. Qed.

Lemma elem_of_flat cs vms v c : (v, c) ∈ flat cs vms <-> v ∈ vms /\ c ∈ cs v.
Proof.
  unfold flat. rewrite list_elem_of_bind. split.
  - intros (v' & Hc & Hv). apply list_elem_of_fmap in Hc as (c' & [= <- <-] & Hc). done.
  - intros [Hv Hc]. exists v. split; [|done]. apply list_elem_of_fmap. by exists c.
Qed.

Lemma flat_nodup cs vms : NoDup vms -> (forall v, v ∈ vms -> NoDup (cs v)) -> NoDup (flat cs vms).
Proof.
  induction vms as [|v vms IH]; intros Hn Hc; [by apply NoDup_nil_2|]. apply NoDup_cons in Hn as [Hv Hn].
  change (flat cs (v :: vms)) with (((v,.) <$> cs v) ++ flat cs vms). apply NoDup_app. split_and!.
  - apply NoDup_fmap_2; [by intros ? ? [=]|]. apply Hc, list_elem_of_here.
  - intros [x y] Hx Hy. apply list_elem_of_fmap in Hx as (? & [= <- <-] & _). apply elem_of_flat in Hy as [? _]. done.
  - apply IH; [done|]. intros x Hx. by apply Hc, list_elem_of_further.
Qed.

(** The result of polling a context: [rem] gets it or not. *)
Record ctx_polled (vm cid : Z) (vms : list Z) (cs : Z -> list Z) (aqes' : list aqe)
    (rem rem' : list (Z * Z)) q' : Prop := mk_ctx_polled {
  cpd_poll : polling q' aqes';
  cpd_rings : rings_ok q' vms cs;
  cpd_count : Z.of_nat (length aqes') <= max;
  cpd_rem : rem' = rem \/ rem' = rem ++ [(vm, cid)] }.

Lemma fetch_rings q q' vms cs : fetch_frame q q' -> rings_ok q vms cs -> rings_ok q' vms cs.
Proof. intros (E1 & E2 & E3 & _). by apply rings_ok_same. Qed.

Lemma fetch_active_ctx_loop_ok m vm cid spend aqes rem q vms cs : 
  polling q aqes -> rings_ok q vms cs -> 0 <= vm < FLEXNIC_PL_VMST_NUM -> cid ∈ cs vm ->
  Z.of_nat (length aqes) <= max -> Z.of_nat (length rem) < BATCH_SIZE ->
  exists aqes' rem' q', fetch_active_ctx_loop m vm cid max spend aqes rem q = Some (aqes', rem', q')
  /\ ctx_polled vm cid vms cs aqes' rem rem' q'.
Proof.
  revert aqes q. induction m as [|m IH]; intros aqes q Hp Hk Hv Hc Hl Hrem; cbn [fetch_active_ctx_loop].
  { exists aqes, rem, q. split; [done|]. by constructor; try left. }
  destruct (Z.leb_spec max (Z.of_nat (length aqes))) as [Hfull|Hroom].
  { exists aqes, rem, q. split; [done|]. by constructor; try left. }
  pose proof (rk_ctxs _ _ _ Hk vm Hv) as Hva.
  assert (Hcr : 0 <= cid < FLEXNIC_PL_APPCTX_NUM).
  { pose proof (va_range _ _ _ Hva) as Hr. rewrite Forall_forall in Hr. by apply Hr. }
  destruct (va_ids _ _ _ Hva cid Hcr) as [E1 E2]. change (pctx q vm cid) with (vctx (pvm q vm) cid). rewrite E1, E2.
  destruct (fast_appctx_poll_fetch_ok n t L q0 vm cid spend q aqes Hp ltac:(unfold BATCH_SIZE in *; lia))
    as (r & q1 & Er & Hf & Hr). rewrite Er. cbn [mbind option_bind]. destruct r as [a|].
  - apply IH; [by apply (polling_frame _ _ _ _ q1)| |done|done|rewrite length_app; cbn [length]; lia|done].
    apply rings_ok_pctx; [by eapply fetch_rings|done|done].
  - destruct Hr as [-> _]. set (q2 := upd_pctx vm cid _ q).
    assert (Hp2 : polling q2 aqes) by by apply (polling_frame _ _ _ _ q).
    assert (Hk2 : rings_ok q2 vms cs) by by apply rings_ok_pctx.
    destruct (MAX_NULL_ROUNDS <=? _).
    + rewrite (proj2 (Z.ltb_lt _ _)) by lia. cbn [cassert mbind option_bind].
      exists aqes, (rem ++ [(vm, cid)]), q2. split; [done|]. by constructor; try right.
    + exists aqes, rem, q2. split; [done|]. by constructor; try left.
Qed.

(** From a context on to the end of the ring: [B] are the contexts that follow. *)
Lemma fetch_active_vm_loop_ok B : forall fuel vm A cid spend aqes rem q vms cs,
  polling q aqes -> rings_ok q vms cs -> 0 <= vm < FLEXNIC_PL_VMST_NUM -> cs vm = A ++ cid :: B ->
  Z.of_nat (length aqes) <= max -> Z.of_nat (length rem) + Z.of_nat (length (cid :: B)) <= BATCH_SIZE ->
  (length B < fuel)%nat ->
  exists aqes' rem' q', fetch_active_vm_loop fuel vm cid max spend aqes rem q = Some (aqes', rem', q')
  /\ polling q' aqes' /\ rings_ok q' vms cs /\ Z.of_nat (length aqes') <= max
  /\ exists l, rem' = rem ++ l /\ sublist l ((vm,.) <$> (cid :: B)).
Proof.
  induction B as [|d B IH]; intros fuel vm A cid spend aqes rem q vms cs Hp Hk Hv Hcs Hl Hrem Hfuel;
    (destruct fuel as [|fuel]; [lia|]); cbn [fetch_active_vm_loop length] in *; unfold fast_appctx_poll_fetch_active_ctx.
  all: destruct (fetch_active_ctx_loop_ok (Z.to_nat BATCH_SIZE) vm cid spend aqes rem q vms cs Hp Hk Hv
        ltac:(rewrite Hcs; apply elem_of_app; right; apply list_elem_of_here) Hl ltac:(lia))
        as (aqes1 & rem1 & q1 & -> & [Hp1 Hk1 Hc1 Hr1]); cbn [mbind option_bind].
  all: pose proof (rk_ctxs _ _ _ Hk1 vm Hv) as Hva1; rewrite Hcs in Hva1.
  all: pose proof (circ_next _ _ _ _ _ _ _ _ (va_ring _ _ _ Hva1)) as Hnx; change (pctx q1 vm cid) with (vctx (pvm q1 vm) cid).
  all: pose proof (ci_head _ _ _ _ _ _ (va_ring _ _ _ Hva1)) as Hhd.
  - assert (Eh : pc_next (vctx (pvm q1 vm) cid) = act_ctx_head (pvm q1 vm)) by (rewrite Hnx, Hhd; done).
    rewrite Eh, Z.eqb_refl. cbn [negb andb]. exists aqes1, rem1, q1. split_and!; try done.
    destruct Hr1 as [->| ->]; [exists []|exists [(vm, cid)]]; (split; [by rewrite ?app_nil_r|]).
    + apply sublist_nil_l.
    + done.
  - cbn [app] in Hnx. change (hd_of IDXLIST_INVAL (d :: B ++ A ++ [cid])) with d in Hnx. rewrite Hnx.
    assert (Hl1 : Z.of_nat (length rem1) <= Z.of_nat (length rem) + 1)
      by (destruct Hr1 as [->| ->]; rewrite ?length_app; cbn [length]; lia).
    assert (Hsub : forall l, sublist l ((vm,.) <$> (d :: B)) -> exists l', rem1 ++ l = rem ++ l' /\ sublist l' ((vm,.) <$> (cid :: d :: B))).
    { intros l Hs. destruct Hr1 as [->| ->]; [exists l|exists ((vm, cid) :: l); rewrite <-app_assoc]; (split; [done|]).
      - by apply sublist_cons.
      - by apply sublist_skip. }
    destruct (negb _ && _).
    + destruct (IH fuel vm (A ++ [cid]) d spend aqes1 rem1 q1 vms cs) as (aqes2 & rem2 & q2 & -> & Hp2 & Hk2 & Hc2 & l & -> & Hs);
        try done; [by rewrite <-app_assoc|lia|lia|].
      exists aqes2, (rem1 ++ l), q2. split_and!; try done. by apply Hsub.
    + exists aqes1, rem1, q1. split_and!; try done. destruct (Hsub [] (sublist_nil_l _)) as (l' & El & Hs).
      rewrite app_nil_r in El. by exists l'.
Qed.

(** Distinct contexts are few. *)
Lemma ctx_fuel_enough vm q vms cs c B : rings_ok q vms cs -> 0 <= vm < FLEXNIC_PL_VMST_NUM -> cs vm = c :: B ->
  (length B < ctx_fuel)%nat.
Proof.
  intros Hk Hv Hcs. pose proof (rk_ctxs _ _ _ Hk vm Hv) as Hva. rewrite Hcs in Hva.
  pose proof (nodup_bound _ _ (va_nodup _ _ _ Hva) (va_range _ _ _ Hva)) as Hb. cbn [length] in Hb.
  unfold ctx_fuel, FLEXNIC_PL_APPCTX_NUM, FLEXNIC_PL_APPST_CTX_NUM in *. lia.
Qed.

Lemma fast_appctx_poll_fetch_active_vm_ok vm spend aqes rem q vms cs :
  polling q aqes -> rings_ok q vms cs -> 0 <= vm < FLEXNIC_PL_VMST_NUM -> cs vm <> [] ->
  Z.of_nat (length aqes) <= max -> Z.of_nat (length rem) + Z.of_nat (length (cs vm)) <= BATCH_SIZE ->
  exists aqes' rem' q' cs', fast_appctx_poll_fetch_active_vm vm max spend aqes rem q = Some (aqes', rem', q')
  /\ polling q' aqes' /\ rings_ok q' vms cs' /\ Z.of_nat (length aqes') <= max
  /\ (forall x, x <> vm -> cs' x = cs x) /\ cs' vm ≡ₚ cs vm
  /\ exists l, rem' = rem ++ l /\ sublist l ((vm,.) <$> cs vm).
Proof.
  intros Hp Hk Hv Hne Hl Hrem. destruct (cs vm) as [|c B] eqn:Hcs; [done|].
  pose proof (rk_ctxs _ _ _ Hk vm Hv) as Hva. rewrite Hcs in Hva.
  unfold fast_appctx_poll_fetch_active_vm. rewrite (va_head_in _ _ _ _ Hva).
  destruct (fetch_active_vm_loop_ok B ctx_fuel vm [] c spend aqes rem q vms cs) as
    (aqes1 & rem1 & q1 & -> & Hp1 & Hk1 & Hc1 & Hs); try done.
  { by apply (ctx_fuel_enough vm q vms cs c B). }
  cbn [mbind option_bind]. eexists aqes1, rem1, _, _. split; [done|].
  split; [by apply (polling_frame _ _ _ _ q1)|]. split.
  { apply (rings_ok_upd q1 vms cs vm rotate_ctxs (B ++ [c]) Hk1); [done|]. apply rotate_ctxs_act.
    rewrite <-Hcs. by apply (rk_ctxs _ _ _ Hk1). }
  split; [done|]. split; [intros x Hx; cbn; by rewrite decide_False|]. split; [|done].
  cbn. rewrite decide_True by done. rewrite Permutation_app_comm. done.
Qed.

Context (vms : list Z) (cs0 : Z -> list Z).
Hypothesis Hfew : Z.of_nat (length (flat cs0 vms)) <= BATCH_SIZE.
Hypothesis Hused : forall v, v ∈ vms -> cs0 v <> [].

(** The state of a round: [S] are the VMs whose contexts have been polled, [oob] those
    that had no budget. *)
Record round_ok (S oob : list Z) (aqes : list aqe) (rem : list (Z * Z)) (cs : Z -> list Z) q : Prop := mk_round_ok {
  ro_poll : polling q aqes;
  ro_rings : rings_ok q vms cs;
  ro_count : Z.of_nat (length aqes) <= max;
  ro_idle : sublist rem (flat cs0 S);
  ro_new : forall v, v ∉ S -> cs v = cs0 v;
  ro_perm : forall v, cs v ≡ₚ cs0 v }.

Lemma flat_submseteq S v : S ++ [v] ⊆+ vms -> (length (flat cs0 S) + length (cs0 v) <= length (flat cs0 vms))%nat.
Proof.
  intros Hs. transitivity (length (flat cs0 (S ++ [v]))).
  { rewrite flat_app, length_app. unfold flat at 3. cbn. rewrite app_nil_r, length_fmap. lia. }
  apply submseteq_length. apply submseteq_Permutation in Hs as [k Hk].
  assert (E1 : flat cs0 vms ≡ₚ flat cs0 (S ++ [v]) ++ flat cs0 k) by (rewrite <-flat_app; unfold flat; by rewrite Hk).
  rewrite E1. by apply submseteq_inserts_r.
Qed.

Lemma round_vm S oob aqes rem cs q v spend : round_ok S oob aqes rem cs q -> S ++ [v] ⊆+ vms -> v ∉ S ->
  exists aqes' rem' q' cs', fast_appctx_poll_fetch_active_vm v max spend aqes rem q = Some (aqes', rem', q')
  /\ round_ok (S ++ [v]) oob aqes' rem' cs' q'.
Proof.
  intros [Hp Hk Hc Hi Hnw Hpm] Hs Hv.
  assert (Hvin : v ∈ vms) by (apply (elem_of_submseteq (S ++ [v])); [|done]; apply elem_of_app; right; by apply list_elem_of_singleton).
  assert (Hvr : 0 <= v < FLEXNIC_PL_VMST_NUM).
  { pose proof (rk_range _ _ _ Hk) as Hr. rewrite Forall_forall in Hr. by apply Hr. }
  assert (Hlen := flat_submseteq S v Hs). apply sublist_length in Hi as Hil.
  destruct (fast_appctx_poll_fetch_active_vm_ok v spend aqes rem q vms cs) as
    (aqes1 & rem1 & q1 & cs1 & -> & Hp1 & Hk1 & Hc1 & Hoth & Hpv & l & -> & Hsl); try done.
  { rewrite Hnw by done. by apply Hused. }
  { rewrite Hnw by done. lia. }
  exists aqes1, (rem ++ l), q1, cs1. split; [done|]. constructor; try done.
  - rewrite flat_app. apply sublist_app; [done|]. unfold flat. cbn. rewrite app_nil_r. by rewrite <-(Hnw v Hv).
  - intros x [Hx1 Hx2]%not_elem_of_app. rewrite Hoth; [by apply Hnw|]. intros ->. by apply Hx2, list_elem_of_singleton.
  - intros x. destruct (decide (x = v)) as [->|Hx]; [by rewrite Hpv|]. rewrite Hoth by done. done.
Qed.

Lemma fetch_active_oob_ok oob : forall S aqes rem cs q, round_ok S oob aqes rem cs q -> S ++ oob ⊆+ vms -> NoDup (S ++ oob) ->
  exists S' aqes' rem' q' cs', fetch_active_oob oob max aqes rem q = Some (aqes', rem', q')
  /\ round_ok S' [] aqes' rem' cs' q' /\ S' ⊆+ vms /\ NoDup S'.
Proof.
  induction oob as [|v oob IH]; intros S aqes rem cs q Hr Hs Hn; cbn [fetch_active_oob].
  { rewrite app_nil_r in Hs, Hn. exists S, aqes, rem, q, cs. done. }
  assert (Hrest : forall S' aqes' rem' cs' q', round_ok S' oob aqes' rem' cs' q' -> S' ++ oob ⊆+ vms -> NoDup (S' ++ oob) ->
    exists S'' aqes'' rem'' q'' cs'', fetch_active_oob oob max aqes' rem' q' = Some (aqes'', rem'', q'')
      /\ round_ok S'' [] aqes'' rem'' cs'' q'' /\ S'' ⊆+ vms /\ NoDup S'') by (intros; by eapply IH).
  replace (S ++ v :: oob) with ((S ++ [v]) ++ oob) in Hs, Hn by by rewrite <-app_assoc.
  destruct (Z.of_nat (length aqes) <? max).
  - destruct (round_vm S (v :: oob) aqes rem cs q v false Hr) as (aqes1 & rem1 & q1 & cs1 & -> & Hr1).
    { etransitivity; [|exact Hs]. apply submseteq_inserts_r. done. }
    { apply NoDup_app in Hn as (Hn & _). apply NoDup_app in Hn as (_ & Hx & _). intros Hin.
      apply (Hx v Hin), list_elem_of_singleton. done. }
    cbn [mbind option_bind]. eapply Hrest; [|exact Hs|exact Hn]. by destruct Hr1.
  - cbn [mbind option_bind]. eapply Hrest.
    + by destruct Hr; constructor.
    + etransitivity; [|exact Hs]. apply submseteq_app; [|done]. by apply submseteq_inserts_r.
    + eapply sublist_NoDup; [exact Hn|]. apply sublist_app; [|done]. by apply sublist_inserts_r.
Qed.

Lemma fetch_active_loop_ok B : forall fuel A v S oob aqes rem cs q,
  vms = A ++ v :: B -> round_ok S oob aqes rem cs q -> S ++ oob ≡ₚ A -> NoDup vms -> (length B < fuel)%nat ->
  exists S' oob' aqes' rem' q' cs', fetch_active_loop fuel v max aqes rem oob q = Some (aqes', rem', oob', q')
  /\ round_ok S' oob' aqes' rem' cs' q' /\ S' ++ oob' ⊆+ vms /\ NoDup (S' ++ oob').
Proof.
  induction B as [|d B IH]; intros fuel A v S oob aqes rem cs q Hvms Hr Hpm Hn Hfuel;
    (destruct fuel as [|fuel]; [lia|]); cbn [fetch_active_loop length] in *.
  all: assert (Hvs : v ∉ S ++ oob) by (rewrite Hpm; rewrite Hvms in Hn; apply NoDup_app in Hn as (_ & Hx & _);
         intros Hin; apply (Hx v Hin), list_elem_of_here).
  all: assert (Hstep : exists S1 oob1 aqes1 rem1 q1 cs1,
      (if 0 <? vm_budget q v then
           '(aqes, rem, q) ← fast_appctx_poll_fetch_active_vm v max true aqes rem q;
           Some (aqes, rem, oob, q)
         else Some (aqes, rem, oob ++ [v], q)) = Some (aqes1, rem1, oob1, q1)
      /\ round_ok S1 oob1 aqes1 rem1 cs1 q1 /\ S1 ++ oob1 ≡ₚ A ++ [v]).
  1, 3: destruct (0 <? vm_budget q v);
    [destruct (round_vm S oob aqes rem cs q v true Hr) as (aqes1 & rem1 & q1 & cs1 & -> & Hr1);
      [rewrite Hvms; etransitivity; [|apply (submseteq_app A A [v] (v :: _)); [done|by apply submseteq_skip, submseteq_nil_l]];
       rewrite <-Hpm; apply submseteq_app; [by apply submseteq_inserts_r|done]
      |by apply not_elem_of_app in Hvs as [? _]
      |exists (S ++ [v]), oob, aqes1, rem1, q1, cs1; split; [done|]; split; [done|]; rewrite <-Hpm; solve_Permutation]
    |exists S, (oob ++ [v]), aqes, rem, q, cs; split; [done|]; split; [by destruct Hr; constructor|]; rewrite <-Hpm; solve_Permutation].
  all: destruct Hstep as (S1 & oob1 & aqes1 & rem1 & q1 & cs1 & -> & Hr1 & Hpm1); cbn [mbind option_bind].
  all: pose proof (ro_rings _ _ _ _ _ _ Hr1) as Hk1; rewrite Hvms in Hk1.
  all: pose proof (circ_next _ _ _ _ _ _ _ _ (rk_ring _ _ _ Hk1)) as Hnx.
  all: pose proof (ci_head _ _ _ _ _ _ (rk_ring _ _ _ Hk1)) as Hhd.
  all: assert (Hend : S1 ++ oob1 ⊆+ vms /\ NoDup (S1 ++ oob1))
    by (split; [rewrite Hpm1, Hvms; apply (submseteq_app A A [v] (v :: _)); [done|by apply submseteq_skip, submseteq_nil_l]
       |rewrite Hpm1; eapply sublist_NoDup; [exact Hn|]; rewrite Hvms; apply sublist_app; [done|by apply sublist_skip, sublist_nil_l]]).
  - assert (Eh : pv_next (pvm q1 v) = act_head q1) by (rewrite Hnx, Hhd; by destruct A).
    rewrite Eh, Z.eqb_refl. cbn [negb andb]. exists S1, oob1, aqes1, rem1, q1, cs1. by destruct Hend.
  - cbn [app] in Hnx. change (hd_of IDXLIST_INVAL (d :: B ++ A ++ [v])) with d in Hnx. rewrite Hnx.
    destruct (negb _ && _).
    + apply (IH fuel (A ++ [v]) d S1 oob1 aqes1 rem1 cs1 q1); try done; [by rewrite <-app_assoc|lia].
    + exists S1, oob1, aqes1, rem1, q1, cs1. by destruct Hend.
Qed.

(** A round over the active VMs returns.  The updates fetched are at most [max], and the
    contexts to be taken off the rings are distinct active ones. *)
Lemma fast_appctx_poll_fetch_active_ok q : polling q [] -> rings_ok q vms cs0 -> vms <> [] ->
  exists aqes rem q' cs', fast_appctx_poll_fetch_active max q = Some (aqes, rem, q')
  /\ polling q' aqes /\ rings_ok q' vms cs' /\ (forall v, cs' v ≡ₚ cs0 v)
  /\ Z.of_nat (length aqes) <= max /\ Z.of_nat (length rem) <= BATCH_SIZE
  /\ NoDup rem /\ Forall (fun r => r.1 ∈ vms /\ r.2 ∈ cs0 r.1) rem.
Proof.
  intros Hp Hk Hne. assert (Hcons : exists v B, vms = v :: B) by (clear - Hne; destruct vms as [|v B]; [done|by exists v, B]).
  destruct Hcons as (v & B & Hvms). clear Hne.
  unfold fast_appctx_poll_fetch_active.
  assert (Eh : act_head q = v) by (rewrite (ci_head _ _ _ _ _ _ (rk_ring _ _ _ Hk)), Hvms; done).
  rewrite Eh. pose proof (rk_nodup _ _ _ Hk) as Hnd.
  assert (Hr0 : round_ok [] [] [] [] cs0 q) by (constructor; try done; cbn; lia).
  destruct (fetch_active_loop_ok B vm_fuel [] v [] [] [] [] cs0 q Hvms Hr0) as
    (S1 & oob1 & aqes1 & rem1 & q1 & cs1 & -> & Hr1 & Hs1 & Hn1); [done|done| |].
  { pose proof (nodup_bound _ _ Hnd (rk_range _ _ _ Hk)) as Hb. rewrite Hvms in Hb. cbn [length] in Hb.
    unfold vm_fuel, FLEXNIC_PL_VMST_NUM in *. lia. }
  cbn [mbind option_bind].
  assert (Hfin : forall S aqes rem q cs oob, round_ok S oob aqes rem cs q -> S ⊆+ vms -> NoDup S ->
    polling q aqes /\ rings_ok q vms cs /\ (forall v, cs v ≡ₚ cs0 v) /\ Z.of_nat (length aqes) <= max
    /\ Z.of_nat (length rem) <= BATCH_SIZE /\ NoDup rem /\ Forall (fun r => r.1 ∈ vms /\ r.2 ∈ cs0 r.1) rem).
  { intros S aqes rem q' cs oob [H1 H2 H3 H4 H5 H6] Hs Hn. split_and!; try done.
    - apply sublist_length in H4. apply submseteq_Permutation in Hs as [k Hk'].
      assert (E1 : flat cs0 vms ≡ₚ flat cs0 S ++ flat cs0 k) by (rewrite <-flat_app; unfold flat; by rewrite Hk').
      apply Permutation_length in E1. rewrite length_app in E1. lia.
    - eapply sublist_NoDup; [|exact H4]. apply flat_nodup; [done|]. intros x Hx.
      assert (Hxr : 0 <= x < FLEXNIC_PL_VMST_NUM).
      { pose proof (rk_range _ _ _ Hk) as Hr. rewrite Forall_forall in Hr. apply Hr. by eapply elem_of_submseteq. }
      exact (va_nodup _ _ _ (rk_ctxs _ _ _ Hk x Hxr)).
    - apply Forall_forall. intros [x y] Hx. apply (sublist_submseteq _ _) in H4.
      apply (elem_of_submseteq _ _ _ Hx), elem_of_flat in H4 as [Hv Hc]. split; [by eapply elem_of_submseteq|done]. }
  destruct aqes1 as [|a aqes1].
  - destruct (fetch_active_oob_ok oob1 S1 [] rem1 cs1 q1 Hr1 Hs1 Hn1) as (S2 & aqes2 & rem2 & q2 & cs2 & -> & Hr2 & Hs2 & Hn2).
    exists aqes2, rem2, q2, cs2. split; [done|]. by eapply Hfin.
  - exists (a :: aqes1), rem1, q1, cs1. split; [done|]. eapply Hfin; [exact Hr1| |].
    + etransitivity; [|exact Hs1]. by apply submseteq_inserts_r.
    + by apply NoDup_app in Hn1 as (? & _).
Qed.

End Round.

(** * Polling all contexts

    A round over all registered VMs and contexts returns, keeps the rings of active ones,
    fetches updates in order, and leaves no update behind as long as there is room. *)

Section All.
Context (E : fpenv) {Q : Type} `{QmanOps Q}.
Implicit Type q : appq Q.
Context (n t : Z * Z -> Z) (L : Z * Z -> list atx) (q0 : appq Q).
Abbreviation polling := (polling n t L q0).
Context (max : Z).
Hypothesis Hmax : 0 <= max <= BATCH_SIZE.

(** All pending updates of a context have been fetched. *)
Definition drained (aqes : list aqe) (vc : Z * Z) : Prop := fetched aqes vc = handles n t vc (length (L vc)).

Lemma fetched_app l1 l2 vc : fetched (l1 ++ l2) vc = fetched l1 vc ++ fetched l2 vc.
Proof. apply filter_app. Qed.

Lemma drained_app q aqes l vc : polling q (aqes ++ l) -> drained aqes vc -> drained (aqes ++ l) vc.
Proof.
  intros Hp Hd. destruct (pl_ring _ _ _ _ _ _ Hp vc) as (k & Hr & Hf). unfold drained in *. rewrite Hf. f_equal.
  apply (f_equal length) in Hf. rewrite fetched_app, length_app, Hd, !handles_len in Hf.
  pose proof (tr_fetched _ _ _ _ _ _ Hr). lia.
Qed.

(** The rings while the contexts of [vm] are polled: [vm] may have got its first active
    context and not be in the ring of VMs yet. *)
Record mid_ok (vm : Z) (act : bool) q (vms : list Z) (cs : Z -> list Z) : Prop := mk_mid_ok {
  md_rings : rings_ok q vms cs;
  md_others : forall v, 0 <= v < FLEXNIC_PL_VMST_NUM -> v <> vm -> v ∈ vms <-> cs v <> [];
  md_in : vm ∈ vms -> cs vm <> [];
  md_act : cs vm <> [] -> vm ∈ vms \/ act = true;
  md_actne : act = true -> cs vm <> [] }.

Lemma mid_start vm q vms cs : active_ok q vms cs -> 0 <= vm < FLEXNIC_PL_VMST_NUM -> mid_ok vm false q vms cs.
Proof.
  intros [Hk Hu] Hv. constructor; try done; [intros v Hv' _; by apply Hu|by apply Hu|].
  intros Hc. left. by apply Hu.
Qed.

(** What does not change outside of the rings. *)
Definition next_frame q q' : Prop :=
  poll_next_vm q' = poll_next_vm q /\ forall v, poll_next_ctx (pvm q' v) = poll_next_ctx (pvm q v).

#[export] Instance next_frame_preorder : PreOrder next_frame.
Proof.
  split; [by intros ?|]. intros x y z [H1 H2] [H3 H4]. split; [congruence|]. intros v. by rewrite H4.
Qed.

Lemma next_fetch q q' : fetch_frame q q' -> next_frame q q'.
Proof. intros (E1 & _ & _ & E4 & _). split; [done|]. intros v. unfold pvm. by rewrite E1. Qed.

Lemma next_ring q q' : ring_frame q q' -> next_frame q q'.
Proof. intros (_ & _ & _ & _ & E5 & _ & E7). done. Qed.

Lemma polling_ring q q' aqes : ring_frame q q' -> polling q aqes -> polling q' aqes.
Proof. intros (E1 & E2 & E3 & E4 & _). by apply polling_frame. Qed.

(** The flag of a context says whether it is in the ring; if not, it is put there. *)
Lemma mid_enqueue vm cid q vms cs : mid_ok vm true q vms cs \/ mid_ok vm false q vms cs ->
  0 <= vm < FLEXNIC_PL_VMST_NUM -> 0 <= cid < FLEXNIC_PL_APPCTX_NUM ->
  let q' := if Z.land (pc_flags (pctx q vm cid)) FLAG_ACTIVE =? 0 then upd_vm vm (enqueue_ctx_to_active cid) q else q in
  exists cs', mid_ok vm true q' vms cs' /\ ring_frame q q'.
Proof.
  intros Hm Hv Hc q'.
  assert (Hk : rings_ok q vms cs) by (destruct Hm as [Hm|Hm]; exact (md_rings _ _ _ _ _ Hm)).
  assert (Hoth : forall v, 0 <= v < FLEXNIC_PL_VMST_NUM -> v <> vm -> v ∈ vms <-> cs v <> [])
    by (destruct Hm as [Hm|Hm]; exact (md_others _ _ _ _ _ Hm)).
  pose proof (rk_ctxs _ _ _ Hk vm Hv) as Hva. pose proof (va_flags _ _ _ Hva cid) as Hfl.
  change (pctx q vm cid) with (vctx (pvm q vm) cid) in q'. subst q'. rewrite Hfl, act_flag_test.
  destruct (decide (cid ∈ cs vm)) as [Hin|Hnin].
  - rewrite bool_decide_true by done. cbn [negb]. exists cs. split; [|done].
    assert (Hne : cs vm <> []) by (intros Ex; rewrite Ex in Hin; by apply elem_of_nil in Hin).
    constructor; try done. by right.
  - rewrite bool_decide_false by done. cbn [negb]. eexists. split.
    + constructor.
      * apply rings_ok_upd; [exact Hk| |by apply enqueue_ctx_act]. intros x. unfold enqueue_ctx_to_active. by case_match.
      * intros v Hv' Hne. cbn. rewrite decide_False by done. by apply Hoth.
      * intros _. cbn. rewrite decide_True by done. by destruct (cs vm).
      * intros _. by right.
      * intros _. cbn. rewrite decide_True by done. by destruct (cs vm).
    + apply ring_frame_upd; [|done]. intros x. unfold enqueue_ctx_to_active. by case_match.
Qed.

Lemma mid_pctx vm act q vms cs v c f : mid_ok vm act q vms cs -> 0 <= v < FLEXNIC_PL_VMST_NUM ->
  (forall p, pc_next (f p) = pc_next p /\ pc_prev (f p) = pc_prev p /\ pc_flags (f p) = pc_flags p
             /\ pc_id (f p) = pc_id p /\ pc_vmid (f p) = pc_vmid p) ->
  mid_ok vm act (upd_pctx v c f q) vms cs.
Proof. intros [H1 H2 H3 H4 H5] Hv Hf. constructor; try done. by apply rings_ok_pctx. Qed.

Lemma mid_fetch vm act q q' vms cs : fetch_frame q q' -> mid_ok vm act q vms cs -> mid_ok vm act q' vms cs.
Proof. intros Hf [H1 H2 H3 H4 H5]. constructor; try done. by eapply fetch_rings. Qed.

Lemma pctx_frame v c f q : ring_frame q (upd_pctx v c f q).
Proof. by apply ring_frame_upd. Qed.

Lemma fetch_all_ctx_loop_ok m : forall vm cid spend act aqes q vms cs,
  polling q aqes -> mid_ok vm act q vms cs -> 0 <= vm < FLEXNIC_PL_VMST_NUM -> 0 <= cid < FLEXNIC_PL_APPCTX_NUM ->
  Z.of_nat (length aqes) <= max ->
  exists act' l q' cs', fetch_all_ctx_loop m vm cid max spend act aqes q = Some (act', aqes ++ l, q')
  /\ polling q' (aqes ++ l) /\ mid_ok vm act' q' vms cs' /\ next_frame q q'
  /\ Z.of_nat (length (aqes ++ l)) <= max
  /\ (Z.of_nat (length (aqes ++ l)) < max -> (length (aqes ++ l) < length aqes + m)%nat -> drained (aqes ++ l) (vm, cid)).
Proof.
  induction m as [|m IH]; intros vm cid spend act aqes q vms cs Hp Hm Hv Hc Hl; cbn [fetch_all_ctx_loop].
  { exists act, [], q, cs. rewrite app_nil_r. split_and!; try done. intros. lia. }
  destruct (Z.leb_spec max (Z.of_nat (length aqes))) as [Hfull|Hroom].
  { exists act, [], q, cs. rewrite app_nil_r. split_and!; try done. intros. lia. }
  destruct (fast_appctx_poll_fetch_ok n t L q0 vm cid spend q aqes Hp ltac:(unfold BATCH_SIZE in *; lia))
    as (r & q1 & Er & Hf & Hr). rewrite Er. cbn [mbind option_bind]. destruct r as [a|].
  - set (q2 := upd_pctx vm cid _ q1).
    assert (Hm2 : mid_ok vm act q2 vms cs) by (apply mid_pctx; [by eapply mid_fetch|done|done]).
    assert (Hp2 : polling q2 (aqes ++ [a])) by (eapply polling_ring; [apply pctx_frame|exact Hr]).
    destruct (mid_enqueue vm cid q2 vms cs ltac:(destruct act; auto) Hv Hc) as (cs3 & Hm3 & Hf3).
    set (q3 := if _ =? 0 then _ else _) in *.
    destruct (IH vm cid spend true (aqes ++ [a]) q3 vms cs3) as (act' & l & q4 & cs4 & El & Hp4 & Hm4 & Hn4 & Hc4 & Hd4);
      try done; [by eapply polling_ring|rewrite length_app; cbn [length]; lia|].
    rewrite <-app_assoc in El, Hp4, Hc4, Hd4. exists act', (a :: l), q4, cs4. split; [exact El|].
    split; [done|]. split; [done|]. split.
    { etransitivity; [by apply next_fetch|]. etransitivity; [apply next_ring, pctx_frame|].
      etransitivity; [by apply next_ring|done]. }
    split; [done|]. intros H1 H2. apply Hd4; [done|]. rewrite (length_app aqes [a]). cbn [length app] in *. lia.
  - destruct Hr as [-> Hd]. set (q2 := upd_pctx vm cid _ q).
    exists act, [], q2, cs. rewrite app_nil_r. split; [done|]. split; [eapply polling_ring; [apply pctx_frame|done]|].
    split; [by apply mid_pctx|]. split; [apply next_ring, pctx_frame|]. done.
Qed.

(** The VM gets into the ring when one of its contexts has. *)
Lemma mid_end vm act q vms cs : mid_ok vm act q vms cs -> 0 <= vm < FLEXNIC_PL_VMST_NUM ->
  let q' := if (Z.land (pv_flags (pvm q vm)) FLAG_ACTIVE =? 0) && act then enqueue_vm_to_active vm q else q in
  exists vms', active_ok q' vms' cs /\ ring_frame q q'.
Proof.
  intros [Hk Ho Hi Ha Hn] Hv q'. subst q'. rewrite (rk_flags _ _ _ Hk vm), act_flag_test.
  destruct (decide (vm ∈ vms)) as [Hin|Hnin].
  - rewrite bool_decide_true by done. cbn [negb andb]. exists vms. split; [|done]. split; [done|].
    intros v Hv'. destruct (decide (v = vm)) as [->|Hne]; [|by apply Ho]. split; [apply Hi|done].
  - rewrite bool_decide_false by done. cbn [negb andb]. destruct act.
    + exists (vms ++ [vm]). split; [|apply enqueue_vm_frame]. split; [by apply enqueue_vm_ok|].
      intros v Hv'. rewrite elem_of_app, list_elem_of_singleton. destruct (decide (v = vm)) as [->|Hne].
      * split; [by intros _; apply Hn|by right].
      * rewrite (Ho v Hv' Hne). naive_solver.
    + exists vms. split; [|done]. split; [done|]. intros v Hv'. destruct (decide (v = vm)) as [->|Hne]; [|by apply Ho].
      split; [by intros ?%Hnin|]. intros Hc. destruct (Ha Hc); done.
Qed.

Context (rvms : list Z) (rcs : Z -> list Z).
Hypothesis Hreg : registered (aq_reg q0) rvms rcs.

(** Positions where the next rounds start are indices. *)
Definition next_ok q : Prop := 0 <= poll_next_vm q /\ forall v, 0 <= poll_next_ctx (pvm q v).

Lemma next_ok_frame q q' : next_frame q q' -> next_ok q -> next_ok q'.
Proof. intros [E1 E2] [H1 H2]. split; [by rewrite E1|]. intros v. by rewrite E2. Qed.

(** The state between the VMs of a round. *)
Definition all_ok (aqes : list aqe) q : Prop :=
  polling q aqes /\ (exists vms cs, active_ok q vms cs) /\ next_ok q /\ Z.of_nat (length aqes) <= max.

Lemma set_next_active vm x q vms cs : active_ok q vms cs -> active_ok (upd_vm vm (fun v => v <| poll_next_ctx := x |>) q) vms cs.
Proof.
  intros [[Hr Hn Hg Hfl Hi Hc] Hu]. set (q' := upd_vm vm _ q).
  assert (Ev : forall v, let v' := pvm q' v in pv_next v' = pv_next (pvm q v) /\ pv_prev v' = pv_prev (pvm q v)
    /\ pv_flags v' = pv_flags (pvm q v) /\ pv_id v' = pv_id (pvm q v) /\ act_ctx_head v' = act_ctx_head (pvm q v)
    /\ act_ctx_tail v' = act_ctx_tail (pvm q v) /\ pv_ctxs v' = pv_ctxs (pvm q v)).
  { intros v. cbv zeta. subst q'. rewrite pvm_upd. case_decide; [by subst|done]. }
  split; [|done]. constructor; [|done|done| | |].
  - eapply circ_ext; [|exact Hr]. intros v _. cbn. by destruct (Ev v) as (-> & -> & _).
  - intros v. destruct (Ev v) as (_ & _ & -> & _). apply Hfl.
  - intros v Hv. destruct (Ev v) as (_ & _ & _ & -> & _). by apply Hi.
  - intros v Hv. destruct (Ev v) as (_ & _ & _ & _ & E5 & E6 & E7). apply (vm_act_same v (pvm q v)); try done. by apply Hc.
Qed.

Lemma rings_upd_const q vm f x : f (pvm q vm) = x -> upd_vm vm f q = upd_vm vm (fun _ => x) q.
Proof. intros <-. done. Qed.

Lemma rcs_range vm i c : rcs vm !! i = Some c -> 0 <= c < FLEXNIC_PL_APPCTX_NUM.
Proof.
  intros Hi. pose proof (rg_ctx_range _ _ _ Hreg vm) as Hr. rewrite Forall_forall in Hr.
  by apply Hr, (list_elem_of_lookup_2 _ i).
Qed.

Lemma fetch_all_vm_loop_ok m : forall vm spend aqes q, all_ok aqes q -> 0 <= vm < FLEXNIC_PL_VMST_NUM ->
  let count := Z.of_nat (length (rcs vm)) in let s := poll_next_ctx (pvm q vm) in
  0 <= s < count ->
  exists l q', fetch_all_vm_loop m vm count max spend aqes q = Some (aqes ++ l, q')
  /\ all_ok (aqes ++ l) q' /\ poll_next_vm q' = poll_next_vm q
  /\ (Z.of_nat (length (aqes ++ l)) < max -> forall j, 0 <= j < Z.of_nat m ->
        forall c, rcs vm !! Z.to_nat ((s + j) mod count) = Some c -> drained (aqes ++ l) (vm, c)).
Proof.
  induction m as [|m IH]; intros vm spend aqes q Hall Hv count s Hs; pose proof Hall as (Hp & (vms & cs & Hac) & Hnx & Hl);
    cbn [fetch_all_vm_loop].
  { exists [], q. rewrite app_nil_r. split; [done|]. split; [done|]. split; [done|]. intros; lia. }
  destruct (Z.leb_spec max (Z.of_nat (length aqes))) as [Hfull|Hroom].
  { exists [], q. rewrite app_nil_r. split; [done|]. split; [done|]. split; [done|]. intros; lia. }
  assert (Hlt : (Z.to_nat s < length (rcs vm))%nat) by (subst count; lia).
  destruct (lookup_lt_is_Some_2 _ _ Hlt) as [cid Hcid].
  assert (Ecid : reg_ctx_ids (aq_reg q) !!! (vm, s) = cid).
  { rewrite (pl_reg _ _ _ _ _ _ Hp). pose proof (rg_ctx_ids _ _ _ Hreg _ _ _ Hcid) as Hx. by rewrite Z2Nat.id in Hx by lia. }
  fold s. rewrite Ecid. unfold fast_appctx_poll_fetch_all_ctx.
  destruct (fetch_all_ctx_loop_ok (Z.to_nat BATCH_SIZE) vm cid spend false aqes q vms cs Hp (mid_start vm q vms cs Hac Hv) Hv
    (rcs_range _ _ _ Hcid) Hl) as (act & l1 & q1 & cs1 & -> & Hp1 & Hm1 & Hn1 & Hc1 & Hd1). cbn [mbind option_bind].
  destruct (mid_end vm act q1 vms cs1 Hm1 Hv) as (vms2 & Hac2 & Hf2). set (q2 := if _ && act then _ else _) in *.
  assert (Es : poll_next_ctx (pvm q2 vm) = s).
  { destruct (next_ring _ _ Hf2) as [_ E2]. rewrite E2. destruct Hn1 as [_ E1]. by rewrite E1. }
  set (q3 := upd_vm vm (fun v => v <| poll_next_ctx := (poll_next_ctx v + 1) mod count |>) q2).
  assert (Es3 : forall v, poll_next_ctx (pvm q3 v) = if decide (v = vm) then (s + 1) mod count else poll_next_ctx (pvm q v)).
  { intros v. unfold q3. rewrite pvm_upd. case_decide; [cbn; by rewrite Es|].
    destruct (next_ring _ _ Hf2) as [_ E2]. rewrite E2. destruct Hn1 as [_ E1]. by rewrite E1. }
  assert (Hvn : poll_next_vm q3 = poll_next_vm q).
  { change (poll_next_vm q3) with (poll_next_vm q2). destruct (next_ring _ _ Hf2) as [E2 _]. rewrite E2. by destruct Hn1. }
  assert (Hmod : 0 <= (s + 1) mod count < count) by (apply Z.mod_pos_bound; lia).
  assert (Hall3 : all_ok (aqes ++ l1) q3).
  { split; [by apply (polling_frame _ _ _ _ q2); try done; apply (polling_ring q1)|]. split.
    - exists vms2, cs1. unfold q3. rewrite (rings_upd_const q2 vm _ (pvm q2 vm <| poll_next_ctx := (s + 1) mod count |>))
        by (by rewrite Es). rewrite <-(rings_upd_const q2 vm (fun v => v <| poll_next_ctx := (s + 1) mod count |>)) by done.
      by apply set_next_active.
    - split; [|done]. split; [rewrite Hvn; apply Hnx|]. intros v. rewrite Es3. case_decide; [lia|apply Hnx]. }
  destruct (IH vm spend (aqes ++ l1) q3 Hall3 Hv) as (l2 & q4 & El & Hall4 & Hvn4 & Hd4).
  { rewrite Es3, decide_True by done. exact Hmod. }
  fold count in El, Hd4. rewrite <-app_assoc in El, Hall4, Hd4. exists (l1 ++ l2), q4. split; [exact El|].
  split; [done|]. split; [by rewrite Hvn4|]. intros Hlt' j Hj c Hc. rewrite Es3, decide_True in Hd4 by done.
  destruct (decide (j = 0)) as [->|Hj0].
  - rewrite Z.add_0_r, Z.mod_small in Hc by lia. rewrite Hcid in Hc. injection Hc as <-.
    rewrite app_assoc in *. apply (drained_app q4); [by destruct Hall4|]. rewrite length_app in Hlt'.
    apply Hd1; rewrite ?length_app in *; unfold BATCH_SIZE in *; lia.
  - apply (Hd4 Hlt' (j - 1)); [lia|]. rewrite Z.add_mod_idemp_l by lia. by replace (s + 1 + (j - 1)) with (s + j) by lia.
Qed.

(** One VM: when there is room left, all of its contexts are drained. *)
Lemma fast_appctx_poll_fetch_all_vm_ok vm spend aqes q : all_ok aqes q -> vm ∈ rvms ->
  exists l q', fast_appctx_poll_fetch_all_vm vm max spend aqes q = Some (aqes ++ l, q')
  /\ all_ok (aqes ++ l) q' /\ poll_next_vm q' = poll_next_vm q
  /\ (Z.of_nat (length (aqes ++ l)) < max -> forall c, c ∈ rcs vm -> drained (aqes ++ l) (vm, c)).
Proof.
  intros Hall Hvin. pose proof Hall as (Hp & (vms & cs & Hac) & Hnx & Hl).
  assert (Hv : 0 <= vm < FLEXNIC_PL_VMST_NUM).
  { pose proof (rg_vm_range _ _ _ Hreg) as Hr. rewrite Forall_forall in Hr. by apply Hr. }
  unfold fast_appctx_poll_fetch_all_vm, tas_registered_ctx_count_get.
  rewrite (pl_reg _ _ _ _ _ _ Hp), (rg_ctx_count _ _ _ Hreg). set (count := Z.of_nat (length (rcs vm))).
  destruct (Z.eqb_spec count 0) as [E0|E0].
  { exists [], q. rewrite app_nil_r. split; [done|]. split; [done|]. split; [done|]. intros _ c Hc.
    destruct (rcs vm) eqn:Er; [by apply elem_of_nil in Hc|]. cbn in *. lia. }
  assert (Hcnt : 0 < count) by (subst count; lia).
  set (q1 := if count <=? poll_next_ctx (pvm q vm) then _ else q).
  assert (Hq1 : all_ok aqes q1 /\ 0 <= poll_next_ctx (pvm q1 vm) < count /\ poll_next_vm q1 = poll_next_vm q).
  { subst q1. destruct (Z.leb_spec count (poll_next_ctx (pvm q vm))) as [Hle|Hgt].
    - split; [|split; [rewrite pvm_upd, decide_True by done; cbn; lia|done]].
      split; [by apply (polling_frame _ _ _ _ q)|]. split; [exists vms, cs; by apply set_next_active|]. split; [|done].
      split; [apply Hnx|]. intros v. rewrite pvm_upd. case_decide; [cbn; lia|apply Hnx].
    - split; [done|]. split; [|done]. split; [apply Hnx|done]. }
  destruct Hq1 as (Hall1 & Hs & Hvn).
  destruct (fetch_all_vm_loop_ok (Z.to_nat count) vm spend aqes q1 Hall1 Hv Hs) as (l & q2 & El & Hall2 & Hvn2 & Hd).
  fold count in El, Hd. exists l, q2. split; [done|]. split; [done|]. split; [congruence|].
  intros Hlt c Hc. apply list_elem_of_lookup in Hc as [i Hi]. pose proof (lookup_lt_Some _ _ _ Hi).
  apply (Hd Hlt ((Z.of_nat i - poll_next_ctx (pvm q1 vm)) mod count)).
  - rewrite Z2Nat.id by lia. apply Z.mod_pos_bound. lia.
  - rewrite Z.add_mod_idemp_r by lia. replace (_ + (_ - _)) with (Z.of_nat i) by lia.
    rewrite Z.mod_small by (subst count; lia). by rewrite Nat2Z.id.
Qed.

Definition has_budget (vm : Z) : bool := 0 <? vm_budget q0 vm.

Lemma budget_same aqes q vm : polling q aqes -> (0 <? vm_budget q vm) = has_budget vm.
Proof. intros Hp. unfold has_budget, vm_budget. by destruct (pl_world _ _ _ _ _ _ Hp) as (c & m & ->). Qed.

Lemma all_next aqes q : all_ok aqes q -> 0 < Z.of_nat (length rvms) -> all_ok aqes (next_vm (Z.of_nat (length rvms)) q).
Proof.
  intros (Hp & (vms & cs & [Hk Hu]) & Hnx & Hl) Hc. split; [by apply (polling_frame _ _ _ _ q)|].
  split; [exists vms, cs; split; [by apply (rings_ok_same q)|done]|]. split; [|done]. split; [|apply Hnx].
  unfold next_vm. cbn. apply Z.mod_pos_bound. lia.
Qed.

(** The first pass: VMs with a budget are drained when there is room, the others are
    collected. *)
Lemma fetch_all_loop_ok m : forall aqes oob q, all_ok aqes q -> 
  let count := Z.of_nat (length rvms) in let s := poll_next_vm q in
  0 <= s < count -> Forall (fun v => v ∈ rvms) oob ->
  exists l oob' q', fetch_all_loop m count max aqes oob q = Some (aqes ++ l, oob', q')
  /\ all_ok (aqes ++ l) q' /\ Forall (fun v => v ∈ rvms) oob' /\ 0 <= poll_next_vm q' < count
  /\ (forall v, v ∈ oob -> v ∈ oob')
  /\ (Z.of_nat (length (aqes ++ l)) < max -> forall j, 0 <= j < Z.of_nat m ->
        forall vm, rvms !! Z.to_nat ((s + j) mod count) = Some vm ->
        if has_budget vm then forall c, c ∈ rcs vm -> drained (aqes ++ l) (vm, c) else vm ∈ oob').
Proof.
  induction m as [|m IH]; intros aqes oob q Hall count s Hs Hoob; pose proof Hall as (Hp & Hac & Hnx & Hl);
    cbn [fetch_all_loop].
  { exists [], oob, q. rewrite app_nil_r. do 5 (split; [done|]). intros; lia. }
  destruct (Z.leb_spec max (Z.of_nat (length aqes))) as [Hfull|Hroom].
  { exists [], oob, q. rewrite app_nil_r. do 5 (split; [done|]). intros; lia. }
  assert (Hlt : (Z.to_nat s < length rvms)%nat) by (subst count; lia).
  destruct (lookup_lt_is_Some_2 _ _ Hlt) as [vm Hvm].
  assert (Evm : reg_vm_ids (aq_reg q) !!! s = vm).
  { rewrite (pl_reg _ _ _ _ _ _ Hp). pose proof (rg_vm_ids _ _ _ Hreg _ _ Hvm) as Hx. by rewrite Z2Nat.id in Hx by lia. }
  assert (Hvin : vm ∈ rvms) by by apply (list_elem_of_lookup_2 _ (Z.to_nat s)).
  fold s. rewrite Evm, (budget_same aqes q vm Hp).
  assert (Hstep : exists l1 oob1 q1,
     (if has_budget vm then '(aqes, q) ← fast_appctx_poll_fetch_all_vm vm max true aqes q; Some (aqes, oob, q)
      else Some (aqes, oob ++ [vm], q)) = Some (aqes ++ l1, oob1, q1)
     /\ all_ok (aqes ++ l1) q1 /\ poll_next_vm q1 = s /\ Forall (fun v => v ∈ rvms) oob1
     /\ (forall v, v ∈ oob -> v ∈ oob1)
     /\ (Z.of_nat (length (aqes ++ l1)) < max ->
          if has_budget vm then forall c, c ∈ rcs vm -> drained (aqes ++ l1) (vm, c) else vm ∈ oob1)).
  { destruct (has_budget vm).
    - destruct (fast_appctx_poll_fetch_all_vm_ok vm true aqes q Hall Hvin) as (l1 & q1 & -> & H1 & H2 & H3).
      exists l1, oob, q1. done.
    - exists [], (oob ++ [vm]), q. rewrite app_nil_r. split; [done|]. split; [done|]. split; [done|].
      split; [apply Forall_app; split; [done|by apply Forall_singleton]|].
      split; [intros v Hv; apply elem_of_app; by left|]. intros _. apply elem_of_app. right. by apply list_elem_of_singleton. }
  destruct Hstep as (l1 & oob1 & q1 & -> & Hall1 & Hn1 & Hoob1 & Hinc1 & Hd1). cbn [mbind option_bind].
  assert (Hmod : 0 <= (s + 1) mod count < count) by (apply Z.mod_pos_bound; lia).
  assert (Hnx1 : poll_next_vm (next_vm count q1) = (s + 1) mod count) by (unfold next_vm; cbn; by rewrite Hn1).
  destruct (IH (aqes ++ l1) oob1 (next_vm count q1)) as (l2 & oob2 & q2 & El & Hall2 & Hoob2 & Hb2 & Hinc2 & Hd2); try done.
  { apply all_next; [done|]. subst count. lia. }
  { rewrite Hnx1. exact Hmod. }
  fold count in El, Hd2. rewrite <-app_assoc in El, Hall2, Hd2. exists (l1 ++ l2), oob2, q2.
  split; [exact El|]. split; [done|]. split; [done|]. split; [done|]. split; [auto|].
  intros Hlt' j Hj v Hv. rewrite Hnx1 in Hd2. destruct (decide (j = 0)) as [->|Hj0].
  - rewrite Z.add_0_r, Z.mod_small in Hv by lia. rewrite Hvm in Hv. injection Hv as <-.
    assert (Hlt1 : Z.of_nat (length (aqes ++ l1)) < max) by (rewrite !length_app in *; lia).
    specialize (Hd1 Hlt1). destruct (has_budget vm); [|by apply Hinc2].
    intros c Hc. rewrite app_assoc in *. apply (drained_app q2); [by destruct Hall2|]. by apply Hd1.
  - apply (Hd2 Hlt' (j - 1)); [lia|]. rewrite Z.add_mod_idemp_l by lia. by replace (s + 1 + (j - 1)) with (s + j) by lia.
Qed.

(** The second pass over the VMs without a budget. *)
Lemma fetch_all_oob_ok oob : forall aqes q, all_ok aqes q -> Forall (fun v => v ∈ rvms) oob -> 0 < Z.of_nat (length rvms) ->
  exists l q', fetch_all_oob oob (Z.of_nat (length rvms)) max aqes q = Some (aqes ++ l, q') /\ all_ok (aqes ++ l) q'
  /\ (Z.of_nat (length (aqes ++ l)) < max -> forall vm c, vm ∈ oob -> c ∈ rcs vm -> drained (aqes ++ l) (vm, c)).
Proof.
  induction oob as [|vm oob IH]; intros aqes q Hall Hoob Hc; cbn [fetch_all_oob].
  { exists [], q. rewrite app_nil_r. split; [done|]. split; [done|]. intros _ v c Hv. by apply elem_of_nil in Hv. }
  apply Forall_cons in Hoob as [Hvin Hoob].
  assert (Hstep : exists l1 q1,
     (if Z.of_nat (length aqes) <? max then fast_appctx_poll_fetch_all_vm vm max false aqes q else Some (aqes, q))
       = Some (aqes ++ l1, q1) /\ all_ok (aqes ++ l1) q1
     /\ (Z.of_nat (length (aqes ++ l1)) < max -> forall c, c ∈ rcs vm -> drained (aqes ++ l1) (vm, c))).
  { destruct (Z.ltb_spec (Z.of_nat (length aqes)) max) as [Hlt|Hge].
    - destruct (fast_appctx_poll_fetch_all_vm_ok vm false aqes q Hall Hvin) as (l1 & q1 & -> & H1 & H2 & H3).
      by exists l1, q1.
    - exists [], q. rewrite app_nil_r. split; [done|]. split; [done|]. intros; lia. }
  destruct Hstep as (l1 & q1 & -> & Hall1 & Hd1). cbn [mbind option_bind].
  destruct (IH (aqes ++ l1) (next_vm (Z.of_nat (length rvms)) q1) (all_next _ _ Hall1 Hc) Hoob Hc) as (l2 & q2 & El & Hall2 & Hd2).
  rewrite <-app_assoc in El, Hall2, Hd2. exists (l1 ++ l2), q2. split; [exact El|]. split; [done|].
  intros Hlt' v c Hv Hcin. apply elem_of_cons in Hv as [->|Hv]; [|by apply Hd2].
  assert (Hlt1 : Z.of_nat (length (aqes ++ l1)) < max) by (rewrite !length_app in *; lia).
  rewrite app_assoc in *. apply (drained_app q2); [by destruct Hall2|]. by apply Hd1.
Qed.

(** A round over all VMs returns; with room left, no update of a VM that has a budget is
    left behind, and nothing at all when nothing was fetched. *)
Lemma fast_appctx_poll_fetch_all_ok q : all_ok [] q ->
  exists aqes q', fast_appctx_poll_fetch_all max q = Some (aqes, q') /\ all_ok aqes q'
  /\ (Z.of_nat (length aqes) < max -> forall vm c, vm ∈ rvms -> c ∈ rcs vm ->
        has_budget vm = true \/ aqes = [] -> drained aqes (vm, c)).
Proof.
  intros Hall. pose proof Hall as (Hp & Hac & Hnx & Hl). unfold fast_appctx_poll_fetch_all, tas_registered_vm_count_get.
  rewrite (pl_reg _ _ _ _ _ _ Hp), (rg_vm_count _ _ _ Hreg). set (count := Z.of_nat (length rvms)).
  destruct (Z.eqb_spec count 0) as [E0|E0].
  { exists [], q. split; [done|]. split; [done|]. intros _ vm c Hv. destruct rvms; [by apply elem_of_nil in Hv|]. cbn in *. lia. }
  assert (Hcnt : 0 < count) by (subst count; lia).
  set (q1 := if count <=? poll_next_vm q then _ else q).
  assert (Hq1 : all_ok [] q1 /\ 0 <= poll_next_vm q1 < count).
  { subst q1. destruct (Z.leb_spec count (poll_next_vm q)) as [Hle|Hgt]; [|split; [done|split; [apply Hnx|done]]].
    split; [|cbn; lia]. split; [by apply (polling_frame _ _ _ _ q)|].
    split; [destruct Hac as (vms & cs & [Hk Hu]); exists vms, cs; split; [by apply (rings_ok_same q)|done]|].
    split; [|done]. split; [cbn; lia|apply Hnx]. }
  destruct Hq1 as [Hall1 Hs].
  destruct (fetch_all_loop_ok (Z.to_nat count) [] [] q1 Hall1 Hs ltac:(done)) as (l & oob & q2 & El & Hall2 & Hoob & Hb & _ & Hd).
  fold count in El, Hd, Hb. rewrite El. cbn [mbind option_bind app] in *.
  assert (Hpass : Z.of_nat (length l) < max -> forall vm, vm ∈ rvms ->
     if has_budget vm then forall c, c ∈ rcs vm -> drained l (vm, c) else vm ∈ oob).
  { intros Hlt vm Hvm. apply list_elem_of_lookup in Hvm as [i Hi]. pose proof (lookup_lt_Some _ _ _ Hi).
    apply (Hd Hlt ((Z.of_nat i - poll_next_vm q1) mod count)).
    - rewrite Z2Nat.id by lia. apply Z.mod_pos_bound. lia.
    - rewrite Z.add_mod_idemp_r by lia. replace (_ + (_ - _)) with (Z.of_nat i) by lia.
      rewrite Z.mod_small by (subst count; lia). by rewrite Nat2Z.id. }
  destruct l as [|a l].
  - destruct (fetch_all_oob_ok oob [] q2 Hall2 Hoob Hcnt) as (l2 & q3 & E2 & Hall3 & Hd3). fold count in E2.
    exists l2, q3. split; [exact E2|]. split; [done|]. intros Hlt vm c Hv Hc _.
    assert (Hm0 : Z.of_nat (length (@nil aqe)) < max) by (cbn [length app] in *; lia).
    specialize (Hpass Hm0 vm Hv). destruct (has_budget vm); [|by apply Hd3].
    apply (drained_app q3 [] l2); [by destruct Hall3|]. by apply Hpass.
  - exists (a :: l), q2. split; [done|]. split; [done|]. intros Hlt vm c Hv Hc [Hbu|]; [|done].
    specialize (Hpass Hlt vm Hv). rewrite Hbu in Hpass. by apply Hpass.
Qed.

End All.
