(* ===== verification/FastEmu.v ===== *)
(** * The main loop of a core (tas/fast/fastemu.c)

    One round of a core: received packets, flows forwarded from other cores, the queue
    manager, the queues of the applications and the queue of the slow path.  The clock,
    the network card and the contents of fresh buffers are arguments. *)

From S2P Require Import Prelude FpTypes AppCtx LibTypes LibConn LibPoll Blocking BufCache Registry.
From S2P Require Import TcpCommon FlowTx FlowRx FlowOps AppQ FastKernel Qman QmanProofs QmanPoll.
From Stdlib Require Import SpecFloat.

(** What a core uses of [tas_qman_poll]: budgets, counters, their total, the content of a
    local variable that is not initialised, the time and the number of entries; the result
    has the VMs and flows. *)
Class QmanPoll (Q : Type) := {
  qman_poll : gmap Z Z -> gmap Z Z -> Z -> Z -> Z -> Z -> Q -> option (Q * list (Z * Z) * gmap Z Z * Z) }.

#[export] Instance qman_thread_poll : QmanPoll qman_thread := {
  qman_poll budgets counters total orig cur_ts num t :=
    '(s, _) ← tas_qman_poll vm_poll_fuel flow_poll_fuel budgets cur_ts num (mk_vpoll t [] counters total [] orig);
    Some (vp_t s, (fun e => (ev_vm e, ev_flow e)) <$> vp_out s, vp_counters s, vp_total s) }.

(** The state of a core: polling state and memory, queue of the slow path, buffers, the
    packets handed to the network card, and the flows other cores have forwarded. *)
Record fpcore (Q P : Type) : Type := mk_fpcore {
  fc_aq : appq Q; fc_kif : kernel_if; fc_bufs : bufcache; fc_pool : P;
  fc_sent : list tx_ent; fc_fwd : list Z }.
Arguments mk_fpcore {Q P}.
Arguments fc_aq {Q P}.
Arguments fc_kif {Q P}.
Arguments fc_bufs {Q P}.
Arguments fc_pool {Q P}.
Arguments fc_sent {Q P}.
Arguments fc_fwd {Q P}.
#[export] Instance eta_fpcore {Q P} : Eta (fpcore Q P) := fun r =>
  mk_fpcore (fc_aq r) (fc_kif r) (fc_bufs r) (fc_pool r) (fc_sent r) (fc_fwd r).

(** Double to integer, towards zero. *)
Definition Z_of_double (d : spec_float) : Z :=
  match d with
  | S754_finite s m e =>
      let v := if 0 <=? e then Z.pos m * 2 ^ e else Z.pos m / 2 ^ (- e) in
      if s then - v else v
  | _ => 0
  end.

Section FastEmu.
Context (E : fpenv) (info : flexnic_info) (rss_reta_size : Z).
Context {Q P : Type} `{QmanOps Q, QmanPoll Q, Mempool P}.
Abbreviation core := (fpcore Q P).

Definition fc_world (c : core) : world Q := aq_world (fc_aq c).
Definition set_world (w : world Q) (c : core) : core := c <| fc_aq ::= fun q => q <| aq_world := w |> |>.
Definition set_bufs (b : bufcache) (p : P) (c : core) : core := c <| fc_bufs := b |> <| fc_pool := p |>.

(** ** Start *)

Definition polled_vm_init (id : Z) (v : polled_vm) : polled_vm :=
  v <| pv_id := id |> <| pv_next := IDXLIST_INVAL |> <| pv_prev := IDXLIST_INVAL |> <| pv_flags := 0 |>
    <| poll_next_ctx := 0 |> <| act_ctx_head := IDXLIST_INVAL |> <| act_ctx_tail := IDXLIST_INVAL |>.

Definition polled_ctx_init (id aid : Z) (c : polled_context) : polled_context :=
  c <| pc_id := id |> <| pc_vmid := aid |> <| pc_next := IDXLIST_INVAL |> <| pc_prev := IDXLIST_INVAL |>
    <| pc_flags := 0 |> <| pc_null_rounds := 0 |>.

(** The budgets, the counters and the polling state; rings and queue manager aside. *)
Definition dataplane_context_init (q : appq Q) : appq Q :=
  foldl (fun q i =>
      upd_vm i (fun v => foldl (fun v j => upd_pc j (polled_ctx_init j i) v) (polled_vm_init i v)
                           (seqZ 0 FLEXNIC_PL_APPCTX_NUM))
        (q <| aq_world ::= fun w => w <| w_ctx ::= fun x =>
               x <| budgets ::= <[i := bu_max_budget E]> |> <| vm_counters ::= <[i := 0]> |> |> |>))
    q (seqZ 0 FLEXNIC_PL_VMST_NUM)
    <| aq_world ::= fun w => w <| w_ctx ::= fun x => x <| counters_total := 0 |> |> |>
    <| poll_rounds := 0 |> <| poll_next_vm := 0 |> <| act_head := IDXLIST_INVAL |> <| act_tail := IDXLIST_INVAL |>.

(** ** Transmitting *)

(** The packets queued, in order. *)
Definition tx_queued (x : dataplane_context Q) : list tx_ent :=
  omap (fun i => tx_handles x !! i) (seqZ 0 (tx_num x)).

(** [ret] of the packets are taken by the network card. *)
Definition tx_flush (ret : Z) (c : core) : core :=
  let x := w_ctx (fc_world c) in
  if tx_num x =? 0 then c
  else
    let c := c <| fc_sent ::= fun l => l ++ take (Z.to_nat ret) (tx_queued x) |> in
    let upd f := set_world (fc_world c <| w_ctx ::= f |>) c in
    if ret =? tx_num x then upd (fun x => x <| tx_num := 0 |>)
    else if 0 <? ret then
      upd (fun x =>
        foldl (fun x i => x <| tx_handles ::= fun h => partial_alter (fun _ => h !! i) (i - ret) h |>) x
              (seqZ ret (tx_num x - ret))
          <| tx_num ::= fun n => u16 (n - ret) |>)
    else c.

(** Room for at most [n] more packets. *)
Definition tx_max (n : Z) (c : core) : Z :=
  let room := TXBUF_SIZE - tx_num (w_ctx (fc_world c)) in if room <? n then room else n.

(** ** Received packets *)

(** The application rings: entries are reserved, written and announced. *)
Fixpoint arx_alloc (ixs : list Z) (q : appq Q) : option (list (Z * Z * Z) * appq Q) :=
  match ixs with
  | [] => Some ([], q)
  | i :: ixs =>
      let x := w_ctx (aq_world q) in
      let vm := arx_vm x !!! i in
      let cid := arx_ctx x !!! i in
      match fast_actx_rxq_alloc vm cid q with
      | (None, _) => None
      | (Some pos, q) => '(l, q) ← arx_alloc ixs q; Some ((vm, cid, pos) :: l, q)
      end
  end.

Definition arx_write (q : appq Q) (a : Z * (Z * Z * Z)) : appq Q :=
  let '(i, (vm, cid, pos)) := a in
  upd_ax vm cid (fun x => x <| ax_rx ::= <[pos := arx_cache (w_ctx (aq_world q)) !!! i]> |>) q.

Definition arx_notify (tsc : Z) (q : appq Q) (a : Z * Z * Z) : appq Q :=
  let '(vm, cid, _) := a in
  let '(woken, ts) := notify_appctx info (ax_last_ts (axctx q vm cid)) tsc in
  let q := upd_ax vm cid (fun x => x <| ax_last_ts := ts |>) q in
  if woken then q <| aq_woken ::= cons (vm, cid) |> else q.

Definition arx_cache_flush (tsc : Z) (q : appq Q) : option (appq Q) :=
  let ixs := seqZ 0 (arx_num (w_ctx (aq_world q))) in
  '(ps, q) ← arx_alloc ixs q;
  let q := foldl arx_write q (zip ixs ps) in
  let q := foldl (arx_notify tsc) q ps in
  Some (q <| aq_world ::= fun w => w <| w_ctx ::= fun x => x <| arx_num := 0 |> |> |>).

(** The packets whose VM has a budget. *)
Definition rx_budgeted (w : world Q) (fss : list (option Z)) : list bool :=
  map (fun f => match f with
                | None => false
                | Some fid => 0 <? budgets (w_ctx w) !!! vm_id (w_flowst w !!! fid)
                end) fss.

(** When there are such packets, those of the other VMs are dropped. *)
Definition rx_dropped (fss : list (option Z)) (spend : list bool) : list bool :=
  if existsb (fun b => b) spend
  then zip_with (fun f b => match f with None => false | Some _ => negb b end) fss spend
  else map (fun _ => false) fss.

(** One packet: with its flow and time stamp option, or without. The result has whether
    the buffer was used. *)
Definition rx_one (rp : rx_pkt) (drop spend : bool) (fs : option (Z * Z)) (ts tsc : Z) (c : core)
    : option (bool * core) :=
  '(ret, c) ←
    (if drop then Some (0, c)
     else match fs with
          | Some (fid, ts_opt) =>
              '(w, ret) ← fast_flows_packet E (fc_world c) (rp_buf rp) (pkt_tcp_of (rp_bytes rp)) fid ts_opt spend ts;
              Some (ret, set_world w c)
          | None => Some (-1, c)
          end);
  if 0 <? ret then Some (true, c)
  else if ret <? 0 then
    '(w, k) ← fast_kernel_packet E info rss_reta_size rp tsc (fc_world c) (fc_kif c);
    Some (false, set_world w c <| fc_kif := k |>)
  else Some (false, c).

Fixpoint rx_loop (l : list (rx_pkt * bool * bool * option (Z * Z))) (ts tsc : Z) (c : core)
    : option (list bool * core) :=
  match l with
  | [] => Some ([], c)
  | (rp, drop, spend, fs) :: l =>
      '(u, c) ← rx_one rp drop spend fs ts tsc c;
      '(us, c) ← rx_loop l ts tsc c; Some (u :: us, c)
  end.

Definition rx_free (c : core) (a : rx_pkt * bool) : core :=
  let '(rp, used) := a in
  if used : bool then c
  else let '(b, p) := bufcache_free (rb_id (rp_buf rp)) (fc_bufs c) (fc_pool c) in set_bufs b p c.

(** [net n] are the packets the card returns when asked for [n]. *)
Definition poll_rx (net : Z -> list rx_pkt) (ts tsc : Z) (c : core) : option (Z * core) :=
  let rps := net (tx_max BATCH_SIZE c) in
  match rps with
  | [] => Some (0, c)
  | _ :: _ =>
      let w := fc_world c in
      let ps := map (fun rp => pkt_tcp_of (rp_bytes rp)) rps in
      let fss := fast_flows_packet_fss E w ps in
      let spend := rx_budgeted w fss in
      let drop := rx_dropped fss spend in
      let fss := zip_with (fun f (d : bool) => if d then None else f) fss drop in
      opts ← mapM (fun a => fast_flows_packet_parse parse_fuel a)
               (zip (zip ps (map (fun rp => rb_len (rp_buf rp)) rps)) fss);
      '(used, c) ← rx_loop (zip (zip (zip rps drop) spend) opts) ts tsc c;
      q ← arx_cache_flush tsc (fc_aq c);
      Some (Z.of_nat (length rps), foldl rx_free (c <| fc_aq := q |>) (zip rps used))
  end.

(** ** Queues of the applications *)

(** The buffers of the cache that are handed out; [bm] are their contents. *)
Definition nbuf_at (b : bufcache) (bm : Z -> mem) (i : Z) : nbuf :=
  let h := prealloc_handle b i in mk_nbuf h (bm h).

(** The updates, each with the next buffer that is not used yet. *)
Fixpoint bump_loop (b : bufcache) (bm : Z -> mem) (ts : Z) (aqes : list aqe) (num_bufs : Z) (q : appq Q)
    : option (Z * appq Q) :=
  match aqes with
  | [] => Some (num_bufs, q)
  | a :: aqes =>
      '(ret, q) ← fast_appctx_poll_bump E a (nbuf_at b bm num_bufs) ts q;
      bump_loop b bm ts aqes (if ret =? 0 then num_bufs + 1 else num_bufs) q
  end.

Definition poll_active_queues (bm : Z -> mem) (ts : Z) (c : core) : option (Z * core) :=
  let '(max, b, p) := bufcache_prealloc (tx_max BATCH_SIZE c) (fc_bufs c) (fc_pool c) in
  '(aqes, rem, q) ← fast_appctx_poll_fetch_active max (fc_aq c);
  '(num_bufs, q) ← bump_loop b bm ts aqes 0 q;
  b ← bufcache_alloc num_bufs b;
  q ← fast_actx_rxq_probe_active q;
  let q := q <| act_head := pv_next (pvm q (act_head q)) |> <| act_tail := pv_next (pvm q (act_tail q)) |> in
  let q := remove_ctxs_from_active rem q in
  Some (Z.of_nat (length aqes), set_bufs b p c <| fc_aq := q |>).

Definition poll_all_queues (bm : Z -> mem) (ts : Z) (c : core) : option (Z * core) :=
  let '(max, b, p) := bufcache_prealloc (tx_max BATCH_SIZE c) (fc_bufs c) (fc_pool c) in
  '(aqes, q) ← fast_appctx_poll_fetch_all max (fc_aq c);
  '(num_bufs, q) ← bump_loop b bm ts aqes 0 q;
  b ← bufcache_alloc num_bufs b;
  let q := fast_actx_rxq_probe_all q in
  Some (Z.of_nat (length aqes), set_bufs b p c <| fc_aq := q |>).

Definition poll_queues (bm : Z -> mem) (ts : Z) (c : core) : option (Z * core) :=
  let q := fc_aq c in
  '(total, c) ← (if (poll_rounds q mod MAX_POLL_ROUNDS =? 0) || (act_head q =? IDXLIST_INVAL)
                 then poll_all_queues bm ts c else poll_active_queues bm ts c);
  Some (total, c <| fc_aq ::= fun q => q <| poll_rounds := (poll_rounds q + 1) mod MAX_POLL_ROUNDS |> |>).

(** ** The other queues *)

(** Entries of the slow path until [max] buffers are used or there are no more; the result
    has the buffers used and the entries. *)
Fixpoint kernel_loop (fuel : nat) (b : bufcache) (bm : Z -> mem) (ts max k total : Z) (w : world Q) (kc : kctx)
    : option (Z * Z * world Q * kctx) :=
  match fuel with
  | O => None
  | S fuel =>
      if max <=? k then Some (k, total, w, kc)
      else
        '(ret, w, kc) ← fast_kernel_poll E (nbuf_at b bm k) ts w kc;
        if ret =? 0 then kernel_loop fuel b bm ts max (k + 1) (total + 1) w kc
        else if ret <? 0 then Some (k, total, w, kc)
        else kernel_loop fuel b bm ts max k (total + 1) w kc
  end.

Definition poll_kernel (bm : Z -> mem) (ts : Z) (c : core) : option (Z * core) :=
  let max := tx_max BATCH_SIZE c in
  let max := if 8 <? max then 8 else max in
  let '(max, b, p) := bufcache_prealloc max (fc_bufs c) (fc_pool c) in
  let kc := k_ctx (fc_kif c) in
  '(k, total, w, kc) ← kernel_loop (S (S (Z.to_nat (kx_tx_len kc / sizeof_ktx)))) b bm ts max 0 0 (fc_world c) kc;
  b ← bufcache_alloc k b;
  Some (total, set_world w (set_bufs b p c) <| fc_kif ::= fun i => i <| k_ctx := kc |> |>).

Fixpoint qman_loop (b : bufcache) (bm : Z -> mem) (ts : Z) (evs : list (Z * Z)) (off : Z) (w : world Q)
    : option (Z * world Q) :=
  match evs with
  | [] => Some (off, w)
  | (vm, flow) :: evs =>
      '(w, use) ← fast_flows_qman E w vm flow (nbuf_at b bm off) ts;
      qman_loop b bm ts evs (if use =? 0 then off + 1 else off) w
  end.

(** [cur_ts] is the time the queue manager reads. *)
Definition poll_qman (bm : Z -> mem) (orig cur_ts ts : Z) (c : core) : option (Z * core) :=
  let '(max, b, p) := bufcache_prealloc (tx_max BATCH_SIZE c) (fc_bufs c) (fc_pool c) in
  let x := w_ctx (fc_world c) in
  '(t, evs, cnts, total) ← qman_poll (budgets x) (vm_counters x) (counters_total x) orig cur_ts max (qman x);
  let w := fc_world c <| w_ctx ::= fun x =>
             x <| qman := t |> <| vm_counters := cnts |> <| counters_total := total |> |> in
  let c := set_bufs b p (set_world w c) in
  match evs with
  | [] => Some (0, c)
  | _ :: _ =>
      '(off, w) ← qman_loop b bm ts evs 0 (fc_world c);
      b ← bufcache_alloc off b;
      Some (Z.of_nat (length evs), set_world w c <| fc_bufs := b |>)
  end.

Fixpoint fwd_loop (fids : list Z) (w : world Q) : option (world Q) :=
  match fids with
  | [] => Some w
  | fid :: fids => '(w, _) ← fast_flows_qman_fwd w fid; fwd_loop fids w
  end.

Definition poll_qman_fwd (c : core) : option (Z * core) :=
  let n := Z.to_nat (4 * BATCH_SIZE) in
  let fids := take n (fc_fwd c) in
  w ← fwd_loop fids (fc_world c);
  Some (Z.of_nat (length fids), set_world w c <| fc_fwd := drop n (fc_fwd c) |>).

(** ** Budgets *)

(** The cycles of a step are charged to the VMs in proportion to their counters. *)
Fixpoint spend_loop (vms : list Z) (cycles : Z) (sum : spec_float) (x : dataplane_context Q)
    : option (spec_float * dataplane_context Q) :=
  match vms with
  | [] => Some (sum, x)
  | vm :: vms =>
      let counter := double_of_Z (vm_counters x !!! vm) in
      let total := double_of_Z (counters_total x) in
      let sum := SFadd 53 1024 sum counter in
      let ratio := SFdiv 53 1024 counter total in
      cassert (SFleb counter total);;
      cassert (SFleb (double_of_Z 0) ratio && SFleb ratio (double_of_Z 1));;
      let vm_cycles := Z_of_double (SFmul 53 1024 (double_of_Z cycles) ratio) in
      spend_loop vms cycles sum
        (x <| budgets ::= fun h => <[vm := s64 (h !!! vm - vm_cycles)]> h |> <| vm_counters ::= <[vm := 0]> |>)
  end.

Definition spend_budget (cycles : Z) (q : appq Q) : option (appq Q) :=
  let x := w_ctx (aq_world q) in
  if counters_total x =? 0 then Some q
  else
    let count := tas_registered_vm_count_get (aq_reg q) in
    x ← (if count =? 0 then
           Some (foldl (fun x i => x <| vm_counters ::= <[i := 0]> |>) x (seqZ 0 FLEXNIC_PL_VMST_NUM))
         else
           '(sum, x) ← spend_loop (map (fun i => reg_vm_ids (aq_reg q) !!! i) (seqZ 0 count)) cycles (double_of_Z 0) x;
           cassert (SFeqb sum (double_of_Z (counters_total x)));;
           Some x);
    Some (q <| aq_world ::= fun w => w <| w_ctx := x <| counters_total := 0 |> |> |>).

Definition spend (cycles : Z) (c : core) : option core :=
  q ← spend_budget cycles (fc_aq c); Some (c <| fc_aq := q |>).

(** ** Number of cores *)

(** [scale_down] and [scale_up] are the results of the network card. *)
Definition poll_scale (scale_down scale_up : Z -> Z -> Z) (cores_cur scale_to : Z) : option (Z * Z) :=
  if scale_to =? 0 then Some (cores_cur, scale_to)
  else
    cassert (if scale_to <? cores_cur then scale_down cores_cur scale_to =? 0
             else if cores_cur <? scale_to then scale_up cores_cur scale_to =? 0 else true);;
    Some (scale_to, 0).

(** ** A round *)

(** What a round reads from outside: the time stamps and the durations of the steps, the
    packets received, how many packets the card sends, the contents of fresh buffers. *)
Record round_in : Type := mk_round_in {
  ri_cyc : Z; ri_ts : Z; ri_qman_ts : Z; ri_orig : Z;
  ri_d_rx : Z; ri_d_qman : Z; ri_d_queues : Z; ri_d_kernel : Z;
  ri_net : Z -> list rx_pkt; ri_sent1 : Z -> Z; ri_sent2 : Z -> Z;
  ri_bm : Z -> mem }.

(** The body of [dataplane_loop] up to the last flush; the result has the amount of work. *)
Definition dataplane_round (r : round_in) (c : core) : option (Z * core) :=
  '(n1, c) ← poll_rx (ri_net r) (ri_ts r) (ri_cyc r) c;
  c ← spend (ri_d_rx r) c;
  let c := tx_flush (ri_sent1 r (tx_num (w_ctx (fc_world c)))) c in
  '(n2, c) ← poll_qman_fwd c;
  '(n3, c) ← poll_qman (ri_bm r) (ri_orig r) (ri_qman_ts r) (ri_ts r) c;
  c ← spend (ri_d_qman r) c;
  '(n4, c) ← poll_queues (ri_bm r) (ri_ts r) c;
  c ← spend (ri_d_queues r) c;
  '(n5, c) ← poll_kernel (ri_bm r) (ri_ts r) c;
  c ← spend (ri_d_kernel r) c;
  Some (n1 + n2 + n3 + n4 + n5, tx_flush (ri_sent2 r (tx_num (w_ctx (fc_world c)))) c).

(** After a round with [n] entries of work: whether the core blocks; [interrupts_on] is
    whether interrupts could be turned on.  The result has the timeout for which it waits. *)
Definition round_end (fp_interrupts interrupts_on : bool) (n cyc next_ts : Z) (nbs : notify_blockstate)
    : option Z * notify_blockstate :=
  if negb fp_interrupts then (None, nbs)
  else
    let '(block, nbs) := notify_canblock info nbs (negb (n =? 0)) cyc in
    if block then
      (if interrupts_on then Some (if next_ts =? 4294967295 then -1 else next_ts / 1000) else None,
       notify_canblock_reset nbs)
    else (None, nbs).

End FastEmu.
