(* ===== verification/AppQThms.v ===== *)
(** * Polling of the application contexts: theorems

    The entries a round has fetched are handed to [fast_flows_bump] one after the other, and
    freed.  A round is related to the rings as queues: [app_ring] is what an application and
    a core agree on.  Then the theorems about rounds. *)

From S2P Require Import Prelude FpTypes Rng Links Qman QmanProofs QmanPoll TcpCommon FlowTx.
From S2P Require Import FlowRx FlowOps FastPath Examples SpTypes SpState LibTypes LibConn.
From S2P Require Import LibPoll LibProofs BufCache FastKernel Registry AppQ AppQProofs FastEmu.

(** The ring of a context with [n] entries (0: not in use) holds [l]; [hd] is where the
    application writes. *)
Record app_ring (n hd : Z) (ax : appctx) (l : list atx) : Prop := mk_app_ring {
  ar_len : ax_tx_len ax = 16 * n;
  ar_size : n = 0 \/ BATCH_SIZE <= n < 134217728;
  ar_unused : n = 0 -> l = [];
  ar_ring : 0 < n -> ring_of atx_free 16 n (ax_tx ax) (ax_tx_head ax) hd l;
  ar_ok : Forall entry_ok l }.

Section Apply.
Context (E : fpenv) {Q : Type} `{QmanOps Q}.
Implicit Type q : appq Q.

(** The entry [a] stands for, and the event that applies it. *)
Definition entry_of q (a : aqe) : atx := ax_tx (axctx q (ae_vm a) (ae_ctx a)) !!! ae_pos a.
Definition bump_ev (ts : Z) (e : atx) (h : nbuf) : @fp_ev Q :=
  EvBump (atx_flow_id e) (atx_bump_seq e) (atx_rx_bump e) (atx_tx_bump e) (atx_flags e) h ts.

Definition free_at (ring : gmap Z atx) (p : Z) : gmap Z atx := <[p := (ring !!! p) <| atx_type := 0 |>]> ring.
Definition entry_freed q (a : aqe) : appq Q :=
  upd_ax (ae_vm a) (ae_ctx a) (fun x => x <| ax_tx ::= fun r => free_at r (ae_pos a) |>) q.

(** Everything but the type of an entry. *)
Definition same_entry (e e' : atx) : Prop := forall ts h, bump_ev ts e h = bump_ev ts e' h.

Lemma free_at_same ring p p' : same_entry (free_at ring p !!! p') (ring !!! p').
Proof.
  intros ts h. unfold free_at. destruct (decide (p = p')) as [->|Hne];
    [by rewrite lookup_total_insert_eq|by rewrite lookup_total_insert_ne].
Qed.

Lemma entry_freed_same q a a' : same_entry (entry_of (entry_freed q a) a') (entry_of q a').
Proof.
  unfold entry_of, axctx, entry_freed. rewrite aq_ctxs_upd. case_decide as Hd; [|done].
  cbn [ax_tx setf]. rewrite <-Hd. apply free_at_same.
Qed.

Lemma bump_ev_freed ts q a aqes hs :
  zip_with (bump_ev ts) (entry_of (entry_freed q a) <$> aqes) hs = zip_with (bump_ev ts) (entry_of q <$> aqes) hs.
Proof.
  revert hs. induction aqes as [|a' aqes IH]; intros [|h hs]; [done..|]. cbn [fmap list_fmap zip_with].
  f_equal; [apply entry_freed_same|apply IH].
Qed.

Lemma fp_run_bump ts e h es w : fp_run E w (bump_ev ts e h :: es) =
  '(w', _) ← fast_flows_bump E w (atx_flow_id e) (atx_bump_seq e) (atx_rx_bump e) (atx_tx_bump e) (atx_flags e) h ts;
  fp_run E w' es.
Proof. cbn. by destruct (fast_flows_bump _ _ _ _ _ _ _ _ _) as [[]|]. Qed.

(** The loop over the entries is the run of their events; each uses at most one buffer. *)
Lemma bump_loop_run b bm ts aqes : forall k q, exists hs, length hs = length aqes
  /\ Forall (fun h => exists i, k <= i < k + Z.of_nat (length aqes) /\ h = nbuf_at b bm i) hs
  /\ match fp_run E (aq_world q) (zip_with (bump_ev ts) (entry_of q <$> aqes) hs) with
     | None => bump_loop E b bm ts aqes k q = None
     | Some w => exists k', bump_loop E b bm ts aqes k q = Some (k', (foldl entry_freed q aqes) <| aq_world := w |>)
                 /\ k <= k' <= k + Z.of_nat (length aqes)
     end.
Proof.
  induction aqes as [|a aqes IH]; intros k q.
  { exists []. split; [done|]. split; [done|]. exists k. cbn. split; [|lia]. by destruct q. }
  cbn [bump_loop length]. unfold fast_appctx_poll_bump. change (ax_tx (axctx q (ae_vm a) (ae_ctx a)) !!! ae_pos a) with (entry_of q a).
  set (h := nbuf_at b bm k). set (e := entry_of q a).
  destruct (fast_flows_bump E (aq_world q) (atx_flow_id e) (atx_bump_seq e) (atx_rx_bump e) (atx_tx_bump e) (atx_flags e) h ts)
    as [[w ret]|] eqn:Eb; cbn [mbind option_bind].
  - set (q1 := upd_ax _ _ _ _). set (k1 := if _ =? 0 then k + 1 else k).
    assert (Hk1 : k <= k1 <= k + 1) by (subst k1; case_match; lia).
    destruct (IH k1 q1) as (hs & Hl & Hf & Hm). exists (h :: hs). split; [cbn; lia|]. split.
    { apply Forall_cons. split; [exists k; split; [lia|done]|]. eapply Forall_impl; [exact Hf|].
      intros x (i & Hi & ->). exists i. split; [lia|done]. }
    change (zip_with (bump_ev ts) (entry_of q <$> a :: aqes) (h :: hs))
      with (bump_ev ts e h :: zip_with (bump_ev ts) (entry_of q <$> aqes) hs).
    rewrite fp_run_bump, Eb. cbn [mbind option_bind].
    assert (E1 : zip_with (bump_ev ts) (entry_of q1 <$> aqes) hs = zip_with (bump_ev ts) (entry_of q <$> aqes) hs)
      by (etransitivity; [|apply (bump_ev_freed ts q a)]; done).
    rewrite E1 in Hm. change (aq_world q1) with w in Hm. destruct (fp_run E w _) as [w'|]; [|done].
    destruct Hm as (k' & -> & Hk'). exists k'. split; [|lia]. f_equal. f_equal.
    assert (E2 : forall l q2 w2, foldl entry_freed (q2 <| aq_world := w2 |>) l = (foldl entry_freed q2 l) <| aq_world := w2 |>).
    { induction l as [|x l IHl]; intros q2 w2; [done|]. cbn [foldl]. by rewrite <-IHl. }
    change q1 with ((entry_freed q a) <| aq_world := w |>). rewrite E2. done.
  - exists (replicate (S (length aqes)) h). split; [by rewrite length_replicate|]. split.
    { apply Forall_replicate. exists k. split; [lia|done]. }
    cbn [replicate]. change (zip_with (bump_ev ts) (entry_of q <$> a :: aqes) (h :: ?l))
      with (bump_ev ts e h :: zip_with (bump_ev ts) (entry_of q <$> aqes) l).
    by rewrite fp_run_bump, Eb.
Qed.

(** ** The rings afterwards *)

Lemma freed_ctxs aqes : forall q vc,
  let ax := aq_ctxs q !!! vc in
  aq_ctxs (foldl entry_freed q aqes) !!! vc = ax <| ax_tx := foldl free_at (ax_tx ax) (ae_pos <$> fetched aqes vc) |>.
Proof.
  induction aqes as [|a aqes IH]; intros q vc ax; subst ax.
  { cbn. by destruct (aq_ctxs q !!! vc). }
  cbn [foldl]. rewrite IH. unfold entry_freed. rewrite aq_ctxs_upd. unfold fetched.
  destruct (decide ((ae_vm a, ae_ctx a) = vc)) as [<-|Hd].
  - rewrite decide_True, filter_cons_True by done. cbn [fmap list_fmap foldl ax_tx setf].
    by destruct (aq_ctxs q !!! _).
  - rewrite decide_False, filter_cons_False by congruence. done.
Qed.

Lemma freed_slots n t ring k : 0 < n -> Z.of_nat k <= n ->
  let ring' := foldl free_at ring ((fun i => slot 16 n t i) <$> seqZ 0 (Z.of_nat k)) in
  (forall i, 0 <= i < Z.of_nat k -> atx_type (ring' !!! slot 16 n t i) = 0)
  /\ forall i, Z.of_nat k <= i < n -> ring' !!! slot 16 n t i = ring !!! slot 16 n t i.
Proof.
  intros Hn. induction k as [|k IH]; intros Hk ring'; subst ring'; [split; [lia|done]|].
  rewrite Nat2Z.inj_succ, <-Z.add_1_r, seqZ_app, fmap_app, foldl_app by lia.
  destruct (IH ltac:(lia)) as [H1 H2]. set (r := foldl free_at ring _) in *.
  change (seqZ (0 + Z.of_nat k) 1) with [0 + Z.of_nat k]. cbn [fmap list_fmap foldl]. rewrite Z.add_0_l. unfold free_at. split.
  - intros i Hi. destruct (decide (i = Z.of_nat k)) as [->|Hne]; [by rewrite lookup_total_insert_eq|].
    rewrite lookup_total_insert_ne; [apply H1; lia|]. intros Hs%slot_inj; lia.
  - intros i Hi. rewrite lookup_total_insert_ne; [apply H2; lia|]. intros Hs%slot_inj; lia.
Qed.

Context (n hd : Z * Z -> Z) (L : Z * Z -> list atx).

Definition app_rings (n hd : Z * Z -> Z) (L : Z * Z -> list atx) q : Prop :=
  forall vc, app_ring (n vc) (hd vc) (aq_ctxs q !!! vc) (L vc).

(** The index of the first entry in use. *)
Definition first_of q (vc : Z * Z) : Z := ax_tx_head (aq_ctxs q !!! vc) / 16.

Lemma slot_first m t : 0 <= t < m -> slot 16 m t 0 / 16 = t.
Proof. intros Ht. unfold slot. rewrite Z.add_0_r, Z.mod_small, Z.mul_comm, Z.div_mul by lia. done. Qed.

Lemma app_rings_polling q : app_rings n hd L q -> polling n (first_of q) L q q [].
Proof.
  intros Hr. constructor; [|done|done|by apply same_but_refl|done]. intros vc. exists 0%nat. split; [|done].
  destruct (Hr vc) as [Hlen Hsz Hun Hring Hok].
  assert (Hpos : 0 < n vc -> exists t, 0 <= t < n vc /\ first_of q vc = t /\ ax_tx_head (aq_ctxs q !!! vc) = slot 16 (n vc) t 0
    /\ Z.of_nat (length (L vc)) <= n vc
    /\ (forall i e, L vc !! i = Some e -> ax_tx (aq_ctxs q !!! vc) !!! slot 16 (n vc) t (Z.of_nat i) = e)
    /\ (forall i, Z.of_nat (length (L vc)) <= i < n vc -> atx_type (ax_tx (aq_ctxs q !!! vc) !!! slot 16 (n vc) t i) = 0)).
  { intros Hn. destruct (Hring Hn) as [_ Hl (t & Ht & E1 & _ & He & Hf) _]. exists t.
    assert (Ef : first_of q vc = t) by (unfold first_of; rewrite E1; by apply slot_first).
    do 5 (split; [done|]). intros i Hi. apply Z.eqb_eq. exact (Hf i Hi). }
  assert (Hn0 : n vc = 0 \/ 0 < n vc) by (unfold BATCH_SIZE in *; lia).
  constructor; try done.
  - intros Hn. by destruct (Hpos Hn) as (t & Ht & -> & _).
  - lia.
  - destruct Hn0 as [E0|Hn]; [rewrite (Hun E0); cbn; lia|]. by destruct (Hpos Hn) as (t & _ & _ & _ & Hl & _).
  - intros Hn. by destruct (Hpos Hn) as (t & _ & -> & -> & _).
  - intros i e Hi. destruct Hn0 as [E0|Hn]; [by rewrite (Hun E0) in Hi|].
    destruct (Hpos Hn) as (t & _ & -> & _ & _ & He & _). by apply He.
  - intros i Hi. destruct (Hpos ltac:(lia)) as (t & _ & -> & _ & _ & _ & Hf). by apply Hf.
Qed.

Lemma ar_hd q vc : app_rings n hd L q -> 0 < n vc ->
  hd vc = slot 16 (n vc) (first_of q vc) (Z.of_nat (length (L vc))).
Proof.
  intros Hr Hn. destruct (ar_ring _ _ _ _ (Hr vc) Hn) as [_ _ (t & Ht & E1 & -> & _) _].
  unfold first_of. by rewrite E1, slot_first.
Qed.

(** The entries fetched are the first ones of every context. *)
Lemma fetched_entries q0 q aqes vc : app_rings n hd L q0 -> polling n (first_of q0) L q0 q aqes ->
  entry_of q <$> fetched aqes vc = take (length (fetched aqes vc)) (L vc).
Proof.
  intros Hr0 Hp. destruct (pl_ring _ _ _ _ _ _ Hp vc) as (k & Hr & Hf). rewrite Hf, handles_len.
  apply list_eq. intros i. unfold handles. rewrite <-list_fmap_compose, list_lookup_fmap.
  pose proof (tr_fetched _ _ _ _ _ _ Hr) as Hk.
  destruct (decide (i < k)%nat) as [Hi|Hi].
  - rewrite lookup_seqZ_lt, lookup_take_lt by lia. destruct (lookup_lt_is_Some_2 (L vc) i) as [e He]; [lia|].
    rewrite He. cbn. unfold entry_of, axctx. cbn. f_equal. rewrite <-surjective_pairing. by apply (tr_entries _ _ _ _ _ _ Hr).
  - by rewrite lookup_seqZ_ge, lookup_take_ge by lia.
Qed.

(** After the entries have been freed, the rings hold the rest. *)
Lemma freed_rings q0 q q' aqes : app_rings n hd L q0 -> polling n (first_of q0) L q0 q aqes ->
  (forall vc, let ax := aq_ctxs (foldl entry_freed q aqes) !!! vc in
     ax_tx (aq_ctxs q' !!! vc) = ax_tx ax /\ ax_tx_head (aq_ctxs q' !!! vc) = ax_tx_head ax
     /\ ax_tx_len (aq_ctxs q' !!! vc) = ax_tx_len ax) ->
  app_rings n hd (fun vc => drop (length (fetched aqes vc)) (L vc)) q'.
Proof.
  intros Hr0 Hp Hq' vc. destruct (pl_ring _ _ _ _ _ _ Hp vc) as (k & Hr & Hf).
  pose proof (Hq' vc) as (E1 & E2 & E3). rewrite freed_ctxs in E1, E2, E3. cbn [ax_tx ax_tx_head ax_tx_len setf] in *.
  pose proof Hr as [Hlen Hsz Hun Hfi Hk Hc Hh He Hfr Hok]. rewrite Hf, handles_len. constructor.
  - by rewrite E3.
  - done.
  - intros E0. rewrite (Hun E0). by destruct k.
  - intros Hn. rewrite E1, E2, (Hh Hn), (ar_hd _ _ Hr0 Hn), Hf. unfold handles. rewrite <-list_fmap_compose.
    change (ae_pos ∘ _) with (fun i => slot 16 (n vc) (first_of q0 vc) i).
    set (t := first_of q0 vc) in *. specialize (Hfi Hn).
    destruct (freed_slots (n vc) t (ax_tx (aq_ctxs q !!! vc)) k Hn ltac:(lia)) as [F1 F2].
    set (ring' := foldl _ _ _) in *. constructor; [lia|rewrite length_drop; lia| |].
    + exists ((t + Z.of_nat k) mod n vc).
      assert (Es : forall i, slot 16 (n vc) ((t + Z.of_nat k) mod n vc) i = slot 16 (n vc) t (Z.of_nat k + i)).
      { intros i. unfold slot. rewrite Z.add_mod_idemp_l by lia. do 2 f_equal. lia. }
      rewrite !Es, length_drop. split; [apply Z.mod_pos_bound; lia|].
      split; [f_equal; lia|]. split; [f_equal; lia|]. split.
      * intros i e Hi. rewrite lookup_drop in Hi. pose proof (lookup_lt_Some _ _ _ Hi).
        rewrite Es, F2 by lia. rewrite <-(He _ _ Hi). do 2 f_equal. lia.
      * intros i Hi. rewrite Es. unfold atx_free. apply Z.eqb_eq.
        destruct (decide (Z.of_nat k + i < n vc)) as [Hlt|Hge].
        -- rewrite F2 by lia. apply Hfr. lia.
        -- replace (slot 16 (n vc) t (Z.of_nat k + i)) with (slot 16 (n vc) t (Z.of_nat k + i - n vc)).
           { apply F1. lia. }
           unfold slot. f_equal. replace (t + (Z.of_nat k + i)) with (t + (Z.of_nat k + i - n vc) + 1 * n vc) by lia.
           by rewrite Z_mod_plus_full.
    + apply Forall_drop. eapply Forall_impl; [exact Hok|]. intros e [Ht _]. unfold atx_free. by rewrite Ht.
  - by apply Forall_drop.
Qed.

(** ** Probing the receive rings *)

(** Only the number of free entries of the receive rings changes. *)
Definition probe_frame q q' : Prop :=
  aq_world q' = aq_world q /\ aq_reg q' = aq_reg q /\ aq_woken q' = aq_woken q /\ polled_vms q' = polled_vms q
  /\ act_head q' = act_head q /\ act_tail q' = act_tail q /\ poll_next_vm q' = poll_next_vm q
  /\ poll_rounds q' = poll_rounds q
  /\ forall vc, exists a, aq_ctxs q' !!! vc = (aq_ctxs q !!! vc) <| ax_rx_avail := a |>.

#[export] Instance probe_frame_preorder : PreOrder probe_frame.
Proof.
  split.
  - intros q. unfold probe_frame. split_and!; try done. intros vc. exists (ax_rx_avail (aq_ctxs q !!! vc)).
    by destruct (aq_ctxs q !!! vc).
  - intros x y z (A1 & A2 & A3 & A4 & A5 & A6 & A7 & A8 & A9) (B1 & B2 & B3 & B4 & B5 & B6 & B7 & B8 & B9).
    unfold probe_frame. split_and!; try congruence. intros vc. destruct (A9 vc) as [a Ea]. destruct (B9 vc) as [b Eb].
    exists b. rewrite Eb, Ea. done.
Qed.

Lemma rxq_probe_frame vm c q : probe_frame q (fast_actx_rxq_probe vm c q).
Proof.
  unfold fast_actx_rxq_probe. case_match; [done|]. unfold probe_frame. split_and!; try done.
  intros vc. rewrite aq_ctxs_upd. case_decide as Hd; [subst vc; by eexists|].
  exists (ax_rx_avail (aq_ctxs q !!! vc)). by destruct (aq_ctxs q !!! vc).
Qed.

Lemma foldl_frame {A} (f : appq Q -> A -> appq Q) l : (forall q x, probe_frame q (f q x)) ->
  forall q, probe_frame q (foldl f q l).
Proof. intros Hf. induction l as [|x l IH]; intros q; [done|]. cbn. etransitivity; [apply Hf|apply IH]. Qed.

Lemma probe_all_frame q : probe_frame q (fast_actx_rxq_probe_all q).
Proof.
  apply foldl_frame. intros q1 i. apply foldl_frame. intros q2 j. apply rxq_probe_frame.
Qed.

Lemma probe_rings q q' vms cs : probe_frame q q' -> rings_ok q vms cs -> rings_ok q' vms cs.
Proof. intros (_ & _ & _ & E4 & E5 & E6 & _). by apply rings_ok_same. Qed.

Lemma probe_active_vm_loop_ok B : forall fuel vm id A c q vms cs, rings_ok q vms cs -> 0 <= vm < FLEXNIC_PL_VMST_NUM ->
  cs vm = A ++ c :: B -> (length B < fuel)%nat ->
  exists q', probe_active_vm_loop fuel vm id c q = Some q' /\ probe_frame q q'.
Proof.
  induction B as [|d B IH]; intros fuel vm id A c q vms cs Hk Hv Hcs Hfu; (destruct fuel as [|fuel]; [lia|]);
    cbn [probe_active_vm_loop length] in *; set (q1 := fast_actx_rxq_probe id c q);
    assert (Hf1 : probe_frame q q1) by apply rxq_probe_frame;
    pose proof (probe_rings _ _ _ _ Hf1 Hk) as Hk1; pose proof (rk_ctxs _ _ _ Hk1 vm Hv) as Hva; rewrite Hcs in Hva;
    pose proof (circ_next _ _ _ _ _ _ _ _ (va_ring _ _ _ Hva)) as Hnx; change (pctx q1 vm c) with (vctx (pvm q1 vm) c);
    pose proof (ci_head _ _ _ _ _ _ (va_ring _ _ _ Hva)) as Hhd; rewrite Hnx, Hhd.
  - replace (hd_of IDXLIST_INVAL ([] ++ A ++ [c])) with (hd_of IDXLIST_INVAL (A ++ [c])) by done. rewrite Z.eqb_refl. by exists q1.
  - cbn [app]. change (hd_of IDXLIST_INVAL (d :: _)) with d. case_match.
    + by exists q1.
    + destruct (IH fuel vm id (A ++ [c]) d q1 vms cs Hk1 Hv) as (q2 & -> & Hf2); [by rewrite <-app_assoc|lia|].
      exists q2. split; [done|]. by etransitivity.
Qed.

Lemma probe_active_vm_ok vm q vms cs : rings_ok q vms cs -> 0 <= vm < FLEXNIC_PL_VMST_NUM -> cs vm <> [] ->
  exists q', fast_actx_rxq_probe_active_vm vm q = Some q' /\ probe_frame q q'.
Proof.
  intros Hk Hv Hne. destruct (cs vm) as [|c B] eqn:Hcs; [done|]. unfold fast_actx_rxq_probe_active_vm.
  pose proof (rk_ctxs _ _ _ Hk vm Hv) as Hva. rewrite Hcs in Hva. rewrite (va_head_in _ _ _ _ Hva).
  apply (probe_active_vm_loop_ok B _ vm _ [] c q vms cs Hk Hv Hcs). by apply (ctx_fuel_enough vm q vms cs c B).
Qed.

Lemma probe_active_loop_ok B : forall fuel A v q vms cs, active_ok q vms cs -> vms = A ++ v :: B -> (length B < fuel)%nat ->
  exists q', probe_active_loop fuel v q = Some q' /\ probe_frame q q'.
Proof.
  induction B as [|d B IH]; intros fuel A v q vms cs Hac Hvms Hfu; (destruct fuel as [|fuel]; [lia|]);
    cbn [probe_active_loop length] in *; pose proof Hac as [Hk Hu];
    assert (Hvin : v ∈ vms) by (rewrite Hvms; apply elem_of_app; right; apply list_elem_of_here);
    assert (Hv : 0 <= v < FLEXNIC_PL_VMST_NUM) by (pose proof (rk_range _ _ _ Hk) as Hr; rewrite Forall_forall in Hr; by apply Hr);
    destruct (probe_active_vm_ok v q vms cs Hk Hv (proj1 (Hu v Hv) Hvin)) as (q1 & -> & Hf1); cbn [mbind option_bind];
    pose proof (probe_rings _ _ _ _ Hf1 Hk) as Hk1; pose proof (rk_ring _ _ _ Hk1) as Hri; rewrite Hvms in Hri;
    pose proof (circ_next _ _ _ _ _ _ _ _ Hri) as Hnx; pose proof (ci_head _ _ _ _ _ _ Hri) as Hhd; rewrite Hnx, Hhd.
  - replace (hd_of IDXLIST_INVAL ([] ++ A ++ [v])) with (hd_of IDXLIST_INVAL (A ++ [v])) by done. rewrite Z.eqb_refl. by exists q1.
  - cbn [app]. change (hd_of IDXLIST_INVAL (d :: _)) with d. case_match; [by exists q1|].
    destruct (IH fuel (A ++ [v]) d q1 vms cs) as (q2 & -> & Hf2); [by split|by rewrite <-app_assoc|lia|].
    exists q2. split; [done|]. by etransitivity.
Qed.

Lemma probe_active_ok q vms cs : active_ok q vms cs -> vms <> [] ->
  exists q', fast_actx_rxq_probe_active q = Some q' /\ probe_frame q q'.
Proof.
  intros Hac Hne. destruct vms as [|v B]; [done|]. pose proof Hac as [Hk _]. unfold fast_actx_rxq_probe_active.
  assert (Eh : act_head q = v) by exact (ci_head _ _ _ _ _ _ (rk_ring _ _ _ Hk)).
  rewrite Eh. apply (probe_active_loop_ok B _ [] v q (v :: B) cs Hac); [done|].
  pose proof (nodup_bound _ _ (rk_nodup _ _ _ Hk) (rk_range _ _ _ Hk)) as Hb. cbn [length] in Hb.
  unfold vm_fuel, FLEXNIC_PL_VMST_NUM in *. lia.
Qed.

(** ** Where the next rounds start *)

Lemma fetch_next vm c spend q r q' : fast_appctx_poll_fetch vm c spend q = Some (r, q') -> next_frame q q'.
Proof.
  unfold fast_appctx_poll_fetch. case_match; [by intros [= <- <-]|]. case_match; [by intros [= <- <-]|].
  destruct (_ =? FLEXTCP_PL_ATX_CONNUPDATE); [|done]. cbn [cassert mbind option_bind].
  destruct (_ <? FLEXNIC_PL_FLOWST_NUM); [|done]. cbn [cassert mbind option_bind]. intros [= <- <-]. by case_match.
Qed.

Lemma next_upd vm f q : (forall v, poll_next_ctx (f v) = poll_next_ctx v) -> next_frame q (upd_vm vm f q).
Proof. intros Hf. split; [done|]. intros v. rewrite pvm_upd. case_decide as Hd; [subst v; by rewrite Hf|done]. Qed.

Lemma active_ctx_next m : forall vm cid max spend aqes rem q r q',
  fetch_active_ctx_loop m vm cid max spend aqes rem q = Some (r, q') -> next_frame q q'.
Proof.
  induction m as [|m IH]; intros vm cid max spend aqes rem q r q'; cbn [fetch_active_ctx_loop]; [by intros [= <- <-]|].
  case_match; [by intros [= <- <-]|]. destruct (fast_appctx_poll_fetch _ _ _ _) as [[o q1]|] eqn:Ef; [|done].
  apply fetch_next in Ef. cbn [mbind option_bind]. assert (Hu : forall f, next_frame q (upd_pctx vm cid f q1)).
  { intros f. etransitivity; [exact Ef|]. by apply next_upd. }
  destruct o as [a|]; [intros Hx; apply IH in Hx; etransitivity; [apply Hu|exact Hx]|].
  case_match; [|intros [= <- <-]; apply Hu]. destruct (_ <? BATCH_SIZE); [|done]. cbn. intros [= <- <-]. apply Hu.
Qed.

Lemma active_vm_loop_next fuel : forall vm cid max spend aqes rem q r q',
  fetch_active_vm_loop fuel vm cid max spend aqes rem q = Some (r, q') -> next_frame q q'.
Proof.
  induction fuel as [|fuel IH]; intros vm cid max spend aqes rem q r q'; cbn [fetch_active_vm_loop]; [done|].
  destruct (fast_appctx_poll_fetch_active_ctx _ _ _ _ _ _ _) as [[[a1 r1] q1]|] eqn:Ef; [|done].
  apply active_ctx_next in Ef. cbn [mbind option_bind]. case_match; [|by intros [= <- <-]].
  intros Hx. apply IH in Hx. etransitivity; [exact Ef|exact Hx].
Qed.

Lemma active_vm_next vm max spend aqes rem q r q' :
  fast_appctx_poll_fetch_active_vm vm max spend aqes rem q = Some (r, q') -> next_frame q q'.
Proof.
  unfold fast_appctx_poll_fetch_active_vm.
  destruct (fetch_active_vm_loop _ _ _ _ _ _ _ _) as [[[a1 r1] q1]|] eqn:Ef; [|done]. cbn [mbind option_bind].
  apply active_vm_loop_next in Ef. intros [= <- <-]. etransitivity; [exact Ef|]. by apply next_upd.
Qed.

Lemma active_loop_next fuel : forall vm max aqes rem oob q r q',
  fetch_active_loop fuel vm max aqes rem oob q = Some (r, q') -> next_frame q q'.
Proof.
  induction fuel as [|fuel IH]; intros vm max aqes rem oob q r q'; cbn [fetch_active_loop]; [done|].
  destruct (if 0 <? _ then _ else _) as [[[[a1 r1] o1] q1]|] eqn:Ef; [|done]. cbn [mbind option_bind].
  assert (H1 : next_frame q q1).
  { revert Ef. case_match; [|by intros [= <- <- <- <-]].
    destruct (fast_appctx_poll_fetch_active_vm _ _ _ _ _ _) as [[[a2 r2] q2]|] eqn:Ev; [|done]. cbn.
    intros [= <- <- <- <-]. by eapply active_vm_next. }
  destruct (negb _ && _); [|by intros [= <- <-]]. intros Hx. apply IH in Hx. etransitivity; [exact H1|exact Hx].
Qed.

Lemma active_oob_next oob : forall max aqes rem q r q',
  fetch_active_oob oob max aqes rem q = Some (r, q') -> next_frame q q'.
Proof.
  induction oob as [|vm oob IH]; intros max aqes rem q r q'; cbn [fetch_active_oob]; [by intros [= <- <-]|].
  destruct (if _ <? max then _ else _) as [[[a1 r1] q1]|] eqn:Ef; [|done]. cbn [mbind option_bind].
  assert (H1 : next_frame q q1) by (revert Ef; case_match; [apply active_vm_next|by intros [= <- <- <-]]).
  intros Hx. apply IH in Hx. etransitivity; [exact H1|exact Hx].
Qed.

Lemma active_next max q r q' : fast_appctx_poll_fetch_active max q = Some (r, q') -> next_frame q q'.
Proof.
  unfold fast_appctx_poll_fetch_active. destruct (fetch_active_loop _ _ _ _ _ _ _) as [[[[a1 r1] o1] q1]|] eqn:Ef; [|done].
  cbn [mbind option_bind]. apply active_loop_next in Ef. destruct a1; [|by intros [= <- <-]].
  intros Hx. apply active_oob_next in Hx. etransitivity; [exact Ef|exact Hx].
Qed.

End Apply.

(** * Theorems about polling the applications *)

(** The polling state of a core: the rings of all contexts as queues, the rings of active
    VMs and contexts, and the positions where the next rounds start. *)
Record core_ok {Q} `{QmanOps Q} (n hd : Z * Z -> Z) (L : Z * Z -> list atx) (q : appq Q) : Prop := mk_core_ok {
  co_rings : app_rings n hd L q;
  co_active : exists vms cs, active_ok q vms cs;
  co_next : next_ok q }.

Section Poll.
Context (E : fpenv) {Q P : Type} `{QmanOps Q, MempoolLaws P}.
Abbreviation core := (fpcore Q P).

(** What is fetched of each context and what is left. *)
Definition taken (L : Z * Z -> list atx) (aqes : list aqe) (vc : Z * Z) : list atx := take (length (fetched aqes vc)) (L vc).
Definition left_over (L : Z * Z -> list atx) (aqes : list aqe) (vc : Z * Z) : list atx := drop (length (fetched aqes vc)) (L vc).

(** The updates [aqes] of the entries [es] applied one by one, each with a buffer that
    has been reserved: [poll] is what the round then returns. *)
Definition applied (ts max : Z) (b : bufcache) (bm : Z -> mem) (es : list atx) (w : world Q)
    (poll : option (Z * core)) (ok : world Q -> core -> Prop) : Prop :=
  exists hs, length hs = length es
  /\ Forall (fun h => exists i, 0 <= i < max /\ h = nbuf_at b bm i) hs
  /\ match fp_run E w (zip_with (bump_ev ts) es hs) with
     | None => poll = None
     | Some w' => exists c', poll = Some (Z.of_nat (length es), c') /\ ok w' c'
     end.

Lemma tx_max_range (c : core) : 0 <= tx_num (w_ctx (fc_world c)) <= TXBUF_SIZE -> 0 <= tx_max BATCH_SIZE c <= BATCH_SIZE.
Proof. unfold tx_max, TXBUF_SIZE, BATCH_SIZE. intros. case_match; lia. Qed.

(** The updates applied and the buffers taken. *)
Lemma bump_alloc b bm ts max aqes q l : buf_rep b l -> Z.of_nat (length aqes) <= max <= Z.of_nat (length l) ->
  exists hs, length hs = length (entry_of q <$> aqes)
  /\ Forall (fun h => exists i, 0 <= i < max /\ h = nbuf_at b bm i) hs
  /\ match fp_run E (aq_world q) (zip_with (bump_ev ts) (entry_of q <$> aqes) hs) with
     | None => bump_loop E b bm ts aqes 0 q = None
     | Some w => exists k b', bump_loop E b bm ts aqes 0 q = Some (k, (foldl entry_freed q aqes) <| aq_world := w |>)
          /\ bufcache_alloc k b = Some b'
     end.
Proof.
  intros Hb Hl. destruct (bump_loop_run E b bm ts aqes 0 q) as (hs & Hlen & Hf & Hm). exists hs.
  split; [by rewrite length_fmap|]. split.
  { eapply Forall_impl; [exact Hf|]. intros x (i & Hi & ->). exists i. split; [lia|done]. }
  destruct (fp_run E _ _) as [w|]; [|done]. destruct Hm as (k & Ek & Hk).
  destruct (bufcache_alloc_ok (Z.to_nat k) b l Hb ltac:(lia)) as (b' & Eb & _). rewrite Z2Nat.id in Eb by lia.
  by exists k, b'.
Qed.

Lemma freed_frame aqes (q : appq Q) : polled_vms (foldl entry_freed q aqes) = polled_vms q
  /\ act_head (foldl entry_freed q aqes) = act_head q /\ act_tail (foldl entry_freed q aqes) = act_tail q
  /\ poll_next_vm (foldl entry_freed q aqes) = poll_next_vm q /\ aq_reg (foldl entry_freed q aqes) = aq_reg q.
Proof. revert q. induction aqes as [|a aqes IH]; intros q; [done|]. cbn [foldl]. by destruct (IH (entry_freed q a)) as (-> & -> & -> & -> & ->). Qed.

(** Fetching does not change the entries. *)
Lemma entry_same n hd L aqes (q0 q : appq Q) : app_rings n hd L q0 -> polling n (first_of q0) L q0 q aqes ->
  entry_of q <$> aqes = entry_of q0 <$> aqes.
Proof.
  intros Hr Hp. apply list_fmap_ext. intros i a Ha. apply list_elem_of_lookup_2 in Ha.
  set (vc := (ae_vm a, ae_ctx a)). destruct (pl_ring _ _ _ _ _ _ Hp vc) as (k & Hk & Hf).
  destruct (pl_ring _ _ _ _ _ _ (app_rings_polling n hd L q0 Hr) vc) as (k0 & Hk0 & _).
  assert (Hin : a ∈ fetched aqes vc) by by apply list_elem_of_filter.
  rewrite Hf in Hin. apply list_elem_of_fmap in Hin as (j & Ea & Hj). apply elem_of_seqZ in Hj.
  pose proof (tr_fetched _ _ _ _ _ _ Hk) as Hkl.
  destruct (lookup_lt_is_Some_2 (L vc) (Z.to_nat j)) as [e He]; [lia|].
  pose proof (tr_entries _ _ _ _ _ _ Hk _ _ He) as E1. pose proof (tr_entries _ _ _ _ _ _ Hk0 _ _ He) as E2.
  rewrite Z2Nat.id in E1, E2 by lia. apply (f_equal ae_pos) in Ea. cbn [ae_pos] in Ea.
  unfold entry_of, axctx. change (ae_vm a, ae_ctx a) with vc. by rewrite Ea, E1, E2.
Qed.

Lemma taken_entries n hd L aqes (q0 q : appq Q) vc : app_rings n hd L q0 -> polling n (first_of q0) L q0 q aqes ->
  entry_of q0 <$> fetched aqes vc = taken L aqes vc.
Proof.
  intros Hr Hp. unfold taken. rewrite <-(fetched_entries n hd L q0 q aqes vc Hr Hp). symmetry. unfold fetched.
  apply list_fmap_ext. intros i a Ha. apply list_elem_of_lookup_2, list_elem_of_filter in Ha as [_ Ha].
  apply list_elem_of_lookup in Ha as [j Hj]. pose proof (entry_same n hd L aqes q0 q Hr Hp) as E1.
  apply (f_equal (.!! j)) in E1. rewrite !list_lookup_fmap, Hj in E1. by injection E1.
Qed.

(** The end of a round. *)
Lemma round_applied n hd L ts max b bm aqes (q0 q : appq Q) bl (poll : option (Z * core)) ok :
  app_rings n hd L q0 -> polling n (first_of q0) L q0 q aqes -> buf_rep b bl ->
  Z.of_nat (length aqes) <= max <= Z.of_nat (length bl) ->
  poll = ('(k, q) ← bump_loop E b bm ts aqes 0 q; b ← bufcache_alloc k b; ok b q) ->
  forall res : world Q -> core -> Prop,
  (forall w b', exists c', ok b' ((foldl entry_freed q aqes) <| aq_world := w |>) = Some (Z.of_nat (length aqes), c')
     /\ res w c') ->
  applied ts max b bm (entry_of q0 <$> aqes) (aq_world q) poll res.
Proof.
  intros Hr Hp Hb Hl -> res Hok. rewrite <-(entry_same n hd L aqes q0 q Hr Hp).
  destruct (bump_alloc b bm ts max aqes q bl Hb Hl) as (hs & G1 & G2 & G3). exists hs. split; [done|]. split; [done|].
  destruct (fp_run E _ _) as [w|]; [|by rewrite G3]. destruct G3 as (k & b' & -> & Ea). cbn [mbind option_bind].
  rewrite Ea. cbn [mbind option_bind]. destruct (Hok w b') as (c' & -> & Hc). rewrite length_fmap. by exists c'.
Qed.

Lemma next_ok_same (q q' : appq Q) : poll_next_vm q' = poll_next_vm q -> polled_vms q' = polled_vms q -> next_ok q -> next_ok q'.
Proof. intros E1 E2 [N1 N2]. split; [by rewrite E1|]. intros v. unfold pvm. rewrite E2. apply N2. Qed.

Lemma active_same (q q' : appq Q) vms cs : polled_vms q' = polled_vms q -> act_head q' = act_head q ->
  act_tail q' = act_tail q -> active_ok q vms cs -> active_ok q' vms cs.
Proof. intros E1 E2 E3 [Hk Hu]. split; [by apply (rings_ok_same q)|done]. Qed.

(** The reservation at the start of a round. *)
Lemma round_prealloc (c : core) bl : buf_rep (fc_bufs c) bl -> 0 <= tx_num (w_ctx (fc_world c)) <= TXBUF_SIZE ->
  exists max b p bl', bufcache_prealloc (tx_max BATCH_SIZE c) (fc_bufs c) (fc_pool c) = (max, b, p)
  /\ buf_rep b bl' /\ 0 <= max <= BATCH_SIZE /\ max <= Z.of_nat (length bl').
Proof.
  intros Hb Ht. pose proof (tx_max_range c Ht) as Hm.
  destruct (bufcache_prealloc_ok (tx_max BATCH_SIZE c) (fc_bufs c) (fc_pool c) bl Hb ltac:(unfold BATCH_SIZE in *; lia))
    as (new & max & b & p & -> & Hb' & _ & _ & Hx & _). exists max, b, p, (bl ++ new). split_and!; try done; lia.
Qed.
End Poll.

(** A round over all contexts takes updates of the applications off their rings as off
    queues and applies them in that order: exactly what the sequence of [fast_flows_bump]
    does, each update once, with a buffer that has been reserved; what is left stays in
    the rings.  The polling state is consistent again.  As long as not all buffers are
    used, every registered context of a VM that has a budget is drained, and every
    registered context when there was nothing to apply. *)
Theorem poll_all_queues_applies (E : fpenv) {Q P} `{QmanOps Q, MempoolLaws P} n hd L rvms rcs bm ts (c : fpcore Q P) bl :
  core_ok n hd L (fc_aq c) -> registered (aq_reg (fc_aq c)) rvms rcs -> buf_rep (fc_bufs c) bl ->
  0 <= tx_num (w_ctx (fc_world c)) <= TXBUF_SIZE ->
  let '(max, b, p) := bufcache_prealloc (tx_max BATCH_SIZE c) (fc_bufs c) (fc_pool c) in
  exists aqes w, Z.of_nat (length aqes) <= max /\ same_but_counters (fc_world c) w
  /\ (forall vc, entry_of (fc_aq c) <$> fetched aqes vc = taken L aqes vc)
  /\ applied E ts max b bm (entry_of (fc_aq c) <$> aqes) w (poll_all_queues E bm ts c)
       (fun w' c' => fc_world c' = w' /\ core_ok n hd (left_over L aqes) (fc_aq c') /\ aq_reg (fc_aq c') = aq_reg (fc_aq c))
  /\ (Z.of_nat (length aqes) < max -> forall vm cid, vm ∈ rvms -> cid ∈ rcs vm ->
        0 < vm_budget (fc_aq c) vm \/ aqes = [] -> left_over L aqes (vm, cid) = []).
Proof.
  intros [Hr Hac Hnx] Hreg Hb Ht. destruct (round_prealloc c bl Hb Ht) as (max & b & p & bl' & Ep & Hb' & Hm & Hml).
  rewrite Ep. set (q := fc_aq c) in *. pose proof (app_rings_polling n hd L q Hr) as Hp0.
  destruct (fast_appctx_poll_fetch_all_ok n (first_of q) L q max Hm rvms rcs Hreg q) as (aqes & q1 & Ef & Hall & Hd).
  { split; [done|]. split; [done|]. split; [done|]. cbn. lia. }
  pose proof Hall as (Hp1 & (vms & cs & Hac1) & Hnx1 & Hl). exists aqes, (aq_world q1). split; [done|].
  split; [apply (pl_world _ _ _ _ _ _ Hp1)|]. split.
  { intros vc. by apply (taken_entries n hd L aqes q q1). }
  split.
  - eapply (round_applied E n hd L ts max b bm aqes q q1 bl'); [done|done|done|lia| |].
    + unfold poll_all_queues. rewrite Ep. fold q. rewrite Ef. cbn [mbind option_bind]. reflexivity.
    + intros w b'. eexists. split; [reflexivity|]. set (q2 := (foldl entry_freed q1 aqes) <| aq_world := w |>).
      pose proof (probe_all_frame q2) as (F1 & F2 & F3 & F4 & F5 & F6 & F7 & F8 & F9). cbn [fc_aq setf].
      destruct (freed_frame aqes q1) as (G1 & G2 & G3 & G4 & G5).
      split; [exact F1|]. split; [|rewrite <-(pl_reg _ _ _ _ _ _ Hp1), <-G5; exact F2]. constructor.
      * apply (freed_rings n hd L q q1); [done|done|]. intros vc ax. destruct (F9 vc) as [a Ea]. cbn [fc_aq setf set_bufs].
        rewrite Ea. done.
      * exists vms, cs. apply (active_same q1); [by rewrite <-G1|by rewrite <-G2|by rewrite <-G3|done].
      * apply (next_ok_same q1); [by rewrite <-G4|by rewrite <-G1|done].
  - intros Hlt vm cid Hv Hc Hbu. specialize (Hd Hlt vm cid Hv Hc).
    destruct (pl_ring _ _ _ _ _ _ Hp1 (vm, cid)) as (k & Hk & Hfk). unfold left_over.
    rewrite (Hd ltac:(destruct Hbu as [Hbu|Hbu]; [left; by apply Z.ltb_lt|by right])), handles_len. apply drop_all.
Qed.

(** With at most 16 active contexts a round over the active ones stays within its
    arrays: at most as many updates as buffers were reserved, and at most 16 idle contexts,
    each once.  The updates are applied as in [poll_all_queues_applies], the rings of active
    VMs and contexts are consistent afterwards, and the active contexts are those from
    before except the idle ones. *)
Theorem poll_active_queues_bounds (E : fpenv) {Q P} `{QmanOps Q, MempoolLaws P} n hd L vms cs bm ts (c : fpcore Q P) bl :
  app_rings n hd L (fc_aq c) -> active_ok (fc_aq c) vms cs -> next_ok (fc_aq c) -> vms <> [] ->
  Z.of_nat (length (flat cs vms)) <= BATCH_SIZE -> buf_rep (fc_bufs c) bl ->
  0 <= tx_num (w_ctx (fc_world c)) <= TXBUF_SIZE ->
  let '(max, b, p) := bufcache_prealloc (tx_max BATCH_SIZE c) (fc_bufs c) (fc_pool c) in
  exists aqes w rem q1 vms' cs', Z.of_nat (length aqes) <= max <= BATCH_SIZE
  /\ fast_appctx_poll_fetch_active max (fc_aq c) = Some (aqes, rem, q1)
  /\ Z.of_nat (length rem) <= BATCH_SIZE /\ NoDup rem
  /\ same_but_counters (fc_world c) w
  /\ (forall vc, entry_of (fc_aq c) <$> fetched aqes vc = taken L aqes vc)
  /\ (forall v cid, cid ∈ cs' v <-> cid ∈ cs v /\ (v, cid) ∉ rem)
  /\ applied E ts max b bm (entry_of (fc_aq c) <$> aqes) w (poll_active_queues E bm ts c)
       (fun w' c' => fc_world c' = w' /\ core_ok n hd (left_over L aqes) (fc_aq c') /\ active_ok (fc_aq c') vms' cs').
Proof.
  intros Hr Hac Hnx Hne Hfew Hb Ht. destruct (round_prealloc c bl Hb Ht) as (max & b & p & bl' & Ep & Hb' & Hm & Hml).
  rewrite Ep. set (q := fc_aq c) in *. pose proof (app_rings_polling n hd L q Hr) as Hp0. destruct Hac as [Hk Hu].
  assert (Hrg : forall v, v ∈ vms -> 0 <= v < FLEXNIC_PL_VMST_NUM).
  { pose proof (rk_range _ _ _ Hk) as Hx. by rewrite Forall_forall in Hx. }
  destruct (fast_appctx_poll_fetch_active_ok n (first_of q) L q max Hm vms cs Hfew
      ltac:(intros v Hv; apply Hu; auto) q Hp0 Hk Hne)
    as (aqes & rem & q1 & cs1 & Ef & Hp1 & Hk1 & Hpm & Hl & Hlr & Hnd & Hrem).
  assert (Hac1 : active_ok q1 vms cs1).
  { split; [done|]. intros v Hv. rewrite (Hu v Hv). specialize (Hpm v).
    destruct (cs1 v), (cs v); try done; [by apply Permutation_nil_l in Hpm|by apply Permutation_nil_r in Hpm]. }
  destruct vms as [|v vms]; [done|]. set (vms1 := vms ++ [v]).
  exists aqes, (aq_world q1), rem, q1, (vms_without rem cs1 vms1), (cs_without rem cs1).
  split; [lia|]. split; [done|]. split; [done|]. split; [done|]. split; [apply (pl_world _ _ _ _ _ _ Hp1)|].
  split; [intros vc; by apply (taken_entries n hd L aqes q q1)|]. split.
  { intros w cid. unfold cs_without. rewrite list_elem_of_filter, (Hpm w). tauto. }
  eapply (round_applied E n hd L ts max b bm aqes q q1 bl'); [done|done|done|lia| |].
  { unfold poll_active_queues. rewrite Ep. fold q. rewrite Ef. cbn [mbind option_bind]. reflexivity. }
  intros w b'. cbv beta. set (q2 := (foldl entry_freed q1 aqes) <| aq_world := w |>).
  destruct (freed_frame aqes q1) as (G1 & G2 & G3 & G4 & G5).
  assert (Hac2 : active_ok q2 (v :: vms) cs1) by (apply (active_same q1); done).
  destruct (probe_active_ok q2 (v :: vms) cs1 Hac2 ltac:(done)) as (q3 & -> & F1 & F2 & F3 & F4 & F5 & F6 & F7 & F8 & F9).
  cbn [mbind option_bind]. change (q3 <| act_head := _ |> <| act_tail := _ |>) with (rotate_vms q3).
  assert (Hac3 : active_ok (rotate_vms q3) vms1 cs1).
  { destruct Hac2 as [Hk2 Hu2]. split; [apply rotate_vms_ok; by apply (rings_ok_same q2)|].
    intros x Hx. rewrite <-(Hu2 x Hx). unfold vms1. rewrite elem_of_app, list_elem_of_singleton, elem_of_cons. tauto. }
  destruct (remove_ctxs_ok rem (rotate_vms q3) vms1 cs1 Hac3 Hnd) as [Hac4 Hfr].
  { eapply Forall_impl; [exact Hrem|]. intros r [Hr1 Hr2]. split; [by apply Hrg|]. by rewrite (Hpm r.1). }
  eexists. split; [reflexivity|]. cbn [fc_aq setf set_bufs]. pose proof Hfr as (W1 & W2 & W3 & W4 & W5 & W6).
  split; [etransitivity; [exact W1|exact F1]|]. split; [|done]. constructor.
  - apply (freed_rings n hd L q q1); [done|done|]. intros vc ax. rewrite W2. destruct (F9 vc) as [a Ea].
    change (aq_ctxs (rotate_vms q3)) with (aq_ctxs q3). rewrite Ea. done.
  - eexists _, _. exact Hac4.
  - apply (next_ok_frame (rotate_vms q3)); [by apply next_ring|].
    apply (next_ok_frame q2); [split; [exact F7|by intros x; unfold pvm; rewrite <-F4]|].
    apply (next_ok_same q1); [by rewrite <-G4|by rewrite <-G1|]. apply (next_ok_frame q); [|done]. by eapply active_next.
Qed.

(** ** The state at the start *)

Lemma init_ctxs l : forall (f : Z -> polled_context -> polled_context) v, NoDup l ->
  let v' := foldl (fun v j => upd_pc j (f j) v) v l in
  (forall x, vctx v' x = if decide (x ∈ l) then f x (vctx v x) else vctx v x)
  /\ act_ctx_head v' = act_ctx_head v /\ act_ctx_tail v' = act_ctx_tail v /\ pv_id v' = pv_id v
  /\ pv_flags v' = pv_flags v /\ poll_next_ctx v' = poll_next_ctx v.
Proof.
  induction l as [|y l IH]; intros f v Hn v'; subst v'.
  { done. }
  apply NoDup_cons in Hn as [Hy Hn]. cbn [foldl]. destruct (IH f (upd_pc y (f y) v) Hn) as (H1 & H2 & H3 & H4 & H5 & H6).
  split; [|done]. intros x. rewrite H1, vctx_upd. destruct (decide (x = y)) as [->|Hx].
  - rewrite (decide_True (P := y ∈ y :: l)) by apply list_elem_of_here. by rewrite decide_False.
  - destruct (decide (x ∈ l)) as [Hi|Hi]; [by rewrite decide_True by by apply list_elem_of_further|].
    rewrite decide_False; [done|]. by intros [->|?]%elem_of_cons.
Qed.

Definition vm_started (i : Z) (v : polled_vm) : Prop :=
  pv_id v = i /\ pv_flags v = 0 /\ poll_next_ctx v = 0 /\ vm_act i v [].

Lemma vm_init_started i v : (forall c, pc_flags (vctx v c) = 0) ->
  vm_started i (foldl (fun v j => upd_pc j (polled_ctx_init j i) v) (polled_vm_init i v) (seqZ 0 FLEXNIC_PL_APPCTX_NUM)).
Proof.
  intros Hf. destruct (init_ctxs (seqZ 0 FLEXNIC_PL_APPCTX_NUM) (fun j => polled_ctx_init j i) (polled_vm_init i v)
    (NoDup_seqZ _ _)) as (H1 & H2 & H3 & H4 & H5 & H6).
  set (v' := foldl _ _ _) in *. split; [done|]. split; [done|]. split; [done|]. constructor.
  - rewrite H2, H3. apply circ_nil.
  - apply NoDup_nil_2.
  - apply Forall_nil_2.
  - intros c. rewrite H1. case_decide; [done|]. apply Hf.
  - intros c Hc. rewrite H1, decide_True by (apply elem_of_seqZ; lia). done.
Qed.

Lemma init_vms (E : fpenv) {Q} `{QmanOps Q} l : forall q : appq Q, NoDup l ->
  (forall v c, pc_flags (vctx (pvm q v) c) = 0) ->
  let q' := foldl (fun q i =>
      upd_vm i (fun v => foldl (fun v j => upd_pc j (polled_ctx_init j i) v) (polled_vm_init i v)
                           (seqZ 0 FLEXNIC_PL_APPCTX_NUM))
        (q <| aq_world ::= fun w => w <| w_ctx ::= fun x =>
               x <| budgets ::= <[i := bu_max_budget E]> |> <| vm_counters ::= <[i := 0]> |> |> |>)) q l in
  (forall v, if decide (v ∈ l) then vm_started v (pvm q' v) else pvm q' v = pvm q v)
  /\ aq_ctxs q' = aq_ctxs q /\ aq_reg q' = aq_reg q.
Proof.
  induction l as [|i l IH]; intros q Hn Hf q'; subst q'.
  { split; [|done]. intros v. rewrite decide_False by apply not_elem_of_nil. done. }
  apply NoDup_cons in Hn as [Hi Hn]. cbn [foldl]. set (q1 := upd_vm i _ _).
  assert (E1 : forall v, pvm q1 v = if decide (v = i) then
      foldl (fun v j => upd_pc j (polled_ctx_init j i) v) (polled_vm_init i (pvm q i)) (seqZ 0 FLEXNIC_PL_APPCTX_NUM)
      else pvm q v) by (intros v; unfold q1; by rewrite pvm_upd).
  assert (Hs : vm_started i (pvm q1 i)) by (rewrite E1, decide_True by done; by apply vm_init_started).
  destruct (IH q1 Hn) as (H1 & H2 & H3).
  { intros v c. rewrite E1. case_decide as Hd; [|done]. subst v. rewrite E1, decide_True in Hs by done.
    destruct Hs as (_ & _ & _ & Hva). by rewrite (va_flags _ _ _ Hva). }
  split; [|done]. intros v. specialize (H1 v). destruct (decide (v = i)) as [->|Hv].
  - rewrite decide_True by apply list_elem_of_here. rewrite decide_False in H1 by done. by rewrite H1.
  - destruct (decide (v ∈ l)) as [Hvl|Hvl]; [by rewrite decide_True by by apply list_elem_of_further|].
    rewrite decide_False by by intros [->|?]%elem_of_cons. rewrite H1, E1. by rewrite decide_False.
Qed.

(** After the initialisation of a core no context is active. *)
Lemma dataplane_context_init_ok (E : fpenv) {Q} `{QmanOps Q} (q : appq Q) n hd L : polled_vms q = ∅ -> app_rings n hd L q ->
  let q' := dataplane_context_init E q in
  core_ok n hd L q' /\ active_ok q' [] (fun _ => []) /\ aq_reg q' = aq_reg q.
Proof.
  intros Ev Hr q'.
  assert (Hz : forall v, pvm q v = inhabitant) by (intros v; unfold pvm; by rewrite Ev, lookup_total_empty).
  destruct (init_vms E (seqZ 0 FLEXNIC_PL_VMST_NUM) q (NoDup_seqZ _ _)) as (H1 & H2 & H3).
  { intros v c. rewrite Hz. change (pc_flags ((∅ : gmap Z polled_context) !!! c) = 0). by rewrite lookup_total_empty. }
  set (q1 := foldl _ q _) in *. assert (Ep : forall v, pvm q' v = pvm q1 v) by done.
  assert (Hv : forall v, pv_flags (pvm q' v) = 0 /\ 0 <= poll_next_ctx (pvm q' v)).
  { intros v. rewrite Ep. specialize (H1 v). case_decide; [destruct H1 as (_ & -> & -> & _); done|by rewrite H1, Hz]. }
  assert (Hac : active_ok q' [] (fun _ => [])).
  { split; [|intros v _; split; [by intros ?%elem_of_nil|done]]. constructor.
    - apply circ_nil.
    - apply NoDup_nil_2.
    - apply Forall_nil_2.
    - intros v. by destruct (Hv v) as [-> _].
    - intros v Hr'. rewrite Ep. specialize (H1 v). rewrite decide_True in H1 by (apply elem_of_seqZ; lia). apply H1.
    - intros v Hr'. rewrite Ep. specialize (H1 v). rewrite decide_True in H1 by (apply elem_of_seqZ; lia). apply H1. }
  split; [|done]. constructor; [|by eexists _, _|].
  - intros vc. change (aq_ctxs q') with (aq_ctxs q1). rewrite H2. apply Hr.
  - split; [done|]. intros v. apply Hv.
Qed.

(** ** Concrete rounds *)

(** Context 0 of VM 0, with a ring of 16 entries that holds two updates of flow 3. *)
Definition ex_updates : list atx := [mk_atx FLEXTCP_PL_ATX_CONNUPDATE 0 10 3 0 0; mk_atx FLEXTCP_PL_ATX_CONNUPDATE 0 20 3 1 0].
Definition ex_tx : gmap Z atx := <[0 := mk_atx FLEXTCP_PL_ATX_CONNUPDATE 0 10 3 0 0]>
  {[ 16 := mk_atx FLEXTCP_PL_ATX_CONNUPDATE 0 20 3 1 0 ]}.
Definition ex_n (vc : Z * Z) : Z := if decide (vc = (0, 0)) then 16 else 0.
Definition ex_hd (vc : Z * Z) : Z := 32.
Definition ex_pending (vc : Z * Z) : list atx := if decide (vc = (0, 0)) then ex_updates else [].

Definition ex_reg : registry := default registry_init (tas_register_vm 0 registry_init ≫= tas_register_appctx 0 0).

Lemma ex_reg_ok : registered ex_reg [0] (fun v => if decide (v = 0) then [0] else []).
Proof.
  destruct (tas_register_vm_ok _ _ _ 0 registered_init) as (r1 & E1 & R1); [unfold FLEXNIC_PL_VMST_NUM; lia|].
  destruct (tas_register_appctx_ok _ _ _ 0 0 R1) as (r2 & E2 & R2);
    [unfold FLEXNIC_PL_VMST_NUM; lia|unfold FLEXNIC_PL_APPCTX_NUM; lia|].
  unfold ex_reg. rewrite E1. cbn [mbind option_bind]. rewrite E2. exact R2.
Qed.

(** [null] are the rounds the context has been idle for. *)
Definition ex_appq0 : appq qman_thread :=
  mk_appq (ex_world 0 0 0) {[ (0, 0) := mk_appctx ex_tx ∅ 0 256 0 0 0 0 ]} ∅ 0 0 0 0 ex_reg [].
Definition ex_appq : appq qman_thread := dataplane_context_init ex_env ex_appq0.
Definition ex_appq_active : appq qman_thread := enqueue_vm_to_active 0 (upd_vm 0 (enqueue_ctx_to_active 0) ex_appq).

Definition ex_core (q : appq qman_thread) : fpcore qman_thread list_pool :=
  mk_fpcore q (mk_kif (mk_kctx ∅ ∅ 0 0 0 0 0 0) 0 0 0) ex_cache ([1; 2; 3] : list_pool) [] [].

Lemma ex_rings0 : app_rings ex_n ex_hd ex_pending ex_appq0.
Proof.
  intros vc. unfold ex_n, ex_hd, ex_pending. cbn [aq_ctxs ex_appq0]. destruct (decide (vc = (0, 0))) as [->|Hne].
  - rewrite lookup_total_singleton. constructor; cbn [ax_tx_len ax_tx ax_tx_head].
    + done.
    + unfold BATCH_SIZE. lia.
    + lia.
    + intros _. change 32 with (ring_adv 16 16 (ring_adv 16 16 0)). unfold ex_updates.
      change ex_tx with (<[0 := mk_atx FLEXTCP_PL_ATX_CONNUPDATE 0 10 3 0 0]> (<[16 := mk_atx FLEXTCP_PL_ATX_CONNUPDATE 0 20 3 1 0]> (∅ : gmap Z atx))).
      rewrite insert_insert_ne by done.
      apply (ring_of_push atx_free 16 16 _ 0 (ring_adv 16 16 0) [_]); [lia| |by vm_compute|done].
      apply (ring_of_push atx_free 16 16 ∅ 0 0 []); [lia| |by vm_compute|done].
      apply ring_of_new; [lia|lia|]. intros k. by rewrite lookup_total_empty.
    + repeat apply Forall_cons_2; [..|by apply Forall_nil_2]; (split; [done|]); cbn; unfold FLEXNIC_PL_FLOWST_NUM; lia.
  - rewrite lookup_total_singleton_ne by congruence. constructor; cbn; first [by left|done|lia].
Qed.

Lemma ex_appq_ok : core_ok ex_n ex_hd ex_pending ex_appq /\ active_ok ex_appq [] (fun _ => []) /\ aq_reg ex_appq = ex_reg.
Proof. by apply (dataplane_context_init_ok ex_env ex_appq0 ex_n ex_hd ex_pending eq_refl ex_rings0). Qed.

Lemma ex_appq_active_ok : active_ok ex_appq_active [0] (fun v => if decide (v = 0) then [0] else []).
Proof.
  destruct ex_appq_ok as (_ & [Hk _] & _). pose proof (rk_ctxs _ _ _ Hk 0 ltac:(done)) as Hva.
  split.
  - apply (enqueue_vm_ok _ []); [|done|apply not_elem_of_nil]. apply (rings_ok_upd _ _ _ _ _ _ Hk).
    + intros x. unfold enqueue_ctx_to_active. by case_match.
    + apply (enqueue_ctx_act _ _ [] 0 Hva); [done|apply not_elem_of_nil].
  - intros v _. rewrite list_elem_of_singleton. by destruct (decide (v = 0)).
Qed.

Lemma ex_appq_active_frame : ring_frame ex_appq ex_appq_active.
Proof.
  unfold ex_appq_active. etransitivity; [|apply enqueue_vm_frame]. apply ring_frame_upd; [|done].
  intros x. unfold enqueue_ctx_to_active. by case_match.
Qed.

Lemma ex_appq_active_rest : app_rings ex_n ex_hd ex_pending ex_appq_active /\ next_ok ex_appq_active.
Proof.
  destruct ex_appq_ok as ([Hr _ Hnx] & _ & _). pose proof ex_appq_active_frame as Hf. split.
  - intros vc. destruct Hf as (_ & -> & _). apply Hr.
  - by apply (next_ok_frame ex_appq); [apply next_ring|].
Qed.

Lemma poll_all_queues_applies_witness :
  fst <$> poll_all_queues ex_env (fun _ _ => 0) 0 (ex_core ex_appq) = Some 2
  /\ let c := ex_core ex_appq in
  let '(max, b, p) := bufcache_prealloc (tx_max BATCH_SIZE c) (fc_bufs c) (fc_pool c) in
  exists aqes w, Z.of_nat (length aqes) <= max /\ same_but_counters (fc_world c) w
  /\ (forall vc, entry_of (fc_aq c) <$> fetched aqes vc = taken ex_pending aqes vc)
  /\ applied ex_env 0 max b (fun _ _ => 0) (entry_of (fc_aq c) <$> aqes) w (poll_all_queues ex_env (fun _ _ => 0) 0 c)
       (fun w' c' => fc_world c' = w' /\ core_ok ex_n ex_hd (left_over ex_pending aqes) (fc_aq c') /\ aq_reg (fc_aq c') = aq_reg (fc_aq c))
  /\ (Z.of_nat (length aqes) < max -> forall vm cid, vm ∈ [0] -> cid ∈ (fun v => if decide (v = 0) then [0] else []) vm ->
        0 < vm_budget (fc_aq c) vm \/ aqes = [] -> left_over ex_pending aqes (vm, cid) = []).
Proof.
  split; [by vm_compute|]. destruct ex_appq_ok as (Hok & _ & Er).
  refine (poll_all_queues_applies ex_env (P := list_pool) ex_n ex_hd ex_pending [0] (fun v => if decide (v = 0) then [0] else [])
    (fun _ _ => 0) 0 (ex_core ex_appq) [] Hok _ ex_cache_rep _).
  - change (fc_aq (ex_core ex_appq)) with ex_appq. rewrite Er. exact ex_reg_ok.
  - by vm_compute.
Defined.

Lemma poll_active_queues_bounds_witness :
  fst <$> poll_active_queues ex_env (fun _ _ => 0) 0 (ex_core ex_appq_active) = Some 2
  /\ let c := ex_core ex_appq_active in
  let '(max, b, p) := bufcache_prealloc (tx_max BATCH_SIZE c) (fc_bufs c) (fc_pool c) in
  exists aqes w rem q1 vms' cs', Z.of_nat (length aqes) <= max <= BATCH_SIZE
  /\ fast_appctx_poll_fetch_active max (fc_aq c) = Some (aqes, rem, q1)
  /\ Z.of_nat (length rem) <= BATCH_SIZE /\ NoDup rem
  /\ same_but_counters (fc_world c) w
  /\ (forall vc, entry_of (fc_aq c) <$> fetched aqes vc = taken ex_pending aqes vc)
  /\ (forall v cid, cid ∈ cs' v <-> cid ∈ (fun v => if decide (v = 0) then [0] else []) v /\ (v, cid) ∉ rem)
  /\ applied ex_env 0 max b (fun _ _ => 0) (entry_of (fc_aq c) <$> aqes) w (poll_active_queues ex_env (fun _ _ => 0) 0 c)
       (fun w' c' => fc_world c' = w' /\ core_ok ex_n ex_hd (left_over ex_pending aqes) (fc_aq c') /\ active_ok (fc_aq c') vms' cs').
Proof.
  split; [by vm_compute|]. destruct ex_appq_active_rest as [Hr Hnx].
  refine (poll_active_queues_bounds ex_env (P := list_pool) ex_n ex_hd ex_pending [0] (fun v => if decide (v = 0) then [0] else [])
    (fun _ _ => 0) 0 (ex_core ex_appq_active) [] Hr ex_appq_active_ok Hnx _ _ ex_cache_rep _).
  - done.
  - by vm_compute.
  - by vm_compute.
Defined.

(** ** What goes wrong *)

(** [k] contexts of VM 0 that are active, have nothing to send and have been idle for all
    but one of the rounds. *)
Definition ex_idle (k : Z) : appq qman_thread :=
  enqueue_vm_to_active 0
    (foldl (fun q c => upd_pctx 0 c (fun p => p <| pc_null_rounds := MAX_NULL_ROUNDS - 1 |>)
                         (upd_vm 0 (enqueue_ctx_to_active c) q)) ex_appq (seqZ 1 k)).

(** The array for idle contexts has 16 entries: with 17 contexts that become idle in the
    same round the last one is written past it; with 16 the round ends. *)
Theorem idle_contexts_overflow :
  fast_appctx_poll_fetch_active 16 (ex_idle 17) = None
  /\ (fun r => length r.1.2) <$> fast_appctx_poll_fetch_active 16 (ex_idle 16) = Some 16%nat.
Proof. split; by vm_compute. Qed.

(** Bytes are counted for the budget before an update is validated: a length of 2^32 - 1
    makes a counter negative, and the core stops when it charges the budgets. *)
Definition ex_spent (n : Z) : appq qman_thread :=
  ex_appq <| aq_reg := default ex_reg (tas_register_vm 1 ex_reg) |>
          <| aq_world ::= fun w => spend_bytes 1 n (spend_bytes 0 1000 w) |>.

Theorem negative_counter_stops :
  spend_budget 1000 (ex_spent 4294967295) = None
  /\ (fun q => (vm_budget q 0, vm_budget q 1)) <$> spend_budget 1000 (ex_spent 1000) = Some (999500, 999500).
Proof. split; by vm_compute. Qed.

(** ** The transmit buffer *)

Lemma shift_loop (r m : Z) : 1 <= r -> 0 <= m -> forall h : gmap Z tx_ent,
  let h' := foldl (fun h i => partial_alter (fun _ => h !! i) (i - r) h) h (seqZ r m) in
  forall i, 0 <= i -> h' !! i = if decide (i < m) then h !! (i + r) else h !! i.
Proof.
  intros Hr. revert m. apply (natlike_ind (fun m => forall h : gmap Z tx_ent,
    let h' := foldl (fun h i => partial_alter (fun _ => h !! i) (i - r) h) h (seqZ r m) in
    forall i, 0 <= i -> h' !! i = if decide (i < m) then h !! (i + r) else h !! i)).
  - intros h h' i Hi. rewrite decide_False by lia. done.
  - intros m Hm IH h h' i Hi. subst h'. rewrite <-Z.add_1_r, seqZ_app, foldl_app by lia.
    change (seqZ (r + m) 1) with [r + m]. cbn [foldl]. set (h1 := foldl _ h _) in *.
    replace (r + m - r) with m by lia. destruct (decide (i = m)) as [->|Hne].
    + rewrite lookup_partial_alter_eq, decide_True by lia. unfold h1. rewrite IH, decide_False by lia. f_equal. lia.
    + rewrite lookup_partial_alter_ne by done. unfold h1. rewrite IH by lia. by repeat case_decide; try lia.
Qed.

Lemma omap_le {A B} (f : A -> option B) l : (length (omap f l) <= length l)%nat.
Proof. induction l as [|x l IH]; [done|]. cbn [omap list_omap]. case_match; cbn [length]; lia. Qed.

Lemma queued_drop (h h' : gmap Z tx_ent) r m :  0 <= r -> 0 <= m ->
  (forall i, 0 <= i < r + m -> is_Some (h !! i)) -> (forall i, 0 <= i < m -> h' !! i = h !! (i + r)) ->
  omap (fun i => h' !! i) (seqZ 0 m) = drop (Z.to_nat r) (omap (fun i => h !! i) (seqZ 0 (r + m))).
Proof.
  intros Hr Hm Hs He. rewrite seqZ_app, omap_app by lia.
  assert (Hlen : forall k, 0 <= k <= r + m -> length (omap (fun i => h !! i) (seqZ 0 k)) = Z.to_nat k).
  { intros k Hk. rewrite <-(Z2Nat.id k) by lia. assert (Hk' : Z.of_nat (Z.to_nat k) <= r + m) by lia. revert Hk'.
    generalize (Z.to_nat k) as j. clear Hk k. induction j as [|j IH]; intros Hj; [done|].
    rewrite Nat2Z.inj_succ, <-Z.add_1_r, seqZ_app, omap_app, length_app, IH by lia. change (seqZ _ 1) with [0 + Z.of_nat j].
    destruct (Hs (0 + Z.of_nat j) ltac:(lia)) as [e Ee]. cbn [omap list_omap]. rewrite Ee. cbn. lia. }
  rewrite drop_app_length' by by rewrite Hlen by lia. clear Hlen Hs. rewrite Z.add_0_l.
  revert h' He. rewrite <-(Z2Nat.id m) by lia. clear Hm. generalize (Z.to_nat m) as j. intros j h' He.
  assert (Hj : (j <= j)%nat) by lia. revert Hj. generalize j at 1 3 4 as i. induction i as [|i IH]; intros Hi; [done|].
  rewrite Nat2Z.inj_succ, <-Z.add_1_r, !seqZ_app, !omap_app, IH by lia. f_equal.
  change (seqZ (0 + Z.of_nat i) 1) with [0 + Z.of_nat i]. change (seqZ (r + Z.of_nat i) 1) with [r + Z.of_nat i].
  cbn [omap list_omap]. rewrite He by lia. by replace (0 + Z.of_nat i + r) with (r + Z.of_nat i) by lia.
Qed.

(** Whatever number of packets the card takes, sending and what stays in the transmit
    buffer keep the order: no packet is lost or sent twice. *)
Theorem tx_flush_fifo {Q P} `{QmanOps Q} ret (c : fpcore Q P) :
  let x := w_ctx (fc_world c) in 0 <= ret <= tx_num x -> tx_num x < 65536 ->
  (forall i, 0 <= i < tx_num x -> is_Some (tx_handles x !! i)) ->
  let c' := tx_flush ret c in let x' := w_ctx (fc_world c') in
  fc_sent c' ++ tx_queued x' = fc_sent c ++ tx_queued x /\ tx_num x' = tx_num x - ret
  /\ forall i, 0 <= i < tx_num x' -> is_Some (tx_handles x' !! i).
Proof.
  intros x Hret Hmax Hs c' x'. subst c' x'. unfold tx_flush. change (w_ctx (fc_world c)) with x. unfold set_world, fc_world.
  assert (Hq : forall k, (length (tx_queued x) <= k)%nat -> take k (tx_queued x) = tx_queued x) by (intros; by apply take_ge).
  destruct (Z.eqb_spec (tx_num x) 0) as [E0|E0]; [change (w_ctx (aq_world (fc_aq c))) with x; split; [done|]; split; [lia|done]|].
  destruct (Z.eqb_spec ret (tx_num x)) as [E1|E1].
  { cbn. split; [|split; [lia|lia]]. rewrite app_nil_r. f_equal. apply Hq. unfold tx_queued.
    etransitivity; [apply omap_le|]. rewrite length_seqZ. lia. }
  destruct (Z.ltb_spec 0 ret) as [Hpos|Hz].
  2: { assert (ret = 0) as -> by lia. cbn [fc_sent fc_aq setf]. change (w_ctx (aq_world (fc_aq c))) with x.
       rewrite app_nil_r. split; [done|]. split; [lia|done]. }
  set (f := fun (x : dataplane_context Q) i => x <| tx_handles ::= fun h => partial_alter (fun _ => h !! i) (i - ret) h |>).
  set (l := seqZ ret (tx_num x - ret)).
  assert (Hf : forall l (x : dataplane_context Q), tx_handles (foldl f x l)
      = foldl (fun h i => partial_alter (fun _ => h !! i) (i - ret) h) (tx_handles x) l
    /\ tx_num (foldl f x l) = tx_num x).
  { induction l0 as [|i l0 IH]; intros y; [done|]. cbn [foldl]. by destruct (IH (f y i)) as [-> ->]. }
  destruct (Hf l x) as [Eh En]. set (x2 := (foldl f x l) <| tx_num ::= fun n => u16 (n - ret) |>).
  assert (Es : forall i, 0 <= i < tx_num x - ret -> tx_handles x2 !! i = tx_handles x !! (i + ret)).
  { intros i Hi. change (tx_handles x2) with (tx_handles (foldl f x l)). rewrite Eh. unfold l. rewrite shift_loop by lia.
    by rewrite decide_True by lia. }
  assert (En' : tx_num x2 = tx_num x - ret).
  { change (tx_num x2) with (u16 (tx_num (foldl f x l) - ret)). rewrite En. apply u16_id. cside. }
  assert (Hg : (fc_sent c ++ take (Z.to_nat ret) (tx_queued x)) ++ tx_queued x2 = fc_sent c ++ tx_queued x
    /\ tx_num x2 = tx_num x - ret /\ forall i, 0 <= i < tx_num x2 -> is_Some (tx_handles x2 !! i)); [|exact Hg].
  split; [|split; [done|]].
  - unfold tx_queued at 2. rewrite En', (queued_drop (tx_handles x) (tx_handles x2) ret (tx_num x - ret)); [|lia|lia| |done].
    + replace (ret + (tx_num x - ret)) with (tx_num x) by lia. rewrite <-app_assoc. f_equal. apply take_drop.
    + intros i Hi. apply Hs. lia.
  - intros i Hi. rewrite Es by lia. apply Hs. lia.
Qed.

Definition ex_sent : fpcore qman_thread list_pool :=
  set_world (ex_world 0 0 0 <| w_ctx ::= fun x => x <| tx_num := 3 |>
    <| tx_handles := list_to_map ((fun i => (i, mk_tx_ent i (PktTcp ex_p) 0 60 XsumNone)) <$> seqZ 0 3) |> |>) (ex_core ex_appq).

Lemma tx_flush_fifo_witness : let c' := tx_flush 2 ex_sent in let x' := w_ctx (fc_world c') in
  fc_sent c' ++ tx_queued x' = fc_sent ex_sent ++ tx_queued (w_ctx (fc_world ex_sent)) /\ tx_num x' = 3 - 2
  /\ forall i, 0 <= i < tx_num x' -> is_Some (tx_handles x' !! i).
Proof.
  refine (tx_flush_fifo 2 ex_sent _ _ _).
  - by vm_compute.
  - by vm_compute.
  - intros i Hi. change (tx_num (w_ctx (fc_world ex_sent))) with 3 in Hi.
    assert (i = 0 \/ i = 1 \/ i = 2) as [-> | [-> | ->]] by lia; eexists; reflexivity.
Defined.
