(* ===== verification/SockTypes.v ===== *)
(** * Data of the sockets library (lib/sockets/internal.h, lib/sockets/manage_fd.c)

    Sockets, epoll instances and their bindings are objects on the heap, pointers their
    keys; 0 is the null pointer.  The low-level connection or listener of a socket is part
    of its struct in the code and has the key of the socket in [libst].  The two variants
    of the union in [struct socket] are records side by side; [so_type] says which is in use.
    A call is atomic except where the code releases the locks in order to wait: there the
    rest of the world makes a step, which is taken from a list. *)

From S2P Require Import Prelude FpTypes LibTypes LibConn LibPoll.

(** ** Constants *)

Definition SOF_NONBLOCK : Z := 1.
Definition SOF_BOUND : Z := 2.
Definition SOF_REUSEPORT : Z := 4.
Definition SOF_CLOEXEC : Z := 8.
Definition CSTF_RXCLOSED : Z := 1.
Definition CSTF_TXCLOSED : Z := 2.
Definition CSTF_TXCLOSED_ACK : Z := 4.
Definition MAXSOCK : Z := 1024 * 1024.
Definition INT_MIN : Z := -2147483648.

Definition EPOLLIN : Z := 1.
Definition EPOLLOUT : Z := 4.
Definition EPOLLERR : Z := 8.
Definition EPOLLHUP : Z := 16.
Definition EPOLLRDHUP : Z := 8192.
Definition EPOLLEXCLUSIVE : Z := Z.shiftl 1 28.
Definition EPOLLET : Z := Z.shiftl 1 31.

(** [x & f] as a condition. *)
Definition any_flag (x f : Z) : bool := negb (Z.land x f =? 0).
(** [x & ~f] in 32 bits. *)
Definition flags_off (x f : Z) : Z := Z.land x (Z.lxor 4294967295 f).

Inductive errno : Type :=
| EBADF | EINVAL | ENOMEM | EMFILE | EEXIST | ENOENT | ENOTSOCK | ENOTCONN | ENOBUFS | EISCONN | EALREADY
| ECONNREFUSED | EINPROGRESS | EOPNOTSUPP | EADDRINUSE | EAGAIN | ENOTSUP | ENOPROTOOPT.
#[export] Instance errno_eq_dec : EqDecision errno.
Proof. solve_decision. Defined.

Inductive filehandle_type : Type := SOCK_UNUSED | SOCK_SOCKET | SOCK_CONNECTION | SOCK_LISTENER.
#[export] Instance filehandle_type_eq_dec : EqDecision filehandle_type.
Proof. solve_decision. Defined.
Inductive soc_status : Type := SOC_CONNECTING | SOC_CONNECTED | SOC_FAILED | SOC_CLOSED.
#[export] Instance soc_status_eq_dec : EqDecision soc_status.
Proof. solve_decision. Defined.
Inductive sol_status : Type := SOL_OPENING | SOL_OPEN | SOL_FAILED.
#[export] Instance sol_status_eq_dec : EqDecision sol_status.
Proof. solve_decision. Defined.

(** ** Sockets *)

(** [sc_ctx] is the number of the context that uses the connection. *)
Record socket_conn : Type := mk_sconn {
  sc_status : soc_status; sc_st_flags : Z; sc_listener : Z;
  rx_buf_1 : Z; rx_buf_2 : Z; rx_len_1 : Z; rx_len_2 : Z;
  sc_ctx : Z; sc_move_status : Z; sc_accepted : bool }.
#[export] Instance eta_sconn : Eta socket_conn := fun r =>
  mk_sconn (sc_status r) (sc_st_flags r) (sc_listener r) (rx_buf_1 r) (rx_buf_2 r) (rx_len_1 r) (rx_len_2 r)
    (sc_ctx r) (sc_move_status r) (sc_accepted r).

(** The backlog holds sockets and their file descriptors. *)
Record socket_listen : Type := mk_slisten {
  sl_backlog : gmap Z (Z * Z); backlog_len : Z; backlog_next : Z; backlog_num : Z;
  sl_status : sol_status; sl_ctx : Z; sl_move_status : Z }.
#[export] Instance eta_slisten : Eta socket_listen := fun r =>
  mk_slisten (sl_backlog r) (backlog_len r) (backlog_next r) (backlog_num r) (sl_status r) (sl_ctx r)
    (sl_move_status r).

(** [so_addr] is the address and port of [bind]. *)
Record socket : Type := mk_socket {
  so_conn : socket_conn; so_listen : socket_listen; so_addr : Z * Z; so_flags : Z;
  so_type : filehandle_type; so_refcnt : Z; ep_events : Z; so_eps : Z }.
#[export] Instance eta_socket : Eta socket := fun r =>
  mk_socket (so_conn r) (so_listen r) (so_addr r) (so_flags r) (so_type r) (so_refcnt r) (ep_events r) (so_eps r).

(** The content of memory from calloc. *)
Definition socket_zero : socket :=
  mk_socket (mk_sconn SOC_CONNECTING 0 0 0 0 0 0 0 0 false) (mk_slisten ∅ 0 0 0 SOL_OPENING 0 0) (0, 0) 0
    SOCK_UNUSED 0 0 0.
#[export] Instance socket_inhabited : Inhabited socket := populate socket_zero.

(** ** Epoll *)

Record epoll : Type := mk_epoll {
  ep_inactive : Z; ep_active_first : Z; ep_active_last : Z; ep_refcnt : Z;
  num_linux : Z; num_tas : Z; num_active : Z; linux_next : bool }.
#[export] Instance eta_epoll : Eta epoll := fun r =>
  mk_epoll (ep_inactive r) (ep_active_first r) (ep_active_last r) (ep_refcnt r) (num_linux r) (num_tas r)
    (num_active r) (linux_next r).
#[export] Instance epoll_inhabited : Inhabited epoll := populate (mk_epoll 0 0 0 0 0 0 0 false).

Record epoll_socket : Type := mk_es {
  es_ep : Z; es_s : Z; ep_next : Z; ep_prev : Z; so_prev : Z; so_next : Z;
  es_data : Z; es_mask : Z; es_active : Z }.
#[export] Instance eta_es : Eta epoll_socket := fun r =>
  mk_es (es_ep r) (es_s r) (ep_next r) (ep_prev r) (so_prev r) (so_next r) (es_data r) (es_mask r) (es_active r).
#[export] Instance es_inhabited : Inhabited epoll_socket := populate (mk_es 0 0 0 0 0 0 0 0 0).

(** ** The state of a process *)

Inductive filehandle : Type := FH_UNUSED | FH_SOCKET (s : Z) | FH_EPOLL (e : Z).
#[export] Instance filehandle_eq_dec : EqDecision filehandle.
Proof. solve_decision. Defined.
#[export] Instance filehandle_inhabited : Inhabited filehandle := populate FH_UNUSED.

(** [ss_cur] is the number of the context of the calling thread, whose low-level state
    is [ss_lib]; [ss_now] is the time stamp, [ss_mem] the memory of the process with the
    buffers it shares. *)
Record sockst : Type := mk_sockst {
  ss_socks : gmap Z socket; ss_eps : gmap Z epoll; ss_ess : gmap Z epoll_socket;
  ss_fhs : gmap Z filehandle; ss_lib : libst; ss_cur : Z; ss_now : Z; ss_mem : mem; ss_errno : errno }.
#[export] Instance eta_sockst : Eta sockst := fun r =>
  mk_sockst (ss_socks r) (ss_eps r) (ss_ess r) (ss_fhs r) (ss_lib r) (ss_cur r) (ss_now r) (ss_mem r) (ss_errno r).

Definition sock (st : sockst) (s : Z) : socket := ss_socks st !!! s.
Definition epo (st : sockst) (e : Z) : epoll := ss_eps st !!! e.
Definition ess (st : sockst) (x : Z) : epoll_socket := ss_ess st !!! x.
Definition upd_sock (s : Z) (f : socket -> socket) (st : sockst) : sockst :=
  st <| ss_socks ::= fun h => <[s := f (h !!! s)]> h |>.
Definition upd_epo (e : Z) (f : epoll -> epoll) (st : sockst) : sockst :=
  st <| ss_eps ::= fun h => <[e := f (h !!! e)]> h |>.
Definition upd_es (x : Z) (f : epoll_socket -> epoll_socket) (st : sockst) : sockst :=
  st <| ss_ess ::= fun h => <[x := f (h !!! x)]> h |>.
Definition sconn (st : sockst) (s : Z) : socket_conn := so_conn (sock st s).
Definition slisten (st : sockst) (s : Z) : socket_listen := so_listen (sock st s).
Definition upd_sconn (s : Z) (f : socket_conn -> socket_conn) : sockst -> sockst :=
  upd_sock s (fun x => x <| so_conn ::= f |>).
Definition upd_slisten (s : Z) (f : socket_listen -> socket_listen) : sockst -> sockst :=
  upd_sock s (fun x => x <| so_listen ::= f |>).

(** ** File descriptors *)

Definition fh (st : sockst) (fd : Z) : filehandle := ss_fhs st !!! fd.

(** [p] is the result of calloc, [fd] that of eventfd; the result is the descriptor or the
    error. *)
Definition flextcp_fd_salloc (p : option Z) (fd : option Z) (st : sockst) : option (Z * Z) * sockst :=
  match p, fd with
  | None, _ => (None, st <| ss_errno := ENOMEM |>)
  | Some _, None => (None, st)
  | Some p, Some fd =>
      if MAXSOCK <=? fd then (None, st <| ss_errno := EMFILE |>)
      else
        (Some (fd, p),
         st <| ss_socks ::= <[p := socket_zero <| so_type := SOCK_SOCKET |> <| so_refcnt := 1 |>]> |>
            <| ss_fhs ::= <[fd := FH_SOCKET p]> |>)
  end.

Definition flextcp_fd_slookup (fd : Z) (st : sockst) : option Z * sockst :=
  if MAXSOCK <=? fd then (None, st <| ss_errno := EBADF |>)
  else match fh st fd with
       | FH_SOCKET s => (Some s, st)
       | _ => (None, st <| ss_errno := EBADF |>)
       end.

(** The inner result is the pointer; without one -1 was returned. *)
Definition flextcp_fd_ealloc (p : option Z) (fd : Z) (st : sockst) : option (option Z * sockst) :=
  if MAXSOCK <=? fd then Some (None, st <| ss_errno := EMFILE |>)
  else
    cassert (bool_decide (fh st fd = FH_UNUSED));;
    match p with
    | None => Some (None, st <| ss_errno := ENOMEM |>)
    | Some p =>
        Some (Some p, st <| ss_eps ::= <[p := inhabitant <| ep_refcnt := 1 |>]> |>
                         <| ss_fhs ::= <[fd := FH_EPOLL p]> |>)
    end.

Definition flextcp_fd_elookup (fd : Z) (st : sockst) : option Z * sockst :=
  if MAXSOCK <=? fd then (None, st <| ss_errno := EBADF |>)
  else match fh st fd with
       | FH_EPOLL e => (Some e, st)
       | _ => (None, st <| ss_errno := EBADF |>)
       end.

Definition flextcp_fd_close (fd : Z) (st : sockst) : option sockst :=
  match fh st fd with
  | FH_SOCKET s => Some (upd_sock s (fun x => x <| so_refcnt ::= fun n => n - 1 |>) st <| ss_fhs ::= <[fd := FH_UNUSED]> |>)
  | FH_EPOLL e => Some (upd_epo e (fun x => x <| ep_refcnt ::= fun n => n - 1 |>) st <| ss_fhs ::= <[fd := FH_UNUSED]> |>)
  | FH_UNUSED => None
  end.

(** ** Calls that wait *)

(** What happens while a call has released its locks: what the rest of the world does
    before and after the poll of the context, the time, and whether [poll] succeeds if
    the thread sleeps. *)
Record pollenv : Type := mk_pollenv {
  pe_before : sockst -> sockst; pe_polled : bool; pe_now : Z; pe_after : sockst -> sockst }.

(** A call returns, waits for ever as far as the list of steps goes, or aborts. *)
Inductive outcome (A : Type) : Type :=
| Ret (a : A) (env : list pollenv) (st : sockst)
| Blocked
| Aborted.
Arguments Ret {A}.
Arguments Blocked {A}.
Arguments Aborted {A}.

Definition call (A : Type) : Type := list pollenv -> sockst -> outcome A.
#[export] Instance call_ret : MRet call := fun A a env st => Ret a env st.
#[export] Instance call_bind : MBind call := fun A B k m env st =>
  match m env st with
  | Ret a env st => k a env st
  | Blocked => Blocked
  | Aborted => Aborted
  end.

Definition get : call sockst := fun env st => Ret st env st.
Definition modify (f : sockst -> sockst) : call unit := fun env st => Ret tt env (f st).
Definition fail (e : errno) : call Z := fun env st => Ret (-1) env (st <| ss_errno := e |>).
(** A failed assertion inside aborts. *)
Definition lift {A} (f : sockst -> option (A * sockst)) : call A := fun env st =>
  match f st with Some (a, st) => Ret a env st | None => Aborted end.
Definition lift_st (f : sockst -> option sockst) : call unit := lift (fun st => st ← f st; Some (tt, st)).
Definition liftp {A} (f : sockst -> A * sockst) : call A := lift (fun st => Some (f st)).

(** A function of the low-level library. *)
Definition with_lib {A} (f : libst -> A * libst) (st : sockst) : A * sockst :=
  let '(a, L) := f (ss_lib st) in (a, st <| ss_lib := L |>).
Definition with_lib_opt {A} (f : libst -> option (A * libst)) (st : sockst) : option (A * sockst) :=
  '(a, L) ← f (ss_lib st); Some (a, st <| ss_lib := L |>).
