(* ===== verification/Epoll.v ===== *)
(** * Epoll of the sockets library (lib/sockets/epoll.c)

    The bindings of an epoll instance are in two lists: the inactive ones, and those with
    events in a queue; the bindings of a socket are in a list of their own. *)

From S2P Require Import Prelude FpTypes LibTypes LibConn LibPoll SockTypes.

(** ** The lists *)

Definition es_remove_inactive (x : Z) (st : sockst) : option sockst :=
  let e := es_ep (ess st x) in
  cassert (es_active (ess st x) =? 0);;
  let next := ep_next (ess st x) in
  let prev := ep_prev (ess st x) in
  let st := if negb (prev =? 0) then upd_es prev (fun v => v <| ep_next := next |>) st
            else upd_epo e (fun v => v <| ep_inactive := next |>) st in
  Some (if negb (next =? 0) then upd_es next (fun v => v <| ep_prev := prev |>) st else st).

Definition es_add_inactive (x : Z) (st : sockst) : sockst :=
  let e := es_ep (ess st x) in
  let st := upd_es x (fun v => v <| ep_prev := 0 |>) st in
  let first := ep_inactive (epo st e) in
  let st := if first =? 0 then upd_es x (fun v => v <| ep_next := 0 |>) st
            else upd_es first (fun v => v <| ep_prev := x |>) (upd_es x (fun v => v <| ep_next := first |>) st) in
  upd_epo e (fun v => v <| ep_inactive := x |>) st.

Definition es_remove_active (x : Z) (st : sockst) : option sockst :=
  let e := es_ep (ess st x) in
  cassert (es_active (ess st x) =? 1);;
  cassert (0 <? num_active (epo st e));;
  let next := ep_next (ess st x) in
  let prev := ep_prev (ess st x) in
  let st := if negb (prev =? 0) then upd_es prev (fun v => v <| ep_next := next |>) st
            else upd_epo e (fun v => v <| ep_active_first := next |>) st in
  let st := if negb (next =? 0) then upd_es next (fun v => v <| ep_prev := prev |>) st
            else upd_epo e (fun v => v <| ep_active_last := prev |>) st in
  Some (upd_epo e (fun v => v <| num_active ::= fun n => u32 (n - 1) |>) st).

Definition es_add_active (x : Z) (st : sockst) : sockst :=
  let e := es_ep (ess st x) in
  let last := ep_active_last (epo st e) in
  let st :=
    if last =? 0 then
      upd_epo e (fun v => v <| ep_active_first := x |> <| ep_active_last := x |>)
        (upd_es x (fun v => v <| ep_prev := 0 |> <| ep_next := 0 |>) st)
    else
      upd_epo e (fun v => v <| ep_active_last := x |>)
        (upd_es last (fun v => v <| ep_next := x |>)
           (upd_es x (fun v => v <| ep_next := 0 |> <| ep_prev := last |>) st)) in
  upd_epo e (fun v => v <| num_active ::= fun n => u32 (n + 1) |>) st.

Definition es_activate (x : Z) (st : sockst) : option sockst :=
  if negb (es_active (ess st x) =? 0) then Some st
  else
    st ← es_remove_inactive x st;
    Some (es_add_active x (upd_es x (fun v => v <| es_active := 1 |>) st)).

Definition es_deactivate (x : Z) (st : sockst) : option sockst :=
  if es_active (ess st x) =? 0 then Some st
  else
    st ← es_remove_active x st;
    Some (es_add_inactive x (upd_es x (fun v => v <| es_active := 0 |>) st)).

Definition es_active_pushback (x : Z) (st : sockst) : option sockst :=
  cassert (negb (es_active (ess st x) =? 0));;
  st ← es_remove_active x st;
  Some (es_add_active x st).

Definition es_remove_ep (x : Z) (st : sockst) : option sockst :=
  if negb (es_active (ess st x) =? 0) then es_remove_active x st else es_remove_inactive x st.

Definition es_remove_sock (x : Z) (st : sockst) : sockst :=
  let s := es_s (ess st x) in
  let next := so_next (ess st x) in
  let prev := so_prev (ess st x) in
  let st := if prev =? 0 then upd_sock s (fun v => v <| so_eps := next |>) st
            else upd_es prev (fun v => v <| so_next := next |>) st in
  if negb (next =? 0) then upd_es next (fun v => v <| so_prev := prev |>) st else st.

(** [free]. *)
Definition es_free (x : Z) (st : sockst) : sockst := st <| ss_ess ::= delete x |>.

(** ** Events of sockets *)

Definition flextcp_epoll_sockinit (s : Z) (st : sockst) : sockst :=
  upd_sock s (fun v => v <| ep_events := 0 |> <| so_eps := 0 |>) st.

(** The bindings from [x] on whose mask has a new event. *)
Fixpoint epoll_set_loop (fuel : nat) (newevs x : Z) (st : sockst) : option sockst :=
  if x =? 0 then Some st
  else
    match fuel with
    | O => None
    | S fuel =>
        st ← (if Z.land newevs (es_mask (ess st x)) =? 0 then Some st else es_activate x st);
        epoll_set_loop fuel newevs (so_next (ess st x)) st
    end.

Definition flextcp_epoll_set (s evts : Z) (st : sockst) : option sockst :=
  let newevs := flags_off evts (ep_events (sock st s)) in
  if newevs =? 0 then Some st
  else
    let st := upd_sock s (fun v => v <| ep_events ::= fun x => Z.lor x evts |>) st in
    epoll_set_loop (size (ss_ess st)) newevs (so_eps (sock st s)) st.

Definition flextcp_epoll_clear (s evts : Z) (st : sockst) : sockst :=
  upd_sock s (fun v => v <| ep_events ::= fun x => flags_off x evts |>) st.

(** ** Removal *)

Definition es_drop (x : Z) (st : sockst) : option sockst :=
  st ← es_remove_ep x (es_remove_sock x st); Some (es_free x st).

(** [while ((es = next) != NULL)]. *)
Fixpoint drop_loop (fuel : nat) (next : sockst -> Z) (st : sockst) : option sockst :=
  let x := next st in
  if x =? 0 then Some st
  else match fuel with
       | O => None
       | S fuel => st ← es_drop x st; drop_loop fuel next st
       end.

Definition flextcp_epoll_sockclose (s : Z) (st : sockst) : option sockst :=
  drop_loop (size (ss_ess st)) (fun st => so_eps (sock st s)) st.

Definition flextcp_epoll_destroy (e : Z) (st : sockst) : option sockst :=
  cassert (ep_refcnt (epo st e) =? 0);;
  st ← drop_loop (size (ss_ess st)) (fun st => ep_active_first (epo st e)) st;
  st ← drop_loop (size (ss_ess st)) (fun st => ep_inactive (epo st e)) st;
  Some (st <| ss_eps ::= delete e |>).

(** ** Control *)

(** The binding of the list from [x] on that belongs to [e], or 0. *)
Fixpoint es_find (fuel : nat) (e x : Z) (st : sockst) : option Z :=
  if x =? 0 then Some 0
  else if es_ep (ess st x) =? e then Some x
  else match fuel with
       | O => None
       | S fuel => es_find fuel e (so_next (ess st x)) st
       end.

Inductive epoll_op : Type := EPOLL_CTL_ADD | EPOLL_CTL_MOD | EPOLL_CTL_DEL | EPOLL_CTL_OTHER.
#[export] Instance epoll_op_eq_dec : EqDecision epoll_op.
Proof. solve_decision. Defined.

Definition EPOLL_SUPPORTED : Z := Z.lor EPOLLIN (Z.lor EPOLLOUT (Z.lor EPOLLERR (Z.lor EPOLLHUP EPOLLRDHUP))).

(** The new binding [x] gets to the front of the list of its socket. *)
Definition es_add_sock (x s : Z) (st : sockst) : sockst :=
  let st := upd_es x (fun v => v <| so_prev := 0 |>) st in
  let first := so_eps (sock st s) in
  if first =? 0 then
    upd_sock s (fun v => v <| so_eps := x |>) (upd_es x (fun v => v <| so_next := 0 |>) st)
  else
    upd_sock s (fun v => v <| so_eps := x |>)
      (upd_es first (fun v => v <| so_prev := x |>) (upd_es x (fun v => v <| so_next := first |>) st)).

Definition wakes (x : Z) (st : sockst) : bool :=
  any_flag (ep_events (sock st (es_s (ess st x)))) (es_mask (ess st x)).

Section Ctl.
Context (info : flexnic_info).

(** The operation on a socket of the library; [events] and [data] are those of the
    argument, [p] is the result of calloc. The result is the error, or none. *)
Definition epoll_ctl_sock (e : Z) (op : epoll_op) (s events data : Z) (p : option Z) (st : sockst)
    : option (option errno * sockst) :=
  x ← es_find (size (ss_ess st)) e (so_eps (sock st s)) st;
  let events := flags_off (flags_off events EPOLLET) EPOLLEXCLUSIVE in
  if bool_decide (op = EPOLL_CTL_ADD \/ op = EPOLL_CTL_MOD) && negb (flags_off events EPOLL_SUPPORTED =? 0)
  then Some (Some EINVAL, st)
  else
    match op with
    | EPOLL_CTL_ADD =>
        let st := upd_epo e (fun v => v <| num_tas ::= fun n => u32 (n + 1) |>) st in
        if negb (x =? 0) then Some (Some EEXIST, st)
        else match p with
             | None => Some (Some ENOMEM, st)
             | Some x =>
                 let st := st <| ss_ess ::= <[x := mk_es e s 0 0 0 0 data (Z.lor events EPOLLERR) 0]> |> in
                 let st := es_add_sock x s st in
                 let st := if bool_decide (so_type (sock st s) = SOCK_LISTENER)
                           then (with_lib (flextcp_listen_move info (ss_now st) s) st).2 else st in
                 let st := es_add_inactive x st in
                 st ← (if wakes x st then es_activate x st else Some st);
                 Some (None, st)
             end
    | EPOLL_CTL_MOD =>
        if x =? 0 then Some (Some ENOENT, st)
        else
          let st := upd_es x (fun v => v <| es_mask := Z.lor events EPOLLERR |>) st in
          st ← (if wakes x st then es_activate x st else Some st);
          Some (None, st)
    | EPOLL_CTL_DEL =>
        let st := upd_epo e (fun v => v <| num_tas ::= fun n => u32 (n - 1) |>) st in
        if x =? 0 then Some (Some ENOENT, st)
        else st ← es_drop x st; Some (None, st)
    | EPOLL_CTL_OTHER => Some (Some EINVAL, st)
    end.

(** Descriptors of Linux: [r] is the result of its epoll_ctl. *)
Definition epoll_ctl_linux (e : Z) (op : epoll_op) (r : Z) (st : sockst) : option (Z * sockst) :=
  if negb (r =? 0) then Some (r, st)
  else
    match op with
    | EPOLL_CTL_ADD => Some (r, upd_epo e (fun v => v <| num_linux ::= fun n => u32 (n + 1) |>) st)
    | EPOLL_CTL_DEL =>
        cassert (0 <? num_linux (epo st e));;
        Some (r, upd_epo e (fun v => v <| num_linux ::= fun n => u32 (n - 1) |>) st)
    | _ => Some (r, st)
    end.

(** ** Waiting *)

(** The active bindings; the result has the events and the data reported. *)
Fixpoint ep_poll_loop (i : nat) (e max : Z) (evs : list (Z * Z)) (st : sockst) : option (list (Z * Z) * sockst) :=
  match i with
  | O => Some (evs, st)
  | S i =>
      if negb (Z.of_nat (length evs) <? max) then Some (evs, st)
      else
        let x := ep_active_first (epo st e) in
        if x =? 0 then Some (evs, st)
        else
          let ready := Z.land (ep_events (sock st (es_s (ess st x)))) (es_mask (ess st x)) in
          if negb (ready =? 0) then
            let ev := (ready, es_data (ess st x)) in
            st ← es_active_pushback x st;
            ep_poll_loop i e max (evs ++ [ev]) st
          else
            st ← es_deactivate x st;
            ep_poll_loop i e max evs st
  end.

(** After the poll of the context. *)
Definition ep_poll_report (e max : Z) (st : sockst) : option (list (Z * Z) * sockst) :=
  ep_poll_loop (Z.to_nat (num_active (epo st e))) e max [] st.

End Ctl.

(** [tas_epoll_create1]: [fd] is the result of Linux, [p] that of calloc. *)
Definition tas_epoll_create1 (fd : option Z) (p : option Z) (st : sockst) : option (Z * sockst) :=
  match fd with
  | None => Some (-1, st)
  | Some fd =>
      '(r, st) ← flextcp_fd_ealloc p fd st;
      match r with
      | None => Some (-1, st)
      | Some e =>
          Some (fd, upd_epo e (fun v => v <| ep_inactive := 0 |> <| ep_active_first := 0 |> <| ep_active_last := 0 |>
                                          <| num_linux := 0 |> <| num_tas := 0 |> <| linux_next := false |>) st)
      end
  end.

Definition tas_epoll_create (size : Z) (fd : option Z) (p : option Z) (st : sockst) : option (Z * sockst) :=
  if size <=? 0 then Some (-1, st <| ss_errno := EINVAL |>) else tas_epoll_create1 fd p st.
