(* ===== verification/EpollProofs.v ===== *)
(** * Epoll: lists and invariant

    [ep_ok] relates the lists of an epoll instance to two lists of bindings, [so_ok] that of
    a socket to one.  [epoll_inv] is the invariant of all instances, which every operation
    preserves. *)

From S2P Require Import Prelude FpTypes Links LibTypes LibConn LibPoll SockTypes Epoll.

(** ** Views of updates *)

Lemma ess_upd_es x f st p : ess (upd_es x f st) p = if p =? x then f (ess st x) else ess st p.
Proof.
  unfold ess, upd_es. cbn. destruct (Z.eqb_spec p x) as [->|];
    [by rewrite lookup_total_insert_eq|by rewrite lookup_total_insert_ne].
Qed.

Lemma epo_upd_epo e f st p : epo (upd_epo e f st) p = if p =? e then f (epo st e) else epo st p.
Proof.
  unfold epo, upd_epo. cbn. destruct (Z.eqb_spec p e) as [->|];
    [by rewrite lookup_total_insert_eq|by rewrite lookup_total_insert_ne].
Qed.

Lemma sock_upd_sock s f st p : sock (upd_sock s f st) p = if p =? s then f (sock st s) else sock st p.
Proof.
  unfold sock, upd_sock. cbn. destruct (Z.eqb_spec p s) as [->|];
    [by rewrite lookup_total_insert_eq|by rewrite lookup_total_insert_ne].
Qed.

Lemma ess_upd_epo e f st p : ess (upd_epo e f st) p = ess st p.
Proof. done. Qed.
Lemma ess_upd_sock s f st p : ess (upd_sock s f st) p = ess st p.
Proof. done. Qed.
Lemma epo_upd_es x f st p : epo (upd_es x f st) p = epo st p.
Proof. done. Qed.
Lemma epo_upd_sock s f st p : epo (upd_sock s f st) p = epo st p.
Proof. done. Qed.
Lemma sock_upd_es x f st p : sock (upd_es x f st) p = sock st p.
Proof. done. Qed.
Lemma sock_upd_epo e f st p : sock (upd_epo e f st) p = sock st p.
Proof. done. Qed.

(** Rewrites all views to the state before, and decides the equalities of pointers. *)
Ltac views := repeat first [rewrite ess_upd_epo|rewrite ess_upd_sock|rewrite epo_upd_es|rewrite epo_upd_sock
  |rewrite sock_upd_es|rewrite sock_upd_epo|rewrite ess_upd_es|rewrite epo_upd_epo|rewrite sock_upd_sock].
Ltac viewcases := views; repeat (case_match; cbn -[ess epo sock upd_es upd_epo upd_sock]; views);
  bprop; subst; try done; try congruence.

(** Decides the comparisons of pointers in views of links. *)
Ltac linkcases := repeat (zcase; cbn; subst); repeat split; try done; try congruence.

(** ** Bindings *)

Definition live (st : sockst) (x : Z) : Prop := is_Some (ss_ess st !! x).

Lemma live_upd_es x f st p : live st x -> live (upd_es x f st) p <-> live st p.
Proof.
  intros Hx. unfold live, upd_es. cbn. destruct (decide (x = p)) as [->|Hne].
  - rewrite lookup_insert_eq. naive_solver.
  - by rewrite lookup_insert_ne.
Qed.

Lemma size_upd_es x f st : live st x -> size (ss_ess (upd_es x f st)) = size (ss_ess st).
Proof. intros [v Hv]. cbn. apply map_size_insert_Some. by rewrite Hv. Qed.

(** What the operations on the lists of epoll leave alone: everything outside, and all of
    a binding but the links of these lists and its state. *)
Definition es_same (v v' : epoll_socket) : Prop :=
  es_ep v' = es_ep v /\ es_s v' = es_s v /\ so_next v' = so_next v /\ so_prev v' = so_prev v
  /\ es_data v' = es_data v /\ es_mask v' = es_mask v.

Record ep_frame (st st' : sockst) : Prop := mk_ep_frame {
  ef_rest : exists eps es, st' = st <| ss_eps := eps |> <| ss_ess := es |>;
  ef_es : forall p, es_same (ess st p) (ess st' p);
  ef_live : forall p, live st' p <-> live st p;
  ef_ep : forall e, let v := epo st e in let v' := epo st' e in
    ep_refcnt v' = ep_refcnt v /\ num_tas v' = num_tas v /\ num_linux v' = num_linux v /\ linux_next v' = linux_next v;
  ef_size : size (ss_ess st') = size (ss_ess st) }.

#[export] Instance es_same_preorder : PreOrder es_same.
Proof. split; [by intros ?|]. unfold es_same. intros x y z. naive_solver congruence. Qed.

#[export] Instance ep_frame_preorder : PreOrder ep_frame.
Proof.
  split.
  - intros st. constructor; try done. exists (ss_eps st), (ss_ess st). by destruct st.
  - intros x y z [(p1 & e1 & ->) A2 A3 A4 A5] [(p2 & e2 & ->) B2 B3 B4 B5]. constructor.
    + by exists p2, e2.
    + intros p. etransitivity; [apply A2|apply B2].
    + intros p. etransitivity; [apply B3|apply A3].
    + intros e. cbv zeta in *. destruct (A4 e) as (E1 & E2 & E3 & E4). destruct (B4 e) as (F1 & F2 & F3 & F4). split_and!; congruence.
    + congruence.
Qed.

Lemma ef_sock st st' : ep_frame st st' -> ss_socks st' = ss_socks st.
Proof. intros [(? & ? & ->) _ _ _ _]. done. Qed.

Lemma ep_frame_es x f st : live st x -> (forall v, es_same v (f v)) -> ep_frame st (upd_es x f st).
Proof.
  intros Hx Hf. constructor; [|intros p; viewcases| |done|by apply size_upd_es].
  - exists (ss_eps st). by eexists.
  - intros p. by apply live_upd_es.
Qed.

Lemma ep_frame_ep e f st :
  (forall v, ep_refcnt (f v) = ep_refcnt v /\ num_tas (f v) = num_tas v /\ num_linux (f v) = num_linux v
             /\ linux_next (f v) = linux_next v) -> ep_frame st (upd_epo e f st).
Proof.
  intros Hf. constructor; [|done|done| |done].
  - eexists _, (ss_ess st). reflexivity.
  - intros p. cbv zeta. views. case_match; [bprop; subst; apply Hf|done].
Qed.

(** ** The lists of an epoll instance *)

Section Lists.
Implicit Types (st : sockst) (I A S : Z -> list Z).

Definition nxt st (p : Z) : Z := ep_next (ess st p).
Definition prv st (p : Z) : Z := ep_prev (ess st p).
Definition act st (p : Z) : Z := es_active (ess st p).

Definition upd_at {B} (l : Z -> B) (e : Z) (v : B) (x : Z) : B := if decide (x = e) then v else l x.

(** [I] are the inactive bindings, [A] the active ones; [fe] is a binding in no list. *)
Record ep_ok st I A (fe : option Z) : Prop := mk_ep_ok {
  eo_inact : forall e, exists t, dseg (nxt st) (prv st) 0 (ep_inactive (epo st e)) (I e) t 0;
  eo_act : forall e, dseg (nxt st) (prv st) 0 (ep_active_first (epo st e)) (A e) (ep_active_last (epo st e)) 0;
  eo_num : forall e, num_active (epo st e) = Z.of_nat (length (A e));
  eo_nodup : forall e, NoDup (I e) /\ NoDup (A e);
  eo_I : forall e x, x ∈ I e <-> live st x /\ es_ep (ess st x) = e /\ act st x = 0 /\ fe <> Some x;
  eo_A : forall e x, x ∈ A e <-> live st x /\ es_ep (ess st x) = e /\ act st x = 1 /\ fe <> Some x;
  eo_live : forall x, live st x -> x <> 0 /\ (act st x = 0 \/ act st x = 1);
  eo_size : Z.of_nat (size (ss_ess st)) < 4294967296 }.

Lemma ep_ok_ext st st' I A fe : ep_ok st I A fe ->
  (forall p, nxt st' p = nxt st p /\ prv st' p = prv st p /\ act st' p = act st p /\ es_ep (ess st' p) = es_ep (ess st p)) ->
  (forall e, epo st' e = epo st e) -> (forall p, live st' p <-> live st p) -> size (ss_ess st') = size (ss_ess st) ->
  ep_ok st' I A fe.
Proof.
  intros [H1 H2 H3 H4 H5 H6 H7 H8] Hv He Hl Hs. constructor.
  - intros e. destruct (H1 e) as [t Ht]. exists t. rewrite He. eapply dseg_ext; [|exact Ht].
    intros x _. by destruct (Hv x) as (-> & -> & _).
  - intros e. rewrite He. eapply dseg_ext; [|exact (H2 e)]. intros x _. by destruct (Hv x) as (-> & -> & _).
  - intros e. by rewrite He.
  - done.
  - intros e x. destruct (Hv x) as (_ & _ & -> & ->). rewrite Hl. apply H5.
  - intros e x. destruct (Hv x) as (_ & _ & -> & ->). rewrite Hl. apply H6.
  - intros x. destruct (Hv x) as (_ & _ & -> & _). rewrite Hl. apply H7.
  - by rewrite Hs.
Qed.

Lemma dom_size (m : gmap Z epoll_socket) l : NoDup l -> (forall x, x ∈ l -> is_Some (m !! x)) -> (length l <= size m)%nat.
Proof.
  intros Hn Hl. rewrite <-size_dom. rewrite <-(size_list_to_set (C := gset Z) l) by done.
  apply subseteq_size. intros x Hx. apply elem_of_list_to_set in Hx. by apply elem_of_dom, Hl.
Qed.

Section Ops.
Context st I A fe (Hok : ep_ok st I A fe).

Lemma eo_zero e : 0 ∉ I e /\ 0 ∉ A e.
Proof.
  split; intros Hx; [apply (eo_I _ _ _ _ Hok) in Hx|apply (eo_A _ _ _ _ Hok) in Hx];
    destruct Hx as [Hl _]; by apply (eo_live _ _ _ _ Hok) in Hl as [? _].
Qed.

(** Lists are apart. *)
Lemma eo_apart e e' x : x ∈ I e -> x ∉ A e' /\ (x ∈ I e' -> e' = e).
Proof.
  intros Hx%(eo_I _ _ _ _ Hok). split; [intros Hy%(eo_A _ _ _ _ Hok)|intros Hy%(eo_I _ _ _ _ Hok)];
    destruct Hx as (_ & E1 & E2 & _), Hy as (_ & E3 & E4 & _); congruence.
Qed.

Lemma eo_apart_act e e' x : x ∈ A e -> x ∉ I e' /\ (x ∈ A e' -> e' = e).
Proof.
  intros Hx%(eo_A _ _ _ _ Hok). split; [intros Hy%(eo_I _ _ _ _ Hok)|intros Hy%(eo_A _ _ _ _ Hok)];
    destruct Hx as (_ & E1 & E2 & _), Hy as (_ & E3 & E4 & _); congruence.
Qed.

Lemma eo_live_I e x : x ∈ I e -> live st x.
Proof. by intros [? _]%(eo_I _ _ _ _ Hok). Qed.
Lemma eo_live_A e x : x ∈ A e -> live st x.
Proof. by intros [? _]%(eo_A _ _ _ _ Hok). Qed.

Lemma eo_short e : Z.of_nat (length (A e)) < 4294967296.
Proof.
  pose proof (eo_size _ _ _ _ Hok). destruct (eo_nodup _ _ _ _ Hok e) as [_ Hn].
  pose proof (dom_size (ss_ess st) (A e) Hn (fun x => eo_live_A e x)). lia.
Qed.
End Ops.

Lemma upd_at_eq {B} (l : Z -> B) e v : upd_at l e v e = v.
Proof. unfold upd_at. by rewrite decide_True. Qed.
Lemma upd_at_ne {B} (l : Z -> B) e v x : x <> e -> upd_at l e v x = l x.
Proof. intros H. unfold upd_at. by rewrite decide_False. Qed.

(** Membership after a cell has been taken out. *)
Lemma without_member (l : list Z) st x (P : Z -> Prop) : (forall y, y ∈ l <-> live st y /\ P y /\ None <> Some y) ->
  forall y, y ∈ without x l <-> live st y /\ P y /\ Some x <> Some y.
Proof. intros H y. rewrite elem_of_without, H. naive_solver. Qed.

Lemma es_remove_inactive_ok st I A x e : ep_ok st I A None -> x ∈ I e ->
  exists st', es_remove_inactive x st = Some st' /\ ep_frame st st' /\ (forall p, act st' p = act st p)
  /\ ep_ok st' (upd_at I e (without x (I e))) A (Some x).
Proof.
  intros Hok Hx. pose proof (proj1 (eo_I _ _ _ _ Hok e x) Hx) as (Hl & Ee & Ea & _).
  destruct (eo_inact _ _ _ _ Hok e) as [t Ht]. pose proof (eo_zero _ _ _ _ Hok e) as [H0 _].
  destruct (dseg_neighbours _ _ _ _ _ _ H0 Hx Ht) as [Hpv Hnx].
  assert (Hlive : forall y, y ∈ I e -> live st y) by (intros y; by apply (eo_live_I _ _ _ _ Hok)).
  unfold es_remove_inactive. change (es_active (ess st x)) with (act st x). rewrite Ea, Ee. cbn [cassert mbind option_bind Z.eqb].
  change (ep_prev (ess st x)) with (prv st x). change (ep_next (ess st x)) with (nxt st x).
  set (st1 := if negb (prv st x =? 0) then _ else _). set (st2 := if negb (nxt st x =? 0) then _ else st1).
  exists st2. split; [done|].
  assert (Hf1 : ep_frame st st1).
  { subst st1. destruct (Z.eqb_spec (prv st x) 0); cbn [negb]; [by apply ep_frame_ep|]. apply ep_frame_es; [|done].
    apply Hlive. tauto. }
  assert (Hf2 : ep_frame st st2).
  { etransitivity; [exact Hf1|]. subst st2. destruct (Z.eqb_spec (nxt st x) 0); cbn [negb]; [done|]. apply ep_frame_es; [|done].
    apply (ef_live _ _ Hf1), Hlive. tauto. }
  split; [done|].
  assert (V : forall p, nxt st2 p = nx_out (nxt st) (prv st) x p /\ prv st2 p = pv_out (nxt st) (prv st) x p /\ act st2 p = act st p).
  { intros p. subst st2 st1. unfold nxt, prv, act, nx_out, pv_out, fupd.
    destruct (Z.eqb_spec (ep_prev (ess st x)) 0) as [Ep|Ep], (Z.eqb_spec (ep_next (ess st x)) 0) as [En|En]; cbn [negb]; views.
    all: linkcases. }
  assert (Ve : forall e', epo st2 e' = if decide (e' = e /\ prv st x = 0) then epo st e' <| ep_inactive := nxt st x |> else epo st e').
  { intros e'. subst st2 st1. destruct (Z.eqb_spec (prv st x) 0) as [Ep|Ep], (nxt st x =? 0); cbn [negb]; views.
    all: case_decide as Hd; [destruct Hd as [-> Hd]|]; repeat (zcase; subst); try done; tauto. }
  split; [intros p; apply V|].
  pose proof (ef_size _ _ Hf2) as Hs.
  pose proof Hok as [H1 H2 H3 H4 H5 H6 H7 H8]. constructor.
  - intros e'. rewrite Ve. destruct (decide (e' = e)) as [->|Hne].
    + rewrite upd_at_eq. destruct (H4 e) as [Hn _]. pose proof (dseg_without _ _ _ _ _ _ Hn H0 Hx Ht) as Hd.
      eexists.
      apply (dseg_pointwise (nx_out (nxt st) (prv st) x) _ (pv_out (nxt st) (prv st) x)); [intros p; apply V|intros p; apply V|].
      destruct (Z.eqb_spec (prv st x) 0) as [E0|E0]; [rewrite decide_True by done|rewrite decide_False by tauto]; exact Hd.
    + rewrite upd_at_ne, decide_False by tauto. destruct (H1 e') as [t' Ht']. exists t'.
      apply (dseg_pointwise (nx_out (nxt st) (prv st) x) _ (pv_out (nxt st) (prv st) x)); [intros p; apply V|intros p; apply V|]. apply (out_other _ _ _ (I e)); [done|done| |done].
      intros y Hy Hy'. by apply Hne, (eo_apart _ _ _ _ Hok e e' y Hy').
  - intros e'. assert (Ea' : ep_active_first (epo st2 e') = ep_active_first (epo st e')
      /\ ep_active_last (epo st2 e') = ep_active_last (epo st e')) by (rewrite Ve; by destruct (decide (e' = e /\ prv st x = 0))).
    destruct Ea' as [-> ->].
    apply (dseg_pointwise (nx_out (nxt st) (prv st) x) _ (pv_out (nxt st) (prv st) x)); [intros p; apply V|intros p; apply V|]. apply (out_other _ _ _ (I e)); [done|done| |apply H2].
    intros y Hy Hy'. by apply (eo_apart _ _ _ _ Hok e e' y) in Hy' as [? _].
  - intros e'. rewrite Ve, <-H3. by destruct (decide (e' = e /\ prv st x = 0)).
  - intros e'. split; [|apply H4]. unfold upd_at. destruct (decide (e' = e)); [apply without_nodup|]; apply H4.
  - intros e' y. rewrite (ef_live _ _ Hf2). destruct (ef_es _ _ Hf2 y) as (-> & _). destruct (V y) as (_ & _ & ->).
    destruct (decide (e' = e)) as [->|Hne]; [rewrite upd_at_eq, elem_of_without|rewrite upd_at_ne by done]; rewrite H5; naive_solver.
  - intros e' y. rewrite (ef_live _ _ Hf2). destruct (ef_es _ _ Hf2 y) as (-> & _). destruct (V y) as (_ & _ & ->).
    rewrite H6. split; intros (? & ? & ? & ?); split_and!; try done. intros [= <-]. congruence.
  - intros y. rewrite (ef_live _ _ Hf2). destruct (V y) as (_ & _ & ->). apply H7.
  - by rewrite Hs.
Qed.

Lemma es_remove_active_ok st I A x e : ep_ok st I A None -> x ∈ A e ->
  exists st', es_remove_active x st = Some st' /\ ep_frame st st' /\ (forall p, act st' p = act st p)
  /\ ep_ok st' I (upd_at A e (without x (A e))) (Some x).
Proof.
  intros Hok Hx. pose proof (proj1 (eo_A _ _ _ _ Hok e x) Hx) as (Hl & Ee & Ea & _).
  pose proof (eo_act _ _ _ _ Hok e) as Ht. pose proof (eo_zero _ _ _ _ Hok e) as [_ H0].
  destruct (dseg_neighbours _ _ _ _ _ _ H0 Hx Ht) as [Hpv Hnx].
  assert (Hlive : forall y, y ∈ A e -> live st y) by (intros y; by apply (eo_live_A _ _ _ _ Hok)).
  pose proof (eo_num _ _ _ _ Hok e) as Hnum. pose proof (eo_short _ _ _ _ Hok e) as Hsh.
  destruct (eo_nodup _ _ _ _ Hok e) as [_ Hn]. pose proof (without_length x (A e) Hn Hx) as Hwl.
  unfold es_remove_active. change (es_active (ess st x)) with (act st x). rewrite Ea, Ee. cbn [cassert mbind option_bind Z.eqb Pos.eqb].
  rewrite (proj2 (Z.ltb_lt 0 (num_active (epo st e)))) by lia. cbn [cassert mbind option_bind].
  change (ep_prev (ess st x)) with (prv st x). change (ep_next (ess st x)) with (nxt st x).
  set (st1 := if negb (prv st x =? 0) then _ else _). set (st2 := if negb (nxt st x =? 0) then _ else _).
  set (st3 := upd_epo e _ st2). exists st3. split; [done|].
  assert (Hf1 : ep_frame st st1).
  { subst st1. destruct (Z.eqb_spec (prv st x) 0); cbn [negb]; [by apply ep_frame_ep|]. apply ep_frame_es; [|done].
    apply Hlive. tauto. }
  assert (Hf3 : ep_frame st st3).
  { etransitivity; [exact Hf1|]. etransitivity; [|by apply ep_frame_ep].
    subst st2. destruct (Z.eqb_spec (nxt st x) 0); cbn [negb]; [by apply ep_frame_ep|]. apply ep_frame_es; [|done].
    apply (ef_live _ _ Hf1), Hlive. tauto. }
  split; [done|].
  assert (V : forall p, nxt st3 p = nx_out (nxt st) (prv st) x p /\ prv st3 p = pv_out (nxt st) (prv st) x p /\ act st3 p = act st p).
  { intros p. subst st3 st2 st1. unfold nxt, prv, act, nx_out, pv_out, fupd.
    destruct (Z.eqb_spec (ep_prev (ess st x)) 0) as [Ep|Ep], (Z.eqb_spec (ep_next (ess st x)) 0) as [En|En]; cbn [negb]; views.
    all: linkcases. }
  assert (Ve : forall e', let v := epo st3 e' in ep_inactive v = ep_inactive (epo st e')
    /\ ep_active_first v = (if decide (e' = e) then if prv st x =? 0 then nxt st x else ep_active_first (epo st e) else ep_active_first (epo st e'))
    /\ ep_active_last v = (if decide (e' = e) then if nxt st x =? 0 then prv st x else ep_active_last (epo st e) else ep_active_last (epo st e'))
    /\ num_active v = if decide (e' = e) then u32 (num_active (epo st e) - 1) else num_active (epo st e')).
  { intros e'. cbv zeta. subst st3 st2 st1. destruct (decide (e' = e)) as [->|Hne];
      destruct (Z.eqb_spec (prv st x) 0) as [Ep|Ep], (Z.eqb_spec (nxt st x) 0) as [En|En]; cbn [negb]; views.
    all: repeat (zcase; cbn; subst); repeat split; try done; congruence. }
  split; [intros p; apply V|].
  pose proof (ef_size _ _ Hf3) as Hs.
  pose proof Hok as [H1 H2 H3 H4 H5 H6 H7 H8]. constructor.
  - intros e'. destruct (Ve e') as (-> & _). destruct (H1 e') as [t' Ht']. exists t'.
    apply (dseg_pointwise (nx_out (nxt st) (prv st) x) _ (pv_out (nxt st) (prv st) x)); [intros p; apply V|intros p; apply V|].
    apply (out_other _ _ _ (A e)); [done|done| |done].
    intros y Hy Hy'. by apply (eo_apart_act _ _ _ _ Hok e e' y) in Hy' as [? _].
  - intros e'. destruct (Ve e') as (_ & -> & -> & _).
    apply (dseg_pointwise (nx_out (nxt st) (prv st) x) _ (pv_out (nxt st) (prv st) x)); [intros p; apply V|intros p; apply V|].
    destruct (decide (e' = e)) as [->|Hne].
    + rewrite upd_at_eq. by apply dseg_without.
    + rewrite upd_at_ne by done. apply (out_other _ _ _ (A e)); [done|done| |done].
      intros y Hy Hy'. by apply Hne, (eo_apart_act _ _ _ _ Hok e e' y Hy').
  - intros e'. destruct (Ve e') as (_ & _ & _ & ->). unfold upd_at. destruct (decide (e' = e)) as [->|Hne]; [|done].
    rewrite u32_id by cside. lia.
  - intros e'. split; [apply H4|]. unfold upd_at. destruct (decide (e' = e)); [apply without_nodup|]; apply H4.
  - intros e' y. rewrite (ef_live _ _ Hf3). destruct (ef_es _ _ Hf3 y) as (-> & _). destruct (V y) as (_ & _ & ->).
    rewrite H5. split; intros (? & ? & ? & ?); split_and!; try done. intros [= <-]. congruence.
  - intros e' y. rewrite (ef_live _ _ Hf3). destruct (ef_es _ _ Hf3 y) as (-> & _). destruct (V y) as (_ & _ & ->).
    destruct (decide (e' = e)) as [->|Hne]; [rewrite upd_at_eq, elem_of_without|rewrite upd_at_ne by done]; rewrite H6; naive_solver.
  - intros y. rewrite (ef_live _ _ Hf3). destruct (V y) as (_ & _ & ->). apply H7.
  - by rewrite Hs.
Qed.

(** Membership of a cell that comes back. *)
Lemma member_back (P : Z -> Prop) st (l l' : list Z) x : (forall y, y ∈ l <-> live st y /\ P y /\ Some x <> Some y) ->
  (forall y, y ∈ l' <-> y = x \/ y ∈ l) -> live st x -> P x -> forall y, y ∈ l' <-> live st y /\ P y /\ None <> Some y.
Proof.
  intros H H' Hl HP y. rewrite H', H. destruct (decide (y = x)) as [->|Hne]; naive_solver.
Qed.

Lemma es_add_inactive_ok st I A x e : ep_ok st I A (Some x) -> live st x -> es_ep (ess st x) = e -> act st x = 0 ->
  ep_frame st (es_add_inactive x st) /\ (forall p, act (es_add_inactive x st) p = act st p)
  /\ ep_ok (es_add_inactive x st) (upd_at I e (x :: I e)) A None.
Proof.
  intros Hok Hl Ee Ea. destruct (eo_inact _ _ _ _ Hok e) as [t Ht]. pose proof (eo_zero _ _ _ _ Hok e) as [H0 _].
  assert (Hx0 : x <> 0) by by apply (eo_live _ _ _ _ Hok).
  assert (HxI : forall e', x ∉ I e') by (intros e' (_ & _ & _ & Hf)%(eo_I _ _ _ _ Hok); done).
  assert (HxA : forall e', x ∉ A e') by (intros e' (_ & _ & _ & Hf)%(eo_A _ _ _ _ Hok); done).
  destruct (dseg_ends_in _ _ _ _ _ Ht) as [Hfi _].
  assert (Hlf : ep_inactive (epo st e) <> 0 -> live st (ep_inactive (epo st e))).
  { intros Hne. destruct Hfi as [?|Hfi]; [done|]. by apply (eo_live_I _ _ _ _ Hok) in Hfi. }
  unfold es_add_inactive. rewrite Ee. set (f := ep_inactive (epo st e)) in *.
  change (ep_inactive (epo (upd_es x _ st) e)) with f. set (st1 := upd_es x _ st). set (st2 := if f =? 0 then _ else _).
  set (st3 := upd_epo e _ st2).
  assert (Hf1 : ep_frame st st1) by by apply ep_frame_es.
  assert (Hf2 : ep_frame st st2).
  { etransitivity; [exact Hf1|]. subst st2. destruct (Z.eqb_spec f 0) as [E0|E0].
    - apply ep_frame_es; [by apply (ef_live _ _ Hf1)|done].
    - transitivity (upd_es x (fun v => v <| ep_next := f |>) st1);
        [apply ep_frame_es; [by apply (ef_live _ _ Hf1)|done]|]. apply ep_frame_es; [|done].
      apply live_upd_es; apply (ef_live _ _ Hf1); auto. }
  assert (Hf3 : ep_frame st st3) by (etransitivity; [exact Hf2|by apply ep_frame_ep]).
  assert (Hfx : f <> x) by (intros E1; destruct Hfi as [Hfi|Hfi]; [congruence|by apply (HxI e); rewrite <-E1]).
  clearbody f.
  assert (V : forall p, nxt st3 p = (if p =? x then f else nxt st p)
    /\ prv st3 p = (if p =? x then 0 else if p =? f then if f =? 0 then prv st p else x else prv st p) /\ act st3 p = act st p).
  { intros p. subst st3 st2 st1. unfold nxt, prv, act. destruct (Z.eqb_spec f 0) as [E0|E0]; views. all: linkcases. }
  assert (Ve : forall e', epo st3 e' = if decide (e' = e) then epo st e <| ep_inactive := x |> else epo st e').
  { intros e'. subst st3 st2 st1. destruct (Z.eqb_spec f 0); views; destruct (decide (e' = e)) as [->|Hne];
      rewrite ?Z.eqb_refl, ?(proj2 (Z.eqb_neq _ _)) by done; done. }
  split; [done|]. split; [intros p; apply V|].
  pose proof (ef_size _ _ Hf3) as Hs.
  pose proof Hok as [H1 H2 H3 H4 H5 H6 H7 H8].
  assert (Hother : forall l h t', (forall y, y ∈ l -> y <> x /\ y <> f) -> dseg (nxt st) (prv st) 0 h l t' 0 -> dseg (nxt st3) (prv st3) 0 h l t' 0).
  { intros l h t' Hd. apply dseg_ext. intros y Hy. destruct (Hd y Hy), (V y) as (-> & -> & _).
    rewrite !(proj2 (Z.eqb_neq _ _)) by done. done. }
  constructor.
  - intros e'. rewrite Ve. destruct (decide (e' = e)) as [->|Hne].
    + rewrite upd_at_eq. cbn [ep_inactive setf]. destruct (H4 e) as [Hn _].
      apply (dseg_push (nxt st) (prv st) (nxt st3) (prv st3) f (I e) t x); try done.
      * destruct (V x) as (-> & _). by rewrite Z.eqb_refl.
      * destruct (V x) as (_ & -> & _). by rewrite Z.eqb_refl.
      * intros y Hy. destruct (V y) as (-> & _). rewrite (proj2 (Z.eqb_neq _ _)); [done|]. intros ->. by apply (HxI e).
      * intros y Hy. destruct (V y) as (_ & -> & _). rewrite (proj2 (Z.eqb_neq y x)) by (intros ->; by apply (HxI e)).
        destruct (Z.eqb_spec y f) as [->|]; [|done]. destruct (Z.eqb_spec f 0) as [E0|]; [|done]. rewrite E0 in Hy. done.
    + rewrite upd_at_ne by done. destruct (H1 e') as [t' Ht']. exists t'. apply Hother; [|done]. intros y Hy.
      split; intros ->; [by apply (HxI e')|]. destruct Hfi as [Hfi|Hfi].
      * rewrite Hfi in Hy. by destruct (eo_zero _ _ _ _ Hok e').
      * apply Hne. destruct (eo_apart _ _ _ _ Hok e e' f Hfi) as [_ Hap]. by apply Hap.
  - intros e'. assert (Ea' : ep_active_first (epo st3 e') = ep_active_first (epo st e')
      /\ ep_active_last (epo st3 e') = ep_active_last (epo st e')).
    { rewrite Ve. by destruct (decide (e' = e)) as [->|]. }
    destruct Ea' as [-> ->]. apply Hother; [|apply H2]. intros y Hy.
    split; intros ->; [by apply (HxA e')|]. destruct Hfi as [Hfi|Hfi].
    + rewrite Hfi in Hy. by destruct (eo_zero _ _ _ _ Hok e').
    + destruct (eo_apart _ _ _ _ Hok e e' f Hfi) as [Hap _]. by apply Hap.
  - intros e'. rewrite Ve, <-H3. by destruct (decide (e' = e)) as [->|].
  - intros e'. split; [|apply H4]. unfold upd_at. destruct (decide (e' = e)) as [->|]; [|apply H4].
    apply NoDup_cons. split; [apply HxI|apply H4].
  - intros e' y. rewrite (ef_live _ _ Hf3). destruct (ef_es _ _ Hf3 y) as (-> & _). destruct (V y) as (_ & _ & ->).
    destruct (decide (e' = e)) as [->|Hne]; [rewrite upd_at_eq, elem_of_cons|rewrite upd_at_ne by done]; rewrite H5.
    + destruct (decide (y = x)) as [->|]; naive_solver.
    + split; intros (? & ? & ? & ?); split_and!; try done. intros [= <-]. congruence.
  - intros e' y. rewrite (ef_live _ _ Hf3). destruct (ef_es _ _ Hf3 y) as (-> & _). destruct (V y) as (_ & _ & ->).
    rewrite H6. split; intros (? & ? & ? & ?); split_and!; try done. intros [= <-]. congruence.
  - intros y. rewrite (ef_live _ _ Hf3). destruct (V y) as (_ & _ & ->). apply H7.
  - by rewrite Hs.
Qed.

Lemma es_add_active_ok st I A x e : ep_ok st I A (Some x) -> live st x -> es_ep (ess st x) = e -> act st x = 1 ->
  ep_frame st (es_add_active x st) /\ (forall p, act (es_add_active x st) p = act st p)
  /\ ep_ok (es_add_active x st) I (upd_at A e (A e ++ [x])) None.
Proof.
  intros Hok Hl Ee Ea. pose proof (eo_act _ _ _ _ Hok e) as Ht. pose proof (eo_zero _ _ _ _ Hok e) as [_ H0].
  assert (Hx0 : x <> 0) by by apply (eo_live _ _ _ _ Hok).
  assert (HxI : forall e', x ∉ I e') by (intros e' (_ & _ & _ & Hf)%(eo_I _ _ _ _ Hok); done).
  assert (HxA : forall e', x ∉ A e') by (intros e' (_ & _ & _ & Hf)%(eo_A _ _ _ _ Hok); done).
  destruct (dseg_ends_in _ _ _ _ _ Ht) as [_ Hla].
  destruct (eo_nodup _ _ _ _ Hok e) as [_ Hn].
  assert (Hsh : Z.of_nat (length (A e)) + 1 < 4294967296).
  { pose proof (eo_size _ _ _ _ Hok). assert (Hnd : NoDup (x :: A e)) by by apply NoDup_cons.
    pose proof (dom_size (ss_ess st) _ Hnd) as Hd. cbn [length] in Hd. assert (S (length (A e)) <= size (ss_ess st))%nat; [|lia].
    apply Hd. intros y [->|Hy]%elem_of_cons; [done|]. by apply (eo_live_A _ _ _ _ Hok e). }
  assert (Hll : ep_active_last (epo st e) <> 0 -> live st (ep_active_last (epo st e))).
  { intros Hne. destruct Hla as [?|Hla]; [done|]. by apply (eo_live_A _ _ _ _ Hok) in Hla. }
  unfold es_add_active. rewrite Ee. set (t := ep_active_last (epo st e)) in *.
  set (st2 := if t =? 0 then _ else _). set (st3 := upd_epo e _ st2).
  assert (Hf2 : ep_frame st st2).
  { subst st2. destruct (Z.eqb_spec t 0) as [E0|E0].
    - etransitivity; [|by apply ep_frame_ep]. by apply ep_frame_es.
    - etransitivity; [|by apply ep_frame_ep]. transitivity (upd_es x (fun v => v <| ep_next := 0 |> <| ep_prev := t |>) st);
        [by apply ep_frame_es|]. apply ep_frame_es; [|done]. apply live_upd_es; auto. }
  assert (Hf3 : ep_frame st st3) by (etransitivity; [exact Hf2|by apply ep_frame_ep]).
  assert (Htx : t <> x) by (intros E1; destruct Hla as [Hla|Hla]; [congruence|by apply (HxA e); rewrite <-E1]).
  assert (Et : ep_active_last (epo st e) = t) by done. clearbody t.
  assert (V : forall p, nxt st3 p = (if p =? x then 0 else if p =? t then if t =? 0 then nxt st p else x else nxt st p)
    /\ prv st3 p = (if p =? x then t else prv st p) /\ act st3 p = act st p).
  { intros p. subst st3 st2. unfold nxt, prv, act. destruct (Z.eqb_spec t 0) as [E0|E0]; views. all: linkcases. }
  assert (Ve : forall e', let v := epo st3 e' in ep_inactive v = ep_inactive (epo st e')
    /\ ep_active_first v = (if decide (e' = e) then if t =? 0 then x else ep_active_first (epo st e) else ep_active_first (epo st e'))
    /\ ep_active_last v = (if decide (e' = e) then x else ep_active_last (epo st e'))
    /\ num_active v = if decide (e' = e) then u32 (num_active (epo st e) + 1) else num_active (epo st e')).
  { intros e'. cbv zeta. subst st3 st2. destruct (decide (e' = e)) as [->|Hne]; destruct (Z.eqb_spec t 0) as [Ep|Ep]; views.
    all: repeat (zcase; cbn); repeat split; try done; congruence. }
  split; [done|]. split; [intros p; apply V|]. pose proof (ef_size _ _ Hf3) as Hs.
  pose proof Hok as [H1 H2 H3 H4 H5 H6 H7 H8].
  assert (Hother : forall l h t', (forall y, y ∈ l -> y <> x /\ y <> t) -> dseg (nxt st) (prv st) 0 h l t' 0 -> dseg (nxt st3) (prv st3) 0 h l t' 0).
  { intros l h t' Hd. apply dseg_ext. intros y Hy. destruct (Hd y Hy), (V y) as (-> & -> & _).
    rewrite !(proj2 (Z.eqb_neq _ _)) by done. done. }
  constructor.
  - intros e'. destruct (Ve e') as (-> & _). destruct (H1 e') as [t' Ht']. exists t'. apply Hother; [|done]. intros y Hy.
    split; intros ->; [by apply (HxI e')|]. destruct Hla as [Hla|Hla].
    + rewrite Hla in Hy. by destruct (eo_zero _ _ _ _ Hok e').
    + destruct (eo_apart_act _ _ _ _ Hok e e' t Hla) as [Hap _]. by apply Hap.
  - intros e'. destruct (Ve e') as (_ & -> & -> & _). destruct (decide (e' = e)) as [->|Hne].
    + rewrite upd_at_eq. apply (dseg_push_back (nxt st) (prv st)); try done.
      * destruct (V x) as (-> & _). by rewrite Z.eqb_refl.
      * destruct (V x) as (_ & -> & _). by rewrite Z.eqb_refl.
      * intros y Hy. destruct (V y) as (-> & _). rewrite (proj2 (Z.eqb_neq y x)) by (intros ->; by apply (HxA e)).
        destruct (Z.eqb_spec y t) as [->|]; [|done]. destruct (Z.eqb_spec t 0) as [E0|]; [|done]. by rewrite E0 in Hy.
      * intros y Hy. destruct (V y) as (_ & -> & _). rewrite (proj2 (Z.eqb_neq _ _)); [done|]. intros ->. by apply (HxA e).
    + rewrite upd_at_ne by done. apply Hother; [|done]. intros y Hy.
      split; intros ->; [by apply (HxA e')|]. destruct Hla as [Hla|Hla].
      * rewrite Hla in Hy. by destruct (eo_zero _ _ _ _ Hok e').
      * apply Hne. destruct (eo_apart_act _ _ _ _ Hok e e' t Hla) as [_ Hap]. by apply Hap.
  - intros e'. destruct (Ve e') as (_ & _ & _ & ->). unfold upd_at. destruct (decide (e' = e)) as [->|]; [|done].
    rewrite length_app, H3. cbn [length]. rewrite u32_id by cside. lia.
  - intros e'. split; [apply H4|]. unfold upd_at. destruct (decide (e' = e)) as [->|]; [|apply H4].
    apply NoDup_app. split_and!; [apply H4| |apply NoDup_singleton]. intros y Hy ->%list_elem_of_singleton. by apply (HxA e).
  - intros e' y. rewrite (ef_live _ _ Hf3). destruct (ef_es _ _ Hf3 y) as (-> & _). destruct (V y) as (_ & _ & ->).
    rewrite H5. split; intros (? & ? & ? & ?); split_and!; try done. intros [= <-]. congruence.
  - intros e' y. rewrite (ef_live _ _ Hf3). destruct (ef_es _ _ Hf3 y) as (-> & _). destruct (V y) as (_ & _ & ->).
    destruct (decide (e' = e)) as [->|Hne]; [rewrite upd_at_eq, elem_of_app, list_elem_of_singleton|rewrite upd_at_ne by done]; rewrite H6.
    + destruct (decide (y = x)) as [->|]; naive_solver.
    + split; intros (? & ? & ? & ?); split_and!; try done. intros [= <-]. congruence.
  - intros y. rewrite (ef_live _ _ Hf3). destruct (V y) as (_ & _ & ->). apply H7.
  - by rewrite Hs.
Qed.

(** The state of a binding that is in no list. *)
Lemma set_act_ok st I A x b : ep_ok st I A (Some x) -> live st x -> b = 0 \/ b = 1 ->
  let st' := upd_es x (fun v => v <| es_active := b |>) st in
  ep_ok st' I A (Some x) /\ ep_frame st st' /\ forall p, act st' p = if p =? x then b else act st p.
Proof.
  intros [H1 H2 H3 H4 H5 H6 H7 H8] Hl Hb st'.
  assert (Hf : ep_frame st st') by by apply ep_frame_es.
  assert (V : forall p, nxt st' p = nxt st p /\ prv st' p = prv st p /\ act st' p = if p =? x then b else act st p).
  { intros p. subst st'. unfold nxt, prv, act. views. linkcases. }
  split; [|split; [done|intros p; apply V]]. constructor.
  - intros e. destruct (H1 e) as [t Ht]. exists t. change (epo st' e) with (epo st e).
    apply (dseg_pointwise (nxt st) _ (prv st)); [intros p; apply V|intros p; apply V|done].
  - intros e. change (epo st' e) with (epo st e). apply (dseg_pointwise (nxt st) _ (prv st)); [intros p; apply V|intros p; apply V|done].
  - exact H3.
  - exact H4.
  - intros e y. rewrite (ef_live _ _ Hf). destruct (ef_es _ _ Hf y) as (-> & _). destruct (V y) as (_ & _ & ->). rewrite H5.
    destruct (Z.eqb_spec y x) as [->|]; naive_solver.
  - intros e y. rewrite (ef_live _ _ Hf). destruct (ef_es _ _ Hf y) as (-> & _). destruct (V y) as (_ & _ & ->). rewrite H6.
    destruct (Z.eqb_spec y x) as [->|]; naive_solver.
  - intros y. rewrite (ef_live _ _ Hf). destruct (V y) as (_ & _ & ->). intros Hy. destruct (H7 y Hy). split; [done|].
    destruct (y =? x); done.
  - by rewrite (ef_size _ _ Hf).
Qed.

(** ** Moving bindings *)

Lemma act_cases st I A x : ep_ok st I A None -> live st x ->
  x <> 0 /\ ((act st x = 0 /\ x ∈ I (es_ep (ess st x))) \/ (act st x = 1 /\ x ∈ A (es_ep (ess st x)))).
Proof.
  intros Hok Hl. destruct (eo_live _ _ _ _ Hok x Hl) as [H0 [E|E]]; (split; [done|]).
  - left. split; [done|]. by apply (eo_I _ _ _ _ Hok).
  - right. split; [done|]. by apply (eo_A _ _ _ _ Hok).
Qed.

Lemma es_activate_ok st I A x : ep_ok st I A None -> live st x ->
  exists st' I' A', es_activate x st = Some st' /\ ep_frame st st' /\ ep_ok st' I' A' None
  /\ forall p, act st' p = if p =? x then 1 else act st p.
Proof.
  intros Hok Hl. destruct (act_cases _ _ _ _ Hok Hl) as [H0 [[Ea Hx]|[Ea Hx]]];
    unfold es_activate; change (es_active (ess st x)) with (act st x); rewrite Ea; cbn [Z.eqb negb].
  - destruct (es_remove_inactive_ok st I A x _ Hok Hx) as (st1 & -> & Hf1 & Ha1 & Hok1). cbn [mbind option_bind].
    assert (Hl1 : live st1 x) by by apply (ef_live _ _ Hf1).
    destruct (set_act_ok st1 _ _ x 1 Hok1 Hl1 ltac:(by right)) as (Hok2 & Hf2 & Ha2). set (st2 := upd_es x _ st1) in *.
    destruct (es_add_active_ok st2 _ _ x (es_ep (ess st2 x)) Hok2) as (Hf3 & Ha3 & Hok3);
      [by apply (ef_live _ _ Hf2)|done|by rewrite Ha2, Z.eqb_refl|].
    eexists _, _, _. split; [done|]. split; [by do 2 (etransitivity; [eassumption|])|]. split; [exact Hok3|].
    intros p. by rewrite Ha3, Ha2, Ha1.
  - exists st, I, A. split; [done|]. split; [done|]. split; [done|]. intros p. by destruct (Z.eqb_spec p x) as [->|].
Qed.

(** A binding at the head of the queue of [e] is taken off, or moves to the end. *)
Lemma es_deactivate_ok st I A x e : ep_ok st I A None -> x ∈ A e ->
  exists st' I', es_deactivate x st = Some st' /\ ep_frame st st' /\ ep_ok st' I' (upd_at A e (without x (A e))) None
  /\ forall p, act st' p = if p =? x then 0 else act st p.
Proof.
  intros Hok Hx. pose proof (proj1 (eo_A _ _ _ _ Hok e x) Hx) as (Hl & Ee & Ea & _).
  unfold es_deactivate. change (es_active (ess st x)) with (act st x). rewrite Ea. cbn [Z.eqb].
  destruct (es_remove_active_ok st I A x e Hok Hx) as (st1 & -> & Hf1 & Ha1 & Hok1). cbn [mbind option_bind].
  assert (Hl1 : live st1 x) by by apply (ef_live _ _ Hf1).
  destruct (set_act_ok st1 _ _ x 0 Hok1 Hl1 ltac:(by left)) as (Hok2 & Hf2 & Ha2). set (st2 := upd_es x _ st1) in *.
  destruct (es_add_inactive_ok st2 _ _ x (es_ep (ess st2 x)) Hok2) as (Hf3 & Ha3 & Hok3);
    [by apply (ef_live _ _ Hf2)|done|by rewrite Ha2, Z.eqb_refl|].
  eexists _, _. split; [done|]. split; [by do 2 (etransitivity; [eassumption|])|]. split; [exact Hok3|].
  intros p. by rewrite Ha3, Ha2, Ha1.
Qed.

Lemma upd_at_twice {B} (l : Z -> B) e v w x : upd_at (upd_at l e v) e w x = upd_at l e w x.
Proof. unfold upd_at. by case_decide. Qed.

Lemma ep_ok_lists st I I' A A' fe : (forall e, I' e = I e) -> (forall e, A' e = A e) -> ep_ok st I A fe -> ep_ok st I' A' fe.
Proof.
  intros Ei Ea [H1 H2 H3 H4 H5 H6 H7 H8]. constructor; try done; intros e; rewrite ?Ei, ?Ea; auto.
Qed.

Lemma es_active_pushback_ok st I A x e : ep_ok st I A None -> x ∈ A e ->
  exists st', es_active_pushback x st = Some st' /\ ep_frame st st'
  /\ ep_ok st' I (upd_at A e (without x (A e) ++ [x])) None /\ forall p, act st' p = act st p.
Proof.
  intros Hok Hx. pose proof (proj1 (eo_A _ _ _ _ Hok e x) Hx) as (Hl & Ee & Ea & _).
  unfold es_active_pushback. change (es_active (ess st x)) with (act st x). rewrite Ea. cbn [Z.eqb negb cassert mbind option_bind].
  destruct (es_remove_active_ok st I A x e Hok Hx) as (st1 & -> & Hf1 & Ha1 & Hok1). cbn [mbind option_bind].
  destruct (es_add_active_ok st1 _ _ x e Hok1) as (Hf3 & Ha3 & Hok3);
    [by apply (ef_live _ _ Hf1)|by destruct (ef_es _ _ Hf1 x) as (-> & _)|by rewrite Ha1|].
  eexists. split; [done|]. split; [by etransitivity|]. split; [|intros p; by rewrite Ha3, Ha1].
  eapply ep_ok_lists; [done| |exact Hok3]. intros e'. by rewrite upd_at_twice, upd_at_eq.
Qed.

Lemma es_remove_ep_ok st I A x : ep_ok st I A None -> live st x ->
  exists st' I' A', es_remove_ep x st = Some st' /\ ep_frame st st' /\ ep_ok st' I' A' (Some x)
  /\ forall p, act st' p = act st p.
Proof.
  intros Hok Hl. destruct (act_cases _ _ _ _ Hok Hl) as [H0 [[Ea Hx]|[Ea Hx]]];
    unfold es_remove_ep; change (es_active (ess st x)) with (act st x); rewrite Ea; cbn [Z.eqb negb].
  - destruct (es_remove_inactive_ok st I A x _ Hok Hx) as (st1 & -> & Hf1 & Ha1 & Hok1). eauto 10.
  - destruct (es_remove_active_ok st I A x _ Hok Hx) as (st1 & -> & Hf1 & Ha1 & Hok1). eauto 10.
Qed.

(** ** The list of a socket *)

Definition snx st (p : Z) : Z := so_next (ess st p).
Definition spv st (p : Z) : Z := so_prev (ess st p).

(** [fs] is a binding that is not in the list of its socket. *)
Record so_ok st (S : Z -> list Z) (fs : option Z) : Prop := mk_so_ok {
  ko_list : forall s, exists t, dseg (snx st) (spv st) 0 (so_eps (sock st s)) (S s) t 0;
  ko_nodup : forall s, NoDup (S s);
  ko_mem : forall s x, x ∈ S s <-> live st x /\ es_s (ess st x) = s /\ fs <> Some x;
  ko_null : forall x, live st x -> x <> 0 }.

Lemma so_ok_frame st st' S fs : ep_frame st st' -> so_ok st S fs -> so_ok st' S fs.
Proof.
  intros Hf [H1 H2 H3 H4]. constructor; [|done| |].
  - intros s. destruct (H1 s) as [t Ht]. exists t. unfold sock. rewrite (ef_sock _ _ Hf).
    apply (dseg_pointwise (snx st) _ (spv st)); [| |done]; intros p; by destruct (ef_es _ _ Hf p) as (_ & _ & ? & ? & _).
  - intros s x. rewrite (ef_live _ _ Hf). destruct (ef_es _ _ Hf x) as (_ & -> & _). apply H3.
  - intros x. rewrite (ef_live _ _ Hf). apply H4.
Qed.

(** What the operations on the lists of sockets leave alone. *)
Record so_frame st st' : Prop := mk_so_frame {
  sf_es : forall p, let v := ess st p in let v' := ess st' p in
    es_ep v' = es_ep v /\ es_s v' = es_s v /\ ep_next v' = ep_next v /\ ep_prev v' = ep_prev v
    /\ es_data v' = es_data v /\ es_mask v' = es_mask v /\ es_active v' = es_active v;
  sf_sock : forall s, exists e, sock st' s = sock st s <| so_eps := e |>;
  sf_epo : ss_eps st' = ss_eps st;
  sf_live : forall p, live st' p <-> live st p;
  sf_size : size (ss_ess st') = size (ss_ess st) }.

Lemma ep_ok_so_frame st st' I A fe : so_frame st st' -> ep_ok st I A fe -> ep_ok st' I A fe.
Proof.
  intros Hf Hok. apply (ep_ok_ext st); [done| | |apply Hf|apply Hf].
  - intros p. destruct (sf_es _ _ Hf p) as (E1 & _ & E3 & E4 & _ & _ & E7). by unfold nxt, prv, act.
  - intros e. unfold epo. by rewrite (sf_epo _ _ Hf).
Qed.

Lemma so_zero st S fs s : so_ok st S fs -> 0 ∉ S s.
Proof. intros Hok [Hl _]%(ko_mem _ _ _ Hok). by apply (ko_null _ _ _ Hok) in Hl. Qed.

Lemma so_apart st S fs s s' x : so_ok st S fs -> x ∈ S s -> x ∈ S s' -> s' = s.
Proof. intros Hok (_ & <- & _)%(ko_mem _ _ _ Hok) (_ & <- & _)%(ko_mem _ _ _ Hok). done. Qed.

Lemma es_remove_sock_ok st S x s : so_ok st S None -> x ∈ S s ->
  so_frame st (es_remove_sock x st) /\ so_ok (es_remove_sock x st) (upd_at S s (without x (S s))) (Some x).
Proof.
  intros Hok Hx. pose proof (proj1 (ko_mem _ _ _ Hok s x) Hx) as (Hl & Es & _).
  destruct (ko_list _ _ _ Hok s) as [t Ht]. pose proof (so_zero _ _ _ s Hok) as H0.
  destruct (dseg_neighbours _ _ _ _ _ _ H0 Hx Ht) as [Hpv Hnx].
  assert (Hlive : forall y, y ∈ S s -> live st y) by by intros y [? _]%(ko_mem _ _ _ Hok).
  unfold es_remove_sock. rewrite Es. change (so_next (ess st x)) with (snx st x). change (so_prev (ess st x)) with (spv st x).
  set (st1 := if spv st x =? 0 then _ else _). set (st2 := if negb (snx st x =? 0) then _ else st1).
  assert (Hl1 : forall p, live st1 p <-> live st p).
  { intros p. subst st1. destruct (Z.eqb_spec (spv st x) 0); [done|]. apply live_upd_es, Hlive. tauto. }
  assert (Hz1 : size (ss_ess st1) = size (ss_ess st)).
  { subst st1. destruct (Z.eqb_spec (spv st x) 0); [done|]. apply size_upd_es, Hlive. tauto. }
  assert (Hl2 : forall p, live st2 p <-> live st p).
  { intros p. rewrite <-Hl1. subst st2. destruct (Z.eqb_spec (snx st x) 0); [done|]. apply live_upd_es, Hl1, Hlive. tauto. }
  assert (V : forall p, snx st2 p = nx_out (snx st) (spv st) x p /\ spv st2 p = pv_out (snx st) (spv st) x p).
  { intros p. subst st2 st1. unfold snx, spv, nx_out, pv_out, fupd.
    destruct (Z.eqb_spec (so_prev (ess st x)) 0) as [Ep|Ep], (Z.eqb_spec (so_next (ess st x)) 0) as [En|En]; cbn [negb]; views.
    all: linkcases. }
  assert (Vs : forall s', so_eps (sock st2 s') = if decide (s' = s) then if spv st x =? 0 then snx st x else so_eps (sock st s) else so_eps (sock st s')).
  { intros s'. subst st2 st1. destruct (decide (s' = s)) as [->|Hne];
      destruct (Z.eqb_spec (spv st x) 0) as [Ep|Ep], (Z.eqb_spec (snx st x) 0) as [En|En]; cbn [negb]; views.
    all: repeat (zcase; cbn); repeat split; try done; congruence. }
  split.
  - constructor; [| |by subst st2 st1; repeat case_match|done|].
    + intros p. cbv zeta. subst st2 st1.
      destruct (Z.eqb_spec (spv st x) 0) as [Ep|Ep], (Z.eqb_spec (snx st x) 0) as [En|En]; cbn [negb]; views; linkcases.
    + intros s'. assert (Hc : sock st2 s' = sock st s' \/ sock st2 s' = sock st s' <| so_eps := snx st x |>).
      { subst st2 st1. destruct (Z.eqb_spec (spv st x) 0) as [Ep|Ep], (Z.eqb_spec (snx st x) 0) as [En|En]; cbn [negb]; views;
          try (by left). all: destruct (Z.eqb_spec s' s) as [->|]; [by right|by left]. }
      destruct Hc as [->| ->]; [exists (so_eps (sock st s')); by destruct (sock st s')|by eexists].
    + etransitivity; [|exact Hz1]. subst st2. destruct (Z.eqb_spec (snx st x) 0); [done|]. apply size_upd_es, Hl1, Hlive. tauto.
  - constructor.
    + intros s'. rewrite Vs. destruct (decide (s' = s)) as [->|Hne].
      * rewrite upd_at_eq. eexists. apply (dseg_pointwise (nx_out (snx st) (spv st) x) _ (pv_out (snx st) (spv st) x));
          [intros p; apply V|intros p; apply V|]. apply dseg_without; [apply (ko_nodup _ _ _ Hok)|done|done|exact Ht].
      * rewrite upd_at_ne by done. destruct (ko_list _ _ _ Hok s') as [t' Ht']. exists t'.
        apply (dseg_pointwise (nx_out (snx st) (spv st) x) _ (pv_out (snx st) (spv st) x)); [intros p; apply V|intros p; apply V|].
        apply (out_other _ _ _ (S s)); [done|done| |done]. intros y Hy Hy'. apply Hne. by apply (so_apart st S None s s' y).
    + intros s'. unfold upd_at. destruct (decide (s' = s)); [apply without_nodup|]; apply (ko_nodup _ _ _ Hok).
    + intros s' y. rewrite Hl2. assert (Ey : es_s (ess st2 y) = es_s (ess st y)).
      { subst st2 st1. destruct (Z.eqb_spec (spv st x) 0) as [Ep|Ep], (Z.eqb_spec (snx st x) 0) as [En|En]; cbn [negb]; views; linkcases. }
      rewrite Ey. destruct (decide (s' = s)) as [->|Hne]; [rewrite upd_at_eq, elem_of_without|rewrite upd_at_ne by done];
        rewrite (ko_mem _ _ _ Hok); [naive_solver|]. split; intros (? & ? & ?); split_and!; try done. intros [= <-]. congruence.
    + intros y. rewrite Hl2. apply (ko_null _ _ _ Hok).
Qed.

Lemma es_add_sock_ok st S x s : so_ok st S (Some x) -> live st x -> es_s (ess st x) = s ->
  so_frame st (es_add_sock x s st) /\ so_ok (es_add_sock x s st) (upd_at S s (x :: S s)) None.
Proof.
  intros Hok Hl Es. destruct (ko_list _ _ _ Hok s) as [t Ht]. pose proof (so_zero _ _ _ s Hok) as H0.
  assert (Hx0 : x <> 0) by by apply (ko_null _ _ _ Hok).
  assert (HxS : forall s', x ∉ S s') by (intros s' (_ & _ & Hf)%(ko_mem _ _ _ Hok); done).
  destruct (dseg_ends_in _ _ _ _ _ Ht) as [Hfi _].
  assert (Hlf : so_eps (sock st s) <> 0 -> live st (so_eps (sock st s))).
  { intros Hne. destruct Hfi as [?|Hfi]; [done|]. by apply (ko_mem _ _ _ Hok) in Hfi as [? _]. }
  unfold es_add_sock. change (so_eps (sock (upd_es x _ st) s)) with (so_eps (sock st s)). set (f := so_eps (sock st s)) in *.
  set (st1 := upd_es x _ st). set (st2 := if f =? 0 then _ else _).
  assert (Hfx : f <> x) by (intros E1; destruct Hfi as [Hfi|Hfi]; [congruence|by apply (HxS s); rewrite <-E1]).
  assert (Ef : so_eps (sock st s) = f) by done. clearbody f.
  assert (Hl1 : forall p, live st1 p <-> live st p) by (intros p; by apply live_upd_es).
  assert (Hl2 : forall p, live st2 p <-> live st p).
  { intros p. rewrite <-Hl1. subst st2. destruct (Z.eqb_spec f 0); change (live (upd_sock ?a ?b ?c)) with (live c).
    - by apply live_upd_es, Hl1.
    - rewrite live_upd_es; [by apply live_upd_es, Hl1|]. apply live_upd_es; apply Hl1; auto. }
  assert (Hz2 : size (ss_ess st2) = size (ss_ess st)).
  { transitivity (size (ss_ess st1)); [|by apply size_upd_es]. subst st2. destruct (Z.eqb_spec f 0);
      change (ss_ess (upd_sock ?a ?b ?c)) with (ss_ess c); [by apply size_upd_es, Hl1|].
    rewrite size_upd_es; [by apply size_upd_es, Hl1|]. apply live_upd_es; apply Hl1; auto. }
  assert (V : forall p, snx st2 p = (if p =? x then f else snx st p)
    /\ spv st2 p = (if p =? x then 0 else if p =? f then if f =? 0 then spv st p else x else spv st p)).
  { intros p. subst st2 st1. unfold snx, spv. destruct (Z.eqb_spec f 0) as [E0|E0]; views. all: linkcases. }
  assert (Vs : forall s', sock st2 s' = if decide (s' = s) then sock st s <| so_eps := x |> else sock st s').
  { intros s'. subst st2 st1. destruct (Z.eqb_spec f 0); views; destruct (decide (s' = s)) as [->|Hne];
      rewrite ?Z.eqb_refl, ?(proj2 (Z.eqb_neq _ _)) by done; done. }
  assert (Ve : forall p, let v := ess st p in let v' := ess st2 p in
    es_ep v' = es_ep v /\ es_s v' = es_s v /\ ep_next v' = ep_next v /\ ep_prev v' = ep_prev v
    /\ es_data v' = es_data v /\ es_mask v' = es_mask v /\ es_active v' = es_active v).
  { intros p. cbv zeta. subst st2 st1. destruct (Z.eqb_spec f 0) as [E0|E0]; views; linkcases. }
  split.
  - constructor; try done.
    + intros s'. rewrite Vs. destruct (decide (s' = s)) as [->|]; [by eexists|].
      exists (so_eps (sock st s')). by destruct (sock st s').
    + subst st2 st1. by case_match.
  - constructor.
    + intros s'. rewrite Vs. destruct (decide (s' = s)) as [->|Hne].
      * rewrite upd_at_eq. cbn [so_eps setf]. apply (dseg_push (snx st) (spv st) (snx st2) (spv st2) f (S s) t x); try done.
        -- apply (ko_nodup _ _ _ Hok).
        -- destruct (V x) as (-> & _). by rewrite Z.eqb_refl.
        -- destruct (V x) as (_ & ->). by rewrite Z.eqb_refl.
        -- intros y Hy. destruct (V y) as (-> & _). rewrite (proj2 (Z.eqb_neq _ _)); [done|]. intros ->. by apply (HxS s).
        -- intros y Hy. destruct (V y) as (_ & ->). rewrite (proj2 (Z.eqb_neq y x)) by (intros ->; by apply (HxS s)).
           destruct (Z.eqb_spec y f) as [->|]; [|done]. destruct (Z.eqb_spec f 0) as [E0|]; [|done]. by rewrite E0 in Hy.
      * rewrite upd_at_ne by done. destruct (ko_list _ _ _ Hok s') as [t' Ht']. exists t'. eapply dseg_ext; [|exact Ht'].
        intros y Hy. destruct (V y) as (-> & ->). rewrite !(proj2 (Z.eqb_neq y x)) by (intros ->; by apply (HxS s')).
        rewrite (proj2 (Z.eqb_neq y f)); [done|]. intros ->. destruct Hfi as [Hfi|Hfi].
        -- rewrite Hfi in Hy. by apply (so_zero _ _ _ s' Hok).
        -- apply Hne. by apply (so_apart st S (Some x) s s' f).
    + intros s'. unfold upd_at. destruct (decide (s' = s)) as [->|]; [|apply (ko_nodup _ _ _ Hok)].
      apply NoDup_cons. split; [apply HxS|apply (ko_nodup _ _ _ Hok)].
    + intros s' y. rewrite Hl2. destruct (Ve y) as (_ & -> & _).
      destruct (decide (s' = s)) as [->|Hne]; [rewrite upd_at_eq, elem_of_cons|rewrite upd_at_ne by done]; rewrite (ko_mem _ _ _ Hok).
      * destruct (decide (y = x)) as [->|]; naive_solver.
      * split; intros (? & ? & ?); split_and!; try done. intros [= <-]. congruence.
    + intros y. rewrite Hl2. apply (ko_null _ _ _ Hok).
Qed.

(** ** New bindings and removal *)

Lemma ess_insert st x v p : ess (st <| ss_ess ::= <[x := v]> |>) p = if p =? x then v else ess st p.
Proof.
  unfold ess. cbn. destruct (Z.eqb_spec p x) as [->|]; [by rewrite lookup_total_insert_eq|by rewrite lookup_total_insert_ne].
Qed.

Lemma es_new_ok st I A S x v : ep_ok st I A None -> so_ok st S None -> ~ live st x -> x <> 0 ->
  Z.of_nat (size (ss_ess st)) + 1 < 4294967296 -> es_active v = 0 ->
  let st' := st <| ss_ess ::= <[x := v]> |> in ep_ok st' I A (Some x) /\ so_ok st' S (Some x) /\ live st' x
  /\ (forall p, p <> x -> ess st' p = ess st p) /\ ess st' x = v /\ (forall p, live st' p <-> p = x \/ live st p).
Proof.
  intros [H1 H2 H3 H4 H5 H6 H7 H8] [K1 K2 K3 K4] Hnl H0 Hsz Hv st'.
  assert (Hl : forall p, live st' p <-> p = x \/ live st p).
  { intros p. unfold live, st'. cbn. destruct (decide (p = x)) as [->|Hne].
    - rewrite lookup_insert_eq. split; [by left|done].
    - rewrite lookup_insert_ne by done. split; [by right|by intros [?|?]]. }
  assert (Ve : forall p, p <> x -> ess st' p = ess st p).
  { intros p Hp. unfold st'. rewrite ess_insert. by rewrite (proj2 (Z.eqb_neq _ _)). }
  assert (Vx : ess st' x = v) by (unfold st'; by rewrite ess_insert, Z.eqb_refl).
  assert (Hd : forall p, live st p -> p <> x) by (intros p Hp ->; done).
  split; [|split; [|split; [apply Hl; by left|split; [done|split; [done|exact Hl]]]]].
  - constructor.
    + intros e. destruct (H1 e) as [t Ht]. exists t. change (epo st' e) with (epo st e). eapply dseg_ext; [|exact Ht].
      intros y Hy. unfold nxt, prv. rewrite Ve; [done|]. by apply Hd, (H5 e y).
    + intros e. change (epo st' e) with (epo st e). eapply dseg_ext; [|exact (H2 e)].
      intros y Hy. unfold nxt, prv. rewrite Ve; [done|]. by apply Hd, (H6 e y).
    + exact H3.
    + exact H4.
    + intros e y. rewrite Hl, H5. unfold act. destruct (decide (y = x)) as [->|Hne]; [naive_solver|rewrite Ve by done; naive_solver].
    + intros e y. rewrite Hl, H6. unfold act. destruct (decide (y = x)) as [->|Hne]; [naive_solver|rewrite Ve by done; naive_solver].
    + intros y [->|Hy]%Hl; unfold act; [by rewrite Vx; auto|]. rewrite Ve by by apply Hd. by apply H7.
    + unfold st'. cbn. rewrite map_size_insert_None; [lia|]. apply eq_None_not_Some. exact Hnl.
  - constructor.
    + intros s. destruct (K1 s) as [t Ht]. exists t. change (sock st' s) with (sock st s). eapply dseg_ext; [|exact Ht].
      intros y Hy. unfold snx, spv. rewrite Ve; [done|]. by apply Hd, (K3 s y).
    + exact K2.
    + intros s y. rewrite Hl, K3. destruct (decide (y = x)) as [->|Hne]; [naive_solver|rewrite Ve by done; naive_solver].
    + intros y [->|Hy]%Hl; [done|by apply K4].
Qed.

Lemma es_free_ok st I A S x : ep_ok st I A (Some x) -> so_ok st S (Some x) ->
  ep_ok (es_free x st) I A None /\ so_ok (es_free x st) S None
  /\ forall p, live (es_free x st) p <-> live st p /\ p <> x.
Proof.
  intros [H1 H2 H3 H4 H5 H6 H7 H8] [K1 K2 K3 K4]. set (st' := es_free x st).
  assert (Hl : forall p, live st' p <-> live st p /\ p <> x).
  { intros p. unfold live, st', es_free. cbn. rewrite lookup_delete_is_Some. naive_solver. }
  assert (Ve : forall p, p <> x -> ess st' p = ess st p).
  { intros p Hp. unfold ess, st', es_free. cbn. by rewrite lookup_total_delete_ne. }
  split; [|split; [|exact Hl]]; constructor.
  - intros e. destruct (H1 e) as [t Ht]. exists t. change (epo st' e) with (epo st e). eapply dseg_ext; [|exact Ht].
    intros y (_ & _ & _ & Hy)%H5. unfold nxt, prv. by rewrite Ve by congruence.
  - intros e. change (epo st' e) with (epo st e). eapply dseg_ext; [|exact (H2 e)].
    intros y (_ & _ & _ & Hy)%H6. unfold nxt, prv. by rewrite Ve by congruence.
  - exact H3.
  - exact H4.
  - intros e y. rewrite Hl, H5. unfold act. destruct (decide (y = x)) as [->|Hne]; [naive_solver|rewrite Ve by done; naive_solver].
  - intros e y. rewrite Hl, H6. unfold act. destruct (decide (y = x)) as [->|Hne]; [naive_solver|rewrite Ve by done; naive_solver].
  - intros y [Hy Hne]%Hl. unfold act. rewrite Ve by done. by apply H7.
  - change (ss_ess st') with (delete x (ss_ess st)). pose proof (delete_subseteq (ss_ess st) x) as Hsub.
    apply map_subseteq_size in Hsub. lia.
  - intros s. destruct (K1 s) as [t Ht]. exists t. change (sock st' s) with (sock st s). eapply dseg_ext; [|exact Ht].
    intros y (_ & _ & Hy)%K3. unfold snx, spv. by rewrite Ve by congruence.
  - exact K2.
  - intros s y. rewrite Hl, K3. destruct (decide (y = x)) as [->|Hne]; [naive_solver|rewrite Ve by done; naive_solver].
  - intros y [Hy _]%Hl. by apply K4.
Qed.
End Lists.

(** * The invariant of epoll

    [epoll_wf]: all lists of bindings are well formed.  [no_lost]: a binding whose socket
    has an event of its mask is in the queue of its epoll instance, so that the next
    wait finds it.  Every operation of lib/sockets/epoll.c returns and preserves both. *)

(** ** Sets of events *)

Lemma land_zero_bits a b : Z.land a b = 0 <-> forall i, 0 <= i -> Z.testbit a i && Z.testbit b i = false.
Proof.
  split.
  - intros H i Hi. by rewrite <-Z.land_spec, H, Z.bits_0.
  - intros H. apply Z.bits_inj'. intros i Hi. by rewrite Z.land_spec, Z.bits_0, H.
Qed.

Lemma flags_off_bit x f i : 0 <= i ->
  Z.testbit (flags_off x f) i = Z.testbit x i && xorb (if i <? 32 then true else false) (Z.testbit f i).
Proof.
  intros Hi. unfold flags_off. rewrite Z.land_spec, Z.lxor_spec. do 2 f_equal.
  change 4294967295 with (Z.ones 32). rewrite Z.testbit_ones by done. zcase; [zcase|]; lia || done.
Qed.

(** After [flextcp_epoll_set] a mask has an event that is set before or new. *)
Lemma flags_set_new E v m : 0 <= v < 4294967296 ->
  Z.land (flags_off v E) m = 0 -> Z.land E m = 0 -> Z.land (Z.lor E v) m = 0.
Proof.
  intros Hv. rewrite !land_zero_bits. intros H1 H2 i Hi. specialize (H1 i Hi). specialize (H2 i Hi).
  rewrite Z.lor_spec. rewrite flags_off_bit in H1 by done.
  destruct (Z.ltb_spec i 32) as [Hs|Hs].
  - destruct (Z.testbit E i), (Z.testbit v i), (Z.testbit m i); done.
  - assert (Hvi : Z.testbit v i = false).
    { destruct (decide (v = 0)) as [->|]; [apply Z.bits_0|]. apply Z.bits_above_log2; [lia|]. apply Z.log2_lt_pow2; [lia|].
      assert (2 ^ 32 <= 2 ^ i) by (apply Z.pow_le_mono_r; lia). lia. }
    by rewrite Hvi, orb_false_r.
Qed.

Lemma flags_off_none x f m : Z.land x m = 0 -> Z.land (flags_off x f) m = 0.
Proof.
  rewrite !land_zero_bits. intros H i Hi. specialize (H i Hi). rewrite flags_off_bit by done.
  destruct (Z.testbit x i), (Z.testbit m i); try done. by rewrite andb_false_r.
Qed.

Lemma any_flag_false x f : any_flag x f = false <-> Z.land x f = 0.
Proof. unfold any_flag. rewrite negb_false_iff. apply Z.eqb_eq. Qed.

(** ** Well-formed states *)

Definition epoll_wf st I A S : Prop := ep_ok st I A None /\ so_ok st S None.

(** No binding but those of [pend] is overlooked. *)
Definition no_lost st (pend : list Z) : Prop := forall x, live st x -> x ∉ pend -> wakes x st = true -> act st x = 1.

Definition epoll_inv st : Prop := (exists I A S, epoll_wf st I A S) /\ no_lost st [].

Lemma wakes_frame st st' x : ep_frame st st' -> wakes x st' = wakes x st.
Proof.
  intros Hf. unfold wakes, sock. rewrite (ef_sock _ _ Hf). by destruct (ef_es _ _ Hf x) as (_ & -> & _ & _ & _ & ->).
Qed.

Lemma wakes_so st st' x : so_frame st st' -> wakes x st' = wakes x st.
Proof.
  intros Hf. destruct (sf_es _ _ Hf x) as (_ & Es & _ & _ & _ & Em & _). unfold wakes. rewrite Es, Em.
  by destruct (sf_sock _ _ Hf (es_s (ess st x))) as [e ->].
Qed.

Lemma no_lost_less st st' pend : no_lost st pend ->
  (forall x, live st' x -> x ∉ pend -> live st x /\ (wakes x st' = true -> wakes x st = true) /\ act st' x = act st x) -> no_lost st' pend.
Proof. intros H Hs x Hl Hp Hw. destruct (Hs x Hl Hp) as (Hl' & Hw' & ->). by apply H; auto. Qed.

(** [es_activate] takes a binding off the overlooked ones. *)
Lemma activate_inv st I A S x pend : epoll_wf st I A S -> no_lost st (x :: pend) -> live st x ->
  exists st' I' A', es_activate x st = Some st' /\ ep_frame st st' /\ epoll_wf st' I' A' S /\ no_lost st' pend.
Proof.
  intros [Hep Hso] Hn Hl. destruct (es_activate_ok _ _ _ _ Hep Hl) as (st' & I' & A' & E & Hf & Hok & Ha).
  exists st', I', A'. split; [done|]. split; [done|]. split; [split; [done|by eapply so_ok_frame]|].
  intros y Hy Hp Hw. rewrite Ha. destruct (Z.eqb_spec y x) as [|Hne]; [done|]. apply Hn.
  - by apply (ef_live _ _ Hf).
  - by apply not_elem_of_cons.
  - by rewrite <-(wakes_frame _ _ _ Hf).
Qed.

(** One that has no event of its mask is not overlooked anyway. *)
Lemma no_lost_skip st x pend : no_lost st (x :: pend) -> wakes x st = false -> no_lost st pend.
Proof.
  intros Hn Hw y Hl Hp Hy. apply Hn; [done| |done]. apply not_elem_of_cons. split; [|done]. intros ->. congruence.
Qed.

(** ** [flextcp_epoll_set] and [flextcp_epoll_clear] *)

(** The bindings of [l] that are to be activated. *)
Definition hit (newevs : Z) (mask : Z -> Z) (l : list Z) : list Z := filter (fun y => Z.land newevs (mask y) <> 0) l.

Lemma epoll_set_loop_ok newevs mask l : forall fuel x p t st I A S, epoll_wf st I A S ->
  dseg (snx st) (spv st) p x l t 0 -> (length l <= fuel)%nat -> Forall (live st) l ->
  (forall y, es_mask (ess st y) = mask y) -> no_lost st (hit newevs mask l) ->
  exists st' I' A', epoll_set_loop fuel newevs x st = Some st' /\ ep_frame st st' /\ epoll_wf st' I' A' S /\ no_lost st' [].
Proof.
  induction l as [|z l IH]; intros fuel x p t st I A S Hwf Hs Hfu Hli Hm Hn.
  - destruct Hs as [-> ->]. exists st, I, A. split; [by destruct fuel|done].
  - destruct Hs as (-> & _ & Hs). apply Forall_cons in Hli as [Hz Hli].
    destruct fuel as [|fuel]; [cbn in Hfu; lia|]. cbn [epoll_set_loop].
    rewrite (proj2 (Z.eqb_neq z 0)) by by apply (ko_null _ _ _ (proj2 Hwf)). rewrite Hm.
    assert (Hgo : exists st1 I1 A1, (if Z.land newevs (mask z) =? 0 then Some st else es_activate z st) = Some st1
      /\ ep_frame st st1 /\ epoll_wf st1 I1 A1 S /\ no_lost st1 (hit newevs mask l)).
    { unfold hit in Hn. rewrite filter_cons in Hn. destruct (Z.eqb_spec (Z.land newevs (mask z)) 0) as [E|E].
      - rewrite decide_False in Hn by tauto. by exists st, I, A.
      - rewrite decide_True in Hn by done. by apply (activate_inv st I A S). }
    destruct Hgo as (st1 & I1 & A1 & -> & Hf & Hwf1 & Hn1). cbn [mbind option_bind].
    destruct (IH fuel (snx st1 z) z t st1 I1 A1 S Hwf1) as (st2 & I2 & A2 & E2 & Hf2 & Hwf2 & Hn2); try done.
    + unfold snx. destruct (ef_es _ _ Hf z) as (_ & _ & -> & _). eapply dseg_ext; [|exact Hs].
      intros y _. unfold spv, snx. by destruct (ef_es _ _ Hf y) as (_ & _ & -> & -> & _).
    + cbn in Hfu. lia.
    + eapply Forall_impl; [exact Hli|]. intros y. apply (ef_live _ _ Hf).
    + intros y. by destruct (ef_es _ _ Hf y) as (_ & _ & _ & _ & _ & ->).
    + exists st2, I2, A2. split; [done|]. split; [by etransitivity|done].
Qed.

Lemma so_short st S s : so_ok st S None -> (length (S s) <= size (ss_ess st))%nat.
Proof.
  intros Hok. apply dom_size; [apply (ko_nodup _ _ _ Hok)|]. by intros x [? _]%(ko_mem _ _ _ Hok).
Qed.

(** A change of the sockets that leaves the lists of bindings alone. *)
Lemma wf_socks st I A S h : (forall s, so_eps (h !!! s) = so_eps (sock st s)) -> epoll_wf st I A S ->
  epoll_wf (st <| ss_socks := h |>) I A S.
Proof.
  intros Hh [Hep [K1 K2 K3 K4]]. split; [by apply (ep_ok_ext st)|]. constructor; [|done|done|done].
  intros s. destruct (K1 s) as [t Ht]. exists t. unfold sock. cbn. by rewrite Hh.
Qed.

Lemma eps_upd_sock s f st p : (forall v, so_eps (f v) = so_eps v) -> so_eps (sock (upd_sock s f st) p) = so_eps (sock st p).
Proof. intros Hf. rewrite sock_upd_sock. destruct (Z.eqb_spec p s) as [->|]; [apply Hf|done]. Qed.

(** What a change of the events of a socket leaves alone. *)
Record ev_frame st st' : Prop := mk_ev_frame {
  vf_sock : forall p, exists ev, sock st' p = sock st p <| ep_events := ev |>;
  vf_rest : ss_lib st' = ss_lib st /\ ss_mem st' = ss_mem st /\ ss_fhs st' = ss_fhs st /\ ss_cur st' = ss_cur st /\ ss_now st' = ss_now st }.

#[export] Instance ev_frame_preorder : PreOrder ev_frame.
Proof.
  split; [intros st; constructor; [intros p; exists (ep_events (sock st p)); by destruct (sock st p)|done]|].
  intros x y z [A1 A2] [B1 B2]. constructor; [|destruct A2 as (? & ? & ? & ? & ?), B2 as (? & ? & ? & ? & ?); split_and!; congruence].
  intros p. destruct (A1 p) as [a Ea], (B1 p) as [b ->]. exists b. by rewrite Ea.
Qed.

Lemma ev_frame_upd s f st : ev_frame st (upd_sock s (fun v => v <| ep_events := f v |>) st).
Proof.
  constructor; [|done]. intros p. rewrite sock_upd_sock. destruct (Z.eqb_spec p s) as [->|]; [by eexists|].
  exists (ep_events (sock st p)). by destruct (sock st p).
Qed.

Lemma ev_frame_ep st st' : ep_frame st st' -> ev_frame st st'.
Proof.
  intros [(eps & es & ->) _ _ _ _]. constructor; [|done]. intros p. exists (ep_events (sock st p)). unfold sock. cbn. by destruct (ss_socks st !!! p).
Qed.

Lemma epoll_clear_frame s evts st : ev_frame st (flextcp_epoll_clear s evts st).
Proof. apply (ev_frame_upd s (fun v => flags_off (ep_events v) evts)). Qed.

Lemma epoll_set_ok s evts st : 0 <= evts < 4294967296 -> epoll_inv st ->
  exists st', flextcp_epoll_set s evts st = Some st' /\ epoll_inv st' /\ ev_frame st st'
  /\ forall x, live st' x -> es_s (ess st' x) = s -> Z.land evts (es_mask (ess st' x)) <> 0 -> act st' x = 1.
Proof.
  intros Hev [(I & A & S & Hwf) Hn]. unfold flextcp_epoll_set.
  destruct (Z.eqb_spec (flags_off evts (ep_events (sock st s))) 0) as [E|E].
  - exists st. split; [done|]. split; [split; [by exists I, A, S|done]|]. split; [done|]. intros x Hl Hs Hm. apply Hn; [done|apply not_elem_of_nil|].
    unfold wakes. rewrite Hs. apply not_false_iff_true. intros Hz%any_flag_false. apply Hm.
    assert (Hz' := flags_set_new (ep_events (sock st s)) evts (es_mask (ess st x)) Hev ltac:(by rewrite E) Hz).
    rewrite Z.land_lor_distr_l, Hz in Hz'. done.
  - set (st1 := upd_sock s _ st). set (nv := flags_off _ _).
    assert (Hwf1 : epoll_wf st1 I A S) by (apply wf_socks; [|done]; intros p; by apply eps_upd_sock).
    destruct (ko_list _ _ _ (proj2 Hwf1) s) as [t Ht].
    destruct (epoll_set_loop_ok nv (fun y => es_mask (ess st y)) (S s) (size (ss_ess st)) _ 0 t st1 I A S Hwf1 Ht)
      as (st' & I' & A' & Es & Hf & Hwf' & Hn'); [exact (so_short st S s (proj2 Hwf))|by apply Forall_forall; intros x [? _]%(ko_mem _ _ _ (proj2 Hwf1))|done| |].
    + intros x Hl Hp Hw. apply Hn; [done|apply not_elem_of_nil|]. unfold wakes in *. change (ess st1 x) with (ess st x) in Hw.
      unfold st1 in Hw. rewrite sock_upd_sock in Hw. destruct (Z.eqb_spec (es_s (ess st x)) s) as [Hs|]; [|done].
      apply not_false_iff_true. intros Hz%any_flag_false. rewrite Hs in Hz.
      apply (diff_true_false). rewrite <-Hw. apply any_flag_false. cbn. apply (flags_set_new _ _ _ Hev); [|done].
      unfold hit in Hp. rewrite list_elem_of_filter in Hp. destruct (decide (Z.land nv (es_mask (ess st x)) = 0)) as [|Hnz]; [done|].
      exfalso. apply Hp. split; [done|]. apply (ko_mem _ _ _ (proj2 Hwf)). done.
    + exists st'. split; [done|]. split; [split; [by exists I', A', S|done]|].
      split; [etransitivity; [apply (ev_frame_upd s (fun v => Z.lor (ep_events v) evts))|by apply ev_frame_ep]|].
      intros x Hl Hs Hm. apply Hn'; [done|apply not_elem_of_nil|]. rewrite (wakes_frame _ _ _ Hf). unfold wakes.
      destruct (ef_es _ _ Hf x) as (_ & E2 & _ & _ & _ & E6). rewrite <-E2, Hs, <-E6. unfold st1. rewrite sock_upd_sock, Z.eqb_refl. cbn.
      apply not_false_iff_true. intros Hz%any_flag_false. rewrite Z.land_lor_distr_l in Hz. apply Z.lor_eq_0_iff in Hz. tauto.
Qed.

Lemma epoll_clear_ok s evts st : epoll_inv st -> epoll_inv (flextcp_epoll_clear s evts st).
Proof.
  intros [(I & A & S & Hwf) Hn]. split.
  - exists I, A, S. apply wf_socks; [|done]. intros p. by apply eps_upd_sock.
  - eapply no_lost_less; [exact Hn|]. intros x Hl _. split; [exact Hl|]. split; [|done].
    unfold wakes. change (ess (flextcp_epoll_clear s evts st) x) with (ess st x). unfold flextcp_epoll_clear. rewrite sock_upd_sock.
    destruct (Z.eqb_spec (es_s (ess st x)) s) as [->|]; [|done]. cbn. intros Hw. apply not_false_iff_true.
    intros Hz%any_flag_false. apply diff_true_false. rewrite <-Hw. apply any_flag_false. by apply flags_off_none.
Qed.

(** ** Removal of bindings *)

(** Bindings may go away; those that stay and the events of sockets are as before. *)
Record e_kept st st' : Prop := mk_e_kept {
  ek_es : forall x, live st' x -> live st x /\ act st' x = act st x /\ es_ep (ess st' x) = es_ep (ess st x)
    /\ es_s (ess st' x) = es_s (ess st x) /\ es_data (ess st' x) = es_data (ess st x) /\ es_mask (ess st' x) = es_mask (ess st x);
  ek_ev : forall s, ep_events (sock st' s) = ep_events (sock st s) }.

#[export] Instance e_kept_preorder : PreOrder e_kept.
Proof.
  split; [by intros st|]. intros x y z [A1 A2] [B1 B2]. constructor; [|intros s; by rewrite B2].
  intros p Hp. destruct (B1 p Hp) as (Hq & E1 & E2 & E3 & E4 & E5). destruct (A1 p Hq) as (Hr & F1 & F2 & F3 & F4 & F5).
  split_and!; congruence || done.
Qed.

Lemma wakes_kept st st' x : e_kept st st' -> live st' x -> wakes x st' = wakes x st.
Proof.
  intros Hk Hl. destruct (ek_es _ _ Hk x Hl) as (_ & _ & _ & Es & _ & Em). unfold wakes. by rewrite Es, Em, (ek_ev _ _ Hk).
Qed.

Lemma no_lost_kept st st' pend : e_kept st st' -> no_lost st pend -> no_lost st' pend.
Proof.
  intros Hk Hn. eapply no_lost_less; [exact Hn|]. intros x Hl _. rewrite (wakes_kept _ _ _ Hk Hl).
  destruct (ek_es _ _ Hk x Hl) as (? & ? & _). done.
Qed.

Lemma es_drop_ok st I A S x : epoll_wf st I A S -> live st x ->
  exists st' I' A' S', es_drop x st = Some st' /\ epoll_wf st' I' A' S' /\ e_kept st st'
  /\ (forall p, live st' p <-> live st p /\ p <> x) /\ (forall e, ep_refcnt (epo st' e) = ep_refcnt (epo st e)).
Proof.
  intros [Hep Hso] Hl. assert (Hx : x ∈ S (es_s (ess st x))) by by apply (ko_mem _ _ _ Hso).
  destruct (es_remove_sock_ok st S x _ Hso Hx) as [Hf1 Hso1]. set (st1 := es_remove_sock x st) in *.
  pose proof (ep_ok_so_frame _ _ _ _ _ Hf1 Hep) as Hep1.
  destruct (es_remove_ep_ok st1 I A x Hep1) as (st2 & I' & A' & E2 & Hf2 & Hep2 & Ha2); [by apply (sf_live _ _ Hf1)|].
  pose proof (so_ok_frame _ _ _ _ Hf2 Hso1) as Hso2. destruct (es_free_ok _ _ _ _ _ Hep2 Hso2) as (Hep3 & Hso3 & Hl3).
  unfold es_drop. fold st1. rewrite E2. cbn [mbind option_bind].
  assert (Hl' : forall p, live (es_free x st2) p <-> live st p /\ p <> x) by (intros p; by rewrite Hl3, (ef_live _ _ Hf2), (sf_live _ _ Hf1)).
  eexists _, I', A', _. split; [done|]. split; [by split|]. split; [|split; [done|]].
  - constructor.
    + intros p Hp. split; [by apply Hl'|]. assert (Ep : ess (es_free x st2) p = ess st2 p).
      { unfold ess, es_free. cbn. rewrite lookup_total_delete_ne; [done|]. intros ->. by apply Hl' in Hp as [_ ?]. }
      destruct (ef_es _ _ Hf2 p) as (F1 & F2 & _ & _ & F5 & F6). destruct (sf_es _ _ Hf1 p) as (G1 & G2 & _ & _ & G5 & G6 & G7).
      pose proof (Ha2 p) as Hap. unfold act in *. rewrite Ep. split_and!; congruence.
    + intros s. change (sock (es_free x st2) s) with (sock st2 s). unfold sock. rewrite (ef_sock _ _ Hf2). fold (sock st1 s).
      by destruct (sf_sock _ _ Hf1 s) as [e ->].
  - intros e. change (epo (es_free x st2) e) with (epo st2 e). destruct (ef_ep _ _ Hf2 e) as (-> & _). unfold epo. by rewrite (sf_epo _ _ Hf1).
Qed.

Lemma drop_loop_ok (next : sockst -> Z) :
  (forall st I A S, epoll_wf st I A S -> next st <> 0 -> live st (next st)) ->
  forall fuel st I A S, epoll_wf st I A S -> (size (ss_ess st) <= fuel)%nat ->
  exists st' I' A' S', drop_loop fuel next st = Some st' /\ epoll_wf st' I' A' S' /\ e_kept st st' /\ next st' = 0
  /\ (forall e, ep_refcnt (epo st' e) = ep_refcnt (epo st e)).
Proof.
  intros Hnext. induction fuel as [|fuel IH]; intros st I A S Hwf Hfu; cbn [drop_loop].
  - destruct (Z.eqb_spec (next st) 0) as [E|E]; [by exists st, I, A, S|]. exfalso.
    destruct (Hnext _ _ _ _ Hwf E) as [v Hv]. assert (size (ss_ess st) = 0%nat) as Hz%map_size_empty_iff by lia. by rewrite Hz in Hv.
  - destruct (Z.eqb_spec (next st) 0) as [E|E]; [by exists st, I, A, S|]. pose proof (Hnext _ _ _ _ Hwf E) as Hl.
    destruct (es_drop_ok _ _ _ _ _ Hwf Hl) as (st1 & I1 & A1 & S1 & -> & Hwf1 & Hk1 & Hl1 & Hr1). cbn [mbind option_bind].
    destruct (IH st1 I1 A1 S1 Hwf1) as (st2 & I2 & A2 & S2 & E2 & Hwf2 & Hk2 & Hn2 & Hr2).
    + assert (Hs : ss_ess st1 ⊂ ss_ess st \/ (size (ss_ess st1) < size (ss_ess st))%nat); [right|destruct Hs as [Hs|]; [apply map_subset_size in Hs|]; lia].
      rewrite <-!size_dom. apply subset_size. split.
      * intros p Hp%elem_of_dom. apply elem_of_dom. by apply Hl1 in Hp as [? _].
      * intros Hsub. assert (Hin : next st ∈ dom (ss_ess st)) by by apply elem_of_dom.
        apply Hsub, elem_of_dom, Hl1 in Hin as [_ ?]. done.
    + exists st2, I2, A2, S2. split_and!; try done; [by etransitivity|]. intros e. by rewrite Hr2.
Qed.

(** The first binding of each list. *)
Lemma so_head s st I A S : epoll_wf st I A S -> so_eps (sock st s) <> 0 -> live st (so_eps (sock st s)).
Proof.
  intros [_ Hso] H0. destruct (ko_list _ _ _ Hso s) as [t Ht]. destruct (dseg_ends_in _ _ _ _ _ Ht) as [[?|Hi] _]; [done|].
  by apply (ko_mem _ _ _ Hso) in Hi as [? _].
Qed.

Lemma active_head e st I A S : epoll_wf st I A S -> ep_active_first (epo st e) <> 0 -> live st (ep_active_first (epo st e)).
Proof.
  intros [Hep _] H0. destruct (dseg_ends_in _ _ _ _ _ (eo_act _ _ _ _ Hep e)) as [[?|Hi] _]; [done|].
  by apply (eo_live_A _ _ _ _ Hep e).
Qed.

Lemma inactive_head e st I A S : epoll_wf st I A S -> ep_inactive (epo st e) <> 0 -> live st (ep_inactive (epo st e)).
Proof.
  intros [Hep _] H0. destruct (eo_inact _ _ _ _ Hep e) as [t Ht]. destruct (dseg_ends_in _ _ _ _ _ Ht) as [[?|Hi] _]; [done|].
  by apply (eo_live_I _ _ _ _ Hep e).
Qed.

Lemma dseg_null nx pv l t : 0 ∉ l -> dseg nx pv 0 0 l t 0 -> l = [].
Proof. destruct l as [|x l]; [done|]. intros H0 (E & _). destruct H0. rewrite E. by left. Qed.

Lemma epoll_sockclose_ok s st : epoll_inv st ->
  exists st', flextcp_epoll_sockclose s st = Some st' /\ epoll_inv st' /\ e_kept st st'
  /\ forall x, live st' x -> es_s (ess st' x) <> s.
Proof.
  intros [(I & A & S & Hwf) Hn].
  destruct (drop_loop_ok _ (so_head s) (size (ss_ess st)) st I A S Hwf) as (st' & I' & A' & S' & E & Hwf' & Hk & H0 & _); [lia|].
  exists st'. split; [exact E|]. split; [split; [by exists I', A', S'|by eapply no_lost_kept]|]. split; [done|].
  intros x Hl Hs. destruct Hwf' as [_ Hso]. destruct (ko_list _ _ _ Hso s) as [t Ht].
  assert (Hx : x ∈ S' s) by by apply (ko_mem _ _ _ Hso). rewrite H0 in Ht.
  apply dseg_null in Ht; [|by apply (so_zero st' S' None)]. rewrite Ht in Hx. by apply elem_of_nil in Hx.
Qed.

Lemma epoll_destroy_ok e st : ep_refcnt (epo st e) = 0 -> epoll_inv st ->
  exists st', flextcp_epoll_destroy e st = Some st' /\ epoll_inv st' /\ e_kept st st'
  /\ forall x, live st' x -> es_ep (ess st' x) <> e.
Proof.
  intros Hr [(I & A & S & Hwf) Hn]. unfold flextcp_epoll_destroy. rewrite Hr. cbn [cassert Z.eqb mbind option_bind].
  destruct (drop_loop_ok _ (active_head e) (size (ss_ess st)) st I A S Hwf) as (st1 & I1 & A1 & S1 & -> & Hwf1 & Hk1 & H1 & _); [lia|].
  cbn [mbind option_bind].
  destruct (drop_loop_ok _ (inactive_head e) (size (ss_ess st1)) st1 I1 A1 S1 Hwf1) as (st2 & I2 & A2 & S2 & -> & Hwf2 & Hk2 & H2 & _); [lia|].
  cbn [mbind option_bind]. assert (Hk : e_kept st st2) by by etransitivity.
  assert (H1' : forall x, live st2 x -> es_ep (ess st2 x) <> e).
  { intros x Hl He. destruct (act_cases _ _ _ _ (proj1 Hwf2) Hl) as [_ [[_ Hx]|[Ha Hx]]]; rewrite He in Hx.
    - destruct (eo_inact _ _ _ _ (proj1 Hwf2) e) as [t Ht]. rewrite H2 in Ht.
      apply dseg_null in Ht; [|apply (eo_zero _ _ _ _ (proj1 Hwf2))]. rewrite Ht in Hx. by apply elem_of_nil in Hx.
    - destruct (ek_es _ _ Hk2 x Hl) as (Hl1 & Ha1 & Ee1 & _). pose proof (eo_act _ _ _ _ (proj1 Hwf1) e) as Ht. rewrite H1 in Ht.
      apply dseg_null in Ht; [|apply (eo_zero _ _ _ _ (proj1 Hwf1))].
      assert (Hx1 : x ∈ A1 e) by (apply (eo_A _ _ _ _ (proj1 Hwf1)); split_and!; congruence || done).
      rewrite Ht in Hx1. by apply elem_of_nil in Hx1. }
  eexists. split; [done|]. set (st' := st2 <| ss_eps ::= delete e |>).
  assert (Hk' : e_kept st2 st') by by constructor.
  split; [split; [|by apply (no_lost_kept st2), (no_lost_kept st)]|split; [by etransitivity|exact H1']].
  exists I2, A2, S2. destruct Hwf2 as [Hep2 Hso2].
  assert (He : forall p, p <> e -> epo st' p = epo st2 p) by (intros p Hp; unfold epo, st'; cbn; by rewrite lookup_total_delete_ne).
  assert (Hee : epo st' e = inhabitant) by (unfold epo, st'; cbn; by rewrite lookup_total_delete_eq).
  assert (Hn2 : I2 e = [] /\ A2 e = []).
  { split; [destruct (I2 e) as [|x l] eqn:El|destruct (A2 e) as [|x l] eqn:El]; try done; exfalso;
      assert (Hx : x ∈ x :: l) by (by left); rewrite <-El in Hx;
      [apply (eo_I _ _ _ _ Hep2) in Hx|apply (eo_A _ _ _ _ Hep2) in Hx]; destruct Hx as (Hl & He' & _); by apply (H1' x). }
  destruct Hn2 as [HnI HnA]. split; [|by destruct Hso2; constructor]. pose proof Hep2 as [O1 O2 O3 O4 O5 O6 O7 O8]. constructor; try done.
  - intros p. destruct (decide (p = e)) as [->|Hp]; [rewrite Hee, HnI; by exists 0|rewrite He by done; apply O1].
  - intros p. destruct (decide (p = e)) as [->|Hp]; [rewrite Hee, HnA; done|rewrite He by done; apply O2].
  - intros p. destruct (decide (p = e)) as [->|Hp]; [rewrite Hee, HnA; done|rewrite He by done; apply O3].
Qed.

(** ** [epoll_ctl] *)

Lemma wf_epo e f st I A S : (forall v, ep_inactive (f v) = ep_inactive v /\ ep_active_first (f v) = ep_active_first v
    /\ ep_active_last (f v) = ep_active_last v /\ num_active (f v) = num_active v) ->
  epoll_wf st I A S -> epoll_wf (upd_epo e f st) I A S.
Proof.
  intros Hf [[O1 O2 O3 O4 O5 O6 O7 O8] Hso]. split; [|by destruct Hso; constructor].
  assert (V : forall p, let v := epo st p in let v' := epo (upd_epo e f st) p in ep_inactive v' = ep_inactive v
    /\ ep_active_first v' = ep_active_first v /\ ep_active_last v' = ep_active_last v /\ num_active v' = num_active v).
  { intros p. cbv zeta. rewrite epo_upd_epo. destruct (Z.eqb_spec p e) as [->|]; [apply Hf|done]. }
  constructor; try done; intros p; destruct (V p) as (E1 & E2 & E3 & E4).
  - destruct (O1 p) as [t Ht]. exists t. by rewrite E1.
  - rewrite E2, E3. apply O2.
  - by rewrite E4.
Qed.

Lemma inv_epo e f st : (forall v, ep_inactive (f v) = ep_inactive v /\ ep_active_first (f v) = ep_active_first v
    /\ ep_active_last (f v) = ep_active_last v /\ num_active (f v) = num_active v) ->
  epoll_inv st -> epoll_inv (upd_epo e f st).
Proof. intros Hf [(I & A & S & Hwf) Hn]. split; [exists I, A, S; by apply wf_epo|exact Hn]. Qed.

(** The search of a binding finds the one of the epoll instance, or none. *)
Lemma es_find_list e st l : forall fuel x p t, dseg (snx st) (spv st) p x l t 0 -> 0 ∉ l -> (length l <= fuel)%nat ->
  exists y, es_find fuel e x st = Some y
  /\ ((y = 0 /\ forall z, z ∈ l -> es_ep (ess st z) <> e) \/ (y ∈ l /\ es_ep (ess st y) = e)).
Proof.
  induction l as [|z l IH]; intros fuel x p t Hs H0 Hfu.
  - destruct Hs as [-> _]. exists 0. split; [by destruct fuel|]. left. split; [done|]. intros z Hz. by apply elem_of_nil in Hz.
  - destruct Hs as (-> & _ & Hs). apply not_elem_of_cons in H0 as [Hz H0].
    assert (Eu : forall n, es_find n e z st = if es_ep (ess st z) =? e then Some z
      else match n with O => None | S n => es_find n e (snx st z) st end).
    { intros [|n]; cbn [es_find]; by rewrite (proj2 (Z.eqb_neq z 0)) by done. }
    rewrite Eu. destruct (Z.eqb_spec (es_ep (ess st z)) e) as [E|E].
    + exists z. split; [done|]. right. split; [by left|done].
    + destruct fuel as [|fuel]; [cbn in Hfu; lia|]. destruct (IH fuel (snx st z) z t Hs H0) as (y & Ey & Hy); [cbn in Hfu; lia|].
      exists y. split; [exact Ey|]. destruct Hy as [[-> Hy]|[Hy He]].
      * left. split; [done|]. intros w [->|Hw]%elem_of_cons; [done|by apply Hy].
      * right. split; [by right|done].
Qed.

(** The binding of [s] on [e], or 0. *)
Definition bound st (e s y : Z) : Prop :=
  (y = 0 /\ forall z, live st z -> es_s (ess st z) = s -> es_ep (ess st z) <> e)
  \/ (y <> 0 /\ live st y /\ es_s (ess st y) = s /\ es_ep (ess st y) = e).

Lemma es_find_ok e s st : epoll_inv st ->
  exists y, es_find (size (ss_ess st)) e (so_eps (sock st s)) st = Some y /\ bound st e s y.
Proof.
  intros [(I & A & S & Hep & Hso) _]. destruct (ko_list _ _ _ Hso s) as [t Ht].
  destruct (es_find_list e st (S s) (size (ss_ess st)) _ 0 t Ht) as (y & Ey & Hy); [by apply (so_zero st S None)|by apply so_short|].
  exists y. split; [exact Ey|]. destruct Hy as [[-> Hy]|[Hy He]].
  - left. split; [done|]. intros z Hl Hs. apply Hy. by apply (ko_mem _ _ _ Hso).
  - right. destruct (proj1 (ko_mem _ _ _ Hso s y) Hy) as (Hl & Hs & _). by split; [apply (ko_null _ _ _ Hso)|].
Qed.

(** The end of an addition or a change. *)
Lemma maybe_activate_ok st x : (exists I A S, epoll_wf st I A S) -> no_lost st [x] -> live st x ->
  exists st', (if wakes x st then es_activate x st else Some st) = Some st' /\ epoll_inv st' /\ ep_frame st st'.
Proof.
  intros (I & A & S & Hwf) Hn Hl. destruct (wakes x st) eqn:Hw.
  - destruct (activate_inv _ _ _ _ _ _ Hwf Hn Hl) as (st' & I' & A' & -> & Hf & Hwf' & Hn'). exists st'. split; [done|].
    split; [|done]. split; [by exists I', A', S|done].
  - exists st. split; [done|]. split; [|done]. split; [by exists I, A, S|]. by eapply no_lost_skip.
Qed.

(** Allocated memory is new, and there is no binding for each 32-bit number. *)
Definition fresh_es (p : option Z) st : Prop :=
  forall x, p = Some x -> ~ live st x /\ x <> 0 /\ Z.of_nat (size (ss_ess st)) + 1 < 4294967296.

Section Ctl.
Context (info : flexnic_info).

Definition add_listener (s : Z) (st : sockst) : sockst :=
  if bool_decide (so_type (sock st s) = SOCK_LISTENER) then (with_lib (flextcp_listen_move info (ss_now st) s) st).2 else st.

Lemma add_listener_lib s st : exists L, add_listener s st = st <| ss_lib := L |>.
Proof.
  unfold add_listener. case_bool_decide.
  - unfold with_lib. destruct (flextcp_listen_move info (ss_now st) s (ss_lib st)) as [a L]. by exists L.
  - exists (ss_lib st). by destruct st.
Qed.

Lemma epoll_add_ok e s mask data x st : epoll_inv st -> fresh_es (Some x) st ->
  let st1 := es_add_sock x s (st <| ss_ess ::= <[x := mk_es e s 0 0 0 0 data mask 0]> |>) in
  let st2 := es_add_inactive x (add_listener s st1) in
  exists st', (if wakes x st2 then es_activate x st2 else Some st2) = Some st' /\ epoll_inv st'
  /\ live st' x /\ es_ep (ess st' x) = e /\ es_s (ess st' x) = s /\ es_mask (ess st' x) = mask /\ es_data (ess st' x) = data.
Proof.
  intros [(I & A & S & Hep & Hso) Hn] Hfr st1 st2. destruct (Hfr x eq_refl) as (Hnl & H0 & Hsz).
  set (v := mk_es e s 0 0 0 0 data mask 0) in *. set (stn := st <| ss_ess ::= <[x := v]> |>) in *.
  destruct (es_new_ok st I A S x v Hep Hso Hnl H0 Hsz eq_refl) as (Hepn & Hson & Hln & Von & Vxn & Hlvn). fold stn in Hepn, Hson, Hln, Von, Vxn, Hlvn.
  destruct (es_add_sock_ok stn S x s Hson Hln ltac:(by rewrite Vxn)) as [Hf1 Hso1]. fold st1 in Hf1, Hso1.
  pose proof (ep_ok_so_frame _ _ _ _ _ Hf1 Hepn) as Hep1. destruct (add_listener_lib s st1) as [L EL].
  set (st1' := add_listener s st1) in *.
  assert (Hep1' : ep_ok st1' I A (Some x)) by (rewrite EL; by destruct Hep1; constructor).
  assert (Hso1' : so_ok st1' (upd_at S s (x :: S s)) None) by (rewrite EL; by destruct Hso1; constructor).
  assert (Vs : forall p, let v := ess stn p in let v' := ess st1' p in
    es_ep v' = es_ep v /\ es_s v' = es_s v /\ es_data v' = es_data v /\ es_mask v' = es_mask v /\ es_active v' = es_active v).
  { intros p. cbv zeta. rewrite EL. change (ess (st1 <| ss_lib := L |>) p) with (ess st1 p).
    destruct (sf_es _ _ Hf1 p) as (E1 & E2 & _ & _ & E5 & E6 & E7). done. }
  assert (Hl1' : forall p, live st1' p <-> p = x \/ live st p) by (intros p; rewrite EL; change (live (st1 <| ss_lib := L |>) p) with (live st1 p);
    by rewrite (sf_live _ _ Hf1)).
  assert (Hx1 : live st1' x) by (apply Hl1'; by left). pose proof (Vs x) as (X1 & X2 & X3 & X4 & X5). rewrite Vxn in X1, X2, X3, X4, X5.
  destruct (es_add_inactive_ok st1' I A x e Hep1' Hx1 X1 X5) as (Hf2 & Ha2 & Hep2). fold st2 in Hf2, Ha2, Hep2.
  pose proof (so_ok_frame _ _ _ _ Hf2 Hso1') as Hso2.
  assert (Hx2 : live st2 x) by by apply (ef_live _ _ Hf2).
  assert (Hn2 : no_lost st2 [x]).
  { intros y Hy Hne%not_elem_of_cons Hw. destruct Hne as [Hne _]. rewrite Ha2. apply (ef_live _ _ Hf2), Hl1' in Hy as [?|Hy]; [done|].
    destruct (Vs y) as (Y1 & Y2 & Y3 & Y4 & Y5). unfold act. rewrite Y5, (Von y Hne). apply Hn; [done|apply not_elem_of_nil|].
    rewrite (wakes_frame _ _ _ Hf2) in Hw. rewrite <-Hw. unfold wakes. rewrite Y2, Y4, (Von y Hne), EL.
    change (sock (st1 <| ss_lib := L |>)) with (sock st1). by destruct (sf_sock _ _ Hf1 (es_s (ess st y))) as [e' ->]. }
  destruct (maybe_activate_ok st2 x) as (st' & E & Hinv & Hf3); [do 3 eexists; by split|done|done|].
  exists st'. split; [exact E|]. split; [done|]. destruct (ef_es _ _ Hf2 x) as (F1 & F2 & _ & _ & F5 & F6).
  destruct (ef_es _ _ Hf3 x) as (G1 & G2 & _ & _ & G5 & G6). split; [by apply (ef_live _ _ Hf3)|].
  by rewrite G1, G2, G5, G6, F1, F2, F5, F6, X1, X2, X3, X4.
Qed.

Definition ctl_mask (events : Z) : Z := Z.lor (flags_off (flags_off events EPOLLET) EPOLLEXCLUSIVE) EPOLLERR.

(** What an operation does to the binding [y] of [s] on [e], or to the lack of one. *)
Definition ctl_post (e : Z) (op : epoll_op) (s events data y : Z) st (r : option errno) st' : Prop :=
  match r, op with
  | None, EPOLL_CTL_ADD => y = 0 /\ exists x, live st' x /\ es_ep (ess st' x) = e /\ es_s (ess st' x) = s
      /\ es_mask (ess st' x) = ctl_mask events /\ es_data (ess st' x) = data
  | None, EPOLL_CTL_MOD => y <> 0 /\ es_mask (ess st' y) = ctl_mask events
  | None, EPOLL_CTL_DEL => y <> 0 /\ forall x, live st' x <-> live st x /\ x <> y
  | None, EPOLL_CTL_OTHER => False
  | Some EEXIST, EPOLL_CTL_ADD => y <> 0 /\ ss_ess st' = ss_ess st
  | Some ENOMEM, EPOLL_CTL_ADD => y = 0 /\ ss_ess st' = ss_ess st
  | Some EINVAL, EPOLL_CTL_DEL => False
  | Some EINVAL, _ => st' = st
  | Some ENOENT, EPOLL_CTL_MOD => y = 0 /\ st' = st
  | Some ENOENT, EPOLL_CTL_DEL => y = 0 /\ ss_ess st' = ss_ess st
  | Some _, _ => False
  end.

Lemma epoll_mod_ok y mask st : epoll_inv st -> live st y ->
  let st1 := upd_es y (fun v => v <| es_mask := mask |>) st in
  exists st', (if wakes y st1 then es_activate y st1 else Some st1) = Some st' /\ epoll_inv st' /\ es_mask (ess st' y) = mask.
Proof.
  intros [(I & A & S & Hep & Hso) Hn] Hl st1.
  assert (V : forall p, nxt st1 p = nxt st p /\ prv st1 p = prv st p /\ act st1 p = act st p /\ es_ep (ess st1 p) = es_ep (ess st p)
    /\ snx st1 p = snx st p /\ spv st1 p = spv st p /\ es_s (ess st1 p) = es_s (ess st p) /\ (p <> y -> ess st1 p = ess st p)).
  { intros p. unfold nxt, prv, act, snx, spv, st1. rewrite ess_upd_es. by destruct (Z.eqb_spec p y) as [->|]. }
  assert (Hl1 : forall p, live st1 p <-> live st p) by (intros p; by apply live_upd_es).
  destruct (maybe_activate_ok st1 y) as (st' & E & Hinv & Hf).
  - exists I, A, S. split.
    + apply (ep_ok_ext st); [done| |done|done|by apply size_upd_es]. intros p. destruct (V p) as (-> & -> & -> & -> & _). done.
    + destruct Hso as [K1 K2 K3 K4]. constructor; [|done| |].
      * intros s. destruct (K1 s) as [t Ht]. exists t. change (sock st1 s) with (sock st s).
        apply (dseg_pointwise (snx st) _ (spv st)); [| |done]; intros p; apply V.
      * intros s x. rewrite Hl1. destruct (V x) as (_ & _ & _ & _ & _ & _ & -> & _). apply K3.
      * intros x. rewrite Hl1. apply K4.
  - intros x Hx [Hne _]%not_elem_of_cons Hw. destruct (V x) as (_ & _ & -> & _ & _ & _ & _ & Ex).
    apply Hn; [by apply Hl1|apply not_elem_of_nil|]. unfold wakes in *. by rewrite (Ex Hne) in Hw.
  - by apply Hl1.
  - exists st'. split; [exact E|]. split; [done|]. destruct (ef_es _ _ Hf y) as (_ & _ & _ & _ & _ & ->).
    unfold st1. by rewrite ess_upd_es, Z.eqb_refl.
Qed.

Lemma epoll_ctl_ok e op s events data p st : epoll_inv st -> fresh_es p st ->
  exists y r st', bound st e s y /\ epoll_ctl_sock info e op s events data p st = Some (r, st')
  /\ epoll_inv st' /\ ctl_post e op s events data y st r st'.
Proof.
  intros Hinv Hfr. destruct (es_find_ok e s st Hinv) as (y & Ey & Hy). exists y. unfold epoll_ctl_sock. rewrite Ey. cbn [mbind option_bind].
  set (evs := flags_off (flags_off events EPOLLET) EPOLLEXCLUSIVE). set (bad := negb _).
  assert (Hcnt : forall f, (forall v, ep_inactive (f v) = ep_inactive v /\ ep_active_first (f v) = ep_active_first v
    /\ ep_active_last (f v) = ep_active_last v /\ num_active (f v) = num_active v) -> epoll_inv (upd_epo e f st)) by (intros f Hf; by apply inv_epo).
  destruct op.
  - rewrite bool_decide_true by by left. cbn [andb]. destruct bad; [by exists (Some EINVAL), st|].
    set (st0 := upd_epo e _ st). assert (Hinv0 : epoll_inv st0) by by apply Hcnt.
    destruct (Z.eqb_spec y 0) as [E0|E0]; cbn [negb]; [|by exists (Some EEXIST), st0].
    destruct p as [x|]; [|by exists (Some ENOMEM), st0].
    destruct (epoll_add_ok e s (Z.lor evs EPOLLERR) data x st0 Hinv0 Hfr) as (st' & E & Hi & HX).
    exists None, st'. split; [done|]. split; [|split; [done|by split; [|exists x]]].
    fold (add_listener s (es_add_sock x s (st0 <| ss_ess ::= <[x := mk_es e s 0 0 0 0 data (Z.lor evs EPOLLERR) 0]> |>))).
    rewrite E. done.
  - rewrite bool_decide_true by by right. cbn [andb]. destruct bad; [by exists (Some EINVAL), st|].
    destruct (Z.eqb_spec y 0) as [E0|E0]; [by exists (Some ENOENT), st|].
    pose proof Hy as [[? _]|(_ & Hl & _)]; [done|].
    destruct (epoll_mod_ok y (Z.lor evs EPOLLERR) st Hinv Hl) as (st' & E & Hi & Hm). rewrite E. by exists None, st'.
  - rewrite bool_decide_false by (by intros [?|?]). cbn [andb]. set (st0 := upd_epo e _ st). assert (Hinv0 : epoll_inv st0) by by apply Hcnt.
    destruct (Z.eqb_spec y 0) as [E0|E0]; [by exists (Some ENOENT), st0|].
    pose proof Hy as [[? _]|(_ & Hl & _)]; [done|]. destruct Hinv0 as [(I & A & S & Hwf) Hn].
    destruct (es_drop_ok st0 I A S y Hwf Hl) as (st' & I' & A' & S' & -> & Hwf' & Hk & Hl' & _). exists None, st'.
    split; [done|]. split; [done|]. split; [split; [by exists I', A', S'|by eapply no_lost_kept]|done].
  - rewrite bool_decide_false by (by intros [?|?]). by exists (Some EINVAL), st.
Qed.
End Ctl.

(** ** Polling *)

Definition es_event st (x : Z) : Z * Z :=
  (Z.land (ep_events (sock st (es_s (ess st x)))) (es_mask (ess st x)), es_data (ess st x)).

Definition ready st (l : list Z) : list Z := filter (fun x => wakes x st = true) l.

Lemma es_event_frame st st' x : ep_frame st st' -> es_event st' x = es_event st x.
Proof.
  intros Hf. unfold es_event, sock. rewrite (ef_sock _ _ Hf). by destruct (ef_es _ _ Hf x) as (_ & -> & _ & _ & -> & ->).
Qed.

Lemma ready_frame st st' l : ep_frame st st' -> ready st' l = ready st l.
Proof. intros Hf. apply list_filter_iff'. intros x. by rewrite (wakes_frame _ _ _ Hf). Qed.

Lemma upd_at_head (A : Z -> list Z) e x l : A e = x :: l -> NoDup (A e) -> without x (A e) = l.
Proof. intros E Hn. rewrite E in *. exact (without_split [] x l Hn). Qed.

(** The loop visits the first [i] bindings of the queue until [max] are reported: the ready
    ones move to its end, the others leave it. *)
Lemma ep_poll_loop_ok e max L : forall evs D st I A S, epoll_wf st I A S -> no_lost st [] -> A e = L ++ D ->
  Z.of_nat (length evs) <= max ->
  exists st' V R I' A', ep_poll_loop (length L) e max evs st = Some (evs ++ map (es_event st) (ready st V), st')
  /\ epoll_wf st' I' A' S /\ no_lost st' [] /\ ep_frame st st' /\ L = V ++ R /\ A' e = R ++ D ++ ready st V
  /\ (forall e', e' <> e -> A' e' = A e')
  /\ (R = [] \/ Z.of_nat (length evs + length (ready st V)) = max)
  /\ Z.of_nat (length evs + length (ready st V)) <= max.
Proof.
  induction L as [|x L IH]; intros evs D st I A S Hwf Hn HA Hm.
  - exists st, [], [], I, A. split; [by rewrite app_nil_r|]. do 2 (split; [done|]). split; [done|]. split; [done|].
    split; [by rewrite app_nil_r|]. split; [done|]. split; [by left|]. cbn. lia.
  - cbn [length ep_poll_loop]. destruct (Z.ltb_spec (Z.of_nat (length evs)) max) as [Hlt|Hge]; cbn [negb].
    2: { exists st, [], (x :: L), I, A. split; [by rewrite app_nil_r|]. do 2 (split; [done|]). split; [done|]. split; [done|].
         split; [by rewrite app_nil_r|]. split; [done|]. split; [right; cbn; lia|]. cbn. lia. }
    pose proof (eo_act _ _ _ _ (proj1 Hwf) e) as Ht. rewrite HA in Ht. destruct Ht as (Ehd & _ & _). rewrite Ehd.
    destruct (eo_nodup _ _ _ _ (proj1 Hwf) e) as [_ Hnd].
    assert (Hx : x ∈ A e) by (rewrite HA; by left).
    assert (Hl : live st x) by by apply (eo_live_A _ _ _ _ (proj1 Hwf) e).
    rewrite (proj2 (Z.eqb_neq x 0)) by by apply (eo_live _ _ _ _ (proj1 Hwf)).
    pose proof (upd_at_head A e x (L ++ D) HA Hnd) as Hw.
    change (negb (Z.land (ep_events (sock st (es_s (ess st x)))) (es_mask (ess st x)) =? 0)) with (wakes x st).
    destruct (wakes x st) eqn:Ew.
    + destruct (es_active_pushback_ok _ _ _ x e (proj1 Hwf) Hx) as (st1 & -> & Hf1 & Hok1 & Ha1). cbn [mbind option_bind].
      rewrite Hw in Hok1. pose proof (so_ok_frame _ _ _ _ Hf1 (proj2 Hwf)) as Hso1.
      assert (Hn1 : no_lost st1 []).
      { intros y Hy Hp Hwy. rewrite (wakes_frame _ _ _ Hf1) in Hwy. rewrite Ha1. by apply Hn; [apply (ef_live _ _ Hf1)| |]. }
      destruct (IH (evs ++ [es_event st x]) (D ++ [x]) st1 I (upd_at A e ((L ++ D) ++ [x])) S) as (st' & V & R & I' & A' & E & Hwf' & Hn' & Hf' & -> & HA' & Ho & Hc & Hmx);
        [by split|done|by rewrite upd_at_eq, app_assoc|rewrite length_app; cbn; lia|].
      assert (ER : ready st (x :: V) = x :: ready st V) by (unfold ready; by rewrite filter_cons, decide_True).
      rewrite (ready_frame _ _ V Hf1) in *. rewrite length_app in Hc, Hmx. cbn [length] in Hc, Hmx.
      exists st', (x :: V), R, I', A'. rewrite ER. cbn [map length]. split.
      { change (Z.land _ _, es_data (ess st x)) with (es_event st x). rewrite E, <-(app_assoc evs). cbn [app]. do 4 f_equal.
        apply map_ext. intros y. by apply es_event_frame. }
      do 2 (split; [done|]). split; [by etransitivity|]. split; [done|]. split; [by rewrite HA', <-app_assoc|].
      split; [|split; [destruct Hc as [?|Hc]; [by left|right; lia]|lia]].
      intros e' He. by rewrite Ho, upd_at_ne.
    + destruct (es_deactivate_ok _ _ _ x e (proj1 Hwf) Hx) as (st1 & I1 & -> & Hf1 & Hok1 & Ha1). cbn [mbind option_bind].
      rewrite Hw in Hok1. pose proof (so_ok_frame _ _ _ _ Hf1 (proj2 Hwf)) as Hso1.
      assert (Hn1 : no_lost st1 []).
      { intros y Hy Hp Hwy. rewrite (wakes_frame _ _ _ Hf1) in Hwy. rewrite Ha1.
        destruct (Z.eqb_spec y x) as [->|]; [congruence|]. by apply Hn; [apply (ef_live _ _ Hf1)| |]. }
      destruct (IH evs D st1 I1 (upd_at A e (L ++ D)) S) as (st' & V & R & I' & A' & E & Hwf' & Hn' & Hf' & -> & HA' & Ho & Hc & Hmx);
        [by split|done|by rewrite upd_at_eq|done|].
      assert (ER : ready st (x :: V) = ready st V) by (unfold ready; by rewrite filter_cons, decide_False by congruence).
      rewrite (ready_frame _ _ V Hf1) in *.
      exists st', (x :: V), R, I', A'. rewrite ER. split.
      { rewrite E. do 3 f_equal. apply map_ext. intros y. by apply es_event_frame. }
      do 2 (split; [done|]). split; [by etransitivity|]. split; [done|]. split; [done|].
      split; [|done]. intros e' He. by rewrite Ho, upd_at_ne.
Qed.

Lemma ep_poll_report_ok e max st I A S : epoll_wf st I A S -> no_lost st [] -> 0 <= max ->
  exists st' V R I' A', ep_poll_report e max st = Some (map (es_event st) (ready st V), st')
  /\ epoll_wf st' I' A' S /\ no_lost st' [] /\ ep_frame st st' /\ A e = V ++ R /\ A' e = R ++ ready st V
  /\ (forall e', e' <> e -> A' e' = A e') /\ (R = [] \/ Z.of_nat (length (ready st V)) = max)
  /\ Z.of_nat (length (ready st V)) <= max.
Proof.
  intros Hwf Hn Hm. unfold ep_poll_report. rewrite (eo_num _ _ _ _ (proj1 Hwf)), Nat2Z.id.
  exact (ep_poll_loop_ok e max (A e) [] [] st I A S Hwf Hn (eq_sym (app_nil_r _)) Hm).
Qed.
