(* ===== verification/SockCtx.v ===== *)
(** * Events of the library in the sockets library (lib/sockets/context.c)

    The handlers of the events of the low-level library, polling, and waiting. *)

From S2P Require Import Prelude FpTypes LibTypes LibConn LibPoll SockTypes Epoll.

Section Ctx.
Context (info : flexnic_info) (flexnic_mem : Z).

(** ** Events *)

Definition is_connection (s : Z) (st : sockst) : bool := bool_decide (so_type (sock st s) = SOCK_CONNECTION).
Definition status_is (s : Z) (x : soc_status) (st : sockst) : bool := bool_decide (sc_status (sconn st s) = x).
Definition has_st_flag (s f : Z) (st : sockst) : bool := any_flag (sc_st_flags (sconn st s)) f.

(** In control.c; a failure of the request is only reported. *)
Definition flextcp_sockclose_finish (s : Z) (st : sockst) : option sockst :=
  '(_, st) ← with_lib_opt (flextcp_connection_close info (ss_now st) s) st; Some st.

Definition ev_listen_open (s status : Z) (st : sockst) : option sockst :=
  cassert (bool_decide (so_type (sock st s) = SOCK_LISTENER));;
  cassert (bool_decide (sl_status (slisten st s) = SOL_OPENING));;
  Some (upd_slisten s (fun l => l <| sl_status := if status =? 0 then SOL_OPEN else SOL_FAILED |>) st).

(** The end of opening a connection, of either side. *)
Definition conn_opened (s status : Z) (st : sockst) : option sockst :=
  if status =? 0
  then flextcp_epoll_set s EPOLLOUT (upd_sconn s (fun c => c <| sc_status := SOC_CONNECTED |>) st)
  else flextcp_epoll_set s EPOLLERR (upd_sconn s (fun c => c <| sc_status := SOC_FAILED |>) st).

Definition ev_listen_accept (s status : Z) (st : sockst) : option sockst :=
  cassert (is_connection s st);;
  let sl := sc_listener (sconn st s) in
  cassert (negb (sl =? 0));;
  if sc_accepted (sconn st s) then Some st
  else
    cassert (status_is s SOC_CONNECTING st);;
    st ← flextcp_epoll_set sl EPOLLIN st;
    conn_opened s status st.

Definition ev_listen_moved (s status : Z) (st : sockst) : option sockst :=
  cassert (bool_decide (so_type (sock st s) = SOCK_LISTENER));;
  cassert (bool_decide (sl_status (slisten st s) = SOL_OPEN));;
  Some (upd_slisten s (fun l => l <| sl_move_status := status |>) st).

Definition ev_conn_open (s status : Z) (st : sockst) : option sockst :=
  cassert (is_connection s st);;
  cassert (status_is s SOC_CONNECTING st);;
  conn_opened s status st.

(** The pieces of received data with [len] bytes at [buf] more. *)
Definition rx_append (buf len : Z) (c : socket_conn) : option socket_conn :=
  if rx_len_1 c =? 0 then Some (c <| rx_len_1 := len |> <| rx_buf_1 := buf |> <| rx_len_2 := 0 |>)
  else if (rx_len_2 c =? 0) && (buf =? rx_buf_1 c + rx_len_1 c) then Some (c <| rx_len_1 ::= fun n => n + len |>)
  else if buf =? rx_buf_2 c + rx_len_2 c then Some (c <| rx_len_2 ::= fun n => n + len |>)
  else
    cassert (rx_len_2 c =? 0);;
    Some (c <| rx_len_2 := len |> <| rx_buf_2 := buf |>).

Definition ev_conn_received (s buf len : Z) (st : sockst) : option sockst :=
  if status_is s SOC_CLOSED st then Some st
  else
    cassert (is_connection s st);;
    cassert (status_is s SOC_CONNECTED st);;
    c ← rx_append buf len (sconn st s);
    flextcp_epoll_set s EPOLLIN (upd_sconn s (fun _ => c) st).

Definition ev_conn_sendbuf (s : Z) (st : sockst) : option sockst :=
  cassert (is_connection s st);;
  cassert (status_is s SOC_CONNECTED st);;
  flextcp_epoll_set s EPOLLOUT st.

Definition ev_conn_moved (s status : Z) (st : sockst) : option sockst :=
  cassert (is_connection s st);;
  cassert (status_is s SOC_CONNECTED st);;
  Some (upd_sconn s (fun c => c <| sc_move_status := status |>) st).

Definition ev_conn_rxclosed (s : Z) (st : sockst) : option sockst :=
  cassert (is_connection s st);;
  cassert (status_is s SOC_CONNECTED st || status_is s SOC_CLOSED st);;
  let st := upd_sconn s (fun c => c <| sc_st_flags ::= fun f => Z.lor f CSTF_RXCLOSED |>) st in
  st ← flextcp_epoll_set s (Z.lor EPOLLIN EPOLLRDHUP) st;
  if status_is s SOC_CLOSED st && has_st_flag s CSTF_TXCLOSED_ACK st then flextcp_sockclose_finish s st else Some st.

Definition ev_conn_txclosed (s : Z) (st : sockst) : option sockst :=
  cassert (is_connection s st);;
  cassert (status_is s SOC_CONNECTED st || status_is s SOC_CLOSED st);;
  let st := upd_sconn s (fun c => c <| sc_st_flags ::= fun f => Z.lor f CSTF_TXCLOSED_ACK |>) st in
  if status_is s SOC_CLOSED st && has_st_flag s CSTF_RXCLOSED st then flextcp_sockclose_finish s st else Some st.

(** [free] of a socket, which contains its connection. *)
Definition sock_free (s : Z) (st : sockst) : sockst :=
  st <| ss_socks ::= delete s |> <| ss_lib ::= fun L => L <| l_conns ::= delete s |> |>.

Definition ev_conn_closed (s : Z) (st : sockst) : option sockst :=
  cassert (is_connection s st);;
  cassert (status_is s SOC_CLOSED st);;
  Some (sock_free s st).

Definition sock_event (ev : flextcp_event) (st : sockst) : option sockst :=
  match ev with
  | EV_LISTEN_OPEN status l => ev_listen_open l status st
  | EV_LISTEN_NEWCONN _ _ _ _ => Some st
  | EV_LISTEN_ACCEPT status c => ev_listen_accept c status st
  | EV_CONN_OPEN status c => ev_conn_open c status st
  | EV_CONN_CLOSED _ c => ev_conn_closed c st
  | EV_CONN_RECEIVED c buf len => ev_conn_received c buf len st
  | EV_CONN_SENDBUF c => ev_conn_sendbuf c st
  | EV_CONN_RXCLOSED c => ev_conn_rxclosed c st
  | EV_CONN_TXCLOSED c => ev_conn_txclosed c st
  | EV_CONN_MOVED status c => ev_conn_moved c status st
  | EV_LISTEN_MOVED status l => ev_listen_moved l status st
  end.

Fixpoint sock_events (evs : list flextcp_event) (st : sockst) : option sockst :=
  match evs with
  | [] => Some st
  | ev :: evs => st ← sock_event ev st; sock_events evs st
  end.

(** ** Polling *)

Definition flextcp_sockctx_poll (st : sockst) : option (Z * sockst) :=
  '(evs, L) ← flextcp_context_poll info (ss_now st) flexnic_mem 16 (ss_lib st);
  st ← sock_events evs (st <| ss_lib := L |>);
  Some (Z.of_nat (length evs), st).

(** [k] is the number of rounds. *)
Fixpoint sockctx_poll_rounds (k : nat) (nevents : Z) (st : sockst) : option (Z * sockst) :=
  match k with
  | O => Some (nevents, st)
  | S k => '(n, st) ← flextcp_sockctx_poll st; sockctx_poll_rounds k (nevents + n) st
  end.

Definition flextcp_sockctx_poll_n (n : Z) (st : sockst) : option (Z * sockst) :=
  sockctx_poll_rounds (Z.to_nat (Z.max 1 ((n + 15) / 16))) 0 st.

(** ** Waiting *)

(** The thread sleeps if [block], and polls. *)
Definition wait_round (block : bool) (pe : pollenv) (st : sockst) : option sockst :=
  let st := pe_before pe st <| ss_now := pe_now pe |> in
  let st := if block then (with_lib (flextcp_context_wait info (ss_now st) (pe_polled pe)) st).2 else st in
  '(_, st) ← flextcp_sockctx_poll st;
  Some (pe_after pe st).

(** The loops [while (...) { unlock; if (block) wait; block = 1; poll; lock; }]: [step] is
    the rest of a round, told whether the thread has polled before; it returns the result
    of the loop or goes on. *)
Fixpoint wait_loop {A} (step : bool -> sockst -> option (option A * sockst)) (polled : bool) (env : list pollenv)
    (st : sockst) : outcome A :=
  match step polled st with
  | None => Aborted
  | Some (Some a, st) => Ret a env st
  | Some (None, st) =>
      match env with
      | [] => Blocked
      | pe :: env =>
          match wait_round polled pe st with
          | None => Aborted
          | Some st => wait_loop step true env st
          end
      end
  end.

End Ctx.
