(* ===== verification/SockCtl.v ===== *)
(** * Operations on sockets (lib/sockets/control.c, lib/sockets/manage_fd.c)

    Locks are left out: a call is atomic but for the rounds of [wait_loop].  The results
    of calloc and eventfd are arguments. *)

From S2P Require Import Prelude FpTypes LibTypes LibConn LibPoll SockTypes Epoll SockCtx.

(** Constants of the C library. *)
Definition AF_INET : Z := 2.
Definition SOCK_STREAM : Z := 1.
Definition SOCK_NONBLOCK : Z := 2048.
Definition SOCK_CLOEXEC : Z := 524288.
Definition O_NONBLOCK : Z := 2048.
Definition O_ACCMODE : Z := 3.
Definition FD_CLOEXEC : Z := 1.

(** [(x & f) == f] for one bit. *)
Definition so_has (s f : Z) (st : sockst) : bool := any_flag (so_flags (sock st s)) f.
Definition so_on (s f : Z) : sockst -> sockst := upd_sock s (fun v => v <| so_flags ::= fun x => Z.lor x f |>).
Definition so_off (s f : Z) : sockst -> sockst := upd_sock s (fun v => v <| so_flags ::= fun x => flags_off x f |>).

Section Ctl.
Context (info : flexnic_info) (flexnic_mem : Z).

(** The socket of a descriptor, or the error. *)
Definition with_sock (fd : Z) (k : Z -> call Z) : call Z :=
  r ← liftp (flextcp_fd_slookup fd);
  match r with None => mret (-1) | Some s => k s end.

Definition loop {A} (step : bool -> sockst -> option (option A * sockst)) : call A :=
  wait_loop info flexnic_mem step false.

(** ** Moving a connection to the context of the thread *)

Definition connected (s : Z) (st : sockst) : bool := is_connection s st && status_is s SOC_CONNECTED st.

Definition tas_sock_move (s : Z) : call Z :=
  st ← get;
  if negb (connected s st) then fail ENOTCONN
  else if sc_ctx (sconn st s) =? ss_cur st then mret 0
  else
    modify (upd_sconn s (fun c => c <| sc_move_status := INT_MIN |>));;
    r ← liftp (fun st => with_lib (flextcp_connection_move info (ss_now st) s) st);
    if negb (r =? 0) then fail EINVAL
    else
      ret ← loop (fun polled st =>
        let m := sc_move_status (sconn st s) in
        Some (if polled && negb (m =? INT_MIN) then Some m else None, st));
      modify (fun st => if ret =? 0 then upd_sconn s (fun c => c <| sc_ctx := ss_cur st |>) st else st);;
      mret ret.

Definition tas_move_conn (sockfd : Z) : call Z := with_sock sockfd tas_sock_move.

(** ** Creating and closing *)

Definition tas_socket (domain type : Z) (p fd : option Z) : call Z :=
  let nonblock := any_flag type SOCK_NONBLOCK in
  let cloexec := any_flag type SOCK_CLOEXEC in
  let type := flags_off type (Z.lor SOCK_NONBLOCK SOCK_CLOEXEC) in
  if negb (domain =? AF_INET) || negb (type =? SOCK_STREAM) then fail EINVAL
  else
    r ← liftp (flextcp_fd_salloc p fd);
    match r with
    | None => mret (-1)
    | Some (fd, s) =>
        modify (fun st =>
          let st := upd_sock s (fun v => v <| so_type := SOCK_SOCKET |> <| so_flags := 0 |>) st in
          let st := flextcp_epoll_sockinit s st in
          let st := if nonblock then so_on s SOF_NONBLOCK st else st in
          if cloexec then so_on s SOF_CLOEXEC st else st);;
        mret fd
    end.

Definition conn_close (s : Z) (st : sockst) : option sockst :=
  let st := upd_sconn s (fun c => c <| sc_status := SOC_CLOSED |>) st in
  if has_st_flag s CSTF_TXCLOSED_ACK st && has_st_flag s CSTF_RXCLOSED st then flextcp_sockclose_finish info s st
  else if negb (has_st_flag s CSTF_TXCLOSED st) then
    '(r, st) ← with_lib_opt (flextcp_connection_tx_close s) st;
    cassert (r =? 0);;
    Some (upd_sconn s (fun c => c <| sc_st_flags ::= fun f => Z.lor f CSTF_TXCLOSED |>) st)
  else Some st.

(** A listener is leaked. *)
Definition tas_sock_close (s : Z) (st : sockst) : option sockst :=
  cassert (so_refcnt (sock st s) =? 0);;
  st ← flextcp_epoll_sockclose s st;
  match so_type (sock st s) with
  | SOCK_CONNECTION => conn_close s st
  | SOCK_SOCKET => Some (sock_free s st)
  | _ => Some st
  end.

Definition tas_close (sockfd : Z) (st : sockst) : option (Z * sockst) :=
  let '(r, st) := flextcp_fd_slookup sockfd st in
  match r with
  | Some s =>
      st ← flextcp_fd_close sockfd st;
      if negb (so_refcnt (sock st s) =? 0) then Some (0, st)
      else st ← tas_sock_close s st; Some (0, st)
  | None =>
      let '(r, st) := flextcp_fd_elookup sockfd st in
      match r with
      | Some e =>
          st ← flextcp_fd_close sockfd st;
          if negb (ep_refcnt (epo st e) =? 0) then Some (0, st)
          else st ← flextcp_epoll_destroy e st; Some (0, st)
      | None => Some (-1, st <| ss_errno := EBADF |>)
      end
  end.

Inductive shut_how : Type := SHUT_RD | SHUT_WR | SHUT_RDWR.
#[export] Instance shut_how_eq_dec : EqDecision shut_how.
Proof. solve_decision. Defined.

Definition tas_shutdown (sockfd : Z) (how : shut_how) : call Z :=
  with_sock sockfd (fun s =>
    _ ← tas_sock_move s;
    st ← get;
    if negb (is_connection s st) then fail ENOTSOCK
    else if negb (status_is s SOC_CONNECTED st) then fail ENOTCONN
    else if negb (bool_decide (how = SHUT_WR)) then fail EINVAL
    else if has_st_flag s CSTF_TXCLOSED st then mret 0
    else
      r ← lift (with_lib_opt (flextcp_connection_tx_close s));
      if negb (r =? 0) then fail ENOBUFS
      else
        modify (upd_sconn s (fun c => c <| sc_st_flags ::= fun f => Z.lor f CSTF_TXCLOSED |>));;
        mret 0).

(** ** Duplicates of descriptors *)

(** [r] is the result of the dup of Linux. *)
Definition internal_dup3 (oldfd newfd : Z) (st : sockst) : option (Z * sockst) :=
  cassert (newfd <? MAXSOCK);;
  st ← match fh st newfd with
       | FH_SOCKET s =>
           let st := upd_sock s (fun v => v <| so_refcnt ::= fun n => n - 1 |>) st in
           st ← (if so_refcnt (sock st s) =? 0 then tas_sock_close s st else Some st);
           Some (st <| ss_fhs ::= <[newfd := FH_UNUSED]> |>)
       | FH_EPOLL e =>
           let st := upd_epo e (fun v => v <| ep_refcnt ::= fun n => n - 1 |>) st in
           st ← (if ep_refcnt (epo st e) =? 0 then flextcp_epoll_destroy e st else Some st);
           Some (st <| ss_fhs ::= <[newfd := FH_UNUSED]> |>)
       | FH_UNUSED => Some st
       end;
  let '(r, st) := flextcp_fd_slookup oldfd st in
  match r with
  | Some s => Some (newfd, upd_sock s (fun v => v <| so_refcnt ::= fun n => n + 1 |>) (st <| ss_fhs ::= <[newfd := FH_SOCKET s]> |>))
  | None =>
      let '(r, st) := flextcp_fd_elookup oldfd st in
      match r with
      | Some e => Some (newfd, upd_epo e (fun v => v <| ep_refcnt ::= fun n => n + 1 |>) (st <| ss_fhs ::= <[newfd := FH_EPOLL e]> |>))
      | None => Some (newfd, st)
      end
  end.

Definition tas_dup (oldfd r : Z) (st : sockst) : option (Z * sockst) :=
  if r <? 0 then Some (r, st) else internal_dup3 oldfd r st.

Definition tas_dup2 (oldfd r : Z) (st : sockst) : option (Z * sockst) :=
  if r <? 0 then Some (r, st) else if r =? oldfd then Some (r, st) else internal_dup3 oldfd r st.

Definition tas_dup3 (oldfd r : Z) (st : sockst) : option (Z * sockst) :=
  if r <? 0 then Some (r, st) else internal_dup3 oldfd r st.

(** ** Opening *)

(** [addr] is the address and port, none when it has a wrong length or family. *)
Definition tas_bind (sockfd : Z) (addr : option (Z * Z)) : call Z :=
  with_sock sockfd (fun s =>
    match addr with
    | None => fail EINVAL
    | Some a => modify (fun st => so_on s SOF_BOUND (upd_sock s (fun v => v <| so_addr := a |>) st));; mret 0
    end).

Definition conn_start (listener : Z) (accepted : bool) (ctx : Z) (c : socket_conn) : socket_conn :=
  c <| sc_status := SOC_CONNECTING |> <| sc_listener := listener |> <| rx_len_1 := 0 |> <| rx_len_2 := 0 |>
    <| sc_ctx := ctx |> <| sc_accepted := accepted |>.

Definition tas_connect (sockfd : Z) (addr : option (Z * Z)) : call Z :=
  with_sock sockfd (fun s =>
    st ← get;
    if bool_decide (so_type (sock st s) = SOCK_LISTENER) || connected s st then fail EISCONN
    else if is_connection s st && status_is s SOC_CONNECTING st then fail EALREADY
    else match addr with
    | None => fail EINVAL
    | Some (ip, port) =>
        r ← liftp (fun st => with_lib (flextcp_connection_open info (ss_now st) s ip port) st);
        if negb (r =? 0) then fail ECONNREFUSED
        else
          st ← get;
          lift_st (fun st => cassert (is_connection s st || bool_decide (so_type (sock st s) = SOCK_SOCKET));; Some st);;
          modify (fun st => upd_sconn s (conn_start 0 true (ss_cur st)) (upd_sock s (fun v => v <| so_type := SOCK_CONNECTION |>) st));;
          if so_has s SOF_NONBLOCK st then fail EINPROGRESS
          else
            _ ← loop (fun polled st => Some (if polled && negb (status_is s SOC_CONNECTING st) then Some tt else None, st));
            st ← get;
            if status_is s SOC_FAILED st then fail ECONNREFUSED else mret 0
    end).

(** ** Listening *)

(** [allocs] are the results of calloc and eventfd, in order.  The iterations are bounded by
    the free slots of the backlog. *)
Fixpoint enqueue_accept_loop (slots : nat) (s : Z) (allocs : list (option Z * option Z)) (st : sockst) : option sockst :=
  let l := slisten st s in
  if backlog_num l =? backlog_len l then Some st
  else
    match slots with
    | O => None
    | S slots =>
        let '(p, fd) := default (None, None) (head allocs) in
        let '(r, st) := flextcp_fd_salloc p fd st in
        match r with
        | None => Some st
        | Some (newfd, ns) =>
            let st := upd_sconn ns (conn_start s false (ss_cur st))
                        (upd_sock ns (fun v => v <| so_type := SOCK_CONNECTION |> <| so_flags := 0 |>) st) in
            let i := (backlog_next l + backlog_num l) mod backlog_len l in
            let st := upd_slisten s (fun l => l <| sl_backlog ::= <[i := (ns, newfd)]> |>) st in
            let '(r, st) := with_lib (flextcp_listen_accept info (ss_now st) s ns) st in
            if negb (r =? 0) then flextcp_fd_close newfd st
            else
              enqueue_accept_loop slots s (tail allocs)
                (upd_slisten s (fun l => l <| backlog_num ::= fun n => n + 1 |>) st)
        end
    end.

(** The result [false] is -1. *)
Definition enqueue_accept (s : Z) (allocs : list (option Z * option Z)) (st : sockst) : option (bool * sockst) :=
  let l := slisten st s in
  st ← enqueue_accept_loop (Z.to_nat (backlog_len l - backlog_num l)) s allocs st;
  if backlog_num (slisten st s) =? 0 then Some (false, st <| ss_errno := ENOBUFS |>) else Some (true, st).

(** [bl] is whether calloc succeeds.  When the request cannot be sent the backlog is freed
    twice, which aborts. *)
Definition tas_listen (sockfd backlog : Z) (bl : bool) (allocs : list (option Z * option Z)) : call Z :=
  with_sock sockfd (fun s =>
    st ← get;
    if negb (bool_decide (so_type (sock st s) = SOCK_SOCKET)) then fail EOPNOTSUPP
    else if negb (so_has s SOF_BOUND st) then fail EADDRINUSE
    else
      let flags := if so_has s SOF_REUSEPORT st then FLEXTCP_LISTEN_REUSEPORT else 0 in
      let backlog := if backlog <? 8 then 8 else backlog in
      if negb bl then fail ENOMEM
      else
        r ← liftp (fun st => with_lib (flextcp_listen_open info (ss_now st) s (so_addr (sock st s)).2 backlog flags) st);
        lift_st (fun st => cassert (r =? 0);; Some st);;
        modify (fun st =>
          upd_slisten s (fun l => l <| sl_backlog := ∅ |> <| backlog_len := backlog |> <| backlog_next := 0 |>
                                    <| backlog_num := 0 |> <| sl_status := SOL_OPENING |> <| sl_ctx := ss_cur st |>)
            (upd_sock s (fun v => v <| so_type := SOCK_LISTENER |>) st));;
        _ ← loop (fun polled st =>
          Some (if polled && negb (bool_decide (sl_status (slisten st s) = SOL_OPENING)) then Some tt else None, st));
        st ← get;
        if bool_decide (sl_status (slisten st s) = SOL_FAILED) then fail ENOBUFS
        else ok ← lift (enqueue_accept s allocs); mret (if ok : bool then 0 else -1)).

(** ** Addresses *)

(** The address and port that are copied out, with the result. *)
Definition tas_getpeername (sockfd : Z) : call (Z * option (Z * Z)) :=
  r ← liftp (flextcp_fd_slookup sockfd);
  match r with
  | None => mret (-1, None)
  | Some s =>
      _ ← tas_sock_move s;
      st ← get;
      if negb (connected s st) then e ← fail ENOTCONN; mret (e, None)
      else let c := lconn (ss_lib st) s in mret (0, Some (lc_in_remote_ip c, lc_remote_port c))
  end.

Definition tas_getsockname (sockfd : Z) : call (Z * option (Z * Z)) :=
  r ← liftp (flextcp_fd_slookup sockfd);
  match r with
  | None => mret (-1, None)
  | Some s =>
      _ ← tas_sock_move s;
      st ← get;
      if so_has s SOF_BOUND st then mret (0, Some (so_addr (sock st s)))
      else if connected s st then
        let c := lconn (ss_lib st) s in mret (0, Some (lc_in_local_ip c, lc_local_port c))
      else e ← fail ENOTCONN; mret (e, None)
  end.

(** ** Accepting *)

(** The connection at the head of the backlog. *)
Definition backlog_head (s : Z) (st : sockst) : Z * Z :=
  sl_backlog (slisten st s) !!! backlog_next (slisten st s).

(** One round of the loop; the error is that of the call. *)
Definition accept_step (s : Z) (allocs : list (option Z * option Z)) (st : sockst)
    : option (option (errno + Z * Z) * sockst) :=
  '(ok, st) ← (if backlog_num (slisten st s) =? 0 then enqueue_accept s allocs st else Some (true, st));
  if negb ok then Some (Some (inl ENOBUFS), st)
  else
    let '(ns, newfd) := backlog_head s st in
    if negb (status_is ns SOC_CONNECTING st) then Some (Some (inr (ns, newfd)), st)
    else if so_has s SOF_NONBLOCK st then Some (Some (inl EAGAIN), st)
    else Some (None, st).

(** The connection [ns] is taken off, and the backlog filled again. *)
Definition accept_take (s ns : Z) (nonblock cloexec : bool) (allocs : list (option Z * option Z)) (st : sockst)
    : option sockst :=
  cassert (status_is ns SOC_CONNECTED st);;
  let st := if cloexec then so_on ns SOF_CLOEXEC st else st in
  let st := if nonblock then so_on ns SOF_NONBLOCK st else st in
  let st := upd_slisten s (fun l => l <| backlog_next ::= fun n => (n + 1) mod backlog_len l |>
                                      <| backlog_num ::= fun n => n - 1 |>) st in
  '(_, st) ← enqueue_accept s allocs st;
  Some (if (backlog_num (slisten st s) =? 0) || status_is (backlog_head s st).1 SOC_CONNECTING st
        then flextcp_epoll_clear s EPOLLIN st else st).

(** The results of calloc are [alloc1] where the backlog is empty, [alloc2] afterwards. *)
Definition tas_accept4 (sockfd : Z) (want_addr : bool) (flags : Z) (alloc1 alloc2 : list (option Z * option Z)) : call Z :=
  with_sock sockfd (fun s =>
    let nonblock := any_flag flags SOCK_NONBLOCK in
    let cloexec := any_flag flags SOCK_CLOEXEC in
    if negb (flags_off flags (Z.lor SOCK_NONBLOCK SOCK_CLOEXEC) =? 0) then fail EINVAL
    else
      st ← get;
      if negb (bool_decide (so_type (sock st s) = SOCK_LISTENER)) then fail EOPNOTSUPP
      else
        r ← loop (fun _ => accept_step s alloc1);
        match r with
        | inl e => fail e
        | inr (ns, newfd) =>
            lift_st (accept_take s ns nonblock cloexec alloc2);;
            (if want_addr then
               '(r, _) ← tas_getpeername newfd; lift_st (fun st => cassert (r =? 0);; Some st)
             else mret tt);;
            mret newfd
        end).

Definition tas_accept (sockfd : Z) (want_addr : bool) : list (option Z * option Z) -> list (option Z * option Z) -> call Z :=
  tas_accept4 sockfd want_addr 0.

(** ** Flags and options *)

Inductive fcntl_cmd : Type := F_GETFL | F_SETFL (arg : Z) | F_GETFD | F_SETFD (arg : Z) | F_OTHER.

Definition tas_fcntl (sockfd : Z) (cmd : fcntl_cmd) : call Z :=
  with_sock sockfd (fun s =>
    _ ← tas_sock_move s;
    st ← get;
    match cmd with
    | F_GETFL => mret (if so_has s SOF_NONBLOCK st then O_NONBLOCK else 0)
    | F_SETFL arg =>
        if negb (flags_off arg (Z.lor O_NONBLOCK O_ACCMODE) =? 0) then fail EINVAL
        else modify (if Z.land arg O_NONBLOCK =? 0 then so_off s SOF_NONBLOCK else so_on s SOF_NONBLOCK);; mret 0
    | F_GETFD => mret (if so_has s SOF_CLOEXEC st then FD_CLOEXEC else 0)
    | F_SETFD arg =>
        if negb (flags_off arg FD_CLOEXEC =? 0) then fail EINVAL
        else modify (if any_flag arg FD_CLOEXEC then so_on s SOF_CLOEXEC else so_off s SOF_CLOEXEC);; mret 0
    | F_OTHER => fail EINVAL
    end).

(** The pairs of level and option the code knows. *)
Inductive sockopt : Type :=
| TCP_NODELAY | SO_RCVBUF | SO_SNDBUF | SO_ERROR | SO_REUSEPORT | SO_REUSEADDR | SO_KEEPALIVE | SO_PRIORITY
| TCP_KEEPIDLE | TCP_KEEPINTVL | TCP_KEEPCNT | TCP_DEFER_ACCEPT | SO_LINGER | TCP_MAXSEG | TCP_INFO | OPT_OTHER.
#[export] Instance sockopt_eq_dec : EqDecision sockopt.
Proof. solve_decision. Defined.

(** Errors as numbers, where they are values of options. *)
Definition EINPROGRESS_N : Z := 115.
Definition ECONNREFUSED_N : Z := 111.
Definition ENOTSUP_N : Z := 95.

(** [SO_ERROR]; a connection that is opening polls first. *)
Definition so_error (s : Z) : call Z :=
  st ← get;
  match so_type (sock st s) with
  | SOCK_LISTENER => mret (if bool_decide (sl_status (slisten st s) = SOL_OPEN) then 0 else EINPROGRESS_N)
  | SOCK_CONNECTION =>
      (if status_is s SOC_CONNECTING st then
         loop (fun polled st => Some (if polled then Some tt else None, st))
       else mret tt);;
      st ← get;
      mret (if status_is s SOC_CONNECTED st then 0
            else if status_is s SOC_CONNECTING st then EINPROGRESS_N else ECONNREFUSED_N)
  | _ => mret ENOTSUP_N
  end.

(** The result, the bytes of [optval] that are written, and the new [optlen], which is the
    value of the option. *)
Definition tas_getsockopt (sockfd : Z) (opt : sockopt) (optlen tcp_info_len : Z) : call (Z * option (Z * Z * Z)) :=
  r ← liftp (flextcp_fd_slookup sockfd);
  match r with
  | None => mret (-1, None)
  | Some s =>
      _ ← tas_sock_move s;
      let ok (res : Z) := mret (0, Some (res, Z.min optlen 4, u32 res)) in
      match opt with
      | TCP_NODELAY => ok 1
      | SO_RCVBUF | SO_SNDBUF => ok (1024 * 1024)
      | SO_ERROR => res ← so_error s; ok res
      | SO_REUSEPORT => st ← get; ok (if so_has s SOF_REUSEPORT st then 1 else 0)
      | SO_REUSEADDR => ok 1
      | SO_KEEPALIVE | TCP_KEEPIDLE | TCP_KEEPINTVL | TCP_KEEPCNT => ok 0
      | TCP_MAXSEG => ok 1460
      | TCP_INFO => mret (0, Some (0, Z.min optlen tcp_info_len, Z.min optlen tcp_info_len))
      | SO_PRIORITY | TCP_DEFER_ACCEPT | SO_LINGER | OPT_OTHER => e ← fail ENOPROTOOPT; mret (e, None)
      end
  end.

(** [val] is the integer at [optval]. *)
Definition tas_setsockopt (sockfd : Z) (opt : sockopt) (val optlen : Z) : call Z :=
  with_sock sockfd (fun s =>
    _ ← tas_sock_move s;
    match opt with
    | TCP_NODELAY => if negb (optlen =? 4) then fail EINVAL else mret 0
    | SO_RCVBUF | SO_SNDBUF =>
        if optlen <? 4 then fail EINVAL else if val <=? 1024 * 1024 then mret 0 else fail ENOMEM
    | SO_REUSEPORT =>
        if negb (optlen =? 4) then fail EINVAL
        else modify (if negb (val =? 0) then so_on s SOF_REUSEPORT else so_off s SOF_REUSEPORT);; mret 0
    | SO_REUSEADDR | SO_KEEPALIVE | SO_PRIORITY | TCP_KEEPIDLE | TCP_KEEPINTVL | TCP_KEEPCNT | TCP_DEFER_ACCEPT
    | SO_LINGER => mret 0
    | SO_ERROR | TCP_MAXSEG | TCP_INFO | OPT_OTHER => fail ENOPROTOOPT
    end).

(** ** Epoll *)

(** [r] is the result of the epoll_ctl of Linux, for descriptors that are not the library's. *)
Definition tas_epoll_ctl (epfd : Z) (op : epoll_op) (fd events data : Z) (r : Z) (p : option Z) : call Z :=
  ep ← liftp (flextcp_fd_elookup epfd);
  match ep with
  | None => mret (-1)
  | Some e =>
      so ← liftp (flextcp_fd_slookup fd);
      match so with
      | None => lift (epoll_ctl_linux e op r)
      | Some s =>
          r ← lift (epoll_ctl_sock info e op s events data p);
          ret ← match r with Some er => fail er | None => mret 0 end;
          _ ← tas_move_conn fd;
          mret ret
      end
  end.

(** What happens in a round of [tas_epoll_wait]: as in [pollenv], and what the epoll_wait
    of Linux returns, the times, and whether [poll] succeeds. *)
Record waitenv : Type := mk_waitenv {
  we_before : sockst -> sockst; we_now : Z; we_after : sockst -> sockst; we_linux : option (list (Z * Z));
  we_ms : Z; we_polled : bool; we_ms_end : Z }.

Definition ep_poll_tas (e max : Z) (we : waitenv) (st : sockst) : option (list (Z * Z) * sockst) :=
  '(_, st) ← flextcp_sockctx_poll_n info flexnic_mem max (we_before we st <| ss_now := we_now we |>);
  ep_poll_report e max (we_after we st).

(** No list is a negative result. *)
Definition epoll_round (e max : Z) (we : waitenv) (st : sockst) : option (option (list (Z * Z)) * sockst) :=
  if num_linux (epo st e) =? 0 then
    '(evs, st) ← ep_poll_tas e max we st; Some (Some evs, st)
  else if linux_next (epo st e) then
    '(r, st) ← match we_linux we with
               | None => Some (None, st)
               | Some l =>
                   let l := take (Z.to_nat max) l in
                   if Z.of_nat (length l) <? max then
                     '(evs, st) ← ep_poll_tas e (max - Z.of_nat (length l)) we st; Some (Some (l ++ evs), st)
                   else Some (Some l, st)
               end;
    Some (r, upd_epo e (fun v => v <| linux_next := false |>) st)
  else
    '(evs, st) ← ep_poll_tas e max we st;
    let l := if Z.of_nat (length evs) <? max
             then take (Z.to_nat (max - Z.of_nat (length evs))) (default [] (we_linux we)) else [] in
    Some (Some (evs ++ l), upd_epo e (fun v => v <| linux_next := true |>) st).

Inductive wait_result : Type :=
| W_return (evs : option (list (Z * Z))) (st : sockst)
| W_linux (st : sockst)
| W_blocked
| W_aborted.

Fixpoint epoll_wait_loop (env : list waitenv) (e max timeout mtimeout : Z) (st : sockst) : wait_result :=
  match env with
  | [] => W_blocked
  | we :: env =>
      match epoll_round e max we st with
      | None => W_aborted
      | Some (r, st) =>
          if bool_decide (r = Some []) && negb (timeout =? 0) then
            let '(can, st) := if (timeout =? -1) || (we_ms we <? mtimeout)
                              then with_lib (flextcp_context_canwait info (ss_now st)) st else (false, st) in
            if can : bool then
              if we_polled we
              then epoll_wait_loop env e max timeout mtimeout (st <| ss_lib ::= flextcp_context_waitclear |>)
              else W_return None st
            else if (timeout =? -1) || (we_ms_end we <? mtimeout) then epoll_wait_loop env e max timeout mtimeout st
            else W_return r st
          else W_return r st
      end
  end.

(** [ms] is the time at the start; [W_linux]: the call goes on as the one of Linux. *)
Definition tas_epoll_wait (epfd max timeout ms : Z) (env : list waitenv) (st : sockst) : wait_result :=
  if max <=? 0 then W_return None (st <| ss_errno := EINVAL |>)
  else
    let '(r, st) := flextcp_fd_elookup epfd st in
    match r with
    | None => W_return None st
    | Some e =>
        if num_tas (epo st e) =? 0 then W_linux st
        else epoll_wait_loop env e max timeout (if 0 <? timeout then ms + timeout else 0) st
    end.

Definition tas_epoll_pwait (st : sockst) : wait_result := W_return None (st <| ss_errno := EINVAL |>).

End Ctl.
