(* ===== verification/SockXfer.v ===== *)
(** * Receiving and sending on sockets (lib/sockets/transfer.c)

    A buffer is an address and a length, an iovec a list of them. *)

From S2P Require Import Prelude FpTypes LibTypes LibConn LibPoll SockTypes Epoll SockCtx SockCtl.

Section Xfer.
Context (info : flexnic_info) (flexnic_mem : Z).

(** [memcpy]. *)
Definition memcpy (dst src len : Z) (m : mem) : mem := mem_write m dst len (fun i => m (src + i)).
Definition copy (dst src len : Z) (st : sockst) : sockst := st <| ss_mem ::= memcpy dst src len |>.

Definition iov_total (iov : list (Z * Z)) : Z := foldr (fun v n => u64 (v.2 + n)) 0 iov.

(** ** Receiving *)

Definition no_data (s : Z) (st : sockst) : bool :=
  (rx_len_1 (sconn st s) =? 0) && negb (has_st_flag s CSTF_RXCLOSED st).

(** A round of the loop that waits for data; [false] is EAGAIN. *)
Definition recv_step (s : Z) (polled : bool) (st : sockst) : option (option bool * sockst) :=
  if polled && so_has s SOF_NONBLOCK st && no_data s st then Some (Some false, st)
  else if no_data s st then Some (None, flextcp_epoll_clear s EPOLLIN st)
  else Some (Some true, st).

(** The first piece is used up: the second one takes its place. *)
Definition shift_pieces (c : socket_conn) : socket_conn :=
  c <| rx_buf_1 := rx_buf_2 c |> <| rx_len_1 := rx_len_2 c |> <| rx_buf_2 := 0 |> <| rx_len_2 := 0 |>.

Definition take_piece (len : Z) (c : socket_conn) : socket_conn :=
  c <| rx_buf_1 ::= fun b => b + len |> <| rx_len_1 ::= fun n => n - len |>.

(** Into the buffer at [buf] of [len] bytes: the bytes copied. *)
Definition recv_copy (s buf len : Z) (st : sockst) : Z * sockst :=
  let '(off, st) :=
    if rx_len_1 (sconn st s) <=? len
    then (rx_len_1 (sconn st s),
          upd_sconn s shift_pieces (copy buf (rx_buf_1 (sconn st s)) (rx_len_1 (sconn st s)) st))
    else (0, st) in
  let len_2 := Z.min (rx_len_1 (sconn st s)) (len - off) in
  (off + len_2, upd_sconn s (take_piece len_2) (copy (buf + off) (rx_buf_1 (sconn st s)) len_2 st)).

(** After copying [ret] bytes. *)
Definition recv_done (s ret : Z) (st : sockst) : sockst :=
  if 0 <? ret then
    let st := if no_data s st then flextcp_epoll_clear s EPOLLIN st else st in
    (with_lib (flextcp_connection_rx_done s ret) st).2
  else st.

Definition recv_simple (sockfd buf len : Z) : call Z :=
  with_sock sockfd (fun s =>
    _ ← tas_sock_move info flexnic_mem s;
    st ← get;
    if negb (connected s st) then fail ENOTCONN
    else if len =? 0 then mret 0
    else
      ok ← loop info flexnic_mem (recv_step s);
      if negb ok then fail EAGAIN
      else
        ret ← liftp (recv_copy s buf len);
        modify (recv_done s ret);;
        mret ret).

Fixpoint recv_iov (s : Z) (iov : list (Z * Z)) (ret : Z) (st : sockst) : Z * sockst :=
  match iov with
  | [] => (ret, st)
  | (buf, len) :: iov =>
      if 0 <? rx_len_1 (sconn st s)
      then let '(n, st) := recv_copy s buf len st in recv_iov s iov (ret + n) st
      else (ret, st)
  end.

Definition tas_recvmsg (sockfd : Z) (iov : list (Z * Z)) : call Z :=
  with_sock sockfd (fun s =>
    _ ← tas_sock_move info flexnic_mem s;
    st ← get;
    if negb (connected s st) then fail ENOTCONN
    else if iov_total iov =? 0 then mret 0
    else
      ok ← loop info flexnic_mem (recv_step s);
      if negb ok then fail EAGAIN
      else
        ret ← liftp (recv_iov s iov 0);
        modify (recv_done s ret);;
        mret ret).

Definition tas_read : Z -> Z -> Z -> call Z := recv_simple.
Definition tas_recv : Z -> Z -> Z -> call Z := recv_simple.
Definition tas_recvfrom : Z -> Z -> Z -> call Z := recv_simple.
Definition tas_pread : Z -> Z -> Z -> call Z := recv_simple.
Definition tas_readv : Z -> list (Z * Z) -> call Z := tas_recvmsg.

(** ** Sending *)

(** [split_write] of utils_circ.h: [len] bytes of [src] at offset [off] of two pieces. *)
Definition split_write (src len buf_1 len_1 buf_2 len_2 off : Z) (st : sockst) : option sockst :=
  cassert (len + off <=? len_1 + len_2);;
  if off + len <=? len_1 then Some (copy (buf_1 + off) src len st)
  else if len_1 <=? off then Some (copy (buf_2 + (off - len_1)) src len st)
  else
    let l := len_1 - off in
    Some (copy buf_2 (src + l) (len - l) (copy (buf_1 + off) src l st)).

(** A round of the loop that waits for space in the transmit buffer: the bytes and pieces
    allocated, or EAGAIN. *)
Definition alloc_step (s len : Z) (polled : bool) (st : sockst) : option (option (option (Z * (Z * Z * Z))) * sockst) :=
  let '(ret, bufs, L) := flextcp_connection_tx_alloc2 s len (ss_lib st) in
  let st := st <| ss_lib := L |> in
  cassert (0 <=? ret);;
  if negb (ret =? 0) then Some (Some (Some (ret, bufs)), st)
  else if polled && so_has s SOF_NONBLOCK st then Some (Some None, st)
  else Some (None, st).

Definition send_step (s ret : Z) (_ : bool) (st : sockst) : option (option unit * sockst) :=
  let '(r, st) := with_lib (flextcp_connection_tx_send s ret) st in
  Some (if r =? 0 then Some tt else None, st).

Definition sendable (s : Z) (st : sockst) : bool := connected s st && negb (has_st_flag s CSTF_TXCLOSED st).

(** [flextcp_connection_tx_possible] always returns 0. *)
Definition send_simple (sockfd buf len : Z) : call Z :=
  with_sock sockfd (fun s =>
    _ ← tas_sock_move info flexnic_mem s;
    st ← get;
    if negb (sendable s st) then fail ENOTCONN
    else if len =? 0 then mret 0
    else
      r ← loop info flexnic_mem (alloc_step s len);
      match r with
      | None => fail EAGAIN
      | Some (ret, (dst_1, len_1, dst_2)) =>
          let len_2 := ret - len_1 in
          modify (fun st => copy dst_2 (buf + len_1) len_2 (copy dst_1 buf len_1 st));;
          _ ← loop info flexnic_mem (send_step s ret);
          mret ret
      end).

(** The rest [len] of the allocated bytes is filled from the iovec on. *)
Fixpoint send_iov (iov : list (Z * Z)) (len off dst_1 len_1 dst_2 len_2 : Z) (st : sockst) : option sockst :=
  match iov with
  | [] => Some st
  | (buf, n) :: iov =>
      if 0 <? len then
        let l := Z.min len n in
        st ← split_write buf l dst_1 len_1 dst_2 len_2 off st;
        send_iov iov (len - l) (off + l) dst_1 len_1 dst_2 len_2 st
      else Some st
  end.

Definition tas_sendmsg (sockfd : Z) (iov : list (Z * Z)) : call Z :=
  with_sock sockfd (fun s =>
    _ ← tas_sock_move info flexnic_mem s;
    st ← get;
    if negb (sendable s st) then fail ENOTCONN
    else if iov_total iov =? 0 then mret 0
    else
      r ← loop info flexnic_mem (alloc_step s (iov_total iov));
      match r with
      | None => fail EAGAIN
      | Some (ret, (dst_1, len_1, dst_2)) =>
          lift_st (send_iov iov ret 0 dst_1 len_1 dst_2 (ret - len_1));;
          _ ← loop info flexnic_mem (send_step s ret);
          mret ret
      end).

Definition tas_write : Z -> Z -> Z -> call Z := send_simple.
Definition tas_send : Z -> Z -> Z -> call Z := send_simple.
Definition tas_sendto : Z -> Z -> Z -> call Z := send_simple.
Definition tas_pwrite : Z -> Z -> Z -> call Z := send_simple.
Definition tas_writev : Z -> list (Z * Z) -> call Z := tas_sendmsg.

(** Not implemented: aborts, for two sockets of the library. *)
Definition tas_sendfile (sockfd in_fd : Z) (st : sockst) : option (Z * sockst) :=
  let '(r, st) := flextcp_fd_slookup sockfd st in
  match r with
  | None => Some (-1, st)
  | Some _ =>
      let '(r, st) := flextcp_fd_slookup in_fd st in
      match r with
      | None => Some (-1, st)
      | Some _ => None
      end
  end.

End Xfer.
