(* ===== verification/EpollThms.v ===== *)
(** * Theorems about epoll *)

From S2P Require Import Prelude FpTypes Links LibTypes LibConn LibPoll LibThms SockTypes Epoll EpollProofs SockCtx SockCtl.

(** ** A process and its calls *)

Section Calls.
Context (info : flexnic_info).

(** The operations on sockets and epoll instances; [p] are the results of calloc. *)
Inductive ecall : Type :=
| C_socket (p : Z) (fd : Z)
| C_create (p : Z) (fd : Z)
| C_set (s evts : Z)
| C_clear (s evts : Z)
| C_close (s : Z)
| C_destroy (e : Z)
| C_ctl (e : Z) (op : epoll_op) (s events data : Z) (p : option Z)
| C_wait (e max : Z).

Definition erun (c : ecall) (st : sockst) : option sockst :=
  match c with
  | C_socket p fd => Some (flextcp_epoll_sockinit p (flextcp_fd_salloc (Some p) (Some fd) st).2)
  | C_create p fd => r ← tas_epoll_create1 (Some fd) (Some p) st; Some r.2
  | C_set s evts => flextcp_epoll_set s evts st
  | C_clear s evts => Some (flextcp_epoll_clear s evts st)
  | C_close s => flextcp_epoll_sockclose s st
  | C_destroy e => flextcp_epoll_destroy e st
  | C_ctl e op s events data p => r ← epoll_ctl_sock info e op s events data p st; Some r.2
  | C_wait e max => r ← ep_poll_report e max st; Some r.2
  end.

(** Allocated memory is not in use, a descriptor from Linux is free, events have 32 bits. *)
Definition epre (c : ecall) (st : sockst) : Prop :=
  match c with
  | C_socket p fd => forall x, live st x -> es_s (ess st x) <> p
  | C_create p fd => fh st fd = FH_UNUSED /\ forall x, live st x -> es_ep (ess st x) <> p
  | C_set s evts => 0 <= evts < 4294967296
  | C_ctl _ _ _ _ _ p => fresh_es p st
  | C_destroy e => ep_refcnt (epo st e) = 0
  | C_wait _ max => 0 <= max
  | _ => True
  end.

(** Whatever else the library does leaves bindings and events alone. *)
Definition elsewhere (st st' : sockst) : Prop :=
  ss_ess st' = ss_ess st /\ ss_eps st' = ss_eps st
  /\ forall s, ep_events (sock st' s) = ep_events (sock st s) /\ so_eps (sock st' s) = so_eps (sock st s).

Inductive ereach : sockst -> Prop :=
| er_start st : ss_ess st = ∅ -> ss_eps st = ∅ -> ss_socks st = ∅ -> ereach st
| er_call st c st' : ereach st -> epre c st -> erun c st = Some st' -> ereach st'
| er_other st st' : ereach st -> elsewhere st st' -> ereach st'.

Lemma inv_start st : ss_ess st = ∅ -> ss_eps st = ∅ -> ss_socks st = ∅ -> epoll_inv st.
Proof.
  intros E1 E2 E3. assert (Hl : forall x, ~ live st x) by (intros x; unfold live; rewrite E1, lookup_empty; by intros [? ?]).
  split; [|by intros x ?%Hl]. exists (fun _ => []), (fun _ => []), (fun _ => []).
  assert (He : forall e, epo st e = inhabitant) by (intros e; unfold epo; by rewrite E2, lookup_total_empty).
  assert (Hs : forall s, sock st s = inhabitant) by (intros s; unfold sock; by rewrite E3, lookup_total_empty).
  assert (Hn : forall x, x ∈ @nil Z <-> False) by (intros x; by rewrite elem_of_nil).
  split; constructor; try (intros x; rewrite ?He, ?Hs); try done.
  - by exists 0.
  - split; apply NoDup_nil_2.
  - intros y. rewrite Hn. split; [done|]. by intros [?%Hl _].
  - intros y. rewrite Hn. split; [done|]. by intros [?%Hl _].
  - by intros ?%Hl.
  - rewrite E1. rewrite map_size_empty. lia.
  - by exists 0.
  - apply NoDup_nil_2.
  - intros y. rewrite Hn. split; [done|]. by intros [?%Hl _].
  - by intros ?%Hl.
Qed.

(** Epoll instances and sockets without bindings can change. *)
Lemma inv_views st st' : ss_ess st' = ss_ess st ->
  (forall e, epo st' e = epo st e \/ (forall x, live st x -> es_ep (ess st x) <> e)
     /\ ep_inactive (epo st' e) = 0 /\ ep_active_first (epo st' e) = 0 /\ ep_active_last (epo st' e) = 0 /\ num_active (epo st' e) = 0) ->
  (forall s, (ep_events (sock st' s) = ep_events (sock st s) /\ so_eps (sock st' s) = so_eps (sock st s))
     \/ ((forall x, live st x -> es_s (ess st x) <> s) /\ so_eps (sock st' s) = 0)) ->
  epoll_inv st -> epoll_inv st'.
Proof.
  intros E1 E2 E3 [(I & A & S & [O1 O2 O3 O4 O5 O6 O7 O8] & [K1 K2 K3 K4]) Hn].
  assert (Hl : forall x, live st' x <-> live st x) by (intros x; unfold live; by rewrite E1).
  assert (Hv : forall x, ess st' x = ess st x) by (intros x; unfold ess; by rewrite E1).
  assert (Hv2 : forall x, nxt st' x = nxt st x /\ prv st' x = prv st x /\ act st' x = act st x /\ snx st' x = snx st x /\ spv st' x = spv st x)
    by (intros x; unfold nxt, prv, act, snx, spv; by rewrite Hv).
  assert (Hnil : forall e, (forall x, live st x -> es_ep (ess st x) <> e) -> I e = [] /\ A e = []).
  { intros e He. split; [destruct (I e) as [|x l] eqn:El|destruct (A e) as [|x l] eqn:El]; try done; exfalso;
      assert (Hx : x ∈ x :: l) by (by left); rewrite <-El in Hx; [apply O5 in Hx|apply O6 in Hx]; destruct Hx as (Hx & He' & _); by apply (He x). }
  split; [exists I, A, S; split; constructor|].
  - intros e. destruct (E2 e) as [->|(He & -> & _)]; [destruct (O1 e) as [t Ht]; exists t; eapply dseg_ext; [|exact Ht]; intros x _; by destruct (Hv2 x) as (-> & -> & _)|].
    exists 0. by destruct (Hnil e He) as [-> _].
  - intros e. destruct (E2 e) as [->|(He & _ & -> & -> & _)]; [eapply dseg_ext; [|exact (O2 e)]; intros x _; by destruct (Hv2 x) as (-> & -> & _)|].
    by destruct (Hnil e He) as [_ ->].
  - intros e. destruct (E2 e) as [->|(He & _ & _ & _ & ->)]; [done|]. by destruct (Hnil e He) as [_ ->].
  - done.
  - intros e x. destruct (Hv2 x) as (_ & _ & -> & _). by rewrite Hl, Hv.
  - intros e x. destruct (Hv2 x) as (_ & _ & -> & _). by rewrite Hl, Hv.
  - intros x. destruct (Hv2 x) as (_ & _ & -> & _). rewrite Hl. apply O7.
  - by rewrite E1.
  - intros s. destruct (K1 s) as [t Ht]. destruct (E3 s) as [[_ ->]|[Hs ->]].
    + exists t. eapply dseg_ext; [|exact Ht]. intros x _. by destruct (Hv2 x) as (_ & _ & _ & -> & ->).
    + exists 0. destruct (S s) as [|x l] eqn:El; [done|]. exfalso. assert (Hx : x ∈ S s) by (rewrite El; by left).
      apply K3 in Hx as (Hx & Hs' & _). by apply (Hs x).
  - done.
  - intros s x. rewrite Hl, Hv. apply K3.
  - intros x. rewrite Hl. apply K4.
  - intros x Hx _ Hw. apply Hl in Hx. destruct (Hv2 x) as (_ & _ & -> & _). apply Hn; [done|apply not_elem_of_nil|].
    unfold wakes in *. rewrite Hv in Hw. destruct (E3 (es_s (ess st x))) as [[<- _]|[Hs _]]; [done|]. by destruct (Hs x).
Qed.

Lemma inv_other st st' : elsewhere st st' -> epoll_inv st -> epoll_inv st'.
Proof.
  intros (E1 & E2 & E3). apply inv_views; [done| |intros s; by left]. intros e. left. unfold epo. by rewrite E2.
Qed.

Lemma inv_create p fd st : epre (C_create p fd) st -> epoll_inv st ->
  exists st', erun (C_create p fd) st = Some st' /\ epoll_inv st'.
Proof.
  intros [Hfd Hp] Hinv. cbn [erun]. unfold tas_epoll_create1, flextcp_fd_ealloc. case_match; [eexists; split; [done|]; by apply (inv_other st)|].
  rewrite bool_decide_true by done. cbn [cassert mbind option_bind]. eexists. split; [done|]. cbn [Datatypes.snd].
  set (st' := upd_epo _ _ _).
  assert (V : forall e, epo st' e = if e =? p then inhabitant <| ep_refcnt := 1 |> else epo st e).
  { intros e. subst st'. rewrite epo_upd_epo. unfold epo. cbn. destruct (Z.eqb_spec e p) as [->|].
    - by rewrite lookup_total_insert_eq.
    - by rewrite lookup_total_insert_ne. }
  apply (inv_views st); [done| |intros s; by left|done]. intros e. rewrite V. destruct (Z.eqb_spec e p) as [->|]; [by right|by left].
Qed.

Lemma inv_socket p fd st : epre (C_socket p fd) st -> epoll_inv st ->
  exists st', erun (C_socket p fd) st = Some st' /\ epoll_inv st'.
Proof.
  intros Hp Hinv. cbn [erun]. eexists. split; [done|].
  apply (inv_views st); [unfold flextcp_fd_salloc; by case_match| | |done].
  - intros e. left. unfold flextcp_fd_salloc. by case_match.
  - intros s. unfold flextcp_epoll_sockinit. rewrite sock_upd_sock. destruct (Z.eqb_spec s p) as [->|Hne]; [by right|]. left.
    unfold flextcp_fd_salloc. case_match; [done|]. unfold sock. cbn. by rewrite lookup_total_insert_ne.
Qed.

Lemma epoll_call_ok c st : epoll_inv st -> epre c st -> exists st', erun c st = Some st' /\ epoll_inv st'.
Proof.
  intros Hinv Hpre. destruct c as [p fd|p fd|s evts|s evts|s|e|e op s events data p|e max].
  - by apply inv_socket.
  - by apply inv_create.
  - destruct (epoll_set_ok s evts st Hpre Hinv) as (st' & E & Hi & _). by exists st'.
  - eexists. split; [done|]. by apply epoll_clear_ok.
  - destruct (epoll_sockclose_ok s st Hinv) as (st' & E & Hi & _). by exists st'.
  - destruct (epoll_destroy_ok e st Hpre Hinv) as (st' & E & Hi & _). by exists st'.
  - destruct (epoll_ctl_ok info e op s events data p st Hinv Hpre) as (y & r & st' & _ & E & Hi & _).
    exists st'. cbn [erun]. by rewrite E.
  - destruct Hinv as [(I & A & S & Hwf) Hn]. destruct (ep_poll_report_ok e max st I A S Hwf Hn Hpre) as (st' & V & R & I' & A' & E & Hwf' & Hn' & _).
    exists st'. cbn [erun]. rewrite E. split; [done|]. split; [by exists I', A', S|done].
Qed.

Lemma reach_inv st : ereach st -> epoll_inv st.
Proof.
  induction 1 as [st E1 E2 E3|st c st' _ IH Hpre E|st st' _ IH He].
  - by apply inv_start.
  - destruct (epoll_call_ok c st IH Hpre) as (st2 & E2 & Hi). congruence.
  - by apply (inv_other st).
Qed.

(** in every state that the calls can reach, a binding whose socket has an event of its
    mask is in the queue of its epoll instance, the queue runs from the first to the last
    pointer of the instance without a cycle, and no call aborts or loops. *)
Theorem epoll_never_overlooks st : ereach st ->
  (exists Q, (forall x, live st x -> wakes x st = true -> x ∈ Q (es_ep (ess st x)))
    /\ forall e, NoDup (Q e) /\ dseg (nxt st) (prv st) 0 (ep_active_first (epo st e)) (Q e) (ep_active_last (epo st e)) 0
         /\ num_active (epo st e) = Z.of_nat (length (Q e)))
  /\ forall c, epre c st -> is_Some (erun c st).
Proof.
  intros Hinv%reach_inv.
  split; [|intros c Hpre; by destruct (epoll_call_ok c st Hinv Hpre) as (st' & -> & _)].
  destruct Hinv as [(I & A & S & Hep & _) Hn]. exists A. split.
  - intros x Hl Hw. apply (eo_A _ _ _ _ Hep). split_and!; try done. by apply Hn; [|apply not_elem_of_nil|].
  - intros e. split; [apply (eo_nodup _ _ _ _ Hep)|]. split; [apply (eo_act _ _ _ _ Hep)|apply (eo_num _ _ _ _ Hep)].
Qed.
End Calls.

(** ** What a wait reports *)

Lemma elem_of_ready st l x : x ∈ ready st l <-> wakes x st = true /\ x ∈ l.
Proof. unfold ready. by rewrite list_elem_of_filter. Qed.

(** a poll of an epoll instance reports at most the events asked for, each of a binding
    of the instance whose socket has the event, in the order of the queue and each binding
    once; with room left it reports all such bindings. *)
Theorem ep_poll_reports e max st : epoll_inv st -> 0 < max ->
  exists st' l, ep_poll_report e max st = Some (map (es_event st) l, st') /\ epoll_inv st'
  /\ NoDup l /\ Z.of_nat (length l) <= max
  /\ (forall x, x ∈ l -> live st x /\ es_ep (ess st x) = e /\ (es_event st x).1 <> 0)
  /\ (Z.of_nat (length l) < max -> forall x, live st x -> es_ep (ess st x) = e -> (es_event st x).1 <> 0 -> x ∈ l)
  /\ (forall s, sock st' s = sock st s).
Proof.
  intros [(I & A & S & Hwf) Hn] Hmax.
  destruct (ep_poll_report_ok e max st I A S Hwf Hn ltac:(lia)) as (st' & V & R & I' & A' & E & Hwf' & Hn' & Hf & HA & _ & _ & Hc & Hle).
  pose proof (proj1 Hwf) as Hep.
  assert (Hw : forall x, wakes x st = true <-> (es_event st x).1 <> 0).
  { intros x. unfold wakes, any_flag. rewrite negb_true_iff. cbn. apply Z.eqb_neq. }
  exists st', (ready st V). split; [done|]. split; [split; [by exists I', A', S|done]|].
  destruct (eo_nodup _ _ _ _ Hep e) as [_ Hnd]. rewrite HA in Hnd.
  split; [apply NoDup_filter; by apply NoDup_app in Hnd as [? _]|]. split; [done|]. split; [|split].
  - intros x [Hx1 Hx2]%elem_of_ready. assert (Hx : x ∈ A e) by (rewrite HA; apply elem_of_app; by left).
    apply (eo_A _ _ _ _ Hep) in Hx as (Hl & He & _). by split_and!; [| |apply Hw].
  - intros Hlt x Hl He Hx. destruct Hc as [->|Hc]; [|lia]. apply Hw in Hx. apply elem_of_ready. split; [done|].
    rewrite app_nil_r in HA. rewrite <-HA. apply (eo_A _ _ _ _ Hep). split_and!; try done. by apply Hn; [|apply not_elem_of_nil|].
  - intros s. unfold sock. by rewrite (ef_sock _ _ Hf).
Qed.

(** ** Nobody starves *)

(** [k] polls without events in between. *)
Fixpoint polls (k : nat) (e max : Z) (st : sockst) : option (list (Z * Z) * sockst) :=
  match k with
  | O => Some ([], st)
  | S k => '(evs, st) ← ep_poll_report e max st; '(evs', st) ← polls k e max st; Some (evs ++ evs', st)
  end.

(** The first [P] bindings of the queue are served before the rest. *)
Lemma polls_serve e max : 0 < max -> forall k P Q st I A S, epoll_wf st I A S -> no_lost st [] -> A e = P ++ Q ->
  Z.of_nat (length (ready st P)) <= Z.of_nat k * max ->
  exists evs st', polls k e max st = Some (evs, st') /\ epoll_inv st' /\ forall x, x ∈ ready st P -> es_event st x ∈ evs.
Proof.
  intros Hmax. induction k as [|k IH]; intros P Q st I A S Hwf Hn HA Hk.
  - exists [], st. split; [done|]. split; [split; [by exists I, A, S|done]|]. destruct (ready st P); [|cbn in Hk; lia].
    by intros x ?%elem_of_nil.
  - destruct (ep_poll_report_ok e max st I A S Hwf Hn ltac:(lia)) as (st1 & V & R & I1 & A1 & E & Hwf1 & Hn1 & Hf & HV & HA1 & _ & Hc & _).
    cbn [polls]. rewrite E. cbn [mbind option_bind].
    assert (Hgo : exists P' Q', A1 e = P' ++ Q' /\ (forall x, x ∈ P -> x ∈ V \/ x ∈ P')
        /\ Z.of_nat (length (ready st P')) <= Z.of_nat k * max).
    { rewrite HV in HA. apply app_eq_inv in HA as [(W & -> & ->)|(W & -> & ->)].
      - exists [], (A1 e). split; [done|]. split; [intros x Hx; left; apply elem_of_app; by left|]. cbn. lia.
      - exists W, (Q ++ ready st V). split; [by rewrite HA1, <-app_assoc|]. split; [by intros x Hx%elem_of_app|].
        destruct Hc as [Hnil|Hc]; [apply app_eq_nil in Hnil as [-> _]; cbn; lia|].
        unfold ready in *. rewrite filter_app, length_app in Hk. lia. }
    destruct Hgo as (P' & Q' & HA' & Hsub & Hk').
    destruct (IH P' Q' st1 I1 A1 S Hwf1 Hn1 HA') as (evs & st2 & -> & Hinv2 & Hserve); [by rewrite (ready_frame _ _ _ Hf)|].
    eexists _, st2. split; [done|]. split; [done|]. intros x [Hw Hx]%elem_of_ready. apply elem_of_app.
    destruct (Hsub x Hx) as [Hx'|Hx'].
    + left. apply list_elem_of_fmap. exists x. split; [done|]. by apply elem_of_ready.
    + right. rewrite <-(es_event_frame _ _ _ Hf). apply Hserve. rewrite (ready_frame _ _ _ Hf). by apply elem_of_ready.
Qed.

(** no ready socket starves: when an epoll instance has at most [k * max] bindings with
    an event, each of them is reported by one of the next [k] polls for [max] events. *)
Theorem epoll_no_starvation e max k st x (bs : list Z) : epoll_inv st -> 0 < max ->
  NoDup bs -> (forall y, y ∈ bs <-> live st y /\ es_ep (ess st y) = e /\ wakes y st = true) ->
  Z.of_nat (length bs) <= Z.of_nat k * max -> x ∈ bs ->
  exists evs st', polls k e max st = Some (evs, st') /\ epoll_inv st' /\ es_event st x ∈ evs.
Proof.
  intros [(I & A & S & Hwf) Hn] Hmax Hnd Hbs Hk Hx. pose proof (proj1 Hwf) as Hep.
  assert (Hin : forall y, y ∈ bs -> y ∈ ready st (A e)).
  { intros y Hy. apply Hbs in Hy as (Hl & He & Hw). apply elem_of_ready. split; [done|].
    apply (eo_A _ _ _ _ Hep). split_and!; try done. by apply Hn; [|apply not_elem_of_nil|]. }
  assert (Hlen : (length (ready st (A e)) <= length bs)%nat).
  { apply submseteq_length, NoDup_submseteq; [apply NoDup_filter, (eo_nodup _ _ _ _ Hep)|].
    intros y [Hw Hy]%elem_of_ready. apply Hbs. by apply (eo_A _ _ _ _ Hep) in Hy as (? & ? & _). }
  destruct (polls_serve e max Hmax k (A e) [] st I A S Hwf Hn) as (evs & st' & E & Hi & Hs); [by rewrite app_nil_r|lia|].
  exists evs, st'. split; [done|]. split; [done|]. apply Hs, Hin, Hx.
Qed.

(** ** The count of sockets *)

(** A DEL of a socket that is not on the epoll instance fails, but is counted: of an instance
    with one socket the next wait does not look at the library at all. *)
Theorem epoll_del_absent_hides info fm e epfd s max timeout ms env st : epoll_inv st ->
  (forall x, live st x -> es_s (ess st x) = s -> es_ep (ess st x) <> e) ->
  fh st epfd = FH_EPOLL e -> epfd < MAXSOCK -> 0 < max -> num_tas (epo st e) = 1 ->
  exists st', epoll_ctl_sock info e EPOLL_CTL_DEL s 0 0 None st = Some (Some ENOENT, st')
  /\ tas_epoll_wait info fm epfd max timeout ms env st' = W_linux st'
  /\ forall x, live st' x <-> live st x.
Proof.
  intros Hinv Hno Hfh Hfd Hmax Hnum.
  destruct (epoll_ctl_ok info e EPOLL_CTL_DEL s 0 0 None st Hinv ltac:(done)) as (y & r & st' & Hy & E & _ & Hpost).
  destruct Hy as [[-> _]|(_ & Hl & Hs & He)]; [|by destruct (Hno y Hl Hs)].
  assert (Hst : (r, st') = (Some ENOENT, upd_epo e (fun v => v <| num_tas ::= fun n => u32 (n - 1) |>) st)).
  { destruct (es_find_ok e s st Hinv) as (y & Ey & Hy). destruct Hy as [[-> _]|(_ & Hl & Hs & He)]; [|by destruct (Hno y Hl Hs)].
    unfold epoll_ctl_sock in E. rewrite Ey in E. cbn [mbind option_bind] in E. rewrite bool_decide_false in E by (by intros [?|?]).
    cbn [andb Z.eqb] in E. by injection E as <- <-. }
  injection Hst as -> ->. eexists. split; [exact E|]. split; [|done].
  unfold tas_epoll_wait. rewrite (proj2 (Z.leb_gt max 0)) by lia. unfold flextcp_fd_elookup. rewrite (proj2 (Z.leb_gt MAXSOCK epfd)) by lia.
  change (fh (upd_epo ?a ?b st) epfd) with (fh st epfd). rewrite Hfh. rewrite epo_upd_epo, Z.eqb_refl. cbn [num_tas setf]. by rewrite Hnum.
Qed.

(** ** An example *)

Module ExEpoll.
Definition info : flexnic_info := mk_finfo 100 100.
Definition empty : sockst := mk_sockst ∅ ∅ ∅ ∅ (ex_lst ex_lconn 2 []) 0 0 (fun _ => 0) EINVAL.

(** An epoll instance, two sockets, the first one on the instance, and data for it. *)
Definition calls : list ecall :=
  [C_create 10 3; C_socket 5 4; C_socket 6 7; C_ctl 10 EPOLL_CTL_ADD 5 EPOLLIN 77 (Some 30); C_set 5 EPOLLIN].
Definition after (n : nat) : sockst := foldl (fun st c => default st (erun info c st)) empty (take n calls).

Lemma step n c : ereach info (after n) -> epre c (after n) -> erun info c (after n) = Some (after (S n)) -> ereach info (after (S n)).
Proof. intros Hr Hp E. by apply (er_call info (after n) c). Qed.

Lemma no_live n : (n <= 3)%nat -> forall x, ~ live (after n) x.
Proof.
  intros Hn x [v Hv]. assert (E : ss_ess (after n) = ∅) by (do 4 (destruct n as [|n]; [by vm_compute|]); lia).
  by rewrite E, lookup_empty in Hv.
Qed.

Lemma reach_4 : ereach info (after 4).
Proof.
  apply (step 3 (C_ctl 10 EPOLL_CTL_ADD 5 EPOLLIN 77 (Some 30))); [| |by vm_compute].
  - apply (step 2 (C_socket 6 7)); [|by intros x ?%no_live; [|lia]|by vm_compute].
    apply (step 1 (C_socket 5 4)); [|by intros x ?%no_live; [|lia]|by vm_compute].
    apply (step 0 (C_create 10 3)); [by apply er_start| |by vm_compute].
    split; [done|]. by intros x ?%no_live; [|lia].
  - intros x [= <-]. split; [by apply no_live; lia|]. split; [done|]. by vm_compute.
Qed.

Lemma reach_5 : ereach info (after 5).
Proof. apply (step 4 (C_set 5 EPOLLIN)); [exact reach_4|done|by vm_compute]. Qed.
End ExEpoll.

(** The data of the socket is found. *)
Lemma epoll_never_overlooks_witness : wakes 30 (ExEpoll.after 5) = true
  /\ (exists Q, (forall x, live (ExEpoll.after 5) x -> wakes x (ExEpoll.after 5) = true -> x ∈ Q (es_ep (ess (ExEpoll.after 5) x)))
    /\ forall e, NoDup (Q e) /\ dseg (nxt (ExEpoll.after 5)) (prv (ExEpoll.after 5)) 0 (ep_active_first (epo (ExEpoll.after 5) e)) (Q e)
           (ep_active_last (epo (ExEpoll.after 5) e)) 0
         /\ num_active (epo (ExEpoll.after 5) e) = Z.of_nat (length (Q e)))
  /\ forall c, epre c (ExEpoll.after 5) -> is_Some (erun ExEpoll.info c (ExEpoll.after 5)).
Proof. split; [by vm_compute|]. exact (epoll_never_overlooks ExEpoll.info (ExEpoll.after 5) ExEpoll.reach_5). Defined.

Lemma ep_poll_reports_witness : exists st' l, ep_poll_report 10 4 (ExEpoll.after 5) = Some (map (es_event (ExEpoll.after 5)) l, st')
  /\ epoll_inv st' /\ NoDup l /\ Z.of_nat (length l) <= 4
  /\ (forall x, x ∈ l -> live (ExEpoll.after 5) x /\ es_ep (ess (ExEpoll.after 5) x) = 10 /\ (es_event (ExEpoll.after 5) x).1 <> 0)
  /\ (Z.of_nat (length l) < 4 -> forall x, live (ExEpoll.after 5) x -> es_ep (ess (ExEpoll.after 5) x) = 10 ->
        (es_event (ExEpoll.after 5) x).1 <> 0 -> x ∈ l)
  /\ (forall s, sock st' s = sock (ExEpoll.after 5) s).
Proof. exact (ep_poll_reports 10 4 (ExEpoll.after 5) (reach_inv _ _ ExEpoll.reach_5) eq_refl). Defined.

Lemma ex_ready : forall y, y ∈ [30] <-> live (ExEpoll.after 5) y /\ es_ep (ess (ExEpoll.after 5) y) = 10 /\ wakes y (ExEpoll.after 5) = true.
Proof.
  intros y. assert (E : dom (ss_ess (ExEpoll.after 5)) = {[30]}) by by vm_compute.
  rewrite list_elem_of_singleton. unfold live. rewrite <-elem_of_dom, E, elem_of_singleton. split; [|by intros [? _]].
  intros ->. split; [done|]. by vm_compute.
Qed.

Lemma epoll_no_starvation_witness : exists evs st', polls 1 10 1 (ExEpoll.after 5) = Some (evs, st') /\ epoll_inv st'
  /\ es_event (ExEpoll.after 5) 30 ∈ evs.
Proof.
  apply (epoll_no_starvation 10 1 1 (ExEpoll.after 5) 30 [30] (reach_inv _ _ ExEpoll.reach_5) eq_refl).
  - apply NoDup_singleton.
  - exact ex_ready.
  - by vm_compute.
  - by left.
Defined.

Lemma epoll_del_absent_hides_witness : exists st', epoll_ctl_sock ExEpoll.info 10 EPOLL_CTL_DEL 6 0 0 None (ExEpoll.after 5) = Some (Some ENOENT, st')
  /\ tas_epoll_wait ExEpoll.info 0 3 8 (-1) 0 [] st' = W_linux st'
  /\ forall x, live st' x <-> live (ExEpoll.after 5) x.
Proof.
  apply (epoll_del_absent_hides ExEpoll.info 0 10 3 6 8 (-1) 0 [] (ExEpoll.after 5) (reach_inv _ _ ExEpoll.reach_5)).
  - intros x Hl Hs. assert (Hx : x ∈ dom (ss_ess (ExEpoll.after 5))) by by apply elem_of_dom.
    assert (E : dom (ss_ess (ExEpoll.after 5)) = {[30]}) by by vm_compute. rewrite E in Hx. apply elem_of_singleton in Hx as ->.
    assert (E5 : es_s (ess (ExEpoll.after 5) 30) = 5) by (vm_compute; reflexivity). rewrite E5 in Hs. discriminate Hs.
  - by vm_compute.
  - by vm_compute.
  - done.
  - by vm_compute.
Defined.
