(* ===== verification/XferThms.v ===== *)
(** * Theorems about receiving and sending

    [sock_rx]: the received data a socket holds in two pieces is the window [D, R) of the
    stream in the receive buffer. *)

From S2P Require Import Prelude FpTypes SpTypes LibTypes LibConn LibPoll LibThms LibProofs SockTypes Epoll EpollProofs EpollThms SockCtx SockCtl SockXfer.

Record sock_rx (c : socket_conn) (lc : flextcp_connection) (R D : Z) : Prop := mk_sock_rx {
  sx_rep : rx_rep lc R D;
  sx_head : rxb_head lc = R mod rxb_len lc;
  sx_len1 : rx_len_1 c = Z.min (R - D) (rxb_len lc - D mod rxb_len lc);
  sx_len2 : rx_len_2 c = R - D - rx_len_1 c;
  sx_buf1 : D < R -> rx_buf_1 c = rxb_base lc + D mod rxb_len lc;
  sx_buf2 : 0 < rx_len_2 c -> rx_buf_2 c = rxb_base lc }.

(** The addresses of the data a socket holds, in order. *)
Definition sock_bytes (c : socket_conn) : list Z := seqZ (rx_buf_1 c) (rx_len_1 c) ++ seqZ (rx_buf_2 c) (rx_len_2 c).

Lemma sock_rx_bytes c lc R D : sock_rx c lc R D -> sock_bytes c = rx_addrs lc D (R - D).
Proof.
  intros [[Hl Hle Hh Hu] Hhd E1 E2 B1 B2]. unfold sock_bytes. pose proof (Z.mod_pos_bound D (rxb_len lc) ltac:(lia)) as Hm.
  replace (R - D) with (rx_len_1 c + rx_len_2 c) at 1 by lia. rewrite rx_addrs_app by lia. f_equal.
  - destruct (decide (rx_len_1 c = 0)) as [->|Hn]; [done|]. rewrite B1 by lia.
    symmetry. apply rx_addrs_seq; [lia|lia|by rewrite Z.mod_mod by lia|lia].
  - destruct (decide (rx_len_2 c = 0)) as [->|Hn]; [done|]. rewrite B2 by lia.
    rewrite <-(Z.add_0_r (rxb_base lc)). symmetry. apply rx_addrs_seq; [lia|lia| |lia].
    rewrite Z.mod_0_l by lia. symmetry. apply Z.mod_divide; [lia|]. exists (D / rxb_len lc + 1).
    pose proof (Z.div_mod D (rxb_len lc) ltac:(lia)). nia.
Qed.

Lemma mod_wrap n D R : 0 < n -> 0 <= R - D <= n ->
  R mod n = if D mod n + (R - D) <? n then D mod n + (R - D) else D mod n + (R - D) - n.
Proof.
  intros Hn Hd. pose proof (Z.mod_pos_bound D n Hn) as Hm.
  pose proof (wrap_pos n D (D mod n) (R - D) Hn ltac:(lia) eq_refl ltac:(lia)) as E.
  replace (D + (R - D)) with R in E by lia. rewrite <-E. destruct (Z.leb_spec n (D mod n + (R - D))), (Z.ltb_spec (D mod n + (R - D)) n); lia || done.
Qed.

(** One event for [m] bytes at the head of the window that do not run past the buffer. *)
Lemma rx_append_fields c lc R D m : sock_rx c lc R D -> 0 < m -> R + m <= D + rxb_len lc -> R mod rxb_len lc + m <= rxb_len lc ->
  exists c', rx_append (rxb_base lc + R mod rxb_len lc) m c = Some c'
  /\ rx_len_1 c' = Z.min (R + m - D) (rxb_len lc - D mod rxb_len lc) /\ rx_len_2 c' = R + m - D - rx_len_1 c'
  /\ rx_buf_1 c' = rxb_base lc + D mod rxb_len lc /\ (0 < rx_len_2 c' -> rx_buf_2 c' = rxb_base lc)
  /\ sc_status c' = sc_status c.
Proof.
  intros [[Hl Hle Hh Hu] Hhd E1 E2 B1 B2] Hm Hfit Hrun. pose proof (Z.mod_pos_bound D (rxb_len lc) ltac:(lia)) as HD.
  pose proof (mod_wrap (rxb_len lc) D R ltac:(lia) ltac:(lia)) as HR. unfold rx_append.
  assert (HR' : R mod rxb_len lc = D mod rxb_len lc + (R - D) \/ R mod rxb_len lc = D mod rxb_len lc + (R - D) - rxb_len lc /\ rxb_len lc <= D mod rxb_len lc + (R - D))
    by (destruct (Z.ltb_spec (D mod rxb_len lc + (R - D)) (rxb_len lc)); lia). clear HR.
  destruct (Z.eqb_spec (rx_len_1 c) 0) as [E0|E0].
  - assert (R = D) as -> by lia. eexists. split; [done|]. cbn. split_and!; try done; lia.
  - rewrite B1 by lia. destruct (Z.eqb_spec (rx_len_2 c) 0) as [E20|E20]; cbn [andb].
    + destruct (Z.eqb_spec (rxb_base lc + R mod rxb_len lc) (rxb_base lc + D mod rxb_len lc + rx_len_1 c)) as [Eb|Eb].
      * eexists. split; [done|]. cbn. rewrite B1 by lia. split_and!; try done; lia.
      * assert (HR0 : R mod rxb_len lc = 0) by lia.
        destruct (Z.eqb_spec (rxb_base lc + R mod rxb_len lc) (rx_buf_2 c + rx_len_2 c)) as [Eb2|Eb2].
        -- eexists. split; [done|]. cbn. rewrite B1 by lia. split_and!; try done; lia.
        -- cbn [cassert mbind option_bind]. eexists. split; [done|]. cbn. rewrite B1 by lia. split_and!; try done; lia.
    + assert (HR0 : R mod rxb_len lc = rx_len_2 c) by lia. rewrite B2 by lia.
      rewrite HR0, Z.eqb_refl. eexists. split; [done|]. cbn. rewrite B1, B2 by lia. split_and!; try done; lia.
Qed.

Lemma rx_update_same b lc : rxb_len (rx_update b lc) = rxb_len lc /\ rxb_base (rx_update b lc) = rxb_base lc.
Proof. unfold rx_update. by case_match. Qed.

(** The update for [b] bytes moves the window. *)
Lemma rx_update_head lc R D b : rx_rep lc R D -> rxb_head lc = R mod rxb_len lc -> 0 < b <= D + rxb_len lc - R ->
  rxb_head (rx_update b lc) = (R + b) mod rxb_len lc.
Proof.
  intros [Hl Hle _ _] Hhd Hb. pose proof (Z.mod_pos_bound R (rxb_len lc) ltac:(lia)) as HR.
  unfold rx_update. rewrite (proj2 (Z.ltb_lt 0 b)) by lia. cbn [negb rxb_head setf]. unfold ring_wrap. rewrite Hhd, u32_id by cside.
  apply wrap_pos; [lia|lia|done|lia].
Qed.

Lemma rx_append_ok c lc R D m : sock_rx c lc R D -> 0 < m -> R + m <= D + rxb_len lc -> R mod rxb_len lc + m <= rxb_len lc ->
  exists c', rx_append (rxb_base lc + R mod rxb_len lc) m c = Some c' /\ sc_status c' = sc_status c
  /\ sock_rx c' (rx_update m lc) (R + m) D.
Proof.
  intros Hrx Hm Hfit Hrun. destruct (rx_append_fields _ _ _ _ m Hrx Hm Hfit Hrun) as (c' & E & F1 & F2 & F3 & F4 & F5).
  exists c'. split; [done|]. split; [done|]. destruct (rx_update_same m lc) as [El Eb]. pose proof (sx_rep _ _ _ _ Hrx) as Hr.
  constructor; rewrite ?El, ?Eb; try done; [apply rx_update_rep; [done|lia]|].
  apply (rx_update_head lc R D); [done|apply (sx_head _ _ _ _ Hrx)|lia].
Qed.

(** Only the receive buffer of the connection counts. *)
Lemma sock_rx_same c lc lc' R D : rxb_len lc' = rxb_len lc -> rxb_base lc' = rxb_base lc -> rx_rep lc' R D ->
  rxb_head lc' = R mod rxb_len lc' -> sock_rx c lc R D -> sock_rx c lc' R D.
Proof. intros El Eb Hr Hh [_ _ E1 E2 B1 B2]. constructor; rewrite ?El, ?Eb; try done. by rewrite <-El. Qed.

(** ** Received data *)

Lemma sconn_upd s f st : sconn (upd_sconn s f st) s = f (sconn st s).
Proof. unfold sconn, upd_sconn. by rewrite sock_upd_sock, Z.eqb_refl. Qed.

(** A change of the connection part of a socket. *)
Lemma inv_sconn s f st : epoll_inv st -> epoll_inv (upd_sconn s f st).
Proof.
  apply inv_other. split; [done|]. split; [done|]. intros p. unfold upd_sconn. rewrite sock_upd_sock.
  destruct (Z.eqb_spec p s) as [->|]; done.
Qed.

Lemma ev_frame_sconn st st' s : ev_frame st st' -> sconn st' s = sconn st s /\ so_type (sock st' s) = so_type (sock st s)
  /\ so_flags (sock st' s) = so_flags (sock st s).
Proof. intros [H _]. unfold sconn. by destruct (H s) as [ev ->]. Qed.

(** The bindings of [s] that ask for [ev] are in the queues of their instances. *)
Definition queued (s ev : Z) (st : sockst) : Prop :=
  forall x, live st x -> es_s (ess st x) = s -> Z.land ev (es_mask (ess st x)) <> 0 -> act st x = 1.

Definition open_sock (s : Z) (st : sockst) : Prop := so_type (sock st s) = SOCK_CONNECTION /\ sc_status (sconn st s) = SOC_CONNECTED.

Lemma received_one s buf len st c' : epoll_inv st -> open_sock s st -> rx_append buf len (sconn st s) = Some c' ->
  sc_status c' = SOC_CONNECTED ->
  exists st', ev_conn_received s buf len st = Some st' /\ epoll_inv st' /\ open_sock s st' /\ sconn st' s = c' /\ ss_lib st' = ss_lib st
  /\ ss_mem st' = ss_mem st /\ queued s EPOLLIN st'.
Proof.
  intros Hinv [Ht Hs] Ha Hc. unfold ev_conn_received, status_is, is_connection. rewrite Hs, Ht.
  rewrite bool_decide_false by done. rewrite !bool_decide_true by done. cbn [cassert mbind option_bind]. rewrite Ha. cbn [mbind option_bind].
  set (st1 := upd_sconn s _ st). assert (Hinv1 : epoll_inv st1) by by apply inv_sconn.
  destruct (epoll_set_ok s EPOLLIN st1 ltac:(by unfold EPOLLIN) Hinv1) as (st' & E & Hinv' & Hf & Hq). exists st'.
  destruct (ev_frame_sconn _ _ s Hf) as (E1 & E2 & _). destruct (vf_rest _ _ Hf) as (E3 & E4 & _).
  assert (Hc1 : sconn st1 s = c') by (unfold st1; by rewrite sconn_upd).
  assert (Ht1 : so_type (sock st1 s) = SOCK_CONNECTION) by (unfold st1, upd_sconn; by rewrite sock_upd_sock, Z.eqb_refl).
  split; [done|]. split; [done|]. split; [|by rewrite E1, E3, E4]. split; [by rewrite E2|by rewrite E1, Hc1].
Qed.

(** C36: the events of received bytes of an update hand a connected socket exactly these bytes,
    in the order of the stream: the socket never sees more than two pieces (the case the
    code aborts on), its data is the window of the receive buffer that the application has
    not read, and every epoll instance that waits for data of the socket has it in its queue. *)
Theorem sock_received_in_order info s lc b st R D : epoll_inv st -> open_sock s st -> sock_rx (sconn st s) lc R D ->
  0 < b <= D + rxb_len lc - R ->
  exists st', sock_events info (rx_events s lc b) st = Some st' /\ epoll_inv st' /\ open_sock s st'
  /\ sock_rx (sconn st' s) (rx_update b lc) (R + b) D
  /\ sock_bytes (sconn st' s) = sock_bytes (sconn st s) ++ events_bytes s (rx_events s lc b)
  /\ ss_mem st' = ss_mem st /\ queued s EPOLLIN st'.
Proof.
  intros Hinv Hop Hrx Hb. pose proof (sx_rep _ _ _ _ Hrx) as Hr. pose proof (rr_len _ _ _ Hr) as Hl. pose proof (rr_le _ _ _ Hr) as Hle.
  pose proof (sx_head _ _ _ _ Hrx) as Hhd. pose proof (Z.mod_pos_bound R (rxb_len lc) ltac:(lia)) as HR.
  pose proof (rx_update_rep lc R D b Hr ltac:(lia)) as Hr'. pose proof (rx_update_head _ _ _ _ Hr Hhd Hb) as Hhd'.
  destruct (rx_update_same b lc) as [El Eb].
  assert (Hfin : forall st', sock_rx (sconn st' s) (rx_update b lc) (R + b) D ->
    sock_bytes (sconn st' s) = sock_bytes (sconn st s) ++ events_bytes s (rx_events s lc b)).
  { intros st' Hst'. rewrite (sock_rx_bytes _ _ _ _ Hst'), (sock_rx_bytes _ _ _ _ Hrx), (rx_events_bytes s lc R D b Hr) by lia.
    unfold rx_addrs at 1. rewrite El, Eb. change (rx_addrs lc D (R + b - D) = rx_addrs lc D (R - D) ++ rx_addrs lc R b).
    replace (R + b - D) with ((R - D) + b) by lia. rewrite rx_addrs_app by lia. do 2 f_equal. lia. }
  unfold rx_events, rx_wraps in *. rewrite (proj2 (Z.ltb_lt 0 b)) in * by lia. cbn [negb] in *.
  rewrite Hhd, (u32_id (R mod rxb_len lc + b)) in * by cside. destruct (Z.ltb_spec (rxb_len lc) (R mod rxb_len lc + b)) as [Hw|Hw].
  - rewrite (u32_id (rxb_len lc - R mod rxb_len lc)) in * by cside. set (m := rxb_len lc - R mod rxb_len lc) in *.
    rewrite (u32_id (b - m)) in * by cside. destruct (rx_update_same m lc) as [Elm Ebm].
    destruct (rx_append_ok _ _ _ _ m Hrx ltac:(lia) ltac:(lia) ltac:(lia)) as (c1 & Ha1 & F5 & Hrx1).
    destruct (received_one s _ _ st c1 Hinv Hop Ha1) as (st1 & E1 & Hinv1 & Hop1 & Hc1 & HL1 & HM1 & _); [rewrite F5; apply Hop|].
    assert (Hrm : (R + m) mod rxb_len lc = 0).
    { unfold m. apply Z.mod_divide; [lia|]. exists (R / rxb_len lc + 1). pose proof (Z.div_mod R (rxb_len lc) ltac:(lia)). nia. }
    rewrite <-Hc1 in Hrx1.
    destruct (rx_append_ok _ _ _ _ (b - m) Hrx1) as (c2 & Ha2 & G5 & Hrx2); [lia|rewrite Elm; lia|rewrite Elm, Hrm; lia|].
    rewrite Elm, Ebm, Hrm, Z.add_0_r in Ha2. replace (R + m + (b - m)) with (R + b) in Hrx2 by lia.
    destruct (received_one s _ _ st1 c2 Hinv1 Hop1 Ha2) as (st2 & E2 & Hinv2 & Hop2 & Hc2 & HL2 & HM2 & Hq); [rewrite G5, Hc1, F5; apply Hop|].
    exists st2. cbn [sock_events sock_event]. rewrite E1. cbn [mbind option_bind]. rewrite E2. cbn [mbind option_bind].
    assert (Hrx3 : sock_rx (sconn st2 s) (rx_update b lc) (R + b) D).
    { rewrite Hc2. destruct (rx_update_same (b - m) (rx_update m lc)) as [El2 Eb2].
      apply (sock_rx_same _ (rx_update (b - m) (rx_update m lc))); [congruence|congruence|done|by rewrite El|done]. }
    split_and!; try done; [by apply Hfin|by rewrite HM2].
  - destruct (rx_append_ok _ _ _ _ b Hrx ltac:(lia) ltac:(lia) ltac:(lia)) as (c1 & Ha1 & F5 & Hrx1).
    destruct (received_one s _ _ st c1 Hinv Hop Ha1) as (st1 & E1 & Hinv1 & Hop1 & Hc1 & HL1 & HM1 & Hq); [rewrite F5; apply Hop|].
    exists st1. cbn [sock_events sock_event]. rewrite E1. cbn [mbind option_bind]. rewrite <-Hc1 in Hrx1.
    split_and!; try done; by apply Hfin.
Qed.

(** ** Reading *)

(** The two pieces are the window [D, R) of a ring of [L] bytes at [base]. *)
Record pieces (c : socket_conn) (base L R D : Z) : Prop := mk_pieces {
  pc_len1 : rx_len_1 c = Z.min (R - D) (L - D mod L);
  pc_len2 : rx_len_2 c = R - D - rx_len_1 c;
  pc_buf1 : D < R -> rx_buf_1 c = base + D mod L;
  pc_buf2 : 0 < rx_len_2 c -> rx_buf_2 c = base }.

Lemma sock_rx_pieces c lc R D : sock_rx c lc R D <->
  rx_rep lc R D /\ rxb_head lc = R mod rxb_len lc /\ pieces c (rxb_base lc) (rxb_len lc) R D.
Proof.
  split; [intros [H1 H2 H3 H4 H5 H6]; split; [done|split; [done|by constructor]]|intros (H1 & H2 & [H3 H4 H5 H6]); by constructor].
Qed.

(** What copying leaves alone. *)
Definition copy_frame (st st' : sockst) : Prop :=
  (exists socks m, st' = st <| ss_socks := socks |> <| ss_mem := m |>)
  /\ forall p, exists c, sock st' p = sock st p <| so_conn := c |>.

Lemma copy_mem dst src len st : ss_mem (copy dst src len st) = memcpy dst src len (ss_mem st).
Proof. done. Qed.

Lemma shift_pieces_ok c base L R D : pieces c base L R D -> 0 < L -> 0 <= R - D <= L ->
  pieces (shift_pieces c) base L R (D + rx_len_1 c).
Proof.
  intros [E1 E2 B1 B2] HL Hu. pose proof (Z.mod_pos_bound D L HL) as HD.
  destruct (decide (rx_len_2 c = 0)) as [Ez|Ez].
  - assert (D + rx_len_1 c = R) as -> by lia. pose proof (Z.mod_pos_bound R L HL). constructor; cbn; lia.
  - assert (Ew : (D + rx_len_1 c) mod L = 0).
    { apply Z.mod_divide; [lia|]. exists (D / L + 1). pose proof (Z.div_mod D L ltac:(lia)). nia. }
    constructor; cbn; rewrite ?Ew, ?B2 by lia; lia.
Qed.

Lemma take_piece_ok c base L R D n : pieces c base L R D -> 0 < L -> 0 <= R - D <= L -> 0 <= n <= rx_len_1 c ->
  (n = rx_len_1 c -> rx_len_2 c = 0) -> pieces (take_piece n c) base L R (D + n).
Proof.
  intros [E1 E2 B1 B2] HL Hu Hn Hz. pose proof (Z.mod_pos_bound D L HL) as HD.
  destruct (decide (D + n = R)) as [E|E].
  - rewrite E. pose proof (Z.mod_pos_bound R L HL). constructor; cbn; lia.
  - assert (Ew : (D + n) mod L = D mod L + n).
    { rewrite <-Z.add_mod_idemp_l by lia. apply Z.mod_small. lia. }
    constructor; cbn; rewrite ?Ew; lia.
Qed.

(** The bytes at [buf] on are those of the window from [D] on. *)
Definition copied (m m' : mem) (buf n base L D : Z) : Prop :=
  forall a, m' a = if (buf <=? a) && (a <? buf + n) then m (base + (D + (a - buf)) mod L) else m a.

Lemma copy_ring m buf base L D n : 0 < L -> 0 <= n -> D mod L + n <= L ->
  copied m (memcpy buf (base + D mod L) n m) buf n base L D.
Proof.
  intros HL Hn Hf a. unfold memcpy, mem_write. destruct (Z.leb_spec buf a), (Z.ltb_spec a (buf + n)); cbn [andb]; try done.
  f_equal. rewrite <-(Z.add_mod_idemp_l D) by lia. rewrite (Z.mod_small (D mod L + (a - buf))); [lia|]. pose proof (Z.mod_pos_bound D L HL). lia.
Qed.

Lemma copied_app m m1 m2 buf n n' base L D : 0 < L -> 0 <= n -> 0 <= n' -> buf + n <= base \/ base + L <= buf ->
  copied m m1 buf n base L D -> copied m1 m2 (buf + n) n' base L (D + n) -> copied m m2 buf (n + n') base L D.
Proof.
  intros HL Hn Hn' Hd H1 H2 a. rewrite H2, !H1.
  destruct (Z.leb_spec (buf + n) a), (Z.ltb_spec a (buf + n + n')), (Z.leb_spec buf a), (Z.ltb_spec a (buf + n)),
    (Z.ltb_spec a (buf + (n + n'))); cbn [andb]; try lia; try done.
  replace (D + n + (a - (buf + n))) with (D + (a - buf)) by lia.
  pose proof (Z.mod_pos_bound (D + (a - buf)) L HL) as Hm.
  destruct (Z.leb_spec buf (base + (D + (a - buf)) mod L)), (Z.ltb_spec (base + (D + (a - buf)) mod L) (buf + n)); cbn [andb]; lia || done.
Qed.

Lemma copied_none m buf base L D : copied m m buf 0 base L D.
Proof. intros a. destruct (Z.leb_spec buf a), (Z.ltb_spec a (buf + 0)); cbn [andb]; lia || done. Qed.

Lemma pieces_fit c base L R D n : pieces c base L R D -> 0 < L -> n <= rx_len_1 c -> D mod L + n <= L.
Proof. intros [E1 _ _ _] HL Hn. lia. Qed.

(** Copying a part of the first piece. *)
Lemma copied_piece c m buf base L R D n : pieces c base L R D -> 0 < L -> 0 <= n <= rx_len_1 c ->
  copied m (memcpy buf (rx_buf_1 c) n m) buf n base L D.
Proof.
  intros Hp HL Hn. destruct (decide (n = 0)) as [->|Hz].
  - intros a. unfold memcpy, mem_write. destruct (Z.leb_spec buf a), (Z.ltb_spec a (buf + 0)); cbn [andb]; lia || done.
  - rewrite (pc_buf1 _ _ _ _ _ Hp) by (pose proof (pc_len1 _ _ _ _ _ Hp); lia).
    apply copy_ring; [done|lia|]. by eapply pieces_fit; [| |apply Hn].
Qed.

Lemma sconn_copy dst src len s st : sconn (copy dst src len st) s = sconn st s.
Proof. done. Qed.

Lemma upd_sconn_twice s f g dst src len st :
  upd_sconn s f (copy dst src len (upd_sconn s g st)) = upd_sconn s (fun c => f (g c)) (copy dst src len st).
Proof.
  unfold upd_sconn, upd_sock, copy. destruct st as [socks eps es fhs lib cur now m er]. cbn. f_equal.
  rewrite lookup_total_insert_eq, insert_insert_eq. cbn. by destruct (socks !!! s).
Qed.

(** Copying to the application takes the first bytes of the window. *)
Lemma recv_copy_ok s buf len st base L R D : pieces (sconn st s) base L R D -> 0 < L -> 0 <= R - D <= L -> 0 <= len ->
  buf + len <= base \/ base + L <= buf -> let n := Z.min len (R - D) in
  exists f m, recv_copy s buf len st = (n, upd_sconn s f (st <| ss_mem := m |>))
  /\ pieces (f (sconn st s)) base L R (D + n) /\ copied (ss_mem st) m buf n base L D
  /\ forall c, sc_status (f c) = sc_status c /\ sc_st_flags (f c) = sc_st_flags c /\ sc_ctx (f c) = sc_ctx c.
Proof.
  intros Hp HL Hu Hlen Hd n. unfold recv_copy. set (c := sconn st s) in *. pose proof Hp as [E1 E2 B1 B2].
  pose proof (Z.mod_pos_bound D L HL) as HD.
  destruct (Z.leb_spec (rx_len_1 c) len) as [Hc|Hc].
  - pose proof (shift_pieces_ok _ _ _ _ _ Hp HL Hu) as Hp1.
    rewrite sconn_upd. change (sconn (copy ?a ?b ?d ?e) s) with (sconn e s). fold c.
    set (n2 := Z.min (rx_len_1 (shift_pieces c)) (len - rx_len_1 c)).
    assert (Hn : n = rx_len_1 c + n2) by (unfold n, n2; cbn; pose proof (Z.mod_pos_bound D L HL); lia).
    assert (Hn2 : 0 <= n2 <= rx_len_1 (shift_pieces c)) by (unfold n2; cbn; lia).
    exists (fun v => take_piece n2 (shift_pieces v)), (memcpy (buf + rx_len_1 c) (rx_buf_1 (shift_pieces c)) n2
      (memcpy buf (rx_buf_1 c) (rx_len_1 c) (ss_mem st))).
    split; [|split; [|split; [|done]]].
    + by rewrite Hn, upd_sconn_twice.
    + rewrite Hn, Z.add_assoc. apply take_piece_ok; [done|done| |done|done]. lia.
    + rewrite Hn. assert (H1 : 0 <= rx_len_1 c <= rx_len_1 c) by lia.
      assert (Hd1 : buf + rx_len_1 c <= base \/ base + L <= buf) by lia.
      apply (copied_app _ (memcpy buf (rx_buf_1 c) (rx_len_1 c) (ss_mem st))); [done|lia|lia|done| |].
      * by apply (copied_piece c _ _ _ _ R).
      * by apply (copied_piece (shift_pieces c) _ _ _ _ R).
  - assert (Hn : n = len) by (unfold n; lia). cbv zeta. fold c. rewrite Z.sub_0_r, (Z.min_r (rx_len_1 c) len) by lia.
    exists (take_piece len), (memcpy (buf + 0) (rx_buf_1 c) len (ss_mem st)). rewrite Hn, !Z.add_0_r. split; [done|].
    split; [apply take_piece_ok; [done|done|done|lia|lia]|]. split; [|done].
    apply (copied_piece c _ _ _ _ R); [done|done|lia].
Qed.

(** The [n] bytes are reported to the fast path with the next bump, which is due when a
    quarter of the buffer has been read. *)
Definition freed (n : Z) (c c' : flextcp_connection) : Prop :=
  rxb_bump c' = u32 (rxb_bump c + n)
  /\ bump_pending c' = bump_pending c || (rxb_len c / 4 <? u32 (rxb_bump c + n)).

Lemma rx_done_ok conn n L R D : rx_rep (lconn L conn) R D -> 0 <= n <= R - D ->
  exists L', flextcp_connection_rx_done conn n L = (0, L') /\ rx_rep (lconn L' conn) R (D + n)
  /\ rxb_len (lconn L' conn) = rxb_len (lconn L conn) /\ rxb_base (lconn L' conn) = rxb_base (lconn L conn)
  /\ rxb_head (lconn L' conn) = rxb_head (lconn L conn) /\ freed n (lconn L conn) (lconn L' conn).
Proof.
  intros [Hl Hle Hh Hu] Hn. unfold flextcp_connection_rx_done. rewrite (proj2 (Z.ltb_ge (rxb_used (lconn L conn)) n)) by lia.
  set (L1 := set_lconn conn _ L).
  assert (H1 : rx_rep (lconn L1 conn) R (D + n) /\ rxb_base (lconn L1 conn) = rxb_base (lconn L conn)
    /\ rxb_len (lconn L1 conn) = rxb_len (lconn L conn) /\ rxb_head (lconn L1 conn) = rxb_head (lconn L conn)).
  { unfold L1. rewrite lconn_set. split; [|done]. constructor; cbn [rxb_len rxb_head rxb_used setf]; [done|lia|done|].
    rewrite u32_id by cside. lia. }
  assert (Ebp : rxb_bump (lconn L1 conn) = u32 (rxb_bump (lconn L conn) + n)
    /\ bump_pending (lconn L1 conn) = bump_pending (lconn L conn)) by (unfold L1; by rewrite lconn_set).
  destruct H1 as (Hr & Eb & El & Eh), Ebp as [Ebp Epd]. unfold freed. eexists. split; [done|].
  destruct (rxb_len (lconn L1 conn) / 4 <? rxb_bump (lconn L1 conn)) eqn:Eq; rewrite El, Ebp in Eq; rewrite Eq.
  - destruct (conn_mark_bump_rx conn L1) as (F1 & F2 & F3 & F4 & F5). split; [by apply (rx_rep_same (lconn L1 conn))|].
    destruct (conn_mark_bump_flags conn L1) as (_ & _ & _ & G1 & G2). rewrite orb_true_r. split_and!; congruence.
  - rewrite orb_false_r. split_and!; done.
Qed.

Lemma with_sock_found fd s k env st : fd < MAXSOCK -> fh st fd = FH_SOCKET s -> with_sock fd k env st = k s env st.
Proof.
  intros Hfd Hf. unfold with_sock, liftp, lift, mbind, call_bind, flextcp_fd_slookup. rewrite (proj2 (Z.leb_gt MAXSOCK fd)) by lia.
  by rewrite Hf.
Qed.

Lemma connected_open s st : open_sock s st -> connected s st = true.
Proof. intros [Ht Hs]. unfold connected, is_connection, status_is. by rewrite Ht, Hs, !bool_decide_true. Qed.

(** A connection of the thread's context does not move. *)
Lemma move_here info fm s env st : open_sock s st -> sc_ctx (sconn st s) = ss_cur st -> tas_sock_move info fm s env st = Ret 0 env st.
Proof.
  intros Ho Hc. unfold tas_sock_move, get, mbind, call_bind. rewrite (connected_open s st Ho). cbn [negb]. by rewrite Hc, Z.eqb_refl.
Qed.

(** After copying [n] bytes: the event is cleared when there is no data left. *)
Lemma recv_done_ok s n st R D : rx_rep (lconn (ss_lib st) s) R D -> rxb_head (lconn (ss_lib st) s) = R mod rxb_len (lconn (ss_lib st) s) ->
  pieces (sconn st s) (rxb_base (lconn (ss_lib st) s)) (rxb_len (lconn (ss_lib st) s)) R (D + n) -> 0 < n <= R - D -> epoll_inv st ->
  let st' := recv_done s n st in
  sock_rx (sconn st' s) (lconn (ss_lib st') s) R (D + n) /\ epoll_inv st' /\ ss_mem st' = ss_mem st
  /\ sconn st' s = sconn st s /\ so_type (sock st' s) = so_type (sock st s)
  /\ ep_events (sock st' s) = (if no_data s st then flags_off (ep_events (sock st s)) EPOLLIN else ep_events (sock st s))
  /\ freed n (lconn (ss_lib st) s) (lconn (ss_lib st') s).
Proof.
  intros Hr Hh Hp Hn Hinv st'. unfold st', recv_done. rewrite (proj2 (Z.ltb_lt 0 n)) by lia.
  set (st1 := if no_data s st then _ else st).
  assert (H1 : epoll_inv st1 /\ ev_frame st st1).
  { subst st1. case_match; [split; [by apply epoll_clear_ok|apply epoll_clear_frame]|done]. }
  destruct H1 as [Hinv1 Hf]. destruct (vf_rest _ _ Hf) as (EL & EM & _). destruct (ev_frame_sconn _ _ s Hf) as (Ec & Et & _).
  rewrite <-EL in Hr, Hh, Hp |- *. destruct (rx_done_ok s n (ss_lib st1) R D Hr ltac:(lia)) as (L' & E & Hr' & El & Eb & Eh & Hfr).
  unfold with_lib. rewrite E. cbn [Datatypes.snd]. set (st2 := st1 <| ss_lib := L' |>).
  change (ss_lib st2) with L'. change (sconn st2 s) with (sconn st1 s). change (sock st2 s) with (sock st1 s). change (ss_mem st2) with (ss_mem st1).
  split; [|split; [by apply (inv_other st1)|split; [done|split; [done|split; [done|split; [|exact Hfr]]]]]].
  - apply sock_rx_pieces. split; [done|]. rewrite El, Eb, Eh. split; [done|]. by rewrite Ec.
  - subst st1. case_match; [|done]. unfold flextcp_epoll_clear. by rewrite sock_upd_sock, Z.eqb_refl.
Qed.

(** C17: a read on a connection with [u] unread bytes, from the thread of its context and into
    a buffer apart from the receive buffer, returns without waiting with [n = min len u]:
    exactly the next [n] bytes of the stream are copied in order, nothing else in memory
    changes, the socket keeps the rest, the library frees the [n] bytes of the receive
    buffer and adds them to the next bump, which is marked as due once a quarter of the buffer
    has been read, and the event EPOLLIN is cleared exactly when no data is left and the peer
    has not closed. *)
Theorem recv_simple_reads info fm fd s buf len env st R D : fd < MAXSOCK -> fh st fd = FH_SOCKET s ->
  epoll_inv st -> open_sock s st -> sc_ctx (sconn st s) = ss_cur st -> sock_rx (sconn st s) (lconn (ss_lib st) s) R D -> D < R -> 0 < len ->
  let lc := lconn (ss_lib st) s in
  buf + len <= rxb_base lc \/ rxb_base lc + rxb_len lc <= buf -> let n := Z.min len (R - D) in
  exists st', recv_simple info fm fd buf len env st = Ret n env st' /\ epoll_inv st' /\ open_sock s st'
  /\ sock_rx (sconn st' s) (lconn (ss_lib st') s) R (D + n)
  /\ copied (ss_mem st) (ss_mem st') buf n (rxb_base lc) (rxb_len lc) D
  /\ freed n lc (lconn (ss_lib st') s)
  /\ ep_events (sock st' s) =
       (if (D + n =? R) && negb (has_st_flag s CSTF_RXCLOSED st) then flags_off (ep_events (sock st s)) EPOLLIN
        else ep_events (sock st s)).
Proof.
  intros Hfd Hf Hinv Hop Hcur Hrx HDR Hlen lc Hdis n. apply sock_rx_pieces in Hrx as (Hr & Hh & Hp). fold lc in Hr, Hh, Hp.
  pose proof (rr_len _ _ _ Hr) as HL. pose proof (rr_le _ _ _ Hr) as Hle. pose proof (Z.mod_pos_bound D (rxb_len lc) ltac:(lia)) as HD.
  pose proof (pc_len1 _ _ _ _ _ Hp) as E1.
  unfold recv_simple. rewrite (with_sock_found fd s) by done. unfold mbind, call_bind. rewrite move_here by done. unfold get.
  rewrite (connected_open s st Hop). cbn [negb]. rewrite (proj2 (Z.eqb_neq len 0)) by lia.
  assert (Hnd : no_data s st = false) by (unfold no_data; by rewrite (proj2 (Z.eqb_neq _ 0)) by lia).
  unfold loop. assert (Hl : forall envs, wait_loop info fm (recv_step s) false envs st = Ret true envs st).
  { intros envs. by destruct envs; cbn [wait_loop]; unfold recv_step; rewrite Hnd; cbn [andb]. }
  rewrite Hl. cbn [negb].
  destruct (recv_copy_ok s buf len st _ _ R D Hp ltac:(lia) ltac:(lia) ltac:(lia) Hdis) as (f & m & E & Hp' & Hcp & Hcf). fold n in E, Hp'.
  unfold liftp, lift. rewrite E. set (st1 := upd_sconn s f (st <| ss_mem := m |>)). unfold modify.
  assert (Hinv1 : epoll_inv st1) by (apply inv_sconn; by apply (inv_other st)).
  assert (Hc1 : sconn st1 s = f (sconn st s)) by (unfold st1; by rewrite sconn_upd).
  assert (Ht1 : so_type (sock st1 s) = so_type (sock st s) /\ ep_events (sock st1 s) = ep_events (sock st s))
    by (unfold st1, upd_sconn; by rewrite sock_upd_sock, Z.eqb_refl).
  destruct Ht1 as [Ht1 Hev1]. rewrite <-Hc1 in Hp'.
  destruct (recv_done_ok s n st1 R D Hr Hh Hp' ltac:(unfold n; lia) Hinv1) as (Hrx' & Hinv' & Hm' & Hc' & Ht' & He' & Hfr).
  exists (recv_done s n st1). split; [done|]. split; [done|]. split; [|split; [done|split; [by rewrite Hm'|split; [exact Hfr|]]]].
  - destruct (Hcf (sconn st s)) as (F1 & _). split; [by rewrite Ht', Ht1, (proj1 Hop)|rewrite Hc', Hc1, F1; apply Hop].
  - rewrite He', Hev1. unfold no_data, has_st_flag. rewrite Hc1. destruct (Hcf (sconn st s)) as (_ & -> & _). f_equal.
    rewrite <-Hc1. pose proof (Z.mod_pos_bound (D + n) (rxb_len lc) ltac:(lia)). pose proof (pc_len1 _ _ _ _ _ Hp') as E1'.
    assert (Hz : (rx_len_1 (sconn st1 s) =? 0) = (D + n =? R)) by (destruct (Z.eqb_spec (D + n) R); [apply Z.eqb_eq|apply Z.eqb_neq]; unfold n in *; lia).
    by rewrite Hz.
Qed.

(** ** Writing *)

(** The [n] bytes at [buf] are the next bytes from [S] on of the stream in the ring. *)
Record written (m m' : mem) (buf n base L S : Z) : Prop := mk_written {
  wr_in : forall i, 0 <= i < n -> m' (base + (S + i) mod L) = m (buf + i);
  wr_out : forall a, (forall i, 0 <= i < n -> a <> base + (S + i) mod L) -> m' a = m a }.

(** The pieces of an allocation. *)
Definition ring_pieces (base L S n : Z) : Z * Z * Z :=
  if L <? S mod L + n then (base + S mod L, L - S mod L, base) else (base + S mod L, n, 0).

Lemma written_pieces m buf n base L S b1 l1 b2 : 0 < L -> 0 <= n <= L -> ring_pieces base L S n = (b1, l1, b2) ->
  buf + n <= base \/ base + L <= buf ->
  written m (memcpy b2 (buf + l1) (n - l1) (memcpy b1 buf l1 m)) buf n base L S.
Proof.
  intros HL Hn Hp Hd. pose proof (Z.mod_pos_bound S L HL) as Hh.
  assert (Hpos : forall i, 0 <= i < n -> (S + i) mod L = if S mod L + i <? L then S mod L + i else S mod L + i - L).
  { intros i Hi. pose proof (mod_wrap L S (S + i) HL ltac:(lia)) as E. by replace (S + i - S) with i in E by lia. }
  unfold ring_pieces in Hp. destruct (Z.ltb_spec L (S mod L + n)) as [Hw|Hw]; injection Hp as <- <- <-.
  - constructor.
    + intros i Hi. rewrite Hpos by done. unfold memcpy. destruct (Z.ltb_spec (S mod L + i) L) as [Hi1|Hi1].
      * rewrite mem_write_out by lia. rewrite mem_write_in by lia. f_equal. lia.
      * rewrite mem_write_in by lia. rewrite mem_write_out by lia. f_equal. lia.
    + intros a Ha. unfold memcpy. destruct (decide (base <= a < base + (n - (L - S mod L)))) as [Hin|Hin].
      * exfalso. apply (Ha (L - S mod L + (a - base)) ltac:(lia)). rewrite Hpos by lia. zcase; lia.
      * rewrite mem_write_out by lia. destruct (decide (base + S mod L <= a < base + S mod L + (L - S mod L))) as [Hin2|Hin2].
        -- exfalso. apply (Ha (a - base - S mod L) ltac:(lia)). rewrite Hpos by lia. zcase; lia.
        -- by rewrite mem_write_out by lia.
  - rewrite Z.sub_diag. constructor.
    + intros i Hi. rewrite Hpos by done. unfold memcpy. rewrite mem_write_out by lia. zcase; [|lia].
      rewrite mem_write_in by lia. f_equal. lia.
    + intros a Ha. unfold memcpy. rewrite mem_write_out by lia.
      destruct (decide (base + S mod L <= a < base + S mod L + n)) as [Hin|Hin]; [|by rewrite mem_write_out by lia].
      exfalso. apply (Ha (a - base - S mod L) ltac:(lia)). rewrite Hpos by lia. zcase; lia.
Qed.

Lemma tx_alloc2_ok conn len L A S N : tx_rep (lconn L conn) A S N -> 0 <= len -> txeos (lconn L conn) = false ->
  let c := lconn L conn in let n := Z.min len (A + txb_len c - N) in
  exists L', flextcp_connection_tx_alloc2 conn len L = (n, ring_pieces (txb_base c) (txb_len c) N n, L')
  /\ tx_rep (lconn L' conn) A S (N + n) /\ txb_bump (lconn L' conn) = txb_bump c.
Proof.
  intros H Hl Heos c n. unfold flextcp_connection_tx_alloc2. rewrite Heos. unfold alloc_len.
  rewrite (tx_rep_allocbytes _ _ _ _ H), (tx_rep_alloc_head _ _ _ _ H). fold c.
  pose proof H as [HL Hle Hh Hs Ha]. fold c in HL, Hle, Hh, Hs, Ha. assert (Hm := Z.mod_pos_bound N (txb_len c) ltac:(lia)).
  assert (En : (if A + txb_len c - N <? len then A + txb_len c - N else len) = n) by (unfold n; zcase; lia). rewrite En.
  assert (Er : (if txb_len c <? N mod txb_len c + n then (txb_base c + N mod txb_len c, u32 (txb_len c - N mod txb_len c), txb_base c)
    else (txb_base c + N mod txb_len c, n, 0)) = ring_pieces (txb_base c) (txb_len c) N n).
  { unfold ring_pieces. zcase; [|done]. by rewrite u32_id by cside. }
  rewrite Er. eexists. split; [done|]. split.
  - rewrite lconn_set. constructor; cbn [txb_len txb_head txb_sent txb_allocated setf]; fold c; try done; [unfold n; lia|].
    rewrite Ha, u32_id by (unfold n; cside). lia.
  - by rewrite lconn_set.
Qed.

Lemma conn_tx_send_ok conn n L A S N : tx_rep (lconn L conn) A S N -> 0 <= n <= N - S ->
  exists L', flextcp_connection_tx_send conn n L = (0, L') /\ tx_rep (lconn L' conn) A (S + n) N
  /\ txb_bump (lconn L' conn) = u32 (txb_bump (lconn L conn) + n) /\ bump_pending (lconn L' conn) = true.
Proof.
  intros H Hn. destruct (flextcp_connection_tx_send conn n L) as [r L'] eqn:E. exists L'.
  destruct (tx_send_rep conn n L A S N r L' H ltac:(lia) E) as [(-> & _ & Hlt)|(-> & _ & Hr & Hb & Hp)]; [lia|done].
Qed.

(** C15: a write on a connection whose transmit stream is open and has [f] free bytes, from the
    thread of its context and from a buffer apart from the transmit buffer, returns
    without waiting with [n = min len f]: exactly the first [n] bytes of the buffer are
    the next bytes of the stream in the transmit buffer, nothing else in memory changes,
    no unacknowledged byte is overwritten, and the [n] bytes are added to the next bump to the
    fast path, which is marked as due. *)
Theorem send_simple_writes info fm fd s buf len env st A S : fd < MAXSOCK -> fh st fd = FH_SOCKET s ->
  open_sock s st -> sc_ctx (sconn st s) = ss_cur st -> has_st_flag s CSTF_TXCLOSED st = false ->
  let lc := lconn (ss_lib st) s in
  tx_rep lc A S S -> txeos lc = false -> 0 < len -> S < A + txb_len lc ->
  buf + len <= txb_base lc \/ txb_base lc + txb_len lc <= buf ->
  let n := Z.min len (A + txb_len lc - S) in
  exists st', send_simple info fm fd buf len env st = Ret n env st'
  /\ written (ss_mem st) (ss_mem st') buf n (txb_base lc) (txb_len lc) S
  /\ (forall k, A <= k < S -> ss_mem st' (txb_base lc + k mod txb_len lc) = ss_mem st (txb_base lc + k mod txb_len lc))
  /\ tx_rep (lconn (ss_lib st') s) A (S + n) (S + n)
  /\ txb_bump (lconn (ss_lib st') s) = u32 (txb_bump lc + n) /\ bump_pending (lconn (ss_lib st') s) = true
  /\ ss_socks st' = ss_socks st /\ ss_ess st' = ss_ess st /\ ss_eps st' = ss_eps st.
Proof.
  intros Hfd Hf Hop Hcur Hcl lc Htx Heos Hlen Hroom Hd n. pose proof Htx as [HL Hle _ _ _].
  unfold send_simple. rewrite (with_sock_found fd s) by done. unfold mbind, call_bind. rewrite move_here by done. unfold get.
  unfold sendable. rewrite (connected_open s st Hop), Hcl. cbn [negb andb]. rewrite (proj2 (Z.eqb_neq len 0)) by lia.
  destruct (tx_alloc2_ok s len (ss_lib st) A S S Htx ltac:(lia) Heos) as (L1 & E1 & Htx1 & Eb1). fold lc n in E1, Htx1, Eb1.
  destruct (ring_pieces (txb_base lc) (txb_len lc) S n) as [[b1 l1] b2] eqn:Ep.
  unfold loop at 1. assert (Hl1 : forall envs, wait_loop info fm (alloc_step s len) false envs st = Ret (Some (n, (b1, l1, b2))) envs (st <| ss_lib := L1 |>)).
  { intros envs. assert (Es : alloc_step s len false st = Some (Some (Some (n, (b1, l1, b2))), st <| ss_lib := L1 |>)).
    { unfold alloc_step. rewrite E1. rewrite (proj2 (Z.leb_le 0 n)) by (unfold n; lia). cbn [cassert mbind option_bind].
      by rewrite (proj2 (Z.eqb_neq n 0)) by (unfold n; lia). }
    by destruct envs; cbn [wait_loop]; rewrite Es. }
  rewrite Hl1. unfold modify. set (st1 := copy _ _ _ _).
  destruct (conn_tx_send_ok s n L1 A S (S + n) Htx1 ltac:(unfold n; lia)) as (L2 & E2 & Htx2 & Eb2 & Hbp). rewrite Eb1 in Eb2.
  unfold loop. assert (Hl2 : forall envs, wait_loop info fm (send_step s n) false envs st1 = Ret tt envs (st1 <| ss_lib := L2 |>)).
  { intros envs. assert (Es : send_step s n false st1 = Some (Some tt, st1 <| ss_lib := L2 |>)).
    { unfold send_step, with_lib. change (ss_lib st1) with L1. by rewrite E2. }
    by destruct envs; cbn [wait_loop]; rewrite Es. }
  rewrite Hl2. exists (st1 <| ss_lib := L2 |>). split; [done|].
  assert (Hw : written (ss_mem st) (ss_mem st1) buf n (txb_base lc) (txb_len lc) S).
  { apply (written_pieces (ss_mem st) buf n _ _ S b1 l1 b2); [lia|unfold n; lia|done|unfold n; lia]. }
  split; [exact Hw|]. split; [|done]. intros k Hk. apply (wr_out _ _ _ _ _ _ _ Hw). intros i Hi Heq.
  assert (Hkk : k = S + i); [|lia]. apply (window_inj (txb_len lc)); [lia|lia|unfold n in *; lia].
Qed.

(** ** Examples *)

Module ExXfer.
(** Received bytes 95 to 97 of the stream; 20 bytes sent up to byte 90. *)
Definition lc : flextcp_connection :=
  ex_lconn <| rxb_head := 98 |> <| rxb_used := 3 |> <| txb_head := 90 |> <| txb_sent := 20 |>.
Definition c : socket_conn := mk_sconn SOC_CONNECTED 0 0 1095 0 3 0 0 0 true.
(** Received bytes 95 to 104, in two pieces. *)
Definition lc2 : flextcp_connection := ex_lconn <| rxb_head := 5 |> <| rxb_used := 10 |>.
Definition c2 : socket_conn := mk_sconn SOC_CONNECTED 0 0 1095 1000 5 5 0 0 true.

Definition conn_st (c : socket_conn) (lc : flextcp_connection) : sockst :=
  upd_sock 5 (fun v => v <| so_type := SOCK_CONNECTION |> <| so_conn := c |>) (ExEpoll.after 5) <| ss_lib := ex_lst lc 2 [] |>.

Lemma sock_5 c lc : sock (conn_st c lc) 5 = sock (ExEpoll.after 5) 5 <| so_type := SOCK_CONNECTION |> <| so_conn := c |>.
Proof. unfold conn_st. change (sock (?a <| ss_lib := ?b |>)) with (sock a). by rewrite sock_upd_sock. Qed.

Lemma inv c lc : epoll_inv (conn_st c lc).
Proof.
  apply (inv_other (ExEpoll.after 5)); [|exact (reach_inv _ _ ExEpoll.reach_5)]. split; [done|]. split; [done|]. intros s.
  unfold conn_st. change (sock (?a <| ss_lib := ?b |>)) with (sock a). rewrite sock_upd_sock. by destruct (Z.eqb_spec s 5) as [->|].
Qed.

Lemma open_5 c lc : sc_status c = SOC_CONNECTED -> open_sock 5 (conn_st c lc).
Proof. intros H. unfold open_sock, sconn. rewrite sock_5. done. Qed.

Lemma conn_5 c lc : sconn (conn_st c lc) 5 = c.
Proof. unfold sconn. by rewrite sock_5. Qed.

Lemma lconn_5 c lc : lconn (ss_lib (conn_st c lc)) 5 = lc.
Proof. done. Qed.

Lemma rx : sock_rx c lc 98 95.
Proof. by constructor. Qed.

Lemma rx2 : sock_rx c2 lc2 105 95.
Proof. by constructor. Qed.

Lemma tx : tx_rep lc 70 90 90.
Proof. constructor; cbn; (done || lia). Qed.

Lemma fd c lc : fh (conn_st c lc) 4 = FH_SOCKET 5.
Proof. change (fh (conn_st c lc) 4) with (fh (ExEpoll.after 5) 4). by vm_compute. Qed.

Lemma cur c lc : ss_cur (conn_st c lc) = 0.
Proof. change (ss_cur (conn_st c lc)) with (ss_cur (ExEpoll.after 5)). by vm_compute. Qed.
End ExXfer.

(** Ten bytes that run past the end of the receive buffer. *)
Lemma sock_received_in_order_witness :
  exists st', sock_events ExEpoll.info (rx_events 5 ExXfer.lc 10) (ExXfer.conn_st ExXfer.c ExXfer.lc) = Some st' /\ epoll_inv st'
  /\ open_sock 5 st' /\ sock_rx (sconn st' 5) (rx_update 10 ExXfer.lc) (98 + 10) 95
  /\ sock_bytes (sconn st' 5) = sock_bytes (sconn (ExXfer.conn_st ExXfer.c ExXfer.lc) 5) ++ events_bytes 5 (rx_events 5 ExXfer.lc 10)
  /\ ss_mem st' = ss_mem (ExXfer.conn_st ExXfer.c ExXfer.lc) /\ queued 5 EPOLLIN st'.
Proof.
  apply (sock_received_in_order ExEpoll.info 5 ExXfer.lc 10 (ExXfer.conn_st ExXfer.c ExXfer.lc) 98 95).
  - apply ExXfer.inv.
  - by apply ExXfer.open_5.
  - rewrite ExXfer.conn_5. exact ExXfer.rx.
  - cbn. lia.
Defined.

(** Eight bytes of two pieces. *)
Lemma recv_simple_reads_witness : let st := ExXfer.conn_st ExXfer.c2 ExXfer.lc2 in
  exists st', recv_simple ExEpoll.info 0 4 5000 8 [] st = Ret 8 [] st' /\ epoll_inv st' /\ open_sock 5 st'
  /\ sock_rx (sconn st' 5) (lconn (ss_lib st') 5) 105 (95 + 8)
  /\ copied (ss_mem st) (ss_mem st') 5000 8 1000 100 95
  /\ freed 8 ExXfer.lc2 (lconn (ss_lib st') 5)
  /\ ep_events (sock st' 5) =
       (if (95 + 8 =? 105) && negb (has_st_flag 5 CSTF_RXCLOSED st) then flags_off (ep_events (sock st 5)) EPOLLIN
        else ep_events (sock st 5)).
Proof.
  intros st. apply (recv_simple_reads ExEpoll.info 0 4 5 5000 8 [] st 105 95).
  - done.
  - apply ExXfer.fd.
  - apply ExXfer.inv.
  - by apply ExXfer.open_5.
  - unfold st. rewrite ExXfer.conn_5, ExXfer.cur. done.
  - unfold st. rewrite ExXfer.conn_5, ExXfer.lconn_5. exact ExXfer.rx2.
  - lia.
  - lia.
  - unfold st. rewrite ExXfer.lconn_5. cbn. lia.
Defined.

(** Fifteen bytes that run past the end of the transmit buffer. *)
Lemma send_simple_writes_witness : let st := ExXfer.conn_st ExXfer.c ExXfer.lc in
  exists st', send_simple ExEpoll.info 0 4 5000 15 [] st = Ret 15 [] st'
  /\ written (ss_mem st) (ss_mem st') 5000 15 2000 100 90
  /\ (forall k, 70 <= k < 90 -> ss_mem st' (2000 + k mod 100) = ss_mem st (2000 + k mod 100))
  /\ tx_rep (lconn (ss_lib st') 5) 70 (90 + 15) (90 + 15)
  /\ txb_bump (lconn (ss_lib st') 5) = 15 /\ bump_pending (lconn (ss_lib st') 5) = true
  /\ ss_socks st' = ss_socks st /\ ss_ess st' = ss_ess st /\ ss_eps st' = ss_eps st.
Proof.
  intros st. apply (send_simple_writes ExEpoll.info 0 4 5 5000 15 [] st 70 90).
  - done.
  - apply ExXfer.fd.
  - by apply ExXfer.open_5.
  - unfold st. rewrite ExXfer.conn_5, ExXfer.cur. done.
  - unfold has_st_flag, st. rewrite ExXfer.conn_5. done.
  - unfold st. rewrite ExXfer.lconn_5. exact ExXfer.tx.
  - done.
  - lia.
  - unfold st. rewrite ExXfer.lconn_5. cbn. lia.
  - unfold st. rewrite ExXfer.lconn_5. cbn. lia.
Defined.
