(* ===== verification/SockPoll.v ===== *)
(** * poll and select (lib/sockets/poll.c)

    Descriptors of the library and of Linux in one call: those of the library are
    answered from the events of their sockets, those of Linux are copied into a cache
    with the eventfd of the context at its end and given to the poll of Linux. *)

From S2P Require Import Prelude FpTypes LibTypes LibConn LibPoll SockTypes Epoll SockCtx SockCtl.

(** Constants of the C library. *)
Definition POLLIN : Z := 1.
Definition POLLPRI : Z := 2.
Definition POLLOUT : Z := 4.
Definition POLLERR : Z := 8.
Definition POLLHUP : Z := 16.
Definition POLLNVAL : Z := 32.
Definition POLLRDNORM : Z := 64.
Definition POLLRDBAND : Z := 128.
Definition POLLWRNORM : Z := 256.
Definition POLLWRBAND : Z := 512.
Definition POLLRDHUP : Z := 8192.
Definition EPOLLPRI : Z := 2.

Definition flags (l : list Z) : Z := foldr Z.lor 0 l.
Definition SELECT_POLLIN_SET : Z := flags [POLLRDNORM; POLLRDBAND; POLLIN; POLLHUP; POLLERR].
Definition SELECT_POLLOUT_SET : Z := flags [POLLWRBAND; POLLWRNORM; POLLOUT; POLLERR].
Definition SELECT_POLLEX_SET : Z := POLLPRI.
Definition POLL_SUPPORTED : Z :=
  flags [POLLIN; POLLPRI; POLLOUT; POLLRDHUP; POLLERR; POLLHUP; POLLRDNORM; POLLWRNORM; POLLNVAL; POLLRDBAND; POLLWRBAND].

Record pollfd : Type := mk_pollfd { pf_fd : Z; pf_events : Z; pf_revents : Z }.
#[export] Instance eta_pollfd : Eta pollfd := fun r => mk_pollfd (pf_fd r) (pf_events r) (pf_revents r).

Definition events_epoll2poll (ev : Z) : Z :=
  flags [if any_flag ev EPOLLIN then Z.lor POLLIN POLLRDNORM else 0;
         if any_flag ev EPOLLOUT then Z.lor POLLOUT POLLWRNORM else 0;
         if any_flag ev EPOLLRDHUP then POLLRDHUP else 0; if any_flag ev EPOLLPRI then POLLPRI else 0;
         if any_flag ev EPOLLERR then POLLERR else 0; if any_flag ev EPOLLHUP then POLLHUP else 0].

(** The socket of a descriptor, when it is one of the library. *)
Definition sock_of (st : sockst) (fd : Z) : option Z := (flextcp_fd_slookup fd st).1.

(** The descriptors with their events, and the numbers [nfds_linux], [nfds_tas] and
    [active_fds]; [false] when flags are not supported. *)
Fixpoint poll_scan (st : sockst) (fds : list pollfd) : bool * list pollfd * (Z * Z * Z) :=
  match fds with
  | [] => (true, [], (0, 0, 0))
  | p :: fds =>
      match sock_of st (pf_fd p) with
      | None =>
          let '(ok, l, (nl, nt, na)) := poll_scan st fds in (ok, p <| pf_revents := 0 |> :: l, (nl + 1, nt, na))
      | Some s =>
          if negb (flags_off (pf_events p) POLL_SUPPORTED =? 0) then (false, p :: fds, (0, 0, 0))
          else
            let r := Z.land (pf_events p) (events_epoll2poll (ep_events (sock st s))) in
            let '(ok, l, (nl, nt, na)) := poll_scan st fds in
            (ok, p <| pf_revents := r |> :: l, (nl, nt + 1, if r =? 0 then na else na + 1))
      end
  end.

(** The descriptors of Linux; [ok] is whether the cache can be allocated. *)
Definition pollfd_cache_prepare (ok : bool) (st : sockst) (fds : list pollfd) : option (list pollfd) :=
  if ok then Some (filter (fun p => sock_of st (pf_fd p) = None) fds) else None.

(** The results of Linux in the cache are copied over; [None]: the descriptors changed. *)
Fixpoint poll_copy (st : sockst) (fds cache : list pollfd) : option (list pollfd) :=
  match fds with
  | [] => Some []
  | p :: fds =>
      match sock_of st (pf_fd p), cache with
      | Some _, _ => l ← poll_copy st fds cache; Some (p :: l)
      | None, c :: cache =>
          cassert (pf_fd p =? pf_fd c);;
          l ← poll_copy st fds cache; Some (p <| pf_revents := pf_revents c |> :: l)
      | None, [] => None
      end
  end.

(** What happens in a round: as in [pollenv], what the poll of Linux says about the
    descriptors in the cache (or that it fails) and about the eventfd, and the times. *)
Record roundenv : Type := mk_roundenv {
  re_before : sockst -> sockst; re_now : Z; re_after : sockst -> sockst; re_linux : option (list Z);
  re_ctx : bool; re_polled : bool; re_ms : Z; re_ms_end : Z }.

Definition count_ready (l : list Z) : Z := Z.of_nat (length (filter (fun r => r <> 0) l)).

Inductive poll_result : Type :=
| P_return (r : Z) (fds : list pollfd) (st : sockst)
| P_linux (fds : list pollfd) (st : sockst)
| P_blocked
| P_aborted.

Section Poll.
Context (info : flexnic_info) (flexnic_mem : Z) (alloc_ok : bool).

Definition poll_fail (e : errno) (fds : list pollfd) (st : sockst) : poll_result := P_return (-1) fds (st <| ss_errno := e |>).

(** The end of the call. *)
Definition poll_end (fds cache : list pollfd) (active mixed : Z) (st : sockst) : poll_result :=
  if 0 <? mixed then
    match poll_copy st fds cache with
    | None => P_aborted
    | Some fds => P_return (active + mixed) fds st
    end
  else P_return (active + mixed) fds st.

(** The results of the poll of Linux in the cache. *)
Definition cache_set (cache : list pollfd) (l : list Z) : list pollfd :=
  zip_with (fun p r => p <| pf_revents := r |>) cache l.

(** How long to wait: 0, -1 for ever, or milliseconds. *)
Definition poll_block_ms (nfds_tas active mixed timeout mtimeout ms : Z) : Z :=
  if (0 <? nfds_tas) && (active =? 0) && (mixed =? 0) && negb (timeout =? 0) then
    if timeout =? -1 then -1 else if ms <? mtimeout then mtimeout - ms else 0
  else 0.

(** [cache] is the cache, [mixed] the events of Linux found so far. *)
Fixpoint poll_loop (env : list roundenv) (fds : list pollfd) (cache : option (list pollfd)) (mixed timeout mtimeout : Z)
    (st : sockst) : poll_result :=
  match env with
  | [] => P_blocked
  | re :: env =>
      match flextcp_sockctx_poll_n info flexnic_mem (Z.of_nat (length fds)) (re_before re st <| ss_now := re_now re |>) with
      | None => P_aborted
      | Some (_, st) =>
          let st := re_after re st in
          let '(ok, fds, (nl, nt, active)) := poll_scan st fds in
          if negb ok then poll_fail EINVAL fds st
          else
            let block_ms := poll_block_ms nt active mixed timeout mtimeout (re_ms re) in
            let again (fds : list pollfd) cache mixed st :=
              if (active =? 0) && (mixed =? 0) && negb (timeout =? 0) && ((timeout =? -1) || (re_ms_end re <? mtimeout))
              then poll_loop env fds cache mixed timeout mtimeout st
              else poll_end fds (default [] cache) active mixed st in
            if (0 <? nl) && (nt =? 0) then P_linux fds st
            else if (0 <? nl) && (mixed =? 0) then
              match (match cache with Some c => Some c | None => pollfd_cache_prepare alloc_ok st fds end) with
              | None => poll_fail ENOMEM fds st
              | Some c =>
                  let '(can, st) := if block_ms =? 0 then (false, st)
                                    else with_lib (flextcp_context_canwait info (ss_now st)) st in
                  match re_linux re with
                  | None => P_return (-1) fds st
                  | Some l =>
                      let n := count_ready l in
                      if (can : bool) && re_ctx re then
                        poll_loop env fds (Some (cache_set c l)) n timeout mtimeout (st <| ss_lib ::= flextcp_context_waitclear |>)
                      else again fds (Some (cache_set c l)) n st
                  end
              end
            else if (0 <? nt) && (nl =? 0) && negb (block_ms =? 0) then
              again fds cache mixed (with_lib (flextcp_context_wait info (ss_now st) (re_polled re)) st).2
            else again fds cache mixed st
      end
  end.

(** [ms] is the time at the start. *)
Definition tas_poll (fds : list pollfd) (timeout ms : Z) (env : list roundenv) (st : sockst) : poll_result :=
  poll_loop env fds None 0 timeout (if negb (timeout =? 0) && negb (timeout =? -1) then u64 (ms + timeout) else 0) st.

(** ** select *)

(** A set of descriptors, when it is given. *)
Definition fd_isset (set : option (gset Z)) (fd : Z) : bool :=
  match set with Some X => bool_decide (fd ∈ X) | None => false end.

Definition select_fds (nfds : Z) (r w e : option (gset Z)) : list pollfd :=
  omap (fun fd =>
    if fd_isset r fd || fd_isset w fd || fd_isset e fd then
      Some (mk_pollfd fd (flags [if fd_isset r fd then SELECT_POLLIN_SET else 0; if fd_isset w fd then SELECT_POLLOUT_SET else 0;
                                 if fd_isset e fd then SELECT_POLLEX_SET else 0]) 0)
    else None) (seqZ 0 nfds).

(** The descriptors without an event of [mask] leave the set. *)
Definition select_clear (mask : Z) (fds : list pollfd) (set : option (gset Z)) : option (gset Z) :=
  (fun X => foldr (fun p X => if any_flag (pf_revents p) mask then X else X ∖ {[pf_fd p]}) X fds) <$> set.

(** [timeout] are seconds and microseconds, [linux] the result of the poll of Linux where all
    descriptors are its own; the sets come back with the result. *)
Definition tas_select (nfds : Z) (r w e : option (gset Z)) (timeout : option (Z * Z)) (ms : Z) (linux : option (list Z))
    (env : list roundenv) (st : sockst) : poll_result * (option (gset Z) * option (gset Z) * option (gset Z)) :=
  if negb alloc_ok then (poll_fail ENOMEM [] st, (r, w, e))
  else
    let t := match timeout with None => -1 | Some (s, us) => s * 1000 + us / 1000 end in
    let res := match tas_poll (select_fds nfds r w e) t ms env st with
               | P_linux fds st =>
                   match linux with
                   | None => P_return (-1) fds st
                   | Some l => P_return (count_ready l) (cache_set fds l) st
                   end
               | res => res
               end in
    match res with
    | P_return ret fds st =>
        if ret <? 0 then (res, (r, w, e))
        else (res, (select_clear SELECT_POLLIN_SET fds r, select_clear SELECT_POLLOUT_SET fds w,
                    select_clear SELECT_POLLEX_SET fds e))
    | _ => (res, (r, w, e))
    end.

End Poll.
