(* ===== verification/SlowLoop.v ===== *)
(** * Budgets and blocking of the slow path (tas/slow/budget.c, tas/slow/kernel.c, tas/tas.c)

    The slow path hands out cycles to the VMs: the cycles since the last update, scaled by
    [bu_boost], are divided by weight among the registered VMs, and the share of a VM among
    the cores in proportion to what each has used.  Doubles are [spec_float]s. *)

From S2P Require Import Prelude FpTypes FlowRx FlowTx SpTypes SpState Cc Registry AppQ BufCache FastEmu Arp Tcp.
From Stdlib Require Import SpecFloat.

Record budget_config : Type := mk_bucfg { bc_max : Z; bc_update_freq : Z; bc_boost : spec_float; bc_tsc_per_us : Z }.

(** [bs_budgets] has the budget of a VM on a core, at (core, VM). *)
Record budgetst : Type := mk_bst {
  bs_weights : gmap Z spec_float; last_bu_update_ts : Z; budget_ts : Z; budget_period_tsc : Z;
  budget_threads_launched : Z; bs_budgets : gmap (Z * Z) Z }.
#[export] Instance eta_bst : Eta budgetst := fun r =>
  mk_bst (bs_weights r) (last_bu_update_ts r) (budget_ts r) (budget_period_tsc r) (budget_threads_launched r) (bs_budgets r).
#[export] Instance spec_float_inhabited : Inhabited spec_float := populate (S754_zero false).

Section Budget.
Context (cfg : budget_config).

Definition init_vm_weights : gmap Z spec_float :=
  list_to_map (map (fun v => (v, double_of_Z 1)) (seqZ 0 FLEXNIC_PL_VMST_NUM)).

Definition budget_init (threads : Z) (b : budgetst) : budgetst :=
  mk_bst init_vm_weights 0 0 (u64 (bc_update_freq cfg * bc_tsc_per_us cfg)) threads (bs_budgets b).

(** Unsigned. *)
Definition tas_get_budget (vm ctx : Z) (b : budgetst) : Z := u64 (bs_budgets b !!! (ctx, vm)).
Definition get_budget_delta (vm ctx : Z) (b : budgetst) : Z := u64 (bc_max cfg - bs_budgets b !!! (ctx, vm)).

Definition boost_budget (vm ctx incr : Z) (b : budgetst) : budgetst :=
  let old_budget := bs_budgets b !!! (ctx, vm) in
  let new_budget := s64 (old_budget + incr) in
  let incr := if s64 (bc_max cfg) <? new_budget then s64 (bc_max cfg - old_budget) else incr in
  b <| bs_budgets ::= <[(ctx, vm) := s64 (old_budget + incr)]> |>.

Definition dadd := SFadd 53 1024.
Definition dmul := SFmul 53 1024.
Definition ddiv := SFdiv 53 1024.

(** The share of each core; [deltas] is read before. *)
Fixpoint budget_cores (vm : Z) (incr : Z) (deltas_sum : spec_float) (deltas : list spec_float) (ctx : Z) (b : budgetst)
    : option budgetst :=
  match deltas with
  | [] => Some b
  | d :: deltas =>
      let delta_weight := if SFeqb deltas_sum (double_of_Z 0)
                          then ddiv (double_of_Z 1) (double_of_Z (budget_threads_launched b))
                          else ddiv d deltas_sum in
      let weighted_incr := s64 (Z_of_double (dmul (double_of_Z incr) delta_weight)) in
      cassert (0 <=? weighted_incr);;
      cassert (SFleb (double_of_Z 0) delta_weight && SFleb delta_weight (double_of_Z 1));;
      budget_cores vm incr deltas_sum deltas (ctx + 1) (boost_budget vm ctx weighted_incr b)
  end.

Fixpoint budget_vms (vms : list Z) (total_budget : Z) (weights_sum : spec_float) (b : budgetst) : option budgetst :=
  match vms with
  | [] => Some b
  | vm :: vms =>
      let n := budget_threads_launched b in
      let incr := s64 (Z_of_double (dmul (ddiv (dmul (double_of_Z total_budget) (bs_weights b !!! vm)) weights_sum) (double_of_Z n))) in
      let deltas := map (fun ctx => double_of_Z (get_budget_delta vm ctx b)) (seqZ 0 n) in
      b ← budget_cores vm incr (foldl dadd (double_of_Z 0) deltas) deltas 0 b;
      budget_vms vms total_budget weights_sum b
  end.

(** [vms] are the ids of the registered VMs. *)
Definition budget_update (vms : list Z) (cur_tsc : Z) (b : budgetst) : option budgetst :=
  if u64 (cur_tsc - budget_ts b) <? budget_period_tsc b then Some b
  else
    let b := b <| budget_ts := cur_tsc |> in
    let total_budget := s64 (Z_of_double (dmul (bc_boost cfg) (double_of_Z (u64 (cur_tsc - last_bu_update_ts b))))) in
    b ← (if (length vms =? 0)%nat then Some b
         else budget_vms vms total_budget (foldl (fun s vm => dadd s (bs_weights b !!! vm)) (double_of_Z 0) vms) b);
    Some (b <| last_bu_update_ts := cur_tsc |>).

(** ** No VM is given more than the most a core grants it *)

Hypothesis max_ok : 0 <= bc_max cfg < 2 ^ 63.

Definition capped (b : budgetst) : Prop := forall k, bs_budgets b !!! k <= bc_max cfg.

Lemma boost_budget_at vm ctx incr b : 
  bs_budgets (boost_budget vm ctx incr b) !!! (ctx, vm) <= bc_max cfg.
Proof using max_ok.
  unfold boost_budget. cbn. rewrite lookup_total_insert_eq.
  set (old := bs_budgets b !!! (ctx, vm)).
  change (2 ^ 63) with 9223372036854775808 in max_ok.
  destruct (Z.ltb_spec (s64 (bc_max cfg)) (s64 (old + incr))); unfold s64 in *; Z.to_euclidean_division_equations; lia.
Qed.

Lemma boost_budget_capped vm ctx incr b : capped b -> capped (boost_budget vm ctx incr b).
Proof using max_ok.
  intros Hb k. destruct (decide (k = (ctx, vm))) as [->|Hk]; [apply boost_budget_at|].
  unfold boost_budget. cbn. rewrite lookup_total_insert_ne by done. apply Hb.
Qed.

Lemma budget_cores_capped vm incr sum ds : forall ctx b b',
  budget_cores vm incr sum ds ctx b = Some b' -> capped b -> capped b'.
Proof using max_ok.
  induction ds as [|d ds IH]; cbn [budget_cores]; intros ctx b b' H Hb; [by simplify_eq|].
  apply bind_Some in H as (? & _ & H). apply bind_Some in H as (? & _ & H).
  eapply IH; [exact H|]. by apply boost_budget_capped.
Qed.

Lemma budget_vms_capped vms total sum : forall b b',
  budget_vms vms total sum b = Some b' -> capped b -> capped b'.
Proof using max_ok.
  induction vms as [|vm vms IH]; cbn [budget_vms]; intros b b' H Hb; [by simplify_eq|].
  apply bind_Some in H as (b1 & H1 & H). eapply IH; [exact H|].
  by eapply budget_cores_capped.
Qed.

Lemma budget_update_capped vms cur_tsc b b' :
  budget_update vms cur_tsc b = Some b' -> capped b -> capped b'.
Proof using max_ok.
  unfold budget_update. intros H Hb. case_match; [by simplify_eq|].
  apply bind_Some in H as (b1 & H1 & [= <-]). intros k. cbn.
  case_match; [simplify_eq; apply Hb|]. by eapply budget_vms_capped.
Qed.

End Budget.

(** ** The main loop *)

(** The callback of the timeout manager; [ident] is the entry or the connection whose
    timeout it is. *)
Section Timeouts.
Context (E : fpenv) (config : configuration) (rte_hash_crc : list Z -> Z -> Z).

Definition TO_TCP_RETRANSMIT : Z := 2.

Definition timeout_trigger (ident type : Z) (st : spst) : option spst :=
  if type =? TO_ARP_REQ then arp_timeout E config ident st
  else if (type =? TO_TCP_HANDSHAKE) || (type =? TO_TCP_RETRANSMIT) || (type =? TO_TCP_CLOSED)
  then tcp_timeout E config ident type st
  else None.

(** A timeout of type [TO_TCP_RETRANSMIT] would stop the slow path at the assertion of
    [tcp_timeout]. *)
Lemma timeout_trigger_retransmit ident st :
  timeout_trigger ident TO_TCP_RETRANSMIT st = None.
Proof. unfold timeout_trigger, tcp_timeout. cbn. by destruct (to_armed _). Qed.

End Timeouts.

(** The timeout of [epoll_wait] in milliseconds when the slow path blocks. *)
Definition slowpath_block_ms (cc_timeout util_timeout : Z) : Z :=
  let timeout_us :=
    if negb (cc_timeout =? UINT32_MAX) && negb (util_timeout =? UINT32_MAX) then Z.min cc_timeout util_timeout
    else if negb (cc_timeout =? UINT32_MAX) then util_timeout
    else cc_timeout in
  let timeout_ms := if negb (timeout_us =? UINT32_MAX) then timeout_us / 1000 else -1 in
  if (timeout_ms =? -1) || (1000 <? timeout_ms) then 10 else timeout_ms.

(** With a single timeout it is not the one taken, and the wait is always 10 ms. *)
Lemma slowpath_block_one t :
  slowpath_block_ms t UINT32_MAX = 10 /\ slowpath_block_ms UINT32_MAX t = 10.
Proof.
  unfold slowpath_block_ms. rewrite Z.eqb_refl. cbn [negb andb]. rewrite andb_false_r.
  split; [|done]. destruct (Z.eqb_spec t UINT32_MAX) as [->|]; done.
Qed.

(** With both it is the earlier one, in whole milliseconds. *)
Lemma slowpath_block_both cc ut : 0 <= cc < UINT32_MAX -> 0 <= ut < UINT32_MAX ->
  Z.min cc ut < 1001000 -> slowpath_block_ms cc ut = Z.min cc ut / 1000.
Proof.
  intros Hc Hu Hm. unfold slowpath_block_ms, UINT32_MAX in *.
  rewrite (proj2 (Z.eqb_neq cc _)), (proj2 (Z.eqb_neq ut _)) by lia. cbn [negb andb].
  rewrite (proj2 (Z.eqb_neq (Z.min cc ut) _)) by lia. cbn [negb].
  rewrite (proj2 (Z.eqb_neq (_ / 1000) _)), (proj2 (Z.ltb_ge 1000 _)); [done| |];
    pose proof (Z.div_pos (Z.min cc ut) 1000); pose proof (Z.div_lt_upper_bound (Z.min cc ut) 1000 1001); lia.
Qed.
