(* ===== verification/Connect.v ===== *)
(** * Connecting an application to TAS (tas/slow/appif_connect.c, lib/tas/kernel.c)

    A Unix socket carries messages: bytes and the file descriptors that come with them.
    The slow path (or the proxy in a VM) greets an application with the descriptors to wake
    it, of the shared memory and of the cores; the library takes them.  A context is then
    asked for with a request and described by the response. *)

From S2P Require Import Prelude FpTypes SpTypes SpState LibTypes.

(** ** Sockets *)

Record uxmsg : Type := mk_uxmsg { um_data : list Z; um_fds : list Z }.

(** [recvmsg] with room for [n] bytes and [k] descriptors, which come with the first byte
    of the message they were sent with; [None]: it waits. *)
Definition recvmsg (n k : nat) (s : list uxmsg) : option (list Z * list Z * list uxmsg) :=
  match s with
  | [] => None
  | m :: s =>
      let rest := drop n (um_data m) in
      Some (take n (um_data m), take k (um_fds m),
            if (length rest =? 0)%nat then s else mk_uxmsg rest [] :: s)
  end.

(** The bytes of an integer, the lowest first. *)
Fixpoint le (n : nat) (z : Z) : list Z :=
  match n with O => [] | S n => z mod 256 :: le n (z / 256) end.
Definition unle (l : list Z) : Z := foldr (fun b a => b + 256 * a) 0 l.

Lemma le_length n : forall z, length (le n z) = n.
Proof. induction n as [|n IH]; intros z; [done|]. cbn [le length]. by rewrite IH. Qed.

Lemma unle_le n : forall z, unle (le n z) = z mod 256 ^ Z.of_nat n.
Proof.
  induction n as [|n IH]; intros z; [by rewrite Z.mod_1_r|].
  cbn [le]. change (z mod 256 + 256 * unle (le n (z / 256)) = z mod 256 ^ Z.of_nat (S n)).
  rewrite IH, Nat2Z.inj_succ, Z.pow_succ_r by lia.
  rewrite Z.rem_mul_r by (try apply Z.pow_nonzero; lia). lia.
Qed.

Lemma unle_le_small n z : 0 <= z < 256 ^ Z.of_nat n -> unle (le n z) = z.
Proof. intros Hz. rewrite unle_le. by apply Z.mod_small. Qed.

Lemma take_le n z l : take n (le n z ++ l) = le n z.
Proof. apply take_app_length'. by rewrite le_length. Qed.
Lemma drop_le n z l : drop n (le n z ++ l) = l.
Proof. apply drop_app_length'. by rewrite le_length. Qed.

(** ** The greeting *)

(** [CMSG_SPACE] of one [int] has room for two descriptors, that of four for four. *)
Definition CMSG_ROOM_1 : nat := 2.
Definition CMSG_ROOM_4 : nat := 4.

(** [sent i]: whether the [i]-th [sendmsg] of the greeting sends its message. *)
Section Send.
Context (sent : Z -> bool).

Definition uxsocket_send_kernel_notifyfd (cores_num kernel_notifyfd : Z) : Z * list uxmsg :=
  if sent 0 then (0, [mk_uxmsg (le 4 cores_num) [kernel_notifyfd]]) else (-1, []).

Definition uxsocket_send_shm_fd (shmfd : Z) : Z * list uxmsg :=
  if sent 1 then (0, [mk_uxmsg [0] [shmfd]]) else (-1, []).

(** From the descriptor [off] on; [None]: aborted. *)
Fixpoint send_core_fds (fuel : nat) (evfds : Z -> Z) (off cores_num : Z) : option (list uxmsg) :=
  match fuel with
  | O => None
  | S fuel =>
      if off <? cores_num then
        let n := if 4 <=? cores_num - off then 4 else cores_num - off in
        if sent (2 + off / 4) then
          l ← send_core_fds fuel evfds (off + n) cores_num;
          Some (mk_uxmsg [0] (map evfds (seqZ off n)) :: l)
        else None
      else Some []
  end.

Definition uxsocket_send_core_fds (evfds : Z -> Z) (cores_num : Z) : option (list uxmsg) :=
  send_core_fds (S (Z.to_nat cores_num)) evfds 0 cores_num.

(** The result and what was sent; [None]: aborted.  [evfds] has the descriptor of each
    core. *)
Definition appif_connect_accept (cores_num kernel_notifyfd shm_fd : Z) (evfds : Z -> Z)
    : option (Z * list uxmsg) :=
  let '(r, s1) := uxsocket_send_kernel_notifyfd cores_num kernel_notifyfd in
  if negb (r =? 0) then Some (-1, s1)
  else
    let '(r, s2) := uxsocket_send_shm_fd shm_fd in
    if negb (r =? 0) then Some (-1, s1 ++ s2)
    else
      s3 ← uxsocket_send_core_fds evfds cores_num;
      Some (0, s1 ++ s2 ++ s3).

End Send.

(** In a VM it is the proxy that greets; there a message that is not sent is an error. *)
Section Guest.
Context (sent : Z -> bool).

Definition vflextcp_send_kernel_notifyfd (cores_num kernel_notifyfd : Z) : Z * list uxmsg :=
  if sent 0 then (0, [mk_uxmsg (le 4 cores_num) [kernel_notifyfd]]) else (-1, []).

Definition vflextcp_send_shm_fd (shmfd : Z) : Z * list uxmsg :=
  if sent 1 then (0, [mk_uxmsg [0] [shmfd]]) else (-1, []).

Fixpoint vsend_core_fds (fuel : nat) (core_evfds : Z -> Z) (off cores_num : Z) : option (Z * list uxmsg) :=
  match fuel with
  | O => None
  | S fuel =>
      if off <? cores_num then
        let n := if 4 <=? cores_num - off then 4 else cores_num - off in
        if sent (2 + off / 4) then
          '(r, l) ← vsend_core_fds fuel core_evfds (off + n) cores_num;
          Some (r, mk_uxmsg [0] (map core_evfds (seqZ off n)) :: l)
        else Some (-1, [])
      else Some (0, [])
  end.

Definition vflextcp_send_core_fds (core_evfds : Z -> Z) (cores_num : Z) : option (Z * list uxmsg) :=
  vsend_core_fds (S (Z.to_nat cores_num)) core_evfds 0 cores_num.

End Guest.

(** [None]: aborted or waiting. *)
Definition flextcp_kernel_get_notifyfd (s : list uxmsg) : option (Z * Z * list uxmsg) :=
  '(d, fds, s) ← recvmsg 4 CMSG_ROOM_1 s;
  cassert (length d =? 4)%nat;;
  cassert (length fds =? 1)%nat;;
  Some (unle d, hd 0 fds, s).

Definition flextcp_kernel_get_shmfd (s : list uxmsg) : option (Z * list uxmsg) :=
  '(d, fds, s) ← recvmsg 1 CMSG_ROOM_1 s;
  cassert (length d =? 1)%nat;;
  cassert (length fds =? 1)%nat;;
  Some (hd 0 fds, s).

(** The descriptors from [off] on. *)
Fixpoint recv_core_fds (fuel : nat) (off num_fds : Z) (s : list uxmsg) : option (list Z * list uxmsg) :=
  match fuel with
  | O => None
  | S fuel =>
      if off <? num_fds then
        '(d, fds, s) ← recvmsg 1 CMSG_ROOM_4 s;
        cassert (length d =? 1)%nat;;
        let n := if 4 <=? num_fds - off then 4 else num_fds - off in
        cassert (Z.of_nat (length fds) =? n);;
        '(l, s) ← recv_core_fds fuel (off + n) num_fds s;
        Some (fds ++ l, s)
      else Some ([], s)
  end.

(** What a connected process knows: [kernel_evfd], [shmfd] and [flexnic_evfd]. *)
Record greeting : Type := mk_greeting { gr_kernel_evfd : Z; gr_shmfd : Z; gr_evfds : list Z }.

(** After [connect]. *)
Definition flextcp_kernel_connect_path (s : list uxmsg) : option (greeting * list uxmsg) :=
  '(num_fds, kernel_evfd, s) ← flextcp_kernel_get_notifyfd s;
  '(shmfd, s) ← flextcp_kernel_get_shmfd s;
  '(evfds, s) ← recv_core_fds (S (Z.to_nat num_fds)) 0 num_fds s;
  Some (mk_greeting kernel_evfd shmfd evfds, s).

(** The proxy connects once for each VM and keeps all descriptors, and once more for each
    application, which it does not keep; there the descriptors are not even counted. *)
Definition flextcp_vm_kernel_connect (s : list uxmsg) : option (greeting * list uxmsg) :=
  '(num_fds, kernel_evfd, s) ← flextcp_kernel_get_notifyfd s;
  '(shmfd, s) ← flextcp_kernel_get_shmfd s;
  '(evfds, s) ← recv_core_fds (S (Z.to_nat num_fds)) 0 num_fds s;
  Some (mk_greeting kernel_evfd shmfd evfds, s).

Fixpoint skip_core_fds (fuel : nat) (off num_fds : Z) (s : list uxmsg) : option (list uxmsg) :=
  match fuel with
  | O => None
  | S fuel =>
      if off <? num_fds then
        '(d, fds, s) ← recvmsg 1 CMSG_ROOM_4 s;
        cassert (length d =? 1)%nat;;
        let n := if 4 <=? num_fds - off then 4 else num_fds - off in
        skip_core_fds fuel (off + n) num_fds s
      else Some s
  end.

Definition flextcp_proxy_kernel_newapp (s : list uxmsg) : option (list uxmsg) :=
  '(num_fds, temp_kernel_evfd, s) ← flextcp_kernel_get_notifyfd s;
  '(temp_shmfd, s) ← flextcp_kernel_get_shmfd s;
  skip_core_fds (S (Z.to_nat num_fds)) 0 num_fds s.

(** ** Creating a context

    [struct kernel_uxsock_response]: 32 bytes and 16 for each core. *)
Record uxresponse : Type := mk_uxresp {
  ur_app_out_off : Z; ur_app_in_off : Z; ur_app_out_len : Z; ur_app_in_len : Z; ur_status : Z;
  ur_db_id : Z; ur_qs_num : Z; ur_qs : list (Z * Z) }.

Definition sizeof_uxresponse : nat := 32.
Definition qs_bytes (qs : list (Z * Z)) : list Z := flat_map (fun q => le 8 q.1 ++ le 8 q.2) qs.
Definition uxresponse_bytes (r : uxresponse) : list Z :=
  le 8 (ur_app_out_off r) ++ le 8 (ur_app_in_off r) ++ le 4 (ur_app_out_len r) ++ le 4 (ur_app_in_len r)
  ++ le 4 (ur_status r) ++ le 2 (ur_db_id r) ++ le 2 (ur_qs_num r) ++ qs_bytes (ur_qs r).

(** The field of [n] bytes at [off], and the entries of [flexnic_qs]. *)
Definition field (off n : nat) (l : list Z) : Z := unle (take n (drop off l)).
Definition uxresponse_qs (n : Z) (l : list Z) : list (Z * Z) :=
  map (fun i => (field (Z.to_nat (32 + 16 * i)) 8 l, field (Z.to_nat (40 + 16 * i)) 8 l)) (seqZ 0 n).

(** The bytes come in pieces of some size; [None] is an error of [read].  At the end of the
    stream [read] returns 0. *)
Definition stream : Type := list (option (list Z)).

(** [while (off < want)]: the outer [None]: not ended, the inner one: returned [-1]. *)
Fixpoint read_loop (fuel want : nat) (buf : list Z) (s : stream) : option (option (list Z) * stream) :=
  match fuel with
  | O => None
  | S fuel =>
      if (length buf <? want)%nat then
        match s with
        | [] => read_loop fuel want buf []
        | None :: s => Some (None, s)
        | Some c :: s =>
            let n := (want - length buf)%nat in
            let rest := drop n c in
            read_loop fuel want (buf ++ take n c) (if (length rest =? 0)%nat then s else Some rest :: s)
        end
      else Some (Some buf, s)
  end.

Definition FLEXTCP_MAX_FTCPCORES : Z := 16.
Definition NIC_RXQ_LEN : Z := 2097152.
Definition NIC_TXQ_LEN : Z := 524288.

Definition newctx_request (evfd : Z) : uxmsg := mk_uxmsg (le 4 NIC_RXQ_LEN ++ le 4 NIC_TXQ_LEN) [evfd].

(** Where the rings of a context are: [kin_base], [kout_base], and for each core [rxq_base]
    and [txq_base]. *)
Record ctx_bases : Type := mk_cb { cb_kin : Z; cb_kout : Z; cb_qs : list (Z * Z) }.

Inductive newctx_result : Type :=
| NewctxFailed | NewctxResp (resp : list Z) (size : Z) | NewctxDone (b : ctx_bases) (c : flextcp_context).

Definition newctx_queue (q : lib_queue) : lib_queue :=
  q <| rxq_head := 0 |> <| txq_tail := 0 |> <| txq_avail := NIC_TXQ_LEN |> <| lq_last_ts := 0 |>.

(** [mem]: the address of [flexnic_mem]. *)
Definition newctx_fill (mem : Z) (resp : list Z) (ctx : flextcp_context) : ctx_bases * flextcp_context :=
  let n := field 30 2 resp in
  (mk_cb (mem + field 0 8 resp) (mem + field 8 8 resp)
     (map (fun q => (mem + q.1, mem + q.2)) (uxresponse_qs n resp)),
   ctx <| lx_kin_len := field 16 4 resp / 64 |> <| kin_head := 0 |>
       <| lx_kout_len := field 20 4 resp / 73 |> <| kout_head := 0 |>
       <| lx_db_id := field 28 2 resp |> <| num_queues := n |> <| next_queue := 0 |>
       <| rxq_len := NIC_RXQ_LEN |> <| txq_len := NIC_TXQ_LEN |>
       <| queues ::= fun h => foldl (fun h i => <[i := newctx_queue (h !!! i)]> h) h (seqZ 0 n) |>).

(** After the request is sent; [presp]: the caller wants the response itself. *)
Definition flextcp_kernel_newctx (fuel : nat) (presp : bool) (mem : Z) (ctx : flextcp_context) (s : stream)
    : option (newctx_result * stream) :=
  '(hdr, s) ← read_loop fuel sizeof_uxresponse [] s;
  match hdr with
  | None => Some (NewctxFailed, s)
  | Some hdr =>
      let n := field 30 2 hdr in
      cassert (n <=? FLEXTCP_MAX_FTCPCORES);;
      let total_sz := 32 + n * 16 in
      '(resp, s) ← read_loop fuel (Z.to_nat total_sz) hdr s;
      match resp with
      | None => Some (NewctxFailed, s)
      | Some resp =>
          if negb (field 24 4 resp =? 0) then Some (NewctxFailed, s)
          else if presp then Some (NewctxResp resp total_sz, s)
          else let '(b, c) := newctx_fill mem resp ctx in Some (NewctxDone b c, s)
      end
  end.

(** The proxy does the same for an application in a VM; [mem] is then [flexnic_mem_pxy]
    at the VM. *)
Definition flextcp_proxy_kernel_newctx (fuel : nat) (presp : bool) (mem : Z) (ctx : flextcp_context) (s : stream)
    : option (newctx_result * stream) :=
  '(hdr, s) ← read_loop fuel sizeof_uxresponse [] s;
  match hdr with
  | None => Some (NewctxFailed, s)
  | Some hdr =>
      let n := field 30 2 hdr in
      cassert (n <=? FLEXTCP_MAX_FTCPCORES);;
      let total_sz := 32 + n * 16 in
      '(resp, s) ← read_loop fuel (Z.to_nat total_sz) hdr s;
      match resp with
      | None => Some (NewctxFailed, s)
      | Some resp =>
          if negb (field 24 4 resp =? 0) then Some (NewctxFailed, s)
          else if presp then Some (NewctxResp resp total_sz, s)
          else let '(b, c) := newctx_fill mem resp ctx in Some (NewctxDone b c, s)
      end
  end.

(** ** What is sent is received *)

Lemma recvmsg_whole n k d fds s : length d = n -> (length fds <= k)%nat ->
  recvmsg n k (mk_uxmsg d fds :: s) = Some (d, fds, s).
Proof.
  intros Hd Hf. cbn [recvmsg um_data um_fds].
  rewrite drop_ge, !take_ge by lia. done.
Qed.

(** The size of the next batch of descriptors. *)
Lemma batch_bounds off n : off < n ->
  let k := if 4 <=? n - off then 4 else n - off in 0 < k <= 4 /\ off + k <= n.
Proof. intros H. cbv zeta. destruct (Z.leb_spec 4 (n - off)); lia. Qed.

Lemma core_fds_roundtrip sent evfds fuel off n l rest : forall fuel',
  send_core_fds sent fuel evfds off n = Some l -> 0 <= off <= n -> (Z.to_nat (n - off) < fuel')%nat ->
  recv_core_fds fuel' off n (l ++ rest) = Some (map evfds (seqZ off (n - off)), rest).
Proof.
  revert off l. induction fuel as [|fuel IH]; cbn [send_core_fds]; intros off l [|fuel'] H Hoff Hf; try done; [lia|].
  cbn [recv_core_fds]. destruct (Z.ltb_spec off n) as [Hlt|Hge].
  2: { simplify_eq. replace (n - off) with 0 by lia. done. }
  destruct (batch_bounds off n Hlt) as [Hk Hle]. revert H Hk Hle.
  set (k := if 4 <=? n - off then 4 else n - off). intros H Hk Hle.
  destruct (sent (2 + off / 4)); [|done].
  apply bind_Some in H as (l' & Hl' & [= <-]).
  assert (Hlen : length (map evfds (seqZ off k)) = Z.to_nat k) by by rewrite length_map, length_seqZ.
  cbn [app]. rewrite recvmsg_whole by (rewrite ?Hlen; unfold CMSG_ROOM_4; cbn; lia).
  cbn [mbind option_bind length Nat.eqb cassert]. rewrite Hlen, Z2Nat.id, Z.eqb_refl by lia. cbn [cassert mbind option_bind].
  rewrite (IH _ _ fuel' Hl') by lia. cbn [mbind option_bind]. f_equal. f_equal.
  rewrite <- map_app. f_equal. replace (n - off) with (k + (n - (off + k))) by lia.
  rewrite seqZ_app by lia. done.
Qed.

Lemma skip_core_fds_recv fuel off n s l rest :
  recv_core_fds fuel off n s = Some (l, rest) -> skip_core_fds fuel off n s = Some rest.
Proof.
  revert off s l. induction fuel as [|fuel IH]; cbn [recv_core_fds skip_core_fds]; intros off s l H; [done|].
  destruct (off <? n); [|by simplify_eq].
  apply bind_Some in H as ([[d fds] s'] & -> & H). cbn [mbind option_bind].
  apply bind_Some in H as (u & -> & H). cbn [mbind option_bind].
  apply bind_Some in H as (u' & _ & H). apply bind_Some in H as ([l' s''] & Hl & [= _ <-]). by eapply IH.
Qed.

Section Greet.
Context (sent : Z -> bool) (cores_num kernel_notifyfd shm_fd : Z) (evfds : Z -> Z).
Hypothesis cores_ok : 0 <= cores_num < 2 ^ 31.

Lemma get_notifyfd_sent s :
  flextcp_kernel_get_notifyfd (mk_uxmsg (le 4 cores_num) [kernel_notifyfd] :: s)
    = Some (cores_num, kernel_notifyfd, s).
Proof using cores_ok.
  unfold flextcp_kernel_get_notifyfd. rewrite recvmsg_whole by (rewrite ?le_length; unfold CMSG_ROOM_1; cbn; lia).
  cbn [mbind option_bind length]. rewrite le_length. cbn [Nat.eqb cassert mbind option_bind].
  rewrite unle_le_small; [done|]. change (256 ^ Z.of_nat 4) with (2 ^ 32). lia.
Qed.

Lemma get_shmfd_sent s : flextcp_kernel_get_shmfd (mk_uxmsg [0] [shm_fd] :: s) = Some (shm_fd, s).
Proof. done. Qed.

(** A process that connects gets from the greeting of the slow path the number of cores,
    the descriptor to wake the slow path, that of the shared memory, and those of the cores
    in their order, in batches of four; nothing of what follows on the socket is consumed.
    The proxy, which drops the greeting of an application, consumes the same. *)
Theorem greeting_roundtrip msgs rest :
  appif_connect_accept sent cores_num kernel_notifyfd shm_fd evfds = Some (0, msgs) ->
  flextcp_kernel_connect_path (msgs ++ rest)
    = Some (mk_greeting kernel_notifyfd shm_fd (map evfds (seqZ 0 cores_num)), rest)
  /\ flextcp_proxy_kernel_newapp (msgs ++ rest) = Some rest.
Proof using cores_ok.
  unfold appif_connect_accept, uxsocket_send_kernel_notifyfd, uxsocket_send_shm_fd.
  destruct (sent 0); [|done]. destruct (sent 1); [|done]. intros H. cbn [negb Z.eqb] in H.
  apply bind_Some in H as (s3 & H3 & [= <-]). unfold uxsocket_send_core_fds in H3.
  pose proof (core_fds_roundtrip _ _ _ _ _ _ rest (S (Z.to_nat cores_num)) H3 ltac:(lia) ltac:(lia)) as Hr.
  rewrite Z.sub_0_r in Hr. unfold flextcp_kernel_connect_path, flextcp_proxy_kernel_newapp.
  cbn [app]. rewrite get_notifyfd_sent. cbn [mbind option_bind].
  rewrite get_shmfd_sent. cbn [mbind option_bind]. rewrite Hr. split; [done|].
  by eapply skip_core_fds_recv.
Qed.

(** The proxy of a VM sends the same greeting. *)
Lemma vsend_core_fds_same fuel off l :
  vsend_core_fds sent fuel evfds off cores_num = Some (0, l) ->
  send_core_fds sent fuel evfds off cores_num = Some l.
Proof using.
  revert off l. induction fuel as [|fuel IH]; cbn [vsend_core_fds send_core_fds]; intros off l H; [done|].
  destruct (off <? cores_num); [|by simplify_eq]. destruct (sent _); [|done].
  apply bind_Some in H as ([r l'] & H & [= -> <-]). by rewrite (IH _ _ H).
Qed.

End Greet.

Lemma greeting_roundtrip_witness :
  exists msgs, appif_connect_accept (fun _ => true) 6 9 10 (fun i => 20 + i) = Some (0, msgs)
    /\ flextcp_kernel_connect_path (msgs ++ [mk_uxmsg [1] []])
         = Some (mk_greeting 9 10 [20; 21; 22; 23; 24; 25], [mk_uxmsg [1] []]).
Proof.
  eexists. split; [vm_compute; reflexivity|].
  apply (greeting_roundtrip (fun _ => true) 6 9 10 (fun i => 20 + i) ltac:(lia)). vm_compute. reflexivity.
Defined.

(** A greeting that can be sent is sent. *)
Lemma send_core_fds_total evfds fuel off n : 0 <= off <= n -> (Z.to_nat (n - off) < fuel)%nat ->
  is_Some (send_core_fds (fun _ => true) fuel evfds off n).
Proof.
  revert off. induction fuel as [|fuel IH]; intros off Ho Hf; [lia|]. cbn [send_core_fds].
  destruct (Z.ltb_spec off n) as [Hlt|]; [|done]. destruct (batch_bounds off n Hlt) as [Hk Hle].
  destruct (IH (off + (if 4 <=? n - off then 4 else n - off)) ltac:(lia) ltac:(lia)) as [l ->]. done.
Qed.

(** ** The response *)

Lemma read_loop_done fuel want buf s : (want <= length buf)%nat -> (0 < fuel)%nat ->
  read_loop fuel want buf s = Some (Some buf, s).
Proof.
  intros Hl Hf. destruct fuel as [|fuel]; [lia|]. cbn [read_loop].
  by rewrite (proj2 (Nat.ltb_ge _ _)).
Qed.

(** However the bytes are cut into pieces, the loop takes the bytes it wants and leaves the
    others, in at most one more step than there are pieces. *)
Lemma read_loop_ok want : forall cs fuel buf,
  Forall (fun c => c <> []) cs -> (want <= length buf + length (concat cs))%nat ->
  (length buf <= want)%nat -> (length cs < fuel)%nat ->
  exists cs', read_loop fuel want buf (map Some cs) = Some (Some (take want (buf ++ concat cs)), map Some cs')
    /\ concat cs' = drop want (buf ++ concat cs) /\ Forall (fun c => c <> []) cs'
    /\ (length cs' <= length cs)%nat.
Proof.
  intros cs. induction cs as [|c cs IH]; intros fuel buf Hne Hw Hb Hf.
  - cbn in Hw. exists []. rewrite read_loop_done by lia. cbn [concat map]. rewrite app_nil_r, take_ge, drop_ge by lia. done.
  - destruct fuel as [|fuel]; [lia|]. apply Forall_cons in Hne as [Hc Hne].
    cbn [read_loop map concat] in *. rewrite length_app in Hw. cbn [length] in Hf.
    destruct (Nat.ltb_spec (length buf) want) as [Hlt|Hge].
    2: { assert (want = length buf) as -> by lia. exists (c :: cs).
      rewrite take_app_length, drop_app_length. split_and!; [done|done|by constructor|cbn; lia]. }
    set (n := (want - length buf)%nat).
    destruct (Nat.leb_spec (length c) n) as [Hle|Hgt].
    + rewrite drop_ge, take_ge by lia. cbn [length Nat.eqb].
      destruct (IH fuel (buf ++ c) Hne) as (cs' & E & Hcs & Hn' & Hl'); [rewrite ?length_app; lia..|].
      exists cs'. rewrite <- app_assoc in E, Hcs. split_and!; [done|done|done|cbn; lia].
    + assert (Hd : (length (drop n c) =? 0)%nat = false) by (apply Nat.eqb_neq; rewrite length_drop; lia).
      rewrite Hd. exists (drop n c :: cs).
      assert (Ht : length (buf ++ take n c) = want) by (rewrite length_app, length_take; lia).
      rewrite read_loop_done by lia.
      rewrite take_app_ge, drop_app_ge by lia. fold n.
      rewrite take_app_le, drop_app_le by lia. split_and!; [done|done| |cbn; lia].
      constructor; [|done]. intros E. apply Nat.eqb_neq in Hd. by rewrite E in Hd.
Qed.

(** The response fits its fields. *)
Definition uxresponse_ok (r : uxresponse) : Prop :=
  is_u64 (ur_app_out_off r) /\ is_u64 (ur_app_in_off r) /\ is_u32 (ur_app_out_len r)
  /\ is_u32 (ur_app_in_len r) /\ is_u32 (ur_status r) /\ is_u16 (ur_db_id r) /\ is_u16 (ur_qs_num r)
  /\ Z.of_nat (length (ur_qs r)) = ur_qs_num r /\ Forall (fun q => is_u64 q.1 /\ is_u64 q.2) (ur_qs r).

Lemma qs_bytes_length qs : length (qs_bytes qs) = (16 * length qs)%nat.
Proof.
  induction qs as [|q qs IH]; [done|]. cbn [qs_bytes flat_map]. fold (qs_bytes qs).
  rewrite !length_app, !le_length, IH. cbn [length]. lia.
Qed.

Lemma uxresponse_length r : length (uxresponse_bytes r) = (32 + 16 * length (ur_qs r))%nat.
Proof. unfold uxresponse_bytes. rewrite !length_app, !le_length, qs_bytes_length. lia. Qed.

(** Reading the field after [p] bytes. *)
Lemma field_at p n z l : 0 <= z < 256 ^ Z.of_nat n -> field (length p) n (p ++ le n z ++ l) = z.
Proof.
  intros Hz. unfold field. rewrite drop_app_length, take_le. by apply unle_le_small.
Qed.

(** The field of the [n] bytes at [off] is [z], when that is what the list has there. *)
Lemma field_split off n z p l b : b = p ++ le n z ++ l -> length p = off ->
  0 <= z < 256 ^ Z.of_nat n -> field off n b = z.
Proof. intros -> <- Hz. by apply field_at. Qed.

Lemma uxresponse_fields r : uxresponse_ok r ->
  let b := uxresponse_bytes r in
  field 0 8 b = ur_app_out_off r /\ field 8 8 b = ur_app_in_off r /\ field 16 4 b = ur_app_out_len r
  /\ field 20 4 b = ur_app_in_len r /\ field 24 4 b = ur_status r /\ field 28 2 b = ur_db_id r
  /\ field 30 2 b = ur_qs_num r.
Proof.
  intros (H1 & H2 & H3 & H4 & H5 & H6 & H7 & _). cbv zeta. unfold uxresponse_bytes.
  set (A := le 8 (ur_app_out_off r)). set (B := le 8 (ur_app_in_off r)). set (C := le 4 (ur_app_out_len r)).
  set (D := le 4 (ur_app_in_len r)). set (S' := le 4 (ur_status r)). set (F := le 2 (ur_db_id r)).
  assert (L : length A = 8%nat /\ length B = 8%nat /\ length C = 4%nat /\ length D = 4%nat
    /\ length S' = 4%nat /\ length F = 2%nat) by by split_and!; apply le_length.
  split_and!.
  - eapply (field_split 0 8 _ []); [reflexivity|done|exact H1].
  - eapply (field_split 8 8 _ A); [reflexivity|apply le_length|exact H2].
  - eapply (field_split 16 4 _ (A ++ B)); [by rewrite <- !app_assoc|rewrite ?length_app; lia|exact H3].
  - eapply (field_split 20 4 _ (A ++ B ++ C)); [by rewrite <- !app_assoc|rewrite ?length_app; lia|exact H4].
  - eapply (field_split 24 4 _ (A ++ B ++ C ++ D)); [by rewrite <- !app_assoc|rewrite ?length_app; lia|exact H5].
  - eapply (field_split 28 2 _ (A ++ B ++ C ++ D ++ S')); [by rewrite <- !app_assoc|rewrite ?length_app; lia|exact H6].
  - eapply (field_split 30 2 _ (A ++ B ++ C ++ D ++ S' ++ F)); [by rewrite <- !app_assoc|rewrite ?length_app; lia|exact H7].
Qed.

Lemma qs_fields_at p qs : Forall (fun q => is_u64 q.1 /\ is_u64 q.2) qs -> forall i q, qs !! i = Some q ->
  field (length p + 16 * i) 8 (p ++ qs_bytes qs) = q.1 /\ field (length p + 8 + 16 * i) 8 (p ++ qs_bytes qs) = q.2.
Proof.
  revert p. induction qs as [|q0 qs IH]; intros p Hqs i q Hi; [done|].
  apply Forall_cons in Hqs as [[H1 H2] Hqs]. cbn [qs_bytes flat_map] in *. fold (qs_bytes qs).
  destruct i as [|i]; cbn in Hi.
  - injection Hi as ->. rewrite !Nat.mul_0_r, !Nat.add_0_r. split.
    + eapply (field_split _ 8 _ p); [by rewrite <- !app_assoc|done|exact H1].
    + eapply (field_split _ 8 _ (p ++ le 8 q.1)); [by rewrite <- !app_assoc|by rewrite length_app, le_length|exact H2].
  - destruct (IH (p ++ le 8 q0.1 ++ le 8 q0.2) Hqs i q Hi) as [E1 E2].
    rewrite <- !app_assoc in E1, E2. rewrite !length_app, !le_length in E1, E2. rewrite <- !app_assoc.
    replace (length p + 16 * S i)%nat with (length p + (8 + 8) + 16 * i)%nat by lia.
    replace (length p + 8 + 16 * S i)%nat with (length p + (8 + 8) + 8 + 16 * i)%nat by lia. done.
Qed.

Lemma uxresponse_qs_bytes r : uxresponse_ok r ->
  uxresponse_qs (ur_qs_num r) (uxresponse_bytes r) = ur_qs r.
Proof.
  intros (_ & _ & _ & _ & _ & _ & _ & Hn & Hqs). unfold uxresponse_qs. rewrite <- Hn.
  apply list_eq. intros i. rewrite list_lookup_fmap.
  destruct (decide (i < length (ur_qs r))%nat) as [Hi|Hi].
  2: { rewrite !lookup_ge_None_2; [done|lia|rewrite length_seqZ; lia]. }
  rewrite lookup_seqZ_lt by lia. destruct (lookup_lt_is_Some_2 _ _ Hi) as [q Hq]. rewrite Hq. cbn [fmap option_fmap option_map].
  set (p := le 8 (ur_app_out_off r) ++ le 8 (ur_app_in_off r) ++ le 4 (ur_app_out_len r) ++ le 4 (ur_app_in_len r)
            ++ le 4 (ur_status r) ++ le 2 (ur_db_id r) ++ le 2 (ur_qs_num r)).
  assert (Eb : uxresponse_bytes r = p ++ qs_bytes (ur_qs r)) by (unfold uxresponse_bytes, p; by rewrite <- !app_assoc).
  assert (Ep : length p = 32%nat) by (unfold p; by rewrite !length_app, !le_length).
  destruct (qs_fields_at p _ Hqs i q Hq) as [E1 E2]. rewrite Ep in E1, E2. rewrite Eb.
  replace (Z.to_nat (32 + 16 * (0 + Z.of_nat i))) with (32 + 16 * i)%nat by lia.
  replace (Z.to_nat (40 + 16 * (0 + Z.of_nat i))) with (32 + 8 + 16 * i)%nat by lia.
  rewrite E1, E2. by destruct q.
Qed.

(** The fields of the header do not depend on the rest. *)
Lemma field_take off n k l : (off + n <= k)%nat -> field off n (take k l) = field off n l.
Proof. intros H. unfold field. rewrite skipn_firstn_comm, take_take. by rewrite Nat.min_l by lia. Qed.

(** However the response arrives, [flextcp_kernel_newctx] gives a context whose rings are
    those the response names, with the sizes of the response, and leaves what follows on
    the socket. *)
Lemma newctx_ok fuel mem ctx r cs rest :
  uxresponse_ok r -> ur_status r = 0 -> ur_qs_num r <= FLEXTCP_MAX_FTCPCORES ->
  Forall (fun c => c <> []) cs -> concat cs = uxresponse_bytes r ++ rest -> (length cs < fuel)%nat ->
  exists s c, flextcp_kernel_newctx fuel false mem ctx (map Some cs)
      = Some (NewctxDone (mk_cb (mem + ur_app_out_off r) (mem + ur_app_in_off r)
                            (map (fun q => (mem + q.1, mem + q.2)) (ur_qs r))) c, map Some s)
    /\ concat s = rest
    /\ lx_kin_len c = ur_app_out_len r / 64 /\ lx_kout_len c = ur_app_in_len r / 73
    /\ lx_db_id c = ur_db_id r /\ num_queues c = ur_qs_num r
    /\ kin_head c = 0 /\ kout_head c = 0 /\ next_queue c = 0.
Proof.
  intros Hr Hst Hmax Hne Hcs Hf. destruct (uxresponse_fields r Hr) as (F1 & F2 & F3 & F4 & F5 & F6 & F7).
  pose proof (uxresponse_qs_bytes r Hr) as Hq. pose proof (uxresponse_length r) as Hlen.
  assert (Hn : Z.of_nat (length (ur_qs r)) = ur_qs_num r) by apply Hr.
  set (b := uxresponse_bytes r) in *. unfold flextcp_kernel_newctx.
  destruct (read_loop_ok 32 cs fuel [] Hne) as (cs1 & E1 & Hcs1 & Hne1 & Hl1);
    [rewrite Hcs, length_app; cbn; lia|cbn; lia|done|].
  change (Datatypes.app (A := Z) [] (concat cs)) with (concat cs) in E1, Hcs1. rewrite Hcs in E1, Hcs1.
  rewrite take_app_le, drop_app_le in * by lia.
  unfold sizeof_uxresponse. rewrite E1. cbn [mbind option_bind].
  rewrite (field_take 30 2 32 b), F7 by lia. rewrite (proj2 (Z.leb_le _ _)) by done. cbn [cassert mbind option_bind].
  assert (Ht : Z.to_nat (32 + ur_qs_num r * 16) = length b) by lia. rewrite Ht.
  destruct (read_loop_ok (length b) cs1 fuel (take 32 b) Hne1) as (cs2 & E2 & Hcs2 & _ & _);
    [rewrite length_take, Hcs1, length_app, length_drop; lia|rewrite length_take; lia|lia|].
  rewrite Hcs1 in E2, Hcs2. rewrite app_assoc, take_drop in E2, Hcs2.
  rewrite take_app_length in E2. rewrite drop_app_length in Hcs2. rewrite E2. cbn [mbind option_bind].
  rewrite F5, Hst. cbn [negb Z.eqb]. unfold newctx_fill. rewrite F1, F2, F3, F4, F6, F7, Hq.
  eexists cs2, _. split; [reflexivity|]. done.
Qed.

(** The slow path closes the socket of an application it cannot give a context; then
    [read] returns 0 and the library reads for ever. *)
Lemma newctx_closed_hangs fuel presp mem ctx : flextcp_kernel_newctx fuel presp mem ctx [] = None.
Proof.
  unfold flextcp_kernel_newctx. assert (E : read_loop fuel sizeof_uxresponse [] [] = None) by
    (induction fuel as [|fuel IH]; [done|exact IH]).
  by rewrite E.
Qed.

(** A response for two cores, in pieces of 3 and 70 bytes, and a byte that follows it. *)
Definition ex_resp : uxresponse := mk_uxresp 4096 8192 64000 73000 0 5 2 [(100, 200); (300, 400)].
Definition ex_fctx : flextcp_context := mk_fctx ∅ 0 0 ∅ 0 0 0 0 ∅ 0 0 0 0 0 0 0 0 [].

Lemma newctx_example :
  exists s c, flextcp_kernel_newctx 9 false 1000000 ex_fctx
      (map Some [take 3 (uxresponse_bytes ex_resp); drop 3 (uxresponse_bytes ex_resp) ++ [7]])
      = Some (NewctxDone (mk_cb 1004096 1008192 [(1000100, 1000200); (1000300, 1000400)]) c, map Some s)
    /\ concat s = [7] /\ lx_kin_len c = 1000 /\ lx_kout_len c = 1000 /\ num_queues c = 2.
Proof.
  destruct (newctx_ok 9 1000000 ex_fctx ex_resp
      [take 3 (uxresponse_bytes ex_resp); drop 3 (uxresponse_bytes ex_resp) ++ [7]] [7])
    as (s & c & E & Hs & H1 & H2 & _ & H4 & _).
  - repeat split; try done; repeat constructor; done.
  - done.
  - done.
  - by repeat constructor.
  - by vm_compute.
  - cbn. lia.
  - by exists s, c.
Qed.
