(* ===== verification/AppIf.v ===== *)
(** * Registration of applications (tas/slow/appif.c, nicif_appctx_add of tas/slow/nicif.c)

    A thread of its own handles the Unix sockets: it accepts VMs and applications and
    prepares the contexts they ask for.  The slow path registers a context with the fast
    path and polls it; the two threads hand over applications in two queues.  A handler of
    either thread is one step.  Memory is freed as the code does: reading a context or a
    response after [free], or freeing it twice, is [None], like [abort]. *)

From S2P Require Import Prelude FpTypes Links PacketMem NbQueue SpTypes Cc NicFlow.
From S2P Require Import FlowTx SpState AppCtx Registry Connect.

(** ** Data *)

(** The fields of [struct application] that registration uses, next to those of SpState at
    the same address.  [ua_epoll]: whether the socket is watched, and then whether for
    data; [ua_resp]: [None] when freed. *)
Record uxapp : Type := mk_uxapp {
  ua_epoll : option bool; ua_req_rx : Z; ua_req : mem; ua_resp : option uxresponse; ua_next : Z;
  need_reg_ctx : Z; need_reg_ctx_done : Z; ua_comp_status : Z; ua_closed : bool }.
#[export] Instance eta_uxapp : Eta uxapp := fun r =>
  mk_uxapp (ua_epoll r) (ua_req_rx r) (ua_req r) (ua_resp r) (ua_next r) (need_reg_ctx r)
    (need_reg_ctx_done r) (ua_comp_status r) (ua_closed r).
#[export] Instance uxapp_inhabited : Inhabited uxapp :=
  populate (mk_uxapp None 0 (fun _ => 0) None 0 0 0 0 false).
#[export] Instance eta_uxresp : Eta uxresponse := fun r =>
  mk_uxresp (ur_app_out_off r) (ur_app_in_off r) (ur_app_out_len r) (ur_app_in_len r) (ur_status r)
    (ur_db_id r) (ur_qs_num r) (ur_qs r).

(** The same for [struct app_context]; [ux_handles] are those of the queues of each core. *)
Record uxctx : Type := mk_uxctx {
  ux_kin_handle : Z; ux_kout_handle : Z; ux_ready : bool; ux_handles : gmap Z (Z * Z) }.
#[export] Instance eta_uxctx : Eta uxctx := fun r =>
  mk_uxctx (ux_kin_handle r) (ux_kout_handle r) (ux_ready r) (ux_handles r).
#[export] Instance uxctx_inhabited : Inhabited uxctx := populate (mk_uxctx 0 0 false ∅).

(** [struct flextcp_pl_appctx]: what the slow path sets. *)
Record fpctx : Type := mk_fpctx {
  fx_vm_id : Z; fx_rx_base : Z; fx_tx_base : Z; fx_rx_avail : Z; fx_evfd : Z; fx_rx_len : Z; fx_tx_len : Z }.
#[export] Instance eta_fpctx : Eta fpctx := fun r =>
  mk_fpctx (fx_vm_id r) (fx_rx_base r) (fx_tx_base r) (fx_rx_avail r) (fx_evfd r) (fx_rx_len r) (fx_tx_len r).
#[export] Instance fpctx_inhabited : Inhabited fpctx := populate (mk_fpctx 0 0 0 0 0 0 0).

(** [struct flextcp_pl_appst]. *)
Record appst : Type := mk_appst { as_ctx_num : Z; as_ctx_ids : gmap Z Z }.
#[export] Instance appst_inhabited : Inhabited appst := populate (mk_appst 0 ∅).

(** The variables of appif.c, the tables of the fast path (of a core, VM and doorbell; of an
    application), the memory of each VM, and the responses sent, last first. *)
Record appif : Type := mk_appif {
  ai_sp : spst; ai_apps : gmap Z uxapp; ai_ctxs : gmap Z uxctx;
  ai_fp : gmap (Z * Z * Z) fpctx; ai_appst : gmap Z appst; ai_reg : registry; ai_shm : Z -> mem;
  ux_to_poll : nbqueue; poll_to_ux : nbqueue; free_doorbells : list Z;
  app_id_next : Z; vm_id_next : Z; applications : Z; ai_sent : list (Z * uxresponse) }.
#[export] Instance eta_appif : Eta appif := fun r =>
  mk_appif (ai_sp r) (ai_apps r) (ai_ctxs r) (ai_fp r) (ai_appst r) (ai_reg r) (ai_shm r)
    (ux_to_poll r) (poll_to_ux r) (free_doorbells r) (app_id_next r) (vm_id_next r)
    (applications r) (ai_sent r).

Definition uapp (s : appif) (a : Z) : uxapp := ai_apps s !!! a.
Definition sapp (s : appif) (a : Z) : application := s_apps (ai_sp s) !!! a.
Definition upd_uapp (a : Z) (f : uxapp -> uxapp) (s : appif) : appif :=
  s <| ai_apps ::= fun h => <[a := f (h !!! a)]> h |>.
Definition upd_uctx (c : Z) (f : uxctx -> uxctx) (s : appif) : appif :=
  s <| ai_ctxs ::= fun h => <[c := f (h !!! c)]> h |>.
Definition upd_resp (a : Z) (f : uxresponse -> uxresponse) (s : appif) : appif :=
  upd_uapp a (fun u => u <| ua_resp ::= fmap f |>) s.
Definition set_pm (m : pmem) (s : appif) : appif := s <| ai_sp ::= fun st => st <| s_pm := m |> |>.

(** The object at [p] has not been freed. *)
Definition live_ctx (c : Z) (s : appif) : bool := bool_decide (is_Some (s_ctxs (ai_sp s) !! c)).

Definition FLEXNIC_PL_APPST_NUM : Z := 8.
Definition SIZEOF_APPOUT : Z := 64.
Definition SIZEOF_APPIN : Z := 73.
Definition SIZEOF_REQUEST : Z := 8.

(** ** Initialisation *)

(** After the sockets exist: the doorbells, the first is 1; 0 is that of the slow path. *)
Definition appif_init (s : appif) : appif :=
  s <| free_doorbells := seqZ 1 FLEXNIC_PL_APPST_CTX_NUM |>
    <| ux_to_poll ::= nbqueue_init |> <| poll_to_ux ::= nbqueue_init |>.

Section AppIf.
Context (cores_num app_kin_len app_kout_len : Z).

(** ** Registration with the fast path *)

Definition appctx_base (vmid db rxq_len evfd : Z) (rxq_base txq_base : Z -> Z) (i : Z)
    (h : gmap (Z * Z * Z) fpctx) : gmap (Z * Z * Z) fpctx :=
  <[(i, vmid, db) := (h !!! (i, vmid, db)) <| fx_vm_id := vmid |> <| fx_rx_base := rxq_base i |>
      <| fx_tx_base := txq_base i |> <| fx_rx_avail := rxq_len |> <| fx_evfd := evfd |>]> h.
Definition appctx_len (vmid db rxq_len txq_len i : Z) (h : gmap (Z * Z * Z) fpctx)
    : gmap (Z * Z * Z) fpctx :=
  <[(i, vmid, db) := (h !!! (i, vmid, db)) <| fx_tx_len := txq_len |> <| fx_rx_len := rxq_len |>]> h.

Definition nicif_appctx_add (vmid appid db : Z) (rxq_base : Z -> Z) (rxq_len : Z) (txq_base : Z -> Z)
    (txq_len evfd : Z) (s : appif) : option (Z * appif) :=
  let ast := ai_appst s !!! appid in
  if FLEXNIC_PL_APPST_NUM <=? appid then Some (-1, s)
  else if FLEXNIC_PL_APPST_CTX_NUM <=? as_ctx_num ast + 1 then Some (-1, s)
  else
    let h := foldl (fun h i => appctx_base vmid db rxq_len evfd rxq_base txq_base i h) (ai_fp s) (seqZ 0 cores_num) in
    let h := foldl (fun h i => appctx_len vmid db rxq_len txq_len i h) h (seqZ 0 cores_num) in
    let n := as_ctx_num ast in
    r ← tas_register_appctx vmid db (ai_reg s);
    Some (0, s <| ai_fp := h |>
               <| ai_appst ::= <[appid := mk_appst (u16 (n + 1)) (<[n := u16 db]> (as_ctx_ids ast))]> |>
               <| ai_reg := r |>).

(** ** Errors *)

Fixpoint free_ctxs (fuel : nat) (ctx : Z) (s : appif) : option appif :=
  match fuel with
  | O => None
  | S fuel =>
      if ctx =? 0 then Some s
      else
        cassert (live_ctx ctx s);;
        let next := ac_next (s_ctxs (ai_sp s) !!! ctx) in
        free_ctxs fuel next (s <| ai_sp ::= fun st => st <| s_ctxs ::= delete ctx |> |> <| ai_ctxs ::= delete ctx |>)
  end.

(** The application stays in the list of the slow path, with its list of contexts. *)
Definition uxsocket_error (app : Z) (s : appif) : option appif :=
  cassert (bool_decide (is_Some (ua_resp (uapp s app))));;
  let s := upd_uapp app (fun u => u <| ua_epoll := None |> <| ua_resp := None |> <| ua_closed := true |>) s in
  free_ctxs (S (size (s_ctxs (ai_sp s)))) (app_contexts (sapp s app)) s.

(** ** Polling by the slow path *)

Fixpoint new_apps (fuel : nat) (s : appif) : option appif :=
  match fuel with
  | O => None
  | S fuel =>
      '(app, q) ← nbqueue_deq (ux_to_poll s);
      let s := s <| ux_to_poll := q |> in
      if app =? 0 then Some s
      else new_apps fuel (upd_uapp app (fun u => u <| ua_next := applications s |>) s <| applications := app |>)
  end.

Definition req_rxq_len (u : uxapp) : Z := load32 (ua_req u) 0.
Definition req_txq_len (u : uxapp) : Z := load32 (ua_req u) 4.

(** The result tells whether the contexts of the application are polled. *)
Definition reg_ctx (app : Z) (s : appif) : option (bool * appif) :=
  let ctx := need_reg_ctx (uapp s app) in
  if ctx =? 0 then Some (true, s)
  else
    let s := upd_uapp app (fun u => u <| need_reg_ctx := 0 |>) s in
    resp ← ua_resp (uapp s app);
    cassert (live_ctx ctx s);;
    let x := s_ctxs (ai_sp s) !!! ctx in
    let u := uapp s app in
    let qs := fun i => ur_qs resp !!! Z.to_nat i in
    '(ret, s) ← nicif_appctx_add (ap_vm_id (sapp s app)) (ap_id (sapp s app)) (ac_doorbell x)
                  (fun i => (qs i).1) (req_rxq_len u) (fun i => (qs i).2) (req_txq_len u) (ac_evfd x) s;
    if negb (ret =? 0) then s ← uxsocket_error app s; Some (false, s)
    else
      q ← nbqueue_enq app (poll_to_ux s);
      Some (true, s <| poll_to_ux := q |>).

Section Poll.
Context (E : fpenv) (config : configuration) (rte_hash_crc : list Z -> Z -> Z) (mm : Z -> req_mem).

(** The number of requests, the state and [fp_scale_to]; [mm] gives the memory a request in
    the context may need. *)
Fixpoint poll_ctxs (fuel : nat) (app ctx n scale : Z) (s : appif) : option (Z * appif * Z) :=
  match fuel with
  | O => None
  | S fuel =>
      if ctx =? 0 then Some (n, s, scale)
      else
        cassert (live_ctx ctx s);;
        '(n, s, scale) ←
          (if negb (ux_ready (ai_ctxs s !!! ctx)) then Some (n, s, scale)
           else
             '(k, st, scale) ← appif_ctx_poll E config rte_hash_crc app ctx (mm ctx) scale (ai_sp s);
             Some (n + k, s <| ai_sp := st |>, scale));
        poll_ctxs fuel app (ac_next (s_ctxs (ai_sp s) !!! ctx)) n scale s
  end.

Fixpoint poll_apps (fuel : nat) (app n scale : Z) (s : appif) : option (Z * appif * Z) :=
  match fuel with
  | O => None
  | S fuel =>
      if app =? 0 then Some (n, s, scale)
      else
        '(go, s) ← reg_ctx app s;
        '(n, s, scale) ←
          (if negb go then Some (n, s, scale)
           else poll_ctxs (S (size (s_ctxs (ai_sp s)))) app (app_contexts (sapp s app)) n scale s);
        poll_apps fuel (ua_next (uapp s app)) n scale s
  end.

Definition appif_poll (scale : Z) (s : appif) : option (Z * appif * Z) :=
  s ← new_apps (S (size (nb_els (ux_to_poll s)))) s;
  poll_apps (S (size (ai_apps s))) (applications s) 0 scale s.

End Poll.

(** ** New VMs and applications *)

(** What the calls of an accept give: whether each succeeds, and the new object. *)
Record accept_env : Type := mk_accept {
  ev_accept : bool; ev_greet : bool; ev_app : Z; ev_resp : bool; ev_aev : bool; ev_add : bool }.

Definition uxsocket_prepare_vmid (s : appif) : option Z :=
  if FLEXNIC_PL_VMST_NUM <=? vm_id_next s then None else Some (vm_id_next s).

(** Result 0: no memory. *)
Definition uxsocket_app_alloc (e : accept_env) (appid vmid : Z) (s : appif) : Z * appif :=
  if (ev_app e =? 0) || negb (ev_resp e) then (0, s)
  else
    let app := ev_app e in
    (app, s <| ai_sp ::= fun st => st <| s_apps ::= <[app := mk_app [] 0 0 0 appid vmid]> |> |>
            <| ai_apps ::= fun h => <[app := (h !!! app)
                 <| ua_epoll := None |> <| ua_req_rx := 0 |> <| ua_next := 0 |> <| need_reg_ctx := 0 |>
                 <| need_reg_ctx_done := 0 |> <| ua_closed := false |> <| ua_comp_status := 0 |>
                 <| ua_resp := Some (mk_uxresp 0 0 0 0 0 0 0 (replicate (Z.to_nat cores_num) (0, 0))) |>]> h |>).

Definition uxsocket_accept_vm (e : accept_env) (s : appif) : option appif :=
  if negb (ev_accept e) then Some s
  else match uxsocket_prepare_vmid s with
  | None => Some s
  | Some vmid =>
      if negb (ev_greet e) then Some s
      else if ev_app e =? 0 then Some s
      else if negb (ev_aev e) then Some s
      else
        let s := s <| vm_id_next ::= fun n => u16 (n + 1) |> in
        if negb (ev_add e) then Some s
        else r ← tas_register_vm vmid (ai_reg s); Some (s <| ai_reg := r |>)
  end.

(** The end of both ways to accept an application: [ua_epoll], registration, hand-over. *)
Definition app_watch (app : Z) (s : appif) : appif := upd_uapp app (fun u => u <| ua_epoll := Some true |>) s.
Definition app_handover (app vmid : Z) (s : appif) : option appif :=
  r ← tas_register_vm vmid (ai_reg s);
  q ← nbqueue_enq app (ux_to_poll s);
  Some (s <| ai_reg := tas_register_app r |> <| ux_to_poll := q |>).

(** The objects of an application that is given up are freed. *)
Definition app_free (app : Z) (s : appif) : appif :=
  s <| ai_sp ::= fun st => st <| s_apps ::= delete app |> |> <| ai_apps ::= delete app |>.

Definition uxsocket_accept_appvm (e : accept_env) (s : appif) : option appif :=
  if negb (ev_accept e) then Some s
  else match uxsocket_prepare_vmid s with
  | None => Some s
  | Some vmid =>
      if negb (ev_greet e) then Some s
      else
        let '(app, s) := uxsocket_app_alloc e 0 vmid s in
        if app =? 0 then Some s
        else if negb (ev_aev e) then Some (app_free app s)
        else if negb (ev_add e) then Some (app_free app s)
        else app_handover app vmid (app_watch app s <| vm_id_next ::= fun n => u16 (n + 1) |>)
  end.

Definition uxsocket_accept_app (e : accept_env) (vm_id : Z) (s : appif) : option appif :=
  if negb (ev_accept e) then Some s
  else if negb (ev_greet e) then Some s
  else
    let appid := app_id_next s in
    let s := s <| app_id_next := u16 (appid + 1) |> in
    let '(app, s) := uxsocket_app_alloc e appid vm_id s in
    if app =? 0 then Some s
    else if negb (ev_aev e) then Some (app_free app s)
    else if negb (ev_add e) then Some (app_free app s)
    else app_handover app vm_id (app_watch app s).

(** ** Requests for contexts *)

(** What [recvmsg] gives ([None]: an error), the objects [malloc] and [packetmem_alloc] get,
    and whether the calls at the end succeed. *)
Record receive_env : Type := mk_receive {
  rv_data : option (list Z); rv_fds : list Z; rv_ctx : Z; rv_in : Z; rv_out : Z;
  rv_qs : Z -> Z * Z; rv_fork : Z; rv_aev : bool; rv_mod : bool }.

Definition mem_zero (vm off len : Z) (s : appif) : appif :=
  s <| ai_shm ::= fun m => fun v => if v =? vm then mem_write (m v) off len (fun _ => 0) else m v |>.

(** The queues of the cores [is]; [false]: there is no memory. *)
Fixpoint alloc_queues (e : receive_env) (app vm rxl txl : Z) (is_ : list Z) (hs : gmap Z (Z * Z)) (s : appif)
    : option (bool * gmap Z (Z * Z) * appif) :=
  match is_ with
  | [] => Some (true, hs, s)
  | i :: is_ =>
      '(r, m) ← packetmem_alloc (s_pm (ai_sp s)) rxl vm (rv_qs e i).1;
      let s := set_pm m s in
      match r with
      | None => Some (false, hs, s)
      | Some (off_rxq, rxq) =>
          '(r, m) ← packetmem_alloc (s_pm (ai_sp s)) txl vm (rv_qs e i).2;
          let s := set_pm m s in
          match r with
          | None => m ← packetmem_free (s_pm (ai_sp s)) rxq vm; Some (false, hs, set_pm m s)
          | Some (off_txq, txq) =>
              let s := mem_zero vm off_txq txl (mem_zero vm off_rxq rxl s) in
              let s := upd_resp app (fun r => r <| ur_qs ::= <[Z.to_nat i := (off_rxq, off_txq)]> |>) s in
              alloc_queues e app vm rxl txl is_ (<[i := (rxq, txq)]> hs) s
          end
      end
  end.

(** [error_dballoc], [error_pktmem], [error_pktmem_out], [error_pktmem_in]: what is freed
    besides the application. *)
Definition error_pktmem_in (app ctx : Z) (s : appif) : option appif :=
  uxsocket_error app (s <| ai_sp ::= fun st => st <| s_ctxs ::= delete ctx |> |> <| ai_ctxs ::= delete ctx |>).
Definition error_pktmem_out (app ctx pm_in : Z) (s : appif) : option appif :=
  m ← packetmem_free (s_pm (ai_sp s)) pm_in (ap_vm_id (sapp s app)); error_pktmem_in app ctx (set_pm m s).
Definition error_pktmem (app ctx pm_in pm_out : Z) (s : appif) : option appif :=
  m ← packetmem_free (s_pm (ai_sp s)) pm_out (ap_vm_id (sapp s app)); error_pktmem_out app ctx pm_in (set_pm m s).

(** The context is set up and put into the list of the application. *)
Definition init_ctx (app ctx pm_in off_in pm_out off_out db evfd : Z) (hs : gmap Z (Z * Z)) (s : appif) : appif :=
  let vm := ap_vm_id (sapp s app) in
  let s := mem_zero vm off_out app_kout_len (mem_zero vm off_in app_kin_len s) in
  let x := mk_actx app ∅ (u32 (app_kin_len / SIZEOF_APPOUT)) 0 ∅ (u32 (app_kout_len / SIZEOF_APPIN)) 0 db evfd
             (app_contexts (sapp s app)) in
  s <| ai_ctxs ::= <[ctx := mk_uxctx pm_in pm_out false hs]> |>
    <| ai_sp ::= fun st => set_app app (fun a => a <| app_contexts := ctx |>) (st <| s_ctxs ::= <[ctx := x]> |>) |>.

(** A context of its own for the first one. *)
Definition first_fork (app ctx : Z) (e : receive_env) (s : appif) : option appif :=
  match forked_ctxs (sapp s app) with
  | [] =>
      cassert (negb (rv_fork e =? 0));;
      Some (s <| ai_sp ::= set_app app (fun a => a <| forked_ctxs := [ctx] |>) |>)
  | _ => Some s
  end.

Definition init_resp (app off_in off_out db : Z) (s : appif) : appif :=
  upd_resp app (fun r =>
    r <| ur_app_out_off := off_in |> <| ur_app_out_len := u32 app_kin_len |> <| ur_app_in_off := off_out |>
      <| ur_app_in_len := u32 app_kout_len |> <| ur_db_id := u16 db |> <| ur_qs_num := u16 cores_num |>
      <| ur_status := 0 |>) s.

(** From the allocation of the doorbell on. *)
Definition receive_ready (e : receive_env) (app ctx pm_in off_in pm_out off_out evfd : Z) (hs : gmap Z (Z * Z))
    (s : appif) : option appif :=
  match free_doorbells s with
  | [] => error_pktmem app ctx pm_in pm_out s
  | db :: dbs =>
      let s := s <| free_doorbells := dbs |> in
      cassert (negb (evfd =? 0));;
      let s := init_ctx app ctx pm_in off_in pm_out off_out db evfd hs s in
      s ← first_fork app ctx e s;
      let s := init_resp app off_in off_out db s in
      if negb (rv_aev e) then error_pktmem app ctx pm_in pm_out s
      else
        cassert (rv_mod e);;
        Some (upd_uapp app (fun u =>
                u <| ua_epoll := Some false |> <| need_reg_ctx_done := ctx |> <| need_reg_ctx := ctx |>) s)
  end.

(** A complete request. *)
Definition receive_request (e : receive_env) (app evfd : Z) (s : appif) : option appif :=
  let ctx := rv_ctx e in
  let vm := ap_vm_id (sapp s app) in
  if ctx =? 0 then uxsocket_error app s
  else
    '(r, m) ← packetmem_alloc (s_pm (ai_sp s)) app_kin_len vm (rv_in e);
    let s := set_pm m s in
    match r with
    | None => error_pktmem_in app ctx s
    | Some (off_in, pm_in) =>
        '(r, m) ← packetmem_alloc (s_pm (ai_sp s)) app_kout_len vm (rv_out e);
        let s := set_pm m s in
        match r with
        | None => error_pktmem_out app ctx pm_in s
        | Some (off_out, pm_out) =>
            let u := uapp s app in
            '(ok, hs, s) ← alloc_queues e app vm (req_rxq_len u) (req_txq_len u) (seqZ 0 cores_num) ∅ s;
            if negb ok then error_pktmem app ctx pm_in pm_out s
            else receive_ready e app ctx pm_in off_in pm_out off_out evfd hs s
        end
    end.

(** Data is always received at the start of [req], also the second part of a request. *)
Definition uxsocket_receive (e : receive_env) (app : Z) (s : appif) : option appif :=
  cassert (length (rv_fds e) <=? 1)%nat;;
  let evfd := hd 0 (rv_fds e) in
  match rv_data e with
  | None => uxsocket_error app s
  | Some d =>
      let d := take (Z.to_nat (SIZEOF_REQUEST - ua_req_rx (uapp s app))) d in
      let rx := Z.of_nat (length d) in
      let s := upd_uapp app (fun u => u <| ua_req ::= fun m => mem_write m 0 rx (fun i => nth (Z.to_nat i) d 0) |>) s in
      if rx + ua_req_rx (uapp s app) <? SIZEOF_REQUEST then
        Some (upd_uapp app (fun u => u <| ua_req_rx ::= Z.add rx |>) s)
      else receive_request e app evfd (upd_uapp app (fun u => u <| ua_req_rx := 0 |>) s)
  end.

(** ** Answers *)

(** The result of [send], and whether the calls at the end succeed. *)
Record notify_env : Type := mk_notify { nv_tx : Z; nv_aev : bool; nv_mod : bool }.

Definition resp_sz : Z := 32 + cores_num * 16.

Definition uxsocket_notify_app (e : notify_env) (app : Z) (s : appif) : option appif :=
  if negb (ua_comp_status (uapp s app) =? 0) then uxsocket_error app s
  else
    let ctx := need_reg_ctx_done (uapp s app) in
    cassert (live_ctx ctx s);;
    let s := upd_uctx ctx (fun x => x <| ux_ready := true |>) s in
    resp ← ua_resp (uapp s app);
    if nv_tx e <? resp_sz then uxsocket_error app s
    else
      let s := s <| ai_sent ::= cons (app, resp) |> in
      if negb (nv_aev e) then uxsocket_error app s
      else
        cassert (nv_mod e);;
        Some (upd_uapp app (fun u => u <| ua_epoll := Some true |>) s).

Fixpoint notify_apps (fuel : nat) (f : Z -> notify_env) (s : appif) : option appif :=
  match fuel with
  | O => None
  | S fuel =>
      '(app, q) ← nbqueue_deq (poll_to_ux s);
      let s := s <| poll_to_ux := q |> in
      if app =? 0 then Some s
      else s ← uxsocket_notify_app (f app) app s; notify_apps fuel f s
  end.

(** [rd]: whether the event descriptor could be read, or was not set. *)
Definition uxsocket_notify (rd : bool) (f : Z -> notify_env) (s : appif) : option appif :=
  cassert rd;;
  notify_apps (S (size (nb_els (poll_to_ux s)))) f s.

(** ** The thread of the Unix sockets *)

Inductive ux_event : Type :=
| EP_LISTEN_VM (e : accept_env) | EP_LISTEN_APPVM (e : accept_env) | EP_LISTEN_APP (vm : Z) (e : accept_env)
| EP_NOTIFY (rd : bool) (f : Z -> notify_env) | EP_APP (app : Z) (hup data : bool) (e : receive_env) | EP_VM.

Definition ux_event_handle (ev : ux_event) (s : appif) : option appif :=
  match ev with
  | EP_LISTEN_VM e => uxsocket_accept_vm e s
  | EP_LISTEN_APPVM e => uxsocket_accept_appvm e s
  | EP_LISTEN_APP vm e => uxsocket_accept_app e vm s
  | EP_NOTIFY rd f => uxsocket_notify rd f s
  | EP_APP app hup data e =>
      if hup then uxsocket_error app s else if data then uxsocket_receive e app s else Some s
  | EP_VM => Some s
  end.

Fixpoint uxsocket_thread (evs : list ux_event) (s : appif) : option appif :=
  match evs with
  | [] => Some s
  | ev :: evs => s ← ux_event_handle ev s; uxsocket_thread evs s
  end.

End AppIf.
