(* ===== verification/AppIfThms.v ===== *)
(** * Registration of applications: theorems

    A context that an application asks for: what the slow path, the fast path and the
    application know of it agree ([context_agrees]). *)

From S2P Require Import Prelude FpTypes Links PacketMem PacketMemThms NbQueue SpTypes Cc NicFlow.
From S2P Require Import FlowTx SpState AppNotify AppCtx AppCtxThms LibTypes Registry Connect AppIf.

(** ** Packet memory *)

(** Only the new handle appears on the heap. *)
Lemma packetmem_alloc_dom lo hi m F U v n new r m' q :
  pm_ok lo hi m F U -> 0 <= v <= FLEXNIC_PL_VMST_NUM ->
  packetmem_alloc m n v new = Some (r, m') -> handles m !! q = None -> q <> new -> handles m' !! q = None.
Proof.
  intros Hok Hv H Hq Hne. pose proof (pm_vm _ _ _ _ _ Hok v Hv) as Hvm.
  assert (Hdom : forall p, p ∈ F v -> is_Some (handles m !! p)).
  { intros p Hp. apply (vo_dom _ _ _ _ _ _ Hvm). apply elem_of_app. by left. }
  pose proof (vo_path _ _ _ _ _ _ Hvm) as Hp. unfold packetmem_alloc in H.
  destruct (find_fit_ok (pm_fuel m) m n (F v) []) as (A & B & EF & _ & _ & Ef).
  { by rewrite <- (path_head _ _ _ _ Hp). }
  { intros Hin. by apply (vm_null _ _ _ _ _ _ Hvm), elem_of_app; left. }
  { by eapply vm_fuel_enough. }
  { by apply Forall_nil. }
  cbn [app] in EF. rewrite <- (path_head _ _ _ _ Hp) in Ef. change (default 0 (last [])) with 0 in Ef.
  rewrite Ef in H. cbn [mbind option_bind] in H.
  assert (HB : forall p, head B = Some p -> q <> p).
  { intros p Hh ->. apply head_Some_elem_of in Hh. destruct (Hdom p) as [? E]; [rewrite EF, elem_of_app; by right|congruence]. }
  assert (HA : forall p, last A = Some p -> q <> p).
  { intros p Hh ->. apply last_Some_elem_of in Hh. destruct (Hdom p) as [? E]; [rewrite EF, elem_of_app; by left|congruence]. }
  destruct (default 0 (head B) =? 0) eqn:E0; [by simplify_eq|].
  destruct (head B) as [p|] eqn:EB; [|done]. cbn [default from_option id] in H. specialize (HB p eq_refl).
  destruct (_ =? n).
  - injection H as _ <-. unfold unlink_ph. destruct (last A) as [a|]; cbn [default from_option id]; [|done].
    destruct (a =? 0); [done|]. rewrite upd_ph_lookup_ne by (by apply HA). done.
  - destruct (new =? 0); [by simplify_eq|]. injection H as _ <-. unfold split_ph.
    rewrite !upd_ph_lookup_ne by done. done.
Qed.

Record pm_owned (lo hi : Z) (m : pmem) (v : Z) (b : list (Z * Z * Z)) : Prop := mk_pm_owned {
  po_ok : exists F U, pm_ok lo hi m F U /\ forall x, x ∈ b -> x.1.1 ∈ U v;
  po_nodup : NoDup (map (fun x => x.1.1) b);
  po_at : forall h off len, (h, off, len) ∈ b -> pbase m h = off /\ PacketMem.plen m h = len }.

Lemma packetmem_alloc_owned lo hi m v b n new off h m' :
  pm_owned lo hi m v b -> 0 <= v <= FLEXNIC_PL_VMST_NUM -> 0 <= n -> malloc_ok m new ->
  packetmem_alloc m n v new = Some (Some (off, h), m') ->
  pm_owned lo hi m' v ((h, off, n) :: b)
  /\ (forall q, handles m !! q = None -> q <> new -> handles m' !! q = None).
Proof.
  intros [(F & U & Hok & Hb) Hnd Hat] Hv Hn Hnew H.
  split; [|intros q; by eapply packetmem_alloc_dom].
  pose proof (packetmem_alloc_ok lo hi m F U v n new Hok Hv Hn Hnew) as Ha.
  destruct (List.find _ (F v)) as [p|]; [|congruence]. destruct (_ && _); [congruence|].
  destruct Ha as (m1 & h1 & F' & E & Hb1 & Hl1 & Hh & Hok' & Hsame). rewrite H in E.
  injection E as -> -> ->. constructor.
  - eexists _, _. split; [exact Hok'|]. intros x [->|Hx]%elem_of_cons; rewrite fupd_eq; [by left|right; by apply Hb].
  - cbn. constructor; [|done]. intros ([x1 x2] & -> & Hx)%list_elem_of_fmap.
    by apply Hh, (Hb _ Hx).
  - intros h' off' len' [E|Hx]%elem_of_cons; [by simplify_eq|].
    destruct (Hat _ _ _ Hx) as [E1 E2]. destruct (Hsame v h' Hv (Hb _ Hx)) as [S1 S2]. split; congruence.
Qed.

Lemma pm_owned_u64 lo hi m v b h off len : 0 <= v <= FLEXNIC_PL_VMST_NUM ->
  pm_owned lo hi m v b -> (h, off, len) ∈ b -> is_u64 off.
Proof.
  intros Hv [(F & U & Hok & Hb) _ Hat] Hin. destruct (Hat _ _ _ Hin) as [Hp Hl].
  specialize (Hb _ Hin). cbn in Hb. pose proof (pm_bounds _ _ _ _ _ Hok) as [Hlo Hhi].
  destruct (vo_range _ _ _ _ _ _ (pm_vm _ _ _ _ _ Hok v Hv) h) as (H1 & H2 & H3); [apply elem_of_app; by right|].
  unfold is_u64. lia.
Qed.

Lemma pm_owned_nil lo hi m v : (exists F U, pm_ok lo hi m F U) -> pm_owned lo hi m v [].
Proof.
  intros (F & U & H). constructor; [|constructor|by intros ??? ?%elem_of_nil].
  exists F, U. split; [done|]. by intros x Hx%elem_of_nil.
Qed.

(** ** What the steps of a request leave alone *)

(** Only packet memory, the memory of the VM, and the response of [app] change. *)
Record resp_frame (app : Z) (s s' : appif) : Prop := mk_resp_frame {
  rf_state : exists m shm apps,
    s' = s <| ai_sp ::= fun st => st <| s_pm := m |> |> <| ai_shm := shm |> <| ai_apps := apps |>;
  rf_app : exists r, uapp s' app = (uapp s app) <| ua_resp := r |> }.

Lemma uapp_upd a f s : uapp (upd_uapp a f s) a = f (uapp s a).
Proof. unfold uapp, upd_uapp. cbn. by rewrite lookup_total_insert_eq. Qed.

Lemma resp_frame_refl app s : resp_frame app s s.
Proof.
  split; [|exists (ua_resp (uapp s app)); by destruct (uapp s app)].
  exists (s_pm (ai_sp s)), (ai_shm s), (ai_apps s). by destruct s as [[]].
Qed.

Lemma resp_frame_trans app s1 s2 s3 : resp_frame app s1 s2 -> resp_frame app s2 s3 -> resp_frame app s1 s3.
Proof.
  intros [(m & shm & apps & ->) [r Hr]] [(m' & shm' & apps' & ->) [r' Hr']].
  split; [by exists m', shm', apps'|]. exists r'. by rewrite Hr', Hr.
Qed.

Lemma resp_frame_pm app m s : resp_frame app s (set_pm m s).
Proof.
  split; [|exists (ua_resp (uapp s app)); change (uapp (set_pm m s) app) with (uapp s app); by destruct (uapp s app)].
  exists m, (ai_shm s), (ai_apps s). by destruct s.
Qed.

Lemma resp_frame_zero app vm off len s : resp_frame app s (mem_zero vm off len s).
Proof.
  split; [|exists (ua_resp (uapp s app)); change (uapp (mem_zero vm off len s) app) with (uapp s app); by destruct (uapp s app)].
  exists (s_pm (ai_sp s)), (ai_shm (mem_zero vm off len s)), (ai_apps s). by destruct s as [[]].
Qed.

Lemma resp_frame_resp app f s : resp_frame app s (upd_resp app f s).
Proof.
  split; [|exists (f <$> ua_resp (uapp s app)); exact (uapp_upd app (fun u => u <| ua_resp ::= fmap f |>) s)].
  exists (s_pm (ai_sp s)), (ai_shm s), (ai_apps (upd_resp app f s)). by destruct s as [[]].
Qed.

#[export] Hint Resolve resp_frame_refl resp_frame_pm resp_frame_zero resp_frame_resp : appif.

(** ** The queues of the cores *)

(** The blocks of the queues of the cores; of each core its two handles and offsets. *)
Definition qent : Type := Z * Z * (Z * Z).
Fixpoint qblocks (rxl txl : Z) (l : list qent) : list (Z * Z * Z) :=
  match l with
  | [] => []
  | (rxq, txq, (off_rxq, off_txq)) :: l => qblocks rxl txl l ++ [(txq, off_txq, txl); (rxq, off_rxq, rxl)]
  end.

(** The handles [malloc] gives to the queues of the cores [is]. *)
Definition q_mallocs (e : receive_env) (is_ : list Z) : list Z := flat_map (fun i => [(rv_qs e i).1; (rv_qs e i).2]) is_.
Definition fresh_in (s : appif) (l : list Z) : Prop :=
  NoDup l /\ Forall (fun h => handles (s_pm (ai_sp s)) !! h = None) l.

Lemma fresh_cons s s' h l : fresh_in s (h :: l) ->
  (forall q, handles (s_pm (ai_sp s)) !! q = None -> q <> h -> handles (s_pm (ai_sp s')) !! q = None) ->
  fresh_in s' l.
Proof.
  intros [[Hh Hn]%NoDup_cons [_ Hf]%Forall_cons] Hd. split; [done|].
  rewrite Forall_forall in Hf |- *. intros q Hq. apply Hd; [by apply Hf|]. by intros ->.
Qed.

Lemma malloc_fresh s h l : fresh_in s (h :: l) -> malloc_ok (s_pm (ai_sp s)) h.
Proof. intros [_ [H _]%Forall_cons]. by right. Qed.

Lemma alloc_queues_ok lo hi e app vm rxl txl n : forall j hs s b hs' s' r,
  0 <= vm <= FLEXNIC_PL_VMST_NUM -> 0 <= rxl -> 0 <= txl -> 0 <= j ->
  pm_owned lo hi (s_pm (ai_sp s)) vm b -> fresh_in s (q_mallocs e (seqZ j (Z.of_nat n))) ->
  ua_resp (uapp s app) = Some r -> Z.of_nat (length (ur_qs r)) = j + Z.of_nat n ->
  alloc_queues e app vm rxl txl (seqZ j (Z.of_nat n)) hs s = Some (true, hs', s') ->
  exists l, length l = n /\ pm_owned lo hi (s_pm (ai_sp s')) vm (qblocks rxl txl l ++ b)
    /\ resp_frame app s s'
    /\ ua_resp (uapp s' app) = Some (r <| ur_qs := take (Z.to_nat j) (ur_qs r) ++ map snd l |>).
Proof.
  induction n as [|n IH]; intros j hs s b hs' s' r Hv Hrx Htx Hj Hb Hf Hr Hlen H.
  - change (Some (true, hs, s) = Some (true, hs', s')) in H. injection H as <- <-.
    exists []. split_and!; [done|exact Hb|apply resp_frame_refl|].
    cbn [map]. rewrite app_nil_r, take_ge, Hr by lia. by destruct r.
  - rewrite seqZ_cons in H, Hf by lia. replace (Z.pred (Z.of_nat (S n))) with (Z.of_nat n) in * by lia.
    cbn [q_mallocs flat_map] in Hf. fold (q_mallocs e (seqZ (Z.succ j) (Z.of_nat n))) in Hf. cbn [Datatypes.app] in Hf.
    cbn [alloc_queues] in H. apply bind_Some in H as ([r1 m1] & E1 & H).
    destruct r1 as [[off_rxq rxq]|]; [|done].
    pose proof (packetmem_alloc_owned _ _ _ _ _ _ _ _ _ _ Hb Hv Hrx (malloc_fresh _ _ _ Hf) E1) as [Hb1 Hd1].
    set (s1 := set_pm m1 s) in *.
    assert (Hf1 : fresh_in s1 ((rv_qs e j).2 :: q_mallocs e (seqZ (Z.succ j) (Z.of_nat n)))) by by eapply fresh_cons.
    apply bind_Some in H as ([r2 m2] & E2 & H). destruct r2 as [[off_txq txq]|].
    2: { by apply bind_Some in H as (? & _ & [=]). }
    pose proof (packetmem_alloc_owned _ _ _ _ _ _ _ _ _ _ Hb1 Hv Htx (malloc_fresh _ _ _ Hf1) E2) as [Hb2 Hd2].
    set (s2 := set_pm m2 s1) in *.
    assert (Hf2 : fresh_in s2 (q_mallocs e (seqZ (Z.succ j) (Z.of_nat n)))) by by eapply (fresh_cons s1).
    set (s3 := upd_resp _ _ _) in H.
    assert (Hf3 : fresh_in s3 (q_mallocs e (seqZ (Z.succ j) (Z.of_nat n)))) by exact Hf2.
    assert (Fr : resp_frame app s s3).
    { eapply resp_frame_trans; [apply (resp_frame_pm app m1)|]. eapply resp_frame_trans; [apply (resp_frame_pm app m2)|].
      eapply resp_frame_trans; [apply resp_frame_zero|]. eapply resp_frame_trans; [apply resp_frame_zero|apply resp_frame_resp]. }
    set (r' := r <| ur_qs ::= <[Z.to_nat j := (off_rxq, off_txq)]> |>).
    assert (Hr3 : ua_resp (uapp s3 app) = Some r').
    { subst s3. unfold upd_resp. rewrite uapp_upd. cbn [ua_resp setf].
      change (uapp _ app) with (uapp s app). by rewrite Hr. }
    destruct (IH (Z.succ j) (<[j:=(rxq, txq)]> hs) s3 ((txq, off_txq, txl) :: (rxq, off_rxq, rxl) :: b) hs' s' r' Hv Hrx Htx ltac:(lia) Hb2 Hf3 Hr3)
      as (l & Hl & Hbl & Hfr & Hrl); [cbn; rewrite length_insert; lia|exact H|].
    exists ((rxq, txq, (off_rxq, off_txq)) :: l). split_and!.
    + cbn. lia.
    + cbn [qblocks]. by rewrite <- app_assoc.
    + by eapply resp_frame_trans.
    + rewrite Hrl. subst r'. cbn [ur_qs setf map snd]. f_equal.
      replace (Z.to_nat (Z.succ j)) with (S (Z.to_nat j)) by lia.
      assert (Hjl : (Z.to_nat j < length (ur_qs r))%nat) by lia.
      assert (Et : take (S (Z.to_nat j)) (<[Z.to_nat j := (off_rxq, off_txq)]> (ur_qs r))
                   = take (Z.to_nat j) (ur_qs r) ++ [(off_rxq, off_txq)]).
      { rewrite (take_S_r _ _ (off_rxq, off_txq)) by (by apply list_lookup_insert_eq).
        by rewrite take_insert_ge by lia. }
      cbn in Et |- *. rewrite Et. by rewrite <- app_assoc.
Qed.

(** ** Requests that fail *)

Lemma free_ctxs_apps fuel : forall ctx s s', free_ctxs fuel ctx s = Some s' -> ai_apps s' = ai_apps s.
Proof.
  induction fuel as [|fuel IH]; intros ctx s s' H; [done|]. cbn [free_ctxs] in H.
  destruct (ctx =? 0); [by simplify_eq|]. apply bind_Some in H as (u & _ & H). by rewrite (IH _ _ _ H).
Qed.

(** An error does not ask for a registration. *)
Definition same_need (app : Z) (s s' : appif) : Prop := need_reg_ctx (uapp s' app) = need_reg_ctx (uapp s app).

Lemma error_need app s s' : uxsocket_error app s = Some s' -> same_need app s s'.
Proof.
  unfold uxsocket_error. intros H. apply bind_Some in H as (u & _ & H).
  apply free_ctxs_apps in H. unfold same_need, uapp. rewrite H. cbn. by rewrite lookup_total_insert_eq.
Qed.

Lemma error_pktmem_need app ctx pm_in pm_out s s' :
  error_pktmem app ctx pm_in pm_out s = Some s' -> same_need app s s'.
Proof.
  intros H. unfold error_pktmem, error_pktmem_out, error_pktmem_in in H.
  apply bind_Some in H as (m & _ & H). apply bind_Some in H as (m' & _ & H). by apply error_need in H.
Qed.

Lemma error_pktmem_out_need app ctx pm_in s s' :
  error_pktmem_out app ctx pm_in s = Some s' -> same_need app s s'.
Proof.
  intros H. unfold error_pktmem_out, error_pktmem_in in H.
  apply bind_Some in H as (m & _ & H). by apply error_need in H.
Qed.

Lemma resp_frame_need app s s' : resp_frame app s s' -> same_need app s s'.
Proof. intros [_ [r Hr]]. unfold same_need. by rewrite Hr. Qed.

Lemma alloc_queues_frame e app vm rxl txl is_ : forall hs s ok hs' s',
  alloc_queues e app vm rxl txl is_ hs s = Some (ok, hs', s') -> resp_frame app s s'.
Proof.
  induction is_ as [|i is_ IH]; intros hs s ok hs' s' H; cbn [alloc_queues] in H.
  { injection H as _ _ <-. apply resp_frame_refl. }
  apply bind_Some in H as ([r1 m1] & _ & H).
  eapply resp_frame_trans; [apply (resp_frame_pm app m1)|]. destruct r1 as [[off_rxq rxq]|].
  2: { injection H as _ _ <-. apply resp_frame_refl. }
  apply bind_Some in H as ([r2 m2] & _ & H).
  eapply resp_frame_trans; [apply (resp_frame_pm app m2)|]. destruct r2 as [[off_txq txq]|].
  - eapply resp_frame_trans; [apply resp_frame_zero|]. eapply resp_frame_trans; [apply resp_frame_zero|].
    eapply resp_frame_trans; [apply resp_frame_resp|]. by eapply IH.
  - apply bind_Some in H as (m3 & _ & H). injection H as _ _ <-. apply resp_frame_pm.
Qed.

(** ** A request that is taken *)

Section Request.
Context (cores_num app_kin_len app_kout_len lo hi : Z).
Hypothesis cores_ok : 0 <= cores_num < 65536.
Hypothesis lens_ok : is_u32 app_kin_len /\ is_u32 app_kout_len.

(** The doorbell [db] and the blocks [b] are those of the context [ctx], which is set up and
    whose response is ready. *)
Record prepared (app ctx vm db evfd : Z) (off_in off_out : Z) (l : list qent) (b : list (Z * Z * Z)) (s : appif) : Prop :=
  mk_prepared {
  pr_ctx : exists next, s_ctxs (ai_sp s) !! ctx
      = Some (mk_actx app ∅ (u32 (app_kin_len / SIZEOF_APPOUT)) 0 ∅ (u32 (app_kout_len / SIZEOF_APPIN)) 0 db evfd next);
  pr_resp : ua_resp (uapp s app)
      = Some (mk_uxresp off_in off_out app_kin_len app_kout_len 0 (u16 db) cores_num (map snd l));
  pr_need : need_reg_ctx_done (uapp s app) = ctx;
  pr_vm : ap_vm_id (sapp s app) = vm;
  pr_qs : Z.of_nat (length l) = cores_num;
  pr_mem : exists pm_in pm_out, b = qblocks (req_rxq_len (uapp s app)) (req_txq_len (uapp s app)) l
             ++ [(pm_out, off_out, app_kout_len); (pm_in, off_in, app_kin_len)];
  pr_owned : pm_owned lo hi (s_pm (ai_sp s)) vm b }.

Definition env_fresh (e : receive_env) (s : appif) : Prop :=
  fresh_in s (rv_in e :: rv_out e :: q_mallocs e (seqZ 0 cores_num)).

Lemma receive_ready_ok e app ctx pm_in off_in pm_out off_out evfd hs s s1 l rxl txl r :
  let vm := ap_vm_id (sapp s app) in
  receive_ready cores_num app_kin_len app_kout_len e app ctx pm_in off_in pm_out off_out evfd hs s = Some s1 ->
  ctx <> 0 -> need_reg_ctx (uapp s app) = 0 -> need_reg_ctx (uapp s1 app) <> 0 ->
  rxl = req_rxq_len (uapp s app) -> txl = req_txq_len (uapp s app) ->
  ua_resp (uapp s app) = Some r -> ur_qs r = map snd l -> Z.of_nat (length l) = cores_num ->
  pm_owned lo hi (s_pm (ai_sp s)) vm
    (qblocks rxl txl l ++ [(pm_out, off_out, app_kout_len); (pm_in, off_in, app_kin_len)]) ->
  exists db b, free_doorbells s = db :: free_doorbells s1
    /\ prepared app ctx vm db evfd off_in off_out l b s1 /\ need_reg_ctx (uapp s1 app) = ctx.
Proof using cores_ok lens_ok.
  intros vm H Hctx Hn0 Hn1 Erx Etx Hr Hqs Hl Hb. unfold receive_ready in H.
  destruct (free_doorbells s) as [|db dbs] eqn:Ed.
  { apply error_pktmem_need in H. unfold same_need in H. congruence. }
  apply bind_Some in H as (u1 & _ & H). apply bind_Some in H as (s2 & E2 & H).
  set (s0 := init_ctx _ _ _ _ _ _ _ _ _ _ _ _) in E2.
  assert (F2 : uapp s2 app = uapp s app /\ s_pm (ai_sp s2) = s_pm (ai_sp s) /\ ap_vm_id (sapp s2 app) = vm
    /\ free_doorbells s2 = dbs /\ s_ctxs (ai_sp s2) !! ctx = Some (mk_actx app ∅ (u32 (app_kin_len / SIZEOF_APPOUT)) 0
         ∅ (u32 (app_kout_len / SIZEOF_APPIN)) 0 db evfd (app_contexts (sapp s app)))).
  { assert (F0 : uapp s0 app = uapp s app /\ s_pm (ai_sp s0) = s_pm (ai_sp s) /\ ap_vm_id (sapp s0 app) = vm
      /\ free_doorbells s0 = dbs /\ s_ctxs (ai_sp s0) !! ctx = Some (mk_actx app ∅ (u32 (app_kin_len / SIZEOF_APPOUT)) 0
           ∅ (u32 (app_kout_len / SIZEOF_APPIN)) 0 db evfd (app_contexts (sapp s app)))).
    { split_and!; try done; subst s0; unfold init_ctx, sapp, set_app; cbn; by rewrite ?lookup_total_insert_eq, ?lookup_insert_eq. }
    unfold first_fork in E2. destruct (forked_ctxs (sapp s0 app)); [|by injection E2 as <-].
    apply bind_Some in E2 as (u2 & _ & [= <-]). destruct F0 as (F01 & F02 & F03 & F04 & F05).
    split_and!; try done. unfold sapp, set_app. cbn. rewrite lookup_total_insert_eq. exact F03. }
  destruct F2 as (F1 & F2 & F3 & F4 & F5).
  destruct (negb (rv_aev e)).
  { apply error_pktmem_need in H. unfold same_need, init_resp, upd_resp in H. rewrite uapp_upd, F1 in H. cbn in H. congruence. }
  apply bind_Some in H as (u3 & _ & [= <-]). exists db. eexists.
  split; [exact (eq_sym (f_equal (cons db) F4))|]. split; [|rewrite uapp_upd; done].
  assert (Eu : forall f, uapp (upd_uapp app f (init_resp cores_num app_kin_len app_kout_len app off_in off_out db s2)) app
    = f (uapp (init_resp cores_num app_kin_len app_kout_len app off_in off_out db s2) app)) by (intros; apply uapp_upd).
  destruct lens_ok as [Hk1 Hk2].
  constructor; rewrite ?Eu; cbn [ua_resp need_reg_ctx_done setf].
  - eexists. exact F5.
  - unfold init_resp, upd_resp. rewrite uapp_upd. cbn [ua_resp setf]. rewrite F1, Hr.
    cbn. rewrite Hqs, !u32_id, (u16_id cores_num); [done|unfold is_u16; lia|done|done].
  - done.
  - exact F3.
  - done.
  - exists pm_in, pm_out. reflexivity.
  - unfold init_resp, upd_resp. unfold req_rxq_len, req_txq_len. cbn [ua_req setf]. rewrite uapp_upd.
    cbn [ua_req setf]. rewrite F1. change (pm_owned lo hi (s_pm (ai_sp s2)) vm
      (qblocks (req_rxq_len (uapp s app)) (req_txq_len (uapp s app)) l ++ [(pm_out, off_out, app_kout_len); (pm_in, off_in, app_kin_len)])).
    rewrite F2, <- Erx, <- Etx. exact Hb.
Qed.

Lemma receive_request_ok e app evfd s s1 r :
  let vm := ap_vm_id (sapp s app) in
  receive_request cores_num app_kin_len app_kout_len e app evfd s = Some s1 ->
  0 <= vm < FLEXNIC_PL_VMST_NUM -> (exists F U, pm_ok lo hi (s_pm (ai_sp s)) F U) -> env_fresh e s ->
  is_u32 (req_rxq_len (uapp s app)) -> is_u32 (req_txq_len (uapp s app)) ->
  ua_resp (uapp s app) = Some r -> Z.of_nat (length (ur_qs r)) = cores_num ->
  need_reg_ctx (uapp s app) = 0 -> need_reg_ctx (uapp s1 app) <> 0 ->
  exists db off_in off_out l b, free_doorbells s = db :: free_doorbells s1
    /\ prepared app (rv_ctx e) vm db evfd off_in off_out l b s1 /\ need_reg_ctx (uapp s1 app) = rv_ctx e.
Proof using cores_ok lens_ok.
  intros vm H Hv Hpm Hf Hrx Htx Hr Hrl Hn0 Hn1. unfold receive_request in H. fold vm in H.
  assert (Hv' : 0 <= vm <= FLEXNIC_PL_VMST_NUM) by lia.
  destruct (Z.eqb_spec (rv_ctx e) 0) as [_|Hc].
  { apply error_need in H. unfold same_need in H. congruence. }
  apply bind_Some in H as ([r1 m1] & E1 & H). destruct r1 as [[off_in pm_in]|].
  2: { apply error_need in H. unfold same_need in H. exfalso. apply Hn1. rewrite H. exact Hn0. }
  destruct lens_ok as [Hk1 Hk2].
  destruct (packetmem_alloc_owned _ _ _ _ [] _ _ _ _ _ (pm_owned_nil _ _ _ _ Hpm) Hv' (proj1 Hk1) (malloc_fresh _ _ _ Hf) E1) as [Hb1 Hd1].
  set (s2 := set_pm m1 s) in *. pose proof (fresh_cons s s2 _ _ Hf Hd1) as Hf2.
  apply bind_Some in H as ([r2 m2] & E2 & H). destruct r2 as [[off_out pm_out]|].
  2: { apply error_pktmem_out_need in H. unfold same_need in H. exfalso. apply Hn1. rewrite H. exact Hn0. }
  destruct (packetmem_alloc_owned _ _ _ _ _ _ _ _ _ _ Hb1 Hv' (proj1 Hk2) (malloc_fresh _ _ _ Hf2) E2) as [Hb2 Hd2].
  set (s3 := set_pm m2 s2) in *. pose proof (fresh_cons s2 s3 _ _ Hf2 Hd2) as Hf3.
  apply bind_Some in H as ([[ok hs] s4] & E4 & H).
  change (uapp s3 app) with (uapp s app) in E4. pose proof (alloc_queues_frame _ _ _ _ _ _ _ _ _ _ _ E4) as Fr4.
  destruct ok; cbn [negb] in H.
  2: { apply error_pktmem_need in H. pose proof (resp_frame_need _ _ _ Fr4) as Hs. unfold same_need in H, Hs.
       exfalso. apply Hn1. rewrite H, Hs. exact Hn0. }
  destruct (alloc_queues_ok lo hi e app vm (req_rxq_len (uapp s app)) (req_txq_len (uapp s app)) (Z.to_nat cores_num) 0
              ∅ s3 _ hs s4 r Hv' (proj1 Hrx) (proj1 Htx) ltac:(lia) Hb2) as (l & Hl & Hbl & _ & Hrl4);
    [by rewrite Z2Nat.id by lia|exact Hr|lia|by rewrite Z2Nat.id by lia|].
  destruct Fr4 as [(m & shm & apps & Es4) [r4 Hu4]].
  assert (Ev : ap_vm_id (sapp s4 app) = vm) by by rewrite Es4.
  assert (Eq : req_rxq_len (uapp s4 app) = req_rxq_len (uapp s app) /\ req_txq_len (uapp s4 app) = req_txq_len (uapp s app)).
  { by rewrite Hu4. }
  destruct (receive_ready_ok e app (rv_ctx e) pm_in off_in pm_out off_out evfd hs s4 s1 l (req_rxq_len (uapp s app))
              (req_txq_len (uapp s app)) (r <| ur_qs := take (Z.to_nat 0) (ur_qs r) ++ map snd l |>) H Hc) as (db & b & Hd & Hp & Hn);
    [|exact Hn1|symmetry; apply Eq|symmetry; apply Eq|exact Hrl4|done|exact (eq_trans (f_equal Z.of_nat Hl) (Z2Nat.id _ (proj1 cores_ok)))|by rewrite Ev|].
  { rewrite Hu4. exact Hn0. }
  rewrite Ev in Hp. exists db, off_in, off_out, l, b. split; [|done]. rewrite <- Hd. by rewrite Es4.
Qed.

Lemma load32_u32 m a : (forall i, 0 <= m i < 256) -> is_u32 (load32 m a).
Proof using. intros H. unfold is_u32, load32. pose proof (H a). pose proof (H (a + 1)). pose proof (H (a + 2)). pose proof (H (a + 3)). lia. Qed.

Lemma receive_taken e app s s1 evfd r :
  uxsocket_receive cores_num app_kin_len app_kout_len e app s = Some s1 ->
  need_reg_ctx (uapp s app) = 0 -> need_reg_ctx (uapp s1 app) <> 0 -> rv_fds e = [evfd] ->
  0 <= ap_vm_id (sapp s app) < FLEXNIC_PL_VMST_NUM ->
  (exists F U, pm_ok lo hi (s_pm (ai_sp s)) F U) -> env_fresh e s ->
  (forall d, rv_data e = Some d -> Forall (fun x => 0 <= x < 256) d) -> (forall i, 0 <= ua_req (uapp s app) i < 256) ->
  ua_resp (uapp s app) = Some r -> Z.of_nat (length (ur_qs r)) = cores_num ->
  exists db off_in off_out l b, free_doorbells s = db :: free_doorbells s1
    /\ prepared app (rv_ctx e) (ap_vm_id (sapp s app)) db evfd off_in off_out l b s1
    /\ need_reg_ctx (uapp s1 app) = rv_ctx e.
Proof using cores_ok lens_ok.
  intros H Hn0 Hn1 Hfd Hv Hpm Hf Hd Hreq Hr Hrl. unfold uxsocket_receive in H. rewrite Hfd in H.
  cbn [length Nat.leb cassert mbind option_bind hd] in H. destruct (rv_data e) as [d|].
  2: { apply error_need in H. unfold same_need in H. congruence. }
  specialize (Hd d eq_refl). set (d' := take _ d) in H. set (s0 := upd_uapp app _ s) in H.
  assert (Eu : uapp s0 app = uapp s app <| ua_req ::= fun m => mem_write m 0 (Z.of_nat (length d')) (fun i => nth (Z.to_nat i) d' 0) |>)
    by apply uapp_upd.
  destruct (_ <? SIZEOF_REQUEST).
  { injection H as <-. rewrite uapp_upd, Eu in Hn1. done. }
  set (s2 := upd_uapp app _ s0) in H.
  assert (Eu2 : uapp s2 app = uapp s0 app <| ua_req_rx := 0 |>) by apply uapp_upd.
  assert (Hb : forall i, 0 <= ua_req (uapp s2 app) i < 256).
  { intros i. rewrite Eu2, Eu. cbn [ua_req setf]. unfold mem_write. destruct (_ && _); [|apply Hreq].
    destruct (decide (Z.to_nat (i - 0) < length d')%nat) as [Hlt|Hge].
    - assert (Hd' : Forall (fun x => 0 <= x < 256) d') by by apply Forall_take.
      rewrite Forall_forall in Hd'. apply Hd'. apply list_elem_of_In, nth_In. lia.
    - rewrite nth_overflow by lia. lia. }
  destruct (receive_request_ok e app evfd s2 s1 r H Hv Hpm Hf) as (db & oi & oo & l & b & Hx); try done.
  - apply load32_u32, Hb.
  - apply load32_u32, Hb.
  - rewrite Eu2, Eu. exact Hr.
  - rewrite Eu2, Eu. exact Hn0.
  - by exists db, oi, oo, l, b.
Qed.

End Request.

(** ** Registering the context, and the answer *)

Lemma foldl_insert_each {K A} `{Countable K, Inhabited A} (key : Z -> K) (f : Z -> A -> A) is_ : forall (h : gmap K A) i,
  (forall i j, key i = key j -> i = j) -> NoDup is_ -> i ∈ is_ ->
  foldl (fun h i => <[key i := f i (h !!! key i)]> h) h is_ !!! key i = f i (h !!! key i).
Proof.
  assert (Hout : forall is_ (h : gmap K A) i, (forall i j, key i = key j -> i = j) -> i ∉ is_ ->
    foldl (fun h i => <[key i := f i (h !!! key i)]> h) h is_ !!! key i = h !!! key i).
  { clear. intros is_. induction is_ as [|j is_ IH]; intros h i Hk Hi; [done|]. cbn [foldl].
    apply not_elem_of_cons in Hi as [Hne Hi]. rewrite IH by done.
    rewrite lookup_total_insert_ne; [done|]. intros E. by apply Hne, Hk. }
  induction is_ as [|j is_ IH]; intros h i Hk Hnd Hi; [by apply elem_of_nil in Hi|]. cbn [foldl].
  apply NoDup_cons in Hnd as [Hj Hnd]. apply elem_of_cons in Hi as [->|Hi].
  - rewrite Hout by done. by rewrite lookup_total_insert_eq.
  - rewrite IH by done. f_equal. rewrite lookup_total_insert_ne; [done|]. intros E. apply Hk in E. by subst.
Qed.

Lemma appctx_add_fp (cores vmid db rxl txl evfd : Z) (rxb txb : Z -> Z) (h : gmap (Z * Z * Z) fpctx) (i : Z) : 0 <= i < cores ->
  foldl (fun h i => appctx_len vmid db rxl txl i h)
    (foldl (fun h i => appctx_base vmid db rxl evfd rxb txb i h) h (seqZ 0 cores)) (seqZ 0 cores) !!! (i, vmid, db)
  = mk_fpctx vmid (rxb i) (txb i) rxl evfd rxl txl.
Proof.
  intros Hi. assert (Hin : i ∈ seqZ 0 cores) by (apply elem_of_seqZ; lia).
  assert (Hk : forall i j : Z, (i, vmid, db) = (j, vmid, db) -> i = j) by congruence.
  unfold appctx_len, appctx_base.
  rewrite (foldl_insert_each (fun i => (i, vmid, db)) (fun i x => x <| fx_tx_len := txl |> <| fx_rx_len := rxl |>))
    by (done || apply NoDup_seqZ).
  rewrite (foldl_insert_each (fun i => (i, vmid, db)) (fun i x => x <| fx_vm_id := vmid |> <| fx_rx_base := rxb i |>
             <| fx_tx_base := txb i |> <| fx_rx_avail := rxl |> <| fx_evfd := evfd |>))
    by (done || apply NoDup_seqZ).
  by destruct (h !!! (i, vmid, db)).
Qed.

Section Register.
Context (cores_num app_kin_len app_kout_len lo hi : Z).
Hypothesis cores_ok : 0 <= cores_num < 65536.

Lemma reg_ctx_ok app ctx vm db evfd off_in off_out l b s q vms cs :
  prepared cores_num app_kin_len app_kout_len lo hi app ctx vm db evfd off_in off_out l b s ->
  need_reg_ctx (uapp s app) = ctx -> ctx <> 0 ->
  registered (ai_reg s) vms cs -> 0 <= vm < FLEXNIC_PL_VMST_NUM -> 0 <= db < FLEXNIC_PL_APPCTX_NUM ->
  ap_id (sapp s app) < FLEXNIC_PL_APPST_NUM ->
  as_ctx_num (ai_appst s !!! ap_id (sapp s app)) + 1 < FLEXNIC_PL_APPST_CTX_NUM ->
  nb_rep (poll_to_ux s) q -> app <> 0 -> app ∉ q ->
  exists s', reg_ctx cores_num app s = Some (true, s')
    /\ prepared cores_num app_kin_len app_kout_len lo hi app ctx vm db evfd off_in off_out l b s'
    /\ (forall i, 0 <= i < cores_num -> ai_fp s' !!! (i, vm, db)
          = mk_fpctx vm (map snd l !!! Z.to_nat i).1 (map snd l !!! Z.to_nat i).2 (req_rxq_len (uapp s app)) evfd
              (req_rxq_len (uapp s app)) (req_txq_len (uapp s app)))
    /\ nb_rep (poll_to_ux s') (q ++ [app]) /\ ai_sent s' = ai_sent s
    /\ ua_comp_status (uapp s' app) = ua_comp_status (uapp s app).
Proof using.
  intros Hp Hn Hc Hreg Hv Hdb Hid Hcn Hq Ha Haq. unfold reg_ctx. rewrite Hn, (proj2 (Z.eqb_neq _ _) Hc).
  destruct Hp as [(next & Hx) Hr Hdone Hvm Hl Hm Ho].
  set (s0 := upd_uapp _ _ s).
  assert (Eu : uapp s0 app = uapp s app <| need_reg_ctx := 0 |>) by apply uapp_upd.
  rewrite Eu. cbn [ua_resp setf]. rewrite Hr. cbn [mbind option_bind].
  unfold live_ctx. rewrite (bool_decide_eq_true_2 (is_Some _)) by (by exists (mk_actx app ∅ (u32 (app_kin_len / SIZEOF_APPOUT)) 0 ∅ (u32 (app_kout_len / SIZEOF_APPIN)) 0 db evfd next)).
  cbn [cassert mbind option_bind].
  change (s_ctxs (ai_sp s0)) with (s_ctxs (ai_sp s)). change (sapp s0 app) with (sapp s app).
  rewrite (lookup_total_correct _ _ _ Hx). cbn [ac_doorbell ac_evfd ur_qs]. rewrite Hvm.
  unfold nicif_appctx_add. change (ai_appst s0) with (ai_appst s).
  rewrite (proj2 (Z.leb_gt _ _) Hid), (proj2 (Z.leb_gt _ _) Hcn).
  destruct (tas_register_appctx_ok _ _ _ vm db Hreg Hv Hdb) as (r' & Er & _).
  change (ai_reg s0) with (ai_reg s). rewrite Er. cbn [mbind option_bind negb Z.eqb].
  destruct (nb_enq_ok _ q app Hq Ha Haq) as (q' & Eq & Hq').
  cbn [poll_to_ux setf]. change (poll_to_ux s0) with (poll_to_ux s). rewrite Eq. cbn [mbind option_bind].
  eexists. split; [reflexivity|]. split; [|split_and!].
  - assert (Eu' : forall s', ai_apps s' = ai_apps s0 -> uapp s' app = uapp s app <| need_reg_ctx := 0 |>).
    { intros s' E. rewrite <- Eu. unfold uapp. by rewrite E. }
    constructor; rewrite ?Eu' by done; try done. by exists next.
  - intros i Hi. cbn [ai_fp setf]. rewrite appctx_add_fp by done. unfold req_rxq_len, req_txq_len. cbn [ua_req setf]. done.
  - exact Hq'.
  - done.
  - transitivity (ua_comp_status (uapp s0 app)); [done|by rewrite Eu].
Qed.

Lemma notify_app_ok app ctx vm db evfd off_in off_out l b s e :
  prepared cores_num app_kin_len app_kout_len lo hi app ctx vm db evfd off_in off_out l b s ->
  ua_comp_status (uapp s app) = 0 -> resp_sz cores_num <= nv_tx e -> nv_aev e = true -> nv_mod e = true ->
  exists s', uxsocket_notify_app cores_num e app s = Some s'
    /\ prepared cores_num app_kin_len app_kout_len lo hi app ctx vm db evfd off_in off_out l b s'
    /\ ux_ready (ai_ctxs s' !!! ctx) = true /\ ai_fp s' = ai_fp s
    /\ ai_sent s' = (app, mk_uxresp off_in off_out app_kin_len app_kout_len 0 (u16 db) cores_num (map snd l)) :: ai_sent s.
Proof using.
  intros [(next & Hx) Hr Hdone Hvm Hl Hm Ho] Hst Htx Haev Hmod. unfold uxsocket_notify_app.
  rewrite Hst, Hdone. cbn [negb Z.eqb]. unfold live_ctx.
  rewrite bool_decide_eq_true_2 by (by rewrite Hx). cbn [cassert mbind option_bind].
  change (uapp (upd_uctx ctx _ s) app) with (uapp s app). rewrite Hr. cbn [mbind option_bind].
  rewrite (proj2 (Z.ltb_ge _ _) Htx), Haev, Hmod. cbn [negb cassert mbind option_bind].
  eexists. split; [reflexivity|]. split; [|split_and!].
  - constructor; rewrite ?uapp_upd; try done. by exists next.
  - unfold upd_uapp, upd_uctx. cbn. by rewrite lookup_total_insert_eq.
  - done.
  - done.
Qed.
End Register.

(** ** The whole way *)

Lemma qblocks_in rxl txl l rxq txq off_rxq off_txq : (rxq, txq, (off_rxq, off_txq)) ∈ l ->
  (rxq, off_rxq, rxl) ∈ qblocks rxl txl l /\ (txq, off_txq, txl) ∈ qblocks rxl txl l.
Proof.
  induction l as [|[[r t] [o p]] l IH]; [by intros ?%elem_of_nil|]. cbn [qblocks]. rewrite !elem_of_app.
  intros [E|Hin]%elem_of_cons; [|destruct (IH Hin); tauto].
  injection E as <- <- <- <-. rewrite !elem_of_cons. tauto.
Qed.

Lemma u32_div n k : is_u32 n -> 0 < k -> u32 (n / k) = n / k.
Proof.
  intros [H1 H2] Hk. apply u32_id. split; [apply Z.div_pos; lia|].
  apply Z.div_lt_upper_bound; [done|]. nia.
Qed.

Section Agrees.
Context (cores_num app_kin_len app_kout_len lo hi : Z).
Hypothesis cores_ok : 0 <= cores_num <= FLEXTCP_MAX_FTCPCORES.
Hypothesis lens_ok : is_u32 app_kin_len /\ is_u32 app_kout_len.

Lemma prepared_resp_ok app ctx vm db evfd off_in off_out l b s :
  prepared cores_num app_kin_len app_kout_len lo hi app ctx vm db evfd off_in off_out l b s ->
  0 <= vm < FLEXNIC_PL_VMST_NUM ->
  uxresponse_ok (mk_uxresp off_in off_out app_kin_len app_kout_len 0 (u16 db) cores_num (map snd l)).
Proof using cores_ok lens_ok.
  intros [_ _ _ _ Hl (pm_in & pm_out & ->) Ho] Hv. unfold FLEXTCP_MAX_FTCPCORES in *.
  assert (Hu : forall h off len, (h, off, len) ∈ _ -> is_u64 off) by (intros h off len; apply (pm_owned_u64 _ _ _ vm _ h off len ltac:(lia) Ho)).
  unfold uxresponse_ok. cbn [ur_app_out_off ur_app_in_off ur_app_out_len ur_app_in_len ur_status ur_db_id ur_qs_num ur_qs].
  split_and!; try apply lens_ok; try apply u16_range; try cside.
  - eapply (Hu pm_in). apply elem_of_app. right. apply list_elem_of_further, list_elem_of_here.
  - eapply (Hu pm_out). apply elem_of_app. right. apply list_elem_of_here.
  - by rewrite length_map.
  - apply Forall_forall. intros q ([[rx tx] [o p]] & -> & Hin)%list_elem_of_fmap.
    destruct (qblocks_in (req_rxq_len (uapp s app)) (req_txq_len (uapp s app)) _ _ _ _ _ Hin) as [H1 H2].
    split; [eapply (Hu rx)|eapply (Hu tx)]; apply elem_of_app; left; eassumption.
Qed.

(** A request for a context that is taken, its registration, and the answer: the slow
    path, the fast path and the library then agree.  The library's rings have the sizes and
    the doorbell of the slow path's context, at the offsets of two blocks of the VM; the
    queues of each core are where its registers in the fast path say, with the lengths of
    the request; all these blocks are allocated and apart; the context is polled.  It makes
    no difference how the response is cut into pieces on its way. *)
Theorem context_agrees e nv app s s1 evfd r vm q vms cs :
  (* the request *)
  uxsocket_receive cores_num app_kin_len app_kout_len e app s = Some s1 ->
  need_reg_ctx (uapp s app) = 0 -> need_reg_ctx (uapp s1 app) <> 0 -> rv_fds e = [evfd] ->
  ap_vm_id (sapp s app) = vm -> 0 <= vm < FLEXNIC_PL_VMST_NUM ->
  (exists F U, pm_ok lo hi (s_pm (ai_sp s)) F U) -> env_fresh cores_num e s ->
  (forall d, rv_data e = Some d -> Forall (fun x => 0 <= x < 256) d) -> (forall i, 0 <= ua_req (uapp s app) i < 256) ->
  ua_resp (uapp s app) = Some r -> Z.of_nat (length (ur_qs r)) = cores_num ->
  (* registration *)
  ap_id (sapp s1 app) < FLEXNIC_PL_APPST_NUM ->
  as_ctx_num (ai_appst s1 !!! ap_id (sapp s1 app)) + 1 < FLEXNIC_PL_APPST_CTX_NUM ->
  0 <= hd 0 (free_doorbells s) < FLEXNIC_PL_APPCTX_NUM -> registered (ai_reg s1) vms cs ->
  nb_rep (poll_to_ux s1) q -> app <> 0 -> app ∉ q ->
  (* the answer *)
  ua_comp_status (uapp s1 app) = 0 -> resp_sz cores_num <= nv_tx nv -> nv_aev nv = true -> nv_mod nv = true ->
  exists s2 s3 resp b, reg_ctx cores_num app s1 = Some (true, s2)
    /\ uxsocket_notify_app cores_num nv app s2 = Some s3 /\ ai_sent s3 = (app, resp) :: ai_sent s1
    /\ ux_ready (ai_ctxs s3 !!! rv_ctx e) = true /\ pm_owned lo hi (s_pm (ai_sp s3)) vm b
    /\ (let x := s_ctxs (ai_sp s3) !!! rv_ctx e in
        (exists h h', (h, ur_app_out_off resp, app_kin_len) ∈ b /\ (h', ur_app_in_off resp, app_kout_len) ∈ b)
        /\ (forall i, 0 <= i < cores_num -> let f := ai_fp s3 !!! (i, vm, ac_doorbell x) in
              fx_rx_len f = req_rxq_len (uapp s1 app) /\ fx_tx_len f = req_txq_len (uapp s1 app)
              /\ fx_vm_id f = vm /\ fx_evfd f = evfd
              /\ (exists h h', (h, fx_rx_base f, fx_rx_len f) ∈ b /\ (h', fx_tx_base f, fx_tx_len f) ∈ b))
        /\ forall fuel mem ctx cs' rest, Forall (fun c => c <> []) cs' ->
             concat cs' = uxresponse_bytes resp ++ rest -> (length cs' < fuel)%nat ->
             exists st bases c, flextcp_kernel_newctx fuel false mem ctx (map Some cs') = Some (NewctxDone bases c, map Some st)
               /\ concat st = rest /\ lx_kin_len c = kin_len x /\ lx_kout_len c = kout_len x
               /\ lx_db_id c = ac_doorbell x /\ num_queues c = cores_num
               /\ cb_kin bases = mem + ur_app_out_off resp /\ cb_kout bases = mem + ur_app_in_off resp
               /\ forall i, 0 <= i < cores_num -> let f := ai_fp s3 !!! (i, vm, ac_doorbell x) in
                    cb_qs bases !! Z.to_nat i = Some (mem + fx_rx_base f, mem + fx_tx_base f)).
Proof using cores_ok lens_ok.
  intros H Hn0 Hn1 Hfd Hvm Hv Hpm Hf Hd Hreq Hr Hrl Hid Hcn Hdb Hreg Hq Ha Haq Hst Htx Haev Hmod.
  assert (cores_ok' : 0 <= cores_num < 65536) by (unfold FLEXTCP_MAX_FTCPCORES in cores_ok; lia).
  destruct (receive_taken cores_num app_kin_len app_kout_len lo hi cores_ok' lens_ok e app s s1 evfd r H Hn0 Hn1 Hfd ltac:(by rewrite Hvm) Hpm Hf Hd Hreq Hr Hrl)
    as (db & off_in & off_out & l & b & Edb & Hp & Hn). rewrite Edb in Hdb. cbn [hd] in Hdb. rewrite Hvm in Hp.
  assert (Hc : rv_ctx e <> 0) by congruence.
  destruct (reg_ctx_ok cores_num app_kin_len app_kout_len lo hi app (rv_ctx e) vm db evfd off_in off_out l b s1 q vms cs
              Hp Hn Hc Hreg Hv Hdb Hid Hcn Hq Ha Haq) as (s2 & E2 & Hp2 & Hfp & _ & Hs2 & Hst2).
  destruct (notify_app_ok cores_num app_kin_len app_kout_len lo hi app (rv_ctx e) vm db evfd off_in off_out l b s2 nv
              Hp2 ltac:(by rewrite Hst2) Htx Haev Hmod) as (s3 & E3 & Hp3 & Hrdy & Hfp3 & Hs3).
  pose proof (prepared_resp_ok _ _ _ _ _ _ _ _ _ _ Hp3 Hv) as Hrok.
  assert (Edb' : u16 db = db) by (apply u16_id; unfold is_u16, FLEXNIC_PL_APPCTX_NUM in *; lia). rewrite Edb' in *.
  set (resp := mk_uxresp _ _ _ _ _ _ _ _) in *.
  pose proof (pr_ctx _ _ _ _ _ _ _ _ _ _ _ _ _ _ _ Hp3) as [next Hx].
  pose proof (pr_owned _ _ _ _ _ _ _ _ _ _ _ _ _ _ _ Hp3) as Ho.
  pose proof (pr_qs _ _ _ _ _ _ _ _ _ _ _ _ _ _ _ Hp3) as Hl.
  pose proof (pr_mem _ _ _ _ _ _ _ _ _ _ _ _ _ _ _ Hp) as (pm_in & pm_out & Eb).
  exists s2, s3, resp, b. split; [done|]. split; [done|]. split; [by rewrite Hs3, Hs2|]. split; [done|]. split; [done|].
  rewrite (lookup_total_correct _ _ _ Hx). cbv zeta. cbn [ac_doorbell kin_len kout_len].
  assert (Hi : forall i, 0 <= i < cores_num -> exists rx tx, l !! Z.to_nat i
      = Some (rx, tx, (fx_rx_base (ai_fp s3 !!! (i, vm, db)), fx_tx_base (ai_fp s3 !!! (i, vm, db))))).
  { intros i Hi. rewrite Hfp3, (Hfp i Hi). cbn [fx_rx_base fx_tx_base].
    destruct (lookup_lt_is_Some_2 l (Z.to_nat i) ltac:(lia)) as [[[rx tx] [o p]] El].
    rewrite (list_lookup_total_correct (map snd l) (Z.to_nat i) (o, p)) by (exact (eq_trans (list_lookup_fmap snd l _) (f_equal (fmap snd) El))).
    by exists rx, tx. }
  split; [|split].
  - exists pm_in, pm_out. rewrite Eb, !elem_of_app, !elem_of_cons. cbn [ur_app_out_off ur_app_in_off resp]. tauto.
  - intros i Hic. destruct (Hi i Hic) as (rx & tx & El).
    rewrite Hfp3, (Hfp i Hic) in El |- *. cbn [fx_rx_len fx_tx_len fx_vm_id fx_evfd fx_rx_base fx_tx_base] in El |- *.
    split_and!; try done. apply list_elem_of_lookup_2 in El.
    destruct (qblocks_in (req_rxq_len (uapp s1 app)) (req_txq_len (uapp s1 app)) _ _ _ _ _ El) as [H1 H2].
    exists rx, tx. rewrite Eb, !elem_of_app. tauto.
  - intros fuel mem ctx cs' rest Hne Hcs Hfu.
    destruct (newctx_ok fuel mem ctx resp cs' rest Hrok eq_refl ltac:(cbn; lia) Hne Hcs Hfu)
      as (st & c & En & Hrest & Hk1 & Hk2 & Hk3 & Hk4 & _).
    eexists st, _, c. split; [exact En|]. split_and!; try done.
    + rewrite Hk1. symmetry. apply (u32_div app_kin_len 64); [apply lens_ok|done].
    + rewrite Hk2. symmetry. apply (u32_div app_kout_len 73); [apply lens_ok|done].
    + intros i Hic. destruct (Hi i Hic) as (rx & tx & El). cbn [cb_qs ur_qs resp].
      refine (eq_trans (list_lookup_fmap (fun q => (mem + q.1, mem + q.2)) (map snd l) _) _).
      exact (f_equal (fmap (fun q => (mem + q.1, mem + q.2))) (eq_trans (list_lookup_fmap snd l _) (f_equal (fmap snd) El))).
Qed.
End Agrees.
